(* ===== verification/_CoqProject ===== *)
-Q . S2P
Prelude.v
State.v
Spinlock.v
CString.v
Mmu.v
Mp.v
Cprintf.v
Kalloc.v
Vm.v
Uvm.v
Uvcopy.v
Sched.v
Bio.v
Ide.v
Log.v
Txn.v
Inode.v
Console.v
Kbd.v
Fs.v
Dir.v
Mkfs.v
Image.v
Pipe.v
File.v
Proc.v
Entry.v
Fork.v
Scheduler.v
Args.v
Uargs.v
Exec.v
Execstack.v
Execload.v
Bootmain.v
Sysfile.v
Descr.v
Syscall.v
Apic.v
Clock.v
Boot.v
Ulib.v
Sh.v
Uthread.v
Sim.v
Grep.v
Umalloc.v
LabSh.v
Threads.v
Wordheap.v
Canvas.v
Tools.v
Ls.v
Msgbox.v
Race.v
