(* ===== verification/Prelude.v ===== *)
(** A verification of the xv6 operating system and of the laboratory programs
    that accompany it.

    * The program

    src/xv6 is a small Unix for the x86: a kernel, a user library, a shell and
    other programs, the program mkfs that makes the initial disk image, and a boot loader.
    src/lab-01 to src/lab-08 are exercises of an operating systems course: programs
    for the host (a shell, threads, shared memory, a paging simulator) and changes to xv6.

    The parts of the kernel are layers.  Spin locks and interrupt nesting are
    at the bottom, then the console and the allocator of pages, page tables and address
    spaces, and the scheduling primitives [sleep] and [wakeup].  The file
    system is a stack of its own: the disk, the buffer cache, the log that makes
    groups of block writes atomic, inodes, the contents of files, directories.
    Pipes, open files and processes use both, and system calls and traps are
    the interface to user programs.

    * How the code is modelled

    A C function is a Rocq function of the same name.  Code that changes state
    is a program of the monad [prog] below: it maps a state to an [outcome], which is
    [Done] (it returns), [Panicked] (it calls [panic], exits with an error, or
    reads through a bad pointer, after which the C program has no meaning),
    [Swtch] (it gives the CPU away and carries on with a continuation) or [Diverged] (it does not
    return).  The whole kernel runs on the record [kernel] of State: a field for
    each global variable and table, the memory as a function from addresses to
    bytes, and a [hart] with the registers and CPUs.  An integer is a [Z], with [u32], [s32], [u8]
    and the like where the C type wraps around.  A pointer into a table is an
    index; a pointer to memory is an address.

    * The files

    Prelude: integers, little-endian words, arrays of bytes, the monad.
    State: the structs of the headers (proc.h, file.h, buf.h, fs.h, ...) as records.

    The machine and memory:
    - Spinlock (spinlock.c, [mycpu] of proc.c): modules [Cpu], [Lock], [Crit]
      (the effect of a critical section), [Nesting], [Mutex] (several CPUs
      interleave), [KLock] (the same functions on [kernel]).
    - CString (string.c), Mmu (mmu.h), Cprintf (the output half of console.c),
      Mp (mp.c).
    - Kalloc (kalloc.c), Vm (vm.c), Uvm and Uvcopy (what vm.c promises about
      address spaces: invariant [uvm], frame [vframe]).
    - Entry (trapasm.S, swtch.S, vectors.pl), Bootmain (bootmain.c).
    - Apic (lapic.c, ioapic.c, picirq.c, uart.c) and Clock ([cmostime] of lapic.c), on
      a record [board]: the kernel and a log of the accesses to device registers.
      What a device answers is a function of the log (the class [hardware]).
      Boot (main.c: [main] from [picinit] to [ideinit], [startothers], [entrypgdir]).

    The file system:
    - Bio (bio.c over memide.c; representation [brep]), Ide (ide.c, shown to do what memide.c does).
    - Log (log.c; commit and recovery), Txn (the class [BlockTxn] that states
      what the cache and the log promise to fs.c, and its instance).
    - Inode (fs.c: blocks, inodes), Fs ([readi], [writei]), Dir (directories and
      paths), proved against [BlockTxn].
    - Mkfs and Image (mkfs.c, and that the kernel can mount what it makes).

    Processes and system calls:
    - Sched ([sched], [sleep], [wakeup] of proc.c; sleeplock.c), Scheduler, Proc and Fork (the rest of proc.c).
    - Console and Kbd (console.c, kbd.c), Pipe and File (pipe.c, file.c).
    - Args and Uargs (the arguments in syscall.c), Exec (exec.c; Execload about the
      loading of a program, Execstack about its stack and the switch to it), Sysfile
      (sysfile.c; Descr about descriptors and reference counts), Syscall (sysproc.c,
      the dispatch in syscall.c, trap.c).

    User programs:
    - Ulib (ulib.c, printf.c), Umalloc (umalloc.c), Uthread (uthreadlib.c,
      uthread_switch.S), Sh (sh.c), Grep (grep.c), Tools (wc.c, cat.c and two
      programs of lab-01), Ls (ls.c).
    - LabSh (lab-02/sh.c), Threads (lab-05/buf.c, lab-04/glob.c), Race
      (lab-04/sched-threads.c, [test_thread] of lab-04/benchmark.c), Wordheap
      (lab-05/wordheap.c), Canvas (lab-05/canvas.c), Msgbox (lab-05/msgbox.c, over the
      class [queues] of the host's message queues), Sim (lab-07/sim.c).

    * What the theorems show

    - Crashes: whenever the disk writes of a commit stop, recovery finds all
      of the transaction or none of it ([commit_crash_atomic]); a transaction
      that ends is on the disk ([transaction_durable]).
    - Refinement: the buffer cache is a block store, the disk driver is the
      memory disk, a pipe is a queue, the page allocator a stack of distinct
      pages, a file a list of bytes, the console a line editor, the image of
      mkfs a file system that the kernel's invariants accept.
    - Concurrency: at most one CPU holds a spin lock; no wakeup is lost between
      the release of a lock and [sleep]; the scheduler runs every runnable process;
      the bounded buffer of lab 5 is correct under every interleaving and ends;
      the word heap is a queue, and deadlocks in a way that is made precise; the
      racing counter of lab 4 prints exactly the numbers from 2 to twice its turns, and
      the racing writers of lab 4 stay inside their buffer ([buffer_race_safe]).
    - Memory: address spaces share no page, [fork] copies privately, [freevm]
      returns every page once, [malloc] and [free] never hand out overlapping blocks;
      system calls check user pointers.
    - Programs: [exec] loads what the file describes, [main] finds its arguments on
      the stack, and an [exec] that fails leaves the process as it was.
    - Descriptors: reference counts are the numbers of descriptors, and the last
      [close] releases the file ([descriptors_counted]).
    - Registers: traps and context switches restore what they saved.
    - Devices: which interrupts arrive where after the start ([interrupts_routed]), that
      the other processors are started by the protocol ([startothers_starts]), that
      the date is one the clock showed ([cmostime_reads_clock]).
    - Messages: a mailbox prints what was sent, in order ([mailbox_delivers]).
    - Parsers and matchers: both shells parse exactly their grammars, grep finds a
      match exactly when the language of the pattern has one in the line.
    - Termination: every theorem about a function gives its outcome as an equation, so that it
      shows that the function returns; [mpinit_ends] tells on which tables [mpinit] does not.
    - Defects are proved too, as lemmas about concrete or general states
      ([mpinit_hangs], [wordheap_deadlock], [lru_is_fifo], [memmove_smears], ...).

    A theorem with hypotheses is followed, at the end of its file, by a lemma
    [..._witness] that applies it to a concrete state.

    * Bounds and fuel

    A loop whose recursion is not structural takes fuel, which is computed from the arguments so that it
    is always enough: the length of the line for the parsers, the number of
    pages or blocks for loops over memory and files, the length of the list for linked lists.  The theorems
    give the outcome [Done] (or its equivalent), which shows that the fuel was not
    spent.  A loop that waits for another process takes at most [k_wakes] turns,
    a field of the state about which the theorems assume nothing, or only that it is not 0; spinning for a
    lock that no one will release is [Diverged].  A loop that waits for a device or another processor takes
    a bound [turns] as an argument; the theorems assume that the device is ready within it.

    * Not modelled

    - How an interrupt reaches a processor: interrupts are calls of [trap], and Boot tells
      only how the controllers are set.
    - [mpenter], [mpmain] and the composition of the whole of [main] (main.c): the functions they call
      are modelled, on the states of their own components; bootasm.S, entry.S,
      entryother.S, initcode.S: the start of the machine, before or outside the C state.
    - usys.S, defs.h, user.h: stubs and prototypes.
    - Programs that only pass their arguments to system calls (echo, ln,
      mkdir, rm, kill, init, ...) and the tests (usertests.c, forktest.c, stressfs.c).
    - The programs of labs 1, 3, 4 and 6 to 8 that call single services of the host or
      measure its scheduler (forkprio.c, threads.c, [test_fork] of benchmark.c, ...): what they do is what
      the host does.
    - lab-07/sys_pgcnt.c, whose braces do not match.
    - Time: [usleep] and the clock have no length, only an order; weak memory: accesses
      of several CPUs interleave; the queue of the disk driver is not connected to the
      file system, which runs over the memory disk, its equal by [ide_as_memide]. *)

From Stdlib Require Export ZArith Lia ZifyBool.
From stdpp Require Export base numbers functions strings gmap sets option list.

#[export] Set Default Goal Selector "!".
Global Open Scope Z_scope.

(** * Machine integers

    A C integer is a [Z] in the range of its type.  [u8], [u16] and [u32] wrap
    into [uchar], [ushort] and [uint]; [s16] and [s32] into [short] and [int]. *)

Definition u8 (z : Z) : Z := z mod 256.
Definition u16 (z : Z) : Z := z mod 65536.
Definition u32 (z : Z) : Z := z mod 4294967296.
Definition s16 (z : Z) : Z := (z + 32768) mod 65536 - 32768.
Definition s32 (z : Z) : Z := (z + 2147483648) mod 4294967296 - 2147483648.

Definition is_u8 (z : Z) : Prop := 0 ≤ z < 256.
Definition is_u32 (z : Z) : Prop := 0 ≤ z < 4294967296.

Lemma u8_range z : is_u8 (u8 z).
Proof. unfold is_u8, u8. apply Z.mod_pos_bound. lia. Qed.

Lemma u32_range z : is_u32 (u32 z).
Proof. unfold is_u32, u32. apply Z.mod_pos_bound. lia. Qed.

Lemma u8_small z : is_u8 z → u8 z = z.
Proof. intros H. apply Z.mod_small, H. Qed.

Lemma u32_small z : is_u32 z → u32 z = z.
Proof. intros H. apply Z.mod_small, H. Qed.

Lemma u16_small z : 0 ≤ z < 65536 → u16 z = z.
Proof. intros H. apply Z.mod_small, H. Qed.

Lemma s32_small z : -2147483648 ≤ z < 2147483648 → s32 z = z.
Proof. intros H. unfold s32. rewrite Z.mod_small; lia. Qed.

Lemma s16_small z : -32768 ≤ z < 32768 → s16 z = z.
Proof. intros H. unfold s16. rewrite Z.mod_small; lia. Qed.

Lemma u32_u32 z : u32 (u32 z) = u32 z.
Proof. apply u32_small, u32_range. Qed.

Lemma u32_add_l a b : u32 (u32 a + b) = u32 (a + b).
Proof. unfold u32. apply Z.add_mod_idemp_l. lia. Qed.

Lemma u32_add_r a b : u32 (a + u32 b) = u32 (a + b).
Proof. unfold u32. apply Z.add_mod_idemp_r. lia. Qed.

(** [zdiv]: linear arithmetic that knows division and remainder. *)
Ltac zdiv := Z.div_mod_to_equations; lia.

(** * Little-endian encodings *)

Fixpoint le_enc (n : nat) (z : Z) : list Z :=
  match n with
  | O => []
  | S n' => z mod 256 :: le_enc n' (z / 256)
  end.

Fixpoint le_dec (bs : list Z) : Z :=
  match bs with
  | [] => 0
  | b :: bs' => b + 256 * le_dec bs'
  end.

Lemma length_le_enc n z : length (le_enc n z) = n.
Proof. revert z. induction n; intros; simpl; auto. Qed.

Lemma le_enc_bytes n z : Forall is_u8 (le_enc n z).
Proof.
  revert z. induction n; intros z; simpl; constructor; auto.
  apply Z.mod_pos_bound. lia.
Qed.

Lemma le_dec_enc n z : le_dec (le_enc n z) = z mod 256 ^ Z.of_nat n.
Proof.
  revert z. induction n as [|n IH]; intros z; cbn [le_enc le_dec].
  - by rewrite Z.mod_1_r.
  - rewrite IH, Nat2Z.inj_succ, Z.pow_succ_r by lia.
    rewrite Z.rem_mul_r by (try apply Z.pow_nonzero; lia). lia.
Qed.

Lemma le_enc_dec bs : Forall is_u8 bs → le_enc (length bs) (le_dec bs) = bs.
Proof.
  induction 1 as [|b bs Hb _ IH]; [done|]. cbn [length le_enc le_dec].
  unfold is_u8 in Hb. f_equal.
  - rewrite Z.mul_comm, Z.mod_add, Z.mod_small by lia. done.
  - rewrite Z.add_comm, Z.mul_comm, Z.div_add_l, Z.div_small by lia.
    by rewrite Z.add_0_r.
Qed.

Lemma le_dec_range bs : Forall is_u8 bs → 0 ≤ le_dec bs < 256 ^ Z.of_nat (length bs).
Proof.
  induction 1 as [|b bs Hb _ IH]; [simpl; lia|]. cbn [length le_dec].
  unfold is_u8 in Hb. rewrite Nat2Z.inj_succ, Z.pow_succ_r by lia. lia.
Qed.

Lemma le_dec_enc4 z : le_dec (le_enc 4 z) = u32 z.
Proof. by rewrite le_dec_enc. Qed.

Lemma le_dec_enc2 z : le_dec (le_enc 2 z) = u16 z.
Proof. by rewrite le_dec_enc. Qed.

#[global] Arguments le_enc : simpl never.
#[global] Arguments le_dec : simpl never.

(** * Lists as arrays of bytes *)

(** [splice l off bs]: overwrite [l] from offset [off] with [bs]. *)
Definition splice {A} (l : list A) (off : nat) (bs : list A) : list A :=
  take off l ++ bs ++ drop (off + length bs) l.

(** [slice l off n]: the [n] elements of [l] from offset [off]. *)
Definition slice {A} (l : list A) (off n : nat) : list A := take n (drop off l).

Section arrays.
Context {A : Type}.
Implicit Types l bs : list A.

Lemma length_splice l off bs :
  (off + length bs ≤ length l)%nat → length (splice l off bs) = length l.
Proof.
  intros H. unfold splice. rewrite !length_app, length_take, length_drop. lia.
Qed.

Lemma length_slice l off n :
  (off + n ≤ length l)%nat → length (slice l off n) = n.
Proof. intros H. unfold slice. rewrite length_take, length_drop. lia. Qed.

Lemma lookup_splice l off bs i :
  (off + length bs ≤ length l)%nat →
  splice l off bs !! i =
    if decide (off ≤ i < off + length bs)%nat then bs !! (i - off)%nat else l !! i.
Proof.
  intros H. unfold splice.
  assert (Hlen : length (take off l) = off) by (rewrite length_take; lia).
  case_decide as Hi.
  - rewrite lookup_app_r, Hlen by lia. by rewrite lookup_app_l by lia.
  - destruct (decide (i < off)%nat) as [Hlt|Hge].
    + rewrite lookup_app_l by lia. by apply lookup_take_lt.
    + rewrite lookup_app_r, Hlen by lia. rewrite lookup_app_r by lia.
      rewrite lookup_drop. f_equal. lia.
Qed.

Lemma lookup_slice l off n i :
  slice l off n !! i = if decide (i < n)%nat then l !! (off + i)%nat else None.
Proof.
  unfold slice. case_decide.
  - by rewrite lookup_take_lt, lookup_drop by done.
  - by rewrite lookup_take_ge by lia.
Qed.

Lemma slice_splice_same l off bs :
  (off + length bs ≤ length l)%nat → slice (splice l off bs) off (length bs) = bs.
Proof.
  intros H. apply list_eq. intros i. rewrite lookup_slice. case_decide as Hi.
  - rewrite lookup_splice by done. rewrite decide_True by lia. f_equal. lia.
  - symmetry. apply lookup_ge_None. lia.
Qed.

Lemma slice_splice_disjoint l off bs off' n :
  (off + length bs ≤ length l)%nat →
  (off' + n ≤ off ∨ off + length bs ≤ off')%nat →
  slice (splice l off bs) off' n = slice l off' n.
Proof.
  intros H Hd. apply list_eq. intros i. rewrite !lookup_slice. case_decide as Hi; [|done].
  rewrite lookup_splice by done. by rewrite decide_False by lia.
Qed.

Lemma Forall_splice (P : A → Prop) l off bs :
  Forall P l → Forall P bs → Forall P (splice l off bs).
Proof.
  intros Hl Hb. unfold splice. apply Forall_app. split; [by apply Forall_take|].
  apply Forall_app. split; [done|by apply Forall_drop].
Qed.

Lemma Forall_slice (P : A → Prop) l off n : Forall P l → Forall P (slice l off n).
Proof. intros Hl. by apply Forall_take, Forall_drop. Qed.

(** The first index of [l] whose element passes [f]. *)
Fixpoint find_index (f : A → bool) l : option nat :=
  match l with
  | [] => None
  | x :: l' => if f x then Some 0%nat else S <$> find_index f l'
  end.

Lemma find_index_Some f l i :
  find_index f l = Some i ↔
    (∃ x, l !! i = Some x ∧ f x = true) ∧
    ∀ j y, (j < i)%nat → l !! j = Some y → f y = false.
Proof.
  revert i. induction l as [|x l IH]; intros i; simpl.
  - split; [done|]. intros [(y & Hy & _) _]. by rewrite lookup_nil in Hy.
  - destruct (f x) eqn:Hfx.
    + split.
      * intros [= <-]. split; [by exists x|]. intros j y Hj. lia.
      * intros [_ Hmin]. destruct i as [|i]; [done|].
        rewrite (Hmin 0%nat x) in Hfx; [done|lia|done].
    + split.
      * intros H. apply fmap_Some in H as (i' & Hi' & ->).
        apply IH in Hi' as [Hex Hmin]. split; [done|].
        intros [|j] y Hj Hy; simpl in Hy; [congruence|]. apply (Hmin j); [lia|done].
      * intros [(y & Hy & Hfy) Hmin]. destruct i as [|i]; simpl in Hy; [congruence|].
        assert (find_index f l = Some i) as ->; [|done].
        apply IH. split; [eauto|]. intros j z Hj Hz. apply (Hmin (S j)); [lia|done].
Qed.

Lemma find_index_None f l :
  find_index f l = None ↔ ∀ i x, l !! i = Some x → f x = false.
Proof.
  induction l as [|x l IH]; simpl.
  - split; [|done]. intros _ i x Hx. by rewrite lookup_nil in Hx.
  - destruct (f x) eqn:Hfx.
    + split; [done|]. intros H. specialize (H 0%nat x eq_refl). congruence.
    + rewrite fmap_None, IH. split.
      * intros H [|i] y Hy; simpl in Hy; [congruence|eauto].
      * intros H i y Hy. by apply (H (S i)).
Qed.

Lemma find_index_lt f l i : find_index f l = Some i → (i < length l)%nat.
Proof. intros [(x & Hx & _) _]%find_index_Some. by apply lookup_lt_Some in Hx. Qed.

(** A change of one element that the test cannot see. *)
Lemma find_index_alter f (g : A → A) n i l :
  (∀ x, f (g x) = f x) → find_index f (take n (alter g i l)) = find_index f (take n l).
Proof.
  intros Hg. revert n i. induction l as [|x l IH]; intros [|n] i; try done.
  destruct i as [|i]; simpl.
  - by rewrite Hg.
  - destruct (f x); [done|]. f_equal. apply IH.
Qed.
End arrays.

(** * Outcomes of kernel code

    A C function of the kernel either returns, panics, gives up the CPU through
    [swtch] (and carries on with the continuation when the scheduler switches
    back to it), or never returns on this execution (it spins on a lock another
    CPU holds, or the fuel of an unbounded loop is spent). *)

Inductive outcome (S A : Type) : Type :=
| Done (a : A) (s : S)
| Panicked (msg : string)
| Swtch (s : S) (k : S → outcome S A)
| Diverged.
Arguments Done {S A} a s.
Arguments Panicked {S A} msg.
Arguments Swtch {S A} s k.
Arguments Diverged {S A}.

Fixpoint obind {S A B} (o : outcome S A) (f : A → S → outcome S B) : outcome S B :=
  match o with
  | Done a s => f a s
  | Panicked msg => Panicked msg
  | Swtch s k => Swtch s (λ s', obind (k s') f)
  | Diverged => Diverged
  end.

Section monad.
Context {S : Type}.

Definition prog (A : Type) : Type := S → outcome S A.

Definition ret {A} (a : A) : prog A := λ s, Done a s.
Definition bind {A B} (m : prog A) (f : A → prog B) : prog B := λ s, obind (m s) f.
Definition panic {A} (msg : string) : prog A := λ _, Panicked msg.
Definition diverge {A} : prog A := λ _, Diverged.
Definition get : prog S := λ s, Done s s.
Definition gets {A} (f : S → A) : prog A := λ s, Done (f s) s.
Definition modify (f : S → S) : prog unit := λ s, Done tt (f s).

(** [deref o]: follow a pointer.  Behind a null or dangling one the C program
    has no meaning, and the model stops there. *)
Definition deref {A} (o : option A) : prog A :=
  match o with
  | Some a => ret a
  | None => panic "page fault"
  end.

(** [for_each xs body]: a [for] loop whose body neither breaks nor returns. *)
Fixpoint for_each {A} (xs : list A) (body : A → prog unit) : prog unit :=
  match xs with
  | [] => ret tt
  | x :: xs' => bind (body x) (λ _, for_each xs' body)
  end.

(** [for_return xs body]: a [for] loop whose body may return from the function. *)
Fixpoint for_return {A R} (xs : list A) (body : A → prog (option R)) : prog (option R) :=
  match xs with
  | [] => ret None
  | x :: xs' =>
      bind (body x) (λ r, match r with
                          | Some v => ret (Some v)
                          | None => for_return xs' body
                          end)
  end.

(** [wp E m Q s]: from [s], [m] returns with [Q], or panics with a message
    that [E] allows; it neither sleeps nor diverges. *)
Definition wp {A} (E : string → Prop) (m : prog A) (Q : A → S → Prop) (s : S) : Prop :=
  match m s with
  | Done a s' => Q a s'
  | Panicked msg => E msg
  | _ => False
  end.

Definition no_panic : string → Prop := λ _, False.

Lemma wp_ret {A} E (a : A) (Q : A → S → Prop) s : Q a s → wp E (ret a) Q s.
Proof. done. Qed.

Lemma wp_bind {A B} E (m : prog A) (f : A → prog B) Q s :
  wp E m (λ a, wp E (f a) Q) s → wp E (bind m f) Q s.
Proof. unfold wp, bind. by destruct (m s). Qed.

Lemma wp_mono {A} E E' (m : prog A) Q Q' s :
  wp E m Q s → (∀ msg, E msg → E' msg) → (∀ a s', Q a s' → Q' a s') → wp E' m Q' s.
Proof. unfold wp. destruct (m s); eauto. Qed.

Lemma wp_gets {A} E (f : S → A) Q s : Q (f s) s → wp E (gets f) Q s.
Proof. done. Qed.

Lemma wp_modify E (f : S → S) Q s : Q tt (f s) → wp E (modify f) Q s.
Proof. done. Qed.

Lemma wp_done {A} E (m : prog A) Q s a s' : m s = Done a s' → Q a s' → wp E m Q s.
Proof. unfold wp. by intros ->. Qed.

Lemma wp_no_panic {A} (m : prog A) Q s :
  wp no_panic m Q s ↔ ∃ a s', m s = Done a s' ∧ Q a s'.
Proof.
  unfold wp, no_panic. split.
  - destruct (m s); naive_solver.
  - by intros (a & s' & -> & HQ).
Qed.

Lemma bind_done {A B} (m : prog A) (f : A → prog B) s a s' :
  m s = Done a s' → bind m f s = f a s'.
Proof. unfold bind. by intros ->. Qed.

Lemma bind_panicked {A B} (m : prog A) (f : A → prog B) s msg :
  m s = Panicked msg → bind m f s = Panicked msg.
Proof. unfold bind. by intros ->. Qed.
End monad.
Arguments prog S A : clear implicits.

(** [solve_ifs]: split on every test of the goal; arithmetic rules out the
    branches that cannot be taken. *)
Ltac solve_ifs :=
  repeat match goal with
  | |- context [if ?b then _ else _] =>
      lazymatch type of b with
      | bool => let E := fresh "Hb" in destruct b eqn:E; try (exfalso; lia)
      end
  end.

(** The database of the arithmetic and array facts that close side conditions. *)
Create HintDb kernel discriminated.
#[export] Hint Resolve u8_range u32_range le_enc_bytes Forall_splice Forall_slice : kernel.

Declare Scope prog_scope.
Delimit Scope prog_scope with prog.
Notation "x <- m ;; k" := (bind m (λ x, k))
  (at level 100, m at next level, right associativity) : prog_scope.
Notation "m ;;; k" := (bind m (λ _, k))
  (at level 100, right associativity) : prog_scope.
Global Open Scope prog_scope.

(** [zoom get put m]: run [m] on a part of the state. *)
Fixpoint zoom_outcome {S T A} (get : S → T) (put : T → S → S) (s : S)
    (o : outcome T A) : outcome S A :=
  match o with
  | Done a t => Done a (put t s)
  | Panicked msg => Panicked msg
  | Swtch t k => Swtch (put t s) (λ s', zoom_outcome get put s' (k (get s')))
  | Diverged => Diverged
  end.

Definition zoom {S T A} (get : S → T) (put : T → S → S) (m : prog T A) : prog S A :=
  λ s, zoom_outcome get put s (m (get s)).

Lemma zoom_done {S T A} (get : S → T) put (m : prog T A) s a t :
  m (get s) = Done a t → zoom get put m s = Done a (put t s).
Proof. unfold zoom. by intros ->. Qed.

Lemma zoom_panicked {S T A} (get : S → T) put (m : prog T A) s msg :
  m (get s) = Panicked msg → zoom get put m s = Panicked msg.
Proof. unfold zoom. by intros ->. Qed.

(** [run H]: take the next call of a program with the equation [H] of that call. *)
Tactic Notation "run" uconstr(H) :=
  erewrite bind_done; [|eapply H; eauto with kernel].

(** [case_bool]: split on a boolean test of the goal and turn it into a proposition. *)
Ltac case_bool :=
  match goal with
  | |- context [if ?b then _ else _] => let E := fresh "Hb" in destruct b eqn:E
  end.
