(* ===== verification/State.v ===== *)
(** The data of the kernel: the [struct]s and global variables of xv6, and the
    state a kernel program runs on.

    A pointer into a static array ([struct proc *], [struct inode *], ...) is an
    index, null being [None]; a pointer to a page of memory is its address.  The
    embedded spin locks live in one table, [h_locks], under the name of the
    variable that embeds them; so do the sleep locks, in [k_slocks]. *)

From S2P Require Import Prelude.

(** * Constants: param.h, fs.h, mmu.h, memlayout.h, stat.h, buf.h, fcntl.h *)

Definition NPROC : nat := 64.
Definition KSTACKSIZE : Z := 4096.
Definition NCPU : nat := 8.
Definition NOFILE : nat := 16.
Definition NFILE : nat := 100.
Definition NINODE : nat := 50.
Definition NDEV : Z := 10.
Definition ROOTDEV : Z := 1.
Definition MAXARG : Z := 32.
Definition MAXOPBLOCKS : Z := 10.
Definition LOGSIZE : Z := MAXOPBLOCKS * 3.
Definition NBUF : nat := 30.
Definition FSSIZE : Z := 1000.

Definition ROOTINO : Z := 1.
Definition BSIZE : Z := 512.
Definition NDIRECT : Z := 12.
Definition NINDIRECT : Z := BSIZE / 4.
Definition MAXFILE : Z := NDIRECT + NINDIRECT.
Definition IPB : Z := BSIZE / 64.
Definition BPB : Z := BSIZE * 8.
Definition DIRSIZ : nat := 14.

Definition PGSIZE : Z := 4096.
Definition NPDENTRIES : nat := 1024.
Definition FL_IF : Z := 512.
Definition EXTMEM : Z := 0x100000.
Definition PHYSTOP : Z := 0xE000000.
Definition DEVSPACE : Z := 0xFE000000.
Definition KERNBASE : Z := 0x80000000.
Definition KERNLINK : Z := KERNBASE + EXTMEM.
Definition V2P (a : Z) : Z := u32 (a - KERNBASE).
Definition P2V (a : Z) : Z := u32 (a + KERNBASE).

Definition T_DIR : Z := 1.
Definition T_FILE : Z := 2.
Definition T_DEV : Z := 3.
Definition CONSOLE : Z := 1.

Definition B_VALID : Z := 2.
Definition B_DIRTY : Z := 4.

Definition PIPESIZE : Z := 512.
Definition INPUT_BUF : Z := 128.

(** * Names of locks and sleep channels *)

(** A sleep lock: the one in a buffer or the one in an in-memory inode. *)
Inductive slockid := SLBuf (i : nat) | SLInode (i : nat).

(** A spin lock, named by the variable it is embedded in. *)
Inductive lockid :=
| LPtable | LKmem | LTicks | LCons | LBcache | LIcache | LFtable | LLog | LIde
| LPipe (p : Z)
| LSleep (l : slockid).

(** The addresses processes sleep on. *)
Inductive chan :=
| ChProc (i : nat)
| ChBuf (i : nat)
| ChLog
| ChTicks
| ChSlock (l : slockid)
| ChNread (p : Z)
| ChNwrite (p : Z)
| ChInput.

#[export] Instance slockid_eq_dec : EqDecision slockid.
Proof. solve_decision. Defined.
#[export] Instance lockid_eq_dec : EqDecision lockid.
Proof. solve_decision. Defined.
#[export] Instance chan_eq_dec : EqDecision chan.
Proof. solve_decision. Defined.

Definition slockid_enc (l : slockid) : nat + nat :=
  match l with SLBuf i => inl i | SLInode i => inr i end.
Definition slockid_of (x : nat + nat) : slockid :=
  match x with inl i => SLBuf i | inr i => SLInode i end.
#[export] Instance slockid_countable : Countable slockid.
Proof. refine (inj_countable' slockid_enc slockid_of _). by intros []. Defined.

Definition lockid_enc (l : lockid) : nat + Z + slockid :=
  match l with
  | LPtable => inl (inl 0%nat) | LKmem => inl (inl 1%nat) | LTicks => inl (inl 2%nat)
  | LCons => inl (inl 3%nat) | LBcache => inl (inl 4%nat) | LIcache => inl (inl 5%nat)
  | LFtable => inl (inl 6%nat) | LLog => inl (inl 7%nat) | LIde => inl (inl 8%nat)
  | LPipe p => inl (inr p)
  | LSleep l => inr l
  end.
Definition lockid_of (x : nat + Z + slockid) : lockid :=
  match x with
  | inl (inl 0%nat) => LPtable | inl (inl 1%nat) => LKmem | inl (inl 2%nat) => LTicks
  | inl (inl 3%nat) => LCons | inl (inl 4%nat) => LBcache | inl (inl 5%nat) => LIcache
  | inl (inl 6%nat) => LFtable | inl (inl 7%nat) => LLog | inl (inl _) => LIde
  | inl (inr p) => LPipe p
  | inr l => LSleep l
  end.
#[export] Instance lockid_countable : Countable lockid.
Proof. refine (inj_countable' lockid_enc lockid_of _). by intros []. Defined.

(** * Locks and CPUs: spinlock.h, sleeplock.h, mmu.h, proc.h *)

(** [struct spinlock], less the call stack [pcs] recorded for debugging. *)
Record spinlock := mkSpinlock {
  lk_locked : Z;
  lk_name : string;
  lk_cpu : option nat;
}.

Definition with_lk_locked (v : Z) (r : spinlock) : spinlock :=
  mkSpinlock v (lk_name r) (lk_cpu r).
Definition with_lk_name (v : string) (r : spinlock) : spinlock :=
  mkSpinlock (lk_locked r) v (lk_cpu r).
Definition with_lk_cpu (v : option nat) (r : spinlock) : spinlock :=
  mkSpinlock (lk_locked r) (lk_name r) v.

(** [struct sleeplock]; its [lk] is [LSleep] of its name. *)
Record sleeplock := mkSleeplock {
  sl_locked : Z;
  sl_name : string;
  sl_pid : Z;
}.

Definition with_sl_locked (v : Z) (r : sleeplock) : sleeplock :=
  mkSleeplock v (sl_name r) (sl_pid r).
Definition with_sl_name (v : string) (r : sleeplock) : sleeplock :=
  mkSleeplock (sl_locked r) v (sl_pid r).
Definition with_sl_pid (v : Z) (r : sleeplock) : sleeplock :=
  mkSleeplock (sl_locked r) (sl_name r) v.

(** [struct segdesc]: a segment descriptor, one field per bit field. *)
Record segdesc := mkSegdesc {
  lim_15_0 : Z;
  base_15_0 : Z;
  base_23_16 : Z;
  sd_type : Z;
  sd_s : Z;
  sd_dpl : Z;
  sd_p : Z;
  lim_19_16 : Z;
  sd_avl : Z;
  sd_rsv1 : Z;
  sd_db : Z;
  sd_g : Z;
  base_31_24 : Z;
}.

Definition with_lim_15_0 (v : Z) (r : segdesc) : segdesc :=
  mkSegdesc v (base_15_0 r) (base_23_16 r) (sd_type r) (sd_s r) (sd_dpl r) (sd_p r)
    (lim_19_16 r) (sd_avl r) (sd_rsv1 r) (sd_db r) (sd_g r) (base_31_24 r).
Definition with_base_15_0 (v : Z) (r : segdesc) : segdesc :=
  mkSegdesc (lim_15_0 r) v (base_23_16 r) (sd_type r) (sd_s r) (sd_dpl r) (sd_p r)
    (lim_19_16 r) (sd_avl r) (sd_rsv1 r) (sd_db r) (sd_g r) (base_31_24 r).
Definition with_base_23_16 (v : Z) (r : segdesc) : segdesc :=
  mkSegdesc (lim_15_0 r) (base_15_0 r) v (sd_type r) (sd_s r) (sd_dpl r) (sd_p r)
    (lim_19_16 r) (sd_avl r) (sd_rsv1 r) (sd_db r) (sd_g r) (base_31_24 r).
Definition with_sd_type (v : Z) (r : segdesc) : segdesc :=
  mkSegdesc (lim_15_0 r) (base_15_0 r) (base_23_16 r) v (sd_s r) (sd_dpl r) (sd_p r)
    (lim_19_16 r) (sd_avl r) (sd_rsv1 r) (sd_db r) (sd_g r) (base_31_24 r).
Definition with_sd_s (v : Z) (r : segdesc) : segdesc :=
  mkSegdesc (lim_15_0 r) (base_15_0 r) (base_23_16 r) (sd_type r) v (sd_dpl r) (sd_p r)
    (lim_19_16 r) (sd_avl r) (sd_rsv1 r) (sd_db r) (sd_g r) (base_31_24 r).
Definition with_sd_dpl (v : Z) (r : segdesc) : segdesc :=
  mkSegdesc (lim_15_0 r) (base_15_0 r) (base_23_16 r) (sd_type r) (sd_s r) v (sd_p r)
    (lim_19_16 r) (sd_avl r) (sd_rsv1 r) (sd_db r) (sd_g r) (base_31_24 r).
Definition with_sd_p (v : Z) (r : segdesc) : segdesc :=
  mkSegdesc (lim_15_0 r) (base_15_0 r) (base_23_16 r) (sd_type r) (sd_s r) (sd_dpl r) v
    (lim_19_16 r) (sd_avl r) (sd_rsv1 r) (sd_db r) (sd_g r) (base_31_24 r).
Definition with_lim_19_16 (v : Z) (r : segdesc) : segdesc :=
  mkSegdesc (lim_15_0 r) (base_15_0 r) (base_23_16 r) (sd_type r) (sd_s r) (sd_dpl r)
    (sd_p r) v (sd_avl r) (sd_rsv1 r) (sd_db r) (sd_g r) (base_31_24 r).
Definition with_sd_avl (v : Z) (r : segdesc) : segdesc :=
  mkSegdesc (lim_15_0 r) (base_15_0 r) (base_23_16 r) (sd_type r) (sd_s r) (sd_dpl r)
    (sd_p r) (lim_19_16 r) v (sd_rsv1 r) (sd_db r) (sd_g r) (base_31_24 r).
Definition with_sd_rsv1 (v : Z) (r : segdesc) : segdesc :=
  mkSegdesc (lim_15_0 r) (base_15_0 r) (base_23_16 r) (sd_type r) (sd_s r) (sd_dpl r)
    (sd_p r) (lim_19_16 r) (sd_avl r) v (sd_db r) (sd_g r) (base_31_24 r).
Definition with_sd_db (v : Z) (r : segdesc) : segdesc :=
  mkSegdesc (lim_15_0 r) (base_15_0 r) (base_23_16 r) (sd_type r) (sd_s r) (sd_dpl r)
    (sd_p r) (lim_19_16 r) (sd_avl r) (sd_rsv1 r) v (sd_g r) (base_31_24 r).
Definition with_sd_g (v : Z) (r : segdesc) : segdesc :=
  mkSegdesc (lim_15_0 r) (base_15_0 r) (base_23_16 r) (sd_type r) (sd_s r) (sd_dpl r)
    (sd_p r) (lim_19_16 r) (sd_avl r) (sd_rsv1 r) (sd_db r) v (base_31_24 r).
Definition with_base_31_24 (v : Z) (r : segdesc) : segdesc :=
  mkSegdesc (lim_15_0 r) (base_15_0 r) (base_23_16 r) (sd_type r) (sd_s r) (sd_dpl r)
    (sd_p r) (lim_19_16 r) (sd_avl r) (sd_rsv1 r) (sd_db r) (sd_g r) v.

(** [struct taskstate]: the fields the kernel writes. *)
Record taskstate := mkTaskstate {
  ts_esp0 : Z;
  ts_ss0 : Z;
  ts_iomb : Z;
}.

Definition with_ts_esp0 (v : Z) (r : taskstate) : taskstate :=
  mkTaskstate v (ts_ss0 r) (ts_iomb r).
Definition with_ts_ss0 (v : Z) (r : taskstate) : taskstate :=
  mkTaskstate (ts_esp0 r) v (ts_iomb r).
Definition with_ts_iomb (v : Z) (r : taskstate) : taskstate :=
  mkTaskstate (ts_esp0 r) (ts_ss0 r) v.

(** [struct cpu]; [c_intena] is the saved [FL_IF] bit.  The scheduler's saved
    context is the continuation the [Swtch] outcome returns to. *)
Record cpu := mkCpu {
  c_apicid : Z;
  c_ts : taskstate;
  c_gdt : list segdesc;
  c_started : Z;
  c_ncli : Z;
  c_intena : bool;
  c_proc : option nat;
}.

Definition with_c_apicid (v : Z) (r : cpu) : cpu :=
  mkCpu v (c_ts r) (c_gdt r) (c_started r) (c_ncli r) (c_intena r) (c_proc r).
Definition with_c_ts (v : taskstate) (r : cpu) : cpu :=
  mkCpu (c_apicid r) v (c_gdt r) (c_started r) (c_ncli r) (c_intena r) (c_proc r).
Definition with_c_gdt (v : list segdesc) (r : cpu) : cpu :=
  mkCpu (c_apicid r) (c_ts r) v (c_started r) (c_ncli r) (c_intena r) (c_proc r).
Definition with_c_started (v : Z) (r : cpu) : cpu :=
  mkCpu (c_apicid r) (c_ts r) (c_gdt r) v (c_ncli r) (c_intena r) (c_proc r).
Definition with_c_ncli (v : Z) (r : cpu) : cpu :=
  mkCpu (c_apicid r) (c_ts r) (c_gdt r) (c_started r) v (c_intena r) (c_proc r).
Definition with_c_intena (v : bool) (r : cpu) : cpu :=
  mkCpu (c_apicid r) (c_ts r) (c_gdt r) (c_started r) (c_ncli r) v (c_proc r).
Definition with_c_proc (v : option nat) (r : cpu) : cpu :=
  mkCpu (c_apicid r) (c_ts r) (c_gdt r) (c_started r) (c_ncli r) (c_intena r) v.

(** The executing CPU ([FL_IF], [%cr3], [%tr], the id its local APIC reports),
    the [cpus] array and the spin locks. *)
Record hart := mkHart {
  h_if : bool;
  h_cr3 : Z;
  h_tr : Z;
  h_lapicid : Z;
  h_cpus : list cpu;
  h_ncpu : Z;
  h_locks : gmap lockid spinlock;
}.

Definition with_h_if (v : bool) (r : hart) : hart :=
  mkHart v (h_cr3 r) (h_tr r) (h_lapicid r) (h_cpus r) (h_ncpu r) (h_locks r).
Definition with_h_cr3 (v : Z) (r : hart) : hart :=
  mkHart (h_if r) v (h_tr r) (h_lapicid r) (h_cpus r) (h_ncpu r) (h_locks r).
Definition with_h_tr (v : Z) (r : hart) : hart :=
  mkHart (h_if r) (h_cr3 r) v (h_lapicid r) (h_cpus r) (h_ncpu r) (h_locks r).
Definition with_h_lapicid (v : Z) (r : hart) : hart :=
  mkHart (h_if r) (h_cr3 r) (h_tr r) v (h_cpus r) (h_ncpu r) (h_locks r).
Definition with_h_cpus (v : list cpu) (r : hart) : hart :=
  mkHart (h_if r) (h_cr3 r) (h_tr r) (h_lapicid r) v (h_ncpu r) (h_locks r).
Definition with_h_ncpu (v : Z) (r : hart) : hart :=
  mkHart (h_if r) (h_cr3 r) (h_tr r) (h_lapicid r) (h_cpus r) v (h_locks r).
Definition with_h_locks (v : gmap lockid spinlock) (r : hart) : hart :=
  mkHart (h_if r) (h_cr3 r) (h_tr r) (h_lapicid r) (h_cpus r) (h_ncpu r) v.

(** * Processes: proc.h, x86.h *)

Inductive procstate := UNUSED | EMBRYO | SLEEPING | RUNNABLE | RUNNING | ZOMBIE.

#[export] Instance procstate_eq_dec : EqDecision procstate.
Proof. solve_decision. Defined.

(** [struct trapframe], less its padding. *)
Record trapframe := mkTrapframe {
  tf_edi : Z;
  tf_esi : Z;
  tf_ebp : Z;
  tf_oesp : Z;
  tf_ebx : Z;
  tf_edx : Z;
  tf_ecx : Z;
  tf_eax : Z;
  tf_gs : Z;
  tf_fs : Z;
  tf_es : Z;
  tf_ds : Z;
  tf_trapno : Z;
  tf_err : Z;
  tf_eip : Z;
  tf_cs : Z;
  tf_eflags : Z;
  tf_esp : Z;
  tf_ss : Z;
}.

Definition with_tf_edi (v : Z) (r : trapframe) : trapframe :=
  mkTrapframe v (tf_esi r) (tf_ebp r) (tf_oesp r) (tf_ebx r) (tf_edx r) (tf_ecx r) (tf_eax
    r) (tf_gs r) (tf_fs r) (tf_es r) (tf_ds r) (tf_trapno r) (tf_err r) (tf_eip r) (tf_cs r)
    (tf_eflags r) (tf_esp r) (tf_ss r).
Definition with_tf_esi (v : Z) (r : trapframe) : trapframe :=
  mkTrapframe (tf_edi r) v (tf_ebp r) (tf_oesp r) (tf_ebx r) (tf_edx r) (tf_ecx r) (tf_eax
    r) (tf_gs r) (tf_fs r) (tf_es r) (tf_ds r) (tf_trapno r) (tf_err r) (tf_eip r) (tf_cs r)
    (tf_eflags r) (tf_esp r) (tf_ss r).
Definition with_tf_ebp (v : Z) (r : trapframe) : trapframe :=
  mkTrapframe (tf_edi r) (tf_esi r) v (tf_oesp r) (tf_ebx r) (tf_edx r) (tf_ecx r) (tf_eax
    r) (tf_gs r) (tf_fs r) (tf_es r) (tf_ds r) (tf_trapno r) (tf_err r) (tf_eip r) (tf_cs r)
    (tf_eflags r) (tf_esp r) (tf_ss r).
Definition with_tf_oesp (v : Z) (r : trapframe) : trapframe :=
  mkTrapframe (tf_edi r) (tf_esi r) (tf_ebp r) v (tf_ebx r) (tf_edx r) (tf_ecx r) (tf_eax
    r) (tf_gs r) (tf_fs r) (tf_es r) (tf_ds r) (tf_trapno r) (tf_err r) (tf_eip r) (tf_cs r)
    (tf_eflags r) (tf_esp r) (tf_ss r).
Definition with_tf_ebx (v : Z) (r : trapframe) : trapframe :=
  mkTrapframe (tf_edi r) (tf_esi r) (tf_ebp r) (tf_oesp r) v (tf_edx r) (tf_ecx r) (tf_eax
    r) (tf_gs r) (tf_fs r) (tf_es r) (tf_ds r) (tf_trapno r) (tf_err r) (tf_eip r) (tf_cs r)
    (tf_eflags r) (tf_esp r) (tf_ss r).
Definition with_tf_edx (v : Z) (r : trapframe) : trapframe :=
  mkTrapframe (tf_edi r) (tf_esi r) (tf_ebp r) (tf_oesp r) (tf_ebx r) v (tf_ecx r) (tf_eax
    r) (tf_gs r) (tf_fs r) (tf_es r) (tf_ds r) (tf_trapno r) (tf_err r) (tf_eip r) (tf_cs r)
    (tf_eflags r) (tf_esp r) (tf_ss r).
Definition with_tf_ecx (v : Z) (r : trapframe) : trapframe :=
  mkTrapframe (tf_edi r) (tf_esi r) (tf_ebp r) (tf_oesp r) (tf_ebx r) (tf_edx r) v (tf_eax
    r) (tf_gs r) (tf_fs r) (tf_es r) (tf_ds r) (tf_trapno r) (tf_err r) (tf_eip r) (tf_cs r)
    (tf_eflags r) (tf_esp r) (tf_ss r).
Definition with_tf_eax (v : Z) (r : trapframe) : trapframe :=
  mkTrapframe (tf_edi r) (tf_esi r) (tf_ebp r) (tf_oesp r) (tf_ebx r) (tf_edx r) (tf_ecx
    r) v (tf_gs r) (tf_fs r) (tf_es r) (tf_ds r) (tf_trapno r) (tf_err r) (tf_eip r) (tf_cs
    r) (tf_eflags r) (tf_esp r) (tf_ss r).
Definition with_tf_gs (v : Z) (r : trapframe) : trapframe :=
  mkTrapframe (tf_edi r) (tf_esi r) (tf_ebp r) (tf_oesp r) (tf_ebx r) (tf_edx r) (tf_ecx
    r) (tf_eax r) v (tf_fs r) (tf_es r) (tf_ds r) (tf_trapno r) (tf_err r) (tf_eip r) (tf_cs
    r) (tf_eflags r) (tf_esp r) (tf_ss r).
Definition with_tf_fs (v : Z) (r : trapframe) : trapframe :=
  mkTrapframe (tf_edi r) (tf_esi r) (tf_ebp r) (tf_oesp r) (tf_ebx r) (tf_edx r) (tf_ecx
    r) (tf_eax r) (tf_gs r) v (tf_es r) (tf_ds r) (tf_trapno r) (tf_err r) (tf_eip r) (tf_cs
    r) (tf_eflags r) (tf_esp r) (tf_ss r).
Definition with_tf_es (v : Z) (r : trapframe) : trapframe :=
  mkTrapframe (tf_edi r) (tf_esi r) (tf_ebp r) (tf_oesp r) (tf_ebx r) (tf_edx r) (tf_ecx
    r) (tf_eax r) (tf_gs r) (tf_fs r) v (tf_ds r) (tf_trapno r) (tf_err r) (tf_eip r) (tf_cs
    r) (tf_eflags r) (tf_esp r) (tf_ss r).
Definition with_tf_ds (v : Z) (r : trapframe) : trapframe :=
  mkTrapframe (tf_edi r) (tf_esi r) (tf_ebp r) (tf_oesp r) (tf_ebx r) (tf_edx r) (tf_ecx
    r) (tf_eax r) (tf_gs r) (tf_fs r) (tf_es r) v (tf_trapno r) (tf_err r) (tf_eip r) (tf_cs
    r) (tf_eflags r) (tf_esp r) (tf_ss r).
Definition with_tf_trapno (v : Z) (r : trapframe) : trapframe :=
  mkTrapframe (tf_edi r) (tf_esi r) (tf_ebp r) (tf_oesp r) (tf_ebx r) (tf_edx r) (tf_ecx
    r) (tf_eax r) (tf_gs r) (tf_fs r) (tf_es r) (tf_ds r) v (tf_err r) (tf_eip r) (tf_cs r)
    (tf_eflags r) (tf_esp r) (tf_ss r).
Definition with_tf_err (v : Z) (r : trapframe) : trapframe :=
  mkTrapframe (tf_edi r) (tf_esi r) (tf_ebp r) (tf_oesp r) (tf_ebx r) (tf_edx r) (tf_ecx
    r) (tf_eax r) (tf_gs r) (tf_fs r) (tf_es r) (tf_ds r) (tf_trapno r) v (tf_eip r) (tf_cs
    r) (tf_eflags r) (tf_esp r) (tf_ss r).
Definition with_tf_eip (v : Z) (r : trapframe) : trapframe :=
  mkTrapframe (tf_edi r) (tf_esi r) (tf_ebp r) (tf_oesp r) (tf_ebx r) (tf_edx r) (tf_ecx
    r) (tf_eax r) (tf_gs r) (tf_fs r) (tf_es r) (tf_ds r) (tf_trapno r) (tf_err r) v (tf_cs
    r) (tf_eflags r) (tf_esp r) (tf_ss r).
Definition with_tf_cs (v : Z) (r : trapframe) : trapframe :=
  mkTrapframe (tf_edi r) (tf_esi r) (tf_ebp r) (tf_oesp r) (tf_ebx r) (tf_edx r) (tf_ecx
    r) (tf_eax r) (tf_gs r) (tf_fs r) (tf_es r) (tf_ds r) (tf_trapno r) (tf_err r) (tf_eip
    r) v (tf_eflags r) (tf_esp r) (tf_ss r).
Definition with_tf_eflags (v : Z) (r : trapframe) : trapframe :=
  mkTrapframe (tf_edi r) (tf_esi r) (tf_ebp r) (tf_oesp r) (tf_ebx r) (tf_edx r) (tf_ecx
    r) (tf_eax r) (tf_gs r) (tf_fs r) (tf_es r) (tf_ds r) (tf_trapno r) (tf_err r) (tf_eip
    r) (tf_cs r) v (tf_esp r) (tf_ss r).
Definition with_tf_esp (v : Z) (r : trapframe) : trapframe :=
  mkTrapframe (tf_edi r) (tf_esi r) (tf_ebp r) (tf_oesp r) (tf_ebx r) (tf_edx r) (tf_ecx
    r) (tf_eax r) (tf_gs r) (tf_fs r) (tf_es r) (tf_ds r) (tf_trapno r) (tf_err r) (tf_eip
    r) (tf_cs r) (tf_eflags r) v (tf_ss r).
Definition with_tf_ss (v : Z) (r : trapframe) : trapframe :=
  mkTrapframe (tf_edi r) (tf_esi r) (tf_ebp r) (tf_oesp r) (tf_ebx r) (tf_edx r) (tf_ecx
    r) (tf_eax r) (tf_gs r) (tf_fs r) (tf_es r) (tf_ds r) (tf_trapno r) (tf_err r) (tf_eip
    r) (tf_cs r) (tf_eflags r) (tf_esp r) v.

(** [struct context]. *)
Record context := mkContext {
  cx_edi : Z;
  cx_esi : Z;
  cx_ebx : Z;
  cx_ebp : Z;
  cx_eip : Z;
}.

Definition with_cx_edi (v : Z) (r : context) : context :=
  mkContext v (cx_esi r) (cx_ebx r) (cx_ebp r) (cx_eip r).
Definition with_cx_esi (v : Z) (r : context) : context :=
  mkContext (cx_edi r) v (cx_ebx r) (cx_ebp r) (cx_eip r).
Definition with_cx_ebx (v : Z) (r : context) : context :=
  mkContext (cx_edi r) (cx_esi r) v (cx_ebp r) (cx_eip r).
Definition with_cx_ebp (v : Z) (r : context) : context :=
  mkContext (cx_edi r) (cx_esi r) (cx_ebx r) v (cx_eip r).
Definition with_cx_eip (v : Z) (r : context) : context :=
  mkContext (cx_edi r) (cx_esi r) (cx_ebx r) (cx_ebp r) v.

(** [struct proc].  The trap frame and the saved context are kept by value; in
    the C code they are at the top of the page [kstack]. *)
Record proc := mkProc {
  p_sz : Z;
  p_pgdir : Z;
  p_kstack : Z;
  p_state : procstate;
  p_pid : Z;
  p_parent : option nat;
  p_tf : trapframe;
  p_context : context;
  p_chan : option chan;
  p_killed : Z;
  p_ofile : list (option nat);
  p_cwd : option nat;
  p_name : list Z;
}.

Definition with_p_sz (v : Z) (r : proc) : proc :=
  mkProc v (p_pgdir r) (p_kstack r) (p_state r) (p_pid r) (p_parent r) (p_tf r) (p_context
    r) (p_chan r) (p_killed r) (p_ofile r) (p_cwd r) (p_name r).
Definition with_p_pgdir (v : Z) (r : proc) : proc :=
  mkProc (p_sz r) v (p_kstack r) (p_state r) (p_pid r) (p_parent r) (p_tf r) (p_context r)
    (p_chan r) (p_killed r) (p_ofile r) (p_cwd r) (p_name r).
Definition with_p_kstack (v : Z) (r : proc) : proc :=
  mkProc (p_sz r) (p_pgdir r) v (p_state r) (p_pid r) (p_parent r) (p_tf r) (p_context r)
    (p_chan r) (p_killed r) (p_ofile r) (p_cwd r) (p_name r).
Definition with_p_state (v : procstate) (r : proc) : proc :=
  mkProc (p_sz r) (p_pgdir r) (p_kstack r) v (p_pid r) (p_parent r) (p_tf r) (p_context r)
    (p_chan r) (p_killed r) (p_ofile r) (p_cwd r) (p_name r).
Definition with_p_pid (v : Z) (r : proc) : proc :=
  mkProc (p_sz r) (p_pgdir r) (p_kstack r) (p_state r) v (p_parent r) (p_tf r) (p_context
    r) (p_chan r) (p_killed r) (p_ofile r) (p_cwd r) (p_name r).
Definition with_p_parent (v : option nat) (r : proc) : proc :=
  mkProc (p_sz r) (p_pgdir r) (p_kstack r) (p_state r) (p_pid r) v (p_tf r) (p_context r)
    (p_chan r) (p_killed r) (p_ofile r) (p_cwd r) (p_name r).
Definition with_p_tf (v : trapframe) (r : proc) : proc :=
  mkProc (p_sz r) (p_pgdir r) (p_kstack r) (p_state r) (p_pid r) (p_parent r) v (p_context
    r) (p_chan r) (p_killed r) (p_ofile r) (p_cwd r) (p_name r).
Definition with_p_context (v : context) (r : proc) : proc :=
  mkProc (p_sz r) (p_pgdir r) (p_kstack r) (p_state r) (p_pid r) (p_parent r) (p_tf r) v
    (p_chan r) (p_killed r) (p_ofile r) (p_cwd r) (p_name r).
Definition with_p_chan (v : option chan) (r : proc) : proc :=
  mkProc (p_sz r) (p_pgdir r) (p_kstack r) (p_state r) (p_pid r) (p_parent r) (p_tf r)
    (p_context r) v (p_killed r) (p_ofile r) (p_cwd r) (p_name r).
Definition with_p_killed (v : Z) (r : proc) : proc :=
  mkProc (p_sz r) (p_pgdir r) (p_kstack r) (p_state r) (p_pid r) (p_parent r) (p_tf r)
    (p_context r) (p_chan r) v (p_ofile r) (p_cwd r) (p_name r).
Definition with_p_ofile (v : list (option nat)) (r : proc) : proc :=
  mkProc (p_sz r) (p_pgdir r) (p_kstack r) (p_state r) (p_pid r) (p_parent r) (p_tf r)
    (p_context r) (p_chan r) (p_killed r) v (p_cwd r) (p_name r).
Definition with_p_cwd (v : option nat) (r : proc) : proc :=
  mkProc (p_sz r) (p_pgdir r) (p_kstack r) (p_state r) (p_pid r) (p_parent r) (p_tf r)
    (p_context r) (p_chan r) (p_killed r) (p_ofile r) v (p_name r).
Definition with_p_name (v : list Z) (r : proc) : proc :=
  mkProc (p_sz r) (p_pgdir r) (p_kstack r) (p_state r) (p_pid r) (p_parent r) (p_tf r)
    (p_context r) (p_chan r) (p_killed r) (p_ofile r) (p_cwd r) v.

(** * Files: buf.h, fs.h, file.h, log.c, pipe.c, console.c *)

(** [struct buf]; [prev] and [next] are indices, [NBUF] being [bcache.head]. *)
Record buf := mkBuf {
  b_flags : Z;
  b_dev : Z;
  b_blockno : Z;
  b_refcnt : Z;
  b_prev : nat;
  b_next : nat;
  b_data : list Z;
}.

Definition with_b_flags (v : Z) (r : buf) : buf :=
  mkBuf v (b_dev r) (b_blockno r) (b_refcnt r) (b_prev r) (b_next r) (b_data r).
Definition with_b_dev (v : Z) (r : buf) : buf :=
  mkBuf (b_flags r) v (b_blockno r) (b_refcnt r) (b_prev r) (b_next r) (b_data r).
Definition with_b_blockno (v : Z) (r : buf) : buf :=
  mkBuf (b_flags r) (b_dev r) v (b_refcnt r) (b_prev r) (b_next r) (b_data r).
Definition with_b_refcnt (v : Z) (r : buf) : buf :=
  mkBuf (b_flags r) (b_dev r) (b_blockno r) v (b_prev r) (b_next r) (b_data r).
Definition with_b_prev (v : nat) (r : buf) : buf :=
  mkBuf (b_flags r) (b_dev r) (b_blockno r) (b_refcnt r) v (b_next r) (b_data r).
Definition with_b_next (v : nat) (r : buf) : buf :=
  mkBuf (b_flags r) (b_dev r) (b_blockno r) (b_refcnt r) (b_prev r) v (b_data r).
Definition with_b_data (v : list Z) (r : buf) : buf :=
  mkBuf (b_flags r) (b_dev r) (b_blockno r) (b_refcnt r) (b_prev r) (b_next r) v.

(** [struct superblock]. *)
Record superblock := mkSuperblock {
  sb_size : Z;
  sb_nblocks : Z;
  sb_ninodes : Z;
  sb_nlog : Z;
  sb_logstart : Z;
  sb_inodestart : Z;
  sb_bmapstart : Z;
}.

Definition with_sb_size (v : Z) (r : superblock) : superblock :=
  mkSuperblock v (sb_nblocks r) (sb_ninodes r) (sb_nlog r) (sb_logstart r) (sb_inodestart
    r) (sb_bmapstart r).
Definition with_sb_nblocks (v : Z) (r : superblock) : superblock :=
  mkSuperblock (sb_size r) v (sb_ninodes r) (sb_nlog r) (sb_logstart r) (sb_inodestart r)
    (sb_bmapstart r).
Definition with_sb_ninodes (v : Z) (r : superblock) : superblock :=
  mkSuperblock (sb_size r) (sb_nblocks r) v (sb_nlog r) (sb_logstart r) (sb_inodestart r)
    (sb_bmapstart r).
Definition with_sb_nlog (v : Z) (r : superblock) : superblock :=
  mkSuperblock (sb_size r) (sb_nblocks r) (sb_ninodes r) v (sb_logstart r) (sb_inodestart
    r) (sb_bmapstart r).
Definition with_sb_logstart (v : Z) (r : superblock) : superblock :=
  mkSuperblock (sb_size r) (sb_nblocks r) (sb_ninodes r) (sb_nlog r) v (sb_inodestart r)
    (sb_bmapstart r).
Definition with_sb_inodestart (v : Z) (r : superblock) : superblock :=
  mkSuperblock (sb_size r) (sb_nblocks r) (sb_ninodes r) (sb_nlog r) (sb_logstart r) v
    (sb_bmapstart r).
Definition with_sb_bmapstart (v : Z) (r : superblock) : superblock :=
  mkSuperblock (sb_size r) (sb_nblocks r) (sb_ninodes r) (sb_nlog r) (sb_logstart r)
    (sb_inodestart r) v.

(** [struct log]; [lg_n] and [lg_block] are its [struct logheader]. *)
Record log_t := mkLog {
  lg_start : Z;
  lg_size : Z;
  lg_outstanding : Z;
  lg_committing : Z;
  lg_dev : Z;
  lg_n : Z;
  lg_block : list Z;
}.

Definition with_lg_start (v : Z) (r : log_t) : log_t :=
  mkLog v (lg_size r) (lg_outstanding r) (lg_committing r) (lg_dev r) (lg_n r) (lg_block
    r).
Definition with_lg_size (v : Z) (r : log_t) : log_t :=
  mkLog (lg_start r) v (lg_outstanding r) (lg_committing r) (lg_dev r) (lg_n r) (lg_block
    r).
Definition with_lg_outstanding (v : Z) (r : log_t) : log_t :=
  mkLog (lg_start r) (lg_size r) v (lg_committing r) (lg_dev r) (lg_n r) (lg_block r).
Definition with_lg_committing (v : Z) (r : log_t) : log_t :=
  mkLog (lg_start r) (lg_size r) (lg_outstanding r) v (lg_dev r) (lg_n r) (lg_block r).
Definition with_lg_dev (v : Z) (r : log_t) : log_t :=
  mkLog (lg_start r) (lg_size r) (lg_outstanding r) (lg_committing r) v (lg_n r) (lg_block
    r).
Definition with_lg_n (v : Z) (r : log_t) : log_t :=
  mkLog (lg_start r) (lg_size r) (lg_outstanding r) (lg_committing r) (lg_dev r) v
    (lg_block r).
Definition with_lg_block (v : list Z) (r : log_t) : log_t :=
  mkLog (lg_start r) (lg_size r) (lg_outstanding r) (lg_committing r) (lg_dev r) (lg_n r)
    v.

(** [struct dinode]. *)
Record dinode := mkDinode {
  d_type : Z;
  d_major : Z;
  d_minor : Z;
  d_nlink : Z;
  d_size : Z;
  d_addrs : list Z;
}.

Definition with_d_type (v : Z) (r : dinode) : dinode :=
  mkDinode v (d_major r) (d_minor r) (d_nlink r) (d_size r) (d_addrs r).
Definition with_d_major (v : Z) (r : dinode) : dinode :=
  mkDinode (d_type r) v (d_minor r) (d_nlink r) (d_size r) (d_addrs r).
Definition with_d_minor (v : Z) (r : dinode) : dinode :=
  mkDinode (d_type r) (d_major r) v (d_nlink r) (d_size r) (d_addrs r).
Definition with_d_nlink (v : Z) (r : dinode) : dinode :=
  mkDinode (d_type r) (d_major r) (d_minor r) v (d_size r) (d_addrs r).
Definition with_d_size (v : Z) (r : dinode) : dinode :=
  mkDinode (d_type r) (d_major r) (d_minor r) (d_nlink r) v (d_addrs r).
Definition with_d_addrs (v : list Z) (r : dinode) : dinode :=
  mkDinode (d_type r) (d_major r) (d_minor r) (d_nlink r) (d_size r) v.

(** [struct inode]; its sleep lock is [SLInode] of its index. *)
Record inode := mkInode {
  i_dev : Z;
  i_inum : Z;
  i_ref : Z;
  i_valid : Z;
  i_type : Z;
  i_major : Z;
  i_minor : Z;
  i_nlink : Z;
  i_size : Z;
  i_addrs : list Z;
}.

Definition with_i_dev (v : Z) (r : inode) : inode :=
  mkInode v (i_inum r) (i_ref r) (i_valid r) (i_type r) (i_major r) (i_minor r) (i_nlink
    r) (i_size r) (i_addrs r).
Definition with_i_inum (v : Z) (r : inode) : inode :=
  mkInode (i_dev r) v (i_ref r) (i_valid r) (i_type r) (i_major r) (i_minor r) (i_nlink r)
    (i_size r) (i_addrs r).
Definition with_i_ref (v : Z) (r : inode) : inode :=
  mkInode (i_dev r) (i_inum r) v (i_valid r) (i_type r) (i_major r) (i_minor r) (i_nlink
    r) (i_size r) (i_addrs r).
Definition with_i_valid (v : Z) (r : inode) : inode :=
  mkInode (i_dev r) (i_inum r) (i_ref r) v (i_type r) (i_major r) (i_minor r) (i_nlink r)
    (i_size r) (i_addrs r).
Definition with_i_type (v : Z) (r : inode) : inode :=
  mkInode (i_dev r) (i_inum r) (i_ref r) (i_valid r) v (i_major r) (i_minor r) (i_nlink r)
    (i_size r) (i_addrs r).
Definition with_i_major (v : Z) (r : inode) : inode :=
  mkInode (i_dev r) (i_inum r) (i_ref r) (i_valid r) (i_type r) v (i_minor r) (i_nlink r)
    (i_size r) (i_addrs r).
Definition with_i_minor (v : Z) (r : inode) : inode :=
  mkInode (i_dev r) (i_inum r) (i_ref r) (i_valid r) (i_type r) (i_major r) v (i_nlink r)
    (i_size r) (i_addrs r).
Definition with_i_nlink (v : Z) (r : inode) : inode :=
  mkInode (i_dev r) (i_inum r) (i_ref r) (i_valid r) (i_type r) (i_major r) (i_minor r) v
    (i_size r) (i_addrs r).
Definition with_i_size (v : Z) (r : inode) : inode :=
  mkInode (i_dev r) (i_inum r) (i_ref r) (i_valid r) (i_type r) (i_major r) (i_minor r)
    (i_nlink r) v (i_addrs r).
Definition with_i_addrs (v : list Z) (r : inode) : inode :=
  mkInode (i_dev r) (i_inum r) (i_ref r) (i_valid r) (i_type r) (i_major r) (i_minor r)
    (i_nlink r) (i_size r) v.

Inductive ftype := FD_NONE | FD_PIPE | FD_INODE.

#[export] Instance ftype_eq_dec : EqDecision ftype.
Proof. solve_decision. Defined.

(** [struct file]. *)
Record file := mkFile {
  f_type : ftype;
  f_ref : Z;
  f_readable : bool;
  f_writable : bool;
  f_pipe : Z;
  f_ip : option nat;
  f_off : Z;
}.

Definition with_f_type (v : ftype) (r : file) : file :=
  mkFile v (f_ref r) (f_readable r) (f_writable r) (f_pipe r) (f_ip r) (f_off r).
Definition with_f_ref (v : Z) (r : file) : file :=
  mkFile (f_type r) v (f_readable r) (f_writable r) (f_pipe r) (f_ip r) (f_off r).
Definition with_f_readable (v : bool) (r : file) : file :=
  mkFile (f_type r) (f_ref r) v (f_writable r) (f_pipe r) (f_ip r) (f_off r).
Definition with_f_writable (v : bool) (r : file) : file :=
  mkFile (f_type r) (f_ref r) (f_readable r) v (f_pipe r) (f_ip r) (f_off r).
Definition with_f_pipe (v : Z) (r : file) : file :=
  mkFile (f_type r) (f_ref r) (f_readable r) (f_writable r) v (f_ip r) (f_off r).
Definition with_f_ip (v : option nat) (r : file) : file :=
  mkFile (f_type r) (f_ref r) (f_readable r) (f_writable r) (f_pipe r) v (f_off r).
Definition with_f_off (v : Z) (r : file) : file :=
  mkFile (f_type r) (f_ref r) (f_readable r) (f_writable r) (f_pipe r) (f_ip r) v.

(** [struct pipe]; its lock is [LPipe] of its address. *)
Record pipe := mkPipe {
  pi_data : list Z;
  pi_nread : Z;
  pi_nwrite : Z;
  pi_readopen : Z;
  pi_writeopen : Z;
}.

Definition with_pi_data (v : list Z) (r : pipe) : pipe :=
  mkPipe v (pi_nread r) (pi_nwrite r) (pi_readopen r) (pi_writeopen r).
Definition with_pi_nread (v : Z) (r : pipe) : pipe :=
  mkPipe (pi_data r) v (pi_nwrite r) (pi_readopen r) (pi_writeopen r).
Definition with_pi_nwrite (v : Z) (r : pipe) : pipe :=
  mkPipe (pi_data r) (pi_nread r) v (pi_readopen r) (pi_writeopen r).
Definition with_pi_readopen (v : Z) (r : pipe) : pipe :=
  mkPipe (pi_data r) (pi_nread r) (pi_nwrite r) v (pi_writeopen r).
Definition with_pi_writeopen (v : Z) (r : pipe) : pipe :=
  mkPipe (pi_data r) (pi_nread r) (pi_nwrite r) (pi_readopen r) v.

(** The CGA display: the cursor register and the cells of video memory. *)
Record screen := mkScreen {
  sc_pos : Z;
  sc_crt : Z → Z;
}.

Definition with_sc_pos (v : Z) (r : screen) : screen :=
  mkScreen v (sc_crt r).
Definition with_sc_crt (v : Z → Z) (r : screen) : screen :=
  mkScreen (sc_pos r) v.

(** The [input] ring of console.c. *)
Record input_t := mkInput {
  in_buf : list Z;
  in_r : Z;
  in_w : Z;
  in_e : Z;
}.

Definition with_in_buf (v : list Z) (r : input_t) : input_t :=
  mkInput v (in_r r) (in_w r) (in_e r).
Definition with_in_r (v : Z) (r : input_t) : input_t :=
  mkInput (in_buf r) v (in_w r) (in_e r).
Definition with_in_w (v : Z) (r : input_t) : input_t :=
  mkInput (in_buf r) (in_r r) v (in_e r).
Definition with_in_e (v : Z) (r : input_t) : input_t :=
  mkInput (in_buf r) (in_r r) (in_w r) v.

(** A device of [devsw]: the console is the only driver of the source. *)
Inductive device := DevConsole.

(** The state of the machine and of every global variable of the kernel.
    [k_end] and [k_data] are the addresses the linker gives [end] and [data],
    [k_mem] is memory by kernel virtual address, [k_disk] the blocks of
    [memdisk], [k_dtrace] the history of block writes (most recent first), a
    ghost that no code reads, [k_out] the bytes sent to the serial port,
    [k_first] the flag [first] of [forkret], and [k_wakes] the number of times one waiting loop may be woken and wait again
    (theorems hold for each value). *)
Record kernel := mkKernel {
  k_hart : hart;
  k_end : Z;
  k_data : Z;
  k_mem : Z → Z;
  k_use_lock : bool;
  k_freelist : Z;
  k_kpgdir : Z;
  k_ptable : list proc;
  k_initproc : option nat;
  k_nextpid : Z;
  k_ticks : Z;
  k_disk : list (list Z);
  k_dtrace : list (Z * list Z);
  k_bufs : list buf;
  k_slocks : gmap slockid sleeplock;
  k_log : log_t;
  k_sb : superblock;
  k_icache : list inode;
  k_ftable : list file;
  k_devsw : list (option device * option device);
  k_pipes : gmap Z pipe;
  k_input : input_t;
  k_locking : bool;
  k_panicked : bool;
  k_out : list Z;
  k_trace : Z;
  k_wakes : nat;
  k_screen : screen;
  k_uart : bool;
  k_first : bool;
}.

Definition with_k_hart (v : hart) (r : kernel) : kernel :=
  mkKernel v (k_end r) (k_data r) (k_mem r) (k_use_lock r) (k_freelist r) (k_kpgdir r)
    (k_ptable r) (k_initproc r) (k_nextpid r) (k_ticks r) (k_disk r) (k_dtrace r) (k_bufs r)
    (k_slocks r) (k_log r) (k_sb r) (k_icache r) (k_ftable r) (k_devsw r) (k_pipes r)
    (k_input r) (k_locking r) (k_panicked r) (k_out r) (k_trace r) (k_wakes r) (k_screen r)
    (k_uart r) (k_first r).
Definition with_k_end (v : Z) (r : kernel) : kernel :=
  mkKernel (k_hart r) v (k_data r) (k_mem r) (k_use_lock r) (k_freelist r) (k_kpgdir r)
    (k_ptable r) (k_initproc r) (k_nextpid r) (k_ticks r) (k_disk r) (k_dtrace r) (k_bufs r)
    (k_slocks r) (k_log r) (k_sb r) (k_icache r) (k_ftable r) (k_devsw r) (k_pipes r)
    (k_input r) (k_locking r) (k_panicked r) (k_out r) (k_trace r) (k_wakes r) (k_screen r)
    (k_uart r) (k_first r).
Definition with_k_data (v : Z) (r : kernel) : kernel :=
  mkKernel (k_hart r) (k_end r) v (k_mem r) (k_use_lock r) (k_freelist r) (k_kpgdir r)
    (k_ptable r) (k_initproc r) (k_nextpid r) (k_ticks r) (k_disk r) (k_dtrace r) (k_bufs r)
    (k_slocks r) (k_log r) (k_sb r) (k_icache r) (k_ftable r) (k_devsw r) (k_pipes r)
    (k_input r) (k_locking r) (k_panicked r) (k_out r) (k_trace r) (k_wakes r) (k_screen r)
    (k_uart r) (k_first r).
Definition with_k_mem (v : Z → Z) (r : kernel) : kernel :=
  mkKernel (k_hart r) (k_end r) (k_data r) v (k_use_lock r) (k_freelist r) (k_kpgdir r)
    (k_ptable r) (k_initproc r) (k_nextpid r) (k_ticks r) (k_disk r) (k_dtrace r) (k_bufs r)
    (k_slocks r) (k_log r) (k_sb r) (k_icache r) (k_ftable r) (k_devsw r) (k_pipes r)
    (k_input r) (k_locking r) (k_panicked r) (k_out r) (k_trace r) (k_wakes r) (k_screen r)
    (k_uart r) (k_first r).
Definition with_k_use_lock (v : bool) (r : kernel) : kernel :=
  mkKernel (k_hart r) (k_end r) (k_data r) (k_mem r) v (k_freelist r) (k_kpgdir r)
    (k_ptable r) (k_initproc r) (k_nextpid r) (k_ticks r) (k_disk r) (k_dtrace r) (k_bufs r)
    (k_slocks r) (k_log r) (k_sb r) (k_icache r) (k_ftable r) (k_devsw r) (k_pipes r)
    (k_input r) (k_locking r) (k_panicked r) (k_out r) (k_trace r) (k_wakes r) (k_screen r)
    (k_uart r) (k_first r).
Definition with_k_freelist (v : Z) (r : kernel) : kernel :=
  mkKernel (k_hart r) (k_end r) (k_data r) (k_mem r) (k_use_lock r) v (k_kpgdir r)
    (k_ptable r) (k_initproc r) (k_nextpid r) (k_ticks r) (k_disk r) (k_dtrace r) (k_bufs r)
    (k_slocks r) (k_log r) (k_sb r) (k_icache r) (k_ftable r) (k_devsw r) (k_pipes r)
    (k_input r) (k_locking r) (k_panicked r) (k_out r) (k_trace r) (k_wakes r) (k_screen r)
    (k_uart r) (k_first r).
Definition with_k_kpgdir (v : Z) (r : kernel) : kernel :=
  mkKernel (k_hart r) (k_end r) (k_data r) (k_mem r) (k_use_lock r) (k_freelist r) v
    (k_ptable r) (k_initproc r) (k_nextpid r) (k_ticks r) (k_disk r) (k_dtrace r) (k_bufs r)
    (k_slocks r) (k_log r) (k_sb r) (k_icache r) (k_ftable r) (k_devsw r) (k_pipes r)
    (k_input r) (k_locking r) (k_panicked r) (k_out r) (k_trace r) (k_wakes r) (k_screen r)
    (k_uart r) (k_first r).
Definition with_k_ptable (v : list proc) (r : kernel) : kernel :=
  mkKernel (k_hart r) (k_end r) (k_data r) (k_mem r) (k_use_lock r) (k_freelist r)
    (k_kpgdir r) v (k_initproc r) (k_nextpid r) (k_ticks r) (k_disk r) (k_dtrace r) (k_bufs
    r) (k_slocks r) (k_log r) (k_sb r) (k_icache r) (k_ftable r) (k_devsw r) (k_pipes r)
    (k_input r) (k_locking r) (k_panicked r) (k_out r) (k_trace r) (k_wakes r) (k_screen r)
    (k_uart r) (k_first r).
Definition with_k_initproc (v : option nat) (r : kernel) : kernel :=
  mkKernel (k_hart r) (k_end r) (k_data r) (k_mem r) (k_use_lock r) (k_freelist r)
    (k_kpgdir r) (k_ptable r) v (k_nextpid r) (k_ticks r) (k_disk r) (k_dtrace r) (k_bufs r)
    (k_slocks r) (k_log r) (k_sb r) (k_icache r) (k_ftable r) (k_devsw r) (k_pipes r)
    (k_input r) (k_locking r) (k_panicked r) (k_out r) (k_trace r) (k_wakes r) (k_screen r)
    (k_uart r) (k_first r).
Definition with_k_nextpid (v : Z) (r : kernel) : kernel :=
  mkKernel (k_hart r) (k_end r) (k_data r) (k_mem r) (k_use_lock r) (k_freelist r)
    (k_kpgdir r) (k_ptable r) (k_initproc r) v (k_ticks r) (k_disk r) (k_dtrace r) (k_bufs
    r) (k_slocks r) (k_log r) (k_sb r) (k_icache r) (k_ftable r) (k_devsw r) (k_pipes r)
    (k_input r) (k_locking r) (k_panicked r) (k_out r) (k_trace r) (k_wakes r) (k_screen r)
    (k_uart r) (k_first r).
Definition with_k_ticks (v : Z) (r : kernel) : kernel :=
  mkKernel (k_hart r) (k_end r) (k_data r) (k_mem r) (k_use_lock r) (k_freelist r)
    (k_kpgdir r) (k_ptable r) (k_initproc r) (k_nextpid r) v (k_disk r) (k_dtrace r) (k_bufs
    r) (k_slocks r) (k_log r) (k_sb r) (k_icache r) (k_ftable r) (k_devsw r) (k_pipes r)
    (k_input r) (k_locking r) (k_panicked r) (k_out r) (k_trace r) (k_wakes r) (k_screen r)
    (k_uart r) (k_first r).
Definition with_k_disk (v : list (list Z)) (r : kernel) : kernel :=
  mkKernel (k_hart r) (k_end r) (k_data r) (k_mem r) (k_use_lock r) (k_freelist r)
    (k_kpgdir r) (k_ptable r) (k_initproc r) (k_nextpid r) (k_ticks r) v (k_dtrace r)
    (k_bufs r) (k_slocks r) (k_log r) (k_sb r) (k_icache r) (k_ftable r) (k_devsw r)
    (k_pipes r) (k_input r) (k_locking r) (k_panicked r) (k_out r) (k_trace r) (k_wakes r)
    (k_screen r) (k_uart r) (k_first r).
Definition with_k_dtrace (v : list (Z * list Z)) (r : kernel) : kernel :=
  mkKernel (k_hart r) (k_end r) (k_data r) (k_mem r) (k_use_lock r) (k_freelist r)
    (k_kpgdir r) (k_ptable r) (k_initproc r) (k_nextpid r) (k_ticks r) (k_disk r) v (k_bufs
    r) (k_slocks r) (k_log r) (k_sb r) (k_icache r) (k_ftable r) (k_devsw r) (k_pipes r)
    (k_input r) (k_locking r) (k_panicked r) (k_out r) (k_trace r) (k_wakes r) (k_screen r)
    (k_uart r) (k_first r).
Definition with_k_bufs (v : list buf) (r : kernel) : kernel :=
  mkKernel (k_hart r) (k_end r) (k_data r) (k_mem r) (k_use_lock r) (k_freelist r)
    (k_kpgdir r) (k_ptable r) (k_initproc r) (k_nextpid r) (k_ticks r) (k_disk r) (k_dtrace
    r) v (k_slocks r) (k_log r) (k_sb r) (k_icache r) (k_ftable r) (k_devsw r) (k_pipes r)
    (k_input r) (k_locking r) (k_panicked r) (k_out r) (k_trace r) (k_wakes r) (k_screen r)
    (k_uart r) (k_first r).
Definition with_k_slocks (v : gmap slockid sleeplock) (r : kernel) : kernel :=
  mkKernel (k_hart r) (k_end r) (k_data r) (k_mem r) (k_use_lock r) (k_freelist r)
    (k_kpgdir r) (k_ptable r) (k_initproc r) (k_nextpid r) (k_ticks r) (k_disk r) (k_dtrace
    r) (k_bufs r) v (k_log r) (k_sb r) (k_icache r) (k_ftable r) (k_devsw r) (k_pipes r)
    (k_input r) (k_locking r) (k_panicked r) (k_out r) (k_trace r) (k_wakes r) (k_screen r)
    (k_uart r) (k_first r).
Definition with_k_log (v : log_t) (r : kernel) : kernel :=
  mkKernel (k_hart r) (k_end r) (k_data r) (k_mem r) (k_use_lock r) (k_freelist r)
    (k_kpgdir r) (k_ptable r) (k_initproc r) (k_nextpid r) (k_ticks r) (k_disk r) (k_dtrace
    r) (k_bufs r) (k_slocks r) v (k_sb r) (k_icache r) (k_ftable r) (k_devsw r) (k_pipes r)
    (k_input r) (k_locking r) (k_panicked r) (k_out r) (k_trace r) (k_wakes r) (k_screen r)
    (k_uart r) (k_first r).
Definition with_k_sb (v : superblock) (r : kernel) : kernel :=
  mkKernel (k_hart r) (k_end r) (k_data r) (k_mem r) (k_use_lock r) (k_freelist r)
    (k_kpgdir r) (k_ptable r) (k_initproc r) (k_nextpid r) (k_ticks r) (k_disk r) (k_dtrace
    r) (k_bufs r) (k_slocks r) (k_log r) v (k_icache r) (k_ftable r) (k_devsw r) (k_pipes r)
    (k_input r) (k_locking r) (k_panicked r) (k_out r) (k_trace r) (k_wakes r) (k_screen r)
    (k_uart r) (k_first r).
Definition with_k_icache (v : list inode) (r : kernel) : kernel :=
  mkKernel (k_hart r) (k_end r) (k_data r) (k_mem r) (k_use_lock r) (k_freelist r)
    (k_kpgdir r) (k_ptable r) (k_initproc r) (k_nextpid r) (k_ticks r) (k_disk r) (k_dtrace
    r) (k_bufs r) (k_slocks r) (k_log r) (k_sb r) v (k_ftable r) (k_devsw r) (k_pipes r)
    (k_input r) (k_locking r) (k_panicked r) (k_out r) (k_trace r) (k_wakes r) (k_screen r)
    (k_uart r) (k_first r).
Definition with_k_ftable (v : list file) (r : kernel) : kernel :=
  mkKernel (k_hart r) (k_end r) (k_data r) (k_mem r) (k_use_lock r) (k_freelist r)
    (k_kpgdir r) (k_ptable r) (k_initproc r) (k_nextpid r) (k_ticks r) (k_disk r) (k_dtrace
    r) (k_bufs r) (k_slocks r) (k_log r) (k_sb r) (k_icache r) v (k_devsw r) (k_pipes r)
    (k_input r) (k_locking r) (k_panicked r) (k_out r) (k_trace r) (k_wakes r) (k_screen r)
    (k_uart r) (k_first r).
Definition with_k_devsw (v : list (option device * option device)) (r : kernel) : kernel :=
  mkKernel (k_hart r) (k_end r) (k_data r) (k_mem r) (k_use_lock r) (k_freelist r)
    (k_kpgdir r) (k_ptable r) (k_initproc r) (k_nextpid r) (k_ticks r) (k_disk r) (k_dtrace
    r) (k_bufs r) (k_slocks r) (k_log r) (k_sb r) (k_icache r) (k_ftable r) v (k_pipes r)
    (k_input r) (k_locking r) (k_panicked r) (k_out r) (k_trace r) (k_wakes r) (k_screen r)
    (k_uart r) (k_first r).
Definition with_k_pipes (v : gmap Z pipe) (r : kernel) : kernel :=
  mkKernel (k_hart r) (k_end r) (k_data r) (k_mem r) (k_use_lock r) (k_freelist r)
    (k_kpgdir r) (k_ptable r) (k_initproc r) (k_nextpid r) (k_ticks r) (k_disk r) (k_dtrace
    r) (k_bufs r) (k_slocks r) (k_log r) (k_sb r) (k_icache r) (k_ftable r) (k_devsw r) v
    (k_input r) (k_locking r) (k_panicked r) (k_out r) (k_trace r) (k_wakes r) (k_screen r)
    (k_uart r) (k_first r).
Definition with_k_input (v : input_t) (r : kernel) : kernel :=
  mkKernel (k_hart r) (k_end r) (k_data r) (k_mem r) (k_use_lock r) (k_freelist r)
    (k_kpgdir r) (k_ptable r) (k_initproc r) (k_nextpid r) (k_ticks r) (k_disk r) (k_dtrace
    r) (k_bufs r) (k_slocks r) (k_log r) (k_sb r) (k_icache r) (k_ftable r) (k_devsw r)
    (k_pipes r) v (k_locking r) (k_panicked r) (k_out r) (k_trace r) (k_wakes r) (k_screen
    r) (k_uart r) (k_first r).
Definition with_k_locking (v : bool) (r : kernel) : kernel :=
  mkKernel (k_hart r) (k_end r) (k_data r) (k_mem r) (k_use_lock r) (k_freelist r)
    (k_kpgdir r) (k_ptable r) (k_initproc r) (k_nextpid r) (k_ticks r) (k_disk r) (k_dtrace
    r) (k_bufs r) (k_slocks r) (k_log r) (k_sb r) (k_icache r) (k_ftable r) (k_devsw r)
    (k_pipes r) (k_input r) v (k_panicked r) (k_out r) (k_trace r) (k_wakes r) (k_screen r)
    (k_uart r) (k_first r).
Definition with_k_panicked (v : bool) (r : kernel) : kernel :=
  mkKernel (k_hart r) (k_end r) (k_data r) (k_mem r) (k_use_lock r) (k_freelist r)
    (k_kpgdir r) (k_ptable r) (k_initproc r) (k_nextpid r) (k_ticks r) (k_disk r) (k_dtrace
    r) (k_bufs r) (k_slocks r) (k_log r) (k_sb r) (k_icache r) (k_ftable r) (k_devsw r)
    (k_pipes r) (k_input r) (k_locking r) v (k_out r) (k_trace r) (k_wakes r) (k_screen r)
    (k_uart r) (k_first r).
Definition with_k_out (v : list Z) (r : kernel) : kernel :=
  mkKernel (k_hart r) (k_end r) (k_data r) (k_mem r) (k_use_lock r) (k_freelist r)
    (k_kpgdir r) (k_ptable r) (k_initproc r) (k_nextpid r) (k_ticks r) (k_disk r) (k_dtrace
    r) (k_bufs r) (k_slocks r) (k_log r) (k_sb r) (k_icache r) (k_ftable r) (k_devsw r)
    (k_pipes r) (k_input r) (k_locking r) (k_panicked r) v (k_trace r) (k_wakes r) (k_screen
    r) (k_uart r) (k_first r).
Definition with_k_trace (v : Z) (r : kernel) : kernel :=
  mkKernel (k_hart r) (k_end r) (k_data r) (k_mem r) (k_use_lock r) (k_freelist r)
    (k_kpgdir r) (k_ptable r) (k_initproc r) (k_nextpid r) (k_ticks r) (k_disk r) (k_dtrace
    r) (k_bufs r) (k_slocks r) (k_log r) (k_sb r) (k_icache r) (k_ftable r) (k_devsw r)
    (k_pipes r) (k_input r) (k_locking r) (k_panicked r) (k_out r) v (k_wakes r) (k_screen
    r) (k_uart r) (k_first r).
Definition with_k_wakes (v : nat) (r : kernel) : kernel :=
  mkKernel (k_hart r) (k_end r) (k_data r) (k_mem r) (k_use_lock r) (k_freelist r)
    (k_kpgdir r) (k_ptable r) (k_initproc r) (k_nextpid r) (k_ticks r) (k_disk r) (k_dtrace
    r) (k_bufs r) (k_slocks r) (k_log r) (k_sb r) (k_icache r) (k_ftable r) (k_devsw r)
    (k_pipes r) (k_input r) (k_locking r) (k_panicked r) (k_out r) (k_trace r) v (k_screen
    r) (k_uart r) (k_first r).
Definition with_k_screen (v : screen) (r : kernel) : kernel :=
  mkKernel (k_hart r) (k_end r) (k_data r) (k_mem r) (k_use_lock r) (k_freelist r)
    (k_kpgdir r) (k_ptable r) (k_initproc r) (k_nextpid r) (k_ticks r) (k_disk r) (k_dtrace
    r) (k_bufs r) (k_slocks r) (k_log r) (k_sb r) (k_icache r) (k_ftable r) (k_devsw r)
    (k_pipes r) (k_input r) (k_locking r) (k_panicked r) (k_out r) (k_trace r) (k_wakes r) v
    (k_uart r) (k_first r).
Definition with_k_uart (v : bool) (r : kernel) : kernel :=
  mkKernel (k_hart r) (k_end r) (k_data r) (k_mem r) (k_use_lock r) (k_freelist r)
    (k_kpgdir r) (k_ptable r) (k_initproc r) (k_nextpid r) (k_ticks r) (k_disk r) (k_dtrace
    r) (k_bufs r) (k_slocks r) (k_log r) (k_sb r) (k_icache r) (k_ftable r) (k_devsw r)
    (k_pipes r) (k_input r) (k_locking r) (k_panicked r) (k_out r) (k_trace r) (k_wakes r)
    (k_screen r) v (k_first r).
Definition with_k_first (v : bool) (r : kernel) : kernel :=
  mkKernel (k_hart r) (k_end r) (k_data r) (k_mem r) (k_use_lock r) (k_freelist r)
    (k_kpgdir r) (k_ptable r) (k_initproc r) (k_nextpid r) (k_ticks r) (k_disk r) (k_dtrace
    r) (k_bufs r) (k_slocks r) (k_log r) (k_sb r) (k_icache r) (k_ftable r) (k_devsw r)
    (k_pipes r) (k_input r) (k_locking r) (k_panicked r) (k_out r) (k_trace r) (k_wakes r)
    (k_screen r) (k_uart r) v.

(** A program of the kernel. *)
Abbreviation K := (prog kernel).

Lemma with_k_hart_id s : with_k_hart (k_hart s) s = s.
Proof. by destruct s. Qed.
