(* ===== verification/Spinlock.v ===== *)
(** Interrupt nesting and spin locks: spinlock.c, with [mycpu] and [cpuid] of
    proc.c.

    [Cpu] and [Lock] hold the functions, as programs over the [hart]; the
    lemmas [acquire_ok] and [release_ok] give their effect as pure updates
    [hacq] and [hrel], and [hrel_hacq] says that a critical section restores
    the CPU exactly.  [Mutex] interleaves the atomic actions of [acquire] and
    [release] on several CPUs and proves mutual exclusion. *)

From S2P Require Import Prelude State.

(** * mycpu, pushcli, popcli *)

Module Cpu.

(** The index [mycpu] finds: the first of the [ncpu] CPUs whose APIC id is the
    one the executing CPU reports. *)
Definition cur_cpu (h : hart) : option nat :=
  find_index (λ c, c_apicid c =? h_lapicid h) (take (Z.to_nat (h_ncpu h)) (h_cpus h)).

Definition mycpu : prog hart nat :=
  eflags <- gets h_if ;;
  if (eflags : bool) then panic "mycpu called with interrupts enabled\n" else
  r <- gets cur_cpu ;;
  match r with
  | Some i => ret i
  | None => panic "unknown apicid\n"
  end.

Definition cpuid : prog hart nat := mycpu.

Definition cpu_at (i : nat) : prog hart cpu :=
  h <- get ;; deref (h_cpus h !! i).

Definition upd_cpu (i : nat) (f : cpu → cpu) (h : hart) : hart :=
  with_h_cpus (alter f i (h_cpus h)) h.

Definition cli : prog hart unit := modify (with_h_if false).
Definition sti : prog hart unit := modify (with_h_if true).

Definition pushcli : prog hart unit :=
  eflags <- gets h_if ;;
  cli ;;;
  i <- mycpu ;;
  c <- cpu_at i ;;
  (if c_ncli c =? 0 then
     i <- mycpu ;; modify (upd_cpu i (with_c_intena eflags))
   else ret tt) ;;;
  i <- mycpu ;;
  modify (upd_cpu i (λ c, with_c_ncli (c_ncli c + 1) c)).

Definition popcli : prog hart unit :=
  eflags <- gets h_if ;;
  if (eflags : bool) then panic "popcli - interruptible" else
  i <- mycpu ;;
  modify (upd_cpu i (λ c, with_c_ncli (c_ncli c - 1) c)) ;;;
  c <- cpu_at i ;;
  if c_ncli c <? 0 then panic "popcli" else
  i <- mycpu ;;
  c <- cpu_at i ;;
  if (c_ncli c =? 0) && c_intena c then sti else ret tt.

End Cpu.

(** * acquire, release, holding *)

Module Lock.
Import Cpu.

Definition initlock (lk : lockid) (name : string) : prog hart unit :=
  modify (λ h, with_h_locks (<[lk := mkSpinlock 0 name None]> (h_locks h)) h).

Definition lock_at (lk : lockid) : prog hart spinlock :=
  h <- get ;; deref (h_locks h !! lk).

Definition upd_lock (lk : lockid) (f : spinlock → spinlock) (h : hart) : hart :=
  with_h_locks (alter f lk (h_locks h)) h.

Definition holding (lk : lockid) : prog hart bool :=
  pushcli ;;;
  l <- lock_at lk ;;
  r <- (if lk_locked l =? 0 then ret false
        else i <- mycpu ;; ret (bool_decide (lk_cpu l = Some i))) ;;
  popcli ;;;
  ret r.

(** The atomic exchange of [lk->locked] with [newval]. *)
Definition xchg (lk : lockid) (newval : Z) : prog hart Z :=
  l <- lock_at lk ;;
  modify (upd_lock lk (with_lk_locked newval)) ;;;
  ret (lk_locked l).

(** The loop [while(xchg(&lk->locked, 1) != 0)]: with no other CPU acting in
    between, a lock found taken stays taken. *)
Definition acquire (lk : lockid) : prog hart unit :=
  pushcli ;;;
  b <- holding lk ;;
  if (b : bool) then panic "acquire" else
  old <- xchg lk 1 ;;
  if negb (old =? 0) then diverge else
  i <- mycpu ;;
  modify (upd_lock lk (with_lk_cpu (Some i))).

Definition release (lk : lockid) : prog hart unit :=
  b <- holding lk ;;
  if negb b then panic "release" else
  modify (upd_lock lk (with_lk_cpu None)) ;;;
  modify (upd_lock lk (with_lk_locked 0)) ;;;
  popcli.

End Lock.

(** * The effect of a critical section *)

Module Crit.
Import Cpu Lock.

(** The state kernel code runs in: the executing CPU is known; interrupts are
    off while [ncli] counts a [pushcli]; at depth 0 the saved flag is the
    current one. *)
Definition hart_ok (h : hart) : Prop :=
  ∃ i c, cur_cpu h = Some i ∧ h_cpus h !! i = Some c ∧ 0 ≤ c_ncli c ∧
    (c_ncli c = 0 → c_intena c = h_if h) ∧
    (0 < c_ncli c → h_if h = false).

Definition cur (h : hart) : nat := default 0%nat (cur_cpu h).
Definition lname (lk : lockid) (h : hart) : string :=
  default EmptyString (lk_name <$> h_locks h !! lk).

Definition ncli_of (h : hart) : Z := default 0 (c_ncli <$> h_cpus h !! cur h).

(** [pushcli] as an update. *)
Definition hpush (h : hart) : hart :=
  with_h_if false (upd_cpu (cur h) (λ c, with_c_ncli (c_ncli c + 1) c) h).

(** [popcli] as an update. *)
Definition hpop (h : hart) : hart :=
  let intena := default false (c_intena <$> h_cpus h !! cur h) in
  with_h_if (bool_decide (ncli_of h = 1) && intena)
    (upd_cpu (cur h) (λ c, with_c_ncli (c_ncli c - 1) c) h).

Definition hacq (lk : lockid) (h : hart) : hart :=
  with_h_locks (<[lk := mkSpinlock 1 (lname lk h) (Some (cur h))]> (h_locks h)) (hpush h).

Definition hrel (lk : lockid) (h : hart) : hart :=
  with_h_locks (<[lk := mkSpinlock 0 (lname lk h) None]> (h_locks h)) (hpop h).

Definition lfree (lk : lockid) (h : hart) : Prop :=
  h_locks h !! lk = Some (mkSpinlock 0 (lname lk h) None).
Definition lheld (lk : lockid) (h : hart) : Prop :=
  h_locks h !! lk = Some (mkSpinlock 1 (lname lk h) (Some (cur h))) ∧ 0 < ncli_of h.

Lemma cur_cpu_upd i g h :
  (∀ c, c_apicid (g c) = c_apicid c) → cur_cpu (upd_cpu i g h) = cur_cpu h.
Proof.
  intros Hg. unfold cur_cpu, upd_cpu. simpl. apply find_index_alter.
  intros c. by rewrite Hg.
Qed.

Lemma cur_cpu_hpush h : cur_cpu (hpush h) = cur_cpu h.
Proof. by apply (cur_cpu_upd (cur h)). Qed.

Lemma cur_cpu_hpop h : cur_cpu (hpop h) = cur_cpu h.
Proof. by apply (cur_cpu_upd (cur h)). Qed.

Lemma cur_hpush h : cur (hpush h) = cur h.
Proof. unfold cur. by rewrite cur_cpu_hpush. Qed.

Lemma cur_hpop h : cur (hpop h) = cur h.
Proof. unfold cur. by rewrite cur_cpu_hpop. Qed.

(** Changes of the lock table are invisible to the CPU. *)
Lemma cur_locks m h : cur (with_h_locks m h) = cur h.
Proof. done. Qed.

Lemma hart_ok_locks m h : hart_ok h → hart_ok (with_h_locks m h).
Proof. done. Qed.

Lemma hart_ok_cur h : hart_ok h → cur_cpu h = Some (cur h).
Proof. intros (i & c & Hi & _). unfold cur. by rewrite Hi. Qed.

Lemma mycpu_ok h : hart_ok h → h_if h = false → mycpu h = Done (cur h) h.
Proof.
  intros Hok Hif. unfold mycpu, bind, gets. simpl. rewrite Hif.
  by rewrite (hart_ok_cur h).
Qed.

Lemma upd_cpu_id i f c h : h_cpus h !! i = Some c → f c = c → upd_cpu i f h = h.
Proof.
  intros Hc Hf. unfold upd_cpu. replace (alter f i (h_cpus h)) with (h_cpus h).
  - by destruct h.
  - apply list_eq. intros j. rewrite list_lookup_alter. case_decide as E; [|done].
    subst j. rewrite Hc. simpl. by rewrite Hf.
Qed.

Lemma upd_cpu_compose i f g h :
  upd_cpu i f (upd_cpu i g h) = upd_cpu i (λ c, f (g c)) h.
Proof.
  unfold upd_cpu. simpl.
  assert (E : alter f i (alter g i (h_cpus h)) = alter (λ c, f (g c)) i (h_cpus h));
    [|by rewrite E].
  apply list_eq. intros j.
  rewrite !list_lookup_alter. destruct (decide (i = j)); [|done].
  rewrite decide_True by done. by destruct (h_cpus h !! i).
Qed.

Lemma with_h_if_upd b i f h : with_h_if b (upd_cpu i f h) = upd_cpu i f (with_h_if b h).
Proof. done. Qed.

Lemma cpus_cur h c : h_cpus h !! cur h = Some c → ncli_of h = c_ncli c.
Proof. unfold ncli_of. by intros ->. Qed.

Lemma mycpu_off h : cur_cpu h = Some (cur h) → h_if h = false → mycpu h = Done (cur h) h.
Proof. intros Hc Hif. unfold mycpu, bind, gets. simpl. by rewrite Hif, Hc. Qed.

Lemma pushcli_ok h : hart_ok h → pushcli h = Done tt (hpush h).
Proof.
  intros Hok. pose proof (hart_ok_cur h Hok) as Hcur.
  destruct Hok as (i & c & Hi & Hc & Hn & H0 & Hpos).
  assert (i = cur h) as -> by congruence. clear Hi.
  set (h1 := with_h_if false h).
  assert (Hm : mycpu h1 = Done (cur h) h1) by (by apply (mycpu_off h1)).
  assert (Hid : c_ncli c = 0 → upd_cpu (cur h) (with_c_intena (h_if h)) h1 = h1).
  { intros Hz. eapply upd_cpu_id; [done|]. rewrite <-(H0 Hz). by destruct c. }
  unfold pushcli, bind, gets, cli, modify. simpl obind. fold h1. rewrite Hm. simpl.
  unfold cpu_at, bind, get. simpl. rewrite Hc. simpl.
  destruct (Z.eqb_spec (c_ncli c) 0) as [Hz|Hz]; simpl.
  - rewrite Hm. simpl. rewrite Hid, Hm by done. done.
  - rewrite Hm. done.
Qed.

Lemma popcli_ok h :
  hart_ok h → 0 < ncli_of h → popcli h = Done tt (hpop h).
Proof.
  intros Hok Hpos. pose proof (hart_ok_cur h Hok) as Hcur.
  destruct Hok as (i & c & Hi & Hc & Hn & H0 & Hoff).
  assert (i = cur h) as -> by congruence. clear Hi.
  rewrite (cpus_cur h c) in Hpos by done.
  set (f := λ c : cpu, with_c_ncli (c_ncli c - 1) c).
  set (h1 := upd_cpu (cur h) f h).
  assert (Hm1 : mycpu h1 = Done (cur h) h1).
  { assert (Hc1 : cur_cpu h1 = cur_cpu h) by (by apply cur_cpu_upd).
    assert (E : cur h1 = cur h) by (unfold cur; by rewrite Hc1).
    rewrite <-E. apply mycpu_off; [rewrite E; congruence | by apply Hoff]. }
  assert (Hl1 : h_cpus h1 !! cur h = Some (f c)).
  { unfold h1, upd_cpu. simpl. rewrite list_lookup_alter, decide_True by done.
    by rewrite Hc. }
  unfold popcli, bind, gets, modify. simpl obind. rewrite (Hoff Hpos).
  rewrite mycpu_off by auto. cbn [obind]. fold f h1.
  unfold cpu_at, bind, get. cbn [obind]. rewrite Hl1. cbn [deref ret obind].
  change (c_ncli (f c)) with (c_ncli c - 1).
  destruct (Z.ltb_spec (c_ncli c - 1) 0) as [?|_]; [lia|].
  rewrite Hm1. cbn [obind]. rewrite Hl1. cbn [deref ret obind].
  change (c_ncli (f c)) with (c_ncli c - 1).
  change (c_intena (f c)) with (c_intena c).
  unfold hpop. rewrite (cpus_cur h c), Hc by done. simpl. fold f h1.
  assert (E : (c_ncli c - 1 =? 0) = bool_decide (c_ncli c = 1)).
  { destruct (Z.eqb_spec (c_ncli c - 1) 0), (bool_decide_reflect (c_ncli c = 1)); lia. }
  rewrite E. destruct (_ && _) eqn:Eb; [done|]. unfold ret.
  assert (Hid : with_h_if false h1 = h1); [|by rewrite Hid].
  unfold h1. rewrite with_h_if_upd. f_equal. rewrite <-(Hoff Hpos). by destruct h.
Qed.

Lemma hart_ok_hpush h : hart_ok h → hart_ok (hpush h).
Proof.
  intros Hok. pose proof (hart_ok_cur h Hok) as Hcur.
  destruct Hok as (i & c & Hi & Hc & Hn & H0 & Hoff).
  assert (i = cur h) as -> by congruence. exists (cur h), (with_c_ncli (c_ncli c + 1) c).
  rewrite cur_cpu_hpush. split; [done|]. split.
  { simpl. rewrite list_lookup_alter, decide_True by done. by rewrite Hc. }
  simpl. repeat split; try done; lia.
Qed.

#[export] Hint Resolve hart_ok_hpush : kernel.

Lemma ncli_of_hpush h : hart_ok h → ncli_of (hpush h) = ncli_of h + 1.
Proof.
  intros Hok. pose proof (hart_ok_cur h Hok) as Hcur.
  destruct Hok as (i & c & Hi & Hc & Hn & H0 & Hoff).
  assert (i = cur h) as -> by congruence.
  unfold ncli_of. rewrite cur_hpush. simpl.
  rewrite list_lookup_alter, decide_True by done. by rewrite Hc.
Qed.

Lemma ncli_of_nonneg h : hart_ok h → 0 ≤ ncli_of h.
Proof.
  intros Hok. pose proof (hart_ok_cur h Hok) as Hcur.
  destruct Hok as (i & c & Hi & Hc & Hn & _).
  assert (i = cur h) as -> by congruence. by rewrite (cpus_cur h c).
Qed.

(** A matched pair leaves no trace. *)
Lemma hpop_hpush h : hart_ok h → hpop (hpush h) = h.
Proof.
  intros Hok. pose proof (ncli_of_hpush h Hok) as Hnp.
  pose proof (hart_ok_cur h Hok) as Hcur.
  destruct Hok as (i & c & Hi & Hc & Hn & H0 & Hoff).
  assert (i = cur h) as -> by congruence.
  assert (Hnc : ncli_of h = c_ncli c) by (by apply cpus_cur).
  unfold hpop. rewrite cur_hpush, Hnp, Hnc. unfold hpush at 1. simpl.
  rewrite list_lookup_alter, decide_True, Hc by done. simpl.
  set (b := bool_decide _ && _).
  assert (Hb : b = h_if h).
  { subst b. destruct (bool_decide_reflect (c_ncli c + 1 = 1)) as [E|E]; simpl.
    - apply H0. lia.
    - symmetry. apply Hoff. lia. }
  rewrite Hb. unfold hpush. rewrite !with_h_if_upd, upd_cpu_compose.
  replace (with_h_if (h_if h) (with_h_if false h)) with h by (by destruct h).
  apply (upd_cpu_id _ _ c).
  - done.
  - destruct c. unfold with_c_ncli. simpl. f_equal. lia.
Qed.

Lemma hart_ok_hpop h : hart_ok h → 0 < ncli_of h → hart_ok (hpop h).
Proof.
  intros Hok Hpos. pose proof (hart_ok_cur h Hok) as Hcur.
  destruct Hok as (i & c & Hi & Hc & Hn & H0 & Hoff).
  assert (i = cur h) as -> by congruence.
  assert (Hnc : ncli_of h = c_ncli c) by (by apply cpus_cur). rewrite Hnc in Hpos.
  exists (cur h), (with_c_ncli (c_ncli c - 1) c). rewrite cur_cpu_hpop. split; [done|].
  unfold hpop. rewrite Hnc, Hc. simpl.
  rewrite list_lookup_alter, decide_True, Hc by done. simpl.
  split; [done|]. repeat split; [lia | intros E | intros E].
  - by rewrite bool_decide_true by lia.
  - by rewrite bool_decide_false by lia.
Qed.

Lemma holding_ok lk l h :
  hart_ok h → h_locks h !! lk = Some l →
  holding lk h =
    Done (negb (lk_locked l =? 0) && bool_decide (lk_cpu l = Some (cur h))) h.
Proof.
  intros Hok Hl. unfold holding. run pushcli_ok.
  erewrite bind_done; [|unfold lock_at, bind, get; cbn [obind]; simpl; by rewrite Hl].
  assert (Hpop : popcli (hpush h) = Done tt h).
  { rewrite popcli_ok, hpop_hpush; [done|done|by apply hart_ok_hpush|].
    rewrite ncli_of_hpush by done. pose proof (ncli_of_nonneg h Hok). lia. }
  destruct (lk_locked l =? 0); simpl negb.
  - erewrite bind_done by done. by erewrite bind_done by done.
  - erewrite bind_done.
    2:{ erewrite bind_done; [|apply mycpu_ok; [by apply hart_ok_hpush|done]]. done. }
    rewrite cur_hpush. by erewrite bind_done by done.
Qed.

Lemma alter_lock lk f l (m : gmap lockid spinlock) :
  m !! lk = Some l → alter f lk m = <[lk := f l]> m.
Proof.
  intros Hl. apply map_eq. intros k. rewrite lookup_alter, lookup_insert.
  case_decide; [|done]. subst. by rewrite Hl.
Qed.

Lemma acquire_ok lk h : hart_ok h → lfree lk h → acquire lk h = Done tt (hacq lk h).
Proof.
  intros Hok Hfree. unfold acquire. run pushcli_ok.
  run holding_ok. simpl.
  erewrite bind_done.
  2:{ unfold xchg. erewrite bind_done.
      - erewrite bind_done by done. done.
      - unfold lock_at, bind, get. simpl. by rewrite Hfree. }
  simpl. erewrite bind_done; [|apply mycpu_off; [|done]].
  - unfold modify, hacq, upd_lock. simpl. rewrite cur_locks, cur_hpush.
    rewrite (alter_lock lk _ _ _ Hfree). simpl.
    rewrite (alter_lock lk _ (mkSpinlock 1 (lname lk h) None)).
    + by rewrite insert_insert_eq.
    + by rewrite lookup_insert_eq.
  - change (cur_cpu (hpush h) = Some (cur (hpush h))).
    apply hart_ok_cur, hart_ok_hpush, Hok.
Qed.

Lemma release_ok lk h : hart_ok h → lheld lk h → release lk h = Done tt (hrel lk h).
Proof.
  intros Hok [Hheld Hn]. unfold release. run holding_ok. simpl.
  rewrite bool_decide_true by done. simpl.
  erewrite bind_done by done. erewrite bind_done by done.
  rewrite popcli_ok; [|done|done].
  unfold hrel, hpop, upd_lock. simpl.
  rewrite (alter_lock lk _ _ _ Hheld). simpl.
  rewrite (alter_lock lk _ (mkSpinlock 1 (lname lk h) None)).
  - by rewrite insert_insert_eq.
  - by rewrite lookup_insert_eq.
Qed.

Lemma hart_ok_hacq lk h : hart_ok h → hart_ok (hacq lk h).
Proof. intros H. apply hart_ok_locks. by apply hart_ok_hpush. Qed.

Lemma hart_ok_hrel lk h : hart_ok h → lheld lk h → hart_ok (hrel lk h).
Proof. intros H [_ Hn]. apply hart_ok_locks. by apply hart_ok_hpop. Qed.

Lemma cur_hacq lk h : cur (hacq lk h) = cur h.
Proof. unfold hacq. rewrite cur_locks. apply cur_hpush. Qed.

Lemma lname_hacq lk lk' h : lname lk' (hacq lk h) = lname lk' h.
Proof.
  unfold lname, hacq. simpl. rewrite lookup_insert. case_decide as E; [|done].
  by subst.
Qed.

Lemma ncli_of_hacq lk h : hart_ok h → ncli_of (hacq lk h) = ncli_of h + 1.
Proof. apply ncli_of_hpush. Qed.

Lemma lheld_hacq lk h : hart_ok h → lheld lk (hacq lk h).
Proof.
  intros Hok. split.
  - rewrite lname_hacq, cur_hacq. unfold hacq. simpl. by rewrite lookup_insert_eq.
  - rewrite ncli_of_hacq by done. pose proof (ncli_of_nonneg h Hok). lia.
Qed.

Lemma lheld_hacq_ne lk lk' h : hart_ok h → lk ≠ lk' → lheld lk h → lheld lk (hacq lk' h).
Proof.
  intros Hok Hne [Hh Hn]. split.
  - rewrite lname_hacq, cur_hacq. unfold hacq. simpl. by rewrite lookup_insert_ne.
  - rewrite ncli_of_hacq by done. lia.
Qed.

Lemma lfree_hacq_ne lk lk' h : lk ≠ lk' → lfree lk h → lfree lk (hacq lk' h).
Proof.
  intros Hne Hf. unfold lfree. rewrite lname_hacq. unfold hacq. simpl.
  by rewrite lookup_insert_ne.
Qed.

(** A critical section restores the CPU and the lock. *)
Lemma hrel_hacq lk h : hart_ok h → lfree lk h → hrel lk (hacq lk h) = h.
Proof.
  intros Hok Hf. unfold hrel. rewrite lname_hacq. unfold hacq. simpl.
  change (hpop (with_h_locks ?m ?x)) with (with_h_locks m (hpop x)).
  rewrite hpop_hpush, insert_insert_eq, insert_id by done. by destruct h.
Qed.

(** Handing over: [lk] is released while a lock taken after it stays held. *)
Lemma hrel_hacq_ne lk lk' h :
  hart_ok h → lk ≠ lk' → lfree lk h → hrel lk (hacq lk' (hacq lk h)) = hacq lk' h.
Proof.
  intros Hok Hne Hf. unfold hrel. rewrite !lname_hacq.
  assert (E : hpop (hacq lk' (hacq lk h)) =
    with_h_locks (h_locks (hacq lk' (hacq lk h))) (hpush h)).
  { change (hpop (hacq lk' (hacq lk h))) with
      (with_h_locks (h_locks (hacq lk' (hacq lk h))) (hpop (hpush (hpush h)))).
    by rewrite hpop_hpush by auto with kernel. }
  rewrite E. unfold hacq at 1 3. rewrite lname_hacq, cur_hacq. unfold hacq. simpl.
  change (with_h_locks ?a (with_h_locks ?b ?x)) with (with_h_locks a x).
  rewrite (insert_insert_ne _ lk lk') by done. by rewrite insert_insert_eq, (insert_id _ lk).
Qed.

(** Acquiring a lock this CPU already holds, or releasing one it does not, panics. *)
Lemma acquire_held_panics lk h : hart_ok h → lheld lk h → acquire lk h = Panicked "acquire".
Proof.
  intros Hok [Hh _]. unfold acquire. run pushcli_ok.
  run holding_ok. simpl.
  by rewrite cur_hpush, bool_decide_true.
Qed.

Lemma release_free_panics lk h : hart_ok h → lfree lk h → release lk h = Panicked "release".
Proof. intros Hok Hf. unfold release. by run holding_ok. Qed.

End Crit.

(** * Nesting of pushcli and popcli *)

Module Nesting.
Import Cpu Crit.

Inductive cli_op := Push | Pop.

Definition run_op (o : cli_op) : prog hart unit :=
  match o with Push => pushcli | Pop => popcli end.

(** The depth a sequence ends at, if no [Pop] is unmatched. *)
Fixpoint depth (d : nat) (ops : list cli_op) : option nat :=
  match ops with
  | [] => Some d
  | Push :: ops' => depth (S d) ops'
  | Pop :: ops' => match d with O => None | S d' => depth d' ops' end
  end.

Lemma hart_ok_pushes n h : hart_ok h → hart_ok (Nat.iter n hpush h).
Proof. intros Hok. induction n; simpl; auto with kernel. Qed.

Lemma ncli_pushes n h : hart_ok h → ncli_of (Nat.iter n hpush h) = ncli_of h + Z.of_nat n.
Proof.
  intros Hok. induction n as [|n IH]; simpl; [lia|].
  rewrite ncli_of_hpush by (by apply hart_ok_pushes). lia.
Qed.

Lemma run_ops_pushes ops d d' h :
  hart_ok h → depth d ops = Some d' →
  for_each ops run_op (Nat.iter d hpush h) = Done tt (Nat.iter d' hpush h).
Proof.
  intros Hok. revert d. induction ops as [|[] ops IH]; intros d Hd; simpl in *.
  - by injection Hd as ->.
  - run pushcli_ok; [|by apply hart_ok_pushes]. by apply (IH (S d)).
  - destruct d as [|d]; [done|].
    erewrite bind_done; [apply (IH d), Hd|].
    rewrite popcli_ok; [|by apply hart_ok_pushes|].
    + simpl. rewrite hpop_hpush by (by apply hart_ok_pushes). done.
    + rewrite ncli_pushes by done. pose proof (ncli_of_nonneg h Hok). lia.
Qed.

(** [pushcli] and [popcli] are matched.  After any sequence of them in which
    no [popcli] is unmatched, the nesting count has grown by the number [d] of
    unmatched [pushcli]s; interrupts are off while [d] is positive; and when [d]
    is 0 the CPU is exactly as before, so interrupts are on again only if they
    were on at the start. *)
Theorem cli_nesting ops d h :
  hart_ok h → depth 0 ops = Some d →
  ∃ h', for_each ops run_op h = Done tt h' ∧ ncli_of h' = ncli_of h + Z.of_nat d ∧
    ((0 < d)%nat → h_if h' = false) ∧ (d = 0%nat → h' = h).
Proof.
  intros Hok Hd. exists (Nat.iter d hpush h).
  split; [by apply (run_ops_pushes ops 0)|]. split; [by apply ncli_pushes|].
  split; [|by intros ->]. destruct d; [lia|done].
Qed.

Definition demo_hart : hart :=
  mkHart true 0 0 7 [mkCpu 7 (mkTaskstate 0 0 0) [] 1 0 true None] 1 ∅.

Lemma demo_hart_ok : hart_ok demo_hart.
Proof.
  exists 0%nat, (mkCpu 7 (mkTaskstate 0 0 0) [] 1 0 true None).
  repeat split; simpl; lia.
Qed.

Lemma cli_nesting_witness :
  ∃ h', for_each [Push; Push; Pop; Pop] run_op demo_hart = Done tt h' ∧
    ncli_of h' = ncli_of demo_hart + Z.of_nat 0 ∧
    ((0 < 0)%nat → h_if h' = false) ∧ (0%nat = 0%nat → h' = demo_hart).
Proof. apply (cli_nesting [Push; Push; Pop; Pop] 0 demo_hart demo_hart_ok eq_refl). Defined.

End Nesting.

(** * Mutual exclusion on several CPUs *)

Module Mutex.

(** Where a CPU is with respect to one lock: outside; past the [holding] test
    and spinning on [xchg]; past [xchg] but not yet recorded in [lk->cpu];
    inside; past the [lk->cpu = 0] of [release]. *)
Inductive phase := Outside | Spinning | Taken | Inside | Leaving.

Record mstate := mkM { m_lock : spinlock; m_phase : nat → phase }.

Definition upd_phase (f : nat → phase) (i : nat) (p : phase) : nat → phase :=
  λ j, if decide (i = j) then p else f j.

(** [holding] as CPU [i] evaluates it. *)
Definition holds (lk : spinlock) (i : nat) : bool :=
  negb (lk_locked lk =? 0) && bool_decide (lk_cpu lk = Some i).

(** One atomic action of one CPU, inside [acquire] or [release]. *)
Inductive mstep : mstate → mstate → Prop :=
| step_test lk f i :
    f i = Outside → holds lk i = false →
    mstep (mkM lk f) (mkM lk (upd_phase f i Spinning))
| step_xchg_busy lk f i :
    f i = Spinning → lk_locked lk ≠ 0 →
    mstep (mkM lk f) (mkM (with_lk_locked 1 lk) f)
| step_xchg_take lk f i :
    f i = Spinning → lk_locked lk = 0 →
    mstep (mkM lk f) (mkM (with_lk_locked 1 lk) (upd_phase f i Taken))
| step_record lk f i :
    f i = Taken →
    mstep (mkM lk f) (mkM (with_lk_cpu (Some i) lk) (upd_phase f i Inside))
| step_clear_cpu lk f i :
    f i = Inside → holds lk i = true →
    mstep (mkM lk f) (mkM (with_lk_cpu None lk) (upd_phase f i Leaving))
| step_unlock lk f i :
    f i = Leaving →
    mstep (mkM lk f) (mkM (with_lk_locked 0 lk) (upd_phase f i Outside)).

Definition minit (name : string) : mstate := mkM (mkSpinlock 0 name None) (λ _, Outside).

(** CPU [i] owns the lock. *)
Definition owns (f : nat → phase) (i : nat) : Prop :=
  f i = Taken ∨ f i = Inside ∨ f i = Leaving.

Definition minv (st : mstate) : Prop :=
  let lk := m_lock st in let f := m_phase st in
  (lk_locked lk = 0 ∧ lk_cpu lk = None ∧ ∀ j, ¬ owns f j) ∨
  (lk_locked lk = 1 ∧ ∃ i, owns f i ∧ (∀ j, owns f j → j = i) ∧
     lk_cpu lk = match f i with Inside => Some i | _ => None end).

Lemma minv_step st st' : minv st → mstep st st' → minv st'.
Proof.
  intros Hinv Hstep. unfold minv, owns in *.
  destruct Hstep as [lk f i Hi Hh|lk f i Hi Hl|lk f i Hi Hl|lk f i Hi|lk f i Hi Hh|lk f i Hi];
    simpl in *.
  - destruct Hinv as [(H0 & Hc & Hno)|(H1 & j & Hj & Hu & Hc)]; [left|right].
    + split; [done|]. split; [done|]. intros j. unfold upd_phase.
      case_decide; [naive_solver|apply Hno].
    + assert (i ≠ j) by (intros ->; rewrite Hi in Hj; naive_solver).
      split; [done|]. exists j. unfold upd_phase. rewrite !decide_False by done.
      split; [done|]. split; [|done]. intros k. case_decide; naive_solver.
  - destruct Hinv as [(H0 & _)|(H1 & Hex)]; [done|]. right. done.
  - destruct Hinv as [(H0 & Hc & Hno)|(H1 & _)]; [|congruence]. right.
    split; [done|]. exists i. unfold upd_phase. rewrite !decide_True by done.
    split; [by left|]. split; [|done]. intros k. case_decide; [done|].
    intros Hk. by destruct (Hno k).
  - destruct Hinv as [(_ & _ & Hno)|(H1 & j & Hj & Hu & Hc)]; [naive_solver|]. right.
    assert (i = j) as -> by naive_solver.
    split; [done|]. exists j. unfold upd_phase. rewrite !decide_True by done.
    split; [naive_solver|]. split; [|done]. intros k. case_decide; naive_solver.
  - destruct Hinv as [(_ & _ & Hno)|(H1 & j & Hj & Hu & Hc)]; [naive_solver|]. right.
    assert (i = j) as -> by naive_solver.
    split; [done|]. exists j. unfold upd_phase. rewrite !decide_True by done.
    split; [naive_solver|]. split; [|done]. intros k. case_decide; naive_solver.
  - destruct Hinv as [(_ & _ & Hno)|(H1 & j & Hj & Hu & Hc)]; [naive_solver|]. left.
    assert (i = j) as -> by naive_solver. rewrite Hi in Hc.
    split; [done|]. split; [done|]. intros k. unfold upd_phase.
    case_decide as E; [naive_solver|]. intros Hk. destruct E. symmetry. by apply Hu.
Qed.

Lemma minv_reachable name st : rtc mstep (minit name) st → minv st.
Proof.
  intros Hr. assert (Hi : minv (minit name)).
  { left. simpl. unfold owns. naive_solver. }
  induction Hr; eauto using minv_step.
Qed.

(** C10: Mutual exclusion.  However the atomic actions of [acquire] and [release]
    on any number of CPUs interleave, at most one CPU owns the lock; the CPU
    inside passes the [holding] test of [release], so [panic("release")] is not
    reached, and a CPU outside fails the one of [acquire], so [panic("acquire")]
    is not reached either. *)
Theorem mutual_exclusion name st i j :
  rtc mstep (minit name) st →
  (owns (m_phase st) i → owns (m_phase st) j → i = j) ∧
  (m_phase st i = Inside → holds (m_lock st) i = true) ∧
  (m_phase st i = Outside → holds (m_lock st) i = false).
Proof.
  intros Hinv%minv_reachable. unfold minv, holds in *.
  destruct Hinv as [(-> & Hc & Hno)|(-> & k & Hk & Hu & ->)]; simpl.
  - split; [intros Hi; by destruct (Hno i)|]. split; [|done].
    intros Hi. destruct (Hno i). unfold owns. auto.
  - split; [intros ? ?; transitivity k; [|symmetry]; auto|]. split; intros Hi.
    + assert (i = k) as -> by (apply Hu; unfold owns; auto). rewrite Hi.
      by apply bool_decide_true.
    + apply bool_decide_false. destruct (m_phase st k) eqn:E; try done.
      intros [= ->]. congruence.
Qed.

Lemma mutual_exclusion_witness :
  let st := mkM (mkSpinlock 1 "kmem" None) (upd_phase (upd_phase (λ _, Outside) 0 Spinning) 0 Taken) in
  (owns (m_phase st) 0 → owns (m_phase st) 1 → 0%nat = 1%nat) ∧
  (m_phase st 0%nat = Inside → holds (m_lock st) 0 = true) ∧
  (m_phase st 0%nat = Outside → holds (m_lock st) 0 = false).
Proof.
  apply (mutual_exclusion "kmem"
    (mkM (mkSpinlock 1 "kmem" None) (upd_phase (upd_phase (λ _, Outside) 0 Spinning) 0 Taken)) 0 1).
  eapply rtc_l; [apply (step_test _ _ 0); reflexivity|].
  eapply rtc_l; [apply (step_xchg_take _ _ 0); reflexivity|]. apply rtc_refl.
Defined.

End Mutex.

(** * Locks in kernel programs *)

Module KLock.
Import Crit.

Definition mycpu : K nat := zoom k_hart with_k_hart Cpu.mycpu.
Definition pushcli : K unit := zoom k_hart with_k_hart Cpu.pushcli.
Definition popcli : K unit := zoom k_hart with_k_hart Cpu.popcli.
Definition sti : K unit := zoom k_hart with_k_hart Cpu.sti.
Definition initlock (lk : lockid) (name : string) : K unit :=
  zoom k_hart with_k_hart (Lock.initlock lk name).
Definition acquire (lk : lockid) : K unit := zoom k_hart with_k_hart (Lock.acquire lk).
Definition release (lk : lockid) : K unit := zoom k_hart with_k_hart (Lock.release lk).
Definition holding (lk : lockid) : K bool := zoom k_hart with_k_hart (Lock.holding lk).

(** The CPU as kernel code finds it, and the lock states, of a kernel state. *)
Definition kok (s : kernel) : Prop := hart_ok (k_hart s).
Definition unlocked (lk : lockid) (s : kernel) : Prop := lfree lk (k_hart s).
Definition owned (lk : lockid) (s : kernel) : Prop := lheld lk (k_hart s).
Definition enter (lk : lockid) (s : kernel) : kernel := with_k_hart (hacq lk (k_hart s)) s.
Definition leave (lk : lockid) (s : kernel) : kernel := with_k_hart (hrel lk (k_hart s)) s.

Lemma kacquire_ok lk s : kok s → unlocked lk s → acquire lk s = Done tt (enter lk s).
Proof. intros Hok Hf. apply (zoom_done k_hart). by apply acquire_ok. Qed.

Lemma krelease_ok lk s : kok s → owned lk s → release lk s = Done tt (leave lk s).
Proof. intros Hok Hf. apply (zoom_done k_hart). by apply release_ok. Qed.

Lemma kok_enter lk s : kok s → kok (enter lk s).
Proof. apply hart_ok_hacq. Qed.

Lemma owned_enter lk s : kok s → owned lk (enter lk s).
Proof. apply lheld_hacq. Qed.

Lemma unlocked_enter lk lk' s : lk ≠ lk' → unlocked lk s → unlocked lk (enter lk' s).
Proof. apply lfree_hacq_ne. Qed.

Lemma leave_enter lk s : kok s → unlocked lk s → leave lk (enter lk s) = s.
Proof.
  intros Hok Hf. unfold leave, enter. simpl. rewrite hrel_hacq by done. by destruct s.
Qed.

(** The locks are part of the CPU state: updates of other fields keep them. *)
Ltac frame_step :=
  match goal with
  | |- kok (?f _ ?s) => change (kok s)
  | |- unlocked ?L (?f _ ?s) => change (unlocked L s)
  | |- owned ?L (?f _ ?s) => change (owned L s)
  end.

(** [leave_enter_eq]: move the end of a critical section out of the updates made
    inside it, to meet its beginning. *)
Ltac leave_out :=
  repeat match goal with
  | |- context [leave ?L (?f ?v ?t)] =>
      lazymatch f with
      | enter => fail
      | _ => change (leave L (f v t)) with (f v (leave L t))
      end
  end;
  rewrite ?leave_enter by eauto with kernel.

End KLock.
#[export] Hint Resolve KLock.kok_enter KLock.owned_enter KLock.unlocked_enter : kernel.
#[export] Hint Extern 2 (KLock.kok _) => KLock.frame_step : kernel.
#[export] Hint Extern 2 (KLock.unlocked _ _) => KLock.frame_step : kernel.
#[export] Hint Extern 2 (KLock.owned _ _) => KLock.frame_step : kernel.
