(* ===== verification/CString.v ===== *)
(** Byte and string routines of the kernel: string.c.

    [memset], [memmove] act on memory; an argument the routine only reads is a
    reader, the byte at each offset from the pointer; [strncpy] and
    [safestrcpy] give the bytes they store from the destination on.  The
    theorems compare each loop with the range it is meant to fill, copy or
    compare. *)

From S2P Require Import Prelude State.

Abbreviation mem := (Z → Z).

(** The bytes from a pointer on. *)
Definition at_ (m : mem) (p : Z) : nat → Z := λ i, m (p + Z.of_nat i).
(** The bytes of an array; reading past its end gives 0. *)
Definition of_list (l : list Z) : nat → Z := λ i, default 0 (l !! i).

Definition store8 (m : mem) (a v : Z) : mem := λ x, if x =? a then u8 v else m x.

Fixpoint store_bytes (m : mem) (a : Z) (bs : list Z) : mem :=
  match bs with
  | [] => m
  | b :: bs' => store_bytes (store8 m a b) (a + 1) bs'
  end.

Definition load32 (m : mem) (a : Z) : Z :=
  le_dec [m a; m (a + 1); m (a + 2); m (a + 3)].
Definition store32 (m : mem) (a v : Z) : mem := store_bytes m a (le_enc 4 v).

(** * The routines *)

(** [rep stosb] and [rep stosl] of x86.h. *)
Fixpoint stosb (m : mem) (addr data : Z) (cnt : nat) : mem :=
  match cnt with
  | O => m
  | S n => stosb (store8 m addr data) (addr + 1) data n
  end.

Fixpoint stosl (m : mem) (addr data : Z) (cnt : nat) : mem :=
  match cnt with
  | O => m
  | S n => stosl (store32 m addr data) (addr + 4) data n
  end.

Definition memset (m : mem) (dst c : Z) (n : nat) : mem :=
  if (dst mod 4 =? 0) && (Z.of_nat n mod 4 =? 0) then
    let c := Z.land c 255 in
    stosl m dst
      (Z.lor (Z.lor (Z.lor (Z.shiftl c 24) (Z.shiftl c 16)) (Z.shiftl c 8)) c) (n / 4)
  else stosb m dst c n.

Fixpoint memcmp (s1 s2 : nat → Z) (i n : nat) : Z :=
  match n with
  | O => 0
  | S n' => if negb (s1 i =? s2 i) then s1 i - s2 i else memcmp s1 s2 (S i) n'
  end.

Fixpoint move_down (m : mem) (d s : Z) (n : nat) : mem :=
  match n with
  | O => m
  | S n' => move_down (store8 m (d - 1) (m (s - 1))) (d - 1) (s - 1) n'
  end.

Fixpoint move_up (m : mem) (d s : Z) (n : nat) : mem :=
  match n with
  | O => m
  | S n' => move_up (store8 m d (m s)) (d + 1) (s + 1) n'
  end.

Definition memmove (m : mem) (dst src : Z) (n : nat) : mem :=
  if (src <? dst) && (dst <? src + Z.of_nat n) then
    move_down m (dst + Z.of_nat n) (src + Z.of_nat n) n
  else move_up m dst src n.

Definition memcpy (m : mem) (dst src : Z) (n : nat) : mem := memmove m dst src n.

Fixpoint strncmp_at (p q : nat → Z) (i n : nat) : Z :=
  match n with
  | O => 0
  | S n' =>
      if negb (p i =? 0) && (p i =? q i) then strncmp_at p q (S i) n'
      else p i - q i
  end.
Definition strncmp (p q : nat → Z) (n : nat) : Z := strncmp_at p q 0 n.

(** The bytes [strncpy] stores in [s[0..n)]: the copying loop, then the zeros. *)
Fixpoint strncpy_at (t : nat → Z) (i n : nat) : list Z :=
  match n with
  | O => []
  | S n' => t i :: (if t i =? 0 then replicate n' 0 else strncpy_at t (S i) n')
  end.
Definition strncpy (t : nat → Z) (n : nat) : list Z := strncpy_at t 0 n.

(** The bytes [safestrcpy] stores from [s] on: the copying loop runs while
    [--n > 0] and the byte copied is not 0; then comes [*s = 0]. *)
Fixpoint safestrcpy_at (t : nat → Z) (i n : nat) : list Z :=
  match n with
  | O => [0]
  | S n' => t i :: (if t i =? 0 then [0] else safestrcpy_at t (S i) n')
  end.
Definition safestrcpy (t : nat → Z) (n : Z) : list Z :=
  if n <=? 0 then [] else safestrcpy_at t 0 (Z.to_nat (n - 1)).

(** [strlen] searches without a bound; [fuel] is the number of bytes looked at. *)
Fixpoint strlen_at (s : nat → Z) (n fuel : nat) : option nat :=
  match fuel with
  | O => None
  | S fuel' => if s n =? 0 then Some n else strlen_at s (S n) fuel'
  end.
Definition strlen (s : nat → Z) (fuel : nat) : option nat := strlen_at s 0 fuel.

(** * What they compute *)

(** Fill and copy as one step, for every address at once. *)
Definition mset (m : mem) (dst c : Z) (n : Z) : mem :=
  λ a, if (dst <=? a) && (a <? dst + n) then u8 c else m a.
Definition mcopy (m : mem) (dst src : Z) (n : Z) : mem :=
  λ a, if (dst <=? a) && (a <? dst + n) then m (src + (a - dst)) else m a.

(** Memory holds bytes. *)
Definition mem_ok (m : mem) : Prop := ∀ a, is_u8 (m a).

Lemma mem_ok_store8 m a v : mem_ok m → mem_ok (store8 m a v).
Proof. intros H x. unfold store8. case_bool; auto with kernel. Qed.

Lemma store_bytes_spec bs m a x :
  store_bytes m a bs x =
    if (a <=? x) && (x <? a + Z.of_nat (length bs)) then
      u8 (default 0 (bs !! Z.to_nat (x - a))) else m x.
Proof.
  revert m a. induction bs as [|b bs IH]; intros m a; simpl.
  - destruct (_ && _) eqn:E; [lia|done].
  - rewrite IH. unfold store8.
    destruct (Z.leb_spec (a + 1) x), (Z.ltb_spec x (a + 1 + Z.of_nat (length bs))),
      (Z.leb_spec a x), (Z.ltb_spec x (a + Z.of_nat (S (length bs)))),
      (Z.eqb_spec x a); simpl; try lia; try done.
    + by replace (Z.to_nat (x - a)) with (S (Z.to_nat (x - (a + 1)))) by lia.
    + by replace (Z.to_nat (x - a)) with 0%nat by lia.
Qed.

Lemma store32_spec m a v x :
  store32 m a v x =
    if (a <=? x) && (x <? a + 4) then
      default 0 (le_enc 4 v !! Z.to_nat (x - a)) else m x.
Proof.
  unfold store32. rewrite store_bytes_spec, length_le_enc. change (Z.of_nat 4) with 4.
  case_bool; [|done].
  destruct (le_enc 4 v !! Z.to_nat (x - a)) as [b|] eqn:Eb; [|done]. simpl.
  apply u8_small. pose proof (le_enc_bytes 4 v) as HF. rewrite Forall_lookup in HF. eauto.
Qed.

Lemma load_store32_same m a v : load32 (store32 m a v) a = u32 v.
Proof.
  unfold load32. rewrite !store32_spec.
  solve_ifs.
  replace (a - a) with 0 by lia. replace (a + 1 - a) with 1 by lia.
  replace (a + 2 - a) with 2 by lia. replace (a + 3 - a) with 3 by lia.
  rewrite <-le_dec_enc4. reflexivity.
Qed.

Lemma load_store32_ne m a b v :
  a + 4 ≤ b ∨ b + 4 ≤ a → load32 (store32 m a v) b = load32 m b.
Proof.
  intros H. unfold load32. rewrite !store32_spec.
  by solve_ifs.
Qed.

Lemma load32_range m a : mem_ok m → is_u32 (load32 m a).
Proof.
  intros Hm. unfold load32, is_u32. apply (le_dec_range [_; _; _; _]).
  repeat constructor; apply Hm.
Qed.

Lemma stosb_spec n m dst c a : stosb m dst c n a = mset m dst c (Z.of_nat n) a.
Proof.
  unfold mset. revert m dst. induction n as [|n IH]; intros m dst; cbn [stosb].
  - by solve_ifs.
  - rewrite IH. unfold store8. by solve_ifs.
Qed.

(** The word [memset] hands to [stosl] is four copies of the byte. *)
Definition fill_word (c : Z) : Z :=
  Z.lor (Z.lor (Z.lor (Z.shiftl c 24) (Z.shiftl c 16)) (Z.shiftl c 8)) c.

Lemma fill_word_bytes c : is_u8 c → le_enc 4 (fill_word c) = [c; c; c; c].
Proof.
  intros Hc.
  assert (Hall : forallb (λ b, bool_decide (le_enc 4 (fill_word b) = [b; b; b; b]))
    (seqZ 0 256) = true) by (by vm_compute).
  rewrite forallb_forall in Hall. specialize (Hall c).
  rewrite <-list_elem_of_In, elem_of_seqZ, bool_decide_eq_true in Hall. apply Hall.
  unfold is_u8 in Hc. lia.
Qed.

Lemma stosl_spec n m dst c a :
  is_u8 c → stosl m dst (fill_word c) n a = mset m dst c (4 * Z.of_nat n) a.
Proof.
  intros Hc. unfold mset. revert m dst. induction n as [|n IH]; intros m dst; cbn [stosl].
  - by solve_ifs.
  - rewrite IH, store32_spec, fill_word_bytes, u8_small by done. solve_ifs; try done.
    assert (a - dst = 0 ∨ a - dst = 1 ∨ a - dst = 2 ∨ a - dst = 3) as [->|[->|[->| ->]]] by lia;
      done.
Qed.

(** [memset] fills exactly the [n] bytes from [dst] with the low byte of
    [c], on the word-sized path as on the byte-sized one. *)
Theorem memset_fills m dst c n a : memset m dst c n a = mset m dst c (Z.of_nat n) a.
Proof.
  unfold memset. case_bool; [|apply stosb_spec].
  assert (Hc : Z.land c 255 = u8 c) by (apply (Z.land_ones c 8); lia).
  change (stosl m dst (fill_word (Z.land c 255)) (n / 4) a = mset m dst c (Z.of_nat n) a).
  rewrite Hc, stosl_spec by apply u8_range.
  assert (Hn : Z.of_nat n mod 4 = 0) by lia.
  rewrite Nat2Z.inj_div. change (Z.of_nat 4) with 4.
  replace (4 * (Z.of_nat n / 4)) with (Z.of_nat n) by zdiv.
  unfold mset. by rewrite (u8_small (u8 c)) by apply u8_range.
Qed.

Lemma move_up_spec n m d s a :
  mem_ok m → d ≤ s ∨ s + Z.of_nat n ≤ d →
  move_up m d s n a = mcopy m d s (Z.of_nat n) a.
Proof.
  unfold mcopy. revert m d s. induction n as [|n IH]; intros m d s Hm H; cbn [move_up].
  - by solve_ifs.
  - rewrite IH by (try apply mem_ok_store8; auto; lia). unfold store8. solve_ifs; try done.
    + f_equal. lia.
    + rewrite u8_small by apply Hm. f_equal. lia.
Qed.

Lemma move_down_spec n m d s a :
  mem_ok m → s < d →
  move_down m d s n a = mcopy m (d - Z.of_nat n) (s - Z.of_nat n) (Z.of_nat n) a.
Proof.
  unfold mcopy. revert m d s. induction n as [|n IH]; intros m d s Hm H; cbn [move_down].
  - by solve_ifs.
  - rewrite IH by (try apply mem_ok_store8; auto; lia). unfold store8. solve_ifs; try done.
    + f_equal. lia.
    + rewrite u8_small by apply Hm. f_equal. lia.
Qed.

(** [memmove] copies the source as it was before the call, also when source
    and destination overlap on either side, and changes nothing else. *)
Theorem memmove_copies m dst src n a :
  mem_ok m → memmove m dst src n a = mcopy m dst src (Z.of_nat n) a.
Proof.
  intros Hm. unfold memmove. case_bool.
  - rewrite move_down_spec by (done || lia). unfold mcopy.
    replace (dst + Z.of_nat n - Z.of_nat n) with dst by lia.
    by replace (src + Z.of_nat n - Z.of_nat n) with src by lia.
  - apply move_up_spec; [done|lia].
Qed.

Lemma memmove_copies_witness :
  memmove (λ a, u8 a) 12 10 4 13 = mcopy (λ a, u8 a) 12 10 (Z.of_nat 4) 13.
Proof. apply (memmove_copies (λ a, u8 a) 12 10 4 13). intros a. apply u8_range. Defined.

(** [memcmp] is 0 exactly on equal ranges. *)
Lemma memcmp_at_zero s1 s2 i n :
  memcmp s1 s2 i n = 0 ↔ ∀ k, (i ≤ k < i + n)%nat → s1 k = s2 k.
Proof.
  revert i. induction n as [|n IH]; intros i; simpl.
  - split; [intros _ k Hk; lia|done].
  - destruct (Z.eqb_spec (s1 i) (s2 i)) as [E|E]; simpl.
    + rewrite IH. split; intros H k Hk.
      * destruct (decide (k = i)) as [->|]; [done|]. apply H. lia.
      * apply H. lia.
    + split; [lia|]. intros H. destruct E. apply H. lia.
Qed.

Lemma strncmp_at_zero p q i n :
  strncmp_at p q i n = 0 ↔
    ∀ k, (i ≤ k < i + n)%nat → (∀ j, (i ≤ j < k)%nat → p j ≠ 0) → p k = q k.
Proof.
  revert i. induction n as [|n IH]; intros i; simpl.
  - split; [intros _ k Hk; lia|done].
  - destruct (Z.eqb_spec (p i) (q i)) as [E|E], (Z.eqb_spec (p i) 0) as [Z0|Z0]; simpl.
    + split; [intros _ k Hk Hj|lia]. destruct (decide (k = i)) as [->|]; [done|].
      exfalso. apply (Hj i); [lia|done].
    + rewrite IH. split; intros H k Hk Hj.
      * destruct (decide (k = i)) as [->|]; [done|]. apply H; [lia|].
        intros j Hj'. apply Hj. lia.
      * apply H; [lia|]. intros j Hj'. destruct (decide (j = i)) as [->|]; [done|].
        apply Hj. lia.
    + split; [lia|]. intros H. destruct E. apply H; [lia|]. intros j Hj. lia.
    + split; [lia|]. intros H. destruct E. apply H; [lia|]. intros j Hj. lia.
Qed.

(** The string a reader holds, cut at [n] bytes: up to, not including, the
    first 0. *)
Fixpoint cstr_at (p : nat → Z) (i n : nat) : list Z :=
  match n with
  | O => []
  | S n' => if p i =? 0 then [] else p i :: cstr_at p (S i) n'
  end.
Definition cstr (p : nat → Z) (n : nat) : list Z := cstr_at p 0 n.

Lemma strncmp_at_cstr p q i n :
  strncmp_at p q i n = 0 ↔ cstr_at p i n = cstr_at q i n.
Proof.
  revert i. induction n as [|n IH]; intros i; simpl; [done|].
  destruct (Z.eqb_spec (p i) 0), (Z.eqb_spec (q i) 0), (Z.eqb_spec (p i) (q i)); simpl;
    try (exfalso; lia); try (split; [done || lia|done || (intros; lia)]).
  - rewrite IH. split; [intros ->; congruence|by intros [=]].
  - split; [lia|intros [=]; lia].
Qed.

(** [strncmp] returns 0 exactly when its arguments hold the same string,
    both cut at [n] bytes: bytes after a terminating 0 do not count. *)
Theorem strncmp_equal p q n : strncmp p q n = 0 ↔ cstr p n = cstr q n.
Proof. apply strncmp_at_cstr. Qed.

Lemma strncpy_at_spec t i n :
  strncpy_at t i n = cstr_at t i n ++ replicate (n - length (cstr_at t i n)) 0.
Proof.
  revert i. induction n as [|n IH]; intros i; simpl; [done|].
  destruct (Z.eqb_spec (t i) 0) as [->|]; simpl; [done|]. by rewrite IH.
Qed.

Lemma safestrcpy_at_spec t i n :
  ∃ pad, safestrcpy_at t i n = cstr_at t i n ++ 0 :: pad ∧
    (length (cstr_at t i n) + length pad ≤ n)%nat ∧ Forall (λ b, b = 0) pad.
Proof.
  revert i. induction n as [|n IH]; intros i; simpl.
  - exists []. split; [done|]. split; [simpl; lia|constructor].
  - destruct (Z.eqb_spec (t i) 0) as [->|]; simpl.
    + exists [0]. split; [done|]. split; [simpl; lia|]. by repeat constructor.
    + destruct (IH (S i)) as (pad & -> & Hlen & Hz). exists pad.
      split; [done|]. split; [lia|done].
Qed.

Lemma length_cstr_at p i n : (length (cstr_at p i n) ≤ n)%nat.
Proof.
  revert i. induction n as [|n IH]; intros i; simpl; [lia|].
  case_bool; simpl; [lia|]. specialize (IH (S i)). lia.
Qed.

(** [strncpy] stores exactly [n] bytes: the string, cut at [n] bytes, then
    zeros; so a string of [n] bytes or more is left without a terminator. *)
Theorem strncpy_pads t n :
  strncpy t n = cstr t n ++ replicate (n - length (cstr t n)) 0 ∧ length (strncpy t n) = n.
Proof.
  unfold strncpy, cstr. rewrite strncpy_at_spec. split; [done|].
  rewrite length_app, length_replicate. pose proof (length_cstr_at t 0 n). lia.
Qed.

(** [safestrcpy] into a buffer of [n > 0] bytes stores the string cut at
    [n - 1] bytes, then at least one 0, and never more than [n] bytes. *)
Theorem safestrcpy_terminates t n :
  0 < n →
  ∃ pad, safestrcpy t n = cstr t (Z.to_nat (n - 1)) ++ 0 :: pad ∧
    Forall (λ b, b = 0) pad ∧ Z.of_nat (length (safestrcpy t n)) ≤ n.
Proof.
  intros Hn. unfold safestrcpy. rewrite (proj2 (Z.leb_gt n 0)) by lia.
  destruct (safestrcpy_at_spec t 0 (Z.to_nat (n - 1))) as (pad & -> & Hlen & Hz).
  exists pad. split; [done|]. split; [done|]. rewrite length_app. simpl. lia.
Qed.

Lemma safestrcpy_terminates_witness :
  ∃ pad, safestrcpy (of_list [105; 110; 105; 116; 0]) 4 =
    cstr (of_list [105; 110; 105; 116; 0]) (Z.to_nat (4 - 1)) ++ 0 :: pad ∧
    Forall (λ b, b = 0) pad ∧
    Z.of_nat (length (safestrcpy (of_list [105; 110; 105; 116; 0]) 4)) ≤ 4.
Proof. apply (safestrcpy_terminates (of_list [105; 110; 105; 116; 0]) 4). lia. Defined.

Lemma strlen_at_spec s i k fuel :
  s (i + k)%nat = 0 → (∀ j, (i ≤ j < i + k)%nat → s j ≠ 0) → (k < fuel)%nat →
  strlen_at s i fuel = Some (i + k)%nat.
Proof.
  revert i k. induction fuel as [|fuel IH]; intros i k Hk Hj Hf; [lia|]. simpl.
  destruct (Z.eqb_spec (s i) 0) as [E|E].
  - destruct k as [|k]; [by rewrite Nat.add_0_r|]. destruct (Hj i); [lia|done].
  - destruct k as [|k]; [rewrite Nat.add_0_r in Hk; done|].
    rewrite (IH (S i) k); [f_equal; lia|by replace (S i + k)%nat with (i + S k)%nat by lia|
      intros j Hj'; apply Hj; lia|lia].
Qed.

(** [strlen] finds the first 0 once it may look that far. *)
Lemma strlen_spec s k fuel :
  s k = 0 → (∀ j, (j < k)%nat → s j ≠ 0) → (k < fuel)%nat → strlen s fuel = Some k.
Proof. intros H1 H2 H3. apply (strlen_at_spec s 0 k); [done|naive_solver lia|done]. Qed.
