(* ===== verification/Mmu.v ===== *)
(** Addresses, pages and page table entries: mmu.h. *)

From S2P Require Import Prelude State.

(** * The macros of mmu.h *)

Definition PTE_P : Z := 1.
Definition PTE_W : Z := 2.
Definition PTE_U : Z := 4.
Definition PTXSHIFT : Z := 12.
Definition PDXSHIFT : Z := 22.

Definition PDX (va : Z) : Z := Z.land (Z.shiftr (u32 va) PDXSHIFT) 0x3FF.
Definition PTX (va : Z) : Z := Z.land (Z.shiftr (u32 va) PTXSHIFT) 0x3FF.
Definition PGADDR (d t o : Z) : Z :=
  u32 (Z.lor (Z.lor (Z.shiftl d PDXSHIFT) (Z.shiftl t PTXSHIFT)) o).

Definition PGROUNDUP (sz : Z) : Z := Z.land (u32 (sz + PGSIZE - 1)) (Z.lnot (PGSIZE - 1)).
Definition PGROUNDDOWN (a : Z) : Z := Z.land a (Z.lnot (PGSIZE - 1)).

Definition PTE_ADDR (pte : Z) : Z := Z.land (u32 pte) (Z.lnot 0xFFF).
Definition PTE_FLAGS (pte : Z) : Z := Z.land (u32 pte) 0xFFF.

(** * What they compute *)

Lemma land_low n a : 0 ≤ n → Z.land a (Z.ones n) = a mod 2 ^ n.
Proof. intros. by apply Z.land_ones. Qed.

Lemma land_high n a : 0 ≤ n → Z.land a (Z.lnot (Z.ones n)) = a - a mod 2 ^ n.
Proof.
  intros Hn. rewrite <-Z.ldiff_land, Z.ldiff_ones_r by done.
  rewrite Z.shiftl_mul_pow2, Z.shiftr_div_pow2 by done.
  pose proof (Z.div_mod a (2 ^ n)). pose proof (Z.pow_pos_nonneg 2 n). lia.
Qed.

Lemma PGROUNDDOWN_spec a : PGROUNDDOWN a = a - a mod 4096.
Proof. apply (land_high 12). lia. Qed.

Lemma PGROUNDUP_spec a : 0 ≤ a → a + 4095 < 4294967296 →
  PGROUNDUP a = (a + 4095) - (a + 4095) mod 4096.
Proof.
  intros H1 H2. unfold PGROUNDUP, PGSIZE.
  rewrite u32_small by (unfold is_u32; lia). rewrite (land_high 12) by lia.
  by replace (a + 4096 - 1) with (a + 4095) by lia.
Qed.

Lemma PTE_ADDR_spec p : is_u32 p → PTE_ADDR p = p - p mod 4096.
Proof. intros Hp. unfold PTE_ADDR. rewrite u32_small by done. apply (land_high 12). lia. Qed.

Lemma PTE_FLAGS_spec p : is_u32 p → PTE_FLAGS p = p mod 4096.
Proof. intros Hp. unfold PTE_FLAGS. rewrite u32_small by done. apply (land_low 12). lia. Qed.

Lemma PDX_spec va : is_u32 va → PDX va = va / 4194304.
Proof.
  intros [H1 H2]. unfold PDX. rewrite u32_small by done.
  rewrite Z.shiftr_div_pow2 by (unfold PDXSHIFT; lia). change (2 ^ PDXSHIFT) with 4194304.
  rewrite (land_low 10) by lia. apply Z.mod_small. zdiv.
Qed.

Lemma PTX_spec va : is_u32 va → PTX va = va / 4096 mod 1024.
Proof.
  intros [H1 H2]. unfold PTX. rewrite u32_small by done.
  rewrite Z.shiftr_div_pow2 by (unfold PTXSHIFT; lia). change (2 ^ PTXSHIFT) with 4096.
  by rewrite (land_low 10) by lia.
Qed.

Lemma PGADDR_dir d : 0 ≤ d < 1024 → PGADDR d 0 0 = d * 4194304.
Proof.
  intros Hd. unfold PGADDR. rewrite Z.shiftl_0_l, !Z.lor_0_r.
  rewrite Z.shiftl_mul_pow2 by (unfold PDXSHIFT; lia). change (2 ^ PDXSHIFT) with 4194304.
  apply u32_small. unfold is_u32. lia.
Qed.

Lemma V2P_small a : KERNBASE ≤ a < 4294967296 → V2P a = a - KERNBASE.
Proof. intros H. apply u32_small. unfold is_u32, KERNBASE in *. lia. Qed.

Lemma P2V_small a : 0 ≤ a < KERNBASE → P2V a = a + KERNBASE.
Proof. intros H. apply u32_small. unfold is_u32, KERNBASE in *. lia. Qed.
