(* ===== verification/Mp.v ===== *)
(** The tables of the BIOS that describe the processors: mp.c.

    The tables are bytes of memory, at addresses of the kernel; [mpsearch]
    looks for the floating pointer, [mpconfig] checks the configuration table,
    and [mpinit] walks its entries.  The theorem says when that walk ends and
    what it has found then: a table of known entries gives the processors and
    the I/O APIC it lists; an entry of another type stops the walk for ever,
    since the [default] of the [switch] does not advance. *)

From S2P Require Import Prelude State CString Mmu.

Definition MPPROC : Z := 0.
Definition MPBUS : Z := 1.
Definition MPIOAPIC : Z := 2.
Definition MPIOINTR : Z := 3.
Definition MPLINTR : Z := 4.

(** The globals [mpinit] sets: [lapic], [ncpu], the [apicid]s of [cpus],
    [ioapicid]; and the values it sends to ports. *)
Record mpstate := mkMpstate {
  mp_lapic : Z;
  mp_ncpu : nat;
  mp_apicids : list Z;
  mp_ioapicid : Z;
  mp_out : list (Z * Z);
}.

Section mp.
Context (m : mem).

(** [struct mp] and [struct mpconf]. *)
Definition mp_physaddr (p : Z) : Z := load32 m (p + 4).
Definition mp_imcrp (p : Z) : Z := m (p + 12).
Definition conf_length (p : Z) : Z := le_dec [m (p + 4); m (p + 5)].
Definition conf_version (p : Z) : Z := m (p + 6).
Definition conf_lapicaddr (p : Z) : Z := load32 m (p + 36).

(** A [uchar] of the sum of [len] bytes. *)
Definition sum (addr len : Z) : Z :=
  u8 (foldl (λ acc i, s32 (acc + m (addr + Z.of_nat i))) 0 (seq 0 (Z.to_nat len))).

Definition is_mp (p : Z) : bool :=
  (memcmp (at_ m p) (of_list [95; 77; 80; 95]) 0 4 =? 0) && (sum p 16 =? 0).

(** The addresses [addr], [addr + 16], ... below [addr + len], in order. *)
Definition mpsearch1 (a len : Z) : option Z :=
  let addr := P2V a in
  let ps := (λ i, addr + 16 * Z.of_nat i) <$> seq 0 (Z.to_nat ((len + 15) / 16)) in
  find_index is_mp ps ≫= λ i, ps !! i.

Definition mpsearch : option Z :=
  let bda := P2V 1024 in
  let p := Z.shiftl (Z.lor (Z.shiftl (m (bda + 15)) 8) (m (bda + 14))) 4 in
  let r :=
    if negb (p =? 0) then mpsearch1 p 1024
    else mpsearch1 (u32 (Z.lor (Z.shiftl (m (bda + 20)) 8) (m (bda + 19)) * 1024 - 1024)) 1024 in
  match r with
  | Some mp => Some mp
  | None => mpsearch1 983040 65536
  end.

Definition mpconfig : option (Z * Z) :=
  match mpsearch with
  | None => None
  | Some mp =>
      if mp_physaddr mp =? 0 then None else
      let conf := P2V (mp_physaddr mp) in
      if negb (memcmp (at_ m conf) (of_list [80; 67; 77; 80]) 0 4 =? 0) then None else
      if negb (conf_version conf =? 1) && negb (conf_version conf =? 4) then None else
      if negb (sum conf (conf_length conf) =? 0) then None else
      Some (mp, conf)
  end.

(** The [case]s of the [switch] on the entry at [p]: the new state and the new
    [p]; [None] is the [default]. *)
Definition mp_entry (p : Z) (s : mpstate) : option (mpstate * Z) :=
  if m p =? MPPROC then
    let s' :=
      if (mp_ncpu s <? NCPU)%nat then
        mkMpstate (mp_lapic s) (S (mp_ncpu s)) (<[mp_ncpu s := m (p + 1)]> (mp_apicids s)) (mp_ioapicid s) (mp_out s)
      else s in
    Some (s', p + 20)
  else if m p =? MPIOAPIC then
    Some (mkMpstate (mp_lapic s) (mp_ncpu s) (mp_apicids s) (m (p + 1)) (mp_out s), p + 8)
  else if (m p =? MPBUS) || (m p =? MPIOINTR) || (m p =? MPLINTR) then Some (s, p + 8)
  else None.

(** The loop of [mpinit]; its result is [ismp]. *)
Fixpoint mp_loop (fuel : nat) (p e : Z) (ismp : bool) : prog mpstate bool :=
  match fuel with
  | O => diverge
  | S fuel' =>
      if p <? e then
        s <- get ;;
        match mp_entry p s with
        | Some (s', p') => modify (λ _, s') ;;; mp_loop fuel' p' e ismp
        | None => mp_loop fuel' p e false
        end
      else ret ismp
  end.

Definition outb (port data : Z) : prog mpstate unit :=
  modify (λ s, mkMpstate (mp_lapic s) (mp_ncpu s) (mp_apicids s) (mp_ioapicid s) (mp_out s ++ [(port, u8 data)])).

(** [imcr] is what [inb(0x23)] reads. *)
Definition mpinit (fuel : nat) (imcr : Z) : prog mpstate unit :=
  match mpconfig with
  | None => panic "Expect to run on an SMP"
  | Some (mp, conf) =>
      modify (λ s, mkMpstate (conf_lapicaddr conf) (mp_ncpu s) (mp_apicids s) (mp_ioapicid s) (mp_out s)) ;;;
      ismp <- mp_loop fuel (conf + 44) (conf + conf_length conf) true ;;
      if negb ismp then panic "Didn't find a suitable machine" else
      if negb (mp_imcrp mp =? 0) then outb 34 112 ;;; outb 35 (Z.lor imcr 1) else ret tt
  end.

(** * What a table lists *)

Inductive mpent := EProc (apicid : Z) | EIoapic (apicno : Z) | EOther.

(** The entries of the table from [p] to [e]. *)
Inductive table : Z → Z → list mpent → Prop :=
| table_end p e : e ≤ p → table p e []
| table_proc p e l : p < e → m p = MPPROC → table (p + 20) e l → table p e (EProc (m (p + 1)) :: l)
| table_ioapic p e l : p < e → m p = MPIOAPIC → table (p + 8) e l → table p e (EIoapic (m (p + 1)) :: l)
| table_other p e l : p < e → m p = MPBUS ∨ m p = MPIOINTR ∨ m p = MPLINTR → table (p + 8) e l → table p e (EOther :: l).

(** The walk from [p] meets an entry of an unknown type. *)
Inductive wedged : Z → Z → Prop :=
| wedged_here p e : p < e → 4 < m p → wedged p e
| wedged_proc p e : p < e → m p = MPPROC → wedged (p + 20) e → wedged p e
| wedged_later p e : p < e → 0 < m p ≤ 4 → wedged (p + 8) e → wedged p e.

Definition procs (l : list mpent) : list Z :=
  omap (λ x, match x with EProc a => Some a | _ => None end) l.

(** The last I/O APIC of the table, [d] if there is none. *)
Definition ioapic (d : Z) (l : list mpent) : Z :=
  foldl (λ acc x, match x with EIoapic a => a | _ => acc end) d l.

(** The state after the entries [l]. *)
Definition after (l : list mpent) (s : mpstate) : mpstate :=
  let ids := take (NCPU - mp_ncpu s) (procs l) in
  mkMpstate (mp_lapic s) (mp_ncpu s + length ids) (splice (mp_apicids s) (mp_ncpu s) ids)
    (ioapic (mp_ioapicid s) l) (mp_out s).

(** A table has known entries only, or the walk meets another. *)
Lemma table_or_wedged p e : mem_ok m → (∃ l, table p e l) ∨ wedged p e.
Proof.
  intros Hm. remember (Z.to_nat (e - p)) as n eqn:Hn. revert p Hn.
  induction n as [n IH] using (well_founded_induction lt_wf). intros p Hn.
  destruct (Z.le_gt_cases e p) as [Hle|Hlt]; [left; exists []; by constructor|].
  pose proof (Hm p) as Hb. unfold is_u8 in Hb. unfold MPPROC, MPIOAPIC, MPBUS, MPIOINTR, MPLINTR in *.
  destruct (decide (4 < m p)) as [H4|H4]; [right; by constructor|].
  destruct (decide (m p = 0)) as [H0|H0].
  - destruct (IH (Z.to_nat (e - (p + 20))) ltac:(lia) (p + 20) eq_refl) as [[l Hl]|Hw].
    + left. eexists. by apply table_proc.
    + right. by apply wedged_proc.
  - destruct (IH (Z.to_nat (e - (p + 8))) ltac:(lia) (p + 8) eq_refl) as [[l Hl]|Hw].
    + left. destruct (decide (m p = 2)); eexists; [by apply table_ioapic|].
      apply table_other; [done| |done]. unfold MPBUS, MPIOINTR, MPLINTR. lia.
    + right. apply wedged_later; [done|lia|done].
Qed.

Lemma mp_entry_unknown p s : 4 < m p → mp_entry p s = None.
Proof.
  intros H. unfold mp_entry, MPPROC, MPIOAPIC, MPBUS, MPIOINTR, MPLINTR. solve_ifs. done.
Qed.

(** On an unknown entry the loop stays where it is. *)
Lemma mp_loop_stuck fuel p e ismp s : p < e → 4 < m p → mp_loop fuel p e ismp s = Diverged.
Proof.
  intros Hp H4. revert ismp. induction fuel as [|fuel IH]; intros ismp; [done|]. cbn [mp_loop].
  rewrite (proj2 (Z.ltb_lt _ _)) by done. unfold bind, get. cbn [obind]. rewrite mp_entry_unknown by done. apply IH.
Qed.

Lemma mp_loop_wedged fuel p e : wedged p e → ∀ ismp s, mp_loop fuel p e ismp s = Diverged.
Proof.
  intros W. revert fuel. induction W as [p e Hp H4|p e Hp H0 W IH|p e Hp H14 W IH]; intros fuel ismp s;
    [by apply mp_loop_stuck| |]; (destruct fuel as [|fuel]; [done|]); cbn [mp_loop];
    rewrite (proj2 (Z.ltb_lt _ _)) by done; unfold bind at 1, get; cbn [obind]; unfold mp_entry.
  - rewrite H0. cbn. apply IH.
  - unfold MPPROC, MPIOAPIC, MPBUS, MPIOINTR, MPLINTR. rewrite (proj2 (Z.eqb_neq (m p) 0)) by lia.
    destruct (Z.eqb_spec (m p) 2); [cbn; apply IH|].
    replace ((m p =? 1) || (m p =? 3) || (m p =? 4)) with true by (symmetry; solve_ifs; lia). cbn. apply IH.
Qed.

Lemma splice_cons (l : list Z) n x ids : (n < length l)%nat → splice l n (x :: ids) = splice (<[n := x]> l) (S n) ids.
Proof.
  intros Hn. rewrite insert_take_drop by done. unfold splice. cbn [length].
  assert (Ht : length (take n l) = n) by (rewrite length_take; lia).
  replace (S n) with (length (take n l) + 1)%nat at 1 by lia.
  replace (S n + length ids)%nat with (length (take n l) + S (length ids))%nat by lia.
  rewrite take_app_add, drop_app_add. cbn [take drop app]. rewrite drop_drop, <-app_assoc. cbn [app].
  replace (n + S (length ids))%nat with (S n + length ids)%nat by lia. done.
Qed.

Lemma splice_nil (l : list Z) n : splice l n [] = l.
Proof. unfold splice. cbn [app length]. by rewrite Nat.add_0_r, take_drop. Qed.

Lemma splice_one (l : list Z) n x : (n < length l)%nat → splice l n [x] = <[n := x]> l.
Proof. intros Hn. by rewrite splice_cons, splice_nil. Qed.

(** An entry that is neither a processor nor an I/O APIC changes nothing. *)
Lemma after_none l s : procs l = [] → ioapic (mp_ioapicid s) l = mp_ioapicid s → after l s = s.
Proof. intros E1 E2. unfold after. rewrite E1, E2, take_nil, splice_nil. cbn [length]. rewrite Nat.add_0_r. by destruct s. Qed.

(** The state after one entry and the others. *)
Lemma after_cons x l s : (NCPU ≤ length (mp_apicids s))%nat → (mp_ncpu s ≤ NCPU)%nat →
  after (x :: l) s = after l (after [x] s).
Proof.
  intros Hl Hn. unfold after. destruct x as [a|a|]; cbn [procs omap list_omap ioapic foldl]; fold (procs l);
    rewrite ?take_nil; cbn [length mp_lapic mp_ncpu mp_apicids mp_ioapicid mp_out]; rewrite ?splice_nil, ?Nat.add_0_r; try done.
  destruct (NCPU - mp_ncpu s)%nat as [|k] eqn:E; cbn [take length]; rewrite ?take_nil; cbn [length].
  - rewrite splice_nil, !Nat.add_0_r, E. cbn [take length]. by rewrite splice_nil, Nat.add_0_r.
  - replace (NCPU - (mp_ncpu s + 1))%nat with k by lia. rewrite splice_cons, splice_one by lia.
    rewrite Nat.add_1_r. f_equal. lia.
Qed.

(** The case of the [switch] for each kind of entry. *)
Lemma mp_entry_proc p s : m p = MPPROC → (NCPU ≤ length (mp_apicids s))%nat →
  mp_entry p s = Some (after [EProc (m (p + 1))] s, p + 20).
Proof.
  intros H Hl. unfold mp_entry, after. rewrite H, Z.eqb_refl. do 2 f_equal. cbn [procs omap list_omap ioapic foldl].
  destruct (Nat.ltb_spec (mp_ncpu s) NCPU) as [Hlt|Hge].
  - destruct (NCPU - mp_ncpu s)%nat eqn:E; [lia|]. cbn [take length]. rewrite take_nil. cbn [length].
    rewrite splice_one by lia. f_equal. lia.
  - replace (NCPU - mp_ncpu s)%nat with 0%nat by lia. cbn [take length]. rewrite splice_nil, Nat.add_0_r. by destruct s.
Qed.

Lemma mp_entry_ioapic p s : m p = MPIOAPIC → mp_entry p s = Some (after [EIoapic (m (p + 1))] s, p + 8).
Proof.
  intros H. unfold mp_entry, after. rewrite H. cbn [procs omap list_omap ioapic foldl].
  by rewrite take_nil, splice_nil, Nat.add_0_r.
Qed.

Lemma mp_entry_other p s : m p = MPBUS ∨ m p = MPIOINTR ∨ m p = MPLINTR → mp_entry p s = Some (after [EOther] s, p + 8).
Proof. intros H. rewrite (after_none [EOther]) by done. unfold mp_entry. by destruct H as [-> | [-> | ->]]. Qed.

Lemma after_sizes l s : (NCPU ≤ length (mp_apicids s))%nat → (mp_ncpu s ≤ NCPU)%nat →
  (NCPU ≤ length (mp_apicids (after l s)) ∧ mp_ncpu (after l s) ≤ NCPU)%nat.
Proof.
  intros Hl Hn. unfold after. cbn [mp_apicids mp_ncpu]. rewrite length_splice; rewrite length_take; lia.
Qed.

Lemma mp_loop_table fuel p e l : table p e l → ∀ ismp s,
  (NCPU ≤ length (mp_apicids s))%nat → (mp_ncpu s ≤ NCPU)%nat → (length l < fuel)%nat →
  mp_loop fuel p e ismp s = Done ismp (after l s).
Proof.
  intros Ht. revert fuel. assert (Hstep : ∀ fuel q x s p' l' ismp, q < e → mp_entry q s = Some (after [x] s, p') →
    (NCPU ≤ length (mp_apicids s))%nat → (mp_ncpu s ≤ NCPU)%nat →
    mp_loop fuel p' e ismp (after [x] s) = Done ismp (after l' (after [x] s)) →
    mp_loop (S fuel) q e ismp s = Done ismp (after (x :: l') s)).
  { intros fuel q x s p' l' ismp Hq E Hl Hn IH. cbn [mp_loop]. rewrite (proj2 (Z.ltb_lt _ _)) by done.
    unfold bind at 1, get. cbn [obind]. rewrite E. unfold bind, modify. cbn [obind]. by rewrite IH, <-after_cons. }
  induction Ht as [p e He|p e l Hp H0 Ht IH|p e l Hp H0 Ht IH|p e l Hp H0 Ht IH]; intros fuel ismp s Hl Hn Hf;
    (destruct fuel as [|fuel]; [simpl in Hf; lia|]); cbn [length] in Hf.
  - cbn [mp_loop]. rewrite (proj2 (Z.ltb_ge _ _)) by done. by rewrite after_none.
  - eapply Hstep; [done|by apply mp_entry_proc|done|done|]. apply IH; [done|apply after_sizes; done..|lia].
  - eapply Hstep; [done|by apply mp_entry_ioapic|done|done|]. apply IH; [done|apply after_sizes; done..|lia].
  - eapply Hstep; [done|by apply mp_entry_other|done|done|]. apply IH; [done|apply after_sizes; done..|lia].
Qed.

Lemma table_length p e l : table p e l → Z.of_nat (length l) ≤ Z.max 0 (e - p).
Proof. induction 1; cbn [length]; lia. Qed.
End mp.

(** C37: once a configuration table is found, [mpinit] returns if and only if
    the table has known entries only.  It has then recorded its processors, in
    order and up to [NCPU], its last I/O APIC and the local APIC; as many turns as the table
    has bytes are enough.  On a table with another entry it never returns, so
    that the panic that follows the loop cannot be reached. *)
Theorem mpinit_ends m mp conf imcr s :
  mem_ok m → mpconfig m = Some (mp, conf) → (NCPU ≤ length (mp_apicids s))%nat → mp_ncpu s = 0%nat →
  let p := conf + 44 in
  let e := conf + conf_length m conf in
  (∃ l s', table m p e l ∧ mpinit m (S (Z.to_nat (conf_length m conf))) imcr s = Done tt s' ∧
     mp_ncpu s' = (NCPU `min` length (procs l))%nat ∧ take (mp_ncpu s') (mp_apicids s') = take NCPU (procs l) ∧
     mp_ioapicid s' = ioapic (mp_ioapicid s) l ∧ mp_lapic s' = conf_lapicaddr m conf) ∨
  (wedged m p e ∧ ∀ fuel, mpinit m fuel imcr s = Diverged).
Proof.
  intros Hm Hc Hl Hn p e. set (s1 := mkMpstate (conf_lapicaddr m conf) (mp_ncpu s) (mp_apicids s) (mp_ioapicid s) (mp_out s)).
  destruct (table_or_wedged m p e Hm) as [[l Ht]|Hw]; [left|right].
  - pose proof (table_length m p e l Ht) as Hlen. assert (Hs1 : mp_ncpu s1 = 0%nat) by done.
    pose proof (mp_loop_table m (S (Z.to_nat (conf_length m conf))) p e l Ht true s1 Hl ltac:(lia) ltac:(unfold p, e in *; lia)) as E.
    assert (Ha : take (mp_ncpu (after l s1)) (mp_apicids (after l s1)) = take NCPU (procs l)).
    { unfold after. cbn [mp_ncpu mp_apicids]. rewrite Hs1. unfold splice.
      rewrite take_0, Nat.sub_0_r, Nat.add_0_l. cbn [app]. apply take_app_length. }
    assert (Hnc : mp_ncpu (after l s1) = (NCPU `min` length (procs l))%nat).
    { unfold after. cbn [mp_ncpu]. rewrite Hs1, Nat.sub_0_r, length_take. lia. }
    exists l. unfold mpinit. rewrite Hc. erewrite bind_done by reflexivity. fold s1 p e. erewrite bind_done by exact E. cbn [negb].
    destruct (negb (mp_imcrp m mp =? 0)); eexists; (split; [done|]); (split; [reflexivity|]); done.
  - split; [done|]. intros fuel. unfold mpinit. rewrite Hc. erewrite bind_done by reflexivity. fold s1 p e.
    unfold bind at 1. by rewrite mp_loop_wedged.
Qed.

(** * Examples *)

(** Memory that is zero but for [bs], from address [a] on. *)
Definition rom (a : Z) (bs : list Z) : mem := λ x, if x <? a then 0 else default 0 (bs !! Z.to_nat (x - a)).

Lemma rom_ok a bs : forallb (λ b, (0 <=? b) && (b <? 256)) bs = true → mem_ok (rom a bs).
Proof.
  intros H x. unfold rom. destruct (x <? a); [unfold is_u8; lia|]. destruct (bs !! _) as [b|] eqn:E; [|unfold is_u8; simpl; lia].
  rewrite forallb_forall in H. specialize (H b). simpl. unfold is_u8.
  assert (Hin : In b bs) by (apply list_elem_of_In; by eapply list_elem_of_lookup_2). specialize (H Hin). lia.
Qed.

(** A floating pointer at 0xF0000, and after it a table with these entries;
    [ck] makes the bytes of the table add up to 0. *)
Definition demo_rom (entries : list Z) (ck : Z) : mem :=
  rom (P2V 983040)
    ([95; 77; 80; 95] ++ le_enc 4 983056 ++ [1; 4; 129; 0; 0; 0; 0; 0] ++
     [80; 67; 77; 80] ++ le_enc 2 (44 + Z.of_nat (length entries)) ++ [4; ck] ++ replicate 28 0 ++
     le_enc 4 4276092928 ++ replicate 4 0 ++ entries).

(** Two processors and an I/O APIC; and the same followed by an entry of type 128. *)
Definition demo_entries : list Z :=
  (MPPROC :: 0 :: replicate 18 0) ++ (MPPROC :: 5 :: replicate 18 0) ++ (MPIOAPIC :: 9 :: replicate 6 0).

Definition demo_mp : mpstate := mkMpstate 0 0 (replicate 8 0) 0 [].

Lemma mpinit_ends_witness :
  ∃ s', mpinit (demo_rom demo_entries 130) 93 0 demo_mp = Done tt s' ∧ mp_ncpu s' = 2%nat ∧ mp_ioapicid s' = 9.
Proof.
  assert (Hc : mpconfig (demo_rom demo_entries 130) = Some (P2V 983040, P2V 983056)) by (by vm_compute).
  destruct (mpinit_ends (demo_rom demo_entries 130) (P2V 983040) (P2V 983056) 0 demo_mp) as [H|[_ H]].
  - apply rom_ok. by vm_compute.
  - exact Hc.
  - unfold NCPU. simpl. lia.
  - reflexivity.
  - destruct H as (l & s' & _ & E & _). exists s'.
    assert (Ef : S (Z.to_nat (conf_length (demo_rom demo_entries 130) (P2V 983056))) = 93%nat) by (by vm_compute).
    rewrite Ef in E. split; [exact E|].
    assert (Ev : mpinit (demo_rom demo_entries 130) 93 0 demo_mp = Done tt
      (mkMpstate 4276092928 2 [0; 5; 0; 0; 0; 0; 0; 0] 9 [])) by (by vm_compute).
    assert (E' := eq_trans (eq_sym Ev) E). injection E' as <-. split; reflexivity.
  - specialize (H 93%nat). vm_compute in H. discriminate.
Defined.

(** The same table followed by an entry of type 128: [mpinit] does not return. *)
Lemma mpinit_hangs fuel : mpinit (demo_rom (demo_entries ++ 128 :: replicate 7 0) 250) fuel 0 demo_mp = Diverged.
Proof.
  set (m := demo_rom _ _). assert (Hc : mpconfig m = Some (P2V 983040, P2V 983056)) by (by vm_compute).
  unfold mpinit. rewrite Hc. erewrite bind_done by reflexivity. unfold bind at 1. rewrite mp_loop_wedged; [done|].
  do 2 (apply wedged_proc; [vm_compute; reflexivity|vm_compute; reflexivity|]).
  apply wedged_later; [vm_compute; reflexivity|vm_compute; split; [reflexivity|discriminate]|].
  apply wedged_here; vm_compute; reflexivity.
Qed.
