(* ===== verification/Cprintf.v ===== *)
(** Console output: [uartputc] of uart.c, and [cgaputc], [consputc],
    [printint] and [cprintf] of console.c.

    The serial port receives bytes, the display is a cursor and the cells of
    video memory.  [cprintf_ok] says that printing returns and changes only
    those, which is what its callers rely on; the theorems say that the cursor
    never leaves the screen and that [printint] prints the numeral. *)

From S2P Require Import Prelude State Spinlock.
Import KLock.

(** * Characters *)

(** The bytes of a string literal. *)
Fixpoint bytes (s : string) : list Z :=
  match s with
  | EmptyString => []
  | String a s' => Z.of_nat (Ascii.nat_of_ascii a) :: bytes s'
  end.

Definition BACKSPACE : Z := 0x100.
Definition NEWLINE : Z := 10.
Definition PERCENT : Z := 37.
Definition MINUS : Z := 45.

(** * Output of one character *)

(** The loop before [outb] only waits for the port. *)
Definition uartputc (c : Z) : K unit :=
  u <- gets k_uart ;;
  if negb u then ret tt else modify (λ s, with_k_out (k_out s ++ [u8 c]) s).

(** [crt[pos] = v]. *)
Definition put_cell (pos v : Z) (sc : screen) : screen :=
  with_sc_crt (<[pos := v]> (sc_crt sc)) sc.

(** [memmove(crt, crt+80, ...)] of 23 rows, then [memset] from the cursor. *)
Definition scroll (pos : Z) (crt : Z → Z) : Z → Z := λ i,
  if (pos <=? i) && (i <? 24 * 80) then 0
  else if (0 <=? i) && (i <? 23 * 80) then crt (i + 80) else crt i.

Definition cgaputc (c : Z) : K unit :=
  pos <- gets (λ s, sc_pos (k_screen s)) ;;
  pos <- (if c =? NEWLINE then ret (pos + (80 - pos mod 80))
          else if c =? BACKSPACE then ret (if 0 <? pos then pos - 1 else pos)
          else
            modify (λ s, with_k_screen (put_cell pos (Z.lor (Z.land c 0xff) 0x0700) (k_screen s)) s) ;;;
            ret (pos + 1)) ;;
  if (pos <? 0) || (25 * 80 <? pos) then panic "pos under/overflow" else
  pos <- (if 24 <=? pos / 80 then
            modify (λ s, with_k_screen (with_sc_crt (scroll (pos - 80) (sc_crt (k_screen s))) (k_screen s)) s) ;;;
            ret (pos - 80)
          else ret pos) ;;
  modify (λ s, with_k_screen (with_sc_pos (u16 pos) (k_screen s)) s) ;;;
  modify (λ s, with_k_screen (put_cell pos (Z.lor 32 0x0700) (k_screen s)) s).

Definition consputc (c : Z) : K unit :=
  p <- gets k_panicked ;;
  if (p : bool) then diverge else
  (if c =? BACKSPACE then uartputc 8 ;;; uartputc 32 ;;; uartputc 8 else uartputc c) ;;;
  cgaputc c.

(** * Formatted output *)

(** [digits[d]] of ["0123456789abcdef"]. *)
Definition digit (d : Z) : Z := if d <? 10 then 48 + d else 97 + (d - 10).

(** The [do ... while] of [printint], least significant digit first; 32 turns
    are enough for a [uint] in any base. *)
Fixpoint digits_of (fuel : nat) (x base : Z) : list Z :=
  match fuel with
  | O => []
  | S fuel' => digit (x mod base) :: (if x / base =? 0 then [] else digits_of fuel' (x / base) base)
  end.

(** The buffer [printint] fills, and prints from its end. *)
Definition printint_buf (xx base : Z) (sign : bool) : list Z :=
  let neg := sign && (xx <? 0) in
  let x := u32 (if neg then - xx else xx) in
  digits_of 32 x base ++ (if neg then [MINUS] else []).

Definition printint (xx base : Z) (sign : bool) : K unit :=
  for_each (reverse (printint_buf xx base sign)) consputc.

(** An argument of [cprintf]: a word, or a string (which may be null). *)
Inductive carg := CInt (z : Z) | CStr (s : option (list Z)).

(** [*argp++] as a number and as a string; a missing or mismatched argument
    has no meaning. *)
Definition next_int (args : list carg) : K (Z * list carg) :=
  match args with CInt z :: args' => ret (z, args') | _ => deref None end.
Definition next_str (args : list carg) : K (list Z * list carg) :=
  match args with
  | CStr s :: args' => ret (default (bytes "(null)") s, args')
  | _ => deref None
  end.

(** The loop over the format. *)
Fixpoint cprintf_loop (fmt : list Z) (args : list carg) : K unit :=
  match fmt with
  | [] => ret tt
  | c :: fmt' =>
      if negb (c =? PERCENT) then consputc c ;;; cprintf_loop fmt' args else
      match fmt' with
      | [] => ret tt
      | c :: fmt'' =>
          if c =? 100 then
            a <- next_int args ;; printint (s32 (fst a)) 10 true ;;; cprintf_loop fmt'' (snd a)
          else if (c =? 120) || (c =? 112) then
            a <- next_int args ;; printint (s32 (fst a)) 16 false ;;; cprintf_loop fmt'' (snd a)
          else if c =? 115 then
            a <- next_str args ;; for_each (fst a) consputc ;;; cprintf_loop fmt'' (snd a)
          else if c =? PERCENT then consputc PERCENT ;;; cprintf_loop fmt'' args
          else consputc PERCENT ;;; consputc c ;;; cprintf_loop fmt'' args
      end
  end.

Definition cprintf (fmt : option (list Z)) (args : list carg) : K unit :=
  locking <- gets k_locking ;;
  (if (locking : bool) then acquire LCons else ret tt) ;;;
  match fmt with
  | None => panic "null fmt"
  | Some fmt =>
      cprintf_loop fmt args ;;;
      (if (locking : bool) then release LCons else ret tt)
  end.

(** [cprintf] of a literal. *)
Definition cprint (fmt : string) (args : list carg) : K unit := cprintf (Some (bytes fmt)) args.

(** * The screen *)

Definition screen_ok (sc : screen) : Prop := 0 ≤ sc_pos sc < 24 * 80.

(** What output may change. *)
Definition outframe (s s' : kernel) : Prop :=
  s' = with_k_out (k_out s') (with_k_screen (k_screen s') s) ∧
  (screen_ok (k_screen s) → screen_ok (k_screen s')).

Lemma outframe_refl s : outframe s s.
Proof. split; [by destruct s|done]. Qed.

Lemma outframe_trans s1 s2 s3 : outframe s1 s2 → outframe s2 s3 → outframe s1 s3.
Proof. intros [E1 H1] [E2 H2]. split; [|auto]. rewrite E2, E1. done. Qed.

Lemma cgaputc_ok c s :
  screen_ok (k_screen s) →
  ∃ s', cgaputc c s = Done tt s' ∧ s' = with_k_screen (k_screen s') s ∧ screen_ok (k_screen s').
Proof.
  unfold screen_ok. intros Hpos. unfold cgaputc. unfold bind at 1, gets. cbn [obind].
  set (pos := sc_pos (k_screen s)) in *.
  assert (Hmid : ∃ s1 pos1, (if c =? NEWLINE then ret (pos + (80 - pos mod 80))
     else if c =? BACKSPACE then ret (if 0 <? pos then pos - 1 else pos)
     else
       modify (λ s, with_k_screen (put_cell pos (Z.lor (Z.land c 0xff) 0x0700) (k_screen s)) s) ;;;
       ret (pos + 1)) s = Done pos1 s1 ∧ s1 = with_k_screen (k_screen s1) s ∧ 0 ≤ pos1 ≤ 24 * 80).
  { destruct (c =? NEWLINE).
    - exists s, (pos + (80 - pos mod 80)). split; [done|]. split; [by destruct s|]. zdiv.
    - destruct (c =? BACKSPACE).
      + eexists s, _. split; [done|]. split; [by destruct s|]. case_bool; lia.
      + eexists _, (pos + 1). split; [done|]. split; [done|]. lia. }
  destruct Hmid as (s1 & pos1 & E1 & Hs1 & Hp1). erewrite bind_done by exact E1.
  rewrite (proj2 (Z.ltb_ge pos1 0)), (proj2 (Z.ltb_ge (25 * 80) pos1)) by lia. cbn [orb].
  destruct (Z.leb_spec 24 (pos1 / 80)) as [Hs|Hs].
  - erewrite bind_done by done. erewrite bind_done by done. eexists. split; [done|]. simpl.
    split; [rewrite Hs1; done|]. rewrite u16_small; zdiv.
  - erewrite bind_done by done. erewrite bind_done by done. eexists. split; [done|]. simpl.
    split; [rewrite Hs1; done|]. rewrite u16_small; zdiv.
Qed.

(** Output is possible: the machine has not panicked and the cursor is on the
    screen. *)
Definition can_print (s : kernel) : Prop := k_panicked s = false ∧ screen_ok (k_screen s).

Lemma can_print_frame s s' : outframe s s' → can_print s → can_print s'.
Proof. intros [E H] [Hp Hs]. split; [by rewrite E|auto]. Qed.

(** The bytes [consputc] sends to the serial port. *)
Definition uart_bytes (s : kernel) (c : Z) : list Z :=
  if k_uart s then (if c =? BACKSPACE then [8; 32; 8] else [u8 c]) else [].

Lemma consputc_ok c s :
  can_print s →
  ∃ s', consputc c s = Done tt s' ∧ outframe s s' ∧ k_out s' = k_out s ++ uart_bytes s c.
Proof.
  intros [Hp Hs]. unfold consputc. unfold bind at 1, gets. cbn [obind]. rewrite Hp.
  assert (Hu : (if c =? BACKSPACE then uartputc 8 ;;; uartputc 32 ;;; uartputc 8 else uartputc c) s =
    Done tt (with_k_out (k_out s ++ uart_bytes s c) s)).
  { unfold uart_bytes, uartputc, bind, gets, modify, ret.
    destruct (k_uart s) eqn:Eu, (c =? BACKSPACE); repeat (simpl; rewrite ?Eu).
    - by rewrite <-!app_assoc.
    - done.
    - rewrite app_nil_r. by destruct s.
    - rewrite app_nil_r. by destruct s. }
  erewrite bind_done by exact Hu.
  destruct (cgaputc_ok c (with_k_out (k_out s ++ uart_bytes s c) s)) as (s' & E & Hs' & Hok); [done|].
  exists s'. split; [done|]. split; [|by rewrite Hs'].
  split; [|done]. rewrite Hs'. done.
Qed.

Lemma consputs_ok cs s :
  can_print s →
  ∃ s', for_each cs consputc s = Done tt s' ∧ outframe s s' ∧
    k_out s' = k_out s ++ (cs ≫= uart_bytes s).
Proof.
  revert s. induction cs as [|c cs IH]; intros s Hc; cbn [for_each].
  - exists s. split; [done|]. split; [apply outframe_refl|]. by rewrite app_nil_r.
  - destruct (consputc_ok c s Hc) as (s1 & E1 & F1 & O1). erewrite bind_done by exact E1.
    destruct (IH s1) as (s2 & E2 & F2 & O2); [by eapply can_print_frame|].
    exists s2. split; [done|]. split; [by eapply outframe_trans|].
    assert (Eu : uart_bytes s1 = uart_bytes s) by (unfold uart_bytes; destruct F1 as [-> _]; done).
    rewrite O2, O1, Eu, <-app_assoc. done.
Qed.

(** The arguments match the format: enough of them, of the right kind. *)
Fixpoint args_ok (fmt : list Z) (args : list carg) : bool :=
  match fmt with
  | [] => true
  | c :: fmt' =>
      if negb (c =? PERCENT) then args_ok fmt' args else
      match fmt' with
      | [] => true
      | c :: fmt'' =>
          if (c =? 100) || (c =? 120) || (c =? 112) then
            match args with CInt _ :: args' => args_ok fmt'' args' | _ => false end
          else if c =? 115 then
            match args with CStr _ :: args' => args_ok fmt'' args' | _ => false end
          else args_ok fmt'' args
      end
  end.

Lemma cprintf_loop_ok n fmt args s :
  (length fmt ≤ n)%nat → args_ok fmt args = true → can_print s →
  ∃ s', cprintf_loop fmt args s = Done tt s' ∧ outframe s s'.
Proof.
  revert fmt args s. induction n as [|n IH]; intros fmt args s Hn Ha Hc.
  { destruct fmt; [|simpl in Hn; lia]. exists s. split; [done|apply outframe_refl]. }
  assert (Hstep : ∀ (m : K unit) s1 fmt' args', m s = Done tt s1 → outframe s s1 →
    (length fmt' ≤ n)%nat → args_ok fmt' args' = true →
    ∃ s', (m ;;; cprintf_loop fmt' args') s = Done tt s' ∧ outframe s s').
  { intros m s1 fmt' args' Em F1 Hl Ha'. erewrite bind_done by exact Em.
    destruct (IH fmt' args' s1 Hl Ha') as (s' & E' & F'); [by eapply can_print_frame|].
    exists s'. split; [done|]. by eapply outframe_trans. }
  assert (Hputs : ∀ cs fmt' args', (length fmt' ≤ n)%nat → args_ok fmt' args' = true →
    ∃ s', (for_each cs consputc ;;; cprintf_loop fmt' args') s = Done tt s' ∧ outframe s s').
  { intros cs fmt' args' Hl Ha'. destruct (consputs_ok cs s Hc) as (s1 & E1 & F1 & _). by eapply Hstep. }
  destruct fmt as [|c fmt]; [exists s; split; [done|apply outframe_refl]|].
  cbn [length] in Hn. cbn [cprintf_loop args_ok] in *. destruct (c =? PERCENT); cbn [negb] in *.
  - destruct fmt as [|d fmt]; [exists s; split; [done|apply outframe_refl]|]. cbn [length] in Hn.
    destruct (Z.eqb_spec d 100) as [->|N1]; cbn [orb] in Ha.
    + destruct args as [|[z|]]; try done. apply Hputs; [lia|done].
    + destruct ((d =? 120) || (d =? 112)) eqn:Ed; cbn [orb] in Ha.
      * destruct args as [|[z|]]; try done. apply Hputs; [lia|done].
      * destruct (d =? 115).
        -- destruct args as [|[|str]]; try done. apply Hputs; [lia|done].
        -- destruct (d =? PERCENT).
           ++ destruct (consputc_ok PERCENT s Hc) as (s1 & E1 & F1 & _). eapply Hstep; [done|done|lia|done].
           ++ destruct (consputc_ok PERCENT s Hc) as (s1 & E1 & F1 & _). erewrite bind_done by exact E1.
              pose proof (can_print_frame _ _ F1 Hc) as Hc1.
              destruct (consputc_ok d s1 Hc1) as (s2 & E2 & F2 & _). erewrite bind_done by exact E2.
              destruct (IH fmt args s2) as (s' & E' & F'); [lia|done|by eapply can_print_frame|].
              exists s'. split; [done|]. eapply outframe_trans; [done|]. by eapply outframe_trans.
  - destruct (consputc_ok c s Hc) as (s1 & E1 & F1 & _). eapply Hstep; [done|done|lia|done].
Qed.

(** The console lock is free, if it is in use. *)
Definition cons_ready (s : kernel) : Prop :=
  k_locking s = true → kok s ∧ unlocked LCons s.

Lemma cprintf_ok fmt args s :
  can_print s → cons_ready s → args_ok fmt args = true →
  ∃ s', cprintf (Some fmt) args s = Done tt s' ∧ outframe s s'.
Proof.
  intros Hc Hr Ha. unfold cprintf. unfold bind at 1, gets. cbn [obind].
  unfold cons_ready in Hr. destruct (k_locking s).
  - destruct Hr as [Hok Hul]; [done|]. run kacquire_ok.
    destruct (cprintf_loop_ok (length fmt) fmt args (enter LCons s)) as (s1 & E1 & F1 & HS); [done|done|done|].
    erewrite bind_done by exact E1.
    rewrite krelease_ok.
    + exists (with_k_out (k_out s1) (with_k_screen (k_screen s1) s)). split; [|by split].
      rewrite F1. simpl. by leave_out.
    + rewrite F1. eauto with kernel.
    + rewrite F1. eauto with kernel.
  - erewrite bind_done by done.
    destruct (cprintf_loop_ok (length fmt) fmt args s) as (s1 & E1 & F1); [done|done|done|].
    erewrite bind_done by exact E1. by exists s1.
Qed.

Lemma cprint_ok fmt args s :
  can_print s → cons_ready s → args_ok (bytes fmt) args = true →
  ∃ s', cprint fmt args s = Done tt s' ∧ outframe s s'.
Proof. apply cprintf_ok. Qed.

(** * Numerals *)

(** The value a list of digits denotes, most significant first. *)
Definition undigit (c : Z) : Z := if c <? 58 then c - 48 else c - 87.
Definition numeral (base : Z) (ds : list Z) : Z := foldl (λ a c, a * base + undigit c) 0 ds.

Lemma undigit_digit d : 0 ≤ d < 16 → undigit (digit d) = d.
Proof. intros H. unfold undigit, digit. solve_ifs; lia. Qed.

Lemma numeral_snoc base ds c : numeral base (ds ++ [c]) = numeral base ds * base + undigit c.
Proof. unfold numeral. by rewrite foldl_app. Qed.

Lemma digits_of_value fuel x base :
  2 ≤ base ≤ 16 → 0 ≤ x < 2 ^ Z.of_nat fuel →
  (0 < fuel)%nat → numeral base (reverse (digits_of fuel x base)) = x.
Proof.
  intros Hb. revert x. induction fuel as [|fuel IH]; intros x Hx Hf; [lia|].
  cbn [digits_of]. rewrite reverse_cons, numeral_snoc.
  assert (Hd : 0 ≤ x mod base < 16) by (pose proof (Z.mod_pos_bound x base); lia).
  rewrite undigit_digit by done. pose proof (Z.div_mod x base ltac:(lia)) as Hdm.
  destruct (Z.eqb_spec (x / base) 0) as [E|E].
  - rewrite E in Hdm. unfold numeral. simpl. lia.
  - rewrite Nat2Z.inj_succ, Z.pow_succ_r in Hx by lia.
    assert (Hq : 0 ≤ x / base < 2 ^ Z.of_nat fuel).
    { split; [apply Z.div_pos; lia|]. apply Z.div_lt_upper_bound; nia. }
    rewrite IH; [lia|done|]. destruct fuel; [|lia]. simpl in Hq. lia.
Qed.

Lemma digits_of_range fuel x base :
  2 ≤ base ≤ 16 → Forall (λ c, 48 ≤ c < 58 ∨ 97 ≤ c < 103) (digits_of fuel x base).
Proof.
  intros Hb. revert x. induction fuel as [|fuel IH]; intros x; cbn [digits_of]; constructor.
  - pose proof (Z.mod_pos_bound x base ltac:(lia)). unfold digit. case_bool; lia.
  - destruct (_ =? _); [constructor|apply IH].
Qed.

Lemma uart_bytes_plain s cs :
  k_uart s = true → Forall is_u8 cs → (cs ≫= uart_bytes s) = cs.
Proof.
  intros Hu. induction 1 as [|c cs Hc _ IH]; [done|]. change ((c :: cs) ≫= uart_bytes s) with
    (uart_bytes s c ++ (cs ≫= uart_bytes s)). rewrite IH. unfold uart_bytes. rewrite Hu.
  unfold is_u8, BACKSPACE in *. rewrite (proj2 (Z.eqb_neq _ _)), u8_small by (done || lia). done.
Qed.

(** [printint] prints the number: it sends to the serial port a minus sign
    exactly when the number is negative and printed as signed, and then
    digits whose value in the base is its absolute value (or, unsigned, the
    number as a [uint]). *)
Theorem printint_numeral xx base sign s :
  can_print s → k_uart s = true → 2 ≤ base ≤ 16 →
  -2147483648 ≤ xx < 2147483648 →
  ∃ s' ds, printint xx base sign s = Done tt s' ∧
    k_out s' = k_out s ++ (if sign && (xx <? 0) then [MINUS] else []) ++ ds ∧
    numeral base ds = (if sign then Z.abs xx else u32 xx) ∧ outframe s s'.
Proof.
  intros Hc Hu Hb Hx. unfold printint.
  destruct (consputs_ok (reverse (printint_buf xx base sign)) s Hc) as (s' & E & F & O).
  assert (Hrange : Forall is_u8 (reverse (printint_buf xx base sign))).
  { apply Forall_reverse. unfold printint_buf. apply Forall_app. split.
    - eapply Forall_impl; [by apply digits_of_range|]. unfold is_u8. simpl. lia.
    - case_bool; repeat constructor; unfold is_u8, MINUS; lia. }
  rewrite uart_bytes_plain in O by done.
  set (neg := sign && (xx <? 0)). set (x := u32 (if neg then - xx else xx)).
  exists s', (reverse (digits_of 32 x base)). split; [done|]. split; [|split; [|done]].
  - rewrite O. unfold printint_buf. fold neg x. rewrite reverse_app. by destruct neg.
  - rewrite digits_of_value; [|done| |lia].
    + subst x neg. destruct sign; simpl; [|done].
      destruct (Z.ltb_spec xx 0); rewrite u32_small by (unfold is_u32; lia); lia.
    + change (2 ^ Z.of_nat 32) with 4294967296. apply u32_range.
Qed.

(** Printing stays on the screen: from a cursor on the 24 rows, [cprintf]
    with arguments that match its format returns (it never reaches
    [panic("pos under/overflow")]), leaves the cursor on the screen, and
    changes nothing but the display and the serial output. *)
Theorem cprintf_safe fmt args s :
  can_print s → cons_ready s → args_ok fmt args = true →
  ∃ s', cprintf (Some fmt) args s = Done tt s' ∧
    s' = with_k_out (k_out s') (with_k_screen (k_screen s') s) ∧ screen_ok (k_screen s').
Proof.
  intros Hc Hr Ha. destruct (cprintf_ok fmt args s Hc Hr Ha) as (s' & E & F & HS).
  exists s'. split; [done|]. split; [done|]. apply HS, Hc.
Qed.

(** ** Witnesses *)

Definition demo_console : kernel :=
  mkKernel Nesting.demo_hart 0 0 (λ _, 0) false 0 0
    [] None 1 0 [] [] [] ∅ (mkLog 0 0 0 0 0 0 []) (mkSuperblock 0 0 0 0 0 0 0)
    [] [] [] ∅ (mkInput [] 0 0 0) false false [] 0 1 (mkScreen 0 (λ _, 0)) true true.

Lemma printint_numeral_witness :
  ∃ s' ds, printint (-120) 10 true demo_console = Done tt s' ∧
    k_out s' = k_out demo_console ++ (if true && (-120 <? 0) then [MINUS] else []) ++ ds ∧
    numeral 10 ds = (if true then Z.abs (-120) else u32 (-120)) ∧ outframe demo_console s'.
Proof.
  apply (printint_numeral (-120) 10 true demo_console).
  - split; [reflexivity|]. unfold screen_ok. simpl. lia.
  - reflexivity.
  - lia.
  - lia.
Defined.

Lemma cprintf_safe_witness :
  ∃ s', cprintf (Some (bytes "cpu%d: starting %s")) [CInt 1; CStr None] demo_console = Done tt s' ∧
    s' = with_k_out (k_out s') (with_k_screen (k_screen s') demo_console) ∧ screen_ok (k_screen s').
Proof.
  apply (cprintf_safe (bytes "cpu%d: starting %s") [CInt 1; CStr None] demo_console).
  - split; [reflexivity|]. unfold screen_ok. simpl. lia.
  - intros H. discriminate H.
  - reflexivity.
Defined.
