(* ===== verification/Kalloc.v ===== *)
(** The page allocator: kalloc.c.

    The free list is threaded through the free pages themselves: the first word
    of a free page is the address of the next one.  [free_rep] relates that
    chain to the list of free pages, and the theorems say that [kalloc],
    [kfree] and [freerange] act on that list as on a stack of distinct pages. *)

From S2P Require Import Prelude State Spinlock CString Mmu.
Import KLock.

(** * The allocator *)

Definition lock_kmem : K unit :=
  u <- gets k_use_lock ;; if (u : bool) then acquire LKmem else ret tt.
Definition unlock_kmem : K unit :=
  u <- gets k_use_lock ;; if (u : bool) then release LKmem else ret tt.

Definition kfree (v : Z) : K unit :=
  e <- gets k_end ;;
  if negb (v mod PGSIZE =? 0) || (v <? e) || (PHYSTOP <=? V2P v) then panic "kfree" else
  modify (λ s, with_k_mem (mset (k_mem s) v 1 PGSIZE) s) ;;;
  lock_kmem ;;;
  modify (λ s, with_k_mem (store32 (k_mem s) v (k_freelist s)) s) ;;;
  modify (with_k_freelist v) ;;;
  unlock_kmem.

Definition kalloc : K Z :=
  lock_kmem ;;;
  r <- gets k_freelist ;;
  (if negb (r =? 0) then modify (λ s, with_k_freelist (load32 (k_mem s) r) s) else ret tt) ;;;
  unlock_kmem ;;;
  ret r.

(** The loop of [freerange]; [fuel] bounds its iterations. *)
Fixpoint freerange_loop (fuel : nat) (p vend : Z) : K unit :=
  match fuel with
  | O => diverge
  | S fuel' =>
      if p + PGSIZE <=? vend then kfree p ;;; freerange_loop fuel' (p + PGSIZE) vend
      else ret tt
  end.

Definition freerange (vstart vend : Z) : K unit :=
  freerange_loop (S (Z.to_nat (vend / PGSIZE))) (PGROUNDUP vstart) vend.

Definition kinit1 (vstart vend : Z) : K unit :=
  initlock LKmem "kmem" ;;;
  modify (with_k_use_lock false) ;;;
  freerange vstart vend.

Definition kinit2 (vstart vend : Z) : K unit :=
  freerange vstart vend ;;;
  modify (with_k_use_lock true).

(** * The free list *)

(** A page the allocator may hand out. *)
Definition page_ok (s : kernel) (p : Z) : Prop :=
  p mod PGSIZE = 0 ∧ k_end s ≤ p ∧ KERNBASE < p < 4294967296 ∧ V2P p < PHYSTOP.

Fixpoint free_rep (m : mem) (head : Z) (l : list Z) : Prop :=
  match l with
  | [] => head = 0
  | p :: l' => head = p ∧ free_rep m (load32 m p) l'
  end.

Definition kmem_inv (s : kernel) (l : list Z) : Prop :=
  free_rep (k_mem s) (k_freelist s) l ∧ NoDup l ∧ Forall (page_ok s) l.

(** The CPU can run the allocator: its lock is free, if it is in use. *)
Definition kmem_ready (s : kernel) : Prop :=
  k_use_lock s = true → kok s ∧ unlocked LKmem s.

(** Memory outside the page [p]. *)
Definition agree_off_page (p : Z) (m m' : mem) : Prop :=
  ∀ a, a < p ∨ p + PGSIZE ≤ a → m' a = m a.

Lemma free_rep_frame m m' head l :
  (∀ p, p ∈ l → load32 m' p = load32 m p) → free_rep m head l → free_rep m' head l.
Proof.
  revert head. induction l as [|p l IH]; intros head H; simpl; [done|].
  intros [-> Hrep]. split; [done|]. rewrite H by set_solver. apply IH; set_solver.
Qed.

Lemma load32_agree_off_page p m m' q :
  agree_off_page p m m' → p mod PGSIZE = 0 → q mod PGSIZE = 0 → p ≠ q →
  load32 m' q = load32 m q.
Proof.
  intros Ha Hp Hq Hne. unfold load32, PGSIZE in *.
  assert (q + 3 < p ∨ p + 4096 ≤ q) by zdiv.
  unfold agree_off_page, PGSIZE in Ha. rewrite !Ha by lia. done.
Qed.

Lemma lock_kmem_ok s :
  kmem_ready s → lock_kmem s = Done tt (if k_use_lock s then enter LKmem s else s).
Proof.
  intros Hr. unfold lock_kmem, bind, gets. simpl. unfold kmem_ready in Hr.
  destruct (k_use_lock s); [|done]. destruct Hr; [done|]. by apply kacquire_ok.
Qed.

Lemma kfree_ok s v :
  kmem_ready s → page_ok s v →
  kfree v s = Done tt (with_k_freelist v
    (with_k_mem (store32 (mset (k_mem s) v 1 PGSIZE) v (k_freelist s)) s)).
Proof.
  intros Hr (Hal & Hend & _ & Hp). unfold kfree. unfold bind at 1, gets. simpl.
  rewrite (proj2 (Z.eqb_eq _ _) Hal), (proj2 (Z.ltb_ge _ _) Hend), (proj2 (Z.leb_gt _ _) Hp).
  simpl. unfold bind at 1, modify at 1. simpl.
  erewrite bind_done by (by apply lock_kmem_ok). simpl.
  unfold unlock_kmem, bind, gets, modify. simpl. unfold kmem_ready in Hr.
  destruct (k_use_lock s) eqn:Eu; simpl; rewrite Eu; [|done]. destruct Hr as [Hok Hf]; [done|].
  rewrite krelease_ok by eauto with kernel. by leave_out.
Qed.

Lemma kalloc_ok s :
  kmem_ready s →
  kalloc s = Done (k_freelist s)
    (if k_freelist s =? 0 then s
     else with_k_freelist (load32 (k_mem s) (k_freelist s)) s).
Proof.
  intros Hr. unfold kalloc. erewrite bind_done by (by apply lock_kmem_ok).
  unfold unlock_kmem, bind, gets, modify, kmem_ready in *.
  destruct (k_use_lock s) eqn:Eu; simpl.
  - destruct Hr as [Hok Hf]; [done|].
    destruct (k_freelist s =? 0); simpl; rewrite Eu, krelease_ok by eauto with kernel;
      simpl; by leave_out.
  - destruct (k_freelist s =? 0); simpl; by rewrite Eu.
Qed.

Lemma kalloc_empty s : kmem_ready s → kmem_inv s [] → kalloc s = Done 0 s.
Proof. intros Hr (Hrep & _). simpl in Hrep. by rewrite kalloc_ok, Hrep. Qed.

Lemma kalloc_cons s p l :
  kmem_ready s → kmem_inv s (p :: l) →
  ∃ s', kalloc s = Done p s' ∧ kmem_inv s' l ∧ s' = with_k_freelist (k_freelist s') s.
Proof.
  intros Hr ([Hh Hrep] & Hnd & Hok). rewrite kalloc_ok by done. rewrite Hh.
  inversion Hok as [|? ? Hp Hl]; subst. destruct Hp as (_ & _ & Hrange & _).
  destruct (Z.eqb_spec (k_freelist s) 0); [unfold KERNBASE in Hrange; lia|].
  eexists. split; [done|]. split; [|done].
  apply NoDup_cons in Hnd as [_ Hnd]. done.
Qed.

Lemma kfree_cons s v l :
  kmem_ready s → kmem_inv s l → page_ok s v → v ∉ l →
  ∃ s', kfree v s = Done tt s' ∧ kmem_inv s' (v :: l) ∧
    s' = with_k_freelist v (with_k_mem (k_mem s') s) ∧
    agree_off_page v (k_mem s) (k_mem s').
Proof.
  intros Hr (Hrep & Hnd & Hok) Hv Hin. rewrite kfree_ok by done.
  eexists. split; [done|]. simpl.
  assert (Hoff : agree_off_page v (k_mem s)
            (store32 (mset (k_mem s) v 1 PGSIZE) v (k_freelist s))).
  { intros a Ha. rewrite store32_spec. unfold mset, PGSIZE in *. by solve_ifs. }
  split; [|done]. split; [|split].
  - simpl. split; [done|]. rewrite load_store32_same.
    assert (Hu : is_u32 (k_freelist s)).
    { destruct l as [|p l']; simpl in Hrep; [rewrite Hrep; unfold is_u32; lia|].
      destruct Hrep as [-> _]. inversion Hok as [|? ? (_ & _ & Hp & _)]; subst.
      unfold is_u32, KERNBASE in *. lia. }
    rewrite u32_small by done. eapply free_rep_frame; [|done].
    intros q Hq. rewrite Forall_forall in Hok. destruct (Hok q) as (Hq4 & _); [done|].
    eapply load32_agree_off_page; [done|apply Hv|done|set_solver].
  - by apply NoDup_cons.
  - by constructor.
Qed.

(** * Theorems *)

(** The allocator is a stack of distinct pages.  From a state whose free
    list holds the pages [l], [kfree] of a page not in [l] pushes it and keeps
    all memory outside that page, and the next [kalloc] returns it and leaves
    [l] again; [kalloc] on an empty list returns 0 and changes nothing. *)
Theorem kalloc_kfree_stack s v l :
  kmem_ready s → kmem_inv s l → page_ok s v → v ∉ l →
  ∃ s1 s2, kfree v s = Done tt s1 ∧ kmem_inv s1 (v :: l) ∧
    agree_off_page v (k_mem s) (k_mem s1) ∧
    kalloc s1 = Done v s2 ∧ kmem_inv s2 l ∧
    (l = [] → kalloc s2 = Done 0 s2).
Proof.
  intros Hr Hinv Hv Hin. destruct (kfree_cons s v l) as (s1 & E1 & Hi1 & Hs1 & Hoff); try done.
  assert (Hr1 : kmem_ready s1) by (rewrite Hs1; exact Hr).
  destruct (kalloc_cons s1 v l) as (s2 & E2 & Hi2 & Hs2); try done.
  exists s1, s2. do 5 (split; [done|]). intros ->. apply kalloc_empty; [|done].
  rewrite Hs2. exact Hr1.
Qed.

(** [kfree] refuses an address that is not the start of a page, lies below
    the end of the kernel image, or is beyond physical memory: it panics
    before it writes anything. *)
Theorem kfree_panics s v :
  ¬ (v mod PGSIZE = 0 ∧ k_end s ≤ v ∧ V2P v < PHYSTOP) → kfree v s = Panicked "kfree".
Proof.
  intros H. unfold kfree, bind at 1, gets. simpl.
  destruct (_ || _) eqn:E; [done|]. destruct H. lia.
Qed.

(** A small machine: the kernel image ends at [KERNBASE + 0x200000], nothing is
    free, and the allocator's lock is not yet in use. *)
Definition demo_kernel : kernel :=
  mkKernel Nesting.demo_hart (KERNBASE + 0x200000) (KERNBASE + 0x108000) (λ _, 0) false 0 0
    [] None 1 0 [] [] [] ∅ (mkLog 0 0 0 0 0 0 []) (mkSuperblock 0 0 0 0 0 0 0)
    [] [] [] ∅ (mkInput [] 0 0 0) false false [] 0 1 (mkScreen 0 (λ _, 0)) true true.

Lemma demo_kmem_inv : kmem_inv demo_kernel [].
Proof. repeat split; constructor. Qed.

Lemma demo_page_ok : page_ok demo_kernel (KERNBASE + 0x300000).
Proof. by vm_compute. Qed.

Lemma kalloc_kfree_stack_witness :
  ∃ s1 s2, kfree (KERNBASE + 0x300000) demo_kernel = Done tt s1 ∧
    kmem_inv s1 [KERNBASE + 0x300000] ∧
    agree_off_page (KERNBASE + 0x300000) (k_mem demo_kernel) (k_mem s1) ∧
    kalloc s1 = Done (KERNBASE + 0x300000) s2 ∧ kmem_inv s2 [] ∧
    (([] : list Z) = [] → kalloc s2 = Done 0 s2).
Proof.
  apply (kalloc_kfree_stack demo_kernel (KERNBASE + 0x300000) []).
  - done.
  - exact demo_kmem_inv.
  - exact demo_page_ok.
  - apply not_elem_of_nil.
Defined.

Lemma kfree_panics_witness : kfree (KERNBASE + 0x300004) demo_kernel = Panicked "kfree".
Proof. apply (kfree_panics demo_kernel (KERNBASE + 0x300004)). vm_compute. naive_solver. Defined.

(** ** Freeing a range *)

(** The pages that lie wholly in a range. *)
Definition page_in (lo hi p : Z) : Prop := p mod PGSIZE = 0 ∧ lo ≤ p ∧ p + PGSIZE ≤ hi.

Lemma freerange_loop_ok vend fuel p s l :
  vend ≤ KERNBASE + PHYSTOP →
  kmem_ready s → kmem_inv s l →
  p mod PGSIZE = 0 → k_end s ≤ p → KERNBASE < p →
  (∀ q, q ∈ l → ¬ page_in p vend q) → vend - p < PGSIZE * Z.of_nat fuel →
  (0 < fuel)%nat →
  ∃ s' l', freerange_loop fuel p vend s = Done tt s' ∧ kmem_inv s' (l' ++ l) ∧
    ∀ q, q ∈ l' ↔ page_in p vend q.
Proof.
  intros Hvend. revert p s l.
  induction fuel as [|fuel IH]; intros p s l Hr Hinv Hal Hend Hkb Hdis Hfuel Hpos; [lia|].
  cbn [freerange_loop]. destruct (Z.leb_spec (p + PGSIZE) vend) as [Hle|Hgt].
  - assert (Hp : page_ok s p).
    { split; [done|]. split; [done|]. unfold KERNBASE, PHYSTOP, PGSIZE in *. split; [lia|].
      rewrite V2P_small by (unfold KERNBASE; lia). unfold KERNBASE. lia. }
    destruct (kfree_cons s p l) as (s1 & E1 & Hi1 & Hs1 & _); try done.
    { intros Hin. apply (Hdis p Hin). split; [done|]. lia. }
    erewrite bind_done by done.
    destruct (IH (p + PGSIZE) s1 (p :: l)) as (s' & l' & E' & Hi' & Hmem).
    + rewrite Hs1. exact Hr.
    + done.
    + unfold PGSIZE in *. zdiv.
    + rewrite Hs1. simpl. unfold PGSIZE. lia.
    + unfold PGSIZE. lia.
    + intros q [->|Hin]%elem_of_cons.
      * unfold page_in, PGSIZE. lia.
      * intros (H1 & H2 & H3). apply (Hdis q Hin). unfold page_in, PGSIZE in *. lia.
    + unfold PGSIZE in *. lia.
    + unfold PGSIZE in *. lia.
    + exists s', (l' ++ [p]). rewrite <-app_assoc. split; [done|]. split; [done|].
      intros q. rewrite elem_of_app, Hmem, list_elem_of_singleton. unfold page_in, PGSIZE in *.
      split; [intros [?| ->]; [lia|done]|]. intros (H1 & H2 & H3).
      destruct (decide (q = p)); [by right|left]. zdiv.
  - exists s, []. split; [done|]. split; [done|]. intros q. unfold page_in.
    split; [set_solver|]. intros. unfold PGSIZE in *. lia.
Qed.

(** [freerange] puts exactly the pages that lie wholly between [vstart] and
    [vend] on the free list, each once, in front of those already there. *)
Theorem freerange_frees vstart vend s l :
  kmem_ready s → kmem_inv s l → k_end s ≤ vstart → KERNBASE < vstart →
  vstart + 4095 < 4294967296 → 0 ≤ vend ≤ KERNBASE + PHYSTOP →
  (∀ q, q ∈ l → ¬ page_in vstart vend q) →
  ∃ s' l', freerange vstart vend s = Done tt s' ∧ kmem_inv s' (l' ++ l) ∧
    ∀ q, q ∈ l' ↔ page_in vstart vend q.
Proof.
  intros Hr Hinv Hend Hkb Hmax Hvend Hdis. unfold freerange.
  unfold KERNBASE, PHYSTOP in *. rewrite PGROUNDUP_spec by lia.
  set (p := vstart + 4095 - (vstart + 4095) mod 4096).
  assert (Hp : p mod 4096 = 0 ∧ vstart ≤ p < vstart + 4096) by (subst p; zdiv).
  destruct (freerange_loop_ok vend (S (Z.to_nat (vend / PGSIZE))) p s l)
    as (s' & l' & E & Hi & Hmem); try (unfold KERNBASE, PHYSTOP, PGSIZE; lia); try done.
  - intros q Hq (H1 & H2 & H3). apply (Hdis q Hq). unfold page_in, PGSIZE in *. lia.
  - unfold PGSIZE. zdiv.
  - exists s', l'. split; [done|]. split; [done|]. intros q. rewrite Hmem.
    unfold page_in, PGSIZE. split; intros (H1 & H2 & H3); split; try done; zdiv.
Qed.

Lemma freerange_frees_witness :
  ∃ s' l', freerange (KERNBASE + 0x200010) (KERNBASE + 0x400000) demo_kernel = Done tt s' ∧
    kmem_inv s' (l' ++ []) ∧
    ∀ q, q ∈ l' ↔ page_in (KERNBASE + 0x200010) (KERNBASE + 0x400000) q.
Proof.
  apply (freerange_frees (KERNBASE + 0x200010) (KERNBASE + 0x400000) demo_kernel []);
    try (unfold KERNBASE, PHYSTOP; simpl; lia); try done.
  - exact demo_kmem_inv.
  - intros q Hq. by apply not_elem_of_nil in Hq.
Defined.
