(* ===== verification/Vm.v ===== *)
(** Page tables and user memory: vm.c.

    A page table is two levels of pages in [k_mem]: [walkpgdir] reads and
    extends them, and everything else goes through it.  [pte_of] is the entry
    the hardware would find for an address; the theorems state the effect of
    the operations as changes of [pte_of]. *)

From S2P Require Import Prelude State Spinlock Cprintf CString Mmu Kalloc.
Import KLock.

(** * Reading and writing memory *)

Definition rd32 (a : Z) : K Z := gets (λ s, load32 (k_mem s) a).
Definition wr32 (a v : Z) : K unit := modify (λ s, with_k_mem (store32 (k_mem s) a v) s).
Definition zero_page (a : Z) : K unit := modify (λ s, with_k_mem (mset (k_mem s) a 0 PGSIZE) s).
Definition copy_mem (dst src n : Z) : K unit :=
  modify (λ s, with_k_mem (mcopy (k_mem s) dst src n) s).

(** * The operations *)

Definition walkpgdir (pgdir va : Z) (alloc : bool) : K Z :=
  let pde := pgdir + 4 * PDX va in
  e <- rd32 pde ;;
  if negb (Z.land e PTE_P =? 0) then
    ret (P2V (PTE_ADDR e) + 4 * PTX va)
  else if negb alloc then ret 0 else
  pgtab <- kalloc ;;
  if pgtab =? 0 then ret 0 else
  zero_page pgtab ;;;
  wr32 pde (Z.lor (Z.lor (Z.lor (V2P pgtab) PTE_P) PTE_W) PTE_U) ;;;
  ret (pgtab + 4 * PTX va).

(** The [for(;;)] of [mappages]; the fuel is the number of pages from [a] to
    [last], the way [a] gets there. *)
Fixpoint mappages_loop (fuel : nat) (pgdir a last pa perm : Z) : K Z :=
  match fuel with
  | O => diverge
  | S fuel' =>
      pte <- walkpgdir pgdir a true ;;
      if pte =? 0 then ret (-1) else
      e <- rd32 pte ;;
      if negb (Z.land e PTE_P =? 0) then panic "remap" else
      wr32 pte (Z.lor (Z.lor pa perm) PTE_P) ;;;
      if a =? last then ret 0 else
      mappages_loop fuel' pgdir (u32 (a + PGSIZE)) last (u32 (pa + PGSIZE)) perm
  end.

Definition mappages (pgdir va size pa perm : Z) : K Z :=
  let a := PGROUNDDOWN (u32 va) in
  let last := PGROUNDDOWN (u32 (u32 va + size - 1)) in
  mappages_loop (S (Z.to_nat (u32 (last - a) / PGSIZE))) pgdir a last pa perm.

(** The loop of [deallocuvm]: [a] grows by a page, or to the next page table,
    at each turn, so [oldsz / PGSIZE] turns and the last test are enough. *)
Fixpoint deallocuvm_loop (fuel : nat) (pgdir a oldsz : Z) : K unit :=
  match fuel with
  | O => diverge
  | S fuel' =>
      if a <? oldsz then
        pte <- walkpgdir pgdir a false ;;
        if pte =? 0 then
          let a := u32 (PGADDR (PDX a + 1) 0 0 - PGSIZE) in
          deallocuvm_loop fuel' pgdir (u32 (a + PGSIZE)) oldsz
        else
          e <- rd32 pte ;;
          (if negb (Z.land e PTE_P =? 0) then
             let pa := PTE_ADDR e in
             if pa =? 0 then panic "kfree" else
             kfree (P2V pa) ;;;
             wr32 pte 0
           else ret tt) ;;;
          deallocuvm_loop fuel' pgdir (u32 (a + PGSIZE)) oldsz
      else ret tt
  end.

Definition deallocuvm (pgdir oldsz newsz : Z) : K Z :=
  if oldsz <=? newsz then ret oldsz else
  deallocuvm_loop (S (Z.to_nat (oldsz / PGSIZE + 1))) pgdir (PGROUNDUP newsz) oldsz ;;;
  ret newsz.

Fixpoint allocuvm_loop (fuel : nat) (pgdir a oldsz newsz : Z) : K Z :=
  match fuel with
  | O => diverge
  | S fuel' =>
      if a <? newsz then
        m <- kalloc ;;
        if m =? 0 then
          cprint "allocuvm out of memory
" [] ;;;
          deallocuvm pgdir newsz oldsz ;;; ret 0
        else
          zero_page m ;;;
          r <- mappages pgdir a PGSIZE (V2P m) (Z.lor PTE_W PTE_U) ;;
          if r <? 0 then
            cprint "allocuvm out of memory (2)
" [] ;;;
            deallocuvm pgdir newsz oldsz ;;; kfree m ;;; ret 0
          else allocuvm_loop fuel' pgdir (u32 (a + PGSIZE)) oldsz newsz
      else ret newsz
  end.

Definition allocuvm (pgdir oldsz newsz : Z) : K Z :=
  if KERNBASE <=? newsz then ret 0 else
  if newsz <? oldsz then ret oldsz else
  allocuvm_loop (S (Z.to_nat (newsz / PGSIZE + 1))) pgdir (PGROUNDUP oldsz) oldsz newsz.

Definition freevm (pgdir : Z) : K unit :=
  if pgdir =? 0 then panic "freevm: no pgdir" else
  deallocuvm pgdir KERNBASE 0 ;;;
  for_each (seqZ 0 1024) (λ i,
    e <- rd32 (pgdir + 4 * i) ;;
    if negb (Z.land e PTE_P =? 0) then kfree (P2V (PTE_ADDR e)) else ret tt) ;;;
  kfree pgdir.

(** [struct kmap] and the table of the kernel's own mappings. *)
Record kmap_t := mkKmap { km_virt : Z; km_phys_start : Z; km_phys_end : Z; km_perm : Z }.

Definition kmap (data : Z) : list kmap_t :=
  [mkKmap KERNBASE 0 EXTMEM PTE_W;
   mkKmap KERNLINK (V2P KERNLINK) (V2P data) 0;
   mkKmap data (V2P data) PHYSTOP PTE_W;
   mkKmap DEVSPACE DEVSPACE 0 PTE_W].

Definition setupkvm : K Z :=
  pgdir <- kalloc ;;
  if pgdir =? 0 then ret 0 else
  zero_page pgdir ;;;
  if DEVSPACE <? P2V PHYSTOP then panic "PHYSTOP too high" else
  data <- gets k_data ;;
  r <- for_return (kmap data) (λ k,
         r <- mappages pgdir (km_virt k) (u32 (km_phys_end k - km_phys_start k))
                (km_phys_start k) (km_perm k) ;;
         if r <? 0 then freevm pgdir ;;; ret (Some 0) else ret None) ;;
  ret (default pgdir r).

Definition switchkvm : K unit :=
  modify (λ s, with_k_hart (with_h_cr3 (V2P (k_kpgdir s)) (k_hart s)) s).

Definition kvmalloc : K unit :=
  pgdir <- setupkvm ;;
  modify (with_k_kpgdir pgdir) ;;;
  switchkvm.

(** [SEG] and [SEG16] of mmu.h. *)
Definition SEG (type base lim dpl : Z) : segdesc :=
  mkSegdesc (Z.land (Z.shiftr lim 12) 0xffff) (Z.land (u32 base) 0xffff)
    (Z.land (Z.shiftr (u32 base) 16) 0xff) type 1 dpl 1
    (Z.shiftr (u32 lim) 28) 0 0 1 1 (Z.shiftr (u32 base) 24).
Definition SEG16 (type base lim dpl : Z) : segdesc :=
  mkSegdesc (Z.land lim 0xffff) (Z.land (u32 base) 0xffff)
    (Z.land (Z.shiftr (u32 base) 16) 0xff) type 1 dpl 1
    (Z.shiftr (u32 lim) 16) 0 0 1 0 (Z.shiftr (u32 base) 24).

Definition SEG_KCODE : nat := 1.
Definition SEG_KDATA : nat := 2.
Definition SEG_UCODE : nat := 3.
Definition SEG_UDATA : nat := 4.
Definition SEG_TSS : nat := 5.
Definition DPL_USER : Z := 3.
Definition STA_X : Z := 8.
Definition STA_W : Z := 2.
Definition STA_R : Z := 2.
Definition STS_T32A : Z := 9.

Definition upd_my_cpu (f : cpu → cpu) : K unit :=
  i <- mycpu ;;
  modify (λ s, with_k_hart (Cpu.upd_cpu i f (k_hart s)) s).

Definition seginit : K unit :=
  upd_my_cpu (λ c, with_c_gdt (<[SEG_KCODE := SEG (Z.lor STA_X STA_R) 0 0xffffffff 0]> (c_gdt c)) c) ;;;
  upd_my_cpu (λ c, with_c_gdt (<[SEG_KDATA := SEG STA_W 0 0xffffffff 0]> (c_gdt c)) c) ;;;
  upd_my_cpu (λ c, with_c_gdt (<[SEG_UCODE := SEG (Z.lor STA_X STA_R) 0 0xffffffff DPL_USER]> (c_gdt c)) c) ;;;
  upd_my_cpu (λ c, with_c_gdt (<[SEG_UDATA := SEG STA_W 0 0xffffffff DPL_USER]> (c_gdt c)) c).

(** [tsaddr]: where the linker puts the task state segment of this CPU. *)
Definition switchuvm (tsaddr : nat → Z) (p : option proc) : K unit :=
  match p with
  | None => panic "switchuvm: no process"
  | Some p =>
      if p_kstack p =? 0 then panic "switchuvm: no kstack" else
      if p_pgdir p =? 0 then panic "switchuvm: no pgdir" else
      pushcli ;;;
      i <- mycpu ;;
      upd_my_cpu (λ c, with_c_gdt (<[SEG_TSS := SEG16 STS_T32A (tsaddr i) 103 0]> (c_gdt c)) c) ;;;
      upd_my_cpu (λ c, with_c_gdt (alter (with_sd_s 0) SEG_TSS (c_gdt c)) c) ;;;
      upd_my_cpu (λ c, with_c_ts (with_ts_ss0 (Z.shiftl (Z.of_nat SEG_KDATA) 3) (c_ts c)) c) ;;;
      upd_my_cpu (λ c, with_c_ts (with_ts_esp0 (u32 (p_kstack p + KSTACKSIZE)) (c_ts c)) c) ;;;
      upd_my_cpu (λ c, with_c_ts (with_ts_iomb 0xFFFF (c_ts c)) c) ;;;
      modify (λ s, with_k_hart (with_h_tr (Z.shiftl (Z.of_nat SEG_TSS) 3) (k_hart s)) s) ;;;
      modify (λ s, with_k_hart (with_h_cr3 (V2P (p_pgdir p)) (k_hart s)) s) ;;;
      popcli
  end.

Definition inituvm (pgdir : Z) (init : list Z) : K unit :=
  if PGSIZE <=? Z.of_nat (length init) then panic "inituvm: more than a page" else
  m <- kalloc ;;
  zero_page m ;;;
  mappages pgdir 0 PGSIZE (V2P m) (Z.lor PTE_W PTE_U) ;;;
  modify (λ s, with_k_mem (store_bytes (k_mem s) m init) s).

Definition clearpteu (pgdir uva : Z) : K unit :=
  pte <- walkpgdir pgdir uva false ;;
  if pte =? 0 then panic "clearpteu" else
  e <- rd32 pte ;;
  wr32 pte (Z.land e (Z.lnot PTE_U)).

(** The loop of [copyuvm]; [false] is the jump to [bad]. *)
Fixpoint copyuvm_loop (fuel : nat) (pgdir d i sz : Z) : K bool :=
  match fuel with
  | O => diverge
  | S fuel' =>
      if i <? sz then
        pte <- walkpgdir pgdir i false ;;
        if pte =? 0 then panic "copyuvm: pte should exist" else
        e <- rd32 pte ;;
        if Z.land e PTE_P =? 0 then panic "copyuvm: page not present" else
        let pa := PTE_ADDR e in
        let flags := PTE_FLAGS e in
        m <- kalloc ;;
        if m =? 0 then ret false else
        copy_mem m (P2V pa) PGSIZE ;;;
        r <- mappages d i PGSIZE (V2P m) flags ;;
        if r <? 0 then kfree m ;;; ret false else
        copyuvm_loop fuel' pgdir d (u32 (i + PGSIZE)) sz
      else ret true
  end.

Definition copyuvm (pgdir sz : Z) : K Z :=
  d <- setupkvm ;;
  if d =? 0 then ret 0 else
  ok <- copyuvm_loop (S (Z.to_nat (sz / PGSIZE + 1))) pgdir d 0 sz ;;
  if (ok : bool) then ret d else freevm d ;;; ret 0.

(** [uva2ka] reads through the pointer [walkpgdir] returns without testing it. *)
Definition uva2ka (pgdir uva : Z) : K Z :=
  pte <- walkpgdir pgdir uva false ;;
  if pte =? 0 then deref None else
  e <- rd32 pte ;;
  if Z.land e PTE_P =? 0 then ret 0 else
  if Z.land e PTE_U =? 0 then ret 0 else
  ret (P2V (PTE_ADDR e)).

Fixpoint copyout_loop (fuel : nat) (pgdir va : Z) (buf : list Z) : K Z :=
  match fuel with
  | O => diverge
  | S fuel' =>
      let len := Z.of_nat (length buf) in
      if 0 <? len then
        let va0 := PGROUNDDOWN va in
        pa0 <- uva2ka pgdir va0 ;;
        if pa0 =? 0 then ret (-1) else
        let n := Z.min (PGSIZE - (va - va0)) len in
        modify (λ s, with_k_mem (store_bytes (k_mem s) (pa0 + (va - va0))
                                  (take (Z.to_nat n) buf)) s) ;;;
        copyout_loop fuel' pgdir (u32 (va0 + PGSIZE)) (drop (Z.to_nat n) buf)
      else ret 0
  end.

Definition copyout (pgdir va : Z) (p : list Z) : K Z :=
  copyout_loop (S (length p)) pgdir va p.

(** * Page tables as maps *)

Definition present (e : Z) : bool := negb (Z.land e PTE_P =? 0).

Definition pde_of (m : mem) (pgdir i : Z) : Z := load32 m (pgdir + 4 * i).
Definition tab_of (m : mem) (pgdir i : Z) : Z := P2V (PTE_ADDR (pde_of m pgdir i)).

(** The entry for the page of [va]; 0 where there is no page table. *)
Definition pte_of (m : mem) (pgdir va : Z) : Z :=
  if present (pde_of m pgdir (PDX va)) then load32 m (tab_of m pgdir (PDX va) + 4 * PTX va) else 0.

(** A page directory whose tables are distinct pages, none of them free. *)
Record pt_ok (s : kernel) (pgdir : Z) (L : list Z) : Prop := mkPtOk {
  pt_dir : page_ok s pgdir;
  pt_dir_used : pgdir ∉ L;
  pt_tab : ∀ i, 0 ≤ i < 1024 → present (pde_of (k_mem s) pgdir i) = true →
    page_ok s (tab_of (k_mem s) pgdir i) ∧ (tab_of (k_mem s) pgdir i ∉ L) ∧
    tab_of (k_mem s) pgdir i ≠ pgdir;
  pt_inj : ∀ i j, 0 ≤ i < 1024 → 0 ≤ j < 1024 →
    present (pde_of (k_mem s) pgdir i) = true → present (pde_of (k_mem s) pgdir j) = true →
    tab_of (k_mem s) pgdir i = tab_of (k_mem s) pgdir j → i = j;
}.
Arguments pt_dir {_ _ _} _.
Arguments pt_dir_used {_ _ _} _.
Arguments pt_tab {_ _ _} _.
Arguments pt_inj {_ _ _} _.

Lemma PDX_range va : is_u32 va → 0 ≤ PDX va < 1024.
Proof. intros H. rewrite PDX_spec by done. destruct H. zdiv. Qed.

Lemma PTX_range va : is_u32 va → 0 ≤ PTX va < 1024.
Proof. intros H. rewrite PTX_spec by done. zdiv. Qed.

Lemma same_page va va' :
  is_u32 va → is_u32 va' → PDX va = PDX va' → PTX va = PTX va' → va / 4096 = va' / 4096.
Proof.
  intros H H'. rewrite !PDX_spec, !PTX_spec by done. destruct H, H'. zdiv.
Qed.

Lemma page_indices va va' :
  is_u32 va → is_u32 va' → va / 4096 = va' / 4096 → PDX va = PDX va' ∧ PTX va = PTX va'.
Proof.
  intros H H' E. rewrite !PDX_spec, !PTX_spec by done. destruct H, H'. split; zdiv.
Qed.

(** Two words of pages: their addresses are equal or far apart. *)
Lemma word_apart p q i j :
  p mod 4096 = 0 → q mod 4096 = 0 → 0 ≤ i < 1024 → 0 ≤ j < 1024 →
  (p = q → i ≠ j) → p + 4 * i + 4 ≤ q + 4 * j ∨ q + 4 * j + 4 ≤ p + 4 * i.
Proof. intros Hp Hq Hi Hj Hne. zdiv. Qed.

(** The entry for a new page table. *)
Lemma pde_encode s p :
  page_ok s p →
  let e := u32 (Z.lor (Z.lor (Z.lor (V2P p) PTE_P) PTE_W) PTE_U) in
  present e = true ∧ P2V (PTE_ADDR e) = p.
Proof.
  intros (Hal & _ & Hr & Hp) e. unfold PGSIZE, KERNBASE, PHYSTOP in *.
  rewrite V2P_small in Hp by (unfold KERNBASE; lia). unfold KERNBASE in Hp.
  assert (Ee : e = (p - KERNBASE) + 7).
  { unfold e. rewrite V2P_small by (unfold KERNBASE; lia).
    assert (El : Z.lor (Z.lor (Z.lor (p - KERNBASE) PTE_P) PTE_W) PTE_U = Z.lor (p - KERNBASE) 7).
    { rewrite <-!Z.lor_assoc. done. }
    rewrite El. assert (Ed : Z.land (p - KERNBASE) 7 = 0).
    { change 7 with (Z.ones 3). rewrite Z.land_ones by lia. unfold KERNBASE. zdiv. }
    rewrite <-(Z.lxor_lor _ _ Ed), <-(Z.add_nocarry_lxor _ _ Ed).
    apply u32_small. unfold is_u32, KERNBASE. lia. }
  rewrite Ee. split.
  - unfold present. change PTE_P with (Z.ones 1). rewrite Z.land_ones by lia.
    unfold KERNBASE. change (2 ^ 1) with 2. apply negb_true_iff, Z.eqb_neq. zdiv.
  - rewrite PTE_ADDR_spec by (unfold is_u32, KERNBASE; lia). rewrite P2V_small; unfold KERNBASE; zdiv.
Qed.

(** * Walking the table *)

Lemma walk_present pgdir va alloc s :
  present (pde_of (k_mem s) pgdir (PDX va)) = true →
  walkpgdir pgdir va alloc s = Done (tab_of (k_mem s) pgdir (PDX va) + 4 * PTX va) s.
Proof.
  intros H. unfold walkpgdir, bind, rd32, gets. cbn [obind]. fold (pde_of (k_mem s) pgdir (PDX va)).
  unfold present in H. by rewrite H.
Qed.

Lemma walk_absent pgdir va s :
  present (pde_of (k_mem s) pgdir (PDX va)) = false → walkpgdir pgdir va false s = Done 0 s.
Proof.
  intros H. unfold walkpgdir, bind, rd32, gets. cbn [obind]. fold (pde_of (k_mem s) pgdir (PDX va)).
  unfold present in H. by rewrite H.
Qed.

Lemma walk_no_memory pgdir va s :
  kmem_ready s → kmem_inv s [] →
  present (pde_of (k_mem s) pgdir (PDX va)) = false → walkpgdir pgdir va true s = Done 0 s.
Proof.
  intros Hr Hk H. unfold walkpgdir. unfold bind at 1, rd32, gets. cbn [obind].
  fold (pde_of (k_mem s) pgdir (PDX va)). unfold present in H. rewrite H. cbn [negb].
  by erewrite bind_done by (by apply kalloc_empty).
Qed.

(** What building page tables changes: the free list, and memory in pages that
    are the directory, or tables of it afterwards. *)
Definition in_page (p x : Z) : Prop := p ≤ x < p + 4096.

Definition pt_frame (pgdir : Z) (s s' : kernel) : Prop :=
  s' = with_k_freelist (k_freelist s') (with_k_mem (k_mem s') s) ∧
  (∀ i, 0 ≤ i < 1024 → present (pde_of (k_mem s) pgdir i) = true →
     pde_of (k_mem s') pgdir i = pde_of (k_mem s) pgdir i) ∧
  ∀ x, ¬ in_page pgdir x →
    (∀ i, 0 ≤ i < 1024 → present (pde_of (k_mem s') pgdir i) = true →
       ¬ in_page (tab_of (k_mem s') pgdir i) x) → k_mem s' x = k_mem s x.

Lemma pt_frame_refl pgdir s : pt_frame pgdir s s.
Proof. split; [by destruct s|done]. Qed.

Lemma pt_frame_trans pgdir s1 s2 s3 :
  pt_frame pgdir s1 s2 → pt_frame pgdir s2 s3 → pt_frame pgdir s1 s3.
Proof.
  intros (E1 & P1 & M1) (E2 & P2 & M2). split; [|split].
  - rewrite E2, E1. done.
  - intros i Hi H. rewrite P2, P1; [done|done|done|done|]. by rewrite P1.
  - intros x Hd Ht. rewrite M2 by done. apply M1; [done|]. intros i Hi Hp.
    pose proof (P2 i Hi Hp) as E. specialize (Ht i Hi). unfold tab_of in *. rewrite E in Ht. by apply Ht.
Qed.

Lemma pt_frame_ready pgdir s s' : pt_frame pgdir s s' → kmem_ready s → kmem_ready s'.
Proof. intros (E & _) H. by rewrite E. Qed.

(** The free pages [L] that are not in [L'] have become tables. *)
Definition pt_grow (pgdir : Z) (s : kernel) (L : list Z) (s' : kernel) (L' : list Z) : Prop :=
  pt_frame pgdir s s' ∧ ∃ new, L = new ++ L' ∧
    (∀ i, 0 ≤ i < 1024 → present (pde_of (k_mem s') pgdir i) = true →
       present (pde_of (k_mem s) pgdir i) = true ∨ tab_of (k_mem s') pgdir i ∈ new) ∧
    (∀ p, p ∈ new → ∃ i, 0 ≤ i < 1024 ∧ present (pde_of (k_mem s') pgdir i) = true ∧
       tab_of (k_mem s') pgdir i = p).

Lemma pt_grow_same pgdir s L s' :
  pt_frame pgdir s s' → (∀ i, 0 ≤ i < 1024 → pde_of (k_mem s') pgdir i = pde_of (k_mem s) pgdir i) →
  pt_grow pgdir s L s' L.
Proof.
  intros F E. split; [done|]. exists []. split; [done|]. split.
  - intros i Hi. rewrite E by done. by left.
  - intros p Hp. by apply not_elem_of_nil in Hp.
Qed.

Lemma pt_grow_refl pgdir s L : pt_grow pgdir s L s L.
Proof. by apply pt_grow_same; [apply pt_frame_refl|]. Qed.

Lemma pt_grow_trans pgdir s1 L1 s2 L2 s3 L3 :
  pt_grow pgdir s1 L1 s2 L2 → pt_grow pgdir s2 L2 s3 L3 → pt_grow pgdir s1 L1 s3 L3.
Proof.
  intros (F1 & n1 & -> & A1 & B1) (F2 & n2 & -> & A2 & B2). split; [by eapply pt_frame_trans|].
  pose proof F2 as (_ & P2 & _). exists (n1 ++ n2). rewrite app_assoc. split; [done|]. split.
  - intros i Hi H. rewrite elem_of_app. destruct (A2 i Hi H) as [H2|]; [|tauto].
    assert (E : tab_of (k_mem s3) pgdir i = tab_of (k_mem s2) pgdir i) by (unfold tab_of; by rewrite P2).
    rewrite E. destruct (A1 i Hi H2); tauto.
  - intros p [Hp|Hp]%elem_of_app; [|by apply B2]. destruct (B1 p Hp) as (i & Hi & H & <-).
    exists i. unfold tab_of. by rewrite P2.
Qed.

Lemma pt_grow_ready pgdir s L s' L' : pt_grow pgdir s L s' L' → kmem_ready s → kmem_ready s'.
Proof. intros [F _]. by eapply pt_frame_ready. Qed.

(** Storing a word in a page that is not free keeps the free list. *)
Lemma kmem_inv_store s L p i v :
  kmem_inv s L → p mod 4096 = 0 → p ∉ L → 0 ≤ i < 1024 →
  kmem_inv (with_k_mem (store32 (k_mem s) (p + 4 * i) v) s) L.
Proof.
  intros (Hrep & Hnd & Hok) Hp Hin Hi. split; [|done].
  eapply free_rep_frame; [|exact Hrep]. intros q Hq. simpl. apply load_store32_ne.
  rewrite Forall_forall in Hok. destruct (Hok q Hq) as (Hal & _). unfold PGSIZE in Hal.
  assert (q ≠ p) by congruence. clear -Hp Hal Hi H. zdiv.
Qed.

(** Writing the entry of a page: that page's entry changes, no other. *)
Lemma set_pte pgdir va v s L :
  is_u32 va → pt_ok s pgdir L → kmem_inv s L →
  present (pde_of (k_mem s) pgdir (PDX va)) = true →
  let s' := with_k_mem (store32 (k_mem s) (tab_of (k_mem s) pgdir (PDX va) + 4 * PTX va) v) s in
  pt_ok s' pgdir L ∧ kmem_inv s' L ∧ pt_grow pgdir s L s' L ∧
  ∀ va', is_u32 va' → pte_of (k_mem s') pgdir va' =
    if va' / 4096 =? va / 4096 then u32 v else pte_of (k_mem s) pgdir va'.
Proof.
  intros Hva Hpt Hk Hpres s'. set (t := tab_of (k_mem s) pgdir (PDX va)) in *.
  pose proof (PDX_range va Hva) as Hd. pose proof (PTX_range va Hva) as Ht.
  destruct (pt_tab Hpt _ Hd Hpres) as ((Tal & _) & Tn & Tne). fold t in Tal, Tn, Tne.
  destruct (pt_dir Hpt) as (Dal & _). unfold PGSIZE in Tal, Dal.
  assert (Epde : ∀ i, 0 ≤ i < 1024 → pde_of (k_mem s') pgdir i = pde_of (k_mem s) pgdir i).
  { intros i Hi. unfold pde_of, s'. simpl. apply load_store32_ne.
    apply word_apart; [done|done|done|done|]. intros E. by destruct Tne. }
  assert (Etab : ∀ i, 0 ≤ i < 1024 → tab_of (k_mem s') pgdir i = tab_of (k_mem s) pgdir i).
  { intros i Hi. unfold tab_of. by rewrite Epde. }
  split; [|split; [|split]].
  - constructor.
    + apply (pt_dir Hpt).
    + apply (pt_dir_used Hpt).
    + intros i Hi. rewrite Epde, Etab by done. apply (pt_tab Hpt i Hi).
    + intros i j Hi Hj. rewrite !Epde, !Etab by done. by apply (pt_inj Hpt).
  - by apply kmem_inv_store.
  - apply pt_grow_same; [|done].
    split; [by destruct s|]. split; [by intros; apply Epde|]. intros x Hx Hnt. unfold s'. simpl.
    rewrite store32_spec. assert (Hx' : ¬ in_page t x).
    { unfold t. rewrite <-Etab by done. apply Hnt; [done|]. by rewrite Epde. }
    unfold in_page in Hx'. case_bool; [lia|done].
  - intros va' Hva'. unfold pte_of. pose proof (PDX_range va' Hva') as Hd'. pose proof (PTX_range va' Hva') as Ht'.
    rewrite Epde, Etab by done. destruct (Z.eqb_spec (va' / 4096) (va / 4096)) as [E|E].
    + destruct (page_indices va' va Hva' Hva E) as [-> ->]. rewrite Hpres. unfold s'. simpl.
      by rewrite load_store32_same.
    + destruct (present (pde_of (k_mem s) pgdir (PDX va'))) eqn:Hp'; [|done].
      unfold s'. simpl. apply load_store32_ne.
      destruct (pt_tab Hpt _ Hd' Hp') as ((Tal' & _) & _). unfold PGSIZE in Tal'.
      apply word_apart; [done|done|done|done|]. intros Et Ex. apply E.
      symmetry. apply same_page; [done|done| |done]. by apply (pt_inj Hpt).
Qed.

(** Zeroed memory reads as zero words. *)
Lemma load32_zeroed m p i :
  0 ≤ i < 1024 → load32 (mset m p 0 PGSIZE) (p + 4 * i) = 0.
Proof.
  intros Hi. unfold load32, mset, PGSIZE. by solve_ifs.
Qed.

Lemma load32_mset_ne m p c a :
  a + 4 ≤ p ∨ p + 4096 ≤ a → load32 (mset m p c PGSIZE) a = load32 m a.
Proof. intros H. unfold load32, mset, PGSIZE. by solve_ifs. Qed.

(** A new page table [p], its page zeroed and its directory entry written. *)
Section new_table.
Context (pgdir va : Z) (s : kernel) (p : Z) (L : list Z).
Context (Hva : is_u32 va) (Hk : kmem_inv s (p :: L)) (Hpt : pt_ok s pgdir (p :: L)).
Context (Habs : present (pde_of (k_mem s) pgdir (PDX va)) = false).
Let v := Z.lor (Z.lor (Z.lor (V2P p) PTE_P) PTE_W) PTE_U.
Let m' := store32 (mset (k_mem s) p 0 PGSIZE) (pgdir + 4 * PDX va) v.

Lemma table_page : page_ok s p ∧ (p ∉ L) ∧ p ≠ pgdir ∧ p mod 4096 = 0 ∧ pgdir mod 4096 = 0.
Proof.
  destruct Hk as (_ & Hnd & Hf). apply NoDup_cons in Hnd as [HpL _]. apply Forall_cons in Hf as [Hp _].
  split; [done|]. split; [done|]. split; [intros ->; apply (pt_dir_used Hpt); set_solver|].
  split; [apply Hp|apply (pt_dir Hpt)].
Qed.

Lemma table_pde i : 0 ≤ i < 1024 → pde_of m' pgdir i = if i =? PDX va then u32 v else pde_of (k_mem s) pgdir i.
Proof.
  destruct table_page as (_ & _ & Hpd & Pal & Dal). intros Hi. unfold pde_of, m'. destruct (Z.eqb_spec i (PDX va)) as [->|Hne].
  - by rewrite load_store32_same.
  - rewrite load_store32_ne by lia. apply load32_mset_ne. clear -Pal Dal Hpd Hi. zdiv.
Qed.

Lemma table_encode : present (u32 v) = true ∧ P2V (PTE_ADDR (u32 v)) = p.
Proof. apply (pde_encode s), table_page. Qed.

Lemma table_words q i :
  q mod 4096 = 0 → q ≠ p → q ≠ pgdir → 0 ≤ i < 1024 → load32 m' (q + 4 * i) = load32 (k_mem s) (q + 4 * i).
Proof.
  destruct table_page as (_ & _ & Hpd & Pal & Dal). pose proof (PDX_range va Hva).
  intros Qal Qp Qd Hi. unfold m'. rewrite load_store32_ne.
  - apply load32_mset_ne. clear -Pal Qal Qp Hi. zdiv.
  - apply word_apart; [done|done|done|done|]. congruence.
Qed.

Lemma table_entries va' : is_u32 va' → pte_of m' pgdir va' = pte_of (k_mem s) pgdir va'.
Proof.
  destruct table_page as (_ & _ & Hpd & Pal & Dal), table_encode as [He1 He2]. pose proof (PDX_range va Hva) as Hd.
  intros Hva'. pose proof (PDX_range va' Hva') as Hd'. pose proof (PTX_range va' Hva') as Ht'.
  unfold pte_of, tab_of. rewrite table_pde by done. destruct (Z.eqb_spec (PDX va') (PDX va)) as [E|E].
  - rewrite He1, He2, E, Habs. unfold m'. rewrite load_store32_ne; [by apply load32_zeroed|].
    apply word_apart; [done|done|done|done|]. congruence.
  - destruct (present (pde_of (k_mem s) pgdir (PDX va'))) eqn:Hp'; [|done].
    destruct (pt_tab Hpt _ Hd' Hp') as ((Tal & _) & Tn & Tne). fold (tab_of (k_mem s) pgdir (PDX va')).
    apply table_words; [done| |done|done]. intros Et. apply Tn. rewrite Et. set_solver.
Qed.

(** The state with the new table; [s1] is what [kalloc] leaves. *)
Context (s1 : kernel) (Hk1 : kmem_inv s1 L) (Hs1 : s1 = with_k_freelist (k_freelist s1) s).
Let s' := with_k_mem m' s1.

Lemma table_inv : kmem_inv s' L.
Proof.
  destruct table_page as (_ & HpL & _). destruct Hk1 as (Hrep & Hnd & Hok). split; [|done]. unfold s'. simpl.
  eapply free_rep_frame; [|exact Hrep]. intros q Hq. rewrite Forall_forall in Hok.
  destruct (Hok q Hq) as (Qal & _). rewrite <-(Z.add_0_r q). change 0 with (4 * 0).
  rewrite table_words; [by rewrite Hs1|done|by intros ->| |lia]. intros ->. apply (pt_dir_used Hpt). set_solver.
Qed.

Lemma table_pt : pt_ok s' pgdir L.
Proof.
  destruct table_page as (Hp & HpL & Hpd & _), table_encode as [_ He]. constructor.
  - unfold s'. rewrite Hs1. apply (pt_dir Hpt).
  - intros H. apply (pt_dir_used Hpt). set_solver.
  - intros i Hi. unfold s', tab_of. simpl. rewrite table_pde by done. destruct (Z.eqb_spec i (PDX va)) as [->|Hne].
    + intros _. rewrite He, Hs1. split; [done|]. split; [done|done].
    + intros Hpi. destruct (pt_tab Hpt i Hi Hpi) as (H1 & H2 & H3). rewrite Hs1. split; [done|]. split; [set_solver|done].
  - assert (Hnew : ∀ j, 0 ≤ j < 1024 → present (pde_of (k_mem s) pgdir j) = true → P2V (PTE_ADDR (pde_of (k_mem s) pgdir j)) ≠ p).
    { intros j Hj Hpj E. destruct (pt_tab Hpt j Hj Hpj) as (_ & H2 & _). destruct H2. unfold tab_of. rewrite E. set_solver. }
    intros i j Hi Hj. unfold s', tab_of. simpl. rewrite !table_pde by done.
    destruct (Z.eqb_spec i (PDX va)) as [Ei|Ei], (Z.eqb_spec j (PDX va)) as [Ej|Ej]; rewrite ?He.
    + congruence.
    + intros _ Hpj E. by destruct (Hnew j Hj Hpj).
    + intros Hpi _ E. by destruct (Hnew i Hi Hpi).
    + apply (pt_inj Hpt i j Hi Hj).
Qed.

Lemma table_grow : pt_grow pgdir s (p :: L) s' L.
Proof.
  pose proof (PDX_range va Hva) as Hd. destruct table_encode as [He1 He2].
  split; [split; [unfold s'; rewrite Hs1; by destruct s|split]|].
  - intros i Hi Hpi. unfold s'. simpl. rewrite table_pde by done. destruct (Z.eqb_spec i (PDX va)) as [->|]; [congruence|done].
  - intros x Hx Hnt. assert (Hxp : ¬ in_page p x).
    { intros Hin. apply (Hnt (PDX va) Hd); unfold s', tab_of; simpl; by rewrite table_pde, Z.eqb_refl, ?He2 by done. }
    unfold s'. simpl. unfold m'. rewrite store32_spec. unfold in_page in *. case_bool; [lia|].
    unfold mset, PGSIZE. case_bool; [lia|done].
  - exists [p]. split; [done|]. unfold s', tab_of. simpl. split.
    + intros i Hi. rewrite table_pde by done. destruct (Z.eqb_spec i (PDX va)); [|by left].
      right. rewrite He2. by apply list_elem_of_singleton.
    + intros q ->%list_elem_of_singleton. exists (PDX va). by rewrite table_pde, Z.eqb_refl.
Qed.

End new_table.

(** A new page table: every entry keeps its value. *)
Lemma walk_alloc pgdir va s p L :
  is_u32 va → kmem_ready s → kmem_inv s (p :: L) → pt_ok s pgdir (p :: L) →
  present (pde_of (k_mem s) pgdir (PDX va)) = false →
  ∃ s', walkpgdir pgdir va true s = Done (p + 4 * PTX va) s' ∧
    kmem_inv s' L ∧ pt_ok s' pgdir L ∧ pt_grow pgdir s (p :: L) s' L ∧
    present (pde_of (k_mem s') pgdir (PDX va)) = true ∧ tab_of (k_mem s') pgdir (PDX va) = p ∧
    ∀ va', is_u32 va' → pte_of (k_mem s') pgdir va' = pte_of (k_mem s) pgdir va'.
Proof.
  intros Hva Hr Hk Hpt Habs. pose proof (PDX_range va Hva) as Hd.
  destruct (kalloc_cons s p L Hr Hk) as (s1 & E1 & Hk1 & Hs1).
  destruct (table_page pgdir va s p L) as ((_ & _ & Hrange & _) & _); try done. unfold KERNBASE in Hrange.
  destruct (table_encode pgdir va s p L) as [He1 He2]; try done.
  eexists. split; [|split; [by apply (table_inv pgdir va s p)|split; [by apply (table_pt pgdir va s p)|split; [by apply (table_grow pgdir va s p)|]]]].
  - unfold walkpgdir. unfold bind at 1, rd32, gets. cbn [obind].
    fold (pde_of (k_mem s) pgdir (PDX va)). unfold present in Habs. rewrite Habs. cbn [negb].
    erewrite bind_done by exact E1. rewrite (proj2 (Z.eqb_neq p 0)) by lia.
    unfold bind, zero_page, wr32, modify. cbn [obind]. unfold ret. by rewrite Hs1.
  - unfold tab_of. cbn [k_mem with_k_mem]. rewrite (table_pde pgdir va s p L), Z.eqb_refl by done.
    split; [done|]. split; [done|]. intros va' Hva'. by apply (table_entries pgdir va s p L).
Qed.

(** [walkpgdir] with [alloc]: out of memory, or the address of the entry; all
    entries keep their values. *)
Lemma walk_true pgdir va s L :
  is_u32 va → kmem_ready s → kmem_inv s L → pt_ok s pgdir L →
  ∃ r s' L', walkpgdir pgdir va true s = Done r s' ∧
    kmem_inv s' L' ∧ pt_ok s' pgdir L' ∧ pt_grow pgdir s L s' L' ∧
    (∀ va', is_u32 va' → pte_of (k_mem s') pgdir va' = pte_of (k_mem s) pgdir va') ∧
    (r = 0 ∧ L' = [] ∨
     r ≠ 0 ∧ present (pde_of (k_mem s') pgdir (PDX va)) = true ∧
     r = tab_of (k_mem s') pgdir (PDX va) + 4 * PTX va).
Proof.
  intros Hva Hr Hk Hpt. pose proof (PDX_range va Hva) as Hd. pose proof (PTX_range va Hva) as Ht.
  assert (Hnz : ∀ s' L', pt_ok s' pgdir L' → present (pde_of (k_mem s') pgdir (PDX va)) = true →
    tab_of (k_mem s') pgdir (PDX va) + 4 * PTX va ≠ 0).
  { intros s' L' Hpt' Hp. destruct (pt_tab Hpt' _ Hd Hp) as ((_ & _ & Hrg & _) & _).
    unfold KERNBASE in Hrg. lia. }
  destruct (present (pde_of (k_mem s) pgdir (PDX va))) eqn:Hp.
  - eexists _, s, L. split; [by apply walk_present|]. do 2 (split; [done|]).
    split; [apply pt_grow_refl|]. split; [done|]. right. split; [by eapply Hnz|done].
  - destruct L as [|p L].
    + exists 0, s, []. split; [by apply walk_no_memory|]. do 2 (split; [done|]).
      split; [apply pt_grow_refl|]. split; [done|]. by left.
    + destruct (walk_alloc pgdir va s p L) as (s' & E & Hk' & Hpt' & F & Hp' & Et & Hv); try done.
      eexists _, s', L. split; [exact E|]. do 4 (split; [done|]). right. rewrite <-Et.
      split; [by eapply Hnz|done].
Qed.

(** The entry [mappages] writes for the page of [va]. *)
Definition mapped (a pa perm va : Z) : Z :=
  u32 (Z.lor (Z.lor (u32 (pa + (va / 4096 - a / 4096) * 4096)) perm) PTE_P).

(** The entries after mapping [n] pages from [a] on. *)
Definition maps_pages (pgdir : Z) (m m' : mem) (a n pa perm : Z) : Prop :=
  ∀ va, is_u32 va → pte_of m' pgdir va =
    if (a / 4096 <=? va / 4096) && (va / 4096 <? a / 4096 + n) then mapped a pa perm va
    else pte_of m pgdir va.

(** One turn of the loop, before [rest]. *)
Lemma map_step pgdir a pa perm s L (rest : K Z) :
  is_u32 a → is_u32 pa → kmem_ready s → kmem_inv s L → pt_ok s pgdir L →
  present (pte_of (k_mem s) pgdir a) = false →
  ∃ s1 L1 k, kmem_inv s1 L1 ∧ pt_ok s1 pgdir L1 ∧ pt_grow pgdir s L s1 L1 ∧
    maps_pages pgdir (k_mem s) (k_mem s1) a k pa perm ∧
    let r := (pte <- walkpgdir pgdir a true ;;
      if pte =? 0 then ret (-1) else
      e <- rd32 pte ;;
      if negb (Z.land e PTE_P =? 0) then panic "remap" else
      wr32 pte (Z.lor (Z.lor pa perm) PTE_P) ;;; rest) s in
    (r = Done (-1) s1 ∧ L1 = [] ∧ k = 0 ∨ r = rest s1 ∧ k = 1).
Proof.
  intros Hva Hpa Hr Hk Hpt Hfree.
  destruct (walk_true pgdir a s L Hva Hr Hk Hpt) as (r & s1 & L1 & E1 & Hk1 & Hpt1 & F1 & Hv1 & Hcase).
  erewrite bind_done by exact E1. destruct Hcase as [[-> ->]|(Hrn & Hp1 & ->)].
  - exists s1, [], 0. do 3 (split; [done|]). split; [|by left].
    intros va Hu. rewrite Hv1 by done. case_bool; [lia|done].
  - destruct (set_pte pgdir a (Z.lor (Z.lor pa perm) PTE_P) s1 L1 Hva Hpt1 Hk1 Hp1)
      as (Hpt2 & Hk2 & F2 & Hv2).
    eexists _, L1, 1. split; [exact Hk2|]. split; [exact Hpt2|].
    split; [by eapply pt_grow_trans|]. split.
    + intros va Hu. rewrite Hv2, Hv1 by done.
      destruct (Z.eqb_spec (va / 4096) (a / 4096)) as [E|E]; case_bool; try (done || lia).
      unfold mapped. rewrite E, Z.sub_diag, Z.mul_0_l, Z.add_0_r, (u32_small pa) by done. done.
    + right. split; [|done]. rewrite (proj2 (Z.eqb_neq _ 0)) by done.
      unfold bind at 1, rd32, gets. cbn [obind]. rewrite <-Hv1 in Hfree by done.
      unfold pte_of in Hfree. rewrite Hp1 in Hfree. unfold present in Hfree. rewrite Hfree. by erewrite bind_done by done.
Qed.

(** Mapping one page and then [n] more. *)
Lemma maps_pages_cons pgdir m m1 m2 a n pa perm :
  a mod 4096 = 0 → 0 ≤ n →
  maps_pages pgdir m m1 a 1 pa perm → maps_pages pgdir m1 m2 (a + 4096) n (u32 (pa + 4096)) perm →
  maps_pages pgdir m m2 a (n + 1) pa perm.
Proof.
  intros Hal Hn H1 H2 va Hu. rewrite H2, H1 by done.
  assert (Edv : (a + 4096) / 4096 = a / 4096 + 1) by zdiv.
  assert (Emap : mapped (a + 4096) (u32 (pa + 4096)) perm va = mapped a pa perm va).
  { unfold mapped. rewrite Edv, u32_add_l. do 4 f_equal. lia. }
  rewrite Emap, Edv. repeat case_bool; (done || lia).
Qed.

Lemma mappages_loop_spec pgdir perm n a pa s L fuel :
  a mod 4096 = 0 → 0 ≤ a → a + 4096 * Z.of_nat n < 4294967296 → (n < fuel)%nat → is_u32 pa →
  kmem_ready s → kmem_inv s L → pt_ok s pgdir L →
  (∀ va, is_u32 va → a / 4096 ≤ va / 4096 ≤ a / 4096 + Z.of_nat n →
     present (pte_of (k_mem s) pgdir va) = false) →
  ∃ r s' L' k, mappages_loop fuel pgdir a (a + 4096 * Z.of_nat n) pa perm s = Done r s' ∧
    kmem_inv s' L' ∧ pt_ok s' pgdir L' ∧ pt_grow pgdir s L s' L' ∧
    maps_pages pgdir (k_mem s) (k_mem s') a k pa perm ∧
    (r = 0 ∧ k = Z.of_nat n + 1 ∨ r = -1 ∧ L' = [] ∧ 0 ≤ k ≤ Z.of_nat n).
Proof.
  revert a pa s L fuel. induction n as [|n IH]; intros a pa s L fuel Hal H0 Hmax Hfuel Hpa Hr Hk Hpt Hfree;
    (destruct fuel as [|fuel]; [lia|]); cbn [mappages_loop].
  all: assert (Hva : is_u32 a) by (unfold is_u32; lia).
  all: match goal with |- context [wr32 _ _ ;;; ?r] =>
    destruct (map_step pgdir a pa perm s L r Hva Hpa Hr Hk Hpt (Hfree a Hva ltac:(lia)))
      as (s1 & L1 & k & Hk1 & Hpt1 & F1 & Hm1 & [(-> & -> & ->)|(-> & ->)]) end.
  1,3: exists (-1), s1, [], 0; do 5 (split; [done|]); right; split; [done|]; split; [done|lia].
  - rewrite Z.mul_0_r, Z.add_0_r, Z.eqb_refl. exists 0, s1, L1, 1. do 5 (split; [done|]). by left.
  - rewrite (proj2 (Z.eqb_neq a _)) by lia. unfold PGSIZE.
    rewrite (u32_small (a + 4096)) by (unfold is_u32; lia).
    replace (a + 4096 * Z.of_nat (S n)) with (a + 4096 + 4096 * Z.of_nat n) by lia.
    destruct (IH (a + 4096) (u32 (pa + 4096)) s1 L1 fuel) as (r' & s' & L' & k & E' & Hk' & Hpt' & F' & Hm' & Hr');
      try done; try lia; try zdiv; eauto with kernel.
    + by eapply pt_grow_ready.
    + intros va Hu Hin. rewrite Hm1 by done. assert ((a + 4096) / 4096 = a / 4096 + 1) by zdiv.
      case_bool; [lia|]. apply Hfree; [done|lia].
    + exists r', s', L', (k + 1). do 3 (split; [done|]).
      split; [by eapply pt_grow_trans|]. split.
      * eapply maps_pages_cons; [done| |done|done]. destruct Hr' as [[_ ->]|(_ & _ & ?)]; lia.
      * destruct Hr' as [[-> ->]|(-> & -> & ?)]; [left|right]; (split; [done|]); [lia|]. split; [done|lia].
Qed.

(** * Theorems *)

Lemma mappages_bounds va size :
  0 ≤ va → 1 ≤ size → va + size - 1 < 4294967296 →
  let n := Z.to_nat ((va + size - 1) / 4096 - va / 4096) in
  PGROUNDDOWN (u32 va) = va - va mod 4096 ∧
  PGROUNDDOWN (u32 (u32 va + size - 1)) = va - va mod 4096 + 4096 * Z.of_nat n ∧
  Z.to_nat (u32 (PGROUNDDOWN (u32 (u32 va + size - 1)) - PGROUNDDOWN (u32 va)) / PGSIZE) = n.
Proof.
  intros H0 H1 H2 n. assert (Hn : Z.of_nat n = (va + size - 1) / 4096 - va / 4096) by (subst n; zdiv).
  rewrite (u32_small va) by (unfold is_u32; lia).
  rewrite (u32_small (va + size - 1)) by (unfold is_u32; lia). rewrite !PGROUNDDOWN_spec.
  assert (E : va + size - 1 - (va + size - 1) mod 4096 = va - va mod 4096 + 4096 * Z.of_nat n) by (rewrite Hn; zdiv).
  split; [done|]. split; [done|]. rewrite E.
  replace (va - va mod 4096 + 4096 * Z.of_nat n - (va - va mod 4096)) with (Z.of_nat n * PGSIZE)
    by (unfold PGSIZE; lia).
  rewrite u32_small by (unfold is_u32, PGSIZE; zdiv). rewrite Z.div_mul by (unfold PGSIZE; lia). lia.
Qed.

(** [mappages], on pages that are not mapped. *)
Lemma mappages_spec pgdir va size pa perm s L :
  0 ≤ va → 1 ≤ size → va + size - 1 < 4294967296 → is_u32 pa →
  kmem_ready s → kmem_inv s L → pt_ok s pgdir L →
  (∀ x, is_u32 x → va / 4096 ≤ x / 4096 ≤ (va + size - 1) / 4096 →
     present (pte_of (k_mem s) pgdir x) = false) →
  ∃ r s' L' k, mappages pgdir va size pa perm s = Done r s' ∧
    kmem_inv s' L' ∧ pt_ok s' pgdir L' ∧ pt_grow pgdir s L s' L' ∧
    maps_pages pgdir (k_mem s) (k_mem s') va k pa perm ∧
    (r = 0 ∧ k = (va + size - 1) / 4096 - va / 4096 + 1 ∨
     r = -1 ∧ L' = [] ∧ 0 ≤ k ≤ (va + size - 1) / 4096 - va / 4096).
Proof.
  intros H0 H1 H2 Hpa Hr Hk Hpt Hfree.
  destruct (mappages_bounds va size H0 H1 H2) as (Ea & Elast & Ef). unfold mappages.
  set (n := Z.to_nat ((va + size - 1) / 4096 - va / 4096)) in *. rewrite Ef, Elast, Ea.
  set (a := va - va mod 4096).
  assert (Edv : a / 4096 = va / 4096) by (subst a; zdiv).
  assert (Hn : Z.of_nat n = (va + size - 1) / 4096 - va / 4096) by (subst n; zdiv).
  destruct (mappages_loop_spec pgdir perm n a pa s L (S n)) as (r & s' & L' & k & E & Hk' & Hpt' & F & Hm & Hc);
    try done; try (subst a; zdiv).
  - rewrite Edv. intros x Hu Hx. apply Hfree; [done|]. lia.
  - exists r, s', L', k. split; [exact E|]. do 3 (split; [done|]). rewrite <-Hn.
    split; [|done]. unfold maps_pages, mapped in *. by rewrite <-Edv.
Qed.

(** [mappages] installs a mapping.  On a page table in which no page of the
    range is mapped it returns; when it returns 0, the entry of each page of
    the range is the physical page in order, with the permissions and
    [PTE_P], and the entry of every other address is unchanged; when it
    returns -1, memory is exhausted and a prefix of the range is mapped.
    Memory outside the directory and its tables is untouched, the pages taken
    from the free list have become tables, and the page table stays well
    formed. *)
Theorem mappages_maps pgdir va size pa perm s L :
  0 ≤ va → 1 ≤ size → va + size - 1 < 4294967296 → is_u32 pa →
  kmem_ready s → kmem_inv s L → pt_ok s pgdir L →
  (∀ x, is_u32 x → va / 4096 ≤ x / 4096 ≤ (va + size - 1) / 4096 →
     present (pte_of (k_mem s) pgdir x) = false) →
  ∃ r s' L' k, mappages pgdir va size pa perm s = Done r s' ∧
    kmem_inv s' L' ∧ pt_ok s' pgdir L' ∧ pt_grow pgdir s L s' L' ∧
    (∀ x, is_u32 x → pte_of (k_mem s') pgdir x =
       if (va / 4096 <=? x / 4096) && (x / 4096 <? va / 4096 + k)
       then u32 (Z.lor (Z.lor (u32 (pa + (x / 4096 - va / 4096) * 4096)) perm) PTE_P)
       else pte_of (k_mem s) pgdir x) ∧
    (r = 0 ∧ k = (va + size - 1) / 4096 - va / 4096 + 1 ∨
     r = -1 ∧ L' = [] ∧ 0 ≤ k ≤ (va + size - 1) / 4096 - va / 4096).
Proof. apply mappages_spec. Qed.

(** [mappages] refuses to replace a mapping: if the first page of the range
    is already mapped it panics with "remap". *)
Theorem mappages_remap_panics pgdir va size pa perm s L :
  0 ≤ va → 1 ≤ size → va + size - 1 < 4294967296 → pt_ok s pgdir L →
  present (pte_of (k_mem s) pgdir va) = true →
  mappages pgdir va size pa perm s = Panicked "remap".
Proof.
  intros H0 H1 H2 Hpt Hp. destruct (mappages_bounds va size H0 H1 H2) as (Ea & Elast & Ef).
  unfold mappages. rewrite Ef, Elast, Ea. set (a := va - va mod 4096).
  assert (Hu : is_u32 va) by (unfold is_u32; lia).
  assert (Hua : is_u32 a) by (unfold is_u32; subst a; zdiv).
  assert (Hpde : present (pde_of (k_mem s) pgdir (PDX va)) = true).
  { unfold pte_of in Hp. by destruct (present (pde_of (k_mem s) pgdir (PDX va))). }
  destruct (page_indices a va Hua Hu) as [Ed Et]; [subst a; zdiv|].
  cbn [mappages_loop]. erewrite bind_done by (apply walk_present; by rewrite Ed). rewrite Ed, Et.
  pose proof (PDX_range va Hu) as Hd. pose proof (PTX_range va Hu) as Ht.
  destruct (pt_tab Hpt _ Hd Hpde) as ((_ & _ & Hrg & _) & _). unfold KERNBASE in Hrg.
  rewrite (proj2 (Z.eqb_neq _ 0)) by lia. unfold bind at 1, rd32, gets. cbn [obind].
  unfold pte_of in Hp. rewrite Hpde in Hp. unfold present in Hp. by rewrite Hp.
Qed.

(** [uva2ka] does not test what [walkpgdir] returns: for an address in a
    4 MB region without a page table it reads through a null pointer, where the
    model stops. *)
Theorem uva2ka_null_deref pgdir va s :
  present (pde_of (k_mem s) pgdir (PDX va)) = false →
  uva2ka pgdir va s = Panicked "page fault".
Proof.
  intros H. unfold uva2ka. by erewrite bind_done by (by apply walk_absent).
Qed.

(** ** Witnesses *)

(** One free page, and an empty page directory. *)
Definition demo_vm : kernel := with_k_freelist (KERNBASE + 0x301000) demo_kernel.
Definition demo_pgdir : Z := KERNBASE + 0x300000.

Lemma demo_vm_inv : kmem_inv demo_vm [KERNBASE + 0x301000].
Proof. split; [done|]. split; [apply NoDup_singleton|]. repeat constructor; by vm_compute. Qed.

Lemma demo_vm_absent i : present (pde_of (k_mem demo_vm) demo_pgdir i) = false.
Proof. done. Qed.

Lemma demo_vm_pt : pt_ok demo_vm demo_pgdir [KERNBASE + 0x301000].
Proof.
  constructor.
  - by vm_compute.
  - intros H. apply list_elem_of_singleton in H. by vm_compute in H.
  - intros i _ H. by rewrite demo_vm_absent in H.
  - intros i j _ _ H. by rewrite demo_vm_absent in H.
Qed.

Lemma mappages_maps_witness :
  ∃ r s' L' k, mappages demo_pgdir 0 4096 0x400000 6 demo_vm = Done r s' ∧
    kmem_inv s' L' ∧ pt_ok s' demo_pgdir L' ∧ pt_grow demo_pgdir demo_vm [KERNBASE + 0x301000] s' L' ∧
    (∀ x, is_u32 x → pte_of (k_mem s') demo_pgdir x =
       if (0 / 4096 <=? x / 4096) && (x / 4096 <? 0 / 4096 + k)
       then u32 (Z.lor (Z.lor (u32 (0x400000 + (x / 4096 - 0 / 4096) * 4096)) 6) PTE_P)
       else pte_of (k_mem demo_vm) demo_pgdir x) ∧
    (r = 0 ∧ k = (0 + 4096 - 1) / 4096 - 0 / 4096 + 1 ∨
     r = -1 ∧ L' = [] ∧ 0 ≤ k ≤ (0 + 4096 - 1) / 4096 - 0 / 4096).
Proof.
  apply (mappages_maps demo_pgdir 0 4096 0x400000 6 demo_vm [KERNBASE + 0x301000]); try lia.
  - unfold is_u32. lia.
  - intros H. discriminate H.
  - exact demo_vm_inv.
  - exact demo_vm_pt.
  - intros x _ _. reflexivity.
Defined.

(** A directory whose first table maps address 0. *)
Definition demo_vm_mapped : kernel :=
  with_k_mem (store32 (store32 (λ _, 0) demo_pgdir 0x301007) (KERNBASE + 0x301000) 0x400007) demo_kernel.

Lemma demo_vm_mapped_pde i :
  0 ≤ i < 1024 → present (pde_of (k_mem demo_vm_mapped) demo_pgdir i) = true → i = 0.
Proof.
  intros Hi H. destruct (decide (i = 0)); [done|]. unfold pde_of, demo_vm_mapped in H.
  cbn [k_mem with_k_mem] in H. rewrite !load_store32_ne in H by (unfold demo_pgdir, KERNBASE; lia). done.
Qed.

Lemma demo_vm_mapped_pt : pt_ok demo_vm_mapped demo_pgdir [].
Proof.
  constructor.
  - by vm_compute.
  - apply not_elem_of_nil.
  - intros i Hi H. apply demo_vm_mapped_pde in H as ->; [|done].
    split; [by vm_compute|]. split; [apply not_elem_of_nil|by vm_compute].
  - intros i j Hi Hj Pi Pj _. apply demo_vm_mapped_pde in Pi as ->; [|done].
    by apply demo_vm_mapped_pde in Pj as ->.
Qed.

Lemma mappages_remap_panics_witness :
  mappages demo_pgdir 0 4096 0x500000 6 demo_vm_mapped = Panicked "remap".
Proof.
  apply (mappages_remap_panics demo_pgdir 0 4096 0x500000 6 demo_vm_mapped []); try lia.
  - exact demo_vm_mapped_pt.
  - vm_compute. reflexivity.
Defined.

Lemma uva2ka_null_deref_witness : uva2ka demo_pgdir 0x1000 demo_vm = Panicked "page fault".
Proof. apply (uva2ka_null_deref demo_pgdir 0x1000 demo_vm). reflexivity. Defined.
