(* ===== verification/Uvm.v ===== *)
(** Address spaces: what vm.c promises about user memory.

    An address space is a page directory with its page tables and user pages.
    [owns] are the pages it is made of, [uvm] says that they are distinct and
    that none is free.  Every operation keeps [uvm], changes no memory but that of
    the pages of the space and of free pages, and neither loses nor takes a page
    ([vframe]); on top of that [allocuvm], [deallocuvm] and [freevm] have the effect
    their names say. *)

From S2P Require Import Prelude State Spinlock Cprintf CString Mmu Kalloc Vm.
Import KLock.

(** * Pages *)

(** The page of an address. *)
Definition pg (x : Z) : Z := x - x mod 4096.

Lemma pg_in_page p x : p mod 4096 = 0 → in_page p x ↔ pg x = p.
Proof. intros H. unfold in_page, pg. zdiv. Qed.

Lemma pg_word p i k : p mod 4096 = 0 → 0 ≤ i < 1024 → 0 ≤ k < 4 → pg (p + 4 * i + k) = p.
Proof. intros. unfold pg. zdiv. Qed.

Lemma pg_offset p x : p mod 4096 = 0 → pg (p + x mod 4096) = p.
Proof. intros. unfold pg. zdiv. Qed.

Lemma load32_page m m' p i :
  p mod 4096 = 0 → 0 ≤ i < 1024 → (∀ x, pg x = p → m' x = m x) → load32 m' (p + 4 * i) = load32 m (p + 4 * i).
Proof.
  intros Hp Hi H. unfold load32. rewrite <-(Z.add_0_r (p + 4 * i)) at 1 5.
  by rewrite !H by (apply pg_word; (done || lia)).
Qed.

(** * Address spaces *)

(** User pages are numbered from 0; the kernel starts at [NUSER]. *)
Definition NUSER : Z := KERNBASE / 4096.

Definition upte (m : mem) (pgdir v : Z) : Z := pte_of m pgdir (4096 * v).
Definition upa (m : mem) (pgdir v : Z) : Z := P2V (PTE_ADDR (upte m pgdir v)).

Definition is_meta (m : mem) (pgdir p : Z) : Prop :=
  p = pgdir ∨ ∃ i, 0 ≤ i < 1024 ∧ present (pde_of m pgdir i) = true ∧ tab_of m pgdir i = p.
Definition is_user (m : mem) (pgdir p : Z) : Prop :=
  ∃ v, 0 ≤ v < NUSER ∧ present (upte m pgdir v) = true ∧ upa m pgdir v = p.
Definition owns (m : mem) (pgdir p : Z) : Prop := is_meta m pgdir p ∨ is_user m pgdir p.

Record uvm (s : kernel) (pgdir : Z) (L : list Z) : Prop := mkUvm {
  uv_pt : pt_ok s pgdir L;
  uv_page : ∀ p, is_user (k_mem s) pgdir p → page_ok s p ∧ (p ∉ L) ∧ ¬ is_meta (k_mem s) pgdir p;
  uv_inj : ∀ v w, 0 ≤ v < NUSER → 0 ≤ w < NUSER →
    present (upte (k_mem s) pgdir v) = true → present (upte (k_mem s) pgdir w) = true →
    upa (k_mem s) pgdir v = upa (k_mem s) pgdir w → v = w;
}.
Arguments uv_pt {_ _ _} _.
Arguments uv_page {_ _ _} _.
Arguments uv_inj {_ _ _} _.

(** The pages [0 .. n-1] are mapped, and no other user page. *)
Definition mapped_upto (m : mem) (pgdir n : Z) : Prop :=
  ∀ v, 0 ≤ v < NUSER → present (upte m pgdir v) = (v <? n).

(** The byte at a user address. *)
Definition ubyte (m : mem) (pgdir va : Z) : Z := m (upa m pgdir (va / 4096) + va mod 4096).

Lemma is_meta_ok s pgdir L p : pt_ok s pgdir L → is_meta (k_mem s) pgdir p → page_ok s p ∧ (p ∉ L).
Proof.
  intros Hpt [->|(i & Hi & Hp & <-)]; [split; [apply (pt_dir Hpt)|apply (pt_dir_used Hpt)]|].
  destruct (pt_tab Hpt i Hi Hp) as (? & ? & ?). done.
Qed.

Lemma owns_ok s pgdir L p : uvm s pgdir L → owns (k_mem s) pgdir p → page_ok s p ∧ (p ∉ L).
Proof.
  intros H [Hp|Hp]; [by eapply is_meta_ok; [apply (uv_pt H)|]|]. destruct (uv_page H p Hp) as (? & ? & ?). done.
Qed.

(** Pages of one space: the directory, at most 1024 tables, and the user pages. *)
Lemma owned_bound m d v l :
  NoDup l → (∀ p, p ∈ l → owns m d p) → mapped_upto m d v → 0 ≤ v → Z.of_nat (length l) ≤ 1025 + v.
Proof.
  intros Hnd Ho Hm Hv.
  assert (Hsub : l ⊆+ d :: (tab_of m d <$> seqZ 0 1024) ++ (upa m d <$> seqZ 0 v)).
  { apply NoDup_submseteq; [done|]. intros p Hp. rewrite elem_of_cons, elem_of_app, !list_elem_of_fmap.
    destruct (Ho p Hp) as [[->|(i & Hi & _ & <-)]|(w & Hw & Hpw & <-)]; [by left|right; left|right; right].
    - exists i. split; [done|]. apply elem_of_seqZ. lia.
    - exists w. split; [done|]. apply elem_of_seqZ. rewrite Hm in Hpw by done. apply Z.ltb_lt in Hpw. lia. }
  apply submseteq_length in Hsub. cbn [length] in Hsub. rewrite length_app, !length_fmap, !length_seqZ in Hsub. lia.
Qed.

Lemma is_u32_page v : 0 ≤ v < 1048576 → is_u32 (4096 * v).
Proof. unfold is_u32. lia. Qed.

Lemma NUSER_lt v : v < NUSER → v < 1048576.
Proof. unfold NUSER, KERNBASE. change (2147483648 / 4096) with 524288. lia. Qed.

(** Entries in the same page are the same. *)
Lemma pte_of_page m pgdir va : is_u32 va → pte_of m pgdir va = upte m pgdir (va / 4096).
Proof.
  intros H. assert (H' : is_u32 (4096 * (va / 4096))) by (unfold is_u32 in *; zdiv).
  destruct (page_indices va (4096 * (va / 4096)) H H') as [E1 E2]; [zdiv|].
  unfold upte, pte_of. by rewrite E1, E2.
Qed.

(** ** Memory outside an address space *)

(** The directory and the tables are the same in [m']. *)
Lemma meta_same s pgdir L m' :
  pt_ok s pgdir L → (∀ x, is_meta (k_mem s) pgdir (pg x) → m' x = k_mem s x) →
  (∀ i, 0 ≤ i < 1024 → pde_of m' pgdir i = pde_of (k_mem s) pgdir i) ∧
  (∀ va, is_u32 va → pte_of m' pgdir va = pte_of (k_mem s) pgdir va).
Proof.
  intros Hpt Hm. assert (Ed : ∀ i, 0 ≤ i < 1024 → pde_of m' pgdir i = pde_of (k_mem s) pgdir i).
  { intros i Hi. apply load32_page; [apply (pt_dir Hpt)|done|]. intros x Hx. apply Hm. by left. }
  split; [done|]. intros va Hva. pose proof (PDX_range va Hva) as Hd. unfold pte_of, tab_of.
  rewrite Ed by done. destruct (present (pde_of (k_mem s) pgdir (PDX va))) eqn:Hp; [|done].
  destruct (pt_tab Hpt _ Hd Hp) as ((Hal & _) & _). fold (tab_of (k_mem s) pgdir (PDX va)).
  apply load32_page; [exact Hal|by apply PTX_range|]. intros x Hx. apply Hm. right. by exists (PDX va).
Qed.

(** Address spaces whose entries are the same own the same pages. *)
Lemma same_owns m m' pgdir :
  (∀ i, 0 ≤ i < 1024 → pde_of m' pgdir i = pde_of m pgdir i) →
  (∀ va, is_u32 va → pte_of m' pgdir va = pte_of m pgdir va) →
  (∀ p, is_meta m' pgdir p ↔ is_meta m pgdir p) ∧ (∀ p, is_user m' pgdir p ↔ is_user m pgdir p).
Proof.
  intros Hd Hp. split.
  - intros p. unfold is_meta. apply or_iff_compat_l.
    split; intros (i & Hi & H); exists i; unfold tab_of in *; rewrite Hd in *; done.
  - intros p. unfold is_user. split; intros (v & Hv & H); exists v;
      unfold upa, upte in *; rewrite Hp in * by (apply is_u32_page; pose proof (NUSER_lt v); lia); done.
Qed.

Definition same_entries (pgdir : Z) (m m' : mem) : Prop :=
  (∀ i, 0 ≤ i < 1024 → pde_of m' pgdir i = pde_of m pgdir i) ∧
  (∀ va, is_u32 va → pte_of m' pgdir va = pte_of m pgdir va).

Lemma same_entries_upte pgdir m m' v :
  same_entries pgdir m m' → 0 ≤ v < NUSER → upte m' pgdir v = upte m pgdir v.
Proof. intros [_ H] Hv. apply H, is_u32_page. pose proof (NUSER_lt v). lia. Qed.

Lemma same_entries_at pgdir m m' v :
  same_entries pgdir m m' → 0 ≤ v < 1048576 → upte m' pgdir v = upte m pgdir v.
Proof. intros [_ H] Hv. by apply H, is_u32_page. Qed.

Lemma same_entries_owns pgdir m m' p : same_entries pgdir m m' → owns m' pgdir p ↔ owns m pgdir p.
Proof. intros [H1 H2]. destruct (same_owns m m' pgdir H1 H2) as [E1 E2]. unfold owns. by rewrite E1, E2. Qed.

Lemma page_ok_end s s' p : k_end s' = k_end s → page_ok s p → page_ok s' p.
Proof. intros E. unfold page_ok. by rewrite E. Qed.

Lemma pt_ok_same s s' pgdir L L' :
  pt_ok s pgdir L → k_end s' = k_end s →
  (∀ i, 0 ≤ i < 1024 → pde_of (k_mem s') pgdir i = pde_of (k_mem s) pgdir i) →
  (∀ p, is_meta (k_mem s) pgdir p → p ∉ L') → pt_ok s' pgdir L'.
Proof.
  intros Hpt He Hd Hn.
  assert (Hti : ∀ i, 0 ≤ i < 1024 → tab_of (k_mem s') pgdir i = tab_of (k_mem s) pgdir i)
    by (intros i Hi; unfold tab_of; by rewrite Hd).
  constructor.
  - eapply page_ok_end; [done|apply (pt_dir Hpt)].
  - apply Hn. by left.
  - intros i Hi. rewrite Hd, Hti by done. intros H. destruct (pt_tab Hpt i Hi H) as (H1 & H2 & H3).
    split; [by eapply page_ok_end|]. split; [|done]. apply Hn. right. by exists i.
  - intros i j Hi Hj. rewrite !Hd, !Hti by done. by apply (pt_inj Hpt).
Qed.

Lemma uvm_same s s' pgdir L L' :
  uvm s pgdir L → k_end s' = k_end s → same_entries pgdir (k_mem s) (k_mem s') →
  (∀ p, owns (k_mem s) pgdir p → p ∉ L') → uvm s' pgdir L'.
Proof.
  intros [Hpt Hpg Hinj] He Hse Hn. pose proof Hse as [Hd Hp].
  destruct (same_owns _ _ pgdir Hd Hp) as [Em Eu]. constructor.
  - eapply pt_ok_same; [done|done|done|]. intros p Hm. apply Hn. by left.
  - intros p Hu. rewrite Em. apply Eu in Hu. destruct (Hpg p Hu) as (H1 & H2 & H3).
    split; [by eapply page_ok_end|]. split; [|done]. apply Hn. by right.
  - intros v w Hv Hw. unfold upa. rewrite !(same_entries_upte _ _ _ _ Hse) by done. by apply Hinj.
Qed.

Lemma uvm_mem s s' pgdir L : k_end s' = k_end s → k_mem s' = k_mem s → uvm s pgdir L → uvm s' pgdir L.
Proof.
  intros He Hm Hu. eapply uvm_same; [done|done|by rewrite Hm|]. intros p Hp. by eapply owns_ok.
Qed.

(** Memory that differs only outside the space. *)
Lemma uvm_other s s' pgdir L L' :
  uvm s pgdir L → k_end s' = k_end s → (∀ x, owns (k_mem s) pgdir (pg x) → k_mem s' x = k_mem s x) →
  (∀ p, owns (k_mem s) pgdir p → p ∉ L') →
  uvm s' pgdir L' ∧ same_entries pgdir (k_mem s) (k_mem s') ∧
  ∀ va, 0 ≤ va < KERNBASE → present (upte (k_mem s) pgdir (va / 4096)) = true →
    ubyte (k_mem s') pgdir va = ubyte (k_mem s) pgdir va.
Proof.
  intros Hu He Hm Hn. assert (Hse : same_entries pgdir (k_mem s) (k_mem s')).
  { eapply meta_same; [apply (uv_pt Hu)|]. intros x Hx. apply Hm. by left. }
  split; [by eapply uvm_same|]. split; [done|]. intros va Hva Hp. unfold ubyte, upa.
  assert (Hv : 0 ≤ va / 4096 < NUSER) by (unfold NUSER, KERNBASE in *; zdiv).
  rewrite (same_entries_upte _ _ _ _ Hse) by done. apply Hm. right. exists (va / 4096).
  split; [done|]. split; [done|]. rewrite pg_offset; [done|].
  destruct (uv_page Hu (upa (k_mem s) pgdir (va / 4096))) as ((Hal & _) & _); [by exists (va / 4096)|exact Hal].
Qed.

(** ** What operations on an address space keep *)

(** Only memory, the free list and the console change; memory changes only in
    pages of the space and in free pages, and each of those pages is still one. *)
Record vframe (pgdir : Z) (s : kernel) (L : list Z) (s' : kernel) (L' : list Z) : Prop := mkVframe {
  vf_state : s' = with_k_freelist (k_freelist s') (with_k_mem (k_mem s')
    (with_k_out (k_out s') (with_k_screen (k_screen s') s)));
  vf_screen : screen_ok (k_screen s) → screen_ok (k_screen s');
  vf_mem : ∀ x, ¬ owns (k_mem s) pgdir (pg x) → pg x ∉ L → k_mem s' x = k_mem s x;
  vf_pages : ∀ p, p ∈ L' ∨ owns (k_mem s') pgdir p ↔ p ∈ L ∨ owns (k_mem s) pgdir p;
}.

Lemma vframe_refl pgdir s L : vframe pgdir s L s L.
Proof. by constructor; destruct s. Qed.

Lemma vframe_trans pgdir s1 L1 s2 L2 s3 L3 :
  vframe pgdir s1 L1 s2 L2 → vframe pgdir s2 L2 s3 L3 → vframe pgdir s1 L1 s3 L3.
Proof.
  intros [E1 S1 M1 P1] [E2 S2 M2 P2]. constructor.
  - rewrite E2, E1. done.
  - auto.
  - intros x Ho Hx. specialize (P1 (pg x)). rewrite M2 by tauto. by apply M1.
  - intros p. by rewrite P2, P1.
Qed.

Lemma vframe_ready pgdir s L s' L' : vframe pgdir s L s' L' → kmem_ready s → kmem_ready s'.
Proof. intros [E _ _ _] H. by rewrite E. Qed.

Lemma vframe_print pgdir s L s' L' :
  vframe pgdir s L s' L' → can_print s → cons_ready s → can_print s' ∧ cons_ready s'.
Proof. intros [E S _ _] [H1 H2] H3. split; [split; [by rewrite E|by apply S]|]. by rewrite E. Qed.

Lemma vframe_end pgdir s L s' L' : vframe pgdir s L s' L' → k_end s' = k_end s.
Proof. intros [E _ _ _]. by rewrite E. Qed.

Lemma vframe_out pgdir s L s' : outframe s s' → vframe pgdir s L s' L.
Proof.
  intros [E H]. assert (Em : k_mem s' = k_mem s) by (by rewrite E).
  constructor; [|done|by rewrite Em|by rewrite Em].
  assert (Ef : k_freelist s' = k_freelist s) by (by rewrite E). rewrite Ef, Em, E at 1. by destruct s.
Qed.

(** The space of another directory is out of reach. *)
Definition apart_from (m : mem) (L : list Z) (pgdir d : Z) : Prop :=
  ∀ p, owns m d p → (p ∉ L) ∧ ¬ owns m pgdir p.

Lemma vframe_other pgdir s L s' L' d :
  vframe pgdir s L s' L' → uvm s d L → apart_from (k_mem s) L pgdir d →
  uvm s' d L' ∧ same_entries d (k_mem s) (k_mem s') ∧ apart_from (k_mem s') L' pgdir d ∧
  ∀ va, 0 ≤ va < KERNBASE → present (upte (k_mem s) d (va / 4096)) = true →
    ubyte (k_mem s') d va = ubyte (k_mem s) d va.
Proof.
  intros F Hu Ha. destruct (uvm_other s s' d L L') as (H1 & H2 & H3); [done|by eapply vframe_end| | |].
  - intros x Hx. destruct (Ha _ Hx). by apply (vf_mem _ _ _ _ _ F).
  - intros p Hp Hin. destruct (Ha p Hp) as [A1 A2]. pose proof (vf_pages _ _ _ _ _ F p). tauto.
  - split; [done|]. split; [done|]. split; [|done]. intros p Hp. apply (same_entries_owns _ _ _ p H2) in Hp.
    destruct (Ha p Hp) as [A1 A2]. pose proof (vf_pages _ _ _ _ _ F p). tauto.
Qed.

(** * Mapping a page *)

Lemma lor_bound n a b : 0 ≤ n → 0 ≤ a < 2 ^ n → 0 ≤ b < 2 ^ n → 0 ≤ Z.lor a b < 2 ^ n.
Proof.
  intros Hn Ha Hb. assert (H0 : 0 ≤ Z.lor a b) by (apply Z.lor_nonneg; lia). split; [done|].
  destruct (decide (Z.lor a b = 0)) as [->|Hne]; [lia|]. apply Z.log2_lt_pow2; [lia|].
  rewrite Z.log2_lor by lia. destruct (decide (a = 0)) as [->|], (decide (b = 0)) as [->|]; [done| | |];
    (apply Z.max_lub_lt; [|]); try (apply Z.log2_lt_pow2; lia); change (Z.log2 0) with 0.
  - destruct (decide (n = 0)) as [->|]; [simpl in Hb|]; lia.
  - destruct (decide (n = 0)) as [->|]; [simpl in Ha|]; lia.
Qed.

Lemma lor_add_low a b : a mod 4096 = 0 → 0 ≤ b < 4096 → Z.lor a b = a + b.
Proof.
  intros Ha Hb. assert (E : Z.land a b = 0).
  { replace b with (Z.land b (Z.ones 12)) by (rewrite land_low by lia; apply Z.mod_small; lia).
    rewrite (Z.land_comm b), Z.land_assoc, (land_low 12 a) by lia.
    change (2 ^ 12) with 4096. by rewrite Ha. }
  by rewrite <-(Z.lxor_lor _ _ E), <-(Z.add_nocarry_lxor _ _ E).
Qed.

(** The entry of a page with permissions. *)
Definition entry (p perm : Z) : Z := p - KERNBASE + Z.lor perm PTE_P.

Lemma pte_encode s p perm :
  page_ok s p → 0 ≤ perm < 4096 →
  u32 (Z.lor (Z.lor (V2P p) perm) PTE_P) = entry p perm ∧ is_u32 (entry p perm) ∧
  present (entry p perm) = true ∧ P2V (PTE_ADDR (entry p perm)) = p ∧ PTE_FLAGS (entry p perm) = Z.lor perm PTE_P.
Proof.
  intros (Hal & _ & Hr & Hp) Hperm. unfold PGSIZE, KERNBASE, PHYSTOP in *.
  rewrite V2P_small in * by (unfold KERNBASE; lia). unfold KERNBASE in Hp.
  pose proof (lor_bound 12 perm PTE_P ltac:(lia) Hperm ltac:(unfold PTE_P; lia)) as Hl. change (2 ^ 12) with 4096 in Hl.
  assert (Hmod : (p - KERNBASE) mod 4096 = 0) by (unfold KERNBASE; zdiv).
  assert (Hu : is_u32 (entry p perm)) by (unfold entry, is_u32, KERNBASE; lia).
  split; [|split; [done|split; [|split]]].
  - rewrite <-Z.lor_assoc, lor_add_low by done. by apply u32_small.
  - unfold present. apply negb_true_iff, Z.eqb_neq. intros E.
    assert (Hb : Z.testbit (Z.land (entry p perm) PTE_P) 0 = true); [|by rewrite E in Hb].
    unfold entry. rewrite <-lor_add_low by done. rewrite Z.land_spec, !Z.lor_spec.
    change (Z.testbit PTE_P 0) with true. by rewrite !orb_true_r.
  - rewrite PTE_ADDR_spec by done. rewrite P2V_small; unfold entry, KERNBASE in *; zdiv.
  - rewrite PTE_FLAGS_spec by done. unfold entry, KERNBASE in *. zdiv.
Qed.

(** The tables and pages taken for a mapping. *)
Lemma pt_grow_meta pgdir s L s' L' p :
  pt_grow pgdir s L s' L' → is_meta (k_mem s) pgdir p → is_meta (k_mem s') pgdir p.
Proof.
  intros ((_ & P & _) & _) [->|(i & Hi & Hp & <-)]; [by left|right]. exists i. unfold tab_of. by rewrite P.
Qed.

Lemma grow_end pgdir s L s' L' : pt_grow pgdir s L s' L' → k_end s' = k_end s.
Proof. intros ((E & _) & _). by rewrite E. Qed.

Lemma grow_pages pgdir s L s' L' p :
  pt_grow pgdir s L s' L' → p ∈ L' ∨ is_meta (k_mem s') pgdir p ↔ p ∈ L ∨ is_meta (k_mem s) pgdir p.
Proof.
  intros G. pose proof G as ((_ & P & _) & new & -> & A & B). rewrite elem_of_app. split.
  - intros [H|[->|(i & Hi & Hp & <-)]]; [tauto|right; by left|].
    destruct (A i Hi Hp) as [Hs|Hn]; [right; right|tauto]. exists i. unfold tab_of. by rewrite P.
  - intros [[H|H]|H]; [|tauto|right; by eapply pt_grow_meta]. destruct (B p H) as (i & Hi & Hp & <-).
    right. right. by exists i.
Qed.

Lemma grow_mem pgdir s L s' L' x :
  pt_grow pgdir s L s' L' → pt_ok s' pgdir L' → ¬ is_meta (k_mem s) pgdir (pg x) → pg x ∉ L →
  k_mem s' x = k_mem s x.
Proof.
  intros G Hpt Hm Hx. pose proof (grow_pages _ _ _ _ _ (pg x) G) as Hg. destruct G as ((_ & _ & M) & _).
  apply M.
  - rewrite pg_in_page by (apply (pt_dir Hpt)). intros E. apply Hm. left. done.
  - intros i Hi Hp. destruct (pt_tab Hpt i Hi Hp) as ((Hal & _) & _). rewrite pg_in_page by exact Hal.
    intros E. destruct Hg as [Hg _]. destruct Hg; [|tauto|tauto]. right. right. by exists i.
Qed.

(** [mappages] of one page [q] that is neither free nor of the space. *)
Record page_mapped (pgdir : Z) (s : kernel) (L : list Z) (v q perm r : Z) (s' : kernel) (L' : list Z) : Prop := mkPageMapped {
  pm_inv : kmem_inv s' L';
  pm_uvm : uvm s' pgdir L';
  pm_grow : pt_grow pgdir s L s' L';
  pm_mem : ∀ x, ¬ is_meta (k_mem s) pgdir (pg x) → pg x ∉ L → k_mem s' x = k_mem s x;
  pm_case : (r = 0 ∧ ∀ va, is_u32 va →
      pte_of (k_mem s') pgdir va = if va / 4096 =? v then entry q perm else pte_of (k_mem s) pgdir va) ∨
    (r = -1 ∧ L' = [] ∧ ∀ va, is_u32 va → pte_of (k_mem s') pgdir va = pte_of (k_mem s) pgdir va);
}.

Lemma map_page pgdir s L v q perm :
  uvm s pgdir L → kmem_ready s → kmem_inv s L → 0 ≤ v < NUSER → present (upte (k_mem s) pgdir v) = false →
  page_ok s q → (q ∉ L) → ¬ owns (k_mem s) pgdir q → 0 ≤ perm < 4096 →
  ∃ r s' L', mappages pgdir (4096 * v) PGSIZE (V2P q) perm s = Done r s' ∧
    page_mapped pgdir s L v q perm r s' L'.
Proof.
  intros Hu Hr Hk Hv Habs Hq HqL Hqo Hperm. pose proof (NUSER_lt v ltac:(lia)) as Hv20.
  destruct (pte_encode s q perm Hq Hperm) as (Ee & Heu & Hep & Hea & _).
  destruct (mappages_spec pgdir (4096 * v) PGSIZE (V2P q) perm s L) as (r & s' & L' & k & E & Hk' & Hpt' & G & Hm & Hc);
    try done; try (unfold PGSIZE in *; lia).
  { destruct Hq as (_ & _ & Hrg & _). unfold KERNBASE in Hrg. rewrite V2P_small; unfold is_u32, KERNBASE; lia. }
  { apply (uv_pt Hu). }
  { intros x Hx Hin. rewrite pte_of_page by done. replace (x / 4096) with v by (unfold PGSIZE in Hin; zdiv). done. }
  exists r, s', L'. split; [done|].
  assert (Ek : (r = 0 ∧ k = 1) ∨ (r = -1 ∧ L' = [] ∧ k = 0)).
  { replace ((4096 * v + PGSIZE - 1) / 4096 - 4096 * v / 4096) with 0 in Hc by (unfold PGSIZE; zdiv).
    destruct Hc as [[-> ->]|(-> & -> & ?)]; [by left|right]. split; [done|]. split; [done|lia]. }
  assert (Hpte : ∀ va, is_u32 va → pte_of (k_mem s') pgdir va =
    if (va / 4096 =? v) && (k =? 1) then entry q perm else pte_of (k_mem s) pgdir va).
  { intros va Hva. rewrite Hm by done. replace (4096 * v / 4096) with v by zdiv.
    destruct (Z.eqb_spec (va / 4096) v) as [Ev|Ev]; destruct Ek as [[_ ->]|(_ & _ & ->)]; repeat case_bool; try (done || lia).
    unfold mapped. rewrite Ev. replace (4096 * v / 4096) with v by zdiv. rewrite Z.sub_diag, Z.mul_0_l, Z.add_0_r.
    rewrite (u32_small (V2P q)); [done|]. destruct Hq as (_ & _ & Hrg & _). unfold KERNBASE in Hrg.
    rewrite V2P_small; unfold is_u32, KERNBASE; lia. }
  assert (HL : ∀ p, p ∈ L' → p ∈ L).
  { destruct G as (_ & new & -> & _). intros p Hp. apply elem_of_app. by right. }
  assert (Hupte : ∀ w, 0 ≤ w < NUSER → upte (k_mem s') pgdir w =
    if (w =? v) && (k =? 1) then entry q perm else upte (k_mem s) pgdir w).
  { intros w Hw. unfold upte. rewrite Hpte by (apply is_u32_page; pose proof (NUSER_lt w); lia).
    by replace (4096 * w / 4096) with w by zdiv. }
  assert (Huser : ∀ w, 0 ≤ w < NUSER → present (upte (k_mem s') pgdir w) = true →
    (w = v ∧ upa (k_mem s') pgdir w = q) ∨
    (present (upte (k_mem s) pgdir w) = true ∧ upa (k_mem s') pgdir w = upa (k_mem s) pgdir w)).
  { intros w Hw. unfold upa. rewrite Hupte by done. destruct ((w =? v) && (k =? 1)) eqn:Ew; [left; split; [lia|done]|by right]. }
  constructor; [done| |done| |].
  - constructor; [done| |].
    + intros p (w & Hw & Hp & <-). pose proof (grow_pages _ _ _ _ _ (upa (k_mem s') pgdir w) G) as Hg.
      destruct (Huser w Hw Hp) as [[-> ->]|[Hp' ->]] in Hg |- *.
      * split; [by eapply page_ok_end; [eapply grow_end|]|]. unfold owns in Hqo. naive_solver.
      * destruct (uv_page Hu (upa (k_mem s) pgdir w)) as (H1 & H2 & H3); [by exists w|].
        split; [by eapply page_ok_end; [eapply grow_end|]|]. naive_solver.
    + intros w w' Hw Hw' Hp Hp' E'.
      destruct (Huser w Hw Hp) as [[-> E1]|[Hp1 E1]], (Huser w' Hw' Hp') as [[-> E2]|[Hp2 E2]];
        [done| | |apply (uv_inj Hu); congruence].
      * destruct Hqo. right. exists w'. split; [done|]. split; [done|congruence].
      * destruct Hqo. right. exists w. split; [done|]. split; [done|congruence].
  - intros x Hx Hin. by eapply grow_mem.
  - destruct Ek as [[-> ->]|(-> & -> & ->)]; [left|right].
    + split; [done|]. intros va Hva. rewrite Hpte by done. by rewrite andb_true_r.
    + split; [done|]. split; [done|]. intros va Hva. rewrite Hpte by done. by rewrite andb_false_r.
Qed.

(** The pages of [K] keep their entries, and the user pages among them their bytes. *)
Definition ukeep (pgdir : Z) (K : Z → Prop) (m m' : mem) : Prop :=
  ∀ v, 0 ≤ v < 1048576 → K v → upte m' pgdir v = upte m pgdir v ∧
    (v < NUSER → present (upte m pgdir v) = true → ∀ x, pg x = upa m pgdir v → m' x = m x).

Lemma ukeep_refl pgdir K m : ukeep pgdir K m m.
Proof. by intros v Hv HK. Qed.

Lemma ukeep_trans pgdir K m1 m2 m3 : ukeep pgdir K m1 m2 → ukeep pgdir K m2 m3 → ukeep pgdir K m1 m3.
Proof.
  intros H1 H2 v Hv HK. destruct (H1 v Hv HK) as [E1 C1], (H2 v Hv HK) as [E2 C2].
  split; [congruence|]. intros Hn Hp x Hx. rewrite C2; [by apply C1|done|by rewrite E1|].
  unfold upa in *. by rewrite E1.
Qed.

Lemma ukeep_weaken pgdir (K K' : Z → Prop) m m' : (∀ v, K' v → K v) → ukeep pgdir K m m' → ukeep pgdir K' m m'.
Proof. intros H Hk v Hv HK. apply Hk; auto. Qed.

Lemma ukeep_byte pgdir K m m' va :
  ukeep pgdir K m m' → 0 ≤ va < KERNBASE → K (va / 4096) → present (upte m pgdir (va / 4096)) = true →
  upa m pgdir (va / 4096) mod 4096 = 0 → ubyte m' pgdir va = ubyte m pgdir va.
Proof.
  intros Hk Hva HK Hp Hal. assert (Hv : 0 ≤ va / 4096 < NUSER) by (unfold NUSER, KERNBASE in *; zdiv).
  destruct (Hk (va / 4096) ltac:(pose proof (NUSER_lt (va / 4096)); lia) HK) as [E C].
  unfold ubyte. replace (upa m' pgdir (va / 4096)) with (upa m pgdir (va / 4096)) by (unfold upa; by rewrite E).
  apply C; [lia|done|]. by apply pg_offset.
Qed.

Lemma vframe_extra pgdir s L s' L' q :
  vframe pgdir s L s' L' → vframe pgdir s (q :: L) s' (q :: L').
Proof.
  intros [E S M P]. constructor; [done|done| |].
  - intros x Ho Hx. apply M; [done|]. intros H. apply Hx. by right.
  - intros p. rewrite !elem_of_cons. specialize (P p). tauto.
Qed.

(** The user pages when the entry of the page [v] changes. *)
Definition set_entry (pgdir v e : Z) (m m' : mem) : Prop :=
  ∀ va, is_u32 va → pte_of m' pgdir va = if va / 4096 =? v then e else pte_of m pgdir va.

Lemma set_entry_upte pgdir v e m m' w :
  set_entry pgdir v e m m' → 0 ≤ w < 1048576 → upte m' pgdir w = if w =? v then e else upte m pgdir w.
Proof.
  intros H Hw. unfold upte. rewrite H by (by apply is_u32_page). by replace (4096 * w / 4096) with w by zdiv.
Qed.

Lemma user_added pgdir v e q m m' p :
  set_entry pgdir v e m m' → 0 ≤ v < NUSER → present e = true → P2V (PTE_ADDR e) = q →
  present (upte m pgdir v) = false → is_user m' pgdir p ↔ p = q ∨ is_user m pgdir p.
Proof.
  intros H Hv He Eq Habs. pose proof (NUSER_lt v).
  assert (Hup : ∀ w, 0 ≤ w < NUSER → upte m' pgdir w = if w =? v then e else upte m pgdir w).
  { intros w Hw. eapply set_entry_upte; [done|]. pose proof (NUSER_lt w). lia. }
  unfold is_user, upa. split.
  - intros (w & Hw & Hp & <-). rewrite Hup in * by done. destruct (Z.eqb_spec w v); [by left|right]. by exists w.
  - intros [->|(w & Hw & Hp & <-)].
    + exists v. rewrite Hup by lia. by rewrite Z.eqb_refl.
    + exists w. rewrite Hup by done. destruct (Z.eqb_spec w v) as [->|]; [congruence|done].
Qed.

(** A page [q] taken from the free list, filled and mapped at [v]. *)
Record page_added (pgdir : Z) (s0 : kernel) (q : Z) (L : list Z) (v perm : Z) (m1 : mem) (r : Z) (s' : kernel) (L' : list Z) : Prop := mkPageAdded {
  pa_inv : kmem_inv s' L';
  pa_uvm : uvm s' pgdir L';
  pa_keep : ukeep pgdir (λ w, w ≠ v) (k_mem s0) (k_mem s');
  pa_frame : vframe pgdir s0 (q :: L) s' (if r =? 0 then L' else q :: L');
  pa_case : (r = 0 ∧ upte (k_mem s') pgdir v = entry q perm ∧ ∀ x, pg x = q → k_mem s' x = m1 x) ∨
    (r = -1 ∧ L' = [] ∧ upte (k_mem s') pgdir v = upte (k_mem s0) pgdir v ∧ ¬ owns (k_mem s') pgdir q);
}.

Lemma add_page pgdir s0 q L v perm s1 m1 :
  uvm s0 pgdir (q :: L) → kmem_ready s0 → kmem_inv s0 (q :: L) →
  0 ≤ v < NUSER → present (upte (k_mem s0) pgdir v) = false → 0 ≤ perm < 4096 →
  kmem_inv s1 L → s1 = with_k_freelist (k_freelist s1) s0 → (∀ x, pg x ≠ q → m1 x = k_mem s0 x) →
  ∃ r s' L', mappages pgdir (4096 * v) PGSIZE (V2P q) perm (with_k_mem m1 s1) = Done r s' ∧
    page_added pgdir s0 q L v perm m1 r s' L'.
Proof.
  intros Hu Hr Hk Hv Habs Hperm Hk1 Hs1 Hm1. set (s2 := with_k_mem m1 s1).
  assert (Hq : page_ok s0 q) by (destruct Hk as (_ & _ & Hf); by inversion Hf).
  assert (HqL : q ∉ L) by (destruct Hk as (_ & Hnd & _); by apply NoDup_cons in Hnd as [? _]).
  assert (Hqo : ∀ p, owns (k_mem s0) pgdir p → p ≠ q ∧ (p ∉ L)).
  { intros p Hp. destruct (owns_ok _ _ _ _ Hu Hp) as [_ H]. by apply not_elem_of_cons in H. }
  assert (He2 : k_end s2 = k_end s0) by (unfold s2; by rewrite Hs1).
  destruct (uvm_other s0 s2 pgdir (q :: L) L) as (Hu2 & Hse & _); [done|done| | |].
  { intros x Hx. apply Hm1. by apply Hqo. }
  { intros p Hp. by apply Hqo. }
  assert (Hk2 : kmem_inv s2 L).
  { destruct Hk1 as (Hrep & Hnd & Hok). split; [|done]. eapply free_rep_frame; [|exact Hrep].
    intros p Hp. rewrite Forall_forall in Hok. destruct (Hok p Hp) as (Hal & _). rewrite Hs1.
    rewrite <-(Z.add_0_r p). change 0 with (4 * 0). apply load32_page; [exact Hal|lia|].
    intros x Hx. apply Hm1. rewrite Hx. by intros ->. }
  destruct (map_page pgdir s2 L v q perm) as (r & s' & L' & E & [Hk' Hu' G Hmem Hcase]); try done.
  { unfold s2. by rewrite Hs1. }
  { by rewrite (same_entries_upte _ _ _ _ Hse). }
  { by eapply page_ok_end. }
  { intros Ho. apply (same_entries_owns _ _ _ _ Hse) in Ho. by apply Hqo in Ho as []. }
  exists r, s', L'. split; [done|]. destruct (same_owns _ _ _ (proj1 Hse) (proj2 Hse)) as [Em Eus].
  assert (Hfar : ∀ x, ¬ is_meta (k_mem s0) pgdir (pg x) → pg x ∉ q :: L → k_mem s' x = k_mem s0 x).
  { intros x H1 H2. apply not_elem_of_cons in H2 as [H2 H3]. rewrite Hmem; [by apply Hm1|by rewrite Em|done]. }
  assert (Hsame : ∀ w, 0 ≤ w < 1048576 → w ≠ v → upte (k_mem s') pgdir w = upte (k_mem s0) pgdir w).
  { intros w Hw Hne. rewrite <-(same_entries_at _ _ _ w Hse) by done.
    destruct Hcase as [[_ Hc]|(_ & _ & Hc)]; [|apply Hc; by apply is_u32_page].
    rewrite (set_entry_upte _ _ _ _ _ w Hc) by done. by rewrite (proj2 (Z.eqb_neq _ _)). }
  assert (Hpv : present (upte (k_mem s2) pgdir v) = false) by (by rewrite (same_entries_upte _ _ _ _ Hse)).
  destruct (pte_encode s0 q perm Hq Hperm) as (_ & _ & Hep & Hea & _).
  assert (Hfail : (∀ va, is_u32 va → pte_of (k_mem s') pgdir va = pte_of (k_mem s2) pgdir va) →
    ∀ p, is_user (k_mem s') pgdir p ↔ is_user (k_mem s0) pgdir p).
  { intros Hc p. rewrite <-Eus. unfold is_user, upa, upte. split; intros (w & Hw & H); exists w;
      rewrite Hc in * by (apply is_u32_page; pose proof (NUSER_lt w); lia); done. }
  constructor; [done|done| | |].
  - intros w Hw Hne. split; [by apply Hsame|]. intros Hn Hp x Hx.
    assert (Hus : is_user (k_mem s0) pgdir (pg x)) by (exists w; split; [lia|done]).
    destruct (uv_page Hu _ Hus) as (_ & H2 & H3). by apply Hfar.
  - constructor.
    + destruct G as ((Es & _) & _). rewrite Es. unfold s2. rewrite Hs1. by destruct s0.
    + destruct G as ((Es & _) & _). rewrite Es. unfold s2. by rewrite Hs1.
    + intros x H1 H2. apply Hfar; [|done]. intros H. apply H1. by left.
    + intros p. pose proof (grow_pages _ _ _ _ _ p G) as Hg. rewrite (Em p) in Hg. unfold owns.
      destruct Hcase as [[-> Hc]|(-> & -> & Hc)]; cbn [Z.eqb]; rewrite !elem_of_cons.
      * rewrite (user_added pgdir v (entry q perm) q (k_mem s2) (k_mem s') p Hc Hv Hep Hea Hpv), Eus. tauto.
      * specialize (Hfail Hc p). tauto.
  - pose proof (NUSER_lt v). destruct Hcase as [[-> Hc]|(-> & -> & Hc)]; [left|right].
    + split; [done|]. split; [rewrite (set_entry_upte _ _ _ _ _ v Hc) by lia; by rewrite Z.eqb_refl|].
      intros x Hx. apply Hmem; rewrite Hx; [|done]. rewrite Em. intros Hm. destruct (Hqo q); [by left|done].
    + split; [done|]. split; [done|]. split.
      * unfold upte. rewrite Hc by (apply is_u32_page; lia). apply (proj2 Hse), is_u32_page. lia.
      * pose proof (grow_pages _ _ _ _ _ q G) as Hg. rewrite (Em q) in Hg. specialize (Hfail Hc q).
        pose proof (λ Ho, proj1 (Hqo q Ho)) as Hno. unfold owns in *. tauto.
Qed.

(** * Unmapping a page *)

(** What [deallocuvm] does at an entry. *)
Definition drop_entry (pte : Z) : K unit :=
  e <- rd32 pte ;;
  if negb (Z.land e PTE_P =? 0) then
    let pa := PTE_ADDR e in
    if pa =? 0 then panic "kfree" else
    kfree (P2V pa) ;;;
    wr32 pte 0
  else ret tt.

Record page_dropped (pgdir : Z) (s : kernel) (L : list Z) (v : Z) (s' : kernel) (L' : list Z) : Prop := mkPageDropped {
  pd_inv : kmem_inv s' L';
  pd_uvm : uvm s' pgdir L';
  pd_keep : ukeep pgdir (λ w, w ≠ v) (k_mem s) (k_mem s');
  pd_frame : vframe pgdir s L s' L';
  pd_gone : present (upte (k_mem s') pgdir v) = false;
}.

Lemma user_removed pgdir v m m' p :
  set_entry pgdir v 0 m m' → 0 ≤ v < NUSER → present (upte m pgdir v) = true →
  (∀ w, 0 ≤ w < NUSER → present (upte m pgdir w) = true → upa m pgdir w = upa m pgdir v → w = v) →
  is_user m' pgdir p ↔ p ≠ upa m pgdir v ∧ is_user m pgdir p.
Proof.
  intros H Hv Hpv Hinj.
  assert (Hup : ∀ w, 0 ≤ w < NUSER → upte m' pgdir w = if w =? v then 0 else upte m pgdir w).
  { intros w Hw. eapply set_entry_upte; [done|]. pose proof (NUSER_lt w). lia. }
  unfold is_user. split.
  - intros (w & Hw & Hp & <-). unfold upa in *. rewrite Hup in * by done. destruct (Z.eqb_spec w v) as [->|Hne]; [done|].
    split; [|by exists w]. intros E. apply Hne. by apply Hinj.
  - intros (Hne & w & Hw & Hp & <-). exists w. unfold upa in *. rewrite Hup by done.
    destruct (Z.eqb_spec w v) as [->|]; [done|done].
Qed.

(** The page is freed, then the entry cleared. *)
Lemma drop_run pgdir s L v :
  uvm s pgdir L → kmem_ready s → kmem_inv s L → 0 ≤ v < NUSER → present (upte (k_mem s) pgdir v) = true →
  let q := upa (k_mem s) pgdir v in let t := tab_of (k_mem s) pgdir (PDX (4096 * v)) in
  ∃ s1, drop_entry (t + 4 * PTX (4096 * v)) s = Done tt (with_k_mem (store32 (k_mem s1) (t + 4 * PTX (4096 * v)) 0) s1) ∧
    kmem_inv s1 (q :: L) ∧ s1 = with_k_freelist (k_freelist s1) (with_k_mem (k_mem s1) s) ∧
    (∀ x, pg x ≠ q → k_mem s1 x = k_mem s x) ∧ same_entries pgdir (k_mem s) (k_mem s1).
Proof.
  intros Hu Hr Hk Hv Hpv q t. destruct (uv_page Hu q) as (Hq & HqL & Hqm); [by exists v|].
  assert (Hpd : present (pde_of (k_mem s) pgdir (PDX (4096 * v))) = true).
  { unfold upte, pte_of in Hpv. by destruct (present (pde_of (k_mem s) pgdir (PDX (4096 * v)))). }
  assert (El : load32 (k_mem s) (t + 4 * PTX (4096 * v)) = upte (k_mem s) pgdir v).
  { unfold upte, pte_of. by rewrite Hpd. }
  destruct (kfree_cons s q L Hr Hk Hq HqL) as (s1 & E1 & Hk1 & Hs1 & Hoff).
  assert (Hm1 : ∀ x, pg x ≠ q → k_mem s1 x = k_mem s x).
  { intros x Hx. apply Hoff. destruct Hq as (Hal & _). pose proof (pg_in_page q x Hal) as Hi. unfold in_page, PGSIZE in *. lia. }
  exists s1. split; [|split; [done|split; [by rewrite Hs1|split; [done|]]]].
  - unfold drop_entry. unfold bind at 1, rd32, gets. cbn [obind]. rewrite El.
    unfold present in Hpv. rewrite Hpv. fold (upa (k_mem s) pgdir v). cbn zeta.
    assert (Hnz : (PTE_ADDR (upte (k_mem s) pgdir v) =? 0) = false).
    { apply Z.eqb_neq. intros Ez. destruct Hq as (_ & _ & Hrg & _). unfold q, upa in Hrg. rewrite Ez in Hrg.
      change (P2V 0) with KERNBASE in Hrg. lia. }
    rewrite Hnz. erewrite bind_done by exact E1. reflexivity.
  - eapply meta_same; [apply (uv_pt Hu)|]. intros x Hx. apply Hm1. congruence.
Qed.

Lemma drop_page pgdir s L v :
  uvm s pgdir L → kmem_ready s → kmem_inv s L → 0 ≤ v < NUSER → present (upte (k_mem s) pgdir v) = true →
  ∃ s', drop_entry (tab_of (k_mem s) pgdir (PDX (4096 * v)) + 4 * PTX (4096 * v)) s = Done tt s' ∧
    page_dropped pgdir s L v s' (upa (k_mem s) pgdir v :: L).
Proof.
  intros Hu Hr Hk Hv Hpv. pose proof (NUSER_lt v) as Hv20.
  destruct (drop_run pgdir s L v Hu Hr Hk Hv Hpv) as (s1 & E1 & Hk1 & Hs1 & Hm1 & Hse).
  set (q := upa (k_mem s) pgdir v) in *. assert (Hva : is_u32 (4096 * v)) by (apply is_u32_page; lia).
  assert (Huq : is_user (k_mem s) pgdir q) by (by exists v). destruct (uv_page Hu q Huq) as (Hq & HqL & Hqm).
  assert (Hpt1 : pt_ok s1 pgdir (q :: L)).
  { eapply pt_ok_same; [apply (uv_pt Hu)|by rewrite Hs1|apply Hse|]. intros p Hp.
    apply not_elem_of_cons. split; [congruence|]. by eapply is_meta_ok; [apply (uv_pt Hu)|]. }
  assert (Et : tab_of (k_mem s1) pgdir (PDX (4096 * v)) = tab_of (k_mem s) pgdir (PDX (4096 * v)))
    by (unfold tab_of; by rewrite (proj1 Hse) by (by apply PDX_range)).
  destruct (set_pte pgdir (4096 * v) 0 s1 (q :: L) Hva Hpt1 Hk1) as (Hpt2 & Hk2 & G & Hent).
  { rewrite (proj1 Hse) by (by apply PDX_range). unfold upte, pte_of in Hpv.
    by destruct (present (pde_of (k_mem s) pgdir (PDX (4096 * v)))). }
  rewrite Et in *. eexists. split; [exact E1|].
  set (s2 := with_k_mem _ s1) in *.
  assert (Hset : set_entry pgdir v 0 (k_mem s) (k_mem s2)).
  { intros va Hx. rewrite Hent, (proj2 Hse) by done. by replace (4096 * v / 4096) with v by zdiv. }
  assert (Hmeta : ∀ p, is_meta (k_mem s2) pgdir p ↔ is_meta (k_mem s) pgdir p).
  { intros p. pose proof (grow_pages _ _ _ _ _ p G) as Hg. rewrite <-(proj1 (same_owns _ _ _ (proj1 Hse) (proj2 Hse)) p).
    pose proof (λ H, proj2 (is_meta_ok _ _ _ p Hpt1 H)). pose proof (λ H, proj2 (is_meta_ok _ _ _ p Hpt2 H)). tauto. }
  pose proof (λ p, user_removed pgdir v (k_mem s) (k_mem s2) p Hset Hv Hpv
    ltac:(intros w Hw Hpw Ew; by apply (uv_inj Hu))) as Huser.
  fold q in Huser.
  assert (Hmem : ∀ x, ¬ is_meta (k_mem s) pgdir (pg x) → pg x ≠ q → pg x ∉ L → k_mem s2 x = k_mem s x).
  { intros x H1 H2 H3. rewrite <-(Hm1 x) by done. eapply grow_mem; [exact G|exact Hpt2| |by apply not_elem_of_cons].
    by rewrite (proj1 (same_owns _ _ _ (proj1 Hse) (proj2 Hse))). }
  assert (Ee2 : k_end s2 = k_end s) by (unfold s2; rewrite Hs1; done).
  constructor; [exact Hk2| | | |].
  - constructor; [exact Hpt2| |].
    + intros p Hp. rewrite Hmeta. apply Huser in Hp as [Hne Hp]. destruct (uv_page Hu p Hp) as (H1 & H2 & H3).
      split; [by eapply page_ok_end|]. split; [by apply not_elem_of_cons|done].
    + intros w w' Hw Hw'. unfold upa. rewrite !(set_entry_upte _ _ _ _ _ _ Hset) by
        (pose proof (NUSER_lt w); pose proof (NUSER_lt w'); lia).
      destruct (Z.eqb_spec w v); [intros H; discriminate H|].
      destruct (Z.eqb_spec w' v); [intros _ H; discriminate H|]. by apply (uv_inj Hu).
  - intros w Hw Hne. rewrite (set_entry_upte _ _ _ _ _ _ Hset) by done. rewrite (proj2 (Z.eqb_neq _ _)) by done.
    split; [done|]. intros Hn Hp x Hx.
    destruct (uv_page Hu (pg x)) as (_ & H2 & H3); [exists w; split; [lia|done]|].
    apply Hmem; [done| |done]. rewrite Hx. intros E. apply Hne. apply (uv_inj Hu); [lia|lia|done|done|done].
  - constructor.
    + unfold s2. rewrite Hs1. by destruct s.
    + unfold s2. by rewrite Hs1.
    + intros x H1 H2. apply Hmem; [| |done].
      * intros H. apply H1. by left.
      * intros E. apply H1. rewrite E. by right.
    + intros p. unfold owns. rewrite Hmeta, Huser, elem_of_cons. destruct (decide (p = q)) as [->|]; tauto.
  - rewrite (set_entry_upte _ _ _ _ _ _ Hset) by lia. by rewrite Z.eqb_refl.
Qed.

(** * [deallocuvm] *)

Lemma bind_drop {B} pte (k : unit → K B) s s' :
  drop_entry pte s = Done tt s' →
  (e <- rd32 pte ;;
   (if negb (Z.land e PTE_P =? 0) then
      if PTE_ADDR e =? 0 then panic "kfree" else
      kfree (P2V (PTE_ADDR e)) ;;;
      wr32 pte 0
    else ret tt) ;;; k tt) s = k tt s'.
Proof.
  unfold drop_entry. unfold bind at 1 3, rd32, gets. cbn [obind]. intros E.
  erewrite bind_done by exact E. done.
Qed.

(** The entry of a page that has no table, or is not mapped. *)
Lemma absent_table m pgdir v :
  present (pde_of m pgdir (PDX (4096 * v))) = false → upte m pgdir v = 0.
Proof. intros H. unfold upte, pte_of. by rewrite H. Qed.

Record unmapped (pgdir : Z) (s : kernel) (L : list Z) (lo hi : Z) (s' : kernel) (L' : list Z) : Prop := mkUnmapped {
  um_inv : kmem_inv s' L';
  um_uvm : uvm s' pgdir L';
  um_frame : vframe pgdir s L s' L';
  um_keep : ukeep pgdir (λ v, ¬ (lo ≤ v ∧ 4096 * v < hi)) (k_mem s) (k_mem s');
  um_gone : ∀ v, lo ≤ v → 4096 * v < hi → present (upte (k_mem s') pgdir v) = false;
}.

Lemma deallocuvm_loop_ok pgdir hi : ∀ fuel w s L,
  0 ≤ w → hi ≤ KERNBASE → uvm s pgdir L → kmem_ready s → kmem_inv s L →
  (0 < fuel)%nat → hi - 4096 * w ≤ 4096 * (Z.of_nat fuel - 1) → w ≤ NUSER →
  ∃ s' L', deallocuvm_loop fuel pgdir (4096 * w) hi s = Done tt s' ∧ unmapped pgdir s L w hi s' L'.
Proof.
  intros fuel. induction fuel as [|fuel IH]; intros w s L Hw Hhi Hu Hr Hk Hpos Hf Hwn; [lia|].
  cbn [deallocuvm_loop]. destruct (Z.ltb_spec (4096 * w) hi) as [Hlt|Hge].
  2: { exists s, L. split; [done|]. constructor; [done|done|apply vframe_refl|apply ukeep_refl|]. intros v H1 H2. lia. }
  assert (HwN : w < NUSER) by (unfold NUSER, KERNBASE in *; zdiv).
  assert (Hva : is_u32 (4096 * w)) by (apply is_u32_page; pose proof (NUSER_lt w); lia).
  assert (Hup : u32 (4096 * w + PGSIZE) = 4096 * (w + 1)).
  { unfold PGSIZE. rewrite u32_small; [lia|]. unfold is_u32, KERNBASE in *. lia. }
  destruct (present (pde_of (k_mem s) pgdir (PDX (4096 * w)))) eqn:Hpd.
  - erewrite bind_done by (by apply walk_present).
    destruct (pt_tab (uv_pt Hu) _ (PDX_range _ Hva) Hpd) as ((_ & _ & Hrg & _) & _).
    pose proof (PTX_range _ Hva) as Htx.
    rewrite (proj2 (Z.eqb_neq _ 0)) by (unfold KERNBASE in Hrg; lia). rewrite Hup.
    destruct (present (upte (k_mem s) pgdir w)) eqn:Hp.
    + destruct (drop_page pgdir s L w) as (s1 & E1 & [D1 D2 D3 D4 D5]); [done|done|done|lia|done|].
      rewrite (bind_drop _ (λ _, deallocuvm_loop fuel pgdir (4096 * (w + 1)) hi) _ _ E1).
      destruct (IH (w + 1) s1 (upa (k_mem s) pgdir w :: L)) as (s' & L' & E' & [U1 U2 U3 U4 U5]); try done; try lia.
      { by eapply vframe_ready. }
      exists s', L'. split; [done|]. constructor; [done|done|by eapply vframe_trans| |].
      * eapply ukeep_trans; [eapply ukeep_weaken; [|exact D3]|eapply ukeep_weaken; [|exact U4]]; simpl; lia.
      * intros v H1 H2. destruct (decide (v = w)) as [->|]; [|apply U5; lia].
        destruct (U4 w) as [-> _]; [pose proof (NUSER_lt w); lia|lia|done].
    + assert (E1 : drop_entry (tab_of (k_mem s) pgdir (PDX (4096 * w)) + 4 * PTX (4096 * w)) s = Done tt s).
      { unfold drop_entry, bind, rd32, gets. cbn [obind]. unfold upte, pte_of in Hp. rewrite Hpd in Hp.
        unfold present in Hp. by rewrite Hp. }
      rewrite (bind_drop _ (λ _, deallocuvm_loop fuel pgdir (4096 * (w + 1)) hi) _ _ E1).
      destruct (IH (w + 1) s L) as (s' & L' & E' & [U1 U2 U3 U4 U5]); try done; try lia.
      exists s', L'. split; [done|]. constructor; [done|done|done| |].
      * eapply ukeep_weaken; [|exact U4]; simpl; lia.
      * intros v H1 H2. destruct (decide (v = w)) as [->|]; [|apply U5; lia].
        destruct (U4 w) as [-> _]; [pose proof (NUSER_lt w); lia|lia|done].
  - erewrite bind_done by (by apply walk_absent). cbn [Z.eqb].
    pose proof (PDX_spec _ Hva) as Edx. pose proof (PDX_range _ Hva) as Hdx.
    assert (Hd : PDX (4096 * w) + 1 ≤ 512) by (unfold KERNBASE in *; zdiv).
    rewrite PGADDR_dir by lia. unfold PGSIZE.
    rewrite (u32_small ((PDX (4096 * w) + 1) * 4194304 - 4096)) by (unfold is_u32; lia).
    replace ((PDX (4096 * w) + 1) * 4194304 - 4096 + 4096) with (4096 * (1024 * (PDX (4096 * w) + 1))) by lia.
    rewrite u32_small by (unfold is_u32; lia). set (w' := 1024 * (PDX (4096 * w) + 1)).
    assert (Hw' : w < w') by (unfold w'; rewrite Edx; zdiv).
    assert (Hgap : ∀ v, w ≤ v < w' → present (upte (k_mem s) pgdir v) = false).
    { intros v Hv. rewrite absent_table; [done|].
      assert (Hvu : is_u32 (4096 * v)) by (apply is_u32_page; unfold w' in *; lia).
      replace (PDX (4096 * v)) with (PDX (4096 * w)); [done|]. rewrite !PDX_spec by done.
      unfold w' in Hv. rewrite Edx in Hv. zdiv. }
    destruct (IH w' s L) as (s' & L' & E' & [U1 U2 U3 U4 U5]); try done; try lia.
    { unfold NUSER, KERNBASE, w'. change (2147483648 / 4096) with 524288. lia. }
    exists s', L'. split; [done|]. constructor; [done|done|done| |].
    + eapply ukeep_weaken; [|exact U4]; simpl; lia.
    + intros v H1 H2. destruct (decide (w' ≤ v)) as [|Hn]; [apply U5; lia|].
      destruct (U4 v) as [-> _]; [unfold w' in *; lia|lia|apply Hgap; lia].
Qed.

Lemma deallocuvm_ok pgdir oldsz newsz s L :
  uvm s pgdir L → kmem_ready s → kmem_inv s L → 0 ≤ newsz → newsz < oldsz ≤ KERNBASE →
  ∃ s' L', deallocuvm pgdir oldsz newsz s = Done newsz s' ∧
    unmapped pgdir s L ((newsz + 4095) / 4096) oldsz s' L'.
Proof.
  intros Hu Hr Hk H0 H1. unfold deallocuvm. rewrite (proj2 (Z.leb_gt _ _)) by lia.
  unfold KERNBASE in *. rewrite PGROUNDUP_spec by lia.
  replace (newsz + 4095 - (newsz + 4095) mod 4096) with (4096 * ((newsz + 4095) / 4096)) by zdiv.
  destruct (deallocuvm_loop_ok pgdir oldsz (S (Z.to_nat (oldsz / PGSIZE + 1))) ((newsz + 4095) / 4096) s L)
    as (s' & L' & E & H); try done; try lia; try (unfold PGSIZE, NUSER, KERNBASE; zdiv).
  exists s', L'. split; [|done]. erewrite bind_done by exact E. done.
Qed.

(** * [allocuvm] *)

(** New pages: zero, writable and accessible to the user. *)
Definition fresh_page (m : mem) (pgdir v : Z) : Prop :=
  PTE_FLAGS (upte m pgdir v) = Z.lor (Z.lor PTE_P PTE_W) PTE_U ∧ ∀ x, pg x = upa m pgdir v → m x = 0.

Lemma fresh_page_keep pgdir K m m' v :
  ukeep pgdir K m m' → 0 ≤ v < NUSER → K v → present (upte m pgdir v) = true → fresh_page m pgdir v → fresh_page m' pgdir v.
Proof.
  intros Hk Hv HK Hp [H1 H2]. destruct (Hk v ltac:(pose proof (NUSER_lt v); lia) HK) as [E C].
  unfold fresh_page, upa. rewrite E. split; [done|]. intros x Hx. rewrite C by (done || lia). by apply H2.
Qed.

(** Memory grown from [n0] pages to [N], the pages up to [w] being there already; it
    fails only when the pages [L0] that were free at first do not suffice. *)
Record grown_to (pgdir : Z) (L0 : list Z) (s : kernel) (L : list Z) (n0 w N r0 : Z) (r : Z) (s' : kernel) (L' : list Z) : Prop := mkGrownTo {
  gt_inv : kmem_inv s' L';
  gt_uvm : uvm s' pgdir L';
  gt_frame : vframe pgdir s L s' L';
  gt_case : (r = r0 ∧ mapped_upto (k_mem s') pgdir N ∧
       ukeep pgdir (λ v, v < w ∨ NUSER ≤ v) (k_mem s) (k_mem s') ∧
       ∀ v, w ≤ v < N → fresh_page (k_mem s') pgdir v) ∨
    (r = 0 ∧ mapped_upto (k_mem s') pgdir n0 ∧ ukeep pgdir (λ v, v < n0 ∨ NUSER ≤ v) (k_mem s) (k_mem s') ∧
       Z.of_nat (length L0) ≤ 1025 + N);
}.

Lemma unmapped_upto pgdir s L n0 w hi s' L' :
  unmapped pgdir s L n0 hi s' L' → mapped_upto (k_mem s) pgdir w → n0 ≤ w → 4096 * (w - 1) < hi →
  mapped_upto (k_mem s') pgdir n0.
Proof.
  intros [_ _ _ U4 U5] Hm Hn Hw v Hv. destruct (Z.ltb_spec v n0).
  - destruct (U4 v) as [-> _]; [pose proof (NUSER_lt v); lia|lia|]. rewrite Hm by done. lia.
  - destruct (decide (4096 * v < hi)); [apply U5; lia|].
    destruct (U4 v) as [-> _]; [pose proof (NUSER_lt v); lia|lia|]. rewrite Hm by done. lia.
Qed.

(** Giving up: the message, and the pages of this call freed. *)
Lemma give_back pgdir oldsz newsz w s L (msg : string) :
  uvm s pgdir L → kmem_ready s → kmem_inv s L → can_print s → cons_ready s → args_ok (bytes msg) [] = true →
  mapped_upto (k_mem s) pgdir w → 0 ≤ oldsz → (oldsz + 4095) / 4096 ≤ w → 4096 * w < newsz + 4096 → oldsz < newsz < KERNBASE →
  ∃ s' L', (∀ (k : K Z), (cprint msg [] ;;; deallocuvm pgdir newsz oldsz ;;; k) s = k s') ∧
    kmem_inv s' L' ∧ uvm s' pgdir L' ∧ vframe pgdir s L s' L' ∧
    mapped_upto (k_mem s') pgdir ((oldsz + 4095) / 4096) ∧
    ukeep pgdir (λ v, v < (oldsz + 4095) / 4096 ∨ NUSER ≤ v) (k_mem s) (k_mem s').
Proof.
  intros Hu Hr Hk Hc1 Hc2 Ha Hm H0 Hw Hw' Hsz.
  destruct (cprint_ok msg [] s Hc1 Hc2 Ha) as (s1 & E1 & F1).
  pose proof (vframe_out pgdir s L s1 F1) as V1. destruct F1 as [Es1 _].
  assert (Em : k_mem s1 = k_mem s) by (by rewrite Es1).
  destruct (deallocuvm_ok pgdir newsz oldsz s1 L) as (s2 & L2 & E2 & U); [| | |lia|lia|].
  { eapply uvm_same; [done|by rewrite Es1|by rewrite Em|]. intros p Hp. by eapply owns_ok. }
  { by eapply vframe_ready. }
  { unfold kmem_inv, page_ok. rewrite Es1. exact Hk. }
  exists s2, L2. split.
  { intros k. erewrite bind_done by exact E1. by erewrite bind_done by exact E2. }
  pose proof U as [U1 U2 U3 U4 U5]. split; [done|]. split; [done|]. split; [by eapply vframe_trans|].
  rewrite Em in U4. split.
  - eapply unmapped_upto; [exact U|by rewrite Em|done|lia].
  - eapply ukeep_weaken; [|exact U4]. intros v Hv. simpl. unfold NUSER, KERNBASE in *. 
    change (2147483648 / 4096) with 524288 in Hv. lia.
Qed.

Lemma mset_page m q c x : q mod 4096 = 0 → mset m q c PGSIZE x = if pg x =? q then u8 c else m x.
Proof.
  intros Hq. pose proof (pg_in_page q x Hq) as Hi. unfold in_page in Hi. unfold mset, PGSIZE.
  destruct (Z.eqb_spec (pg x) q); case_bool; (done || lia).
Qed.

(** The page of the failed call, freed. *)
Lemma free_spare pgdir s L q :
  uvm s pgdir L → kmem_ready s → kmem_inv s L → page_ok s q → (q ∉ L) → ¬ owns (k_mem s) pgdir q →
  ∃ s', kfree q s = Done tt s' ∧ kmem_inv s' (q :: L) ∧ uvm s' pgdir (q :: L) ∧
    vframe pgdir s (q :: L) s' (q :: L) ∧ (∀ K, ukeep pgdir K (k_mem s) (k_mem s')) ∧
    same_entries pgdir (k_mem s) (k_mem s').
Proof.
  intros Hu Hr Hk Hq HqL Hqo. destruct (kfree_cons s q L Hr Hk Hq HqL) as (s1 & E1 & Hk1 & Hs1 & Hoff).
  assert (Hm1 : ∀ x, pg x ≠ q → k_mem s1 x = k_mem s x).
  { intros x Hx. apply Hoff. destruct Hq as (Hal & _). pose proof (pg_in_page q x Hal) as Hi. unfold in_page, PGSIZE in *. lia. }
  destruct (uvm_other s s1 pgdir L (q :: L)) as (Hu1 & Hse & _); [done|by rewrite Hs1| | |].
  { intros x Hx. apply Hm1. intros E. apply Hqo. by rewrite <-E. }
  { intros p Hp. apply not_elem_of_cons. split; [by intros ->|by eapply owns_ok]. }
  exists s1. do 3 (split; [done|]). split; [|split; [|done]].
  - constructor.
    + rewrite Hs1. by destruct s.
    + by rewrite Hs1.
    + intros x Ho Hx. apply Hm1. by apply not_elem_of_cons in Hx as [].
    + intros p. by rewrite (same_entries_owns _ _ _ p Hse).
  - intros K v Hv _. rewrite (same_entries_at _ _ _ _ Hse) by done. split; [done|].
    intros Hn Hp x Hx. apply Hm1. intros E. apply Hqo. right. exists v. split; [lia|]. split; [done|congruence].
Qed.

Lemma spare_bound pgdir s q w L0 :
  NoDup L0 → (∀ p, p ∈ L0 → p = q ∨ owns (k_mem s) pgdir p) → mapped_upto (k_mem s) pgdir w → 0 ≤ w →
  Z.of_nat (length L0) ≤ 1025 + (w + 1).
Proof.
  intros Hnd Ho Hm Hw. destruct (decide (q ∈ L0)) as [Hq|Hq].
  - apply list_elem_of_split in Hq as (l1 & l2 & ->). rewrite <-Permutation_middle in Hnd.
    apply NoDup_cons in Hnd as [Hq Hnd].
    assert (Z.of_nat (length (l1 ++ l2)) ≤ 1025 + w); [|rewrite length_app in *; cbn [length]; lia].
    apply (owned_bound (k_mem s) pgdir); [done| |done|done]. intros p Hp.
    destruct (Ho p) as [->|]; [|done|done]. rewrite elem_of_app, elem_of_cons in *. tauto.
  - etrans; [apply (owned_bound (k_mem s) pgdir w)|]; [done| |done|done|lia]. intros p Hp.
    destruct (Ho p Hp) as [->|]; done.
Qed.

(** No page for a table: the memory of this call and the spare page [q] are freed. *)
Lemma alloc_no_table pgdir oldsz newsz w q s0 L0 s :
  NoDup L0 → vframe pgdir s0 L0 s [q] →
  uvm s pgdir [] → kmem_ready s → kmem_inv s [] → can_print s → cons_ready s → page_ok s q → ¬ owns (k_mem s) pgdir q →
  mapped_upto (k_mem s) pgdir w → 0 ≤ oldsz → (oldsz + 4095) / 4096 ≤ w → 4096 * w < newsz + 4096 → oldsz < newsz < KERNBASE →
  ∃ s' L', (cprint "allocuvm out of memory (2)
" [] ;;; deallocuvm pgdir newsz oldsz ;;; kfree q ;;; ret 0) s = Done 0 s' ∧
    kmem_inv s' L' ∧ uvm s' pgdir L' ∧ vframe pgdir s [q] s' L' ∧
    mapped_upto (k_mem s') pgdir ((oldsz + 4095) / 4096) ∧
    ukeep pgdir (λ v, v < (oldsz + 4095) / 4096 ∨ NUSER ≤ v) (k_mem s) (k_mem s') ∧
    Z.of_nat (length L0) ≤ 1025 + (w + 1).
Proof.
  intros Hnd F0 Hu Hr Hk Hc1 Hc2 Hq Hqo Hm H0 Hw Hw' Hsz.
  destruct (give_back pgdir oldsz newsz w s [] "allocuvm out of memory (2)
") as (s3 & L3 & E3 & U1 & U2 & U3 & U4 & U5); try done; try lia.
  rewrite E3. assert (Hq3 : page_ok s3 q) by (eapply page_ok_end; [by apply (vframe_end _ _ _ _ _ U3)|done]).
  pose proof (vf_pages _ _ _ _ _ U3 q) as Hpq. rewrite elem_of_nil in Hpq.
  destruct (free_spare pgdir s3 L3 q) as (s' & E' & V1 & V2 & V3 & V4 & V5); try done; try tauto.
  { by eapply vframe_ready; [exact U3|]. }
  erewrite bind_done by exact E'. exists s', (q :: L3). split; [done|]. split; [done|]. split; [done|].
  split; [eapply vframe_trans; [by apply vframe_extra|done]|]. split; [|split].
  - intros v Hv. rewrite (same_entries_upte _ _ _ _ V5) by done. by apply U4.
  - eapply ukeep_trans; [exact U5|apply V4].
  - apply (spare_bound pgdir s q w L0); [done| |done|zdiv]. intros p Hp.
    pose proof (proj2 (vf_pages _ _ _ _ _ F0 p) (or_introl Hp)) as Hx. by rewrite list_elem_of_singleton in Hx.
Qed.

Lemma allocuvm_loop_ok pgdir oldsz newsz s0 L0 : NoDup L0 → ∀ fuel w s L,
  vframe pgdir s0 L0 s L →
  0 ≤ oldsz → oldsz ≤ newsz < KERNBASE → (oldsz + 4095) / 4096 ≤ w ≤ (newsz + 4095) / 4096 →
  uvm s pgdir L → kmem_ready s → kmem_inv s L → can_print s → cons_ready s → mapped_upto (k_mem s) pgdir w →
  (0 < fuel)%nat → newsz - 4096 * w ≤ 4096 * (Z.of_nat fuel - 1) →
  ∃ r s' L', allocuvm_loop fuel pgdir (4096 * w) oldsz newsz s = Done r s' ∧
    grown_to pgdir L0 s L ((oldsz + 4095) / 4096) w ((newsz + 4095) / 4096) newsz r s' L'.
Proof.
  intros HL0 fuel. induction fuel as [|fuel IH]; intros w s L F0 H0 Hsz Hw Hu Hr Hk Hc1 Hc2 Hm Hpos Hf; [lia|].
  cbn [allocuvm_loop]. destruct (Z.ltb_spec (4096 * w) newsz) as [Hlt|Hge].
  2: { exists newsz, s, L. split; [done|]. constructor; [done|done|apply vframe_refl|]. left.
       replace ((newsz + 4095) / 4096) with w by zdiv. split; [done|]. split; [done|].
       split; [apply ukeep_refl|]. intros v Hv. lia. }
  assert (HwN : 0 ≤ w < NUSER) by (unfold NUSER, KERNBASE in *; zdiv).
  assert (Hws : 4096 * w < newsz + 4096 ∧ oldsz < newsz) by zdiv.
  destruct L as [|q L].
  { erewrite bind_done by (by apply kalloc_empty). cbn [Z.eqb].
    destruct (give_back pgdir oldsz newsz w s [] "allocuvm out of memory
") as (s' & L' & E & U1 & U2 & U3 & U4 & U5); try done; try lia.
    exists 0, s', L'. split; [apply E|]. constructor; [done|done|done|]. right. do 3 (split; [done|]).
    etrans; [apply (owned_bound (k_mem s) pgdir w L0)|]; [done| |done|lia|lia]. intros p Hp.
    destruct (proj2 (vf_pages _ _ _ _ _ F0 p)) as [H|H]; [by left|by apply not_elem_of_nil in H|done]. }
  destruct (kalloc_cons s q L Hr Hk) as (s1 & E1 & Hk1 & Hs1). erewrite bind_done by exact E1.
  assert (Hq : page_ok s q) by (destruct Hk as (_ & _ & Hfa); by inversion Hfa).
  assert (Hqal : q mod 4096 = 0) by apply Hq.
  pose proof Hq as (_ & _ & Hqr & _). rewrite (proj2 (Z.eqb_neq q 0)) by (unfold KERNBASE in Hqr; lia).
  erewrite bind_done by (unfold zero_page, modify; done).
  assert (Habs : present (upte (k_mem s) pgdir w) = false) by (rewrite Hm by done; lia).
  set (m1 := mset (k_mem s1) q 0 PGSIZE).
  assert (Em1 : k_mem s1 = k_mem s) by (by rewrite Hs1).
  destruct (add_page pgdir s q L w (Z.lor PTE_W PTE_U) s1 m1) as (r & s2 & L2 & E2 & [A1 A2 A3 A4 A5]); try done.
  { intros x Hx. unfold m1. rewrite mset_page, Em1 by done. by rewrite (proj2 (Z.eqb_neq _ _)). }
  erewrite bind_done by exact E2.
  pose proof (vframe_ready _ _ _ _ _ A4 Hr) as Hr2. destruct (vframe_print _ _ _ _ _ A4 Hc1 Hc2) as [Hp2 Hc2'].
  destruct A5 as [(-> & Hent & Hz)|(-> & -> & Hsame & Hno)].
  - cbn [Z.ltb Z.compare Z.eqb] in *. unfold PGSIZE.
    rewrite u32_small by (unfold is_u32, KERNBASE in *; lia). replace (4096 * w + 4096) with (4096 * (w + 1)) by lia.
    destruct (pte_encode s q (Z.lor PTE_W PTE_U)) as (_ & _ & Hep & Hea & Hef); [done|by vm_compute|].
    assert (Hm2 : mapped_upto (k_mem s2) pgdir (w + 1)).
    { intros v Hv. destruct (decide (v = w)) as [->|Hne]; [rewrite Hent, Hep; lia|].
      destruct (A3 v) as [-> _]; [pose proof (NUSER_lt v); lia|done|]. rewrite Hm by done. lia. }
    destruct (IH (w + 1) s2 L2) as (r' & s' & L' & E' & [G1 G2 G3 G4]); try done; try lia.
    { by eapply vframe_trans. }
    { zdiv. }
    exists r', s', L'. split; [done|]. constructor; [done|done|by eapply vframe_trans|].
    destruct G4 as [(-> & G4 & G5 & G6)|(-> & G4 & G5 & G7)]; [left|right].
    + split; [done|]. split; [done|]. split.
      * eapply ukeep_trans; (eapply ukeep_weaken; [|done]); simpl; lia.
      * intros v Hv. destruct (decide (v = w)) as [->|]; [|apply G6; lia].
        eapply fresh_page_keep; [exact G5|done|lia|by rewrite Hent|]. split; [by rewrite Hent, Hef|].
        intros x Hx. unfold upa in Hx. rewrite Hent, Hea in Hx. rewrite Hz by done. unfold m1.
        by rewrite mset_page, Hx, Z.eqb_refl by done.
    + split; [done|]. split; [done|]. split; [|done]. eapply ukeep_trans; (eapply ukeep_weaken; [|done]); simpl; lia.
  - cbn [Z.ltb Z.compare Z.eqb] in *.
    assert (Hm2 : mapped_upto (k_mem s2) pgdir w).
    { intros v Hv. destruct (decide (v = w)) as [->|Hne]; [by rewrite Hsame, Hm|].
      destruct (A3 v) as [-> _]; [pose proof (NUSER_lt v); lia|done|]. by apply Hm. }
    destruct (alloc_no_table pgdir oldsz newsz w q s0 L0 s2) as (s' & L' & E' & N1 & N2 & N3 & N4 & N5 & N6); try done; try lia.
    { by eapply vframe_trans. }
    { eapply page_ok_end; [|exact Hq]. by rewrite (vframe_end _ _ _ _ _ A4). }
    exists 0, s', L'. split; [done|]. constructor; [done|done|by eapply vframe_trans|right].
    split; [done|]. split; [done|]. split; [|etrans; [exact N6|zdiv]].
    eapply ukeep_trans; [|exact N5]. eapply ukeep_weaken; [|exact A3]. simpl. lia.
Qed.

(** The pages [L0] are those that were free when the space was in the state [s0]. *)
Lemma allocuvm_from pgdir oldsz newsz s0 L0 s L :
  NoDup L0 → vframe pgdir s0 L0 s L →
  uvm s pgdir L → kmem_ready s → kmem_inv s L → can_print s → cons_ready s →
  0 ≤ oldsz → oldsz ≤ newsz < KERNBASE → mapped_upto (k_mem s) pgdir ((oldsz + 4095) / 4096) →
  ∃ r s' L', allocuvm pgdir oldsz newsz s = Done r s' ∧
    grown_to pgdir L0 s L ((oldsz + 4095) / 4096) ((oldsz + 4095) / 4096) ((newsz + 4095) / 4096) newsz r s' L'.
Proof.
  intros Hnd F0 Hu Hr Hk Hc1 Hc2 H0 Hsz Hm. unfold allocuvm. rewrite (proj2 (Z.leb_gt _ _)), (proj2 (Z.ltb_ge _ _)) by lia.
  unfold KERNBASE in *. rewrite PGROUNDUP_spec by lia.
  replace (oldsz + 4095 - (oldsz + 4095) mod 4096) with (4096 * ((oldsz + 4095) / 4096)) by zdiv.
  apply (allocuvm_loop_ok pgdir oldsz newsz s0 L0); try done; try lia; (unfold PGSIZE; zdiv).
Qed.

Lemma allocuvm_ok pgdir oldsz newsz s L :
  uvm s pgdir L → kmem_ready s → kmem_inv s L → can_print s → cons_ready s →
  0 ≤ oldsz → oldsz ≤ newsz < KERNBASE → mapped_upto (k_mem s) pgdir ((oldsz + 4095) / 4096) →
  ∃ r s' L', allocuvm pgdir oldsz newsz s = Done r s' ∧
    grown_to pgdir L s L ((oldsz + 4095) / 4096) ((oldsz + 4095) / 4096) ((newsz + 4095) / 4096) newsz r s' L'.
Proof. intros Hu Hr Hk. apply (allocuvm_from pgdir oldsz newsz s L s L); [apply Hk|apply vframe_refl|done|done|done]. Qed.

(** * [freevm] *)

(** The tables from [k] on, all in use and distinct. *)
Definition tables_from (s : kernel) (pgdir : Z) (L : list Z) (k : Z) : Prop :=
  (∀ i, k ≤ i < 1024 → present (pde_of (k_mem s) pgdir i) = true →
     page_ok s (tab_of (k_mem s) pgdir i) ∧ (tab_of (k_mem s) pgdir i ∉ L) ∧ tab_of (k_mem s) pgdir i ≠ pgdir) ∧
  (∀ i j, k ≤ i < 1024 → k ≤ j < 1024 → present (pde_of (k_mem s) pgdir i) = true →
     present (pde_of (k_mem s) pgdir j) = true → tab_of (k_mem s) pgdir i = tab_of (k_mem s) pgdir j → i = j).

Definition is_table (m : mem) (pgdir k p : Z) : Prop :=
  ∃ i, k ≤ i < 1024 ∧ present (pde_of m pgdir i) = true ∧ tab_of m pgdir i = p.

(** The body of the loop of [freevm]. *)
Definition free_table (pgdir i : Z) : K unit :=
  e <- rd32 (pgdir + 4 * i) ;;
  if negb (Z.land e PTE_P =? 0) then kfree (P2V (PTE_ADDR e)) else ret tt.

Lemma free_table_ok pgdir k s L :
  kmem_ready s → kmem_inv s L → 0 ≤ k < 1024 → tables_from s pgdir L k →
  ∃ s1 L1, free_table pgdir k s = Done tt s1 ∧ kmem_inv s1 L1 ∧
    s1 = with_k_freelist (k_freelist s1) (with_k_mem (k_mem s1) s) ∧
    (∀ p, p ∈ L1 ↔ p ∈ L ∨ (present (pde_of (k_mem s) pgdir k) = true ∧ tab_of (k_mem s) pgdir k = p)) ∧
    (∀ x, ¬ (present (pde_of (k_mem s) pgdir k) = true ∧ tab_of (k_mem s) pgdir k = pg x) → k_mem s1 x = k_mem s x).
Proof.
  intros Hr Hk Hki [Ht1 _]. unfold free_table, bind, rd32, gets. cbn [obind]. fold (pde_of (k_mem s) pgdir k).
  destruct (present (pde_of (k_mem s) pgdir k)) eqn:Hp; unfold present in Hp; rewrite Hp.
  - destruct (Ht1 k) as (Hq & HqL & _); [lia|done|]. fold (tab_of (k_mem s) pgdir k).
    destruct (kfree_cons s _ L Hr Hk Hq HqL) as (s1 & E1 & Hk1 & Hs1 & Hoff).
    exists s1, (tab_of (k_mem s) pgdir k :: L). split; [done|]. split; [done|]. split; [rewrite Hs1; by destruct s|]. split.
    + intros p. rewrite elem_of_cons. naive_solver.
    + intros x Hx. apply Hoff. destruct Hq as (Hal & _). pose proof (pg_in_page _ x Hal) as Hi.
      unfold in_page, PGSIZE in *. naive_solver lia.
  - exists s, L. split; [done|]. split; [done|]. split; [by destruct s|]. split; [naive_solver|done].
Qed.

Lemma free_tables pgdir : ∀ (n : nat) k s L,
  0 ≤ k → k + Z.of_nat n = 1024 → kmem_ready s → kmem_inv s L → pgdir mod 4096 = 0 → tables_from s pgdir L k →
  ∃ s' L', for_each (seqZ k (Z.of_nat n)) (free_table pgdir) s = Done tt s' ∧
    kmem_inv s' L' ∧ s' = with_k_freelist (k_freelist s') (with_k_mem (k_mem s') s) ∧
    (∀ p, p ∈ L' ↔ p ∈ L ∨ is_table (k_mem s) pgdir k p) ∧
    (∀ x, ¬ is_table (k_mem s) pgdir k (pg x) → k_mem s' x = k_mem s x).
Proof.
  induction n as [|n IH]; intros k s L H0 Hkn Hr Hk Hal Ht.
  - exists s, L. split; [done|]. split; [done|]. split; [by destruct s|]. split; [|done]. intros p.
    split; [by left|]. intros [|(i & Hi & _)]; [done|lia].
  - rewrite seqZ_cons by lia. replace (Z.pred (Z.of_nat (S n))) with (Z.of_nat n) by lia. cbn [for_each].
    destruct (free_table_ok pgdir k s L) as (s1 & L1 & E1 & Hk1 & Hs1 & HL1 & Hm1); [done|done|lia|done|].
    erewrite bind_done by exact E1. destruct Ht as [Ht1 Ht2].
    assert (Hd : ∀ i, 0 ≤ i < 1024 → pde_of (k_mem s1) pgdir i = pde_of (k_mem s) pgdir i).
    { intros i Hi. apply load32_page; [done|done|]. intros x Hx. apply Hm1. intros [Hp Et].
      destruct (Ht1 k) as (_ & _ & H); [lia|done|]. congruence. }
    assert (Htb : ∀ i, 0 ≤ i < 1024 → tab_of (k_mem s1) pgdir i = tab_of (k_mem s) pgdir i)
      by (intros i Hi; unfold tab_of; by rewrite Hd).
    destruct (IH (Z.succ k) s1 L1) as (s' & L' & E' & Hk' & Hs' & HL' & Hm'); try lia; try done.
    { by rewrite Hs1. }
    { split.
      - intros i Hi. rewrite Hd, Htb by lia. intros Hp. destruct (Ht1 i) as (H1 & H2 & H3); [lia|done|].
        split; [apply (page_ok_end s); [by rewrite Hs1|done]|]. split; [|done]. rewrite HL1. intros [|[Hpk Ek]]; [done|].
        assert (k = i); [|lia]. apply Ht2; (done || lia).
      - intros i j Hi Hj. rewrite !Hd, !Htb by lia. apply Ht2; lia. }
    assert (Hit : ∀ p, is_table (k_mem s) pgdir k p ↔
      (present (pde_of (k_mem s) pgdir k) = true ∧ tab_of (k_mem s) pgdir k = p) ∨ is_table (k_mem s1) pgdir (Z.succ k) p).
    { intros p. unfold is_table. split.
      - intros (i & Hi & Hp & Et). destruct (decide (i = k)) as [->|]; [by left|right]. exists i.
        rewrite Hd, Htb by lia. split; [lia|done].
      - intros [[Hp Et]|(i & Hi & Hp & Et)]; [exists k; split; [lia|done]|]. exists i.
        rewrite Hd, Htb in * by lia. split; [lia|done]. }
    exists s', L'. split; [done|]. split; [done|]. split; [rewrite Hs', Hs1; done|]. split.
    + intros p. rewrite HL', HL1, Hit. tauto.
    + intros x Hx. rewrite Hit in Hx. rewrite Hm' by tauto. apply Hm1. tauto.
Qed.

(** The pages of the space are free again. *)
Record freed (pgdir : Z) (s : kernel) (L : list Z) (s' : kernel) (L' : list Z) : Prop := mkFreed {
  fr_inv : kmem_inv s' L';
  fr_state : s' = with_k_freelist (k_freelist s') (with_k_mem (k_mem s')
    (with_k_out (k_out s') (with_k_screen (k_screen s') s)));
  fr_screen : screen_ok (k_screen s) → screen_ok (k_screen s');
  fr_pages : ∀ p, p ∈ L' ↔ p ∈ L ∨ owns (k_mem s) pgdir p;
  fr_mem : ∀ x, ¬ owns (k_mem s) pgdir (pg x) → pg x ∉ L → k_mem s' x = k_mem s x;
}.

Lemma freevm_ok pgdir s L :
  uvm s pgdir L → kmem_ready s → kmem_inv s L →
  ∃ s' L', freevm pgdir s = Done tt s' ∧ freed pgdir s L s' L'.
Proof.
  intros Hu Hr Hk. pose proof (pt_dir (uv_pt Hu)) as (Dal & _ & Drg & _). unfold freevm.
  rewrite (proj2 (Z.eqb_neq pgdir 0)) by (unfold KERNBASE in Drg; lia).
  destruct (deallocuvm_ok pgdir KERNBASE 0 s L) as (s1 & L1 & E1 & [U1 U2 U3 U4 U5]); [done|done|done|lia|unfold KERNBASE; lia|].
  erewrite bind_done by exact E1. fold (free_table pgdir).
  destruct (free_tables pgdir 1024 0 s1 L1) as (s2 & L2 & E2 & Hk2 & Hs2 & HL2 & Hm2); [lia|lia| |done|exact Dal| |].
  { by eapply vframe_ready. }
  { split; [apply (pt_tab (uv_pt U2))|apply (pt_inj (uv_pt U2))]. }
  change (Z.of_nat 1024) with 1024 in E2. erewrite bind_done by exact E2.
  assert (Hmeta : ∀ p, owns (k_mem s1) pgdir p ↔ p = pgdir ∨ is_table (k_mem s1) pgdir 0 p).
  { intros p. unfold owns, is_meta, is_table. split; [|tauto]. intros [|(v & Hv & Hp & _)]; [done|].
    rewrite U5 in Hp; [done|apply Hv|]. unfold NUSER, KERNBASE in *. change (2147483648 / 4096) with 524288 in Hv. lia. }
  pose proof (pt_dir_used (uv_pt U2)) as HdL.
  assert (Hdt : ¬ is_table (k_mem s1) pgdir 0 pgdir).
  { intros (i & Hi & Hp & Et). by destruct (pt_tab (uv_pt U2) i Hi Hp) as (_ & _ & H). }
  assert (Hd2 : pgdir ∉ L2) by (rewrite HL2; tauto).
  destruct (kfree_cons s2 pgdir L2) as (s' & E' & Hk' & Hs' & Hoff); [|done| |done|].
  { pose proof (vframe_ready _ _ _ _ _ U3 Hr) as Hr1. by rewrite Hs2. }
  { apply (page_ok_end s1); [by rewrite Hs2|apply (pt_dir (uv_pt U2))]. }
  exists s', (pgdir :: L2). split; [done|]. pose proof U3 as [V1 V2 V3 V4]. constructor; [done| | | |].
  - rewrite Hs', Hs2, V1. done.
  - rewrite Hs', Hs2. done.
  - intros p. rewrite elem_of_cons, HL2, <-V4, Hmeta. tauto.
  - intros x H1 H2. pose proof (V4 (pg x)) as Hp. rewrite Hmeta in Hp.
    rewrite Hoff.
    + rewrite Hm2 by tauto. by apply V3.
    + pose proof (pg_in_page pgdir x Dal) as Hi. unfold in_page, PGSIZE in *.
      destruct (decide (pg x = pgdir)); [|lia]. tauto.
Qed.

(** * Theorems *)

Definition npages (sz : Z) : Z := (sz + 4095) / 4096.

Lemma user_aligned s pgdir L v :
  uvm s pgdir L → 0 ≤ v < NUSER → present (upte (k_mem s) pgdir v) = true → upa (k_mem s) pgdir v mod 4096 = 0.
Proof. intros Hu Hv Hp. destruct (uv_page Hu (upa (k_mem s) pgdir v)) as ((Hal & _) & _); [by exists v|exact Hal]. Qed.

(** The bytes of the first [n] pages. *)
Lemma ukeep_bytes s pgdir L n K m' :
  uvm s pgdir L → mapped_upto (k_mem s) pgdir n → n ≤ NUSER → ukeep pgdir K (k_mem s) m' → (∀ v, v < n → K v) →
  ∀ va, 0 ≤ va < 4096 * n → ubyte m' pgdir va = ubyte (k_mem s) pgdir va.
Proof.
  intros Hu Hm Hn Hk HK va Hva. assert (Hv : 0 ≤ va / 4096 < NUSER ∧ va / 4096 < n) by (split; zdiv).
  assert (Hp : present (upte (k_mem s) pgdir (va / 4096)) = true) by (rewrite Hm by tauto; lia).
  eapply ukeep_byte; [exact Hk| |apply HK; tauto|done|eapply user_aligned; [done|tauto|done]].
  unfold NUSER, KERNBASE in *. zdiv.
Qed.

(** [allocuvm] grows a process: it returns; when it returns the new size, the pages up to it
    are mapped, the new ones zero, writable and accessible to the user; when it returns 0,
    fewer pages were free than it may need and the process has its old pages.  Either way
    the old bytes are kept, and the pages of the process and the free pages together are
    the same as before; no other memory is touched. *)
Theorem allocuvm_grows pgdir oldsz newsz s L :
  uvm s pgdir L → kmem_ready s → kmem_inv s L → can_print s → cons_ready s →
  0 ≤ oldsz → oldsz ≤ newsz < KERNBASE → mapped_upto (k_mem s) pgdir (npages oldsz) →
  ∃ r s' L', allocuvm pgdir oldsz newsz s = Done r s' ∧ uvm s' pgdir L' ∧ kmem_inv s' L' ∧
    vframe pgdir s L s' L' ∧
    (∀ va, 0 ≤ va < 4096 * npages oldsz → ubyte (k_mem s') pgdir va = ubyte (k_mem s) pgdir va) ∧
    ((r = newsz ∧ mapped_upto (k_mem s') pgdir (npages newsz) ∧
      ∀ va, 4096 * npages oldsz ≤ va < 4096 * npages newsz →
        ubyte (k_mem s') pgdir va = 0 ∧
        PTE_FLAGS (upte (k_mem s') pgdir (va / 4096)) = Z.lor (Z.lor PTE_P PTE_W) PTE_U) ∨
     (r = 0 ∧ mapped_upto (k_mem s') pgdir (npages oldsz) ∧ Z.of_nat (length L) ≤ 1025 + npages newsz)).
Proof.
  intros Hu Hr Hk Hc1 Hc2 H0 Hsz Hm.
  destruct (allocuvm_ok pgdir oldsz newsz s L) as (r & s' & L' & E & [G1 G2 G3 G4]); try done.
  assert (Hn : npages oldsz ≤ NUSER) by (unfold npages, NUSER, KERNBASE in *; zdiv).
  exists r, s', L'. do 4 (split; [done|]). split.
  - destruct G4 as [(_ & _ & G5 & _)|(_ & _ & G5 & _)]; (eapply ukeep_bytes; [done|done|done|exact G5|]; by left).
  - destruct G4 as [(-> & G5 & _ & G6)|(-> & G5 & _ & G6)]; [left|by right]. split; [done|]. split; [done|].
    intros va Hva. destruct (G6 (va / 4096)) as [F1 F2]; [unfold npages in *; zdiv|]. split; [|done].
    assert (Hv : 0 ≤ va / 4096 < NUSER) by (unfold npages, NUSER, KERNBASE in *; zdiv).
    unfold ubyte. apply F2. apply pg_offset. eapply user_aligned; [done|done|]. rewrite G5 by done. unfold npages in *. zdiv.
Qed.

(** C30: [freevm] gives back everything: afterwards the free pages are those that were free
    and the directory, the tables and the user pages of the space, each once, and no
    other memory has changed. *)
Theorem freevm_frees pgdir s L :
  uvm s pgdir L → kmem_ready s → kmem_inv s L →
  ∃ s' L', freevm pgdir s = Done tt s' ∧ kmem_inv s' L' ∧
    (∀ p, p ∈ L' ↔ p ∈ L ∨ owns (k_mem s) pgdir p) ∧
    (∀ x, ¬ owns (k_mem s) pgdir (pg x) → pg x ∉ L → k_mem s' x = k_mem s x).
Proof.
  intros Hu Hr Hk. destruct (freevm_ok pgdir s L Hu Hr Hk) as (s' & L' & E & [F1 F2 F3 F4 F5]).
  by exists s', L'.
Qed.

(** ** Witnesses *)

(** A process with one page, at physical address 0x400000, and one free page. *)
Definition demo_space : kernel := with_k_freelist (KERNBASE + 0x500000) demo_vm_mapped.

Lemma demo_space_mapped : mapped_upto (k_mem demo_space) demo_pgdir 1.
Proof.
  intros v Hv. pose proof (NUSER_lt v). assert (Hva : is_u32 (4096 * v)) by (apply is_u32_page; lia).
  destruct (decide (v = 0)) as [->|Hne]; [by vm_compute|]. destruct (Z.ltb_spec v 1); [lia|]. unfold upte, pte_of.
  destruct (present (pde_of (k_mem demo_space) demo_pgdir (PDX (4096 * v)))) eqn:Hp; [|done].
  apply demo_vm_mapped_pde in Hp; [|by apply PDX_range]. rewrite Hp.
  assert (Ht : 1 ≤ PTX (4096 * v) < 1024).
  { rewrite PDX_spec in Hp by done. rewrite PTX_spec by done. zdiv. }
  change (tab_of (k_mem demo_space) demo_pgdir 0) with (KERNBASE + 0x301000).
  unfold demo_space, demo_vm_mapped. cbn [k_mem with_k_mem with_k_freelist].
  rewrite load_store32_ne by lia. rewrite load_store32_ne by (unfold demo_pgdir; lia). done.
Qed.

Lemma demo_space_user p : is_user (k_mem demo_space) demo_pgdir p → p = KERNBASE + 0x400000.
Proof.
  intros (v & Hv & Hp & <-). rewrite demo_space_mapped in Hp by done. apply Z.ltb_lt in Hp.
  assert (v = 0) as -> by lia. by vm_compute.
Qed.

Lemma demo_space_page : is_user (k_mem demo_space) demo_pgdir (KERNBASE + 0x400000).
Proof.
  exists 0. split; [by vm_compute|]. split; [|by vm_compute].
  rewrite demo_space_mapped by (by vm_compute). done.
Qed.

Lemma demo_space_uvm : uvm demo_space demo_pgdir [KERNBASE + 0x500000].
Proof.
  pose proof demo_vm_mapped_pt as Hpt.
  assert (Hmeta : ∀ p, is_meta (k_mem demo_space) demo_pgdir p → p = demo_pgdir ∨ p = KERNBASE + 0x301000).
  { intros p [->|(i & Hi & Hp & <-)]; [by left|right]. apply demo_vm_mapped_pde in Hp as ->; [|done]. by vm_compute. }
  constructor.
  - apply (pt_ok_same demo_vm_mapped demo_space demo_pgdir [] _); [done|done|done|]. intros p Hp ->%list_elem_of_singleton.
    destruct (Hmeta _ Hp) as [E|E]; by vm_compute in E.
  - intros p ->%demo_space_user. split; [by vm_compute|]. split.
    + intros E%list_elem_of_singleton. by vm_compute in E.
    + intros Hp. destruct (Hmeta _ Hp) as [E|E]; by vm_compute in E.
  - intros v w Hv Hw. rewrite !demo_space_mapped by done. lia.
Qed.

Lemma demo_space_inv : kmem_inv demo_space [KERNBASE + 0x500000].
Proof. split; [by vm_compute|]. split; [apply NoDup_singleton|]. apply Forall_singleton. by vm_compute. Qed.

Lemma allocuvm_grows_witness :
  ∃ r s' L', allocuvm demo_pgdir 4096 8192 demo_space = Done r s' ∧ uvm s' demo_pgdir L' ∧ kmem_inv s' L' ∧
    (r = 8192 ∨ r = 0).
Proof.
  destruct (allocuvm_grows demo_pgdir 4096 8192 demo_space [KERNBASE + 0x500000])
    as (r & s' & L' & E & H1 & H2 & _ & _ & H3).
  - exact demo_space_uvm.
  - intros H. discriminate H.
  - exact demo_space_inv.
  - by vm_compute.
  - intros H. discriminate H.
  - lia.
  - unfold KERNBASE. lia.
  - exact demo_space_mapped.
  - exists r, s', L'. split; [exact E|]. split; [exact H1|]. split; [exact H2|]. destruct H3 as [[H3 _]|[H3 _]]; [by left|by right].
Defined.

Lemma freevm_frees_witness :
  ∃ s' L', freevm demo_pgdir demo_space = Done tt s' ∧ kmem_inv s' L' ∧
    KERNBASE + 0x400000 ∈ L' ∧ KERNBASE + 0x500000 ∈ L'.
Proof.
  destruct (freevm_frees demo_pgdir demo_space [KERNBASE + 0x500000]) as (s' & L' & E & H1 & H2 & _).
  - exact demo_space_uvm.
  - intros H. discriminate H.
  - exact demo_space_inv.
  - exists s', L'. split; [exact E|]. split; [exact H1|]. split; apply H2.
    + right. right. exact demo_space_page.
    + left. by apply list_elem_of_singleton.
Defined.
