(* ===== verification/Uvcopy.v ===== *)
(** New address spaces: [setupkvm] and [copyuvm] of vm.c.

    [setupkvm] makes a space with the mappings of the kernel and no user page;
    [copyuvm] adds a private copy of the user pages of another space.  When memory
    runs out, every page taken so far is free again. *)

From stdpp Require Import sorting.
From S2P Require Import Prelude State Spinlock Cprintf CString Mmu Kalloc Vm Uvm.
Import KLock.

(** * [setupkvm] *)

Definition km_size (k : kmap_t) : Z := u32 (km_phys_end k - km_phys_start k).
Definition km_first (k : kmap_t) : Z := km_virt k / 4096.
Definition km_last (k : kmap_t) : Z := (km_virt k + km_size k - 1) / 4096.

(** The page of [va] is in the region [k]. *)
Definition in_region (k : kmap_t) (va : Z) : Prop := km_first k ≤ va / 4096 ≤ km_last k.

(** A region of the kernel. *)
Definition region_ok (k : kmap_t) : Prop :=
  KERNBASE ≤ km_virt k ∧ 1 ≤ km_size k ∧ km_virt k + km_size k - 1 < 4294967296 ∧ is_u32 (km_phys_start k).

(** Exactly the regions [ks] are mapped. *)
Definition regions_mapped (m : mem) (pgdir : Z) (ks : list kmap_t) : Prop :=
  ∀ va, is_u32 va →
    (∀ k, k ∈ ks → in_region k va → pte_of m pgdir va = mapped (km_virt k) (km_phys_start k) (km_perm k) va) ∧
    ((∀ k, k ∈ ks → ¬ in_region k va) → pte_of m pgdir va = 0).

Lemma uvm_empty s pgdir L :
  pt_ok s pgdir L → mapped_upto (k_mem s) pgdir 0 → uvm s pgdir L.
Proof.
  intros Hpt Hm. assert (Hno : ∀ v, 0 ≤ v < NUSER → present (upte (k_mem s) pgdir v) = true → False).
  { intros v Hv Hp. rewrite Hm in Hp by done. apply Z.ltb_lt in Hp. lia. }
  constructor; [done| |].
  - intros p (v & Hv & Hp & _). by destruct (Hno v).
  - intros v w Hv _ Hp. by destruct (Hno v).
Qed.

Lemma regions_user m pgdir ks :
  Forall region_ok ks → regions_mapped m pgdir ks → mapped_upto m pgdir 0.
Proof.
  intros Hok Hr v Hv. destruct (Hr (4096 * v)) as [_ H]; [apply is_u32_page; pose proof (NUSER_lt v); lia|].
  unfold upte. rewrite H; [destruct (Z.ltb_spec v 0); [lia|done]|]. intros k Hk [H1 _].
  rewrite Forall_forall in Hok. destruct (Hok k Hk) as (Hb & _). unfold km_first, NUSER, KERNBASE in *.
  revert H1 Hv Hb. replace (4096 * v / 4096) with v by zdiv. zdiv.
Qed.

(** The states a new space goes through: its directory [d] and tables come from the
    pages [L] that were free in [s]. *)
Record building (s : kernel) (L : list Z) (d : Z) (s' : kernel) (L' : list Z) : Prop := mkBuilding {
  bd_inv : kmem_inv s' L';
  bd_pt : pt_ok s' d L';
  bd_state : s' = with_k_freelist (k_freelist s') (with_k_mem (k_mem s') s);
  bd_pages : ∀ p, p ∈ L' ∨ is_meta (k_mem s') d p ↔ p ∈ L;
  bd_mem : ∀ x, pg x ∉ L → k_mem s' x = k_mem s x;
}.

Lemma building_grow s L d s1 L1 s2 L2 :
  building s L d s1 L1 → kmem_inv s2 L2 → pt_ok s2 d L2 → pt_grow d s1 L1 s2 L2 → building s L d s2 L2.
Proof.
  intros [B1 B2 B3 B4 B5] Hk Hpt G. constructor; [done|done| | |].
  - destruct G as ((E & _) & _). rewrite E, B3. done.
  - intros p. by rewrite (grow_pages _ _ _ _ _ p G), B4.
  - intros x Hx. specialize (B4 (pg x)). rewrite (grow_mem _ _ _ _ _ x G Hpt) by tauto. by apply B5.
Qed.

Lemma start_building s d L :
  kmem_ready s → kmem_inv s (d :: L) →
  ∃ s1, (∀ A (k : Z → K A), (pgdir <- kalloc ;; k pgdir) s = k d s1) ∧
    building s (d :: L) d (with_k_mem (mset (k_mem s1) d 0 PGSIZE) s1) L ∧
    regions_mapped (mset (k_mem s1) d 0 PGSIZE) d [].
Proof.
  intros Hr Hk. destruct (kalloc_cons s d L Hr Hk) as (s1 & E1 & Hk1 & Hs1). exists s1.
  assert (Hd : page_ok s d) by (destruct Hk as (_ & _ & Hf); by inversion Hf).
  assert (HdL : d ∉ L) by (destruct Hk as (_ & Hnd & _); by apply NoDup_cons in Hnd as [? _]).
  assert (Dal : d mod 4096 = 0) by apply Hd. assert (Em : k_mem s1 = k_mem s) by (by rewrite Hs1).
  assert (Hz : ∀ i, 0 ≤ i < 1024 → pde_of (mset (k_mem s1) d 0 PGSIZE) d i = 0).
  { intros i Hi. by apply load32_zeroed. }
  assert (Hm : ∀ x, pg x ≠ d → mset (k_mem s1) d 0 PGSIZE x = k_mem s x).
  { intros x Hx. rewrite mset_page, Em by done. by rewrite (proj2 (Z.eqb_neq _ _)). }
  split; [intros A k; by erewrite bind_done by exact E1|]. split; [constructor|].
  - destruct Hk1 as (Hrep & Hnd & Hok). split; [|done]. eapply free_rep_frame; [|exact Hrep].
    intros p Hp. rewrite Forall_forall in Hok. destruct (Hok p Hp) as (Hal & _). cbn [k_mem with_k_mem].
    rewrite <-(Z.add_0_r p). change 0 with (4 * 0). apply load32_page; [exact Hal|lia|].
    intros x Hx. rewrite Hm, Em; [done|]. rewrite Hx. by intros ->.
  - constructor; cbn [k_mem with_k_mem].
    + apply (page_ok_end s); [by rewrite Hs1|done].
    + done.
    + intros i Hi. rewrite Hz by done. intros H. discriminate H.
    + intros i j Hi Hj. rewrite Hz by done. intros H. discriminate H.
  - rewrite Hs1. by destruct s.
  - intros p. rewrite elem_of_cons. unfold is_meta. cbn [k_mem with_k_mem]. split; [|tauto].
    intros [?|[?|(i & Hi & H & _)]]; [by right|by left|]. rewrite Hz in H by done. discriminate H.
  - intros x Hx. apply Hm. by apply not_elem_of_cons in Hx as [].
  - intros va Hva. split; [intros k Hk'; by apply not_elem_of_nil in Hk'|]. intros _. unfold pte_of.
    rewrite Hz by (by apply PDX_range). done.
Qed.

Definition region_apart (k k' : kmap_t) : Prop := km_last k < km_first k' ∨ km_last k' < km_first k.

(** The pages of a space that could not be finished are free again. *)
Record unbuilt (s : kernel) (L : list Z) (s' : kernel) (L' : list Z) : Prop := mkUnbuilt {
  ub_inv : kmem_inv s' L';
  ub_state : s' = with_k_freelist (k_freelist s') (with_k_mem (k_mem s')
    (with_k_out (k_out s') (with_k_screen (k_screen s') s)));
  ub_screen : screen_ok (k_screen s) → screen_ok (k_screen s');
  ub_pages : ∀ p, p ∈ L' ↔ p ∈ L;
  ub_mem : ∀ x, pg x ∉ L → k_mem s' x = k_mem s x;
}.

Lemma abandon s L d s1 L1 :
  building s L d s1 L1 → mapped_upto (k_mem s1) d 0 → kmem_ready s →
  ∃ s' L', freevm d s1 = Done tt s' ∧ unbuilt s L s' L'.
Proof.
  intros [B1 B2 B3 B4 B5] Hm Hr. destruct (freevm_ok d s1 L1) as (s' & L' & E & [F1 F2 F3 F4 F5]);
    [by apply uvm_empty|by rewrite B3|done|].
  assert (Ho : ∀ p, owns (k_mem s1) d p ↔ is_meta (k_mem s1) d p).
  { intros p. unfold owns. split; [|tauto]. intros [|(v & Hv & Hp & _)]; [done|]. rewrite Hm in Hp by done.
    apply Z.ltb_lt in Hp. lia. }
  exists s', L'. split; [done|]. constructor; [done| | | |].
  - rewrite F2, B3. done.
  - by rewrite B3 in F3.
  - intros p. by rewrite F4, Ho, B4.
  - intros x Hx. specialize (B4 (pg x)). rewrite F5; [by apply B5|rewrite Ho; tauto|tauto].
Qed.

Lemma region_mapped d done k s1 L1 s2 kk r :
  regions_mapped (k_mem s1) d done → region_ok k → Forall (λ k', region_apart k' k) done →
  maps_pages d (k_mem s1) (k_mem s2) (km_virt k) kk (km_phys_start k) (km_perm k) →
  (r = 0 ∧ kk = km_last k - km_first k + 1 ∨ r = -1 ∧ L1 = ([] : list Z) ∧ 0 ≤ kk ≤ km_last k - km_first k) →
  r = 0 → regions_mapped (k_mem s2) d (done ++ [k]).
Proof.
  intros Hd Hk Hap Hm Hc -> va Hva. destruct Hc as [[_ ->]|[? _]]; [|done]. destruct (Hd va Hva) as [H1 H2].
  rewrite Forall_forall in Hap. rewrite Hm by done. fold (km_first k). split.
  - intros k' [Hk'|Hk']%elem_of_app Hin.
    + specialize (Hap k' Hk'). unfold in_region, region_apart in *. case_bool; [lia|]. by apply H1.
    + apply list_elem_of_singleton in Hk' as ->. unfold in_region in Hin. case_bool; [done|lia].
  - intros Hno. assert (Hnk : ¬ in_region k va) by (apply Hno, elem_of_app; right; by apply list_elem_of_singleton).
    unfold in_region in Hnk. case_bool; [lia|]. apply H2. intros k' Hk'. apply Hno, elem_of_app. by left.
Qed.

Definition map_region (d : Z) (k : kmap_t) : K (option Z) :=
  r <- mappages d (km_virt k) (u32 (km_phys_end k - km_phys_start k)) (km_phys_start k) (km_perm k) ;;
  if r <? 0 then freevm d ;;; ret (Some 0) else ret None.

Lemma map_region_ok s L d done k s1 L1 :
  kmem_ready s → building s L d s1 L1 → regions_mapped (k_mem s1) d done →
  Forall region_ok done → region_ok k → Forall (λ k', region_apart k' k) done →
  ∃ r s2 L2, map_region d k s1 = Done r s2 ∧
    ((r = None ∧ building s L d s2 L2 ∧ regions_mapped (k_mem s2) d (done ++ [k])) ∨
     (r = Some 0 ∧ unbuilt s L s2 L2 ∧ (NoDup L → Z.of_nat (length L) ≤ 1025))).
Proof.
  intros Hr Hb Hd Hokd Hk Hap. pose proof Hk as (K1 & K2 & K3 & K4). unfold KERNBASE in K1.
  destruct (mappages_spec d (km_virt k) (km_size k) (km_phys_start k) (km_perm k) s1 L1)
    as (r & s2 & L2 & kk & E2 & Hk2 & Hpt2 & G & Hm & Hc); [lia|done|done|done| |apply Hb|apply Hb| |].
  { rewrite (bd_state _ _ _ _ _ Hb). done. }
  { intros x Hx Hin. destruct (Hd x Hx) as [_ H]. rewrite H; [done|]. intros k' Hk' Hin'.
    rewrite Forall_forall in Hap. specialize (Hap k' Hk'). unfold region_apart, in_region, km_first, km_last in *. lia. }
  pose proof (building_grow _ _ _ _ _ _ _ Hb Hk2 Hpt2 G) as Hb2.
  unfold map_region. fold (km_size k). erewrite bind_done by exact E2.
  destruct (decide (r = 0)) as [->|Hr0].
  - exists None, s2, L2. split; [done|]. left. split; [done|]. split; [done|]. by eapply region_mapped.
  - destruct Hc as [[? _]|(-> & -> & Hkk)]; [done|]. cbn [Z.ltb Z.compare].
    assert (Hm2 : mapped_upto (k_mem s2) d 0).
    { intros v Hv. pose proof (regions_user _ _ _ Hokd Hd v Hv) as H. rewrite <-H. unfold upte.
      rewrite Hm by (apply is_u32_page; pose proof (NUSER_lt v); lia). case_bool; [|done]. exfalso.
      replace (4096 * v / 4096) with v in * by zdiv. unfold NUSER, KERNBASE in Hv.
      assert (2147483648 / 4096 ≤ km_virt k / 4096) by (apply Z.div_le_mono; lia). lia. }
    destruct (abandon s L d s2 []) as (s' & L' & E' & U); [done|done|done|].
    erewrite bind_done by exact E'. exists (Some 0), s', L'. split; [done|]. right. split; [done|].
    split; [done|]. intros Hnd. apply (owned_bound (k_mem s2) d 0); [done| |done|done]. intros p Hp.
    apply (bd_pages _ _ _ _ _ Hb2) in Hp as [Hp|Hp]; [by apply not_elem_of_nil in Hp|by left].
Qed.

Lemma map_regions s L d : kmem_ready s → ∀ ks done s1 L1,
  building s L d s1 L1 → regions_mapped (k_mem s1) d done →
  Forall region_ok (done ++ ks) → StronglySorted region_apart (done ++ ks) →
  ∃ r s' L', for_return ks (map_region d) s1 = Done r s' ∧
    ((r = None ∧ building s L d s' L' ∧ regions_mapped (k_mem s') d (done ++ ks)) ∨
     (r = Some 0 ∧ unbuilt s L s' L' ∧ (NoDup L → Z.of_nat (length L) ≤ 1025))).
Proof.
  intros Hr ks. induction ks as [|k ks IH]; intros done s1 L1 Hb Hd Hok Hap.
  - exists None, s1, L1. split; [done|]. left. by rewrite app_nil_r.
  - cbn [for_return]. pose proof Hok as Hok'.
    apply Forall_app in Hok' as [Hokd Hokk]. apply Forall_cons in Hokk as [Hk _].
    pose proof Hap as Hap'. apply StronglySorted_app in Hap' as (Hdk & _ & _).
    destruct (map_region_ok s L d done k s1 L1) as (r & s2 & L2 & E2 & [(-> & Hb2 & Hd2)|(-> & U)]); try done.
    { apply Forall_forall. intros k' Hk'. apply Hdk; [done|left]. }
    + erewrite bind_done by exact E2. cbn iota.
      destruct (IH (done ++ [k]) s2 L2) as (r & s' & L' & E' & H); try done; try (by rewrite <-app_assoc).
      exists r, s', L'. split; [done|]. by rewrite <-app_assoc in H.
    + erewrite bind_done by exact E2. cbn iota. exists (Some 0), s2, L2. split; [done|]. by right.
Qed.

(** The kernel is linked with [data] at a page boundary past its text. *)
Definition data_ok (data : Z) : Prop := KERNLINK < data < KERNBASE + PHYSTOP ∧ data mod 4096 = 0.

Lemma kmap_regions data :
  data_ok data → Forall region_ok (kmap data) ∧ StronglySorted region_apart (kmap data).
Proof.
  intros [H1 H2]. unfold KERNLINK, KERNBASE, EXTMEM, PHYSTOP in H1.
  assert (E2 : km_size (mkKmap KERNLINK (V2P KERNLINK) (V2P data) 0) = data - KERNLINK).
  { unfold km_size. cbn [km_phys_end km_phys_start]. rewrite !V2P_small by (unfold KERNLINK, KERNBASE, EXTMEM; lia).
    rewrite u32_small; unfold is_u32, KERNLINK, KERNBASE, EXTMEM; lia. }
  assert (E3 : km_size (mkKmap data (V2P data) PHYSTOP PTE_W) = KERNBASE + PHYSTOP - data).
  { unfold km_size. cbn [km_phys_end km_phys_start]. rewrite !V2P_small by (unfold KERNBASE; lia).
    rewrite u32_small; unfold is_u32, KERNBASE, PHYSTOP; lia. }
  unfold kmap. split.
  - repeat apply Forall_cons_2; try apply Forall_nil_2; unfold region_ok; rewrite ?E2, ?E3;
      cbn [km_virt km_phys_start]; rewrite ?V2P_small by (unfold KERNLINK, KERNBASE, EXTMEM; lia);
      unfold KERNBASE, KERNLINK, EXTMEM, PHYSTOP, DEVSPACE, is_u32, km_size, KERNBASE, EXTMEM in *;
      cbn [km_phys_end km_phys_start]; try lia.
    + change (u32 (1048576 - 0)) with 1048576. lia.
    + change (u32 (0 - 4261412864)) with 33554432. lia.
  - unfold region_apart, km_first, km_last. 
    repeat (apply SSorted_cons; [|repeat apply Forall_cons_2; try apply Forall_nil_2]); try apply SSorted_nil;
    rewrite ?E2, ?E3; cbn [km_virt]; unfold KERNBASE, KERNLINK, EXTMEM, PHYSTOP, DEVSPACE, km_size, KERNBASE, EXTMEM in *;
    cbn [km_phys_end km_phys_start]; try (change (u32 (1048576 - 0)) with 1048576); left; zdiv.
Qed.

Lemma setupkvm_ok s L :
  kmem_ready s → kmem_inv s L → data_ok (k_data s) →
  ∃ r s' L', setupkvm s = Done r s' ∧
    ((r ≠ 0 ∧ building s L r s' L' ∧ regions_mapped (k_mem s') r (kmap (k_data s))) ∨
     (r = 0 ∧ unbuilt s L s' L' ∧ Z.of_nat (length L) ≤ 1025)).
Proof.
  intros Hr Hk Hdata. unfold setupkvm. destruct L as [|d L].
  { exists 0, s, []. erewrite bind_done by (by apply kalloc_empty). split; [done|]. right. split; [done|].
    split; [constructor; [done|by destruct s|done|done|done]|simpl; lia]. }
  destruct (start_building s d L Hr Hk) as (s1 & E1 & Hb & Hz). rewrite E1.
  pose proof (pt_dir (bd_pt _ _ _ _ _ Hb)) as (_ & _ & Drg & _). unfold KERNBASE in Drg.
  rewrite (proj2 (Z.eqb_neq d 0)) by lia. erewrite bind_done by (unfold zero_page, modify; done).
  change (DEVSPACE <? P2V PHYSTOP) with false. cbn iota. unfold bind at 1, gets. cbn [obind].
  assert (Ed : k_data (with_k_mem (mset (k_mem s1) d 0 PGSIZE) s1) = k_data s).
  { rewrite (bd_state _ _ _ _ _ Hb). done. }
  rewrite Ed. fold (map_region d). destruct (kmap_regions _ Hdata) as [Hok Hap].
  destruct (map_regions s (d :: L) d Hr (kmap (k_data s)) [] (with_k_mem (mset (k_mem s1) d 0 PGSIZE) s1) L)
    as (r & s' & L' & E' & H); try done.
  erewrite bind_done by exact E'. eexists _, s', L'. split; [done|].
  destruct H as [(-> & H1 & H2)|(-> & H1 & H2)]; [left|right]; [|split; [done|split; [done|apply H2, Hk]]].
  split; [simpl; lia|done].
Qed.

(** * [copyuvm] *)

(** A space [d] made of the pages [L] that were free in [s]. *)
Record copying (s : kernel) (L : list Z) (d : Z) (s1 : kernel) (L1 : list Z) : Prop := mkCopying {
  cp_inv : kmem_inv s1 L1;
  cp_uvm : uvm s1 d L1;
  cp_state : s1 = with_k_freelist (k_freelist s1) (with_k_mem (k_mem s1)
    (with_k_out (k_out s1) (with_k_screen (k_screen s1) s)));
  cp_screen : screen_ok (k_screen s) → screen_ok (k_screen s1);
  cp_pages : ∀ p, p ∈ L1 ∨ owns (k_mem s1) d p ↔ p ∈ L;
  cp_mem : ∀ x, pg x ∉ L → k_mem s1 x = k_mem s x;
}.

Lemma copying_frame s L d s1 L1 s2 L2 :
  copying s L d s1 L1 → vframe d s1 L1 s2 L2 → kmem_inv s2 L2 → uvm s2 d L2 → copying s L d s2 L2.
Proof.
  intros [C1 C2 C3 C4 C5 C6] [V1 V2 V3 V4] Hk Hu. constructor; [done|done| | | |].
  - rewrite V1, C3. done.
  - auto.
  - intros p. by rewrite V4, C5.
  - intros x Hx. specialize (C5 (pg x)). rewrite V3 by tauto. by apply C6.
Qed.

Lemma building_copying s L d s1 L1 :
  building s L d s1 L1 → mapped_upto (k_mem s1) d 0 → copying s L d s1 L1.
Proof.
  intros [B1 B2 B3 B4 B5] Hm. constructor; [done|by apply uvm_empty| | | |done].
  - rewrite B3 at 1. rewrite B3. by destruct s.
  - by rewrite B3.
  - intros p. rewrite <-B4. unfold owns. split; [|tauto]. intros [|[|(v & Hv & Hp & _)]]; [tauto|tauto|].
    rewrite Hm in Hp by done. apply Z.ltb_lt in Hp. lia.
Qed.

Lemma copying_abandon s L d s1 L1 :
  copying s L d s1 L1 → kmem_ready s → ∃ s' L', freevm d s1 = Done tt s' ∧ unbuilt s L s' L'.
Proof.
  intros [C1 C2 C3 C4 C5 C6] Hr. destruct (freevm_ok d s1 L1) as (s' & L' & E & [F1 F2 F3 F4 F5]);
    [done|by rewrite C3|done|].
  exists s', L'. split; [done|]. constructor; [done| | | |].
  - rewrite F2, C3. done.
  - auto.
  - intros p. by rewrite F4, C5.
  - intros x Hx. specialize (C5 (pg x)). rewrite F5 by tauto. by apply C6.
Qed.

(** The page [v] of [d] is a copy of the page [v] of [pgdir]. *)
Definition same_page_at (m m' : mem) (pgdir d v : Z) : Prop :=
  present (upte m' d v) = true ∧ PTE_FLAGS (upte m' d v) = PTE_FLAGS (upte m pgdir v) ∧
  ∀ o, 0 ≤ o < 4096 → m' (upa m' d v + o) = m (upa m pgdir v + o).

Lemma same_page_keep m m1 m2 pgdir d K v :
  ukeep d K m1 m2 → 0 ≤ v < NUSER → K v → upa m1 d v mod 4096 = 0 →
  same_page_at m m1 pgdir d v → same_page_at m m2 pgdir d v.
Proof.
  intros Hk Hv HK Hal (H1 & H2 & H3). destruct (Hk v ltac:(pose proof (NUSER_lt v); lia) HK) as [E C].
  unfold same_page_at. assert (Eu : upa m2 d v = upa m1 d v) by (unfold upa; by rewrite E).
  rewrite E, Eu. split; [done|]. split; [done|]. intros o Ho.
  rewrite C; [by apply H3|lia|done|]. apply pg_in_page; [done|]. unfold in_page. lia.
Qed.

Lemma flags_range e : 0 ≤ PTE_FLAGS e < 4096.
Proof. unfold PTE_FLAGS. change 0xFFF with (Z.ones 12). rewrite land_low by lia. apply Z.mod_pos_bound. lia. Qed.

Lemma flags_present e : present e = true → Z.lor (PTE_FLAGS e) PTE_P = PTE_FLAGS e.
Proof.
  intros H. assert (Hb : Z.testbit e 0 = true).
  { unfold present in H. apply negb_true_iff, Z.eqb_neq in H. destruct (Z.testbit e 0) eqn:Eb; [done|]. destruct H.
    apply Z.bits_inj'. intros i Hi. rewrite Z.land_spec, Z.bits_0. destruct (decide (i = 0)) as [->|]; [by rewrite Eb|].
    unfold PTE_P. rewrite (Z.bits_above_log2 1 i) by (simpl; lia). by rewrite andb_false_r. }
  apply Z.bits_inj'. intros i Hi. rewrite Z.lor_spec. destruct (decide (i = 0)) as [->|].
  - assert (E : Z.testbit (PTE_FLAGS e) 0 = true); [|by rewrite E].
    unfold PTE_FLAGS, u32. rewrite Z.land_spec. change 4294967296 with (2 ^ 32).
    rewrite Z.mod_pow2_bits_low by lia. by rewrite Hb.
  - unfold PTE_P. rewrite (Z.bits_above_log2 1 i) by (simpl; lia). by rewrite orb_false_r.
Qed.

Section copyuvm.
Context (s : kernel) (L : list Z) (pgdir n : Z).
Context (Hr : kmem_ready s) (Hu : uvm s pgdir L) (Hm : mapped_upto (k_mem s) pgdir n) (Hn : n ≤ NUSER).

(** The parent is out of reach. *)
Lemma parent_kept d s1 L1 :
  copying s L d s1 L1 → uvm s1 pgdir L1 ∧ same_entries pgdir (k_mem s) (k_mem s1) ∧
  apart_from (k_mem s1) L1 d pgdir ∧ ∀ x, owns (k_mem s) pgdir (pg x) → k_mem s1 x = k_mem s x.
Proof.
  intros [C1 C2 C3 C4 C5 C6]. assert (Hmem : ∀ x, owns (k_mem s) pgdir (pg x) → k_mem s1 x = k_mem s x).
  { intros x Hx. apply C6. by eapply owns_ok. }
  assert (Hp : ∀ p, owns (k_mem s) pgdir p → ¬ (p ∈ L1 ∨ owns (k_mem s1) d p)).
  { intros p Hp. rewrite C5. by eapply owns_ok. }
  destruct (uvm_other s s1 pgdir L L1) as (H1 & H2 & _); [done|by rewrite C3|done| |].
  { intros p Hp' Hin. apply (Hp p Hp'). by left. }
  do 2 (split; [done|]). split; [|done]. intros p Ho. apply (same_entries_owns _ _ _ p H2) in Ho.
  specialize (Hp p Ho). tauto.
Qed.

(** A page of the parent is copied, or memory runs out. *)
Lemma copy_step d v s1 L1 (rest : K bool) :
  copying s L d s1 L1 → mapped_upto (k_mem s1) d v → 0 ≤ v < n →
  let e := upte (k_mem s) pgdir v in
  ∃ s2 L2, copying s L d s2 L2 ∧
    let r := (m <- kalloc ;;
      if m =? 0 then ret false else
      copy_mem m (P2V (PTE_ADDR e)) PGSIZE ;;;
      r <- mappages d (4096 * v) PGSIZE (V2P m) (PTE_FLAGS e) ;;
      if r <? 0 then kfree m ;;; ret false else rest) s1 in
    ((r = Done false s2 ∧ (NoDup L → Z.of_nat (length L) ≤ 1025 + n)) ∨
     (r = rest s2 ∧ mapped_upto (k_mem s2) d (v + 1) ∧ same_page_at (k_mem s) (k_mem s2) pgdir d v ∧
      ukeep d (λ w, w ≠ v) (k_mem s1) (k_mem s2))).
Proof.
  intros HC Hmd Hv e. pose proof HC as [C1 C2 C3 C4 C5 C6].
  assert (HvN : 0 ≤ v < NUSER) by lia. assert (Hr1 : kmem_ready s1) by (rewrite C3; exact Hr).
  assert (Hpv : present e = true) by (unfold e; rewrite Hm by done; lia).
  assert (Hub : is_user (k_mem s) pgdir (upa (k_mem s) pgdir v)) by (by exists v).
  destruct (uv_page Hu _ Hub) as ((Sal & _) & SL & _).
  destruct L1 as [|q L1].
  { exists s1, []. split; [done|]. left. split; [by erewrite bind_done by (by apply kalloc_empty)|]. intros Hnd.
    etrans; [apply (owned_bound (k_mem s1) d v L)|]; [done| |done|lia|lia]. intros p Hp.
    apply C5 in Hp as [Hp|Hp]; [by apply not_elem_of_nil in Hp|done]. }
  destruct (kalloc_cons s1 q L1 Hr1 C1) as (s0 & E0 & Hk0 & Hs0).
  assert (Hq : page_ok s1 q) by (destruct C1 as (_ & _ & Hf); by inversion Hf).
  pose proof Hq as (Qal & _ & Qrg & _). unfold KERNBASE, PGSIZE in Qrg, Qal.
  assert (Em0 : k_mem s0 = k_mem s1) by (by rewrite Hs0).
  set (m1 := mcopy (k_mem s0) q (P2V (PTE_ADDR e)) PGSIZE).
  assert (Hperm : 0 ≤ PTE_FLAGS e < 4096) by apply flags_range.
  destruct (add_page d s1 q L1 v (PTE_FLAGS e) s0 m1) as (r & s2 & L2 & E2 & [A1 A2 A3 A4 A5]); try done.
  { rewrite Hmd by done. lia. }
  { intros x Hx. unfold m1, mcopy. rewrite Em0. pose proof (pg_in_page q x Qal) as Hi. unfold in_page, PGSIZE in *.
    case_bool; [lia|done]. }
  assert (Erun : ∀ K1 : Z → K bool, (m <- kalloc ;; if m =? 0 then ret false else
      copy_mem m (P2V (PTE_ADDR e)) PGSIZE ;;; r <- mappages d (4096 * v) PGSIZE (V2P m) (PTE_FLAGS e) ;;
      if r <? 0 then kfree m ;;; ret false else rest) s1 =
      (if r <? 0 then kfree q ;;; ret false else rest) s2).
  { intros _. erewrite bind_done by exact E0. rewrite (proj2 (Z.eqb_neq q 0)) by lia.
    erewrite bind_done by (unfold copy_mem, modify; done). by erewrite bind_done by exact E2. }
  rewrite Erun by exact (λ _, rest). pose proof (vframe_end _ _ _ _ _ A4) as Een.
  destruct A5 as [(-> & Hent & Hz)|(-> & -> & Hsame & Hno)]; cbn [Z.ltb Z.compare Z.eqb] in *.
  - exists s2, L2. split; [by eapply copying_frame|]. right. split; [done|].
    destruct (pte_encode s1 q (PTE_FLAGS e) Hq Hperm) as (_ & _ & Hep & Hea & Hef). split; [|split].
    + intros w Hw. destruct (decide (w = v)) as [->|Hne]; [rewrite Hent, Hep; lia|].
      destruct (A3 w) as [-> _]; [pose proof (NUSER_lt w); lia|done|]. rewrite Hmd by done. lia.
    + unfold same_page_at, upa at 1. rewrite Hent, Hea, Hef. split; [done|]. split.
      * by apply flags_present.
      * intros o Ho. rewrite Hz by (apply pg_in_page; [done|unfold in_page; lia]).
        unfold m1, mcopy, PGSIZE. case_bool; [|lia]. rewrite Em0.
        replace (q + o - q) with o by lia. fold (upa (k_mem s) pgdir v). apply C6.
        replace (pg _) with (upa (k_mem s) pgdir v); [done|]. symmetry. apply pg_in_page; [done|unfold in_page; lia].
    + done.
  - assert (Hq2 : page_ok s2 q) by (eapply page_ok_end; [exact Een|done]).
    destruct (free_spare d s2 [] q) as (s' & E' & V1 & V2 & V3 & V4 & V5); try done; [by eapply vframe_ready| |].
    { apply not_elem_of_nil. }
    exists s', [q]. split; [eapply copying_frame; [exact HC|by eapply vframe_trans|done|done]|].
    left. split; [by erewrite bind_done by exact E'|]. intros Hnd.
    etrans; [apply (spare_bound d s2 q v L)|lia]; [done| | |lia].
    + intros p Hp. apply C5 in Hp. apply (vf_pages _ _ _ _ _ A4) in Hp. by rewrite list_elem_of_singleton in Hp.
    + intros w Hw. destruct (decide (w = v)) as [->|Hne]; [rewrite Hsame; by apply Hmd|].
      destruct (A3 w) as [-> _]; [pose proof (NUSER_lt w); lia|done|]. by apply Hmd.
Qed.

Lemma copyuvm_loop_ok d sz : ∀ fuel v s1 L1,
  copying s L d s1 L1 → mapped_upto (k_mem s1) d v → 0 ≤ v → 0 ≤ sz → v ≤ (sz + 4095) / 4096 ≤ n →
  (∀ w, 0 ≤ w < v → same_page_at (k_mem s) (k_mem s1) pgdir d w) →
  (0 < fuel)%nat → sz - 4096 * v ≤ 4096 * (Z.of_nat fuel - 1) →
  ∃ r s' L', copyuvm_loop fuel pgdir d (4096 * v) sz s1 = Done r s' ∧ copying s L d s' L' ∧
    (r = false → NoDup L → Z.of_nat (length L) ≤ 1025 + n) ∧
    (r = true → mapped_upto (k_mem s') d ((sz + 4095) / 4096) ∧
       (∀ w, 0 ≤ w < (sz + 4095) / 4096 → same_page_at (k_mem s) (k_mem s') pgdir d w) ∧
       ukeep d (λ w, NUSER ≤ w) (k_mem s1) (k_mem s')).
Proof.
  intros fuel. induction fuel as [|fuel IH]; intros v s1 L1 HC Hmd H0 Hsz Hv Hcp Hpos Hf; [lia|].
  cbn [copyuvm_loop]. destruct (Z.ltb_spec (4096 * v) sz) as [Hlt|Hge].
  2: { exists true, s1, L1. split; [done|]. split; [done|]. split; [done|]. intros _.
       replace ((sz + 4095) / 4096) with v by zdiv. split; [done|]. split; [done|apply ukeep_refl]. }
  assert (HvN : 0 ≤ v < NUSER) by (split; [done|]; zdiv).
  destruct (parent_kept d s1 L1 HC) as (Hpu & Hse & Hap & Hpm).
  assert (Hva : is_u32 (4096 * v)) by (apply is_u32_page; pose proof (NUSER_lt v); lia).
  assert (Hpv : present (upte (k_mem s) pgdir v) = true) by (rewrite Hm by done; zdiv).
  assert (Ev : upte (k_mem s1) pgdir v = upte (k_mem s) pgdir v) by (by apply same_entries_upte).
  assert (Hpd : present (pde_of (k_mem s1) pgdir (PDX (4096 * v))) = true).
  { rewrite <-Ev in Hpv. unfold upte, pte_of in Hpv. by destruct (present (pde_of (k_mem s1) pgdir (PDX (4096 * v)))). }
  erewrite bind_done by (by apply walk_present).
  destruct (pt_tab (uv_pt Hpu) _ (PDX_range _ Hva) Hpd) as ((_ & _ & Hrg & _) & _).
  pose proof (PTX_range _ Hva) as Htx. rewrite (proj2 (Z.eqb_neq _ 0)) by (unfold KERNBASE in Hrg; lia).
  unfold bind at 1, rd32, gets. cbn [obind].
  replace (load32 (k_mem s1) _) with (upte (k_mem s) pgdir v) by (rewrite <-Ev; unfold upte, pte_of; by rewrite Hpd).
  pose proof Hpv as Hpv'. unfold present in Hpv'. apply negb_true_iff in Hpv'. rewrite Hpv'.
  match goal with |- context [if _ then kfree _ ;;; ret false else ?rest] =>
    destruct (copy_step d v s1 L1 rest HC Hmd ltac:(split; [done|zdiv])) as (s2 & L2 & HC2 & [[E Hfew]|(E & Hm2 & Hsp & Hk2)]) end.
  - cbn zeta in E. rewrite E. exists false, s2, L2. split; [done|]. split; [done|]. by split.
  - cbn zeta in E. rewrite E. unfold PGSIZE. rewrite u32_small by (unfold NUSER, KERNBASE, is_u32 in *; zdiv).
    replace (4096 * v + 4096) with (4096 * (v + 1)) by lia.
    assert (Hdal : ∀ w, 0 ≤ w < NUSER → present (upte (k_mem s1) d w) = true → upa (k_mem s1) d w mod 4096 = 0).
    { intros w Hw Hp. destruct (uv_page (cp_uvm _ _ _ _ _ HC) (upa (k_mem s1) d w)) as ((Hal & _) & _); [by exists w|exact Hal]. }
    destruct (IH (v + 1) s2 L2) as (r & s' & L' & E' & HC' & Hfew & Hok); try done; try lia; [zdiv| |].
    { intros w Hw. destruct (decide (w = v)) as [->|]; [done|].
      assert (Hs : same_page_at (k_mem s) (k_mem s1) pgdir d w) by (apply Hcp; lia).
      eapply same_page_keep; [exact Hk2|lia|done| |exact Hs]. apply Hdal; [lia|apply Hs]. }
    exists r, s', L'. split; [done|]. split; [done|]. split; [done|]. intros Et. destruct (Hok Et) as (H1 & H2 & H3).
    split; [done|]. split; [done|]. eapply ukeep_trans; [|exact H3]. eapply ukeep_weaken; [|exact Hk2]. simpl. lia.
Qed.
End copyuvm.

(** The mappings of the kernel, above [KERNBASE]. *)
Definition kernel_mapped (m : mem) (d : Z) (data : Z) : Prop :=
  ∀ va, KERNBASE ≤ va < 4294967296 →
    (∀ k, k ∈ kmap data → in_region k va → pte_of m d va = mapped (km_virt k) (km_phys_start k) (km_perm k) va) ∧
    ((∀ k, k ∈ kmap data → ¬ in_region k va) → pte_of m d va = 0).

(** What [copyuvm] leaves when it succeeds. *)
Record copied (s : kernel) (L : list Z) (pgdir n d : Z) (s' : kernel) (L' : list Z) : Prop := mkCopied {
  cd_copying : copying s L d s' L';
  cd_mapped : mapped_upto (k_mem s') d n;
  cd_pages : ∀ v, 0 ≤ v < n → same_page_at (k_mem s) (k_mem s') pgdir d v;
  cd_kernel : kernel_mapped (k_mem s') d (k_data s);
  cd_parent : uvm s' pgdir L' ∧ same_entries pgdir (k_mem s) (k_mem s') ∧ apart_from (k_mem s') L' d pgdir;
}.

Lemma copyuvm_ok s L pgdir sz :
  kmem_ready s → kmem_inv s L → data_ok (k_data s) → uvm s pgdir L → 0 ≤ sz < KERNBASE →
  mapped_upto (k_mem s) pgdir ((sz + 4095) / 4096) →
  ∃ r s' L', copyuvm pgdir sz s = Done r s' ∧
    ((r ≠ 0 ∧ copied s L pgdir ((sz + 4095) / 4096) r s' L') ∨ (r = 0 ∧ unbuilt s L s' L' ∧ Z.of_nat (length L) ≤ 1025 + (sz + 4095) / 4096)).
Proof.
  intros Hr Hk Hd Hu Hsz Hm. unfold copyuvm.
  destruct (setupkvm_ok s L Hr Hk Hd) as (d & s1 & L1 & E1 & [(Hd0 & Hb & Hreg)|(-> & U & Hfew)]).
  2: { erewrite bind_done by exact E1. exists 0, s1, L1. split; [done|]. right. do 2 (split; [done|]). zdiv. }
  erewrite bind_done by exact E1. rewrite (proj2 (Z.eqb_neq d 0)) by done.
  pose proof (regions_user _ _ _ (proj1 (kmap_regions _ Hd)) Hreg) as Hm0.
  assert (Hn : (sz + 4095) / 4096 ≤ NUSER) by (unfold NUSER, KERNBASE in *; zdiv).
  destruct (copyuvm_loop_ok s L pgdir _ Hr Hu Hm Hn d sz (S (Z.to_nat (sz / PGSIZE + 1))) 0 s1 L1)
    as (r & s2 & L2 & E2 & HC & Hfew & Hok); try lia; try (unfold PGSIZE; zdiv).
  { by apply building_copying. }
  { done. }
  change (4096 * 0) with 0 in E2. erewrite bind_done by exact E2. destruct r.
  - destruct (Hok eq_refl) as (H1 & H2 & H3). exists d, s2, L2. split; [done|]. left. split; [done|].
    destruct (parent_kept s L pgdir Hu d s2 L2 HC) as (P1 & P2 & P3 & _). constructor; [done|done|done| |done].
    intros va Hva. assert (Hu32 : is_u32 va) by (unfold is_u32, KERNBASE in *; lia).
    assert (E : pte_of (k_mem s2) d va = pte_of (k_mem s1) d va).
    { rewrite !pte_of_page by done. apply H3; unfold NUSER, KERNBASE in *; zdiv. }
    rewrite E. by apply Hreg.
  - destruct (copying_abandon s L d s2 L2 HC Hr) as (s' & L' & E' & U). erewrite bind_done by exact E'.
    exists 0, s', L'. split; [done|]. right. do 2 (split; [done|]). apply Hfew; [done|apply Hk].
Qed.

(** * Theorems *)

(** Where a user address is in memory. *)
Definition uaddr (m : mem) (pgdir va : Z) : Z := upa m pgdir (va / 4096) + va mod 4096.

Lemma uaddr_page s pgdir L n va :
  uvm s pgdir L → mapped_upto (k_mem s) pgdir n → n ≤ NUSER → 0 ≤ va < 4096 * n →
  0 ≤ va / 4096 < NUSER ∧ va / 4096 < n ∧ pg (uaddr (k_mem s) pgdir va) = upa (k_mem s) pgdir (va / 4096) ∧
  owns (k_mem s) pgdir (upa (k_mem s) pgdir (va / 4096)).
Proof.
  intros Hu Hm Hn Hva. assert (Hv : 0 ≤ va / 4096 < NUSER) by zdiv. assert (Hvn : va / 4096 < n) by zdiv.
  assert (Hp : present (upte (k_mem s) pgdir (va / 4096)) = true) by (rewrite Hm by done; lia).
  do 2 (split; [done|]). split; [apply pg_offset; by eapply user_aligned|]. right. by exists (va / 4096).
Qed.

(** The copy as the processes see it. *)
Lemma copied_view s L pgdir n d s' L' :
  uvm s pgdir L → mapped_upto (k_mem s) pgdir n → n ≤ NUSER → copied s L pgdir n d s' L' →
  (∀ va, 0 ≤ va < 4096 * n →
     ubyte (k_mem s') d va = ubyte (k_mem s) pgdir va ∧
     ubyte (k_mem s') pgdir va = ubyte (k_mem s) pgdir va ∧
     PTE_FLAGS (upte (k_mem s') d (va / 4096)) = PTE_FLAGS (upte (k_mem s) pgdir (va / 4096))) ∧
  (∀ va va', 0 ≤ va < 4096 * n → 0 ≤ va' < 4096 * n → uaddr (k_mem s') d va ≠ uaddr (k_mem s') pgdir va').
Proof.
  intros Hu Hm Hn [HC C2 C3 C4 (P1 & P2 & P3)].
  assert (Hmp : mapped_upto (k_mem s') pgdir n).
  { intros v Hv. rewrite (same_entries_upte _ _ _ _ P2) by done. by apply Hm. }
  split.
  - intros va Hva. destruct (uaddr_page s pgdir L n va) as (Hv & Hvn & Hpg & Ho); try done.
    destruct (C3 (va / 4096)) as (S1 & S2 & S3); [lia|]. split; [|split; [|done]].
    + unfold ubyte. apply S3. apply Z.mod_pos_bound. lia.
    + unfold ubyte, upa. rewrite (same_entries_upte _ _ _ _ P2) by done.
      destruct (parent_kept s L pgdir Hu d s' L' HC) as (_ & _ & _ & H). apply H.
      fold (upa (k_mem s) pgdir (va / 4096)) (uaddr (k_mem s) pgdir va). by rewrite Hpg.
  - intros va va' Hva Hva' Eq. apply (f_equal pg) in Eq.
    destruct (uaddr_page s' d L' n va) as (_ & _ & Hpg & Ho); [apply HC|done|done|done|].
    destruct (uaddr_page s' pgdir L' n va') as (_ & _ & Hpg' & Ho'); [done|done|done|done|].
    rewrite Hpg, Hpg' in Eq. destruct (P3 _ Ho') as [_ H]. apply H. by rewrite <-Eq.
Qed.

(** C15: [copyuvm] makes a private copy of a process: the child has the same bytes at the same
    user addresses with the same permissions, and the kernel's mappings; no address of the
    child is at the memory of an address of the parent, whose own memory is as before;
    the pages of the child and the pages now free are exactly those that were free, and
    [freevm] of the child frees them all.  It fails only when fewer pages are free than it may need, and then they are all free again. *)
Theorem copyuvm_private s L pgdir sz :
  kmem_ready s → kmem_inv s L → data_ok (k_data s) → uvm s pgdir L → 0 ≤ sz < KERNBASE →
  mapped_upto (k_mem s) pgdir (npages sz) →
  ∃ d s' L', copyuvm pgdir sz s = Done d s' ∧ kmem_inv s' L' ∧
    ((d ≠ 0 ∧ uvm s' d L' ∧ uvm s' pgdir L' ∧ mapped_upto (k_mem s') d (npages sz) ∧
      kernel_mapped (k_mem s') d (k_data s) ∧
      (∀ p, p ∈ L' ∨ owns (k_mem s') d p ↔ p ∈ L) ∧
      (∀ va, 0 ≤ va < 4096 * npages sz →
         ubyte (k_mem s') d va = ubyte (k_mem s) pgdir va ∧
         ubyte (k_mem s') pgdir va = ubyte (k_mem s) pgdir va ∧
         PTE_FLAGS (upte (k_mem s') d (va / 4096)) = PTE_FLAGS (upte (k_mem s) pgdir (va / 4096))) ∧
      (∀ va va', 0 ≤ va < 4096 * npages sz → 0 ≤ va' < 4096 * npages sz →
         uaddr (k_mem s') d va ≠ uaddr (k_mem s') pgdir va') ∧
      (∃ s'' L'', freevm d s' = Done tt s'' ∧ kmem_inv s'' L'' ∧ ∀ p, p ∈ L'' ↔ p ∈ L)) ∨
     (d = 0 ∧ (∀ p, p ∈ L' ↔ p ∈ L) ∧ (∀ x, pg x ∉ L → k_mem s' x = k_mem s x) ∧
      Z.of_nat (length L) ≤ 1025 + npages sz)).
Proof.
  intros Hr Hk Hd Hu Hsz Hm. assert (Hn : npages sz ≤ NUSER) by (unfold npages, NUSER, KERNBASE in *; zdiv).
  destruct (copyuvm_ok s L pgdir sz Hr Hk Hd Hu Hsz Hm) as (d & s' & L' & E & [[Hd0 C]|(-> & U & Hfew)]).
  - exists d, s', L'. split; [done|]. destruct (copied_view _ _ _ _ _ _ _ Hu Hm Hn C) as [V1 V2].
    destruct C as [HC C2 C3 C4 (P1 & P2 & P3)]. split; [apply HC|]. left. split; [done|]. split; [apply HC|].
    do 3 (split; [done|]). split; [apply HC|]. split; [done|]. split; [done|].
    destruct (copying_abandon s L d s' L' HC Hr) as (s'' & L'' & E'' & [U1 _ _ U4 _]). by exists s'', L''.
  - exists 0, s', L'. split; [done|]. destruct U as [U1 U2 U3 U4 U5]. split; [done|]. by right.
Qed.

(** ** Witnesses *)

(** Free pages linked to each other. *)
Fixpoint link (m : mem) (L : list Z) : mem :=
  match L with
  | [] => m
  | p :: L' => store32 (link m L') p (default 0 (head L'))
  end.

Lemma link_other m L x : (∀ p, p ∈ L → p mod 4096 = 0) → pg x ∉ L → link m L x = m x.
Proof.
  induction L as [|p L IH]; intros Hal Hx; [done|]. apply not_elem_of_cons in Hx as [Hne Hx]. cbn [link].
  rewrite store32_spec. pose proof (pg_in_page p x (Hal p ltac:(left))) as Hi. unfold in_page in Hi.
  case_bool; [lia|]. apply IH; [|done]. intros q Hq. apply Hal. by right.
Qed.

Lemma link_free m L :
  NoDup L → (∀ p, p ∈ L → p mod 4096 = 0 ∧ is_u32 p) → free_rep (link m L) (default 0 (head L)) L.
Proof.
  induction L as [|p L IH]; intros Hnd Hok; [done|]. apply NoDup_cons in Hnd as [Hp Hnd]. cbn [link free_rep head default].
  split; [done|]. rewrite load_store32_same, u32_small.
  - eapply free_rep_frame; [|apply IH; [done|intros q Hq; apply Hok; by right]]. intros q Hq.
    apply load_store32_ne. destruct (Hok p ltac:(left)) as [Ap _], (Hok q ltac:(by right)) as [Aq _].
    assert (q ≠ p) by congruence. zdiv.
  - destruct L as [|q L]; [unfold is_u32; simpl; lia|]. apply Hok. right. left.
Qed.

(** The process of [demo_space] with 1100 free pages. *)
Definition many_pages : list Z := (λ i, KERNBASE + 0x500000 + 4096 * i) <$> seqZ 0 1100.
Definition demo_large : kernel :=
  with_k_freelist (KERNBASE + 0x500000) (with_k_mem (link (k_mem demo_space) many_pages) demo_space).

Lemma many_pages_in p :
  p ∈ many_pages → p mod 4096 = 0 ∧ KERNBASE + 0x500000 ≤ p < KERNBASE + 0xA00000.
Proof.
  intros (i & -> & Hi%elem_of_seqZ)%list_elem_of_fmap. unfold KERNBASE. split; [zdiv|lia].
Qed.

Lemma many_pages_length : length many_pages = 1100%nat.
Proof. unfold many_pages. by rewrite length_fmap, length_seqZ. Qed.

Lemma demo_large_inv : kmem_inv demo_large many_pages.
Proof.
  assert (Hnd : NoDup many_pages) by (apply NoDup_fmap_2; [intros i j; lia|apply NoDup_seqZ]).
  split; [|split; [done|]].
  - apply (link_free (k_mem demo_space) many_pages Hnd). intros p [H1 H2]%many_pages_in.
    split; [done|]. unfold is_u32, KERNBASE in *. lia.
  - apply Forall_forall. intros p [H1 H2]%many_pages_in. unfold KERNBASE in H2. split; [exact H1|].
    change (k_end demo_large) with (KERNBASE + 0x200000). rewrite V2P_small by (unfold KERNBASE; lia).
    unfold KERNBASE, PHYSTOP. lia.
Qed.

Lemma demo_large_space :
  uvm demo_large demo_pgdir many_pages ∧ same_entries demo_pgdir (k_mem demo_space) (k_mem demo_large).
Proof.
  assert (Ho : ∀ p, owns (k_mem demo_space) demo_pgdir p → p ∉ many_pages).
  { intros p Hp Hin. apply many_pages_in in Hin as [_ Hin]. unfold KERNBASE in Hin.
    destruct Hp as [[->|(i & Hi & Hp & <-)]|Hp]; [unfold demo_pgdir, KERNBASE in Hin; lia| |].
    - apply demo_vm_mapped_pde in Hp as ->; [|done].
      change (tab_of (k_mem demo_space) demo_pgdir 0) with (KERNBASE + 0x301000) in Hin. unfold KERNBASE in Hin. lia.
    - apply demo_space_user in Hp as ->. unfold KERNBASE in Hin. lia. }
  destruct (uvm_other demo_space demo_large demo_pgdir [KERNBASE + 0x500000] many_pages) as (H1 & H2 & _).
  - exact demo_space_uvm.
  - done.
  - intros x Hx. apply link_other; [|by apply Ho]. intros p Hp. by apply many_pages_in.
  - exact Ho.
  - done.
Qed.

Lemma copyuvm_private_witness :
  ∃ d s' L', copyuvm demo_pgdir 4096 demo_large = Done d s' ∧ kmem_inv s' L' ∧ d ≠ 0 ∧
    (∀ va, 0 ≤ va < 4096 → ubyte (k_mem s') d va = ubyte (k_mem demo_large) demo_pgdir va).
Proof.
  destruct (copyuvm_private demo_large many_pages demo_pgdir 4096) as (d & s' & L' & E & H1 & H2).
  - intros H. discriminate H.
  - exact demo_large_inv.
  - unfold data_ok. split; [by vm_compute|by vm_compute].
  - exact (proj1 demo_large_space).
  - unfold KERNBASE. lia.
  - intros v Hv. rewrite (same_entries_upte _ _ _ _ (proj2 demo_large_space)) by exact Hv. by apply demo_space_mapped.
  - exists d, s', L'. split; [exact E|]. split; [exact H1|].
    destruct H2 as [(H2 & _ & _ & _ & _ & _ & H3 & _)|(_ & _ & _ & H2)].
    2: { exfalso. clear -H2. rewrite many_pages_length in H2. change (npages 4096) with 1 in H2. lia. }
    split; [exact H2|]. intros va Hva. apply H3. change (4096 * npages 4096) with 4096. exact Hva.
Defined.
