(* ===== verification/Sched.v ===== *)
(** Giving up the CPU: [myproc], [sched], [sleep], [wakeup] and [yield] of proc.c,
    and the sleep locks of sleeplock.c.

    [swtch] into the scheduler is the outcome [Swtch]: its state is what other
    processes see from then on, and its continuation runs when the scheduler
    switches back.  A loop that waits for a condition takes at most [k_wakes]
    turns. *)

From S2P Require Import Prelude State Spinlock.
Import KLock.

(** * The current process *)

Definition myproc : K (option nat) :=
  pushcli ;;;
  i <- mycpu ;;
  c <- zoom k_hart with_k_hart (Cpu.cpu_at i) ;;
  popcli ;;;
  ret (c_proc c).

(** The fields of a process, through a pointer to it. *)
Definition proc_at (p : option nat) : K proc :=
  i <- deref p ;; s <- get ;; deref (k_ptable s !! i).

Definition upd_proc (i : nat) (f : proc → proc) (s : kernel) : kernel :=
  with_k_ptable (alter f i (k_ptable s)) s.

Definition set_proc (p : option nat) (f : proc → proc) : K unit :=
  i <- deref p ;; modify (upd_proc i f).

(** * Switching to the scheduler *)

Definition swtch : K unit := λ s, Swtch s (λ s', Done tt s').

(** [mycpu()->intena = b]. *)
Definition set_intena (b : bool) : K unit :=
  i <- mycpu ;;
  modify (λ s, with_k_hart (Cpu.upd_cpu i (with_c_intena b) (k_hart s)) s).

Definition sched : K unit :=
  p <- myproc ;;
  h <- holding LPtable ;;
  if negb h then panic "sched ptable.lock" else
  i <- mycpu ;;
  c <- zoom k_hart with_k_hart (Cpu.cpu_at i) ;;
  if negb (c_ncli c =? 1) then panic "sched locks" else
  pr <- proc_at p ;;
  if decide (p_state pr = RUNNING) then panic "sched running" else
  eflags <- gets (λ s, h_if (k_hart s)) ;;
  if (eflags : bool) then panic "sched interruptible" else
  i <- mycpu ;;
  c <- zoom k_hart with_k_hart (Cpu.cpu_at i) ;;
  let intena := c_intena c in
  swtch ;;;
  set_intena intena.

Definition yield : K unit :=
  acquire LPtable ;;;
  p <- myproc ;;
  set_proc p (with_p_state RUNNABLE) ;;;
  sched ;;;
  release LPtable.

Definition sleep (ch : chan) (lk : option lockid) : K unit :=
  p <- myproc ;;
  match p with
  | None => panic "sleep"
  | Some _ =>
      match lk with
      | None => panic "sleep without lk"
      | Some lk =>
          (if decide (lk = LPtable) then ret tt else acquire LPtable ;;; release lk) ;;;
          set_proc p (with_p_chan (Some ch)) ;;;
          set_proc p (with_p_state SLEEPING) ;;;
          sched ;;;
          set_proc p (with_p_chan None) ;;;
          (if decide (lk = LPtable) then ret tt else release LPtable ;;; acquire lk)
      end
  end.

(** The body of the loop of [wakeup1]. *)
Definition wake (ch : chan) (p : proc) : proc :=
  if decide (p_state p = SLEEPING ∧ p_chan p = Some ch) then with_p_state RUNNABLE p else p.

Definition wakeup1 (ch : chan) : K unit :=
  modify (λ s, with_k_ptable (wake ch <$> k_ptable s) s).

Definition wakeup (ch : chan) : K unit :=
  acquire LPtable ;;;
  wakeup1 ch ;;;
  release LPtable.

(** [while(test) sleep(ch, lk)]. *)
Fixpoint wait_loop (fuel : nat) (test : K bool) (ch : chan) (lk : lockid) : K unit :=
  match fuel with
  | O => diverge
  | S fuel' =>
      b <- test ;;
      if (b : bool) then sleep ch (Some lk) ;;; wait_loop fuel' test ch lk else ret tt
  end.

Definition wait_while (test : K bool) (ch : chan) (lk : lockid) : K unit :=
  n <- gets k_wakes ;; wait_loop (S n) test ch lk.

(** * Sleep locks *)

Definition initsleeplock (l : slockid) (name : string) : K unit :=
  initlock (LSleep l) "sleep lock" ;;;
  modify (λ s, with_k_slocks (<[l := mkSleeplock 0 name 0]> (k_slocks s)) s).

Definition slock_at (l : slockid) : K sleeplock :=
  s <- get ;; deref (k_slocks s !! l).

Definition upd_slock (l : slockid) (f : sleeplock → sleeplock) (s : kernel) : kernel :=
  with_k_slocks (alter f l (k_slocks s)) s.

Definition acquiresleep (l : slockid) : K unit :=
  acquire (LSleep l) ;;;
  wait_while (x <- slock_at l ;; ret (negb (sl_locked x =? 0))) (ChSlock l) (LSleep l) ;;;
  modify (upd_slock l (with_sl_locked 1)) ;;;
  p <- myproc ;;
  pr <- proc_at p ;;
  modify (upd_slock l (with_sl_pid (p_pid pr))) ;;;
  release (LSleep l).

Definition releasesleep (l : slockid) : K unit :=
  acquire (LSleep l) ;;;
  modify (upd_slock l (with_sl_locked 0)) ;;;
  modify (upd_slock l (with_sl_pid 0)) ;;;
  wakeup (ChSlock l) ;;;
  release (LSleep l).

Definition holdingsleep (l : slockid) : K bool :=
  acquire (LSleep l) ;;;
  x <- slock_at l ;;
  r <- (if sl_locked x =? 0 then ret false
        else p <- myproc ;; pr <- proc_at p ;; ret (sl_pid x =? p_pid pr)) ;;
  release (LSleep l) ;;;
  ret r.

(** * The effect of the operations *)

Definition cproc (s : kernel) : option nat :=
  h_cpus (k_hart s) !! Crit.cur (k_hart s) ≫= c_proc.

(** A process runs: [myproc] points into the process table. *)
Definition running (s : kernel) (p : nat) (pr : proc) : Prop :=
  cproc s = Some p ∧ k_ptable s !! p = Some pr.

Lemma kcpu_at_ok i c s :
  h_cpus (k_hart s) !! i = Some c → zoom k_hart with_k_hart (Cpu.cpu_at i) s = Done c s.
Proof.
  intros Hc. rewrite (zoom_done k_hart with_k_hart _ s c (k_hart s)).
  - by destruct s.
  - unfold Cpu.cpu_at, bind, get. simpl. by rewrite Hc.
Qed.

Lemma kmycpu_ok s :
  kok s → h_if (k_hart s) = false → mycpu s = Done (Crit.cur (k_hart s)) s.
Proof.
  intros Hok Hif. unfold mycpu.
  rewrite (zoom_done k_hart with_k_hart _ s (Crit.cur (k_hart s)) (k_hart s)).
  - by destruct s.
  - by apply Crit.mycpu_ok.
Qed.

Lemma kpushcli_ok s : kok s → pushcli s = Done tt (with_k_hart (Crit.hpush (k_hart s)) s).
Proof. intros Hok. apply (zoom_done k_hart). by apply Crit.pushcli_ok. Qed.

Lemma kpopcli_ok s :
  kok s → popcli (with_k_hart (Crit.hpush (k_hart s)) s) = Done tt s.
Proof.
  intros Hok. unfold popcli.
  rewrite (zoom_done k_hart with_k_hart _ _ tt (k_hart s)).
  - by destruct s.
  - simpl. rewrite Crit.popcli_ok, Crit.hpop_hpush; [done|done|by apply Crit.hart_ok_hpush|].
    rewrite Crit.ncli_of_hpush by done. pose proof (Crit.ncli_of_nonneg _ Hok). lia.
Qed.

Lemma kok_cpu s : kok s → ∃ c, h_cpus (k_hart s) !! Crit.cur (k_hart s) = Some c.
Proof.
  intros Hok. pose proof (Crit.hart_ok_cur _ Hok) as Hcur.
  destruct Hok as (i & c & Hi & Hc & _). exists c. congruence.
Qed.

Lemma myproc_ok s : kok s → myproc s = Done (cproc s) s.
Proof.
  intros Hok. destruct (kok_cpu s Hok) as (c & Hc). unfold myproc, cproc. rewrite Hc. simpl.
  run kpushcli_ok. erewrite bind_done.
  2:{ apply kmycpu_ok; [by apply Crit.hart_ok_hpush|done]. }
  simpl. rewrite Crit.cur_hpush. erewrite bind_done.
  2:{ apply kcpu_at_ok. simpl. rewrite list_lookup_alter, decide_True, Hc by done. done. }
  by erewrite bind_done by (by apply kpopcli_ok).
Qed.

Lemma cproc_enter lk s : kok s → cproc (enter lk s) = cproc s.
Proof.
  intros Hok. destruct (kok_cpu s Hok) as (c & Hc). unfold cproc.
  change (k_hart (enter lk s)) with (Crit.hacq lk (k_hart s)).
  rewrite Crit.cur_hacq. simpl. rewrite list_lookup_alter, decide_True by done. by rewrite Hc.
Qed.

Lemma running_enter lk s p pr : kok s → running s p pr → running (enter lk s) p pr.
Proof. intros Hok [Hc Hp]. split; [by rewrite cproc_enter|done]. Qed.

Lemma wakeup_ok ch s :
  kok s → unlocked LPtable s →
  wakeup ch s = Done tt (with_k_ptable (wake ch <$> k_ptable s) s).
Proof.
  intros Hok Hf. unfold wakeup. run kacquire_ok. erewrite bind_done by done.
  rewrite krelease_ok by eauto with kernel. by leave_out.
Qed.

Lemma wait_while_false test ch lk s s' :
  test s = Done false s' → wait_while test ch lk s = Done tt s'.
Proof.
  intros H. unfold wait_while, bind at 1, gets. simpl. by erewrite bind_done by done.
Qed.

(** [set_proc] through a valid pointer. *)
Lemma set_proc_ok p f s : set_proc (Some p) f s = Done tt (upd_proc p f s).
Proof. done. Qed.

Lemma proc_at_ok p pr s : k_ptable s !! p = Some pr → proc_at (Some p) s = Done pr s.
Proof. intros H. unfold proc_at, bind, get. simpl. by rewrite H. Qed.

Lemma slock_at_ok l x s : k_slocks s !! l = Some x → slock_at l s = Done x s.
Proof. intros H. unfold slock_at, bind, get. simpl. by rewrite H. Qed.

(** ** Sleep locks, when they are free or held by the caller *)

Definition sl_free (l : slockid) (s : kernel) : Prop :=
  ∃ x, k_slocks s !! l = Some x ∧ sl_locked x = 0.

Definition sl_mine (l : slockid) (s : kernel) : Prop :=
  ∃ x p pr, k_slocks s !! l = Some x ∧ sl_locked x ≠ 0 ∧ running s p pr ∧ sl_pid x = p_pid pr.

Definition sl_take (l : slockid) (pid : Z) (s : kernel) : kernel :=
  with_k_slocks (alter (λ x, with_sl_pid pid (with_sl_locked 1 x)) l (k_slocks s)) s.

Definition sl_drop (l : slockid) (s : kernel) : kernel :=
  with_k_ptable (wake (ChSlock l) <$> k_ptable s)
    (with_k_slocks (alter (λ x, with_sl_pid 0 (with_sl_locked 0 x)) l (k_slocks s)) s).

Lemma upd_slock_twice l f g s :
  upd_slock l f (upd_slock l g s) = with_k_slocks (alter (λ x, f (g x)) l (k_slocks s)) s.
Proof.
  unfold upd_slock. simpl.
  assert (E : alter f l (alter g l (k_slocks s)) = alter (λ x, f (g x)) l (k_slocks s));
    [|by rewrite E].
  apply map_eq. intros k. rewrite !lookup_alter. case_decide; [subst|done].
  rewrite decide_True by done. by destruct (_ !! _).
Qed.

Lemma acquiresleep_ok l p pr s :
  kok s → unlocked (LSleep l) s → sl_free l s → running s p pr →
  acquiresleep l s = Done tt (sl_take l (p_pid pr) s).
Proof.
  intros Hok Hf (x & Hx & H0) [Hp Hpr]. unfold acquiresleep. run kacquire_ok.
  erewrite bind_done.
  2:{ apply wait_while_false. erewrite bind_done by (by apply slock_at_ok).
      by rewrite H0. }
  erewrite bind_done by done. erewrite bind_done.
  2:{ apply myproc_ok. eauto with kernel. }
  change (cproc (upd_slock _ _ ?t)) with (cproc t). rewrite cproc_enter, Hp by done.
  erewrite bind_done by (by apply proc_at_ok). erewrite bind_done by done.
  rewrite upd_slock_twice. rewrite krelease_ok by eauto with kernel.
  simpl. by leave_out.
Qed.

Lemma releasesleep_ok l s :
  kok s → unlocked (LSleep l) s → unlocked LPtable s → releasesleep l s = Done tt (sl_drop l s).
Proof.
  intros Hok Hf Hpt. unfold releasesleep. run kacquire_ok.
  erewrite bind_done by done. erewrite bind_done by done. rewrite upd_slock_twice.
  erewrite bind_done by (apply wakeup_ok; eauto with kernel).
  rewrite krelease_ok by eauto with kernel. simpl. by leave_out.
Qed.

Lemma holdingsleep_ok l x s :
  kok s → unlocked (LSleep l) s → k_slocks s !! l = Some x →
  (sl_locked x = 0 → holdingsleep l s = Done false s) ∧
  (∀ p pr, sl_locked x ≠ 0 → running s p pr →
     holdingsleep l s = Done (sl_pid x =? p_pid pr) s).
Proof.
  intros Hok Hf Hx. unfold holdingsleep.
  split.
  - intros H0. run kacquire_ok. erewrite bind_done by (by apply slock_at_ok).
    rewrite H0. simpl. erewrite bind_done by done.
    erewrite bind_done by (apply krelease_ok; eauto with kernel). by leave_out.
  - intros p pr H0 [Hp Hpr]. run kacquire_ok. erewrite bind_done by (by apply slock_at_ok).
    rewrite (proj2 (Z.eqb_neq _ _) H0).
    erewrite bind_done.
    2:{ erewrite bind_done by (apply myproc_ok; eauto with kernel).
        rewrite cproc_enter, Hp by done. by erewrite bind_done by (by apply proc_at_ok). }
    erewrite bind_done by (apply krelease_ok; eauto with kernel). by leave_out.
Qed.

(** ** Sleeping *)

(** The process [p] as it waits for a wakeup of [ch]. *)
Definition asleep (p : nat) (ch : chan) (s : kernel) : kernel :=
  upd_proc p (with_p_state SLEEPING) (upd_proc p (with_p_chan (Some ch)) s).

(** The flag a process finds when it is switched back to is its own. *)
Definition set_if (b : bool) (h : hart) : hart :=
  with_h_if b (Cpu.upd_cpu (Crit.cur h) (with_c_intena b) h).

Definition cintena (s : kernel) : bool :=
  default false (c_intena <$> h_cpus (k_hart s) !! Crit.cur (k_hart s)).

Lemma kok_off s : kok s → 0 < Crit.ncli_of (k_hart s) → h_if (k_hart s) = false.
Proof.
  intros Hok Hn. pose proof (Crit.hart_ok_cur _ Hok) as Hcur.
  destruct Hok as (i & c & Hi & Hc & _ & _ & Hoff). apply Hoff.
  assert (i = Crit.cur (k_hart s)) as -> by congruence. by rewrite <-(Crit.cpus_cur (k_hart s) c).
Qed.

Lemma kholding_ok lk s : kok s → owned lk s → holding lk s = Done true s.
Proof.
  intros Hok Ho. unfold holding. rewrite (zoom_done k_hart with_k_hart _ s true (k_hart s)).
  - by destruct s.
  - erewrite Crit.holding_ok; [|done|apply Ho]. simpl. by rewrite bool_decide_true by done.
Qed.

Lemma sched_ok s p pr :
  kok s → owned LPtable s → Crit.ncli_of (k_hart s) = 1 → running s p pr →
  p_state pr ≠ RUNNING → sched s = Swtch s (set_intena (cintena s)).
Proof.
  intros Hok Ho Hn [Hp Hpr] Hst. pose proof (kok_off s Hok) as Hoff.
  rewrite Hn in Hoff. specialize (Hoff eq_refl).
  destruct (kok_cpu s Hok) as (c & Hc). pose proof (Crit.cpus_cur _ _ Hc) as Hnc.
  unfold sched. run myproc_ok. run kholding_ok. simpl.
  erewrite bind_done by (by apply kmycpu_ok). erewrite bind_done by (by apply kcpu_at_ok).
  rewrite <-Hnc, Hn. simpl. rewrite Hp. erewrite bind_done by (by apply proc_at_ok).
  rewrite decide_False by done. erewrite bind_done by done. rewrite Hoff.
  erewrite bind_done by (by apply kmycpu_ok). erewrite bind_done by (by apply kcpu_at_ok).
  unfold bind, swtch, cintena. simpl. by rewrite Hc.
Qed.

Lemma hacq_set_if lk b h :
  Cpu.upd_cpu (Crit.cur h) (with_c_intena b) (Crit.hacq lk h) = Crit.hacq lk (set_if b h).
Proof.
  assert (Hcur : Crit.cur (set_if b h) = Crit.cur h).
  { unfold Crit.cur, set_if. f_equal. by apply (Crit.cur_cpu_upd (Crit.cur h)). }
  unfold Crit.hacq, Crit.hpush. rewrite Hcur. unfold set_if at 3.
  rewrite !Crit.with_h_if_upd, Crit.upd_cpu_compose.
  change (Crit.lname lk (set_if b h)) with (Crit.lname lk h).
  change (h_locks (set_if b h)) with (h_locks h).
  set (L := <[_ := _]> _).
  change (Cpu.upd_cpu ?i ?f (with_h_locks L ?x)) with (with_h_locks L (Cpu.upd_cpu i f x)).
  by rewrite Crit.upd_cpu_compose.
Qed.

Lemma hart_ok_set_if b h : Crit.hart_ok h → Crit.ncli_of h = 0 → Crit.hart_ok (set_if b h).
Proof.
  intros Hok Hn. pose proof (Crit.hart_ok_cur _ Hok) as Hcur.
  destruct Hok as (i & c & Hi & Hc & Hpos & H0 & Hoff).
  assert (i = Crit.cur h) as -> by congruence.
  pose proof (Crit.cpus_cur _ _ Hc) as Hnc.
  exists (Crit.cur h), (with_c_intena b c). repeat split.
  - rewrite <-Hi. by apply (Crit.cur_cpu_upd (Crit.cur h)).
  - simpl. rewrite list_lookup_alter, decide_True, Hc by done. done.
  - done.
  - simpl. lia.
Qed.

Lemma set_intena_ok b lk s :
  kok s → set_intena b (enter lk s) = Done tt (enter lk (with_k_hart (set_if b (k_hart s)) s)).
Proof.
  intros Hok. unfold set_intena. erewrite bind_done.
  2:{ apply kmycpu_ok; [by apply kok_enter|]. done. }
  unfold modify, enter. simpl. rewrite Crit.cur_hacq, hacq_set_if. done.
Qed.

Lemma leave_enter_ne lk lk' s :
  kok s → lk ≠ lk' → unlocked lk s → leave lk (enter lk' (enter lk s)) = enter lk' s.
Proof.
  intros Hok Hne Hf. unfold leave, enter. simpl. by rewrite Crit.hrel_hacq_ne.
Qed.

Lemma owned_enter_ne lk lk' s : kok s → lk ≠ lk' → owned lk s → owned lk (enter lk' s).
Proof. intros Hok Hne Ho. by apply Crit.lheld_hacq_ne. Qed.

(** The wait itself: from the lock [lk] to the process table lock. *)
Lemma sleep_swtch ch lk s p pr :
  kok s → Crit.ncli_of (k_hart s) = 0 → lk ≠ LPtable → unlocked lk s → unlocked LPtable s →
  running s p pr →
  sleep ch (Some lk) (enter lk s) =
    Swtch (enter LPtable (asleep p ch s))
      (set_intena (cintena (enter LPtable s)) ;;;
       set_proc (Some p) (with_p_chan None) ;;; release LPtable ;;; acquire lk).
Proof.
  intros Hok Hn Hne Hf Hpt Hrun. unfold sleep.
  erewrite bind_done by (apply myproc_ok; eauto with kernel).
  rewrite cproc_enter by done. destruct Hrun as [Hp Hpr]. rewrite Hp.
  rewrite !decide_False by done. erewrite bind_done.
  2:{ erewrite bind_done by (apply kacquire_ok; eauto with kernel).
      apply krelease_ok; eauto using owned_enter_ne with kernel. }
  rewrite leave_enter_ne by done.
  erewrite bind_done by done. erewrite bind_done by done.
  change (upd_proc p ?g (upd_proc p ?f (enter LPtable s)))
    with (enter LPtable (upd_proc p g (upd_proc p f s))).
  fold (asleep p ch s). unfold bind at 1.
  rewrite (sched_ok _ p (with_p_state SLEEPING (with_p_chan (Some ch) pr))).
  - done.
  - eauto with kernel.
  - by apply owned_enter.
  - change (Crit.ncli_of (Crit.hacq LPtable (k_hart s)) = 1). rewrite Crit.ncli_of_hacq; [lia|done].
  - apply running_enter; [done|]. split; [done|]. simpl.
    rewrite !list_lookup_alter, !decide_True, Hpr by done. done.
  - done.
Qed.

Lemma sleep_resume b lk s p :
  kok s → Crit.ncli_of (k_hart s) = 0 → unlocked lk s → unlocked LPtable s →
  (set_intena b ;;; set_proc (Some p) (with_p_chan None) ;;; release LPtable ;;; acquire lk)
    (enter LPtable s) =
  Done tt (enter lk (upd_proc p (with_p_chan None) (with_k_hart (set_if b (k_hart s)) s))).
Proof.
  intros Hok Hn Hf Hpt. set (s' := with_k_hart (set_if b (k_hart s)) s).
  assert (Hok' : kok s') by (by apply hart_ok_set_if).
  assert (Hf' : unlocked lk s') by done.
  assert (Hpt' : unlocked LPtable s') by done.
  erewrite bind_done by (by apply set_intena_ok). fold s'.
  erewrite bind_done by done.
  erewrite bind_done by (apply krelease_ok; unfold upd_proc; eauto with kernel).
  unfold upd_proc. leave_out. rewrite kacquire_ok by eauto with kernel. done.
Qed.


(** * A small machine *)

(** One CPU that runs process 0, every lock of the kernel free. *)
Definition demo_locks : gmap lockid spinlock :=
  list_to_map ((λ n, (fst n, mkSpinlock 0 (snd n) None)) <$>
    [(LPtable, "ptable"); (LKmem, "kmem"); (LTicks, "time"); (LCons, "cons");
     (LBcache, "bcache"); (LIcache, "icache"); (LFtable, "ftable"); (LLog, "log");
     (LIde, "ide")]).

Definition demo_run_hart : hart :=
  mkHart true 0 0 7 [mkCpu 7 (mkTaskstate 0 0 0) [] 1 0 true (Some 0%nat)] 1 demo_locks.

Definition demo_tf : trapframe :=
  mkTrapframe 0 0 0 0 0 0 0 0 0 0 0 0 0 0 0 0 0 0 0.

Definition demo_proc : proc :=
  mkProc 0 0 0 RUNNING 1 None demo_tf (mkContext 0 0 0 0 0) None 0 [] None [].

Definition demo_run : kernel :=
  mkKernel demo_run_hart (KERNBASE + 0x200000) (KERNBASE + 0x108000) (λ _, 0) true 0 0
    [demo_proc] (Some 0%nat) 2 0 [] [] [] ∅ (mkLog 0 0 0 0 0 0 [])
    (mkSuperblock 0 0 0 0 0 0 0) [] [] [] ∅ (mkInput [] 0 0 0) true false [] 0 1 (mkScreen 0 (λ _, 0)) true true.

Lemma demo_run_kok : kok demo_run.
Proof.
  exists 0%nat, (mkCpu 7 (mkTaskstate 0 0 0) [] 1 0 true (Some 0%nat)).
  repeat split; simpl; lia.
Qed.

Lemma demo_run_running : running demo_run 0 demo_proc.
Proof. done. Qed.

