(* ===== verification/Bio.v ===== *)
(** The buffer cache (bio.c) over the memory disk (memide.c).

    [k_bufs] holds the [NBUF] buffers and, last, [bcache.head]; [prev] and
    [next] are the pointers of the doubly linked list in order of use.  The
    representation [brep s H V P] relates the cache to an abstract block
    store: the buffers [H] the running process holds, the contents [V] of
    every block as the kernel sees it, and the blocks [P] that are pinned
    (dirty).  Each operation is a function on that store; in particular
    caching, eviction and the order of the list are invisible in [V]. *)

From S2P Require Import Prelude State Spinlock Sched.
Import KLock.

(** * memide.c *)

Definition buf_at (i : nat) : K buf := s <- get ;; deref (k_bufs s !! i).
Definition upd_buf (i : nat) (f : buf → buf) (s : kernel) : kernel :=
  with_k_bufs (alter f i (k_bufs s)) s.
Definition set_buf (i : nat) (f : buf → buf) : K unit := modify (upd_buf i f).

Definition valid (b : buf) : bool := negb (Z.land (b_flags b) B_VALID =? 0).
Definition dirty (b : buf) : bool := negb (Z.land (b_flags b) B_DIRTY =? 0).

(** [memmove] of one block to the disk, recorded in the history of writes. *)
Definition disk_write (blockno : Z) (data : list Z) (s : kernel) : kernel :=
  with_k_dtrace ((blockno, data) :: k_dtrace s)
    (with_k_disk (<[Z.to_nat blockno := data]> (k_disk s)) s).

Definition iderw (i : nat) : K unit :=
  h <- holdingsleep (SLBuf i) ;;
  if negb h then panic "iderw: buf not locked" else
  b <- buf_at i ;;
  if Z.land (b_flags b) (Z.lor B_VALID B_DIRTY) =? B_VALID then panic "iderw: nothing to do" else
  if negb (b_dev b =? 1) then panic "iderw: request not for disk 1" else
  disk <- gets k_disk ;;
  if Z.of_nat (length disk) <=? b_blockno b then panic "iderw: block out of range" else
  (if dirty b then
     set_buf i (with_b_flags (Z.ldiff (b_flags b) B_DIRTY)) ;;;
     modify (disk_write (b_blockno b) (b_data b))
   else
     p <- deref (disk !! Z.to_nat (b_blockno b)) ;;
     set_buf i (with_b_data p)) ;;;
  set_buf i (λ b, with_b_flags (Z.lor (b_flags b) B_VALID) b).

(** * bio.c *)

(** One turn of [binit]'s loop. *)
Definition binit_body (i : nat) : K unit :=
  head <- buf_at NBUF ;;
  set_buf i (with_b_next (b_next head)) ;;;
  set_buf i (with_b_prev NBUF) ;;;
  initsleeplock (SLBuf i) "buffer" ;;;
  head <- buf_at NBUF ;;
  set_buf (b_next head) (with_b_prev i) ;;;
  set_buf NBUF (with_b_next i).

Definition binit : K unit :=
  initlock LBcache "bcache" ;;;
  set_buf NBUF (with_b_prev NBUF) ;;;
  set_buf NBUF (with_b_next NBUF) ;;;
  for_each (seq 0 NBUF) binit_body.

(** The two loops of [bget]; the list has at most [NBUF] buffers. *)
Fixpoint find_cached (fuel : nat) (b : nat) (dev blockno : Z) : K (option nat) :=
  match fuel with
  | O => diverge
  | S fuel' =>
      if (b =? NBUF)%nat then ret None else
      bf <- buf_at b ;;
      if (b_dev bf =? dev) && (b_blockno bf =? blockno) then ret (Some b)
      else find_cached fuel' (b_next bf) dev blockno
  end.

Fixpoint find_unused (fuel : nat) (b : nat) : K (option nat) :=
  match fuel with
  | O => diverge
  | S fuel' =>
      if (b =? NBUF)%nat then ret None else
      bf <- buf_at b ;;
      if (b_refcnt bf =? 0) && (Z.land (b_flags bf) B_DIRTY =? 0) then ret (Some b)
      else find_unused fuel' (b_prev bf)
  end.

Definition bget (dev blockno : Z) : K nat :=
  acquire LBcache ;;;
  head <- buf_at NBUF ;;
  r <- find_cached (S NBUF) (b_next head) dev blockno ;;
  match r with
  | Some b =>
      set_buf b (λ bf, with_b_refcnt (u32 (b_refcnt bf + 1)) bf) ;;;
      release LBcache ;;;
      acquiresleep (SLBuf b) ;;;
      ret b
  | None =>
      head <- buf_at NBUF ;;
      r <- find_unused (S NBUF) (b_prev head) ;;
      match r with
      | Some b =>
          set_buf b (with_b_dev dev) ;;;
          set_buf b (with_b_blockno blockno) ;;;
          set_buf b (with_b_flags 0) ;;;
          set_buf b (with_b_refcnt 1) ;;;
          release LBcache ;;;
          acquiresleep (SLBuf b) ;;;
          ret b
      | None => panic "bget: no buffers"
      end
  end.

Definition bread (dev blockno : Z) : K nat :=
  b <- bget dev blockno ;;
  bf <- buf_at b ;;
  (if Z.land (b_flags bf) B_VALID =? 0 then iderw b else ret tt) ;;;
  ret b.

Definition bwrite (b : nat) : K unit :=
  h <- holdingsleep (SLBuf b) ;;
  if negb h then panic "bwrite" else
  set_buf b (λ bf, with_b_flags (Z.lor (b_flags bf) B_DIRTY) bf) ;;;
  iderw b.

Definition brelse (b : nat) : K unit :=
  h <- holdingsleep (SLBuf b) ;;
  if negb h then panic "brelse" else
  releasesleep (SLBuf b) ;;;
  acquire LBcache ;;;
  set_buf b (λ bf, with_b_refcnt (u32 (b_refcnt bf - 1)) bf) ;;;
  bf <- buf_at b ;;
  (if b_refcnt bf =? 0 then
     bf <- buf_at b ;;
     set_buf (b_next bf) (with_b_prev (b_prev bf)) ;;;
     bf <- buf_at b ;;
     set_buf (b_prev bf) (with_b_next (b_next bf)) ;;;
     head <- buf_at NBUF ;;
     set_buf b (with_b_next (b_next head)) ;;;
     set_buf b (with_b_prev NBUF) ;;;
     head <- buf_at NBUF ;;
     set_buf (b_next head) (with_b_prev b) ;;;
     set_buf NBUF (with_b_next b)
   else ret tt) ;;;
  release LBcache.

(** * The doubly linked list *)

Definition nxt (bufs : list buf) (i : nat) : nat := default 0%nat (b_next <$> bufs !! i).
Definition prv (bufs : list buf) (i : nat) : nat := default 0%nat (b_prev <$> bufs !! i).

(** Following [f] from [x] meets the elements of [l] and then [y]. *)
Fixpoint chain (f : nat → nat) (x : nat) (l : list nat) (y : nat) : Prop :=
  match l with
  | [] => f x = y
  | z :: l' => f x = z ∧ chain f z l' y
  end.

Definition dll (bufs : list buf) (l : list nat) : Prop :=
  chain (nxt bufs) NBUF l NBUF ∧ chain (prv bufs) NBUF (reverse l) NBUF.

Lemma chain_app f x l1 i l2 y :
  chain f x (l1 ++ i :: l2) y ↔ chain f x l1 i ∧ chain f i l2 y.
Proof.
  revert x. induction l1 as [|z l1 IH]; intros x; simpl; [done|]. rewrite IH. naive_solver.
Qed.

Lemma chain_frame f f' x l y :
  (∀ z, z ∈ x :: l → f' z = f z) → chain f x l y → chain f' x l y.
Proof.
  revert x. induction l as [|z l IH]; intros x H; simpl.
  - intros <-. apply H. set_solver.
  - intros [Hz Hc]. split; [rewrite H by set_solver; done|]. apply IH; set_solver.
Qed.

(** The last element before the end of a chain, and the first after its start. *)
Definition final (x : nat) (l : list nat) : nat := default x (last l).

Lemma final_cons x z l : final x (z :: l) = final z l.
Proof. unfold final. destruct l as [|a l]; [done|]. rewrite last_cons_cons. by destruct (last_is_Some (a :: l)) as [_ [w ->]]. Qed.

Lemma final_elem x l : final x l ∈ x :: l.
Proof.
  unfold final. destruct (last l) as [w|] eqn:E; simpl; [|set_solver].
  apply last_Some in E as (l' & ->). set_solver.
Qed.

Lemma chain_retarget f f' x l i n :
  NoDup (x :: l) → chain f x l i →
  f' (final x l) = n → (∀ z, z ∈ x :: l → z ≠ final x l → f' z = f z) →
  chain f' x l n.
Proof.
  revert x. induction l as [|z l IH]; intros x Hnd Hc Hn Hf; simpl in *; [done|].
  destruct Hc as [Hz Hc]. rewrite final_cons in Hn, Hf.
  apply NoDup_cons in Hnd as [Hx Hnd].
  pose proof (final_elem z l) as Hfin.
  split.
  - rewrite Hf; [done|set_solver|]. intros ->. done.
  - apply IH; [done|done|done|]. intros w Hw. apply Hf. set_solver.
Qed.

Lemma chain_head f x l y : chain f x l y → f x = hd y l.
Proof. destruct l; simpl; naive_solver. Qed.

Lemma final_reverse x l : final x (reverse l) = hd x l.
Proof. unfold final. destruct l as [|z l]; [done|]. by rewrite reverse_cons, last_snoc. Qed.

(** Taking an element out of a chain, and adding one at its end. *)
Lemma chain_remove f f' x l1 i l2 y :
  NoDup (x :: l1 ++ i :: l2) → chain f x (l1 ++ i :: l2) y →
  f' (final x l1) = f i → (∀ z, z ≠ final x l1 → f' z = f z) → chain f' x (l1 ++ l2) y.
Proof.
  revert x. induction l1 as [|w l1 IH]; intros x Hnd Hc Hi Hf; simpl in *.
  - destruct Hc as [_ Hc]. unfold final in *. simpl in *.
    apply NoDup_cons in Hnd as [Hx Hnd]. destruct l2 as [|z l2]; simpl in *; [congruence|].
    destruct Hc as [Hz Hc]. split; [congruence|]. eapply (chain_frame f); [|done].
    intros v Hv. apply Hf. intros ->. set_solver.
  - destruct Hc as [Hw Hc]. rewrite final_cons in Hi, Hf.
    apply NoDup_cons in Hnd as [Hx Hnd]. split.
    + rewrite Hf; [done|]. intros E. apply Hx. rewrite E.
      pose proof (final_elem w l1) as Hw'. rewrite app_comm_cons. apply elem_of_app. by left.
    + by apply IH.
Qed.

Lemma chain_snoc f f' x l i y :
  NoDup (x :: l) → i ∉ x :: l → chain f x l y →
  f' (final x l) = i → f' i = y → (∀ z, z ≠ final x l → z ≠ i → f' z = f z) →
  chain f' x (l ++ [i]) y.
Proof.
  intros Hnd Hni Hc Hl Hi Hf. apply chain_app. split; [|done].
  eapply chain_retarget; [done|done|done|]. intros z Hz Hne. apply Hf; [done|].
  intros ->. done.
Qed.

Lemma nxt_alter_next bufs j v i :
  (j < length bufs)%nat → nxt (alter (with_b_next v) j bufs) i = if decide (i = j) then v else nxt bufs i.
Proof.
  intros Hj. unfold nxt. rewrite list_lookup_alter.
  destruct (lookup_lt_is_Some_2 _ _ Hj) as [b Hb].
  repeat case_decide; subst; try done. by rewrite Hb.
Qed.

Lemma prv_alter_prev bufs j v i :
  (j < length bufs)%nat → prv (alter (with_b_prev v) j bufs) i = if decide (i = j) then v else prv bufs i.
Proof.
  intros Hj. unfold prv. rewrite list_lookup_alter.
  destruct (lookup_lt_is_Some_2 _ _ Hj) as [b Hb].
  repeat case_decide; subst; try done. by rewrite Hb.
Qed.

Lemma nxt_alter bufs f j i : (∀ b, b_next (f b) = b_next b) → nxt (alter f j bufs) i = nxt bufs i.
Proof.
  intros Hf. unfold nxt. rewrite list_lookup_alter. case_decide; [subst|done].
  destruct (bufs !! i); simpl; [by rewrite Hf|done].
Qed.

Lemma prv_alter bufs f j i : (∀ b, b_prev (f b) = b_prev b) → prv (alter f j bufs) i = prv bufs i.
Proof.
  intros Hf. unfold prv. rewrite list_lookup_alter. case_decide; [subst|done].
  destruct (bufs !! i); simpl; [by rewrite Hf|done].
Qed.

Lemma dll_alter bufs f j l :
  (∀ b, b_next (f b) = b_next b) → (∀ b, b_prev (f b) = b_prev b) →
  dll bufs l → dll (alter f j bufs) l.
Proof.
  intros Hn Hp [H1 H2]. split.
  - eapply (chain_frame (nxt bufs)); [|done]. intros z _. by apply nxt_alter.
  - eapply (chain_frame (prv bufs)); [|done]. intros z _. by apply prv_alter.
Qed.

(** The pointer updates of [brelse]: unlink a buffer, then link it in front. *)
Definition unlink (i : nat) (bufs : list buf) : list buf :=
  let bufs := alter (with_b_prev (prv bufs i)) (nxt bufs i) bufs in
  alter (with_b_next (nxt bufs i)) (prv bufs i) bufs.

Definition push_front (i : nat) (bufs : list buf) : list buf :=
  let bufs := alter (with_b_next (nxt bufs NBUF)) i bufs in
  let bufs := alter (with_b_prev NBUF) i bufs in
  let bufs := alter (with_b_prev i) (nxt bufs NBUF) bufs in
  alter (with_b_next i) NBUF bufs.

Section list_order.
Context (bufs : list buf) (Hlen : length bufs = S NBUF).

Lemma nxt_unlink i z :
  (prv bufs i < length bufs)%nat →
  nxt (unlink i bufs) z = if decide (z = prv bufs i) then nxt bufs i else nxt bufs z.
Proof.
  intros Hp. unfold unlink.
  set (bufs' := alter (with_b_prev (prv bufs i)) (nxt bufs i) bufs).
  assert (Hn : ∀ w, nxt bufs' w = nxt bufs w) by (intros w; by apply nxt_alter).
  assert (Hpi : prv bufs' i = prv bufs i).
  { unfold bufs', prv. rewrite list_lookup_alter. case_decide as E; [|done].
    rewrite E. by destruct (bufs !! i). }
  rewrite Hpi, nxt_alter_next, !Hn; [done|]. unfold bufs'. by rewrite length_alter.
Qed.

Lemma prv_unlink i z :
  (nxt bufs i < length bufs)%nat →
  prv (unlink i bufs) z = if decide (z = nxt bufs i) then prv bufs i else prv bufs z.
Proof.
  intros Hn. unfold unlink. rewrite prv_alter by done. by rewrite prv_alter_prev.
Qed.

Lemma unlink_dll l1 i l2 :
  NoDup (NBUF :: l1 ++ i :: l2) → (∀ j, j ∈ l1 ++ i :: l2 → (j < NBUF)%nat) →
  dll bufs (l1 ++ i :: l2) → dll (unlink i bufs) (l1 ++ l2).
Proof.
  intros Hnd Hlt [Hn Hp]. unfold dll.
  rewrite reverse_app, reverse_cons, <-app_assoc in Hp. simpl in Hp.
  pose proof (proj1 (chain_app _ _ _ _ _ _) Hn) as [_ En%chain_head].
  pose proof (proj1 (chain_app _ _ _ _ _ _) Hp) as [_ Ep%chain_head].
  assert (Hfin : final NBUF l1 = prv bufs i).
  { by rewrite Ep, <-final_reverse, reverse_involutive. }
  assert (Hfin' : final NBUF (reverse l2) = nxt bufs i) by (by rewrite final_reverse).
  assert (Hb : ∀ x l, x ∈ NBUF :: l → (∀ j, j ∈ l → (j < NBUF)%nat) → (x < length bufs)%nat).
  { intros x l Hx Hl. rewrite Hlen. apply elem_of_cons in Hx as [->|Hx]; [lia|].
    specialize (Hl x Hx). lia. }
  assert (Hp_lt : (prv bufs i < length bufs)%nat).
  { rewrite <-Hfin. apply (Hb _ l1); [apply final_elem|]. intros j Hj. apply Hlt. set_solver. }
  assert (Hn_lt : (nxt bufs i < length bufs)%nat).
  { rewrite <-Hfin'. apply (Hb _ (reverse l2)); [apply final_elem|].
    intros j Hj%elem_of_reverse. apply Hlt. set_solver. }
  split.
  - eapply (chain_remove (nxt bufs)); [done|done| |].
    + by rewrite nxt_unlink, decide_True.
    + intros z Hz. by rewrite nxt_unlink, decide_False by congruence.
  - rewrite reverse_app. eapply (chain_remove (prv bufs)); [|done| |].
    + assert (E : reverse l2 ++ i :: reverse l1 ≡ₚ l1 ++ i :: l2); [|by rewrite E].
      by rewrite !reverse_Permutation, Permutation_app_comm, <-Permutation_middle.
    + by rewrite prv_unlink, decide_True.
    + intros z Hz. by rewrite prv_unlink, decide_False by congruence.
Qed.

Lemma push_front_dll i l :
  NoDup (NBUF :: i :: l) → (∀ j, j ∈ i :: l → (j < NBUF)%nat) →
  dll bufs l → dll (push_front i bufs) (i :: l).
Proof.
  intros Hnd Hlt [Hn Hp]. unfold dll. pose proof (chain_head _ _ _ _ Hn) as En.
  assert (Hi : (i < NBUF)%nat) by (apply Hlt; set_solver).
  assert (Hh_lt : (nxt bufs NBUF < S NBUF)%nat).
  { rewrite En. destruct l as [|z l]; simpl; [lia|]. specialize (Hlt z). set_solver by lia. }
  apply NoDup_cons in Hnd as [HN Hnd]. apply NoDup_cons in Hnd as [Hil Hnd].
  assert (Nn : ∀ z, nxt (push_front i bufs) z =
    if decide (z = NBUF) then i else if decide (z = i) then nxt bufs NBUF else nxt bufs z).
  { intros z. unfold push_front. rewrite nxt_alter_next by (rewrite !length_alter; lia).
    rewrite !nxt_alter by done. by rewrite nxt_alter_next by (rewrite Hlen; lia). }
  assert (Pn : ∀ z, prv (push_front i bufs) z =
    if decide (z = nxt bufs NBUF) then i else if decide (z = i) then NBUF else prv bufs z).
  { intros z. unfold push_front. rewrite prv_alter by done.
    rewrite nxt_alter by done. rewrite nxt_alter_next by (rewrite Hlen; lia).
    rewrite (decide_False (P := NBUF = i)) by lia.
    rewrite prv_alter_prev by (rewrite !length_alter; lia).
    rewrite prv_alter_prev by (rewrite !length_alter; lia). by rewrite prv_alter by done. }
  split.
  - simpl. rewrite Nn, decide_True by done. split; [done|].
    destruct l as [|z l]; simpl in *.
    + rewrite Nn, decide_False, decide_True by (done || lia). done.
    + rewrite Nn, decide_False, decide_True by (done || lia).
      destruct Hn as [Hz Hn]. split; [done|]. eapply (chain_frame (nxt bufs)); [|done].
      intros v Hv. rewrite Nn, !decide_False; [done| |]; intros ->; set_solver.
  - rewrite reverse_cons. eapply (chain_snoc (prv bufs)); [| |done| | |].
    + apply NoDup_cons. rewrite elem_of_reverse. split; [set_solver|].
      by rewrite reverse_Permutation.
    + rewrite elem_of_cons, elem_of_reverse. set_solver by lia.
    + rewrite Pn, decide_True; [done|]. by rewrite final_reverse.
    + rewrite Pn, decide_False, decide_True; [done|done|].
      rewrite En. destruct l; simpl; [lia|set_solver].
    + intros z Hz1 Hz2. rewrite Pn, !decide_False; [done|done|].
      by rewrite final_reverse in Hz1; rewrite En.
Qed.
End list_order.

(** * The loops of [bget] *)

(** The first element of [l] whose buffer passes the test. *)
Fixpoint pick (f : buf → bool) (bufs : list buf) (l : list nat) : option nat :=
  match l with
  | [] => None
  | j :: l' => if default false (f <$> bufs !! j) then Some j else pick f bufs l'
  end.

Lemma pick_Some f bufs l j :
  pick f bufs l = Some j → j ∈ l ∧ ∃ b, bufs !! j = Some b ∧ f b = true.
Proof.
  induction l as [|i l IH]; simpl; [done|]. destruct (bufs !! i) as [b|] eqn:Hb; simpl.
  - destruct (f b) eqn:Hf; [|set_solver]. intros [= ->]. set_solver.
  - set_solver.
Qed.

Lemma pick_None f bufs l :
  pick f bufs l = None → ∀ j b, j ∈ l → bufs !! j = Some b → f b = false.
Proof.
  induction l as [|i l IH]; simpl; [set_solver|]. intros H j b Hj Hb.
  destruct (default false (f <$> bufs !! i)) eqn:E; [done|].
  apply elem_of_cons in Hj as [->|Hj]; [|eauto]. by rewrite Hb in E.
Qed.

Definition is_block (dev blockno : Z) (b : buf) : bool :=
  (b_dev b =? dev) && (b_blockno b =? blockno).
Definition is_unused (b : buf) : bool :=
  (b_refcnt b =? 0) && (Z.land (b_flags b) B_DIRTY =? 0).

Lemma buf_at_ok i b s : k_bufs s !! i = Some b → buf_at i s = Done b s.
Proof. intros H. unfold buf_at, bind, get. simpl. by rewrite H. Qed.

Lemma find_cached_ok dev blockno s l x fuel :
  length (k_bufs s) = S NBUF → chain (nxt (k_bufs s)) x l NBUF →
  (∀ j, j ∈ l → (j < NBUF)%nat) → (length l < fuel)%nat →
  find_cached fuel (nxt (k_bufs s) x) dev blockno s = Done (pick (is_block dev blockno) (k_bufs s) l) s.
Proof.
  intros Hlen. revert x fuel. induction l as [|j l IH]; intros x [|fuel] Hc Hlt Hf; simpl in *; try lia.
  - rewrite Hc. done.
  - destruct Hc as [-> Hc]. assert (Hj : (j < NBUF)%nat) by (apply Hlt; set_solver).
    rewrite (proj2 (Nat.eqb_neq _ _)) by lia.
    destruct (lookup_lt_is_Some_2 (k_bufs s) j) as [b Hb]; [lia|].
    erewrite bind_done by (by apply buf_at_ok). rewrite Hb. simpl.
    fold (is_block dev blockno b). destruct (is_block dev blockno b); [done|].
    replace (b_next b) with (nxt (k_bufs s) j) by (unfold nxt; by rewrite Hb).
    apply IH; [done|set_solver|lia].
Qed.

Lemma find_unused_ok s l x fuel :
  length (k_bufs s) = S NBUF → chain (prv (k_bufs s)) x l NBUF →
  (∀ j, j ∈ l → (j < NBUF)%nat) → (length l < fuel)%nat →
  find_unused fuel (prv (k_bufs s) x) s = Done (pick is_unused (k_bufs s) l) s.
Proof.
  intros Hlen. revert x fuel. induction l as [|j l IH]; intros x [|fuel] Hc Hlt Hf; simpl in *; try lia.
  - rewrite Hc. done.
  - destruct Hc as [-> Hc]. assert (Hj : (j < NBUF)%nat) by (apply Hlt; set_solver).
    rewrite (proj2 (Nat.eqb_neq _ _)) by lia.
    destruct (lookup_lt_is_Some_2 (k_bufs s) j) as [b Hb]; [lia|].
    erewrite bind_done by (by apply buf_at_ok). rewrite Hb. simpl.
    fold (is_unused b). destruct (is_unused b); [done|].
    replace (b_prev b) with (prv (k_bufs s) j) by (unfold prv; by rewrite Hb).
    apply IH; [done|set_solver|lia].
Qed.

(** * The block store the cache implements *)

Definition block_ok (d : list Z) : Prop := length d = 512%nat ∧ Forall is_u8 d.

(** The flags a buffer has between operations: free, valid, or valid and dirty. *)
Definition flags_ok (z : Z) : Prop := z = 0 ∨ z = 2 ∨ z = 6.

Record buf_rep (nblocks : Z) (slocks : gmap slockid sleeplock) (pid : Z)
    (H : gmap nat Z) (V : Z → list Z) (P : gset Z) (i : nat) (b : buf) : Prop := mkBufRep {
  br_flags : flags_ok (b_flags b);
  br_data : block_ok (b_data b);
  br_valid : valid b = true →
    b_dev b = 1 ∧ 0 ≤ b_blockno b < nblocks ∧ b_data b = V (b_blockno b);
  br_invalid : valid b = false → b_dev b = 0 ∧ H !! i = None;
  br_pin : dirty b = true → b_blockno b ∈ P;
  br_held : ∀ bn, H !! i = Some bn → b_blockno b = bn;
  br_ref : b_refcnt b = match H !! i with Some _ => 1 | None => 0 end;
  br_lock : ∃ x, slocks !! SLBuf i = Some x ∧
    match H !! i with
    | Some _ => sl_locked x ≠ 0 ∧ sl_pid x = pid
    | None => sl_locked x = 0
    end;
}.

Record bcore (disk : list (list Z)) (bufs : list buf) (slocks : gmap slockid sleeplock) (pid : Z)
    (H : gmap nat Z) (V : Z → list Z) (P : gset Z) : Prop := mkBcore {
  bc_disk : Forall block_ok disk;
  bc_len : length bufs = S NBUF;
  bc_list : ∃ l, l ≡ₚ seq 0 NBUF ∧ dll bufs l;
  bc_uniq : ∀ i j bi bj, (i < NBUF)%nat → (j < NBUF)%nat →
    bufs !! i = Some bi → bufs !! j = Some bj →
    b_dev bi = 1 → b_dev bj = 1 → b_blockno bi = b_blockno bj → i = j;
  bc_buf : ∀ i b, (i < NBUF)%nat → bufs !! i = Some b →
    buf_rep (Z.of_nat (length disk)) slocks pid H V P i b;
  bc_clean : ∀ b, 0 ≤ b < Z.of_nat (length disk) → b ∉ P → (∀ i, H !! i ≠ Some b) →
    disk !! Z.to_nat b = Some (V b);
  bc_pins : ∀ b, b ∈ P → ∃ i bf, (i < NBUF)%nat ∧ bufs !! i = Some bf ∧
    dirty bf = true ∧ b_blockno bf = b;
  bc_dom : ∀ i b, H !! i = Some b → (i < NBUF)%nat;
}.

Arguments br_flags {_ _ _ _ _ _ _ _} _.
Arguments br_data {_ _ _ _ _ _ _ _} _.
Arguments br_valid {_ _ _ _ _ _ _ _} _.
Arguments br_invalid {_ _ _ _ _ _ _ _} _.
Arguments br_pin {_ _ _ _ _ _ _ _} _.
Arguments br_held {_ _ _ _ _ _ _ _} _.
Arguments br_ref {_ _ _ _ _ _ _ _} _.
Arguments br_lock {_ _ _ _ _ _ _ _} _.
Arguments bc_disk {_ _ _ _ _ _ _} _.
Arguments bc_len {_ _ _ _ _ _ _} _.
Arguments bc_list {_ _ _ _ _ _ _} _.
Arguments bc_uniq {_ _ _ _ _ _ _} _.
Arguments bc_buf {_ _ _ _ _ _ _} _.
Arguments bc_clean {_ _ _ _ _ _ _} _.
Arguments bc_pins {_ _ _ _ _ _ _} _.
Arguments bc_dom {_ _ _ _ _ _ _} _.

(** The process that runs may call the cache. *)
Definition benv (s : kernel) (pid : Z) : Prop :=
  kok s ∧ unlocked LBcache s ∧ unlocked LPtable s ∧
  (∀ i, (i < NBUF)%nat → unlocked (LSleep (SLBuf i)) s) ∧
  ∃ p pr, running s p pr ∧ p_state pr = RUNNING ∧ p_pid pr = pid.

Definition brep (s : kernel) (H : gmap nat Z) (V : Z → list Z) (P : gset Z) : Prop :=
  ∃ pid, benv s pid ∧ bcore (k_disk s) (k_bufs s) (k_slocks s) pid H V P.

(** What the cache may change: its buffers and their locks, and processes it
    wakes up. *)
Definition woken (pt pt' : list proc) : Prop :=
  Forall2 (λ p p', p' = p ∨ (p_state p = SLEEPING ∧ p' = with_p_state RUNNABLE p)) pt pt'.

Definition bsync (s' s : kernel) : kernel :=
  with_k_ptable (k_ptable s') (with_k_slocks (k_slocks s') (with_k_bufs (k_bufs s') s)).

(** It leaves the processes it does not wake and the locks of inodes alone. *)
Definition bquiet (s s' : kernel) : Prop :=
  woken (k_ptable s) (k_ptable s') ∧ ∀ i, k_slocks s' !! SLInode i = k_slocks s !! SLInode i.

Definition bframe (s s' : kernel) : Prop := s' = bsync s' s ∧ bquiet s s'.

Lemma woken_refl pt : woken pt pt.
Proof. induction pt; constructor; auto. Qed.

Lemma woken_trans pt1 pt2 pt3 : woken pt1 pt2 → woken pt2 pt3 → woken pt1 pt3.
Proof.
  intros H1. revert pt3. induction H1 as [|p p' l l' Hp _ IH]; intros pt3 H2.
  - done.
  - inversion H2 as [|? p'' ? l'' Hp' Hl']; subst. constructor; [|by apply IH].
    destruct Hp as [->|[Hs ->]]; [done|]. destruct Hp' as [->|[Hs' ->]]; [by right|done].
Qed.

Lemma woken_wake ch pt : woken pt (wake ch <$> pt).
Proof.
  induction pt as [|p pt IH]; simpl; [constructor|]. constructor; [|done].
  unfold wake. case_decide as E; [right|by left]. naive_solver.
Qed.

Lemma bquiet_refl s : bquiet s s.
Proof. split; [apply woken_refl|done]. Qed.

Lemma bquiet_trans s1 s2 s3 : bquiet s1 s2 → bquiet s2 s3 → bquiet s1 s3.
Proof.
  intros [W1 L1] [W2 L2]. split; [by eapply woken_trans|]. intros i. by rewrite L2, L1.
Qed.

Lemma bframe_refl s : bframe s s.
Proof. split; [by destruct s|apply bquiet_refl]. Qed.

Lemma bframe_trans s1 s2 s3 : bframe s1 s2 → bframe s2 s3 → bframe s1 s3.
Proof.
  intros [E1 W1] [E2 W2]. split; [|by eapply bquiet_trans].
  rewrite E2. rewrite E1. done.
Qed.

Lemma running_woken s s' p pr :
  k_hart s' = k_hart s → woken (k_ptable s) (k_ptable s') →
  running s p pr → p_state pr = RUNNING → running s' p pr.
Proof.
  intros Hh Hw [Hp Hpr] Hr. split; [unfold cproc in *; by rewrite Hh|].
  unfold woken in Hw. destruct (Forall2_lookup_l _ _ _ _ _ Hw Hpr) as (pr' & Hpr' & Hor).
  destruct Hor as [->|[Hs _]]; [done|congruence].
Qed.

Lemma benv_frame s s' pid :
  k_hart s' = k_hart s → woken (k_ptable s) (k_ptable s') → benv s pid → benv s' pid.
Proof.
  intros Hh Hw (Hok & Hb & Hpt & Hl & p & pr & Hrun & Hst & Hpid).
  unfold benv, kok, unlocked in *. rewrite Hh. do 4 (split; [done|]).
  exists p, pr. split; [|done]. by eapply running_woken.
Qed.

(** * Changing one buffer *)

Lemma bcore_upd disk bufs slocks pid H V P i b f disk' slocks' H' V' P' :
  bcore disk bufs slocks pid H V P → (i < NBUF)%nat → bufs !! i = Some b →
  (∀ b, b_next (f b) = b_next b) → (∀ b, b_prev (f b) = b_prev b) →
  length disk' = length disk → Forall block_ok disk' →
  buf_rep (Z.of_nat (length disk)) slocks' pid H' V' P' i (f b) →
  (∀ j bj, j ≠ i → (j < NBUF)%nat → bufs !! j = Some bj →
     buf_rep (Z.of_nat (length disk)) slocks pid H V P j bj →
     buf_rep (Z.of_nat (length disk)) slocks' pid H' V' P' j bj) →
  (∀ j bj, j ≠ i → (j < NBUF)%nat → bufs !! j = Some bj →
     b_dev (f b) = 1 → b_dev bj = 1 → b_blockno (f b) ≠ b_blockno bj) →
  (∀ n, 0 ≤ n < Z.of_nat (length disk) → n ∉ P' → (∀ i, H' !! i ≠ Some n) →
     disk' !! Z.to_nat n = Some (V' n)) →
  (∀ n, n ∈ P' → dirty (f b) = true ∧ b_blockno (f b) = n ∨
     ∃ j bj, j ≠ i ∧ (j < NBUF)%nat ∧ bufs !! j = Some bj ∧ dirty bj = true ∧ b_blockno bj = n) →
  (∀ j n, H' !! j = Some n → (j < NBUF)%nat) →
  bcore disk' (alter f i bufs) slocks' pid H' V' P'.
Proof.
  intros [Hd Hlen [l [Hl Hdll]] Hu Hb Hc Hp Hdom] Hi Hbi Hfn Hfp Hld Hd' Hrep Hoth Hu' Hc' Hp' Hdom'.
  assert (Hlook : ∀ j bj, alter f i bufs !! j = Some bj →
    (j = i ∧ bj = f b) ∨ (j ≠ i ∧ bufs !! j = Some bj)).
  { intros j bj. rewrite list_lookup_alter. case_decide as E.
    - subst j. rewrite Hbi. simpl. intros [= <-]. by left.
    - intros Hj. right. by split. }
  constructor; try done.
  - by rewrite length_alter.
  - exists l. split; [done|]. by apply dll_alter.
  - intros j1 j2 b1 b2 H1 H2 L1 L2 D1 D2 Eb.
    destruct (Hlook _ _ L1) as [[-> ->]|[N1 L1']], (Hlook _ _ L2) as [[-> ->]|[N2 L2']].
    + done.
    + by destruct (Hu' j2 b2 N2 H2 L2' D1 D2).
    + destruct (Hu' j1 b1 N1 H1 L1' D2 D1). done.
    + eapply Hu; eauto.
  - intros j bj Hj Lj. rewrite Hld. destruct (Hlook _ _ Lj) as [[-> ->]|[N L]]; [done|].
    eapply Hoth; eauto.
  - intros n Hn. rewrite Hld in Hn. by apply Hc'.
  - intros n Hn. destruct (Hp' n Hn) as [[Hdf Hbn]|(j & bj & N & Hj & L & Hdj & Hbn)].
    + exists i, (f b). rewrite list_lookup_alter, decide_True, Hbi by done. done.
    + exists j, bj. rewrite list_lookup_alter, decide_False by congruence. done.
Qed.

(** Buffers that differ in their links only. *)
Definition relinked (b b' : buf) : Prop := b' = with_b_prev (b_prev b') (with_b_next (b_next b') b).

Lemma bcore_relink disk bufs bufs' slocks pid H V P l :
  bcore disk bufs slocks pid H V P → Forall2 relinked bufs bufs' →
  l ≡ₚ seq 0 NBUF → dll bufs' l → bcore disk bufs' slocks pid H V P.
Proof.
  intros [Hd Hlen _ Hu Hb Hc Hp Hdom] Hrel Hl Hdll.
  assert (Hback : ∀ j b', bufs' !! j = Some b' → ∃ b, bufs !! j = Some b ∧ relinked b b').
  { intros j b' Hj. destruct (Forall2_lookup_r _ _ _ _ _ Hrel Hj) as (b & ? & ?). eauto. }
  constructor; try done.
  - by rewrite <-(Forall2_length _ _ _ Hrel).
  - by exists l.
  - intros i j bi bj Hi Hj Li Lj. destruct (Hback _ _ Li) as (ci & Lci & ->).
    destruct (Hback _ _ Lj) as (cj & Lcj & ->). simpl. by eapply Hu.
  - intros i b Hi Li. destruct (Hback _ _ Li) as (c & Lc & ->).
    destruct (Hb i c Hi Lc). by constructor.
  - intros n Hn. destruct (Hp n Hn) as (i & bf & Hi & Li & Hdf & Hbn).
    destruct (Forall2_lookup_l _ _ _ _ _ Hrel Li) as (b' & Li' & Hr).
    exists i, b'. split; [done|]. split; [done|]. by split; rewrite Hr.
Qed.

Lemma relinked_alter_next v j bufs : Forall2 relinked bufs (alter (with_b_next v) j bufs).
Proof.
  apply Forall2_same_length_lookup_2; [by rewrite length_alter|].
  intros i x y Hx Hy. rewrite list_lookup_alter in Hy. case_decide; subst.
  - rewrite Hx in Hy. simplify_eq/=. by destruct x.
  - assert (y = x) as -> by congruence. by destruct x.
Qed.

Lemma relinked_alter_prev v j bufs : Forall2 relinked bufs (alter (with_b_prev v) j bufs).
Proof.
  apply Forall2_same_length_lookup_2; [by rewrite length_alter|].
  intros i x y Hx Hy. rewrite list_lookup_alter in Hy. case_decide; subst.
  - rewrite Hx in Hy. simplify_eq/=. by destruct x.
  - assert (y = x) as -> by congruence. by destruct x.
Qed.

Lemma relinked_trans l1 l2 l3 :
  Forall2 relinked l1 l2 → Forall2 relinked l2 l3 → Forall2 relinked l1 l3.
Proof.
  intros H1. revert l3. induction H1 as [|b1 b2 k1 k2 E1 _ IH]; intros l3 H2.
  - by inversion H2.
  - inversion H2 as [|? b3 ? k3 E2 Hk]; subst. constructor; [|by apply IH].
    unfold relinked in *. rewrite E2, E1. by destruct b1.
Qed.

Lemma relinked_refl bufs : Forall2 relinked bufs bufs.
Proof. induction bufs as [|b bufs IH]; constructor; [by destruct b|done]. Qed.

Ltac relinked_steps :=
  repeat (eapply relinked_trans; [|(apply relinked_alter_next || apply relinked_alter_prev)]);
  apply relinked_refl.

Lemma relinked_push_front i bufs : Forall2 relinked bufs (push_front i bufs).
Proof. unfold push_front. relinked_steps. Qed.

Lemma relinked_front i bufs : Forall2 relinked bufs (push_front i (unlink i bufs)).
Proof. unfold push_front, unlink. relinked_steps. Qed.

(** Flags of a buffer, read through [valid] and [dirty]. *)
Lemma flags_cases b :
  flags_ok (b_flags b) →
  (b_flags b = 0 ∧ valid b = false ∧ dirty b = false) ∨
  (b_flags b = 2 ∧ valid b = true ∧ dirty b = false) ∨
  (b_flags b = 6 ∧ valid b = true ∧ dirty b = true).
Proof. unfold valid, dirty. intros [-> | [-> | ->]]; auto. Qed.

Lemma dirty_valid b : flags_ok (b_flags b) → dirty b = true → valid b = true.
Proof. intros [(_ & _ & ?)|[(_ & _ & ?)|(_ & ? & _)]]%flags_cases; congruence. Qed.

(** * The operations on the block store *)

Lemma bcore_buf disk bufs slocks pid H V P i :
  bcore disk bufs slocks pid H V P → (i < NBUF)%nat →
  ∃ b, bufs !! i = Some b ∧ buf_rep (Z.of_nat (length disk)) slocks pid H V P i b.
Proof.
  intros Hc Hi. destruct (lookup_lt_is_Some_2 bufs i) as [b Hb].
  - rewrite (bc_len Hc). lia.
  - exists b. split; [done|]. by eapply bc_buf.
Qed.

Lemma bcore_head disk bufs slocks pid H V P :
  bcore disk bufs slocks pid H V P →
  ∃ h, bufs !! NBUF = Some h ∧ b_next h = nxt bufs NBUF ∧ b_prev h = prv bufs NBUF.
Proof.
  intros Hc. destruct (lookup_lt_is_Some_2 bufs NBUF) as [h Hh].
  - rewrite (bc_len Hc). lia.
  - exists h. unfold nxt, prv. by rewrite Hh.
Qed.

Lemma order_lt l j : l ≡ₚ seq 0 NBUF → j ∈ l → (j < NBUF)%nat.
Proof. intros -> Hj. apply elem_of_seq in Hj. lia. Qed.

Lemma order_elem l j : l ≡ₚ seq 0 NBUF → (j < NBUF)%nat → j ∈ l.
Proof. intros -> Hj. apply elem_of_seq. lia. Qed.

(** Not every buffer can be held or pinned. *)
Lemma unused_exists disk bufs slocks pid H V P :
  bcore disk bufs slocks pid H V P → (size H + size P < NBUF)%nat →
  ∃ i b, (i < NBUF)%nat ∧ bufs !! i = Some b ∧ is_unused b = true.
Proof.
  intros Hc Hroom.
  set (pin j := default false (dirty <$> bufs !! j)).
  set (D := filter (λ j, pin j = true) (seq 0 NBUF)).
  set (N := filter (λ j, ¬ pin j = true) (seq 0 NBUF)).
  assert (Hpin : ∀ j, j ∈ D → ∃ b, bufs !! j = Some b ∧ dirty b = true ∧ (j < NBUF)%nat).
  { intros j [Hj Hs]%list_elem_of_filter. apply elem_of_seq in Hs. unfold pin in Hj.
    destruct (bufs !! j) as [b|] eqn:Hb; [|done]. exists b. split; [done|]. split; [done|lia]. }
  set (bn j := default 0 (b_blockno <$> bufs !! j)).
  assert (HD : (length D ≤ size P)%nat).
  { rewrite <-(length_fmap bn), <-(size_list_to_set (C := gset Z)).
    - apply subseteq_size. intros n Hn. apply elem_of_list_to_set, list_elem_of_fmap in Hn as (j & -> & Hj).
      destruct (Hpin j Hj) as (b & Hb & Hdb & Hlt). unfold bn. rewrite Hb. simpl.
      by apply (br_pin (bc_buf Hc j b Hlt Hb)).
    - apply NoDup_fmap_2_strong; [|apply NoDup_filter, NoDup_seq].
      intros i j Hi Hj E. destruct (Hpin i Hi) as (bi & Hbi & Hdi & Hlti).
      destruct (Hpin j Hj) as (bj & Hbj & Hdj & Hltj). unfold bn in E. rewrite Hbi, Hbj in E.
      pose proof (bc_buf Hc i bi Hlti Hbi) as Ri.
      pose proof (bc_buf Hc j bj Hltj Hbj) as Rj.
      apply (dirty_valid bi (br_flags Ri)), (br_valid Ri) in Hdi as [Di _].
      apply (dirty_valid bj (br_flags Rj)), (br_valid Rj) in Hdj as [Dj _].
      by eapply (bc_uniq Hc). }
  assert (Hlen : (length D + length N = NBUF)%nat).
  { unfold D, N. rewrite <-length_app, filter_app_complement, length_seq. done. }
  destruct (decide (Forall (λ j, is_Some (H !! j)) N)) as [Hall|Hnot].
  - exfalso. assert (HN : (length N ≤ size H)%nat); [|lia].
    rewrite <-size_dom, <-(size_list_to_set (C := gset nat)) by (apply NoDup_filter, NoDup_seq).
    apply subseteq_size. intros j Hj%elem_of_list_to_set. apply elem_of_dom.
    by apply (proj1 (Forall_forall _ _) Hall).
  - apply not_Forall_Exists in Hnot; [|apply _]. apply Exists_exists in Hnot as (j & Hj & HH).
    apply list_elem_of_filter in Hj as [Hp Hs]. apply elem_of_seq in Hs.
    destruct (bcore_buf _ _ _ _ _ _ _ j Hc) as (b & Hb & Rb); [lia|].
    exists j, b. split; [lia|]. split; [done|]. unfold is_unused.
    rewrite (br_ref Rb).
    destruct (H !! j) eqn:E; [by destruct HH|]. simpl.
    unfold pin in Hp. rewrite Hb in Hp. simpl in Hp. unfold dirty in Hp.
    by destruct (_ =? _).
Qed.

Lemma benv_enter s pid :
  benv s pid → kok (enter LBcache s) ∧ owned LBcache (enter LBcache s) ∧
    leave LBcache (enter LBcache s) = s.
Proof. intros (Hok & Hb & _). split_and!; [eauto with kernel..|by apply leave_enter]. Qed.

(** The end of both paths of [bget]: the update [f] of the buffer, then its lock. *)
Lemma bget_finish s pid i x f :
  benv s pid → (i < NBUF)%nat → k_slocks s !! SLBuf i = Some x → sl_locked x = 0 →
  (release LBcache ;;; acquiresleep (SLBuf i) ;;; ret i) (upd_buf i f (enter LBcache s)) =
    Done i (sl_take (SLBuf i) pid (upd_buf i f s)).
Proof.
  intros He Hi Hx H0. destruct (benv_enter s pid He) as (Hok & Ho & Hl).
  destruct He as (Hks & _ & _ & Hul & p & pr & Hrun & _ & <-).
  erewrite bind_done by (apply krelease_ok; unfold upd_buf; eauto with kernel).
  change (leave LBcache (upd_buf i f (enter LBcache s)))
    with (upd_buf i f (leave LBcache (enter LBcache s))). rewrite Hl.
  erewrite bind_done; [|eapply (acquiresleep_ok _ p pr)].
  - done.
  - done.
  - by apply (Hul i).
  - by exists x.
  - done.
Qed.

Lemma upd_buf_twice i f g s : upd_buf i f (upd_buf i g s) = upd_buf i (λ b, f (g b)) s.
Proof.
  unfold upd_buf. simpl.
  assert (E : alter f i (alter g i (k_bufs s)) = alter (λ b, f (g b)) i (k_bufs s));
    [|by rewrite E].
  apply list_eq. intros j. rewrite !list_lookup_alter. case_decide; [|done].
  subst. rewrite decide_True by done. by destruct (_ !! _).
Qed.

Lemma upd_buf_ext i f g b s : k_bufs s !! i = Some b → f b = g b → upd_buf i f s = upd_buf i g s.
Proof.
  intros Hb E. unfold upd_buf. f_equal. apply list_eq. intros j. rewrite !list_lookup_alter.
  case_decide; [subst|done]. rewrite Hb. simpl. by rewrite E.
Qed.

Section bget.
Context (s : kernel) (pid : Z) (H : gmap nat Z) (V : Z → list Z) (P : gset Z).
Context (He : benv s pid) (Hc : bcore (k_disk s) (k_bufs s) (k_slocks s) pid H V P).

Lemma bget_cached dev bn l i b :
  l ≡ₚ seq 0 NBUF → dll (k_bufs s) l → pick (is_block dev bn) (k_bufs s) l = Some i →
  k_bufs s !! i = Some b → H !! i = None →
  bget dev bn s = Done i (sl_take (SLBuf i) pid (upd_buf i (with_b_refcnt 1) s)).
Proof.
  intros Hl [Hn _] Hpick Hb Hfree.
  pose proof (pick_Some _ _ _ _ Hpick) as [Hi%(order_lt l) _]; [|done].
  destruct (bc_buf Hc i b Hi Hb) as [_ _ _ _ _ _ Hr (x & Hx & Hx0)].
  rewrite Hfree in Hr, Hx0. destruct (bcore_head _ _ _ _ _ _ _ Hc) as (h & Hh & Hhn & _).
  destruct (benv_enter s pid He) as (Hok & Ho & _). pose proof He as (Hks & Hul & _).
  unfold bget. run kacquire_ok. erewrite bind_done by (by apply buf_at_ok). rewrite Hhn.
  change (k_bufs s) with (k_bufs (enter LBcache s)) in *.
  erewrite bind_done.
  2:{ eapply (find_cached_ok _ _ _ l); [by apply (bc_len Hc)|done| |].
      - intros j. by apply order_lt.
      - rewrite Hl, length_seq. lia. }
  rewrite Hpick. cbn [obind]. erewrite bind_done by done.
  rewrite (bget_finish s pid i x) by done. do 2 f_equal.
  eapply upd_buf_ext; [done|]. rewrite Hr. done.
Qed.

Lemma bget_recycled dev bn l i b :
  l ≡ₚ seq 0 NBUF → dll (k_bufs s) l → pick (is_block dev bn) (k_bufs s) l = None →
  pick is_unused (k_bufs s) (reverse l) = Some i →
  k_bufs s !! i = Some b → H !! i = None →
  bget dev bn s = Done i (sl_take (SLBuf i) pid (upd_buf i
    (λ b, with_b_refcnt 1 (with_b_flags 0 (with_b_blockno bn (with_b_dev dev b)))) s)).
Proof.
  intros Hl [Hn Hp] Hpick Hun Hb Hfree.
  pose proof (pick_Some _ _ _ _ Hun) as [Hi _].
  rewrite elem_of_reverse in Hi. apply (order_lt l) in Hi; [|done].
  destruct (bc_buf Hc i b Hi Hb) as [_ _ _ _ _ _ Hr (x & Hx & Hx0)].
  rewrite Hfree in Hx0. destruct (bcore_head _ _ _ _ _ _ _ Hc) as (h & Hh & Hhn & Hhp).
  destruct (benv_enter s pid He) as (Hok & Ho & _). pose proof He as (Hks & Hul & _).
  unfold bget. run kacquire_ok. erewrite bind_done by (by apply buf_at_ok). rewrite Hhn.
  change (k_bufs s) with (k_bufs (enter LBcache s)) in *.
  assert (Hlt : (length l < S NBUF)%nat) by (rewrite Hl, length_seq; lia).
  erewrite bind_done.
  2:{ eapply (find_cached_ok _ _ _ l); [by apply (bc_len Hc)|done| |done].
      intros j. by apply order_lt. }
  rewrite Hpick. erewrite bind_done by (by apply buf_at_ok). rewrite Hhp.
  erewrite bind_done.
  2:{ eapply (find_unused_ok _ (reverse l)); [by apply (bc_len Hc)|done| |].
      - intros j. rewrite elem_of_reverse. by apply order_lt.
      - by rewrite length_reverse. }
  rewrite Hun. cbn iota. do 4 erewrite bind_done by done. rewrite !upd_buf_twice.
  by rewrite (bget_finish s pid i x).
Qed.
End bget.

Lemma holding_mine s pid i x :
  benv s pid → (i < NBUF)%nat → k_slocks s !! SLBuf i = Some x →
  sl_locked x ≠ 0 → sl_pid x = pid → holdingsleep (SLBuf i) s = Done true s.
Proof.
  intros (Hok & _ & _ & Hul & p & pr & Hrun & _ & <-) Hi Hx H0 Hp.
  destruct (holdingsleep_ok (SLBuf i) x s) as [_ Hh]; [done|by apply Hul|done|].
  rewrite (Hh p pr) by done. by rewrite Hp, Z.eqb_refl.
Qed.

Section iderw.
Context (s : kernel) (pid : Z) (i : nat) (x : sleeplock) (b : buf).
Context (He : benv s pid) (Hi : (i < NBUF)%nat) (Hx : k_slocks s !! SLBuf i = Some x).
Context (Hx1 : sl_locked x ≠ 0) (Hx2 : sl_pid x = pid).
Context (Hb : k_bufs s !! i = Some b) (Hdev : b_dev b = 1).
Context (Hrange : 0 ≤ b_blockno b < Z.of_nat (length (k_disk s))).

Lemma iderw_read d :
  b_flags b = 0 → k_disk s !! Z.to_nat (b_blockno b) = Some d →
  iderw i s = Done tt (upd_buf i (λ b, with_b_flags 2 (with_b_data d b)) s).
Proof.
  intros Hf Hd. unfold iderw. erewrite bind_done by (by eapply holding_mine).
  cbn [negb]. erewrite bind_done by (by apply buf_at_ok). rewrite Hf, Hdev.
  change (Z.land 0 _ =? _) with false. change (negb (1 =? 1)) with false. cbn iota.
  unfold bind at 1, gets. cbn [obind].
  rewrite (proj2 (Z.leb_gt _ _)) by lia. unfold dirty. rewrite Hf.
  change (negb (Z.land 0 B_DIRTY =? 0)) with false. cbn iota.
  erewrite bind_done.
  2:{ erewrite bind_done; [done|]. by rewrite Hd. }
  unfold set_buf, modify. rewrite upd_buf_twice. f_equal.
  eapply upd_buf_ext; [done|]. simpl. by rewrite Hf.
Qed.

Lemma iderw_write :
  b_flags b = 6 → iderw i s =
    Done tt (disk_write (b_blockno b) (b_data b) (upd_buf i (with_b_flags 2) s)).
Proof.
  intros Hf. unfold iderw. erewrite bind_done by (by eapply holding_mine).
  cbn [negb]. erewrite bind_done by (by apply buf_at_ok). rewrite Hf, Hdev.
  change (Z.land 6 _ =? _) with false. change (negb (1 =? 1)) with false. cbn iota.
  unfold bind at 1, gets. cbn [obind].
  rewrite (proj2 (Z.leb_gt _ _)) by lia. unfold dirty. rewrite Hf.
  change (negb (Z.land 6 B_DIRTY =? 0)) with true. cbn iota.
  erewrite bind_done by (by erewrite bind_done by done).
  change (Z.ldiff 6 B_DIRTY) with 2. unfold set_buf, modify.
  change (upd_buf i ?f (disk_write ?n ?d ?t)) with (disk_write n d (upd_buf i f t)).
  by rewrite upd_buf_twice.
Qed.
End iderw.

(** A process that takes a buffer leaves the others alone. *)
Lemma buf_rep_take n slocks pid H V P i bn f j b :
  j ≠ i → buf_rep n slocks pid H V P j b →
  buf_rep n (alter f (SLBuf i) slocks) pid (<[i:=bn]> H) V P j b.
Proof.
  intros Hne [Hf Hd Hv Hiv Hp Hh Hr Hl].
  constructor; rewrite ?lookup_insert_ne, ?lookup_alter_ne by congruence; done.
Qed.

Lemma bread_cached_core disk bufs slocks pid H V P i b :
  bcore disk bufs slocks pid H V P → (i < NBUF)%nat → bufs !! i = Some b →
  b_dev b = 1 → H !! i = None →
  valid b = true ∧
  bcore disk (alter (with_b_refcnt 1) i bufs)
    (alter (λ x, with_sl_pid pid (with_sl_locked 1 x)) (SLBuf i) slocks) pid
    (<[i := b_blockno b]> H) V P.
Proof.
  intros Hc Hi Hb Hdev Hfree. pose proof (bc_buf Hc i b Hi Hb) as R.
  assert (Hval : valid b = true).
  { destruct (valid b) eqn:E; [done|]. destruct (br_invalid R E). congruence. }
  split; [done|]. eapply bcore_upd; eauto using bc_disk, buf_rep_take.
  - destruct R as [Rf Rd Rv Ri Rp Rh Rr (x & Hx & H0)]. rewrite Hfree in H0.
    constructor; try done.
    + intros E. change (valid b = false) in E. congruence.
    + simpl. rewrite lookup_insert_eq. congruence.
    + by rewrite lookup_insert_eq.
    + exists (with_sl_pid pid (with_sl_locked 1 x)).
      rewrite lookup_insert_eq, lookup_alter_eq, Hx. done.
  - intros j bj Hne Hj Lj _ Dj E. destruct Hne.
    symmetry. apply (bc_uniq Hc i j b bj); done.
  - intros n Hn HP HH. apply (bc_clean Hc); [done|done|]. intros j Hj. apply (HH j).
    rewrite lookup_insert_ne; [done|]. congruence.
  - intros n Hn. destruct (bc_pins Hc n Hn) as (j & bj & Hj & Lj & Dj & Ej).
    destruct (decide (j = i)) as [->|Hne]; [|right; eauto 10].
    left. assert (bj = b) as -> by congruence. done.
  - intros j n. rewrite lookup_insert. case_decide; [by intros; subst|]. apply (bc_dom Hc).
Qed.

Lemma bread_recycled_core disk bufs slocks pid H V P i b bn d :
  bcore disk bufs slocks pid H V P → (i < NBUF)%nat → bufs !! i = Some b →
  is_unused b = true → H !! i = None → 0 ≤ bn < Z.of_nat (length disk) →
  (∀ j bj, (j < NBUF)%nat → bufs !! j = Some bj → is_block 1 bn bj = false) →
  disk !! Z.to_nat bn = Some d →
  bcore disk (alter (λ b, mkBuf 2 1 bn 1 (b_prev b) (b_next b) d) i bufs)
    (alter (λ x, with_sl_pid pid (with_sl_locked 1 x)) (SLBuf i) slocks) pid
    (<[i := bn]> H) V P.
Proof.
  intros Hc Hi Hb Hun Hfree Hbn Hnone Hd. pose proof (bc_buf Hc i b Hi Hb) as R.
  assert (HnP : bn ∉ P).
  { intros Hin. destruct (bc_pins Hc bn Hin) as (j & bj & Hj & Lj & Dj & Ej).
    pose proof (bc_buf Hc j bj Hj Lj) as Rj.
    apply (dirty_valid bj (br_flags Rj)), (br_valid Rj) in Dj as [Dj _].
    specialize (Hnone j bj Hj Lj). unfold is_block in Hnone. lia. }
  assert (HnH : ∀ j, H !! j ≠ Some bn).
  { intros j HH. pose proof (bc_dom Hc j bn HH) as Hj.
    destruct (bcore_buf _ _ _ _ _ _ _ j Hc Hj) as (bj & Lj & Rj).
    specialize (Hnone j bj Hj Lj). unfold is_block in Hnone.
    destruct (valid bj) eqn:E; [|destruct (br_invalid Rj E); congruence].
    destruct (br_valid Rj E) as [D _]. pose proof (br_held Rj bn HH). lia. }
  assert (HV : V bn = d).
  { pose proof (bc_clean Hc bn Hbn HnP HnH). congruence. }
  eapply bcore_upd; eauto using bc_disk, buf_rep_take.
  - destruct R as [Rf Rd Rv Ri Rp Rh Rr (x & Hx & H0)]. rewrite Hfree in H0.
    constructor; simpl; rewrite ?lookup_insert_eq; try done.
    + right. by left.
    + apply (proj1 (Forall_lookup _ _) (bc_disk Hc) _ _ Hd).
    + intros n [= ->]. done.
    + exists (with_sl_pid pid (with_sl_locked 1 x)). by rewrite lookup_alter_eq, Hx.
  - intros j bj Hne Hj Lj _ Dj E. simpl in E. specialize (Hnone j bj Hj Lj).
    unfold is_block in Hnone. lia.
  - intros n Hn HP HH. apply (bc_clean Hc); [done|done|]. intros j Hj. apply (HH j).
    rewrite lookup_insert_ne; [done|]. congruence.
  - intros n Hn. destruct (bc_pins Hc n Hn) as (j & bj & Hj & Lj & Dj & Ej).
    right. exists j, bj. split; [|done]. intros ->. assert (bj = b) as -> by congruence.
    unfold is_unused in Hun. unfold dirty in Dj. destruct (_ =? 0) in Hun, Dj; lia.
  - intros j n. rewrite lookup_insert. case_decide; [by intros; subst|]. apply (bc_dom Hc).
Qed.

Lemma sl_take_frame i pid f s : bframe s (sl_take (SLBuf i) pid (upd_buf i f s)).
Proof.
  split; [by destruct s|]. split; [apply woken_refl|]. intros j. by apply lookup_alter_ne.
Qed.

Lemma brep_intro s s' H V P pid :
  bframe s s' → benv s pid → bcore (k_disk s) (k_bufs s') (k_slocks s') pid H V P →
  brep s' H V P.
Proof.
  intros [E [W _]] He Hc. exists pid. split.
  - eapply benv_frame; [|done|done]. by rewrite E.
  - replace (k_disk s') with (k_disk s); [done|]. by rewrite E.
Qed.

(** What a process knows of a buffer it holds. *)
Lemma held_buf s H V P i bn :
  brep s H V P → H !! i = Some bn →
  ∃ b, k_bufs s !! i = Some b ∧ (i < NBUF)%nat ∧ b_dev b = 1 ∧ b_blockno b = bn ∧
    b_data b = V bn ∧ valid b = true ∧ block_ok (V bn) ∧
    0 ≤ bn < Z.of_nat (length (k_disk s)) ∧ (dirty b = true ↔ bn ∈ P).
Proof.
  intros (pid & He & Hc) HH. pose proof (bc_dom Hc i bn HH) as Hi.
  destruct (bcore_buf _ _ _ _ _ _ _ i Hc Hi) as (b & Hb & R).
  pose proof (br_held R bn HH) as Hbn. exists b.
  assert (Hv : valid b = true).
  { destruct (valid b) eqn:E; [done|]. destruct (br_invalid R E). congruence. }
  destruct (br_valid R Hv) as (Hd & Hr & Hdat). rewrite Hbn in Hdat, Hr.
  pose proof (br_data R) as Hok. rewrite Hdat in Hok. do 8 (split; [done|]). split.
  - intros E. rewrite <-Hbn. by apply (br_pin R).
  - intros E. destruct (bc_pins Hc bn E) as (j & bj & Hj & Lj & Dj & Ej).
    pose proof (bc_buf Hc j bj Hj Lj) as Rj.
    pose proof (dirty_valid bj (br_flags Rj) Dj) as Vj. destruct (br_valid Rj Vj) as (Dvj & _).
    assert (j = i) as -> by (eapply (bc_uniq Hc); eauto; congruence). congruence.
Qed.

(** [bread] hands out a buffer with the contents of the block, whether it was
    cached or not, and changes no block; the cache has room when the block is
    pinned or not every buffer is held or pinned. *)
Lemma bread_spec s H V P bn :
  brep s H V P → 0 ≤ bn < Z.of_nat (length (k_disk s)) → (∀ i, H !! i ≠ Some bn) →
  bn ∈ P ∨ (size H + size P < NBUF)%nat →
  ∃ i s', bread 1 bn s = Done i s' ∧ H !! i = None ∧ brep s' (<[i:=bn]> H) V P ∧ bframe s s'.
Proof.
  intros (pid & He & Hc) Hbn HnH Hroom. destruct (bc_list Hc) as (l & Hl & Hdll).
  destruct (pick (is_block 1 bn) (k_bufs s) l) as [i|] eqn:Hpick.
  - pose proof (pick_Some _ _ _ _ Hpick) as [Hil (b & Hb & Hblk)].
    pose proof (order_lt l i Hl Hil) as Hi. unfold is_block in Hblk.
    assert (Hfree : H !! i = None).
    { destruct (H !! i) as [n|] eqn:E; [|done]. destruct (HnH i). rewrite E.
      rewrite <-(br_held (bc_buf Hc i b Hi Hb) n E). f_equal. lia. }
    assert (Ebn : b_blockno b = bn) by lia.
    destruct (bread_cached_core _ _ _ _ _ _ _ i b Hc Hi Hb) as [Hv Hcore]; [lia|done|].
    pose proof (sl_take_frame i pid (with_b_refcnt 1) s) as Hfr.
    exists i, (sl_take (SLBuf i) pid (upd_buf i (with_b_refcnt 1) s)).
    split; [|split; [done|split; [|done]]].
    + unfold bread. erewrite bind_done by (by eapply bget_cached). erewrite bind_done.
      2:{ apply buf_at_ok. simpl. rewrite list_lookup_alter, decide_True, Hb by done. done. }
      simpl. unfold valid in Hv. destruct (_ =? 0); [done|]. done.
    + rewrite Ebn in Hcore. by eapply brep_intro.
  - assert (Hnone : ∀ j bj, (j < NBUF)%nat → k_bufs s !! j = Some bj → is_block 1 bn bj = false).
    { intros j bj Hj Lj. eapply pick_None; [done| |done]. by apply order_elem. }
    assert (Hsz : (size H + size P < NBUF)%nat).
    { destruct Hroom as [Hin|?]; [|done]. destruct (bc_pins Hc bn Hin) as (j & bj & Hj & Lj & Dj & Ej).
      pose proof (bc_buf Hc j bj Hj Lj) as Rj.
      apply (dirty_valid bj (br_flags Rj)), (br_valid Rj) in Dj as [Dj _].
      specialize (Hnone j bj Hj Lj). unfold is_block in Hnone. lia. }
    destruct (unused_exists _ _ _ _ _ _ _ Hc Hsz) as (j & bj & Hj & Lj & Hun).
    destruct (pick is_unused (k_bufs s) (reverse l)) as [i|] eqn:Hpu.
    2:{ rewrite (pick_None _ _ _ Hpu j bj) in Hun; [done| |done].
        rewrite elem_of_reverse. by apply order_elem. }
    pose proof (pick_Some _ _ _ _ Hpu) as [Hil (b & Hb & Hub)].
    rewrite elem_of_reverse in Hil. pose proof (order_lt l i Hl Hil) as Hi.
    assert (Hfree : H !! i = None).
    { pose proof (br_ref (bc_buf Hc i b Hi Hb)) as Hr. unfold is_unused in Hub.
      destruct (H !! i); [lia|done]. }
    destruct (lookup_lt_is_Some_2 (k_disk s) (Z.to_nat bn)) as [d Hd]; [lia|].
    pose proof (bread_recycled_core _ _ _ _ _ _ _ i b bn d Hc Hi Hb Hub Hfree Hbn Hnone Hd) as Hcore.
    destruct (br_lock (bc_buf Hc i b Hi Hb)) as (x & Hx & Hx0). rewrite Hfree in Hx0.
    set (f := λ b, with_b_refcnt 1 (with_b_flags 0 (with_b_blockno bn (with_b_dev 1 b)))).
    set (s1 := sl_take (SLBuf i) pid (upd_buf i f s)).
    assert (Eb : k_bufs s1 !! i = Some (f b)).
    { simpl. rewrite list_lookup_alter, decide_True, Hb by done. done. }
    exists i, (upd_buf i (λ b, with_b_flags 2 (with_b_data d b)) s1).
    assert (Est : upd_buf i (λ b, with_b_flags 2 (with_b_data d b)) s1 =
      sl_take (SLBuf i) pid (upd_buf i (λ b, mkBuf 2 1 bn 1 (b_prev b) (b_next b) d) s)).
    { unfold s1. change (upd_buf i ?g (sl_take ?l ?q ?t)) with (sl_take l q (upd_buf i g t)).
      by rewrite upd_buf_twice. }
    split; [|split; [done|]].
    + unfold bread. erewrite bind_done by (by eapply bget_recycled). fold f s1.
      erewrite bind_done by (by apply buf_at_ok). cbn [b_flags f with_b_refcnt with_b_flags].
      change (Z.land 0 B_VALID =? 0) with true. cbn iota.
      erewrite bind_done; [done|].
      eapply (iderw_read s1 pid i (with_sl_pid pid (with_sl_locked 1 x)) (f b)); try done.
      simpl. by rewrite lookup_alter_eq, Hx.
    + rewrite Est. pose proof (sl_take_frame i pid (λ b, mkBuf 2 1 bn 1 (b_prev b) (b_next b) d) s) as Hfr.
      split; [by eapply brep_intro|done].
Qed.

(** Another buffer than the one of block [bn] does not see a change of [bn]. *)
Lemma buf_rep_other disk bufs slocks pid H V P i b V' P' j bj :
  bcore disk bufs slocks pid H V P → (i < NBUF)%nat → bufs !! i = Some b → b_dev b = 1 →
  j ≠ i → (j < NBUF)%nat → bufs !! j = Some bj →
  (∀ n, n ≠ b_blockno b → V' n = V n) → (∀ n, n ≠ b_blockno b → n ∈ P → n ∈ P') →
  buf_rep (Z.of_nat (length disk)) slocks pid H V P j bj →
  buf_rep (Z.of_nat (length disk)) slocks pid H V' P' j bj.
Proof.
  intros Hc Hi Hb Hdev Hne Hj Lj HV HP [Rf Rd Rv Ri Rp Rh Rr Rl].
  assert (Hbn : valid bj = true → b_blockno bj ≠ b_blockno b).
  { intros E En. destruct (Rv E) as (D & _). destruct Hne.
    by apply (bc_uniq Hc j i bj b). }
  constructor; try done.
  - intros E. destruct (Rv E) as (D & Hr & Hdat). rewrite HV by auto. done.
  - intros E. apply HP; [|auto]. auto using dirty_valid.
Qed.

(** The holder of a buffer writes its data. *)
Lemma set_data_spec s H V P i bn d :
  brep s H V P → H !! i = Some bn → block_ok d →
  brep (upd_buf i (with_b_data d) s) H (<[bn := d]> V) P.
Proof.
  intros Hrep HH Hd. destruct (held_buf _ _ _ _ _ _ Hrep HH)
    as (b & Hb & Hi & Hdev & Hbn & Hdat & Hv & _ & Hr & _).
  destruct Hrep as (pid & He & Hc). exists pid. split; [done|]. cbn [k_disk k_bufs k_slocks upd_buf with_k_bufs].
  eapply bcore_upd; eauto using bc_disk, bc_dom.
  - destruct (bc_buf Hc i b Hi Hb) as [Rf Rd Rv Ri Rp Rh Rr Rl]. constructor; try done.
    + intros _. simpl. rewrite Hbn, fn_lookup_insert. done.
  - intros j bj Hne Hj Lj Rj.
    refine (buf_rep_other _ _ _ _ _ _ _ i b _ _ j bj Hc Hi Hb Hdev Hne Hj Lj _ _ Rj); [|done].
    intros n Hn. rewrite fn_lookup_insert_ne by congruence. done.
  - intros j bj Hne Hj Lj _ Dj E. destruct Hne. symmetry. by apply (bc_uniq Hc i j b bj).
  - intros n Hn HP Hh. rewrite fn_lookup_insert_ne; [by apply (bc_clean Hc)|].
    intros ->. by apply (Hh i).
  - intros n Hn. destruct (bc_pins Hc n Hn) as (j & bj & Hj & Lj & Dj & Ej).
    destruct (decide (j = i)) as [->|]; [left|right; eauto 10].
    assert (bj = b) as -> by congruence. done.
Qed.

(** Setting [B_DIRTY] pins the block. *)
Lemma pin_spec s H V P i bn :
  brep s H V P → H !! i = Some bn →
  brep (upd_buf i (λ b, with_b_flags (Z.lor (b_flags b) B_DIRTY) b) s) H V ({[bn]} ∪ P).
Proof.
  intros Hrep HH. destruct (held_buf _ _ _ _ _ _ Hrep HH)
    as (b & Hb & Hi & Hdev & Hbn & Hdat & Hv & _ & Hr & _).
  destruct Hrep as (pid & He & Hc). exists pid. split; [done|]. cbn [k_disk k_bufs k_slocks upd_buf with_k_bufs].
  pose proof (bc_buf Hc i b Hi Hb) as R.
  assert (Hf : Z.lor (b_flags b) B_DIRTY = 6).
  { destruct (flags_cases b (br_flags R)) as [(_ & ? & _)|[(-> & _)|(-> & _)]]; [congruence|done..]. }
  eapply bcore_upd; eauto using bc_disk, bc_dom.
  - destruct R as [Rf Rd Rv Ri Rp Rh Rr Rl].
    constructor; try done; unfold valid, dirty; simpl; rewrite ?Hf; try done.
    + by right; right.
    + intros _. by apply Rv.
    + intros _. set_solver.
  - intros j bj Hne Hj Lj Rj.
    refine (buf_rep_other _ _ _ _ _ _ _ i b _ _ j bj Hc Hi Hb Hdev Hne Hj Lj _ _ Rj); [done|set_solver].
  - intros j bj Hne Hj Lj _ Dj E. destruct Hne. symmetry. by apply (bc_uniq Hc i j b bj).
  - intros n Hn HP Hh. apply (bc_clean Hc); [done|set_solver|done].
  - intros n [->%elem_of_singleton|Hn]%elem_of_union.
    + left. unfold dirty. simpl. by rewrite Hf.
    + destruct (bc_pins Hc n Hn) as (j & bj & Hj & Lj & Dj & Ej).
      destruct (decide (j = i)) as [->|]; [left|right; eauto 10].
      assert (bj = b) as -> by congruence. unfold dirty. simpl. by rewrite Hf.
Qed.

(** [bwrite] writes the block through to the disk and unpins it. *)
Lemma bwrite_spec s H V P i bn :
  brep s H V P → H !! i = Some bn →
  ∃ s', bwrite i s = Done tt s' ∧ brep s' H V (P ∖ {[bn]}) ∧
    s' = disk_write bn (V bn) (with_k_bufs (k_bufs s') s).
Proof.
  intros Hrep HH. destruct (held_buf _ _ _ _ _ _ Hrep HH)
    as (b & Hb & Hi & Hdev & Hbn & Hdat & Hv & Hok & Hr & _).
  destruct Hrep as (pid & He & Hc). pose proof (bc_buf Hc i b Hi Hb) as R.
  assert (Hf : Z.lor (b_flags b) B_DIRTY = 6).
  { destruct (flags_cases b (br_flags R)) as [(_ & ? & _)|[(-> & _)|(-> & _)]]; [congruence|done..]. }
  destruct (br_lock R) as (x & Hx & Hx0). rewrite HH in Hx0. destruct Hx0 as [Hx0 Hx1].
  set (f := λ b : buf, with_b_flags (Z.lor (b_flags b) B_DIRTY) b).
  exists (disk_write bn (V bn) (upd_buf i (λ b, with_b_flags 2 (f b)) s)).
  split; [|split; [|done]].
  - unfold bwrite. erewrite bind_done by (by eapply holding_mine). cbn [negb].
    erewrite bind_done by done. fold f.
    rewrite (iderw_write (upd_buf i f s) pid i x (f b)); try done.
    + rewrite upd_buf_twice. unfold f. simpl. by rewrite Hbn, Hdat.
    + simpl. rewrite list_lookup_alter, decide_True, Hb by done. done.
    + simpl. by rewrite Hbn.
  - exists pid. split; [done|]. simpl. eapply bcore_upd; eauto using bc_dom.
    + by rewrite length_insert.
    + apply Forall_insert; [apply (bc_disk Hc)|done].
    + destruct R as [Rf Rd Rv Ri Rp Rh Rr Rl].
      constructor; try done; unfold valid, dirty; simpl; try done.
      * by right; left.
      * intros _. by apply Rv.
    + intros j bj Hne Hj Lj Rj.
      refine (buf_rep_other _ _ _ _ _ _ _ i b _ _ j bj Hc Hi Hb Hdev Hne Hj Lj _ _ Rj); [done|]. rewrite Hbn. set_solver.
    + intros j bj Hne Hj Lj _ Dj E. destruct Hne. symmetry. by apply (bc_uniq Hc i j b bj).
    + intros n Hn HP Hh. destruct (decide (n = bn)) as [->|Hne].
      * rewrite list_lookup_insert_eq by lia. done.
      * rewrite list_lookup_insert_ne by lia. apply (bc_clean Hc); [done|set_solver|done].
    + intros n [Hn Hnb]%elem_of_difference. destruct (bc_pins Hc n Hn) as (j & bj & Hj & Lj & Dj & Ej).
      right. exists j, bj. split; [|done]. intros ->. set_solver by congruence.
Qed.

(** The list updates of [brelse], as the function on buffers they compute. *)
Lemma buf_at_links j s :
  (j < length (k_bufs s))%nat →
  ∃ b, buf_at j s = Done b s ∧ b_next b = nxt (k_bufs s) j ∧ b_prev b = prv (k_bufs s) j.
Proof.
  intros Hj. destruct (lookup_lt_is_Some_2 _ _ Hj) as [b Hb]. exists b.
  unfold nxt, prv. rewrite Hb. split; [by apply buf_at_ok|done].
Qed.

Lemma relink_run i s :
  length (k_bufs s) = S NBUF → (i < NBUF)%nat →
  (bf <- buf_at i ;;
   set_buf (b_next bf) (with_b_prev (b_prev bf)) ;;;
   bf <- buf_at i ;;
   set_buf (b_prev bf) (with_b_next (b_next bf)) ;;;
   head <- buf_at NBUF ;;
   set_buf i (with_b_next (b_next head)) ;;;
   set_buf i (with_b_prev NBUF) ;;;
   head <- buf_at NBUF ;;
   set_buf (b_next head) (with_b_prev i) ;;;
   set_buf NBUF (with_b_next i)) s =
  Done tt (with_k_bufs (push_front i (unlink i (k_bufs s))) s).
Proof.
  intros Hlen Hi.
  destruct (buf_at_links i s) as (b1 & E1 & N1 & P1); [lia|].
  erewrite bind_done by exact E1. rewrite N1, P1. clear b1 E1 N1 P1.
  erewrite bind_done by done. set (s1 := upd_buf _ _ s).
  assert (L1 : length (k_bufs s1) = S NBUF) by (simpl; by rewrite length_alter).
  destruct (buf_at_links i s1) as (b1 & E1 & N1 & P1); [lia|].
  erewrite bind_done by exact E1. rewrite N1, P1. clear b1 E1 N1 P1.
  erewrite bind_done by done. set (s2 := upd_buf _ _ s1).
  assert (L2 : length (k_bufs s2) = S NBUF) by (simpl; by rewrite !length_alter).
  destruct (buf_at_links NBUF s2) as (b1 & E1 & N1 & P1); [lia|].
  erewrite bind_done by exact E1. rewrite N1. clear b1 E1 N1 P1.
  erewrite bind_done by done. erewrite bind_done by done. set (s3 := upd_buf _ _ (upd_buf _ _ s2)).
  assert (L3 : length (k_bufs s3) = S NBUF) by (simpl; by rewrite !length_alter).
  destruct (buf_at_links NBUF s3) as (b1 & E1 & N1 & P1); [lia|].
  erewrite bind_done by exact E1. rewrite N1. clear b1 E1 N1 P1.
  erewrite bind_done by done. done.
Qed.

(** Moving a buffer to the front keeps the list. *)
Lemma front_dll bufs l i :
  length bufs = S NBUF → l ≡ₚ seq 0 NBUF → dll bufs l → (i < NBUF)%nat →
  ∃ l', l' ≡ₚ seq 0 NBUF ∧ dll (push_front i (unlink i bufs)) l'.
Proof.
  intros Hlen Hl Hdll Hi.
  assert (Hin : i ∈ l) by (by apply order_elem).
  apply list_elem_of_split in Hin as (l1 & l2 & ->).
  assert (Hnd : NoDup (NBUF :: l1 ++ i :: l2)).
  { apply NoDup_cons. split.
    - intros Hin. apply (order_lt _ _ Hl) in Hin. lia.
    - rewrite Hl. apply NoDup_seq. }
  assert (Hlt : ∀ j, j ∈ l1 ++ i :: l2 → (j < NBUF)%nat) by (intros j; by apply order_lt).
  assert (Hp : i :: l1 ++ l2 ≡ₚ l1 ++ i :: l2) by apply Permutation_middle.
  exists (i :: l1 ++ l2). split; [by rewrite Hp|].
  apply push_front_dll.
  - unfold unlink. by rewrite !length_alter.
  - by rewrite Hp.
  - intros j. rewrite Hp. apply Hlt.
  - by apply unlink_dll.
Qed.

Lemma brelse_core disk bufs slocks pid H V P i b bn :
  bcore disk bufs slocks pid H V P → (i < NBUF)%nat → bufs !! i = Some b → H !! i = Some bn →
  b_dev b = 1 → bn ∈ P ∨ disk !! Z.to_nat bn = Some (V bn) →
  bcore disk (alter (with_b_refcnt 0) i bufs)
    (alter (λ x, with_sl_pid 0 (with_sl_locked 0 x)) (SLBuf i) slocks) pid (delete i H) V P.
Proof.
  intros Hc Hi Hb HH Hdev Hclean. pose proof (bc_buf Hc i b Hi Hb) as R.
  eapply bcore_upd; eauto using bc_disk.
  - destruct R as [Rf Rd Rv Ri Rp Rh Rr (x & Hx & H0)].
    constructor; simpl; rewrite ?lookup_delete_eq; try done.
    + intros E. split; [by apply Ri|done].
    + exists (with_sl_pid 0 (with_sl_locked 0 x)). by rewrite lookup_alter_eq, Hx.
  - intros j bj Hne Hj Lj [Rf Rd Rv Ri Rp Rh Rr Rl].
    constructor; rewrite ?lookup_delete_ne, ?lookup_alter_ne by congruence; done.
  - intros j bj Hne Hj Lj _ Dj E. destruct Hne. symmetry. by apply (bc_uniq Hc i j b bj).
  - intros n Hn HP Hh. destruct (decide (n = bn)) as [->|Hne].
    + by destruct Hclean.
    + apply (bc_clean Hc); [done|done|]. intros j Hj. apply (Hh j).
      rewrite lookup_delete_ne; [done|]. congruence.
  - intros n Hn. destruct (bc_pins Hc n Hn) as (j & bj & Hj & Lj & Dj & Ej).
    destruct (decide (j = i)) as [->|]; [left|right; eauto 10].
    assert (bj = b) as -> by congruence. done.
  - intros j n. rewrite lookup_delete_Some. intros [_ ?]. by eapply (bc_dom Hc).
Qed.

(** [brelse] gives a buffer back; a block that was changed must be pinned or
    written by then. *)
Lemma brelse_spec s H V P i bn :
  brep s H V P → H !! i = Some bn → bn ∈ P ∨ k_disk s !! Z.to_nat bn = Some (V bn) →
  ∃ s', brelse i s = Done tt s' ∧ brep s' (delete i H) V P ∧ bframe s s'.
Proof.
  intros Hrep HH Hclean. destruct (held_buf _ _ _ _ _ _ Hrep HH)
    as (b & Hb & Hi & Hdev & _ & _ & _ & _ & _).
  destruct Hrep as (pid & He & Hc). pose proof (bc_buf Hc i b Hi Hb) as R.
  destruct (br_lock R) as (x & Hx & Hx0). rewrite HH in Hx0. destruct Hx0 as [Hx0 Hx1].
  pose proof (br_ref R) as Hr. rewrite HH in Hr.
  pose proof (brelse_core _ _ _ _ _ _ _ i b bn Hc Hi Hb HH Hdev Hclean) as Hcore.
  destruct (bc_list Hcore) as (l & Hl & Hdll).
  destruct (front_dll _ l i (bc_len Hcore) Hl Hdll Hi) as (l' & Hl' & Hdll').
  pose proof (bcore_relink _ _ _ _ _ _ _ _ l' Hcore (relinked_front i _) Hl' Hdll') as Hcore'.
  set (s1 := sl_drop (SLBuf i) s).
  set (s2 := upd_buf i (with_b_refcnt 0) s1).
  set (s3 := with_k_bufs (push_front i (unlink i (k_bufs s2))) s1).
  assert (Hfr : bframe s s3) by (split; [by destruct s|]; split; [apply woken_wake|];
    intros j; by apply lookup_alter_ne).
  exists s3. split; [|split; [by eapply brep_intro|done]].
  assert (He1 : benv s1 pid) by (apply (benv_frame s); [done|apply woken_wake|done]).
  destruct (benv_enter s1 pid He1) as (Hok1 & Ho1 & Hl1).
  unfold brelse. erewrite bind_done by (by eapply holding_mine). cbn [negb].
  erewrite bind_done.
  2:{ destruct He as (Hok & _ & Hpt & Hul & _). apply releasesleep_ok; [done|by apply Hul|done]. }
  fold s1. erewrite bind_done by (apply kacquire_ok; apply He1).
  erewrite bind_done by done.
  assert (E : upd_buf i (λ bf, with_b_refcnt (u32 (b_refcnt bf - 1)) bf) (enter LBcache s1)
    = enter LBcache s2).
  { erewrite (upd_buf_ext i _ (with_b_refcnt 0)); [done|exact Hb|]. by rewrite Hr. }
  rewrite E. erewrite bind_done.
  2:{ apply buf_at_ok. simpl. rewrite list_lookup_alter, decide_True, Hb by done. done. }
  cbn [b_refcnt with_b_refcnt]. change (0 =? 0) with true. cbn iota.
  erewrite bind_done.
  2:{ apply relink_run; [|done]. simpl. rewrite length_alter. apply (bc_len Hc). }
  rewrite krelease_ok by eauto with kernel.
  change (leave LBcache (with_k_bufs ?v (enter LBcache s2)))
    with (with_k_bufs v (leave LBcache (enter LBcache s1))). by rewrite Hl1.
Qed.

(** * Initialisation *)

(** The state after the first [k] turns of [binit]'s loop. *)
Definition binit_inv (s : kernel) (k : nat) (s' : kernel) : Prop :=
  s' = with_k_hart (with_h_locks (h_locks (k_hart s')) (k_hart s))
         (with_k_bufs (k_bufs s') (with_k_slocks (k_slocks s') s)) ∧
  Forall2 relinked (k_bufs s) (k_bufs s') ∧
  dll (k_bufs s') (reverse (seq 0 k)) ∧
  (∀ i, (i < k)%nat → unlocked (LSleep (SLBuf i)) s' ∧
     ∃ x, k_slocks s' !! SLBuf i = Some x ∧ sl_locked x = 0) ∧
  unlocked LBcache s' ∧ unlocked LPtable s'.

Lemma initlock_eq lk name s :
  initlock lk name s =
    Done tt (with_k_hart (with_h_locks (<[lk := mkSpinlock 0 name None]> (h_locks (k_hart s))) (k_hart s)) s).
Proof. done. Qed.

Lemma unlocked_initlock lk name s : unlocked lk
  (with_k_hart (with_h_locks (<[lk := mkSpinlock 0 name None]> (h_locks (k_hart s))) (k_hart s)) s).
Proof. unfold unlocked, Crit.lfree, Crit.lname. simpl. by rewrite lookup_insert_eq. Qed.

Lemma unlocked_initlock_ne lk lk' name s : lk ≠ lk' → unlocked lk s → unlocked lk
  (with_k_hart (with_h_locks (<[lk' := mkSpinlock 0 name None]> (h_locks (k_hart s))) (k_hart s)) s).
Proof.
  intros Hne. unfold unlocked, Crit.lfree, Crit.lname. simpl. by rewrite lookup_insert_ne.
Qed.

Lemma binit_step s k s' :
  length (k_bufs s) = S NBUF → (k < NBUF)%nat → binit_inv s k s' →
  ∃ s'', binit_body k s' = Done tt s'' ∧ binit_inv s (S k) s''.
Proof.
  intros Hlen Hk (Hs & Hrel & Hdll & Hlk & Hbc & Hpt). unfold binit_body.
  assert (L1 : length (k_bufs s') = S NBUF) by (by rewrite <-(Forall2_length _ _ _ Hrel)).
  destruct (buf_at_links NBUF s') as (b1 & E1 & N1 & _); [lia|].
  erewrite bind_done by exact E1. rewrite N1. clear b1 E1 N1.
  erewrite bind_done by done. erewrite bind_done by done.
  unfold initsleeplock. erewrite bind_done by (by erewrite bind_done by apply initlock_eq).
  set (s2 := with_k_slocks _ _).
  assert (L2 : length (k_bufs s2) = S NBUF) by (simpl; by rewrite !length_alter).
  destruct (buf_at_links NBUF s2) as (b1 & E1 & N1 & _); [lia|].
  erewrite bind_done by exact E1. rewrite N1. clear b1 E1 N1. erewrite bind_done by done.
  eexists. split; [done|]. split; [|split; [|split; [|split; [|split]]]].
  - subst s2. rewrite Hs. done.
  - change (Forall2 relinked (k_bufs s) (push_front k (k_bufs s'))).
    eapply relinked_trans; [exact Hrel|]. apply relinked_push_front.
  - change (dll (push_front k (k_bufs s')) (reverse (seq 0 (S k)))).
    rewrite seq_S, reverse_app. simpl. apply push_front_dll; [done| | |done].
    + rewrite reverse_Permutation. rewrite !NoDup_cons, elem_of_cons, !elem_of_seq.
      split; [lia|]. split; [lia|apply NoDup_seq].
    + intros j. rewrite reverse_Permutation, elem_of_cons, elem_of_seq. lia.
  - intros i Hi. split.
    + destruct (decide (i = k)) as [->|Hne]; [apply unlocked_initlock|].
      apply (unlocked_initlock_ne _ (LSleep (SLBuf k)) "sleep lock" s'); [congruence|].
      apply Hlk. lia.
    + simpl. rewrite lookup_insert. case_decide as E; [eauto|]. apply Hlk.
      assert (i ≠ k) by congruence. lia.
  - by apply (unlocked_initlock_ne _ (LSleep (SLBuf k)) "sleep lock" s').
  - by apply (unlocked_initlock_ne _ (LSleep (SLBuf k)) "sleep lock" s').
Qed.

Lemma binit_loop s n k s' :
  length (k_bufs s) = S NBUF → (k + n = NBUF)%nat → binit_inv s k s' →
  ∃ s'', for_each (seq k n) binit_body s' = Done tt s'' ∧ binit_inv s NBUF s''.
Proof.
  intros Hlen. revert k s'. induction n as [|n IH]; intros k s' Hk Hinv.
  - exists s'. assert (k = NBUF) as -> by lia. done.
  - cbn [seq for_each]. destruct (binit_step s k s' Hlen) as (s1 & E1 & Hi1); [lia|done|].
    erewrite bind_done by exact E1. apply IH; [lia|done].
Qed.

(** A machine as the kernel finds it at boot: every buffer unused. *)
Definition bufs_unused (bufs : list buf) : Prop :=
  length bufs = S NBUF ∧
  ∀ i b, (i < NBUF)%nat → bufs !! i = Some b →
    b_flags b = 0 ∧ b_dev b = 0 ∧ b_refcnt b = 0 ∧ block_ok (b_data b).

(** The contents of the disk, as a view of its blocks. *)
Definition disk_view (disk : list (list Z)) (b : Z) : list Z := default [] (disk !! Z.to_nat b).

(** [binit] returns; only the buffers and their locks have changed. *)
Lemma binit_runs s : unlocked LPtable s → length (k_bufs s) = S NBUF → ∃ s', binit s = Done tt s' ∧ binit_inv s NBUF s'.
Proof.
  intros Hpt Hlen.
  assert (Hinit : ∃ s1, binit s = for_each (seq 0 NBUF) binit_body s1 ∧ binit_inv s 0 s1).
  { eexists. split; [reflexivity|]. split; [|split; [|split; [|split; [|split]]]].
    - done.
    - simpl. eapply relinked_trans; [apply relinked_alter_prev|apply relinked_alter_next].
    - unfold dll. simpl. rewrite nxt_alter_next, prv_alter, prv_alter_prev, !decide_True; try done;
        rewrite ?length_alter; lia.
    - lia.
    - apply unlocked_initlock.
    - by apply (unlocked_initlock_ne LPtable LBcache "bcache" s). }
  destruct Hinit as (s1 & E1 & Hi1). rewrite E1. apply binit_loop; [done|lia|done].
Qed.

Lemma binit_spec s p pr :
  kok s → unlocked LPtable s → running s p pr → p_state pr = RUNNING →
  bufs_unused (k_bufs s) → Forall block_ok (k_disk s) →
  ∃ s', binit s = Done tt s' ∧ brep s' ∅ (disk_view (k_disk s)) ∅ ∧
    s' = with_k_hart (with_h_locks (h_locks (k_hart s')) (k_hart s))
           (with_k_bufs (k_bufs s') (with_k_slocks (k_slocks s') s)).
Proof.
  intros Hok Hpt Hrun Hst [Hlen Hun] Hdisk.
  destruct (binit_runs s Hpt Hlen) as (s2 & E2 & Hs2 & Hrel & Hdll & Hlk & Hbc & Hpt2).
  exists s2. split; [done|]. split; [|done].
  assert (Hback : ∀ i b', k_bufs s2 !! i = Some b' → ∃ b, k_bufs s !! i = Some b ∧ relinked b b').
  { intros j b' Hj. destruct (Forall2_lookup_r _ _ _ _ _ Hrel Hj) as (b & ? & ?). eauto. }
  exists (p_pid pr). split.
  - split; [by rewrite Hs2|]. split; [done|]. split; [done|]. split; [by apply Hlk|].
    exists p, pr. split; [|done]. rewrite Hs2. done.
  - replace (k_disk s2) with (k_disk s) by (by rewrite Hs2).
    constructor; try done.
    + by rewrite <-(Forall2_length _ _ _ Hrel).
    + exists (reverse (seq 0 NBUF)). split; [apply reverse_Permutation|done].
    + intros i j bi bj Hi Hj Li _ Di. destruct (Hback _ _ Li) as (c & Lc & Hc).
      rewrite Hc in Di. simpl in Di. destruct (Hun i c Hi Lc) as (_ & ? & _). congruence.
    + intros i b Hi Li. destruct (Hback _ _ Li) as (c & Lc & ->).
      destruct (Hun i c Hi Lc) as (Hf & Hd & Hr & Hb).
      constructor; unfold valid, dirty; simpl; rewrite ?Hf, ?lookup_empty; try done.
      * by left.
      * by apply Hlk.
    + intros b Hb _ _. unfold disk_view.
      destruct (lookup_lt_is_Some_2 (k_disk s) (Z.to_nat b)) as [d ->]; [lia|done].
Qed.

(** * Theorems *)

(** C3: Caching is transparent.  From a cache that represents the contents [V]
    of the disk's blocks, [bread] of any block returns a buffer with the
    block's contents, whether it was cached, had to be read into an unused
    buffer or is pinned; [brelse] gives it back; and neither changes the
    contents of any block, the disk, or the pinned blocks. *)
Theorem bread_brelse_transparent s H V P bn :
  brep s H V P → 0 ≤ bn < Z.of_nat (length (k_disk s)) → (∀ i, H !! i ≠ Some bn) →
  bn ∈ P ∨ (size H + size P < NBUF)%nat →
  ∃ i s1 s2, bread 1 bn s = Done i s1 ∧ b_data <$> k_bufs s1 !! i = Some (V bn) ∧
    brep s1 (<[i := bn]> H) V P ∧
    brelse i s1 = Done tt s2 ∧ brep s2 H V P ∧ k_disk s2 = k_disk s.
Proof.
  intros Hrep Hbn HH Hroom.
  destruct (bread_spec s H V P bn Hrep Hbn HH Hroom) as (i & s1 & E1 & Hi & R1 & F1).
  destruct (held_buf s1 _ V P i bn R1) as (b & Hb & _ & _ & _ & Hd & _).
  { apply lookup_insert_eq. }
  assert (D1 : k_disk s1 = k_disk s) by (destruct F1 as [-> _]; done).
  destruct (brelse_spec s1 _ V P i bn R1) as (s2 & E2 & R2 & F2).
  { apply lookup_insert_eq. }
  { destruct (decide (bn ∈ P)); [by left|right]. rewrite D1.
    destruct Hrep as (pid & _ & Hc). by apply (bc_clean Hc). }
  rewrite delete_insert_id in R2 by done.
  exists i, s1, s2. rewrite Hb. simpl. rewrite Hd. do 5 (split; [done|]).
  rewrite <-D1. destruct F2 as [-> _]. done.
Qed.

(** [bwrite] is synchronous and touches one block: after the holder of a
    buffer stores [d] in it and calls [bwrite], the disk holds [d] in that
    block and its old contents everywhere else, the write is the only one
    made, and the block is no longer pinned. *)
Theorem bwrite_one_block s H V P i bn d :
  brep s H V P → H !! i = Some bn → block_ok d →
  ∃ s', bwrite i (upd_buf i (with_b_data d) s) = Done tt s' ∧
    brep s' H (<[bn := d]> V) (P ∖ {[bn]}) ∧
    k_disk s' = <[Z.to_nat bn := d]> (k_disk s) ∧ k_dtrace s' = (bn, d) :: k_dtrace s.
Proof.
  intros Hrep HH Hd.
  destruct (bwrite_spec _ _ _ _ i bn (set_data_spec _ _ _ _ i bn d Hrep HH Hd) HH) as (s' & E & R & Hs).
  exists s'. split; [done|]. split; [done|]. rewrite fn_lookup_insert in Hs. rewrite Hs. done.
Qed.

(** [binit] builds the cache: from a machine whose buffers are all unused it
    links the [NBUF] buffers into the list, initialises their locks and the
    cache's, and leaves a cache that represents the disk as it is. *)
Theorem binit_represents s p pr :
  kok s → unlocked LPtable s → running s p pr → p_state pr = RUNNING →
  bufs_unused (k_bufs s) → Forall block_ok (k_disk s) →
  ∃ s', binit s = Done tt s' ∧ brep s' ∅ (disk_view (k_disk s)) ∅ ∧ k_disk s' = k_disk s.
Proof.
  intros Hok Hpt Hrun Hst Hun Hd.
  destruct (binit_spec s p pr Hok Hpt Hrun Hst Hun Hd) as (s' & E & R & Hs).
  exists s'. split; [done|]. split; [done|]. rewrite Hs. done.
Qed.

(** ** A booted machine with a disk of 64 zeroed blocks *)

Definition zero_block : list Z := replicate 512 0.

Definition demo_boot : kernel :=
  with_k_disk (replicate 64 zero_block)
    (with_k_bufs (replicate (S NBUF) (mkBuf 0 0 0 0 0 0 zero_block)) demo_run).

Lemma zero_block_ok : block_ok zero_block.
Proof. split; [done|]. apply Forall_replicate. unfold is_u8. lia. Qed.

Lemma demo_unused : bufs_unused (k_bufs demo_boot).
Proof.
  split; [done|]. intros i b Hi Hb. apply lookup_replicate in Hb as [-> _].
  repeat (split; [done|]). apply zero_block_ok.
Qed.

Lemma demo_disk : Forall block_ok (k_disk demo_boot).
Proof. apply Forall_replicate, zero_block_ok. Qed.

Definition demo_fs : kernel :=
  match binit demo_boot with Done _ s => s | _ => demo_boot end.

Lemma demo_fs_brep : brep demo_fs ∅ (disk_view (k_disk demo_boot)) ∅.
Proof.
  destruct (binit_spec demo_boot 0 demo_proc) as (s' & E & R & _).
  - exact demo_run_kok.
  - reflexivity.
  - exact demo_run_running.
  - reflexivity.
  - exact demo_unused.
  - exact demo_disk.
  - unfold demo_fs. by rewrite E.
Qed.

Lemma demo_fs_disk : k_disk demo_fs = k_disk demo_boot.
Proof.
  destruct (binit_spec demo_boot 0 demo_proc) as (s' & E & _ & Hs).
  - exact demo_run_kok.
  - reflexivity.
  - exact demo_run_running.
  - reflexivity.
  - exact demo_unused.
  - exact demo_disk.
  - unfold demo_fs. rewrite E, Hs. done.
Qed.

#[global] Opaque demo_fs.

Lemma bread_brelse_transparent_witness :
  ∃ i s1 s2, bread 1 5 demo_fs = Done i s1 ∧
    b_data <$> k_bufs s1 !! i = Some (disk_view (k_disk demo_boot) 5) ∧
    brep s1 (<[i := 5]> ∅) (disk_view (k_disk demo_boot)) ∅ ∧
    brelse i s1 = Done tt s2 ∧ brep s2 ∅ (disk_view (k_disk demo_boot)) ∅ ∧
    k_disk s2 = k_disk demo_fs.
Proof.
  apply (bread_brelse_transparent demo_fs ∅ (disk_view (k_disk demo_boot)) ∅ 5).
  - exact demo_fs_brep.
  - rewrite demo_fs_disk. simpl. lia.
  - intros i. by rewrite lookup_empty.
  - right. rewrite map_size_empty, size_empty. unfold NBUF. lia.
Defined.

Lemma binit_represents_witness :
  ∃ s', binit demo_boot = Done tt s' ∧ brep s' ∅ (disk_view (k_disk demo_boot)) ∅ ∧
    k_disk s' = k_disk demo_boot.
Proof.
  apply (binit_represents demo_boot 0 demo_proc).
  - exact demo_run_kok.
  - reflexivity.
  - exact demo_run_running.
  - reflexivity.
  - exact demo_unused.
  - exact demo_disk.
Defined.

Lemma bwrite_one_block_witness :
  ∃ s i s', bwrite i (upd_buf i (with_b_data zero_block) s) = Done tt s' ∧
    k_disk s' = <[5%nat := zero_block]> (k_disk s).
Proof.
  destruct (bread_spec demo_fs ∅ (disk_view (k_disk demo_boot)) ∅ 5) as (i & s1 & _ & _ & R1 & _).
  - exact demo_fs_brep.
  - rewrite demo_fs_disk. simpl. lia.
  - intros i. by rewrite lookup_empty.
  - right. rewrite map_size_empty, size_empty. unfold NBUF. lia.
  - destruct (bwrite_one_block s1 _ _ _ i 5 zero_block R1) as (s' & E & _ & D & _).
    + apply lookup_insert_eq.
    + exact zero_block_ok.
    + exists s1, i, s'. split; [exact E|exact D].
Defined.
