(* ===== verification/Ide.v ===== *)
(** The disk driver: ide.c.

    The driver's state is the kernel's plus [idequeue], the [qnext] field of
    each buffer, [havedisk1], and its conversation with the controller: the
    values [inb(0x1f7)] and [insl] will give, and what has been sent with
    [outb] and [outsl].  The controller is a register file that replays what
    was sent to it, as the ATA interface describes it.

    The theorems say that a request is appended to the queue and put to the
    controller when it is the first; that an interrupt completes exactly the
    first request and starts the next one; and that a queue served by
    interrupts leaves the buffers and the disk as the memory disk (memide.c) would
    when called on the same buffers in the same order. *)

From S2P Require Import Prelude State Spinlock Sched Bio.
Import KLock.

Definition SECTOR_SIZE : Z := 512.
Definition IDE_BSY : Z := 0x80.
Definition IDE_DRDY : Z := 0x40.
Definition IDE_DF : Z := 0x20.
Definition IDE_ERR : Z := 0x01.
Definition IDE_CMD_READ : Z := 0x20.
Definition IDE_CMD_WRITE : Z := 0x30.
Definition IDE_CMD_RDMUL : Z := 0xc4.
Definition IDE_CMD_WRMUL : Z := 0xc5.
Definition IRQ_IDE : Z := 14.

(** What the driver sends: bytes to ports, the words of a buffer, and the
    interrupt it asks for. *)
Inductive io :=
| Outb (port data : Z)
| Outsl (port : Z) (data : list Z)
| Ioapicenable (irq cpu : Z).

Record idek := mkIdek {
  ik : kernel;
  i_queue : option nat;
  i_qnext : list (option nat);
  i_have1 : bool;
  i_status : list Z;
  i_in : list (list Z);
  i_out : list io;
}.
Definition with_ik (v : kernel) (r : idek) : idek :=
  mkIdek v (i_queue r) (i_qnext r) (i_have1 r) (i_status r) (i_in r) (i_out r).
Definition with_i_queue (v : option nat) (r : idek) : idek :=
  mkIdek (ik r) v (i_qnext r) (i_have1 r) (i_status r) (i_in r) (i_out r).
Definition with_i_qnext (v : list (option nat)) (r : idek) : idek :=
  mkIdek (ik r) (i_queue r) v (i_have1 r) (i_status r) (i_in r) (i_out r).
Definition with_i_have1 (v : bool) (r : idek) : idek :=
  mkIdek (ik r) (i_queue r) (i_qnext r) v (i_status r) (i_in r) (i_out r).
Definition with_i_status (v : list Z) (r : idek) : idek :=
  mkIdek (ik r) (i_queue r) (i_qnext r) (i_have1 r) v (i_in r) (i_out r).
Definition with_i_in (v : list (list Z)) (r : idek) : idek :=
  mkIdek (ik r) (i_queue r) (i_qnext r) (i_have1 r) (i_status r) v (i_out r).
Definition with_i_out (v : list io) (r : idek) : idek :=
  mkIdek (ik r) (i_queue r) (i_qnext r) (i_have1 r) (i_status r) (i_in r) v.

Abbreviation I := (prog idek).

(** A call of the rest of the kernel. *)
Definition kern {A} (m : K A) : I A := zoom ik with_ik m.

Definition send (x : io) : I unit := modify (λ s, with_i_out (i_out s ++ [x]) s).
Definition outb (port data : Z) : I unit := send (Outb port (u8 data)).

(** [insl(0x1f0, ...)]: the words the controller has ready. *)
Definition insl : I (list Z) :=
  s <- get ;;
  match i_in s with
  | [] => diverge
  | d :: rest => modify (with_i_in rest) ;;; ret d
  end.

(** [inb(0x1f7)]. *)
Definition inb_status : I Z :=
  s <- get ;;
  match i_status s with
  | [] => diverge
  | r :: rest => modify (with_i_status rest) ;;; ret r
  end.

(** The value that ends the loop of [idewait], and those that follow. *)
Fixpoint await_ready (l : list Z) : option (Z * list Z) :=
  match l with
  | [] => None
  | r :: rest => if Z.land r (Z.lor IDE_BSY IDE_DRDY) =? IDE_DRDY then Some (r, rest) else await_ready rest
  end.

Definition idewait (checkerr : bool) : I Z :=
  s <- get ;;
  match await_ready (i_status s) with
  | None => diverge
  | Some (r, rest) =>
      modify (with_i_status rest) ;;;
      ret (if checkerr && negb (Z.land r (Z.lor IDE_DF IDE_ERR) =? 0) then -1 else 0)
  end.

(** The loop of [ideinit] that looks for disk 1. *)
Fixpoint probe (n : nat) : I unit :=
  match n with
  | O => ret tt
  | S n' => r <- inb_status ;; if negb (r =? 0) then modify (with_i_have1 true) else probe n'
  end.

Definition ideinit (ncpu : Z) : I unit :=
  kern (initlock LIde "ide") ;;;
  send (Ioapicenable IRQ_IDE (ncpu - 1)) ;;;
  idewait false ;;;
  outb 0x1f6 (Z.lor 0xe0 (Z.shiftl 1 4)) ;;;
  probe 1000 ;;;
  outb 0x1f6 (Z.lor 0xe0 (Z.shiftl 0 4)).

Definition idestart (b : option nat) : I unit :=
  match b with
  | None => panic "idestart"
  | Some i =>
      bf <- kern (buf_at i) ;;
      if FSSIZE <=? b_blockno bf then panic "incorrect blockno" else
      let sector_per_block := BSIZE / SECTOR_SIZE in
      let sector := s32 (b_blockno bf * sector_per_block) in
      let read_cmd := if sector_per_block =? 1 then IDE_CMD_READ else IDE_CMD_RDMUL in
      let write_cmd := if sector_per_block =? 1 then IDE_CMD_WRITE else IDE_CMD_WRMUL in
      if 7 <? sector_per_block then panic "idestart" else
      idewait false ;;;
      outb 0x3f6 0 ;;;
      outb 0x1f2 sector_per_block ;;;
      outb 0x1f3 (Z.land sector 0xff) ;;;
      outb 0x1f4 (Z.land (Z.shiftr sector 8) 0xff) ;;;
      outb 0x1f5 (Z.land (Z.shiftr sector 16) 0xff) ;;;
      outb 0x1f6 (Z.lor (Z.lor 0xe0 (Z.shiftl (Z.land (b_dev bf) 1) 4)) (Z.land (Z.shiftr sector 24) 0x0f)) ;;;
      if dirty bf then outb 0x1f7 write_cmd ;;; send (Outsl 0x1f0 (b_data bf))
      else outb 0x1f7 read_cmd
  end.

(** [b->qnext = v]. *)
Definition set_qnext (i : nat) (v : option nat) : I unit :=
  s <- get ;; _ <- deref (i_qnext s !! i) ;; modify (λ s, with_i_qnext (<[i := v]> (i_qnext s)) s).

(** The transfer of a read: the words of the controller go to the buffer. *)
Definition transfer (b : nat) (bf : buf) : I unit :=
  if negb (dirty bf) then
    r <- idewait true ;;
    if 0 <=? r then d <- insl ;; kern (set_buf b (with_b_data d)) else ret tt
  else ret tt.

Definition ideintr : I unit :=
  kern (acquire LIde) ;;;
  q <- gets i_queue ;;
  match q with
  | None => kern (release LIde)
  | Some b =>
      s <- get ;;
      next <- deref (i_qnext s !! b) ;;
      modify (with_i_queue next) ;;;
      bf <- kern (buf_at b) ;;
      transfer b bf ;;;
      kern (set_buf b (λ bf, with_b_flags (Z.lor (b_flags bf) B_VALID) bf)) ;;;
      kern (set_buf b (λ bf, with_b_flags (Z.ldiff (b_flags bf) B_DIRTY) bf)) ;;;
      kern (wakeup (ChBuf b)) ;;;
      q <- gets i_queue ;;
      (match q with
       | Some _ => idestart q
       | None => ret tt
       end) ;;;
      kern (release LIde)
  end.

(** The loop that looks for the end of the queue and puts [b] there, from the
    buffer [x] that [pp] leads to. *)
Fixpoint append_from (fuel : nat) (x b : nat) : I unit :=
  match fuel with
  | O => diverge
  | S fuel' =>
      s <- get ;;
      next <- deref (i_qnext s !! x) ;;
      match next with
      | Some y => append_from fuel' y b
      | None => set_qnext x (Some b)
      end
  end.

Definition append_queue (b : nat) : I unit :=
  s <- get ;;
  match i_queue s with
  | None => modify (with_i_queue (Some b))
  | Some x => append_from (length (i_qnext s)) x b
  end.

(** [(b->flags & (B_VALID|B_DIRTY)) != B_VALID]. *)
Definition unfinished (b : nat) : K bool :=
  bf <- buf_at b ;; ret (negb (Z.land (b_flags bf) (Z.lor B_VALID B_DIRTY) =? B_VALID)).

(** Append [b] to [idequeue] and start the disk if necessary. *)
Definition enqueue (b : nat) : I unit :=
  set_qnext b None ;;;
  append_queue b ;;;
  q <- gets i_queue ;;
  if bool_decide (q = Some b) then idestart (Some b) else ret tt.

Definition iderw (b : nat) : I unit :=
  h <- kern (holdingsleep (SLBuf b)) ;;
  if negb h then panic "iderw: buf not locked" else
  bf <- kern (buf_at b) ;;
  if Z.land (b_flags bf) (Z.lor B_VALID B_DIRTY) =? B_VALID then panic "iderw: nothing to do" else
  s <- get ;;
  if negb (b_dev bf =? 0) && negb (i_have1 s) then panic "iderw: ide disk 1 not present" else
  kern (acquire LIde) ;;;
  enqueue b ;;;
  kern (wait_while (unfinished b) (ChBuf b) LIde) ;;;
  kern (release LIde).

(** * The controller *)

(** Its registers, and the words sent for a write. *)
Record ata := mkAta {
  a_lo : Z;
  a_mid : Z;
  a_hi : Z;
  a_dev : Z;
  a_cmd : Z;
  a_data : list Z;
}.

Definition ata_step (a : ata) (x : io) : ata :=
  match x with
  | Outb port v =>
      if port =? 0x1f3 then mkAta v (a_mid a) (a_hi a) (a_dev a) (a_cmd a) (a_data a)
      else if port =? 0x1f4 then mkAta (a_lo a) v (a_hi a) (a_dev a) (a_cmd a) (a_data a)
      else if port =? 0x1f5 then mkAta (a_lo a) (a_mid a) v (a_dev a) (a_cmd a) (a_data a)
      else if port =? 0x1f6 then mkAta (a_lo a) (a_mid a) (a_hi a) v (a_cmd a) (a_data a)
      else if port =? 0x1f7 then mkAta (a_lo a) (a_mid a) (a_hi a) (a_dev a) v []
      else a
  | Outsl _ d => mkAta (a_lo a) (a_mid a) (a_hi a) (a_dev a) (a_cmd a) d
  | Ioapicenable _ _ => a
  end.

Definition ata0 : ata := mkAta 0 0 0 0 0 [].
Definition ata_of (l : list io) : ata := foldl ata_step ata0 l.

(** The drive and the sector that the registers name. *)
Definition a_drive (a : ata) : Z := Z.land (Z.shiftr (a_dev a) 4) 1.
Definition a_lba (a : ata) : Z := a_lo a + 256 * a_mid a + 65536 * a_hi a + 16777216 * Z.land (a_dev a) 15.

(** The sectors of the two drives. *)
Abbreviation disks := (Z * Z → list Z).

(** The controller ends its command: the disks after it, and the words it has
    ready. *)
Definition ata_run (a : ata) (disk : disks) : disks * list (list Z) :=
  let key := (a_drive a, a_lba a) in
  if a_cmd a =? IDE_CMD_WRITE then (<[key := a_data a]> disk, []) else (disk, [disk key]).

(** The interrupt that follows, in which [inb] gives the values [sts]. *)
Definition interrupt (sts : list Z) (disk : disks) (s : idek) : idek * disks :=
  let '(disk', data) := ata_run (ata_of (i_out s)) disk in (with_i_status sts (with_i_in data s), disk').

(** * What a request does *)

(** A buffer and the disks after its request. *)
Definition served (bf : buf) (disk : disks) : buf :=
  with_b_flags (Z.ldiff (Z.lor (b_flags bf) B_VALID) B_DIRTY)
    (if dirty bf then bf else with_b_data (disk (Z.land (b_dev bf) 1, b_blockno bf)) bf).

Definition stored (bf : buf) (disk : disks) : disks :=
  if dirty bf then <[(Z.land (b_dev bf) 1, b_blockno bf) := b_data bf]> disk else disk.

(** The controller has been told to do the request of a buffer. *)
Record carries (a : ata) (bf : buf) : Prop := mkCarries {
  ca_drive : a_drive a = Z.land (b_dev bf) 1;
  ca_lba : a_lba a = b_blockno bf;
  ca_cmd : a_cmd a = if dirty bf then IDE_CMD_WRITE else IDE_CMD_READ;
  ca_data : dirty bf = true → a_data a = b_data bf;
}.

Lemma ata_run_carries a bf disk : carries a bf →
  ata_run a disk = (stored bf disk, if dirty bf then [] else [disk (Z.land (b_dev bf) 1, b_blockno bf)]).
Proof.
  intros [H1 H2 H3 H4]. unfold ata_run, stored. rewrite H1, H2, H3. destruct (dirty bf); [by rewrite H4|done].
Qed.

(** The registers that [idestart] writes. *)
Lemma start_carries out bf : 0 ≤ b_blockno bf < FSSIZE → 0 ≤ b_dev bf →
  let cmds := [Outb 0x3f6 (u8 0); Outb 0x1f2 (u8 1); Outb 0x1f3 (u8 (Z.land (b_blockno bf) 0xff));
    Outb 0x1f4 (u8 (Z.land (Z.shiftr (b_blockno bf) 8) 0xff)); Outb 0x1f5 (u8 (Z.land (Z.shiftr (b_blockno bf) 16) 0xff));
    Outb 0x1f6 (u8 (Z.lor (Z.lor 0xe0 (Z.shiftl (Z.land (b_dev bf) 1) 4)) (Z.land (Z.shiftr (b_blockno bf) 24) 0x0f)))] in
  carries (ata_of (out ++ cmds ++
    if dirty bf then [Outb 0x1f7 (u8 IDE_CMD_WRITE); Outsl 0x1f0 (b_data bf)] else [Outb 0x1f7 (u8 IDE_CMD_READ)])) bf.
Proof.
  intros Hb Hd cmds. unfold FSSIZE in Hb. unfold ata_of. rewrite !foldl_app. unfold cmds. clear cmds.
  generalize (foldl ata_step ata0 out). intros a. cbn [foldl ata_step Z.eqb Pos.eqb].
  set (lo := Z.land (b_blockno bf) 0xff). set (mid := Z.land (Z.shiftr (b_blockno bf) 8) 0xff).
  assert (Hlo : lo = b_blockno bf mod 256) by (unfold lo; by rewrite (Z.land_ones _ 8) by lia).
  assert (Hmid : mid = b_blockno bf / 256 mod 256).
  { unfold mid. by rewrite (Z.land_ones _ 8), Z.shiftr_div_pow2 by lia. }
  assert (E16 : Z.shiftr (b_blockno bf) 16 = 0) by (rewrite Z.shiftr_div_pow2 by lia; apply Z.div_small; lia).
  assert (E24 : Z.shiftr (b_blockno bf) 24 = 0) by (rewrite Z.shiftr_div_pow2 by lia; apply Z.div_small; lia).
  rewrite E16, E24. rewrite !Z.land_0_l, Z.lor_0_r.
  assert (H1 : Z.land (b_dev bf) 1 = 0 ∨ Z.land (b_dev bf) 1 = 1) by (rewrite (Z.land_ones _ 1) by lia; change (2 ^ 1) with 2; zdiv).
  assert (Elo : u8 lo = lo) by (apply u8_small; rewrite Hlo; apply Z.mod_pos_bound; lia).
  assert (Emid : u8 mid = mid) by (apply u8_small; rewrite Hmid; apply Z.mod_pos_bound; lia).
  destruct (dirty bf) eqn:ED; cbn [foldl ata_step Z.eqb Pos.eqb]; constructor; try done; rewrite ?ED;
    unfold a_drive, a_lba; cbn [a_lo a_mid a_hi a_dev a_cmd a_data]; rewrite ?Elo, ?Emid, ?Hlo, ?Hmid;
    destruct H1 as [E1|E1]; rewrite ?E1; try done; change (Z.land _ 15) with 0;
    change (u8 0) with 0; zdiv.
Qed.

(** * The operations *)

Lemma kern_done {A} (m : K A) s a k : m (ik s) = Done a k → kern m s = Done a (with_ik k s).
Proof. apply zoom_done. Qed.

Lemma with_ik_id s : with_ik (ik s) s = s.
Proof. by destruct s. Qed.

Lemma kern_buf_at s i bf : k_bufs (ik s) !! i = Some bf → kern (buf_at i) s = Done bf s.
Proof. intros H. rewrite (kern_done _ s bf (ik s)) by (by apply buf_at_ok). by rewrite with_ik_id. Qed.

(** The state after a request is put to the controller. *)
Definition started (bf : buf) (rest : list Z) (s s' : idek) : Prop :=
  ∃ out, s' = with_i_status rest (with_i_out out s) ∧ carries (ata_of out) bf.

(** The state after the values [l] are sent. *)
Definition sent (l : list io) (s : idek) : idek := with_i_out (i_out s ++ l) s.

Lemma sent_nil s : sent [] s = s.
Proof. unfold sent. rewrite app_nil_r. by destruct s. Qed.

Lemma send_sent x l s : send x (sent l s) = Done tt (sent (l ++ [x]) s).
Proof. unfold send, modify, sent, with_i_out. cbn [ik i_queue i_qnext i_have1 i_status i_in i_out]. by rewrite app_assoc. Qed.

Lemma idewait_run s check r rest : await_ready (i_status s) = Some (r, rest) →
  idewait check s = Done (if check && negb (Z.land r (Z.lor IDE_DF IDE_ERR) =? 0) then -1 else 0) (with_i_status rest s).
Proof. intros H. unfold idewait, bind, get. cbn [obind]. by rewrite H. Qed.

Lemma idestart_run s b bf r rest :
  k_bufs (ik s) !! b = Some bf → 0 ≤ b_blockno bf < FSSIZE → 0 ≤ b_dev bf → await_ready (i_status s) = Some (r, rest) →
  ∃ s', idestart (Some b) s = Done tt s' ∧ started bf rest s s'.
Proof.
  intros Hb Hn Hd Hr. unfold idestart. erewrite bind_done by (by apply kern_buf_at). rewrite (proj2 (Z.leb_gt _ _)) by lia.
  change (BSIZE / SECTOR_SIZE) with 1. cbv zeta. rewrite Z.mul_1_r, s32_small by (unfold FSSIZE in *; lia).
  change (1 =? 1) with true. change (7 <? 1) with false. cbn iota.
  erewrite bind_done by (by apply idewait_run). rewrite <-(sent_nil (with_i_status rest s)).
  pose proof (start_carries (i_out s) bf Hn Hd) as C. unfold outb. do 6 (erewrite bind_done by apply send_sent).
  destruct (dirty bf).
  - erewrite bind_done by apply send_sent. rewrite send_sent. eexists. split; [reflexivity|]. eexists. split; [reflexivity|exact C].
  - rewrite send_sent. eexists. split; [reflexivity|]. eexists. split; [reflexivity|exact C].
Qed.

(** The buffers of the queue that starts at [h]. *)
Fixpoint linked (qn : list (option nat)) (h : option nat) (q : list nat) : Prop :=
  match q with
  | [] => h = None
  | b :: q' => h = Some b ∧ ∃ n, qn !! b = Some n ∧ linked qn n q'
  end.

Lemma linked_insert qn h q b v : linked qn h q → b ∉ q → linked (<[b := v]> qn) h q.
Proof.
  revert h. induction q as [|x q IH]; intros h; [done|]. intros (-> & n & Hn & Hl) Hb.
  apply not_elem_of_cons in Hb as [Hne Hb]. split; [done|]. exists n. rewrite list_lookup_insert_ne by done.
  split; [done|by apply IH].
Qed.

Lemma linked_lookup qn h q b : linked qn h q → b ∈ q → ∃ n, qn !! b = Some n.
Proof.
  revert h. induction q as [|x q IH]; intros h Hl Hb; [by apply elem_of_nil in Hb|]. destruct Hl as (-> & n & Hn & Hl).
  apply elem_of_cons in Hb as [->|Hb]; eauto.
Qed.

(** Appending at the end of the list. *)
Lemma append_from_run q : ∀ s fuel x b,
  linked (i_qnext s) (Some x) (x :: q) → NoDup (x :: q) → b ∉ x :: q → i_qnext s !! b = Some None →
  (length q < fuel)%nat →
  ∃ qn, append_from fuel x b s = Done tt (with_i_qnext qn s) ∧ linked qn (Some x) ((x :: q) ++ [b]) ∧
    length qn = length (i_qnext s) ∧ ∀ z, z ∉ x :: q → qn !! z = i_qnext s !! z.
Proof.
  induction q as [|y q IH]; intros s fuel x b Hl Hnd Hb Hn Hf; (destruct fuel as [|fuel]; [simpl in Hf; lia|]).
  - destruct Hl as (_ & n & Hx & ->). cbn [append_from]. unfold bind at 1, get. cbn [obind]. rewrite Hx.
    exists (<[x := Some b]> (i_qnext s)). split; [|split; [|split]].
    + cbn [deref]. unfold bind at 1, ret. cbn [obind]. unfold set_qnext, bind, get. cbn [obind]. by rewrite Hx.
    + pose proof (lookup_lt_Some _ _ _ Hx). assert (b ≠ x) by (intros ->; apply Hb; left).
      split; [done|]. exists (Some b). rewrite list_lookup_insert_eq by done. split; [done|]. split; [done|].
      exists None. by rewrite list_lookup_insert_ne.
    + apply length_insert.
    + intros z Hz. rewrite list_lookup_insert_ne; [done|]. intros ->. apply Hz. left.
  - destruct Hl as (_ & n & Hx & Hl). pose proof Hl as (-> & _). apply NoDup_cons in Hnd as [Hnx Hnd].
    apply not_elem_of_cons in Hb as [Hbx Hb]. cbn [length] in Hf.
    destruct (IH s fuel y b Hl Hnd Hb Hn ltac:(lia)) as (qn & E & Hq & Hlen & Hz).
    cbn [append_from]. unfold bind at 1, get. cbn [obind]. rewrite Hx. cbn [deref]. unfold bind at 1, ret. cbn [obind].
    exists qn. split; [exact E|]. split; [|split; [done|]].
    + split; [done|]. exists (Some y). split; [|exact Hq]. by rewrite Hz.
    + intros z Hz'. apply Hz. intros H. apply Hz'. by right.
Qed.

(** The queue holds the buffers [q], the first of which is the controller's. *)
Record irep (s : idek) (q : list nat) : Prop := mkIrep {
  ir_linked : linked (i_qnext s) (i_queue s) q;
  ir_nodup : NoDup q;
  ir_buf : ∀ b, b ∈ q → ∃ bf, k_bufs (ik s) !! b = Some bf ∧ 0 ≤ b_blockno bf < FSSIZE ∧ 0 ≤ b_dev bf ∧
    (b_flags bf = 0 ∨ b_flags bf = Z.lor B_VALID B_DIRTY);
  ir_active : ∀ b q', q = b :: q' → ∃ bf, k_bufs (ik s) !! b = Some bf ∧ carries (ata_of (i_out s)) bf;
}.
Arguments ir_linked {_ _} _.
Arguments ir_nodup {_ _} _.
Arguments ir_buf {_ _} _.
Arguments ir_active {_ _} _.

(** The values of the status register: ready without an error, and ready again. *)
Definition settles (sts : list Z) : Prop :=
  ∃ r1 rest1 r2 rest2, await_ready sts = Some (r1, rest1) ∧ Z.land r1 (Z.lor IDE_DF IDE_ERR) = 0 ∧
    await_ready rest1 = Some (r2, rest2).

(** The kernel after a request of buffer [b] is completed. *)
Definition completed (b : nat) (bf : buf) (k : kernel) : kernel :=
  with_k_ptable (wake (ChBuf b) <$> k_ptable k) (with_k_bufs (<[b := bf]> (k_bufs k)) k).

Lemma linked_bound qn h q : linked qn h q → ∀ b, b ∈ q → (b < length qn)%nat.
Proof. intros Hl b Hb. destruct (linked_lookup _ _ _ _ Hl Hb) as [n Hn]. by apply lookup_lt_Some in Hn. Qed.

(** A list without duplicates below a bound is not longer than it. *)
Lemma linked_length qn h q : linked qn h q → NoDup q → (length q ≤ length qn)%nat.
Proof.
  intros Hl Hnd. rewrite <-(length_seq (length qn) 0). apply submseteq_length, NoDup_submseteq; [done|].
  intros b Hb. apply elem_of_seq. pose proof (linked_bound _ _ _ Hl b Hb). lia.
Qed.

Lemma append_queue_run s q b :
  linked (i_qnext s) (i_queue s) q → NoDup q → b ∉ q → i_qnext s !! b = Some None →
  ∃ s', append_queue b s = Done tt s' ∧ linked (i_qnext s') (i_queue s') (q ++ [b]) ∧
    ∃ h qn, s' = with_i_queue h (with_i_qnext qn s).
Proof.
  intros Hl Hnd Hb Hn. unfold append_queue, bind, get. cbn [obind]. destruct q as [|x q].
  - cbn in Hl. rewrite Hl. exists (with_i_queue (Some b) s). split; [done|]. split.
    + split; [done|]. by exists None.
    + exists (Some b), (i_qnext s). by destruct s.
  - pose proof Hl as (Hq & _). rewrite Hq. rewrite Hq in Hl. pose proof (linked_length _ _ _ Hl Hnd) as Hlen. cbn [length] in Hlen.
    destruct (append_from_run q s (length (i_qnext s)) x b Hl Hnd Hb Hn ltac:(lia)) as (qn & E & Hl' & _).
    exists (with_i_qnext qn s). split; [done|].
    split; [cbn [with_i_qnext i_qnext i_queue]; by rewrite Hq|]. exists (i_queue s), qn. by destruct s.
Qed.

Lemma set_qnext_run s b v : (b < length (i_qnext s))%nat → set_qnext b v s = Done tt (with_i_qnext (<[b := v]> (i_qnext s)) s).
Proof.
  intros Hb. unfold set_qnext, bind, get. cbn [obind]. destruct (lookup_lt_is_Some_2 _ _ Hb) as [n ->]. done.
Qed.

Lemma upd_buf_insert b f bf k : k_bufs k !! b = Some bf → upd_buf b f k = with_k_bufs (<[b := f bf]> (k_bufs k)) k.
Proof.
  intros H. unfold upd_buf. f_equal. apply list_eq. intros j. rewrite list_lookup_alter. case_decide as E.
  - subst. rewrite H, list_lookup_insert_eq; [done|by eapply lookup_lt_Some].
  - by rewrite list_lookup_insert_ne.
Qed.

Lemma kern_set_buf s b f bf : k_bufs (ik s) !! b = Some bf →
  kern (set_buf b f) s = Done tt (with_ik (with_k_bufs (<[b := f bf]> (k_bufs (ik s))) (ik s)) s).
Proof.
  intros H. apply kern_done. unfold set_buf, modify. by rewrite (upd_buf_insert _ _ bf).
Qed.

Lemma transfer_run s b bf disk sts : k_bufs (ik s) !! b = Some bf → i_status s = sts → settles sts →
  i_in s = (if dirty bf then [] else [disk (Z.land (b_dev bf) 1, b_blockno bf)]) →
  let bf1 := if dirty bf then bf else with_b_data (disk (Z.land (b_dev bf) 1, b_blockno bf)) bf in
  ∃ sts' ins r rest, transfer b bf s =
      Done tt (with_ik (with_k_bufs (<[b := bf1]> (k_bufs (ik s))) (ik s)) (with_i_status sts' (with_i_in ins s))) ∧
    await_ready sts' = Some (r, rest).
Proof.
  intros Hb Hs (r1 & rest1 & r2 & rest2 & H1 & H2 & H3) Hin bf1. unfold transfer, bf1. clear bf1. destruct (dirty bf); cbn [negb].
  - exists sts, (i_in s), r1, rest1. split; [|done]. rewrite list_insert_id by done. unfold ret. f_equal. subst sts.
    destruct s as [k ? ? ? ? ? ?]. by destruct k.
  - rewrite <-Hs in H1. erewrite bind_done by (by apply idewait_run). rewrite H2. cbn [Z.eqb negb andb]. change (0 <=? 0) with true. cbn iota.
    unfold bind at 1, insl, bind at 1, get. cbn [obind i_in with_i_status]. rewrite Hin. unfold bind, modify, ret. cbn [obind].
    exists rest1, [], r2, rest2. split; [|done]. by rewrite (kern_set_buf _ b _ bf).
Qed.

(** The end of [ideintr]: the next request is put to the controller. *)
Lemma start_next s q k r rest :
  linked (i_qnext s) (i_queue s) q → (∀ b, b ∈ q → ∃ bf, k_bufs (ik s) !! b = Some bf ∧ 0 ≤ b_blockno bf < FSSIZE ∧
    0 ≤ b_dev bf ∧ (b_flags bf = 0 ∨ b_flags bf = Z.lor B_VALID B_DIRTY)) →
  await_ready (i_status s) = Some (r, rest) → release LIde (ik s) = Done tt k →
  ∃ sts out, (q <- gets i_queue ;; (match q with Some _ => idestart q | None => ret tt end) ;;; kern (release LIde)) s =
      Done tt (with_ik k (with_i_status sts (with_i_out out s))) ∧
    ∀ b q', q = b :: q' → ∃ bf, k_bufs (ik s) !! b = Some bf ∧ carries (ata_of out) bf.
Proof.
  intros Hl Hb Hr Hk. unfold bind at 1, gets. cbn [obind]. destruct q as [|b q].
  - cbn in Hl. rewrite Hl. erewrite bind_done by reflexivity. rewrite (kern_done _ _ _ _ Hk).
    exists (i_status s), (i_out s). split; [by destruct s|done].
  - destruct Hl as (-> & _). destruct (Hb b ltac:(left)) as (bf & E & Hn & Hd & _).
    destruct (idestart_run s b bf r rest E Hn Hd Hr) as (s' & Es & out & -> & C). erewrite bind_done by exact Es.
    rewrite (kern_done _ _ _ k) by exact Hk. exists rest, out. split; [done|]. intros b' q' [= <- <-]. eauto.
Qed.

Lemma interrupt_run sts disk s b q bf : irep s (b :: q) → k_bufs (ik s) !! b = Some bf →
  interrupt sts disk s = (with_i_status sts (with_i_in
    (if dirty bf then [] else [disk (Z.land (b_dev bf) 1, b_blockno bf)]) s), stored bf disk).
Proof.
  intros R Hb. destruct (ir_active R b q eq_refl) as (bf' & E & C). rewrite Hb in E. injection E as <-.
  unfold interrupt. by rewrite (ata_run_carries _ bf disk C).
Qed.

(** An interrupt completes the first request of the queue. *)
Lemma ideintr_run s b q bf disk sts :
  kok (ik s) → unlocked LIde (ik s) → unlocked LPtable (ik s) → irep s (b :: q) → k_bufs (ik s) !! b = Some bf → settles sts →
  ∃ s', ideintr (fst (interrupt sts disk s)) = Done tt s' ∧ ik s' = completed b (served bf disk) (ik s) ∧ irep s' q ∧
    i_qnext s' = i_qnext s ∧ i_have1 s' = i_have1 s.
Proof.
  intros Hok Hu Hp R Hb Hst. rewrite (interrupt_run sts disk s b q bf R Hb). cbn [fst].
  set (s0 := with_i_status sts _). destruct (ir_linked R) as (Hq & n & Hn & Hl). set (k := ik s) in *.
  assert (Hnb : b ∉ q) by (pose proof (ir_nodup R) as Hnd; by apply NoDup_cons in Hnd as [? _]).
  unfold ideintr. erewrite bind_done by (apply kern_done, kacquire_ok; done).
  set (s1 := with_ik (enter LIde k) s0). rewrite (bind_done (gets i_queue) _ s1 (Some b) s1) by (unfold gets; f_equal; exact Hq).
  erewrite (bind_done get) by reflexivity.
  rewrite (bind_done (deref _) _ s1 n s1) by (change (i_qnext s1) with (i_qnext s); by rewrite Hn).
  erewrite bind_done by reflexivity. set (s2 := with_i_queue n s1).
  assert (Hb2 : k_bufs (ik s2) !! b = Some bf) by exact Hb. erewrite bind_done by (by apply kern_buf_at).
  destruct (transfer_run s2 b bf disk sts Hb2 eq_refl Hst eq_refl) as (sts' & ins & r & rest & Et & Hr).
  erewrite bind_done by exact Et. set (bf1 := if dirty bf then bf else _) in *. set (s3 := with_ik _ _).
  pose proof (lookup_lt_Some _ _ _ Hb) as Hlt.
  assert (Hb3 : k_bufs (ik s3) !! b = Some bf1) by (apply list_lookup_insert_eq; done).
  set (bf2 := with_b_flags (Z.lor (b_flags bf1) B_VALID) bf1).
  set (s4 := with_ik (with_k_bufs (<[b := bf2]> (k_bufs (ik s3))) (ik s3)) s3).
  rewrite (bind_done _ _ s3 tt s4) 
    by exact (kern_set_buf s3 b (λ bf, with_b_flags (Z.lor (b_flags bf) B_VALID) bf) bf1 Hb3).
  assert (Hb4 : k_bufs (ik s4) !! b = Some bf2) by (apply list_lookup_insert_eq; cbn; by rewrite length_insert).
  set (bf3 := with_b_flags (Z.ldiff (b_flags bf2) B_DIRTY) bf2).
  set (s5 := with_ik (with_k_bufs (<[b := bf3]> (k_bufs (ik s4))) (ik s4)) s4).
  rewrite (bind_done _ _ s4 tt s5) 
    by exact (kern_set_buf s4 b (λ bf, with_b_flags (Z.ldiff (b_flags bf) B_DIRTY) bf) bf2 Hb4).
  assert (E5 : ik s5 = enter LIde (with_k_bufs (<[b := bf3]> (k_bufs k)) k)).
  { unfold s5, s4, s3. cbn [ik with_ik]. cbn. by rewrite !list_insert_insert_eq. }
  assert (Ebf : bf3 = served bf disk) by (unfold bf3, bf2, bf1, served; by destruct (dirty bf)).
  set (k' := completed b (served bf disk) k).
  assert (Ew : wakeup (ChBuf b) (ik s5) = Done tt (enter LIde k')).
  { rewrite E5, Ebf. rewrite wakeup_ok by eauto with kernel. done. }
  erewrite bind_done by (by apply kern_done). set (s6 := with_ik (enter LIde k') s5).
  assert (Hl6 : linked (i_qnext s6) (i_queue s6) q) by exact Hl.
  destruct (start_next s6 q k' r rest Hl6) as (sts2 & out & Es & Hc); [|done| |].
  - intros b' Hb'. destruct (ir_buf R b' ltac:(by right)) as (bf' & E' & ?). exists bf'. split; [|done].
    change (<[b := served bf disk]> (k_bufs k) !! b' = Some bf'). rewrite list_lookup_insert_ne; [done|congruence].
  - change (ik s6) with (enter LIde k'). rewrite krelease_ok by eauto with kernel. f_equal. by apply leave_enter.
  - eexists. split; [exact Es|]. split; [done|]. split; [|done]. constructor; [exact Hl| |intros b' Hb'|exact Hc].
    + pose proof (ir_nodup R) as Hnd. by apply NoDup_cons in Hnd as [_ ?].
    + destruct (ir_buf R b' ltac:(by right)) as (bf' & E' & ?). exists bf'. split; [|done].
      change (<[b := served bf disk]> (k_bufs k) !! b' = Some bf'). rewrite list_lookup_insert_ne; [done|congruence].
Qed.

(** * A request *)

(** A process of the kernel [k] may ask for buffer [b]. *)
Record may_ask (k : kernel) (pid : Z) (b : nat) (bf : buf) : Prop := mkMayAsk {
  ma_env : benv k pid;
  ma_ncli : Crit.ncli_of (k_hart k) = 0;
  ma_ide : unlocked LIde k;
  ma_wakes : (0 < k_wakes k)%nat;
  ma_index : (b < NBUF)%nat;
  ma_lock : ∃ x, k_slocks k !! SLBuf b = Some x ∧ sl_locked x ≠ 0 ∧ sl_pid x = pid;
  ma_buf : k_bufs k !! b = Some bf;
  ma_flags : b_flags bf = 0 ∨ b_flags bf = Z.lor B_VALID B_DIRTY;
  ma_block : 0 ≤ b_blockno bf < FSSIZE;
  ma_dev : 0 ≤ b_dev bf;
}.
Arguments ma_env {_ _ _ _} _.
Arguments ma_ncli {_ _ _ _} _.
Arguments ma_ide {_ _ _ _} _.
Arguments ma_wakes {_ _ _ _} _.
Arguments ma_index {_ _ _ _} _.
Arguments ma_lock {_ _ _ _} _.
Arguments ma_buf {_ _ _ _} _.
Arguments ma_flags {_ _ _ _} _.
Arguments ma_block {_ _ _ _} _.
Arguments ma_dev {_ _ _ _} _.

Lemma unfinished_run k b bf : k_bufs k !! b = Some bf →
  unfinished b k = Done (negb (Z.land (b_flags bf) (Z.lor B_VALID B_DIRTY) =? B_VALID)) k.
Proof. intros H. unfold unfinished. by erewrite bind_done by (by apply buf_at_ok). Qed.

Lemma pending_unfinished bf : b_flags bf = 0 ∨ b_flags bf = Z.lor B_VALID B_DIRTY →
  (Z.land (b_flags bf) (Z.lor B_VALID B_DIRTY) =? B_VALID) = false.
Proof. by intros [-> | ->]. Qed.

(** The request of [b] in the queue: what [iderw] does before it waits. *)
Lemma enqueue_run s q b bf :
  irep s q → b ∉ q → (b < length (i_qnext s))%nat → k_bufs (ik s) !! b = Some bf → 0 ≤ b_blockno bf < FSSIZE → 0 ≤ b_dev bf →
  b_flags bf = 0 ∨ b_flags bf = Z.lor B_VALID B_DIRTY → (∃ r rest, await_ready (i_status s) = Some (r, rest)) →
  ∃ s', enqueue b s = Done tt s' ∧
    irep s' (q ++ [b]) ∧ ik s' = ik s ∧ i_have1 s' = i_have1 s.
Proof.
  intros R Hb Hlt Hbf Hn Hd Hfl (r & rest & Hr). set (s1 := with_i_qnext (<[b := None]> (i_qnext s)) s).
  unfold enqueue. erewrite bind_done by (by apply set_qnext_run). fold s1.
  destruct (append_queue_run s1 q b) as (s2 & E2 & Hl2 & h & qn & Es2).
  { apply linked_insert; [apply (ir_linked R)|done]. } { apply (ir_nodup R). } { done. } { by apply list_lookup_insert_eq. }
  erewrite bind_done by exact E2. unfold bind at 1, gets. cbn [obind].
  assert (Hk : ik s2 = ik s ∧ i_have1 s2 = i_have1 s ∧ i_status s2 = i_status s ∧ i_out s2 = i_out s) by (by subst s2).
  destruct Hk as (K1 & K2 & K3 & K4).
  assert (Hbuf : ∀ b', b' ∈ q ++ [b] → ∃ bf, k_bufs (ik s) !! b' = Some bf ∧ 0 ≤ b_blockno bf < FSSIZE ∧ 0 ≤ b_dev bf ∧
    (b_flags bf = 0 ∨ b_flags bf = Z.lor B_VALID B_DIRTY)).
  { intros b' [Hb'|Hb']%elem_of_app; [by apply (ir_buf R)|]. apply list_elem_of_singleton in Hb' as ->. eauto. }
  assert (Hnd : NoDup (q ++ [b])).
  { apply NoDup_app. split; [apply (ir_nodup R)|]. split; [|apply NoDup_singleton].
    intros x Hx Hx'. apply list_elem_of_singleton in Hx' as ->. done. }
  destruct q as [|x q].
  - destruct Hl2 as (Hq & Hl2). rewrite Hq, bool_decide_true by done.
    destruct (idestart_run s2 b bf r rest) as (s3 & E3 & out & -> & C); [by rewrite K1|done|done|by rewrite K3|].
    eexists. split; [exact E3|]. split; [|done]. constructor; [by split|done|rewrite <-K1 in Hbuf; exact Hbuf|].
    intros b' q' [= <- <-]. exists bf. split; [cbn; by rewrite K1|done].
  - pose proof Hl2 as (Hq & _). rewrite Hq, bool_decide_false.
    2:{ intros [= ->]. apply Hb. left. }
    exists s2. split; [done|]. split; [|done]. constructor; [exact Hl2|done|by rewrite K1|].
    intros b' q' [= <- <-]. rewrite K1, K4. by apply (ir_active R x q).
Qed.

(** The wait for the interrupt: the process sleeps once, and finds its request done. *)
Lemma wait_run k p pr b bf :
  kok k → Crit.ncli_of (k_hart k) = 0 → unlocked LIde k → unlocked LPtable k → running k p pr → (0 < k_wakes k)%nat →
  k_bufs k !! b = Some bf → b_flags bf = 0 ∨ b_flags bf = Z.lor B_VALID B_DIRTY →
  ∃ c, wait_while (unfinished b) (ChBuf b) LIde (enter LIde k) = Swtch (enter LPtable (asleep p (ChBuf b) k)) c ∧
    ∀ k2 bf2, kok k2 → Crit.ncli_of (k_hart k2) = 0 → unlocked LIde k2 → unlocked LPtable k2 →
      k_bufs k2 !! b = Some bf2 → Z.land (b_flags bf2) (Z.lor B_VALID B_DIRTY) = B_VALID →
      ∃ h, c (enter LPtable k2) = Done tt (enter LIde (upd_proc p (with_p_chan None) (with_k_hart (set_if h (k_hart k2)) k2))).
Proof.
  intros Hok Hn Hi Hp Hrun Hw Hb Hfl. unfold wait_while. unfold bind at 1, gets. cbn [obind].
  change (k_wakes (enter LIde k)) with (k_wakes k). destruct (k_wakes k) as [|n]; [lia|]. cbn [wait_loop].
  erewrite bind_done by (by apply unfinished_run). rewrite pending_unfinished by done. cbn [negb].
  unfold bind at 1. rewrite (sleep_swtch _ _ _ p pr) by done. cbn [obind]. eexists. split; [reflexivity|].
  intros k2 bf2 Hok2 Hn2 Hi2 Hp2 Hb2 Hf2. exists (cintena (enter LPtable k)).
  rewrite (sleep_resume _ LIde k2 p) by done. cbn [obind wait_loop].
  erewrite bind_done by (by apply unfinished_run). by rewrite Hf2.
Qed.

(** [iderw]: the request is at the end of the queue, the caller sleeps, and
    when it is woken after the request is done [iderw] returns. *)
Lemma iderw_run s q pid b bf :
  may_ask (ik s) pid b bf → irep s q → b ∉ q → (b < length (i_qnext s))%nat → b_dev bf = 0 ∨ i_have1 s = true →
  (∃ r rest, await_ready (i_status s) = Some (r, rest)) →
  ∃ p s1 c, iderw b s = Swtch (with_ik (enter LPtable (ik s1)) s1) c ∧ irep s1 (q ++ [b]) ∧
    ik s1 = asleep p (ChBuf b) (ik s) ∧
    ∀ s2 bf2, kok (ik s2) → Crit.ncli_of (k_hart (ik s2)) = 0 → unlocked LIde (ik s2) → unlocked LPtable (ik s2) →
      k_bufs (ik s2) !! b = Some bf2 → Z.land (b_flags bf2) (Z.lor B_VALID B_DIRTY) = B_VALID →
      ∃ h, c (with_ik (enter LPtable (ik s2)) s2) =
        Done tt (with_ik (upd_proc p (with_p_chan None) (with_k_hart (set_if h (k_hart (ik s2))) (ik s2))) s2).
Proof.
  intros [M1 M2 M3 M4 M5 (x & X1 & X2 & X3) M6 M7 M8 M9] R Hb Hlt Hdev Hst. set (k := ik s) in *.
  pose proof M1 as (Hok & _ & Hpt & _ & p & pr & Hrun & _). unfold iderw.
  erewrite bind_done by (apply kern_done; by eapply holding_mine). rewrite with_ik_id. cbn [negb].
  erewrite bind_done by (by apply kern_buf_at). rewrite pending_unfinished by done.
  erewrite (bind_done get) by reflexivity.
  replace (negb (b_dev bf =? 0) && negb (i_have1 s)) with false.
  2:{ symmetry. destruct Hdev as [-> | ->]; [done|]. apply andb_false_r. }
  erewrite bind_done by (apply kern_done; by apply kacquire_ok). fold k.
  assert (R0 : irep (with_ik (enter LIde k) s) q) by (destruct R; by constructor).
  destruct (enqueue_run (with_ik (enter LIde k) s) q b bf R0) as (s1 & E1 & R1 & K1 & K2); try done.
  erewrite bind_done by exact E1. destruct (wait_run k p pr b bf) as (c & Ew & Hc); try done.
  unfold bind at 1, kern at 1, zoom. rewrite K1. change (ik (with_ik (enter LIde k) s)) with (enter LIde k). rewrite Ew.
  cbn [zoom_outcome obind]. exists p, (with_ik (asleep p (ChBuf b) k) s1). eexists.
  split; [reflexivity|]. split; [|split; [done|]].
  - destruct R1 as [A1 A2 A3 A4]. rewrite K1 in A3, A4. by constructor.
  - intros s2 bf2 Hok2 Hn2 Hi2 Hp2 Hb2 Hf2. destruct (Hc (ik s2) bf2) as (h & E); try done. exists h.
    change (ik (with_ik (enter LPtable (ik s2)) s2)) with (enter LPtable (ik s2)). rewrite E. cbn [zoom_outcome obind].
    set (k3 := upd_proc p _ _). assert (Hok3 : kok k3) by (by apply hart_ok_set_if).
    rewrite (kern_done _ _ tt k3); [done|]. cbn [ik with_ik]. rewrite krelease_ok by eauto with kernel.
    f_equal. by apply leave_enter.
Qed.

(** * The whole queue *)

(** One interrupt for each element of [l], in each of which [inb] gives the
    values of the element. *)
Fixpoint serve (l : list (list Z)) (disk : disks) (s : idek) : outcome idek disks :=
  match l with
  | [] => Done disk s
  | sts :: l' =>
      let '(s1, disk') := interrupt sts disk s in
      match ideintr s1 with
      | Done _ s2 => serve l' disk' s2
      | Panicked m => Panicked m
      | _ => Diverged
      end
  end.

(** What a queue asks for: its requests, one after the other. *)
Fixpoint fulfil (q : list nat) (bufs : list buf) (disk : disks) : list buf * disks :=
  match q with
  | [] => (bufs, disk)
  | b :: q' =>
      match bufs !! b with
      | None => (bufs, disk)
      | Some bf => fulfil q' (<[b := served bf disk]> bufs) (stored bf disk)
      end
  end.

(** the interrupt handler drains the queue in order.  With one interrupt
    for each buffer of [idequeue], each finding the disk ready and without an
    error, [ideintr] never panics; the queue is empty afterwards; every
    request has been done, first come first served, on the sector of the drive
    its buffer names; and no other part of the kernel's memory has changed but
    the states of the processes that waited. *)
Theorem queue_served l : ∀ s q disk,
  kok (ik s) → unlocked LIde (ik s) → unlocked LPtable (ik s) → irep s q → length l = length q → Forall settles l →
  ∃ s', serve l disk s = Done (snd (fulfil q (k_bufs (ik s)) disk)) s' ∧ irep s' [] ∧
    ik s' = with_k_ptable (k_ptable (ik s')) (with_k_bufs (fst (fulfil q (k_bufs (ik s)) disk)) (ik s)) ∧
    woken (k_ptable (ik s)) (k_ptable (ik s')).
Proof.
  induction l as [|sts l IH]; intros s q disk Hok Hi Hp R Hl Hst; destruct q as [|b q]; try done.
  - exists s. do 2 (split; [done|]). split; [by destruct s as [[] ? ? ? ? ? ?]|]. apply woken_refl.
  - apply Forall_cons in Hst as [Hst1 Hst]. destruct (ir_active R b q eq_refl) as (bf & Hb & _).
    cbn [serve fulfil]. rewrite Hb. destruct (ideintr_run s b q bf disk sts) as (s1 & E1 & K1 & R1 & _); try done.
    rewrite (interrupt_run sts disk s b q bf R Hb) in *. cbn [fst] in E1. rewrite E1.
    destruct (IH s1 q (stored bf disk)) as (s2 & E2 & R2 & K2 & W2); try done; [by rewrite K1 | by rewrite K1 | by rewrite K1 | by injection Hl |].
    rewrite K1 in E2, K2, W2. exists s2. split; [exact E2|]. split; [done|]. split; [exact K2|].
    eapply woken_trans; [|exact W2]. apply woken_wake.
Qed.

(** * The two disk drivers *)

(** The disk of memide.c is drive 1. *)
Definition drive1 (disk : disks) (blocks : list (list Z)) : Prop :=
  ∀ n, 0 ≤ n < Z.of_nat (length blocks) → blocks !! Z.to_nat n = Some (disk (1, n)).

Lemma drive1_stored disk blocks bf : b_dev bf = 1 → 0 ≤ b_blockno bf < Z.of_nat (length blocks) → drive1 disk blocks →
  drive1 (<[(1, b_blockno bf) := b_data bf]> disk) (<[Z.to_nat (b_blockno bf) := b_data bf]> blocks).
Proof.
  intros Hd Hr D n Hn. rewrite length_insert in Hn. destruct (decide (n = b_blockno bf)) as [->|Hne].
  - rewrite fn_lookup_insert, list_lookup_insert_eq by lia. done.
  - rewrite fn_lookup_insert_ne by congruence. rewrite list_lookup_insert_ne by lia. by apply D.
Qed.

(** memide's [iderw] does what a request asks for. *)
Lemma memide_served k pid b bf disk :
  may_ask k pid b bf → b_dev bf = 1 → b_blockno bf < Z.of_nat (length (k_disk k)) → drive1 disk (k_disk k) →
  ∃ k', Bio.iderw b k = Done tt k' ∧ k_bufs k' = <[b := served bf disk]> (k_bufs k) ∧
    drive1 (stored bf disk) (k_disk k').
Proof.
  intros [M1 M2 M3 M4 M5 (x & X1 & X2 & X3) M6 M7 M8 M9] Hd Hr D.
  unfold served, stored. destruct M7 as [Hf|Hf].
  - assert (Hdirty : dirty bf = false) by (unfold dirty; by rewrite Hf). rewrite Hdirty, Hd.
    pose proof (D (b_blockno bf) ltac:(lia)) as Hk.
    rewrite (iderw_read k pid b x bf M1 M5 X1 X2 X3 M6 Hd ltac:(lia) (disk (1, b_blockno bf)) Hf Hk). eexists. split; [reflexivity|].
    rewrite (upd_buf_insert _ _ bf) by done. rewrite Hf. done.
  - assert (Hdirty : dirty bf = true) by (unfold dirty; by rewrite Hf). rewrite Hdirty, Hd.
    rewrite (iderw_write k pid b x bf M1 M5 X1 X2 X3 M6 Hd ltac:(lia) Hf). eexists. split; [reflexivity|].
    rewrite (upd_buf_insert _ _ bf) by done. rewrite Hf. split; [done|].
    apply (drive1_stored disk (k_disk k) bf); [done|lia|done].
Qed.

Lemma fulfilled bf disk : b_flags bf = 0 ∨ b_flags bf = Z.lor B_VALID B_DIRTY → 
  Z.land (b_flags (served bf disk)) (Z.lor B_VALID B_DIRTY) = B_VALID.
Proof. unfold served. cbn. by intros [-> | ->]. Qed.

(** C6: the IDE driver and the memory disk are interchangeable.  When the
    holder of a buffer of drive 1 calls ide.c's [iderw] on an idle disk, the
    call goes to sleep with the request put to the controller and only
    [ptable.lock] held; the interrupt that follows is handled without a panic;
    and whenever the sleeper is resumed, in any state in which the buffers are as the
    handler left them, [iderw] returns.  The buffers and the blocks of the
    drive are then those that memide.c's [iderw] leaves when it is
    called in the same state. *)
Theorem ide_as_memide s pid b bf disk sts r rest :
  may_ask (ik s) pid b bf → irep s [] → (b < length (i_qnext s))%nat → b_dev bf = 1 → i_have1 s = true →
  await_ready (i_status s) = Some (r, rest) → settles sts →
  b_blockno bf < Z.of_nat (length (k_disk (ik s))) → drive1 disk (k_disk (ik s)) →
  ∃ s1 c s2 k',
    iderw b s = Swtch (with_ik (enter LPtable (ik s1)) s1) c ∧
    ideintr (fst (interrupt sts disk s1)) = Done tt s2 ∧ irep s2 [] ∧
    (∀ s3, kok (ik s3) → Crit.ncli_of (k_hart (ik s3)) = 0 → unlocked LIde (ik s3) → unlocked LPtable (ik s3) →
      k_bufs (ik s3) = k_bufs (ik s2) →
      ∃ s4, c (with_ik (enter LPtable (ik s3)) s3) = Done tt s4 ∧ k_bufs (ik s4) = k_bufs k') ∧
    Bio.iderw b (ik s) = Done tt k' ∧ drive1 (snd (interrupt sts disk s1)) (k_disk k').
Proof.
  intros Hm R Hlt Hd H1 Hr Hst Hn D. pose proof (ma_buf Hm) as Hb.
  destruct (iderw_run s [] pid b bf) as (p & s1 & c & E1 & R1 & K1 & Hc); try done; [by apply not_elem_of_nil|by right|by eauto|].
  pose proof (ma_env Hm) as (Hok & _ & Hpt & _). pose proof (ma_ide Hm) as Hide.
  destruct (memide_served (ik s) pid b bf disk) as (k' & Em & Kb & Kd); try done.
  assert (Hb1 : k_bufs (ik s1) !! b = Some bf) by (by rewrite K1).
  destruct (ideintr_run s1 b [] bf disk sts) as (s2 & E2 & K2 & R2 & _); try done; [by rewrite K1 | by rewrite K1 | by rewrite K1 |].
  assert (Kb2 : k_bufs (ik s2) = k_bufs k') by (rewrite K2, Kb; cbn; by rewrite K1).
  exists s1, c, s2, k'. do 3 (split; [done|]). split; [|split; [done|]].
  - intros s3 Hok3 Hn3 Hi3 Hp3 Hb3. destruct (Hc s3 (served bf disk)) as (h & E); try done.
    + rewrite Hb3, Kb2, Kb. apply list_lookup_insert_eq. by eapply lookup_lt_Some.
    + apply fulfilled, (ma_flags Hm).
    + eexists. split; [exact E|]. cbn. by rewrite Hb3, Kb2.
  - by rewrite (interrupt_run sts disk s1 b [] bf R1 Hb1).
Qed.

(** ** A machine with one request *)

(** Block 5 is to be written. *)
Definition ide_buf : buf := mkBuf 6 1 5 1 0 0 [7].

(** [demo_run] with the locks of the buffers, the first of which is held. *)
Definition ide_locks : gmap lockid spinlock :=
  foldr (λ i, <[LSleep (SLBuf i) := mkSpinlock 0 "sleep lock" None]>) demo_locks (seq 0 NBUF).

Definition ide_boot : kernel :=
  with_k_hart (with_h_locks ide_locks demo_run_hart)
    (with_k_disk (replicate 8 [0]) (with_k_slocks {[SLBuf 0 := mkSleeplock 1 "buffer" 1]}
      (with_k_bufs [ide_buf] demo_run))).

Definition ide_demo : idek := mkIdek ide_boot None [None] true [0x80; 0x40] [] [].
Definition ide_disk : disks := λ _, [0].

Lemma ide_benv : benv ide_boot 1.
Proof.
  split; [|split; [|split; [|split]]].
  - exact demo_run_kok.
  - vm_compute. reflexivity.
  - vm_compute. reflexivity.
  - intros i Hi. do 30 (destruct i as [|i]; [vm_compute; reflexivity|]). unfold NBUF in Hi. lia.
  - exists 0%nat, demo_proc. split; [exact demo_run_running|]. split; reflexivity.
Qed.

Lemma ide_may_ask : may_ask ide_boot 1 0 ide_buf.
Proof.
  constructor.
  - exact ide_benv.
  - reflexivity.
  - vm_compute. reflexivity.
  - apply Nat.leb_le. reflexivity.
  - apply Nat.ltb_lt. reflexivity.
  - exists (mkSleeplock 1 "buffer" 1). split; [reflexivity|]. split; [discriminate|reflexivity].
  - reflexivity.
  - right. reflexivity.
  - split; [discriminate|reflexivity].
  - discriminate.
Qed.

Lemma ide_idle : irep ide_demo [].
Proof. constructor; [done|apply NoDup_nil_2|by intros b Hb%elem_of_nil|done]. Qed.

Lemma ide_settles : settles [0x40; 0x40].
Proof. exists 0x40, [0x40], 0x40, []. split; [reflexivity|]. split; reflexivity. Qed.

Lemma ide_drive1 : drive1 ide_disk (k_disk ide_boot).
Proof. intros n Hn. apply lookup_replicate. split; [done|]. cbn in Hn. lia. Qed.

Lemma ide_as_memide_witness : ∃ s1 c s2 k',
  iderw 0 ide_demo = Swtch (with_ik (enter LPtable (ik s1)) s1) c ∧
  ideintr (fst (interrupt [0x40; 0x40] ide_disk s1)) = Done tt s2 ∧
  Bio.iderw 0 ide_boot = Done tt k' ∧ k_disk k' !! 5%nat = Some [7] ∧
  drive1 (snd (interrupt [0x40; 0x40] ide_disk s1)) (k_disk k').
Proof.
  destruct (ide_as_memide ide_demo 1 0 ide_buf ide_disk [0x40; 0x40] 0x40 []) as (s1 & c & s2 & k' & E1 & E2 & _ & _ & E4 & D).
  - exact ide_may_ask.
  - exact ide_idle.
  - apply Nat.ltb_lt. reflexivity.
  - reflexivity.
  - reflexivity.
  - reflexivity.
  - exact ide_settles.
  - reflexivity.
  - exact ide_drive1.
  - exists s1, c, s2, k'. do 3 (split; [assumption|]). split; [|exact D].
    assert (E : k_disk <$> (match Bio.iderw 0 ide_boot with Done _ k => Some k | _ => None end) =
      Some (<[5%nat := [7]]> (k_disk ide_boot))) by (vm_compute; reflexivity).
    change (ik ide_demo) with ide_boot in E4. rewrite E4 in E. injection E as E. rewrite E. reflexivity.
Defined.

(** The machine once the request is at the controller. *)
Definition ide_asked : idek :=
  match (kern (acquire LIde) ;;; enqueue 0 ;;; kern (release LIde)) ide_demo with Done _ s => s | _ => ide_demo end.

Lemma ide_asked_irep : irep ide_asked [0%nat].
Proof.
  constructor.
  - split; [vm_compute; reflexivity|]. exists None. split; [vm_compute; reflexivity|vm_compute; reflexivity].
  - apply NoDup_singleton.
  - intros b ->%list_elem_of_singleton. exists ide_buf. split; [vm_compute; reflexivity|].
    split; [split; [discriminate|reflexivity]|]. split; [discriminate|]. right. reflexivity.
  - intros b q' [= <- <-]. exists ide_buf. split; [vm_compute; reflexivity|].
    constructor; [vm_compute; reflexivity .. |]. intros _. vm_compute. reflexivity.
Qed.

Lemma queue_served_witness : ∃ s', serve [[0x40; 0x40]] ide_disk ide_asked =
  Done (snd (fulfil [0%nat] (k_bufs (ik ide_asked)) ide_disk)) s' ∧ irep s' [].
Proof.
  destruct (queue_served [[0x40; 0x40]] ide_asked [0%nat] ide_disk) as (s' & E & R & _).
  - vm_compute. exists 0%nat, (mkCpu 7 (mkTaskstate 0 0 0) [] 1 0 true (Some 0%nat)). repeat split; discriminate || reflexivity.
  - vm_compute. reflexivity.
  - vm_compute. reflexivity.
  - exact ide_asked_irep.
  - reflexivity.
  - apply Forall_singleton. exact ide_settles.
  - exists s'. split; [exact E|exact R].
Defined.

(** An error of the disk goes unnoticed: when [idewait(1)] reports one during
    a read, [ideintr] skips the transfer and still sets [B_VALID], so the
    caller of [iderw] gets whatever the buffer held before. *)
Definition ide_read : idek :=
  mkIdek (with_k_bufs [mkBuf 0 1 5 1 0 0 [99]] ide_boot) (Some 0%nat) [None] true [0x41] [] [].

Lemma read_error_valid : ∃ s', ideintr (with_i_in [[7]] ide_read) = Done tt s' ∧
  k_bufs (ik s') = [mkBuf B_VALID 1 5 1 0 0 [99]].
Proof.
  assert (E : match ideintr (with_i_in [[7]] ide_read) with Done _ s => k_bufs (ik s) | _ => [] end =
    [mkBuf B_VALID 1 5 1 0 0 [99]]) by (vm_compute; reflexivity).
  destruct (ideintr _) as [[] s'| | |]; [|discriminate ..]. exists s'. split; [reflexivity|exact E].
Qed.
