(* ===== verification/Log.v ===== *)
(** The write-ahead log: log.c, with [readsb] of fs.c.

    A system call writes through [log_write], which pins the block in the
    cache; when the last call in progress ends, [commit] copies the pinned
    blocks to the log area, writes the header (the commit point), installs the
    blocks at home and clears the header.  [commit_crash_atomic] stops the
    disk writes of [commit] anywhere, runs [recover_from_log] on what is on
    the disk then, and finds all of the transaction or none of it. *)

From S2P Require Import Prelude State Spinlock Sched Bio.
Import KLock.

(** * The functions *)

(** [struct logheader] in a block: [int n], then [int block[LOGSIZE]]. *)
Definition rd_int (data : list Z) (off : nat) : Z := s32 (le_dec (slice data off 4)).
Definition rd_uint (data : list Z) (off : nat) : Z := le_dec (slice data off 4).
Definition wr_int (data : list Z) (off : nat) (v : Z) : list Z := splice data off (le_enc 4 v).

Definition lh_n (data : list Z) : Z := rd_int data 0.
Definition lh_block (data : list Z) (i : nat) : Z := rd_int data (4 + 4 * i).

Definition upd_log (f : log_t → log_t) (s : kernel) : kernel := with_k_log (f (k_log s)) s.

(** [log.lh.block[i] = v]; an index past the array is a wild store. *)
Definition set_log_block (i : nat) (v : Z) : K unit :=
  lg <- gets k_log ;;
  _ <- deref (lg_block lg !! i) ;;
  modify (upd_log (λ lg, with_lg_block (<[i := v]> (lg_block lg)) lg)).

Definition log_block (i : nat) : K Z :=
  lg <- gets k_log ;; deref (lg_block lg !! i).

Definition readsb (dev : Z) : K superblock :=
  bp <- bread dev 1 ;;
  bf <- buf_at bp ;;
  let d := b_data bf in
  let sb := mkSuperblock (rd_uint d 0) (rd_uint d 4) (rd_uint d 8) (rd_uint d 12)
              (rd_uint d 16) (rd_uint d 20) (rd_uint d 24) in
  brelse bp ;;;
  ret sb.

Definition install_body (tail : nat) : K unit :=
  lg <- gets k_log ;;
  lbuf <- bread (lg_dev lg) (u32 (lg_start lg + Z.of_nat tail + 1)) ;;
  blk <- log_block tail ;;
  dbuf <- bread (lg_dev lg) (u32 blk) ;;
  lb <- buf_at lbuf ;;
  set_buf dbuf (with_b_data (b_data lb)) ;;;
  bwrite dbuf ;;;
  brelse lbuf ;;;
  brelse dbuf.

Definition install_trans : K unit :=
  lg <- gets k_log ;; for_each (seq 0 (Z.to_nat (lg_n lg))) install_body.

Definition read_head : K unit :=
  lg <- gets k_log ;;
  b <- bread (lg_dev lg) (u32 (lg_start lg)) ;;
  bf <- buf_at b ;;
  modify (upd_log (with_lg_n (lh_n (b_data bf)))) ;;;
  for_each (seq 0 (Z.to_nat (lh_n (b_data bf)))) (λ i, set_log_block i (lh_block (b_data bf) i)) ;;;
  brelse b.

Definition write_head : K unit :=
  lg <- gets k_log ;;
  b <- bread (lg_dev lg) (u32 (lg_start lg)) ;;
  set_buf b (λ bf, with_b_data (wr_int (b_data bf) 0 (lg_n lg)) bf) ;;;
  for_each (seq 0 (Z.to_nat (lg_n lg))) (λ i,
    blk <- log_block i ;;
    set_buf b (λ bf, with_b_data (wr_int (b_data bf) (4 + 4 * i) blk) bf)) ;;;
  bwrite b ;;;
  brelse b.

Definition recover_from_log : K unit :=
  read_head ;;;
  install_trans ;;;
  modify (upd_log (with_lg_n 0)) ;;;
  write_head.

Definition initlog (dev : Z) : K unit :=
  if BSIZE <=? 4 + 4 * LOGSIZE then panic "initlog: too big logheader" else
  initlock LLog "log" ;;;
  sb <- readsb dev ;;
  modify (upd_log (with_lg_start (s32 (sb_logstart sb)))) ;;;
  modify (upd_log (with_lg_size (s32 (sb_nlog sb)))) ;;;
  modify (upd_log (with_lg_dev dev)) ;;;
  recover_from_log.

(** The [while(1)] loop of [begin_op]. *)
Fixpoint begin_loop (fuel : nat) : K unit :=
  match fuel with
  | O => diverge
  | S fuel' =>
      lg <- gets k_log ;;
      if negb (lg_committing lg =? 0) then sleep ChLog (Some LLog) ;;; begin_loop fuel'
      else if LOGSIZE <? lg_n lg + (lg_outstanding lg + 1) * MAXOPBLOCKS
      then sleep ChLog (Some LLog) ;;; begin_loop fuel'
      else
        modify (upd_log (λ lg, with_lg_outstanding (lg_outstanding lg + 1) lg)) ;;;
        release LLog
  end.

Definition begin_op : K unit :=
  acquire LLog ;;;
  n <- gets k_wakes ;; begin_loop (S n).

Definition write_log_body (tail : nat) : K unit :=
  lg <- gets k_log ;;
  to <- bread (lg_dev lg) (u32 (lg_start lg + Z.of_nat tail + 1)) ;;
  blk <- log_block tail ;;
  from <- bread (lg_dev lg) (u32 blk) ;;
  fb <- buf_at from ;;
  set_buf to (with_b_data (b_data fb)) ;;;
  bwrite to ;;;
  brelse from ;;;
  brelse to.

Definition write_log : K unit :=
  lg <- gets k_log ;; for_each (seq 0 (Z.to_nat (lg_n lg))) write_log_body.

Definition commit : K unit :=
  lg <- gets k_log ;;
  if 0 <? lg_n lg then
    write_log ;;;
    write_head ;;;
    install_trans ;;;
    modify (upd_log (with_lg_n 0)) ;;;
    write_head
  else ret tt.

Definition end_op : K unit :=
  acquire LLog ;;;
  modify (upd_log (λ lg, with_lg_outstanding (lg_outstanding lg - 1) lg)) ;;;
  lg <- gets k_log ;;
  if negb (lg_committing lg =? 0) then panic "log.committing" else
  do_commit <- (if lg_outstanding lg =? 0
                then modify (upd_log (with_lg_committing 1)) ;;; ret true
                else wakeup ChLog ;;; ret false) ;;
  release LLog ;;;
  if (do_commit : bool) then
    commit ;;;
    acquire LLog ;;;
    modify (upd_log (with_lg_committing 0)) ;;;
    wakeup ChLog ;;;
    release LLog
  else ret tt.

Definition log_write (b : nat) : K unit :=
  lg <- gets k_log ;;
  if (LOGSIZE <=? lg_n lg) || (lg_size lg - 1 <=? lg_n lg) then panic "too big a transaction" else
  if lg_outstanding lg <? 1 then panic "log_write outside of trans" else
  acquire LLog ;;;
  bf <- buf_at b ;;
  lg <- gets k_log ;;
  let n := Z.to_nat (lg_n lg) in
  let i := default n (find_index (λ x, u32 x =? b_blockno bf) (take n (lg_block lg))) in
  set_log_block i (s32 (b_blockno bf)) ;;;
  (if (i =? n)%nat then modify (upd_log (λ lg, with_lg_n (lg_n lg + 1) lg)) else ret tt) ;;;
  set_buf b (λ bf, with_b_flags (Z.lor (b_flags bf) B_DIRTY) bf) ;;;
  release LLog.

(** * Sequences of block writes *)

Abbreviation writes := (list (Z * list Z)).

Definition apply_writes (disk : list (list Z)) (ws : writes) : list (list Z) :=
  foldl (λ d w, <[Z.to_nat (fst w) := snd w]> d) disk ws.

Definition apply_view (V : Z → list Z) (ws : writes) : Z → list Z :=
  foldl (λ V w, <[fst w := snd w]> V) V ws.

Lemma apply_writes_app d ws1 ws2 :
  apply_writes d (ws1 ++ ws2) = apply_writes (apply_writes d ws1) ws2.
Proof. apply foldl_app. Qed.

Lemma apply_view_app V ws1 ws2 : apply_view V (ws1 ++ ws2) = apply_view (apply_view V ws1) ws2.
Proof. apply foldl_app. Qed.

Lemma length_apply_writes d ws : length (apply_writes d ws) = length d.
Proof.
  revert d. induction ws as [|w ws IH]; intros d; simpl; [done|].
  unfold apply_writes in *. simpl. rewrite IH. apply length_insert.
Qed.

(** A block that no write touches. *)
Lemma apply_writes_other d ws b :
  0 ≤ b → (∀ w, w ∈ ws → 0 ≤ fst w) → b ∉ ws.*1 →
  apply_writes d ws !! Z.to_nat b = d !! Z.to_nat b.
Proof.
  intros Hb. revert d. induction ws as [|[c v] ws IH]; intros d Hpos Hn; [done|].
  change (apply_writes d ((c, v) :: ws)) with (apply_writes (<[Z.to_nat c := v]> d) ws).
  rewrite IH; [|set_solver|set_solver]. apply list_lookup_insert_ne.
  assert (0 ≤ c) by (apply (Hpos (c, v)); set_solver). set_solver by lia.
Qed.

(** With distinct targets, each write is found on the disk. *)
Lemma apply_writes_elem d ws b v :
  NoDup ws.*1 → (∀ w, w ∈ ws → 0 ≤ fst w < Z.of_nat (length d)) → (b, v) ∈ ws →
  apply_writes d ws !! Z.to_nat b = Some v.
Proof.
  revert d. induction ws as [|[c u] ws IH]; intros d Hnd Hr Hin; [set_solver|].
  change (apply_writes d ((c, u) :: ws)) with (apply_writes (<[Z.to_nat c := u]> d) ws).
  simpl in Hnd. apply NoDup_cons in Hnd as [Hc Hnd].
  apply elem_of_cons in Hin as [[= -> ->]|Hin].
  - assert (0 ≤ c < Z.of_nat (length d)) by (apply (Hr (c, u)); set_solver).
    rewrite apply_writes_other; [|lia| |done].
    + rewrite list_lookup_insert_eq; [done|lia].
    + intros w Hw. apply (Hr w). set_solver.
  - apply IH; [done| |done]. intros w Hw. rewrite length_insert. apply Hr. set_solver.
Qed.

Lemma apply_view_other V ws b : b ∉ ws.*1 → apply_view V ws b = V b.
Proof.
  revert V. induction ws as [|[c v] ws IH]; intros V Hn; [done|].
  change (apply_view V ((c, v) :: ws)) with (apply_view (<[c := v]> V) ws).
  rewrite IH by set_solver. apply fn_lookup_insert_ne. set_solver.
Qed.

Lemma apply_view_elem V ws b v : NoDup ws.*1 → (b, v) ∈ ws → apply_view V ws b = v.
Proof.
  revert V. induction ws as [|[c u] ws IH]; intros V Hnd Hin; [set_solver|].
  change (apply_view V ((c, u) :: ws)) with (apply_view (<[c := u]> V) ws).
  simpl in Hnd. apply NoDup_cons in Hnd as [Hc Hnd].
  apply elem_of_cons in Hin as [[= -> ->]|Hin]; [|by apply IH].
  rewrite apply_view_other by done. apply fn_lookup_insert.
Qed.

(** What a piece of the log code may change, and the writes it makes. *)
Definition lframe (s s' : kernel) (ws : writes) : Prop :=
  s' = with_k_disk (k_disk s') (with_k_dtrace (k_dtrace s') (bsync s' s)) ∧
  bquiet s s' ∧
  k_disk s' = apply_writes (k_disk s) ws ∧ k_dtrace s' = reverse ws ++ k_dtrace s.

Lemma bframe_lframe s s' : bframe s s' → lframe s s' [].
Proof.
  intros [E W]. split; [|split; [done|]]; rewrite E; done.
Qed.

Lemma lframe_trans s1 s2 s3 ws1 ws2 :
  lframe s1 s2 ws1 → lframe s2 s3 ws2 → lframe s1 s3 (ws1 ++ ws2).
Proof.
  intros (E1 & W1 & D1 & T1) (E2 & W2 & D2 & T2). split; [|split; [|split]].
  - rewrite E2, E1. done.
  - by eapply bquiet_trans.
  - by rewrite D2, D1, apply_writes_app.
  - by rewrite T2, T1, reverse_app, app_assoc.
Qed.

Lemma lframe_bframe s1 s2 s3 ws : lframe s1 s2 ws → bframe s2 s3 → lframe s1 s3 ws.
Proof.
  intros H1 H2%bframe_lframe. rewrite <-(app_nil_r ws). by eapply lframe_trans.
Qed.

Lemma bframe_log s s' : bframe s s' → k_log s' = k_log s.
Proof. intros [E _]. by rewrite E. Qed.

Lemma bframe_disk s s' : bframe s s' → k_disk s' = k_disk s.
Proof. intros [E _]. by rewrite E. Qed.

Lemma bframe_hart s s' : bframe s s' → k_hart s' = k_hart s.
Proof. intros [E _]. by rewrite E. Qed.

Lemma bframe_unlocked s s' lk : bframe s s' → unlocked lk s → unlocked lk s'.
Proof. intros [E _] H. by rewrite E. Qed.

Lemma lframe_log s s' ws : lframe s s' ws → k_log s' = k_log s.
Proof. intros [E _]. by rewrite E. Qed.

Lemma lframe_disk s s' ws : lframe s s' ws → k_disk s' = apply_writes (k_disk s) ws.
Proof. by intros (_ & _ & ? & _). Qed.

(** Writing through a held buffer. *)
Lemma bwrite_data s H V P i b d :
  brep s H V P → H !! i = Some b → block_ok d →
  ∃ s', bwrite i (upd_buf i (with_b_data d) s) = Done tt s' ∧
    brep s' H (<[b := d]> V) (P ∖ {[b]}) ∧ lframe s s' [(b, d)].
Proof.
  intros Hrep HH Hd.
  destruct (bwrite_spec _ _ _ _ i b (set_data_spec _ _ _ _ i b d Hrep HH Hd) HH) as (s' & E & Hr & Hs).
  exists s'. split; [done|]. split; [done|]. rewrite fn_lookup_insert in Hs.
  rewrite Hs. split; [done|]. split; [split; [apply woken_refl|done]|done].
Qed.

(** * The log area *)

(** The geometry of the log: header at [start], [size] blocks in all. *)
Definition in_log (lg : log_t) (b : Z) : Prop := lg_start lg ≤ b < lg_start lg + lg_size lg.

Definition log_geom (lg : log_t) (nblocks : Z) : Prop :=
  lg_dev lg = 1 ∧ 0 ≤ lg_start lg ∧ 1 ≤ lg_size lg ≤ LOGSIZE ∧
  lg_start lg + lg_size lg ≤ nblocks ∧ nblocks < 2147483648 ∧
  length (lg_block lg) = Z.to_nat LOGSIZE.

(** The home blocks of the entries of the header in memory. *)
Definition lblocks (lg : log_t) : list Z := take (Z.to_nat (lg_n lg)) (lg_block lg).

Definition home_ok (lg : log_t) (nblocks : Z) (b : Z) : Prop :=
  0 ≤ b < nblocks ∧ ¬ in_log lg b.

Definition lslot (lg : log_t) (t : nat) : Z := lg_start lg + Z.of_nat t + 1.

Lemma log_block_ok s t b : lg_block (k_log s) !! t = Some b → log_block t s = Done b s.
Proof. intros H. unfold log_block, bind, gets. simpl. by rewrite H. Qed.

Lemma delete_held (H : gmap nat Z) i b : H !! i = None → delete i (<[i := b]> H) = H.
Proof. apply delete_insert_id. Qed.

Section bodies.
Context (s : kernel) (V : Z → list Z) (P : gset Z) (t : nat) (blk : Z).
Let lg := k_log s.
Let nb := Z.of_nat (length (k_disk s)).
Context (Hrep : brep s ∅ V P) (Hg : log_geom lg nb) (Ht : Z.of_nat t + 1 < lg_size lg).
Context (Hblk : lg_block lg !! t = Some blk) (Hhome : home_ok lg nb blk).
Context (Hslot : lslot lg t ∉ P) (Hroom : (size P < NBUF)%nat).

Lemma slot_range : 0 ≤ lslot lg t < nb ∧ lslot lg t ≠ blk ∧ in_log lg (lslot lg t).
Proof.
  destruct Hg as (_ & ? & _ & ? & _), Hhome as (? & Hn). unfold lslot, in_log in *. lia.
Qed.

Lemma slot_u32 : u32 (lg_start lg + Z.of_nat t + 1) = lslot lg t ∧ u32 blk = blk.
Proof.
  pose proof slot_range. destruct Hg as (_ & _ & _ & _ & ? & _), Hhome as (? & _).
  split; apply u32_small; unfold is_u32, lslot in *; lia.
Qed.

Lemma write_log_body_spec :
  blk ∈ P →
  ∃ s', write_log_body t s = Done tt s' ∧ brep s' ∅ (<[lslot lg t := V blk]> V) P ∧
    lframe s s' [(lslot lg t, V blk)].
Proof.
  intros HP. destruct slot_range as (Hsr & Hne & Hin). destruct slot_u32 as [Eu1 Eu2].
  pose proof Hg as (Hdev & _). unfold write_log_body. unfold bind at 1, gets. cbn [obind].
  fold lg. rewrite Hdev, Eu1.
  destruct (bread_spec s ∅ V P (lslot lg t)) as (i1 & s1 & E1 & _ & R1 & F1); [done|done|done| |].
  { right. rewrite map_size_empty. lia. }
  erewrite bind_done by exact E1. erewrite bind_done.
  2:{ apply log_block_ok. rewrite (bframe_log _ _ F1). exact Hblk. }
  rewrite Eu2. destruct (bread_spec s1 (<[i1 := lslot lg t]> ∅) V P blk) as (i2 & s2 & E2 & Hi2 & R2 & F2).
  { done. }
  { rewrite (bframe_disk _ _ F1). apply Hhome. }
  { intros i. rewrite lookup_insert. case_decide; [congruence|]. by rewrite lookup_empty. }
  { by left. }
  erewrite bind_done by exact E2.
  assert (H21 : i2 ≠ i1) by (intros ->; by rewrite lookup_insert_eq in Hi2).
  destruct (held_buf s2 _ V P i2 blk R2) as (b2 & Hb2 & _ & _ & _ & Hd2 & _ & Hok2 & _).
  { apply lookup_insert_eq. }
  erewrite bind_done by (by apply buf_at_ok). erewrite bind_done by done. rewrite Hd2.
  destruct (bwrite_data s2 _ V P i1 (lslot lg t) (V blk) R2) as (s3 & E3 & R3 & F3); [|done|].
  { rewrite lookup_insert_ne by done. apply lookup_insert_eq. }
  erewrite bind_done by exact E3. rewrite difference_disjoint_L in R3 by set_solver.
  destruct (brelse_spec s3 _ _ _ i2 blk R3) as (s4 & E4 & R4 & F4).
  { apply lookup_insert_eq. }
  { by left. }
  erewrite bind_done by exact E4. rewrite delete_held in R4 by done.
  destruct (brelse_spec s4 _ _ _ i1 (lslot lg t) R4) as (s5 & E5 & R5 & F5).
  { apply lookup_insert_eq. }
  { right. rewrite (bframe_disk _ _ F4), (lframe_disk _ _ _ F3), fn_lookup_insert.
    unfold apply_writes. simpl. rewrite list_lookup_insert_eq; [done|].
    rewrite (bframe_disk _ _ F2), (bframe_disk _ _ F1). unfold nb in *. lia. }
  exists s5. split; [done|]. rewrite delete_held in R5 by done. split; [done|].
  eapply lframe_bframe; [|exact F5]. eapply lframe_bframe; [|exact F4].
  apply (lframe_trans s s2 s3 []); [|done]. apply bframe_lframe. by eapply bframe_trans.
Qed.

Lemma install_body_spec :
  blk ∈ P ∨ (S (size P) < NBUF)%nat →
  ∃ s', install_body t s = Done tt s' ∧ brep s' ∅ (<[blk := V (lslot lg t)]> V) (P ∖ {[blk]}) ∧
    lframe s s' [(blk, V (lslot lg t))].
Proof.
  intros HP. destruct slot_range as (Hsr & Hne & Hin). destruct slot_u32 as [Eu1 Eu2].
  pose proof Hg as (Hdev & _). unfold install_body. unfold bind at 1, gets. cbn [obind].
  fold lg. rewrite Hdev, Eu1.
  destruct (bread_spec s ∅ V P (lslot lg t)) as (i1 & s1 & E1 & _ & R1 & F1); [done|done|done| |].
  { right. rewrite map_size_empty. lia. }
  erewrite bind_done by exact E1. erewrite bind_done.
  2:{ apply log_block_ok. rewrite (bframe_log _ _ F1). exact Hblk. }
  rewrite Eu2. destruct (bread_spec s1 (<[i1 := lslot lg t]> ∅) V P blk) as (i2 & s2 & E2 & Hi2 & R2 & F2).
  { done. }
  { rewrite (bframe_disk _ _ F1). apply Hhome. }
  { intros i. rewrite lookup_insert. case_decide; [congruence|]. by rewrite lookup_empty. }
  { destruct HP; [by left|right]. rewrite map_size_insert_None, map_size_empty by done. lia. }
  erewrite bind_done by exact E2.
  assert (H21 : i2 ≠ i1) by (intros ->; by rewrite lookup_insert_eq in Hi2).
  destruct (held_buf s2 _ V P i1 (lslot lg t) R2) as (b1 & Hb1 & _ & _ & _ & Hd1 & _ & Hok1 & _).
  { rewrite lookup_insert_ne by done. apply lookup_insert_eq. }
  erewrite bind_done by (by apply buf_at_ok). erewrite bind_done by done. rewrite Hd1.
  destruct (bwrite_data s2 _ V P i2 blk (V (lslot lg t)) R2) as (s3 & E3 & R3 & F3); [|done|].
  { apply lookup_insert_eq. }
  erewrite bind_done by exact E3.
  assert (ED : k_disk s3 = <[Z.to_nat blk := V (lslot lg t)]> (k_disk s)).
  { rewrite (lframe_disk _ _ _ F3), (bframe_disk _ _ F2), (bframe_disk _ _ F1). done. }
  rewrite insert_insert_ne in R3 by done.
  destruct (brelse_spec s3 _ _ _ i1 (lslot lg t) R3) as (s4 & E4 & R4 & F4).
  { apply lookup_insert_eq. }
  { right. pose proof (proj1 Hhome). rewrite ED, list_lookup_insert_ne by lia.
    rewrite fn_lookup_insert_ne by done. destruct Hrep as (pid & _ & Hc).
    apply (bc_clean Hc); [done|done|done]. }
  erewrite bind_done by exact E4. rewrite delete_held in R4 by (by rewrite lookup_insert_ne).
  destruct (brelse_spec s4 _ _ _ i2 blk R4) as (s5 & E5 & R5 & F5).
  { apply lookup_insert_eq. }
  { right. rewrite (bframe_disk _ _ F4), ED, fn_lookup_insert, list_lookup_insert_eq; [done|].
    destruct Hhome. unfold nb in *. lia. }
  exists s5. split; [done|]. rewrite delete_held in R5 by done. split; [done|].
  eapply lframe_bframe; [|exact F5]. eapply lframe_bframe; [|exact F4].
  apply (lframe_trans s s2 s3 []); [|done]. apply bframe_lframe. by eapply bframe_trans.
Qed.
End bodies.

(** * The header block *)

Lemma rd_wr_same d off v :
  (off + 4 ≤ length d)%nat → -2147483648 ≤ v < 2147483648 → rd_int (wr_int d off v) off = v.
Proof.
  intros Hl Hv. unfold rd_int, wr_int.
  rewrite <-(length_le_enc 4 v) at 2. rewrite slice_splice_same by (rewrite length_le_enc; lia).
  rewrite le_dec_enc4. unfold s32, u32. rewrite Zplus_mod_idemp_l, Z.mod_small by lia. lia.
Qed.

Lemma rd_wr_other d off off' v :
  (off + 4 ≤ length d)%nat → (off' + 4 ≤ off ∨ off + 4 ≤ off')%nat →
  rd_int (wr_int d off v) off' = rd_int d off'.
Proof.
  intros Hl Hd. unfold rd_int, wr_int. by rewrite slice_splice_disjoint by (rewrite length_le_enc; lia).
Qed.

Lemma wr_int_ok d off v : block_ok d → (off + 4 ≤ 512)%nat → block_ok (wr_int d off v).
Proof.
  intros [Hl Hb] Ho. split.
  - unfold wr_int. rewrite length_splice; [done|]. rewrite length_le_enc. lia.
  - unfold wr_int. eauto with kernel.
Qed.

(** The loop of [write_head], on the bytes of the block. *)
Fixpoint put_blocks (i : nat) (bs : list Z) (d : list Z) : list Z :=
  match bs with
  | [] => d
  | b :: bs' => put_blocks (S i) bs' (wr_int d (4 + 4 * i) b)
  end.

Definition header (d : list Z) (bs : list Z) : list Z :=
  put_blocks 0 bs (wr_int d 0 (Z.of_nat (length bs))).

Lemma put_blocks_ok i bs d :
  block_ok d → (4 + 4 * (i + length bs) ≤ 512)%nat → block_ok (put_blocks i bs d).
Proof.
  revert i d. induction bs as [|b bs IH]; intros i d Hd Hl; cbn [put_blocks]; [done|].
  cbn [length] in Hl. apply IH; [|lia]. apply wr_int_ok; [done|lia].
Qed.

Lemma put_blocks_before i bs d off :
  block_ok d → (4 + 4 * (i + length bs) ≤ 512)%nat → (off + 4 ≤ 4 + 4 * i)%nat →
  rd_int (put_blocks i bs d) off = rd_int d off.
Proof.
  revert i d. induction bs as [|b bs IH]; intros i d Hd Hl Ho; cbn [put_blocks]; [done|].
  cbn [length] in Hl. rewrite IH; [|apply wr_int_ok; [done|lia]|lia|lia].
  destruct Hd as [Hd _]. apply rd_wr_other; lia.
Qed.

Definition is_int (z : Z) : Prop := -2147483648 ≤ z < 2147483648.

Lemma put_blocks_lookup i bs d j b :
  block_ok d → (4 + 4 * (i + length bs) ≤ 512)%nat → Forall is_int bs → bs !! j = Some b →
  lh_block (put_blocks i bs d) (i + j) = b.
Proof.
  revert i d j. induction bs as [|c bs IH]; intros i d j Hd Hl Hb Hj; [done|].
  cbn [put_blocks length] in *. inversion Hb as [|? ? Hc Hbs]; subst.
  assert (Hok : block_ok (wr_int d (4 + 4 * i) c)) by (apply wr_int_ok; [done|lia]).
  destruct j as [|j]; simpl in Hj.
  - simplify_eq. unfold lh_block. rewrite Nat.add_0_r.
    rewrite put_blocks_before by (done || lia). apply rd_wr_same; [|done].
    destruct Hd as [Hd _]. lia.
  - replace (i + S j)%nat with (S i + j)%nat by lia. apply IH; [done|lia|done|done].
Qed.

(** The header says what was written into it. *)
Lemma header_ok d bs : block_ok d → (length bs ≤ 30)%nat → block_ok (header d bs).
Proof. intros Hd Hl. apply put_blocks_ok; [|lia]. apply wr_int_ok; [done|lia]. Qed.

Lemma header_n d bs :
  block_ok d → (length bs ≤ 30)%nat → lh_n (header d bs) = Z.of_nat (length bs).
Proof.
  intros Hd Hl. unfold lh_n, header.
  rewrite put_blocks_before by (lia || (apply wr_int_ok; [done|lia])).
  destruct Hd as [Hd _]. apply rd_wr_same; lia.
Qed.

Lemma header_blocks d bs :
  block_ok d → (length bs ≤ 30)%nat → Forall is_int bs →
  lh_block (header d bs) <$> seq 0 (length bs) = bs.
Proof.
  intros Hd Hl Hb. apply list_eq. intros j. rewrite list_lookup_fmap.
  destruct (bs !! j) as [b|] eqn:E.
  - pose proof (lookup_lt_Some _ _ _ E) as Hj. rewrite lookup_seq_lt by done. simpl. f_equal.
    apply (put_blocks_lookup 0 bs _ j b); [|lia|done|done]. apply wr_int_ok; [done|lia].
  - rewrite lookup_seq_ge; [done|]. by apply lookup_ge_None.
Qed.

(** * The loops *)

Fixpoint slot_writes (lg : log_t) (V : Z → list Z) (t : nat) (bs : list Z) : writes :=
  match bs with
  | [] => []
  | b :: bs' => (lslot lg t, V b) :: slot_writes lg V (S t) bs'
  end.

Fixpoint home_writes (lg : log_t) (V : Z → list Z) (t : nat) (bs : list Z) : writes :=
  match bs with
  | [] => []
  | b :: bs' => (b, V (lslot lg t)) :: home_writes lg V (S t) bs'
  end.

Lemma slot_writes_ext lg V V' t bs :
  (∀ b, b ∈ bs → V' b = V b) → slot_writes lg V' t bs = slot_writes lg V t bs.
Proof.
  revert t. induction bs as [|b bs IH]; intros t H; simpl; [done|].
  rewrite H by set_solver. f_equal. apply IH. set_solver.
Qed.

Lemma home_writes_ext lg V V' t bs :
  (∀ j, (t ≤ j < t + length bs)%nat → V' (lslot lg j) = V (lslot lg j)) →
  home_writes lg V' t bs = home_writes lg V t bs.
Proof.
  revert t. induction bs as [|b bs IH]; intros t H; simpl in *; [done|].
  rewrite H by lia. f_equal. apply IH. intros j Hj. apply H. lia.
Qed.

(** The entries [bs] of the log from [t] on. *)
Definition entries (lg : log_t) (nb : Z) (t : nat) (bs : list Z) : Prop :=
  (∀ j b, bs !! j = Some b → lg_block lg !! (t + j)%nat = Some b ∧ home_ok lg nb b) ∧
  Z.of_nat (t + length bs) < lg_size lg.

Lemma entries_cons lg nb t b bs :
  entries lg nb t (b :: bs) →
  lg_block lg !! t = Some b ∧ home_ok lg nb b ∧ Z.of_nat t + 1 < lg_size lg ∧
  entries lg nb (S t) bs.
Proof.
  intros [H Hl]. simpl in Hl. destruct (H 0%nat b eq_refl) as [H0 H1].
  rewrite Nat.add_0_r in H0. split; [done|]. split; [done|]. split; [lia|].
  split; [|lia]. intros j c Hc. destruct (H (S j) c Hc). replace (S t + j)%nat with (t + S j)%nat by lia.
  done.
Qed.

Definition off_log (lg : log_t) (P : gset Z) : Prop := ∀ b, b ∈ P → ¬ in_log lg b.

Lemma slot_in_log lg nb t :
  log_geom lg nb → Z.of_nat t + 1 < lg_size lg → in_log lg (lslot lg t).
Proof. intros (_ & ? & _). unfold in_log, lslot. lia. Qed.

Lemma write_log_loop bs t s V P :
  brep s ∅ V P → log_geom (k_log s) (Z.of_nat (length (k_disk s))) →
  entries (k_log s) (Z.of_nat (length (k_disk s))) t bs →
  off_log (k_log s) P → (size P < NBUF)%nat → (∀ b, b ∈ bs → b ∈ P) →
  ∃ s', for_each (seq t (length bs)) write_log_body s = Done tt s' ∧
    brep s' ∅ (apply_view V (slot_writes (k_log s) V t bs)) P ∧
    lframe s s' (slot_writes (k_log s) V t bs).
Proof.
  revert t s V. induction bs as [|b bs IH]; intros t s V Hrep Hg He Hoff Hroom Hin.
  - exists s. split; [done|]. split; [done|]. apply bframe_lframe, bframe_refl.
  - apply entries_cons in He as (Hb & Hh & Ht & He). cbn [length seq for_each slot_writes].
    assert (Hsl : lslot (k_log s) t ∉ P).
    { intros HP. apply (Hoff _ HP). by eapply slot_in_log. }
    destruct (write_log_body_spec s V P t b) as (s1 & E1 & R1 & F1); try done.
    { apply Hin. set_solver. }
    pose proof (lframe_log _ _ _ F1) as El. pose proof (lframe_disk _ _ _ F1) as Ed.
    assert (Elen : length (k_disk s1) = length (k_disk s)) by (by rewrite Ed, length_apply_writes).
    erewrite bind_done by exact E1.
    destruct (IH (S t) s1 _ R1) as (s2 & E2 & R2 & F2); rewrite ?El, ?Elen; try done; [set_solver|].
    rewrite El in *. rewrite slot_writes_ext with (V := V) in R2, F2.
    2,3: intros c Hc; apply fn_lookup_insert_ne; intros <-; apply Hsl, Hin; set_solver.
    exists s2. split; [done|]. split; [done|].
    by apply (lframe_trans s s1 s2 [(lslot (k_log s) t, V b)]).
Qed.

Lemma install_loop bs t s V P :
  brep s ∅ V P → log_geom (k_log s) (Z.of_nat (length (k_disk s))) →
  entries (k_log s) (Z.of_nat (length (k_disk s))) t bs →
  off_log (k_log s) P → (size P < NBUF)%nat →
  (NoDup bs ∧ ∀ b, b ∈ bs → b ∈ P) ∨ P = ∅ →
  ∃ s', for_each (seq t (length bs)) install_body s = Done tt s' ∧
    brep s' ∅ (apply_view V (home_writes (k_log s) V t bs)) (P ∖ list_to_set bs) ∧
    lframe s s' (home_writes (k_log s) V t bs).
Proof.
  revert t s V P. induction bs as [|b bs IH]; intros t s V P Hrep Hg He Hoff Hroom Hin.
  - exists s. split; [done|]. split; [|apply bframe_lframe, bframe_refl].
    simpl. by rewrite difference_empty_L.
  - pose proof (proj2 He) as Hlt. apply entries_cons in He as (Hb & Hh & Ht & He).
    cbn [length seq for_each home_writes] in *.
    assert (Hsl : lslot (k_log s) t ∉ P).
    { intros HP. apply (Hoff _ HP). by eapply slot_in_log. }
    destruct (install_body_spec s V P t b) as (s1 & E1 & R1 & F1); try done.
    { destruct Hin as [[_ Hin]| ->]; [left; set_solver|right]. rewrite size_empty. unfold NBUF. lia. }
    pose proof (lframe_log _ _ _ F1) as El. pose proof (lframe_disk _ _ _ F1) as Ed.
    assert (Elen : length (k_disk s1) = length (k_disk s)) by (by rewrite Ed, length_apply_writes).
    erewrite bind_done by exact E1.
    destruct (IH (S t) s1 _ _ R1) as (s2 & E2 & R2 & F2); rewrite ?El, ?Elen; try done.
    { intros c Hc. apply Hoff. set_solver. }
    { eapply Nat.le_lt_trans; [|exact Hroom]. apply subseteq_size. set_solver. }
    { destruct Hin as [[Hnd Hin]| ->]; [left|right; set_solver].
      apply NoDup_cons in Hnd as [Hnb Hnd]. split; [done|]. intros c Hc.
      apply elem_of_difference. set_solver. }
    rewrite El in *. rewrite home_writes_ext with (V := V) in R2, F2.
    2,3: intros j Hj; apply fn_lookup_insert_ne; intros ->; apply (proj2 Hh), (slot_in_log _ _ _ Hg); lia.
    exists s2. split; [done|]. split.
    + cbn [list_to_set].
      replace (P ∖ ({[b]} ∪ list_to_set bs)) with (P ∖ {[b]} ∖ list_to_set bs) by set_solver. done.
    + by apply (lframe_trans s s1 s2 [(b, V (lslot (k_log s) t))]).
Qed.

Lemma write_head_loop b bs i s :
  (∀ j c, bs !! j = Some c → lg_block (k_log s) !! (i + j)%nat = Some c) →
  for_each (seq i (length bs)) (λ i,
    blk <- log_block i ;;
    set_buf b (λ bf, with_b_data (wr_int (b_data bf) (4 + 4 * i) blk) bf)) s =
  Done tt (upd_buf b (λ bf, with_b_data (put_blocks i bs (b_data bf)) bf) s).
Proof.
  revert i s. induction bs as [|c bs IH]; intros i s H; cbn [length seq for_each put_blocks].
  - unfold ret. f_equal. destruct (k_bufs s !! b) as [bf|] eqn:Hb.
    + unfold upd_buf. symmetry.
      replace (alter _ b (k_bufs s)) with (k_bufs s); [by destruct s|].
      apply list_eq. intros j. rewrite list_lookup_alter. case_decide; [subst|done].
      rewrite Hb. by destruct bf.
    + unfold upd_buf. replace (alter _ b (k_bufs s)) with (k_bufs s); [by destruct s|].
      apply list_eq. intros j. rewrite list_lookup_alter. case_decide; [subst|done]. by rewrite Hb.
  - erewrite bind_done.
    2:{ erewrite bind_done; [done|]. apply log_block_ok. rewrite <-(Nat.add_0_r i). by apply H. }
    rewrite IH.
    + rewrite upd_buf_twice. done.
    + intros j d Hd. simpl. replace (S (i + j)) with (i + S j)%nat by lia. by apply H.
Qed.

Lemma write_head_spec s V P :
  brep s ∅ V P → log_geom (k_log s) (Z.of_nat (length (k_disk s))) →
  off_log (k_log s) P → (size P < NBUF)%nat → 0 ≤ lg_n (k_log s) ≤ LOGSIZE →
  let h := header (V (lg_start (k_log s))) (lblocks (k_log s)) in
  ∃ s', write_head s = Done tt s' ∧ brep s' ∅ (<[lg_start (k_log s) := h]> V) P ∧
    lframe s s' [(lg_start (k_log s), h)].
Proof.
  intros Hrep Hg Hoff Hroom Hn h. pose proof Hg as (Hdev & Hst & Hsz & Hend & Hmax & Hlb).
  unfold write_head. unfold bind at 1, gets. cbn [obind].
  set (lg := k_log s) in *. rewrite Hdev, u32_small by (unfold is_u32; lia).
  destruct (bread_spec s ∅ V P (lg_start lg)) as (i & s1 & E1 & _ & R1 & F1); [done|lia|done| |].
  { right. rewrite map_size_empty. lia. }
  erewrite bind_done by exact E1. erewrite bind_done by done.
  assert (Hll : length (lblocks lg) = Z.to_nat (lg_n lg)).
  { unfold lblocks. rewrite length_take, Hlb. unfold LOGSIZE, MAXOPBLOCKS in *. lia. }
  rewrite <-Hll. erewrite bind_done.
  2:{ apply write_head_loop. intros j c Hc. simpl. rewrite (bframe_log _ _ F1).
      fold lg. unfold lblocks in Hc. by apply lookup_take_Some in Hc as [? _]. }
  rewrite upd_buf_twice. simpl.
  destruct (held_buf s1 _ V P i (lg_start lg) R1) as (b & Hb & Hi & _ & _ & Hd & _ & Hok & _).
  { apply lookup_insert_eq. }
  assert (Eh : lg_n lg = Z.of_nat (length (lblocks lg))) by lia.
  erewrite (upd_buf_ext i _ (with_b_data h)); [|exact Hb|].
  2:{ rewrite Hd, Eh. done. }
  destruct (bwrite_data s1 _ V P i (lg_start lg) h R1) as (s2 & E2 & R2 & F2).
  { apply lookup_insert_eq. }
  { apply header_ok; [done|]. rewrite Hll. unfold LOGSIZE, MAXOPBLOCKS in *. lia. }
  erewrite bind_done by exact E2.
  rewrite difference_disjoint_L in R2.
  2:{ set_unfold. intros c HP ->. apply (Hoff _ HP). unfold in_log. lia. }
  destruct (brelse_spec s2 _ _ _ i (lg_start lg) R2) as (s3 & E3 & R3 & F3).
  { apply lookup_insert_eq. }
  { right. rewrite (lframe_disk _ _ _ F2), fn_lookup_insert. unfold apply_writes. simpl.
    rewrite list_lookup_insert_eq; [done|]. rewrite (bframe_disk _ _ F1). lia. }
  exists s3. split; [done|]. rewrite delete_held in R3 by done. split; [done|].
  eapply lframe_bframe; [|exact F3]. apply (lframe_trans s s1 s2 []); [by apply bframe_lframe|done].
Qed.

Lemma set_log_block_ok i v s :
  (i < length (lg_block (k_log s)))%nat →
  set_log_block i v s =
    Done tt (upd_log (λ lg, with_lg_block (<[i := v]> (lg_block lg)) lg) s).
Proof.
  intros Hi. destruct (lookup_lt_is_Some_2 _ _ Hi) as [w Hw].
  unfold set_log_block, bind, gets. simpl. by rewrite Hw.
Qed.

Lemma read_head_loop f m i s :
  (i + m ≤ length (lg_block (k_log s)))%nat →
  ∃ bl, for_each (seq i m) (λ j, set_log_block j (f j)) s =
      Done tt (upd_log (with_lg_block bl) s) ∧
    length bl = length (lg_block (k_log s)) ∧
    ∀ j, bl !! j = if decide (i ≤ j < i + m)%nat then Some (f j) else lg_block (k_log s) !! j.
Proof.
  revert i s. induction m as [|m IH]; intros i s Hm; cbn [seq for_each].
  - exists (lg_block (k_log s)). split.
    + unfold ret, upd_log. f_equal. destruct s as []. simpl. f_equal. by destruct k_log.
    + split; [done|]. intros j. by rewrite decide_False by lia.
  - erewrite bind_done by (apply set_log_block_ok; lia).
    destruct (IH (S i) (upd_log (λ lg, with_lg_block (<[i := f i]> (lg_block lg)) lg) s))
      as (bl & E & Hl & Hj).
    { simpl. rewrite length_insert. lia. }
    exists bl. split; [exact E|]. simpl in Hl, Hj. rewrite length_insert in Hl. split; [done|].
    intros j. rewrite Hj. destruct (decide (j = i)) as [->|Hne].
    + rewrite decide_False, decide_True by lia. rewrite list_lookup_insert_eq; [done|lia].
    + rewrite list_lookup_insert_ne by done. repeat case_decide; (done || lia).
Qed.

Lemma bframe_with_log lg s s' : bframe s s' → bframe (with_k_log lg s) (with_k_log lg s').
Proof. intros [E W]. split; [|done]. rewrite E. done. Qed.

Lemma read_head_spec s V P :
  brep s ∅ V P → log_geom (k_log s) (Z.of_nat (length (k_disk s))) →
  off_log (k_log s) P → (size P < NBUF)%nat →
  let d := V (lg_start (k_log s)) in
  0 ≤ lh_n d ≤ LOGSIZE →
  ∃ s' bl, read_head s = Done tt s' ∧ brep s' ∅ V P ∧
    bframe (upd_log (λ lg, with_lg_block bl (with_lg_n (lh_n d) lg)) s) s' ∧
    length bl = length (lg_block (k_log s)) ∧
    take (Z.to_nat (lh_n d)) bl = lh_block d <$> seq 0 (Z.to_nat (lh_n d)).
Proof.
  intros Hrep Hg Hoff Hroom d Hn. pose proof Hg as (Hdev & Hst & Hsz & Hend & Hmax & Hlb).
  unfold read_head. unfold bind at 1, gets. cbn [obind].
  set (lg := k_log s) in *. rewrite Hdev, u32_small by (unfold is_u32; lia).
  destruct (bread_spec s ∅ V P (lg_start lg)) as (i & s1 & E1 & _ & R1 & F1); [done|lia|done| |].
  { right. rewrite map_size_empty. lia. }
  erewrite bind_done by exact E1. pose proof (bframe_log _ _ F1) as El. fold lg in El.
  destruct (held_buf s1 _ V P i (lg_start lg) R1) as (b & Hb & Hi & _ & _ & Hd & _ & Hok & _).
  { apply lookup_insert_eq. }
  erewrite bind_done by (by apply buf_at_ok). rewrite Hd. fold d. erewrite bind_done by done.
  destruct (read_head_loop (lh_block d) (Z.to_nat (lh_n d)) 0 (upd_log (with_lg_n (lh_n d)) s1))
    as (bl & E2 & Hl & Hbl).
  { simpl. rewrite El, Hlb. lia. }
  erewrite bind_done by exact E2. simpl in Hl. rewrite El in Hl.
  set (s2 := upd_log (with_lg_block bl) (upd_log (with_lg_n (lh_n d)) s1)).
  assert (R2 : brep s2 (<[i := lg_start lg]> ∅) V P) by done.
  destruct (brelse_spec s2 _ _ _ i (lg_start lg) R2) as (s3 & E3 & R3 & F3).
  { apply lookup_insert_eq. }
  { right. simpl. rewrite (bframe_disk _ _ F1). destruct Hrep as (pid & _ & Hc).
    apply (bc_clean Hc); [lia| |done]. intros HP. apply (Hoff _ HP). unfold in_log. lia. }
  exists s3, bl. split; [done|]. rewrite delete_held in R3 by done. split; [done|]. split.
  - eapply bframe_trans; [|exact F3]. unfold s2, upd_log. simpl. rewrite El.
    by apply (bframe_with_log _ s s1).
  - split; [done|]. apply list_eq. intros j. rewrite list_lookup_fmap.
    destruct (decide (j < Z.to_nat (lh_n d))%nat) as [Hj|Hj].
    + rewrite lookup_take_lt, Hbl, decide_True, lookup_seq_lt by lia. done.
    + rewrite lookup_take_ge, lookup_seq_ge by lia. done.
Qed.

(** * Commit and recovery *)

(** The log of a file system in use: distinct entries, all of home blocks, and
    exactly those are pinned. *)
Definition log_ok (lg : log_t) (nb : Z) (P : gset Z) : Prop :=
  log_geom lg nb ∧ 0 ≤ lg_n lg < lg_size lg ∧
  NoDup (lblocks lg) ∧ (∀ b, b ∈ lblocks lg → home_ok lg nb b) ∧ list_to_set (lblocks lg) = P.

Lemma length_lblocks lg nb P : log_ok lg nb P → length (lblocks lg) = Z.to_nat (lg_n lg).
Proof.
  intros ((_ & _ & ? & _ & _ & Hl) & ? & _). unfold lblocks. rewrite length_take, Hl. lia.
Qed.

Lemma log_ok_entries lg nb P : log_ok lg nb P → entries lg nb 0 (lblocks lg).
Proof.
  intros Hok. pose proof (length_lblocks _ _ _ Hok) as Hl.
  destruct Hok as (_ & Hn & _ & Hh & _). split; [|lia]. intros j b Hj. split.
  - unfold lblocks in Hj. by apply lookup_take_Some in Hj as [? _].
  - apply Hh. by eapply list_elem_of_lookup_2.
Qed.

Lemma log_ok_off lg nb P : log_ok lg nb P → off_log lg P.
Proof. intros (_ & _ & _ & Hh & <-) b Hb%elem_of_list_to_set. by apply Hh. Qed.

Lemma log_ok_room lg nb P : log_ok lg nb P → (size P < NBUF)%nat.
Proof.
  intros Hok. pose proof (length_lblocks _ _ _ Hok) as Hl.
  destruct Hok as ((_ & _ & Hs & _) & Hn & Hnd & _ & <-).
  rewrite size_list_to_set by done. unfold LOGSIZE, MAXOPBLOCKS, NBUF in *. lia.
Qed.

Lemma room_empty : (size (∅ : gset Z) < NBUF)%nat.
Proof. rewrite size_empty. unfold NBUF. lia. Qed.

Lemma lframe_with_log lg s s' ws :
  lframe s s' ws → lframe (with_k_log lg s) (with_k_log lg s') ws.
Proof. intros (E & W & D & T). split; [|done]. rewrite E. done. Qed.

(** The writes of [commit], and the view they leave. *)
Section commit.
Context (lg : log_t) (V : Z → list Z).
Let bs := lblocks lg.

Definition commit_ws1 : writes := slot_writes lg V 0 bs.
Definition commit_hdr : list Z := header (apply_view V commit_ws1 (lg_start lg)) bs.
Definition commit_V2 : Z → list Z := <[lg_start lg := commit_hdr]> (apply_view V commit_ws1).
Definition commit_ws2 : writes := home_writes lg commit_V2 0 bs.
Definition commit_hdr0 : list Z := header (apply_view commit_V2 commit_ws2 (lg_start lg)) [].

Definition commit_writes : writes :=
  commit_ws1 ++ [(lg_start lg, commit_hdr)] ++ commit_ws2 ++ [(lg_start lg, commit_hdr0)].
End commit.

Lemma commit_run s V P :
  brep s ∅ V P → log_ok (k_log s) (Z.of_nat (length (k_disk s))) P → 0 < lg_n (k_log s) →
  ∃ s', commit s = Done tt s' ∧
    brep s' ∅ (apply_view V (commit_writes (k_log s) V)) ∅ ∧
    lframe (upd_log (with_lg_n 0) s) s' (commit_writes (k_log s) V).
Proof.
  intros Hrep Hlog Hpos. pose proof (length_lblocks _ _ _ Hlog) as Hll.
  pose proof (log_ok_entries _ _ _ Hlog) as He. pose proof (log_ok_off _ _ _ Hlog) as Hoff.
  pose proof (log_ok_room _ _ _ Hlog) as Hroom.
  destruct Hlog as (Hg & Hn & Hnd & Hh & HP).
  unfold commit. unfold bind at 1, gets. cbn [obind]. rewrite (proj2 (Z.ltb_lt _ _) Hpos).
  set (lg := k_log s) in *.
  destruct (write_log_loop (lblocks lg) 0 s V P) as (s1 & E1 & R1 & F1); try done.
  { intros b Hb. rewrite <-HP. by apply elem_of_list_to_set. }
  fold lg in R1, F1. fold (commit_ws1 lg V) in R1, F1.
  pose proof (lframe_log _ _ _ F1) as L1. pose proof (lframe_disk _ _ _ F1) as D1.
  erewrite bind_done.
  2:{ unfold write_log, bind, gets. simpl. fold lg. rewrite <-Hll. exact E1. }
  destruct (write_head_spec s1 _ P R1) as (s2 & E2 & R2 & F2); rewrite ?L1, ?D1, ?length_apply_writes; try done.
  { fold lg. destruct Hg as (_ & _ & ? & _). lia. }
  fold lg in R2, F2. rewrite L1 in R2, F2. fold lg in R2, F2.
  fold (commit_hdr lg V) in R2, F2. fold (commit_V2 lg V) in R2.
  pose proof (lframe_log _ _ _ F2) as L2. pose proof (lframe_disk _ _ _ F2) as D2.
  erewrite bind_done by exact E2.
  destruct (install_loop (lblocks lg) 0 s2 _ P R2) as (s3 & E3 & R3 & F3);
    rewrite ?L2, ?L1, ?D2, ?D1, ?length_apply_writes; try done.
  { left. split; [done|]. intros b Hb. rewrite <-HP. by apply elem_of_list_to_set. }
  rewrite L2, L1 in R3, F3. fold lg in R3, F3. fold (commit_ws2 lg V) in R3, F3.
  pose proof (lframe_log _ _ _ F3) as L3. pose proof (lframe_disk _ _ _ F3) as D3.
  erewrite bind_done.
  2:{ unfold install_trans, bind, gets. simpl. rewrite L2, L1. fold lg. rewrite <-Hll. exact E3. }
  erewrite bind_done by done. rewrite HP, difference_diag_L in R3.
  set (s3' := upd_log (with_lg_n 0) s3).
  destruct (write_head_spec s3' _ ∅ R3) as (s4 & E4 & R4 & F4);
    unfold s3'; simpl; rewrite ?L3, ?L2, ?L1, ?D3, ?D2, ?D1, ?length_apply_writes; try done.
  { exact room_empty. }
  exists s4. split; [exact E4|]. unfold s3' in R4, F4. simpl in R4, F4. rewrite L3, L2, L1 in R4, F4.
  fold lg in R4, F4. unfold lblocks in R4, F4. simpl in R4, F4. fold (commit_hdr0 lg V) in R4, F4.
  split.
  - unfold commit_writes. rewrite !apply_view_app. exact R4.
  - unfold commit_writes. rewrite !app_assoc. eapply lframe_trans; [|exact F4].
    unfold upd_log. rewrite L3, L2, L1. fold lg. apply lframe_with_log.
    eapply lframe_trans; [|exact F3]. eapply lframe_trans; [exact F1|exact F2].
Qed.

Lemma home_writes_start lg lg' V t bs :
  lg_start lg' = lg_start lg → home_writes lg' V t bs = home_writes lg V t bs.
Proof.
  intros E. revert t. induction bs as [|b bs IH]; intros t; simpl; [done|].
  unfold lslot. rewrite E. f_equal. apply IH.
Qed.

(** The entries a header block on the disk lists. *)
Definition hdr_entries (d : list Z) : list Z := lh_block d <$> seq 0 (Z.to_nat (lh_n d)).

Lemma recover_run s V :
  brep s ∅ V ∅ → log_geom (k_log s) (Z.of_nat (length (k_disk s))) →
  let lg := k_log s in
  let d := V (lg_start lg) in
  0 ≤ lh_n d < lg_size lg →
  (∀ b, b ∈ hdr_entries d → home_ok lg (Z.of_nat (length (k_disk s))) b) →
  ∃ s' h, recover_from_log s = Done tt s' ∧ lg_n (k_log s') = 0 ∧
    k_disk s' = apply_writes (k_disk s) (home_writes lg V 0 (hdr_entries d) ++ [(lg_start lg, h)]) ∧
    brep s' ∅ (apply_view V (home_writes lg V 0 (hdr_entries d) ++ [(lg_start lg, h)])) ∅ ∧
    (block_ok (apply_view V (home_writes lg V 0 (hdr_entries d)) (lg_start lg)) → lh_n h = 0).
Proof.
  intros Hrep Hg lg d Hn Hh. pose proof Hg as (_ & _ & Hsz & _ & _ & Hlb). fold lg in Hsz, Hlb.
  unfold recover_from_log.
  destruct (read_head_spec s V ∅ Hrep Hg) as (s1 & bl & E1 & R1 & F1 & Hbl & Htake).
  { done. }
  { exact room_empty. }
  { fold lg d. lia. }
  fold lg d in F1, Htake, Hbl. erewrite bind_done by exact E1.
  pose proof (bframe_log _ _ F1) as L1. pose proof (bframe_disk _ _ F1) as D1. simpl in L1, D1.
  set (lg1 := with_lg_block bl (with_lg_n (lh_n d) lg)). change (k_log s1 = lg1) in L1.
  assert (Hen : length (hdr_entries d) = Z.to_nat (lh_n d)).
  { unfold hdr_entries. by rewrite length_fmap, length_seq. }
  destruct (install_loop (hdr_entries d) 0 s1 V ∅ R1) as (s2 & E2 & R2 & F2).
  { rewrite L1, D1. unfold log_geom in *. unfold lg1. simpl. rewrite Hbl. done. }
  { rewrite L1, D1. split; [|rewrite Hen; change (lg_size lg1) with (lg_size lg); lia]. intros j b Hj. split.
    - simpl. unfold hdr_entries in Hj. rewrite <-Htake in Hj. by apply lookup_take_Some in Hj as [? _].
    - apply (Hh b). by eapply list_elem_of_lookup_2. }
  { done. }
  { exact room_empty. }
  { by right. }
  pose proof (lframe_log _ _ _ F2) as L2. pose proof (lframe_disk _ _ _ F2) as D2.
  rewrite L1 in R2, F2, L2, D2. rewrite (home_writes_start lg lg1) in R2, F2, D2 by done.
  rewrite difference_disjoint_L in R2 by set_solver.
  erewrite bind_done.
  2:{ unfold install_trans, bind, gets. simpl. rewrite L1. simpl. rewrite <-Hen. exact E2. }
  erewrite bind_done by done.
  destruct (write_head_spec (upd_log (with_lg_n 0) s2) _ ∅ R2) as (s3 & E3 & R3 & F3).
  { simpl. rewrite L2, D2, length_apply_writes, D1. unfold log_geom in *. unfold lg1. simpl.
    rewrite Hbl. done. }
  { done. }
  { exact room_empty. }
  { simpl. unfold LOGSIZE, MAXOPBLOCKS. lia. }
  simpl in R3, F3. rewrite L2 in R3, F3. simpl in R3, F3.
  eexists s3, _. split; [exact E3|]. pose proof (lframe_log _ _ _ F3) as L3.
  pose proof (lframe_disk _ _ _ F3) as D3. split; [by rewrite L3|]. split.
  { rewrite D3, apply_writes_app. change (k_disk (upd_log _ s2)) with (k_disk s2).
    rewrite D2, D1. reflexivity. }
  split.
  { rewrite apply_view_app. exact R3. }
  intros Hok. unfold lblocks. simpl. rewrite header_n; [done|exact Hok|simpl; lia].
Qed.

(** * Crashes *)

Lemma slot_writes_fst lg V t bs : (slot_writes lg V t bs).*1 = lslot lg <$> seq t (length bs).
Proof. revert t. induction bs as [|b bs IH]; intros t; simpl; [done|]. by rewrite IH. Qed.

Lemma home_writes_fst lg V t bs : (home_writes lg V t bs).*1 = bs.
Proof. revert t. induction bs as [|b bs IH]; intros t; simpl; [done|]. by rewrite IH. Qed.

Lemma length_slot_writes lg V t bs : length (slot_writes lg V t bs) = length bs.
Proof. revert t. induction bs as [|b bs IH]; intros t; simpl; [done|]. by rewrite IH. Qed.

Lemma slot_writes_lookup lg V t bs j b :
  bs !! j = Some b → (lslot lg (t + j), V b) ∈ slot_writes lg V t bs.
Proof.
  revert t j. induction bs as [|c bs IH]; intros t [|j] Hj; simpl in *; try done.
  - simplify_eq. rewrite Nat.add_0_r. set_solver.
  - apply elem_of_cons. right. replace (t + S j)%nat with (S t + j)%nat by lia. by apply IH.
Qed.

Lemma home_writes_lookup lg V t bs j b :
  bs !! j = Some b → (b, V (lslot lg (t + j))) ∈ home_writes lg V t bs.
Proof.
  revert t j. induction bs as [|c bs IH]; intros t [|j] Hj; simpl in *; try done.
  - simplify_eq. rewrite Nat.add_0_r. set_solver.
  - apply elem_of_cons. right. replace (t + S j)%nat with (S t + j)%nat by lia. by apply IH.
Qed.

Lemma NoDup_slots lg t n : NoDup (lslot lg <$> seq t n).
Proof.
  apply NoDup_fmap_2; [|apply NoDup_seq]. intros i j. unfold lslot. lia.
Qed.

Lemma elem_slots lg t n b :
  b ∈ lslot lg <$> seq t n ↔ ∃ j, (t ≤ j < t + n)%nat ∧ b = lslot lg j.
Proof. rewrite list_elem_of_fmap. setoid_rewrite elem_of_seq. naive_solver. Qed.

(** Recovery puts back what the header on the disk lists, and nothing else. *)
Lemma recovered_home lg nb dk bs h b :
  log_geom lg nb → nb = Z.of_nat (length dk) → NoDup bs → (∀ c, c ∈ bs → home_ok lg nb c) →
  home_ok lg nb b →
  let d' := apply_writes dk (home_writes lg (disk_view dk) 0 bs ++ [(lg_start lg, h)]) in
  (b ∉ bs → d' !! Z.to_nat b = dk !! Z.to_nat b) ∧
  (∀ j, bs !! j = Some b → d' !! Z.to_nat b = Some (disk_view dk (lslot lg j))).
Proof.
  intros Hg Hnb Hnd Hh [Hb Hin] d'. destruct Hg as (_ & Hst & Hsz & _).
  assert (Hne : lg_start lg ≠ b) by (intros <-; apply Hin; unfold in_log; lia).
  assert (E : d' !! Z.to_nat b =
    apply_writes dk (home_writes lg (disk_view dk) 0 bs) !! Z.to_nat b).
  { unfold d'. rewrite apply_writes_app. apply apply_writes_other; [lia| |].
    - intros w ->%list_elem_of_singleton. done.
    - simpl. set_solver. }
  rewrite E. split.
  - intros Hnin. apply apply_writes_other; [lia| |by rewrite home_writes_fst].
    intros [c v] Hw. apply (list_elem_of_fmap_2 fst) in Hw. rewrite home_writes_fst in Hw.
    by apply Hh.
  - intros j Hj. apply apply_writes_elem.
    + by rewrite home_writes_fst.
    + intros [c v] Hw. apply (list_elem_of_fmap_2 fst) in Hw. rewrite home_writes_fst in Hw.
      rewrite <-Hnb. by apply Hh.
    + by apply (home_writes_lookup lg (disk_view dk) 0 bs j b).
Qed.

(** The header on the disk lists no entries. *)
Definition hdr_clear (s : kernel) : Prop :=
  lh_n (disk_view (k_disk s) (lg_start (k_log s))) = 0.

Section crash.
Context (s : kernel) (V : Z → list Z) (P : gset Z).
Let lg := k_log s.
Let nb := Z.of_nat (length (k_disk s)).
Let bs := lblocks lg.
Context (Hrep : brep s ∅ V P) (Hlog : log_ok lg nb P) (Hclear : hdr_clear s).

Lemma crash_bs : NoDup bs ∧ (∀ b, b ∈ bs → home_ok lg nb b) ∧ (length bs ≤ 30)%nat ∧
  Forall is_int bs ∧ list_to_set bs = P.
Proof.
  pose proof (length_lblocks _ _ _ Hlog) as Hl.
  destruct Hlog as ((_ & _ & Hsz & _ & Hmax & _) & Hn & Hnd & Hh & HP).
  split; [done|]. split; [done|]. unfold LOGSIZE, MAXOPBLOCKS in *. split; [unfold bs; lia|].
  split; [|done]. apply Forall_forall. intros b Hb. destruct (Hh b Hb) as [? _]. unfold is_int. lia.
Qed.

Lemma crash_home b : home_ok lg nb b → b ∉ bs → k_disk s !! Z.to_nat b = Some (V b).
Proof.
  intros [Hb _] Hn. destruct Hrep as (pid & _ & Hc). apply (bc_clean Hc); [done| |done].
  destruct crash_bs as (_ & _ & _ & _ & <-). by rewrite elem_of_list_to_set.
Qed.

Lemma crash_start :
  0 ≤ lg_start lg < nb ∧ in_log lg (lg_start lg) ∧
  k_disk s !! Z.to_nat (lg_start lg) = Some (V (lg_start lg)) ∧ block_ok (V (lg_start lg)).
Proof.
  destruct (Hlog) as ((_ & Hst & Hsz & Hend & _) & _). fold nb in Hend.
  assert (Hin : in_log lg (lg_start lg)) by (unfold in_log; lia).
  assert (Hr : 0 ≤ lg_start lg < nb) by lia.
  destruct Hrep as (pid & _ & Hc).
  assert (E : k_disk s !! Z.to_nat (lg_start lg) = Some (V (lg_start lg))).
  { apply (bc_clean Hc); [done| |done]. intros HP. by apply (log_ok_off _ _ _ Hlog _ HP). }
  do 3 (split; [done|]). apply (proj1 (Forall_lookup _ _) (bc_disk Hc) _ _ E).
Qed.

Lemma crash_slots b : b ∈ lslot lg <$> seq 0 (length bs) → in_log lg b ∧ b ≠ lg_start lg ∧ 0 ≤ b < nb.
Proof.
  rewrite elem_slots. intros (j & Hj & ->).
  pose proof (length_lblocks _ _ _ Hlog) as Hl. fold bs in Hl.
  destruct (Hlog) as ((_ & Hst & Hsz & Hend & _) & Hn & _). unfold in_log, lslot, nb in *. lia.
Qed.

Lemma crash_V1 b : ¬ in_log lg b ∨ b = lg_start lg → apply_view V (commit_ws1 lg V) b = V b.
Proof.
  intros Hb. apply apply_view_other. unfold commit_ws1. rewrite slot_writes_fst. intros Hs.
  destruct (crash_slots b Hs) as (? & ? & _). tauto.
Qed.

Lemma crash_hdr : block_ok (commit_hdr lg V) ∧ hdr_entries (commit_hdr lg V) = bs ∧
  lh_n (commit_hdr lg V) = Z.of_nat (length bs).
Proof.
  destruct crash_bs as (_ & _ & Hl & Hi & _). destruct crash_start as (_ & _ & _ & Hok).
  unfold commit_hdr. rewrite crash_V1 by (by right). fold bs.
  assert (En : lh_n (header (V (lg_start lg)) bs) = Z.of_nat (length bs)) by (by apply header_n).
  split; [by apply header_ok|]. split; [|done]. unfold hdr_entries. rewrite En, Nat2Z.id.
  by apply header_blocks.
Qed.

(** The values installed are those of the transaction. *)
Lemma crash_V2 j b : bs !! j = Some b → commit_V2 lg V (lslot lg j) = V b.
Proof.
  intros Hj. unfold commit_V2.
  assert (Hs : lslot lg j ∈ lslot lg <$> seq 0 (length bs)).
  { apply elem_slots. exists j. apply lookup_lt_Some in Hj. split; [lia|done]. }
  destruct (crash_slots _ Hs) as (_ & Hne & _). rewrite fn_lookup_insert_ne by congruence.
  apply apply_view_elem; unfold commit_ws1.
  - rewrite slot_writes_fst. apply NoDup_slots.
  - by apply (slot_writes_lookup lg V 0 bs j b).
Qed.

Lemma crash_hdr0 : lh_n (commit_hdr0 lg V) = 0.
Proof.
  unfold commit_hdr0. rewrite header_n; [done| |simpl; lia].
  destruct crash_bs as (_ & Hh & _). destruct crash_start as (_ & Hin & _ & _).
  rewrite apply_view_other.
  - unfold commit_V2. rewrite fn_lookup_insert. apply crash_hdr.
  - unfold commit_ws2. rewrite home_writes_fst. intros Hb. by apply (Hh _ Hb).
Qed.

(** The block a prefix of the writes leaves, where the prefix does not write. *)
Lemma crash_other ws b :
  0 ≤ b → (∀ c, c ∈ ws.*1 → 0 ≤ c) → b ∉ ws.*1 →
  disk_view (apply_writes (k_disk s) ws) b = disk_view (k_disk s) b ∧
  apply_writes (k_disk s) ws !! Z.to_nat b = k_disk s !! Z.to_nat b.
Proof.
  intros Hb Hpos Hn. assert (E : apply_writes (k_disk s) ws !! Z.to_nat b = k_disk s !! Z.to_nat b).
  { apply apply_writes_other; [done| |done]. intros w Hw. apply Hpos. by apply list_elem_of_fmap_2. }
  unfold disk_view. by rewrite E.
Qed.

Lemma slot_writes_pos c : c ∈ (commit_ws1 lg V).*1 → 0 ≤ c < nb ∧ in_log lg c ∧ c ≠ lg_start lg.
Proof. unfold commit_ws1. rewrite slot_writes_fst. intros Hs. destruct (crash_slots c Hs). naive_solver. Qed.

Lemma home_writes_pos c : c ∈ (commit_ws2 lg V).*1 → home_ok lg nb c.
Proof. unfold commit_ws2. rewrite home_writes_fst. apply crash_bs. Qed.

(** Before the commit point: the header is clear and home is untouched. *)
Lemma crash_before k dk :
  dk = apply_writes (k_disk s) (take k (commit_ws1 lg V)) →
  hdr_entries (disk_view dk (lg_start lg)) = [] ∧ lh_n (disk_view dk (lg_start lg)) = 0 ∧
  ∀ b, home_ok lg nb b → dk !! Z.to_nat b = k_disk s !! Z.to_nat b.
Proof.
  intros ->. destruct crash_start as (Hst & Hin & _).
  assert (Hsub : ∀ c, c ∈ (take k (commit_ws1 lg V)).*1 → c ∈ (commit_ws1 lg V).*1).
  { intros c. rewrite fmap_take. apply subseteq_take. }
  destruct (crash_other (take k (commit_ws1 lg V)) (lg_start lg)) as [Ev _]; [lia| | |].
  { intros c Hc%Hsub%slot_writes_pos. lia. }
  { intros Hc%Hsub%slot_writes_pos. naive_solver. }
  rewrite Ev. unfold hdr_entries. unfold hdr_clear in Hclear. fold lg in Hclear. rewrite Hclear.
  split; [done|]. split; [done|]. intros b [Hb Hnl]. apply crash_other; [lia| |].
  - intros c Hc%Hsub%slot_writes_pos. lia.
  - intros Hc%Hsub%slot_writes_pos. naive_solver.
Qed.

(** Between the commit point and the end of the installation: the header
    lists the transaction, its blocks are in the log. *)
Lemma crash_after k dk :
  dk = apply_writes (k_disk s)
    (commit_ws1 lg V ++ [(lg_start lg, commit_hdr lg V)] ++ take k (commit_ws2 lg V)) →
  disk_view dk (lg_start lg) = commit_hdr lg V ∧
  (∀ j b, bs !! j = Some b → disk_view dk (lslot lg j) = V b) ∧
  ∀ b, home_ok lg nb b → b ∉ bs → dk !! Z.to_nat b = Some (V b).
Proof.
  intros Edk. rewrite apply_writes_app in Edk. simpl in Edk.
  set (d1 := apply_writes (k_disk s) (commit_ws1 lg V)) in *.
  change (dk = apply_writes (<[Z.to_nat (lg_start lg) := commit_hdr lg V]> d1) (take k (commit_ws2 lg V))) in Edk.
  destruct crash_start as (Hst & Hin & _). pose proof crash_bs as (Hnd & Hh & _).
  assert (Hsub : ∀ c, c ∈ (take k (commit_ws2 lg V)).*1 → c ∈ bs).
  { intros c. rewrite fmap_take. unfold commit_ws2. rewrite home_writes_fst. apply subseteq_take. }
  assert (Hoth : ∀ b, 0 ≤ b → b ∉ bs → dk !! Z.to_nat b =
    <[Z.to_nat (lg_start lg) := commit_hdr lg V]> d1 !! Z.to_nat b).
  { intros b Hb Hn. rewrite Edk. apply apply_writes_other; [done| |by intros ?%Hsub].
    intros w Hw. apply (list_elem_of_fmap_2 fst), Hsub, Hh in Hw. apply Hw. }
  assert (Hlen : length d1 = length (k_disk s)) by apply length_apply_writes.
  assert (Hlog_nb : ∀ b, in_log lg b → b ∉ bs) by (intros b Hb Hbs; by apply (Hh b Hbs)).
  split; [|split].
  - unfold disk_view. rewrite Hoth, list_lookup_insert_eq; [done|unfold nb in *; lia|lia|by apply Hlog_nb].
  - intros j b Hj.
    assert (Hs : lslot lg j ∈ lslot lg <$> seq 0 (length bs)).
    { apply elem_slots. exists j. apply lookup_lt_Some in Hj. split; [lia|done]. }
    destruct (crash_slots _ Hs) as (Hsl & Hne & Hr).
    unfold disk_view. rewrite Hoth, list_lookup_insert_ne by (lia || by apply Hlog_nb).
    unfold d1, commit_ws1. rewrite (apply_writes_elem _ _ _ (V b)); [done| | |].
    + rewrite slot_writes_fst. apply NoDup_slots.
    + intros w Hw. apply (list_elem_of_fmap_2 fst), slot_writes_pos in Hw. apply Hw.
    + by apply (slot_writes_lookup lg V 0 bs j b).
  - intros b [Hb Hnl] Hn. assert (b ≠ lg_start lg) by (intros ->; done).
    rewrite Hoth, list_lookup_insert_ne by (done || lia).
    rewrite <-(crash_home b) by done. apply crash_other; [lia| |].
    + intros c Hc%slot_writes_pos. lia.
    + intros Hc%slot_writes_pos. naive_solver.
Qed.

(** At the end: the header is clear and home holds the transaction. *)
Lemma crash_end dk :
  dk = apply_writes (k_disk s) (commit_writes lg V) →
  lh_n (disk_view dk (lg_start lg)) = 0 ∧
  ∀ b, home_ok lg nb b → dk !! Z.to_nat b = Some (V b).
Proof.
  intros Edk. destruct crash_start as (Hst & Hin & _). pose proof crash_bs as (Hnd & Hh & _).
  set (ws := commit_ws1 lg V ++ [(lg_start lg, commit_hdr lg V)]).
  set (d2 := apply_writes (k_disk s) (ws ++ commit_ws2 lg V)).
  assert (E2 : dk = <[Z.to_nat (lg_start lg) := commit_hdr0 lg V]> d2).
  { rewrite Edk. unfold commit_writes, d2, ws. rewrite !app_assoc, apply_writes_app. done. }
  assert (Hlen : length d2 = length (k_disk s)) by apply length_apply_writes.
  split.
  { unfold disk_view. rewrite E2, list_lookup_insert_eq by (unfold nb in *; lia). apply crash_hdr0. }
  intros b Hb. pose proof Hb as [Hr Hnl]. assert (b ≠ lg_start lg) by (intros ->; done).
  rewrite E2, list_lookup_insert_ne by lia.
  destruct (decide (b ∈ bs)) as [[j Hj]%list_elem_of_lookup|Hn].
  - unfold d2. rewrite apply_writes_app. apply apply_writes_elem.
    + unfold commit_ws2. by rewrite home_writes_fst.
    + intros w Hw. rewrite length_apply_writes.
      apply (list_elem_of_fmap_2 fst), home_writes_pos in Hw. apply Hw.
    + rewrite <-(crash_V2 j b Hj). by apply (home_writes_lookup lg _ 0 bs j b).
  - destruct (crash_after (length (commit_ws2 lg V)) d2) as (_ & _ & Ho); [|by apply Ho].
    rewrite take_ge by done. unfold d2, ws. by rewrite <-app_assoc.
Qed.

(** A prefix of the writes of [commit] is one of these. *)
Lemma commit_prefix k :
  let ws := take k (commit_writes lg V) in
  ((k ≤ length bs)%nat ∧ ws = take k (commit_ws1 lg V)) ∨
  ((length bs < k)%nat ∧ ∃ j,
     ws = commit_ws1 lg V ++ [(lg_start lg, commit_hdr lg V)] ++ take j (commit_ws2 lg V)) ∨
  ((length bs < k)%nat ∧ ws = commit_writes lg V).
Proof.
  assert (L1 : length (commit_ws1 lg V) = length bs) by apply length_slot_writes.
  simpl. unfold commit_writes. rewrite !take_app, L1.
  destruct (decide (k ≤ length bs)%nat) as [Hk|Hk].
  - left. split; [done|]. replace (k - length bs)%nat with 0%nat by lia. simpl. by rewrite app_nil_r.
  - right. rewrite (take_ge (commit_ws1 lg V)) by lia. simpl.
    destruct (k - length bs)%nat as [|m] eqn:Em; [lia|]. simpl.
    rewrite Nat.sub_0_r. destruct (m - length (commit_ws2 lg V))%nat as [|m'] eqn:Em'.
    + left. split; [lia|]. exists m. simpl. by rewrite take_nil, app_nil_r.
    + right. split; [lia|]. rewrite (take_ge (commit_ws2 lg V)) by lia. simpl. by rewrite !take_nil.
Qed.

(** The header such a prefix leaves is clear, or lists the transaction. *)
Lemma crash_entries k :
  let hd := disk_view (apply_writes (k_disk s) (take k (commit_writes lg V))) (lg_start lg) in
  (hdr_entries hd = [] ∧ lh_n hd = 0) ∨ (hdr_entries hd = bs ∧ lh_n hd = Z.of_nat (length bs)).
Proof.
  intros hd. set (dk := apply_writes _ _) in hd.
  destruct (commit_prefix k) as [[Hk E]|[[Hk [j E]]|[Hk E]]].
  - left. destruct (crash_before k dk) as (? & ? & _); [|done]. unfold dk. by rewrite E.
  - right. destruct (crash_after j dk) as (Ev & _); [unfold dk; by rewrite E|].
    destruct crash_hdr as (_ & E1 & E2). unfold hd. by rewrite Ev.
  - left. destruct (crash_end dk) as (E0 & _); [unfold dk; by rewrite E|].
    unfold hd, hdr_entries. by rewrite E0.
Qed.
End crash.

(** A machine that boots with the disk [d]: nothing is cached, and the log is
    where it was. *)
Definition rebooted (lg : log_t) (d : list (list Z)) (r : kernel) : Prop :=
  k_disk r = d ∧ brep r ∅ (disk_view d) ∅ ∧
  log_geom (k_log r) (Z.of_nat (length d)) ∧
  lg_start (k_log r) = lg_start lg ∧ lg_size (k_log r) = lg_size lg.

(** Recovery after a crash at write [k] of a commit. *)
Lemma recover_after_crash s V P k r :
  brep s ∅ V P → log_ok (k_log s) (Z.of_nat (length (k_disk s))) P → hdr_clear s →
  rebooted (k_log s) (apply_writes (k_disk s) (take k (commit_writes (k_log s) V))) r →
  ∃ r', recover_from_log r = Done tt r' ∧
    ∀ b, home_ok (k_log s) (Z.of_nat (length (k_disk s))) b →
      k_disk r' !! Z.to_nat b =
        if decide (k ≤ length (lblocks (k_log s)))%nat then k_disk s !! Z.to_nat b else Some (V b).
Proof.
  intros Hrep Hlog Hclear (Hd & Hr & Hgr & Est & Esz).
  set (dk := apply_writes _ _) in *.
  assert (Hlen : length dk = length (k_disk s)) by apply length_apply_writes.
  set (lg := k_log s) in *. set (bs := lblocks lg).
  destruct (crash_bs s P) as (Hnd & Hh & Hl & _ & _); try done. fold lg bs in Hnd, Hh, Hl.
  assert (Hhome : ∀ nb b, home_ok (k_log r) nb b ↔ home_ok lg nb b).
  { intros nb b. unfold home_ok, in_log. by rewrite Est, Esz. }
  set (e := hdr_entries (disk_view dk (lg_start lg))).
  pose proof (crash_entries s V P Hrep Hlog Hclear k) as Hcase. cbv zeta in Hcase.
  fold lg in Hcase. fold dk bs in Hcase. fold e in Hcase.
  assert (He : NoDup e ∧ ∀ b, b ∈ e → home_ok lg (Z.of_nat (length dk)) b).
  { rewrite Hlen. destruct Hcase as [[-> _]|[-> _]]; [|done].
    split; [constructor|]. intros b Hb. by apply not_elem_of_nil in Hb. }
  pose proof (length_lblocks _ _ _ Hlog) as Hn. fold bs in Hn. pose proof Hlog as (Hg & Hlt & _).
  destruct (recover_run r (disk_view dk) Hr) as (r' & h & E' & _ & Ed & _).
  { by rewrite Hd. }
  { rewrite Est, Esz. destruct Hcase as [[_ ->]|[_ ->]]; lia. }
  { rewrite Est, Hd. intros b Hb. apply Hhome. by apply He. }
  exists r'. split; [done|]. intros b Hb. rewrite Ed, Hd, Est. fold e.
  rewrite (home_writes_start lg) by done.
  destruct (recovered_home lg (Z.of_nat (length dk)) dk e h b) as [Hno Hyes].
  { by rewrite Hlen. }
  { done. }
  { apply He. }
  { apply He. }
  { by rewrite Hlen. }
  destruct (commit_prefix s V k) as [[Hk E]|[[Hk [j E]]|[Hk E]]]; fold lg bs in E, Hk.
  - rewrite decide_True by done.
    destruct (crash_before s V P Hrep Hlog Hclear k dk) as (Ee & _ & Ho); [unfold dk; by rewrite E|].
    fold lg e in Ee. rewrite Hno by (rewrite Ee; apply not_elem_of_nil). by apply Ho.
  - rewrite decide_False by lia.
    destruct (crash_after s V P Hrep Hlog j dk) as (Ev & Hs & Ho); [unfold dk; by rewrite E|].
    destruct (crash_hdr s V P Hrep Hlog) as (_ & E1 & _). fold lg in Ev, E1, Hs. fold bs in E1, Ho, Hs.
    assert (Ee : e = bs) by (unfold e; by rewrite Ev). rewrite Ee in Hno, Hyes |- *.
    destruct (decide (b ∈ bs)) as [[i Hi]%list_elem_of_lookup|Hnb].
    + rewrite (Hyes i Hi). f_equal. by apply Hs.
    + rewrite Hno by done. by apply Ho.
  - rewrite decide_False by lia.
    destruct (crash_end s V P Hrep Hlog dk) as (E0 & Ho); [unfold dk; by rewrite E|].
    fold lg in E0. rewrite Hno; [by apply Ho|]. unfold e, hdr_entries. rewrite E0. apply not_elem_of_nil.
Qed.

Lemma commit_none s : lg_n (k_log s) ≤ 0 → commit s = Done tt s.
Proof. intros H. unfold commit, bind, gets. simpl. by rewrite (proj2 (Z.ltb_ge _ _)). Qed.

(** The view of the home blocks survives the commit. *)
Lemma commit_view s V P b :
  brep s ∅ V P → log_ok (k_log s) (Z.of_nat (length (k_disk s))) P → ¬ in_log (k_log s) b →
  apply_view V (commit_writes (k_log s) V) b = V b.
Proof.
  intros Hrep Hlog Hb. destruct (crash_bs s P Hlog) as (Hnd & Hh & _).
  destruct (crash_start s V P Hrep Hlog) as (_ & Hin & _ & _).
  assert (b ≠ lg_start (k_log s)) by (intros ->; done).
  unfold commit_writes. rewrite !apply_view_app.
  rewrite apply_view_other by (simpl; set_solver).
  destruct (decide (b ∈ lblocks (k_log s))) as [[j Hj]%list_elem_of_lookup|Hn].
  - apply apply_view_elem.
    + unfold commit_ws2. by rewrite home_writes_fst.
    + rewrite <-(crash_V2 s V P Hlog j b Hj). by apply (home_writes_lookup _ _ 0 _ j b).
  - rewrite apply_view_other by (unfold commit_ws2; by rewrite home_writes_fst).
    rewrite apply_view_other by (simpl; set_solver). apply (crash_V1 s V P Hlog). by left.
Qed.

Lemma commit_spec s V P :
  brep s ∅ V P → log_ok (k_log s) (Z.of_nat (length (k_disk s))) P → hdr_clear s →
  ∃ s' V' ws, commit s = Done tt s' ∧ brep s' ∅ V' ∅ ∧
    lframe (upd_log (with_lg_n 0) s) s' ws ∧ hdr_clear s' ∧
    (∀ b, ¬ in_log (k_log s) b → V' b = V b).
Proof.
  intros Hrep Hlog Hclear. destruct (decide (0 < lg_n (k_log s))) as [Hpos|Hz].
  - destruct (commit_run s V P Hrep Hlog Hpos) as (s' & E & R & F).
    exists s', (apply_view V (commit_writes (k_log s) V)), (commit_writes (k_log s) V).
    split; [done|]. split; [done|]. split; [done|]. split.
    + unfold hdr_clear. rewrite (lframe_disk _ _ _ F), (lframe_log _ _ _ F).
      by apply (crash_end s V P Hrep Hlog).
    + intros b Hb. by apply (commit_view s V P).
  - exists s, V, []. pose proof (proj1 (proj2 Hlog)) as Hn.
    assert (E0 : lg_n (k_log s) = 0) by lia.
    split; [by apply commit_none; lia|]. split.
    + replace (∅ : gset Z) with P; [done|].
      destruct Hlog as (_ & _ & _ & _ & <-). unfold lblocks. by rewrite E0.
    + split; [|done]. assert (Es : upd_log (with_lg_n 0) s = s).
      { unfold upd_log. replace (with_lg_n 0 (k_log s)) with (k_log s); [by destruct s|].
        rewrite <-E0. by destruct (k_log s). }
      rewrite Es. apply bframe_lframe, bframe_refl.
Qed.

(** C1: A commit is atomic with respect to crashes.  [commit] returns, having
    made a sequence [ws] of block writes; stop the disk after any prefix of
    them, reboot, and [recover_from_log] returns with a disk whose blocks
    outside the log hold either all the old contents (the crash came before
    the header was written) or all those of the transaction (it came after). *)
Theorem commit_crash_atomic s V P :
  brep s ∅ V P → log_ok (k_log s) (Z.of_nat (length (k_disk s))) P → hdr_clear s →
  ∃ s' ws, commit s = Done tt s' ∧
    k_dtrace s' = reverse ws ++ k_dtrace s ∧ k_disk s' = apply_writes (k_disk s) ws ∧
    ∀ k r, rebooted (k_log s) (apply_writes (k_disk s) (take k ws)) r →
      ∃ r', recover_from_log r = Done tt r' ∧
        ((k ≤ length (lblocks (k_log s)))%nat →
           ∀ b, home_ok (k_log s) (Z.of_nat (length (k_disk s))) b →
             k_disk r' !! Z.to_nat b = k_disk s !! Z.to_nat b) ∧
        ((length (lblocks (k_log s)) < k)%nat →
           ∀ b, home_ok (k_log s) (Z.of_nat (length (k_disk s))) b →
             k_disk r' !! Z.to_nat b = Some (V b)).
Proof.
  intros Hrep Hlog Hclear. pose proof (length_lblocks _ _ _ Hlog) as Hl.
  destruct (decide (0 < lg_n (k_log s))) as [Hpos|Hz].
  - destruct (commit_run s V P Hrep Hlog Hpos) as (s' & E & _ & _ & _ & D & T).
    exists s', (commit_writes (k_log s) V). split; [done|]. split; [done|]. split; [done|].
    intros k r Hr. destruct (recover_after_crash s V P k r) as (r' & E' & Hb); try done.
    exists r'. split; [done|]. split; intros Hk b Hhome; rewrite (Hb b Hhome).
    + by rewrite decide_True.
    + rewrite decide_False; [done|lia].
  - exists s, []. split; [apply commit_none; lia|]. split; [done|]. split; [done|].
    intros k r Hr. rewrite take_nil in Hr.
    destruct (recover_after_crash s V P 0 r) as (r' & E' & Hb); try done.
    exists r'. split; [done|]. split; intros Hk b Hhome; rewrite (Hb b Hhome), decide_True by lia.
    + done.
    + apply (crash_home s V P Hrep Hlog b Hhome). destruct (lblocks (k_log s)); [set_solver|].
      simpl in Hl. lia.
Qed.

(** * Writing inside a transaction *)

(** The log after [log_write] of block [b]. *)
Definition logged (lg : log_t) (b : Z) : log_t :=
  if decide (b ∈ lblocks lg) then lg
  else with_lg_n (lg_n lg + 1) (with_lg_block (<[Z.to_nat (lg_n lg) := b]> (lg_block lg)) lg).

Lemma lblocks_logged lg nb P b :
  log_ok lg nb P →
  lblocks (logged lg b) = if decide (b ∈ lblocks lg) then lblocks lg else lblocks lg ++ [b].
Proof.
  intros Hok. unfold logged. case_decide; [done|].
  destruct Hok as ((_ & _ & Hsz & _ & _ & Hl) & Hn & _). unfold lblocks. simpl.
  replace (Z.to_nat (lg_n lg + 1)) with (S (Z.to_nat (lg_n lg))) by lia.
  rewrite (take_S_r _ _ b).
  - by rewrite take_insert_ge.
  - apply list_lookup_insert_eq. lia.
Qed.

Lemma log_ok_logged lg nb P b :
  log_ok lg nb P → home_ok lg nb b → lg_n lg < lg_size lg - 1 →
  log_ok (logged lg b) nb ({[b]} ∪ P).
Proof.
  intros Hok Hb Hn. pose proof (lblocks_logged lg nb P b Hok) as E.
  destruct Hok as (Hg & Hn' & Hnd & Hh & HP).
  assert (Hfields : lg_start (logged lg b) = lg_start lg ∧ lg_size (logged lg b) = lg_size lg ∧
    lg_dev (logged lg b) = lg_dev lg ∧ length (lg_block (logged lg b)) = length (lg_block lg) ∧
    lg_n lg ≤ lg_n (logged lg b) ≤ lg_n lg + 1).
  { unfold logged. case_decide; simpl; rewrite ?length_insert; auto with lia. }
  destruct Hfields as (E1 & E2 & E3 & E4 & E5).
  split; [|split; [|split; [|split]]].
  - unfold log_geom in *. rewrite E1, E2, E3, E4. done.
  - rewrite E2. lia.
  - rewrite E. case_decide as Hin; [done|]. apply NoDup_app. split; [done|].
    split; [set_solver|apply NoDup_singleton].
  - intros c. rewrite E. unfold home_ok, in_log. rewrite E1, E2. fold (in_log lg c).
    case_decide; [apply Hh|]. rewrite elem_of_app, list_elem_of_singleton.
    intros [Hc| ->]; [by apply Hh|done].
  - rewrite E, <-HP. case_decide; [set_solver|]. rewrite list_to_set_app_L. set_solver.
Qed.

Lemma log_find lg nb P b :
  log_ok lg nb P → home_ok lg nb b →
  let n := Z.to_nat (lg_n lg) in
  let i := default n (find_index (λ x, u32 x =? b) (take n (lg_block lg))) in
  (i < length (lg_block lg))%nat ∧
  (if decide (b ∈ lblocks lg) then lblocks lg !! i = Some b ∧ i ≠ n else i = n).
Proof.
  intros Hok Hb n i. pose proof (length_lblocks _ _ _ Hok) as Hl.
  destruct Hok as ((_ & _ & Hsz & _ & Hmax & Hlen) & Hn & _ & Hh & _).
  assert (Hu : ∀ x, x ∈ lblocks lg → u32 x = x).
  { intros x Hx. destruct (Hh x Hx) as [? _]. apply u32_small. unfold is_u32. lia. }
  assert (Hi : i = default n (find_index (λ x, u32 x =? b) (lblocks lg))) by done.
  destruct (find_index (λ x, u32 x =? b) (lblocks lg)) as [j|] eqn:E; simpl in Hi.
  - pose proof (find_index_lt _ _ _ E) as Hj.
    apply find_index_Some in E as [(x & Hx & Hxb) _].
    pose proof (list_elem_of_lookup_2 _ _ _ Hx) as Hin. rewrite Hu in Hxb by done.
    apply Z.eqb_eq in Hxb as ->. rewrite Hi. split; [unfold LOGSIZE, MAXOPBLOCKS in *; lia|].
    rewrite decide_True by done. split; [done|lia].
  - rewrite Hi. split; [lia|]. rewrite decide_False; [done|]. intros Hin.
    apply list_elem_of_lookup in Hin as [j Hj]. pose proof (proj1 (find_index_None _ _) E j b Hj) as Hf.
    simpl in Hf. rewrite Hu, Z.eqb_refl in Hf; [done|]. by eapply list_elem_of_lookup_2.
Qed.

(** [log_write] pins the block and records it once. *)
Lemma log_write_spec s H V P i b :
  brep s H V P → log_ok (k_log s) (Z.of_nat (length (k_disk s))) P → unlocked LLog s →
  H !! i = Some b → ¬ in_log (k_log s) b →
  1 ≤ lg_outstanding (k_log s) → lg_n (k_log s) < lg_size (k_log s) - 1 →
  ∃ s', log_write i s = Done tt s' ∧ brep s' H V ({[b]} ∪ P) ∧
    log_ok (k_log s') (Z.of_nat (length (k_disk s'))) ({[b]} ∪ P) ∧
    s' = with_k_log (logged (k_log s) b) (with_k_bufs (k_bufs s') s).
Proof.
  intros Hrep Hlog Hul HH Hnl Hout Hn.
  destruct (held_buf _ _ _ _ _ _ Hrep HH) as (bf & Hbf & _ & _ & Hbn & _ & _ & _ & Hr & _).
  assert (Hhome : home_ok (k_log s) (Z.of_nat (length (k_disk s))) b) by done.
  pose proof (log_ok_logged _ _ _ b Hlog Hhome Hn) as Hlog'.
  destruct (log_find _ _ _ b Hlog Hhome) as [Hi Hcase].
  assert (Hkok : kok s) by (destruct Hrep as (pid & (? & _) & _); done).
  pose proof Hlog as ((_ & _ & Hsz & _ & Hmax & _) & Hn0 & _).
  set (s1 := with_k_log (logged (k_log s) b) s).
  set (f := λ b : buf, with_b_flags (Z.lor (b_flags b) B_DIRTY) b).
  exists (upd_buf i f s1). split; [|split; [|split; [done|done]]].
  2:{ by apply (pin_spec s1). }
  unfold log_write. unfold bind at 1, gets. cbn [obind].
  rewrite (proj2 (Z.leb_gt LOGSIZE _)), (proj2 (Z.leb_gt (_ - 1) _)), (proj2 (Z.ltb_ge _ 1)) by lia.
  cbn [orb]. run kacquire_ok. erewrite bind_done by (by apply buf_at_ok).
  unfold bind at 1. cbn [obind]. change (k_log (enter LLog s)) with (k_log s).
  rewrite Hbn. set (j := default _ _) in *.
  erewrite bind_done by (by apply set_log_block_ok).
  assert (Es32 : s32 b = b) by (apply s32_small; lia). rewrite Es32.
  assert (E1 : (if (j =? Z.to_nat (lg_n (k_log s)))%nat
     then modify (upd_log (λ lg, with_lg_n (lg_n lg + 1) lg)) else ret tt)
    (upd_log (λ lg, with_lg_block (<[j := b]> (lg_block lg)) lg) (enter LLog s)) =
    Done tt (enter LLog s1)).
  { unfold s1, logged. case_decide as Hin.
    - destruct Hcase as [Hj Hne]. rewrite (proj2 (Nat.eqb_neq _ _)) by done.
      unfold ret, upd_log. simpl. unfold lblocks in Hj. apply lookup_take_Some in Hj as [Hj _].
      rewrite list_insert_id by done. destruct s as []; simpl in *. unfold enter. simpl.
      unfold with_k_log. simpl. do 3 f_equal. by destruct k_log.
    - rewrite Hcase, Nat.eqb_refl. done. }
  erewrite bind_done by exact E1. erewrite bind_done by done. fold f.
  rewrite krelease_ok by (unfold upd_buf; eauto with kernel).
  change (leave LLog (upd_buf i f (enter LLog s1))) with (upd_buf i f (leave LLog (enter LLog s1))).
  by rewrite leave_enter.
Qed.

Lemma brep_kok s H V P : brep s H V P → kok s ∧ unlocked LPtable s.
Proof. by intros (pid & (? & _ & ? & _) & _). Qed.

Lemma brep_wake s H V P ch : brep s H V P → brep (with_k_ptable (wake ch <$> k_ptable s) s) H V P.
Proof.
  intros (pid & He & Hc). exists pid. split; [|done].
  apply (benv_frame s); [done|apply woken_wake|done].
Qed.

(** On a clean cache the disk is the view. *)
Lemma brep_clean s V b :
  brep s ∅ V ∅ → 0 ≤ b < Z.of_nat (length (k_disk s)) → k_disk s !! Z.to_nat b = Some (V b).
Proof. intros (pid & _ & Hc) Hb. apply (bc_clean Hc); [done|set_solver|done]. Qed.

Definition add_op (k : Z) (s : kernel) : kernel :=
  upd_log (λ lg, with_lg_outstanding (lg_outstanding lg + k) lg) s.

Lemma begin_op_ok s :
  kok s → unlocked LLog s → lg_committing (k_log s) = 0 →
  lg_n (k_log s) + (lg_outstanding (k_log s) + 1) * MAXOPBLOCKS ≤ LOGSIZE →
  begin_op s = Done tt (add_op 1 s).
Proof.
  intros Hok Hul Hc Hres. unfold begin_op. run kacquire_ok. erewrite bind_done by done.
  cbn [begin_loop]. unfold bind at 1, gets. cbn [obind].
  change (k_log (enter LLog s)) with (k_log s). rewrite Hc. cbn [negb Z.eqb].
  rewrite (proj2 (Z.ltb_ge _ _)) by lia. erewrite bind_done by done.
  rewrite krelease_ok by (unfold upd_log; eauto with kernel).
  change (leave LLog (upd_log ?f (enter LLog s))) with (upd_log f (leave LLog (enter LLog s))).
  by rewrite leave_enter.
Qed.

(** With no room, or during a commit, [begin_op] sleeps on the log. *)
Lemma begin_op_waits s p pr :
  kok s → Crit.ncli_of (k_hart s) = 0 → unlocked LLog s → unlocked LPtable s → running s p pr →
  lg_committing (k_log s) ≠ 0 ∨
  LOGSIZE < lg_n (k_log s) + (lg_outstanding (k_log s) + 1) * MAXOPBLOCKS →
  ∃ k, begin_op s = Swtch (enter LPtable (asleep p ChLog s)) k.
Proof.
  intros Hok Hn Hul Hpt Hrun Hwait. unfold begin_op. run kacquire_ok.
  erewrite bind_done by done. cbn [begin_loop]. unfold bind at 1, gets. cbn [obind].
  change (k_log (enter LLog s)) with (k_log s).
  destruct (Z.eqb_spec (lg_committing (k_log s)) 0) as [E|E]; cbn [negb].
  - rewrite (proj2 (Z.ltb_lt _ _)) by lia. unfold bind at 1.
    rewrite (sleep_swtch _ _ _ p pr) by done. simpl. eauto.
  - unfold bind at 1. rewrite (sleep_swtch _ _ _ p pr) by done. simpl. eauto.
Qed.

Lemma end_op_more s :
  kok s → unlocked LLog s → unlocked LPtable s → lg_committing (k_log s) = 0 →
  lg_outstanding (k_log s) ≠ 1 →
  end_op s = Done tt (with_k_ptable (wake ChLog <$> k_ptable s) (add_op (-1) s)).
Proof.
  intros Hok Hul Hpt Hc Ho. unfold end_op. run kacquire_ok. erewrite bind_done by done.
  unfold bind at 1, gets. cbn [obind].
  change (lg_committing (k_log (upd_log _ (enter LLog s)))) with (lg_committing (k_log s)).
  change (lg_outstanding (k_log (upd_log _ (enter LLog s)))) with (lg_outstanding (k_log s) - 1).
  rewrite Hc. cbn [negb Z.eqb]. rewrite (proj2 (Z.eqb_neq _ 0)) by lia.
  erewrite bind_done.
  2:{ erewrite bind_done; [done|]. apply wakeup_ok; unfold upd_log; eauto with kernel. }
  erewrite bind_done by (apply krelease_ok; unfold upd_log; eauto with kernel).
  unfold ret, upd_log. leave_out. done.
Qed.

Lemma end_op_last s V P :
  brep s ∅ V P → log_ok (k_log s) (Z.of_nat (length (k_disk s))) P → hdr_clear s →
  unlocked LLog s → lg_committing (k_log s) = 0 → lg_outstanding (k_log s) = 1 →
  ∃ s' V', end_op s = Done tt s' ∧ brep s' ∅ V' ∅ ∧ hdr_clear s' ∧
    k_log s' = with_lg_n 0 (with_lg_outstanding 0 (k_log s)) ∧ unlocked LLog s' ∧
    length (k_disk s') = length (k_disk s) ∧
    (∀ b, ¬ in_log (k_log s) b → V' b = V b).
Proof.
  intros Hrep Hlog Hclear Hul Hc Ho. destruct (brep_kok _ _ _ _ Hrep) as [Hok Hpt].
  set (s1 := upd_log (with_lg_committing 1) (add_op (-1) s)).
  destruct (commit_spec s1 V P) as (s2 & V' & ws & E2 & R2 & F2 & C2 & HV); [done|done|done|].
  pose proof (lframe_log _ _ _ F2) as L2. destruct (brep_kok _ _ _ _ R2) as [Hok2 Hpt2].
  assert (Hul2 : unlocked LLog s2) by (destruct F2 as [-> _]; done).
  set (s3 := with_k_ptable (wake ChLog <$> k_ptable s2) (upd_log (with_lg_committing 0) s2)).
  exists s3, V'. split; [|split; [by apply (brep_wake s2)|split; [done|split; [|split; [done|split; [|done]]]]]].
  2:{ simpl. rewrite L2. simpl. rewrite Ho. destruct (k_log s); simpl in *. by rewrite Hc. }
  2:{ simpl. by rewrite (lframe_disk _ _ _ F2), length_apply_writes. }
  unfold end_op. run kacquire_ok. erewrite bind_done by done.
  unfold bind at 1, gets. cbn [obind].
  change (lg_committing (k_log (upd_log _ (enter LLog s)))) with (lg_committing (k_log s)).
  change (lg_outstanding (k_log (upd_log _ (enter LLog s)))) with (lg_outstanding (k_log s) - 1).
  rewrite Hc, Ho. cbn [negb Z.eqb]. change (1 - 1 =? 0) with true. cbn iota.
  erewrite bind_done by (by erewrite bind_done by done).
  erewrite bind_done by (apply krelease_ok; unfold upd_log; eauto with kernel).
  assert (E1 : leave LLog (upd_log (with_lg_committing 1)
    (upd_log (λ lg, with_lg_outstanding (lg_outstanding lg - 1) lg) (enter LLog s))) = s1).
  { unfold upd_log. leave_out. done. }
  rewrite E1. erewrite bind_done by exact E2. run kacquire_ok. erewrite bind_done by done.
  erewrite bind_done by (apply wakeup_ok; unfold upd_log; eauto with kernel).
  rewrite krelease_ok by (unfold upd_log; eauto with kernel). unfold upd_log. leave_out. done.
Qed.

(** * Theorems about transactions *)

(** The typical use of the log that log.c gives: read, modify, [log_write],
    release. *)
Definition log_update (b : Z) (d : list Z) : K unit :=
  bp <- bread 1 b ;;
  set_buf bp (with_b_data d) ;;;
  log_write bp ;;;
  brelse bp.

Lemma log_update_spec s V P b d :
  brep s ∅ V P → log_ok (k_log s) (Z.of_nat (length (k_disk s))) P → unlocked LLog s →
  home_ok (k_log s) (Z.of_nat (length (k_disk s))) b → block_ok d →
  1 ≤ lg_outstanding (k_log s) → lg_n (k_log s) < lg_size (k_log s) - 1 →
  ∃ s', log_update b d s = Done tt s' ∧ brep s' ∅ (<[b := d]> V) ({[b]} ∪ P) ∧
    log_ok (k_log s') (Z.of_nat (length (k_disk s'))) ({[b]} ∪ P) ∧
    k_log s' = logged (k_log s) b ∧ k_disk s' = k_disk s ∧ k_hart s' = k_hart s.
Proof.
  intros Hrep Hlog Hul Hb Hd Ho Hn. unfold log_update.
  destruct (bread_spec s ∅ V P b) as (i & s2 & E2 & _ & R2 & F2); [done|apply Hb|done| |].
  { right. rewrite map_size_empty. apply (log_ok_room _ _ _ Hlog). }
  erewrite bind_done by exact E2. erewrite bind_done by done.
  assert (HH : (<[i := b]> ∅ : gmap nat Z) !! i = Some b) by apply lookup_insert_eq.
  pose proof (set_data_spec s2 _ V P i b d R2 HH Hd) as R3. set (s3 := upd_buf i _ s2) in *.
  pose proof (bframe_log _ _ F2) as L2. pose proof (bframe_disk _ _ F2) as D2.
  destruct (log_write_spec s3 _ _ P i b R3) as (s4 & E4 & R4 & Hlog4 & Hs4);
    simpl; rewrite ?L2, ?D2; try done.
  { by apply (bframe_unlocked s s2). }
  { apply Hb. }
  erewrite bind_done by exact E4.
  destruct (brelse_spec s4 _ _ _ i b R4) as (s5 & E5 & R5 & F5); [done|left; set_solver|].
  rewrite delete_held in R5 by done.
  pose proof (bframe_log _ _ F5) as L5. pose proof (bframe_disk _ _ F5) as D5.
  exists s5. split; [done|]. split; [done|]. split; [by rewrite L5, D5|].
  split; [|split].
  - rewrite L5, Hs4. simpl. by rewrite L2.
  - rewrite D5, Hs4. done.
  - rewrite (bframe_hart _ _ F5), Hs4. apply (bframe_hart _ _ F2).
Qed.

Definition update_block (b : Z) (d : list Z) : K unit :=
  begin_op ;;; log_update b d ;;; end_op.

(** A file system at rest: no call in progress, nothing logged. *)
Definition log_idle (s : kernel) : Prop :=
  unlocked LLog s ∧ hdr_clear s ∧ lg_n (k_log s) = 0 ∧
  lg_outstanding (k_log s) = 0 ∧ lg_committing (k_log s) = 0 ∧
  log_geom (k_log s) (Z.of_nat (length (k_disk s))) ∧ 3 ≤ lg_size (k_log s).

Lemma log_idle_ok s : log_idle s → log_ok (k_log s) (Z.of_nat (length (k_disk s))) ∅.
Proof.
  intros (_ & _ & Hn & _ & _ & Hg & Hsz). assert (E : lblocks (k_log s) = []).
  { unfold lblocks. by rewrite Hn. }
  split; [done|]. split; [lia|]. rewrite E. split; [constructor|]. split; [|done].
  intros b Hb. by apply not_elem_of_nil in Hb.
Qed.

(** C2: A transaction is durable.  On a file system at rest, the sequence
    [begin_op], [bread], store, [log_write], [brelse], [end_op] returns; the
    disk then holds the new contents in the block and its old contents in
    every other block outside the log, and the log is at rest again. *)
Theorem transaction_durable s V b d :
  brep s ∅ V ∅ → log_idle s → home_ok (k_log s) (Z.of_nat (length (k_disk s))) b → block_ok d →
  ∃ s' V', update_block b d s = Done tt s' ∧ brep s' ∅ V' ∅ ∧ log_idle s' ∧
    k_disk s' !! Z.to_nat b = Some d ∧
    ∀ c, home_ok (k_log s) (Z.of_nat (length (k_disk s))) c → c ≠ b →
      k_disk s' !! Z.to_nat c = k_disk s !! Z.to_nat c.
Proof.
  intros Hrep Hidle Hb Hd. pose proof (log_idle_ok s Hidle) as Hlog.
  destruct Hidle as (Hul & Hclear & Hn & Ho & Hc & Hg & Hsz). destruct (brep_kok _ _ _ _ Hrep) as [Hok _].
  unfold update_block. erewrite bind_done.
  2:{ apply begin_op_ok; [done|done|done|]. rewrite Hn, Ho. unfold LOGSIZE, MAXOPBLOCKS. lia. }
  set (s1 := add_op 1 s).
  destruct (log_update_spec s1 V ∅ b d) as (s5 & E5 & R5 & Hlog5 & L5 & D5 & H5); simpl; try done; [lia..|].
  erewrite bind_done by exact E5.
  assert (Elg : lg_start (k_log s5) = lg_start (k_log s) ∧ lg_size (k_log s5) = lg_size (k_log s) ∧
    lg_dev (k_log s5) = lg_dev (k_log s) ∧ lg_outstanding (k_log s5) = 1 ∧ lg_committing (k_log s5) = 0).
  { rewrite L5. unfold logged. case_decide; simpl; rewrite Ho; done. }
  destruct Elg as (Es & Ez & Edv & Eo & Ec).
  destruct (end_op_last s5 _ _ R5) as (s6 & V' & E6 & R6 & C6 & L6 & U6 & Len6 & HV6); try done.
  { unfold hdr_clear. rewrite Es, D5. done. }
  { unfold unlocked. by rewrite H5. }
  rewrite D5 in Len6. change (k_disk s1) with (k_disk s) in Len6.
  assert (Hhome : ∀ c, home_ok (k_log s) (Z.of_nat (length (k_disk s))) c →
    k_disk s6 !! Z.to_nat c = Some ((<[b := d]> V) c)).
  { intros c [Hr Hnl]. rewrite (brep_clean s6 V') by (done || lia). f_equal. apply HV6.
    unfold in_log in *. by rewrite Es, Ez. }
  exists s6, V'. split; [done|]. split; [done|]. split; [|split].
  - split; [done|]. split; [done|]. rewrite L6. simpl. do 3 (split; [done|]).
    rewrite Ez. split; [|done]. rewrite Len6. unfold log_geom in *. simpl.
    rewrite Es, Ez, Edv. destruct Hlog5 as ((_ & _ & _ & _ & _ & ->) & _). naive_solver.
  - rewrite Hhome by done. by rewrite fn_lookup_insert.
  - intros c Hc' Hne. rewrite Hhome by done. rewrite fn_lookup_insert_ne by done.
    symmetry. apply brep_clean; [done|apply Hc'].
Qed.

(** Log absorption.  [log_write] of a block that is already in the
    transaction uses no new entry of the header, and one of a block that is
    not uses one; either way the block is pinned and the entries stay
    distinct. *)
Theorem log_write_absorbs s H V P i b :
  brep s H V P → log_ok (k_log s) (Z.of_nat (length (k_disk s))) P → unlocked LLog s →
  H !! i = Some b → ¬ in_log (k_log s) b →
  1 ≤ lg_outstanding (k_log s) → lg_n (k_log s) < lg_size (k_log s) - 1 →
  ∃ s', log_write i s = Done tt s' ∧ brep s' H V ({[b]} ∪ P) ∧
    log_ok (k_log s') (Z.of_nat (length (k_disk s'))) ({[b]} ∪ P) ∧
    lblocks (k_log s') = if decide (b ∈ P) then lblocks (k_log s) else lblocks (k_log s) ++ [b].
Proof.
  intros Hrep Hlog Hul HH Hnl Ho Hn.
  destruct (log_write_spec s H V P i b) as (s' & E & R & Hlog' & Hs); try done.
  exists s'. do 3 (split; [done|]). rewrite Hs. simpl. rewrite (lblocks_logged _ _ _ b Hlog).
  destruct Hlog as (_ & _ & _ & _ & <-).
  apply decide_ext. by rewrite elem_of_list_to_set.
Qed.

(** A process that starts a system call while the log has no room for
    another [MAXOPBLOCKS] blocks, or is committing, sleeps on the log; else it
    is admitted and counted, and the space reserved for all calls in progress
    still fits [LOGSIZE]. *)
Theorem begin_op_reserves s p pr :
  kok s → Crit.ncli_of (k_hart s) = 0 → unlocked LLog s → unlocked LPtable s → running s p pr →
  (∃ s', begin_op s = Done tt s' ∧ s' = add_op 1 s ∧ lg_committing (k_log s') = 0 ∧
     lg_n (k_log s') + lg_outstanding (k_log s') * MAXOPBLOCKS ≤ LOGSIZE) ∨
  (∃ k, begin_op s = Swtch (enter LPtable (asleep p ChLog s)) k ∧
     (lg_committing (k_log s) ≠ 0 ∨
      LOGSIZE < lg_n (k_log s) + (lg_outstanding (k_log s) + 1) * MAXOPBLOCKS)).
Proof.
  intros Hok Hn Hul Hpt Hrun.
  destruct (decide (lg_committing (k_log s) = 0 ∧
    lg_n (k_log s) + (lg_outstanding (k_log s) + 1) * MAXOPBLOCKS ≤ LOGSIZE)) as [[Hc Hr]|Hw].
  - left. eexists. split; [by apply begin_op_ok|]. split; [done|]. split; [done|]. done.
  - right. assert (Hor : lg_committing (k_log s) ≠ 0 ∨
      LOGSIZE < lg_n (k_log s) + (lg_outstanding (k_log s) + 1) * MAXOPBLOCKS) by lia.
    destruct (begin_op_waits s p pr) as [k E]; try done. by exists k.
Qed.

(** The log mkfs makes has [LOGSIZE] blocks including its header, so it
    holds [LOGSIZE - 1]: with that many blocks logged, [log_write] panics even
    though [begin_op] admits calls that reserve [LOGSIZE] blocks. *)
Theorem log_write_full_panics i s :
  lg_size (k_log s) = LOGSIZE → lg_n (k_log s) = LOGSIZE - 1 →
  log_write i s = Panicked "too big a transaction".
Proof.
  intros Hs Hn. unfold log_write, bind, gets. simpl. by rewrite Hs, Hn.
Qed.

(** A call in progress on a log that was at rest. *)
Lemma log_idle_op s :
  log_idle s →
  log_ok (k_log (add_op 1 s)) (Z.of_nat (length (k_disk (add_op 1 s)))) ∅ ∧
  unlocked LLog (add_op 1 s) ∧ 1 ≤ lg_outstanding (k_log (add_op 1 s)) ∧
  lg_n (k_log (add_op 1 s)) < lg_size (k_log (add_op 1 s)) - 1.
Proof.
  intros Hi. pose proof (log_idle_ok s Hi) as Hl.
  destruct Hi as (Hul & _ & Hn & Ho & _ & _ & Hsz). simpl. do 2 (split; [done|]). lia.
Qed.

Lemma k_disk_op k s : k_disk (add_op k s) = k_disk s.
Proof. done. Qed.

Lemma home_ok_op s b :
  home_ok (k_log s) (Z.of_nat (length (k_disk s))) b →
  home_ok (k_log (add_op 1 s)) (Z.of_nat (length (k_disk (add_op 1 s)))) b.
Proof. done. Qed.

(** ** Witnesses *)

(** The booted machine with a log of 30 blocks from block 2 on. *)
Definition demo_log : kernel := with_k_log (mkLog 2 30 0 0 1 0 (replicate 30 0)) demo_fs.

Lemma brep_with_log lg s H V P : brep s H V P → brep (with_k_log lg s) H V P.
Proof. done. Qed.

Lemma demo_log_brep : brep demo_log ∅ (disk_view (k_disk demo_boot)) ∅.
Proof. apply brep_with_log, demo_fs_brep. Qed.

Lemma demo_log_idle : log_idle demo_log.
Proof. vm_compute. repeat split; congruence. Qed.

Lemma demo_home : home_ok (k_log demo_log) (Z.of_nat (length (k_disk demo_log))) 40.
Proof. vm_compute. split; [split; congruence|]. intros [_ H]. congruence. Qed.

#[global] Opaque demo_log.

Lemma transaction_durable_witness :
  ∃ s' V', update_block 40 zero_block demo_log = Done tt s' ∧ brep s' ∅ V' ∅ ∧ log_idle s' ∧
    k_disk s' !! Z.to_nat 40 = Some zero_block ∧
    ∀ c, home_ok (k_log demo_log) (Z.of_nat (length (k_disk demo_log))) c → c ≠ 40 →
      k_disk s' !! Z.to_nat c = k_disk demo_log !! Z.to_nat c.
Proof.
  apply (transaction_durable demo_log (disk_view (k_disk demo_boot)) 40 zero_block).
  - exact demo_log_brep.
  - exact demo_log_idle.
  - exact demo_home.
  - exact zero_block_ok.
Defined.

(** A transaction that has written block 40. *)
Definition one_block : list Z := 1 :: replicate 511 0.

Definition demo_txn : kernel :=
  match log_update 40 one_block (add_op 1 demo_log) with Done _ s => s | _ => demo_log end.

Lemma one_block_ok : block_ok one_block.
Proof. split; [done|]. constructor; [unfold is_u8; lia|]. apply Forall_replicate. unfold is_u8. lia. Qed.

Lemma demo_txn_spec :
  brep demo_txn ∅ (<[40 := one_block]> (disk_view (k_disk demo_boot))) ({[40]} ∪ ∅) ∧
  log_ok (k_log demo_txn) (Z.of_nat (length (k_disk demo_txn))) ({[40]} ∪ ∅) ∧
  k_log demo_txn = logged (k_log (add_op 1 demo_log)) 40 ∧
  k_disk demo_txn = k_disk demo_log.
Proof.
  destruct (log_update_spec (add_op 1 demo_log) (disk_view (k_disk demo_boot)) ∅ 40 one_block)
    as (s' & E & R & Hlog & L & D & _).
  - apply brep_with_log. exact demo_log_brep.
  - apply (log_idle_op demo_log demo_log_idle).
  - apply (log_idle_op demo_log demo_log_idle).
  - apply (home_ok_op demo_log _ demo_home).
  - exact one_block_ok.
  - apply (log_idle_op demo_log demo_log_idle).
  - apply (log_idle_op demo_log demo_log_idle).
  - assert (Et : demo_txn = s') by (unfold demo_txn; rewrite E; reflexivity).
    rewrite Et. split; [exact R|]. split; [exact Hlog|]. split; [exact L|]. rewrite D. apply k_disk_op.
Qed.

Lemma demo_rebooted : rebooted (k_log demo_txn) (k_disk demo_txn) demo_log.
Proof.
  destruct demo_txn_spec as (_ & _ & L & D). rewrite L, D. split; [done|].
  split; [|vm_compute; repeat split; congruence].
  assert (E : k_disk demo_log = k_disk demo_boot) by (vm_compute; reflexivity).
  rewrite E. exact demo_log_brep.
Qed.

Lemma commit_crash_atomic_witness :
  ∃ s' ws r', commit demo_txn = Done tt s' ∧ k_disk s' = apply_writes (k_disk demo_txn) ws ∧
    recover_from_log demo_log = Done tt r' ∧
    k_disk r' !! Z.to_nat 40 = k_disk demo_txn !! Z.to_nat 40.
Proof.
  destruct demo_txn_spec as (R & Hlog & L & D).
  assert (Hclear : hdr_clear demo_txn) by (vm_compute; reflexivity).
  destruct (commit_crash_atomic demo_txn _ _ R Hlog Hclear) as (s' & ws & E & _ & Ed & Hcrash).
  destruct (Hcrash 0%nat demo_log demo_rebooted) as (r' & Er & Hold & _).
  exists s', ws, r'. split; [exact E|]. split; [exact Ed|]. split; [exact Er|].
  apply Hold; [lia|]. rewrite L, D. vm_compute. split; [split; congruence|]. intros [_ H]. congruence.
Defined.

Lemma log_write_full_panics_witness :
  log_write 0 (with_k_log (mkLog 2 30 3 0 1 29 (replicate 30 0)) demo_run) =
    Panicked "too big a transaction".
Proof. apply log_write_full_panics; reflexivity. Defined.

Lemma begin_op_reserves_witness :
  (∃ s', begin_op demo_run = Done tt s' ∧ s' = add_op 1 demo_run ∧ lg_committing (k_log s') = 0 ∧
     lg_n (k_log s') + lg_outstanding (k_log s') * MAXOPBLOCKS ≤ LOGSIZE) ∨
  (∃ k, begin_op demo_run = Swtch (enter LPtable (asleep 0 ChLog demo_run)) k ∧
     (lg_committing (k_log demo_run) ≠ 0 ∨
      LOGSIZE < lg_n (k_log demo_run) + (lg_outstanding (k_log demo_run) + 1) * MAXOPBLOCKS)).
Proof.
  apply (begin_op_reserves demo_run 0 demo_proc).
  - exact demo_run_kok.
  - reflexivity.
  - reflexivity.
  - reflexivity.
  - exact demo_run_running.
Defined.

Lemma log_write_absorbs_witness :
  ∃ s i s', log_write i s = Done tt s' ∧ lblocks (k_log s') = [40].
Proof.
  destruct (bread_spec (add_op 1 demo_log) ∅ (disk_view (k_disk demo_boot)) ∅ 40)
    as (i & s1 & _ & _ & R1 & F1).
  - apply brep_with_log. exact demo_log_brep.
  - apply (home_ok_op demo_log _ demo_home).
  - intros i. by rewrite lookup_empty.
  - right. rewrite map_size_empty. exact room_empty.
  - pose proof (bframe_log _ _ F1) as L1. pose proof (bframe_disk _ _ F1) as D1.
    destruct (log_write_absorbs s1 _ _ ∅ i 40 R1) as (s' & E & _ & _ & Hl).
    + rewrite L1, D1. apply (log_idle_op demo_log demo_log_idle).
    + apply (bframe_unlocked _ _ _ F1). apply (log_idle_op demo_log demo_log_idle).
    + apply lookup_insert_eq.
    + rewrite L1. apply (home_ok_op demo_log _ demo_home).
    + rewrite L1. apply (log_idle_op demo_log demo_log_idle).
    + rewrite L1. apply (log_idle_op demo_log demo_log_idle).
    + exists s1, i, s'. split; [exact E|]. rewrite Hl, L1. reflexivity.
Defined.
