(* ===== verification/Txn.v ===== *)
(** The block store that the file system sees.

    fs.c reads a block with [bread], changes the buffer and hands it to
    [log_write], and gives it back with [brelse], always inside a transaction.
    The class [BlockTxn] states what the buffer cache and the log promise for
    that pattern; the instance [txn_store] discharges it with the lemmas of
    the two components, and the theorems about fs.c are proved against the
    class. *)

From S2P Require Import Prelude State Spinlock Sched Bio Log.
Import KLock.

(** What a call may change: the cache, its locks, the entries of the log, and
    processes that are woken up. *)
Definition log_same (lg lg' : log_t) : Prop :=
  lg' = with_lg_n (lg_n lg') (with_lg_block (lg_block lg') lg).

Definition tframe (s s' : kernel) : Prop :=
  s' = with_k_log (k_log s') (bsync s' s) ∧ log_same (k_log s) (k_log s') ∧ bquiet s s'.

(** What has to stay for a transaction to go on. *)
Definition tkeep (s s' : kernel) : Prop :=
  k_hart s' = k_hart s ∧ woken (k_ptable s) (k_ptable s') ∧ k_disk s' = k_disk s ∧
  k_bufs s' = k_bufs s ∧ k_log s' = k_log s ∧
  ∀ i, k_slocks s' !! SLBuf i = k_slocks s !! SLBuf i.

(** A block outside the log area. *)
Definition home (s : kernel) (b : Z) : Prop := home_ok (k_log s) (Z.of_nat (length (k_disk s))) b.

(** Change a buffer the caller holds, and log it. *)
Definition write_buf (i : nat) (d : list Z) : K unit :=
  set_buf i (with_b_data d) ;;; log_write i.

(** [txn s H V k]: a transaction is open, this process holds the buffers [H]
    (buffer index to block number), block [b] reads as [V b], and [k] more
    blocks can be logged. *)
Class BlockTxn (txn : kernel → gmap nat Z → (Z → list Z) → nat → Prop) : Prop := {
  txn_kok : ∀ s H V k, txn s H V k → kok s ∧ unlocked LPtable s;
  txn_running : ∀ s H V k, txn s H V k → ∃ p pr, running s p pr ∧ p_state pr = RUNNING;
  txn_weaken : ∀ s H V k k', txn s H V k → (k' ≤ k)%nat → txn s H V k';
  txn_keep : ∀ s s' H V k, txn s H V k → tkeep s s' → txn s' H V k;
  txn_bread : ∀ s H V k b,
    txn s H V k → (size H ≤ k)%nat → home s b → (∀ i, H !! i ≠ Some b) →
    ∃ i s', bread 1 b s = Done i s' ∧ H !! i = None ∧ txn s' (<[i := b]> H) V k ∧ tframe s s';
  txn_data : ∀ s H V k i b,
    txn s H V k → H !! i = Some b →
    ∃ bf, k_bufs s !! i = Some bf ∧ b_data bf = V b ∧ block_ok (V b);
  txn_block : ∀ s H V k b,
    txn s H V k → 0 ≤ b < Z.of_nat (length (k_disk s)) → block_ok (V b);
  txn_write : ∀ s H V k i b d,
    txn s H V (S k) → H !! i = Some b → home s b → block_ok d →
    ∃ s', write_buf i d s = Done tt s' ∧ txn s' H (<[b := d]> V) k ∧ tframe s s';
  txn_brelse : ∀ s H V k i b,
    txn s H V k → H !! i = Some b →
    ∃ s', brelse i s = Done tt s' ∧ txn s' (delete i H) V k ∧ tframe s s';
}.

(** * Frames *)

Lemma log_same_refl lg : log_same lg lg.
Proof. by destruct lg. Qed.

Lemma log_same_trans lg1 lg2 lg3 : log_same lg1 lg2 → log_same lg2 lg3 → log_same lg1 lg3.
Proof. intros E1 E2. unfold log_same in *. rewrite E2. rewrite E1. done. Qed.

Lemma tframe_refl s : tframe s s.
Proof. split; [by destruct s|]. split; [apply log_same_refl|apply bquiet_refl]. Qed.

Lemma tframe_trans s1 s2 s3 : tframe s1 s2 → tframe s2 s3 → tframe s1 s3.
Proof.
  intros (E1 & L1 & Q1) (E2 & L2 & Q2). split; [|split].
  - rewrite E2. rewrite E1. done.
  - by eapply log_same_trans.
  - by eapply bquiet_trans.
Qed.

Lemma bframe_tframe s s' : bframe s s' → tframe s s'.
Proof.
  intros [E Q]. split; [|split; [|done]].
  - rewrite E. by destruct s.
  - rewrite E. apply log_same_refl.
Qed.

Lemma tframe_disk s s' : tframe s s' → k_disk s' = k_disk s.
Proof. intros [E _]. by rewrite E. Qed.

Lemma tframe_hart s s' : tframe s s' → k_hart s' = k_hart s.
Proof. intros [E _]. by rewrite E. Qed.

Lemma tframe_sb s s' : tframe s s' → k_sb s' = k_sb s.
Proof. intros [E _]. by rewrite E. Qed.

Lemma tframe_icache s s' : tframe s s' → k_icache s' = k_icache s.
Proof. intros [E _]. by rewrite E. Qed.

Lemma tframe_home s s' b : tframe s s' → home s b → home s' b.
Proof.
  intros (E & L & _) Hb. unfold home, home_ok, in_log. rewrite E. cbn [k_disk k_log with_k_log bsync
    with_k_ptable with_k_slocks with_k_bufs]. rewrite L. done.
Qed.

Lemma tframe_unlocked s s' lk : tframe s s' → unlocked lk s → unlocked lk s'.
Proof. intros F H. unfold unlocked. by rewrite (tframe_hart _ _ F). Qed.

#[export] Hint Resolve tframe_refl tframe_home tframe_unlocked : kernel.

(** * The instance *)

Definition txn_rep (s : kernel) (H : gmap nat Z) (V : Z → list Z) (k : nat) : Prop :=
  ∃ P, brep s H V P ∧ log_ok (k_log s) (Z.of_nat (length (k_disk s))) P ∧ unlocked LLog s ∧
    1 ≤ lg_outstanding (k_log s) ∧ lg_n (k_log s) + Z.of_nat k < lg_size (k_log s) ∧
    ∀ i b, H !! i = Some b → b ∈ P ∨ k_disk s !! Z.to_nat b = Some (V b).

Lemma log_ok_size lg nb P : log_ok lg nb P → Z.of_nat (size P) = lg_n lg.
Proof.
  intros Hok. pose proof (length_lblocks _ _ _ Hok) as Hl. destruct Hok as (_ & Hn & Hnd & _ & <-).
  rewrite size_list_to_set by done. lia.
Qed.

Lemma bcore_slocks disk bufs sl sl' pid H V P :
  (∀ i, sl' !! SLBuf i = sl !! SLBuf i) → bcore disk bufs sl pid H V P → bcore disk bufs sl' pid H V P.
Proof.
  intros E [C1 C2 C3 C4 C5 C6 C7 C8]. constructor; try done. intros i b Hi Hb.
  destruct (C5 i b Hi Hb) as [R1 R2 R3 R4 R5 R6 R7 R8]. constructor; try done. by rewrite E.
Qed.

Lemma rep_keep s s' H V k : txn_rep s H V k → tkeep s s' → txn_rep s' H V k.
Proof.
  intros (P & (pid & He & Hc) & Hlog & Hul & Hrest) (Eh & Hw & Ed & Eb & El & Es).
  exists P. rewrite El, Ed. split; [|split; [done|split; [|done]]].
  - exists pid. split; [by apply (benv_frame s)|]. rewrite Ed, Eb. by apply (bcore_slocks _ _ (k_slocks s)).
  - unfold unlocked. by rewrite Eh.
Qed.

Lemma rep_bread s H V k b :
  txn_rep s H V k → (size H ≤ k)%nat → home s b → (∀ i, H !! i ≠ Some b) →
  ∃ i s', bread 1 b s = Done i s' ∧ H !! i = None ∧ txn_rep s' (<[i := b]> H) V k ∧ tframe s s'.
Proof.
  intros (P & Hrep & Hlog & Hul & Ho & Hn & Hcl) Hsz Hb Hno.
  destruct (bread_spec s H V P b) as (i & s' & E & Hi & R & F); [done|apply Hb|done| |].
  { right. pose proof (log_ok_size _ _ _ Hlog). destruct Hlog as ((_ & _ & Hs & _) & _).
    unfold NBUF, LOGSIZE, MAXOPBLOCKS in *. lia. }
  exists i, s'. split; [done|]. split; [done|]. split; [|by apply bframe_tframe].
  exists P. rewrite (bframe_log _ _ F), (bframe_disk _ _ F). do 2 (split; [done|]).
  split; [by apply (bframe_unlocked s)|]. do 2 (split; [done|]).
  intros j c Hj. destruct (decide (j = i)) as [->|Hne].
  - rewrite lookup_insert_eq in Hj. injection Hj as <-. destruct (decide (b ∈ P)); [by left|right].
    destruct Hrep as (pid & _ & Hc). apply (bc_clean Hc); [apply Hb|done|done].
  - rewrite lookup_insert_ne in Hj by done. by apply Hcl in Hj.
Qed.

Lemma log_same_logged lg b : log_same lg (logged lg b).
Proof. unfold logged. case_decide; [apply log_same_refl|by destruct lg]. Qed.

Lemma rep_write s H V k i b d :
  txn_rep s H V (S k) → H !! i = Some b → home s b → block_ok d →
  ∃ s', write_buf i d s = Done tt s' ∧ txn_rep s' H (<[b := d]> V) k ∧ tframe s s'.
Proof.
  intros (P & Hrep & Hlog & Hul & Ho & Hn & Hcl) HH Hb Hd. unfold write_buf.
  erewrite bind_done by done. pose proof (set_data_spec _ _ _ _ i b d Hrep HH Hd) as R1.
  destruct (log_write_spec (upd_buf i (with_b_data d) s) H _ P i b R1) as (s' & E & R2 & Hlog2 & Es');
    try done; [apply Hb|cbn; lia|].
  exists s'. split; [done|]. assert (Fr : tframe s s').
  { split; [|split].
    - rewrite Es'. by destruct s.
    - rewrite Es'. apply log_same_logged.
    - rewrite Es'. split; [apply woken_refl|done]. }
  split; [|done]. exists ({[b]} ∪ P). split; [done|]. split; [done|].
  split; [by apply (tframe_unlocked s)|]. rewrite Es'. cbn [k_log k_disk with_k_log with_k_bufs upd_buf].
  assert (Hl : lg_n (logged (k_log s) b) ≤ lg_n (k_log s) + 1).
  { unfold logged. case_decide; simpl; lia. }
  split; [|split].
  - unfold logged. case_decide; done.
  - assert (lg_size (logged (k_log s) b) = lg_size (k_log s)) as ->; [|lia].
    unfold logged. by case_decide.
  - intros j c Hj. destruct (decide (c = b)) as [->|Hne]; [left; set_solver|].
    rewrite fn_lookup_insert_ne by done. destruct (Hcl j c Hj) as [?|?]; [left; set_solver|by right].
Qed.

Lemma rep_block s H V k b :
  txn_rep s H V k → 0 ≤ b < Z.of_nat (length (k_disk s)) → block_ok (V b).
Proof.
  intros (P & (pid & He & Hc) & _ & _ & _ & _ & Hcl) Hb.
  assert (Hdisk : k_disk s !! Z.to_nat b = Some (V b) → block_ok (V b)).
  { intros E. apply (Forall_lookup_1 _ _ _ _ (bc_disk Hc) E). }
  destruct (decide (b ∈ P)) as [HP|HP].
  - destruct (bc_pins Hc b HP) as (i & bf & Hi & Lb & Hd & <-). pose proof (bc_buf Hc i bf Hi Lb) as R.
    destruct (br_valid R (dirty_valid bf (br_flags R) Hd)) as (_ & _ & <-). apply (br_data R).
  - destruct (decide (map_Exists (λ _ c, c = b) H)) as [(i & c & Hi & ->)|Hno].
    + apply Hdisk. by destruct (Hcl i b Hi).
    + apply Hdisk, (bc_clean Hc); [done|done|]. intros i Hi. apply Hno. by exists i, b.
Qed.

Lemma rep_brelse s H V k i b :
  txn_rep s H V k → H !! i = Some b →
  ∃ s', brelse i s = Done tt s' ∧ txn_rep s' (delete i H) V k ∧ tframe s s'.
Proof.
  intros (P & Hrep & Hlog & Hul & Ho & Hn & Hcl) HH.
  destruct (brelse_spec s H V P i b Hrep HH (Hcl i b HH)) as (s' & E & R & F).
  exists s'. split; [done|]. split; [|by apply bframe_tframe].
  exists P. rewrite (bframe_log _ _ F), (bframe_disk _ _ F). do 2 (split; [done|]).
  split; [by apply (bframe_unlocked s)|]. do 2 (split; [done|]).
  intros j c Hj. apply lookup_delete_Some in Hj as [_ Hj]. by apply Hcl in Hj.
Qed.

#[export] Instance txn_store : BlockTxn txn_rep.
Proof.
  constructor.
  - intros s H V k (P & R & _). by eapply brep_kok.
  - intros s H V k (P & (pid & (_ & _ & _ & _ & p & pr & Hr & Hs & _) & _) & _). eauto.
  - intros s H V k k' (P & ? & ? & ? & ? & ? & ?) Hk. exists P. repeat (split; [done|]). split; [lia|done].
  - apply rep_keep.
  - apply rep_bread.
  - intros s H V k i b (P & R & _) HH.
    destruct (held_buf _ _ _ _ _ _ R HH) as (bf & ? & _ & _ & _ & ? & _ & ? & _). eauto.
  - apply rep_block.
  - apply rep_write.
  - apply rep_brelse.
Qed.

(** * The pattern of fs.c: read a block, change it, log it, release it *)

Section pattern.
Context {txn : kernel → gmap nat Z → (Z → list Z) → nat → Prop} {T : BlockTxn txn}.

Lemma txn_buf_at s H V k i b :
  txn s H V k → H !! i = Some b → ∃ bf, buf_at i s = Done bf s ∧ b_data bf = V b ∧ block_ok (V b).
Proof.
  intros Ht HH. destruct (txn_data _ _ _ _ _ _ Ht HH) as (bf & Hb & E & Hok).
  exists bf. split; [by apply buf_at_ok|done].
Qed.

Lemma txn_release s H V k i b :
  txn s (<[i := b]> H) V k → H !! i = None → ∃ s', brelse i s = Done tt s' ∧ txn s' H V k ∧ tframe s s'.
Proof.
  intros Ht Hi. destruct (txn_brelse _ _ _ _ i b Ht) as (s' & E & Ht' & F); [apply lookup_insert_eq|].
  rewrite delete_held in Ht' by done. eauto.
Qed.

(** [bread], a store computed from the contents, [log_write], [brelse]. *)
Lemma txn_update s H V k b f :
  txn s H V (S k) → (size H ≤ S k)%nat → home s b → (∀ i, H !! i ≠ Some b) → block_ok (f (V b)) →
  ∃ s', (bp <- bread 1 b ;; bf <- buf_at bp ;; write_buf bp (f (b_data bf)) ;;; brelse bp) s = Done tt s' ∧
    txn s' H (<[b := f (V b)]> V) k ∧ tframe s s'.
Proof.
  intros Ht Hsz Hb Hno Hf. destruct (txn_bread _ _ _ _ b Ht Hsz Hb Hno) as (i & s1 & E1 & Hi & T1 & F1).
  assert (HH : <[i := b]> H !! i = Some b) by apply lookup_insert_eq.
  destruct (txn_buf_at _ _ _ _ _ _ T1 HH) as (bf & Eb & Edat & _).
  destruct (txn_write _ _ _ _ i b (f (b_data bf)) T1 HH) as (s2 & E2 & T2 & F2).
  { by eapply tframe_home. }
  { by rewrite Edat. }
  rewrite Edat in T2. destruct (txn_release _ _ _ _ _ _ T2 Hi) as (s3 & E3 & T3 & F3).
  exists s3. split; [|split; [done|]].
  - erewrite bind_done by exact E1. erewrite bind_done by exact Eb. by erewrite bind_done by exact E2.
  - eapply tframe_trans; [exact F1|]. by eapply tframe_trans.
Qed.
End pattern.
