(* ===== verification/Inode.v ===== *)
(** Blocks and inodes: the first half of fs.c, from [bzero] to [stati].

    A pointer to an in-memory inode is its index in [icache.inode].  The block
    bitmap and the table of inodes on disk are read and written through the
    block store of a transaction (class [BlockTxn]).  The theorems are about
    the allocator of blocks (a block handed out was free, is marked and
    zeroed; double frees panic), the encoding of inodes on disk, the cache of
    inodes (one entry per inode, counted references) and the map from the
    blocks of a file to blocks of the disk. *)

From S2P Require Import Prelude State Spinlock Cprintf Sched Bio Log Txn.
Import KLock.

(** * On-disk formats: fs.h *)

Definition IBLOCK (i : Z) (sb : superblock) : Z := u32 (i / IPB + sb_inodestart sb).
Definition BBLOCK (b : Z) (sb : superblock) : Z := u32 (b / BPB + sb_bmapstart sb).

(** [struct dinode] in bytes: four shorts, [size], [addrs]. *)
Definition dinode_enc (d : dinode) : list Z :=
  le_enc 2 (d_type d) ++ le_enc 2 (d_major d) ++ le_enc 2 (d_minor d) ++ le_enc 2 (d_nlink d) ++
  le_enc 4 (d_size d) ++ (d_addrs d ≫= le_enc 4).

Definition rd_short (data : list Z) (off : nat) : Z := s16 (le_dec (slice data off 2)).

Definition dinode_dec (data : list Z) (off : nat) : dinode :=
  mkDinode (rd_short data off) (rd_short data (off + 2)) (rd_short data (off + 4))
    (rd_short data (off + 6)) (rd_uint data (off + 8))
    ((λ j, rd_uint data (off + 12 + 4 * j)%nat) <$> seq 0 13).

(** The offset in its block of inode [inum]: entry [inum%IPB] of an array of [struct dinode]. *)
Definition dinode_off (inum : Z) : nat := Z.to_nat (inum mod IPB * 64).

(** * Blocks *)

Definition bzero (dev bno : Z) : K unit :=
  bp <- bread (u32 dev) (u32 bno) ;;
  set_buf bp (with_b_data (replicate (Z.to_nat BSIZE) 0)) ;;;
  log_write bp ;;;
  brelse bp.

(** [bp->data[bi/8] & m], with [m = 1 << (bi % 8)]. *)
Definition bit_clear (data : list Z) (bi : nat) : bool :=
  Z.land (nth (bi / 8) data 0) (Z.shiftl 1 (Z.of_nat (bi mod 8))) =? 0.

(** [bp->data[bi/8] |= m] and [bp->data[bi/8] &= ~m], on [uchar]s. *)
Definition set_bit (bi : nat) (data : list Z) : list Z :=
  alter (λ x, u8 (Z.lor x (Z.shiftl 1 (Z.of_nat (bi mod 8))))) (bi / 8)%nat data.
Definition clear_bit (bi : nat) (data : list Z) : list Z :=
  alter (λ x, u8 (Z.land x (Z.lnot (Z.shiftl 1 (Z.of_nat (bi mod 8)))))) (bi / 8)%nat data.

(** One turn of the outer loop of [balloc], on the [j]th block of the bitmap;
    the inner loop looks for the first clear bit. *)
Definition balloc_body (dev : Z) (sb : superblock) (j : nat) : K (option Z) :=
  let b := Z.of_nat j * BPB in
  bp <- bread dev (BBLOCK b sb) ;;
  bf <- buf_at bp ;;
  match find_index (bit_clear (b_data bf)) (seq 0 (Z.to_nat (BPB `min` (sb_size sb - b)))) with
  | Some bi =>
      set_buf bp (λ bf, with_b_data (set_bit bi (b_data bf)) bf) ;;;
      log_write bp ;;;
      brelse bp ;;;
      bzero dev (b + Z.of_nat bi) ;;;
      ret (Some (b + Z.of_nat bi))
  | None => brelse bp ;;; ret None
  end.

Definition balloc (dev : Z) : K Z :=
  sb <- gets k_sb ;;
  r <- for_return (seq 0 (Z.to_nat ((sb_size sb + BPB - 1) / BPB))) (balloc_body dev sb) ;;
  match r with
  | Some b => ret b
  | None => panic "balloc: out of blocks"
  end.

Definition bfree (dev b : Z) : K unit :=
  sb <- gets k_sb ;;
  bp <- bread (u32 dev) (BBLOCK b sb) ;;
  let bi := Z.to_nat (b mod BPB) in
  bf <- buf_at bp ;;
  if bit_clear (b_data bf) bi then panic "freeing free block" else
  set_buf bp (λ bf, with_b_data (clear_bit bi (b_data bf)) bf) ;;;
  log_write bp ;;;
  brelse bp.

(** * Inodes *)

Definition inode_at (i : nat) : K inode := s <- get ;; deref (k_icache s !! i).
Definition upd_inode (i : nat) (f : inode → inode) (s : kernel) : kernel :=
  with_k_icache (alter f i (k_icache s)) s.
Definition set_inode (i : nat) (f : inode → inode) : K unit := modify (upd_inode i f).

Definition iinit (dev : Z) : K unit :=
  initlock LIcache "icache" ;;;
  for_each (seq 0 NINODE) (λ i, initsleeplock (SLInode i) "inode") ;;;
  sb <- readsb dev ;;
  modify (with_k_sb sb) ;;;
  cprint "sb: size %d nblocks %d ninodes %d nlog %d logstart %d inodestart %d bmap start %d
"
    [CInt (sb_size sb); CInt (sb_nblocks sb); CInt (sb_ninodes sb); CInt (sb_nlog sb);
     CInt (sb_logstart sb); CInt (sb_inodestart sb); CInt (sb_bmapstart sb)].

(** The entry of [icache] that [iget] picks: the one of the inode, else the
    first unused one. *)
Definition iget (dev inum : Z) : K nat :=
  acquire LIcache ;;;
  ic <- gets k_icache ;;
  match find_index (λ ip, (0 <? i_ref ip) && (i_dev ip =? dev) && (i_inum ip =? inum)) ic with
  | Some i =>
      set_inode i (λ ip, with_i_ref (s32 (i_ref ip + 1)) ip) ;;;
      release LIcache ;;;
      ret i
  | None =>
      match find_index (λ ip, i_ref ip =? 0) ic with
      | None => panic "iget: no inodes"
      | Some i =>
          set_inode i (λ ip, with_i_valid 0 (with_i_ref 1 (with_i_inum inum (with_i_dev dev ip)))) ;;;
          release LIcache ;;;
          ret i
      end
  end.

Definition ialloc_body (dev type : Z) (sb : superblock) (inum : nat) : K (option nat) :=
  bp <- bread dev (IBLOCK (Z.of_nat inum) sb) ;;
  bf <- buf_at bp ;;
  let off := dinode_off (Z.of_nat inum) in
  if rd_short (b_data bf) off =? 0 then
    set_buf bp (λ bf, with_b_data (splice (splice (b_data bf) off (replicate 64 0)) off (le_enc 2 type)) bf) ;;;
    log_write bp ;;;
    brelse bp ;;;
    i <- iget dev (Z.of_nat inum) ;;
    ret (Some i)
  else brelse bp ;;; ret None.

Definition ialloc (dev type : Z) : K nat :=
  sb <- gets k_sb ;;
  r <- for_return (seq 1 (Z.to_nat (sb_ninodes sb) - 1)) (ialloc_body dev type sb) ;;
  match r with
  | Some i => ret i
  | None => panic "ialloc: no inodes"
  end.

(** The fields of an in-memory inode that live on disk. *)
Definition inode_disk (ip : inode) : dinode :=
  mkDinode (i_type ip) (i_major ip) (i_minor ip) (i_nlink ip) (i_size ip) (i_addrs ip).

Definition iupdate (i : nat) : K unit :=
  ip <- inode_at i ;;
  sb <- gets k_sb ;;
  bp <- bread (i_dev ip) (IBLOCK (i_inum ip) sb) ;;
  set_buf bp (λ bf,
    with_b_data (splice (b_data bf) (dinode_off (i_inum ip)) (dinode_enc (inode_disk ip))) bf) ;;;
  log_write bp ;;;
  brelse bp.

Definition idup (i : nat) : K nat :=
  acquire LIcache ;;;
  set_inode i (λ ip, with_i_ref (s32 (i_ref ip + 1)) ip) ;;;
  release LIcache ;;;
  ret i.

(** [ip->type = dip->type; ...; memmove(ip->addrs, dip->addrs, ...)]. *)
Definition load_dinode (d : dinode) (ip : inode) : inode :=
  mkInode (i_dev ip) (i_inum ip) (i_ref ip) (i_valid ip)
    (d_type d) (d_major d) (d_minor d) (d_nlink d) (d_size d) (d_addrs d).

Definition ilock (ip : option nat) : K unit :=
  match ip with
  | None => panic "ilock"
  | Some i =>
      n <- inode_at i ;;
      if i_ref n <? 1 then panic "ilock" else
      acquiresleep (SLInode i) ;;;
      n <- inode_at i ;;
      if i_valid n =? 0 then
        sb <- gets k_sb ;;
        bp <- bread (i_dev n) (IBLOCK (i_inum n) sb) ;;
        bf <- buf_at bp ;;
        set_inode i (load_dinode (dinode_dec (b_data bf) (dinode_off (i_inum n)))) ;;;
        brelse bp ;;;
        set_inode i (with_i_valid 1) ;;;
        n <- inode_at i ;;
        if i_type n =? 0 then panic "ilock: no type" else ret tt
      else ret tt
  end.

Definition iunlock (ip : option nat) : K unit :=
  match ip with
  | None => panic "iunlock"
  | Some i =>
      h <- holdingsleep (SLInode i) ;;
      n <- inode_at i ;;
      if negb h || (i_ref n <? 1) then panic "iunlock" else
      releasesleep (SLInode i)
  end.

(** * The contents of an inode *)

Definition bmap (i : nat) (bn : Z) : K Z :=
  ip <- inode_at i ;;
  if bn <? NDIRECT then
    addr <- deref (i_addrs ip !! Z.to_nat bn) ;;
    if addr =? 0 then
      addr <- balloc (i_dev ip) ;;
      set_inode i (λ ip, with_i_addrs (<[Z.to_nat bn := addr]> (i_addrs ip)) ip) ;;;
      ret addr
    else ret addr
  else
  let bn := bn - NDIRECT in
  if bn <? NINDIRECT then
    addr <- deref (i_addrs ip !! Z.to_nat NDIRECT) ;;
    addr <- (if addr =? 0 then
               addr <- balloc (i_dev ip) ;;
               set_inode i (λ ip, with_i_addrs (<[Z.to_nat NDIRECT := addr]> (i_addrs ip)) ip) ;;;
               ret addr
             else ret addr) ;;
    bp <- bread (i_dev ip) addr ;;
    bf <- buf_at bp ;;
    let addr := rd_uint (b_data bf) (4 * Z.to_nat bn) in
    addr <- (if addr =? 0 then
               addr <- balloc (i_dev ip) ;;
               set_buf bp (λ bf, with_b_data (wr_int (b_data bf) (4 * Z.to_nat bn) addr) bf) ;;;
               log_write bp ;;;
               ret addr
             else ret addr) ;;
    brelse bp ;;;
    ret addr
  else panic "bmap: out of range".

Definition itrunc (i : nat) : K unit :=
  for_each (seq 0 (Z.to_nat NDIRECT)) (λ j,
    ip <- inode_at i ;;
    addr <- deref (i_addrs ip !! j) ;;
    if addr =? 0 then ret tt else
    bfree (i_dev ip) addr ;;;
    set_inode i (λ ip, with_i_addrs (<[j := 0]> (i_addrs ip)) ip)) ;;;
  ip <- inode_at i ;;
  addr <- deref (i_addrs ip !! Z.to_nat NDIRECT) ;;
  (if addr =? 0 then ret tt else
     bp <- bread (i_dev ip) addr ;;
     for_each (seq 0 (Z.to_nat NINDIRECT)) (λ j,
       bf <- buf_at bp ;;
       let a := rd_uint (b_data bf) (4 * j) in
       if a =? 0 then ret tt else bfree (i_dev ip) a) ;;;
     brelse bp ;;;
     bfree (i_dev ip) addr ;;;
     set_inode i (λ ip, with_i_addrs (<[Z.to_nat NDIRECT := 0]> (i_addrs ip)) ip)) ;;;
  set_inode i (with_i_size 0) ;;;
  iupdate i.

Definition iput (i : nat) : K unit :=
  acquiresleep (SLInode i) ;;;
  ip <- inode_at i ;;
  (if negb (i_valid ip =? 0) && (i_nlink ip =? 0) then
     acquire LIcache ;;;
     ip <- inode_at i ;;
     let r := i_ref ip in
     release LIcache ;;;
     if r =? 1 then
       itrunc i ;;;
       set_inode i (with_i_type 0) ;;;
       iupdate i ;;;
       set_inode i (with_i_valid 0)
     else ret tt
   else ret tt) ;;;
  releasesleep (SLInode i) ;;;
  acquire LIcache ;;;
  set_inode i (λ ip, with_i_ref (s32 (i_ref ip - 1)) ip) ;;;
  release LIcache.

Definition iunlockput (i : nat) : K unit :=
  iunlock (Some i) ;;;
  iput i.

(** [struct stat]. *)
Record stat := mkStat {
  st_type : Z;
  st_dev : Z;
  st_ino : Z;
  st_nlink : Z;
  st_size : Z;
}.

Definition stati (i : nat) : K stat :=
  ip <- inode_at i ;;
  ret (mkStat (i_type ip) (s32 (i_dev ip)) (i_inum ip) (i_nlink ip) (i_size ip)).

(** * Bits of the bitmap *)

Lemma land_shiftl x k : 0 ≤ k → (Z.land x (Z.shiftl 1 k) =? 0) = negb (Z.testbit x k).
Proof.
  intros Hk. destruct (Z.testbit x k) eqn:E; cbn [negb].
  - apply Z.eqb_neq. intros H. assert (Z.testbit (Z.land x (Z.shiftl 1 k)) k = true); [|by rewrite H, Z.testbit_0_l in *].
    by rewrite Z.land_spec, E, Z.shiftl_1_l, Z.pow2_bits_true.
  - apply Z.eqb_eq, Z.bits_inj'. intros n Hn. rewrite Z.land_spec, Z.shiftl_1_l, Z.testbit_0_l.
    destruct (decide (n = k)) as [->|Hne]; [by rewrite E|]. rewrite Z.pow2_bits_false by done. apply andb_false_r.
Qed.

Lemma testbit_u8 x n : 0 ≤ n < 8 → Z.testbit (u8 x) n = Z.testbit x n.
Proof. intros Hn. unfold u8. change 256 with (2 ^ 8). by rewrite Z.mod_pow2_bits_low by lia. Qed.

Lemma bit_clear_spec d bi : bit_clear d bi = negb (Z.testbit (nth (bi / 8) d 0) (Z.of_nat (bi mod 8))).
Proof. apply land_shiftl. lia. Qed.

Lemma nth_alter (f : Z → Z) i j d : (i < length d)%nat →
  nth j (alter f i d) 0 = if decide (i = j) then f (nth j d 0) else nth j d 0.
Proof.
  intros Hi. rewrite !nth_lookup, list_lookup_alter. case_decide; [|done]. subst.
  destruct (lookup_lt_is_Some_2 d j Hi) as [x ->]. done.
Qed.

(** The bit [bj] after the bit [bi] is changed by [g], which leaves the others. *)
Lemma bit_change (g : Z → Z → Z) (v : bool) d bi bj :
  (bi / 8 < length d)%nat →
  (∀ x m n, 0 ≤ m < 8 → 0 ≤ n < 8 → Z.testbit (g x m) n = if decide (n = m) then v else Z.testbit x n) →
  bit_clear (alter (λ x, u8 (g x (Z.of_nat (bi mod 8)))) (bi / 8)%nat d) bj =
    if decide (bi = bj) then negb v else bit_clear d bj.
Proof.
  intros Hl Hg. rewrite !bit_clear_spec, nth_alter by done.
  pose proof (Nat.mod_upper_bound bi 8 ltac:(lia)). pose proof (Nat.mod_upper_bound bj 8 ltac:(lia)).
  destruct (decide (bi / 8 = bj / 8)%nat) as [E|E].
  - rewrite testbit_u8, Hg by lia. pose proof (Nat.div_mod bi 8 ltac:(lia)). pose proof (Nat.div_mod bj 8 ltac:(lia)).
    destruct (decide (bi = bj)) as [->|Hne]; [by rewrite decide_True|]. rewrite decide_False by lia. done.
  - rewrite decide_False by congruence. done.
Qed.

Lemma bit_clear_set d bi bj : (bi / 8 < length d)%nat →
  bit_clear (set_bit bi d) bj = if decide (bi = bj) then false else bit_clear d bj.
Proof.
  intros Hl. apply (bit_change (λ x m, Z.lor x (Z.shiftl 1 m)) true); [done|].
  intros x m n Hm Hn. rewrite Z.lor_spec, Z.shiftl_1_l. case_decide as E.
  - subst. rewrite Z.pow2_bits_true by lia. apply orb_true_r.
  - rewrite Z.pow2_bits_false by done. apply orb_false_r.
Qed.

Lemma bit_clear_clear d bi bj : (bi / 8 < length d)%nat →
  bit_clear (clear_bit bi d) bj = if decide (bi = bj) then true else bit_clear d bj.
Proof.
  intros Hl. apply (bit_change (λ x m, Z.land x (Z.lnot (Z.shiftl 1 m))) false); [done|].
  intros x m n Hm Hn. rewrite Z.land_spec, Z.lnot_spec, Z.shiftl_1_l by lia. case_decide as E.
  - subst. rewrite Z.pow2_bits_true by lia. apply andb_false_r.
  - rewrite Z.pow2_bits_false by done. apply andb_true_r.
Qed.

Lemma alter_block_ok (f : Z → Z) i d : block_ok d → (∀ x, is_u8 (f x)) → block_ok (alter f i d).
Proof.
  intros [Hl Hd] Hf. split; [by rewrite length_alter|].
  apply Forall_lookup. intros j x Hx. rewrite list_lookup_alter in Hx. case_decide; [|by eapply Forall_lookup_1].
  apply fmap_Some in Hx as (y & _ & ->). apply Hf.
Qed.

Lemma set_bit_ok bi d : block_ok d → block_ok (set_bit bi d).
Proof. intros H. apply alter_block_ok; [done|]. intros x. apply u8_range. Qed.

Lemma clear_bit_ok bi d : block_ok d → block_ok (clear_bit bi d).
Proof. intros H. apply alter_block_ok; [done|]. intros x. apply u8_range. Qed.

(** * The file system in its blocks *)

(** The areas of the disk, in the order mkfs.c lays them out: log, inodes,
    bitmap, data. *)
Definition data_start (s : kernel) : Z := sb_bmapstart (k_sb s) + Z.of_nat (length (k_disk s)) / BPB + 1.

Definition fs_geom (s : kernel) : Prop :=
  let sb := k_sb s in
  let nb := Z.of_nat (length (k_disk s)) in
  nb < 2147483648 ∧ sb_size sb = nb ∧ 0 ≤ sb_ninodes sb ∧ 0 ≤ lg_start (k_log s) ∧
  1 ≤ lg_size (k_log s) ∧ lg_start (k_log s) + lg_size (k_log s) ≤ sb_inodestart sb ∧
  sb_inodestart sb + sb_ninodes sb / IPB + 1 ≤ sb_bmapstart sb ∧
  data_start s ≤ nb.

(** Block [b] is free in the bitmap. *)
Definition bfree_in (sb : superblock) (V : Z → list Z) (b : Z) : bool :=
  bit_clear (V (BBLOCK b sb)) (Z.to_nat (b mod BPB)).

(** A block of the disk that the bitmap marks as used. *)
Definition in_use (s : kernel) (V : Z → list Z) (b : Z) : Prop :=
  0 ≤ b < Z.of_nat (length (k_disk s)) ∧ bfree_in (k_sb s) V b = false.

(** The bitmap marks the areas before the data as used. *)
Definition meta_used (s : kernel) (V : Z → list Z) : Prop :=
  ∀ b, 0 ≤ b < data_start s → bfree_in (k_sb s) V b = false.

Lemma fs_geom_frame s s' : tframe s s' → fs_geom s → fs_geom s'.
Proof.
  intros F G. unfold fs_geom, data_start in *.
  rewrite (tframe_sb _ _ F), (tframe_disk _ _ F). destruct F as (_ & L & _).
  unfold log_same in L. by rewrite L.
Qed.

Lemma BBLOCK_small s b :
  fs_geom s → 0 ≤ b < Z.of_nat (length (k_disk s)) →
  BBLOCK b (k_sb s) = b / BPB + sb_bmapstart (k_sb s) ∧
  sb_bmapstart (k_sb s) ≤ BBLOCK b (k_sb s) < data_start s ∧ home s (BBLOCK b (k_sb s)).
Proof.
  intros (G1 & G2 & G3 & G4 & G5 & G6 & G7 & G8) Hb. unfold BBLOCK, home, home_ok, in_log, data_start, BPB, IPB, BSIZE in *.
  change (512 * 8) with 4096 in *. change (512 / 64) with 8 in *.
  pose proof (Z.div_pos b 4096 ltac:(lia) ltac:(lia)).
  pose proof (Z.div_le_mono b (Z.of_nat (length (k_disk s))) 4096 ltac:(lia) ltac:(lia)).
  pose proof (Z.div_pos (sb_ninodes (k_sb s)) 8 ltac:(lia) ltac:(lia)).
  rewrite u32_small by (unfold is_u32; lia). lia.
Qed.

Lemma IBLOCK_small s inum :
  fs_geom s → 0 ≤ inum ≤ sb_ninodes (k_sb s) →
  IBLOCK inum (k_sb s) = inum / IPB + sb_inodestart (k_sb s) ∧
  sb_inodestart (k_sb s) ≤ IBLOCK inum (k_sb s) < sb_bmapstart (k_sb s) ∧ home s (IBLOCK inum (k_sb s)).
Proof.
  intros (G1 & G2 & G3 & G4 & G5 & G6 & G7 & G8) Hb. unfold IBLOCK, home, home_ok, in_log, data_start, BPB, IPB, BSIZE in *.
  change (512 * 8) with 4096 in *. change (512 / 64) with 8 in *.
  pose proof (Z.div_pos inum 8 ltac:(lia) ltac:(lia)).
  pose proof (Z.div_pos (Z.of_nat (length (k_disk s))) 4096 ltac:(lia) ltac:(lia)).
  pose proof (Z.div_le_mono inum (sb_ninodes (k_sb s)) 8 ltac:(lia) ltac:(lia)).
  rewrite u32_small by (unfold is_u32; lia). lia.
Qed.

(** A free block is a data block, which is outside the log. *)
Lemma free_home s V b :
  fs_geom s → meta_used s V → 0 ≤ b < Z.of_nat (length (k_disk s)) → bfree_in (k_sb s) V b = true →
  data_start s ≤ b ∧ home s b.
Proof.
  intros G M Hb Hf. assert (Hd : data_start s ≤ b).
  { destruct (decide (data_start s ≤ b)); [done|]. rewrite M in Hf by lia. done. }
  split; [done|]. destruct (BBLOCK_small s b G Hb) as (_ & ? & [_ ?]). split; [lia|].
  destruct G as (G1 & G2 & G3 & G4 & G5 & G6 & G7 & G8). unfold in_log, IPB, BSIZE in *.
  change (512 / 64) with 8 in *. pose proof (Z.div_pos (sb_ninodes (k_sb s)) 8 ltac:(lia) ltac:(lia)). lia.
Qed.

(** The view after [balloc] takes block [b]. *)
Definition alloc_view (sb : superblock) (b : Z) (V : Z → list Z) : Z → list Z :=
  <[b := replicate 512 0]>
    (<[BBLOCK b sb := set_bit (Z.to_nat (b mod BPB)) (V (BBLOCK b sb))]> V).

(** The view after [bfree] gives block [b] back. *)
Definition free_view (sb : superblock) (b : Z) (V : Z → list Z) : Z → list Z :=
  <[BBLOCK b sb := clear_bit (Z.to_nat (b mod BPB)) (V (BBLOCK b sb))]> V.

(** Two blocks have the same bit only if they are the same block. *)
Lemma bit_index s b c :
  fs_geom s → 0 ≤ b < Z.of_nat (length (k_disk s)) → 0 ≤ c < Z.of_nat (length (k_disk s)) →
  BBLOCK b (k_sb s) = BBLOCK c (k_sb s) → Z.to_nat (b mod BPB) = Z.to_nat (c mod BPB) → b = c.
Proof.
  intros G Hb Hc E1 E2. destruct (BBLOCK_small s b G Hb) as (F1 & _). destruct (BBLOCK_small s c G Hc) as (F2 & _).
  unfold BPB, BSIZE in *. change (512 * 8) with 4096 in *. zdiv.
Qed.

Lemma bit_index_lt b (d : list Z) : block_ok d → (Z.to_nat (b mod BPB) / 8 < length d)%nat.
Proof.
  intros [-> _]. unfold BPB, BSIZE. change (512 * 8) with 4096. apply Nat.Div0.div_lt_upper_bound.
  pose proof (Z.mod_pos_bound b 4096 ltac:(lia)). lia.
Qed.

Lemma alloc_view_free s V b c :
  fs_geom s → meta_used s V → block_ok (V (BBLOCK b (k_sb s))) →
  0 ≤ b < Z.of_nat (length (k_disk s)) → 0 ≤ c < Z.of_nat (length (k_disk s)) →
  bfree_in (k_sb s) V b = true →
  bfree_in (k_sb s) (alloc_view (k_sb s) b V) c = if decide (b = c) then false else bfree_in (k_sb s) V c.
Proof.
  intros G M Hok Hb Hc Hf. destruct (free_home s V b G M Hb Hf) as [Hd _].
  destruct (BBLOCK_small s c G Hc) as (_ & Hr & _). unfold bfree_in, alloc_view.
  rewrite fn_lookup_insert_ne by lia. destruct (decide (BBLOCK b (k_sb s) = BBLOCK c (k_sb s))) as [E|E].
  - rewrite <-E, fn_lookup_insert, bit_clear_set by (by apply bit_index_lt).
    repeat case_decide; try done; [|congruence]. destruct (H0 (bit_index s b c G Hb Hc E H)).
  - rewrite fn_lookup_insert_ne by done. rewrite decide_False by congruence. done.
Qed.

Lemma free_view_free s V b c :
  fs_geom s → block_ok (V (BBLOCK b (k_sb s))) →
  0 ≤ b < Z.of_nat (length (k_disk s)) → 0 ≤ c < Z.of_nat (length (k_disk s)) →
  bfree_in (k_sb s) (free_view (k_sb s) b V) c = if decide (b = c) then true else bfree_in (k_sb s) V c.
Proof.
  intros G Hok Hb Hc. unfold bfree_in, free_view.
  destruct (decide (BBLOCK b (k_sb s) = BBLOCK c (k_sb s))) as [E|E].
  - rewrite <-E, fn_lookup_insert, bit_clear_clear by (by apply bit_index_lt).
    repeat case_decide; try done; [|congruence]. destruct (H0 (bit_index s b c G Hb Hc E H)).
  - rewrite fn_lookup_insert_ne by done. rewrite decide_False by congruence. done.
Qed.

(** * The allocator of blocks *)

Section blocks.
Context {txn : kernel → gmap nat Z → (Z → list Z) → nat → Prop} {T : BlockTxn txn}.

(** A store into a buffer followed by [log_write]. *)
Lemma write_run {A} s H V k i b f (m : K A) :
  txn s H V (S k) → H !! i = Some b → home s b → block_ok (f (V b)) →
  ∃ s', (set_buf i (λ bf, with_b_data (f (b_data bf)) bf) ;;; log_write i ;;; m) s = m s' ∧
    txn s' H (<[b := f (V b)]> V) k ∧ tframe s s'.
Proof.
  intros Ht HH Hb Hf. destruct (txn_data _ _ _ _ _ _ Ht HH) as (bf & Ebf & Edat & _).
  destruct (txn_write _ _ _ _ i b (f (V b)) Ht HH Hb Hf) as (s' & E & Ht' & F). exists s'. split; [|done].
  unfold write_buf, set_buf in *. erewrite bind_done in E by done.
  erewrite bind_done by done. rewrite (upd_buf_ext i _ (with_b_data (f (V b))) bf) by (done || by rewrite Edat).
  by erewrite bind_done by exact E.
Qed.

Lemma zero_ok : block_ok (replicate 512 0).
Proof. split; [apply length_replicate|]. apply Forall_replicate. unfold is_u8. lia. Qed.

Lemma home_u32 s b : fs_geom s → home s b → u32 b = b.
Proof. intros (G & _) [Hb _]. apply u32_small. unfold is_u32. lia. Qed.

Lemma bzero_spec s H V k b :
  txn s H V (S k) → (size H ≤ S k)%nat → fs_geom s → home s b → (∀ i, H !! i ≠ Some b) →
  ∃ s', bzero 1 b s = Done tt s' ∧ txn s' H (<[b := replicate 512 0]> V) k ∧ tframe s s'.
Proof.
  intros Ht Hsz G Hb Hno. unfold bzero. rewrite (home_u32 s b) by done. change (u32 1) with 1.
  destruct (txn_bread _ _ _ _ b Ht Hsz Hb Hno) as (i & s1 & E1 & Hi & T1 & F1).
  erewrite bind_done by exact E1.
  destruct (write_run _ _ _ _ i b (λ _, replicate 512 0) (brelse i) T1) as (s2 & E2 & T2 & F2);
    [apply lookup_insert_eq|eauto with kernel|apply zero_ok|].
  destruct (txn_release _ _ _ _ _ _ T2 Hi) as (s3 & E3 & T3 & F3). exists s3. split; [|split; [done|]].
  - etransitivity; [exact E2|done].
  - eapply tframe_trans; [exact F1|]. by eapply tframe_trans.
Qed.

(** No buffer of the bitmap or of a free block is held by the caller. *)
Definition held_ok (s : kernel) (H : gmap nat Z) (V : Z → list Z) : Prop :=
  ∀ i b, H !! i = Some b → data_start s ≤ b ∧ in_use s V b.

Lemma held_not_meta s H V b : held_ok s H V → b < data_start s → ∀ i, H !! i ≠ Some b.
Proof. intros Hh Hb i Hi. destruct (Hh i b Hi). lia. Qed.

(** The blocks [4096 j .. 4096 j + 4095] of the disk. *)
Definition group (s : kernel) (j : nat) : nat :=
  Z.to_nat (BPB `min` (sb_size (k_sb s) - Z.of_nat j * BPB)).

Lemma group_bit s V j bi :
  fs_geom s → (bi < group s j)%nat →
  let b := Z.of_nat j * BPB + Z.of_nat bi in
  0 ≤ b < Z.of_nat (length (k_disk s)) ∧ BBLOCK b (k_sb s) = BBLOCK (Z.of_nat j * BPB) (k_sb s) ∧
  Z.to_nat (b mod BPB) = bi ∧
  bfree_in (k_sb s) V b = bit_clear (V (BBLOCK (Z.of_nat j * BPB) (k_sb s))) bi.
Proof.
  intros (G1 & G2 & _) Hbi b. unfold group in Hbi. unfold b, bfree_in, BBLOCK, BPB, BSIZE in *.
  change (512 * 8) with 4096 in *. rewrite G2 in Hbi.
  rewrite Z.div_add_l, Z.div_mul, (Z.div_small (Z.of_nat bi)), Z.add_0_r by lia.
  rewrite Z.add_comm, Z.mod_add, Z.mod_small, Nat2Z.id by lia. split; [lia|done].
Qed.

Lemma find_seq_Some (f : nat → bool) n i :
  find_index f (seq 0 n) = Some i ↔ (i < n)%nat ∧ f i = true ∧ ∀ j, (j < i)%nat → f j = false.
Proof.
  rewrite find_index_Some. split.
  - intros [(x & Hx & Hf) Hmin]. apply lookup_seq in Hx as [-> Hi]. split; [done|]. split; [done|].
    intros j Hj. apply (Hmin j j); [done|]. apply lookup_seq. lia.
  - intros (Hi & Hf & Hmin). split.
    + exists i. split; [apply lookup_seq; lia|done].
    + intros j y Hj Hy. apply lookup_seq in Hy as [-> _]. by apply Hmin.
Qed.

Lemma find_seq_None (f : nat → bool) n :
  find_index f (seq 0 n) = None ↔ ∀ i, (i < n)%nat → f i = false.
Proof.
  rewrite find_index_None. split.
  - intros H i Hi. apply (H i). apply lookup_seq. lia.
  - intros H i x Hx. apply lookup_seq in Hx as [-> ?]. by apply H.
Qed.

(** A turn of the loop on a group with no free block. *)
Lemma balloc_body_none s H V k j :
  txn s H V k → (size H ≤ k)%nat → fs_geom s → held_ok s H V →
  Z.of_nat j * BPB < Z.of_nat (length (k_disk s)) →
  (∀ bi, (bi < group s j)%nat → bfree_in (k_sb s) V (Z.of_nat j * BPB + Z.of_nat bi) = false) →
  ∃ s', balloc_body 1 (k_sb s) j s = Done None s' ∧ txn s' H V k ∧ tframe s s'.
Proof.
  intros Ht Hsz G Hh Hj Hno. unfold balloc_body.
  destruct (BBLOCK_small s (Z.of_nat j * BPB) G) as (_ & Hr & Hb); [unfold BPB, BSIZE in *; lia|].
  destruct (txn_bread _ _ _ _ _ Ht Hsz Hb) as (i & s1 & E1 & Hi & T1 & F1).
  { eapply held_not_meta; [done|lia]. }
  erewrite bind_done by exact E1.
  destruct (txn_buf_at _ _ _ _ _ _ T1 (lookup_insert_eq _ _ _)) as (bf & Eb & Edat & _).
  erewrite bind_done by exact Eb. rewrite Edat. fold (group s j).
  rewrite (proj2 (find_seq_None _ _)).
  - destruct (txn_release _ _ _ _ _ _ T1 Hi) as (s2 & E2 & T2 & F2). exists s2.
    split; [by erewrite bind_done by exact E2|]. split; [done|by eapply tframe_trans].
  - intros bi Hbi. destruct (group_bit s V j bi G Hbi) as (_ & _ & _ & <-). by apply Hno.
Qed.

(** The turn that finds the first free block. *)
Lemma balloc_body_some s H V k j bi :
  txn s H V (S (S k)) → (size H ≤ S k)%nat → fs_geom s → meta_used s V → held_ok s H V →
  (bi < group s j)%nat → bfree_in (k_sb s) V (Z.of_nat j * BPB + Z.of_nat bi) = true →
  (∀ bi', (bi' < bi)%nat → bfree_in (k_sb s) V (Z.of_nat j * BPB + Z.of_nat bi') = false) →
  ∃ s', balloc_body 1 (k_sb s) j s = Done (Some (Z.of_nat j * BPB + Z.of_nat bi)) s' ∧
    txn s' H (alloc_view (k_sb s) (Z.of_nat j * BPB + Z.of_nat bi) V) k ∧ tframe s s'.
Proof.
  intros Ht Hsz G M Hh Hbi Hf Hmin. destruct (group_bit s V j bi G Hbi) as (Hb & EB & Emod & Efree).
  set (b := Z.of_nat j * BPB + Z.of_nat bi) in *. destruct (free_home s V b G M Hb Hf) as [Hd Hbh].
  destruct (BBLOCK_small s b G Hb) as (_ & Hr & HBh). rewrite EB in Hr, HBh. unfold balloc_body.
  assert (Hsz' : (size H ≤ S (S k))%nat) by lia.
  destruct (txn_bread _ _ _ _ _ Ht Hsz' HBh) as (i & s1 & E1 & Hi & T1 & F1).
  { eapply held_not_meta; [done|lia]. }
  erewrite bind_done by exact E1.
  destruct (txn_buf_at _ _ _ _ _ _ T1 (lookup_insert_eq _ _ _)) as (bf & Eb & Edat & Hok).
  erewrite bind_done by exact Eb. rewrite Edat. fold (group s j). rewrite (proj2 (find_seq_Some _ _ bi)).
  2:{ split; [done|]. split; [by rewrite <-Efree|]. intros bi' Hlt.
      destruct (group_bit s V j bi' G) as (_ & _ & _ & <-); [lia|]. by apply Hmin. }
  destruct (write_run _ _ _ _ i _ (set_bit bi) (brelse i ;;; bzero 1 b ;;; ret (Some b)) T1
    (lookup_insert_eq _ _ _)) as (s2 & E2 & T2 & F2); [eauto with kernel|by apply set_bit_ok|].
  destruct (txn_release _ _ _ _ _ _ T2 Hi) as (s3 & E3 & T3 & F3).
  pose proof (tframe_trans _ _ _ F1 (tframe_trans _ _ _ F2 F3)) as F.
  destruct (bzero_spec s3 H _ k b T3) as (s4 & E4 & T4 & F4);
    [lia|by eapply fs_geom_frame|by eapply tframe_home| |].
  { intros i' Hi'. destruct (Hh i' b Hi') as [_ [_ Hu]]. congruence. }
  exists s4. split; [|split].
  - etransitivity; [exact E2|]. erewrite bind_done by exact E3. by erewrite bind_done by exact E4.
  - unfold alloc_view. by rewrite EB, Emod.
  - by eapply tframe_trans.
Qed.

Lemma balloc_loop s H V k b n j :
  txn s H V (S (S k)) → (size H ≤ S k)%nat → fs_geom s → meta_used s V → held_ok s H V →
  0 ≤ b < Z.of_nat (length (k_disk s)) → bfree_in (k_sb s) V b = true →
  (∀ c, 0 ≤ c < b → bfree_in (k_sb s) V c = false) →
  Z.of_nat j * BPB ≤ b < Z.of_nat (j + n) * BPB →
  ∃ s', for_return (seq j n) (balloc_body 1 (k_sb s)) s = Done (Some b) s' ∧
    txn s' H (alloc_view (k_sb s) b V) k ∧ tframe s s'.
Proof.
  revert j s. induction n as [|n IH]; intros j s Ht Hsz G M Hh Hb Hf Hmin Hj; [lia|].
  pose proof G as (_ & Gs & _). cbn [seq for_return]. destruct (decide (b < Z.of_nat (S j) * BPB)) as [Hlt|Hge].
  - set (bi := Z.to_nat (b - Z.of_nat j * BPB)).
    assert (Eb : b = Z.of_nat j * BPB + Z.of_nat bi) by (unfold bi; lia).
    destruct (balloc_body_some s H V k j bi) as (s' & E & T' & F'); try done.
    + unfold group. rewrite Gs. unfold bi, BPB, BSIZE in *. lia.
    + by rewrite <-Eb.
    + intros bi' Hbi'. apply Hmin. unfold BPB, BSIZE in *. lia.
    + exists s'. rewrite <-Eb in E, T'. split; [by erewrite bind_done by exact E|done].
  - destruct (balloc_body_none s H V (S (S k)) j) as (s1 & E1 & T1 & F1); try done; [lia|lia| |].
    + intros bi Hbi. apply Hmin. unfold group, BPB, BSIZE in *. lia.
    + erewrite bind_done by exact E1. rewrite <-(tframe_sb _ _ F1).
      destruct (IH (S j) s1) as (s' & E & T' & F'); try done.
      * by eapply fs_geom_frame.
      * unfold meta_used, data_start. rewrite (tframe_sb _ _ F1), (tframe_disk _ _ F1). exact M.
      * unfold held_ok, in_use, data_start. rewrite (tframe_sb _ _ F1), (tframe_disk _ _ F1). exact Hh.
      * by rewrite (tframe_disk _ _ F1).
      * by rewrite (tframe_sb _ _ F1).
      * by rewrite (tframe_sb _ _ F1).
      * lia.
      * exists s'. split; [done|]. split; [done|by eapply tframe_trans].
Qed.

Lemma balloc_spec s H V k b :
  txn s H V (S (S k)) → (size H ≤ S k)%nat → fs_geom s → meta_used s V → held_ok s H V →
  0 ≤ b < Z.of_nat (length (k_disk s)) → bfree_in (k_sb s) V b = true →
  (∀ c, 0 ≤ c < b → bfree_in (k_sb s) V c = false) →
  ∃ s', balloc 1 s = Done b s' ∧ txn s' H (alloc_view (k_sb s) b V) k ∧ tframe s s'.
Proof.
  intros Ht Hsz G M Hh Hb Hf Hmin. pose proof G as (_ & Gs & _). unfold balloc.
  unfold bind at 1, gets. cbn [obind].
  destruct (balloc_loop s H V k b (Z.to_nat ((sb_size (k_sb s) + BPB - 1) / BPB)) 0) as (s' & E & T' & F'); try done.
  - rewrite Gs. unfold BPB, BSIZE in *. change (512 * 8) with 4096. zdiv.
  - exists s'. split; [by erewrite bind_done by exact E|done].
Qed.

(** With every block in use, [balloc] panics. *)
Lemma balloc_loop_full s H V k n j :
  txn s H V k → (size H ≤ k)%nat → fs_geom s → held_ok s H V →
  (∀ c, 0 ≤ c < Z.of_nat (length (k_disk s)) → bfree_in (k_sb s) V c = false) →
  (∀ i, (i < n)%nat → Z.of_nat (j + i) * BPB < Z.of_nat (length (k_disk s))) →
  ∃ s', for_return (seq j n) (balloc_body 1 (k_sb s)) s = Done None s'.
Proof.
  revert j s. induction n as [|n IH]; intros j s Ht Hsz G Hh Hno Hn; [by exists s|].
  pose proof G as (_ & Gs & _). cbn [seq for_return].
  destruct (balloc_body_none s H V k j) as (s1 & E1 & T1 & F1); try done.
  - specialize (Hn 0%nat). rewrite Nat.add_0_r in Hn. apply Hn. lia.
  - intros bi Hbi. apply Hno. unfold group, BPB, BSIZE in *. lia.
  - erewrite bind_done by exact E1. rewrite <-(tframe_sb _ _ F1). apply IH; try done.
    + by eapply fs_geom_frame.
    + unfold held_ok, in_use, data_start. rewrite (tframe_sb _ _ F1), (tframe_disk _ _ F1). exact Hh.
    + by rewrite (tframe_sb _ _ F1), (tframe_disk _ _ F1).
    + intros i Hi. rewrite (tframe_disk _ _ F1). replace (S j + i)%nat with (j + S i)%nat by lia. apply Hn. lia.
Qed.

Lemma balloc_full s H V k :
  txn s H V k → (size H ≤ k)%nat → fs_geom s → held_ok s H V →
  (∀ c, 0 ≤ c < Z.of_nat (length (k_disk s)) → bfree_in (k_sb s) V c = false) →
  balloc 1 s = Panicked "balloc: out of blocks".
Proof.
  intros Ht Hsz G Hh Hno. pose proof G as (_ & Gs & _). unfold balloc. unfold bind at 1, gets. cbn [obind].
  destruct (balloc_loop_full s H V k (Z.to_nat ((sb_size (k_sb s) + BPB - 1) / BPB)) 0) as (s' & E); try done.
  - intros i Hi. rewrite Gs in Hi. unfold BPB, BSIZE in *. change (512 * 8) with 4096 in *. zdiv.
  - by erewrite bind_done by exact E.
Qed.

Lemma bfree_spec s H V k b :
  txn s H V (S k) → (size H ≤ S k)%nat → fs_geom s → held_ok s H V → in_use s V b →
  ∃ s', bfree 1 b s = Done tt s' ∧ txn s' H (free_view (k_sb s) b V) k ∧ tframe s s'.
Proof.
  intros Ht Hsz G Hh [Hb Hu]. destruct (BBLOCK_small s b G Hb) as (_ & Hr & HBh). unfold bfree.
  unfold bind at 1, gets. cbn [obind]. change (u32 1) with 1.
  destruct (txn_bread _ _ _ _ _ Ht Hsz HBh) as (i & s1 & E1 & Hi & T1 & F1).
  { eapply held_not_meta; [done|lia]. }
  erewrite bind_done by exact E1.
  destruct (txn_buf_at _ _ _ _ _ _ T1 (lookup_insert_eq _ _ _)) as (bf & Eb & Edat & Hok).
  erewrite bind_done by exact Eb. rewrite Edat. unfold bfree_in in Hu. rewrite Hu.
  destruct (write_run _ _ _ _ i _ (clear_bit (Z.to_nat (b mod BPB))) (brelse i) T1 (lookup_insert_eq _ _ _))
    as (s2 & E2 & T2 & F2); [eauto with kernel|by apply clear_bit_ok|].
  destruct (txn_release _ _ _ _ _ _ T2 Hi) as (s3 & E3 & T3 & F3). exists s3. split; [|split; [done|]].
  - etransitivity; [exact E2|done].
  - eapply tframe_trans; [exact F1|]. by eapply tframe_trans.
Qed.

Lemma bfree_free s H V k b :
  txn s H V k → (size H ≤ k)%nat → fs_geom s → held_ok s H V → 0 ≤ b < Z.of_nat (length (k_disk s)) →
  bfree_in (k_sb s) V b = true → bfree 1 b s = Panicked "freeing free block".
Proof.
  intros Ht Hsz G Hh Hb Hu. destruct (BBLOCK_small s b G Hb) as (_ & Hr & HBh). unfold bfree.
  unfold bind at 1, gets. cbn [obind]. change (u32 1) with 1.
  destruct (txn_bread _ _ _ _ _ Ht Hsz HBh) as (i & s1 & E1 & Hi & T1 & F1).
  { eapply held_not_meta; [done|lia]. }
  erewrite bind_done by exact E1.
  destruct (txn_buf_at _ _ _ _ _ _ T1 (lookup_insert_eq _ _ _)) as (bf & Eb & Edat & Hok).
  erewrite bind_done by exact Eb. rewrite Edat. unfold bfree_in in Hu. by rewrite Hu.
Qed.
End blocks.

(** * Inodes on disk *)

Definition is_short (z : Z) : Prop := -32768 ≤ z < 32768.

Record dinode_ok (d : dinode) : Prop := mkDinodeOk {
  do_type : is_short (d_type d);
  do_major : is_short (d_major d);
  do_minor : is_short (d_minor d);
  do_nlink : is_short (d_nlink d);
  do_size : is_u32 (d_size d);
  do_len : length (d_addrs d) = 13%nat;
  do_addrs : Forall is_u32 (d_addrs d);
}.

Lemma length_enc4 l : length (l ≫= le_enc 4) = (4 * length l)%nat.
Proof.
  induction l as [|x l IH]; [done|]. rewrite bind_cons, length_app, length_le_enc, IH. cbn [length]. lia.
Qed.

Lemma enc4_bytes l : Forall is_u8 (l ≫= le_enc 4).
Proof.
  induction l as [|x l IH]; [constructor|]. rewrite bind_cons. apply Forall_app. auto with kernel.
Qed.

Lemma length_dinode_enc d : length (d_addrs d) = 13%nat → length (dinode_enc d) = 64%nat.
Proof. intros H. unfold dinode_enc. rewrite !length_app, !length_le_enc, length_enc4, H. done. Qed.

Lemma dinode_enc_bytes d : Forall is_u8 (dinode_enc d).
Proof. unfold dinode_enc. repeat (apply Forall_app; split); auto using le_enc_bytes, enc4_bytes. Qed.

Lemma slice_splice_in (d : list Z) off e o n :
  (off + length e ≤ length d)%nat → (o + n ≤ length e)%nat →
  slice (splice d off e) (off + o) n = slice e o n.
Proof.
  intros H1 H2. apply list_eq. intros i. rewrite !lookup_slice. case_decide; [|done].
  rewrite lookup_splice by done. rewrite decide_True by lia. f_equal. lia.
Qed.

Lemma slice_mid (a b c : list Z) : slice (a ++ b ++ c) (length a) (length b) = b.
Proof. unfold slice. by rewrite drop_app_length, take_app_length. Qed.

Lemma slice_enc4 l j x : l !! j = Some x → slice (l ≫= le_enc 4) (4 * j) 4 = le_enc 4 x.
Proof.
  intros Hj. pose proof (lookup_lt_Some _ _ _ Hj) as Hlt. apply take_drop_middle in Hj.
  assert (Ha : length (take j l) = j) by (rewrite length_take; lia).
  rewrite <-Hj. generalize dependent (take j l). intros a _ Ha.
  rewrite bind_app. replace (4 * j)%nat with (length (a ≫= le_enc 4)) by (rewrite length_enc4; lia).
  exact (slice_mid (a ≫= le_enc 4) (le_enc 4 x) _).
Qed.

Lemma slice_app_r (a b : list Z) o n : slice (a ++ b) (length a + o) n = slice b o n.
Proof. unfold slice. by rewrite drop_app_add. Qed.

Lemma dinode_dec_enc (d : list Z) off x :
  (off + 64 ≤ length d)%nat → dinode_ok x → dinode_dec (splice d off (dinode_enc x)) off = x.
Proof.
  intros Hoff [H1 H2 H3 H4 H5 H6 H7]. pose proof (length_dinode_enc x H6) as Hl.
  assert (Hs : ∀ o n, (o + n ≤ 64)%nat → slice (splice d off (dinode_enc x)) (off + o) n = slice (dinode_enc x) o n).
  { intros o n Ho. apply slice_splice_in; lia. }
  assert (Ha : (λ j, rd_uint (splice d off (dinode_enc x)) (off + 12 + 4 * j)) <$> seq 0 13 = d_addrs x).
  { apply list_eq. intros j. rewrite list_lookup_fmap. destruct (d_addrs x !! j) as [a|] eqn:E.
    - pose proof (lookup_lt_Some _ _ _ E). rewrite lookup_seq_lt by lia. simpl. f_equal. unfold rd_uint.
      replace (off + 12 + _)%nat with (off + (12 + 4 * j))%nat by lia. rewrite Hs by lia.
      pose (h := le_enc 2 (d_type x) ++ le_enc 2 (d_major x) ++ le_enc 2 (d_minor x) ++
        le_enc 2 (d_nlink x) ++ le_enc 4 (d_size x)).
      change (dinode_enc x) with (h ++ (d_addrs x ≫= le_enc 4)).
      change (12 + 4 * j)%nat with (length h + 4 * j)%nat.
      rewrite (slice_app_r _ _ (4 * j)), (slice_enc4 _ _ a) by done. rewrite le_dec_enc4.
      apply u32_small. by eapply Forall_lookup_1.
    - apply lookup_ge_None in E. rewrite lookup_seq_ge by lia. done. }
  unfold dinode_dec. rewrite Ha. rewrite <-(Nat.add_0_r off) at 2. unfold rd_short, rd_uint. rewrite !Hs by lia.
  assert (E0 : slice (dinode_enc x) 0 2 = le_enc 2 (d_type x)) by done.
  assert (E1 : slice (dinode_enc x) 2 2 = le_enc 2 (d_major x)) by done.
  assert (E2 : slice (dinode_enc x) 4 2 = le_enc 2 (d_minor x)) by done.
  assert (E3 : slice (dinode_enc x) 6 2 = le_enc 2 (d_nlink x)) by done.
  assert (E4 : slice (dinode_enc x) 8 4 = le_enc 4 (d_size x)) by done.
  assert (Es : ∀ z, is_short z → s16 (le_dec (le_enc 2 z)) = z).
  { intros z Hz. rewrite le_dec_enc2. unfold is_short in Hz. unfold s16, u16. zdiv. }
  rewrite E0, E1, E2, E3, E4, !Es, le_dec_enc4, u32_small by done. by destruct x.
Qed.

Lemma dinode_dec_other (d e : list Z) off off' :
  (off + length e ≤ length d)%nat → (off' + 64 ≤ off ∨ off + length e ≤ off')%nat →
  dinode_dec (splice d off e) off' = dinode_dec d off'.
Proof.
  intros H1 H2. unfold dinode_dec, rd_short, rd_uint.
  rewrite !slice_splice_disjoint by lia. f_equal. apply list_fmap_ext. intros j y Hy.
  apply lookup_seq in Hy as [-> Hj]. by rewrite slice_splice_disjoint by lia.
Qed.

(** Inode [inum] on disk. *)
Definition dinode_at (sb : superblock) (V : Z → list Z) (inum : Z) : dinode :=
  dinode_dec (V (IBLOCK inum sb)) (dinode_off inum).

(** The view after inode [inum] is written. *)
Definition inode_view (sb : superblock) (inum : Z) (d : dinode) (V : Z → list Z) : Z → list Z :=
  <[IBLOCK inum sb := splice (V (IBLOCK inum sb)) (dinode_off inum) (dinode_enc d)]> V.

Lemma dinode_off_bound inum : 0 ≤ inum → (dinode_off inum + 64 ≤ 512)%nat.
Proof. intros H. unfold dinode_off, IPB, BSIZE. change (512 / 64) with 8. zdiv. Qed.

Lemma inode_view_ok sb inum d V :
  0 ≤ inum → dinode_ok d → block_ok (V (IBLOCK inum sb)) →
  block_ok (splice (V (IBLOCK inum sb)) (dinode_off inum) (dinode_enc d)).
Proof.
  intros Hi Hd [Hl Hb]. pose proof (dinode_off_bound inum Hi). pose proof (length_dinode_enc d (do_len _ Hd)).
  split; [rewrite length_splice; lia|]. apply Forall_splice; [done|apply dinode_enc_bytes].
Qed.

Lemma dinode_at_view s V inum d inum' :
  fs_geom s → 0 ≤ inum ≤ sb_ninodes (k_sb s) → 0 ≤ inum' ≤ sb_ninodes (k_sb s) → dinode_ok d →
  block_ok (V (IBLOCK inum (k_sb s))) →
  dinode_at (k_sb s) (inode_view (k_sb s) inum d V) inum' =
    if decide (inum = inum') then d else dinode_at (k_sb s) V inum'.
Proof.
  intros G Hi Hi' Hd [Hl Hb]. pose proof (dinode_off_bound inum ltac:(lia)). pose proof (length_dinode_enc d (do_len _ Hd)).
  unfold dinode_at, inode_view. case_decide as E.
  - subst. rewrite fn_lookup_insert. apply dinode_dec_enc; [lia|done].
  - destruct (decide (IBLOCK inum (k_sb s) = IBLOCK inum' (k_sb s))) as [EB|EB].
    + rewrite <-EB, fn_lookup_insert. apply dinode_dec_other; [lia|].
      destruct (IBLOCK_small s inum G Hi) as (F1 & _). destruct (IBLOCK_small s inum' G Hi') as (F2 & _).
      unfold dinode_off, IPB, BSIZE in *. change (512 / 64) with 8 in *. zdiv.
    + by rewrite fn_lookup_insert_ne by done.
Qed.

(** * The cache of inodes *)

Lemma inode_at_ok i ip s : k_icache s !! i = Some ip → inode_at i s = Done ip s.
Proof. intros H. unfold inode_at, bind, get. simpl. by rewrite H. Qed.

Lemma upd_inode_twice i f g s : upd_inode i f (upd_inode i g s) = upd_inode i (λ x, f (g x)) s.
Proof.
  unfold upd_inode, with_k_icache. simpl. f_equal. apply list_eq. intros j. rewrite !list_lookup_alter.
  case_decide; [|done]. subst. rewrite decide_True by done. by destruct (_ !! _).
Qed.

(** At most one entry per inode, and no negative count. *)
Definition icache_ok (ic : list inode) : Prop :=
  (∀ i ip, ic !! i = Some ip → 0 ≤ i_ref ip < 2147483647) ∧
  (∀ i j ip jp, ic !! i = Some ip → ic !! j = Some jp → 0 < i_ref ip → 0 < i_ref jp →
    i_dev ip = i_dev jp → i_inum ip = i_inum jp → i = j).

Definition refs (dev inum : Z) (ip : inode) : bool :=
  (0 <? i_ref ip) && (i_dev ip =? dev) && (i_inum ip =? inum).

Lemma refs_true dev inum ip :
  refs dev inum ip = true ↔ 0 < i_ref ip ∧ i_dev ip = dev ∧ i_inum ip = inum.
Proof. unfold refs. rewrite !andb_true_iff, Z.ltb_lt, !Z.eqb_eq. tauto. Qed.

(** [iget], as the entry it picks and what it becomes. *)
Lemma iget_cached dev inum i s :
  kok s → unlocked LIcache s → find_index (refs dev inum) (k_icache s) = Some i →
  iget dev inum s = Done i (upd_inode i (λ ip, with_i_ref (s32 (i_ref ip + 1)) ip) s).
Proof.
  intros Hok Hul Hf. unfold iget. run kacquire_ok. erewrite bind_done by done.
  change (k_icache (enter LIcache s)) with (k_icache s). unfold refs in Hf. rewrite Hf.
  erewrite bind_done by done. erewrite bind_done.
  2:{ apply krelease_ok; [by apply kok_enter|by apply owned_enter]. }
  change (leave LIcache (upd_inode i ?f (enter LIcache s))) with (upd_inode i f (leave LIcache (enter LIcache s))).
  by rewrite leave_enter.
Qed.

Lemma iget_recycled dev inum i s :
  kok s → unlocked LIcache s → find_index (refs dev inum) (k_icache s) = None →
  find_index (λ ip, i_ref ip =? 0) (k_icache s) = Some i →
  iget dev inum s =
    Done i (upd_inode i (λ ip, with_i_valid 0 (with_i_ref 1 (with_i_inum inum (with_i_dev dev ip)))) s).
Proof.
  intros Hok Hul Hf He. unfold iget. run kacquire_ok. erewrite bind_done by done.
  change (k_icache (enter LIcache s)) with (k_icache s). unfold refs in Hf. rewrite Hf, He.
  erewrite bind_done by done. erewrite bind_done.
  2:{ apply krelease_ok; [by apply kok_enter|by apply owned_enter]. }
  change (leave LIcache (upd_inode i ?f (enter LIcache s))) with (upd_inode i f (leave LIcache (enter LIcache s))).
  by rewrite leave_enter.
Qed.

Lemma icache_ok_upd ic i ip f :
  icache_ok ic → ic !! i = Some ip → 0 ≤ i_ref (f ip) < 2147483647 →
  (0 < i_ref (f ip) → ∀ j jp, j ≠ i → ic !! j = Some jp → 0 < i_ref jp →
     ¬ (i_dev jp = i_dev (f ip) ∧ i_inum jp = i_inum (f ip))) →
  icache_ok (alter f i ic).
Proof.
  intros [Hr Hu] Hi Hf Hne. assert (L : ∀ j jp, alter f i ic !! j = Some jp →
    j = i ∧ jp = f ip ∨ j ≠ i ∧ ic !! j = Some jp).
  { intros j jp. rewrite list_lookup_alter. case_decide; [|by right]. subst. rewrite Hi. simpl.
    intros [= <-]. by left. }
  split.
  - intros j jp [[-> ->]|[_ Hj]]%L; [done|by eapply Hr].
  - intros j j' jp jp' [[-> ->]|[Hj Lj]]%L [[-> ->]|[Hj' Lj']]%L R1 R2 E1 E2; try done.
    + destruct (Hne R1 j' jp' Hj' Lj' R2). done.
    + destruct (Hne R2 j jp Hj Lj R1). done.
    + by eapply (Hu j j').
Qed.

Lemma idup_ok i s :
  kok s → unlocked LIcache s →
  idup i s = Done i (upd_inode i (λ ip, with_i_ref (s32 (i_ref ip + 1)) ip) s).
Proof.
  intros Hok Hul. unfold idup. run kacquire_ok. erewrite bind_done by done. erewrite bind_done.
  2:{ apply krelease_ok; [by apply kok_enter|by apply owned_enter]. }
  change (leave LIcache (upd_inode i ?f (enter LIcache s))) with (upd_inode i f (leave LIcache (enter LIcache s))).
  by rewrite leave_enter.
Qed.

(** The cache holds each inode once.  [iget] returns an entry for the inode
    asked for: the one that is there, with one more reference and its
    contents kept, or else an unused one, marked invalid; no other entry
    changes, and no inode gets a second entry.  It panics exactly when the
    inode has no entry and every entry is in use. *)
Theorem iget_unique dev inum s :
  kok s → unlocked LIcache s → icache_ok (k_icache s) →
  (∀ i ip, k_icache s !! i = Some ip → i_ref ip + 1 < 2147483647) →
  (∃ i ip ip', iget dev inum s = Done i (upd_inode i (λ _, ip') s) ∧ k_icache s !! i = Some ip ∧
    i_dev ip' = dev ∧ i_inum ip' = inum ∧ i_ref ip' = i_ref ip + 1 ∧ inode_disk ip' = inode_disk ip ∧
    icache_ok (alter (λ _, ip') i (k_icache s)) ∧
    i_valid ip' = if 0 <? i_ref ip then i_valid ip else 0) ∨
  iget dev inum s = Panicked "iget: no inodes" ∧
    ∀ i ip, k_icache s !! i = Some ip → 0 < i_ref ip ∧ ¬ (i_dev ip = dev ∧ i_inum ip = inum).
Proof.
  intros Hok Hul Hic Hov. destruct (find_index (refs dev inum) (k_icache s)) as [i|] eqn:E1.
  - left. pose proof (iget_cached dev inum i s Hok Hul E1) as Eg.
    apply find_index_Some in E1 as [(ip & Hi & (Hr & Hd & Hn)%refs_true) _].
    exists i, ip, (with_i_ref (i_ref ip + 1) ip). pose proof (Hov i ip Hi). split.
    { rewrite Eg. f_equal. unfold upd_inode. f_equal. apply list_alter_ext; [|done]. intros x Hx.
      rewrite Hi in Hx. injection Hx as <-. by rewrite s32_small by lia. }
    do 5 (split; [done|]). split; [|by rewrite (proj2 (Z.ltb_lt _ _))].
    apply icache_ok_upd with ip; simpl; try done; [lia|]. intros _ j jp Hj Lj Rj [Ed En].
    apply Hj. by apply (proj2 Hic j i jp ip).
  - destruct (find_index (λ ip, i_ref ip =? 0) (k_icache s)) as [i|] eqn:E2.
    + left. pose proof (iget_recycled dev inum i s Hok Hul E1 E2) as Eg.
      apply find_index_Some in E2 as [(ip & Hi & Hr%Z.eqb_eq) _].
      exists i, ip, (with_i_valid 0 (with_i_ref 1 (with_i_inum inum (with_i_dev dev ip)))). split.
      { rewrite Eg. f_equal. unfold upd_inode. f_equal. apply list_alter_ext; [|done]. intros x Hx. congruence. }
      do 3 (split; [done|]). rewrite Hr. do 2 (split; [done|]). split; [|done].
      apply icache_ok_upd with ip; simpl; try done. intros _ j jp Hj Lj Rj [Ed En].
      pose proof (proj1 (find_index_None _ _) E1 j jp Lj) as Hf.
      rewrite (proj2 (refs_true _ _ _)) in Hf by done. done.
    + right. split.
      * unfold iget. run kacquire_ok. erewrite bind_done by done.
        change (k_icache (enter LIcache s)) with (k_icache s). unfold refs in E1. by rewrite E1, E2.
      * intros i ip Hi. pose proof (proj1 (find_index_None _ _) E1 i ip Hi) as H1.
        pose proof (proj1 (find_index_None _ _) E2 i ip Hi) as H2. simpl in H2.
        pose proof (proj1 Hic i ip Hi). split; [lia|]. intros [Hd Hn].
        rewrite (proj2 (refs_true _ _ _)) in H1; [done|]. split; [lia|done].
Qed.

(** * The blocks of a file *)

(** The number of free blocks. *)
Definition nfree (s : kernel) (V : Z → list Z) : nat :=
  length (filter (λ b, bfree_in (k_sb s) V b = true) (seqZ 0 (Z.of_nat (length (k_disk s))))).

Lemma nfree_first s V :
  (1 ≤ nfree s V)%nat →
  ∃ b, 0 ≤ b < Z.of_nat (length (k_disk s)) ∧ bfree_in (k_sb s) V b = true ∧
    ∀ c, 0 ≤ c < b → bfree_in (k_sb s) V c = false.
Proof.
  intros Hn. destruct (find_index (bfree_in (k_sb s) V) (seqZ 0 (Z.of_nat (length (k_disk s))))) as [i|] eqn:E.
  - apply find_index_Some in E as [(b & Hb & Hf) Hmin]. apply lookup_seqZ in Hb as [-> Hi].
    exists (0 + Z.of_nat i). split; [lia|]. split; [done|]. intros c Hc.
    apply (Hmin (Z.to_nat c)); [lia|]. apply lookup_seqZ. lia.
  - assert (nfree s V = 0%nat); [|lia]. unfold nfree. apply length_zero_iff_nil.
    apply elem_of_nil_inv. intros b [Hf (i & Hb)%list_elem_of_lookup]%list_elem_of_filter.
    by rewrite (proj1 (find_index_None _ _) E i b Hb) in Hf.
Qed.

Lemma filter_same (P Q : Z → Prop) `{!∀ x, Decision (P x), !∀ x, Decision (Q x)} (l : list Z) :
  (∀ c, c ∈ l → P c ↔ Q c) → filter P l = filter Q l.
Proof.
  induction l as [|x l IH]; intros HPQ; [done|]. rewrite !filter_cons, IH by (intros c Hc; apply HPQ; by right).
  pose proof (HPQ x ltac:(by left)). repeat case_decide; tauto.
Qed.

Lemma filter_change (P Q : Z → Prop) `{!∀ x, Decision (P x), !∀ x, Decision (Q x)} (l : list Z) b :
  NoDup l → (∀ c, c ∈ l → c ≠ b → P c ↔ Q c) → (length (filter P l) ≤ length (filter Q l) + 1)%nat.
Proof.
  induction 1 as [|x l Hx Hnd IH]; intros HPQ; [simpl; lia|]. rewrite !filter_cons.
  destruct (decide (x = b)) as [->|Hne].
  - assert (filter P l = filter Q l) as ->.
    { apply filter_same. intros c Hc. apply HPQ; [by right|]. by intros ->. }
    repeat case_decide; simpl; lia.
  - pose proof (HPQ x ltac:(by left) Hne). specialize (IH ltac:(intros c Hc; apply HPQ; by right)).
    repeat case_decide; simpl; try lia; tauto.
Qed.

(** [grow s X n V V']: from [V] to [V'] blocks were allocated, at most [n], and
    other than that only bitmap blocks and the blocks [X] changed. *)
Record grow (s : kernel) (X : Z → Prop) (n : nat) (V V' : Z → list Z) : Prop := mkGrow {
  g_use : ∀ c, in_use s V c → in_use s V' c;
  g_keep : ∀ c, in_use s V c → c < sb_bmapstart (k_sb s) ∨ data_start s ≤ c → ¬ X c → V' c = V c;
  g_free : (nfree s V ≤ nfree s V' + n)%nat;
}.

Lemma grow_refl s X V : grow s X 0 V V.
Proof. constructor; [done|done|lia]. Qed.

Lemma grow_trans s X Y n m V1 V2 V3 :
  grow s X n V1 V2 → grow s Y m V2 V3 → grow s (λ c, X c ∨ Y c) (n + m) V1 V3.
Proof.
  intros [U1 K1 F1] [U2 K2 F2]. constructor; [auto| |lia].
  intros c Hc Hm HX. rewrite K2, K1; auto.
Qed.

Lemma grow_weaken s X Y n m V V' :
  grow s X n V V' → (∀ c, in_use s V c → X c → Y c) → (n ≤ m)%nat → grow s Y m V V'.
Proof. intros [U K F] H Hn. constructor; [done| |lia]. intros c Hc Hm HY. apply K; auto. Qed.

Lemma grow_meta s X n V V' : grow s X n V V' → fs_geom s → meta_used s V → meta_used s V'.
Proof.
  intros [U K F] G M b Hb. destruct (U b); [|done]. split; [|by apply M].
  destruct G as (_ & _ & _ & _ & _ & _ & _ & G). lia.
Qed.

(** A write to a block that is not in the bitmap. *)
Lemma grow_write s V b d :
  fs_geom s → (b < sb_bmapstart (k_sb s) ∨ data_start s ≤ b) → grow s (λ c, c = b) 0 V (<[b := d]> V).
Proof.
  intros G Hb. assert (E : ∀ c, 0 ≤ c < Z.of_nat (length (k_disk s)) →
    bfree_in (k_sb s) (<[b := d]> V) c = bfree_in (k_sb s) V c).
  { intros c Hc. unfold bfree_in. destruct (BBLOCK_small s c G Hc) as (_ & Hr & _).
    by rewrite fn_lookup_insert_ne by lia. }
  constructor.
  - intros c [Hc Hu]. split; [done|]. by rewrite E.
  - intros c _ _ Hne. by rewrite fn_lookup_insert_ne by done.
  - unfold nfree. rewrite (filter_same _ (λ c, bfree_in (k_sb s) (<[b := d]> V) c = true)); [lia|].
    intros c Hc. apply elem_of_seqZ in Hc. by rewrite E by lia.
Qed.

Lemma grow_alloc s V b :
  fs_geom s → meta_used s V → block_ok (V (BBLOCK b (k_sb s))) →
  0 ≤ b < Z.of_nat (length (k_disk s)) → bfree_in (k_sb s) V b = true →
  grow s (λ _, False) 1 V (alloc_view (k_sb s) b V).
Proof.
  intros G M Hok Hb Hf. constructor.
  - intros c [Hc Hu]. split; [done|]. rewrite alloc_view_free by done. by case_decide.
  - intros c [Hc Hu] Hm _. unfold alloc_view. destruct (BBLOCK_small s b G Hb) as (_ & Hr & _).
    rewrite fn_lookup_insert_ne by congruence. by rewrite fn_lookup_insert_ne by lia.
  - apply filter_change with b; [apply NoDup_seqZ|]. intros c Hc Hne. apply elem_of_seqZ in Hc.
    rewrite alloc_view_free by (done || lia). by rewrite decide_False by congruence.
Qed.

(** The block of the disk that holds block [bn] of a file, 0 if there is none. *)
Definition ind_of (addrs : list Z) : Z := nth 12 addrs 0.
Definition block_of (V : Z → list Z) (addrs : list Z) (bn : nat) : Z :=
  if (bn <? 12)%nat then nth bn addrs 0
  else if ind_of addrs =? 0 then 0 else rd_uint (V (ind_of addrs)) (4 * (bn - 12)).

Definition data_block (s : kernel) (V : Z → list Z) (b : Z) : Prop := data_start s ≤ b ∧ in_use s V b.

(** The blocks of a file are data blocks in use, each used once. *)
Record file_ok (s : kernel) (V : Z → list Z) (addrs : list Z) : Prop := mkFileOk {
  fo_len : length addrs = 13%nat;
  fo_u32 : Forall is_u32 addrs;
  fo_ind : ind_of addrs ≠ 0 → data_block s V (ind_of addrs);
  fo_block : ∀ bn, (bn < 140)%nat → block_of V addrs bn ≠ 0 →
    data_block s V (block_of V addrs bn) ∧ block_of V addrs bn ≠ ind_of addrs;
  fo_inj : ∀ bn bn', (bn < 140)%nat → (bn' < 140)%nat → block_of V addrs bn ≠ 0 →
    block_of V addrs bn = block_of V addrs bn' → bn = bn';
}.
Arguments fo_len {_ _ _} _.
Arguments fo_u32 {_ _ _} _.
Arguments fo_ind {_ _ _} _.
Arguments fo_block {_ _ _} _.
Arguments fo_inj {_ _ _} _.

(** The disk and its layout are those of [s]. *)
Definition same_disk (s s' : kernel) : Prop :=
  k_sb s' = k_sb s ∧ k_disk s' = k_disk s ∧ log_same (k_log s) (k_log s').

Lemma same_disk_tframe s s' : tframe s s' → same_disk s s'.
Proof. intros F. split; [by apply tframe_sb|]. split; [by apply tframe_disk|]. apply F. Qed.

Lemma same_disk_trans s1 s2 s3 : same_disk s1 s2 → same_disk s2 s3 → same_disk s1 s3.
Proof.
  intros (A1 & B1 & L1) (A2 & B2 & L2). split; [congruence|]. split; [congruence|]. by eapply log_same_trans.
Qed.

Section same_disk.
Context {s s' : kernel} (S : same_disk s s').

Lemma sd_geom : fs_geom s → fs_geom s'.
Proof.
  destruct S as (E1 & E2 & L). unfold fs_geom, data_start. rewrite E1, E2.
  unfold log_same in L. by rewrite L.
Qed.
Lemma sd_home b : home s b → home s' b.
Proof. destruct S as (E1 & E2 & L). unfold home, home_ok, in_log. rewrite E2, L. done. Qed.
Lemma sd_meta V : meta_used s V → meta_used s' V.
Proof. destruct S as (E1 & E2 & L). unfold meta_used, data_start. by rewrite E1, E2. Qed.
Lemma sd_held H V : held_ok s H V → held_ok s' H V.
Proof. destruct S as (E1 & E2 & L). unfold held_ok, in_use, data_start. by rewrite E1, E2. Qed.
Lemma sd_nfree V : nfree s' V = nfree s V.
Proof. destruct S as (E1 & E2 & L). unfold nfree. by rewrite E1, E2. Qed.
Lemma sd_grow X n V V' : grow s' X n V V' → grow s X n V V'.
Proof.
  destruct S as (E1 & E2 & L). intros [U K F]. unfold in_use, nfree, data_start in *. rewrite E1, E2 in *.
  by constructor.
Qed.
Lemma sd_file V a : file_ok s V a → file_ok s' V a.
Proof.
  destruct S as (E1 & E2 & L). intros [F1 F2 F3 F4 F5]. unfold data_block, in_use, data_start in *.
  constructor; unfold data_block, in_use, data_start; rewrite ?E1, ?E2; done.
Qed.
End same_disk.

Lemma data_home s V b : fs_geom s → data_block s V b → home s b.
Proof.
  intros G [Hd [Hb _]]. destruct (BBLOCK_small s b G Hb) as (_ & ? & _). split; [lia|].
  destruct G as (G1 & G2 & G3 & G4 & G5 & G6 & G7 & G8). unfold in_log, IPB, BSIZE in *.
  change (512 / 64) with 8 in *. pose proof (Z.div_pos (sb_ninodes (k_sb s)) 8 ltac:(lia) ltac:(lia)). lia.
Qed.

Lemma data_block_pos s V b : fs_geom s → data_block s V b → 0 < b.
Proof.
  intros G [Hd [Hb _]]. destruct (BBLOCK_small s b G Hb) as (_ & ? & _).
  destruct G as (G1 & G2 & G3 & G4 & G5 & G6 & G7 & G8). unfold IPB, BSIZE in *.
  change (512 / 64) with 8 in *. pose proof (Z.div_pos (sb_ninodes (k_sb s)) 8 ltac:(lia) ltac:(lia)). lia.
Qed.

(** A file that gets block [b], and perhaps an indirect block, both of them free before. *)
Lemma file_ok_extend s V V' X n addrs addrs' bn b :
  fs_geom s → meta_used s V → file_ok s V addrs → grow s X n V V' →
  length addrs' = 13%nat → Forall is_u32 addrs' →
  (ind_of addrs' = ind_of addrs ∨ ind_of addrs = 0 ∧ 0 ≤ ind_of addrs' < Z.of_nat (length (k_disk s)) ∧
     bfree_in (k_sb s) V (ind_of addrs') = true ∧ bfree_in (k_sb s) V' (ind_of addrs') = false) →
  (bn < 140)%nat → block_of V' addrs' bn = b → b ≠ ind_of addrs' →
  0 ≤ b < Z.of_nat (length (k_disk s)) → bfree_in (k_sb s) V b = true → bfree_in (k_sb s) V' b = false →
  (∀ bn', (bn' < 140)%nat → bn' ≠ bn → block_of V' addrs' bn' = block_of V addrs bn') →
  file_ok s V' addrs'.
Proof.
  intros G M FO GR Hl Hu Hind Hbn Eb Hbi Hb Hfree Huse Hoth.
  assert (Hnew : ∀ c, 0 ≤ c < Z.of_nat (length (k_disk s)) → bfree_in (k_sb s) V c = true →
    bfree_in (k_sb s) V' c = false → data_block s V' c).
  { intros c Hc Hf Hu'. destruct (free_home s V c G M Hc Hf). done. }
  assert (Hold : ∀ bn', (bn' < 140)%nat → bn' ≠ bn → block_of V addrs bn' ≠ 0 →
    data_block s V' (block_of V addrs bn') ∧ bfree_in (k_sb s) V (block_of V addrs bn') = false).
  { intros bn' Hbn' Hne Hz. destruct (fo_block FO bn' Hbn' Hz) as [[Hd Hiu] _].
    split; [split; [done|by apply (g_use _ _ _ _ _ GR)]|apply Hiu]. }
  constructor; [done|done| | |].
  - intros Hz. destruct Hind as [E|(_ & Hr & Hf & Hf')]; [|by apply Hnew]. rewrite E in *.
    destruct (fo_ind FO Hz) as [Hd Hiu]. split; [done|by apply (g_use _ _ _ _ _ GR)].
  - intros bn' Hbn' Hz. destruct (decide (bn' = bn)) as [->|Hne].
    + rewrite Eb in *. split; [by apply Hnew|done].
    + rewrite Hoth in * by done. destruct (Hold bn' Hbn' Hne Hz) as [Hd Hnf]. split; [done|].
      destruct Hind as [->|(_ & Hr & Hf & Hf')]; [by apply (fo_block FO)|congruence].
  - intros i j Hi Hj Hz E. destruct (decide (i = bn)) as [->|Hi'], (decide (j = bn)) as [->|Hj']; [done| | |].
    + rewrite Eb in *. rewrite Hoth in E by done. destruct (Hold j Hj Hj') as [_ Hnf]; congruence.
    + rewrite Eb in E. rewrite Hoth in * by done. destruct (Hold i Hi Hi') as [_ Hnf]; congruence.
    + rewrite !Hoth in * by done. by apply (fo_inj FO).
Qed.

Lemma tkeep_inode i f s : tkeep s (upd_inode i f s).
Proof. split; [done|]. split; [apply woken_refl|]. done. Qed.

Lemma same_disk_inode i f s : same_disk s (upd_inode i f s).
Proof. do 2 (split; [done|]). apply log_same_refl. Qed.

Lemma lookup_upd_inode i f s ip : k_icache s !! i = Some ip → k_icache (upd_inode i f s) !! i = Some (f ip).
Proof. intros H. simpl. by rewrite list_lookup_alter, decide_True, H by done. Qed.

(** What a call on inode [i] may change: the entry [i] of the cache of inodes,
    and what the block store changes. *)
Definition iframe (i : nat) (ip' : inode) (s s' : kernel) : Prop :=
  s' = with_k_icache (alter (λ _, ip') i (k_icache s)) (with_k_log (k_log s') (bsync s' s)) ∧
  log_same (k_log s) (k_log s') ∧ bquiet s s'.

Lemma iframe_same i ip' s s' : iframe i ip' s s' → same_disk s s'.
Proof. intros (E & L & _). by rewrite E in *. Qed.

Lemma iframe_lookup i ip ip' s s' : iframe i ip' s s' → k_icache s !! i = Some ip → k_icache s' !! i = Some ip'.
Proof. intros (E & _) Hi. rewrite E. simpl. by rewrite list_lookup_alter, decide_True, Hi by done. Qed.

Lemma alter_same {A} (x : A) (i : nat) (l : list A) : l !! i = Some x → alter (λ _, x) i l = l.
Proof.
  intros Hi. apply list_eq. intros j. rewrite list_lookup_alter. case_decide; [|done]. subst. by rewrite Hi.
Qed.

Lemma alter_twice {A} (x y : A) (i : nat) (l : list A) : alter (λ _, x) i (alter (λ _, y) i l) = alter (λ _, x) i l.
Proof.
  apply list_eq. intros j. rewrite !list_lookup_alter. case_decide; [|done]. subst.
  rewrite decide_True by done. by destruct (l !! j).
Qed.

Lemma iframe_tframe i ip s s' : k_icache s !! i = Some ip → tframe s s' → iframe i ip s s'.
Proof.
  intros Hi (E & L & Q). split; [|done]. rewrite alter_same by done. rewrite E. by destruct s.
Qed.

Lemma iframe_inode i f ip s : k_icache s !! i = Some ip → iframe i (f ip) s (upd_inode i f s).
Proof.
  intros Hi. split; [|split; [apply log_same_refl|split; [apply woken_refl|done]]].
  unfold upd_inode. rewrite (list_alter_ext _ (λ _, f ip) _ (k_icache s)); [by destruct s| |done].
  intros x Hx. congruence.
Qed.

Lemma iframe_trans i ip1 ip2 s1 s2 s3 : iframe i ip1 s1 s2 → iframe i ip2 s2 s3 → iframe i ip2 s1 s3.
Proof.
  intros (E1 & L1 & Q1) (E2 & L2 & Q2). split; [|split; [by eapply log_same_trans|by eapply bquiet_trans]].
  rewrite E2. rewrite E1. simpl. rewrite alter_twice. done.
Qed.

Section bmap.
Context {txn : kernel → gmap nat Z → (Z → list Z) → nat → Prop} {T : BlockTxn txn}.

Lemma rd_uint_u32 d off : Forall is_u8 d → is_u32 (rd_uint d off).
Proof.
  intros H. unfold rd_uint, is_u32. assert (Hl : (length (slice d off 4) ≤ 4)%nat).
  { unfold slice. rewrite length_take. lia. }
  pose proof (le_dec_range _ (Forall_slice _ d off 4 H)).
  pose proof (Z.pow_le_mono_r 256 (Z.of_nat (length (slice d off 4))) 4). lia.
Qed.

Lemma held_empty s V : held_ok s ∅ V.
Proof. by intros i b ?. Qed.

Lemma held_one s V i b : data_block s V b → held_ok s {[i := b]} V.
Proof. intros Hd j c [<- <-]%lookup_singleton_Some. done. Qed.

(** [balloc] when a block is free. *)
Lemma balloc_grow s H V k :
  txn s H V (S (S k)) → (size H ≤ S k)%nat → fs_geom s → meta_used s V → held_ok s H V → (1 ≤ nfree s V)%nat →
  ∃ b s', balloc 1 s = Done b s' ∧ txn s' H (alloc_view (k_sb s) b V) k ∧ tframe s s' ∧
    0 ≤ b < Z.of_nat (length (k_disk s)) ∧ bfree_in (k_sb s) V b = true ∧
    bfree_in (k_sb s) (alloc_view (k_sb s) b V) b = false ∧
    grow s (λ _, False) 1 V (alloc_view (k_sb s) b V).
Proof.
  intros Ht Hsz G M Hh Hn. destruct (nfree_first s V Hn) as (b & Hb & Hf & Hmin).
  destruct (balloc_spec s H V k b Ht Hsz G M Hh Hb Hf Hmin) as (s' & E & T' & F).
  assert (Hok : block_ok (V (BBLOCK b (k_sb s)))).
  { destruct (BBLOCK_small s b G Hb) as (_ & _ & [? _]). by eapply txn_block. }
  exists b, s'. do 5 (split; [done|]). split; [|by apply grow_alloc].
  rewrite alloc_view_free by done. by rewrite decide_True.
Qed.

(** A block that is there. *)
Lemma bmap_mapped s V k i ip bn :
  txn s ∅ V k → fs_geom s → k_icache s !! i = Some ip → i_dev ip = 1 → file_ok s V (i_addrs ip) →
  (bn < 140)%nat → block_of V (i_addrs ip) bn ≠ 0 →
  ∃ s', bmap i (Z.of_nat bn) s = Done (block_of V (i_addrs ip) bn) s' ∧ txn s' ∅ V k ∧ tframe s s'.
Proof.
  intros Ht G Hi Hdev FO Hbn Hz. unfold bmap. erewrite bind_done by (by apply inode_at_ok).
  unfold block_of in *. destruct (Nat.ltb_spec bn 12) as [Hlt|Hge].
  - exists s. split; [|eauto with kernel]. rewrite (proj2 (Z.ltb_lt _ _)) by (unfold NDIRECT; lia).
    rewrite Nat2Z.id. destruct (lookup_lt_is_Some_2 (i_addrs ip) bn) as [a Ha]; [rewrite (fo_len FO); lia|].
    rewrite (nth_lookup_Some _ _ _ _ Ha) in *. rewrite Ha. erewrite bind_done by done.
    by rewrite (proj2 (Z.eqb_neq a 0)).
  - rewrite (proj2 (Z.ltb_ge _ _)) by (unfold NDIRECT; lia).
    rewrite (proj2 (Z.ltb_lt _ _)) by (unfold NDIRECT, NINDIRECT, BSIZE; change (512 / 4) with 128; lia).
    destruct (Z.eqb_spec (ind_of (i_addrs ip)) 0) as [|Hind]; [done|].
    destruct (lookup_lt_is_Some_2 (i_addrs ip) 12) as [a Ha]; [rewrite (fo_len FO); lia|].
    change (Z.to_nat NDIRECT) with 12%nat. rewrite Ha. erewrite bind_done by done.
    assert (Ea : ind_of (i_addrs ip) = a) by (unfold ind_of; by rewrite (nth_lookup_Some _ _ _ _ Ha)).
    rewrite Ea in *. rewrite (proj2 (Z.eqb_neq a 0)) by done. erewrite bind_done by done. rewrite Hdev.
    pose proof (fo_ind FO) as Hd. rewrite Ea in Hd. specialize (Hd Hind).
    destruct (txn_bread s ∅ V k a Ht) as (j & s1 & E1 & _ & T1 & F1);
      [rewrite map_size_empty; lia|by eapply data_home|done|].
    erewrite bind_done by exact E1.
    destruct (txn_buf_at _ _ _ _ _ _ T1 (lookup_insert_eq _ _ _)) as (bf & Eb & Edat & Hok).
    erewrite bind_done by exact Eb. rewrite Edat.
    replace (Z.to_nat (Z.of_nat bn - NDIRECT)) with (bn - 12)%nat by (unfold NDIRECT; lia).
    rewrite (proj2 (Z.eqb_neq _ 0)) by done. erewrite bind_done by done.
    destruct (txn_release _ _ _ _ _ _ T1 (lookup_empty _)) as (s2 & E2 & T2 & F2). exists s2.
    split; [by erewrite bind_done by exact E2|]. split; [done|by eapply tframe_trans].
Qed.

(** Block [bn] of a file that had none. *)
Record bmapped (s : kernel) (n : nat) (V : Z → list Z) (addrs : list Z) (bn : nat)
    (V' : Z → list Z) (addrs' : list Z) (b : Z) : Prop := mkBmapped {
  bm_grow : grow s (λ c, c = ind_of addrs) n V V';
  bm_file : file_ok s V' addrs';
  bm_block : block_of V' addrs' bn = b;
  bm_new : 0 ≤ b < Z.of_nat (length (k_disk s)) ∧ bfree_in (k_sb s) V b = true;
  bm_zero : V' b = replicate 512 0;
  bm_other : ∀ bn', (bn' < 140)%nat → bn' ≠ bn → block_of V' addrs' bn' = block_of V addrs bn';
  bm_ind : ind_of addrs' = ind_of addrs ∨
    0 ≤ ind_of addrs' < Z.of_nat (length (k_disk s)) ∧ bfree_in (k_sb s) V (ind_of addrs') = true;
}.

Lemma nth_insert (l : list Z) i j x :
  (i < length l)%nat → nth j (<[i := x]> l) 0 = if decide (i = j) then x else nth j l 0.
Proof.
  intros Hi. rewrite !nth_lookup. case_decide as E.
  - subst. by rewrite list_lookup_insert_eq by done.
  - by rewrite list_lookup_insert_ne by done.
Qed.

Lemma bmapped_direct s V addrs bn b :
  fs_geom s → meta_used s V → file_ok s V addrs → (bn < 12)%nat → block_of V addrs bn = 0 →
  0 ≤ b < Z.of_nat (length (k_disk s)) → bfree_in (k_sb s) V b = true →
  bfree_in (k_sb s) (alloc_view (k_sb s) b V) b = false → grow s (λ _, False) 1 V (alloc_view (k_sb s) b V) →
  bmapped s 1 V addrs bn (alloc_view (k_sb s) b V) (<[bn := b]> addrs) b.
Proof.
  intros G M FO Hbn Hz Hb Hf Hu GR. set (V' := alloc_view (k_sb s) b V) in *.
  pose proof (fo_len FO) as Hl. assert (Eind : ind_of (<[bn := b]> addrs) = ind_of addrs).
  { unfold ind_of. rewrite nth_insert by lia. by rewrite decide_False by lia. }
  destruct (free_home s V b G M Hb Hf) as [Hd Hbh].
  assert (Eb : block_of V' (<[bn := b]> addrs) bn = b).
  { unfold block_of. rewrite (proj2 (Nat.ltb_lt _ _)) by done. rewrite nth_insert by lia. by rewrite decide_True. }
  assert (Hoth : ∀ bn', (bn' < 140)%nat → bn' ≠ bn → block_of V' (<[bn := b]> addrs) bn' = block_of V addrs bn').
  { intros bn' Hbn' Hne. unfold block_of. rewrite Eind. rewrite nth_insert by lia. rewrite decide_False by done.
    destruct (bn' <? 12)%nat; [done|]. destruct (Z.eqb_spec (ind_of addrs) 0) as [|Hi]; [done|].
    destruct (fo_ind FO Hi) as [Hdi Hui]. by rewrite (g_keep _ _ _ _ _ GR _ Hui (or_intror Hdi)) by tauto. }
  constructor; try done.
  - eapply grow_weaken; [exact GR|done|lia].
  - eapply (file_ok_extend s V V' _ _ addrs _ bn b G M FO GR); try done.
    + by rewrite length_insert.
    + apply Forall_insert; [apply (fo_u32 FO)|]. destruct G as (G & _). unfold is_u32. lia.
    + by left.
    + lia.
    + intros E. rewrite Eind in E. assert (ind_of addrs ≠ 0).
      { rewrite <-E. assert (data_block s V' b) by done. pose proof (data_block_pos s V' b G ltac:(done)). lia. }
      destruct (fo_ind FO) as [_ [_ ?]]; congruence.
  - unfold V', alloc_view. apply fn_lookup_insert.
  - by left.
Qed.

Lemma bmap_direct_new s V k i ip bn :
  txn s ∅ V (S (S k)) → fs_geom s → meta_used s V → k_icache s !! i = Some ip → i_dev ip = 1 →
  file_ok s V (i_addrs ip) → (bn < 12)%nat → block_of V (i_addrs ip) bn = 0 → (1 ≤ nfree s V)%nat →
  ∃ b s' V' a', bmap i (Z.of_nat bn) s = Done b s' ∧ txn s' ∅ V' k ∧ iframe i (with_i_addrs a' ip) s s' ∧
    bmapped s 1 V (i_addrs ip) bn V' a' b.
Proof.
  intros Ht G M Hi Hdev FO Hbn Hz Hn. unfold bmap. erewrite bind_done by (by apply inode_at_ok).
  rewrite (proj2 (Z.ltb_lt _ _)) by (unfold NDIRECT; lia). rewrite Nat2Z.id.
  destruct (lookup_lt_is_Some_2 (i_addrs ip) bn) as [a Ha]; [rewrite (fo_len FO); lia|].
  rewrite Ha. erewrite bind_done by done. assert (a = 0) as ->.
  { unfold block_of in Hz. rewrite (proj2 (Nat.ltb_lt _ _)), (nth_lookup_Some _ _ _ _ Ha) in Hz by done. done. }
  cbn [Z.eqb]. rewrite Hdev. destruct (balloc_grow s ∅ V k Ht) as (b & s1 & E1 & T1 & F1 & Hb & Hf & Hu & GR);
    [rewrite map_size_empty; lia|done|done|apply held_empty|done|].
  erewrite bind_done by exact E1. erewrite bind_done by done.
  eexists b, _, _, _. split; [reflexivity|]. split; [by eapply txn_keep, tkeep_inode|].
  split; [|by apply bmapped_direct]. eapply iframe_trans; [by apply iframe_tframe|].
  pose proof (iframe_inode i (λ ip, with_i_addrs (<[bn := b]> (i_addrs ip)) ip) ip s1) as Fi. apply Fi.
  by rewrite (tframe_icache _ _ F1).
Qed.

(** The second half of [bmap]: an entry of the indirect block. *)
Definition bmap_indirect (dev addr : Z) (bn : nat) : K Z :=
  bp <- bread dev addr ;;
  bf <- buf_at bp ;;
  let addr := rd_uint (b_data bf) (4 * bn) in
  addr <- (if addr =? 0 then
             addr <- balloc dev ;;
             set_buf bp (λ bf, with_b_data (wr_int (b_data bf) (4 * bn) addr) bf) ;;;
             log_write bp ;;;
             ret addr
           else ret addr) ;;
  brelse bp ;;;
  ret addr.

Lemma bmap_indirect_new s V k a bn :
  txn s ∅ V (S (S (S k))) → fs_geom s → meta_used s V → data_block s V a → (bn < 128)%nat →
  rd_uint (V a) (4 * bn) = 0 → (1 ≤ nfree s V)%nat →
  ∃ b s', bmap_indirect 1 a bn s = Done b s' ∧
    txn s' ∅ (<[a := wr_int (V a) (4 * bn) b]> (alloc_view (k_sb s) b V)) k ∧ tframe s s' ∧
    0 ≤ b < Z.of_nat (length (k_disk s)) ∧ bfree_in (k_sb s) V b = true ∧
    bfree_in (k_sb s) (alloc_view (k_sb s) b V) b = false ∧
    grow s (λ _, False) 1 V (alloc_view (k_sb s) b V).
Proof.
  intros Ht G M Hd Hbn Hz Hn. unfold bmap_indirect.
  destruct (txn_bread s ∅ V _ a Ht) as (j & s1 & E1 & _ & T1 & F1);
    [rewrite map_size_empty; lia|by eapply data_home|done|].
  erewrite bind_done by exact E1.
  destruct (txn_buf_at _ _ _ _ _ _ T1 (lookup_insert_eq _ _ _)) as (bf & Eb & Edat & Hok).
  erewrite bind_done by exact Eb. rewrite Edat, Hz. cbn [Z.eqb].
  pose proof (same_disk_tframe _ _ F1) as SD.
  destruct (balloc_grow s1 _ V (S k) T1) as (b & s2 & E2 & T2 & F2 & Hb & Hf & Hu & GR).
  { rewrite map_size_insert_None, map_size_empty by done. lia. }
  { by apply (sd_geom SD). }
  { by apply (sd_meta SD). }
  { apply (sd_held SD). apply held_one. done. }
  { by rewrite (sd_nfree SD). }
  rewrite (tframe_sb _ _ F1), (tframe_disk _ _ F1) in *. apply (sd_grow SD) in GR.
  assert (EV : alloc_view (k_sb s) b V a = V a).
  { apply (g_keep _ _ _ _ _ GR); [apply Hd|right; apply Hd|tauto]. }
  pose proof (tframe_trans _ _ _ F1 F2) as F12.
  destruct (write_run _ _ _ _ j a (λ d, wr_int d (4 * bn) b) (ret b) T2 (lookup_insert_eq _ _ _))
    as (s3 & E3 & T3 & F3).
  { eapply tframe_home; [exact F12|]. by eapply data_home. }
  { rewrite EV. apply wr_int_ok; [done|lia]. }
  rewrite EV in T3. erewrite bind_done.
  2:{ erewrite bind_done by exact E2. exact E3. }
  destruct (txn_release _ _ _ _ _ _ T3 (lookup_empty _)) as (s4 & E4 & T4 & F4).
  exists b, s4. split; [by erewrite bind_done by exact E4|]. split; [done|].
  split; [|done]. eapply tframe_trans; [exact F12|]. by eapply tframe_trans.
Qed.

Lemma rd_uint_wr_same d off v : (off + 4 ≤ length d)%nat → is_u32 v → rd_uint (wr_int d off v) off = v.
Proof.
  intros Hl Hv. unfold rd_uint, wr_int. change 4%nat with (length (le_enc 4 v)) at 2.
  rewrite slice_splice_same by (by rewrite length_le_enc). by rewrite le_dec_enc4, u32_small.
Qed.

Lemma rd_uint_wr_other d off off' v :
  (off + 4 ≤ length d)%nat → (off' + 4 ≤ off ∨ off + 4 ≤ off')%nat → rd_uint (wr_int d off v) off' = rd_uint d off'.
Proof.
  intros Hl Ho. unfold rd_uint, wr_int. by rewrite slice_splice_disjoint by (rewrite length_le_enc; lia).
Qed.

Lemma bmapped_indirect s V addrs m b :
  fs_geom s → meta_used s V → file_ok s V addrs → block_ok (V (ind_of addrs)) → ind_of addrs ≠ 0 → (m < 128)%nat →
  0 ≤ b < Z.of_nat (length (k_disk s)) → bfree_in (k_sb s) V b = true →
  bfree_in (k_sb s) (alloc_view (k_sb s) b V) b = false → grow s (λ _, False) 1 V (alloc_view (k_sb s) b V) →
  bmapped s 1 V addrs (12 + m)
    (<[ind_of addrs := wr_int (V (ind_of addrs)) (4 * m) b]> (alloc_view (k_sb s) b V)) addrs b.
Proof.
  intros G M FO [Hlen Hbytes] Hi Hm Hb Hf Hu GR. set (a := ind_of addrs) in *. destruct (fo_ind FO Hi) as [Hda Hua].
  set (V1 := alloc_view (k_sb s) b V) in *. set (V' := <[a := _]> V1).
  assert (Hab : b ≠ a). { intros ->. destruct Hua as [_ Hua]. unfold a in Hf. congruence. }
  assert (GW : grow s (λ c, c = a) 0 V1 V') by (apply grow_write; [done|by right]).
  assert (GR' : grow s (λ c, c = a) 1 V V').
  { eapply grow_weaken; [exact (grow_trans _ _ _ _ _ _ _ _ GR GW)|tauto|lia]. }
  assert (Eb : ∀ m', (m' < 128)%nat → block_of V' addrs (12 + m') = if decide (m' = m) then b else block_of V addrs (12 + m')).
  { intros m' Hm'. unfold block_of. fold a. rewrite (proj2 (Nat.ltb_ge _ _)) by lia.
    rewrite (proj2 (Z.eqb_neq a 0)) by done. replace (12 + m' - 12)%nat with m' by lia.
    unfold V'. rewrite fn_lookup_insert. case_decide as E.
    - subst. apply rd_uint_wr_same; [lia|]. destruct G as (G & _). unfold is_u32. lia.
    - apply rd_uint_wr_other; lia. }
  assert (Hoth : ∀ bn', (bn' < 140)%nat → bn' ≠ (12 + m)%nat → block_of V' addrs bn' = block_of V addrs bn').
  { intros bn' Hbn' Hne. destruct (decide (bn' < 12)%nat) as [Hlt|Hge].
    - unfold block_of. by rewrite (proj2 (Nat.ltb_lt _ _)).
    - specialize (Eb (bn' - 12)%nat ltac:(lia)). replace (12 + (bn' - 12))%nat with bn' in Eb by lia.
      rewrite decide_False in Eb by lia. done. }
  assert (Hbb : block_of V' addrs (12 + m) = b) by (rewrite Eb by done; by rewrite decide_True).
  assert (Hub : bfree_in (k_sb s) V' b = false) by (apply (g_use _ _ _ _ _ GW b); done).
  constructor; try done.
  - eapply (file_ok_extend s V V' _ _ addrs _ (12 + m) b G M FO GR'); try done.
    + apply (fo_len FO).
    + apply (fo_u32 FO).
    + by left.
    + lia.
  - unfold V'. rewrite fn_lookup_insert_ne by done. unfold V1, alloc_view. apply fn_lookup_insert.
  - by left.
Qed.

Lemma rd_uint_zeros m : (m < 128)%nat → rd_uint (replicate 512 0) (4 * m) = 0.
Proof.
  intros Hm. unfold rd_uint, slice. rewrite drop_replicate, take_replicate, Nat.min_l by lia. done.
Qed.

(** A fresh indirect block: all its entries are 0. *)
Lemma file_ok_indirect s V addrs a :
  fs_geom s → meta_used s V → file_ok s V addrs → ind_of addrs = 0 →
  0 ≤ a < Z.of_nat (length (k_disk s)) → bfree_in (k_sb s) V a = true →
  bfree_in (k_sb s) (alloc_view (k_sb s) a V) a = false → grow s (λ _, False) 1 V (alloc_view (k_sb s) a V) →
  let V1 := alloc_view (k_sb s) a V in
  let addrs1 := <[12%nat := a]> addrs in
  file_ok s V1 addrs1 ∧ ind_of addrs1 = a ∧ a ≠ 0 ∧
  ∀ bn, (bn < 140)%nat → block_of V1 addrs1 bn = block_of V addrs bn.
Proof.
  intros G M FO Hi Ha Hf Hu GR V1 addrs1. pose proof (fo_len FO) as Hl. destruct (free_home s V a G M Ha Hf) as [Hd Hh].
  assert (Ei : ind_of addrs1 = a) by (unfold ind_of, addrs1; by rewrite nth_insert by lia).
  assert (Hda : data_block s V1 a) by done. pose proof (data_block_pos s V1 a G Hda) as Hpos.
  assert (EV : V1 a = replicate 512 0) by apply fn_lookup_insert.
  assert (Eb : ∀ bn, (bn < 140)%nat → block_of V1 addrs1 bn = block_of V addrs bn).
  { intros bn Hbn. unfold block_of. rewrite Ei, Hi. destruct (Nat.ltb_spec bn 12) as [Hlt|Hge].
    - unfold addrs1. rewrite nth_insert by lia. by rewrite decide_False by lia.
    - rewrite (proj2 (Z.eqb_neq a 0)) by lia. cbn [Z.eqb]. rewrite EV. apply rd_uint_zeros. lia. }
  split; [|split; [done|split; [lia|done]]]. constructor.
  - unfold addrs1. by rewrite length_insert.
  - apply Forall_insert; [apply (fo_u32 FO)|]. destruct G as (G & _). unfold is_u32. lia.
  - intros _. by rewrite Ei.
  - intros bn Hbn. rewrite Eb, Ei by done. intros Hz. destruct (fo_block FO bn Hbn Hz) as [[Hdb Hub] _].
    split; [split; [done|by apply (g_use _ _ _ _ _ GR)]|]. intros E. destruct Hub as [_ Hub]. congruence.
  - intros bn bn' Hbn Hbn'. rewrite !Eb by done. by apply (fo_inj FO).
Qed.

Lemma bmapped_fresh s V addrs a bn V' addrs' b :
  meta_used s V → grow s (λ _, False) 1 V (alloc_view (k_sb s) a V) →
  0 ≤ a < Z.of_nat (length (k_disk s)) → bfree_in (k_sb s) V a = true →
  (∀ bn, (bn < 140)%nat → block_of (alloc_view (k_sb s) a V) (<[12%nat := a]> addrs) bn = block_of V addrs bn) →
  ind_of (<[12%nat := a]> addrs) = a →
  bmapped s 1 (alloc_view (k_sb s) a V) (<[12%nat := a]> addrs) bn V' addrs' b → bmapped s 2 V addrs bn V' addrs' b.
Proof.
  intros M GR Ha Hf Eb Ei [B1 B2 B3 [B4 B4'] B5 B6 B7]. constructor; try done.
  - eapply grow_weaken; [exact (grow_trans _ _ _ _ _ _ _ _ GR B1)| |lia].
    intros c [_ Hc] [[]| ->]. rewrite Ei in Hc. congruence.
  - split; [done|]. destruct (bfree_in (k_sb s) V b) eqn:E; [done|].
    destruct (g_use _ _ _ _ _ GR b) as [_ ?]; [done|congruence].
  - intros bn' Hbn' Hne. rewrite B6 by done. by apply Eb.
  - right. destruct B7 as [->|[Hr Hf']]; [by rewrite Ei|]. split; [done|].
    destruct (bfree_in (k_sb s) V (ind_of addrs')) eqn:E; [done|].
    destruct (g_use _ _ _ _ _ GR (ind_of addrs')) as [_ ?]; [done|congruence].
Qed.

Lemma bmapped_weaken s n n' V a bn V' a' b : bmapped s n V a bn V' a' b → (n ≤ n')%nat → bmapped s n' V a bn V' a' b.
Proof. intros [B1 B2 B3 B4 B5 B6 B7] Hn. constructor; try done. by eapply grow_weaken. Qed.

(** [bmap] on an indirect block number, with the call of [bmap_indirect] named. *)
Lemma bmap_at_indirect s i ip m a :
  k_icache s !! i = Some ip → (m < 128)%nat → i_addrs ip !! 12%nat = Some a →
  bmap i (Z.of_nat (12 + m)) s =
    (addr <- (if a =? 0 then
                addr <- balloc (i_dev ip) ;;
                set_inode i (λ ip, with_i_addrs (<[12%nat := addr]> (i_addrs ip)) ip) ;;;
                ret addr
              else ret a) ;;
     bmap_indirect (i_dev ip) addr m) s.
Proof.
  intros Hi Hm Ha. unfold bmap. erewrite bind_done by (by apply inode_at_ok).
  rewrite (proj2 (Z.ltb_ge _ _)) by (unfold NDIRECT; lia).
  rewrite (proj2 (Z.ltb_lt _ _)) by (unfold NDIRECT, NINDIRECT, BSIZE; change (512 / 4) with 128; lia).
  change (Z.to_nat NDIRECT) with 12%nat. rewrite Ha. erewrite bind_done by done.
  unfold bmap_indirect. by replace (Z.to_nat (Z.of_nat (12 + m) - NDIRECT)) with m by (unfold NDIRECT; lia).
Qed.

Lemma bmap_ind_new s V k i ip m :
  txn s ∅ V (S (S (S k))) → fs_geom s → meta_used s V → k_icache s !! i = Some ip → i_dev ip = 1 →
  file_ok s V (i_addrs ip) → ind_of (i_addrs ip) ≠ 0 → (m < 128)%nat →
  block_of V (i_addrs ip) (12 + m) = 0 → (1 ≤ nfree s V)%nat →
  ∃ b s' V', bmap i (Z.of_nat (12 + m)) s = Done b s' ∧ txn s' ∅ V' k ∧ tframe s s' ∧
    bmapped s 1 V (i_addrs ip) (12 + m) V' (i_addrs ip) b.
Proof.
  intros Ht G M Hi Hdev FO Hind Hm Hz Hn.
  destruct (lookup_lt_is_Some_2 (i_addrs ip) 12) as [a Ha]; [rewrite (fo_len FO); lia|].
  assert (Ea : ind_of (i_addrs ip) = a) by (unfold ind_of; by rewrite (nth_lookup_Some _ _ _ _ Ha)).
  rewrite (bmap_at_indirect s i ip m a) by done. rewrite <-Ea. rewrite (proj2 (Z.eqb_neq _ 0)) by done.
  erewrite bind_done by done. rewrite Hdev. pose proof (fo_ind FO Hind) as Hd.
  destruct (bmap_indirect_new s V k (ind_of (i_addrs ip)) m) as (b & s' & E & T' & F & Hb & Hf & Hu & GR); try done.
  { unfold block_of in Hz. rewrite (proj2 (Nat.ltb_ge _ _)), (proj2 (Z.eqb_neq _ 0)) in Hz by (done || lia).
    by replace (12 + m - 12)%nat with m in Hz by lia. }
  eexists b, s', _. split; [done|]. split; [done|]. split; [done|].
  apply bmapped_indirect; try done. destruct Hd as [_ [Hr _]]. by eapply txn_block.
Qed.

Lemma bmap_ind_fresh s V k i ip m :
  txn s ∅ V (S (S (S (S (S k))))) → fs_geom s → meta_used s V → k_icache s !! i = Some ip → i_dev ip = 1 →
  file_ok s V (i_addrs ip) → ind_of (i_addrs ip) = 0 → (m < 128)%nat → (2 ≤ nfree s V)%nat →
  ∃ b s' V' a', bmap i (Z.of_nat (12 + m)) s = Done b s' ∧ txn s' ∅ V' k ∧ iframe i (with_i_addrs a' ip) s s' ∧
    bmapped s 2 V (i_addrs ip) (12 + m) V' a' b.
Proof.
  intros Ht G M Hi Hdev FO Hind Hm Hn.
  destruct (lookup_lt_is_Some_2 (i_addrs ip) 12) as [a0 Ha0]; [rewrite (fo_len FO); lia|].
  assert (a0 = 0) as ->. { unfold ind_of in Hind. by rewrite (nth_lookup_Some _ _ _ _ Ha0) in Hind. }
  rewrite (bmap_at_indirect s i ip m 0) by done. cbn [Z.eqb]. rewrite Hdev.
  destruct (balloc_grow s ∅ V _ Ht) as (a & s1 & E1 & T1 & F1 & Ha & Hf & Hu & GR);
    [rewrite map_size_empty; lia|done|done|apply held_empty|lia|].
  set (f := λ ip, with_i_addrs (<[12%nat := a]> (i_addrs ip)) ip). set (s2 := upd_inode i f s1).
  erewrite bind_done.
  2:{ erewrite bind_done by exact E1. by erewrite bind_done. }
  fold f. fold s2. destruct (file_ok_indirect s V (i_addrs ip) a) as (FO1 & Ei & Hz & Eb); try done.
  assert (Hi1 : k_icache s1 !! i = Some ip) by (by rewrite (tframe_icache _ _ F1)).
  pose proof (iframe_trans _ _ _ _ _ _ (iframe_tframe i ip s s1 Hi F1) (iframe_inode i f ip s1 Hi1)) as Fi.
  fold s2 in Fi. pose proof (iframe_same _ _ _ _ Fi) as SD. pose proof (fo_ind FO1) as Hd. rewrite Ei in Hd.
  destruct (bmap_indirect_new s2 (alloc_view (k_sb s) a V) k a m) as (b & s' & E & T' & F & Hb & Hf' & Hu' & GR').
  - by eapply txn_keep, tkeep_inode.
  - by apply (sd_geom SD).
  - apply (sd_meta SD). by eapply grow_meta.
  - pose proof (fo_ind (sd_file SD _ _ FO1)) as Hd'. rewrite Ei in Hd'. by apply Hd'.
  - done.
  - unfold alloc_view. rewrite fn_lookup_insert. by apply rd_uint_zeros.
  - rewrite (sd_nfree SD). pose proof (g_free _ _ _ _ _ GR). lia.
  - destruct SD as (Esb & Edk & _). rewrite Esb in *. rewrite Edk in *.
    assert (SD : same_disk s s2) by (by eapply iframe_same). apply (sd_grow SD) in GR'.
    eexists b, s', _, (<[12%nat := a]> (i_addrs ip)). split; [done|]. split; [done|]. split.
    + eapply iframe_trans; [exact Fi|]. apply iframe_tframe; [|done]. by eapply iframe_lookup.
    + eapply bmapped_fresh; try done.
      pose proof (bmapped_indirect s (alloc_view (k_sb s) a V) (<[12%nat := a]> (i_addrs ip)) m b G) as B.
      rewrite Ei in B. apply B; try done; [by eapply grow_meta|].
      unfold alloc_view. rewrite fn_lookup_insert. apply zero_ok.
Qed.

(** A block that is not there is allocated, with at most two free blocks and
    five entries of the log. *)
Lemma bmap_unmapped s V k i ip bn :
  txn s ∅ V (5 + k) → fs_geom s → meta_used s V → k_icache s !! i = Some ip → i_dev ip = 1 →
  file_ok s V (i_addrs ip) → (bn < 140)%nat → block_of V (i_addrs ip) bn = 0 → (2 ≤ nfree s V)%nat →
  ∃ b s' V' a', bmap i (Z.of_nat bn) s = Done b s' ∧ txn s' ∅ V' k ∧ iframe i (with_i_addrs a' ip) s s' ∧
    bmapped s 2 V (i_addrs ip) bn V' a' b.
Proof.
  intros Ht G M Hi Hdev FO Hbn Hz Hn. destruct (decide (bn < 12)%nat) as [Hlt|Hge].
  - destruct (bmap_direct_new s V (3 + k) i ip bn) as (b & s' & V' & a' & E & T' & F & B); try done; [lia|].
    exists b, s', V', a'. split; [done|]. split; [eapply txn_weaken; [exact T'|lia]|].
    split; [done|]. eapply bmapped_weaken; [done|lia].
  - replace bn with (12 + (bn - 12))%nat in * by lia.
    destruct (decide (ind_of (i_addrs ip) = 0)) as [Hi0|Hi0].
    + apply bmap_ind_fresh; try done. lia.
    + destruct (bmap_ind_new s V (2 + k) i ip (bn - 12)) as (b & s' & V' & E & T' & F & B); try done; [lia|lia|].
      exists b, s', V', (i_addrs ip). split; [done|]. split; [eapply txn_weaken; [exact T'|lia]|].
      split; [|eapply bmapped_weaken; [done|lia]].
      assert (with_i_addrs (i_addrs ip) ip = ip) as -> by (by destruct ip). by apply iframe_tframe.
Qed.
End bmap.

(** * Inodes through the block store *)

Section inodes.
Context {txn : kernel → gmap nat Z → (Z → list Z) → nat → Prop} {T : BlockTxn txn}.

(** A cached inode of this disk. *)
Definition on_disk (s : kernel) (ip : inode) : Prop := i_dev ip = 1 ∧ 0 ≤ i_inum ip < sb_ninodes (k_sb s).

Lemma iupdate_spec s V k i ip :
  txn s ∅ V (S k) → fs_geom s → k_icache s !! i = Some ip → on_disk s ip → dinode_ok (inode_disk ip) →
  ∃ s', iupdate i s = Done tt s' ∧ txn s' ∅ (inode_view (k_sb s) (i_inum ip) (inode_disk ip) V) k ∧ tframe s s'.
Proof.
  intros Ht G Hi [Hdev Hinum] Hd. unfold iupdate. erewrite bind_done by (by apply inode_at_ok).
  erewrite bind_done by done. rewrite Hdev. destruct (IBLOCK_small s (i_inum ip) G) as (_ & _ & Hb); [lia|].
  destruct (txn_bread s ∅ V _ _ Ht ltac:(rewrite map_size_empty; lia) Hb) as (j & s1 & E1 & _ & T1 & F1); [done|].
  erewrite bind_done by exact E1.
  destruct (write_run _ _ _ _ j _ (λ d, splice d (dinode_off (i_inum ip)) (dinode_enc (inode_disk ip))) (brelse j) T1
    (lookup_insert_eq _ _ _)) as (s2 & E2 & T2 & F2); [eauto with kernel| |].
  { apply inode_view_ok; [lia|done|]. destruct Hb as [Hb _]. exact (txn_block _ _ _ _ _ Ht Hb). }
  destruct (txn_release _ _ _ _ _ _ T2 (lookup_empty _)) as (s3 & E3 & T3 & F3). exists s3. split; [|split; [done|]].
  - etransitivity; [exact E2|done].
  - eapply tframe_trans; [exact F1|]. by eapply tframe_trans.
Qed.

(** [ilock] on an inode whose lock is free: the lock is taken and the fields
    are those of the cache, or of the disk if the cache has none. *)
Definition ilocked (s : kernel) (V : Z → list Z) (ip : inode) : inode :=
  if i_valid ip =? 0 then with_i_valid 1 (load_dinode (dinode_at (k_sb s) V (i_inum ip)) ip) else ip.

Lemma tkeep_take i pid s : tkeep s (sl_take (SLInode i) pid s).
Proof.
  split; [done|]. split; [apply woken_refl|]. do 3 (split; [done|]). intros j. by apply lookup_alter_ne.
Qed.

Lemma ilock_spec s V k i ip :
  txn s ∅ V k → fs_geom s → k_icache s !! i = Some ip → on_disk s ip → 1 ≤ i_ref ip →
  unlocked (LSleep (SLInode i)) s → sl_free (SLInode i) s → i_type (ilocked s V ip) ≠ 0 →
  ∃ s', ilock (Some i) s = Done tt s' ∧ txn s' ∅ V k ∧ sl_mine (SLInode i) s' ∧ same_disk s s' ∧
    k_icache s' = alter (λ _, ilocked s V ip) i (k_icache s) ∧ k_hart s' = k_hart s.
Proof.
  intros Ht G Hi [Hdev Hinum] Hr Hul Hsl Hty. destruct (txn_kok _ _ _ _ Ht) as [Hok _].
  destruct (txn_running _ _ _ _ Ht) as (p & pr & Hrun & Hst). unfold ilock.
  erewrite bind_done by (by apply inode_at_ok). rewrite (proj2 (Z.ltb_ge _ _)) by lia.
  erewrite bind_done by (by eapply acquiresleep_ok). set (s1 := sl_take (SLInode i) (p_pid pr) s).
  pose proof (txn_keep _ _ _ _ _ Ht (tkeep_take i (p_pid pr) s)) as T1. fold s1 in T1.
  assert (Hmine : sl_mine (SLInode i) s1).
  { destruct Hsl as (x & Hx & _). eexists _, p, pr. split; [simpl; by rewrite lookup_alter_eq, Hx|]. done. }
  erewrite bind_done by (by apply inode_at_ok). unfold ilocked in *.
  destruct (Z.eqb_spec (i_valid ip) 0) as [Hv|Hv].
  2:{ exists s1. do 3 (split; [done|]). split; [do 2 (split; [done|]); apply log_same_refl|].
      split; [by rewrite alter_same|done]. }
  erewrite bind_done by done. change (k_sb s1) with (k_sb s). rewrite Hdev.
  assert (SD1 : same_disk s s1) by (do 2 (split; [done|]); apply log_same_refl).
  destruct (IBLOCK_small s (i_inum ip) G) as (_ & _ & Hb); [lia|].
  destruct (txn_bread s1 ∅ V _ _ T1 ltac:(rewrite map_size_empty; lia) (sd_home SD1 _ Hb)) as (j & s2 & E2 & _ & T2 & F2); [done|].
  erewrite bind_done by exact E2.
  destruct (txn_buf_at _ _ _ _ _ _ T2 (lookup_insert_eq _ _ _)) as (bf & Eb & Edat & _).
  erewrite bind_done by exact Eb. rewrite Edat. fold (dinode_at (k_sb s) V (i_inum ip)).
  set (d := dinode_at (k_sb s) V (i_inum ip)) in *. erewrite bind_done by done.
  pose proof (txn_keep _ _ _ _ _ T2 (tkeep_inode i (load_dinode d) s2)) as T3.
  destruct (txn_release _ _ _ _ _ _ T3 (lookup_empty _)) as (s4 & E4 & T4 & F4).
  erewrite bind_done by exact E4. erewrite bind_done by done.
  assert (Hi2 : k_icache s2 !! i = Some ip) by (by rewrite (tframe_icache _ _ F2)).
  assert (Hi4 : k_icache s4 !! i = Some (load_dinode d ip)).
  { rewrite (tframe_icache _ _ F4). by apply (lookup_upd_inode i (load_dinode d) s2 ip). }
  erewrite bind_done by (apply inode_at_ok, (lookup_upd_inode i (with_i_valid 1) s4 _ Hi4)).
  rewrite (proj2 (Z.eqb_neq _ 0)) by done. eexists. split; [reflexivity|].
  split; [by eapply txn_keep, tkeep_inode|].
  assert (Hsl4 : k_slocks s4 !! SLInode i = k_slocks s1 !! SLInode i).
  { destruct F4 as (_ & _ & _ & Q4). destruct F2 as (_ & _ & _ & Q2). by rewrite Q4, <-Q2. }
  assert (Hh4 : k_hart s4 = k_hart s1) by (rewrite (tframe_hart _ _ F4); apply (tframe_hart _ _ F2)).
  split; [|split; [|split; [|done]]].
  - destruct Hmine as (x & p' & pr' & Hx & Hl & Hrun' & Hpid). exists x, p', pr'. simpl. rewrite Hsl4.
    split; [done|]. split; [done|]. split; [|done].
    assert (p' = p ∧ pr' = pr) as [-> ->].
    { destruct Hrun as [H1 H2]. destruct Hrun' as [H1' H2']. change (cproc s1) with (cproc s) in H1'.
      change (k_ptable s1) with (k_ptable s) in H2'. split; congruence. }
    apply (running_woken s1); [done| |done|done].
    eapply woken_trans; [apply F2|apply F4].
  - eapply same_disk_trans; [exact SD1|]. eapply same_disk_trans; [by apply same_disk_tframe|].
    eapply same_disk_trans; [|apply same_disk_inode]. eapply same_disk_trans; [apply same_disk_inode|by apply same_disk_tframe].
  - simpl. rewrite (tframe_icache _ _ F4). simpl. rewrite (tframe_icache _ _ F2). change (k_icache s1) with (k_icache s).
    apply list_eq. intros n. rewrite !list_lookup_alter. case_decide; [|done]. subst. rewrite decide_True by done. by rewrite Hi.
Qed.
End inodes.

(** * Theorems *)

Section theorems.
Context {txn : kernel → gmap nat Z → (Z → list Z) → nat → Prop} {T : BlockTxn txn}.

(** [balloc] returns the first block that the bitmap marks as free.  It is a
    data block; afterwards it is marked as used and reads as zeroes, every
    other block keeps its mark, and no block other than it and its bitmap
    block changes. *)
Theorem balloc_allocates s V k :
  txn s ∅ V (S (S k)) → fs_geom s → meta_used s V → (1 ≤ nfree s V)%nat →
  ∃ b s' V', balloc 1 s = Done b s' ∧ txn s' ∅ V' k ∧ k_sb s' = k_sb s ∧
    data_start s ≤ b < Z.of_nat (length (k_disk s)) ∧ bfree_in (k_sb s) V b = true ∧
    (∀ c, 0 ≤ c < b → bfree_in (k_sb s) V c = false) ∧ V' b = replicate 512 0 ∧
    (∀ c, 0 ≤ c < Z.of_nat (length (k_disk s)) →
       bfree_in (k_sb s) V' c = if decide (b = c) then false else bfree_in (k_sb s) V c) ∧
    (∀ c, c ≠ b → c ≠ BBLOCK b (k_sb s) → V' c = V c).
Proof.
  intros Ht G M Hn. destruct (nfree_first s V Hn) as (b & Hb & Hf & Hmin).
  destruct (balloc_spec s ∅ V k b) as (s' & E & T' & F); try done; [rewrite map_size_empty; lia|].
  destruct (free_home s V b G M Hb Hf) as [Hd _].
  assert (Hok : block_ok (V (BBLOCK b (k_sb s)))).
  { destruct (BBLOCK_small s b G Hb) as (_ & _ & [? _]). by eapply txn_block. }
  eexists b, s', _. split; [done|]. split; [done|]. split; [by apply tframe_sb|]. split; [lia|].
  do 2 (split; [done|]). split; [apply fn_lookup_insert|]. split.
  - intros c Hc. by apply alloc_view_free.
  - intros c H1 H2. unfold alloc_view. by rewrite !fn_lookup_insert_ne by congruence.
Qed.

(** [bfree] marks exactly the block it is given as free and changes nothing
    but the block of the bitmap; freeing the block again panics. *)
Theorem bfree_once s V k b :
  txn s ∅ V (S k) → fs_geom s → in_use s V b →
  ∃ s' V', bfree 1 b s = Done tt s' ∧ txn s' ∅ V' k ∧
    (∀ c, 0 ≤ c < Z.of_nat (length (k_disk s)) →
       bfree_in (k_sb s) V' c = if decide (b = c) then true else bfree_in (k_sb s) V c) ∧
    (∀ c, c ≠ BBLOCK b (k_sb s) → V' c = V c) ∧
    bfree 1 b s' = Panicked "freeing free block".
Proof.
  intros Ht G Hu. destruct (bfree_spec s ∅ V k b) as (s' & E & T' & F); try done.
  { rewrite map_size_empty. lia. }
  assert (Hok : block_ok (V (BBLOCK b (k_sb s)))).
  { destruct (BBLOCK_small s b G) as (_ & _ & [? _]); [apply Hu|]. by eapply txn_block. }
  assert (Hfr : ∀ c, 0 ≤ c < Z.of_nat (length (k_disk s)) →
    bfree_in (k_sb s) (free_view (k_sb s) b V) c = if decide (b = c) then true else bfree_in (k_sb s) V c).
  { intros c Hc. apply free_view_free; [done|done|apply Hu|done]. }
  eexists s', _. split; [done|]. split; [done|]. split; [done|]. split.
  - intros c Hc. unfold free_view. by rewrite fn_lookup_insert_ne by congruence.
  - eapply bfree_free; [exact T'|rewrite map_size_empty; lia|by eapply fs_geom_frame|done| |].
    + rewrite (tframe_disk _ _ F). apply Hu.
    + rewrite (tframe_sb _ _ F), Hfr by apply Hu. by rewrite decide_True.
Qed.

(** What [iupdate] writes, [ilock] reads.  After [iupdate] of an inode, let the
    entry of the cache be recycled and hold anything; when the inode is
    cached again and locked, its type, link count, size and block addresses
    are the ones written.  No other inode on the disk changes. *)
Theorem iupdate_ilock s V k i ip g :
  txn s ∅ V (S k) → fs_geom s → k_icache s !! i = Some ip → on_disk s ip → dinode_ok (inode_disk ip) →
  i_type ip ≠ 0 → unlocked (LSleep (SLInode i)) s → sl_free (SLInode i) s →
  i_dev g = 1 → i_inum g = i_inum ip → i_valid g = 0 → 1 ≤ i_ref g →
  ∃ s1 s2 V' ip', iupdate i s = Done tt s1 ∧ ilock (Some i) (upd_inode i (λ _, g) s1) = Done tt s2 ∧
    k_icache s2 !! i = Some ip' ∧ inode_disk ip' = inode_disk ip ∧ i_valid ip' = 1 ∧
    sl_mine (SLInode i) s2 ∧ txn s2 ∅ V' k ∧
    ∀ n, 0 ≤ n < sb_ninodes (k_sb s) → n ≠ i_inum ip → dinode_at (k_sb s) V' n = dinode_at (k_sb s) V n.
Proof.
  intros Ht G Hi Hon Hd Hty Hul Hsl Gd Gn Gv Gr.
  destruct (iupdate_spec s V k i ip Ht G Hi Hon Hd) as (s1 & E1 & T1 & F1).
  set (V' := inode_view (k_sb s) (i_inum ip) (inode_disk ip) V) in *. set (s1' := upd_inode i (λ _, g) s1).
  destruct Hon as [Hdev Hinum]. destruct (IBLOCK_small s (i_inum ip) G) as (_ & _ & [Hb _]); [lia|].
  assert (Hat : ∀ n, 0 ≤ n < sb_ninodes (k_sb s) →
    dinode_at (k_sb s) V' n = if decide (i_inum ip = n) then inode_disk ip else dinode_at (k_sb s) V n).
  { intros n Hn. apply dinode_at_view; [done|lia|lia|done|by eapply txn_block]. }
  assert (SD : same_disk s s1') by (eapply same_disk_trans; [by apply same_disk_tframe|apply same_disk_inode]).
  assert (Eload : ilocked s1' V' g = with_i_valid 1 (load_dinode (inode_disk ip) g)).
  { unfold ilocked. rewrite Gv. cbn [Z.eqb]. destruct SD as (-> & _). rewrite Gn, Hat by done. by rewrite decide_True. }
  assert (Hi1 : k_icache s1' !! i = Some g).
  { apply (lookup_upd_inode i (λ _, g) s1 ip). by rewrite (tframe_icache _ _ F1). }
  destruct (ilock_spec s1' V' k i g) as (s2 & E2 & T2 & Hm & _ & Hic & _); try done.
  - by eapply txn_keep, tkeep_inode.
  - by apply (sd_geom SD).
  - split; [done|]. destruct SD as (-> & _). rewrite Gn. lia.
  - unfold unlocked. simpl. by rewrite (tframe_hart _ _ F1).
  - destruct Hsl as (x & Hx & Hx0). exists x. simpl. destruct F1 as (_ & _ & _ & Q). by rewrite Q.
  - by rewrite Eload.
  - exists s1, s2, V', (ilocked s1' V' g). split; [done|]. split; [done|].
    split; [by rewrite Hic, list_lookup_alter, decide_True, Hi1|]. rewrite Eload.
    split; [by destruct ip|]. do 3 (split; [done|]). intros n Hn Hne. rewrite Hat by done.
    by rewrite decide_False by congruence.
Qed.
End theorems.

(** ** Witnesses *)

(** A disk of 64 blocks: log at 2, inodes at 32, bitmap at 34, data from 35 on.
    Inode 1 is a file of five bytes in block 35, inode 2 an empty directory. *)
Definition demo_file : dinode := mkDinode T_FILE 0 0 1 5 (35 :: replicate 12 0).
Definition demo_dir : dinode := mkDinode T_DIR 0 0 1 0 (replicate 13 0).
Definition demo_fsdisk : list (list Z) :=
  <[32%nat := splice zero_block 64 (dinode_enc demo_file ++ dinode_enc demo_dir)]>
    (<[34%nat := splice zero_block 0 [255; 255; 255; 255; 15]]>
      (<[35%nat := splice zero_block 0 [104; 101; 108; 108; 111]]> (replicate 64 zero_block))).

Definition demo_isleep : gmap slockid sleeplock :=
  <[SLInode 0 := mkSleeplock 0 "inode" 0]> (<[SLInode 1 := mkSleeplock 0 "inode" 0]> ∅).
Definition demo_ilocks : gmap lockid spinlock :=
  <[LSleep (SLInode 0) := mkSpinlock 0 "sleep lock" None]>
    (<[LSleep (SLInode 1) := mkSpinlock 0 "sleep lock" None]> demo_locks).

Definition demo_fsboot : kernel :=
  with_k_disk demo_fsdisk (with_k_slocks demo_isleep
    (with_k_hart (with_h_locks demo_ilocks demo_run_hart) demo_boot)).

(** The inode cache: inodes 1 and 2, loaded, and an unused entry. *)
Definition demo_ip : inode := mkInode 1 1 1 1 T_FILE 0 0 1 5 (35 :: replicate 12 0).
Definition demo_dp : inode := mkInode 1 2 1 1 T_DIR 0 0 1 0 (replicate 13 0).
Definition demo_icache : list inode := [demo_ip; mkInode 0 0 0 0 0 0 0 0 0 (replicate 13 0); demo_dp].

Definition demo_mounted : kernel :=
  with_k_icache demo_icache (with_k_sb (mkSuperblock 64 29 8 30 2 32 34)
    (with_k_log (mkLog 2 30 1 0 1 0 (replicate 30 0))
      (match binit demo_fsboot with Done _ s => s | _ => demo_fsboot end))).

Definition demo_view : Z → list Z := disk_view demo_fsdisk.

Lemma demo_fsdisk_ok : Forall block_ok demo_fsdisk.
Proof.
  assert (Hz := zero_block_ok). assert (Hsp : ∀ off bs, (off + length bs ≤ 512)%nat → Forall is_u8 bs → block_ok (splice zero_block off bs)).
  { intros off bs Hl Hb. split; [by rewrite length_splice|]. apply Forall_splice; [apply Hz|done]. }
  unfold demo_fsdisk. repeat apply Forall_insert.
  - apply Forall_replicate, Hz.
  - apply Hsp; [simpl; lia|]. repeat constructor; unfold is_u8; lia.
  - apply Hsp; [simpl; lia|]. repeat constructor; unfold is_u8; lia.
  - apply Hsp; [rewrite length_app, !length_dinode_enc by done; lia|].
    apply Forall_app. split; apply dinode_enc_bytes.
Qed.

Lemma demo_mounted_brep : brep demo_mounted ∅ demo_view ∅ ∧ k_disk demo_mounted = demo_fsdisk.
Proof.
  destruct (binit_spec demo_fsboot 0 demo_proc) as (s' & E & R & Hs).
  - exists 0%nat, (mkCpu 7 (mkTaskstate 0 0 0) [] 1 0 true (Some 0%nat)). repeat split; simpl; lia.
  - vm_compute. reflexivity.
  - done.
  - done.
  - exact demo_unused.
  - exact demo_fsdisk_ok.
  - unfold demo_mounted. rewrite E. split; [exact R|]. rewrite Hs. done.
Qed.

Lemma demo_mounted_txn : txn_rep demo_mounted ∅ demo_view 29.
Proof.
  destruct demo_mounted_brep as [R D]. exists ∅. split; [exact R|]. rewrite D.
  assert (El : lblocks (k_log demo_mounted) = []) by (vm_compute; reflexivity).
  split; [|split; [vm_compute; reflexivity|]].
  - unfold log_ok. rewrite El. split; [|split; [|split; [|split]]].
    + vm_compute. repeat split; congruence.
    + vm_compute. split; congruence.
    + apply NoDup_nil_2.
    + intros b Hb. destruct (not_elem_of_nil b Hb).
    + done.
  - split; [vm_compute; congruence|]. split; [vm_compute; reflexivity|]. intros i b. by rewrite lookup_empty.
Qed.

Lemma demo_mounted_disk : length (k_disk demo_mounted) = 64%nat.
Proof. destruct demo_mounted_brep as [_ ->]. done. Qed.

Lemma demo_mounted_geom : fs_geom demo_mounted.
Proof. unfold fs_geom, data_start. rewrite demo_mounted_disk. vm_compute. repeat split; congruence. Qed.

Lemma demo_mounted_meta : meta_used demo_mounted demo_view.
Proof.
  intros b Hb. unfold data_start in Hb. rewrite demo_mounted_disk in Hb.
  change (sb_bmapstart (k_sb demo_mounted) + Z.of_nat 64 / BPB + 1) with 35 in Hb.
  assert (Hall : forallb (λ n, negb (bfree_in (k_sb demo_mounted) demo_view (Z.of_nat n))) (seq 0 35) = true)
    by (vm_compute; reflexivity).
  rewrite forallb_forall in Hall. specialize (Hall (Z.to_nat b)). rewrite Z2Nat.id in Hall by lia.
  apply negb_true_iff, Hall. apply in_seq. lia.
Qed.

Lemma demo_mounted_free : (20 ≤ nfree demo_mounted demo_view)%nat.
Proof.
  unfold nfree. rewrite demo_mounted_disk. change (k_sb demo_mounted) with (mkSuperblock 64 29 8 30 2 32 34).
  vm_compute. lia.
Qed.

Lemma demo_mounted_locks :
  kok demo_mounted ∧ unlocked LIcache demo_mounted ∧ unlocked (LSleep (SLInode 0)) demo_mounted ∧
  sl_free (SLInode 0) demo_mounted.
Proof.
  split; [apply (brep_kok _ _ _ _ (proj1 demo_mounted_brep))|].
  split; [vm_compute; reflexivity|]. split; [vm_compute; reflexivity|].
  exists (mkSleeplock 0 "inode" 0). split; vm_compute; reflexivity.
Qed.

Lemma demo_mounted_icache : k_icache demo_mounted = demo_icache.
Proof. reflexivity. Qed.

Lemma demo_mounted_sb : k_sb demo_mounted = mkSuperblock 64 29 8 30 2 32 34.
Proof. reflexivity. Qed.

#[global] Opaque demo_mounted.

Lemma balloc_allocates_witness :
  ∃ b s' V', balloc 1 demo_mounted = Done b s' ∧ txn_rep s' ∅ V' 27 ∧ k_sb s' = k_sb demo_mounted ∧
    data_start demo_mounted ≤ b < Z.of_nat (length (k_disk demo_mounted)) ∧
    bfree_in (k_sb demo_mounted) demo_view b = true ∧
    (∀ c, 0 ≤ c < b → bfree_in (k_sb demo_mounted) demo_view c = false) ∧ V' b = replicate 512 0 ∧
    (∀ c, 0 ≤ c < Z.of_nat (length (k_disk demo_mounted)) →
       bfree_in (k_sb demo_mounted) V' c = if decide (b = c) then false else bfree_in (k_sb demo_mounted) demo_view c) ∧
    (∀ c, c ≠ b → c ≠ BBLOCK b (k_sb demo_mounted) → V' c = demo_view c).
Proof.
  apply (balloc_allocates (txn := txn_rep) demo_mounted demo_view 27).
  - exact demo_mounted_txn.
  - exact demo_mounted_geom.
  - exact demo_mounted_meta.
  - pose proof demo_mounted_free. lia.
Defined.

Lemma demo_mounted_35 : data_block demo_mounted demo_view 35.
Proof.
  unfold data_block, in_use, data_start. rewrite demo_mounted_disk, demo_mounted_sb.
  split; [vm_compute; congruence|]. split; [lia|vm_compute; reflexivity].
Qed.

Lemma bfree_once_witness :
  ∃ s' V', bfree 1 35 demo_mounted = Done tt s' ∧ txn_rep s' ∅ V' 28 ∧
    (∀ c, 0 ≤ c < Z.of_nat (length (k_disk demo_mounted)) →
       bfree_in (k_sb demo_mounted) V' c = if decide (35 = c) then true else bfree_in (k_sb demo_mounted) demo_view c) ∧
    (∀ c, c ≠ BBLOCK 35 (k_sb demo_mounted) → V' c = demo_view c) ∧
    bfree 1 35 s' = Panicked "freeing free block".
Proof.
  apply (bfree_once (txn := txn_rep) demo_mounted demo_view 28 35).
  - exact demo_mounted_txn.
  - exact demo_mounted_geom.
  - exact (proj2 demo_mounted_35).
Defined.

Lemma demo_icache_ok : icache_ok demo_icache.
Proof.
  split.
  - intros [|[|[|[|i]]]] ip; simpl; intros [= <-]; simpl; lia.
  - intros [|[|[|[|i]]]] [|[|[|[|j]]]] ip jp; simpl; intros [= <-] [= <-]; simpl; lia.
Qed.

Lemma iget_unique_witness :
  (∃ i ip ip', iget 1 3 demo_mounted = Done i (upd_inode i (λ _, ip') demo_mounted) ∧
    k_icache demo_mounted !! i = Some ip ∧
    i_dev ip' = 1 ∧ i_inum ip' = 3 ∧ i_ref ip' = i_ref ip + 1 ∧ inode_disk ip' = inode_disk ip ∧
    icache_ok (alter (λ _, ip') i (k_icache demo_mounted)) ∧
    i_valid ip' = if 0 <? i_ref ip then i_valid ip else 0) ∨
  iget 1 3 demo_mounted = Panicked "iget: no inodes" ∧
    ∀ i ip, k_icache demo_mounted !! i = Some ip → 0 < i_ref ip ∧ ¬ (i_dev ip = 1 ∧ i_inum ip = 3).
Proof.
  destruct demo_mounted_locks as (Hk & Hl & _).
  apply (iget_unique 1 3 demo_mounted Hk Hl); rewrite demo_mounted_icache.
  - exact demo_icache_ok.
  - intros [|[|[|[|i]]]] ip; simpl; intros [= <-]; simpl; lia.
Defined.

Lemma demo_file_ok : dinode_ok demo_file.
Proof.
  constructor; simpl; unfold is_short, is_u32, T_FILE; try lia. repeat constructor; lia.
Qed.

Lemma iupdate_ilock_witness :
  ∃ s1 s2 V' ip', iupdate 0 demo_mounted = Done tt s1 ∧
    ilock (Some 0%nat) (upd_inode 0 (λ _, mkInode 1 1 1 0 0 0 0 0 0 []) s1) = Done tt s2 ∧
    k_icache s2 !! 0%nat = Some ip' ∧ inode_disk ip' = demo_file ∧ i_valid ip' = 1 ∧
    sl_mine (SLInode 0) s2 ∧ txn_rep s2 ∅ V' 28 ∧
    ∀ n, 0 ≤ n < sb_ninodes (k_sb demo_mounted) → n ≠ 1 →
      dinode_at (k_sb demo_mounted) V' n = dinode_at (k_sb demo_mounted) demo_view n.
Proof.
  destruct demo_mounted_locks as (Hk & Hl & Hu & Hs).
  apply (iupdate_ilock (txn := txn_rep) demo_mounted demo_view 28 0 demo_ip).
  - exact demo_mounted_txn.
  - exact demo_mounted_geom.
  - rewrite demo_mounted_icache. reflexivity.
  - split; [reflexivity|]. rewrite demo_mounted_sb. simpl. lia.
  - exact demo_file_ok.
  - discriminate.
  - exact Hu.
  - exact Hs.
  - reflexivity.
  - reflexivity.
  - reflexivity.
  - simpl. lia.
Defined.
