(* ===== verification/Console.v ===== *)
(** The console as a device: [consoleintr], [consoleread], [consolewrite] and
    [consoleinit] of console.c, with [procdump] of proc.c and [getcallerpcs] of
    spinlock.c, which control-P calls.

    The input ring is refined by a pair of lists, the lines that are complete
    and the line being edited: [consoleintr_edits] says that each character
    typed acts on the pair as the line discipline does, and
    [consoleread_line] that a reader takes the completed input in order. *)

From S2P Require Import Prelude State Spinlock CString Cprintf Sched Bio Log Txn Inode.
Import KLock.

(** * Listing processes *)

(** [getcallerpcs]: the saved program counters up the stack from the frame
    [ebp], ten at most; the rest of the array is zero. *)
Fixpoint getcallerpcs (m : mem) (ebp : Z) (n : nat) : list Z :=
  match n with
  | O => []
  | S n' =>
      if (ebp =? 0) || (ebp <? KERNBASE) || (ebp =? 0xffffffff) then replicate n 0
      else load32 m (u32 (ebp + 4)) :: getcallerpcs m (load32 m ebp) n'
  end.

(** A C string: the bytes before the first zero. *)
Fixpoint cstr (l : list Z) : list Z :=
  match l with
  | [] => []
  | c :: l' => if c =? 0 then [] else c :: cstr l'
  end.

Definition state_name (st : procstate) : list Z :=
  bytes match st with
        | UNUSED => "unused"
        | EMBRYO => "embryo"
        | SLEEPING => "sleep "
        | RUNNABLE => "runble"
        | RUNNING => "run   "
        | ZOMBIE => "zombie"
        end.

Definition procdump_body (p : nat) : K unit :=
  pr <- proc_at (Some p) ;;
  if decide (p_state pr = UNUSED) then ret tt else
  cprint "%d %s %s" [CInt (p_pid pr); CStr (Some (state_name (p_state pr))); CStr (Some (cstr (p_name pr)))] ;;;
  (if decide (p_state pr = SLEEPING) then
     m <- gets k_mem ;;
     for_each (cstr (getcallerpcs m (cx_ebp (p_context pr)) 10)) (λ pc, cprint " %p" [CInt pc])
   else ret tt) ;;;
  cprint "
" [].

Definition procdump : K unit :=
  n <- gets (λ s, length (k_ptable s)) ;; for_each (seq 0 n) procdump_body.

(** * Input *)

Definition upd_input (f : input_t → input_t) (s : kernel) : kernel := with_k_input (f (k_input s)) s.

(** [input.buf[i % INPUT_BUF]]. *)
Definition input_at (inp : input_t) (i : Z) : Z := nth (Z.to_nat (i mod INPUT_BUF)) (in_buf inp) 0.

(** The control characters C('P'), C('U'), C('H') and C('D'). *)
Definition CTRL_P : Z := 16.
Definition CTRL_U : Z := 21.
Definition CTRL_H : Z := 8.
Definition CTRL_D : Z := 4.

(** The loop of control-U; [e - w] characters can be erased, so that many
    turns and one are enough. *)
Fixpoint kill_line (fuel : nat) : K unit :=
  match fuel with
  | O => diverge
  | S fuel' =>
      inp <- gets k_input ;;
      if negb (in_e inp =? in_w inp) && negb (input_at inp (u32 (in_e inp - 1)) =? NEWLINE) then
        modify (upd_input (λ inp, with_in_e (u32 (in_e inp - 1)) inp)) ;;;
        consputc BACKSPACE ;;;
        kill_line fuel'
      else ret tt
  end.

(** One character of input; [true] asks for [procdump]. *)
Definition consoleintr_char (c : Z) : K bool :=
  inp <- gets k_input ;;
  if c =? CTRL_P then ret true
  else if c =? CTRL_U then
    kill_line (S (Z.to_nat (u32 (in_e inp - in_w inp)))) ;;; ret false
  else if (c =? CTRL_H) || (c =? 0x7f) then
    if negb (in_e inp =? in_w inp) then
      modify (upd_input (λ inp, with_in_e (u32 (in_e inp - 1)) inp)) ;;;
      consputc BACKSPACE ;;;
      ret false
    else ret false
  else if negb (c =? 0) && (u32 (in_e inp - in_r inp) <? INPUT_BUF) then
    let c := if c =? 13 then NEWLINE else c in
    modify (upd_input (λ inp,
      with_in_e (u32 (in_e inp + 1))
        (with_in_buf (<[Z.to_nat (in_e inp mod INPUT_BUF) := u8 c]> (in_buf inp)) inp))) ;;;
    consputc c ;;;
    inp <- gets k_input ;;
    if (c =? NEWLINE) || (c =? CTRL_D) || (in_e inp =? u32 (in_r inp + INPUT_BUF)) then
      modify (upd_input (λ inp, with_in_w (in_e inp) inp)) ;;;
      wakeup ChInput ;;;
      ret false
    else ret false
  else ret false.

Fixpoint consoleintr_loop (chars : list Z) (doprocdump : bool) : K bool :=
  match chars with
  | [] => ret doprocdump
  | c :: chars' => d <- consoleintr_char c ;; consoleintr_loop chars' (doprocdump || d)
  end.

(** [chars]: what [getc] returns until it returns a negative number. *)
Definition consoleintr (chars : list Z) : K unit :=
  acquire LCons ;;;
  doprocdump <- consoleintr_loop chars false ;;
  release LCons ;;;
  if (doprocdump : bool) then procdump else ret tt.

(** * The device *)

(** The inner loop of [consoleread]: wait for input; [false] if killed. *)
Fixpoint input_wait (fuel : nat) : K bool :=
  match fuel with
  | O => diverge
  | S fuel' =>
      inp <- gets k_input ;;
      if in_r inp =? in_w inp then
        p <- myproc ;;
        pr <- proc_at p ;;
        if negb (p_killed pr =? 0) then ret false else
        sleep ChInput (Some LCons) ;;;
        input_wait fuel'
      else ret true
  end.

(** The outer loop, [n] bytes to go and [got] read; [false] if killed. *)
Fixpoint consoleread_loop (n : nat) (got : list Z) : K (bool * list Z) :=
  match n with
  | O => ret (true, got)
  | S n' =>
      w <- gets k_wakes ;;
      ok <- input_wait (S w) ;;
      if negb ok then ret (false, got) else
      inp <- gets k_input ;;
      let c := input_at inp (in_r inp) in
      modify (upd_input (λ inp, with_in_r (u32 (in_r inp + 1)) inp)) ;;;
      if c =? CTRL_D then
        (if negb (Nat.eqb (length got) 0) then
           modify (upd_input (λ inp, with_in_r (u32 (in_r inp - 1)) inp))
         else ret tt) ;;;
        ret (true, got)
      else if c =? NEWLINE then ret (true, got ++ [c])
      else consoleread_loop n' (got ++ [c])
  end.

(** The result and the bytes stored at [dst]. *)
Definition consoleread (ip : nat) (n : Z) : K (Z * list Z) :=
  iunlock (Some ip) ;;;
  acquire LCons ;;;
  r <- consoleread_loop (Z.to_nat n) [] ;;
  release LCons ;;;
  ilock (Some ip) ;;;
  ret (if fst r then Z.of_nat (length (snd r)) else -1, snd r).

Definition consolewrite (ip : nat) (buf : list Z) : K Z :=
  iunlock (Some ip) ;;;
  acquire LCons ;;;
  for_each buf (λ c, consputc (Z.land c 0xff)) ;;;
  release LCons ;;;
  ilock (Some ip) ;;;
  ret (Z.of_nat (length buf)).

(** [devsw[major].read] and [.write] call the console driver. *)
Definition consoleinit : K unit :=
  initlock LCons "console" ;;;
  modify (λ s, with_k_devsw (<[Z.to_nat CONSOLE := (Some DevConsole, Some DevConsole)]> (k_devsw s)) s) ;;;
  modify (with_k_locking true).

(** * The line discipline *)

(** The completed input and the line being edited, after the character [c]. *)
Definition edit (c : Z) (st : list Z * list Z) : list Z * list Z :=
  let (com, ed) := st in
  if c =? CTRL_P then st
  else if c =? CTRL_U then (com, [])
  else if (c =? CTRL_H) || (c =? 0x7f) then (com, removelast ed)
  else if negb (c =? 0) && (length com + length ed <? 128)%nat then
    let c := if c =? 13 then NEWLINE else c in
    let ed' := ed ++ [c] in
    if (c =? NEWLINE) || (c =? CTRL_D) || (length com + length ed' =? 128)%nat
    then (com ++ ed', []) else (com, ed')
  else st.

(** What a reader of [n] bytes gets from the completed input, and what it
    leaves; [None] if it has to wait. *)
Fixpoint reads (n : nat) (got com : list Z) : option (list Z * list Z) :=
  match n, com with
  | O, _ => Some (got, com)
  | S _, [] => None
  | S n', c :: com' =>
      if c =? CTRL_D then Some (got, if decide (got = []) then com' else com)
      else if c =? NEWLINE then Some (got ++ [c], com')
      else reads n' (got ++ [c]) com'
  end.

(** The ring [inp] holds the completed input [com], then the line [ed]. *)
Record crep (inp : input_t) (com ed : list Z) : Prop := mkCrep {
  cr_len : length (in_buf inp) = 128%nat;
  cr_r : is_u32 (in_r inp);
  cr_w : in_w inp = u32 (in_r inp + Z.of_nat (length com));
  cr_e : in_e inp = u32 (in_r inp + Z.of_nat (length com) + Z.of_nat (length ed));
  cr_room : (length com + length ed ≤ 128)%nat;
  cr_at : ∀ j x, (com ++ ed) !! j = Some x → input_at inp (in_r inp + Z.of_nat j) = x;
}.
Arguments cr_len {_ _ _} _.
Arguments cr_r {_ _ _} _.
Arguments cr_w {_ _ _} _.
Arguments cr_e {_ _ _} _.
Arguments cr_room {_ _ _} _.
Arguments cr_at {_ _ _} _.

Lemma u32_diff a b : is_u32 a → 0 ≤ b < 4294967296 → u32 (u32 (a + b) - a) = b.
Proof. unfold is_u32, u32. intros Ha Hb. zdiv. Qed.

Lemma u32_back a : is_u32 a → u32 (u32 (a + 1) - 1) = a.
Proof. unfold is_u32, u32. intros Ha. zdiv. Qed.

Lemma u32_mod128 z : u32 z mod INPUT_BUF = z mod INPUT_BUF.
Proof. unfold u32, INPUT_BUF. zdiv. Qed.

Lemma input_at_u32 inp z : input_at inp (u32 z) = input_at inp z.
Proof. unfold input_at. by rewrite u32_mod128. Qed.

Lemma crep_ew inp com ed : crep inp com ed → (in_e inp =? in_w inp) = match ed with [] => true | _ => false end.
Proof.
  intros R. rewrite (cr_e R), (cr_w R). pose proof (cr_room R). pose proof (cr_r R) as Hr.
  destruct ed as [|x ed]; simpl in *.
  - rewrite Z.add_0_r. apply Z.eqb_refl.
  - apply Z.eqb_neq. unfold is_u32, u32 in *. zdiv.
Qed.

Lemma crep_count inp com ed : crep inp com ed → u32 (in_e inp - in_r inp) = Z.of_nat (length com + length ed).
Proof.
  intros R. rewrite (cr_e R). pose proof (cr_room R). pose proof (cr_r R).
  replace (in_r inp + _ + _) with (in_r inp + Z.of_nat (length com + length ed)) by lia.
  apply u32_diff; [done|lia].
Qed.

(** Erasing the last character of the line. *)
Lemma crep_erase inp com ed x :
  crep inp com (ed ++ [x]) → crep (with_in_e (u32 (in_e inp - 1)) inp) com ed.
Proof.
  intros [R1 R2 R3 R4 R5 R6]. rewrite length_app in R4, R5. simpl in R4, R5. constructor; simpl; try done.
  - rewrite R4. unfold is_u32, u32 in *. zdiv.
  - lia.
  - intros j y Hj. apply R6. rewrite app_assoc. by apply lookup_app_l_Some.
Qed.

Lemma crep_last inp com ed x : crep inp com (ed ++ [x]) → input_at inp (u32 (in_e inp - 1)) = x.
Proof.
  intros R. rewrite input_at_u32. rewrite <-(cr_at R (length com + length ed) x).
  - rewrite (cr_e R), length_app. unfold input_at. do 2 f_equal. simpl. unfold u32, INPUT_BUF. zdiv.
  - rewrite app_assoc, lookup_app_r by (rewrite length_app; lia). rewrite length_app, Nat.sub_diag. done.
Qed.

(** Typing a character. *)
Lemma crep_type inp com ed c :
  crep inp com ed → (length com + length ed < 128)%nat →
  crep (with_in_e (u32 (in_e inp + 1))
    (with_in_buf (<[Z.to_nat (in_e inp mod INPUT_BUF) := c]> (in_buf inp)) inp)) com (ed ++ [c]).
Proof.
  intros R Hlt. pose proof R as [R1 R2 R3 R4 R5 R6]. constructor; simpl.
  - by rewrite length_insert.
  - done.
  - done.
  - rewrite R4, length_app. simpl. unfold is_u32, u32 in *. zdiv.
  - rewrite length_app. simpl. lia.
  - intros j x Hj. rewrite app_assoc in Hj. unfold input_at. simpl.
    assert (He : in_e inp mod INPUT_BUF = (in_r inp + Z.of_nat (length com + length ed)) mod INPUT_BUF).
    { rewrite R4, u32_mod128. f_equal. lia. }
    rewrite nth_insert.
    2:{ rewrite R1. unfold INPUT_BUF. pose proof (Z.mod_pos_bound (in_e inp) 128). lia. }
    apply lookup_app_Some in Hj as [Hj|[Hl Hj]].
    + pose proof (lookup_lt_Some _ _ _ Hj) as Hjl. rewrite length_app in Hjl. rewrite decide_False; [by apply R6|].
      rewrite He. unfold INPUT_BUF. intros E. apply (f_equal Z.of_nat) in E.
      rewrite !Z2Nat.id in E by (apply Z.mod_pos_bound; lia). zdiv.
    + apply list_lookup_singleton_Some in Hj as [Hj <-]. rewrite length_app in Hl, Hj. rewrite decide_True; [done|].
      rewrite He. do 3 f_equal. lia.
Qed.

(** Completing the line. *)
Lemma crep_commit inp com ed : crep inp com ed → crep (with_in_w (in_e inp) inp) (com ++ ed) [].
Proof.
  intros [R1 R2 R3 R4 R5 R6]. constructor; simpl; try done.
  - rewrite R4, length_app. f_equal. lia.
  - rewrite R4, length_app. f_equal. lia.
  - rewrite length_app. lia.
  - by rewrite app_nil_r.
Qed.

(** Reading a character. *)
Lemma crep_read inp x com ed :
  crep inp (x :: com) ed → input_at inp (in_r inp) = x ∧ crep (with_in_r (u32 (in_r inp + 1)) inp) com ed.
Proof.
  intros [R1 R2 R3 R4 R5 R6]. split.
  - rewrite <-(R6 0%nat x) by done. by rewrite Z.add_0_r.
  - simpl in *. constructor; simpl; try done.
    + apply u32_range.
    + rewrite R3. unfold is_u32, u32 in *. zdiv.
    + rewrite R4. unfold is_u32, u32 in *. zdiv.
    + lia.
    + intros j y Hj. rewrite <-(R6 (S j) y) by done. unfold input_at. simpl. f_equal. f_equal.
      unfold u32, INPUT_BUF. zdiv.
Qed.

(** * Typing *)

(** What input may change: the ring, the output, and processes it wakes up. *)
Definition cframe (s s' : kernel) : Prop :=
  s' = with_k_input (k_input s') (with_k_ptable (k_ptable s')
         (with_k_out (k_out s') (with_k_screen (k_screen s') s))) ∧
  woken (k_ptable s) (k_ptable s') ∧ (screen_ok (k_screen s) → screen_ok (k_screen s')).

Lemma cframe_trans s1 s2 s3 : cframe s1 s2 → cframe s2 s3 → cframe s1 s3.
Proof.
  intros (E1 & W1 & S1) (E2 & W2 & S2). split; [|split; [by eapply woken_trans|auto]]. rewrite E2, E1. done.
Qed.

Lemma cframe_refl s : cframe s s.
Proof. split; [by destruct s|]. split; [apply woken_refl|done]. Qed.

Lemma cframe_out s s' : outframe s s' → cframe s s'.
Proof. intros [E S]. split; [|split; [|done]]; rewrite E; [by destruct s|apply woken_refl]. Qed.

Lemma cframe_input f s : cframe s (upd_input f s).
Proof. split; [by destruct s|]. split; [apply woken_refl|done]. Qed.

Lemma cframe_wake ch s : cframe s (with_k_ptable (wake ch <$> k_ptable s) s).
Proof. split; [by destruct s|]. split; [apply woken_wake|done]. Qed.

Lemma cframe_hart s s' : cframe s s' → k_hart s' = k_hart s.
Proof. intros [E _]. by rewrite E. Qed.

Lemma can_print_cframe s s' : cframe s s' → can_print s → can_print s'.
Proof. intros (E & _ & S) [Hp Hs]. split; [by rewrite E|auto]. Qed.

(** A change of the ring followed by [consputc]. *)
Lemma type_run f c s :
  can_print s → ∃ s', (modify (upd_input f) ;;; consputc c) s = Done tt s' ∧ cframe s s' ∧ k_input s' = f (k_input s).
Proof.
  intros Hc. erewrite bind_done by done.
  destruct (consputc_ok c (upd_input f s)) as (s' & E & F & _); [done|].
  exists s'. split; [done|]. split.
  - eapply cframe_trans; [apply cframe_input|by apply cframe_out].
  - destruct F as [-> _]. done.
Qed.

Lemma bind_assoc_done {A B C} (m : K A) (f : A → K B) (g : B → K C) s b s' :
  (a <- m ;; f a) s = Done b s' → (a <- m ;; b <- f a ;; g b) s = g b s'.
Proof.
  unfold bind. destruct (m s) as [a s1|msg|s1 k|]; cbn [obind]; intros E; [by rewrite E|done..].
Qed.

Lemma kill_line_ok ed com fuel s :
  can_print s → crep (k_input s) com ed → NEWLINE ∉ ed → (length ed < fuel)%nat →
  ∃ s', kill_line fuel s = Done tt s' ∧ cframe s s' ∧ crep (k_input s') com [].
Proof.
  revert fuel s. induction ed as [|x ed IH] using rev_ind; intros [|fuel] s Hc R Hnl Hf;
    rewrite ?length_app in Hf; simpl in Hf; try lia; cbn [kill_line]; unfold bind at 1, gets; cbn [obind];
    rewrite (crep_ew _ _ _ R).
  - exists s. split; [done|]. split; [apply cframe_refl|done].
  - rewrite (crep_last _ _ _ _ R). assert (x ≠ NEWLINE) by (intros ->; apply Hnl, elem_of_app; right; by left).
    assert (Hm : match ed ++ [x] with [] => true | _ => false end = false) by (by destruct ed).
    rewrite Hm, (proj2 (Z.eqb_neq x NEWLINE)) by done. cbn [negb andb].
    destruct (type_run (λ inp, with_in_e (u32 (in_e inp - 1)) inp) BACKSPACE s Hc) as (s1 & E1 & F1 & I1).
    erewrite bind_assoc_done by exact E1. destruct (IH fuel s1) as (s' & E & F & R').
    + by eapply can_print_cframe.
    + rewrite I1. by eapply crep_erase.
    + intros Hin. apply Hnl, elem_of_app. by left.
    + lia.
    + exists s'. split; [done|]. split; [by eapply cframe_trans|done].
Qed.

Lemma removelast_snoc {A} (l : list A) x : removelast (l ++ [x]) = l.
Proof. rewrite removelast_app by done. by rewrite app_nil_r. Qed.

(** The character that goes into the ring. *)
Lemma consoleintr_typed c com ed s :
  kok s → unlocked LPtable s → can_print s → crep (k_input s) com ed → 0 ≤ c < 256 →
  (length com + length ed < 128)%nat → 
  let st := if (c =? NEWLINE) || (c =? CTRL_D) || (length com + length (ed ++ [c]) =? 128)%nat
            then (com ++ ed ++ [c], []) else (com, ed ++ [c]) in
  ∃ s', (modify (upd_input (λ inp,
      with_in_e (u32 (in_e inp + 1))
        (with_in_buf (<[Z.to_nat (in_e inp mod INPUT_BUF) := u8 c]> (in_buf inp)) inp))) ;;;
    consputc c ;;;
    inp <- gets k_input ;;
    if (c =? NEWLINE) || (c =? CTRL_D) || (in_e inp =? u32 (in_r inp + INPUT_BUF)) then
      modify (upd_input (λ inp, with_in_w (in_e inp) inp)) ;;;
      wakeup ChInput ;;;
      ret false
    else ret false) s = Done false s' ∧ cframe s s' ∧ crep (k_input s') (fst st) (snd st).
Proof.
  intros Hok Hpt Hc R Hcr Hlt st. rewrite (u8_small c) by done.
  set (f := λ inp, with_in_e _ _). destruct (type_run f c s Hc) as (s1 & E1 & F1 & I1).
  erewrite bind_assoc_done by exact E1. unfold bind at 1, gets. cbn [obind].
  pose proof (crep_type _ _ _ c R Hlt) as R1. fold (f (k_input s)) in R1. rewrite <-I1 in R1.
  assert (Efull : (in_e (k_input s1) =? u32 (in_r (k_input s1) + INPUT_BUF)) = (length com + length (ed ++ [c]) =? 128)%nat).
  { rewrite (cr_e R1). pose proof (cr_r R1) as Hr. pose proof (cr_room R1) as Hroom.
    destruct (Nat.eqb_spec (length com + length (ed ++ [c])) 128) as [E|E].
    - apply Z.eqb_eq. f_equal. unfold INPUT_BUF. lia.
    - apply Z.eqb_neq. unfold is_u32, u32, INPUT_BUF in *. zdiv. }
  rewrite Efull. subst st. destruct ((c =? NEWLINE) || (c =? CTRL_D) || (length com + length (ed ++ [c]) =? 128)%nat).
  - erewrite bind_done by done. erewrite bind_done.
    2:{ apply wakeup_ok; unfold kok, unlocked; simpl; by rewrite (cframe_hart _ _ F1). }
    eexists. split; [reflexivity|]. split; [|by apply crep_commit].
    eapply cframe_trans; [exact F1|]. eapply cframe_trans; [apply cframe_input|apply cframe_wake].
  - exists s1. split; [done|]. split; [done|done].
Qed.

Lemma edit_no_newline c com ed : NEWLINE ∉ ed → NEWLINE ∉ (edit c (com, ed)).2.
Proof.
  intros H. unfold edit. destruct (c =? CTRL_P); [done|]. destruct (c =? CTRL_U); [apply not_elem_of_nil|].
  destruct ((c =? CTRL_H) || (c =? 0x7f)).
  { destruct ed as [|x ed] using rev_ind; [done|]. cbn [snd]. rewrite removelast_snoc.
    intros Hin. apply H, elem_of_app. by left. }
  destruct (negb (c =? 0) && _); [|done]. set (c' := if c =? 13 then NEWLINE else c).
  destruct ((c' =? NEWLINE) || (c' =? CTRL_D) || _) eqn:E; [apply not_elem_of_nil|].
  apply orb_false_iff in E as [[E%Z.eqb_neq _]%orb_false_iff _].
  cbn [snd]. rewrite elem_of_app, list_elem_of_singleton. intros [?|?]; [done|congruence].
Qed.

Lemma consoleintr_char_ok c com ed s :
  kok s → unlocked LPtable s → can_print s → crep (k_input s) com ed → NEWLINE ∉ ed → 0 ≤ c < 256 →
  ∃ s', consoleintr_char c s = Done (c =? CTRL_P) s' ∧ cframe s s' ∧
    crep (k_input s') (edit c (com, ed)).1 (edit c (com, ed)).2.
Proof.
  intros Hok Hpt Hc R Hnl Hcr. unfold consoleintr_char, edit. unfold bind at 1, gets. cbn [obind].
  destruct (c =? CTRL_P); [exists s; split; [done|]; split; [apply cframe_refl|done]|].
  destruct (c =? CTRL_U).
  { destruct (kill_line_ok ed com (S (Z.to_nat (u32 (in_e (k_input s) - in_w (k_input s))))) s) as (s' & E & F & R'); try done.
    - rewrite (cr_e R), (cr_w R). pose proof (cr_room R). unfold u32. zdiv.
    - exists s'. by erewrite bind_done by exact E. }
  destruct ((c =? CTRL_H) || (c =? 0x7f)).
  { rewrite (crep_ew _ _ _ R). destruct ed as [|x ed] using rev_ind.
    - exists s. split; [done|]. split; [apply cframe_refl|done].
    - assert (Hm : match ed ++ [x] with [] => true | _ => false end = false) by (by destruct ed).
      rewrite Hm. cbn [negb].
      destruct (type_run (λ inp, with_in_e (u32 (in_e inp - 1)) inp) BACKSPACE s Hc) as (s1 & E1 & F1 & I1).
      erewrite bind_assoc_done by exact E1. exists s1. split; [done|]. split; [done|].
      rewrite I1. simpl. rewrite removelast_snoc. by eapply crep_erase. }
  rewrite (crep_count _ _ _ R). unfold INPUT_BUF at 1.
  replace (Z.of_nat (length com + length ed) <? 128) with (length com + length ed <? 128)%nat.
  2:{ destruct (Nat.ltb_spec (length com + length ed) 128); symmetry; [apply Z.ltb_lt|apply Z.ltb_ge]; lia. }
  destruct (negb (c =? 0) && (length com + length ed <? 128)%nat) eqn:E.
  - apply andb_true_iff in E as [_ Hlt%Nat.ltb_lt].
    assert (Hcr' : 0 ≤ (if c =? 13 then NEWLINE else c) < 256) by (unfold NEWLINE; case_bool; lia).
    destruct (consoleintr_typed _ com ed s Hok Hpt Hc R Hcr' Hlt) as (s' & E' & F' & R').
    exists s'. split; [exact E'|]. split; [done|]. exact R'.
  - exists s. split; [done|]. split; [apply cframe_refl|done].
Qed.

Lemma consoleintr_loop_ok chars com ed d s :
  kok s → unlocked LPtable s → can_print s → crep (k_input s) com ed → NEWLINE ∉ ed → Forall is_u8 chars →
  ∃ s' d', consoleintr_loop chars d s = Done d' s' ∧ cframe s s' ∧
    crep (k_input s') (foldl (flip edit) (com, ed) chars).1 (foldl (flip edit) (com, ed) chars).2.
Proof.
  revert com ed d s. induction chars as [|c chars IH]; intros com ed d s Hok Hpt Hc R Hnl Hall; cbn [consoleintr_loop].
  - exists s, d. split; [done|]. split; [apply cframe_refl|done].
  - inversion Hall as [|? ? Hcr Hall']; subst.
    destruct (consoleintr_char_ok c com ed s Hok Hpt Hc R Hnl Hcr) as (s1 & E1 & F1 & R1).
    erewrite bind_done by exact E1. pose proof (edit_no_newline c com ed Hnl) as Hnl1.
    destruct (IH (edit c (com, ed)).1 (edit c (com, ed)).2 (d || (c =? CTRL_P)) s1) as (s' & d' & E & F & R'); try done.
    + unfold kok. by rewrite (cframe_hart _ _ F1).
    + unfold unlocked. by rewrite (cframe_hart _ _ F1).
    + by eapply can_print_cframe.
    + exists s', d'. split; [done|]. split; [by eapply cframe_trans|]. cbn [foldl]. unfold flip at 2 4.
      by rewrite <-surjective_pairing in R'.
Qed.

Lemma procdump_pcs pcs s :
  can_print s → cons_ready s → ∃ s', for_each pcs (λ pc, cprint " %p" [CInt pc]) s = Done tt s' ∧ outframe s s'.
Proof.
  revert s. induction pcs as [|pc pcs IH]; intros s Hc Hr; cbn [for_each].
  - exists s. split; [done|apply outframe_refl].
  - destruct (cprint_ok " %p" [CInt pc] s Hc Hr) as (s1 & E1 & F1); [done|]. erewrite bind_done by exact E1.
    destruct (IH s1) as (s2 & E2 & F2).
    + by eapply can_print_frame.
    + destruct F1 as [-> _]. done.
    + exists s2. split; [done|by eapply outframe_trans].
Qed.

Lemma procdump_loop n i s :
  can_print s → cons_ready s → (i + n ≤ length (k_ptable s))%nat →
  ∃ s', for_each (seq i n) procdump_body s = Done tt s' ∧ outframe s s'.
Proof.
  revert i s. induction n as [|n IH]; intros i s Hc Hr Hi; cbn [seq for_each].
  - exists s. split; [done|apply outframe_refl].
  - assert (Hb : ∃ s1, procdump_body i s = Done tt s1 ∧ outframe s s1).
    { destruct (lookup_lt_is_Some_2 (k_ptable s) i) as [pr Hpr]; [lia|]. unfold procdump_body.
      erewrite bind_done by (by apply proc_at_ok). case_decide; [exists s; split; [done|apply outframe_refl]|].
      destruct (cprint_ok "%d %s %s" [CInt (p_pid pr); CStr (Some (state_name (p_state pr)));
        CStr (Some (cstr (p_name pr)))] s Hc Hr) as (s1 & E1 & F1); [reflexivity|]. erewrite bind_done by exact E1.
      assert (Hmid : ∃ s2, (if decide (p_state pr = SLEEPING) then
          m <- gets k_mem ;;
          for_each (cstr (getcallerpcs m (cx_ebp (p_context pr)) 10)) (λ pc, cprint " %p" [CInt pc])
        else ret tt) s1 = Done tt s2 ∧ outframe s1 s2).
      { case_decide; [|exists s1; split; [done|apply outframe_refl]]. erewrite bind_done by done.
        apply procdump_pcs; [by eapply can_print_frame|]. destruct F1 as [-> _]. done. }
      destruct Hmid as (s2 & E2 & F2). erewrite bind_done by exact E2.
      pose proof (outframe_trans _ _ _ F1 F2) as F12. edestruct (cprint_ok "
" [] s2) as (s3 & E3 & F3); [by eapply can_print_frame|destruct F12 as [-> _]; done|reflexivity|].
      exists s3. split; [done|by eapply outframe_trans]. }
    destruct Hb as (s1 & E1 & F1). erewrite bind_done by exact E1. destruct (IH (S i) s1) as (s2 & E2 & F2).
    + by eapply can_print_frame.
    + destruct F1 as [-> _]. done.
    + destruct F1 as [-> _]. simpl. lia.
    + exists s2. split; [done|by eapply outframe_trans].
Qed.

Lemma procdump_ok s : can_print s → cons_ready s → ∃ s', procdump s = Done tt s' ∧ outframe s s'.
Proof. intros Hc Hr. unfold procdump. erewrite bind_done by done. apply procdump_loop; [done|done|lia]. Qed.

Lemma consoleintr_ok chars com ed s :
  kok s → unlocked LCons s → unlocked LPtable s → can_print s →
  crep (k_input s) com ed → NEWLINE ∉ ed → Forall is_u8 chars →
  ∃ s', consoleintr chars s = Done tt s' ∧ k_hart s' = k_hart s ∧ woken (k_ptable s) (k_ptable s') ∧
    crep (k_input s') (foldl (flip edit) (com, ed) chars).1 (foldl (flip edit) (com, ed) chars).2.
Proof.
  intros Hok Hcl Hpt Hc R Hnl Hall. unfold consoleintr. run kacquire_ok.
  destruct (consoleintr_loop_ok chars com ed false (enter LCons s)) as (s1 & d & E1 & F1 & R1);
    [by apply kok_enter|by apply unlocked_enter|done|done|done|done|].
  erewrite bind_done by exact E1.
  assert (El : leave LCons s1 = with_k_hart (k_hart s) s1).
  { unfold leave. rewrite (cframe_hart _ _ F1). f_equal. by apply Crit.hrel_hacq. }
  erewrite bind_done.
  2:{ rewrite krelease_ok; [by rewrite El|unfold kok|unfold owned]; rewrite (cframe_hart _ _ F1).
      - by apply kok_enter.
      - by apply owned_enter. }
  assert (W1 : woken (k_ptable s) (k_ptable s1)) by apply F1.
  destruct d.
  - destruct (procdump_ok (with_k_hart (k_hart s) s1)) as (s2 & E2 & F2).
    + by apply (can_print_cframe _ _ F1).
    + intros _. done.
    + exists s2. split; [done|]. destruct F2 as [-> _]. done.
  - eexists. split; [done|]. done.
Qed.

(** C38: The line discipline.  When characters arrive, the completed input and
    the line being edited change as typing at a terminal does: control-U
    erases the line, backspace its last character, a carriage return counts
    as a newline, and a newline, control-D or a full ring completes the line;
    characters that find the ring full are dropped.  [consoleintr] returns,
    with every lock as it found it. *)
Theorem consoleintr_edits chars com ed s :
  kok s → unlocked LCons s → unlocked LPtable s → can_print s →
  crep (k_input s) com ed → NEWLINE ∉ ed → Forall is_u8 chars →
  ∃ s', consoleintr chars s = Done tt s' ∧ k_hart s' = k_hart s ∧ woken (k_ptable s) (k_ptable s') ∧
    crep (k_input s') (foldl (flip edit) (com, ed) chars).1 (foldl (flip edit) (com, ed) chars).2.
Proof. apply consoleintr_ok. Qed.

(** * Reading *)

Lemma iunlock_ok i ip s :
  kok s → unlocked (LSleep (SLInode i)) s → unlocked LPtable s → sl_mine (SLInode i) s →
  k_icache s !! i = Some ip → 1 ≤ i_ref ip → iunlock (Some i) s = Done tt (sl_drop (SLInode i) s).
Proof.
  intros Hok Hul Hpt (x & p & pr & Hx & Hl & Hrun & Hpid) Hi Hr. unfold iunlock.
  destruct (holdingsleep_ok (SLInode i) x s Hok Hul Hx) as [_ Hh].
  erewrite bind_done by (by eapply Hh). rewrite Hpid, Z.eqb_refl.
  erewrite bind_done by (by apply inode_at_ok). rewrite (proj2 (Z.ltb_ge _ _)) by lia. cbn [negb orb].
  by apply releasesleep_ok.
Qed.

Lemma ilock_cached i ip p pr s :
  kok s → unlocked (LSleep (SLInode i)) s → sl_free (SLInode i) s → running s p pr →
  k_icache s !! i = Some ip → 1 ≤ i_ref ip → i_valid ip ≠ 0 →
  ilock (Some i) s = Done tt (sl_take (SLInode i) (p_pid pr) s).
Proof.
  intros Hok Hul Hsl Hrun Hi Hr Hv. unfold ilock. erewrite bind_done by (by apply inode_at_ok).
  rewrite (proj2 (Z.ltb_ge _ _)) by lia. erewrite bind_done by (by eapply acquiresleep_ok).
  erewrite bind_done by (by apply inode_at_ok). by rewrite (proj2 (Z.eqb_neq _ 0)).
Qed.

Lemma crep_nonempty inp x com ed : crep inp (x :: com) ed → (in_r inp =? in_w inp) = false.
Proof.
  intros R. rewrite (cr_w R). pose proof (cr_room R). pose proof (cr_r R) as Hr. simpl in *.
  apply Z.eqb_neq. unfold is_u32, u32 in *. zdiv.
Qed.

Lemma consoleread_loop_ok n got com ed got' com' s :
  crep (k_input s) com ed → reads n got com = Some (got', com') →
  ∃ s', consoleread_loop n got s = Done (true, got') s' ∧ s' = upd_input (λ _, k_input s') s ∧
    crep (k_input s') com' ed.
Proof.
  revert got com s. induction n as [|n IH]; intros got com s R Hr; cbn [reads consoleread_loop] in *.
  - injection Hr as <- <-. exists s. split; [done|]. split; [by destruct s|done].
  - destruct com as [|c com]; [done|]. erewrite bind_done by done.
    erewrite bind_done.
    2:{ cbn [input_wait]. unfold bind at 1, gets. cbn [obind]. by rewrite (crep_nonempty _ _ _ _ R). }
    cbn [negb]. unfold bind at 1, gets. cbn [obind]. destruct (crep_read _ _ _ _ R) as [Ec R1]. rewrite Ec.
    erewrite bind_done by done. destruct (c =? CTRL_D).
    + injection Hr as <- <-. case_decide as Eg.
      * subst. erewrite bind_done by done. eexists. split; [reflexivity|]. done.
      * rewrite (proj2 (Nat.eqb_neq _ _)) by (by destruct got). cbn [negb]. erewrite bind_done by done.
        eexists. split; [reflexivity|]. split; [done|]. cbn [k_input upd_input with_k_input].
        assert (Ei : with_in_r (u32 (in_r (with_in_r (u32 (in_r (k_input s) + 1)) (k_input s)) - 1))
          (with_in_r (u32 (in_r (k_input s) + 1)) (k_input s)) = k_input s).
        { simpl. pose proof (cr_r R) as Hrr. rewrite u32_back by done. by destruct (k_input s). }
        by rewrite Ei.
    + destruct (c =? NEWLINE).
      * injection Hr as <- <-. eexists. split; [reflexivity|]. done.
      * destruct (IH (got ++ [c]) com (upd_input (λ inp, with_in_r (u32 (in_r inp + 1)) inp) s)) as (s' & E & Es & R'); try done.
        exists s'. split; [done|]. split; [by rewrite Es|done].
Qed.

(** A reader gets the completed input in the order it was typed: up to and
    with the first newline, or [n] bytes, or up to a control-D, which is left
    for the next read unless it comes first.  The inode's lock is given up
    while waiting and taken again. *)
Theorem consoleread_line i ip n com ed got com' s :
  kok s → unlocked LCons s → unlocked LPtable s → unlocked (LSleep (SLInode i)) s →
  sl_mine (SLInode i) s → k_icache s !! i = Some ip → 1 ≤ i_ref ip → i_valid ip ≠ 0 →
  (∃ p pr, running s p pr ∧ p_state pr = RUNNING) →
  crep (k_input s) com ed → reads (Z.to_nat n) [] com = Some (got, com') →
  ∃ s', consoleread i n s = Done (Z.of_nat (length got), got) s' ∧
    crep (k_input s') com' ed ∧ sl_mine (SLInode i) s' ∧ k_hart s' = k_hart s.
Proof.
  intros Hok Hcl Hpt Hul Hm Hi Hr Hv (p & pr & Hrun & Hst) R Hrd. unfold consoleread.
  erewrite bind_done by (by eapply iunlock_ok). set (s1 := sl_drop (SLInode i) s).
  erewrite bind_done by (by apply kacquire_ok).
  destruct (consoleread_loop_ok _ _ _ ed _ _ (enter LCons s1) R Hrd) as (s2 & E2 & Es2 & R2).
  erewrite bind_done by exact E2. set (s3 := upd_input (λ _, k_input s2) s1).
  assert (Erel : release LCons s2 = Done tt s3).
  { rewrite Es2. rewrite krelease_ok by eauto with kernel.
    change (leave LCons (upd_input ?f (enter LCons s1))) with (upd_input f (leave LCons (enter LCons s1))).
    by rewrite leave_enter. }
  erewrite bind_done by exact Erel. assert (Hrun3 : running s3 p pr).
  { apply (running_woken s s3); [done|apply woken_wake|done|done]. }
  destruct Hm as (x & p' & pr' & Hx & Hl & Hrun' & Hpid).
  erewrite bind_done.
  2:{ apply (ilock_cached i ip p pr s3); try done. eexists. split; [simpl; by rewrite lookup_alter_eq, Hx|done]. }
  eexists. split; [reflexivity|]. split; [done|]. split; [|done].
  eexists _, p, pr. split; [simpl; by rewrite lookup_alter_eq, lookup_alter_eq, Hx|]. done.
Qed.

(** ** Witnesses *)

(** A terminal with an empty ring, the inode of the console locked by the caller. *)
Definition demo_tty (inp : input_t) : kernel :=
  with_k_input inp (with_k_icache demo_icache
    (with_k_slocks {[SLInode 0 := mkSleeplock 1 "inode" 1]}
      (with_k_hart (with_h_locks demo_ilocks demo_run_hart) demo_run))).

Lemma demo_tty_ok inp : kok (demo_tty inp).
Proof. exists 0%nat, (mkCpu 7 (mkTaskstate 0 0 0) [] 1 0 true (Some 0%nat)). repeat split; simpl; lia. Qed.

Lemma demo_ring : crep (mkInput (replicate 128 0) 0 0 0) [] [].
Proof. constructor; try done. simpl. lia. Qed.

Lemma consoleintr_edits_witness :
  ∃ s', consoleintr [104; 106; 8; 105; 13] (demo_tty (mkInput (replicate 128 0) 0 0 0)) = Done tt s' ∧
    k_hart s' = k_hart (demo_tty (mkInput (replicate 128 0) 0 0 0)) ∧
    woken (k_ptable (demo_tty (mkInput (replicate 128 0) 0 0 0))) (k_ptable s') ∧
    crep (k_input s') (foldl (flip edit) ([], []) [104; 106; 8; 105; 13]).1
      (foldl (flip edit) ([], []) [104; 106; 8; 105; 13]).2.
Proof.
  apply (consoleintr_edits [104; 106; 8; 105; 13] [] [] (demo_tty (mkInput (replicate 128 0) 0 0 0))).
  - apply demo_tty_ok.
  - reflexivity.
  - reflexivity.
  - split; [reflexivity|]. unfold screen_ok. simpl. lia.
  - exact demo_ring.
  - apply not_elem_of_nil.
  - repeat constructor; unfold is_u8; lia.
Defined.

(** The line "hi" and the start of the next one. *)
Definition demo_typed : input_t := mkInput (splice (replicate 128 0) 0 [104; 105; 10; 121]) 0 3 4.

Lemma demo_typed_rep : crep demo_typed [104; 105; 10] [121].
Proof.
  constructor; simpl; try done; try lia. intros [|[|[|[|j]]]] x; simpl; intros [= <-]; reflexivity.
Qed.

Lemma consoleread_line_witness :
  ∃ s', consoleread 0 100 (demo_tty demo_typed) = Done (3, [104; 105; 10]) s' ∧
    crep (k_input s') [] [121] ∧ sl_mine (SLInode 0) s' ∧ k_hart s' = k_hart (demo_tty demo_typed).
Proof.
  apply (consoleread_line 0 demo_ip 100 [104; 105; 10] [121] [104; 105; 10] [] (demo_tty demo_typed)).
  - apply demo_tty_ok.
  - reflexivity.
  - reflexivity.
  - reflexivity.
  - exists (mkSleeplock 1 "inode" 1), 0%nat, demo_proc. repeat split. discriminate.
  - reflexivity.
  - simpl. lia.
  - discriminate.
  - exists 0%nat, demo_proc. repeat split.
  - exact demo_typed_rep.
  - reflexivity.
Defined.
