(* ===== verification/Kbd.v ===== *)
(** The keyboard: kbd.h and kbd.c.

    The controller is the list of the scan codes that wait in it.  The theorems say that
    [kbdgetc] stays inside its tables, that every printable character can be typed, and that
    text typed at the keyboard reaches the line discipline of the console as that text. *)

From S2P Require Import Prelude State Spinlock Cprintf Sched Bio Console.
Import KLock.

(** * The tables of kbd.h *)

Definition NO : Z := 0.
Definition SHIFT : Z := Z.shiftl 1 0.
Definition CTL : Z := Z.shiftl 1 1.
Definition ALT : Z := Z.shiftl 1 2.
Definition CAPSLOCK : Z := Z.shiftl 1 3.
Definition NUMLOCK : Z := Z.shiftl 1 4.
Definition SCROLLLOCK : Z := Z.shiftl 1 5.
Definition E0ESC : Z := Z.shiftl 1 6.
Definition KEY_HOME : Z := 0xE0.
Definition KEY_END : Z := 0xE1.
Definition KEY_UP : Z := 0xE2.
Definition KEY_DN : Z := 0xE3.
Definition KEY_LF : Z := 0xE4.
Definition KEY_RT : Z := 0xE5.
Definition KEY_PGUP : Z := 0xE6.
Definition KEY_PGDN : Z := 0xE7.
Definition KEY_INS : Z := 0xE8.
Definition KEY_DEL : Z := 0xE9.
Definition C (x : Z) : Z := x - 64.

(** An array of 256 [uchar], from its first elements and those with an index. *)
Definition table (first : list Z) (rest : list (Z * Z)) : list Z :=
  foldl (λ t e, <[Z.to_nat (fst e) := u8 (snd e)]> t) ((u8 <$> first) ++ replicate (256 - length first) 0) rest.

Definition shiftcode : list Z :=
  table [] [(0x1D, CTL); (0x2A, SHIFT); (0x36, SHIFT); (0x38, ALT); (0x9D, CTL); (0xB8, ALT)].
Definition togglecode : list Z := table [] [(0x3A, CAPSLOCK); (0x45, NUMLOCK); (0x46, SCROLLLOCK)].

(** Without modifiers. *)
Definition normalmap : list Z := table
  [NO; 27; 49; 50; 51; 52; 53; 54;
   55; 56; 57; 48; 45; 61; 8; 9;
   113; 119; 101; 114; 116; 121; 117; 105;
   111; 112; 91; 93; 10; NO; 97; 115;
   100; 102; 103; 104; 106; 107; 108; 59;
   39; 96; NO; 92; 122; 120; 99; 118;
   98; 110; 109; 44; 46; 47; NO; 42;
   NO; 32; NO; NO; NO; NO; NO; NO;
   NO; NO; NO; NO; NO; NO; NO; 55;
   56; 57; 45; 52; 53; 54; 43; 49;
   50; 51; 48; 46; NO; NO; NO; NO]
  [(0x9c, 10);
   (0xb5, 47);
   (0xc8, KEY_UP); (0xd0, KEY_DN);
   (0xc9, KEY_PGUP); (0xd1, KEY_PGDN);
   (0xcb, KEY_LF); (0xcd, KEY_RT);
   (0x97, KEY_HOME); (0xcf, KEY_END);
   (0xd2, KEY_INS); (0xd3, KEY_DEL)].

(** With [SHIFT]. *)
Definition shiftmap : list Z := table
  [NO; 27; 33; 64; 35; 36; 37; 94;
   38; 42; 40; 41; 95; 43; 8; 9;
   81; 87; 69; 82; 84; 89; 85; 73;
   79; 80; 123; 125; 10; NO; 65; 83;
   68; 70; 71; 72; 74; 75; 76; 58;
   34; 126; NO; 124; 90; 88; 67; 86;
   66; 78; 77; 60; 62; 63; NO; 42;
   NO; 32; NO; NO; NO; NO; NO; NO;
   NO; NO; NO; NO; NO; NO; NO; 55;
   56; 57; 45; 52; 53; 54; 43; 49;
   50; 51; 48; 46; NO; NO; NO; NO]
  [(0x9c, 10);
   (0xb5, 47);
   (0xc8, KEY_UP); (0xd0, KEY_DN);
   (0xc9, KEY_PGUP); (0xd1, KEY_PGDN);
   (0xcb, KEY_LF); (0xcd, KEY_RT);
   (0x97, KEY_HOME); (0xcf, KEY_END);
   (0xd2, KEY_INS); (0xd3, KEY_DEL)].

(** With [CTL]. *)
Definition ctlmap : list Z := table
  [NO; NO; NO; NO; NO; NO; NO; NO;
   NO; NO; NO; NO; NO; NO; NO; NO;
   C 81; C 87; C 69; C 82; C 84; C 89; C 85; C 73;
   C 79; C 80; NO; NO; 13; NO; C 65; C 83;
   C 68; C 70; C 71; C 72; C 74; C 75; C 76; NO;
   NO; NO; NO; C 92; C 90; C 88; C 67; C 86;
   C 66; C 78; C 77; NO; NO; C 47; NO; NO]
  [(0x9c, 13);
   (0xb5, C 47);
   (0xc8, KEY_UP); (0xd0, KEY_DN);
   (0xc9, KEY_PGUP); (0xd1, KEY_PGDN);
   (0xcb, KEY_LF); (0xcd, KEY_RT);
   (0x97, KEY_HOME); (0xcf, KEY_END);
   (0xd2, KEY_INS); (0xd3, KEY_DEL)].

(** * [kbdgetc] *)

Definition charcode : list (list Z) := [normalmap; shiftmap; ctlmap; ctlmap].

(** [shift], and the codes in the controller. *)
Record kbd := mkKbd { kb_shift : Z; kb_codes : list Z }.

(** The code of the key, which is in range or has no meaning. *)
Definition press (shift data : Z) : option (Z * Z) :=
  sc ← shiftcode !! Z.to_nat data;
  tc ← togglecode !! Z.to_nat data;
  let shift := Z.lxor (Z.lor shift sc) tc in
  map ← charcode !! Z.to_nat (Z.land shift (Z.lor CTL SHIFT));
  c ← map !! Z.to_nat data;
  let c :=
    if negb (Z.land shift CAPSLOCK =? 0) then
      if (97 <=? c) && (c <=? 122) then c + (65 - 97)
      else if (65 <=? c) && (c <=? 90) then c + (97 - 65)
      else c
    else c in
  Some (c, shift).

(** What the code [data] does: the character, or 0, and the new [shift]. *)
Definition key (shift data : Z) : option (Z * Z) :=
  if data =? 0xE0 then Some (0, Z.lor shift E0ESC)
  else if negb (Z.land data 0x80 =? 0) then
    let data := if negb (Z.land shift E0ESC =? 0) then data else Z.land data 0x7F in
    sc ← shiftcode !! Z.to_nat data;
    Some (0, Z.ldiff shift (Z.lor sc E0ESC))
  else if negb (Z.land shift E0ESC =? 0) then press (Z.ldiff shift E0ESC) (Z.lor data 0x80)
  else press shift data.

Definition kbdgetc (k : kbd) : option (Z * kbd) :=
  match kb_codes k with
  | [] => Some (-1, k)
  | data :: codes => '(c, shift) ← key (kb_shift k) data; Some (c, mkKbd shift codes)
  end.

(** What [kbdgetc] returns until it returns a negative number; each call but the last one
    takes a code. *)
Fixpoint kbd_chars (n : nat) (k : kbd) : option (list Z * kbd) :=
  '(c, k') ← kbdgetc k;
  match n with
  | O => Some ([], k')
  | S n' => if c <? 0 then Some ([], k') else '(cs, k2) ← kbd_chars n' k'; Some (c :: cs, k2)
  end.

Definition kbdintr (k : kbd) : option (K unit * kbd) :=
  '(cs, k') ← kbd_chars (length (kb_codes k)) k; Some (consoleintr cs, k').

(** * Its results *)

Definition key_ok (shift data : Z) : bool :=
  match key shift data with
  | Some (c, shift') => (0 <=? c) && (c <? 256) && (0 <=? shift') && (shift' <? 128)
  | None => false
  end.

Lemma keys_all_ok : forallb (λ shift, forallb (key_ok shift) (seqZ 0 256)) (seqZ 0 128) = true.
Proof. by vm_compute. Qed.

Lemma key_ok_all shift data :
  0 ≤ shift < 128 → is_u8 data → ∃ c shift', key shift data = Some (c, shift') ∧ is_u8 c ∧ 0 ≤ shift' < 128.
Proof.
  intros Hs Hd. pose proof keys_all_ok as H. rewrite forallb_forall in H. specialize (H shift).
  rewrite <-list_elem_of_In, elem_of_seqZ in H. specialize (H ltac:(lia)). rewrite forallb_forall in H. specialize (H data).
  rewrite <-list_elem_of_In, elem_of_seqZ in H. unfold is_u8 in Hd. specialize (H ltac:(lia)). unfold key_ok in H.
  destruct (key shift data) as [[c shift']|]; [|done]. exists c, shift'. split; [done|]. unfold is_u8. lia.
Qed.

Lemma kbd_chars_cons n shift data codes :
  kbd_chars (S n) (mkKbd shift (data :: codes)) =
    ('(c, shift') ← key shift data;
     if c <? 0 then Some ([], mkKbd shift' codes) else '(cs, k) ← kbd_chars n (mkKbd shift' codes); Some (c :: cs, k)).
Proof. cbn. by destruct (key shift data) as [[c shift']|]. Qed.

Lemma kbd_chars_ok shift codes :
  0 ≤ shift < 128 → Forall is_u8 codes →
  ∃ cs shift', kbd_chars (length codes) (mkKbd shift codes) = Some (cs, mkKbd shift' []) ∧ Forall is_u8 cs ∧ 0 ≤ shift' < 128 ∧
    length cs = length codes.
Proof.
  intros Hs HF. revert shift Hs. induction HF as [|d codes Hd HF IH]; intros shift Hs; [by exists [], shift|].
  destruct (key_ok_all shift d Hs Hd) as (c & shift' & E & Hc & Hs'). destruct (IH shift' Hs') as (cs & s2 & E2 & Hcs & Hs2 & Hl).
  exists (c :: cs), s2. change (length (d :: codes)) with (S (length codes)). rewrite kbd_chars_cons, E. cbn [mbind option_bind].
  unfold is_u8 in Hc. rewrite (proj2 (Z.ltb_ge c 0)) by lia. rewrite E2. split; [done|]. split; [by constructor|]. split; [done|]. cbn. by rewrite Hl.
Qed.

Lemma kbd_chars_app shift a b cs shift' :
  kbd_chars (length a) (mkKbd shift a) = Some (cs, mkKbd shift' []) → Forall is_u8 cs → length cs = length a →
  kbd_chars (length (a ++ b)) (mkKbd shift (a ++ b)) =
    '(ds, k) ← kbd_chars (length b) (mkKbd shift' b); Some (cs ++ ds, k).
Proof.
  revert shift cs. induction a as [|d a IH]; intros shift cs H HF Hlen.
  - destruct cs; [|done]. cbn in H. injection H as <-. cbn [app length]. by destruct (kbd_chars (length b) _) as [[ds k]|].
  - change (length (d :: a)) with (S (length a)) in H. rewrite kbd_chars_cons in H. apply bind_Some in H as ([c s1] & E & H).
    change (length ((d :: a) ++ b)) with (S (length (a ++ b))). cbn [app]. rewrite kbd_chars_cons, E. cbn [mbind option_bind].
    destruct (c <? 0) eqn:Hc; [injection H as <- _; done|]. apply bind_Some in H as ([cs' k'] & E' & [= <- ->]).
    apply Forall_cons in HF as [_ HF]. rewrite (IH s1 cs' E' HF) by (cbn in Hlen; lia).
    by destruct (kbd_chars (length b) _) as [[ds k]|].
Qed.

(** * Typing *)

(** The keys for a character: the one that gives it, pressed and released, with the shift key
    down if need be. *)
Definition keys_of (c : Z) : list Z :=
  match find_index (λ x, x =? c) (take 88 normalmap) with
  | Some i => [Z.of_nat i; Z.of_nat i + 128]
  | None =>
      match find_index (λ x, x =? c) (take 88 shiftmap) with
      | Some i => [0x2A; Z.of_nat i; Z.of_nat i + 128; 0xAA]
      | None => []
      end
  end.

(** The printable characters, backspace and the end of the line. *)
Definition typable : list Z := 8 :: 10 :: seqZ 32 95.

(** The characters among the results. *)
Definition visible (cs : list Z) : list Z := filter (λ c, c ≠ 0) cs.

Definition types (c : Z) : bool :=
  forallb (λ d, (0 <=? d) && (d <? 256)) (keys_of c) &&
  match kbd_chars (length (keys_of c)) (mkKbd 0 (keys_of c)) with
  | Some (cs, k) => bool_decide (visible cs = [c]) && (kb_shift k =? 0)
  | None => false
  end.

Lemma types_all : forallb types typable = true.
Proof. by vm_compute. Qed.

Lemma keys_of_ok c : c ∈ typable →
  Forall is_u8 (keys_of c) ∧
  ∃ cs, kbd_chars (length (keys_of c)) (mkKbd 0 (keys_of c)) = Some (cs, mkKbd 0 []) ∧ visible cs = [c] ∧
    Forall is_u8 cs ∧ length cs = length (keys_of c).
Proof.
  intros Hc. pose proof types_all as H. rewrite forallb_forall in H. specialize (H c (proj1 (list_elem_of_In _ _) Hc)).
  unfold types in H. apply andb_true_iff in H as [H1 H2].
  assert (HF : Forall is_u8 (keys_of c)).
  { apply Forall_forall. intros d Hd%list_elem_of_In. rewrite forallb_forall in H1. specialize (H1 d Hd). unfold is_u8. lia. }
  split; [done|]. destruct (kbd_chars_ok 0 (keys_of c)) as (cs & shift' & E & Hcs & Hs & Hl); [lia|done|]. rewrite E in H2.
  apply andb_true_iff in H2 as [H2 H3]. apply bool_decide_eq_true in H2. apply Z.eqb_eq in H3. cbn in H3. subst shift'. by exists cs.
Qed.

Lemma keys_text text : Forall (λ c, c ∈ typable) text →
  Forall is_u8 (text ≫= keys_of) ∧
  ∃ cs, kbd_chars (length (text ≫= keys_of)) (mkKbd 0 (text ≫= keys_of)) = Some (cs, mkKbd 0 []) ∧ visible cs = text ∧
    Forall is_u8 cs ∧ length cs = length (text ≫= keys_of).
Proof.
  induction 1 as [|c text Hc HF [IH1 (cs & E & Hv & Hcs & Hl)]]; [split; [constructor|]; by exists []|].
  destruct (keys_of_ok c Hc) as [H1 (cs1 & E1 & Hv1 & Hcs1 & Hl1)]. cbn [mbind list_bind]. split; [by apply Forall_app|].
  exists (cs1 ++ cs). rewrite (kbd_chars_app 0 (keys_of c) (text ≫= keys_of) cs1 0 E1 Hcs1 Hl1).
  split; [by rewrite E|]. unfold visible in *. rewrite filter_app, Hv1, Hv. split; [done|]. split; [by apply Forall_app|].
  by rewrite !length_app, Hl1, Hl.
Qed.

(** The codes of key releases and modifiers do not disturb the line. *)
Lemma edit_visible cs st : foldl (flip edit) st cs = foldl (flip edit) st (visible cs).
Proof.
  revert st. induction cs as [|c cs IH]; intros st; [done|]. unfold visible. rewrite filter_cons. cbn [foldl].
  destruct (decide (c ≠ 0)) as [Hc|Hc]; [by rewrite IH|]. rewrite IH. f_equal. assert (c = 0) as -> by (destruct (decide (c = 0)); tauto).
  by destruct st.
Qed.

(** [kbdgetc] never leaves its tables: from any state of the modifiers, with any codes in the
    controller, the interrupt gives the console characters only, and empties the controller. *)
Theorem kbdintr_safe shift codes :
  0 ≤ shift < 128 → Forall is_u8 codes →
  ∃ cs shift', kbdintr (mkKbd shift codes) = Some (consoleintr cs, mkKbd shift' []) ∧ Forall is_u8 cs ∧ 0 ≤ shift' < 128.
Proof.
  intros Hs HF. destruct (kbd_chars_ok shift codes Hs HF) as (cs & shift' & E & Hcs & Hs' & _). exists cs, shift'.
  unfold kbdintr. cbn [kb_codes]. by rewrite E.
Qed.

(** what is typed is what the console gets: pressing and releasing the keys of a text, with
    the shift key where it is needed, edits the input line with the characters of the text,
    for every text of printable characters, backspaces and ends of lines. *)
Theorem typed_text text com ed s :
  Forall (λ c, c ∈ typable) text →
  kok s → unlocked LCons s → unlocked LPtable s → can_print s → crep (k_input s) com ed → NEWLINE ∉ ed →
  ∃ intr s', kbdintr (mkKbd 0 (text ≫= keys_of)) = Some (intr, mkKbd 0 []) ∧ intr s = Done tt s' ∧
    crep (k_input s') (foldl (flip edit) (com, ed) text).1 (foldl (flip edit) (com, ed) text).2.
Proof.
  intros Ht Hok Hl1 Hl2 Hp HR Hn. destruct (keys_text text Ht) as [HF (cs & E & Hv & Hcs & _)].
  destruct (consoleintr_ok cs com ed s) as (s' & E' & _ & _ & HR'); try done.
  exists (consoleintr cs), s'. unfold kbdintr. cbn [kb_codes]. rewrite E. split; [done|]. split; [done|].
  by rewrite edit_visible, Hv in HR'.
Qed.

(** * Examples *)

Lemma kbdintr_safe_witness :
  ∃ cs shift', kbdintr (mkKbd 0 [0x2A; 0x23; 0xA3; 0xAA; 0xE0; 0x48]) = Some (consoleintr cs, mkKbd shift' []).
Proof.
  destruct (kbdintr_safe 0 [0x2A; 0x23; 0xA3; 0xAA; 0xE0; 0x48]) as (cs & shift' & E & _).
  - lia.
  - repeat constructor; lia.
  - exists cs, shift'. exact E.
Defined.

Lemma typed_text_witness :
  ∃ intr s', kbdintr (mkKbd 0 (bytes "Hi!" ≫= keys_of)) = Some (intr, mkKbd 0 []) ∧
    intr (demo_tty (mkInput (replicate 128 0) 0 0 0)) = Done tt s' ∧ crep (k_input s') [] (bytes "Hi!").
Proof.
  apply (typed_text (bytes "Hi!") [] [] (demo_tty (mkInput (replicate 128 0) 0 0 0))).
  - apply Forall_forall. intros c Hc. apply list_elem_of_In in Hc.
    repeat (destruct Hc as [<-|Hc]; [apply (bool_decide_unpack _); vm_compute; exact I|]). destruct Hc.
  - apply demo_tty_ok.
  - reflexivity.
  - reflexivity.
  - split; [reflexivity|]. unfold screen_ok. simpl. lia.
  - exact demo_ring.
  - apply not_elem_of_nil.
Defined.
