(* ===== verification/Fs.v ===== *)
(** Reading and writing files: [readi] and [writei] of fs.c.

    [readi] returns its result and the bytes it stores at [dst]; [writei]
    takes the bytes at [src].  The contents of a file are a list of bytes:
    [readi] returns a slice of it, [writei] overwrites and extends it, and
    touches no block of another file. *)

From S2P Require Import Prelude State Spinlock Cprintf Sched Bio Log Txn Inode Console.
Import KLock.

(** * Reading and writing *)

(** The loop of [readi]; each turn reads a byte at least. *)
Fixpoint readi_loop (fuel : nat) (i : nat) (tot off n : Z) (acc : list Z) : K (list Z) :=
  match fuel with
  | O => diverge
  | S fuel' =>
      if tot <? n then
        ip <- inode_at i ;;
        bno <- bmap i (off / BSIZE) ;;
        bp <- bread (i_dev ip) bno ;;
        let m := (n - tot) `min` (BSIZE - off mod BSIZE) in
        bf <- buf_at bp ;;
        brelse bp ;;;
        readi_loop fuel' i (tot + m) (u32 (off + m)) n
          (acc ++ slice (b_data bf) (Z.to_nat (off mod BSIZE)) (Z.to_nat m))
      else ret acc
  end.

Definition readi (i : nat) (off n : Z) : K (Z * list Z) :=
  ip <- inode_at i ;;
  if i_type ip =? T_DEV then
    devsw <- gets k_devsw ;;
    if (i_major ip <? 0) || (NDEV <=? i_major ip) then ret (-1, []) else
    match devsw !! Z.to_nat (i_major ip) with
    | Some (Some DevConsole, _) => consoleread i (s32 n)
    | _ => ret (-1, [])
    end
  else if (i_size ip <? off) || (u32 (off + n) <? off) then ret (-1, [])
  else
    let n := if i_size ip <? u32 (off + n) then u32 (i_size ip - off) else n in
    bs <- readi_loop (S (Z.to_nat n)) i 0 off n [] ;;
    ret (s32 n, bs).

(** The loop of [writei]. *)
Fixpoint writei_loop (fuel : nat) (i : nat) (src : list Z) (tot off n : Z) : K Z :=
  match fuel with
  | O => diverge
  | S fuel' =>
      if tot <? n then
        ip <- inode_at i ;;
        bno <- bmap i (off / BSIZE) ;;
        bp <- bread (i_dev ip) bno ;;
        let m := (n - tot) `min` (BSIZE - off mod BSIZE) in
        set_buf bp (λ bf, with_b_data
          (splice (b_data bf) (Z.to_nat (off mod BSIZE)) (slice src (Z.to_nat tot) (Z.to_nat m))) bf) ;;;
        log_write bp ;;;
        brelse bp ;;;
        writei_loop fuel' i src (tot + m) (u32 (off + m)) n
      else ret off
  end.

Definition writei (i : nat) (src : list Z) (off : Z) : K Z :=
  let n := Z.of_nat (length src) in
  ip <- inode_at i ;;
  if i_type ip =? T_DEV then
    devsw <- gets k_devsw ;;
    if (i_major ip <? 0) || (NDEV <=? i_major ip) then ret (-1) else
    match devsw !! Z.to_nat (i_major ip) with
    | Some (_, Some DevConsole) => consolewrite i src
    | _ => ret (-1)
    end
  else if (i_size ip <? off) || (u32 (off + n) <? off) then ret (-1)
  else if MAXFILE * BSIZE <? u32 (off + n) then ret (-1)
  else
    off <- writei_loop (S (length src)) i src 0 off n ;;
    ip <- inode_at i ;;
    (if (0 <? n) && (i_size ip <? off) then
       set_inode i (with_i_size off) ;;;
       iupdate i
     else ret tt) ;;;
    ret (s32 n).

(** * The contents of a file *)

(** Byte [x] of a file. *)
Definition fbyte (V : Z → list Z) (addrs : list Z) (x : nat) : Z :=
  nth (x mod 512) (V (block_of V addrs (x / 512))) 0.

Definition contents (V : Z → list Z) (ip : inode) : list Z :=
  fbyte V (i_addrs ip) <$> seq 0 (Z.to_nat (i_size ip)).

(** A file with a block for every byte below its size. *)
Record file_good (s : kernel) (V : Z → list Z) (ip : inode) : Prop := mkFileGood {
  fg_ok : file_ok s V (i_addrs ip);
  fg_size : 0 ≤ i_size ip ≤ 71680;
  fg_mapped : ∀ bn, (bn * 512 < Z.to_nat (i_size ip))%nat → block_of V (i_addrs ip) bn ≠ 0;
}.
Arguments fg_ok {_ _ _} _.
Arguments fg_size {_ _ _} _.
Arguments fg_mapped {_ _ _} _.

Lemma length_contents V ip : length (contents V ip) = Z.to_nat (i_size ip).
Proof. unfold contents. by rewrite length_fmap, length_seq. Qed.

Lemma lookup_contents V ip x :
  (x < Z.to_nat (i_size ip))%nat → contents V ip !! x = Some (fbyte V (i_addrs ip) x).
Proof. intros Hx. unfold contents. rewrite list_lookup_fmap, lookup_seq_lt by done. done. Qed.

(** A piece of the contents that lies in one block. *)
Lemma slice_contents V ip o m b :
  (o + m ≤ Z.to_nat (i_size ip))%nat → (o mod 512 + m ≤ 512)%nat →
  block_of V (i_addrs ip) (o / 512) = b → length (V b) = 512%nat →
  slice (contents V ip) o m = slice (V b) (o mod 512) m.
Proof.
  intros Hsz Hm Hb Hl. apply list_eq. intros j. rewrite !lookup_slice. case_decide as Hj; [|done].
  rewrite lookup_contents by lia. unfold fbyte.
  pose proof (Nat.div_mod o 512 ltac:(lia)) as Ho.
  assert (E1 : ((o + j) / 512 = o / 512)%nat).
  { symmetry. apply Nat.div_unique with (o mod 512 + j)%nat; lia. }
  assert (E2 : ((o + j) mod 512 = o mod 512 + j)%nat).
  { symmetry. apply Nat.mod_unique with (o / 512)%nat; lia. }
  rewrite E1, E2, Hb. destruct (lookup_lt_is_Some_2 (V b) (o mod 512 + j)) as [y Hy]; [lia|].
  by rewrite (nth_lookup_Some _ _ _ _ Hy), Hy.
Qed.

Lemma slice_add {A} (l : list A) o m r : slice l o (m + r) = slice l o m ++ slice l (o + m) r.
Proof.
  unfold slice. rewrite <-drop_drop. generalize (drop o l). intros l'.
  rewrite <-(take_drop m (take (m + r) l')). rewrite take_take, Nat.min_l by lia.
  by rewrite skipn_firstn_comm, Nat.add_sub_swap, Nat.sub_diag by lia.
Qed.

Section files.
Context {txn : kernel → gmap nat Z → (Z → list Z) → nat → Prop} {T : BlockTxn txn}.

(** The nat of a file offset. *)
Lemma off_div (off : Z) : 0 ≤ off → off / BSIZE = Z.of_nat (Z.to_nat off / 512) ∧
  Z.to_nat (off mod BSIZE) = (Z.to_nat off mod 512)%nat.
Proof.
  intros H. unfold BSIZE. split.
  - rewrite Nat2Z.inj_div, Z2Nat.id by done. done.
  - rewrite Z2Nat.inj_mod by lia. done.
Qed.

Lemma readi_loop_ok fuel s V k i ip tot off n acc :
  txn s ∅ V k → fs_geom s → k_icache s !! i = Some ip → i_dev ip = 1 → file_good s V ip →
  0 ≤ tot → 0 ≤ off → off + (n - tot) ≤ i_size ip → (Z.to_nat (n - tot) < fuel)%nat →
  ∃ s', readi_loop fuel i tot off n acc s =
      Done (acc ++ slice (contents V ip) (Z.to_nat off) (Z.to_nat (n - tot))) s' ∧ txn s' ∅ V k ∧ tframe s s'.
Proof.
  revert s tot off acc. induction fuel as [|fuel IH]; intros s tot off acc Ht G Hi Hdev FG H0 H1 H2 Hf; [lia|].
  cbn [readi_loop]. destruct (Z.ltb_spec tot n) as [Hlt|Hge].
  2:{ exists s. replace (Z.to_nat (n - tot)) with 0%nat by lia. rewrite app_nil_r. eauto with kernel. }
  erewrite bind_done by (by apply inode_at_ok). destruct (off_div off H1) as [Eb Em]. rewrite Eb, Em.
  set (bn := (Z.to_nat off / 512)%nat). pose proof (fg_size FG) as Hsz.
  pose proof (Nat.div_mod (Z.to_nat off) 512 ltac:(lia)) as Hdm. fold bn in Hdm.
  pose proof (Nat.mod_upper_bound (Z.to_nat off) 512 ltac:(lia)) as Hmod.
  assert (Hbn : (bn < 140)%nat) by lia.
  assert (Hz : block_of V (i_addrs ip) bn ≠ 0) by (apply (fg_mapped FG); lia).
  destruct (bmap_mapped s V k i ip bn Ht G Hi Hdev (fg_ok FG) Hbn Hz) as (s1 & E1 & T1 & F1).
  erewrite bind_done by exact E1. rewrite Hdev. set (b := block_of V (i_addrs ip) bn) in *.
  destruct (fo_block (fg_ok FG) bn Hbn Hz) as [Hd _]. fold b in Hd.
  destruct (txn_bread s1 ∅ V k b T1) as (j & s2 & E2 & _ & T2 & F2); [rewrite map_size_empty; lia| |done|].
  { eapply tframe_home; [exact F1|]. by eapply data_home. }
  erewrite bind_done by exact E2.
  destruct (txn_buf_at _ _ _ _ _ _ T2 (lookup_insert_eq _ _ _)) as (bf & Ebf & Edat & Hok).
  erewrite bind_done by exact Ebf. rewrite Edat.
  destruct (txn_release _ _ _ _ _ _ T2 (lookup_empty _)) as (s3 & E3 & T3 & F3).
  erewrite bind_done by exact E3. pose proof (tframe_trans _ _ _ F1 (tframe_trans _ _ _ F2 F3)) as F.
  set (m := (n - tot) `min` (BSIZE - off mod BSIZE)).
  assert (Hm : 1 ≤ m ∧ m ≤ n - tot ∧ (Z.to_nat off mod 512 + Z.to_nat m ≤ 512)%nat).
  { unfold m. rewrite <-Em. unfold BSIZE in *. pose proof (Z.mod_pos_bound off 512). lia. }
  rewrite u32_small by (unfold is_u32; lia).
  destruct (IH s3 (tot + m) (off + m) (acc ++ slice (V b) (Z.to_nat off mod 512) (Z.to_nat m)))
    as (s' & E & T' & F'); try done; try lia.
  - by eapply fs_geom_frame.
  - by rewrite (tframe_icache _ _ F).
  - destruct FG as [F1' F2' F3']. constructor; [|done|done]. by apply (sd_file (same_disk_tframe _ _ F)).
  - exists s'. split; [|split; [done|by eapply tframe_trans]]. rewrite E. f_equal.
    rewrite <-app_assoc. f_equal. rewrite <-(slice_contents V ip (Z.to_nat off)) by (done || lia || apply Hok).
    replace (Z.to_nat (n - tot)) with (Z.to_nat m + Z.to_nat (n - (tot + m)))%nat by lia.
    rewrite slice_add. do 2 f_equal. lia.
Qed.

(** [readi] on a file: what it returns on each branch. *)
Lemma readi_ok s V k i ip off n :
  txn s ∅ V k → fs_geom s → k_icache s !! i = Some ip → i_dev ip = 1 → i_type ip ≠ T_DEV → file_good s V ip →
  0 ≤ off ≤ i_size ip → 0 ≤ n → off + n < 4294967296 →
  ∃ s', readi i off n s =
      Done (n `min` (i_size ip - off), slice (contents V ip) (Z.to_nat off) (Z.to_nat n)) s' ∧
    txn s' ∅ V k ∧ tframe s s'.
Proof.
  intros Ht G Hi Hdev Hty FG Hoff Hn Hov. unfold readi. erewrite bind_done by (by apply inode_at_ok).
  rewrite (proj2 (Z.eqb_neq _ _)) by done. pose proof (fg_size FG) as Hsz.
  rewrite u32_small by (unfold is_u32; lia).
  rewrite (proj2 (Z.ltb_ge _ _)), (proj2 (Z.ltb_ge _ off)) by lia. cbn [orb].
  set (n' := n `min` (i_size ip - off)).
  assert (En : (if i_size ip <? off + n then u32 (i_size ip - off) else n) = n').
  { unfold n'. destruct (Z.ltb_spec (i_size ip) (off + n)); [rewrite u32_small by (unfold is_u32; lia)|]; lia. }
  rewrite En. destruct (readi_loop_ok (S (Z.to_nat n')) s V k i ip 0 off n' []) as (s' & E & T' & F'); try done; try lia.
  exists s'. split; [|done]. erewrite bind_done by exact E. rewrite s32_small by lia.
  unfold ret. do 2 f_equal. simpl. rewrite Z.sub_0_r. unfold slice, n'.
  assert (Hl : length (drop (Z.to_nat off) (contents V ip)) = (Z.to_nat (i_size ip) - Z.to_nat off)%nat)
    by (by rewrite length_drop, length_contents).
  destruct (decide (n ≤ i_size ip - off)); [by rewrite Z.min_l by lia|].
  rewrite Z.min_r by lia. rewrite !take_ge by lia. done.
Qed.

(** * Writing *)

(** The blocks of a file. *)
Definition own (V : Z → list Z) (addrs : list Z) (c : Z) : Prop :=
  c = ind_of addrs ∨ ∃ bn, (bn < 140)%nat ∧ block_of V addrs bn = c.

(** From [V] and [addrs] to [V'] and [addrs'], the bytes [d] were written at
    [off]; at most [n] blocks were allocated. *)
Record wrote (s : kernel) (n : nat) (V : Z → list Z) (addrs : list Z) (V' : Z → list Z) (addrs' : list Z)
    (off : nat) (d : list Z) : Prop := mkWrote {
  wr_grow : grow s (own V addrs) n V V';
  wr_file : file_ok s V' addrs';
  wr_keep : ∀ bn, (bn < 140)%nat → block_of V addrs bn ≠ 0 → block_of V' addrs' bn = block_of V addrs bn;
  wr_map : ∀ x, (off ≤ x < off + length d)%nat → block_of V' addrs' (x / 512) ≠ 0;
  wr_own : ∀ c, own V' addrs' c → own V addrs c ∨ ¬ in_use s V c;
  wr_data : ∀ x, (x < 140 * 512)%nat → block_of V addrs (x / 512) ≠ 0 ∨ (off ≤ x < off + length d)%nat →
    fbyte V' addrs' x = if decide (off ≤ x < off + length d)%nat then nth (x - off) d 0 else fbyte V addrs x;
}.
Arguments wr_grow {_ _ _ _ _ _ _ _} _.
Arguments wr_file {_ _ _ _ _ _ _ _} _.
Arguments wr_keep {_ _ _ _ _ _ _ _} _.
Arguments wr_map {_ _ _ _ _ _ _ _} _.
Arguments wr_own {_ _ _ _ _ _ _ _} _.
Arguments wr_data {_ _ _ _ _ _ _ _} _.

Lemma wrote_nil s V addrs off : file_ok s V addrs → wrote s 0 V addrs V addrs off [].
Proof.
  intros FO. constructor; try done.
  - eapply grow_weaken; [apply (grow_refl _ (λ _, False))|done|lia].
  - intros x Hx. simpl in Hx. lia.
  - by left.
  - intros x Hx _. rewrite decide_False by (simpl; lia). done.
Qed.

Lemma wrote_app s n m V a V1 a1 V2 a2 off d1 d2 :
  (off + length d1 + length d2 ≤ 140 * 512)%nat →
  wrote s n V a V1 a1 off d1 → wrote s m V1 a1 V2 a2 (off + length d1) d2 →
  wrote s (n + m) V a V2 a2 off (d1 ++ d2).
Proof.
  intros Hb W1 W2. assert (Hd : ∀ x, (x < 140 * 512)%nat → (x / 512 < 140)%nat).
  { intros x Hx. apply Nat.Div0.div_lt_upper_bound. lia. }
  assert (K : ∀ x, (x < 140 * 512)%nat → block_of V1 a1 (x / 512) ≠ 0 → block_of V2 a2 (x / 512) ≠ 0).
  { intros x Hx Hz. rewrite (wr_keep W2) by auto. done. }
  constructor.
  - eapply grow_weaken; [exact (grow_trans _ _ _ _ _ _ _ _ (wr_grow W1) (wr_grow W2))| |lia].
    intros c Hc [?|Ho]; [done|]. by destruct (wr_own W1 c Ho).
  - apply (wr_file W2).
  - intros bn Hbn Hz. rewrite (wr_keep W2), (wr_keep W1); auto. by rewrite (wr_keep W1).
  - intros x Hx. rewrite length_app in Hx. destruct (decide (x < off + length d1)%nat).
    + apply K; [lia|]. apply (wr_map W1). lia.
    + apply (wr_map W2). lia.
  - intros c Hc. destruct (wr_own W2 c Hc) as [Ho|Hn]; [by apply (wr_own W1)|].
    right. intros Hu. apply Hn. by apply (g_use _ _ _ _ _ (wr_grow W1)).
  - intros x Hx Hor. rewrite length_app in *. rewrite (wr_data W2); [|done|].
    2:{ destruct (decide (off + length d1 ≤ x < off + length d1 + length d2)%nat); [by right|left].
        destruct (decide (off ≤ x < off + length d1)%nat); [by apply (wr_map W1)|].
        destruct Hor as [Hz|?]; [|lia]. rewrite (wr_keep W1); auto. }
    destruct (decide (off + length d1 ≤ x < off + length d1 + length d2)%nat).
    + rewrite decide_True by lia. rewrite app_nth2 by lia. f_equal. lia.
    + rewrite (wr_data W1); [|done|destruct Hor; [by left|right; lia]]. destruct (decide (off ≤ x < off + length d1)%nat).
      * rewrite decide_True by lia. by rewrite app_nth1 by lia.
      * by rewrite decide_False by lia.
Qed.

Lemma bmapped_wrote s n V addrs bn V' addrs' b off :
  fs_geom s → file_ok s V addrs → (bn < 140)%nat → block_of V addrs bn = 0 →
  bmapped s n V addrs bn V' addrs' b → wrote s n V addrs V' addrs' off [].
Proof.
  intros G FO Hbn Hz [B1 B2 B3 [B4 B4'] B5 B6 B7].
  assert (Hfresh : ∀ c, bfree_in (k_sb s) V c = true → ¬ in_use s V c) by (intros c Hc [_ Hu]; congruence).
  assert (Hkeep : ∀ bn', (bn' < 140)%nat → block_of V addrs bn' ≠ 0 → block_of V' addrs' bn' = block_of V addrs bn').
  { intros bn' Hbn' Hz'. apply B6; [done|]. by intros ->. }
  constructor; try done.
  - eapply grow_weaken; [exact B1| |done]. intros c _ Hc. by left.
  - intros x Hx. simpl in Hx. lia.
  - intros c [->|(bn' & Hbn' & <-)].
    + destruct B7 as [->|[_ Hf]]; [left; by left|right; by apply Hfresh].
    + destruct (decide (bn' = bn)) as [->|Hne]; [right; rewrite B3; by apply Hfresh|].
      left. right. exists bn'. rewrite B6 by done. done.
  - intros x Hx Hor. rewrite decide_False by (simpl; lia). destruct Hor as [Hz'|Hr]; [|cbn [length] in Hr; lia].
    assert (Hd : (x / 512 < 140)%nat) by (apply Nat.Div0.div_lt_upper_bound; lia).
    unfold fbyte. rewrite Hkeep by done. destruct (fo_block FO _ Hd Hz') as [[Hds Hus] Hni].
    by rewrite (g_keep _ _ _ _ _ B1) by (done || by right).
Qed.

(** A write inside one block of the file. *)
Lemma block_wrote s V addrs bn b o d :
  fs_geom s → file_ok s V addrs → (bn < 140)%nat → block_of V addrs bn = b → b ≠ 0 →
  length (V b) = 512%nat → (o + length d ≤ 512)%nat →
  wrote s 0 V addrs (<[b := splice (V b) o d]> V) addrs (bn * 512 + o) d.
Proof.
  intros G FO Hbn Eb Hz Hl Ho. set (V' := <[b := _]> V). rewrite <-Eb in Hz.
  destruct (fo_block FO bn Hbn Hz) as [[Hds Hus] Hni]. rewrite Eb in *.
  assert (GW : grow s (λ c, c = b) 0 V V') by (apply grow_write; [done|by right]).
  assert (EB : ∀ bn', block_of V' addrs bn' = block_of V addrs bn').
  { intros bn'. unfold block_of, V'. by rewrite fn_lookup_insert_ne by done. }
  assert (Hin : ∀ x, (bn * 512 + o ≤ x < bn * 512 + o + length d)%nat → (x / 512 = bn ∧ x mod 512 = x - bn * 512)%nat).
  { intros x Hx. split.
    - symmetry. apply Nat.div_unique with (x - bn * 512)%nat; lia.
    - symmetry. apply Nat.mod_unique with bn; lia. }
  constructor.
  - eapply grow_weaken; [exact GW| |done]. intros c _ ->. right. by exists bn.
  - destruct FO as [F1 F2 F3 F4 F5]. constructor; try done.
    + intros Hi. destruct (F3 Hi). split; [done|by apply (g_use _ _ _ _ _ GW)].
    + intros bn' Hbn'. rewrite EB. intros Hz'. destruct (F4 bn' Hbn' Hz') as [[? ?] ?].
      split; [split; [done|by apply (g_use _ _ _ _ _ GW)]|done].
    + intros bn1 bn2. rewrite !EB. apply F5.
  - intros bn' _ _. apply EB.
  - intros x Hx. rewrite EB. by destruct (Hin x Hx) as [-> _]; rewrite Eb.
  - intros c [->|(bn' & Hbn' & <-)]; left; [by left|right]. exists bn'. by rewrite EB.
  - intros x Hx Hor. unfold fbyte. rewrite EB. destruct (decide (x / 512 = bn)%nat) as [E|E].
    + rewrite E, Eb. unfold V'. rewrite fn_lookup_insert.
      pose proof (Nat.div_mod x 512 ltac:(lia)) as Hdm. rewrite E in Hdm. rewrite !nth_lookup, lookup_splice by lia.
      destruct (decide (bn * 512 + o ≤ x < bn * 512 + o + length d)%nat) as [Hr|Hr].
      * rewrite decide_True by lia. do 2 f_equal. lia.
      * by rewrite decide_False by lia.
    + rewrite decide_False by (intros Hr; by destruct (Hin x Hr)).
      destruct Hor as [Hz'|Hr]; [|by destruct (Hin x Hr)].
      assert (Hd : (x / 512 < 140)%nat) by (apply Nat.Div0.div_lt_upper_bound; lia).
      unfold V'. rewrite fn_lookup_insert_ne; [done|]. intros Ec. destruct E.
      symmetry. apply (fo_inj FO); try done; congruence.
Qed.

Lemma same_disk_refl s : same_disk s s.
Proof. do 2 (split; [done|]). apply log_same_refl. Qed.

(** [bmap] as [writei] uses it: the block is there, or is allocated. *)
Lemma bmap_any s V k i ip bn :
  txn s ∅ V (5 + k) → fs_geom s → meta_used s V → k_icache s !! i = Some ip → i_dev ip = 1 →
  file_ok s V (i_addrs ip) → (bn < 140)%nat → (2 ≤ nfree s V)%nat →
  ∃ b s' V' a', bmap i (Z.of_nat bn) s = Done b s' ∧ txn s' ∅ V' k ∧ iframe i (with_i_addrs a' ip) s s' ∧
    block_of V' a' bn = b ∧ b ≠ 0 ∧ (block_of V (i_addrs ip) bn ≠ 0 → a' = i_addrs ip) ∧
    ∀ off, wrote s 2 V (i_addrs ip) V' a' off [].
Proof.
  intros Ht G M Hi Hdev FO Hbn Hn. destruct (decide (block_of V (i_addrs ip) bn = 0)) as [Hz|Hz].
  - destruct (bmap_unmapped s V k i ip bn) as (b & s' & V' & a' & E & T' & F & B); try done.
    exists b, s', V', a'. do 3 (split; [done|]). split; [apply B|]. split.
    + destruct (bm_new _ _ _ _ _ _ _ _ B) as [Hr Hf]. destruct (free_home s V b G M Hr Hf) as [Hd _].
      destruct G as (G1 & G2 & G3 & G4 & G5 & G6 & G7 & G8). unfold data_start, IPB, BPB, BSIZE in *.
      change (512 / 64) with 8 in *. change (512 * 8) with 4096 in *.
      pose proof (Z.div_pos (sb_ninodes (k_sb s)) 8 ltac:(lia) ltac:(lia)).
      pose proof (Z.div_pos (Z.of_nat (length (k_disk s))) 4096 ltac:(lia) ltac:(lia)). lia.
    + split; [done|]. intros off. by eapply bmapped_wrote.
  - destruct (bmap_mapped s V (5 + k) i ip bn) as (s' & E & T' & F); try done.
    exists (block_of V (i_addrs ip) bn), s', V, (i_addrs ip). split; [done|].
    split; [eapply txn_weaken; [exact T'|lia]|]. split.
    + assert (with_i_addrs (i_addrs ip) ip = ip) as -> by (by destruct ip). by apply iframe_tframe.
    + do 3 (split; [done|]). intros off. destruct (wrote_nil s V (i_addrs ip) off FO) as [W1 W2 W3 W4 W5 W6].
      constructor; try done. eapply grow_weaken; [exact W1|done|lia].
Qed.

Lemma same_disk_sym s s' : same_disk s s' → same_disk s' s.
Proof.
  intros (E1 & E2 & L). do 2 (split; [done|]). unfold log_same in *. rewrite L. by destruct (k_log s).
Qed.

Lemma sd_wrote s s' n V a V' a' off d : same_disk s s' → wrote s' n V a V' a' off d → wrote s n V a V' a' off d.
Proof.
  intros SD [W1 W2 W3 W4 W5 W6]. constructor; try done.
  - by apply (sd_grow SD).
  - by apply (sd_file (same_disk_sym _ _ SD)).
  - destruct SD as (E1 & E2 & _). unfold in_use in *. by rewrite E1, E2 in W5.
Qed.

Lemma wrote_weaken s n m V a V' a' off d : wrote s n V a V' a' off d → (n ≤ m)%nat → wrote s m V a V' a' off d.
Proof. intros [W1 W2 W3 W4 W5 W6] Hn. constructor; try done. by eapply grow_weaken. Qed.

Lemma sd_good s s' V ip : same_disk s s' → file_good s V ip → file_good s' V ip.
Proof. intros SD [F1 F2 F3]. constructor; [by apply (sd_file SD)|done|done]. Qed.

(** One turn of the loop of [writei]: [m] bytes into one block. *)
Lemma writei_turn s V k i ip off d bp_rest :
  txn s ∅ V (6 + k) → fs_geom s → meta_used s V → k_icache s !! i = Some ip → i_dev ip = 1 →
  file_ok s V (i_addrs ip) → 0 ≤ off → (Z.to_nat off < 140 * 512)%nat → (2 ≤ nfree s V)%nat →
  Forall is_u8 d → (Z.to_nat off mod 512 + length d ≤ 512)%nat →
  ∃ s' V' a', (bno <- bmap i (off / BSIZE) ;;
      bp <- bread 1 bno ;;
      set_buf bp (λ bf, with_b_data (splice (b_data bf) (Z.to_nat (off mod BSIZE)) d) bf) ;;;
      log_write bp ;;;
      brelse bp ;;;
      bp_rest) s = (bp_rest : K Z) s' ∧ txn s' ∅ V' k ∧ iframe i (with_i_addrs a' ip) s s' ∧
    (block_of V (i_addrs ip) (Z.to_nat off / 512) ≠ 0 → a' = i_addrs ip) ∧
    wrote s 2 V (i_addrs ip) V' a' (Z.to_nat off) d.
Proof.
  intros Ht G M Hi Hdev FO H0 Hlt Hn Hd Hm. destruct (off_div off H0) as [Eb Em]. rewrite Eb, Em.
  set (o := Z.to_nat off) in *. set (bn := (o / 512)%nat).
  assert (Hbn : (bn < 140)%nat) by (apply Nat.Div0.div_lt_upper_bound; lia).
  destruct (bmap_any s V (S k) i ip bn Ht G M Hi Hdev FO Hbn Hn) as (b & s1 & V1 & a1 & E1 & T1 & F1 & Hb & Hz & Hsame & W1).
  erewrite bind_done by exact E1. pose proof (iframe_same _ _ _ _ F1) as SD1. pose proof (wr_file (W1 0%nat)) as FO1.
  assert (Hdb : data_block s V1 b). { rewrite <-Hb. apply (fo_block FO1); [done|]. by rewrite Hb. }
  assert (Hhome : home s1 b) by (apply (sd_home SD1); by eapply data_home).
  destruct (txn_bread s1 ∅ V1 _ b T1 ltac:(rewrite map_size_empty; lia) Hhome) as (j & s2 & E2 & _ & T2 & F2); [done|].
  erewrite bind_done by exact E2.
  assert (Hok : block_ok (V1 b)).
  { eapply txn_block; [exact T1|]. apply Hhome. }
  destruct (write_run _ _ _ _ j b (λ x, splice x (o mod 512) d) (brelse j ;;; bp_rest) T2 (lookup_insert_eq _ _ _))
    as (s3 & E3 & T3 & F3).
  { by eapply tframe_home. }
  { destruct Hok as [Hl Hb']. split; [rewrite length_splice; lia|]. by apply Forall_splice. }
  destruct (txn_release _ _ _ _ _ _ T3 (lookup_empty _)) as (s4 & E4 & T4 & F4).
  exists s4, (<[b := splice (V1 b) (o mod 512) d]> V1), a1.
  split; [etransitivity; [exact E3|]; by erewrite bind_done by exact E4|]. split; [done|]. split.
  - eapply iframe_trans; [exact F1|]. apply iframe_tframe.
    + by eapply iframe_lookup.
    + eapply tframe_trans; [exact F2|]. by eapply tframe_trans.
  - split; [done|]. assert (Eo : o = (bn * 512 + o mod 512)%nat).
    { pose proof (Nat.div_mod o 512 ltac:(lia)). unfold bn. lia. }
    pose proof (block_wrote s V1 a1 bn b (o mod 512) d G FO1 Hbn Hb Hz (proj1 Hok) Hm) as W2.
    rewrite <-Eo in W2. pose proof (wrote_app s 2 0 V (i_addrs ip) V1 a1 (<[b := splice (V1 b) (o mod 512) d]> V1) a1 o [] d) as W.
    cbn [app length] in W.
    rewrite Nat.add_0_r in W. apply W; [|apply W1|done].
    pose proof (Nat.mod_upper_bound o 512 ltac:(lia)). lia.
Qed.

Lemma Forall_slice_u8 (src : list Z) o n : Forall is_u8 src → Forall is_u8 (slice src o n).
Proof. apply Forall_slice. Qed.

Lemma writei_loop_ok fuel s V k i ip src tot off cnt :
  let n := Z.of_nat (length src) in
  let rem := Z.to_nat (n - tot) in
  txn s ∅ V (6 * cnt + k) → fs_geom s → meta_used s V → k_icache s !! i = Some ip → i_dev ip = 1 →
  file_ok s V (i_addrs ip) → 0 ≤ tot ≤ n → 0 ≤ off → off + (n - tot) ≤ 71680 → (2 * cnt ≤ nfree s V)%nat →
  Forall is_u8 src → rem = 0%nat ∨ (Z.to_nat off mod 512 + rem ≤ 512 * cnt)%nat → (rem < fuel)%nat →
  ∃ s' V' a', writei_loop fuel i src tot off n s = Done (off + (n - tot)) s' ∧ txn s' ∅ V' k ∧
    iframe i (with_i_addrs a' ip) s s' ∧
    ((∀ x, (Z.to_nat off ≤ x < Z.to_nat off + rem)%nat → block_of V (i_addrs ip) (x / 512) ≠ 0) → a' = i_addrs ip) ∧
    wrote s (2 * cnt) V (i_addrs ip) V' a' (Z.to_nat off) (slice src (Z.to_nat tot) rem).
Proof.
  intros n. revert s V ip tot off cnt.
  induction fuel as [|fuel IH]; intros s V ip tot off cnt rem Ht G M Hi Hdev FO H0 H1 H2 Hn Hu Hc Hf; [lia|].
  cbn [writei_loop]. destruct (Z.ltb_spec tot n) as [Hlt|Hge].
  2:{ exists s, V, (i_addrs ip). assert (Er : rem = 0%nat) by lia. rewrite Er.
      split; [unfold ret; f_equal; lia|]. split; [eapply txn_weaken; [exact Ht|lia]|]. split.
      - assert (with_i_addrs (i_addrs ip) ip = ip) as -> by (by destruct ip). apply iframe_tframe; [done|apply tframe_refl].
      - split; [done|]. eapply wrote_weaken; [by apply wrote_nil|lia]. }
  destruct Hc as [Hc|Hc]; [lia|]. destruct cnt as [|cnt]; [lia|].
  erewrite bind_done by (by apply inode_at_ok). rewrite Hdev. destruct (off_div off H1) as [_ Em].
  set (m := (n - tot) `min` (BSIZE - off mod BSIZE)).
  assert (Hm : 1 ≤ m ∧ m ≤ n - tot ∧ (Z.to_nat off mod 512 + Z.to_nat m ≤ 512)%nat ∧
    (m = n - tot ∨ ((Z.to_nat off + Z.to_nat m) mod 512 = 0 ∧ Z.to_nat off mod 512 + Z.to_nat m = 512)%nat)).
  { unfold m. rewrite <-Em. unfold BSIZE in *. pose proof (Z.mod_pos_bound off 512).
    destruct (decide (n - tot ≤ 512 - off mod 512)) as [Hle|Hle]; [rewrite Z.min_l by lia; lia|].
    rewrite Z.min_r by lia. split; [lia|]. split; [lia|]. split; [lia|]. right. split; [|lia].
    rewrite <-Z2Nat.inj_add by lia. apply Nat2Z.inj. rewrite Nat2Z.inj_mod, Z2Nat.id by lia.
    change (Z.of_nat 512) with 512. zdiv. }
  destruct Hm as (Hm1 & Hm2 & Hm3 & Hm4). set (d := slice src (Z.to_nat tot) (Z.to_nat m)).
  assert (Hld : length d = Z.to_nat m) by (apply length_slice; lia).
  destruct (writei_turn s V (6 * cnt + k) i ip off d (writei_loop fuel i src (tot + m) (u32 (off + m)) n)) as (s1 & V1 & a1 & E1 & T1 & F1 & Hsame1 & W1); try done; try lia.
  { eapply txn_weaken; [exact Ht|lia]. }
  { by apply Forall_slice_u8. }
  pose proof (iframe_same _ _ _ _ F1) as SD1.
  destruct (IH s1 V1 (with_i_addrs a1 ip) (tot + m) (off + m) cnt) as (s' & V' & a' & E & T' & F & Hsame & W); try done; try lia.
  - by apply (sd_geom SD1).
  - apply (sd_meta SD1). exact (grow_meta _ _ _ _ _ (wr_grow W1) G M).
  - by eapply iframe_lookup.
  - by apply (sd_file SD1), (wr_file W1).
  - rewrite (sd_nfree SD1). pose proof (g_free _ _ _ _ _ (wr_grow W1)). lia.
  - destruct Hm4 as [->|[Hm4 Hm5]]; [left; lia|right]. rewrite Z2Nat.inj_add by lia. lia.
  - exists s', V', a'. split; [|split; [done|split; [by eapply iframe_trans|split]]].
    + etransitivity; [exact E1|]. rewrite u32_small by (unfold is_u32; lia).
      etransitivity; [exact E|]. f_equal. lia.
    + intros Hall. assert (Ea : a1 = i_addrs ip) by (apply Hsame1, Hall; lia). rewrite Hsame; [exact Ea|].
      cbn [i_addrs with_i_addrs]. intros x Hx. rewrite Z2Nat.inj_add in Hx by lia.
      rewrite (wr_keep W1); [apply Hall; lia| |apply Hall; lia].
      apply Nat.Div0.div_lt_upper_bound. lia.
    + apply (sd_wrote _ _ _ _ _ _ _ _ _ SD1) in W.
      replace (Z.to_nat (off + m)) with (Z.to_nat off + length d)%nat in W by lia.
      replace (2 * S cnt)%nat with (2 + 2 * cnt)%nat by lia.
      replace rem with (Z.to_nat m + Z.to_nat (n - (tot + m)))%nat by lia. rewrite slice_add. fold d.
      replace (Z.to_nat (tot + m)) with (Z.to_nat tot + Z.to_nat m)%nat in W by lia.
      apply (wrote_app s 2 (2 * cnt) _ _ V1 a1); [|done|done].
      rewrite Hld, length_slice by lia. lia.
Qed.

(** A change of a block before the bitmap is invisible to a file. *)
Lemma file_other_block s V a c y :
  fs_geom s → file_ok s V a → c < sb_bmapstart (k_sb s) →
  let V' := <[c := y]> V in
  file_ok s V' a ∧ (∀ bn, (bn < 140)%nat → block_of V' a bn = block_of V a bn) ∧
  ∀ x, (x < 140 * 512)%nat → block_of V a (x / 512) ≠ 0 → fbyte V' a x = fbyte V a x.
Proof.
  intros G FO Hc V'. pose proof (grow_write s V c y G (or_introl Hc)) as GW. fold V' in GW.
  assert (Hds : sb_bmapstart (k_sb s) < data_start s).
  { unfold data_start, BPB, BSIZE. change (512 * 8) with 4096.
    pose proof (Z.div_pos (Z.of_nat (length (k_disk s))) 4096 ltac:(lia) ltac:(lia)). lia. }
  assert (HV : ∀ b, data_start s ≤ b → V' b = V b) by (intros b Hb; unfold V'; by rewrite fn_lookup_insert_ne by lia).
  assert (EB : ∀ bn, (bn < 140)%nat → block_of V' a bn = block_of V a bn).
  { intros bn Hbn. unfold block_of. destruct (bn <? 12)%nat; [done|].
    destruct (Z.eqb_spec (ind_of a) 0) as [|Hi]; [done|]. destruct (fo_ind FO Hi). by rewrite HV. }
  split; [|split; [done|]].
  - destruct FO as [F1 F2 F3 F4 F5]. constructor; try done.
    + intros Hi. destruct (F3 Hi). split; [done|by apply (g_use _ _ _ _ _ GW)].
    + intros bn Hbn. rewrite EB by done. intros Hz. destruct (F4 bn Hbn Hz) as [[? ?] ?].
      split; [split; [done|by apply (g_use _ _ _ _ _ GW)]|done].
    + intros bn1 bn2 H1 H2. rewrite !EB by done. by apply F5.
  - intros x Hx Hz. assert (Hd : (x / 512 < 140)%nat) by (apply Nat.Div0.div_lt_upper_bound; lia).
    unfold fbyte. rewrite EB by done. destruct (fo_block FO _ Hd Hz) as [[Hb _] _]. by rewrite HV.
Qed.

Lemma lookup_splice_ext {A} (l bs : list A) off i :
  (off ≤ length l)%nat →
  splice l off bs !! i = if decide (off ≤ i < off + length bs)%nat then bs !! (i - off)%nat else l !! i.
Proof.
  intros Hl. unfold splice. assert (Hlen : length (take off l) = off) by (rewrite length_take; lia).
  case_decide as Hi.
  - rewrite lookup_app_r, Hlen by lia. by rewrite lookup_app_l by lia.
  - destruct (decide (i < off)%nat) as [Hlt|Hge].
    + rewrite lookup_app_l by lia. by apply lookup_take_lt.
    + rewrite lookup_app_r, Hlen by lia. rewrite lookup_app_r by lia. rewrite lookup_drop. f_equal. lia.
Qed.

Lemma wrote_contents s n V ip V' a' off src size' :
  file_good s V ip → (off ≤ Z.to_nat (i_size ip))%nat → (off + length src ≤ 140 * 512)%nat →
  wrote s n V (i_addrs ip) V' a' off src →
  size' = Z.of_nat (Nat.max (Z.to_nat (i_size ip)) (off + length src)) →
  contents V' (with_i_size size' (with_i_addrs a' ip)) = splice (contents V ip) off src ∧
  file_good s V' (with_i_size size' (with_i_addrs a' ip)).
Proof.
  intros FG Ho Hb W Es. pose proof (fg_size FG) as Hsz. assert (Hs : (Z.to_nat (i_size ip) ≤ 140 * 512)%nat) by lia.
  assert (Hm : ∀ x, (x < Z.to_nat (i_size ip))%nat → block_of V (i_addrs ip) (x / 512) ≠ 0).
  { intros x Hx. apply (fg_mapped FG). pose proof (Nat.div_mod x 512 ltac:(lia)). lia. }
  split.
  - apply list_eq. intros x. rewrite lookup_splice_ext by (by rewrite length_contents).
    destruct (decide (x < Z.to_nat size')%nat) as [Hx|Hx].
    + rewrite lookup_contents by done. cbn [i_addrs with_i_size with_i_addrs].
      assert (Hx' : (x < 140 * 512)%nat) by lia.
      rewrite (wr_data W x Hx').
      2:{ destruct (decide (x < Z.to_nat (i_size ip))%nat); [left; by apply Hm|right; lia]. }
      case_decide as Hr.
      * destruct (lookup_lt_is_Some_2 src (x - off)) as [y Hy]; [lia|].
        by rewrite (nth_lookup_Some _ _ _ _ Hy), Hy.
      * by rewrite lookup_contents by lia.
    + rewrite decide_False by lia. rewrite !lookup_ge_None_2 by (rewrite length_contents; cbn [i_size with_i_size with_i_addrs]; lia).
      done.
  - constructor; cbn [i_addrs i_size with_i_size with_i_addrs].
    + apply (wr_file W).
    + lia.
    + intros bn Hbn. destruct (decide (bn * 512 < Z.to_nat (i_size ip))%nat) as [Hlt|Hge].
      * rewrite (wr_keep W) by (lia || by apply (fg_mapped FG)). by apply (fg_mapped FG).
      * assert (E : (bn = (bn * 512) / 512)%nat) by (by rewrite Nat.div_mul by lia).
        rewrite E. apply (wr_map W). lia.
Qed.

(** What [writei] leaves alone: the marks of the blocks in use, and the contents
    of those that are not of the file, not in the bitmap and not the block of
    its inode. *)
Definition others_kept (s : kernel) (V : Z → list Z) (ip : inode) (V' : Z → list Z) : Prop :=
  (∀ c, in_use s V c → in_use s V' c) ∧
  ∀ c, in_use s V c → c < sb_bmapstart (k_sb s) ∨ data_start s ≤ c → ¬ own V (i_addrs ip) c →
    c ≠ IBLOCK (i_inum ip) (k_sb s) → V' c = V c.

Lemma dinode_ok_addrs ip a sz :
  dinode_ok (inode_disk ip) → length a = 13%nat → Forall is_u32 a → is_u32 sz →
  dinode_ok (inode_disk (with_i_size sz (with_i_addrs a ip))).
Proof. intros [D1 D2 D3 D4 D5 D6 D7] Hl Hu Hs. by constructor. Qed.

(** The end of [writei]: the new size, if any, is recorded on disk. *)
Lemma writei_finish s1 V1 k i ip1 off' n :
  txn s1 ∅ V1 (S k) → fs_geom s1 → k_icache s1 !! i = Some ip1 → on_disk s1 ip1 →
  dinode_ok (inode_disk (with_i_size off' ip1)) →
  let ip2 := if (0 <? n) && (i_size ip1 <? off') then with_i_size off' ip1 else ip1 in
  let V2 := if (0 <? n) && (i_size ip1 <? off')
            then inode_view (k_sb s1) (i_inum ip1) (inode_disk ip2) V1 else V1 in
  ∃ s2, (ip <- inode_at i ;;
    (if (0 <? n) && (i_size ip <? off') then set_inode i (with_i_size off') ;;; iupdate i else ret tt) ;;;
    ret (s32 n)) s1 = Done (s32 n) s2 ∧ txn s2 ∅ V2 k ∧ iframe i ip2 s1 s2.
Proof.
  intros Ht G Hi Hon Hd. erewrite bind_done by (by apply inode_at_ok).
  destruct ((0 <? n) && (i_size ip1 <? off')) eqn:E; cbn iota zeta.
  - set (s1' := upd_inode i (with_i_size off') s1).
    pose proof (iframe_inode i (with_i_size off') ip1 s1 Hi) as Fi. fold s1' in Fi.
    destruct (iupdate_spec s1' V1 k i (with_i_size off' ip1)) as (s2 & E2 & T2 & F2); try done.
    + by eapply txn_keep, tkeep_inode.
    + by apply (lookup_upd_inode i (with_i_size off') s1 ip1).
    + exists s2. split.
      * erewrite bind_done; [done|]. erewrite bind_done by done. exact E2.
      * split; [done|]. eapply iframe_trans; [exact Fi|]. apply iframe_tframe; [|done].
        by apply (lookup_upd_inode i (with_i_size off') s1 ip1).
  - exists s1. split; [done|]. split; [eapply txn_weaken; [exact Ht|lia]|].
    apply iframe_tframe; [done|apply tframe_refl].
Qed.

(** The view of [writei] when it returns, from that of its loop. *)
Section writei_result.
Context (s : kernel) (V : Z → list Z) (ip : inode) (V1 : Z → list Z) (a1 : list Z) (off : nat) (src : list Z) (cnt : nat).
Context (G : fs_geom s) (M : meta_used s V) (FG : file_good s V ip) (Hd : dinode_ok (inode_disk ip))
  (Hon : on_disk s ip) (Hsync : dinode_at (k_sb s) V (i_inum ip) = inode_disk ip)
  (Ho : (off ≤ Z.to_nat (i_size ip))%nat) (Hmax : (off + length src ≤ 140 * 512)%nat)
  (W : wrote s cnt V (i_addrs ip) V1 a1 off src)
  (Hsame : (∀ x, (off ≤ x < off + length src)%nat → block_of V (i_addrs ip) (x / 512) ≠ 0) → a1 = i_addrs ip)
  (Hib : block_ok (V1 (IBLOCK (i_inum ip) (k_sb s)))).
Let ip1 := with_i_addrs a1 ip.
Let off' := Z.of_nat (off + length src).

(** The loop does not touch inodes. *)
Lemma wrote_inodes m : 0 ≤ m < sb_ninodes (k_sb s) → V1 (IBLOCK m (k_sb s)) = V (IBLOCK m (k_sb s)).
Proof.
  intros Hm. destruct (IBLOCK_small s m G) as (_ & Hr & [Hb _]); [lia|].
  assert (Hds : sb_bmapstart (k_sb s) < data_start s).
  { unfold data_start, BPB, BSIZE. change (512 * 8) with 4096.
    pose proof (Z.div_pos (Z.of_nat (length (k_disk s))) 4096 ltac:(lia) ltac:(lia)). lia. }
  assert (Hpos : 0 < sb_inodestart (k_sb s)) by (destruct G as (_ & _ & _ & ? & ? & ? & _); lia).
  apply (g_keep _ _ _ _ _ (wr_grow W)); [split; [done|apply M; lia]|left; lia|].
  intros [E|(bn & Hbn & E)].
  - destruct (decide (ind_of (i_addrs ip) = 0)) as [Hz|Hz]; [lia|]. destruct (fo_ind (fg_ok FG) Hz). lia.
  - destruct (decide (block_of V (i_addrs ip) bn = 0)) as [Hz|Hz]; [lia|].
    destruct (fo_block (fg_ok FG) bn Hbn Hz) as [[? _] _]. lia.
Qed.

(** The write stays below the size. *)
Lemma wrote_inside :
  off' ≤ i_size ip →
  contents V1 ip1 = splice (contents V ip) off src ∧ file_good s V1 ip1 ∧
  dinode_at (k_sb s) V1 (i_inum ip) = inode_disk ip1 ∧ others_kept s V ip V1 ∧
  ∀ m, 0 ≤ m < sb_ninodes (k_sb s) → dinode_at (k_sb s) V1 m = dinode_at (k_sb s) V m.
Proof.
  intros Hle. pose proof (fg_size FG) as Hsz. assert (Ea : a1 = i_addrs ip).
  { apply Hsame. intros x Hx. apply (fg_mapped FG). pose proof (Nat.div_mod x 512 ltac:(lia)). lia. }
  assert (Hat : ∀ m, 0 ≤ m < sb_ninodes (k_sb s) → dinode_at (k_sb s) V1 m = dinode_at (k_sb s) V m).
  { intros m Hm. unfold dinode_at. by rewrite wrote_inodes. }
  destruct (wrote_contents s cnt V ip V1 a1 off src (i_size ip) FG Ho Hmax W) as [C1 C2]; [lia|].
  assert (Eip : with_i_size (i_size ip) (with_i_addrs a1 ip) = ip1) by (by destruct ip). rewrite Eip in C1, C2.
  split; [done|]. split; [done|]. split; [|split; [|done]].
  - rewrite Hat by apply Hon. rewrite Hsync. unfold ip1. rewrite Ea. by destruct ip.
  - split; [apply (g_use _ _ _ _ _ (wr_grow W))|].
    intros c Hc Hm Hn _. by apply (g_keep _ _ _ _ _ (wr_grow W)).
Qed.

(** The write extends the file. *)
Lemma wrote_beyond :
  i_size ip < off' →
  let ip2 := with_i_size off' ip1 in
  let V2 := inode_view (k_sb s) (i_inum ip) (inode_disk ip2) V1 in
  contents V2 ip2 = splice (contents V ip) off src ∧ file_good s V2 ip2 ∧
  dinode_at (k_sb s) V2 (i_inum ip) = inode_disk ip2 ∧ others_kept s V ip V2 ∧
  ∀ m, 0 ≤ m < sb_ninodes (k_sb s) → m ≠ i_inum ip → dinode_at (k_sb s) V2 m = dinode_at (k_sb s) V m.
Proof.
  intros Hlt ip2 V2. pose proof (fg_size FG) as Hsz. destruct Hon as [Hdev Hinum].
  destruct (wrote_contents s cnt V ip V1 a1 off src off' FG Ho Hmax W) as [C1 C2]; [lia|]. fold ip1 ip2 in C1, C2.
  destruct (IBLOCK_small s (i_inum ip) G) as (_ & Hr & _); [lia|].
  destruct (file_other_block s V1 a1 (IBLOCK (i_inum ip) (k_sb s))
    (splice (V1 (IBLOCK (i_inum ip) (k_sb s))) (dinode_off (i_inum ip)) (dinode_enc (inode_disk ip2)))
    G (wr_file W)) as (FO2 & EB & EF); [lia|]. fold (inode_view (k_sb s) (i_inum ip) (inode_disk ip2) V1) in FO2, EB, EF.
  fold V2 in FO2, EB, EF.
  assert (Hok2 : dinode_ok (inode_disk ip2)).
  { apply dinode_ok_addrs; [done|apply (fo_len (wr_file W))|apply (fo_u32 (wr_file W))|unfold is_u32; lia]. }
  assert (Hat : ∀ m, 0 ≤ m < sb_ninodes (k_sb s) → dinode_at (k_sb s) V2 m =
    if decide (i_inum ip = m) then inode_disk ip2 else dinode_at (k_sb s) V m).
  { intros m Hm. unfold V2. rewrite dinode_at_view by (done || lia). case_decide; [done|].
    unfold dinode_at. by rewrite wrote_inodes. }
  assert (Hsz2 : i_size ip2 = off') by done.
  split; [|split; [|split; [|split]]].
  - rewrite <-C1. unfold contents. apply list_fmap_ext. intros x y Hy. apply lookup_seq in Hy as [-> Hy].
    cbn [Nat.add]. apply EF; [lia|]. apply (fg_mapped C2). pose proof (Nat.div_mod x 512 ltac:(lia)). lia.
  - constructor; [done|lia|]. intros bn Hbn. change (i_addrs ip2) with a1. rewrite EB by lia. by apply (fg_mapped C2).
  - rewrite Hat by done. by rewrite decide_True.
  - split.
    + intros c Hc. apply (g_use _ _ _ _ _ (grow_write s V1 _ _ G (or_introl (proj2 Hr)))).
      by apply (g_use _ _ _ _ _ (wr_grow W)).
    + intros c Hc Hm Hn Hne. unfold V2, inode_view. rewrite fn_lookup_insert_ne by congruence.
      by apply (g_keep _ _ _ _ _ (wr_grow W)).
  - intros m Hm Hne. rewrite Hat by done. by rewrite decide_False by congruence.
Qed.
End writei_result.

(** [writei] on a file whose blocks below its size are all there, with room in
    the log and on the disk. *)
Lemma writei_ok s V k i ip src off cnt :
  let n := Z.of_nat (length src) in
  txn s ∅ V (6 * cnt + S k) → fs_geom s → meta_used s V → k_icache s !! i = Some ip → on_disk s ip →
  i_type ip ≠ T_DEV → file_good s V ip → dinode_ok (inode_disk ip) →
  dinode_at (k_sb s) V (i_inum ip) = inode_disk ip →
  0 ≤ off ≤ i_size ip → off + n ≤ 71680 → Forall is_u8 src →
  (Z.to_nat off mod 512 + length src ≤ 512 * cnt)%nat → (2 * cnt ≤ nfree s V)%nat →
  ∃ s' V' ip', writei i src off s = Done n s' ∧ txn s' ∅ V' k ∧ iframe i ip' s s' ∧
    ip' = with_i_size (i_size ip') (with_i_addrs (i_addrs ip') ip) ∧
    contents V' ip' = splice (contents V ip) (Z.to_nat off) src ∧ file_good s V' ip' ∧
    dinode_at (k_sb s) V' (i_inum ip) = inode_disk ip' ∧ others_kept s V ip V' ∧
    ∀ m, 0 ≤ m < sb_ninodes (k_sb s) → m ≠ i_inum ip → dinode_at (k_sb s) V' m = dinode_at (k_sb s) V m.
Proof.
  intros n Ht G M Hi Hon Hty FG Hd Hsync Hoff Hmax Hu Hcnt Hfree. pose proof (fg_size FG) as Hsz.
  destruct Hon as [Hdev Hinum]. unfold writei. erewrite bind_done by (by apply inode_at_ok). fold n.
  rewrite (proj2 (Z.eqb_neq _ _)) by done. rewrite u32_small by (unfold is_u32; lia).
  rewrite (proj2 (Z.ltb_ge _ _)), (proj2 (Z.ltb_ge _ off)) by lia. cbn [orb].
  rewrite (proj2 (Z.ltb_ge (MAXFILE * BSIZE) _)) by (unfold MAXFILE, NDIRECT, NINDIRECT, BSIZE in *; change ((12 + 512 / 4) * 512) with 71680; lia).
  destruct (writei_loop_ok (S (length src)) s V (S k) i ip src 0 off cnt) as (s1 & V1 & a1 & E1 & T1 & F1 & Hsame & W);
    try done; try lia; try apply FG.
  fold n in E1, W, Hsame. rewrite Z.sub_0_r in *. erewrite bind_done by exact E1.
  assert (En : Z.to_nat n = length src) by lia. rewrite En in *.
  assert (Ew : slice src (Z.to_nat 0) (length src) = src) by (unfold slice; rewrite drop_0, take_ge; [done|lia]).
  rewrite Ew in W. pose proof (iframe_same _ _ _ _ F1) as SD1. set (ip1 := with_i_addrs a1 ip) in *.
  assert (Hon : on_disk s ip) by done. assert (Ho : (Z.to_nat off ≤ Z.to_nat (i_size ip))%nat) by lia.
  assert (Hm : (Z.to_nat off + length src ≤ 140 * 512)%nat) by lia.
  assert (Eo : off + n = Z.of_nat (Z.to_nat off + length src)) by lia.
  assert (Hib : block_ok (V1 (IBLOCK (i_inum ip) (k_sb s)))).
  { eapply txn_block; [exact T1|]. destruct SD1 as (_ & -> & _).
    destruct (IBLOCK_small s (i_inum ip) G) as (_ & _ & [? _]); [lia|done]. }
  destruct (writei_finish s1 V1 k i ip1 (off + n) n) as (s2 & E2 & T2 & F2); try done.
  { by apply (sd_geom SD1). }
  { by eapply iframe_lookup. }
  { destruct SD1 as (E & _). split; [done|]. rewrite E. done. }
  { apply dinode_ok_addrs; [done|apply (fo_len (wr_file W))|apply (fo_u32 (wr_file W))|unfold is_u32; lia]. }
  assert (E32 : s32 n = n) by (apply s32_small; lia). rewrite E32 in *. change (i_size ip1) with (i_size ip) in *.
  destruct (decide (i_size ip < off + n)) as [Hlt|Hge].
  - rewrite (proj2 (Z.ltb_lt 0 n)), (proj2 (Z.ltb_lt _ _)) in T2, F2 by lia. cbn [andb] in T2, F2.
    destruct SD1 as (Esb & _). rewrite Esb in T2. rewrite Eo in *.
    eexists s2, _, _. split; [done|]. split; [done|]. split; [by eapply iframe_trans|]. split; [done|].
    by apply (wrote_beyond s V ip V1 a1 (Z.to_nat off) src (2 * cnt)).
  - rewrite (proj2 (Z.ltb_ge (i_size ip) _)), andb_false_r in T2, F2 by lia. cbn iota in T2, F2.
    destruct (wrote_inside s V ip V1 a1 (Z.to_nat off) src (2 * cnt)) as (C1 & C2 & C3 & C4 & C5); try done; [lia|].
    exists s2, V1, ip1. split; [done|]. split; [done|]. split; [by eapply iframe_trans|]. split; [done|].
    do 4 (split; [done|]). intros m Hm' _. by apply C5.
Qed.

(** C4: What [writei] writes, [readi] reads, and nothing else changes.  On a file
    whose blocks below its size are all there, with room in the log and on
    the disk, a write of [src] at an offset within the file returns its
    length.  Any read after it returns the bytes of the old contents
    overwritten, and extended, with [src].  The inode on disk agrees with the
    one in memory, and no block of another file, no other inode and no mark of
    a block in use changes. *)
Theorem writei_readi s V k i ip src off cnt :
  let n := Z.of_nat (length src) in
  txn s ∅ V (6 * cnt + S k) → fs_geom s → meta_used s V → k_icache s !! i = Some ip → on_disk s ip →
  i_type ip ≠ T_DEV → file_good s V ip → dinode_ok (inode_disk ip) →
  dinode_at (k_sb s) V (i_inum ip) = inode_disk ip →
  0 ≤ off ≤ i_size ip → off + n ≤ 71680 → Forall is_u8 src →
  (Z.to_nat off mod 512 + length src ≤ 512 * cnt)%nat → (2 * cnt ≤ nfree s V)%nat →
  ∃ s' V' ip', writei i src off s = Done n s' ∧ txn s' ∅ V' k ∧ iframe i ip' s s' ∧
    (∀ off2 n2, 0 ≤ off2 ≤ i_size ip' → 0 ≤ n2 → off2 + n2 < 4294967296 →
       ∃ s'', readi i off2 n2 s' =
         Done (n2 `min` (i_size ip' - off2),
               slice (splice (contents V ip) (Z.to_nat off) src) (Z.to_nat off2) (Z.to_nat n2)) s'') ∧
    dinode_at (k_sb s) V' (i_inum ip) = inode_disk ip' ∧ others_kept s V ip V' ∧
    ∀ m, 0 ≤ m < sb_ninodes (k_sb s) → m ≠ i_inum ip → dinode_at (k_sb s) V' m = dinode_at (k_sb s) V m.
Proof.
  intros n Ht G M Hi Hon Hty FG Hd Hsync Hoff Hmax Hu Hcnt Hfree.
  destruct (writei_ok s V k i ip src off cnt) as (s' & V' & ip' & E & T' & F & Eip & C & FG' & R); try done.
  exists s', V', ip'. split; [done|]. split; [done|]. split; [done|]. split; [|done].
  intros off2 n2 H1 H2 H3. pose proof (iframe_same _ _ _ _ F) as SD.
  destruct (readi_ok s' V' k i ip' off2 n2) as (s'' & E'' & _); try done.
  - by apply (sd_geom SD).
  - by eapply iframe_lookup.
  - rewrite Eip. apply Hon.
  - by rewrite Eip.
  - by apply (sd_good _ _ _ _ SD).
  - exists s''. by rewrite <-C.
Qed.

End files.

(** ** Witness *)

Lemma demo_ip_addrs_ok : file_ok demo_mounted demo_view (i_addrs demo_ip).
Proof.
  assert (Hz : ∀ bn, (bn < 140)%nat → block_of demo_view (i_addrs demo_ip) bn = if decide (bn = 0)%nat then 35 else 0).
  { intros bn Hbn. unfold block_of. change (ind_of (i_addrs demo_ip)) with 0. cbn [Z.eqb].
    destruct (Nat.ltb_spec bn 12); [|by rewrite decide_False by lia].
    destruct bn as [|bn]; [done|]. cbn [i_addrs demo_ip nth]. rewrite decide_False by lia.
    rewrite nth_lookup. destruct (replicate 12 0 !! bn) as [x|] eqn:E; [|done].
    by apply lookup_replicate in E as [-> _]. }
  constructor.
  - done.
  - repeat constructor; unfold is_u32; lia.
  - done.
  - intros bn Hbn. rewrite Hz by done. case_decide; [|done]. intros _. split; [apply demo_mounted_35|done].
  - intros bn bn' H1 H2. rewrite !Hz by done. repeat case_decide; try done. by subst.
Qed.

Lemma demo_ip_good : file_good demo_mounted demo_view demo_ip.
Proof.
  constructor; [exact demo_ip_addrs_ok|simpl; lia|].
  intros bn Hbn. simpl in Hbn. destruct bn as [|bn]; [|lia]. vm_compute. discriminate.
Qed.

Lemma demo_ip_sync : dinode_at (k_sb demo_mounted) demo_view (i_inum demo_ip) = inode_disk demo_ip.
Proof. rewrite demo_mounted_sb. vm_compute. reflexivity. Qed.

Lemma writei_readi_witness :
  ∃ s' V' ip', writei 0 [32; 119] 5 demo_mounted = Done 2 s' ∧ txn_rep s' ∅ V' 22 ∧ iframe 0 ip' demo_mounted s' ∧
    (∀ off2 n2, 0 ≤ off2 ≤ i_size ip' → 0 ≤ n2 → off2 + n2 < 4294967296 →
       ∃ s'', readi 0 off2 n2 s' =
         Done (n2 `min` (i_size ip' - off2),
               slice (splice (contents demo_view demo_ip) 5 [32; 119]) (Z.to_nat off2) (Z.to_nat n2)) s'') ∧
    dinode_at (k_sb demo_mounted) V' 1 = inode_disk ip' ∧ others_kept demo_mounted demo_view demo_ip V' ∧
    ∀ m, 0 ≤ m < sb_ninodes (k_sb demo_mounted) → m ≠ 1 →
      dinode_at (k_sb demo_mounted) V' m = dinode_at (k_sb demo_mounted) demo_view m.
Proof.
  apply (writei_readi (txn := txn_rep) demo_mounted demo_view 22 0 demo_ip [32; 119] 5 1).
  - exact demo_mounted_txn.
  - exact demo_mounted_geom.
  - exact demo_mounted_meta.
  - rewrite demo_mounted_icache. reflexivity.
  - split; [reflexivity|]. rewrite demo_mounted_sb. simpl. lia.
  - discriminate.
  - exact demo_ip_good.
  - exact demo_file_ok.
  - exact demo_ip_sync.
  - simpl. lia.
  - simpl. lia.
  - repeat constructor; unfold is_u8; lia.
  - simpl. lia.
  - pose proof demo_mounted_free. lia.
Defined.
