(* ===== verification/Dir.v ===== *)
(** Directories and path names: fs.c from [namecmp] to [nameiparent].

    A directory is a file of entries; [dirlookup] finds the first one with the
    name, and [dirlink] adds one that [dirlookup] then finds.
    [skipelem] takes the next element of a path, and [namex] follows it. *)

From S2P Require Import Prelude State Spinlock Cprintf Sched Bio Log Txn Inode Console Fs.
Import KLock.

(** * Directories *)

(** [strncmp] and [strncpy] on the bytes of a name; a list ends with a zero. *)
Fixpoint lstrncmp (n : nat) (p q : list Z) : Z :=
  match n with
  | O => 0
  | S n' =>
      let a := hd 0 p in
      let b := hd 0 q in
      if negb (a =? 0) && (a =? b) then lstrncmp n' (tl p) (tl q) else a - b
  end.

Fixpoint lstrncpy (n : nat) (t : list Z) : list Z :=
  match n with
  | O => []
  | S n' => if hd 0 t =? 0 then replicate n 0 else hd 0 t :: lstrncpy n' (tl t)
  end.

Definition namecmp (s t : list Z) : Z := lstrncmp DIRSIZ s t.

(** [struct dirent]. *)
Record dirent := mkDirent {
  de_inum : Z;
  de_name : list Z;
}.

Definition dirent_dec (bs : list Z) : dirent := mkDirent (le_dec (slice bs 0 2)) (slice bs 2 14).
Definition dirent_enc (de : dirent) : list Z := le_enc 2 (de_inum de) ++ de_name de.

(** The number of entries [off = 0, 16, ...] below the size. *)
Definition dirents (size : Z) : nat := Z.to_nat ((size + 15) / 16).

Definition dirlookup_body (dp : nat) (name : list Z) (j : nat) : K (option (nat * Z)) :=
  let off := 16 * Z.of_nat j in
  r <- readi dp off 16 ;;
  if negb (fst r =? 16) then panic "dirlookup read" else
  let de := dirent_dec (snd r) in
  if de_inum de =? 0 then ret None else
  if namecmp name (de_name de) =? 0 then
    ip <- inode_at dp ;;
    i <- iget (i_dev ip) (de_inum de) ;;
    ret (Some (i, off))
  else ret None.

(** The inode and the offset of its entry, or a null pointer. *)
Definition dirlookup (dp : nat) (name : list Z) : K (option (nat * Z)) :=
  ip <- inode_at dp ;;
  if negb (i_type ip =? T_DIR) then panic "dirlookup not DIR" else
  for_return (seq 0 (dirents (i_size ip))) (dirlookup_body dp name).

Definition dirlink_body (dp : nat) (j : nat) : K (option Z) :=
  let off := 16 * Z.of_nat j in
  r <- readi dp off 16 ;;
  if negb (fst r =? 16) then panic "dirlink read" else
  if de_inum (dirent_dec (snd r)) =? 0 then ret (Some off) else ret None.

Definition dirlink (dp : nat) (name : list Z) (inum : Z) : K Z :=
  r <- dirlookup dp name ;;
  match r with
  | Some (ip, _) => iput ip ;;; ret (-1)
  | None =>
      ip <- inode_at dp ;;
      o <- for_return (seq 0 (dirents (i_size ip))) (dirlink_body dp) ;;
      let off := default (16 * Z.of_nat (dirents (i_size ip))) o in
      let de := mkDirent (u16 inum) (lstrncpy DIRSIZ name) in
      w <- writei dp (dirent_enc de) off ;;
      if negb (w =? 16) then panic "dirlink" else ret 0
  end.

(** * Path names *)

Definition SLASH : Z := 47.

Fixpoint skip_slashes (path : list Z) : list Z :=
  match path with
  | c :: path' => if c =? SLASH then skip_slashes path' else path
  | [] => []
  end.

(** The bytes up to the next slash, and the rest. *)
Fixpoint span_elem (path : list Z) : list Z * list Z :=
  match path with
  | c :: path' => if c =? SLASH then ([], path) else let (a, b) := span_elem path' in (c :: a, b)
  | [] => ([], [])
  end.

(** The first element of a path, at most [DIRSIZ] bytes of it, and what follows. *)
Definition skipelem (path : list Z) : option (list Z * list Z) :=
  match skip_slashes path with
  | [] => None
  | path =>
      let (s, path) := span_elem path in
      Some (if (DIRSIZ <=? length s)%nat then take DIRSIZ s else s, skip_slashes path)
  end.

(** The loop of [namex]; each turn takes a byte of the path at least. *)
Fixpoint namex_loop (fuel : nat) (ip : nat) (path name : list Z) (nameiparent : bool) :
    K (option nat * list Z) :=
  match fuel with
  | O => diverge
  | S fuel' =>
      match skipelem path with
      | Some (name, path) =>
          ilock (Some ip) ;;;
          n <- inode_at ip ;;
          if negb (i_type n =? T_DIR) then iunlockput ip ;;; ret (None, name) else
          if nameiparent && (length path =? 0)%nat then iunlock (Some ip) ;;; ret (Some ip, name) else
          next <- dirlookup ip name ;;
          match next with
          | None => iunlockput ip ;;; ret (None, name)
          | Some (next, _) => iunlockput ip ;;; namex_loop fuel' next path name nameiparent
          end
      | None =>
          if (nameiparent : bool) then iput ip ;;; ret (None, name) else ret (Some ip, name)
      end
  end.

(** The inode, and the last element for [nameiparent]. *)
Definition namex (path : list Z) (nameiparent : bool) : K (option nat * list Z) :=
  ip <- (match path with
         | c :: _ => if c =? SLASH then iget ROOTDEV ROOTINO
                     else p <- myproc ;; pr <- proc_at p ;; cwd <- deref (p_cwd pr) ;; idup cwd
         | [] => p <- myproc ;; pr <- proc_at p ;; cwd <- deref (p_cwd pr) ;; idup cwd
         end) ;;
  namex_loop (S (length path)) ip path [] nameiparent.

Definition namei (path : list Z) : K (option nat) :=
  r <- namex path false ;; ret (fst r).

Definition nameiparent (path : list Z) : K (option nat * list Z) := namex path true.

(** * Names *)

(** The name in [DIRSIZ] bytes: what comes before a zero. *)
Definition dname (l : list Z) : list Z := cstr (take DIRSIZ l).

Lemma lstrncmp_eq n p q : Forall is_u8 p → Forall is_u8 q → lstrncmp n p q = 0 ↔ cstr (take n p) = cstr (take n q).
Proof.
  revert p q. induction n as [|n IH]; intros p q Hp Hq; [done|]. cbn [lstrncmp].
  destruct p as [|a p], q as [|b q]; cbn [hd tl take cstr]; try done.
  - inversion Hq as [|? ? Hb Hq']; subst. unfold is_u8 in Hb. simpl. destruct (Z.eqb_spec b 0); split; try done; lia.
  - inversion Hp as [|? ? Ha Hp']; subst. unfold is_u8 in Ha.
    destruct (Z.eqb_spec a 0) as [->|Ha0]; simpl; [done|]. split; [lia|done].
  - inversion Hp as [|? ? Ha Hp']; inversion Hq as [|? ? Hb Hq']; subst. unfold is_u8 in Ha, Hb.
    destruct (Z.eqb_spec a 0) as [->|Ha0]; simpl.
    + destruct (Z.eqb_spec b 0) as [->|Hb0]; [done|]. split; [lia|done].
    + destruct (Z.eqb_spec a b) as [->|Hab]; simpl.
      * rewrite (proj2 (Z.eqb_neq b 0)) by done. rewrite IH by done. split; [by intros ->|by intros [= ->]].
      * destruct (Z.eqb_spec b 0); split; try done; try lia. intros [= E _]. done.
Qed.

Lemma namecmp_eq p q : Forall is_u8 p → Forall is_u8 q → namecmp p q = 0 ↔ dname p = dname q.
Proof. apply lstrncmp_eq. Qed.

Lemma lstrncpy_name n t : cstr (lstrncpy n t) = cstr (take n t) ∧ length (lstrncpy n t) = n.
Proof.
  revert t. induction n as [|n IH]; intros t; [done|]. cbn [lstrncpy]. destruct t as [|c t]; cbn [hd tl take cstr].
  - change (0 =? 0) with true. simpl. by rewrite length_replicate.
  - destruct (Z.eqb_spec c 0) as [->|Hc]; simpl; [by rewrite length_replicate|].
    rewrite (proj2 (Z.eqb_neq c 0)) by done. destruct (IH t) as [-> ->]. done.
Qed.

Lemma lstrncpy_bytes n t : Forall is_u8 t → Forall is_u8 (lstrncpy n t).
Proof.
  revert t. induction n as [|n IH]; intros t Ht; [constructor|]. cbn [lstrncpy].
  assert (H0 : is_u8 0) by (unfold is_u8; lia). destruct (hd 0 t =? 0); [by apply Forall_replicate|].
  destruct Ht as [|c t Hc Ht]; cbn [hd tl]; constructor; auto.
Qed.

(** ** Path names *)

Definition slashes (l : list Z) : Prop := Forall (λ c, c = SLASH) l.

Lemma skip_slashes_spec path :
  ∃ a, path = a ++ skip_slashes path ∧ slashes a ∧ hd 0 (skip_slashes path) ≠ SLASH.
Proof.
  induction path as [|c path IH]; cbn [skip_slashes].
  - exists []. repeat split; try done. constructor.
  - destruct (Z.eqb_spec c SLASH) as [->|Hc].
    + destruct IH as (a & E & Ha & Hh). exists (SLASH :: a). split; [simpl; congruence|]. split; [by constructor|done].
    + exists []. split; [done|]. split; [constructor|done].
Qed.

Lemma span_elem_spec path :
  path = (span_elem path).1 ++ (span_elem path).2 ∧ (SLASH ∉ (span_elem path).1) ∧
  ((span_elem path).2 = [] ∨ hd 0 (span_elem path).2 = SLASH).
Proof.
  induction path as [|c path IH]; cbn [span_elem].
  - split; [done|]. split; [apply not_elem_of_nil|by left].
  - destruct (Z.eqb_spec c SLASH) as [->|Hc]; simpl.
    + split; [done|]. split; [apply not_elem_of_nil|by right].
    + destruct (span_elem path) as [a b]. simpl in *. destruct IH as (E & Ha & Hb).
      split; [congruence|]. split; [|done]. rewrite elem_of_cons. intros [?|?]; [congruence|done].
Qed.

(** Decomposition of paths.  When [skipelem] returns an element, the path is
    slashes, a nonempty element without slashes, more slashes (none only at
    the end) and the rest, which does not start with a slash; the name is the
    element cut to [DIRSIZ] bytes.  It returns null exactly on paths of
    slashes only. *)
Theorem skipelem_decomposes path :
  match skipelem path with
  | Some (name, rest) =>
      ∃ a el b, path = a ++ el ++ b ++ rest ∧ slashes a ∧ slashes b ∧ el ≠ [] ∧ (SLASH ∉ el) ∧
        name = take DIRSIZ el ∧ hd 0 rest ≠ SLASH ∧ (b = [] → rest = [])
  | None => slashes path
  end.
Proof.
  unfold skipelem. destruct (skip_slashes_spec path) as (a & E & Ha & Hh).
  destruct (skip_slashes path) as [|c p] eqn:Es.
  - rewrite app_nil_r in E. by subst.
  - destruct (span_elem_spec (c :: p)) as (E2 & Hn & Hr). destruct (span_elem (c :: p)) as [el r] eqn:Ep.
    simpl in E2, Hn, Hr. destruct (skip_slashes_spec r) as (b & E3 & Hb & Hh3).
    exists a, el, b. split; [rewrite <-E3, <-E2; done|]. do 2 (split; [done|]). split.
    { intros ->. simpl in E2. rewrite <-E2 in Hr. destruct Hr as [Hr|Hr]; [done|]. by rewrite Hr in Hh. }
    split; [done|]. split; [|split; [done|]].
    + destruct (DIRSIZ <=? length el)%nat eqn:El; [done|]. apply Nat.leb_gt in El. by rewrite take_ge by lia.
    + intros ->. simpl in E3. destruct Hr as [->|Hr]; [done|]. rewrite E3 in Hr. congruence.
Qed.

(** Each turn of the loop of [namex] makes the path shorter. *)
Lemma skipelem_shorter path name rest : skipelem path = Some (name, rest) → (length rest < length path)%nat.
Proof.
  intros E. unfold skipelem in E. destruct (skip_slashes_spec path) as (a & Ea & _ & _).
  destruct (skip_slashes path) as [|c p]; [done|]. destruct (span_elem_spec (c :: p)) as (E2 & _ & Hr).
  destruct (span_elem (c :: p)) as [el r] eqn:Ep. simpl in E2, Hr. injection E as _ <-.
  destruct (skip_slashes_spec r) as (b & E3 & _ & Hh). apply (f_equal length) in E3. rewrite length_app in E3.
  apply (f_equal length) in Ea, E2. rewrite length_app in Ea, E2. simpl in Ea, E2.
  destruct el as [|e el]; simpl in E2; [|lia]. destruct b as [|c' b]; simpl in E3; [|lia].
  exfalso. cbn [span_elem] in Ep. destruct (c =? SLASH) eqn:Ec; [|by destruct (span_elem p)].
  injection Ep as <-. simpl in Hh. rewrite Ec in Hh. destruct (skip_slashes_spec p) as (a' & Ea' & _).
  simpl in E3. rewrite Ec in E3. apply (f_equal length) in Ea'. rewrite length_app in Ea'. lia.
Qed.

(** * Directories as lists of entries *)

Definition dir_entry (V : Z → list Z) (ip : inode) (j : nat) : dirent :=
  dirent_dec (slice (contents V ip) (16 * j) 16).

Definition dir_entries (V : Z → list Z) (ip : inode) : list dirent :=
  dir_entry V ip <$> seq 0 (dirents (i_size ip)).

Lemma dir_entries_lookup V ip j de : dir_entries V ip !! j = Some de → dir_entry V ip j = de.
Proof.
  unfold dir_entries. rewrite list_lookup_fmap. intros (x & Hx & ->)%fmap_Some.
  by apply lookup_seq in Hx as [-> _].
Qed.

(** An entry in use with this name. *)
Definition entry_named (name : list Z) (de : dirent) : bool :=
  negb (de_inum de =? 0) && bool_decide (dname name = dname (de_name de)).

Record dir_good (s : kernel) (V : Z → list Z) (ip : inode) : Prop := mkDirGood {
  dg_type : i_type ip = T_DIR;
  dg_file : file_good s V ip;
  dg_size : i_size ip mod 16 = 0;
}.
Arguments dg_type {_ _ _} _.
Arguments dg_file {_ _ _} _.
Arguments dg_size {_ _ _} _.

Lemma sd_dir s s' V ip : same_disk s s' → dir_good s V ip → dir_good s' V ip.
Proof. intros SD [D1 D2 D3]. constructor; [done|by eapply sd_good|done]. Qed.

Lemma dirents_size s V ip j : dir_good s V ip → (j < dirents (i_size ip))%nat ↔ 16 * Z.of_nat j + 16 ≤ i_size ip.
Proof.
  intros D. pose proof (dg_size D). pose proof (fg_size (dg_file D)). unfold dirents. zdiv.
Qed.

Section dirs.
Context {txn : kernel → gmap nat Z → (Z → list Z) → nat → Prop} {T : BlockTxn txn}.

Lemma contents_bytes s H V k ip : txn s H V k → file_good s V ip → Forall is_u8 (contents V ip).
Proof.
  intros Ht FG. apply Forall_lookup. intros x y Hx. pose proof (lookup_lt_Some _ _ _ Hx) as Hl.
  rewrite length_contents in Hl. rewrite lookup_contents in Hx by done. injection Hx as <-.
  pose proof (fg_size FG). pose proof (Nat.div_mod x 512 ltac:(lia)) as Hdm.
  assert (Hbn : (x / 512 < 140)%nat) by (apply Nat.Div0.div_lt_upper_bound; lia).
  destruct (fo_block (fg_ok FG) (x / 512) Hbn) as [[_ [Hr _]] _]; [apply (fg_mapped FG); lia|].
  destruct (txn_block _ _ _ _ _ Ht Hr) as [Hlen Hb]. unfold fbyte.
  destruct (lookup_lt_is_Some_2 (V (block_of V (i_addrs ip) (x / 512))) (x mod 512)) as [y Hy].
  { rewrite Hlen. apply Nat.mod_upper_bound. lia. }
  rewrite (nth_lookup_Some _ _ _ _ Hy). by eapply Forall_lookup_1.
Qed.

(** Reading entry [j]. *)
Lemma read_entry s V k dp ip j :
  txn s ∅ V k → fs_geom s → k_icache s !! dp = Some ip → i_dev ip = 1 → dir_good s V ip →
  (j < dirents (i_size ip))%nat →
  ∃ s', readi dp (16 * Z.of_nat j) 16 s = Done (16, slice (contents V ip) (16 * j) 16) s' ∧ txn s' ∅ V k ∧ tframe s s'.
Proof.
  intros Ht G Hi Hdev D Hj. apply (dirents_size s V ip j D) in Hj. pose proof (fg_size (dg_file D)).
  destruct (readi_ok s V k dp ip (16 * Z.of_nat j) 16) as (s' & E & R); try done; try lia.
  - by rewrite (dg_type D).
  - apply D.
  - exists s'. split; [|done]. rewrite E. f_equal. f_equal; [lia|]. f_equal. lia.
Qed.

(** The bytes of an entry and its name. *)
Lemma entry_bytes s V k ip j : txn s ∅ V k → dir_good s V ip → Forall is_u8 (de_name (dir_entry V ip j)).
Proof.
  intros Ht D. unfold dir_entry, dirent_dec. simpl. apply Forall_slice, Forall_slice.
  eapply contents_bytes; [done|apply D].
Qed.

(** One turn of the loop of [dirlookup]. *)
Lemma dirlookup_turn s V k dp ip name j :
  txn s ∅ V k → fs_geom s → k_icache s !! dp = Some ip → i_dev ip = 1 → dir_good s V ip → Forall is_u8 name →
  (j < dirents (i_size ip))%nat →
  ∃ s1, txn s1 ∅ V k ∧ tframe s s1 ∧
    if entry_named name (dir_entry V ip j)
    then ∀ i s2, iget 1 (de_inum (dir_entry V ip j)) s1 = Done i s2 →
           dirlookup_body dp name j s = Done (Some (i, 16 * Z.of_nat j)) s2
    else dirlookup_body dp name j s = Done None s1.
Proof.
  intros Ht G Hi Hdev D Hn Hj. destruct (read_entry s V k dp ip j) as (s1 & E1 & T1 & F1); try done.
  exists s1. split; [done|]. split; [done|]. unfold dirlookup_body. erewrite bind_done by exact E1.
  cbn [fst snd]. change (negb (16 =? 16)) with false. cbn iota. fold (dir_entry V ip j).
  unfold entry_named. destruct (de_inum (dir_entry V ip j) =? 0); cbn [negb andb]; [done|].
  pose proof (namecmp_eq name (de_name (dir_entry V ip j)) Hn (entry_bytes s V k ip j Ht D)) as Hc.
  case_bool_decide as Hd.
  - intros i s2 Eg. rewrite (proj2 Hc Hd). cbn [Z.eqb]. erewrite bind_done.
    2:{ apply inode_at_ok. by rewrite (tframe_icache _ _ F1). }
    rewrite Hdev. by erewrite bind_done by exact Eg.
  - rewrite (proj2 (Z.eqb_neq _ 0)); [done|]. intros E. by apply Hd, Hc.
Qed.

Lemma dirlookup_loop s V k dp ip name n j :
  txn s ∅ V k → fs_geom s → k_icache s !! dp = Some ip → i_dev ip = 1 → dir_good s V ip → Forall is_u8 name →
  (j + n ≤ dirents (i_size ip))%nat →
  ∃ s1, txn s1 ∅ V k ∧ tframe s s1 ∧
    match find_index (entry_named name) (dir_entry V ip <$> seq j n) with
    | Some m => ∀ i s2, iget 1 (de_inum (dir_entry V ip (j + m))) s1 = Done i s2 →
        for_return (seq j n) (dirlookup_body dp name) s = Done (Some (i, 16 * Z.of_nat (j + m))) s2
    | None => for_return (seq j n) (dirlookup_body dp name) s = Done None s1
    end.
Proof.
  revert j s. induction n as [|n IH]; intros j s Ht G Hi Hdev D Hn Hj.
  { exists s. split; [done|]. split; [apply tframe_refl|done]. }
  cbn [seq for_return]. rewrite fmap_cons. cbn [find_index].
  destruct (dirlookup_turn s V k dp ip name j) as (s1 & T1 & F1 & E1); try done; [lia|].
  destruct (entry_named name (dir_entry V ip j)).
  - exists s1. split; [done|]. split; [done|]. rewrite Nat.add_0_r. intros i s2 Eg.
    by erewrite bind_done by (by apply E1).
  - destruct (IH (S j) s1) as (s2 & T2 & F2 & E2); try done.
    + by eapply fs_geom_frame.
    + by rewrite (tframe_icache _ _ F1).
    + eapply sd_dir; [by apply same_disk_tframe|done].
    + lia.
    + exists s2. split; [done|]. split; [by eapply tframe_trans|].
      destruct (find_index (entry_named name) (dir_entry V ip <$> seq (S j) n)) as [m|]; simpl.
      * intros i s3 Eg. erewrite bind_done by exact E1.
        replace (j + S m)%nat with (S j + m)%nat in * by lia. by apply E2.
      * by erewrite bind_done by exact E1.
Qed.

Lemma dirlookup_ok s V k dp ip name :
  txn s ∅ V k → fs_geom s → k_icache s !! dp = Some ip → i_dev ip = 1 → dir_good s V ip → Forall is_u8 name →
  ∃ s1, txn s1 ∅ V k ∧ tframe s s1 ∧
    match find_index (entry_named name) (dir_entries V ip) with
    | Some m => ∀ i s2, iget 1 (de_inum (dir_entry V ip m)) s1 = Done i s2 →
        dirlookup dp name s = Done (Some (i, 16 * Z.of_nat m)) s2
    | None => dirlookup dp name s = Done None s1
    end.
Proof.
  intros Ht G Hi Hdev D Hn. unfold dirlookup.
  destruct (dirlookup_loop s V k dp ip name (dirents (i_size ip)) 0) as (s1 & T1 & F1 & E1); try done.
  exists s1. split; [done|]. split; [done|]. unfold dir_entries in *.
  destruct (find_index _ _); [intros i s2 Eg|]; (erewrite bind_done by (by apply inode_at_ok));
    rewrite (dg_type D); change (negb (T_DIR =? T_DIR)) with false; cbn iota; [by apply E1|exact E1].
Qed.

Lemma dirlink_loop s V k dp ip n j :
  txn s ∅ V k → fs_geom s → k_icache s !! dp = Some ip → i_dev ip = 1 → dir_good s V ip →
  (j + n ≤ dirents (i_size ip))%nat →
  ∃ s1, txn s1 ∅ V k ∧ tframe s s1 ∧
    for_return (seq j n) (dirlink_body dp) s =
      Done ((λ m, 16 * Z.of_nat (j + m)) <$> find_index (λ de, de_inum de =? 0) (dir_entry V ip <$> seq j n)) s1.
Proof.
  revert j s. induction n as [|n IH]; intros j s Ht G Hi Hdev D Hj.
  { exists s. split; [done|]. split; [apply tframe_refl|done]. }
  cbn [seq for_return]. rewrite fmap_cons. cbn [find_index].
  destruct (read_entry s V k dp ip j) as (s1 & E1 & T1 & F1); try done; [lia|].
  unfold dirlink_body at 1. unfold bind at 1, bind at 1. rewrite E1. cbn [obind fst snd].
  change (negb (16 =? 16)) with false. cbn iota. fold (dir_entry V ip j).
  destruct (de_inum (dir_entry V ip j) =? 0).
  - exists s1. split; [done|]. split; [done|]. simpl. unfold ret. simpl. do 3 f_equal. lia.
  - destruct (IH (S j) s1) as (s2 & T2 & F2 & E2); try done.
    + by eapply fs_geom_frame.
    + by rewrite (tframe_icache _ _ F1).
    + eapply sd_dir; [by apply same_disk_tframe|done].
    + lia.
    + exists s2. split; [done|]. split; [by eapply tframe_trans|]. unfold ret. cbn [obind]. rewrite E2. f_equal.
      destruct (find_index _ _); [|done]. simpl. f_equal. lia.
Qed.
End dirs.

(** The entry that [dirlink] writes, and the list of entries after it. *)
Definition new_entry (name : list Z) (inum : Z) : dirent := mkDirent (u16 inum) (lstrncpy DIRSIZ name).

Definition free_slot (des : list dirent) : nat :=
  default (length des) (find_index (λ de, de_inum de =? 0) des).

Definition add_entry (de : dirent) (des : list dirent) : list dirent :=
  if (free_slot des <? length des)%nat then <[free_slot des := de]> des else des ++ [de].

Lemma length_dirent_enc name inum : length (dirent_enc (new_entry name inum)) = 16%nat.
Proof.
  unfold dirent_enc, new_entry. cbn [de_inum de_name].
  by rewrite length_app, length_le_enc, (proj2 (lstrncpy_name _ _)).
Qed.

Lemma dirent_dec_enc name inum : dirent_dec (dirent_enc (new_entry name inum)) = new_entry name inum.
Proof.
  unfold dirent_dec, dirent_enc, new_entry. cbn [de_inum de_name]. destruct (lstrncpy_name DIRSIZ name) as [_ Hl].
  f_equal.
  - change (slice (le_enc 2 (u16 inum) ++ lstrncpy DIRSIZ name) 0 2) with (le_enc 2 (u16 inum)).
    rewrite le_dec_enc2. unfold u16. by rewrite Z.mod_mod.
  - pose proof (slice_app_r (le_enc 2 (u16 inum)) (lstrncpy DIRSIZ name) 0 14) as E.
    rewrite Nat.add_0_r, length_le_enc in E. rewrite E. unfold slice. rewrite drop_0. apply take_ge. by rewrite Hl.
Qed.

Lemma free_slot_le des : (free_slot des ≤ length des)%nat.
Proof.
  unfold free_slot. destruct (find_index _ des) as [m|] eqn:E; simpl; [|lia]. apply find_index_lt in E. lia.
Qed.

(** The entries of a directory after a write of one entry. *)
Lemma splice_entry (c : list Z) (n m j : nat) e :
  length c = (16 * n)%nat → (m ≤ n)%nat → length e = 16%nat →
  slice (splice c (16 * m) e) (16 * j) 16 = if decide (j = m) then e else slice c (16 * j) 16.
Proof.
  intros Hl Hm He. apply list_eq. intros i. rewrite lookup_slice. case_decide as Hi.
  - rewrite lookup_splice_ext by lia. destruct (decide (j = m)) as [->|Hne].
    + rewrite decide_True by lia. f_equal. lia.
    + rewrite decide_False by lia. by rewrite lookup_slice, decide_True by done.
  - case_decide; [symmetry; apply lookup_ge_None; lia|]. by rewrite lookup_slice, decide_False.
Qed.

Lemma length_splice_ext {A} (c : list A) off e :
  (off ≤ length c)%nat → length (splice c off e) = Nat.max (length c) (off + length e).
Proof. intros H. unfold splice. rewrite !length_app, length_take, length_drop. lia. Qed.

Lemma entries_added V ip V' ip' de m :
  let des := dir_entries V ip in
  0 ≤ i_size ip → 0 ≤ i_size ip' → i_size ip mod 16 = 0 → m = free_slot des →
  length (dirent_enc de) = 16%nat → dirent_dec (dirent_enc de) = de →
  contents V' ip' = splice (contents V ip) (16 * m) (dirent_enc de) →
  dir_entries V' ip' = add_entry de des ∧ i_size ip' mod 16 = 0.
Proof.
  intros des H0 H0' Hmod Hm Hl Hdec Hc.
  assert (Hn : length des = Z.to_nat (i_size ip / 16)).
  { unfold des, dir_entries. rewrite length_fmap, length_seq. unfold dirents. f_equal. zdiv. }
  assert (Hlc : length (contents V ip) = (16 * length des)%nat).
  { rewrite length_contents, Hn. zdiv. }
  pose proof (free_slot_le des) as Hle. rewrite <-Hm in Hle.
  assert (Hsz : Z.to_nat (i_size ip') = (16 * Nat.max (length des) (m + 1))%nat).
  { rewrite <-(length_contents V' ip'), Hc, length_splice_ext by lia. lia. }
  split; [|zdiv].
  assert (Hn' : dirents (i_size ip') = Nat.max (length des) (m + 1)) by (unfold dirents; zdiv).
  assert (He : ∀ j, dir_entry V' ip' j = if decide (j = m) then de else dir_entry V ip j).
  { intros j. unfold dir_entry. rewrite Hc, (splice_entry _ (length des)) by done. by case_decide. }
  apply list_eq. intros j. unfold dir_entries at 1. rewrite Hn', list_lookup_fmap.
  unfold add_entry. rewrite <-Hm.
  assert (Hdes : ∀ j, (j < length des)%nat → des !! j = Some (dir_entry V ip j)).
  { intros j' Hj'. unfold des, dir_entries in *. rewrite length_fmap, length_seq in Hj'.
    by rewrite list_lookup_fmap, lookup_seq_lt. }
  destruct (Nat.ltb_spec m (length des)) as [Hlt|Hge].
  - destruct (decide (j < length des)%nat) as [Hj|Hj].
    + rewrite lookup_seq_lt by lia. simpl. rewrite He. case_decide as E.
      * subst j. by rewrite list_lookup_insert_eq by done.
      * rewrite list_lookup_insert_ne by done. by rewrite Hdes.
    + rewrite lookup_seq_ge by lia. symmetry. apply lookup_ge_None. rewrite length_insert. lia.
  - assert (Em : m = length des) by lia. destruct (decide (j < length des)%nat) as [Hj|Hj].
    + rewrite lookup_seq_lt by lia. simpl. rewrite He, decide_False by lia. by rewrite lookup_app_l, Hdes by lia.
    + destruct (decide (j = m)) as [->|Hne].
      * rewrite lookup_seq_lt by lia. simpl. rewrite He, decide_True by done.
        rewrite lookup_app_r by lia. by rewrite Em, Nat.sub_diag.
      * rewrite lookup_seq_ge by lia. symmetry. apply lookup_ge_None. rewrite length_app. simpl. lia.
Qed.

Lemma entry_named_new name inum : u16 inum ≠ 0 → entry_named name (new_entry name inum) = true.
Proof.
  intros H. unfold entry_named, new_entry. cbn [de_inum de_name]. rewrite (proj2 (Z.eqb_neq _ 0)) by done.
  cbn [negb andb]. apply bool_decide_eq_true. unfold dname. destruct (lstrncpy_name DIRSIZ name) as [E Hl].
  by rewrite (take_ge (lstrncpy _ _)), E by (by rewrite Hl).
Qed.

(** The entry added is the first with its name. *)
Lemma find_added name inum des :
  u16 inum ≠ 0 → find_index (entry_named name) des = None →
  find_index (entry_named name) (add_entry (new_entry name inum) des) = Some (free_slot des).
Proof.
  intros Hi Hno. pose proof (free_slot_le des) as Hle. apply find_index_Some. unfold add_entry. split.
  - exists (new_entry name inum). split; [|by apply entry_named_new].
    destruct (Nat.ltb_spec (free_slot des) (length des)); [by apply list_lookup_insert_eq|].
    rewrite lookup_app_r by lia. by replace (free_slot des - length des)%nat with 0%nat by lia.
  - intros j y Hj Hy. apply (proj1 (find_index_None _ _) Hno j).
    destruct (Nat.ltb_spec (free_slot des) (length des)).
    + by rewrite list_lookup_insert_ne in Hy by lia.
    + by rewrite lookup_app_l in Hy by lia.
Qed.

Section dirlink.
Context {txn : kernel → gmap nat Z → (Z → list Z) → nat → Prop} {T : BlockTxn txn}.

(** A directory that is locked and loaded, with room in the log and on the disk. *)
Record dir_open (s : kernel) (V : Z → list Z) (dp : nat) (ip : inode) (k : nat) : Prop := mkDirOpen {
  dop_txn : txn s ∅ V k;
  dop_geom : fs_geom s;
  dop_meta : meta_used s V;
  dop_ic : k_icache s !! dp = Some ip;
  dop_on : on_disk s ip;
  dop_dir : dir_good s V ip;
  dop_ok : dinode_ok (inode_disk ip);
  dop_sync : dinode_at (k_sb s) V (i_inum ip) = inode_disk ip;
}.
Arguments dop_txn {_ _ _ _ _} _.
Arguments dop_geom {_ _ _ _ _} _.
Arguments dop_meta {_ _ _ _ _} _.
Arguments dop_ic {_ _ _ _ _} _.
Arguments dop_on {_ _ _ _ _} _.
Arguments dop_dir {_ _ _ _ _} _.
Arguments dop_ok {_ _ _ _ _} _.
Arguments dop_sync {_ _ _ _ _} _.

Lemma dir_open_frame s s' V dp ip k k' :
  tframe s s' → txn s' ∅ V k' → dir_open s V dp ip k → dir_open s' V dp ip k'.
Proof.
  intros F Ht [D1 D2 D3 D4 D5 D6 D7 D8]. pose proof (same_disk_tframe _ _ F) as SD. constructor; try done.
  - by apply (sd_geom SD).
  - by apply (sd_meta SD).
  - by rewrite (tframe_icache _ _ F).
  - unfold on_disk. by rewrite (tframe_sb _ _ F).
  - by eapply sd_dir.
  - by rewrite (tframe_sb _ _ F).
Qed.

Lemma dirlink_ok s V k dp ip name inum :
  dir_open s V dp ip (6 + S k) → Forall is_u8 name → find_index (entry_named name) (dir_entries V ip) = None →
  i_size ip + 16 ≤ 71680 → (2 ≤ nfree s V)%nat →
  ∃ s' V' ip', dirlink dp name inum s = Done 0 s' ∧ dir_open s' V' dp ip' k ∧ iframe dp ip' s s' ∧
    dir_entries V' ip' = add_entry (new_entry name inum) (dir_entries V ip) ∧ others_kept s V ip V'.
Proof.
  intros D Hn Hno Hsz Hfree. pose proof (fg_size (dg_file (dop_dir D))) as Hs. destruct (dop_on D) as [Hdev Hinum].
  destruct (dirlookup_ok s V _ dp ip name (dop_txn D) (dop_geom D) (dop_ic D) Hdev (dop_dir D) Hn) as (s1 & T1 & F1 & E1).
  rewrite Hno in E1. pose proof (dir_open_frame _ _ _ _ _ _ _ F1 T1 D) as D1.
  destruct (dirlink_loop s1 V _ dp ip (dirents (i_size ip)) 0 T1 (dop_geom D1) (dop_ic D1) Hdev (dop_dir D1))
    as (s2 & T2 & F2 & E2); [lia|]. pose proof (dir_open_frame _ _ _ _ _ _ _ F2 T2 D1) as D2.
  pose proof (tframe_trans _ _ _ F1 F2) as F. pose proof (same_disk_tframe _ _ F) as SD.
  set (des := dir_entries V ip) in *. set (m := free_slot des).
  assert (Em : default (16 * Z.of_nat (dirents (i_size ip))) ((λ m, 16 * Z.of_nat (0 + m)) <$>
    find_index (λ de, de_inum de =? 0) des) = 16 * Z.of_nat m).
  { unfold m, free_slot. assert (Hl : length des = dirents (i_size ip)).
    { unfold des, dir_entries. by rewrite length_fmap, length_seq. }
    rewrite Hl. by destruct (find_index (λ de, de_inum de =? 0) des). }
  assert (Hmle : 16 * Z.of_nat m ≤ i_size ip).
  { pose proof (free_slot_le des) as Hle. fold m in Hle. unfold des, dir_entries in Hle.
    rewrite length_fmap, length_seq in Hle. pose proof (dg_size (dop_dir D)). unfold dirents in Hle. zdiv. }
  pose proof (length_dirent_enc name inum) as Hle16.
  destruct (writei_ok s2 V k dp ip (dirent_enc (new_entry name inum)) (16 * Z.of_nat m) 1)
    as (s3 & V3 & ip3 & E3 & T3 & F3 & Eip & C3 & FG3 & Hsy & Hoth & _); try apply D2; try lia.
  { by rewrite (dg_type (dop_dir D2)). }
  { apply Forall_app. split; [apply le_enc_bytes|by apply lstrncpy_bytes]. }
  { rewrite Hle16. replace (Z.to_nat (16 * Z.of_nat m)) with (m * 16)%nat by lia.
    change 512%nat with (32 * 16)%nat. rewrite Nat.Div0.mul_mod_distr_r.
    pose proof (Nat.mod_upper_bound m 32 ltac:(lia)). lia. }
  { by rewrite (sd_nfree SD). }
  replace (Z.to_nat (16 * Z.of_nat m)) with (16 * m)%nat in C3 by lia.
  pose proof (fg_size FG3) as Hs3. pose proof (dg_size (dop_dir D)) as Hmod.
  destruct (entries_added V ip V3 ip3 (new_entry name inum) m) as [Hent Hmod3];
    try done; [lia|lia|by apply dirent_dec_enc|].
  pose proof (iframe_same _ _ _ _ F3) as SD3. pose proof (same_disk_trans _ _ _ SD SD3) as SD'.
  pose proof (f_equal i_dev Eip) as Ed3. pose proof (f_equal i_inum Eip) as En3.
  pose proof (f_equal i_type Eip) as Et3. cbn [i_dev i_inum i_type with_i_size with_i_addrs] in Ed3, En3, Et3.
  exists s3, V3, ip3. split; [|split; [|split; [|split; [done|]]]].
  - unfold dirlink. erewrite bind_done by exact E1. cbn iota. erewrite bind_done by (apply inode_at_ok, (dop_ic D1)).
    erewrite bind_done by exact E2. unfold des, dir_entries in Em. rewrite Em. fold (new_entry name inum).
    erewrite bind_done by exact E3. by rewrite Hle16.
  - assert (Esb : k_sb s3 = k_sb s) by apply SD'. constructor; try done.
    + by apply (sd_geom SD'), D.
    + intros b Hb. unfold data_start in Hb. destruct SD' as (_ & Edk & _). rewrite Esb, Edk in *.
      assert (Hu : in_use s V b).
      { split; [|by apply (dop_meta D)]. destruct (dop_geom D) as (_ & _ & _ & _ & _ & _ & _ & ?). unfold data_start in *. lia. }
      destruct SD as (E1' & E2' & _). unfold others_kept, in_use in *. rewrite E1', E2' in Hoth. by apply (proj1 Hoth).
    + eapply iframe_lookup; [done|apply D2].
    + split; [by rewrite Ed3|]. rewrite Esb, En3. done.
    + constructor; [by rewrite Et3, (dg_type (dop_dir D))|exact (sd_good _ _ _ _ SD3 FG3)|done].
    + rewrite Eip. apply dinode_ok_addrs; [apply D|apply (fo_len (fg_ok FG3))|apply (fo_u32 (fg_ok FG3))|unfold is_u32; lia].
    + rewrite Esb, En3. by rewrite (tframe_sb _ _ F) in Hsy.
  - eapply iframe_trans; [|exact F3]. apply iframe_tframe; [apply D|done].
  - destruct SD as (E1' & E2' & _). unfold others_kept, in_use, data_start in *. by rewrite E1', E2' in Hoth.
Qed.

(** C9: [dirlink] adds an entry that [dirlookup] finds.  In a directory without
    the name, [dirlink] stores the entry in the first unused slot, or at the
    end, and leaves every other entry as it was; [dirlookup] of the name then
    returns the inode that [iget] gives for the number linked, at the offset
    of that slot. *)
Theorem dirlink_dirlookup s V k dp ip name inum :
  dir_open s V dp ip (6 + S k) → Forall is_u8 name → find_index (entry_named name) (dir_entries V ip) = None →
  i_size ip + 16 ≤ 71680 → (2 ≤ nfree s V)%nat → 1 ≤ inum < 65536 →
  ∃ s' V' ip' s1, dirlink dp name inum s = Done 0 s' ∧ txn s' ∅ V' k ∧ iframe dp ip' s s' ∧
    dir_entries V' ip' = add_entry (new_entry name inum) (dir_entries V ip) ∧ others_kept s V ip V' ∧
    tframe s' s1 ∧
    ∀ i s2, iget 1 inum s1 = Done i s2 →
      dirlookup dp name s' = Done (Some (i, 16 * Z.of_nat (free_slot (dir_entries V ip)))) s2.
Proof.
  intros D Hn Hno Hsz Hfree Hi. assert (Hu : u16 inum = inum) by (apply u16_small; lia).
  destruct (dirlink_ok s V k dp ip name inum) as (s' & V' & ip' & E & D' & F & Hent & Hoth); try done.
  destruct (dirlookup_ok s' V' k dp ip' name (dop_txn D') (dop_geom D') (dop_ic D') (proj1 (dop_on D')) (dop_dir D') Hn)
    as (s1 & T1 & F1 & E1).
  rewrite Hent, find_added in E1 by (done || lia).
  exists s', V', ip', s1. do 2 (split; [done || apply D'|]). do 4 (split; [done|]). intros i s2 Eg. apply E1.
  assert (Hl : dir_entries V' ip' !! free_slot (dir_entries V ip) = Some (new_entry name inum)).
  { rewrite Hent. unfold add_entry. pose proof (free_slot_le (dir_entries V ip)).
    destruct (Nat.ltb_spec (free_slot (dir_entries V ip)) (length (dir_entries V ip))).
    - by apply list_lookup_insert_eq.
    - rewrite lookup_app_r by lia. by replace (_ - _)%nat with 0%nat by lia. }
  rewrite (dir_entries_lookup _ _ _ _ Hl). by rewrite <-Hu in Eg.
Qed.
End dirlink.

(** ** Witness *)

Lemma demo_dp_open : dir_open (txn := txn_rep) demo_mounted demo_view 2 demo_dp 29.
Proof.
  assert (Hz : ∀ bn, (bn < 140)%nat → block_of demo_view (i_addrs demo_dp) bn = 0).
  { intros bn Hbn. unfold block_of. change (ind_of (i_addrs demo_dp)) with 0. cbn [Z.eqb].
    destruct (Nat.ltb_spec bn 12); [|done]. rewrite nth_lookup.
    destruct (i_addrs demo_dp !! bn) as [x|] eqn:E; [|done]. by apply lookup_replicate in E as [-> _]. }
  constructor.
  - exact demo_mounted_txn.
  - exact demo_mounted_geom.
  - exact demo_mounted_meta.
  - rewrite demo_mounted_icache. reflexivity.
  - split; [reflexivity|]. rewrite demo_mounted_sb. simpl. lia.
  - constructor; [reflexivity| |reflexivity]. constructor; [|simpl; lia|intros bn Hbn; simpl in Hbn; lia].
    constructor.
    + reflexivity.
    + repeat constructor; unfold is_u32; lia.
    + done.
    + intros bn Hbn. by rewrite Hz.
    + intros bn bn' H1 H2. by rewrite Hz.
  - constructor; simpl; unfold is_short, is_u32, T_DIR; try lia. repeat constructor; lia.
  - rewrite demo_mounted_sb. vm_compute. reflexivity.
Qed.

Lemma dirlink_dirlookup_witness :
  ∃ s' V' ip' s1, dirlink 2 [97; 98] 1 demo_mounted = Done 0 s' ∧ txn_rep s' ∅ V' 22 ∧ iframe 2 ip' demo_mounted s' ∧
    dir_entries V' ip' = add_entry (new_entry [97; 98] 1) (dir_entries demo_view demo_dp) ∧
    others_kept demo_mounted demo_view demo_dp V' ∧ tframe s' s1 ∧
    ∀ i s2, iget 1 1 s1 = Done i s2 →
      dirlookup 2 [97; 98] s' = Done (Some (i, 16 * Z.of_nat (free_slot (dir_entries demo_view demo_dp)))) s2.
Proof.
  apply (dirlink_dirlookup (txn := txn_rep) demo_mounted demo_view 22 2 demo_dp [97; 98] 1).
  - exact demo_dp_open.
  - repeat constructor; unfold is_u8; lia.
  - reflexivity.
  - simpl. lia.
  - pose proof demo_mounted_free. lia.
  - lia.
Defined.
