(* ===== verification/Mkfs.v ===== *)
(** The program that makes the initial file system: mkfs.c.

    The image is the list of its blocks, which [wsect] overwrites or extends
    and [rsect] reads; leaving the program with an error (a message of
    [perror], or an [assert]) is the outcome [Panicked].  The files of the
    host are arguments: for each name of the command line, what [open] and the
    calls of [read] give.  What the program prints is left out.

    [iappend] is shown to append to one file and to leave the others alone;
    from that, that the image satisfies the invariants the kernel's file
    system relies on (those of Inode, Fs and Dir), that its root directory
    lists the files, and that each file holds the bytes that were read. *)

From S2P Require Import Prelude State Bio Log Txn Inode Fs Dir.

(** * The program *)

Definition NINODES : Z := 200.
Definition nbitmap : Z := FSSIZE / (BSIZE * 8) + 1.
Definition ninodeblocks : Z := NINODES / IPB + 1.
Definition nlog : Z := LOGSIZE.

(** The globals: the image, the superblock, [freeinode] and [freeblock]. *)
Record mkfs := mkMkfs {
  m_img : list (list Z);
  m_sb : superblock;
  m_freeinode : Z;
  m_freeblock : Z;
}.
Definition with_m_img (v : list (list Z)) (r : mkfs) : mkfs :=
  mkMkfs v (m_sb r) (m_freeinode r) (m_freeblock r).
Definition with_m_sb (v : superblock) (r : mkfs) : mkfs :=
  mkMkfs (m_img r) v (m_freeinode r) (m_freeblock r).
Definition with_m_freeinode (v : Z) (r : mkfs) : mkfs :=
  mkMkfs (m_img r) (m_sb r) v (m_freeblock r).
Definition with_m_freeblock (v : Z) (r : mkfs) : mkfs :=
  mkMkfs (m_img r) (m_sb r) (m_freeinode r) v.

Abbreviation M := (prog mkfs).

(** The bytes are stored lowest first; the host, an x86, reads them back so. *)
Definition xshort (x : Z) : Z := le_dec (le_enc 2 x).
Definition xint (x : Z) : Z := le_dec (le_enc 4 x).

(** [assert]. *)
Definition assert_ (b : bool) : M unit := if b then ret tt else panic "assert".

(** The block at [lseek(fsfd, sec * BSIZE, 0)]. *)
Definition sect (sec : Z) : nat := Z.to_nat (u32 (sec * BSIZE) / BSIZE).

(** A write past the end of the file leaves a hole of zeros. *)
Definition write_block (img : list (list Z)) (i : nat) (buf : list Z) : list (list Z) :=
  if (i <? length img)%nat then <[i := buf]> img
  else img ++ replicate (i - length img) (replicate (Z.to_nat BSIZE) 0) ++ [buf].

Definition wsect (sec : Z) (buf : list Z) : M unit :=
  modify (λ s, with_m_img (write_block (m_img s) (sect sec) buf) s).

(** A read past the end of the file is short. *)
Definition rsect (sec : Z) : M (list Z) :=
  s <- get ;;
  match m_img s !! sect sec with
  | Some buf => ret buf
  | None => panic "read"
  end.

Definition winode (inum : Z) (ip : dinode) : M unit :=
  sb <- gets m_sb ;;
  let bn := IBLOCK inum sb in
  buf <- rsect bn ;;
  wsect bn (splice buf (dinode_off inum) (dinode_enc ip)).

Definition rinode (inum : Z) : M dinode :=
  sb <- gets m_sb ;;
  let bn := IBLOCK inum sb in
  buf <- rsect bn ;;
  ret (dinode_dec buf (dinode_off inum)).

Definition ialloc (type : Z) : M Z :=
  inum <- gets m_freeinode ;;
  modify (with_m_freeinode (u32 (inum + 1))) ;;;
  winode inum (mkDinode (s16 (xshort type)) 0 0 (s16 (xshort 1)) (xint 0) (replicate 13 0)) ;;;
  ret inum.

(** The bitmap with the bits [0..used-1] set. *)
Definition bitmap (used : Z) : list Z :=
  foldl (λ buf i, set_bit i buf) (replicate (Z.to_nat BSIZE) 0) (seq 0 (Z.to_nat used)).

Definition balloc (used : Z) : M unit :=
  assert_ (used <? BSIZE * 8) ;;;
  sb <- gets m_sb ;;
  wsect (sb_bmapstart sb) (bitmap used).

(** [freeblock++]. *)
Definition take_block : M Z :=
  fb <- gets m_freeblock ;;
  modify (with_m_freeblock (u32 (fb + 1))) ;;;
  ret fb.

(** The address of block [fbn] in the indirect block [ind], a new block if there is none. *)
Definition append_entry (ind : Z) (fbn : nat) : M Z :=
  indirect <- rsect ind ;;
  let off := (4 * (fbn - 12))%nat in
  indirect <- (if rd_uint indirect off =? 0 then
                 b <- take_block ;;
                 let indirect := wr_int indirect off (xint b) in
                 wsect ind indirect ;;;
                 ret indirect
               else ret indirect) ;;
  ret (xint (rd_uint indirect off)).

(** [iappend] up to the block [x] of the disk that holds block [fbn] of the file. *)
Definition append_block (fbn : nat) (din : dinode) : M (Z * dinode) :=
  let new_addr k := b <- take_block ;; ret (with_d_addrs (<[k := xint b]> (d_addrs din)) din) in
  if Z.of_nat fbn <? NDIRECT then
    din <- (if xint (nth fbn (d_addrs din) 0) =? 0 then new_addr fbn else ret din) ;;
    ret (xint (nth fbn (d_addrs din) 0), din)
  else
    din <- (if xint (nth 12 (d_addrs din) 0) =? 0 then new_addr 12%nat else ret din) ;;
    x <- append_entry (xint (nth 12 (d_addrs din) 0)) fbn ;;
    ret (x, din).

(** The loop of [iappend] on the bytes [p] that are left. *)
Fixpoint iappend_loop (fuel : nat) (p : list Z) (off : Z) (din : dinode) : M (Z * dinode) :=
  match fuel with
  | O => diverge
  | S fuel' =>
      match p with
      | [] => ret (off, din)
      | _ =>
          let fbn := off / BSIZE in
          assert_ (fbn <? MAXFILE) ;;;
          r <- append_block (Z.to_nat fbn) din ;;
          let x := fst r in
          let n1 := Z.to_nat (Z.of_nat (length p) `min` ((fbn + 1) * BSIZE - off)) in
          buf <- rsect x ;;
          wsect x (splice buf (Z.to_nat (off - fbn * BSIZE)) (take n1 p)) ;;;
          iappend_loop fuel' (drop n1 p) (u32 (off + Z.of_nat n1)) (snd r)
      end
  end.

Definition iappend (inum : Z) (p : list Z) : M unit :=
  din <- rinode inum ;;
  r <- iappend_loop (S (length p)) p (xint (d_size din)) din ;;
  winode inum (with_d_size (xint (fst r)) (snd r)).

(** A file of the host: its name, and what [open] and then [read] give, the
    pieces of the file in the order in which [read] returns them. *)
Record hostfile := mkHostfile {
  h_name : list Z;
  h_data : option (list (list Z));
}.

(** [strcpy(de.name, s)] in an entry that was cleared. *)
Definition clear_name (s : list Z) : list Z := splice (replicate DIRSIZ 0) 0 (s ++ [0]).

Definition skip_underscore (name : list Z) : list Z :=
  match name with
  | c :: rest => if c =? 95 then rest else name
  | [] => name
  end.

(** The body of the loop of [main] on a file of the command line. *)
Definition add_file (rootino : Z) (f : hostfile) : M unit :=
  assert_ (negb (existsb (Z.eqb SLASH) (h_name f))) ;;;
  match h_data f with
  | None => panic "open"
  | Some chunks =>
      inum <- ialloc T_FILE ;;
      iappend rootino (dirent_enc (mkDirent (xshort inum) (lstrncpy DIRSIZ (skip_underscore (h_name f))))) ;;;
      for_each chunks (iappend inum)
  end.

(** [struct superblock] in bytes. *)
Definition sb_enc (sb : superblock) : list Z :=
  le_enc 4 (sb_size sb) ++ le_enc 4 (sb_nblocks sb) ++ le_enc 4 (sb_ninodes sb) ++ le_enc 4 (sb_nlog sb) ++
  le_enc 4 (sb_logstart sb) ++ le_enc 4 (sb_inodestart sb) ++ le_enc 4 (sb_bmapstart sb).

(** The superblock, the empty blocks and the root directory. *)
Definition format : M Z :=
  let nmeta := 2 + nlog + ninodeblocks + nbitmap in
  let nblocks := FSSIZE - nmeta in
  modify (with_m_sb (mkSuperblock (xint FSSIZE) (xint nblocks) (xint NINODES) (xint nlog) (xint 2)
                       (xint (2 + nlog)) (xint (2 + nlog + ninodeblocks)))) ;;;
  modify (with_m_freeblock (u32 nmeta)) ;;;
  for_each (seqZ 0 FSSIZE) (λ i, wsect i (replicate (Z.to_nat BSIZE) 0)) ;;;
  sb <- gets m_sb ;;
  wsect 1 (splice (replicate (Z.to_nat BSIZE) 0) 0 (sb_enc sb)) ;;;
  rootino <- ialloc T_DIR ;;
  assert_ (rootino =? ROOTINO) ;;;
  iappend rootino (dirent_enc (mkDirent (xshort rootino) (clear_name [46]))) ;;;
  iappend rootino (dirent_enc (mkDirent (xshort rootino) (clear_name [46; 46]))) ;;;
  ret rootino.

(** The end of [main]: the size of the root directory and the bitmap. *)
Definition finish (rootino : Z) : M unit :=
  din <- rinode rootino ;;
  let off := u32 ((xint (d_size din) / BSIZE + 1) * BSIZE) in
  winode rootino (with_d_size (xint off) din) ;;;
  fb <- gets m_freeblock ;;
  balloc (s32 fb).

(** [main]; [image] tells whether the image was named on the command line and
    whether it could be opened. *)
Definition main (image : option bool) (files : list hostfile) : M unit :=
  match image with
  | None => panic "Usage: mkfs fs.img files..."
  | Some false => panic "open"
  | Some true =>
      rootino <- format ;;
      for_each files (add_file rootino) ;;;
      finish rootino
  end.

(** The globals before [main]. *)
Definition start : mkfs := mkMkfs [] (mkSuperblock 0 0 0 0 0 0 0) 1 0.

(** * The image as the kernel sees it *)

(** The superblock that [format] writes. *)
Definition sb0 : superblock := mkSuperblock 1000 941 200 30 2 32 58.

Abbreviation view st := (disk_view (m_img st)).

Definition put (b : Z) (d : list Z) (st : mkfs) : mkfs := with_m_img (<[Z.to_nat b := d]> (m_img st)) st.

Lemma xint_small x : is_u32 x → xint x = x.
Proof. intros H. unfold xint. rewrite le_dec_enc4. by apply u32_small. Qed.

Lemma xshort_small x : 0 ≤ x < 65536 → xshort x = x.
Proof. intros H. unfold xshort. rewrite le_dec_enc2. by apply u16_small. Qed.

Lemma sect_small b : 0 ≤ b < 1000 → sect b = Z.to_nat b.
Proof. intros H. unfold sect, BSIZE. rewrite u32_small by (unfold is_u32; lia). f_equal. apply Z.div_mul. lia. Qed.

Section blocks.
Context (st : mkfs) (Hlen : length (m_img st) = 1000%nat).

Lemma wsect_run b d : 0 ≤ b < 1000 → wsect b d st = Done tt (put b d st).
Proof.
  intros H. unfold wsect, modify, write_block, put. rewrite sect_small by done.
  by rewrite (proj2 (Nat.ltb_lt _ _)) by lia.
Qed.

Lemma rsect_run b : 0 ≤ b < 1000 → rsect b st = Done (view st b) st.
Proof.
  intros H. unfold rsect, bind, get. cbn [obind]. rewrite sect_small by done.
  unfold disk_view. destruct (lookup_lt_is_Some_2 (m_img st) (Z.to_nat b)) as [d ->]; [lia|done].
Qed.

Lemma length_put b d : length (m_img (put b d st)) = 1000%nat.
Proof. simpl. by rewrite length_insert. Qed.

Lemma view_put b d c : 0 ≤ b < 1000 → 0 ≤ c → view (put b d st) c = if decide (c = b) then d else view st c.
Proof.
  intros Hb Hc. unfold disk_view. simpl. case_decide as E.
  - subst. by rewrite list_lookup_insert_eq by lia.
  - by rewrite list_lookup_insert_ne by lia.
Qed.
End blocks.

(** The blocks of a file: its 140 data blocks, then the indirect block. *)
Definition slot (V : Z → list Z) (d : dinode) (k : nat) : Z :=
  if (k <? 140)%nat then block_of V (d_addrs d) k else ind_of (d_addrs d).

Lemma slot_ind V d : slot V d 140 = ind_of (d_addrs d).
Proof. done. Qed.

Lemma slot_data V d k : (k < 140)%nat → slot V d k = block_of V (d_addrs d) k.
Proof. intros H. unfold slot. by rewrite (proj2 (Nat.ltb_lt _ _)). Qed.

Lemma slot_ext V V' d k : (ind_of (d_addrs d) ≠ 0 → V' (ind_of (d_addrs d)) = V (ind_of (d_addrs d))) →
  slot V' d k = slot V d k.
Proof.
  intros H. unfold slot, block_of. destruct (k <? 140)%nat; [|done]. destruct (k <? 12)%nat; [done|].
  destruct (Z.eqb_spec (ind_of (d_addrs d)) 0); [done|]. by rewrite H.
Qed.

(** The image while files are added: [dins i] is inode [i]. *)
Record image (st : mkfs) (dins : Z → dinode) : Prop := mkImage {
  im_sb : m_sb st = sb0;
  im_len : length (m_img st) = 1000%nat;
  im_ok : ∀ b, 0 ≤ b < 1000 → block_ok (view st b);
  im_fi : 1 ≤ m_freeinode st ≤ 200;
  im_fb : 59 ≤ m_freeblock st ≤ 1000;
  im_zero : ∀ b, m_freeblock st ≤ b < 1000 → view st b = replicate 512 0;
  im_din : ∀ i, 1 ≤ i < m_freeinode st → dinode_ok (dins i);
  im_range : ∀ i k, 1 ≤ i < m_freeinode st → (k ≤ 140)%nat → slot (view st) (dins i) k ≠ 0 →
    59 ≤ slot (view st) (dins i) k < m_freeblock st;
  im_inj : ∀ i k i' k', 1 ≤ i < m_freeinode st → 1 ≤ i' < m_freeinode st → (k ≤ 140)%nat → (k' ≤ 140)%nat →
    slot (view st) (dins i) k ≠ 0 → slot (view st) (dins i) k = slot (view st) (dins i') k' → i = i' ∧ k = k';
}.
Arguments im_sb {_ _} _.
Arguments im_len {_ _} _.
Arguments im_ok {_ _} _.
Arguments im_fi {_ _} _.
Arguments im_fb {_ _} _.
Arguments im_zero {_ _} _.
Arguments im_din {_ _} _.
Arguments im_range {_ _} _.
Arguments im_inj {_ _} _.

(** The first [m] blocks of the file are mapped and hold [data], then zeros. *)
Record holds (V : Z → list Z) (d : dinode) (m : nat) (data : list Z) : Prop := mkHolds {
  ho_map : ∀ bn, (bn < 140)%nat → slot V d bn ≠ 0 ↔ (bn < m)%nat;
  ho_ind : slot V d 140 ≠ 0 ↔ (12 < m)%nat;
  ho_len : (length data ≤ 512 * m)%nat;
  ho_m : (m ≤ 140)%nat;
  ho_data : ∀ x, (x < 512 * m)%nat → fbyte V (d_addrs d) x = nth x data 0;
}.
Arguments ho_map {_ _ _ _} _.
Arguments ho_ind {_ _ _ _} _.
Arguments ho_len {_ _ _ _} _.
Arguments ho_m {_ _ _ _} _.
Arguments ho_data {_ _ _ _} _.

(** A change of blocks that are not of this file. *)
Lemma holds_frame V V' d m data :
  (∀ k, (k ≤ 140)%nat → slot V d k ≠ 0 → V' (slot V d k) = V (slot V d k)) → holds V d m data → holds V' d m data.
Proof.
  intros HV [H1 H2 H3 H5 H4]. assert (Hs : ∀ k, slot V' d k = slot V d k).
  { intros k. apply slot_ext. intros Hz. exact (HV 140%nat ltac:(lia) Hz). }
  constructor; [intros bn Hbn; rewrite Hs; auto|by rewrite Hs|done|done|].
  intros x Hx. rewrite <-H4 by done. unfold fbyte.
  assert (Hb : (x / 512 < m)%nat) by (apply Nat.Div0.div_lt_upper_bound; lia).
  rewrite <-!slot_data by lia. rewrite Hs, HV; [done|lia|]. apply H1; lia.
Qed.

(** What an operation on inode [inum] leaves alone: the blocks before
    [freeblock] that are not of that inode. *)
Record kept (st st' : mkfs) (inum : Z) (d d' : dinode) : Prop := mkKept {
  ke_view : ∀ c, 0 ≤ c < m_freeblock st → (∀ k, (k ≤ 140)%nat → slot (view st) d k ≠ c) → view st' c = view st c;
  ke_slot : ∀ k, (k ≤ 140)%nat → slot (view st') d' k ≠ slot (view st) d k → m_freeblock st ≤ slot (view st') d' k;
  ke_fb : m_freeblock st ≤ m_freeblock st';
  ke_fi : m_freeinode st' = m_freeinode st;
}.
Arguments ke_view {_ _ _ _ _} _.
Arguments ke_slot {_ _ _ _ _} _.
Arguments ke_fb {_ _ _ _ _} _.
Arguments ke_fi {_ _ _ _ _} _.

Lemma kept_refl st inum d : kept st st inum d d.
Proof. by constructor. Qed.

Lemma kept_trans st1 st2 st3 inum d1 d2 d3 :
  kept st1 st2 inum d1 d2 → kept st2 st3 inum d2 d3 → kept st1 st3 inum d1 d3.
Proof.
  intros K1 K2. pose proof (ke_fb K1). pose proof (ke_fb K2). constructor; [| |lia|].
  - intros c Hc Hn. rewrite (ke_view K2), (ke_view K1); [done|done|done|lia|].
    intros k Hk E. destruct (decide (slot (view st2) d2 k = slot (view st1) d1 k)) as [E'|E'].
    + apply (Hn k); [done|congruence].
    + pose proof (ke_slot K1 k Hk E'). lia.
  - intros k Hk Hne. destruct (decide (slot (view st3) d3 k = slot (view st2) d2 k)) as [E|E].
    + rewrite E in *. by apply (ke_slot K1).
    + pose proof (ke_slot K2 k Hk E). lia.
  - rewrite (ke_fi K2). apply (ke_fi K1).
Qed.

(** The other files keep their contents, and the metadata its blocks. *)
Lemma kept_holds st st' dins inum d' i m data :
  image st dins → kept st st' inum (dins inum) d' → 1 ≤ inum < m_freeinode st → 1 ≤ i < m_freeinode st → i ≠ inum →
  holds (view st) (dins i) m data → holds (view st') (dins i) m data.
Proof.
  intros I K Hin Hi Hne. apply holds_frame. intros k Hk Hz. pose proof (im_range I i k Hi Hk Hz).
  apply (ke_view K); [lia|]. intros k' Hk' E. destruct (im_inj I i k inum k'); try done; congruence.
Qed.

Lemma kept_meta st st' dins inum d' c :
  image st dins → kept st st' inum (dins inum) d' → 1 ≤ inum < m_freeinode st → 0 < c < 59 → view st' c = view st c.
Proof.
  intros I K Hin Hc. pose proof (im_fb I). apply (ke_view K); [lia|]. intros k Hk E.
  pose proof (im_range I inum k Hin Hk). lia.
Qed.

(** * Taking a block *)

Section alloc.
Context (st st' : mkfs) (dins : Z → dinode) (inum : Z) (d' : dinode) (k0 : nat).
Context (I : image st dins) (Hin : 1 ≤ inum < m_freeinode st) (Hk0 : (k0 ≤ 140)%nat).
Context (Esb : m_sb st' = m_sb st) (Efi : m_freeinode st' = m_freeinode st).
Context (Hfb : m_freeblock st < 1000) (Efb : m_freeblock st' = m_freeblock st + 1).
Context (Hlen : length (m_img st') = 1000%nat) (Hok : ∀ b, 0 ≤ b < 1000 → block_ok (view st' b)).
Context (Hzero : ∀ b, m_freeblock st < b < 1000 → view st' b = replicate 512 0).
Context (Hd' : dinode_ok d').
Context (Hold : slot (view st) (dins inum) k0 = 0) (Hnew : slot (view st') d' k0 = m_freeblock st).
Context (Hsame : ∀ k, (k ≤ 140)%nat → k ≠ k0 → slot (view st') d' k = slot (view st) (dins inum) k).
Context (Hoth : ∀ i k, 1 ≤ i < m_freeinode st → i ≠ inum → (k ≤ 140)%nat →
  slot (view st') (dins i) k = slot (view st) (dins i) k).

(** The blocks after the allocation: those of before and the new one. *)
Lemma alloc_slots i k : 1 ≤ i < m_freeinode st → (k ≤ 140)%nat →
  slot (view st') (<[inum := d']> dins i) k = slot (view st) (dins i) k ∧ (i ≠ inum ∨ k ≠ k0) ∨
  i = inum ∧ k = k0 ∧ slot (view st') (<[inum := d']> dins i) k = m_freeblock st.
Proof.
  intros Hi Hk. destruct (decide (i = inum)) as [->|Hne].
  - rewrite fn_lookup_insert. destruct (decide (k = k0)) as [->|Hk']; [right; done|].
    left. split; [by apply Hsame|by right].
  - rewrite fn_lookup_insert_ne by done. left. split; [by apply Hoth|by left].
Qed.

Lemma image_alloc : image st' (<[inum := d']> dins).
Proof.
  pose proof (im_fb I) as Hr. constructor.
  - rewrite Esb. apply (im_sb I).
  - done.
  - done.
  - rewrite Efi. apply (im_fi I).
  - lia.
  - intros b Hb. apply Hzero. lia.
  - intros i Hi. rewrite Efi in Hi. destruct (decide (i = inum)) as [->|Hne].
    + by rewrite fn_lookup_insert.
    + rewrite fn_lookup_insert_ne by done. by apply (im_din I).
  - intros i k Hi Hk Hz. rewrite Efi in Hi. destruct (alloc_slots i k Hi Hk) as [[E _]|(_ & _ & E)]; rewrite E in *; [|lia].
    pose proof (im_range I i k Hi Hk Hz). lia.
  - intros i k i' k' Hi Hi' Hk Hk' Hz. rewrite Efi in Hi, Hi'.
    destruct (alloc_slots i k Hi Hk) as [[E1 _]|(-> & -> & E1)], (alloc_slots i' k' Hi' Hk') as [[E2 _]|(-> & -> & E2)];
      intros E; rewrite E1 in Hz, E; rewrite ?E2 in E.
    + by apply (im_inj I).
    + pose proof (im_range I i k Hi Hk Hz). lia.
    + pose proof (im_range I i' k' Hi' Hk'). lia.
    + done.
Qed.

Lemma kept_alloc :
  (∀ c, 0 ≤ c < m_freeblock st → (∀ k, (k ≤ 140)%nat → slot (view st) (dins inum) k ≠ c) → view st' c = view st c) →
  kept st st' inum (dins inum) d'.
Proof.
  intros HV. constructor; [done| |lia|done]. intros k Hk Hne. destruct (decide (k = k0)) as [->|Hk'].
  - rewrite Hnew. lia.
  - destruct Hne. by apply Hsame.
Qed.
End alloc.

(** [freeblock++]. *)
Lemma take_block_run st : 0 ≤ m_freeblock st < 1000 →
  take_block st = Done (m_freeblock st) (with_m_freeblock (m_freeblock st + 1) st).
Proof.
  intros H. unfold take_block, bind, gets, modify, ret. cbn [obind]. by rewrite u32_small by (unfold is_u32; lia).
Qed.

Definition set_addr (k : nat) (b : Z) (d : dinode) : dinode := with_d_addrs (<[k := b]> (d_addrs d)) d.

Lemma set_addr_ok k b d : dinode_ok d → is_u32 b → dinode_ok (set_addr k b d).
Proof.
  intros [H1 H2 H3 H4 H5 H6 H7] Hb. constructor; try done; cbn [set_addr with_d_addrs d_addrs].
  - by rewrite length_insert.
  - by apply Forall_insert.
Qed.

Lemma nth_set_addr k j b d : dinode_ok d → (k < 13)%nat →
  nth j (d_addrs (set_addr k b d)) 0 = if decide (j = k) then b else nth j (d_addrs d) 0.
Proof.
  intros Hd Hk. pose proof (do_len _ Hd) as Hl. cbn [set_addr with_d_addrs d_addrs]. rewrite !nth_lookup.
  case_decide as E; [subst; by rewrite list_lookup_insert_eq by lia|by rewrite list_lookup_insert_ne by congruence].
Qed.

(** Another inode does not use a block that inode [inum] has in a slot. *)
Lemma not_ind st dins inum k i : image st dins → 1 ≤ inum < m_freeinode st → (k ≤ 140)%nat →
  1 ≤ i < m_freeinode st → (i ≠ inum ∨ k ≠ 140%nat) → slot (view st) (dins inum) k ≠ 0 →
  ind_of (d_addrs (dins i)) ≠ slot (view st) (dins inum) k.
Proof.
  intros I Hin Hk Hi Hne Hz E. destruct (im_inj I inum k i 140) as [-> ->]; try done. destruct Hne; done.
Qed.

(** Storing a direct address, or that of the indirect block: [k] is the slot
    and [a] its place in [addrs]. *)
Lemma set_slot_direct V d k b : dinode_ok d → (k < 12)%nat →
  slot V (set_addr k b d) k = b ∧ ∀ j, (j ≤ 140)%nat → j ≠ k → slot V (set_addr k b d) j = slot V d j.
Proof.
  intros Hd Hk. split.
  - rewrite slot_data by lia. unfold block_of. rewrite (proj2 (Nat.ltb_lt _ _)) by done.
    rewrite nth_set_addr by (done || lia). by rewrite decide_True.
  - intros j Hj Hne. unfold slot, block_of, ind_of. rewrite !nth_set_addr by (done || lia).
    rewrite (decide_False (P := j = k)), (decide_False (P := 12%nat = k)) by lia. done.
Qed.

Lemma set_slot_ind V d b : dinode_ok d → ind_of (d_addrs d) = 0 → V b = replicate 512 0 →
  slot V (set_addr 12 b d) 140 = b ∧ ∀ j, (j ≤ 140)%nat → j ≠ 140%nat → slot V (set_addr 12 b d) j = slot V d j.
Proof.
  intros Hd Hz HV. rewrite slot_ind. unfold ind_of at 1. rewrite nth_set_addr by (done || lia).
  rewrite decide_True by done. split; [done|]. intros j Hj Hne. rewrite !slot_data by lia. unfold block_of, ind_of in *.
  rewrite !nth_set_addr by (done || lia). destruct (Nat.ltb_spec j 12) as [Hlt|Hge].
  - by rewrite decide_False by lia.
  - rewrite decide_True, Hz by done. destruct (Z.eqb_spec b 0); [done|]. rewrite HV. cbn [Z.eqb].
    unfold rd_uint, slice. rewrite drop_replicate, take_replicate. replace (_ `min` _)%nat with 4%nat by lia. done.
Qed.

(** Storing an entry of the indirect block. *)
Lemma set_slot_entry V V' d k b : ind_of (d_addrs d) ≠ 0 → (12 ≤ k < 140)%nat → is_u32 b →
  length (V (ind_of (d_addrs d))) = 512%nat →
  V' (ind_of (d_addrs d)) = wr_int (V (ind_of (d_addrs d))) (4 * (k - 12)) b →
  slot V' d k = b ∧ ∀ j, (j ≤ 140)%nat → j ≠ k → slot V' d j = slot V d j.
Proof.
  intros Hz Hk Hb Hl HV. unfold wr_int in HV.
  assert (Hs : ∀ j, (12 ≤ j < 140)%nat → slot V' d j =
    rd_uint (splice (V (ind_of (d_addrs d))) (4 * (k - 12)) (le_enc 4 b)) (4 * (j - 12))).
  { intros j Hj. rewrite slot_data by lia. unfold block_of. rewrite (proj2 (Nat.ltb_ge _ _)) by lia.
    rewrite (proj2 (Z.eqb_neq _ _)) by done. by rewrite HV. }
  split.
  - rewrite Hs by done. unfold rd_uint. pose proof (slice_splice_same (V (ind_of (d_addrs d))) (4 * (k - 12)) (le_enc 4 b)) as E.
    rewrite length_le_enc in E. rewrite E by lia. rewrite le_dec_enc4. by apply u32_small.
  - intros j Hj Hne. destruct (decide (j = 140)%nat) as [->|]; [done|].
    destruct (decide (j < 12)%nat) as [Hlt|Hge].
    + rewrite !slot_data by lia. unfold block_of. by rewrite (proj2 (Nat.ltb_lt _ _)) by lia.
    + rewrite Hs by lia. rewrite slot_data by lia. unfold block_of. rewrite (proj2 (Nat.ltb_ge _ _)) by lia.
      rewrite (proj2 (Z.eqb_neq _ _)) by done. unfold rd_uint.
      rewrite slice_splice_disjoint; [done|rewrite length_le_enc; lia|rewrite length_le_enc; lia].
Qed.

Lemma image_ext st dins dins' :
  image st dins → (∀ i, 1 ≤ i < m_freeinode st → dins' i = dins i) → image st dins'.
Proof.
  intros [I1 I2 I3 I4 I5 I6 I7 I8 I9] E. constructor; try done.
  - intros i Hi. rewrite E by done. auto.
  - intros i k Hi. rewrite E by done. auto.
  - intros i k i' k' Hi Hi'. rewrite !E by done. auto.
Qed.

Lemma image_update st dins inum d1 d2 :
  image st (<[inum := d2]> (<[inum := d1]> dins)) → image st (<[inum := d2]> dins).
Proof.
  intros I. apply (image_ext _ _ _ I). intros i _. destruct (decide (i = inum)) as [->|Hne].
  - by rewrite !fn_lookup_insert.
  - by rewrite !fn_lookup_insert_ne.
Qed.

(** The inode of the image that an operation leaves as it is. *)
Lemma image_same st dins inum d : image st dins → dins inum = d → image st (<[inum := d]> dins).
Proof.
  intros I Ed. apply (image_ext _ _ _ I). intros i _. destruct (decide (i = inum)) as [->|Hi].
  - by rewrite fn_lookup_insert.
  - by rewrite fn_lookup_insert_ne.
Qed.

Section steps.
Context (st : mkfs) (dins : Z → dinode) (inum : Z) (d : dinode).
Context (I : image st dins) (Hin : 1 ≤ inum < m_freeinode st) (Ed : dins inum = d).
Context (Hfb : m_freeblock st < 1000).
Abbreviation fb := (m_freeblock st).
Abbreviation st1 := (with_m_freeblock (m_freeblock st + 1) st).

Lemma fb_u32 : is_u32 fb.
Proof. pose proof (im_fb I). unfold is_u32. lia. Qed.

Lemma direct_step k : (k < 12)%nat → slot (view st) d k = 0 →
  image st1 (<[inum := set_addr k fb d]> dins) ∧ kept st st1 inum d (set_addr k fb d).
Proof.
  intros Hk Hz. pose proof (im_din I inum Hin) as Hd. rewrite Ed in Hd.
  destruct (set_slot_direct (view st) d k fb Hd Hk) as [E1 E2]. split.
  - apply (image_alloc st st1 dins inum _ k); rewrite ?Ed; try done; try lia.
    + apply (im_len I).
    + apply (im_ok I).
    + intros b Hb. apply (im_zero I). lia.
    + apply set_addr_ok; [done|apply fb_u32].
  - rewrite <-Ed. apply (kept_alloc st st1 dins inum _ k); rewrite ?Ed; try done; try lia. apply (im_len I).
Qed.

Lemma ind_step : ind_of (d_addrs d) = 0 →
  image st1 (<[inum := set_addr 12 fb d]> dins) ∧ kept st st1 inum d (set_addr 12 fb d).
Proof.
  intros Hz. pose proof (im_din I inum Hin) as Hd. rewrite Ed in Hd.
  destruct (set_slot_ind (view st) d fb Hd Hz) as [E1 E2]; [apply (im_zero I); lia|]. split.
  - apply (image_alloc st st1 dins inum _ 140); rewrite ?Ed; try done; try lia.
    + apply (im_len I).
    + apply (im_ok I).
    + intros b Hb. apply (im_zero I). lia.
    + apply set_addr_ok; [done|apply fb_u32].
  - rewrite <-Ed. apply (kept_alloc st st1 dins inum _ 140); rewrite ?Ed; try done; try lia. apply (im_len I).
Qed.

Lemma entry_step k : (12 ≤ k < 140)%nat → ind_of (d_addrs d) ≠ 0 → slot (view st) d k = 0 →
  let ind := ind_of (d_addrs d) in
  let st2 := put ind (wr_int (view st ind) (4 * (k - 12)) fb) st1 in
  image st2 (<[inum := d]> dins) ∧ kept st st2 inum d d ∧ slot (view st2) d k = fb ∧
  (∀ j, (j ≤ 140)%nat → j ≠ k → slot (view st2) d j = slot (view st) d j) ∧
  ∀ c, 0 ≤ c → c ≠ ind → view st2 c = view st c.
Proof.
  intros Hk Hi Hz ind st2. pose proof (im_din I inum Hin) as Hd. pose proof (im_len I) as Hl.
  pose proof (im_range I inum 140 Hin ltac:(lia)) as Hr. rewrite Ed, slot_ind in Hr. specialize (Hr Hi). fold ind in Hr.
  pose proof (im_ok I ind ltac:(lia)) as Hok. change (view st) with (view st1) in Hok.
  assert (HV : ∀ c, 0 ≤ c → view st2 c = if decide (c = ind) then wr_int (view st ind) (4 * (k - 12)) fb else view st c).
  { intros c Hc. apply (view_put st1); [done|lia|done]. }
  destruct (set_slot_entry (view st) (view st2) d k fb) as [E1 E2]; try done.
  { apply fb_u32. } { apply Hok. } { fold ind. rewrite HV by lia. by rewrite decide_True. }
  assert (Hoth : ∀ i j, 1 ≤ i < m_freeinode st → i ≠ inum → (j ≤ 140)%nat →
    slot (view st2) (dins i) j = slot (view st) (dins i) j).
  { intros i j Hi' Hne Hj. apply slot_ext. intros Hz'. pose proof (im_range I i 140 Hi' ltac:(lia) Hz') as Hr'.
    rewrite slot_ind in Hr'. rewrite HV, decide_False; [done| |lia].
    pose proof (not_ind st dins inum 140 i I Hin ltac:(lia) Hi' ltac:(by left)) as Hn. rewrite Ed, slot_ind in Hn. by apply Hn. }
  split; [|split; [|split; [done|split; [done|]]]].
  - apply (image_alloc st st2 dins inum d k); rewrite ?Ed; try done; try lia.
    + by apply length_put.
    + intros b Hb. rewrite HV by lia. case_decide; [|by apply (im_ok I)]. apply wr_int_ok; [done|lia].
    + intros b Hb. rewrite HV, decide_False by lia. apply (im_zero I). lia.
    + by rewrite <-Ed.
  - rewrite <-Ed. apply (kept_alloc st st2 dins inum _ k); rewrite ?Ed; try done; try lia; [by apply length_put|].
    intros c Hc Hn. rewrite HV by lia. rewrite decide_False; [done|]. intros ->. by apply (Hn 140%nat).
  - intros c Hc Hne. by rewrite HV, decide_False.
Qed.
End steps.

Lemma nth_zeros i n : nth i (replicate n 0) 0 = 0.
Proof. revert i. induction n; intros [|i]; simpl; auto. Qed.

(** A file that gets block [m], which is empty. *)
Lemma holds_grow V V' d d' m data :
  holds V d m data → (m < 140)%nat → slot V' d' m ≠ 0 → V' (slot V' d' m) = replicate 512 0 →
  (∀ k, (k < 140)%nat → k ≠ m → slot V' d' k = slot V d k) →
  (∀ k, (k < m)%nat → V' (slot V d k) = V (slot V d k)) →
  (slot V' d' 140 ≠ 0 ↔ (12 < S m)%nat) → holds V' d' (S m) data.
Proof.
  intros [H1 H2 H3 H5 H4] Hm Hz HV Hs Hk Hi. constructor; [|done|lia|lia|].
  - intros bn Hbn. destruct (decide (bn = m)) as [->|Hne]; [lia|]. rewrite Hs, H1 by done. lia.
  - intros x Hx. unfold fbyte. pose proof (Nat.div_mod x 512 ltac:(lia)) as Hdm.
    pose proof (Nat.mod_upper_bound x 512 ltac:(lia)). assert (Hb : (x / 512 < S m)%nat) by (apply Nat.Div0.div_lt_upper_bound; lia).
    rewrite <-slot_data by lia. destruct (decide (x / 512 = m)%nat) as [E|Hne].
    + rewrite E, HV, nth_zeros. by rewrite nth_overflow by lia.
    + rewrite Hs, Hk by lia. rewrite <-H4 by lia. unfold fbyte. by rewrite <-slot_data by lia.
Qed.

(** * Appending to a file *)

Section append.
Context (st : mkfs) (dins : Z → dinode) (inum : Z) (d : dinode).
Context (I : image st dins) (Hin : 1 ≤ inum < m_freeinode st) (Ed : dins inum = d).

Lemma file_slot_range k : (k ≤ 140)%nat → slot (view st) d k ≠ 0 → 59 ≤ slot (view st) d k < m_freeblock st.
Proof. intros Hk. rewrite <-Ed. by apply (im_range I). Qed.

Lemma file_slot_u32 k : (k ≤ 140)%nat → slot (view st) d k ≠ 0 → xint (slot (view st) d k) = slot (view st) d k.
Proof.
  intros Hk Hz. pose proof (file_slot_range k Hk Hz). pose proof (im_fb I). apply xint_small. unfold is_u32. lia.
Qed.

Lemma slot_entry k : (12 ≤ k < 140)%nat → ind_of (d_addrs d) ≠ 0 →
  rd_uint (view st (ind_of (d_addrs d))) (4 * (k - 12)) = slot (view st) d k.
Proof.
  intros Hk Hz. rewrite slot_data by lia. unfold block_of. rewrite (proj2 (Nat.ltb_ge _ _)) by lia.
  by rewrite (proj2 (Z.eqb_neq _ _)).
Qed.

Lemma append_entry_old k : (12 ≤ k < 140)%nat → ind_of (d_addrs d) ≠ 0 → slot (view st) d k ≠ 0 →
  append_entry (ind_of (d_addrs d)) k st = Done (slot (view st) d k) st.
Proof.
  intros Hk Hi Hz. unfold append_entry. pose proof (file_slot_range 140 ltac:(lia) Hi) as Hr. rewrite slot_ind in Hr.
  pose proof (im_fb I). erewrite bind_done by (apply rsect_run; [apply (im_len I)|lia]).
  cbv zeta. rewrite slot_entry by done. rewrite (proj2 (Z.eqb_neq _ _)) by done.
  unfold bind, ret. cbn [obind]. rewrite slot_entry by done. by rewrite file_slot_u32 by (done || lia).
Qed.

Lemma append_entry_new k : (12 ≤ k < 140)%nat → ind_of (d_addrs d) ≠ 0 → slot (view st) d k = 0 → m_freeblock st < 1000 →
  let ind := ind_of (d_addrs d) in
  append_entry ind k st = Done (m_freeblock st)
    (put ind (wr_int (view st ind) (4 * (k - 12)) (m_freeblock st)) (with_m_freeblock (m_freeblock st + 1) st)).
Proof.
  intros Hk Hi Hz Hfb ind. unfold append_entry. pose proof (file_slot_range 140 ltac:(lia) Hi) as Hr. rewrite slot_ind in Hr.
  pose proof (im_fb I). pose proof (im_len I) as Hl. fold ind in Hr.
  erewrite bind_done by (apply rsect_run; [done|lia]). cbv zeta. unfold ind at 1. rewrite slot_entry, Hz by done. cbn [Z.eqb].
  rewrite (bind_done _ _ st (wr_int (view st ind) (4 * (k - 12)) (m_freeblock st))
    (put ind (wr_int (view st ind) (4 * (k - 12)) (m_freeblock st)) (with_m_freeblock (m_freeblock st + 1) st))).
  2:{ erewrite bind_done by (apply take_block_run; lia). rewrite xint_small by (unfold is_u32; lia).
      by erewrite bind_done by (apply wsect_run; [done|lia]). }
  pose proof (slice_splice_same (view st ind) (4 * (k - 12)) (le_enc 4 (m_freeblock st))) as E.
  rewrite length_le_enc in E. destruct (im_ok I ind ltac:(lia)) as [Hlen _].
  unfold ret, rd_uint, wr_int. rewrite E by lia. rewrite le_dec_enc4.
  by rewrite u32_small, xint_small by (unfold is_u32; lia).
Qed.
End append.

(** Block [fbn] of a file that has it. *)
Lemma append_block_old st dins inum d m data fbn :
  image st dins → 1 ≤ inum < m_freeinode st → dins inum = d → holds (view st) d m data → (fbn < m)%nat →
  append_block fbn d st = Done (slot (view st) d fbn, d) st.
Proof.
  intros I Hin Ed Ho Hlt. pose proof (ho_m Ho) as Hm.
  assert (Hz : slot (view st) d fbn ≠ 0) by (apply (ho_map Ho); lia).
  unfold append_block. cbv zeta. change NDIRECT with 12. destruct (Z.ltb_spec (Z.of_nat fbn) 12) as [Hd|Hd].
  - assert (E : nth fbn (d_addrs d) 0 = slot (view st) d fbn).
    { rewrite slot_data by lia. unfold block_of. by rewrite (proj2 (Nat.ltb_lt _ _)) by lia. }
    rewrite E, (file_slot_u32 st dins inum d) by (done || lia). rewrite (proj2 (Z.eqb_neq _ _)) by done.
    unfold bind, ret. cbn [obind]. by rewrite E, (file_slot_u32 st dins inum d) by (done || lia).
  - assert (Hi : slot (view st) d 140 ≠ 0) by (apply (ho_ind Ho); lia). rewrite slot_ind in Hi.
    pose proof (file_slot_u32 st dins inum d I Hin Ed 140 ltac:(lia) Hi) as E. rewrite slot_ind in E. unfold ind_of in E.
    rewrite E. rewrite (proj2 (Z.eqb_neq _ _)) by done. erewrite bind_done by done. rewrite E.
    by erewrite bind_done by (apply (append_entry_old st dins inum d); done || lia).
Qed.

(** The blocks that a file with [m] data blocks takes. *)
Definition nblocks (m : nat) : Z := Z.of_nat m + (if (12 <? m)%nat then 1 else 0).

Lemma nblocks_S m : nblocks (S m) = nblocks m + 1 + (if (m =? 12)%nat then 1 else 0).
Proof. unfold nblocks. destruct (Nat.ltb_spec 12 m), (Nat.ltb_spec 12 (S m)), (Nat.eqb_spec m 12); lia. Qed.

Section next.
Context (st : mkfs) (dins : Z → dinode) (inum : Z) (d : dinode) (m : nat) (data : list Z).
Context (I : image st dins) (Hin : 1 ≤ inum < m_freeinode st) (Ed : dins inum = d).
Context (Ho : holds (view st) d m data) (Hm : (m < 140)%nat).

Lemma next_unmapped : slot (view st) d m = 0.
Proof.
  destruct (decide (slot (view st) d m = 0)) as [|Hz]; [done|]. apply (ho_map Ho) in Hz; [lia|done].
Qed.

(** The next block of a file, below the direct addresses. *)
Lemma append_block_direct : (m < 12)%nat → m_freeblock st < 1000 →
  let st' := with_m_freeblock (m_freeblock st + 1) st in
  let d' := set_addr m (m_freeblock st) d in
  append_block m d st = Done (m_freeblock st, d') st' ∧ image st' (<[inum := d']> dins) ∧
  kept st st' inum d d' ∧ slot (view st') d' m = m_freeblock st ∧ holds (view st') d' (S m) data.
Proof.
  intros Hlt Hfb st' d'. pose proof next_unmapped as Hz. pose proof (im_fb I) as Hr.
  pose proof (im_din I inum Hin) as Hd. rewrite Ed in Hd.
  destruct (set_slot_direct (view st) d m (m_freeblock st) Hd Hlt) as [E1 E2]. fold d' in E1, E2.
  destruct (direct_step st dins inum d I Hin Ed Hfb m Hlt Hz) as [I' K']. split; [|split; [done|split; [done|split; [done|]]]].
  - unfold append_block. cbv zeta. change NDIRECT with 12. rewrite (proj2 (Z.ltb_lt _ _)) by lia.
    assert (E : nth m (d_addrs d) 0 = 0).
    { pose proof Hz as E. rewrite slot_data in E by done. unfold block_of in E.
      by rewrite (proj2 (Nat.ltb_lt _ _)) in E. }
    rewrite E. change (xint 0 =? 0) with true. cbn iota.
    rewrite (bind_done _ _ st d' st').
    2:{ erewrite bind_done by (apply take_block_run; lia). by rewrite xint_small by (unfold is_u32; lia). }
    unfold ret, d'. rewrite nth_set_addr, decide_True by (done || lia). by rewrite xint_small by (unfold is_u32; lia).
  - apply (holds_grow (view st) (view st') d d'); try done.
    + change (view st') with (view st). rewrite E1. lia.
    + change (view st') with (view st). rewrite E1. apply (im_zero I). lia.
    + intros k Hk Hne. apply E2; [lia|done].
    + change (view st') with (view st). rewrite E2 by lia. rewrite (ho_ind Ho). lia.
Qed.

(** The indirect block of a file that has [m ≥ 12] blocks. *)
Lemma append_block_ind : (12 ≤ m)%nat → m_freeblock st + (if (m =? 12)%nat then 1 else 0) < 1000 →
  ∃ a, let d1 := with_d_addrs a d in
    let st1 := with_m_freeblock (m_freeblock st + (if (m =? 12)%nat then 1 else 0)) st in
    append_block m d st = (x <- append_entry (ind_of a) m ;; ret (x, d1)) st1 ∧
    image st1 (<[inum := d1]> dins) ∧ kept st st1 inum d d1 ∧ ind_of a ≠ 0 ∧
    ∀ k, (k < 140)%nat → slot (view st) d1 k = slot (view st) d k.
Proof.
  intros Hge Hfb. pose proof (im_fb I) as Hr. pose proof (im_din I inum Hin) as Hd. rewrite Ed in Hd.
  unfold append_block. cbv zeta. change NDIRECT with 12. rewrite (proj2 (Z.ltb_ge _ _)) by lia.
  destruct (decide (m = 12)%nat) as [E|Hne].
  - assert (Hz : ind_of (d_addrs d) = 0).
    { destruct (decide (ind_of (d_addrs d) = 0)) as [|Hz]; [done|]. rewrite <-(slot_ind (view st)) in Hz.
      apply (ho_ind Ho) in Hz. lia. }
    rewrite E in *. cbn [Nat.eqb] in *. exists (<[12%nat := m_freeblock st]> (d_addrs d)).
    fold (set_addr 12 (m_freeblock st) d).
    destruct (ind_step st dins inum d I Hin Ed ltac:(lia) Hz) as [I' K'].
    destruct (set_slot_ind (view st) d (m_freeblock st) Hd Hz) as [E1 E2]; [apply (im_zero I); lia|].
    rewrite slot_ind in E1. cbn [set_addr with_d_addrs d_addrs] in E1. unfold ind_of in Hz. rewrite Hz.
    change (xint 0 =? 0) with true. cbn iota. split; [|split; [done|split; [done|split; [lia|]]]].
    + rewrite (bind_done _ _ st (set_addr 12 (m_freeblock st) d) (with_m_freeblock (m_freeblock st + 1) st)).
      2:{ erewrite bind_done by (apply take_block_run; lia). by rewrite xint_small by (unfold is_u32; lia). }
      rewrite nth_set_addr, decide_True by (done || lia). rewrite E1. by rewrite xint_small by (unfold is_u32; lia).
    + intros k Hk. apply E2; lia.
  - assert (Hz : slot (view st) d 140 ≠ 0) by (apply (ho_ind Ho); lia).
    pose proof (file_slot_u32 st dins inum d I Hin Ed 140 ltac:(lia) Hz) as E. rewrite slot_ind in *.
    rewrite (proj2 (Nat.eqb_neq _ _)) by done. exists (d_addrs d). rewrite Z.add_0_r.
    replace (with_d_addrs (d_addrs d) d) with d by by destruct d.
    replace (with_m_freeblock (m_freeblock st) st) with st by by destruct st.
    unfold ind_of in E at 1 2. rewrite E. split; [|split; [|split; [apply kept_refl|split; [done|done]]]].
    + rewrite (proj2 (Z.eqb_neq _ _)) by done. erewrite bind_done by done. by rewrite E.
    + by apply image_same.
Qed.
End next.

(** The next block of a file. *)
Lemma append_block_new st dins inum d m data :
  image st dins → 1 ≤ inum < m_freeinode st → dins inum = d → holds (view st) d m data → (m < 140)%nat →
  m_freeblock st + nblocks (S m) - nblocks m ≤ 1000 →
  ∃ st' a, let d' := with_d_addrs a d in
    append_block m d st = Done (slot (view st') d' m, d') st' ∧ image st' (<[inum := d']> dins) ∧
    kept st st' inum d d' ∧ m_freeblock st' = m_freeblock st + nblocks (S m) - nblocks m ∧
    holds (view st') d' (S m) data.
Proof.
  intros I Hin Ed Ho Hm Hfb. rewrite nblocks_S in *. pose proof (im_fb I) as Hr. destruct (decide (m < 12)%nat) as [Hlt|Hge].
  { rewrite (proj2 (Nat.eqb_neq _ _)) in * by lia.
    destruct (append_block_direct st dins inum d m data) as (E & I' & K' & E1 & H'); try done; [lia|].
    exists (with_m_freeblock (m_freeblock st + 1) st), (<[m := m_freeblock st]> (d_addrs d)).
    unfold set_addr in *. rewrite E1. cbn [m_freeblock with_m_freeblock].
    split; [done|split; [done|split; [done|split; [lia|done]]]]. }
  assert (He : 0 ≤ (if (m =? 12)%nat then 1 else 0) ≤ 1) by (destruct (m =? 12)%nat; lia).
  destruct (append_block_ind st dins inum d m data) as (a & E & I1 & K1 & Hind & Hs); try done; [lia|lia|].
  set (st1 := with_m_freeblock _ st) in *. set (d1 := with_d_addrs a d) in *. change a with (d_addrs d1) in Hind, E.
  assert (Hun : slot (view st1) d1 m = 0).
  { change (view st1) with (view st). rewrite Hs by done. by eapply next_unmapped. }
  assert (Hfb1 : m_freeblock st1 < 1000) by (cbn; lia).
  pose proof (append_entry_new st1 _ inum d1 I1 Hin (fn_lookup_insert _ _ _) m ltac:(lia) Hind Hun Hfb1) as E2.
  pose proof (entry_step st1 _ inum d1 I1 Hin (fn_lookup_insert _ _ _) Hfb1 m ltac:(lia) Hind Hun) as (I2 & K2 & S2 & O2 & V2).
  set (st2 := put _ _ _) in *. apply image_update in I2. exists st2, a. cbv zeta. fold d1.
  pose proof (im_range I1 inum 140 Hin ltac:(lia)) as Hr1. rewrite fn_lookup_insert, slot_ind in Hr1. specialize (Hr1 Hind).
  split; [|split; [done|split; [by eapply kept_trans|split; [cbn; lia|]]]].
  - rewrite E, S2. by erewrite bind_done by exact E2.
  - apply (holds_grow (view st) (view st2) d d1); try done.
    + rewrite S2. cbn. lia.
    + rewrite S2, V2 by (cbn in *; lia). apply (im_zero I). cbn. lia.
    + intros k Hk Hne. rewrite O2 by lia. by apply Hs.
    + intros k Hk. assert (Hz : slot (view st) d k ≠ 0) by (apply (ho_map Ho); lia).
      pose proof (file_slot_range st dins inum d I Hin Ed k ltac:(lia) Hz). apply V2; [lia|].
      pose proof (not_ind st1 _ inum k inum I1 Hin ltac:(lia) Hin ltac:(lia)) as Hn. rewrite fn_lookup_insert in Hn.
      change (view st1) with (view st) in Hn. rewrite Hs in Hn by lia. intros Ek. by apply Hn.
    + rewrite O2, slot_ind by lia. split; [lia|done].
Qed.

(** The number of blocks of a file of [n] bytes. *)
Definition nblk (n : nat) : nat := (n + 511) / 512.

Lemma nblk_spec n : (512 * nblk n < n + 512 ∧ n ≤ 512 * nblk n)%nat.
Proof.
  unfold nblk. pose proof (Nat.div_mod (n + 511) 512 ltac:(lia)). pose proof (Nat.mod_upper_bound (n + 511) 512 ltac:(lia)). lia.
Qed.

Lemma nblk_unique n m : (512 * m < n + 512)%nat → (n ≤ 512 * m)%nat → nblk n = m.
Proof. intros H1 H2. pose proof (nblk_spec n). lia. Qed.

Lemma nblocks_mono m m' : (m ≤ m')%nat → nblocks m ≤ nblocks m'.
Proof. intros H. unfold nblocks. destruct (Nat.ltb_spec 12 m), (Nat.ltb_spec 12 m'); lia. Qed.

Lemma append_block_any st dins inum d data :
  image st dins → 1 ≤ inum < m_freeinode st → dins inum = d → holds (view st) d (nblk (length data)) data →
  let fbn := (length data / 512)%nat in (fbn < 140)%nat →
  m_freeblock st + nblocks (S fbn) - nblocks (nblk (length data)) ≤ 1000 →
  ∃ st' a, let d' := with_d_addrs a d in
    append_block fbn d st = Done (slot (view st') d' fbn, d') st' ∧ image st' (<[inum := d']> dins) ∧
    kept st st' inum d d' ∧ m_freeblock st' = m_freeblock st + nblocks (S fbn) - nblocks (nblk (length data)) ∧
    holds (view st') d' (S fbn) data.
Proof.
  intros I Hin Ed Ho fbn Hf Hfb. pose proof (nblk_spec (length data)) as Hn.
  pose proof (Nat.div_mod (length data) 512 ltac:(lia)) as Hdm. fold fbn in Hdm.
  pose proof (Nat.mod_upper_bound (length data) 512 ltac:(lia)) as Hmod.
  destruct (decide (length data mod 512 = 0)%nat) as [E|Hne].
  - assert (Em : nblk (length data) = fbn) by (apply nblk_unique; lia). rewrite Em in *.
    by apply (append_block_new st dins inum d fbn data).
  - assert (Em : nblk (length data) = S fbn) by (apply nblk_unique; lia). rewrite Em in *.
    exists st, (d_addrs d). replace (with_d_addrs (d_addrs d) d) with d by by destruct d.
    split; [|split; [|split; [apply kept_refl|split; [lia|done]]]].
    + apply (append_block_old st dins inum d (S fbn) data); try done. lia.
    + by apply image_same.
Qed.

(** Writing after the end of the data, in the last block. *)
Lemma write_step st dins inum d data fbn p :
  image st dins → 1 ≤ inum < m_freeinode st → dins inum = d → holds (view st) d (S fbn) data →
  fbn = (length data / 512)%nat → Forall is_u8 p → (length data mod 512 + length p ≤ 512)%nat →
  let x := slot (view st) d fbn in
  let st' := put x (splice (view st x) (length data mod 512) p) st in
  image st' dins ∧ kept st st' inum d d ∧ holds (view st') d (S fbn) (data ++ p).
Proof.
  intros I Hin Ed Ho Hf Hp Hl x st'. pose proof (ho_m Ho) as Hm. pose proof (im_fb I) as Hfb. pose proof (im_len I) as Hlen.
  assert (Hz : x ≠ 0) by (apply (ho_map Ho); lia).
  pose proof (file_slot_range st dins inum d I Hin Ed fbn ltac:(lia) Hz) as Hr. fold x in Hr.
  destruct (im_ok I x ltac:(lia)) as [Hxl Hxb].
  assert (HV : ∀ c, 0 ≤ c → view st' c = if decide (c = x) then splice (view st x) (length data mod 512) p else view st c).
  { intros c Hc. apply view_put; [done|lia|done]. }
  assert (Hs : ∀ i k, 1 ≤ i < m_freeinode st → slot (view st') (dins i) k = slot (view st) (dins i) k).
  { intros i k Hi. apply slot_ext. intros Hi0. pose proof (im_range I i 140 Hi ltac:(lia) Hi0) as Hr'. rewrite slot_ind in Hr'.
    rewrite HV, decide_False; [done| |lia].
    pose proof (not_ind st dins inum fbn i I Hin ltac:(lia) Hi ltac:(right; lia)) as Hn. rewrite Ed in Hn. by apply Hn. }
  assert (Hsd : ∀ k, slot (view st') d k = slot (view st) d k) by (intros k; rewrite <-Ed; by apply Hs).
  split; [|split].
  - destruct I as [I1 I2 I3 I4 I5 I6 I7 I8 I9]. constructor; try done.
    + by apply length_put.
    + intros b Hb. rewrite HV by lia. case_decide; [|by apply I3]. split; [rewrite length_splice; lia|by apply Forall_splice].
    + intros b Hb. change (m_freeblock st') with (m_freeblock st) in Hb. rewrite HV, decide_False by lia. by apply I6.
    + intros i k Hi Hk. rewrite Hs by done. by apply I8.
    + intros i k i' k' Hi Hi' Hk Hk'. rewrite !Hs by done. by apply I9.
  - constructor; [|by intros k Hk Hne; rewrite Hsd in Hne|done|done].
    intros c Hc Hn. rewrite HV, decide_False; [done| |lia]. intros ->. apply (Hn fbn); [lia|done].
  - destruct Ho as [H1 H2 H3 H5 H4]. pose proof (Nat.div_mod (length data) 512 ltac:(lia)) as Hdm.
    constructor; [intros bn Hbn; rewrite Hsd; auto|by rewrite Hsd|rewrite length_app; lia|done|].
    intros y Hy. pose proof (Nat.div_mod y 512 ltac:(lia)) as Hdy. pose proof (Nat.mod_upper_bound y 512 ltac:(lia)).
    assert (Hyb : (y / 512 ≤ fbn)%nat) by lia. specialize (H4 y Hy). unfold fbyte in *.
    rewrite <-slot_data in * by lia. rewrite Hsd. destruct (decide (y / 512 = fbn)%nat) as [E|Hne].
    + rewrite E in *. fold x in H4 |- *. rewrite HV, decide_True by lia. rewrite nth_lookup, lookup_splice by lia.
      case_decide as Hin'.
      * rewrite <-nth_lookup, app_nth2 by lia. f_equal. lia.
      * rewrite <-nth_lookup, H4. destruct (decide (y < length data)%nat); [by rewrite app_nth1|].
        rewrite !nth_overflow; [done|rewrite length_app; lia|lia].
    + assert (Hz' : slot (view st) d (y / 512) ≠ 0) by (apply H1; lia).
      pose proof (file_slot_range st dins inum d I Hin Ed (y / 512) ltac:(lia) Hz') as Hr'.
      rewrite HV, decide_False; [rewrite H4, app_nth1 by lia; done| |lia]. intros E. destruct (im_inj I inum (y / 512) inum fbn);
        rewrite ?Ed; try done; lia.
Qed.

(** The loop of [iappend]. *)
Lemma iappend_loop_ok fuel inum : ∀ st dins d data p,
  image st dins → 1 ≤ inum < m_freeinode st → dins inum = d → holds (view st) d (nblk (length data)) data →
  Forall is_u8 p → (length p < fuel)%nat → (length data + length p ≤ 140 * 512)%nat →
  m_freeblock st + nblocks (nblk (length data + length p)) - nblocks (nblk (length data)) ≤ 1000 →
  ∃ st' a, let d' := with_d_addrs a d in
    iappend_loop fuel p (Z.of_nat (length data)) d st = Done (Z.of_nat (length data + length p), d') st' ∧
    image st' (<[inum := d']> dins) ∧ kept st st' inum d d' ∧
    m_freeblock st' = m_freeblock st + nblocks (nblk (length data + length p)) - nblocks (nblk (length data)) ∧
    holds (view st') d' (nblk (length data + length p)) (data ++ p).
Proof.
  induction fuel as [|fuel IH]; intros st dins d data p I Hin Ed Ho Hp Hfuel Hlen Hfb; [lia|].
  destruct (decide (p = [])) as [->|Hpn].
  { exists st, (d_addrs d). replace (with_d_addrs (d_addrs d) d) with d by by destruct d.
    cbn [length]. rewrite Nat.add_0_r, app_nil_r in *. split; [done|].
    split; [by apply image_same|split; [apply kept_refl|split; [lia|done]]]. }
  assert (Hp0 : (0 < length p)%nat) by (destruct p; [done|simpl; lia]).
  destruct (off_div (Z.of_nat (length data)) ltac:(lia)) as [Eb Em]. rewrite Nat2Z.id in Eb, Em.
  set (fbn := (length data / 512)%nat) in *. pose proof (Nat.div_mod (length data) 512 ltac:(lia)) as Hdm. fold fbn in Hdm.
  pose proof (Nat.mod_upper_bound (length data) 512 ltac:(lia)) as Hmod.
  pose proof (nblk_spec (length data + length p)) as Hnb.
  pose proof (nblocks_mono (S fbn) (nblk (length data + length p)) ltac:(lia)) as Hmono.
  destruct (append_block_any st dins inum d data I Hin Ed Ho) as (st1 & a1 & E1 & I1 & K1 & F1 & H1); [fold fbn; lia|fold fbn; lia|].
  fold fbn in E1, F1, H1. set (d1 := with_d_addrs a1 d) in *.
  set (n1 := (length p `min` (512 - length data mod 512))%nat).
  assert (Hin1 : 1 ≤ inum < m_freeinode st1) by (by rewrite (ke_fi K1)).
  destruct (write_step st1 _ inum d1 data fbn (take n1 p) I1 Hin1 (fn_lookup_insert _ _ _) H1 eq_refl) as (I2 & K2 & H2).
  { by apply Forall_take. } { rewrite length_take. lia. }
  set (x := slot (view st1) d1 fbn) in *. set (st2 := put _ _ st1) in *.
  assert (Hz : x ≠ 0) by (apply (ho_map H1); lia).
  pose proof (file_slot_range st1 _ inum d1 I1 Hin1 (fn_lookup_insert _ _ _) fbn ltac:(lia) Hz) as Hr. fold x in Hr.
  pose proof (im_fb I1) as Hfb1. pose proof (im_len I1) as Hl1.
  assert (Hn1 : length (data ++ take n1 p) = (length data + n1)%nat) by (rewrite length_app, length_take; lia).
  assert (Enb : nblk (length data + n1) = S fbn) by (apply nblk_unique; lia).
  destruct (IH st2 (<[inum := d1]> dins) d1 (data ++ take n1 p) (drop n1 p)) as (st3 & a3 & E3 & I3 & K3 & F3 & H3); try done.
  - apply fn_lookup_insert.
  - by rewrite Hn1, Enb.
  - by apply Forall_drop.
  - rewrite length_drop. lia.
  - rewrite Hn1, length_drop. lia.
  - rewrite Hn1, length_drop, Enb. replace (length data + n1 + (length p - n1))%nat with (length data + length p)%nat by lia.
    change (m_freeblock st2) with (m_freeblock st1). lia.
  - rewrite Hn1, length_drop, Enb in *. replace (length data + n1 + (length p - n1))%nat with (length data + length p)%nat in * by lia.
    rewrite <-app_assoc, take_drop in H3. exists st3, a3. cbv zeta.
    replace (with_d_addrs a3 d) with (with_d_addrs a3 d1) by by destruct d.
    split; [|split; [by apply image_update in I3|split; [|split; [|done]]]].
    + cbn [iappend_loop]. destruct p as [|c p']; [done|]. rewrite Eb. change MAXFILE with 140.
      rewrite (proj2 (Z.ltb_lt _ _)) by lia. erewrite bind_done by done. rewrite Nat2Z.id. erewrite bind_done by exact E1.
      cbn [fst snd]. fold x. erewrite bind_done by (apply rsect_run; [done|lia]). unfold BSIZE in *.
      replace (Z.to_nat (Z.of_nat (length data) - Z.of_nat fbn * 512)) with (length data mod 512)%nat by lia.
      replace (Z.to_nat _) with n1 by (unfold n1; lia). erewrite bind_done by (apply wsect_run; [done|lia]).
      rewrite u32_small by (unfold is_u32; lia). replace (Z.of_nat (length data) + Z.of_nat n1) with (Z.of_nat (length data + n1)) by lia.
      exact E3.
    + eapply kept_trans; [exact K1|]. by eapply kept_trans.
    + change (m_freeblock st2) with (m_freeblock st1) in F3. lia.
Qed.

(** * The table of inodes *)

Lemma IBLOCK_sb0 i : 0 ≤ i ≤ 200 → IBLOCK i sb0 = i / 8 + 32.
Proof. intros H. unfold IBLOCK, IPB, BSIZE. change (512 / 64) with 8. cbn [sb_inodestart sb0]. apply u32_small. unfold is_u32. zdiv. Qed.

Lemma IBLOCK_range i : 0 ≤ i ≤ 200 → 32 ≤ IBLOCK i sb0 < 58.
Proof. intros H. rewrite IBLOCK_sb0 by done. zdiv. Qed.

(** Storing a block before the data. *)
Lemma meta_put st dins b blk :
  image st dins → 0 < b < 59 → block_ok blk →
  image (put b blk st) dins ∧
  ∀ i m data, 1 ≤ i < m_freeinode st → holds (view st) (dins i) m data → holds (view (put b blk st)) (dins i) m data.
Proof.
  intros I Hb Hblk. pose proof (im_len I) as Hl. pose proof (im_fb I) as Hfb.
  assert (HV : ∀ c, 0 ≤ c → view (put b blk st) c = if decide (c = b) then blk else view st c).
  { intros c Hc. apply view_put; [done|lia|done]. }
  assert (Hs : ∀ i k, 1 ≤ i < m_freeinode st → slot (view (put b blk st)) (dins i) k = slot (view st) (dins i) k).
  { intros i k Hi. apply slot_ext. intros Hz. pose proof (im_range I i 140 Hi ltac:(lia) Hz) as Hr. rewrite slot_ind in Hr.
    by rewrite HV, decide_False by lia. }
  split.
  - destruct I as [I1 I2 I3 I4 I5 I6 I7 I8 I9]. constructor; try done.
    + by apply length_put.
    + intros c Hc. rewrite HV by lia. case_decide; [done|by apply I3].
    + intros c Hc. change (m_freeblock (put b blk st)) with (m_freeblock st) in Hc. rewrite HV, decide_False by lia. by apply I6.
    + intros i k Hi Hk. rewrite Hs by done. by apply I8.
    + intros i k i' k' Hi Hi' Hk Hk'. rewrite !Hs by done. by apply I9.
  - intros i m data Hi. apply holds_frame. intros k Hk Hz. pose proof (im_range I i k Hi Hk Hz).
    by rewrite HV, decide_False by lia.
Qed.

(** The block of the table after inode [inum] is stored. *)
Definition put_inode (inum : Z) (d : dinode) (st : mkfs) : mkfs :=
  put (IBLOCK inum sb0) (splice (view st (IBLOCK inum sb0)) (dinode_off inum) (dinode_enc d)) st.

Lemma winode_run st dins inum d : image st dins → 0 ≤ inum ≤ 200 → winode inum d st = Done tt (put_inode inum d st).
Proof.
  intros I Hi. pose proof (IBLOCK_range inum Hi). unfold winode. unfold bind at 1, gets. cbn [obind]. rewrite (im_sb I). cbv zeta.
  erewrite bind_done by (apply rsect_run; [apply (im_len I)|lia]). apply wsect_run; [apply (im_len I)|lia].
Qed.

Lemma rinode_run st dins inum : image st dins → 0 ≤ inum ≤ 200 → rinode inum st = Done (dinode_at sb0 (view st) inum) st.
Proof.
  intros I Hi. pose proof (IBLOCK_range inum Hi). unfold rinode. unfold bind at 1, gets. cbn [obind]. rewrite (im_sb I). cbv zeta.
  by erewrite bind_done by (apply rsect_run; [apply (im_len I)|lia]).
Qed.

Lemma dinode_at_put st dins inum d i :
  image st dins → 0 ≤ inum ≤ 200 → 0 ≤ i ≤ 200 → dinode_ok d →
  dinode_at sb0 (view (put_inode inum d st)) i = if decide (i = inum) then d else dinode_at sb0 (view st) i.
Proof.
  intros I Hin Hi Hd. pose proof (IBLOCK_range inum Hin) as Hr. pose proof (IBLOCK_range i Hi) as Hr'.
  destruct (im_ok I (IBLOCK inum sb0) ltac:(lia)) as [Hl _]. pose proof (dinode_off_bound inum ltac:(lia)).
  pose proof (length_dinode_enc d (do_len _ Hd)) as He. unfold dinode_at, put_inode.
  rewrite view_put by (apply (im_len I) || lia). case_decide as EB.
  - case_decide as E; [subst; apply dinode_dec_enc; [lia|done]|]. rewrite EB. apply dinode_dec_other; [lia|].
    rewrite !IBLOCK_sb0 in EB by lia. unfold dinode_off, IPB, BSIZE in *. change (512 / 64) with 8 in *. zdiv.
  - rewrite decide_False; [done|]. intros ->. done.
Qed.

Lemma put_inode_block st dins inum d : image st dins → 0 ≤ inum ≤ 200 → dinode_ok d →
  block_ok (splice (view st (IBLOCK inum sb0)) (dinode_off inum) (dinode_enc d)).
Proof. intros I Hi Hd. pose proof (IBLOCK_range inum Hi). apply inode_view_ok; [lia|done|apply (im_ok I); lia]. Qed.

Lemma slot_addrs V d d' k : d_addrs d' = d_addrs d → slot V d' k = slot V d k.
Proof. unfold slot. by intros ->. Qed.

Lemma holds_addrs V d d' m data : d_addrs d' = d_addrs d → holds V d m data → holds V d' m data.
Proof.
  intros E [H1 H2 H3 H5 H4]. constructor; [|by rewrite (slot_addrs _ _ _ _ E)|done|done|by rewrite E].
  intros bn Hbn. rewrite (slot_addrs _ _ _ _ E). auto.
Qed.

(** A change of an inode outside its addresses. *)
Lemma image_addrs st dins inum d d' :
  image st (<[inum := d]> dins) → d_addrs d' = d_addrs d → dinode_ok d' → image st (<[inum := d']> dins).
Proof.
  intros [I1 I2 I3 I4 I5 I6 I7 I8 I9] E Hd.
  assert (Hs : ∀ i k, slot (view st) (<[inum := d']> dins i) k = slot (view st) (<[inum := d]> dins i) k).
  { intros i k. apply slot_addrs. destruct (decide (i = inum)) as [->|Hi]; [by rewrite !fn_lookup_insert|].
    by rewrite !fn_lookup_insert_ne. }
  constructor; try done.
  - intros i Hi. specialize (I7 i Hi). destruct (decide (i = inum)) as [->|Hne]; [by rewrite fn_lookup_insert|].
    rewrite fn_lookup_insert_ne in * by done. done.
  - intros i k Hi Hk. rewrite Hs. by apply I8.
  - intros i k i' k' Hi Hi' Hk Hk'. rewrite !Hs. by apply I9.
Qed.

(** * The image as a list of files *)

(** A file as mkfs.c makes it: its type and its bytes. *)
Abbreviation file := (Z * list Z)%type.

Definition file_blocks (f : file) : Z := nblocks (nblk (length f.2)).

(** The blocks in use with these files. *)
Fixpoint used (fs : list file) : Z :=
  match fs with
  | [] => 59
  | f :: fs' => file_blocks f + used fs'
  end.

Record file_is (V : Z → list Z) (d : dinode) (f : file) : Prop := mkFileIs {
  fi_type : d_type d = f.1;
  fi_nlink : d_nlink d = 1;
  fi_size : d_size d = Z.of_nat (length f.2);
  fi_holds : holds V d (nblk (length f.2)) f.2;
}.
Arguments fi_type {_ _ _} _.
Arguments fi_nlink {_ _ _} _.
Arguments fi_size {_ _ _} _.
Arguments fi_holds {_ _ _} _.

(** The image holds the files [fs], as inodes 1, 2, ... *)
Record fsys (st : mkfs) (dins : Z → dinode) (fs : list file) : Prop := mkFsys {
  fy_image : image st dins;
  fy_sb : view st 1 = splice (replicate 512 0) 0 (sb_enc sb0);
  fy_log : view st 2 = replicate 512 0;
  fy_fi : m_freeinode st = Z.of_nat (S (length fs));
  fy_fb : m_freeblock st = used fs;
  fy_disk : ∀ i, 1 ≤ i < m_freeinode st → dinode_at sb0 (view st) i = dins i;
  fy_file : ∀ j f, fs !! j = Some f → file_is (view st) (dins (Z.of_nat (S j))) f;
}.
Arguments fy_image {_ _ _} _.
Arguments fy_sb {_ _ _} _.
Arguments fy_log {_ _ _} _.
Arguments fy_fi {_ _ _} _.
Arguments fy_fb {_ _ _} _.
Arguments fy_disk {_ _ _} _.
Arguments fy_file {_ _ _} _.

Lemma used_update fs j f g : fs !! j = Some f → used (<[j := g]> fs) = used fs + file_blocks g - file_blocks f.
Proof.
  revert j. induction fs as [|h fs IH]; intros [|j] Hj; try done; simpl in *.
  - injection Hj as ->. lia.
  - rewrite (IH j Hj). lia.
Qed.

Lemma used_app fs fs' : used (fs ++ fs') = used fs + used fs' - 59.
Proof. induction fs as [|f fs IH]; simpl; [lia|]. rewrite IH. lia. Qed.

Lemma file_blocks_pos f : 0 ≤ file_blocks f.
Proof. unfold file_blocks, nblocks. destruct (12 <? _)%nat; lia. Qed.

Lemma used_min fs : 59 ≤ used fs.
Proof. induction fs as [|f fs IH]; simpl; [lia|]. pose proof (file_blocks_pos f). lia. Qed.

Lemma with_size_ok d a n : dinode_ok (with_d_addrs a d) → (n ≤ 140 * 512)%nat →
  dinode_ok (with_d_size (Z.of_nat n) (with_d_addrs a d)).
Proof. intros [H1 H2 H3 H4 H5 H6 H7] Hn. constructor; try done. cbn. unfold is_u32. lia. Qed.

(** [iappend] appends to one file. *)
Lemma iappend_ok st dins fs j ty data p :
  fsys st dins fs → fs !! j = Some (ty, data) → Forall is_u8 p → (length data + length p ≤ 140 * 512)%nat →
  used (<[j := (ty, data ++ p)]> fs) ≤ 1000 →
  ∃ st' dins', iappend (Z.of_nat (S j)) p st = Done tt st' ∧ fsys st' dins' (<[j := (ty, data ++ p)]> fs).
Proof.
  intros [I S1 L2 Fi Fb Di Fl] Hj Hp Hlen Hu. pose proof (lookup_lt_Some _ _ _ Hj) as Hlt.
  remember (Z.of_nat (S j)) as inum eqn:Ein. assert (Hin : 1 ≤ inum < m_freeinode st) by lia. pose proof (im_fi I) as Hfi.
  destruct (Fl j _ Hj) as [T1 T2 T3 T4]. cbn [fst snd] in *. rewrite <-Ein in *.
  rewrite (used_update _ _ _ _ Hj) in Hu. unfold file_blocks in Hu. cbn [snd] in Hu. rewrite length_app in Hu.
  destruct (iappend_loop_ok (S (length p)) inum st dins (dins inum) data p) as (st1 & a & E & I1 & K1 & F1 & H1); try done; try lia.
  set (d1 := with_d_addrs a (dins inum)) in *. set (n := (length data + length p)%nat) in *.
  pose proof (im_din I1 inum ltac:(rewrite (ke_fi K1); lia)) as Hd1. rewrite fn_lookup_insert in Hd1.
  pose proof (with_size_ok _ _ n Hd1 Hlen) as Hd2. set (d2 := with_d_size (Z.of_nat n) d1) in *.
  pose proof (image_addrs st1 dins inum d1 d2 I1 eq_refl Hd2) as I2.
  pose proof (IBLOCK_range inum ltac:(lia)) as HI.
  destruct (meta_put st1 _ (IBLOCK inum sb0) (splice (view st1 (IBLOCK inum sb0)) (dinode_off inum) (dinode_enc d2)) I2) as [I3 H3];
    [lia|by eapply put_inode_block; [exact I2|lia|]|]. fold (put_inode inum d2 st1) in I3, H3.
  assert (HV : ∀ c, 0 < c < 32 → view (put_inode inum d2 st1) c = view st c).
  { intros c Hc. unfold put_inode. rewrite view_put, decide_False by (apply (im_len I1) || lia).
    apply (kept_meta st st1 dins inum d1 c I K1 Hin). lia. }
  exists (put_inode inum d2 st1), (<[inum := d2]> dins). split.
  - unfold iappend. erewrite bind_done by (apply (rinode_run st dins); [done|lia]). rewrite Di by done.
    rewrite T3, xint_small by (unfold is_u32; lia). erewrite bind_done by exact E. cbn [fst snd].
    rewrite xint_small by (unfold is_u32; lia). apply (winode_run st1 _ inum d2 I1). lia.
  - constructor; [done|rewrite HV by lia; done|rewrite HV by lia; done| | | |].
    + rewrite length_insert. by rewrite <-Fi, <-(ke_fi K1).
    + rewrite (used_update _ _ _ _ Hj). unfold file_blocks. cbn [snd]. rewrite length_app.
      change (m_freeblock (put_inode inum d2 st1)) with (m_freeblock st1). fold n. lia.
    + intros i Hi. change (m_freeinode (put_inode inum d2 st1)) with (m_freeinode st1) in Hi. rewrite (ke_fi K1) in Hi.
      rewrite (dinode_at_put st1 _ inum d2 i I1) by (done || lia). case_decide as Ei; [subst; by rewrite fn_lookup_insert|].
      rewrite fn_lookup_insert_ne by done. rewrite <-Di by done. unfold dinode_at. pose proof (IBLOCK_range i ltac:(lia)).
      by rewrite (kept_meta st st1 dins inum d1) by (done || lia).
    + intros k f Hk. destruct (decide (k = j)) as [->|Hne].
      * rewrite list_lookup_insert_eq in Hk by done. injection Hk as <-. rewrite <-Ein, fn_lookup_insert.
        constructor; try done; cbn [fst snd]; rewrite length_app; [done|]. fold n.
        specialize (H3 inum (nblk n) (data ++ p) ltac:(rewrite (ke_fi K1); lia)). rewrite fn_lookup_insert in H3. apply H3.
        by apply (holds_addrs _ d1).
      * rewrite list_lookup_insert_ne in Hk by done. destruct (Fl k f Hk) as [U1 U2 U3 U4].
        pose proof (lookup_lt_Some _ _ _ Hk) as Hklt. rewrite fn_lookup_insert_ne by lia. constructor; try done.
        specialize (H3 (Z.of_nat (S k)) (nblk (length f.2)) f.2 ltac:(rewrite (ke_fi K1); lia)).
        rewrite fn_lookup_insert_ne in H3 by lia. apply H3. apply (kept_holds st st1 dins inum d1); try done; lia.
Qed.

(** A new inode has no blocks. *)
Definition empty_inode (ty : Z) : dinode := mkDinode ty 0 0 1 0 (replicate 13 0).

Lemma empty_inode_ok ty : is_short ty → dinode_ok (empty_inode ty).
Proof.
  intros H. constructor; try done.
  - by apply Forall_replicate.
Qed.

Lemma empty_slot V ty k : slot V (empty_inode ty) k = 0.
Proof.
  unfold slot, block_of, ind_of, empty_inode. cbn [d_addrs]. rewrite !nth_zeros. destruct (k <? 140)%nat; [|done].
  by destruct (k <? 12)%nat.
Qed.

Lemma empty_holds V ty : holds V (empty_inode ty) 0 [].
Proof.
  constructor; [|rewrite empty_slot; lia|simpl; lia|lia|lia]. intros bn Hbn. rewrite empty_slot. lia.
Qed.

Lemma image_new st dins ty :
  image st dins → m_freeinode st < 200 → is_short ty →
  image (with_m_freeinode (m_freeinode st + 1) st) (<[m_freeinode st := empty_inode ty]> dins).
Proof.
  intros [I1 I2 I3 I4 I5 I6 I7 I8 I9] Hlt Hty. set (fi := m_freeinode st) in *.
  assert (Hc : ∀ i, 1 ≤ i < fi + 1 → i = fi ∧ (∀ k, slot (view st) (<[fi := empty_inode ty]> dins i) k = 0) ∨
    1 ≤ i < fi ∧ <[fi := empty_inode ty]> dins i = dins i).
  { intros i Hi. destruct (decide (i = fi)) as [->|Hne]; [left|right].
    - split; [done|]. intros k. rewrite fn_lookup_insert. apply empty_slot.
    - split; [lia|by apply fn_lookup_insert_ne]. }
  constructor; try done; cbn [m_freeinode with_m_freeinode].
  - lia.
  - intros i Hi. destruct (Hc i Hi) as [[-> _]|[Hi' E]]; [rewrite fn_lookup_insert; by apply empty_inode_ok|].
    rewrite E. by apply I7.
  - intros i k Hi Hk. destruct (Hc i Hi) as [[_ E]|[Hi' E]]; rewrite E; [done|by apply I8].
  - intros i k i' k' Hi Hi' Hk Hk'. destruct (Hc i Hi) as [[_ E]|[Hi1 E]]; rewrite E; [done|].
    destruct (Hc i' Hi') as [[_ E']|[Hi1' E']]; rewrite E'; [congruence|by apply I9].
Qed.

(** [ialloc] adds an empty file. *)
Lemma ialloc_ok st dins fs ty :
  fsys st dins fs → (length fs < 199)%nat → ty = T_DIR ∨ ty = T_FILE →
  ∃ st' dins', ialloc ty st = Done (Z.of_nat (S (length fs))) st' ∧ fsys st' dins' (fs ++ [(ty, [])]).
Proof.
  intros [I S1 L2 Fi Fb Di Fl] Hlt Hty. set (fi := m_freeinode st) in *.
  assert (Hsh : is_short ty) by (unfold is_short, T_DIR, T_FILE in *; lia).
  pose proof (image_new st dins ty I ltac:(fold fi; lia) Hsh) as I1. fold fi in I1.
  set (st1 := with_m_freeinode (fi + 1) st) in *. pose proof (IBLOCK_range fi ltac:(lia)) as HI.
  destruct (meta_put st1 _ (IBLOCK fi sb0)
    (splice (view st1 (IBLOCK fi sb0)) (dinode_off fi) (dinode_enc (empty_inode ty))) I1) as [I3 H3];
    [lia|by eapply put_inode_block; [exact I1|lia|apply empty_inode_ok]|]. fold (put_inode fi (empty_inode ty) st1) in I3, H3.
  assert (HV : ∀ c, 0 < c < 32 → view (put_inode fi (empty_inode ty) st1) c = view st c).
  { intros c Hc. unfold put_inode. by rewrite view_put, decide_False by (apply (im_len I1) || lia). }
  exists (put_inode fi (empty_inode ty) st1), (<[fi := empty_inode ty]> dins). split.
  - unfold ialloc. unfold bind at 1, gets. cbn [obind]. fold fi. unfold bind at 1, modify. cbn [obind].
    rewrite u32_small by (unfold is_u32; lia). fold st1.
    replace (mkDinode _ _ _ _ _ _) with (empty_inode ty) by (by destruct Hty as [-> | ->]).
    erewrite bind_done by (apply (winode_run st1 _ fi _ I1); lia). unfold ret. by rewrite Fi.
  - constructor; [done|rewrite HV by lia; done|rewrite HV by lia; done| | | |].
    + rewrite length_app. cbn [length]. change (m_freeinode _) with (fi + 1). lia.
    + rewrite used_app. change (m_freeblock _) with (m_freeblock st). cbn [used].
      change (file_blocks (ty, [])) with 0. lia.
    + intros i Hi. change (m_freeinode _) with (fi + 1) in Hi.
      rewrite (dinode_at_put st1 _ fi _ i I1) by (try apply empty_inode_ok; done || lia).
      case_decide as Ei; [subst; by rewrite fn_lookup_insert|]. rewrite fn_lookup_insert_ne by done. apply Di. lia.
    + intros k f Hk. apply lookup_snoc_Some in Hk as [[Hk Hkf]|[-> <-]].
      * destruct (Fl k f Hkf) as [U1 U2 U3 U4]. rewrite fn_lookup_insert_ne by lia. constructor; try done.
        specialize (H3 (Z.of_nat (S k)) (nblk (length f.2)) f.2). change (m_freeinode st1) with (fi + 1) in H3.
        rewrite fn_lookup_insert_ne in H3 by lia. apply H3; [lia|done].
      * rewrite <-Fi, fn_lookup_insert. constructor; try done. apply empty_holds.
Qed.

(** * The files of the command line *)

Lemma nblk_mono n m : (n ≤ m)%nat → (nblk n ≤ nblk m)%nat.
Proof. intros H. apply Nat.Div0.div_le_mono. lia. Qed.

Lemma file_blocks_mono ty data p : file_blocks (ty, data) ≤ file_blocks (ty, data ++ p).
Proof. unfold file_blocks. cbn [snd]. apply nblocks_mono, nblk_mono. rewrite length_app. lia. Qed.

(** The calls of [iappend] on the pieces of a file. *)
Lemma append_chunks_ok chunks : ∀ st dins fs j ty data,
  fsys st dins fs → fs !! j = Some (ty, data) → Forall (Forall is_u8) chunks →
  (length data + length (concat chunks) ≤ 140 * 512)%nat → used (<[j := (ty, data ++ concat chunks)]> fs) ≤ 1000 →
  ∃ st' dins', for_each chunks (iappend (Z.of_nat (S j))) st = Done tt st' ∧
    fsys st' dins' (<[j := (ty, data ++ concat chunks)]> fs).
Proof.
  induction chunks as [|c chunks IH]; intros st dins fs j ty data Hf Hj Hc Hl Hu; cbn [concat] in *.
  { exists st, dins. split; [done|]. by rewrite app_nil_r, list_insert_id. }
  inversion Hc as [|? ? Hc1 Hc2]; subst. rewrite length_app in Hl. rewrite app_assoc in *.
  pose proof (lookup_lt_Some _ _ _ Hj) as Hlt. rewrite (used_update _ _ _ _ Hj) in Hu.
  pose proof (file_blocks_mono ty (data ++ c) (concat chunks)).
  destruct (iappend_ok st dins fs j ty data c) as (st1 & dins1 & E1 & F1); try done; [lia|rewrite (used_update _ _ _ _ Hj); lia|].
  destruct (IH st1 dins1 _ j ty (data ++ c) F1) as (st2 & dins2 & E2 & F2); [by apply list_lookup_insert_eq|done| | |].
  - rewrite length_app. lia.
  - rewrite list_insert_insert_eq, (used_update _ _ _ _ Hj). lia.
  - exists st2, dins2. rewrite list_insert_insert_eq in F2. split; [|done]. cbn [for_each]. by erewrite bind_done by exact E1.
Qed.

Definition file_bytes (f : hostfile) : list Z := concat (default [] (h_data f)).

(** What [add_file] needs of a file of the host. *)
Record host_ok (f : hostfile) : Prop := mkHostOk {
  hk_slash : Forall (λ c, c ≠ SLASH) (h_name f);
  hk_name : Forall is_u8 (h_name f);
  hk_open : h_data f ≠ None;
  hk_bytes : Forall (Forall is_u8) (default [] (h_data f));
  hk_size : Z.of_nat (length (file_bytes f)) ≤ MAXFILE * BSIZE;
}.

(** The entries of the root directory. *)
Definition root_entries (hs : list hostfile) : list dirent :=
  new_entry [46] 1 :: new_entry [46; 46] 1 ::
  imap (λ j f, new_entry (skip_underscore (h_name f)) (Z.of_nat (j + 2))) hs.

(** The files of the image: the root directory and a file for each name. *)
Definition files_of (hs : list hostfile) : list file :=
  (T_DIR, root_entries hs ≫= dirent_enc) :: ((λ f, (T_FILE, file_bytes f)) <$> hs).

Lemma root_entries_snoc hs f :
  root_entries (hs ++ [f]) = root_entries hs ++ [new_entry (skip_underscore (h_name f)) (Z.of_nat (length hs + 2))].
Proof. unfold root_entries. rewrite imap_app. simpl. by rewrite Nat.add_0_r. Qed.

Lemma files_of_snoc hs f :
  files_of (hs ++ [f]) = (T_DIR, (root_entries hs ≫= dirent_enc) ++
      dirent_enc (new_entry (skip_underscore (h_name f)) (Z.of_nat (length hs + 2)))) ::
    ((λ f, (T_FILE, file_bytes f)) <$> hs) ++ [(T_FILE, file_bytes f)].
Proof.
  unfold files_of. rewrite root_entries_snoc, bind_app, fmap_app. do 2 f_equal. f_equal.
  by rewrite bind_cons, app_nil_r.
Qed.

Lemma dirent_enc_bytes name i : Forall is_u8 name → Forall is_u8 (dirent_enc (new_entry name i)).
Proof.
  intros H. unfold dirent_enc. apply Forall_app. split; [apply le_enc_bytes|]. cbn [new_entry de_name].
  generalize DIRSIZ. intros n. revert name H. induction n as [|n IH]; intros name H; [constructor|]. cbn [lstrncpy].
  destruct (hd 0 name =? 0); [by apply Forall_replicate|]. destruct H as [|c name Hc H]; simpl; constructor; try done; by apply IH.
Qed.

Lemma length_root hs : length (root_entries hs ≫= dirent_enc) = (16 * (length hs + 2))%nat.
Proof.
  induction hs as [|f hs IH] using rev_ind; [done|].
  rewrite root_entries_snoc, bind_app, bind_cons, length_app, IH, length_app, length_dirent_enc, length_app. simpl. lia.
Qed.

Lemma used_snoc hs f : used (files_of hs) ≤ used (files_of (hs ++ [f])).
Proof.
  rewrite files_of_snoc. unfold files_of. cbn [used]. rewrite used_app. cbn [used].
  pose proof (file_blocks_mono T_DIR (root_entries hs ≫= dirent_enc)
    (dirent_enc (new_entry (skip_underscore (h_name f)) (Z.of_nat (length hs + 2))))).
  pose proof (file_blocks_pos (T_FILE, file_bytes f)). lia.
Qed.

Lemma used_prefix hs hs' : used (files_of hs) ≤ used (files_of (hs ++ hs')).
Proof.
  revert hs. induction hs' as [|f hs' IH]; intros hs; [by rewrite app_nil_r|].
  pose proof (used_snoc hs f). specialize (IH (hs ++ [f])). rewrite <-app_assoc in IH. change ([f] ++ hs') with (f :: hs') in IH. lia.
Qed.

Lemma skip_bytes name : Forall is_u8 name → Forall is_u8 (skip_underscore name).
Proof. intros H. destruct name as [|c rest]; [done|]. simpl. destruct (c =? 95); [by inversion H|done]. Qed.

(** A turn of the loop of [main]. *)
Lemma add_file_ok st dins hs f :
  fsys st dins (files_of hs) → host_ok f → (length hs < 198)%nat → used (files_of (hs ++ [f])) ≤ 1000 →
  ∃ st' dins', add_file 1 f st = Done tt st' ∧ fsys st' dins' (files_of (hs ++ [f])).
Proof.
  intros Hf [K1 K2 K3 K4 K5] Hl Hu. destruct (h_data f) as [chunks|] eqn:Ed; [|done]. cbn [default] in K4.
  assert (Eb : file_bytes f = concat chunks) by (unfold file_bytes; by rewrite Ed).
  rewrite files_of_snoc in *. rewrite Eb in *. set (e := dirent_enc _) in *. set (rd := root_entries hs ≫= dirent_enc) in *.
  set (others := (λ f, (T_FILE, file_bytes f)) <$> hs) in *. change (files_of hs) with ((T_DIR, rd) :: others) in Hf.
  assert (Hlen : length others = length hs) by apply length_fmap.
  cbn [used] in Hu. rewrite used_app in Hu. cbn [used] in Hu. pose proof (file_blocks_pos (T_FILE, concat chunks)).
  assert (Hrd : length rd = (16 * (length hs + 2))%nat) by apply length_root.
  assert (He : length e = 16%nat) by apply length_dirent_enc.
  destruct (ialloc_ok st dins _ T_FILE Hf) as (st1 & dins1 & E1 & F1); [simpl; lia|by right|].
  cbn [length] in E1. rewrite Hlen in E1. set (inum := Z.of_nat (S (S (length hs)))) in *.
  destruct (iappend_ok st1 dins1 _ 0 T_DIR rd e F1) as (st2 & dins2 & E2 & F2); [done| | | |].
  { apply dirent_enc_bytes. by apply skip_bytes. } { rewrite Hrd, He. lia. }
  { change (<[0%nat := _]> _) with (((T_DIR, rd ++ e) :: others) ++ [(T_FILE, [])]).
    rewrite used_app. cbn [used]. change (file_blocks (T_FILE, [])) with 0. lia. }
  change (<[0%nat := (T_DIR, rd ++ e)]> (((T_DIR, rd) :: others) ++ [(T_FILE, [])])) with
    (((T_DIR, rd ++ e) :: others) ++ [(T_FILE, [])]) in F2.
  assert (Ei : ∀ x, <[S (length hs) := x]> (((T_DIR, rd ++ e) :: others) ++ [(T_FILE, [])]) =
    ((T_DIR, rd ++ e) :: others) ++ [x]).
  { intros x. replace (S (length hs)) with (length ((T_DIR, rd ++ e) :: others) + 0)%nat by (simpl; lia). by rewrite insert_app_r. }
  destruct (append_chunks_ok chunks st2 dins2 _ (S (length hs)) T_FILE [] F2) as (st3 & dins3 & E3 & F3); [|done| | |].
  { rewrite lookup_app_r by (simpl; lia). simpl. by rewrite Hlen, Nat.sub_diag. }
  { unfold MAXFILE, NDIRECT, NINDIRECT, BSIZE in K5. change (12 + 512 / 4) with 140 in K5. cbn [length]. lia. }
  { rewrite Ei. cbn [app used]. rewrite used_app. cbn [used]. lia. }
  rewrite Ei in F3. exists st3, dins3. split; [|done]. unfold add_file.
  assert (Hs : existsb (Z.eqb SLASH) (h_name f) = false).
  { apply not_true_iff_false. rewrite existsb_exists. intros (c & Hin & E%Z.eqb_eq). rewrite Forall_forall in K1.
    apply (K1 c); [by apply list_elem_of_In|done]. }
  rewrite Hs. erewrite bind_done by done. rewrite Ed. erewrite bind_done by exact E1.
  replace (mkDirent (xshort inum) _) with (new_entry (skip_underscore (h_name f)) (Z.of_nat (length hs + 2))).
  2:{ unfold new_entry. f_equal. unfold xshort. rewrite le_dec_enc2. f_equal. lia. }
  fold e. erewrite bind_done by exact E2. exact E3.
Qed.
