(* ===== verification/Image.v ===== *)
(** The image that mkfs.c makes, and the kernel that mounts it.

    The parts of [main] are put together on the lemmas of Mkfs: [format] makes
    an empty file system, each turn of the loop adds a file, [finish] rounds
    the size of the root directory up and writes the bitmap.  The theorems say
    that the result meets the invariants of Inode, Fs and Dir, and what
    [readi] then reads from it; and what happens when the root directory fills
    its last block or there are more files than inodes. *)

From S2P Require Import Prelude State Bio Log Txn Inode Fs Dir Mkfs.

Lemma add_files_ok hs : ∀ hs0 st dins,
  fsys st dins (files_of hs0) → Forall host_ok hs → (length (hs0 ++ hs) ≤ 198)%nat → used (files_of (hs0 ++ hs)) ≤ 1000 →
  ∃ st' dins', for_each hs (add_file 1) st = Done tt st' ∧ fsys st' dins' (files_of (hs0 ++ hs)).
Proof.
  induction hs as [|f hs IH]; intros hs0 st dins Hf Hh Hl Hu; [exists st, dins; by rewrite app_nil_r|].
  inversion Hh as [|? ? Hh1 Hh2]; subst. assert (E : hs0 ++ f :: hs = (hs0 ++ [f]) ++ hs) by by rewrite <-app_assoc.
  rewrite E in *. pose proof (used_prefix (hs0 ++ [f]) hs). rewrite !length_app in Hl. cbn [length] in Hl.
  destruct (add_file_ok st dins hs0 f Hf Hh1) as (st1 & dins1 & E1 & F1); [lia|lia|].
  destruct (IH (hs0 ++ [f]) st1 dins1 F1 Hh2) as (st2 & dins2 & E2 & F2); [rewrite !length_app; simpl; lia|done|].
  exists st2, dins2. split; [|done]. cbn [for_each]. by erewrite bind_done by exact E1.
Qed.

(** * The empty file system *)

Definition zero_blk : list Z := replicate (Z.to_nat BSIZE) 0.

Lemma zero_blocks n : ∀ st, (length (m_img st) + n ≤ 1000)%nat →
  for_each (seqZ (Z.of_nat (length (m_img st))) (Z.of_nat n)) (λ i, wsect i zero_blk) st =
    Done tt (with_m_img (m_img st ++ replicate n zero_blk) st).
Proof.
  induction n as [|n IH]; intros st Hn.
  { cbn [seqZ for_each]. rewrite app_nil_r. by destruct st. }
  rewrite Nat2Z.inj_succ, seqZ_cons by lia. cbn [for_each].
  set (st1 := with_m_img (m_img st ++ [zero_blk]) st).
  assert (E : wsect (Z.of_nat (length (m_img st))) zero_blk st = Done tt st1).
  { unfold wsect, modify, write_block. rewrite sect_small, Nat2Z.id by lia. by rewrite Nat.ltb_irrefl, Nat.sub_diag. }
  erewrite bind_done by exact E. assert (Hl : length (m_img st1) = S (length (m_img st))) by (simpl; rewrite length_app; simpl; lia).
  specialize (IH st1). rewrite Hl in IH. rewrite Z.pred_succ, <-Nat2Z.inj_succ, IH by lia.
  cbn [m_img with_m_img st1]. by rewrite <-app_assoc.
Qed.

(** The image before the root directory is made. *)
Definition zero_img : list (list Z) := replicate (Z.to_nat FSSIZE) zero_blk.

Lemma length_zero_img : length zero_img = 1000%nat.
Proof. unfold zero_img. rewrite length_replicate. unfold FSSIZE. lia. Qed.

Lemma zero_img_lookup i : (i < 1000)%nat → zero_img !! i = Some zero_blk.
Proof. intros H. apply lookup_replicate_2. unfold FSSIZE. lia. Qed.

Definition sb_blk : list Z := splice zero_blk 0 (sb_enc sb0).
Definition zeroed : mkfs := mkMkfs zero_img sb0 1 59.
Definition blank : mkfs := put 1 sb_blk zeroed.

#[local] Opaque zero_img.

Lemma blank_view b : 0 ≤ b < 1000 → view blank b = if decide (b = 1) then sb_blk else zero_blk.
Proof.
  intros Hb. unfold blank. rewrite (view_put zeroed length_zero_img) by lia. case_decide; [done|].
  unfold disk_view. cbn [zeroed m_img]. by rewrite zero_img_lookup by lia.
Qed.

Lemma sb_blk_ok : block_ok sb_blk.
Proof.
  split; [by vm_compute|]. apply Forall_splice; [by apply Forall_replicate|].
  unfold sb_enc. repeat (apply Forall_app; split); apply le_enc_bytes.
Qed.

Lemma blank_fsys dins : fsys blank dins [].
Proof.
  constructor.
  - constructor; try (cbn; lia).
    + reflexivity.
    + apply (length_put zeroed length_zero_img).
    + intros b Hb. rewrite blank_view by done. case_decide; [apply sb_blk_ok|apply zero_ok].
    + intros b Hb. cbn in Hb. rewrite blank_view, decide_False by lia. reflexivity.
  - rewrite blank_view, decide_True by lia. reflexivity.
  - rewrite blank_view, decide_False by lia. reflexivity.
  - reflexivity.
  - reflexivity.
  - intros i Hi. cbn in Hi. lia.
  - intros j f Hj. by rewrite lookup_nil in Hj.
Qed.

Lemma format_ok : ∃ st dins, format start = Done ROOTINO st ∧ fsys st dins (files_of []).
Proof.
  set (dins := λ _ : Z, empty_inode 0).
  destruct (ialloc_ok blank dins [] T_DIR (blank_fsys dins)) as (st1 & dins1 & E1 & F1); [simpl; lia|by left|].
  set (e1 := dirent_enc (mkDirent (xshort 1) (clear_name [46]))).
  set (e2 := dirent_enc (mkDirent (xshort 1) (clear_name [46; 46]))).
  destruct (iappend_ok st1 dins1 [(T_DIR, [])] 0 T_DIR [] e1 F1) as (st2 & dins2 & E2 & F2); [done| |apply Nat.leb_le; by vm_compute|by vm_compute|].
  { apply (dirent_enc_bytes [46] 1). repeat constructor; lia. }
  destruct (iappend_ok st2 dins2 [(T_DIR, e1)] 0 T_DIR e1 e2 F2) as (st3 & dins3 & E3 & F3); [done| |apply Nat.leb_le; by vm_compute|by vm_compute|].
  { apply (dirent_enc_bytes [46; 46] 1). repeat constructor; lia. }
  exists st3, dins3. split; [|exact F3]. unfold format. cbv zeta.
  erewrite bind_done by done. erewrite bind_done by done.
  set (st0 := with_m_freeblock _ _). assert (E0 : st0 = mkMkfs [] sb0 1 59) by (by vm_compute). rewrite E0. clear st0 E0.
  erewrite bind_done; [|exact (zero_blocks 1000 (mkMkfs [] sb0 1 59) ltac:(simpl; lia))].
  erewrite bind_done by done. erewrite bind_done; [|apply wsect_run; [apply length_replicate|lia]].
  erewrite bind_done by exact E1. erewrite bind_done by done.
  erewrite bind_done by exact E2. by erewrite bind_done by exact E3.
Qed.

(** * The bitmap *)

Lemma bitmap_snoc n : foldl (λ buf i, set_bit i buf) zero_blk (seq 0 (S n)) =
  set_bit n (foldl (λ buf i, set_bit i buf) zero_blk (seq 0 n)).
Proof. by rewrite seq_S, foldl_snoc. Qed.

Lemma bitmap_ok u : block_ok (bitmap u).
Proof.
  unfold bitmap. fold zero_blk. generalize (Z.to_nat u). intros n. induction n as [|n IH]; [apply zero_ok|].
  rewrite bitmap_snoc. by apply set_bit_ok.
Qed.

Lemma zero_blk_clear b : bit_clear zero_blk b = true.
Proof. unfold bit_clear, zero_blk. by rewrite nth_zeros. Qed.

Lemma bitmap_spec u b : 0 ≤ u ≤ 4096 → (b < 4096)%nat → bit_clear (bitmap u) b = (u <=? Z.of_nat b).
Proof.
  intros Hu Hb. unfold bitmap. fold zero_blk. rewrite <-(Z2Nat.id u) at 2 by lia.
  assert (Hn : (Z.to_nat u ≤ 4096)%nat) by lia. revert Hn. generalize (Z.to_nat u). intros n.
  induction n as [|n IH]; intros Hn; [rewrite zero_blk_clear; by destruct b|].
  pose proof (bitmap_ok (Z.of_nat n)) as [Hl _]. unfold bitmap in Hl. rewrite Nat2Z.id in Hl. fold zero_blk in Hl.
  rewrite bitmap_snoc, bit_clear_set, IH by (try rewrite Hl; try apply Nat.Div0.div_lt_upper_bound; lia).
  case_decide; destruct (Z.leb_spec (Z.of_nat n) (Z.of_nat b)), (Z.leb_spec (Z.of_nat (S n)) (Z.of_nat b)); done || lia.
Qed.

(** * A mounted image *)

(** The superblock in block 1, as [readsb] reads it. *)
Definition sb_dec (d : list Z) : superblock :=
  mkSuperblock (rd_uint d 0) (rd_uint d 4) (rd_uint d 8) (rd_uint d 12) (rd_uint d 16) (rd_uint d 20) (rd_uint d 24).

(** A kernel whose disk is the image, after [iinit] and [initlog]. *)
Record mounted (s : kernel) (img : list (list Z)) : Prop := mkMounted {
  mo_disk : k_disk s = img;
  mo_sb : k_sb s = sb_dec (disk_view img 1);
  mo_start : lg_start (k_log s) = sb_logstart (k_sb s);
  mo_size : lg_size (k_log s) = sb_nlog (k_sb s);
}.
Arguments mo_disk {_ _} _.
Arguments mo_sb {_ _} _.
Arguments mo_start {_ _} _.
Arguments mo_size {_ _} _.

(** An entry of the cache that holds inode [inum] of the disk. *)
Definition loaded (s : kernel) (V : Z → list Z) (inum : Z) (ip : inode) : Prop :=
  load_dinode (dinode_at (k_sb s) V inum) ip = ip.

Lemma sb_blk_dec : sb_dec sb_blk = sb0.
Proof. by vm_compute. Qed.

Section mounted.
Context (st : mkfs) (dins : Z → dinode) (s : kernel).
Context (I : image st dins) (Hm : mounted s (m_img st)) (Hsb : view st 1 = sb_blk).
Context (u : Z) (Hu : u = m_freeblock st) (Hbm : view st 58 = bitmap u).

Lemma mounted_sb : k_sb s = sb0.
Proof. rewrite (mo_sb Hm), Hsb. apply sb_blk_dec. Qed.

Lemma mounted_len : length (k_disk s) = 1000%nat.
Proof. rewrite (mo_disk Hm). apply (im_len I). Qed.

Lemma mounted_start : data_start s = 59.
Proof. unfold data_start. by rewrite mounted_sb, mounted_len. Qed.

Lemma mounted_geom : fs_geom s.
Proof.
  unfold fs_geom. rewrite mounted_start, mounted_len, (mo_start Hm), (mo_size Hm), mounted_sb. by vm_compute.
Qed.

Lemma mounted_free b : 0 ≤ b < 1000 → bfree_in (k_sb s) (view st) b = (u <=? b).
Proof.
  intros Hb. unfold bfree_in. rewrite mounted_sb. unfold BBLOCK, BPB, BSIZE. change (512 * 8) with 4096.
  rewrite Z.div_small, Z.mod_small by lia. change (u32 (0 + sb_bmapstart sb0)) with 58. rewrite Hbm.
  pose proof (im_fb I). rewrite bitmap_spec by lia. by rewrite Z2Nat.id by lia.
Qed.

Lemma mounted_meta : meta_used s (view st).
Proof.
  intros b Hb. rewrite mounted_start in Hb. pose proof (im_fb I). rewrite mounted_free by lia. apply Z.leb_gt. lia.
Qed.

Lemma mounted_block b : 59 ≤ b < m_freeblock st → data_block s (view st) b.
Proof.
  intros Hb. pose proof (im_fb I). split; [rewrite mounted_start; lia|]. split; [rewrite mounted_len; lia|].
  rewrite mounted_free by lia. apply Z.leb_gt. lia.
Qed.

Lemma mounted_file i : 1 ≤ i < m_freeinode st → file_ok s (view st) (d_addrs (dins i)).
Proof.
  intros Hi. pose proof (im_din I i Hi) as Hd. constructor.
  - apply Hd.
  - apply Hd.
  - intros Hz. apply mounted_block. by apply (im_range I i 140 Hi).
  - intros bn Hbn Hz. rewrite <-slot_data in * by done. split.
    + apply mounted_block. apply (im_range I i bn Hi); [lia|done].
    + intros E. destruct (im_inj I i bn i 140 Hi Hi ltac:(lia) ltac:(lia) Hz E). lia.
  - intros bn bn' Hbn Hbn'. rewrite <-!slot_data by done. intros Hz E.
    by destruct (im_inj I i bn i bn' Hi Hi ltac:(lia) ltac:(lia) Hz E).
Qed.

(** A file whose size is that of its data, or that of its blocks. *)
Lemma mounted_good i ip m data :
  1 ≤ i < m_freeinode st → holds (view st) (dins i) m data → i_addrs ip = d_addrs (dins i) →
  Z.of_nat (length data) ≤ i_size ip ≤ Z.of_nat (512 * m) →
  file_good s (view st) ip ∧ contents (view st) ip = data ++ replicate (Z.to_nat (i_size ip) - length data) 0.
Proof.
  intros Hi Ho Ea Hs. pose proof (ho_m Ho) as Hm'. split.
  - constructor; [rewrite Ea; by apply mounted_file|lia|]. intros bn Hbn. rewrite Ea, <-slot_data by lia.
    apply (ho_map Ho); lia.
  - apply list_eq. intros x. destruct (decide (x < Z.to_nat (i_size ip))%nat) as [Hx|Hx].
    + rewrite lookup_contents by done. rewrite Ea, (ho_data Ho) by lia. destruct (decide (x < length data)%nat) as [Hx'|Hx'].
      * rewrite lookup_app_l by done. destruct (lookup_lt_is_Some_2 data x Hx') as [y Ey]. by rewrite Ey, (nth_lookup_Some _ _ _ _ Ey).
      * rewrite lookup_app_r by lia. rewrite lookup_replicate_2 by lia. by rewrite nth_overflow by lia.
    + rewrite !lookup_ge_None_2; [done|rewrite length_app, length_replicate; lia|rewrite length_contents; lia].
Qed.
End mounted.

(** * The root directory *)

(** An entry that is not in use. *)
Definition no_entry : dirent := mkDirent 0 (replicate DIRSIZ 0).

Lemma decode_entries es z :
  Forall (λ e, length (dirent_enc e) = 16%nat ∧ dirent_dec (dirent_enc e) = e) es →
  (λ j, dirent_dec (slice ((es ≫= dirent_enc) ++ replicate (16 * z) 0) (16 * j) 16)) <$> seq 0 (length es + z) =
    es ++ replicate z no_entry.
Proof.
  induction 1 as [|e es [He1 He2] _ IH].
  - cbn [mbind list_bind length app plus]. apply list_eq. intros j. rewrite list_lookup_fmap.
    destruct (decide (j < z)%nat) as [Hj|Hj].
    + rewrite lookup_seq_lt, lookup_replicate_2 by done. simpl. f_equal. unfold slice.
      rewrite drop_replicate, take_replicate. replace (_ `min` _)%nat with 16%nat by lia. done.
    + rewrite lookup_seq_ge by lia. symmetry. apply lookup_ge_None_2. rewrite length_replicate. lia.
  - cbn [length plus seq]. rewrite fmap_cons, bind_cons. cbn [app]. f_equal.
    + change (16 * 0)%nat with 0%nat. unfold slice. rewrite drop_0, <-!app_assoc, <-He1, take_app_length. done.
    + rewrite <-IH, <-fmap_S_seq, <-list_fmap_compose. apply list_fmap_ext. intros j y _. unfold compose.
      f_equal. replace (16 * S y)%nat with (length (dirent_enc e) + 16 * y)%nat by lia.
      by rewrite <-app_assoc, slice_app_r.
Qed.

Lemma root_entries_ok hs : Forall (λ e, length (dirent_enc e) = 16%nat ∧ dirent_dec (dirent_enc e) = e) (root_entries hs).
Proof.
  induction hs as [|f hs IH] using rev_ind; [|rewrite root_entries_snoc; apply Forall_app; split; [done|]];
    repeat constructor; apply length_dirent_enc || apply dirent_dec_enc.
Qed.

Lemma length_entries hs : length (root_entries hs) = (length hs + 2)%nat.
Proof. unfold root_entries. cbn [length]. rewrite length_imap. lia. Qed.

(** The size that [finish] gives to the root directory. *)
Definition root_size (hs : list hostfile) : Z := Z.of_nat ((length hs + 2) / 32 + 1) * 512.

Lemma root_size_nblk (hs : list hostfile) : ((length hs + 2) mod 32 ≠ 0)%nat →
  root_size hs = Z.of_nat (512 * nblk (16 * (length hs + 2))).
Proof.
  intros H. pose proof (Nat.div_mod (length hs + 2) 32 ltac:(lia)). pose proof (Nat.mod_upper_bound (length hs + 2) 32 ltac:(lia)).
  rewrite (nblk_unique _ ((length hs + 2) / 32 + 1)) by lia. unfold root_size. lia.
Qed.

Lemma root_dir_entries V ip hs :
  contents V ip = (root_entries hs ≫= dirent_enc) ++ replicate (Z.to_nat (i_size ip) - 16 * (length hs + 2)) 0 →
  (16 * (length hs + 2) ≤ Z.to_nat (i_size ip))%nat → 0 ≤ i_size ip → i_size ip mod 16 = 0 →
  dir_entries V ip = root_entries hs ++ replicate (Z.to_nat (i_size ip) / 16 - (length hs + 2)) no_entry.
Proof.
  intros Hc Hs H0 H16. set (z := (Z.to_nat (i_size ip) / 16 - (length hs + 2))%nat).
  assert (Ez : Z.to_nat (i_size ip) = (16 * (length hs + 2 + z))%nat).
  { assert (Eq : Z.to_nat (i_size ip) = (Z.to_nat (i_size ip / 16) * 16)%nat) by zdiv.
    unfold z. rewrite Eq, Nat.div_mul by lia. lia. }
  rewrite <-(decode_entries (root_entries hs) z (root_entries_ok hs)), length_entries. unfold dir_entries, dir_entry.
  rewrite Hc. replace (Z.to_nat (i_size ip) - 16 * (length hs + 2))%nat with (16 * z)%nat by lia.
  f_equal. unfold dirents. f_equal. zdiv.
Qed.

(** * The end of [main] *)

(** The image that [main] leaves. *)
Record finished (hs : list hostfile) (st : mkfs) (dins : Z → dinode) : Prop := mkFinished {
  fd_image : image st dins;
  fd_sb : view st 1 = sb_blk;
  fd_log : view st 2 = zero_blk;
  fd_bitmap : view st 58 = bitmap (used (files_of hs));
  fd_fb : m_freeblock st = used (files_of hs);
  fd_fi : m_freeinode st = Z.of_nat (length hs + 2);
  fd_root : dinode_at sb0 (view st) 1 = with_d_size (root_size hs) (dins 1);
  fd_disk : ∀ i, 2 ≤ i < m_freeinode st → dinode_at sb0 (view st) i = dins i;
  fd_file : ∀ j f, files_of hs !! j = Some f → file_is (view st) (dins (Z.of_nat (S j))) f;
}.
Arguments fd_image {_ _ _} _.
Arguments fd_sb {_ _ _} _.
Arguments fd_log {_ _ _} _.
Arguments fd_bitmap {_ _ _} _.
Arguments fd_fb {_ _ _} _.
Arguments fd_fi {_ _ _} _.
Arguments fd_root {_ _ _} _.
Arguments fd_disk {_ _ _} _.
Arguments fd_file {_ _ _} _.

Lemma length_files_of hs : length (files_of hs) = S (length hs).
Proof. unfold files_of. cbn [length]. by rewrite length_fmap. Qed.

Lemma balloc_run st dins u : image st dins → 0 ≤ u ≤ 1000 → balloc (s32 u) st = Done tt (put 58 (bitmap u) st).
Proof.
  intros I Hu. unfold balloc. rewrite s32_small by lia. unfold BSIZE. rewrite (proj2 (Z.ltb_lt _ _)) by lia.
  erewrite bind_done by reflexivity. unfold bind at 1, gets. cbn [obind]. rewrite (im_sb I).
  apply (wsect_run st (im_len I) 58). lia.
Qed.

Lemma finish_ok st dins hs :
  fsys st dins (files_of hs) → (length hs ≤ 198)%nat → used (files_of hs) ≤ 1000 →
  ∃ st', finish 1 st = Done tt st' ∧ finished hs st' dins.
Proof.
  intros [I S1 L2 Fi Fb Di Fl] Hl Hu. rewrite length_files_of in Fi. pose proof (im_fi I) as Hfi.
  destruct (Fl 0%nat _ eq_refl) as [T1 T2 T3 T4]. cbn [fst snd] in T1, T2, T3, T4. rewrite length_root in T3.
  change (Z.of_nat 1) with 1 in T1, T2, T3, T4.
  set (d0 := with_d_size (root_size hs) (dins 1)).
  assert (Hrs : 0 ≤ root_size hs < 4294967296) by (unfold root_size; pose proof (Nat.Div0.div_le_upper_bound (length hs + 2) 32 (length hs + 2) ltac:(lia)); lia).
  pose proof (im_din I 1 ltac:(lia)) as Hd. assert (Hd0 : dinode_ok d0) by (destruct Hd; by constructor).
  destruct (meta_put st dins (IBLOCK 1 sb0) (splice (view st (IBLOCK 1 sb0)) (dinode_off 1) (dinode_enc d0)) I) as [I1 H1];
    [by vm_compute|by eapply put_inode_block; [exact I|lia|]|]. fold (put_inode 1 d0 st) in I1, H1.
  destruct (meta_put _ dins 58 (bitmap (used (files_of hs))) I1) as [I2 H2]; [lia|apply bitmap_ok|].
  set (st1 := put_inode 1 d0 st) in *. set (st2 := put 58 _ st1) in *. exists st2. split.
  - unfold finish. erewrite bind_done by (apply (rinode_run st dins); [done|lia]). rewrite Di by lia. cbv zeta.
    rewrite T3, (xint_small (Z.of_nat _)) by (unfold is_u32; lia). unfold BSIZE.
    replace (u32 _) with (root_size hs).
    2:{ rewrite u32_small by (unfold is_u32; zdiv). unfold root_size. rewrite Nat2Z.inj_add, Nat2Z.inj_div. zdiv. }
    rewrite xint_small by done. fold d0. erewrite bind_done by (apply (winode_run st dins 1 d0 I); lia). fold st1.
    unfold bind at 1, gets. cbn [obind]. change (m_freeblock st1) with (m_freeblock st). rewrite Fb.
    apply (balloc_run st1 dins _ I1). pose proof (used_min (files_of hs)). lia.
  - assert (HV : ∀ c, 0 ≤ c → view st2 c = if decide (c = 58) then bitmap (used (files_of hs)) else view st1 c).
    { intros c Hc. apply view_put; [apply (im_len I1)|lia|done]. }
    assert (HV1 : ∀ c, 0 ≤ c → c ≠ 32 → view st1 c = view st c).
    { intros c Hc Hne. unfold st1, put_inode. change (IBLOCK 1 sb0) with 32.
      by rewrite view_put, decide_False by (apply (im_len I) || lia). }
    assert (HI : ∀ i, 0 ≤ i ≤ 200 → dinode_at sb0 (view st2) i = dinode_at sb0 (view st1) i).
    { intros i Hi. unfold dinode_at. pose proof (IBLOCK_range i Hi). by rewrite HV, decide_False by lia. }
    constructor; [done| | | | | | | |].
    + rewrite HV, decide_False, HV1 by lia. exact S1.
    + rewrite HV, decide_False, HV1 by lia. exact L2.
    + by rewrite HV, decide_True by lia.
    + exact Fb.
    + change (m_freeinode st2) with (m_freeinode st). lia.
    + rewrite HI by lia. unfold st1. by rewrite (dinode_at_put st dins 1 d0 1 I), decide_True by (done || lia).
    + intros i Hi. change (m_freeinode st2) with (m_freeinode st) in Hi. rewrite HI by lia. unfold st1.
      rewrite (dinode_at_put st dins 1 d0 i I), decide_False by (done || lia). apply Di. lia.
    + intros j f Hj. destruct (Fl j f Hj) as [U1 U2 U3 U4]. pose proof (lookup_lt_Some _ _ _ Hj) as Hlt.
      rewrite length_files_of in Hlt. constructor; try done. apply H2; [|apply H1; [|done]].
      * change (m_freeinode st1) with (m_freeinode st). lia.
      * lia.
Qed.

Lemma main_ok hs : Forall host_ok hs → (length hs ≤ 198)%nat → used (files_of hs) ≤ FSSIZE →
  ∃ st dins, main (Some true) hs start = Done tt st ∧ finished hs st dins.
Proof.
  intros Hh Hl Hu. unfold FSSIZE in Hu. destruct format_ok as (st1 & dins1 & E1 & F1).
  destruct (add_files_ok hs [] st1 dins1 F1) as (st2 & dins2 & E2 & F2); [done|done|done|].
  destruct (finish_ok st2 dins2 hs F2 Hl Hu) as (st3 & E3 & F3). exists st3, dins2. split; [|done].
  unfold main. erewrite bind_done by exact E1. by erewrite bind_done by exact E2.
Qed.

Lemma files_of_lookup hs j f : hs !! j = Some f →
  files_of hs !! Z.to_nat (Z.of_nat j + 2 - 1) = Some (T_FILE, file_bytes f).
Proof.
  intros Hj. replace (Z.to_nat _) with (S j) by lia.
  change (((λ f, (T_FILE, file_bytes f)) <$> hs) !! j = Some (T_FILE, file_bytes f)). by rewrite list_lookup_fmap, Hj.
Qed.

(** The kernel's view of inode [inum] of a finished image. *)
Lemma loaded_file s st dins hs inum f ip :
  finished hs st dins → mounted s (m_img st) → 2 ≤ inum → files_of hs !! Z.to_nat (inum - 1) = Some f →
  loaded s (view st) inum ip →
  i_type ip = f.1 ∧ i_nlink ip = 1 ∧ file_good s (view st) ip ∧ contents (view st) ip = f.2.
Proof.
  intros F M Hi Hf L. pose proof (lookup_lt_Some _ _ _ Hf) as Hlt. rewrite length_files_of in Hlt.
  destruct (fd_file F _ _ Hf) as [U1 U2 U3 U4]. replace (Z.of_nat (S (Z.to_nat (inum - 1)))) with inum in * by lia.
  pose proof (fd_fi F) as Hfi. unfold loaded in L. rewrite (mounted_sb st s M (fd_sb F)), (fd_disk F) in L by lia. rewrite <-L.
  cbn [load_dinode i_type i_nlink]. split; [done|]. split; [done|]. pose proof (nblk_spec (length f.2)).
  destruct (mounted_good st dins s (fd_image F) M (fd_sb F) _ (eq_sym (fd_fb F)) (fd_bitmap F) inum
    (load_dinode (dins inum) ip) _ _ ltac:(lia) U4 eq_refl) as [G C].
  - cbn [load_dinode i_size]. rewrite U3. lia.
  - split; [done|]. rewrite C. cbn [load_dinode i_size]. by rewrite U3, Nat2Z.id, Nat.sub_diag, app_nil_r.
Qed.

Lemma loaded_root s st dins hs ip :
  finished hs st dins → mounted s (m_img st) → ((length hs + 2) mod 32 ≠ 0)%nat → loaded s (view st) ROOTINO ip →
  dir_good s (view st) ip ∧ dir_entries (view st) ip =
    root_entries hs ++ replicate (32 * ((length hs + 2) / 32 + 1) - (length hs + 2)) no_entry.
Proof.
  intros F M H32 L. destruct (fd_file F 0%nat _ eq_refl) as [U1 U2 U3 U4]. change (Z.of_nat 1) with 1 in *.
  cbn [fst snd] in *. rewrite length_root in *. pose proof (fd_fi F) as Hfi. unfold loaded, ROOTINO in L.
  rewrite (mounted_sb st s M (fd_sb F)), (fd_root F) in L. rewrite <-L.
  set (ip' := load_dinode _ ip) in *. assert (Es : i_size ip' = root_size hs) by done.
  pose proof (root_size_nblk hs H32) as Hrs. pose proof (nblk_spec (16 * (length hs + 2))).
  destruct (mounted_good st dins s (fd_image F) M (fd_sb F) _ (eq_sym (fd_fb F)) (fd_bitmap F) 1 ip' _ _ ltac:(lia) U4 eq_refl)
    as [G C]; [rewrite Es, length_root; lia|]. rewrite length_root in C.
  assert (H16 : i_size ip' mod 16 = 0) by (rewrite Es; unfold root_size; zdiv).
  split; [by constructor|]. rewrite (root_dir_entries _ _ hs C) by (rewrite ?Es; lia || done).
  do 2 f_equal. rewrite Es. unfold root_size.
  replace (Z.to_nat _) with (32 * ((length hs + 2) / 32 + 1) * 16)%nat by lia. by rewrite Nat.div_mul.
Qed.

(** * The theorems *)


(** what the kernel reads of a file of the image is what mkfs read from
    the host: [readi] from any offset gives that part of it. *)
Theorem mkfs_readi {txn : kernel → gmap nat Z → (Z → list Z) → nat → Prop} {T : BlockTxn txn} hs j f :
  Forall host_ok hs → (length hs ≤ 198)%nat → used (files_of hs) ≤ FSSIZE → hs !! j = Some f →
  ∃ st, main (Some true) hs start = Done tt st ∧
    let V := disk_view (m_img st) in
    ∀ s k i ip off n, mounted s (m_img st) → txn s ∅ V k →
      k_icache s !! i = Some ip → i_dev ip = 1 → loaded s V (Z.of_nat j + 2) ip →
      0 ≤ off ≤ Z.of_nat (length (file_bytes f)) → 0 ≤ n < 2147483648 →
      ∃ s', readi i off n s = Done (n `min` (Z.of_nat (length (file_bytes f)) - off),
                                 slice (file_bytes f) (Z.to_nat off) (Z.to_nat n)) s' ∧ txn s' ∅ V k.
Proof.
  intros Hh Hl Hu Hj. destruct (main_ok hs Hh Hl Hu) as (st & dins & E & F). exists st. split; [done|].
  intros V s k i ip off n M Ht Hi Hdev L Hoff Hn.
  destruct (loaded_file s st dins hs (Z.of_nat j + 2) (T_FILE, file_bytes f) ip F M) as (Ty & _ & G & C);
    [lia|by apply files_of_lookup|done|].
  cbn [fst snd] in *. assert (Esz : i_size ip = Z.of_nat (length (file_bytes f))).
  { pose proof (fg_size G). rewrite <-C, length_contents. lia. }
  pose proof (fg_size G). pose proof (mounted_geom st dins s (fd_image F) M (fd_sb F)) as Hg.
  assert (Hty : i_type ip ≠ T_DEV) by by rewrite Ty.
  destruct (readi_ok s V k i ip off n Ht Hg Hi Hdev Hty G ltac:(lia) ltac:(lia) ltac:(lia)) as (s' & ER & T' & _).
  exists s'. unfold V in ER. rewrite Esz, C in ER. by split.
Qed.

(** when [.], [..] and the files fill whole blocks (32 entries each),
    rounding the size of the root directory up claims one more block, which
    is not allocated: the root directory is not a file with all its blocks. *)
Theorem root_unmapped hs :
  Forall host_ok hs → (length hs ≤ 198)%nat → used (files_of hs) ≤ FSSIZE → ((length hs + 2) mod 32 = 0)%nat →
  ∃ st, main (Some true) hs start = Done tt st ∧
    ∀ s ip, mounted s (m_img st) → loaded s (disk_view (m_img st)) ROOTINO ip →
      i_size ip = Z.of_nat (16 * (length hs + 2)) + BSIZE ∧
      block_of (disk_view (m_img st)) (i_addrs ip) ((length hs + 2) / 32) = 0 ∧
      ¬ file_good s (disk_view (m_img st)) ip.
Proof.
  intros Hh Hl Hu H32. destruct (main_ok hs Hh Hl Hu) as (st & dins & E & F). exists st. split; [done|]. intros s ip M L.
  destruct (fd_file F 0%nat _ eq_refl) as [U1 U2 U3 U4]. change (Z.of_nat 1) with 1 in *. cbn [fst snd] in *.
  rewrite length_root in *. unfold loaded, ROOTINO in L. rewrite (mounted_sb st s M (fd_sb F)), (fd_root F) in L. rewrite <-L.
  set (ip' := load_dinode _ ip) in *. assert (Es : i_size ip' = root_size hs) by done.
  pose proof (Nat.div_mod (length hs + 2) 32 ltac:(lia)) as Hdm. set (q := ((length hs + 2) / 32)%nat) in *.
  assert (Hs : root_size hs = Z.of_nat (16 * (length hs + 2)) + BSIZE) by (unfold root_size, BSIZE; fold q; lia).
  assert (Hb : block_of (view st) (i_addrs ip') q = 0).
  { destruct (decide (block_of (view st) (i_addrs ip') q = 0)) as [|Hz]; [done|].
    change (i_addrs ip') with (d_addrs (dins 1)) in Hz. rewrite <-slot_data in Hz by lia. apply (ho_map U4) in Hz; [|lia].
    rewrite (nblk_unique _ q) in Hz by lia. lia. }
  split; [by rewrite Es|]. split; [done|]. intros G. apply (fg_mapped G q); [|done]. rewrite Es, Hs. unfold BSIZE. lia.
Qed.

(** * Examples *)

Definition demo_host : hostfile := mkHostfile [95; 99; 97; 116] (Some [[104; 111; 108; 97]; [10]]).

Lemma demo_host_ok : host_ok demo_host.
Proof. constructor; [repeat constructor; done|repeat constructor; lia|done|repeat constructor; lia|by vm_compute]. Qed.

(** A kernel that has mounted an image. *)
Definition mount (img : list (list Z)) (s : kernel) : kernel :=
  let sb := sb_dec (disk_view img 1) in
  with_k_disk img (with_k_sb sb (with_k_log (with_lg_start (sb_logstart sb) (with_lg_size (sb_nlog sb) (k_log s))) s)).

Lemma mount_mounted img s : mounted (mount img s) img.
Proof. by constructor. Qed.


Lemma root_unmapped_witness :
  ∃ st, main (Some true) (replicate 30 demo_host) start = Done tt st ∧
    ∀ ip, loaded (mount (m_img st) demo_fsboot) (disk_view (m_img st)) ROOTINO ip → i_size ip = 1024.
Proof.
  destruct (root_unmapped (replicate 30 demo_host)) as (st & E & H).
  - apply Forall_replicate. exact demo_host_ok.
  - rewrite length_replicate. lia.
  - by vm_compute.
  - by vm_compute.
  - exists st. split; [exact E|]. intros ip L. exact (proj1 (H _ ip (mount_mounted (m_img st) demo_fsboot) L)).
Defined.

Lemma mkfs_readi_witness :
  ∃ st, main (Some true) [demo_host] start = Done tt st ∧
    ∀ s k i ip, mounted s (m_img st) → txn_rep s ∅ (disk_view (m_img st)) k →
      k_icache s !! i = Some ip → i_dev ip = 1 → loaded s (disk_view (m_img st)) 2 ip →
      ∃ s', readi i 0 512 s = Done (5, [104; 111; 108; 97; 10]) s'.
Proof.
  destruct (mkfs_readi (txn := txn_rep) [demo_host] 0 demo_host) as (st & E & H).
  - constructor; [exact demo_host_ok|constructor].
  - simpl. lia.
  - by vm_compute.
  - reflexivity.
  - exists st. split; [exact E|]. intros s k i ip M Ht Hi Hd L.
    destruct (H s k i ip 0 512 M Ht Hi Hd L) as (s' & E' & _); [vm_compute; split; discriminate|lia|]. by exists s'.
Defined.

(** Nothing bounds [freeinode]: with 207 files, inode 208 lies past the table,
    in the block of the bitmap, which [balloc] then overwrites. *)
Lemma too_many_files :
  match main (Some true) (replicate 207 (mkHostfile [97] (Some []))) start with
  | Done _ st => Some (m_freeinode st, IBLOCK 208 sb0, d_type (dinode_at sb0 (disk_view (m_img st)) 208))
  | _ => None
  end = Some (209, sb_bmapstart sb0, -1).
Proof. by vm_compute. Qed.
