(* ===== verification/Pipe.v ===== *)
(** Pipes: [pipeclose], [pipewrite] and [piperead] of pipe.c ([pipealloc] is in
    File, with the file table it allocates from).

    A pipe is a ring of [PIPESIZE] bytes with free-running 32-bit counters.
    [prep] relates it to the queue of bytes written and not yet read; writing
    appends to the queue, reading takes from its front, whatever the counters
    are and also when they wrap around. *)

From S2P Require Import Prelude State Spinlock CString Kalloc Sched.
Import KLock.

(** * The operations *)

Definition pipe_at (p : Z) : K pipe := s <- get ;; deref (k_pipes s !! p).
Definition upd_pipe (p : Z) (f : pipe → pipe) (s : kernel) : kernel :=
  with_k_pipes (alter f p (k_pipes s)) s.
Definition set_pipe (p : Z) (f : pipe → pipe) : K unit := modify (upd_pipe p f).

(** The page of a pipe goes back to the allocator, and the pipe is gone. *)
Definition free_pipe (p : Z) : K unit :=
  kfree p ;;;
  modify (λ s, with_k_pipes (delete p (k_pipes s)) s).

Definition pipeclose (p : Z) (writable : bool) : K unit :=
  acquire (LPipe p) ;;;
  (if writable then
     set_pipe p (with_pi_writeopen 0) ;;;
     wakeup (ChNread p)
   else
     set_pipe p (with_pi_readopen 0) ;;;
     wakeup (ChNwrite p)) ;;;
  pi <- pipe_at p ;;
  if (pi_readopen pi =? 0) && (pi_writeopen pi =? 0) then
    release (LPipe p) ;;;
    free_pipe p
  else release (LPipe p).

(** [while(p->nwrite == p->nread + PIPESIZE)]; [false] if the write fails. *)
Fixpoint write_wait (fuel : nat) (p : Z) : K bool :=
  match fuel with
  | O => diverge
  | S fuel' =>
      pi <- pipe_at p ;;
      if pi_nwrite pi =? u32 (pi_nread pi + PIPESIZE) then
        pr <- (if pi_readopen pi =? 0 then ret true
               else me <- myproc ;; pr <- proc_at me ;; ret (negb (p_killed pr =? 0))) ;;
        if (pr : bool) then ret false else
        wakeup (ChNread p) ;;;
        sleep (ChNwrite p) (Some (LPipe p)) ;;;
        write_wait fuel' p
      else ret true
  end.

(** [p->data[p->nwrite++ % PIPESIZE] = c]. *)
Definition pipe_put (c : Z) (pi : pipe) : pipe :=
  with_pi_nwrite (u32 (pi_nwrite pi + 1))
    (with_pi_data (<[Z.to_nat (pi_nwrite pi mod PIPESIZE) := c]> (pi_data pi)) pi).

(** [for(i = 0; i < n; i++)] over the bytes at [addr]; [false] if it returns. *)
Fixpoint write_loop (p : Z) (src : list Z) : K bool :=
  match src with
  | [] => ret true
  | c :: src' =>
      w <- gets k_wakes ;;
      ok <- write_wait (S w) p ;;
      if negb ok then ret false else
      set_pipe p (pipe_put c) ;;;
      write_loop p src'
  end.

Definition pipewrite (p : Z) (src : list Z) : K Z :=
  acquire (LPipe p) ;;;
  ok <- write_loop p src ;;
  if negb ok then release (LPipe p) ;;; ret (-1) else
  wakeup (ChNread p) ;;;
  release (LPipe p) ;;;
  ret (Z.of_nat (length src)).

(** [while(p->nread == p->nwrite && p->writeopen)]; [false] if killed. *)
Fixpoint read_wait (fuel : nat) (p : Z) : K bool :=
  match fuel with
  | O => diverge
  | S fuel' =>
      pi <- pipe_at p ;;
      if (pi_nread pi =? pi_nwrite pi) && negb (pi_writeopen pi =? 0) then
        me <- myproc ;;
        pr <- proc_at me ;;
        if negb (p_killed pr =? 0) then ret false else
        sleep (ChNread p) (Some (LPipe p)) ;;;
        read_wait fuel' p
      else ret true
  end.

(** [for(i = 0; i < n; i++)]: the bytes copied to [addr]. *)
Fixpoint read_loop (p : Z) (n : nat) (acc : list Z) : K (list Z) :=
  match n with
  | O => ret acc
  | S n' =>
      pi <- pipe_at p ;;
      if pi_nread pi =? pi_nwrite pi then ret acc else
      c <- deref (pi_data pi !! Z.to_nat (pi_nread pi mod PIPESIZE)) ;;
      set_pipe p (λ pi, with_pi_nread (u32 (pi_nread pi + 1)) pi) ;;;
      read_loop p n' (acc ++ [c])
  end.

(** The result, and the bytes stored at [addr]. *)
Definition piperead (p : Z) (n : Z) : K (Z * list Z) :=
  acquire (LPipe p) ;;;
  w <- gets k_wakes ;;
  ok <- read_wait (S w) p ;;
  if negb ok then release (LPipe p) ;;; ret (-1, []) else
  bs <- read_loop p (Z.to_nat n) [] ;;
  wakeup (ChNwrite p) ;;;
  release (LPipe p) ;;;
  ret (Z.of_nat (length bs), bs).

(** * The queue of a pipe *)

(** The pipe [pi] holds the bytes [q], oldest first. *)
Record prep (pi : pipe) (q : list Z) : Prop := mkPrep {
  pr_len : length (pi_data pi) = Z.to_nat PIPESIZE;
  pr_nread : is_u32 (pi_nread pi);
  pr_nwrite : pi_nwrite pi = u32 (pi_nread pi + Z.of_nat (length q));
  pr_room : Z.of_nat (length q) ≤ PIPESIZE;
  pr_data : ∀ i c, q !! i = Some c →
    pi_data pi !! Z.to_nat ((pi_nread pi + Z.of_nat i) mod PIPESIZE) = Some c;
}.

(** 512 divides 2^32: the wrap-around of a counter is invisible to the ring. *)
Lemma u32_mod_512 z : u32 z mod PIPESIZE = z mod PIPESIZE.
Proof. unfold u32, PIPESIZE. zdiv. Qed.

Lemma prep_full pi q :
  prep pi q → (pi_nwrite pi =? u32 (pi_nread pi + PIPESIZE)) = (Z.of_nat (length q) =? PIPESIZE).
Proof.
  intros [_ Hr -> Hroom _]. unfold is_u32, u32, PIPESIZE in *.
  apply eq_bool_prop_intro. rewrite !Is_true_true, !Z.eqb_eq. split; [|by intros ->].
  intros H. zdiv.
Qed.

Lemma prep_empty pi q : prep pi q → (pi_nread pi =? pi_nwrite pi) = bool_decide (q = []).
Proof.
  intros [_ Hr -> Hroom _]. unfold is_u32, u32, PIPESIZE in *. destruct q as [|c q].
  - rewrite Z.add_0_r, Z.mod_small by lia. rewrite Z.eqb_refl. done.
  - rewrite bool_decide_false by done. cbn [length] in *. apply Z.eqb_neq. intros H. zdiv.
Qed.

Lemma prep_put pi q c :
  prep pi q → Z.of_nat (length q) < PIPESIZE → prep (pipe_put c pi) (q ++ [c]).
Proof.
  intros [Hl Hr Hw Hroom Hd] Hlt. unfold pipe_put. constructor; simpl.
  - by rewrite length_insert.
  - done.
  - rewrite Hw, length_app, u32_add_l. f_equal. simpl. lia.
  - rewrite length_app. simpl. lia.
  - intros i x Hi. rewrite Hw, u32_mod_512.
    assert (Hb : ∀ z, (Z.to_nat (z mod PIPESIZE) < length (pi_data pi))%nat)
      by (intros z; rewrite Hl; unfold PIPESIZE; pose proof (Z.mod_pos_bound z 512); lia).
    apply lookup_snoc_Some in Hi as [[Hi Hq]|[-> <-]].
    + rewrite list_lookup_insert_ne; [by apply Hd|]. unfold PIPESIZE in *. zdiv.
    + by rewrite list_lookup_insert_eq.
Qed.

Lemma prep_get pi c q :
  prep pi (c :: q) →
  pi_data pi !! Z.to_nat (pi_nread pi mod PIPESIZE) = Some c ∧
  prep (with_pi_nread (u32 (pi_nread pi + 1)) pi) q.
Proof.
  intros [Hl Hr Hw Hroom Hd]. split.
  - specialize (Hd 0%nat c eq_refl). by rewrite Z.add_0_r in Hd.
  - constructor; simpl.
    + done.
    + apply u32_range.
    + rewrite Hw, u32_add_l. f_equal. cbn [length]. lia.
    + cbn [length] in Hroom. lia.
    + intros i x Hi. specialize (Hd (S i) x Hi). rewrite <-Hd. do 2 f_equal.
      rewrite <-Z.add_mod_idemp_l, u32_mod_512, Z.add_mod_idemp_l by done. f_equal. lia.
Qed.

(** The pipe [p] of the kernel state [s] holds [q]; [s'] differs in that pipe only. *)
Definition pipe_holds (s : kernel) (p : Z) (q : list Z) : Prop := ∃ pi, k_pipes s !! p = Some pi ∧ prep pi q.

Definition pipe_ends (s : kernel) (p : Z) : option (Z * Z) :=
  (λ pi, (pi_readopen pi, pi_writeopen pi)) <$> k_pipes s !! p.

(** Only the pipe [p] changes, and not which of its ends are open. *)
Definition pframe (p : Z) (s s' : kernel) : Prop :=
  s' = with_k_pipes (k_pipes s') s ∧ (∀ q, q ≠ p → k_pipes s' !! q = k_pipes s !! q) ∧
  pipe_ends s' p = pipe_ends s p.

Lemma pframe_refl p s : pframe p s s.
Proof. split; [by destruct s|done]. Qed.

Lemma pframe_trans p s s1 s2 : pframe p s s1 → pframe p s1 s2 → pframe p s s2.
Proof.
  intros (E1 & H1 & O1) (E2 & H2 & O2). split; [|split].
  - rewrite E2, E1. done.
  - intros q Hq. by rewrite H2, H1.
  - congruence.
Qed.

Lemma pframe_upd p f s pi :
  k_pipes s !! p = Some pi → pi_readopen (f pi) = pi_readopen pi → pi_writeopen (f pi) = pi_writeopen pi →
  pframe p s (upd_pipe p f s).
Proof.
  intros Hp Hr Hw. split; [done|]. split.
  - intros q Hq. simpl. by rewrite lookup_alter_ne.
  - unfold pipe_ends. simpl. rewrite lookup_alter_eq, Hp. simpl. by rewrite Hr, Hw.
Qed.

Lemma pipe_at_ok p pi s : k_pipes s !! p = Some pi → pipe_at p s = Done pi s.
Proof. intros H. unfold pipe_at, bind, get. simpl. by rewrite H. Qed.

(** ** Writing with room *)

Lemma write_wait_room n p q s :
  pipe_holds s p q → Z.of_nat (length q) < PIPESIZE → write_wait (S n) p s = Done true s.
Proof.
  intros (pi & Hp & Hrep) Hlt. simpl. erewrite bind_done by (by apply pipe_at_ok).
  rewrite (prep_full _ _ Hrep). by rewrite (proj2 (Z.eqb_neq _ _)) by lia.
Qed.

Lemma write_loop_ok p src : ∀ s q,
  pipe_holds s p q → Z.of_nat (length q + length src) ≤ PIPESIZE →
  ∃ s', write_loop p src s = Done true s' ∧ pipe_holds s' p (q ++ src) ∧ pframe p s s'.
Proof.
  induction src as [|c src IH]; intros s q Hh Hlen.
  - exists s. rewrite app_nil_r. auto using pframe_refl.
  - cbn [write_loop]. unfold bind at 1, gets. cbn [obind]. cbn [length] in Hlen.
    erewrite bind_done by (apply (write_wait_room _ p q); [done|lia]). cbn [negb].
    destruct Hh as (pi & Hp & Hrep). erewrite bind_done by done.
    destruct (IH (upd_pipe p (pipe_put c) s) (q ++ [c])) as (s' & E & Hh' & Hf).
    + exists (pipe_put c pi). split; [simpl; by rewrite lookup_alter_eq, Hp|]. apply prep_put; [done|lia].
    + rewrite length_app. simpl. lia.
    + exists s'. split; [done|]. rewrite <-app_assoc in Hh'. split; [done|].
      eapply pframe_trans; [|done]. by eapply pframe_upd.
Qed.

(** ** Reading *)

Lemma read_loop_ok p n : ∀ s q acc,
  pipe_holds s p q →
  ∃ s', read_loop p n acc s = Done (acc ++ take n q) s' ∧ pipe_holds s' p (drop n q) ∧ pframe p s s'.
Proof.
  induction n as [|n IH]; intros s q acc Hh.
  - exists s. rewrite app_nil_r. auto using pframe_refl.
  - destruct Hh as (pi & Hp & Hrep). cbn [read_loop].
    erewrite bind_done by (by apply pipe_at_ok). rewrite (prep_empty _ _ Hrep). destruct q as [|c q].
    + rewrite bool_decide_true by done. exists s. rewrite take_nil, app_nil_r.
      split; [done|]. split; [by exists pi|apply pframe_refl].
    + rewrite bool_decide_false by done. destruct (prep_get _ _ _ Hrep) as [Hc Hrep'].
      rewrite Hc. erewrite bind_done by done. erewrite bind_done by done.
      destruct (IH (upd_pipe p (λ pi, with_pi_nread (u32 (pi_nread pi + 1)) pi) s) q (acc ++ [c]))
        as (s' & E & Hh' & Hf).
      { eexists. split; [simpl; by rewrite lookup_alter_eq, Hp|]. done. }
      exists s'. cbn [take drop]. rewrite E, <-app_assoc. split; [done|]. split; [done|].
      eapply pframe_trans; [|done]. by eapply pframe_upd.
Qed.

(** * Theorems *)

(** The lock of the pipe and of the process table are free: the caller can run
    an operation on the pipe. *)
Definition pipe_ready (s : kernel) (p : Z) : Prop :=
  kok s ∧ unlocked (LPipe p) s ∧ unlocked LPtable s.

(** [s'] is [s] but for the bytes of the pipe [p], and for the processes that
    slept on [ch], which are awake. *)
Definition pipe_done (p : Z) (ch : chan) (s s' : kernel) : Prop :=
  ∃ s1, pframe p s s1 ∧ s' = with_k_ptable (wake ch <$> k_ptable s) s1.

Lemma pframe_enter p s s' :
  pipe_ready s p → pframe p (enter (LPipe p) s) s' → ∃ s1, s' = enter (LPipe p) s1 ∧ pframe p s s1 ∧
    pipe_ready s1 p ∧ k_pipes s1 = k_pipes s' ∧ k_ptable s1 = k_ptable s.
Proof.
  intros Hr (E & Ho & He). exists (with_k_pipes (k_pipes s') s). split; [by rewrite E|].
  split; [|done]. split; [done|]. split; [exact Ho|]. unfold pipe_ends in *. simpl. exact He.
Qed.

(** The end of both operations. *)
Lemma pipe_finish {A} p ch (r : A) s s1 :
  pipe_ready s p → pframe p s s1 → pipe_ready s1 p →
  ∃ s', (wakeup ch ;;; release (LPipe p) ;;; ret r) (enter (LPipe p) s1) = Done r s' ∧
    pipe_done p ch s s' ∧ k_pipes s' = k_pipes s1.
Proof.
  intros Hr Hf (Hok & Hl & Ht). eexists. split; [|split; [exists s1; split; [done|reflexivity]|done]].
  erewrite bind_done by (apply wakeup_ok; eauto with kernel).
  erewrite bind_done by (apply krelease_ok; eauto with kernel). leave_out.
  destruct Hf as (E & _). rewrite E. done.
Qed.

Lemma pipewrite_ok s p q src :
  pipe_ready s p → pipe_holds s p q → Z.of_nat (length q + length src) ≤ PIPESIZE →
  ∃ s', pipewrite p src s = Done (Z.of_nat (length src)) s' ∧
    pipe_holds s' p (q ++ src) ∧ pipe_done p (ChNread p) s s'.
Proof.
  intros Hr Hh Hlen. unfold pipewrite. erewrite bind_done by (apply kacquire_ok; apply Hr).
  destruct (write_loop_ok p src (enter (LPipe p) s) q) as (s1 & E1 & Hh1 & Hf1); [done|done|].
  destruct (pframe_enter _ _ _ Hr Hf1) as (s2 & -> & Hf2 & Hr2 & _ & _).
  erewrite bind_done by exact E1. cbn [negb].
  destruct (pipe_finish p (ChNread p) (Z.of_nat (length src)) s s2) as (s' & E & Hd & Hk); [done..|].
  exists s'. split; [exact E|]. split; [|done]. unfold pipe_holds in *. by rewrite Hk.
Qed.

Lemma piperead_ok s p q n :
  pipe_ready s p → pipe_holds s p q → q ≠ [] ∨ snd <$> pipe_ends s p = Some 0 →
  ∃ s', piperead p n s = Done (Z.of_nat (length (take (Z.to_nat n) q)), take (Z.to_nat n) q) s' ∧
    pipe_holds s' p (drop (Z.to_nat n) q) ∧ pipe_done p (ChNwrite p) s s'.
Proof.
  intros Hr Hh Hq. unfold piperead. erewrite bind_done by (apply kacquire_ok; apply Hr).
  unfold bind at 1, gets. cbn [obind]. erewrite bind_done.
  2:{ destruct Hh as (pi & Hp & Hrep). cbn [read_wait]. erewrite bind_done by (by apply pipe_at_ok).
      rewrite (prep_empty _ _ Hrep). unfold pipe_ends in Hq. rewrite Hp in Hq. simpl in Hq.
      destruct Hq as [Hq|[= Hw]]; [by rewrite bool_decide_false|]. rewrite Hw.
      cbn [Z.eqb negb]. by rewrite andb_false_r. }
  cbn [negb].
  destruct (read_loop_ok p (Z.to_nat n) (enter (LPipe p) s) q []) as (s1 & E1 & Hh1 & Hf1); [done|].
  destruct (pframe_enter _ _ _ Hr Hf1) as (s2 & -> & Hf2 & Hr2 & _ & _).
  erewrite bind_done by exact E1. cbn [app].
  destruct (pipe_finish p (ChNwrite p) (Z.of_nat (length (take (Z.to_nat n) q)), take (Z.to_nat n) q) s s2)
    as (s' & E & Hd & Hk); [done..|].
  exists s'. split; [exact E|]. split; [|done]. unfold pipe_holds in *. by rewrite Hk.
Qed.

Lemma pipe_done_ready p ch s s' : pipe_ready s p → pipe_done p ch s s' → pipe_ready s' p.
Proof. intros Hr (s1 & (E & _) & ->). rewrite E. exact Hr. Qed.

(** C13: A pipe is a first-in first-out queue.  A write that fits returns the
    number of bytes written and puts them behind the bytes [q] the pipe holds;
    a read of [n] bytes then returns the [n] oldest ones (or all, if there are
    fewer), in order, and leaves the rest.  This is so at any value of the
    counters, whose 32 bits may wrap around, and nothing changes but the bytes
    of this pipe and the processes waiting for it, which are woken. *)
Theorem pipe_fifo s p q src n :
  pipe_ready s p → pipe_holds s p q → Z.of_nat (length q + length src) ≤ PIPESIZE → q ++ src ≠ [] →
  ∃ s1 s2, pipewrite p src s = Done (Z.of_nat (length src)) s1 ∧
    pipe_done p (ChNread p) s s1 ∧
    piperead p n s1 = Done (Z.of_nat (length (take (Z.to_nat n) (q ++ src))), take (Z.to_nat n) (q ++ src)) s2 ∧
    pipe_holds s2 p (drop (Z.to_nat n) (q ++ src)) ∧ pipe_done p (ChNwrite p) s1 s2.
Proof.
  intros Hr Hh Hlen Hne. destruct (pipewrite_ok s p q src) as (s1 & E1 & Hh1 & Hd1); [done..|].
  assert (Hr1 : pipe_ready s1 p) by (by eapply pipe_done_ready).
  destruct (piperead_ok s1 p (q ++ src) n) as (s2 & E2 & Hh2 & Hd2); [done|done|by left|].
  by exists s1, s2.
Qed.

(** ** Waiting *)

(** A writer in front of a full pipe. *)
Lemma write_wait_full n s p q ro wo me pr :
  pipe_ready s p → Crit.ncli_of (k_hart s) = 0 → running s me pr →
  pipe_holds s p q → Z.of_nat (length q) = PIPESIZE → pipe_ends s p = Some (ro, wo) →
  if (ro =? 0) || negb (p_killed pr =? 0)
  then write_wait (S n) p (enter (LPipe p) s) = Done false (enter (LPipe p) s)
  else ∃ k, write_wait (S n) p (enter (LPipe p) s) =
    Swtch (enter LPtable (asleep me (ChNwrite p) (with_k_ptable (wake (ChNread p) <$> k_ptable s) s))) k.
Proof.
  intros (Hok & Hl & Ht) Hn Hrun (pi & Hp & Hrep) Hlen He. cbn [write_wait].
  unfold pipe_ends in He. rewrite Hp in He. simpl in He. injection He as <- <-.
  erewrite bind_done by (by apply pipe_at_ok). rewrite (prep_full _ _ Hrep), Hlen, Z.eqb_refl.
  destruct (pi_readopen pi =? 0) eqn:Hro; cbn [orb].
  { by erewrite bind_done by done. }
  destruct (running_enter (LPipe p) s me pr Hok Hrun) as [Hme Hpr].
  erewrite bind_done.
  2:{ erewrite bind_done by (apply myproc_ok; eauto with kernel). rewrite Hme.
      by erewrite bind_done by (by apply proc_at_ok). }
  destruct (negb (p_killed pr =? 0)); [done|].
  erewrite bind_done by (apply wakeup_ok; eauto with kernel).
  change (with_k_ptable _ (enter _ s)) with (enter (LPipe p) (with_k_ptable (wake (ChNread p) <$> k_ptable s) s)).
  eexists. unfold bind at 1. erewrite (sleep_swtch _ _ _ me (wake (ChNread p) pr)); try done.
  destruct Hrun as [Hc Hpt]. split; [done|]. simpl. by rewrite list_lookup_fmap, Hpt.
Qed.

Lemma write_loop_app p src1 src2 s s1 :
  write_loop p src1 s = Done true s1 → write_loop p (src1 ++ src2) s = write_loop p src2 s1.
Proof.
  revert s. induction src1 as [|c src1 IH]; intros s; cbn [write_loop app].
  - by intros [= ->].
  - unfold bind, gets, set_pipe, modify. cbn [obind].
    destruct (write_wait _ p s) as [[] s'| | |]; try done. apply IH.
Qed.

(** A write that does not fit stores as much as there is room for; then, if
    the read end is closed or the caller has been killed, it fails with -1 and
    the lock released; otherwise it wakes the readers and gives up the CPU,
    asleep on the write counter, with the pipe full and its lock free. *)
Theorem pipewrite_blocks s p q src1 c src2 ro wo me pr :
  pipe_ready s p → Crit.ncli_of (k_hart s) = 0 → running s me pr →
  pipe_holds s p q → Z.of_nat (length q + length src1) = PIPESIZE → pipe_ends s p = Some (ro, wo) →
  ∃ s1, pframe p s s1 ∧ pipe_holds s1 p (q ++ src1) ∧
    if (ro =? 0) || negb (p_killed pr =? 0)
    then pipewrite p (src1 ++ c :: src2) s = Done (-1) s1
    else ∃ k, pipewrite p (src1 ++ c :: src2) s =
      Swtch (enter LPtable (asleep me (ChNwrite p) (with_k_ptable (wake (ChNread p) <$> k_ptable s) s1))) k.
Proof.
  intros Hr Hn Hrun Hh Hlen He. unfold pipewrite.
  destruct (write_loop_ok p src1 (enter (LPipe p) s) q) as (s1 & E1 & Hh1 & Hf1); [done|lia|].
  destruct (pframe_enter _ _ _ Hr Hf1) as (s2 & -> & Hf2 & Hr2 & _ & Hpt).
  assert (Hh2 : pipe_holds s2 p (q ++ src1)) by exact Hh1.
  exists s2. split; [done|]. split; [done|].
  pose proof (write_wait_full (k_wakes s2) s2 p (q ++ src1) ro wo me pr) as W.
  assert (Hrun2 : running s2 me pr).
  { destruct Hf2 as (E & _). rewrite E. exact Hrun. }
  assert (Hn2 : Crit.ncli_of (k_hart s2) = 0).
  { destruct Hf2 as (E & _). rewrite E. exact Hn. }
  specialize (W Hr2 Hn2 Hrun2 Hh2).
  rewrite length_app in W. specialize (W ltac:(lia) ltac:(destruct Hf2 as (_ & _ & ->); done)).
  erewrite bind_done by (apply kacquire_ok; apply Hr).
  destruct ((ro =? 0) || negb (p_killed pr =? 0)).
  - erewrite bind_done.
    2:{ rewrite (write_loop_app _ _ _ _ _ E1). cbn [write_loop]. erewrite bind_done by done.
        erewrite bind_done by exact W. reflexivity. }
    cbn [negb]. destruct Hr2 as (Hok2 & Hl2 & _).
    erewrite bind_done by (apply krelease_ok; eauto with kernel). by leave_out.
  - destruct W as (k & W). unfold bind at 1. rewrite (write_loop_app _ _ _ _ _ E1). cbn [write_loop].
    erewrite bind_done by done. unfold bind at 1. change (k_wakes (enter _ s2)) with (k_wakes s2).
    rewrite W, <-Hpt. cbn [obind]. by eexists.
Qed.

(** ** Witnesses *)

(** The small machine with a pipe whose counters are about to wrap around. *)
Definition demo_pipe : pipe := mkPipe (<[511%nat := 104]> (replicate 512 0)) 4294967295 0 1 1.
Definition demo_pipes : kernel :=
  with_k_hart (with_h_locks (<[LPipe 4096 := mkSpinlock 0 "pipe" None]> (h_locks (k_hart demo_run))) (k_hart demo_run))
    (with_k_pipes {[ 4096 := demo_pipe ]} demo_run).

Lemma demo_pipes_ready : pipe_ready demo_pipes 4096.
Proof.
  split; [|split].
  - exists 0%nat, (mkCpu 7 (mkTaskstate 0 0 0) [] 1 0 true (Some 0%nat)). repeat split; simpl; lia.
  - reflexivity.
  - reflexivity.
Qed.

Lemma demo_pipes_holds : pipe_holds demo_pipes 4096 [104].
Proof.
  exists demo_pipe. split; [reflexivity|]. constructor.
  - reflexivity.
  - unfold is_u32. simpl. lia.
  - reflexivity.
  - unfold PIPESIZE. simpl. lia.
  - intros [|i] c Hi; simpl in Hi; [|by rewrite lookup_nil in Hi]. injection Hi as <-. vm_compute. reflexivity.
Qed.

Lemma pipe_fifo_witness :
  ∃ s1 s2, pipewrite 4096 [105; 33] demo_pipes = Done 2 s1 ∧ piperead 4096 2 s1 = Done (2, [104; 105]) s2.
Proof.
  destruct (pipe_fifo demo_pipes 4096 [104] [105; 33] 2) as (s1 & s2 & E1 & _ & E2 & _).
  - exact demo_pipes_ready.
  - exact demo_pipes_holds.
  - unfold PIPESIZE. simpl. lia.
  - discriminate.
  - exists s1, s2. split; [exact E1|exact E2].
Defined.

Lemma pipewrite_blocks_witness :
  ∃ s1 k, pipe_holds s1 4096 (104 :: replicate 511 7) ∧
    pipewrite 4096 (replicate 511 7 ++ [1]) demo_pipes =
      Swtch (enter LPtable (asleep 0 (ChNwrite 4096)
        (with_k_ptable (wake (ChNread 4096) <$> k_ptable demo_pipes) s1))) k.
Proof.
  destruct (pipewrite_blocks demo_pipes 4096 [104] (replicate 511 7) 1 [] 1 1 0 demo_proc) as (s1 & _ & Hh & k & E).
  - exact demo_pipes_ready.
  - reflexivity.
  - exact demo_run_running.
  - exact demo_pipes_holds.
  - unfold PIPESIZE. rewrite length_replicate. simpl. lia.
  - reflexivity.
  - exists s1, k. split; [exact Hh|exact E].
Defined.
