(* ===== verification/File.v ===== *)
(** Open files: file.c, and [pipealloc] of pipe.c.

    [fileread] returns its result and the bytes it stores at [addr]; [filewrite]
    takes the bytes at [addr].  A [struct file *] is an index of [ftable], null
    being [None] where the code tests for it. *)

From S2P Require Import Prelude State Spinlock CString Kalloc Sched Bio Log Txn Inode Console Fs Pipe.
Import KLock.

(** * The file table *)

Definition file_at (f : nat) : K file := s <- get ;; deref (k_ftable s !! f).
Definition upd_file (f : nat) (g : file → file) (s : kernel) : kernel :=
  with_k_ftable (alter g f (k_ftable s)) s.
Definition set_file (f : nat) (g : file → file) : K unit := modify (upd_file f g).

Definition fileinit : K unit := initlock LFtable "ftable".

Definition filealloc : K (option nat) :=
  acquire LFtable ;;;
  ft <- gets k_ftable ;;
  match find_index (λ f, f_ref f =? 0) ft with
  | Some f =>
      set_file f (with_f_ref 1) ;;;
      release LFtable ;;;
      ret (Some f)
  | None =>
      release LFtable ;;;
      ret None
  end.

Definition filedup (f : nat) : K nat :=
  acquire LFtable ;;;
  fl <- file_at f ;;
  if f_ref fl <? 1 then panic "filedup" else
  set_file f (λ fl, with_f_ref (s32 (f_ref fl + 1)) fl) ;;;
  release LFtable ;;;
  ret f.

Definition fileclose (f : nat) : K unit :=
  acquire LFtable ;;;
  fl <- file_at f ;;
  if f_ref fl <? 1 then panic "fileclose" else
  set_file f (λ fl, with_f_ref (s32 (f_ref fl - 1)) fl) ;;;
  fl <- file_at f ;;
  if 0 <? f_ref fl then release LFtable else
  let ff := fl in
  set_file f (with_f_ref 0) ;;;
  set_file f (with_f_type FD_NONE) ;;;
  release LFtable ;;;
  match f_type ff with
  | FD_PIPE => pipeclose (f_pipe ff) (f_writable ff)
  | FD_INODE =>
      begin_op ;;;
      ip <- deref (f_ip ff) ;;
      iput ip ;;;
      end_op
  | FD_NONE => ret tt
  end.

(** The result, and what is stored at [st]. *)
Definition filestat (f : nat) : K (option stat) :=
  fl <- file_at f ;;
  match f_type fl with
  | FD_INODE =>
      ilock (f_ip fl) ;;;
      ip <- deref (f_ip fl) ;;
      st <- stati ip ;;
      iunlock (f_ip fl) ;;;
      ret (Some st)
  | _ => ret None
  end.

Definition fileread (f : nat) (n : Z) : K (Z * list Z) :=
  fl <- file_at f ;;
  if negb (f_readable fl) then ret (-1, []) else
  match f_type fl with
  | FD_PIPE => piperead (f_pipe fl) n
  | FD_INODE =>
      ilock (f_ip fl) ;;;
      ip <- deref (f_ip fl) ;;
      fl' <- file_at f ;;
      r <- readi ip (f_off fl') (u32 n) ;;
      (if 0 <? fst r then set_file f (λ fl, with_f_off (u32 (f_off fl + fst r)) fl) else ret tt) ;;;
      iunlock (f_ip fl) ;;;
      ret r
  | FD_NONE => panic "fileread"
  end.

(** [((MAXOPBLOCKS-1-1-2) / 2) * 512]. *)
Definition FILE_MAX : Z := (MAXOPBLOCKS - 1 - 1 - 2) / 2 * 512.

(** The loop of [filewrite], [i] bytes of [src] written; each turn that goes on
    writes a byte at least.  It returns the last value of [i]. *)
Fixpoint filewrite_loop (fuel : nat) (f : nat) (src : list Z) (i : Z) : K Z :=
  match fuel with
  | O => diverge
  | S fuel' =>
      let n := Z.of_nat (length src) in
      if i <? n then
        let n1 := if FILE_MAX <? n - i then FILE_MAX else n - i in
        begin_op ;;;
        fl <- file_at f ;;
        ilock (f_ip fl) ;;;
        ip <- deref (f_ip fl) ;;
        fl' <- file_at f ;;
        r <- writei ip (slice src (Z.to_nat i) (Z.to_nat n1)) (f_off fl') ;;
        (if 0 <? r then set_file f (λ fl, with_f_off (u32 (f_off fl + r)) fl) else ret tt) ;;;
        iunlock (f_ip fl) ;;;
        end_op ;;;
        if r <? 0 then ret i
        else if negb (r =? n1) then panic "short filewrite"
        else filewrite_loop fuel' f src (i + r)
      else ret i
  end.

Definition filewrite (f : nat) (src : list Z) : K Z :=
  fl <- file_at f ;;
  if negb (f_writable fl) then ret (-1) else
  match f_type fl with
  | FD_PIPE => pipewrite (f_pipe fl) src
  | FD_INODE =>
      i <- filewrite_loop (S (length src)) f src 0 ;;
      let n := Z.of_nat (length src) in
      ret (if i =? n then n else -1)
  | FD_NONE => panic "filewrite"
  end.

(** * Creating a pipe *)

(** The lock at the start of [struct pipe] takes 52 bytes; [data] follows, with
    what the page held. *)
Definition pipe_of_page (m : mem) (p : Z) : pipe :=
  mkPipe ((λ i, m (u32 (p + 52 + Z.of_nat i))) <$> seq 0 (Z.to_nat PIPESIZE)) 0 0 1 1.

Definition close_opt (f : option nat) : K unit :=
  match f with Some f => fileclose f | None => ret tt end.

(** The label [bad]; [p] is 0 there whenever it is reached. *)
Definition pipealloc_bad (f0 f1 : option nat) : K (option (nat * nat)) :=
  close_opt f0 ;;;
  close_opt f1 ;;;
  ret None.

(** The files of the read and of the write end, or [None] for -1. *)
Definition pipealloc : K (option (nat * nat)) :=
  f0 <- filealloc ;;
  match f0 with
  | None => pipealloc_bad None None
  | Some r =>
      f1 <- filealloc ;;
      match f1 with
      | None => pipealloc_bad (Some r) None
      | Some w =>
          p <- kalloc ;;
          if p =? 0 then pipealloc_bad (Some r) (Some w) else
          modify (λ s, with_k_pipes (<[p := pipe_of_page (k_mem s) p]> (k_pipes s)) s) ;;;
          initlock (LPipe p) "pipe" ;;;
          set_file r (with_f_type FD_PIPE) ;;;
          set_file r (with_f_readable true) ;;;
          set_file r (with_f_writable false) ;;;
          set_file r (with_f_pipe p) ;;;
          set_file w (with_f_type FD_PIPE) ;;;
          set_file w (with_f_readable false) ;;;
          set_file w (with_f_writable true) ;;;
          set_file w (with_f_pipe p) ;;;
          ret (Some (r, w))
      end
  end.

(** * The effect of the operations *)

Definition ftable_ready (s : kernel) : Prop := kok s ∧ unlocked LFtable s.

Lemma file_at_ok f fl s : k_ftable s !! f = Some fl → file_at f s = Done fl s.
Proof. intros H. unfold file_at, bind, get. simpl. by rewrite H. Qed.

Lemma filealloc_ok s :
  ftable_ready s →
  filealloc s = match find_index (λ f, f_ref f =? 0) (k_ftable s) with
                | Some f => Done (Some f) (upd_file f (with_f_ref 1) s)
                | None => Done None s
                end.
Proof.
  intros [Hok Hl]. unfold filealloc. run kacquire_ok. unfold bind at 1, gets. cbn [obind].
  change (k_ftable (enter LFtable s)) with (k_ftable s).
  destruct (find_index _ _) as [f|].
  - erewrite bind_done by done. unfold upd_file.
    erewrite bind_done by (apply krelease_ok; eauto with kernel). simpl. by leave_out.
  - erewrite bind_done by (apply krelease_ok; eauto with kernel). by leave_out.
Qed.

Lemma filedup_ok s f fl :
  ftable_ready s → k_ftable s !! f = Some fl → 1 ≤ f_ref fl < 2147483647 →
  filedup f s = Done f (upd_file f (with_f_ref (f_ref fl + 1)) s).
Proof.
  intros [Hok Hl] Hf Hr. unfold filedup. run kacquire_ok.
  erewrite bind_done by (by apply file_at_ok). rewrite (proj2 (Z.ltb_ge _ _)) by lia.
  erewrite bind_done by done. unfold upd_file.
  erewrite bind_done by (apply krelease_ok; eauto with kernel). simpl. leave_out.
  unfold ret. do 2 f_equal. apply list_eq. intros i. rewrite !list_lookup_alter.
  case_decide; [subst|done]. rewrite Hf. simpl. by rewrite s32_small by lia.
Qed.

(** ** A new pipe *)

(** The two ends of the pipe at [p]. *)
Definition read_end (p : Z) (fl : file) : file :=
  with_f_pipe p (with_f_writable false (with_f_readable true (with_f_type FD_PIPE (with_f_ref 1 fl)))).
Definition write_end (p : Z) (fl : file) : file :=
  with_f_pipe p (with_f_writable true (with_f_readable false (with_f_type FD_PIPE (with_f_ref 1 fl)))).

Definition free_file (ft : list file) : option nat := find_index (λ f, f_ref f =? 0) ft.

Lemma free_file_lookup ft f : free_file ft = Some f → ∃ fl, ft !! f = Some fl ∧ f_ref fl = 0.
Proof. intros [(fl & Hf & Hr) _]%find_index_Some. exists fl. split; [done|lia]. Qed.

Lemma prep_new m p : prep (pipe_of_page m p) [].
Proof.
  constructor; simpl.
  - done.
  - unfold is_u32. lia.
  - done.
  - unfold PIPESIZE. lia.
  - intros i c Hi. by rewrite lookup_nil in Hi.
Qed.

(** The state after [pipealloc] has succeeded. *)
Lemma pipealloc_ok s r w p l :
  ftable_ready s → kmem_ready s → kmem_inv s (p :: l) →
  free_file (k_ftable s) = Some r → free_file (alter (with_f_ref 1) r (k_ftable s)) = Some w →
  ∃ s', pipealloc s = Done (Some (r, w)) s' ∧ kmem_inv s' l ∧
    k_ftable s' = alter (write_end p) w (alter (read_end p) r (k_ftable s)) ∧
    k_pipes s' = <[p := pipe_of_page (k_mem s) p]> (k_pipes s) ∧ k_ptable s' = k_ptable s ∧
    k_hart s' = with_h_locks (<[LPipe p := mkSpinlock 0 "pipe" None]> (h_locks (k_hart s))) (k_hart s).
Proof.
  intros Hr Hk Hinv Hf Hg. unfold free_file in *. unfold pipealloc.
  erewrite bind_done by (rewrite filealloc_ok, Hf; done). cbn iota.
  erewrite bind_done by (rewrite filealloc_ok; [simpl; rewrite Hg; done|exact Hr]). cbn iota.
  destruct (kalloc_cons (upd_file w (with_f_ref 1) (upd_file r (with_f_ref 1) s)) p l) as (s2 & E2 & Hinv2 & Hs2);
    [exact Hk|exact Hinv|].
  erewrite bind_done by exact E2.
  destruct (Z.eqb_spec p 0) as [->|_].
  { destruct Hinv as (_ & _ & Hp). inversion Hp as [|? ? (_ & _ & Hrange & _)]. unfold KERNBASE in Hrange. lia. }
  erewrite bind_done by done. erewrite bind_done by apply initlock_eq.
  do 8 erewrite bind_done by done. eexists. split; [reflexivity|]. split; [exact Hinv2|].
  assert (r ≠ w) as Hne.
  { intros <-. destruct (free_file_lookup _ _ Hg) as (fl & Hl & H0).
    rewrite list_lookup_alter, decide_True in Hl by done.
    apply fmap_Some in Hl as (? & _ & ->). by simpl in H0. }
  split; [|rewrite Hs2; done].
  simpl. rewrite Hs2. simpl. rewrite !list_alter_alter_eq.
  rewrite (list_alter_alter_ne (_ ∘ _) (with_f_ref 1) _ r w) by done. by rewrite !list_alter_alter_eq.
Qed.

Lemma pipe_file_write s f fl p q src :
  k_ftable s !! f = Some fl → f_writable fl = true → f_type fl = FD_PIPE → f_pipe fl = p →
  pipe_ready s p → pipe_holds s p q → Z.of_nat (length q + length src) ≤ PIPESIZE →
  ∃ s', filewrite f src s = Done (Z.of_nat (length src)) s' ∧
    pipe_holds s' p (q ++ src) ∧ pipe_done p (ChNread p) s s'.
Proof.
  intros Hf Hw Ht Hp Hr Hh Hl. unfold filewrite. erewrite bind_done by (by apply file_at_ok).
  rewrite Hw, Ht, Hp. by apply pipewrite_ok.
Qed.

Lemma pipe_file_read s f fl p q n :
  k_ftable s !! f = Some fl → f_readable fl = true → f_type fl = FD_PIPE → f_pipe fl = p →
  pipe_ready s p → pipe_holds s p q → q ≠ [] →
  ∃ s', fileread f n s = Done (Z.of_nat (length (take (Z.to_nat n) q)), take (Z.to_nat n) q) s' ∧
    pipe_holds s' p (drop (Z.to_nat n) q) ∧ pipe_done p (ChNwrite p) s s'.
Proof.
  intros Hf Hw Ht Hp Hr Hh Hl. unfold fileread. erewrite bind_done by (by apply file_at_ok).
  rewrite Hw, Ht, Hp. apply piperead_ok; auto.
Qed.

Lemma pipe_done_ftable p ch s s' : pipe_done p ch s s' → k_ftable s' = k_ftable s.
Proof. intros (s1 & (E & _) & ->). by rewrite E. Qed.

(** [pipealloc] makes a working pipe.  It takes the first two free files of
    the table and a page, and changes no other file; the first file then only
    reads and the second only writes, and what is written to the second (up to
    the capacity of the pipe) is what the first reads. *)
Theorem pipealloc_connects s r w p l src :
  ftable_ready s → unlocked LPtable s → kmem_ready s → kmem_inv s (p :: l) →
  free_file (k_ftable s) = Some r → free_file (alter (with_f_ref 1) r (k_ftable s)) = Some w →
  src ≠ [] → Z.of_nat (length src) ≤ PIPESIZE →
  ∃ s1 s2 s3, pipealloc s = Done (Some (r, w)) s1 ∧ kmem_inv s1 l ∧
    (∀ f, f ≠ r → f ≠ w → k_ftable s1 !! f = k_ftable s !! f) ∧
    filewrite w src s1 = Done (Z.of_nat (length src)) s2 ∧
    fileread r (Z.of_nat (length src)) s2 = Done (Z.of_nat (length src), src) s3 ∧
    (∀ n, fileread w n s1 = Done (-1, []) s1) ∧ filewrite r src s1 = Done (-1) s1.
Proof.
  intros Hr Hpt Hk Hinv Hf Hg Hne Hlen.
  destruct (pipealloc_ok s r w p l) as (s1 & E1 & Hinv1 & Hft & Hpi & Hproc & Hh); [done..|].
  destruct (free_file_lookup _ _ Hf) as (fr & Hfr & Hr0). destruct (free_file_lookup _ _ Hg) as (fw & Hfw & Hw0).
  assert (Hrw : r ≠ w).
  { intros <-. rewrite list_lookup_alter, decide_True, Hfr in Hfw by done. by injection Hfw as <-. }
  rewrite list_lookup_alter, decide_False in Hfw by done.
  assert (Lr : k_ftable s1 !! r = Some (read_end p fr)).
  { rewrite Hft, !list_lookup_alter, decide_False, decide_True by done. by rewrite Hfr. }
  assert (Lw : k_ftable s1 !! w = Some (write_end p fw)).
  { rewrite Hft, !list_lookup_alter, decide_True, decide_False by done. by rewrite Hfw. }
  assert (Hready : pipe_ready s1 p).
  { unfold pipe_ready, kok, unlocked. rewrite Hh. split; [apply Crit.hart_ok_locks, Hr|]. split.
    - exact (unlocked_initlock (LPipe p) "pipe" s).
    - by apply (unlocked_initlock_ne LPtable (LPipe p) "pipe" s). }
  assert (Hholds : pipe_holds s1 p []).
  { exists (pipe_of_page (k_mem s) p). split; [by rewrite Hpi, lookup_insert_eq|apply prep_new]. }
  destruct (pipe_file_write s1 w (write_end p fw) p [] src) as (s2 & E2 & Hh2 & Hd2); [done..|].
  destruct (pipe_file_read s2 r (read_end p fr) p src (Z.of_nat (length src))) as (s3 & E3 & _);
    [by rewrite (pipe_done_ftable _ _ _ _ Hd2)|done..|by eapply pipe_done_ready|done|done|].
  rewrite Nat2Z.id, firstn_all in E3. exists s1, s2, s3.
  split; [exact E1|]. split; [exact Hinv1|]. split; [|split; [exact E2|split; [exact E3|split]]].
  - intros f Hf1 Hf2. rewrite Hft, !list_lookup_alter, !decide_False by done. done.
  - intros n. unfold fileread. by erewrite bind_done by (by apply file_at_ok).
  - unfold filewrite. by erewrite bind_done by (by apply file_at_ok).
Qed.

(** ** Witness *)

Definition demo_files : kernel :=
  with_k_ftable [mkFile FD_INODE 1 true true 0 (Some 0%nat) 0; mkFile FD_NONE 0 false false 0 None 0;
                 mkFile FD_NONE 0 false false 0 None 0]
    (with_k_freelist (KERNBASE + 0x200000) demo_run).

Lemma pipealloc_connects_witness :
  ∃ s1 s2 s3, pipealloc demo_files = Done (Some (1%nat, 2%nat)) s1 ∧
    filewrite 2 [104; 105] s1 = Done 2 s2 ∧ fileread 1 2 s2 = Done (2, [104; 105]) s3.
Proof.
  destruct (pipealloc_connects demo_files 1 2 (KERNBASE + 0x200000) [] [104; 105])
    as (s1 & s2 & s3 & E1 & _ & _ & E2 & E3 & _).
  - split; [exact demo_run_kok|reflexivity].
  - reflexivity.
  - intros _. split; [exact demo_run_kok|reflexivity].
  - split; [split; reflexivity|]. split; [apply NoDup_singleton|].
    constructor; [|constructor]. unfold page_ok, V2P, u32, PGSIZE, PHYSTOP, KERNBASE. simpl. unfold KERNBASE. repeat split; lia.
  - reflexivity.
  - reflexivity.
  - discriminate.
  - unfold PIPESIZE. simpl. lia.
  - exists s1, s2, s3. split; [exact E1|]. split; [exact E2|exact E3].
Defined.
