(* ===== verification/Proc.v ===== *)
(** Processes: [fork], [exit], [wait] and [kill] of proc.c, and what they are
    made of (Sched has [sched], [sleep] and [wakeup], Scheduler the rest).

    The process table is [k_ptable]; [fork], [exit] and [wait] move its slots
    through UNUSED, EMBRYO, RUNNABLE, RUNNING, SLEEPING and ZOMBIE. *)

From S2P Require Import Prelude State Spinlock CString Cprintf Mmu Kalloc Vm Sched Bio Log Txn Inode Console Fs Dir Pipe File.
Import KLock.

(** The addresses and bytes the linker provides: the entry points [trapret]
    (trapasm.S) and [forkret], where the task state segments of the CPUs are, and
    the image of initcode.S. *)
Record image := mkImage {
  im_trapret : Z;
  im_forkret : Z;
  im_tsaddr : nat → Z;
  im_initcode : list Z;
}.

(** * Creating processes *)

Definition pinit : K unit := initlock LPtable "ptable".

(** The bytes of a [struct trapframe] at [a]: what [p->tf] points to. *)
Definition load16 (m : mem) (a : Z) : Z := m a + 256 * m (a + 1).
Definition trapframe_at (m : mem) (a : Z) : trapframe :=
  mkTrapframe (load32 m a) (load32 m (a + 4)) (load32 m (a + 8)) (load32 m (a + 12))
    (load32 m (a + 16)) (load32 m (a + 20)) (load32 m (a + 24)) (load32 m (a + 28))
    (load16 m (a + 32)) (load16 m (a + 36)) (load16 m (a + 40)) (load16 m (a + 44))
    (load32 m (a + 48)) (load32 m (a + 52)) (load32 m (a + 56)) (load16 m (a + 60))
    (load32 m (a + 64)) (load32 m (a + 68)) (load16 m (a + 72)).

(** [sizeof(struct trapframe)]. *)
Definition TF_SIZE : Z := 76.

Definition allocproc (L : image) : K (option nat) :=
  acquire LPtable ;;;
  pt <- gets k_ptable ;;
  match find_index (λ p, bool_decide (p_state p = UNUSED)) pt with
  | None =>
      release LPtable ;;;
      ret None
  | Some p =>
      pid <- gets k_nextpid ;;
      modify (upd_proc p (with_p_state EMBRYO)) ;;;
      modify (upd_proc p (with_p_pid pid)) ;;;
      modify (λ s, with_k_nextpid (s32 (k_nextpid s + 1)) s) ;;;
      release LPtable ;;;
      kstack <- kalloc ;;
      modify (upd_proc p (with_p_kstack kstack)) ;;;
      if kstack =? 0 then
        modify (upd_proc p (with_p_state UNUSED)) ;;;
        ret None
      else
        let sp := kstack + KSTACKSIZE - TF_SIZE in
        m <- gets k_mem ;;
        modify (upd_proc p (with_p_tf (trapframe_at m sp))) ;;;
        wr32 (sp - 4) (im_trapret L) ;;;
        modify (upd_proc p (with_p_context (mkContext 0 0 0 0 (im_forkret L)))) ;;;
        ret (Some p)
  end.

Definition tf_zero : trapframe := mkTrapframe 0 0 0 0 0 0 0 0 0 0 0 0 0 0 0 0 0 0 0.

(** The trap frame of the first process. *)
Definition init_tf : trapframe :=
  let ucode := Z.lor (Z.shiftl (Z.of_nat SEG_UCODE) 3) DPL_USER in
  let udata := Z.lor (Z.shiftl (Z.of_nat SEG_UDATA) 3) DPL_USER in
  with_tf_eip 0 (with_tf_esp PGSIZE (with_tf_eflags FL_IF (with_tf_ss udata
    (with_tf_es udata (with_tf_ds udata (with_tf_cs ucode tf_zero)))))).

(** [safestrcpy] into the 16 bytes of a name: bytes past the copy are kept. *)
Definition set_name (src : list Z) (p : proc) : proc :=
  with_p_name (splice (p_name p) 0 (safestrcpy (of_list src) 16)) p.

Definition userinit (L : image) : K unit :=
  op <- allocproc L ;;
  modify (with_k_initproc op) ;;;
  pgdir <- setupkvm ;;
  set_proc op (with_p_pgdir pgdir) ;;;
  if pgdir =? 0 then panic "userinit: out of memory?" else
  inituvm pgdir (im_initcode L) ;;;
  set_proc op (with_p_sz PGSIZE) ;;;
  set_proc op (with_p_tf init_tf) ;;;
  set_proc op (set_name (bytes "initcode")) ;;;
  cwd <- namei [SLASH] ;;
  set_proc op (with_p_cwd cwd) ;;;
  acquire LPtable ;;;
  set_proc op (with_p_state RUNNABLE) ;;;
  release LPtable.

Definition growproc (L : image) (n : Z) : K Z :=
  me <- myproc ;;
  pr <- proc_at me ;;
  let sz := p_sz pr in
  r <- (if 0 <? n then
          sz <- allocuvm (p_pgdir pr) sz (u32 (sz + n)) ;;
          ret (if sz =? 0 then None else Some sz)
        else if n <? 0 then
          sz <- deallocuvm (p_pgdir pr) sz (u32 (sz + n)) ;;
          ret (if sz =? 0 then None else Some sz)
        else ret (Some sz)) ;;
  match r with
  | None => ret (-1)
  | Some sz =>
      set_proc me (with_p_sz sz) ;;;
      pr <- proc_at me ;;
      switchuvm (im_tsaddr L) (Some pr) ;;;
      ret 0
  end.

(** [np->ofile[i] = filedup(curproc->ofile[i])]. *)
Definition fork_file (me np : option nat) (i : nat) : K unit :=
  cur <- proc_at me ;;
  match p_ofile cur !! i with
  | Some (Some f) =>
      f' <- filedup f ;;
      set_proc np (λ p, with_p_ofile (<[i := Some f']> (p_ofile p)) p)
  | _ => ret tt
  end.

(** The child, once it has its memory. *)
Definition fork_child (me np : option nat) : K Z :=
  cur <- proc_at me ;;
  set_proc np (with_p_sz (p_sz cur)) ;;;
  set_proc np (with_p_parent me) ;;;
  set_proc np (with_p_tf (p_tf cur)) ;;;
  set_proc np (λ p, with_p_tf (with_tf_eax 0 (p_tf p)) p) ;;;
  for_each (seq 0 NOFILE) (fork_file me np) ;;;
  cur <- proc_at me ;;
  cwd <- deref (p_cwd cur) ;;
  cwd <- idup cwd ;;
  set_proc np (with_p_cwd (Some cwd)) ;;;
  set_proc np (set_name (p_name cur)) ;;;
  child <- proc_at np ;;
  let pid := p_pid child in
  acquire LPtable ;;;
  set_proc np (with_p_state RUNNABLE) ;;;
  release LPtable ;;;
  ret pid.

Definition fork (L : image) : K Z :=
  me <- myproc ;;
  onp <- allocproc L ;;
  match onp with
  | None => ret (-1)
  | Some n =>
      let np := Some n in
      cur <- proc_at me ;;
      pgdir <- copyuvm (p_pgdir cur) (p_sz cur) ;;
      set_proc np (with_p_pgdir pgdir) ;;;
      if pgdir =? 0 then
        child <- proc_at np ;;
        kfree (p_kstack child) ;;;
        set_proc np (with_p_kstack 0) ;;;
        set_proc np (with_p_state UNUSED) ;;;
        ret (-1)
      else fork_child me np
  end.

(** * Ending processes *)

(** [fileclose(curproc->ofile[fd]); curproc->ofile[fd] = 0]. *)
Definition exit_file (me : option nat) (fd : nat) : K unit :=
  cur <- proc_at me ;;
  match p_ofile cur !! fd with
  | Some (Some f) =>
      fileclose f ;;;
      set_proc me (λ p, with_p_ofile (<[fd := None]> (p_ofile p)) p)
  | _ => ret tt
  end.

(** [wakeup1] of a process pointer; no process sleeps on the null channel. *)
Definition wake_proc (p : option nat) : K unit :=
  match p with
  | Some i => wakeup1 (ChProc i)
  | None => modify (λ s, with_k_ptable
      ((λ p, if decide (p_state p = SLEEPING ∧ p_chan p = None) then with_p_state RUNNABLE p else p)
         <$> k_ptable s) s)
  end.

(** One child of the process that exits goes to [initproc]. *)
Definition orphan (me : option nat) (i : nat) : K unit :=
  p <- proc_at (Some i) ;;
  if decide (p_parent p = me) then
    ip <- gets k_initproc ;;
    set_proc (Some i) (with_p_parent ip) ;;;
    p <- proc_at (Some i) ;;
    if decide (p_state p = ZOMBIE) then wake_proc ip else ret tt
  else ret tt.

(** The end of [exit], once the files are closed. *)
Definition exit_zombie (me : option nat) : K unit :=
  acquire LPtable ;;;
  cur <- proc_at me ;;
  wake_proc (p_parent cur) ;;;
  n <- gets (λ s, length (k_ptable s)) ;;
  for_each (seq 0 n) (orphan me) ;;;
  set_proc me (with_p_state ZOMBIE) ;;;
  sched ;;;
  panic "zombie exit".

Definition exit : K unit :=
  me <- myproc ;;
  ip <- gets k_initproc ;;
  if decide (me = ip) then panic "init exiting" else
  for_each (seq 0 NOFILE) (exit_file me) ;;;
  begin_op ;;;
  cur <- proc_at me ;;
  cwd <- deref (p_cwd cur) ;;
  iput cwd ;;;
  end_op ;;;
  set_proc me (with_p_cwd None) ;;;
  exit_zombie me.

(** What [wait] leaves of a zombie. *)
Definition reaped (p : proc) : proc :=
  with_p_state UNUSED (with_p_killed 0 (with_p_name (<[0%nat := 0]> (p_name p))
    (with_p_parent None (with_p_pid 0 p)))).

(** The scan of the process table: the pid of a child that has been reaped, and
    whether there are children. *)
Fixpoint wait_scan (me : option nat) (ps : list nat) (havekids : bool) : K (option Z * bool) :=
  match ps with
  | [] => ret (None, havekids)
  | i :: ps' =>
      p <- proc_at (Some i) ;;
      if decide (p_parent p ≠ me) then wait_scan me ps' havekids
      else if decide (p_state p = ZOMBIE) then
        let pid := p_pid p in
        kfree (p_kstack p) ;;;
        set_proc (Some i) (with_p_kstack 0) ;;;
        freevm (p_pgdir p) ;;;
        set_proc (Some i) reaped ;;;
        release LPtable ;;;
        ret (Some pid, true)
      else wait_scan me ps' true
  end.

Fixpoint wait_for (fuel : nat) (me : option nat) : K Z :=
  match fuel with
  | O => diverge
  | S fuel' =>
      n <- gets (λ s, length (k_ptable s)) ;;
      r <- wait_scan me (seq 0 n) false ;;
      match r with
      | (Some pid, _) => ret pid
      | (None, havekids) =>
          cur <- proc_at me ;;
          if negb havekids || negb (p_killed cur =? 0) then
            release LPtable ;;;
            ret (-1)
          else
            i <- deref me ;;
            sleep (ChProc i) (Some LPtable) ;;;
            wait_for fuel' me
      end
  end.

Definition wait : K Z :=
  me <- myproc ;;
  acquire LPtable ;;;
  w <- gets k_wakes ;;
  wait_for (S w) me.

Definition kill (pid : Z) : K Z :=
  acquire LPtable ;;;
  pt <- gets k_ptable ;;
  match find_index (λ p, p_pid p =? pid) pt with
  | Some i =>
      set_proc (Some i) (with_p_killed 1) ;;;
      set_proc (Some i) (λ p, if decide (p_state p = SLEEPING) then with_p_state RUNNABLE p else p) ;;;
      release LPtable ;;;
      ret 0
  | None =>
      release LPtable ;;;
      ret (-1)
  end.

Definition sys_pscnt : K Z :=
  pt <- gets k_ptable ;;
  ret (Z.of_nat (length (filter (λ p, p_state p ≠ UNUSED) pt))).
