(* ===== verification/Entry.v ===== *)
(** The assembly the kernel is entered and left by: the trap vectors
    (vectors.pl), [alltraps] and [trapret] (trapasm.S), and [swtch] (swtch.S),
    over the registers of the processor and the memory.

    The theorems say that the stack [alltraps] builds is a [struct trapframe] of the
    interrupted program, that [trapret] resumes what the frame says, so that a
    trap that changes one register of the frame changes that one register of the
    program; and that a thread that calls [swtch] goes on where it was when it is switched back to. *)

From S2P Require Import Prelude State CString Mmu Proc.

Record regs := mkRegs {
  eax : Z; ecx : Z; edx : Z; ebx : Z; esp : Z; ebp : Z; esi : Z; edi : Z;
  eip : Z; eflags : Z; cs : Z; ss : Z; ds : Z; es : Z; fs : Z; gs : Z;
}.

Record mach := mkMach {
  rg : regs;
  mm : mem;
}.

Definition set_esp (v : Z) (r : regs) : regs :=
  mkRegs (eax r) (ecx r) (edx r) (ebx r) v (ebp r) (esi r) (edi r) (eip r) (eflags r) (cs r) (ss r) (ds r) (es r) (fs r) (gs r).

Definition pushl (v : Z) (s : mach) : mach :=
  let sp := u32 (esp (rg s) - 4) in mkMach (set_esp sp (rg s)) (store32 (mm s) sp v).

(** * Traps *)

(** The processor takes trap [n] of a user program: it loads the kernel's stack
    and code segment, and pushes the program's. [err] is the error code, for the traps that have one. *)
Definition int_gate (esp0 ss0 cs0 : Z) (err : option Z) (handler : Z) (s : mach) : mach :=
  let r := rg s in
  let s1 := mkMach (mkRegs (eax r) (ecx r) (edx r) (ebx r) esp0 (ebp r) (esi r) (edi r) (eip r) (eflags r) (cs r) ss0 (ds r) (es r) (fs r) (gs r)) (mm s) in
  let s2 := pushl (eip r) (pushl (cs r) (pushl (eflags r) (pushl (esp r) (pushl (ss r) s1)))) in
  let s3 := match err with Some e => pushl e s2 | None => s2 end in
  let r3 := rg s3 in
  mkMach (mkRegs (eax r3) (ecx r3) (edx r3) (ebx r3) (esp r3) (ebp r3) (esi r3) (edi r3) handler (eflags r3) cs0 (ss r3) (ds r3) (es r3) (fs r3) (gs r3)) (mm s3).

(** The traps for which the processor pushes an error code. *)
Definition has_err (n : Z) : bool := (n =? 8) || ((10 <=? n) && (n <=? 14)) || (n =? 17).

(** [vector n], which vectors.pl writes. *)
Definition vector (n : Z) (s : mach) : mach :=
  let s := if negb (has_err n) then pushl 0 s else s in
  pushl n s.

Definition SEG_KDATA : Z := 2.

Definition pushal (s : mach) : mach :=
  let sp := esp (rg s) in
  let r := rg s in
  pushl (edi r) (pushl (esi r) (pushl (ebp r) (pushl sp (pushl (ebx r) (pushl (edx r) (pushl (ecx r) (pushl (eax r) s))))))).

(** [movw $(SEG_KDATA<<3), %ax] and the moves to [%ds] and [%es]. *)
Definition load_kdata (s : mach) : mach :=
  let r := rg s in
  let ax := Z.shiftl SEG_KDATA 3 in
  mkMach (mkRegs (Z.lor (Z.land (eax r) 0xffff0000) ax) (ecx r) (edx r) (ebx r) (esp r) (ebp r) (esi r) (edi r) (eip r) (eflags r) (cs r) (ss r) ax ax (fs r) (gs r)) (mm s).

(** [alltraps] up to the call of [trap], whose argument is on the stack. *)
Definition alltraps (s : mach) : mach :=
  let r := rg s in
  let s := pushl (gs r) (pushl (fs r) (pushl (es r) (pushl (ds r) s))) in
  let s := load_kdata (pushal s) in
  pushl (esp (rg s)) s.

(** [popal], the segments, the two words and [iret]. *)
Definition trapret (s : mach) : mach :=
  let m := mm s in
  let p := esp (rg s) in
  let w i := load32 m (u32 (p + i)) in
  mkMach (mkRegs (w 28) (w 24) (w 20) (w 16) (w 68) (w 8) (w 4) (w 0) (w 56) (w 64) (u16 (w 60)) (u16 (w 72))
    (u16 (w 44)) (u16 (w 40)) (u16 (w 36)) (u16 (w 32))) m.

(** * Context switch *)

(** [%esp] points at the return address, under which are the arguments. *)
Definition swtch (s : mach) : mach :=
  let r := rg s in
  let eax' := load32 (mm s) (u32 (esp r + 4)) in
  let edx' := load32 (mm s) (u32 (esp r + 8)) in
  let s := pushl (edi r) (pushl (esi r) (pushl (ebx r) (pushl (ebp r) s))) in
  let m := store32 (mm s) eax' (esp (rg s)) in
  let w i := load32 m (u32 (edx' + i)) in
  mkMach (mkRegs eax' (ecx r) edx' (w 8) (u32 (edx' + 20)) (w 12) (w 4) (w 0) (w 16) (eflags r) (cs r) (ss r) (ds r) (es r) (fs r) (gs r)) m.

(** The [struct context] at [a]. *)
Definition context_at (m : mem) (a : Z) : context :=
  mkContext (load32 m a) (load32 m (a + 4)) (load32 m (a + 8)) (load32 m (a + 12)) (load32 m (a + 16)).

(** * Stacks *)

(** The words [l] pushed, the last one at the top. *)
Fixpoint push_all (l : list Z) (s : mach) : mach :=
  match l with
  | [] => s
  | v :: l' => push_all l' (pushl v s)
  end.

Fixpoint stack_words (m : mem) (sp : Z) (l : list Z) : mem :=
  match l with
  | [] => m
  | v :: l' => stack_words (store32 m (sp - 4) v) (sp - 4) l'
  end.

Lemma push_all_spec l : ∀ s, 4 * Z.of_nat (length l) ≤ esp (rg s) < 4294967296 →
  push_all l s = mkMach (set_esp (esp (rg s) - 4 * Z.of_nat (length l)) (rg s)) (stack_words (mm s) (esp (rg s)) l).
Proof.
  induction l as [|v l IH]; intros s H; cbn [length push_all stack_words] in *.
  - rewrite Z.sub_0_r. by destruct s as [[] m].
  - rewrite IH; unfold pushl; cbn [rg mm esp set_esp]; rewrite u32_small by (unfold is_u32; lia); [|lia].
    unfold set_esp. cbn. do 2 f_equal. lia.
Qed.

(** What is pushed later lies below. *)
Lemma stack_words_above l : ∀ m sp a, sp ≤ a → load32 (stack_words m sp l) a = load32 m a.
Proof.
  induction l as [|v l IH]; intros m sp a H; [done|]. cbn [stack_words]. rewrite IH by lia. apply load_store32_ne. lia.
Qed.

Lemma stack_words_lookup l : ∀ m sp k v, l !! k = Some v →
  load32 (stack_words m sp l) (sp - 4 * (Z.of_nat k + 1)) = u32 v.
Proof.
  induction l as [|x l IH]; intros m sp k v H; [done|]. cbn [stack_words]. destruct k as [|k].
  - injection H as <-. rewrite stack_words_above by lia. replace (sp - 4 * (Z.of_nat 0 + 1)) with (sp - 4) by lia. apply load_store32_same.
  - rewrite <-(IH (store32 m (sp - 4) x) (sp - 4) k v H). f_equal. lia.
Qed.

Lemma stack_words_outside l : ∀ m sp a, a + 4 ≤ sp - 4 * Z.of_nat (length l) ∨ sp ≤ a → load32 (stack_words m sp l) a = load32 m a.
Proof.
  induction l as [|v l IH]; intros m sp a H; [done|]. cbn [stack_words length] in *. rewrite IH by lia. apply load_store32_ne. lia.
Qed.

Lemma mem_ok_stack l : ∀ m sp, mem_ok m → mem_ok (stack_words m sp l).
Proof.
  induction l as [|v l IH]; intros m sp H; [done|]. cbn [stack_words]. apply IH. intros x. rewrite store32_spec.
  case_match; [|apply H]. destruct (le_enc 4 v !! Z.to_nat (x - (sp - 4))) as [b|] eqn:E; cbn; [|unfold is_u8; lia].
  eapply (Forall_lookup_1 is_u8); [apply le_enc_bytes|done].
Qed.

(** The low half of a word. *)
Lemma load16_load32 m a : mem_ok m → load16 m a = u16 (load32 m a).
Proof.
  intros H. change (load32 m a) with (m a + 256 * (m (a + 1) + 256 * (m (a + 2) + 256 * (m (a + 3) + 256 * 0)))).
  unfold load16, u16. pose proof (H a). pose proof (H (a + 1)). pose proof (H (a + 2)). pose proof (H (a + 3)).
  unfold is_u8 in *. zdiv.
Qed.

(** ** The frame *)

Definition is_u16 (z : Z) : Prop := 0 ≤ z < 65536.

Record regs_ok (r : regs) : Prop := mkRegsOk {
  ok_words : Forall is_u32 [eax r; ecx r; edx r; ebx r; esp r; ebp r; esi r; edi r; eip r; eflags r];
  ok_segs : Forall is_u16 [cs r; ss r; ds r; es r; fs r; gs r];
}.

(** What is on the kernel's stack when [trap] is called. *)
Definition trap_stack (r : regs) (esp0 n err : Z) : list Z :=
  [ss r; esp r; eflags r; cs r; eip r; err; n; ds r; es r; fs r; gs r;
   eax r; ecx r; edx r; ebx r; esp0 - 44; ebp r; esi r; edi r; esp0 - 76].

Definition user_frame (r : regs) (esp0 n err : Z) : trapframe :=
  mkTrapframe (edi r) (esi r) (ebp r) (esp0 - 44) (ebx r) (edx r) (ecx r) (eax r) (gs r) (fs r) (es r) (ds r) n err
    (eip r) (cs r) (eflags r) (esp r) (ss r).

Lemma pushl_mk v a b c d sp e f g h i j k l m n o mem : 4 ≤ sp < 4294967296 →
  pushl v (mkMach (mkRegs a b c d sp e f g h i j k l m n o) mem) =
    mkMach (mkRegs a b c d (sp - 4) e f g h i j k l m n o) (store32 mem (sp - 4) v).
Proof. intros H. unfold pushl. cbn [rg mm esp]. by rewrite u32_small by (unfold is_u32; lia). Qed.

(** A trap of a user program, up to the call of [trap]. *)
Definition enter_trap (esp0 ss0 cs0 : Z) (err : option Z) (n vec : Z) (s : mach) : mach :=
  alltraps (vector n (int_gate esp0 ss0 cs0 err vec s)).

Ltac regs := cbn [rg mm eax ecx edx ebx esp ebp esi edi eip eflags cs ss ds es fs gs negb].
Ltac pushes := regs; rewrite !pushl_mk by lia; regs.

(** From the vector to the call of [trap]. *)
Lemma alltraps_stack n m r sp s : 56 ≤ sp < 4294967296 → s = mkMach (set_esp sp r) m →
  mm (alltraps (pushl n s)) = stack_words m sp [n; ds r; es r; fs r; gs r; eax r; ecx r; edx r; ebx r; sp - 20; ebp r; esi r; edi r; sp - 52] ∧
  esp (rg (alltraps (pushl n s))) = sp - 56.
Proof.
  intros Hsp ->. destruct r. unfold set_esp. pushes. unfold alltraps, pushal. pushes. unfold load_kdata. pushes. cbn [stack_words].
  split; [|lia]. replace (sp - 20) with (sp - 4 - 4 - 4 - 4 - 4) by lia.
  by replace (sp - 52) with (sp - 4 - 4 - 4 - 4 - 4 - 4 - 4 - 4 - 4 - 4 - 4 - 4 - 4) by lia.
Qed.

Lemma enter_trap_stack esp0 ss0 cs0 err n vec s : 80 ≤ esp0 < 4294967296 → is_Some err ↔ has_err n = true →
  mm (enter_trap esp0 ss0 cs0 err n vec s) = stack_words (mm s) esp0 (trap_stack (rg s) esp0 n (default 0 err)) ∧
  esp (rg (enter_trap esp0 ss0 cs0 err n vec s)) = esp0 - 80.
Proof.
  intros Hsp Herr. destruct s as [r m]. unfold enter_trap, vector.
  assert (E : ∃ r', (if negb (has_err n) then pushl 0 (int_gate esp0 ss0 cs0 err vec (mkMach r m)) else int_gate esp0 ss0 cs0 err vec (mkMach r m)) =
    mkMach (set_esp (esp0 - 24) r') (stack_words m esp0 [ss r; esp r; eflags r; cs r; eip r; default 0 err]) ∧
    [ds r'; es r'; fs r'; gs r'; eax r'; ecx r'; edx r'; ebx r'; ebp r'; esi r'; edi r'] =
    [ds r; es r; fs r; gs r; eax r; ecx r; edx r; ebx r; ebp r; esi r; edi r]).
  { unfold int_gate. regs. rewrite (pushl_mk (ss r)), (pushl_mk (esp r)), (pushl_mk (eflags r)), (pushl_mk (cs r)), (pushl_mk (eip r)) by lia. regs. replace (esp0 - 24) with (esp0 - 4 - 4 - 4 - 4 - 4 - 4) by lia. destruct err as [e|].
    - rewrite (proj1 Herr) by done. pushes. by eexists (mkRegs _ _ _ _ 0 _ _ _ _ _ _ _ _ _ _ _).
    - destruct (has_err n); [by destruct (proj2 Herr eq_refl)|]. pushes. by eexists (mkRegs _ _ _ _ 0 _ _ _ _ _ _ _ _ _ _ _). }
  destruct E as (r' & E & [= E1 E2 E3 E4 E5 E6 E7 E8 E9 E10 E11]).
  destruct (alltraps_stack n _ r' (esp0 - 24) _ ltac:(lia) E) as [M P]. rewrite M, P, E1, E2, E3, E4, E5, E6, E7, E8, E9, E10, E11.
  split; [|lia]. unfold trap_stack. cbn [stack_words rg mm].
  replace (esp0 - 24) with (esp0 - 4 - 4 - 4 - 4 - 4 - 4) by lia.
  replace (esp0 - 4 - 4 - 4 - 4 - 4 - 4 - 20) with (esp0 - 44) by lia.
  by replace (esp0 - 4 - 4 - 4 - 4 - 4 - 4 - 52) with (esp0 - 76) by lia.
Qed.

(** The frame is at [esp0 - 76]. *)
Lemma frame_built r m esp0 n err : regs_ok r → mem_ok m → 80 ≤ esp0 < 4294967296 → is_u32 n → is_u32 err →
  trapframe_at (stack_words m esp0 (trap_stack r esp0 n err)) (esp0 - 76) = user_frame r esp0 n err.
Proof.
  intros [Hw Hs] Hm Hsp Hn He. set (l := trap_stack r esp0 n err). pose proof (mem_ok_stack l m esp0 Hm) as Hok.
  assert (L : ∀ k v a, a = esp0 - 4 * (Z.of_nat k + 1) → l !! k = Some v → is_u32 v → load32 (stack_words m esp0 l) a = v).
  { intros k v a -> Hk Hv. rewrite (stack_words_lookup l m esp0 k v Hk). by apply u32_small. }
  assert (H16 : ∀ k v a, a = esp0 - 4 * (Z.of_nat k + 1) → l !! k = Some v → is_u16 v → load16 (stack_words m esp0 l) a = v).
  { intros k v a Ha Hk Hv. rewrite load16_load32 by done. rewrite (L k v a Ha Hk) by (unfold is_u32, is_u16 in *; lia). by apply u16_small. }
  repeat match goal with H : Forall _ (_ :: _) |- _ => apply Forall_cons in H as [? H] end.
  unfold trapframe_at, user_frame. f_equal;
    [apply (L 18%nat) | apply (L 17%nat) | apply (L 16%nat) | apply (L 15%nat) | apply (L 14%nat) | apply (L 13%nat) | apply (L 12%nat)
    | apply (L 11%nat) | apply (H16 10%nat) | apply (H16 9%nat) | apply (H16 8%nat) | apply (H16 7%nat) | apply (L 6%nat) | apply (L 5%nat)
    | apply (L 4%nat) | apply (H16 3%nat) | apply (L 2%nat) | apply (L 1%nat) | apply (H16 0%nat)];
    try reflexivity; try assumption; unfold is_u32; lia.
Qed.

(** [trapret] resumes what the frame says. *)
Definition frame_regs (tf : trapframe) : regs :=
  mkRegs (tf_eax tf) (tf_ecx tf) (tf_edx tf) (tf_ebx tf) (tf_esp tf) (tf_ebp tf) (tf_esi tf) (tf_edi tf) (tf_eip tf) (tf_eflags tf)
    (tf_cs tf) (tf_ss tf) (tf_ds tf) (tf_es tf) (tf_fs tf) (tf_gs tf).

Lemma trapret_frame s : mem_ok (mm s) → 0 ≤ esp (rg s) → esp (rg s) + 76 ≤ 4294967296 →
  rg (trapret s) = frame_regs (trapframe_at (mm s) (esp (rg s))).
Proof.
  intros Hm H0 H1. unfold trapret, frame_regs, trapframe_at.
  cbn [rg tf_eax tf_ecx tf_edx tf_ebx tf_esp tf_ebp tf_esi tf_edi tf_eip tf_eflags tf_cs tf_ss tf_ds tf_es tf_fs tf_gs].
  rewrite !u32_small by (unfold is_u32; lia). rewrite !load16_load32 by done. by rewrite Z.add_0_r.
Qed.

(** C7: a trap saves and restores the whole program.  When the processor takes
    trap [n] of a user program, [alltraps] calls [trap] with the address of a [struct
    trapframe] that holds every register of the program, the number of the trap and its error
    code.  If the kernel leaves in that place the frame of some
    registers [r2], [trapret] resumes the program with exactly the registers
    [r2]: with its own, when the frame is left as it is, and with another
    [%eax] when a system call stores its result in the frame. *)
Theorem trap_roundtrip esp0 ss0 cs0 err n vec s :
  regs_ok (rg s) → mem_ok (mm s) → 80 ≤ esp0 < 4294967296 → is_u32 n → is_u32 (default 0 err) → is_Some err ↔ has_err n = true →
  let s1 := enter_trap esp0 ss0 cs0 err n vec s in
  load32 (mm s1) (esp (rg s1)) = esp0 - 76 ∧
  trapframe_at (mm s1) (esp0 - 76) = user_frame (rg s) esp0 n (default 0 err) ∧
  (∀ a, a + 4 ≤ esp0 - 80 ∨ esp0 ≤ a → load32 (mm s1) a = load32 (mm s) a) ∧
  ∀ r' m' r2, mem_ok m' → esp r' = esp0 - 76 → trapframe_at m' (esp0 - 76) = user_frame r2 esp0 n (default 0 err) →
    rg (trapret (mkMach r' m')) = r2.
Proof.
  intros Hr Hm Hsp Hn He Herr s1. destruct (enter_trap_stack esp0 ss0 cs0 err n vec s Hsp Herr) as [M P]. fold s1 in M, P.
  rewrite M, P. split; [|split; [by apply frame_built|split]].
  - rewrite <-(u32_small (esp0 - 76)) by (unfold is_u32; lia).
    rewrite <-(stack_words_lookup (trap_stack (rg s) esp0 n (default 0 err)) (mm s) esp0 19 (esp0 - 76) eq_refl). f_equal; lia.
  - intros a Ha. apply stack_words_outside. cbn. lia.
  - intros r' m' r2 Hm' Hp Htf. rewrite trapret_frame by (cbn [rg mm]; rewrite ?Hp; done || lia). cbn [rg mm]. rewrite Hp, Htf. by destruct r2.
Qed.

(** ** Switching *)

(** What [swtch] is called with: [old] and [new], and the room it uses; the
    three do not overlap. *)
Record swtch_ok (s : mach) (old new : Z) : Prop := mkSwtchOk {
  so_old : load32 (mm s) (esp (rg s) + 4) = old;
  so_new : load32 (mm s) (esp (rg s) + 8) = new;
  so_stack : 16 ≤ esp (rg s) ∧ esp (rg s) + 12 ≤ 4294967296;
  so_context : 0 ≤ new ∧ new + 20 < 4294967296;
  so_apart1 : old + 4 ≤ esp (rg s) - 16 ∨ esp (rg s) + 4 ≤ old;
  so_apart2 : new + 20 ≤ esp (rg s) - 16 ∨ esp (rg s) ≤ new;
  so_apart3 : old + 4 ≤ new ∨ new + 20 ≤ old;
}.

(** The registers that a call must preserve, as a context whose [eip] is the
    return address. *)
Definition saved (s : mach) : context :=
  mkContext (edi (rg s)) (esi (rg s)) (ebx (rg s)) (ebp (rg s)) (load32 (mm s) (esp (rg s))).

Definition saved_ok (s : mach) : Prop := Forall is_u32 [edi (rg s); esi (rg s); ebx (rg s); ebp (rg s)].

(** [swtch] saves the caller in a context whose address it stores in [*old],
    and goes on from the context [new]. *)
Lemma swtch_spec s old new : swtch_ok s old new → saved_ok s →
  let s' := swtch s in
  load32 (mm s') old = esp (rg s) - 16 ∧ context_at (mm s') (esp (rg s) - 16) = saved s ∧
  mkContext (edi (rg s')) (esi (rg s')) (ebx (rg s')) (ebp (rg s')) (eip (rg s')) = context_at (mm s) new ∧ esp (rg s') = new + 20.
Proof.
  intros [H1 H2 [H3 H4] [H5 H6] H7 H8 H9] Hr s'. unfold s', swtch. rewrite !(u32_small (esp (rg s) + _)) by (unfold is_u32; lia). rewrite H1, H2.
  destruct s as [r m]. cbn [rg mm] in *. set (l := [ebp r; ebx r; esi r; edi r]).
  assert (E : pushl (edi r) (pushl (esi r) (pushl (ebx r) (pushl (ebp r) (mkMach r m)))) = mkMach (set_esp (esp r - 16) r) (stack_words m (esp r) l)).
  { change (push_all l (mkMach r m) = mkMach (set_esp (esp r - 16) r) (stack_words m (esp r) l)). by rewrite push_all_spec by (cbn; lia). }
  rewrite E. cbn [rg mm edi esi ebx ebp eip esp set_esp]. unfold context_at, saved. cbn [rg mm].
  rewrite !u32_small by (unfold is_u32; lia).
  assert (L : ∀ k v a, a = esp r - 4 * (Z.of_nat k + 1) → l !! k = Some v → is_u32 v → load32 (stack_words m (esp r) l) a = v).
  { intros k v a -> Hk Hv. rewrite (stack_words_lookup l m (esp r) k v Hk). by apply u32_small. }
  unfold saved_ok in Hr. cbn [rg] in Hr. repeat match goal with H : Forall _ (_ :: _) |- _ => apply Forall_cons in H as [? H] end.
  split; [|split; [|split; [|done]]].
  - rewrite load_store32_same. apply u32_small. unfold is_u32. lia.
  - rewrite !load_store32_ne by lia. f_equal; [apply (L 3%nat)|apply (L 2%nat)|apply (L 1%nat)|apply (L 0%nat)|]; try done; try lia.
    rewrite stack_words_above by lia. f_equal; lia.
  - rewrite !load_store32_ne by lia. rewrite !stack_words_outside by (cbn; lia). by rewrite Z.add_0_r.
Qed.

(** C8: a context switch is invisible to the thread that makes it.  When a
    thread calls [swtch] and another one later switches to the context that
    was stored in [*old], with the words of that context still
    there, the first thread returns from its call: at its return address, with
    its stack and with the registers a call preserves. *)
Theorem kswtch_resumes s old new s2 old2 :
  swtch_ok s old new → saved_ok s → saved_ok s2 →
  swtch_ok s2 old2 (load32 (mm (swtch s)) old) →
  context_at (mm s2) (esp (rg s) - 16) = context_at (mm (swtch s)) (esp (rg s) - 16) →
  let r3 := rg (swtch s2) in
  edi r3 = edi (rg s) ∧ esi r3 = esi (rg s) ∧ ebx r3 = ebx (rg s) ∧ ebp r3 = ebp (rg s) ∧
  eip r3 = load32 (mm s) (esp (rg s)) ∧ esp r3 = esp (rg s) + 4.
Proof.
  intros H1 Hs1 Hs2 H2 Hctx r3. destruct (swtch_spec s old new H1 Hs1) as (E1 & E2 & _ & _). rewrite E1 in H2.
  destruct (swtch_spec s2 old2 _ H2 Hs2) as (_ & _ & E3 & E4). fold r3 in E3, E4. clearbody r3.
  rewrite Hctx, E2 in E3. injection E3 as -> -> -> -> ->. repeat (split; [done|]). lia.
Qed.

(** ** Examples *)

Definition demo_regs : regs := mkRegs 1 2 3 4 0x2000 5 6 7 0x100 0x202 0x1b 0x23 0x23 0x23 0 0.

(** A system call that returns 42. *)
Lemma trap_roundtrip_witness :
  let s1 := enter_trap 0x9000 0x10 8 None 64 0x500 (mkMach demo_regs (λ _, 0)) in
  trapframe_at (mm s1) (0x9000 - 76) = user_frame demo_regs 0x9000 64 0 ∧
  rg (trapret (mkMach (set_esp (0x9000 - 76) demo_regs) (store32 (mm s1) (0x9000 - 76 + 28) 42))) =
    mkRegs 42 2 3 4 0x2000 5 6 7 0x100 0x202 0x1b 0x23 0x23 0x23 0 0.
Proof.
  intros s1. destruct (trap_roundtrip 0x9000 0x10 8 None 64 0x500 (mkMach demo_regs (λ _, 0))) as (_ & F & _ & R).
  - constructor; repeat constructor; discriminate.
  - intros x. split; [discriminate|reflexivity].
  - split; [discriminate|reflexivity].
  - split; [discriminate|reflexivity].
  - split; [discriminate|reflexivity].
  - split; [intros [x [=]]|discriminate].
  - split; [exact F|]. apply R; [|reflexivity|vm_compute; reflexivity]. intros x. rewrite store32_spec. case_match.
    + destruct (le_enc 4 42 !! _) as [b|] eqn:E; [|split; [discriminate|reflexivity]].
      eapply (Forall_lookup_1 is_u8); [apply le_enc_bytes|exact E].
    + unfold s1. rewrite (proj1 (enter_trap_stack 0x9000 0x10 8 None 64 0x500 (mkMach demo_regs (λ _, 0)) ltac:(split; [discriminate|reflexivity])
        ltac:(split; [intros [y [=]]|discriminate]))). apply mem_ok_stack. intros y. split; [discriminate|reflexivity].
Defined.

(** Two threads, whose stacks are at 0x1000 and 0x2000: the first has called
    [swtch(0x3000, 0x1f00)], and the second calls [swtch(0x3004, 0x1000 - 16)]. *)
Definition thread_a : mach :=
  mkMach (mkRegs 0 0 0 11 0x1000 12 13 14 0 0 0 0 0 0 0 0) (store32 (store32 (store32 (λ _, 0) 0x1000 0x777) 0x1004 0x3000) 0x1008 0x1f00).
Definition thread_b : mach :=
  mkMach (mkRegs 0 0 0 0 0x2000 0 0 0 0 0 0 0 0 0 0 0)
    (store32 (store32 (store32 (mm (swtch thread_a)) 0x2000 0x888) 0x2004 0x3004) 0x2008 0xff0).

Lemma kswtch_resumes_witness :
  let r := rg (swtch thread_b) in
  edi r = 14 ∧ esi r = 13 ∧ ebx r = 11 ∧ ebp r = 12 ∧ eip r = load32 (mm thread_a) 0x1000 ∧ esp r = 0x1000 + 4.
Proof.
  apply (kswtch_resumes thread_a 0x3000 0x1f00 thread_b 0x3004).
  - constructor; vm_compute; try reflexivity; try (split; discriminate || reflexivity); (left; discriminate) || (right; discriminate).
  - repeat constructor; discriminate.
  - repeat constructor; discriminate.
  - constructor; vm_compute; try reflexivity; try (split; discriminate || reflexivity); (left; discriminate) || (right; discriminate).
  - vm_compute. reflexivity.
Defined.
