(* ===== verification/Fork.v ===== *)
(** What [fork], [wait], [exit] and [kill] of proc.c do.

    [fork] gives the child a private copy of the memory of its parent (Uvcopy),
    the same open files and directory, and the same registers but for [%eax].
    [wait] returns the memory of a child that has ended, and [exit] leaves a zombie
    whose children belong to [initproc]. *)

From S2P Require Import Prelude State Spinlock CString Cprintf Mmu Kalloc Vm Uvm Uvcopy Sched Bio Log Txn Inode Console Fs Dir Pipe File Proc.
Import KLock.

(** * [allocproc] *)

Definition unused (p : proc) : bool := bool_decide (p_state p = UNUSED).

(** A slot that has been taken: its kernel stack is the page [k]. *)
Definition embryo (im : image) (pid k : Z) (tf : trapframe) (p : proc) : proc :=
  with_p_context (mkContext 0 0 0 0 (im_forkret im)) (with_p_tf tf (with_p_kstack k
    (with_p_pid pid (with_p_state EMBRYO p)))).

(** A slot given back, as [allocproc] leaves it when there is no page for the stack. *)
Definition no_stack (pid : Z) (p : proc) : proc :=
  with_p_state UNUSED (with_p_kstack 0 (with_p_pid pid p)).

Lemma allocproc_none im s :
  kok s → unlocked LPtable s → find_index unused (k_ptable s) = None → allocproc im s = Done None s.
Proof.
  intros Hok Hul Hf. unfold allocproc. run kacquire_ok. unfold bind at 1, gets. cbn [obind].
  change (k_ptable (enter LPtable s)) with (k_ptable s). unfold unused in Hf. rewrite Hf.
  erewrite bind_done by (apply krelease_ok; eauto with kernel). by leave_out.
Qed.

(** The slot [p] with a new pid, before the page is asked for. *)
Definition taken_slot (p : nat) (s : kernel) : kernel :=
  with_k_nextpid (s32 (k_nextpid s + 1)) (upd_proc p (λ q, with_p_pid (k_nextpid s) (with_p_state EMBRYO q)) s).

Lemma upd_proc_twice p f g s : upd_proc p g (upd_proc p f s) = upd_proc p (λ q, g (f q)) s.
Proof. unfold upd_proc. cbn [k_ptable with_k_ptable]. by rewrite list_alter_alter_eq. Qed.

Lemma allocproc_some im s p :
  kok s → unlocked LPtable s → find_index unused (k_ptable s) = Some p →
  allocproc im s = (kstack <- kalloc ;;
      modify (upd_proc p (with_p_kstack kstack)) ;;;
      if kstack =? 0 then
        modify (upd_proc p (with_p_state UNUSED)) ;;;
        ret None
      else
        let sp := kstack + KSTACKSIZE - TF_SIZE in
        m <- gets k_mem ;;
        modify (upd_proc p (with_p_tf (trapframe_at m sp))) ;;;
        wr32 (sp - 4) (im_trapret im) ;;;
        modify (upd_proc p (with_p_context (mkContext 0 0 0 0 (im_forkret im)))) ;;;
        ret (Some p)) (taken_slot p s).
Proof.
  intros Hok Hul Hf. unfold allocproc. run kacquire_ok. unfold bind at 1, gets. cbn [obind].
  change (k_ptable (enter LPtable s)) with (k_ptable s). unfold unused in Hf. rewrite Hf.
  unfold bind at 1, gets. cbn [obind]. do 3 (erewrite bind_done by done).
  erewrite bind_done by (apply krelease_ok; unfold upd_proc; eauto with kernel). unfold upd_proc at 1 2. leave_out.
  by rewrite !upd_proc_twice.
Qed.

(** The state after [allocproc] has taken the slot [p] and the page [k]. *)
Definition with_stack (im : image) (p : nat) (k : Z) (s : kernel) : kernel :=
  upd_proc p (embryo im (k_nextpid s) k (trapframe_at (k_mem s) (k + KSTACKSIZE - TF_SIZE)))
    (with_k_nextpid (s32 (k_nextpid s + 1))
      (with_k_freelist (load32 (k_mem s) k) (with_k_mem (store32 (k_mem s) (k + 4 * 1004) (im_trapret im)) s))).

Lemma with_stack_inv im p k s L : kmem_inv s (k :: L) → kmem_inv (with_stack im p k s) L.
Proof.
  intros ((Ef & Hrep) & Hnd & Hpk). apply Forall_cons in Hpk as [(Kal & _) HL]. apply NoDup_cons in Hnd as [HkL Hnd].
  split; [|split; [done|exact HL]]. eapply free_rep_frame; [|exact Hrep]. intros q Hq. unfold with_stack.
  cbn [k_mem with_k_ptable upd_proc with_k_nextpid with_k_freelist with_k_mem].
  apply load_store32_ne. rewrite Forall_forall in HL. destruct (HL q Hq) as (Qal & _).
  assert (q ≠ k) by congruence. unfold PGSIZE in *. zdiv.
Qed.

Lemma allocproc_nomem im s p :
  kok s → unlocked LPtable s → kmem_ready s → kmem_inv s [] → find_index unused (k_ptable s) = Some p →
  allocproc im s = Done None (with_k_nextpid (s32 (k_nextpid s + 1)) (upd_proc p (no_stack (k_nextpid s)) s)).
Proof.
  intros Hok Hul Hr Hk Hf. rewrite (allocproc_some im s p) by done.
  erewrite bind_done by (by apply kalloc_empty). erewrite bind_done by done. cbn [Z.eqb].
  erewrite bind_done by done. rewrite upd_proc_twice. unfold taken_slot, upd_proc, ret. cbn [k_ptable with_k_ptable with_k_nextpid].
  do 2 f_equal. by rewrite list_alter_alter_eq.
Qed.

Lemma allocproc_stack im s p k L :
  kok s → unlocked LPtable s → kmem_ready s → kmem_inv s (k :: L) → find_index unused (k_ptable s) = Some p →
  allocproc im s = Done (Some p) (with_stack im p k s).
Proof.
  intros Hok Hul Hr Hk Hf. rewrite (allocproc_some im s p) by done.
  pose proof Hk as ((Ef & _) & _ & Hpk). apply Forall_cons in Hpk as [(_ & _ & Krg & _) _]. unfold KERNBASE in Krg.
  erewrite bind_done by (by apply kalloc_ok). change (k_freelist (taken_slot p s)) with (k_freelist s).
  rewrite Ef, (proj2 (Z.eqb_neq k 0)) by lia. cbn zeta. erewrite bind_done by done.
  unfold bind at 1, gets. cbn [obind]. do 3 (erewrite bind_done by done). unfold with_stack, ret.
  replace (k + KSTACKSIZE - TF_SIZE - 4) with (k + 4 * 1004) by (unfold KSTACKSIZE, TF_SIZE; lia).
  f_equal. unfold taken_slot, upd_proc. cbn [k_ptable k_mem with_k_ptable with_k_nextpid with_k_freelist with_k_mem].
  rewrite !list_alter_alter_eq. reflexivity.
Qed.

(** * The open files of the child *)

(** [filedup] of the descriptors, in order. *)
Definition dup_file (ft : list file) (o : option nat) : list file :=
  match o with
  | Some f => alter (λ fl, with_f_ref (f_ref fl + 1) fl) f ft
  | None => ft
  end.

(** Each open file has room for [n] more references. *)
Definition files_ok (ft : list file) (l : list (option nat)) (n : Z) : Prop :=
  ∀ f, Some f ∈ l → ∃ fl, ft !! f = Some fl ∧ 1 ≤ f_ref fl ∧ f_ref fl + n < 2147483648.

Lemma files_ok_dup ft l o n : files_ok ft l (n + 1) → files_ok (dup_file ft o) l n.
Proof.
  intros H f Hf. destruct (H f Hf) as (fl & Hl & H1 & H2). destruct o as [g|]; simpl.
  - rewrite list_lookup_alter. destruct (decide (g = f)) as [->|].
    + rewrite Hl. eexists. split; [done|]. simpl. lia.
    + exists fl. split; [done|]. lia.
  - exists fl. split; [done|]. lia.
Qed.

(** The slot [n] holds [c]. *)
Definition put (n : nat) (c : proc) (s : kernel) : kernel := with_k_ptable (<[n := c]> (k_ptable s)) s.

Lemma upd_proc_put n c f s : k_ptable s !! n = Some c → upd_proc n f s = put n (f c) s.
Proof.
  intros H. unfold upd_proc, put. f_equal. apply list_eq. intros i. rewrite list_lookup_alter, list_lookup_insert.
  pose proof (lookup_lt_Some _ _ _ H). destruct (decide (n = i)) as [->|].
  - rewrite decide_True by done. by rewrite H.
  - rewrite decide_False by naive_solver. done.
Qed.

Lemma put_at n c d s : k_ptable s !! n = Some c → k_ptable (put n d s) !! n = Some d.
Proof. intros H. apply list_lookup_insert_eq. by eapply lookup_lt_Some. Qed.

Lemma put_ne n i d s : n ≠ i → k_ptable (put n d s) !! i = k_ptable s !! i.
Proof. intros H. by apply list_lookup_insert_ne. Qed.

Lemma put_put n c d s : put n d (put n c s) = put n d s.
Proof. unfold put. cbn [k_ptable with_k_ptable]. by rewrite list_insert_insert_eq. Qed.

Lemma put_id n c s : k_ptable s !! n = Some c → put n c s = s.
Proof. intros H. unfold put. rewrite list_insert_id by done. by destruct s. Qed.

Lemma set_proc_put n c f s : k_ptable s !! n = Some c → set_proc (Some n) f s = Done tt (put n (f c) s).
Proof. intros H. rewrite set_proc_ok. by rewrite (upd_proc_put n c). Qed.

Section files.
Context (me n : nat) (cur : proc) (Hne : me ≠ n).

(** The child has the first [i] descriptors. *)
Definition copied_files (i : nat) (child : proc) : Prop :=
  p_ofile child = take i (p_ofile cur) ++ replicate (length (p_ofile cur) - i) None.

Lemma copied_files_next i o l child :
  drop i (p_ofile cur) = o :: l → copied_files i child →
  p_ofile cur !! i = Some o ∧ drop (S i) (p_ofile cur) = l ∧
  <[i := o]> (p_ofile child) = take (S i) (p_ofile cur) ++ replicate (length (p_ofile cur) - S i) None.
Proof.
  intros Hd Hc. assert (Hi : p_ofile cur !! i = Some o).
  { rewrite <-(Nat.add_0_r i), <-lookup_drop, Hd. done. }
  assert (Hlt : (i < length (p_ofile cur))%nat) by (by apply lookup_lt_Some in Hi).
  split; [done|]. split; [by rewrite <-Nat.add_1_r, <-drop_drop, Hd|]. rewrite Hc.
  replace (length (p_ofile cur) - i)%nat with (S (length (p_ofile cur) - S i)) by lia. cbn [replicate].
  rewrite (take_S_r _ _ o), <-app_assoc by done.
  replace i with (length (take i (p_ofile cur)) + 0)%nat at 1 by (rewrite length_take; lia).
  by rewrite insert_app_r.
Qed.

Lemma copied_none i : (i < length (p_ofile cur))%nat →
  (take i (p_ofile cur) ++ replicate (length (p_ofile cur) - i) None) !! i = Some None.
Proof.
  intros Hi. rewrite lookup_app_r by (rewrite length_take; lia). apply lookup_replicate.
  rewrite length_take. split; [done|lia].
Qed.

Lemma fork_files_ok l : ∀ i s child,
  kok s → unlocked LFtable s → k_ptable s !! me = Some cur → k_ptable s !! n = Some child →
  drop i (p_ofile cur) = l → copied_files i child → files_ok (k_ftable s) l (Z.of_nat (length l)) →
  ∃ child', for_each (seq i (length l)) (fork_file (Some me) (Some n)) s =
      Done tt (with_k_ftable (foldl dup_file (k_ftable s) l) (put n child' s)) ∧
    child' = with_p_ofile (p_ofile cur) child.
Proof.
  induction l as [|o l IH]; intros i s child Hok Hul Hme Hn Hd Hc Hfo.
  - exists child. cbn [length seq for_each foldl]. split.
    + rewrite put_id by done. unfold ret. by destruct s.
    + assert (Hlen : (length (p_ofile cur) ≤ i)%nat) by (apply (f_equal length) in Hd; rewrite length_drop in Hd; simpl in Hd; lia).
      transitivity (with_p_ofile (p_ofile child) child); [by destruct child|f_equal]. rewrite Hc.
      replace (length (p_ofile cur) - i)%nat with 0%nat by lia. by rewrite app_nil_r, take_ge.
  - destruct (copied_files_next i o l child Hd Hc) as (Hi & Hd' & Ho). cbn [length seq for_each foldl].
    set (child1 := with_p_ofile (<[i := o]> (p_ofile child)) child).
    set (s1 := with_k_ftable (dup_file (k_ftable s) o) (put n child1 s)).
    assert (Estep : fork_file (Some me) (Some n) i s = Done tt s1).
    { unfold fork_file. erewrite bind_done by (by apply proc_at_ok). rewrite Hi. destruct o as [f|].
      - destruct (Hfo f ltac:(left)) as (fl & Hfl & H1 & H2). cbn [length] in H2.
        erewrite bind_done by (apply filedup_ok; [done|done|lia]).
        rewrite (set_proc_put n child) by done. unfold s1, child1, upd_file. cbn [dup_file].
        rewrite (list_alter_ext (with_f_ref (f_ref fl + 1)) (λ fl, with_f_ref (f_ref fl + 1) fl) (k_ftable s) (k_ftable s) f);
          [done| |done]. intros x Hx. congruence.
      - unfold s1, child1, ret. cbn [dup_file]. rewrite list_insert_id.
        + replace (with_p_ofile (p_ofile child) child) with child by (by destruct child). rewrite put_id by done. by destruct s.
        + rewrite Hc. apply copied_none. by apply lookup_lt_Some in Hi. }
    erewrite bind_done by exact Estep.
    destruct (IH (S i) s1 child1) as (child' & E & ->); try done.
    { unfold s1. cbn [k_ptable with_k_ftable]. by rewrite put_ne by done. }
    { unfold s1. cbn [k_ptable with_k_ftable]. by eapply put_at. }
    { unfold s1. cbn [k_ftable with_k_ftable]. apply files_ok_dup. intros f Hf. cbn [length] in Hfo.
      destruct (Hfo f) as (fl & H1 & H2 & H3); [by right|]. exists fl. split; [done|]. lia. }
    exists (with_p_ofile (p_ofile cur) child). split; [|done]. rewrite E. f_equal. unfold s1. cbn [k_ftable with_k_ftable].
    unfold child1. change (put n ?c (with_k_ftable ?f ?t)) with (with_k_ftable f (put n c t)). by rewrite put_put.
Qed.
End files.

(** * [fork] *)

(** The child made from the slot [c] that has its memory already. *)
Definition child_of (me : nat) (cur c : proc) : proc :=
  with_p_state RUNNABLE (set_name (p_name cur) (with_p_cwd (p_cwd cur) (with_p_ofile (p_ofile cur)
    (with_p_tf (with_tf_eax 0 (p_tf cur)) (with_p_parent (Some me) (with_p_sz (p_sz cur) c)))))).

Definition dup_inode (cwd : nat) (s : kernel) : kernel :=
  upd_inode cwd (λ ip, with_i_ref (s32 (i_ref ip + 1)) ip) s.

Lemma fork_child_ok me n cur c cwd t :
  kok t → unlocked LPtable t → unlocked LFtable t → unlocked LIcache t → me ≠ n →
  k_ptable t !! me = Some cur → k_ptable t !! n = Some c →
  length (p_ofile cur) = NOFILE → p_ofile c = replicate NOFILE None → p_cwd cur = Some cwd →
  files_ok (k_ftable t) (p_ofile cur) (Z.of_nat NOFILE) →
  fork_child (Some me) (Some n) t =
    Done (p_pid c) (dup_inode cwd (with_k_ftable (foldl dup_file (k_ftable t) (p_ofile cur)) (put n (child_of me cur c) t))).
Proof.
  intros Hok Hup Huf Hui Hne Hme Hn Hlen Hof Hcwd Hfo. unfold fork_child.
  erewrite bind_done by (by apply proc_at_ok). erewrite bind_done by (by apply (set_proc_put n c)).
  do 3 (erewrite bind_done by (apply set_proc_put; by eapply put_at); rewrite put_put).
  match goal with |- context [put n ?x t] => set (c4 := x) end.
  destruct (fork_files_ok me n cur Hne (p_ofile cur) 0 (put n c4 t) c4) as (c5 & E5 & Hc5); try done.
  { by rewrite put_ne. }
  { by eapply put_at. }
  { unfold copied_files. rewrite Hlen. simpl. exact Hof. }
  { by rewrite Hlen. }
  rewrite Hlen in E5. erewrite bind_done by exact E5. rewrite put_put.
  erewrite bind_done by (apply proc_at_ok; cbn [k_ptable with_k_ftable]; by rewrite put_ne).
  rewrite Hcwd. erewrite bind_done by done. erewrite bind_done by (by apply idup_ok).
  set (U := λ x, dup_inode cwd (with_k_ftable (foldl dup_file (k_ftable t) (p_ofile cur)) x)).
  change (upd_inode cwd _ _) with (U (put n c5 t)).
  assert (HU : ∀ a b, put n a (U (put n b t)) = U (put n a t)).
  { intros a b. unfold U, put. cbn [k_ptable dup_inode upd_inode with_k_icache with_k_ftable with_k_ptable].
    by rewrite list_insert_insert_eq. }
  assert (Hat : ∀ a, k_ptable (U (put n a t)) !! n = Some a) by (intros a; by eapply put_at).
  erewrite bind_done by (by apply set_proc_put). rewrite HU. erewrite bind_done by (by apply set_proc_put). rewrite HU.
  erewrite bind_done by (by apply proc_at_ok). cbn zeta. run kacquire_ok.
  erewrite bind_done by (apply set_proc_put; cbn [enter]; by apply Hat).
  change (put n ?a (enter LPtable ?x)) with (enter LPtable (put n a x)). rewrite HU.
  erewrite bind_done by (apply krelease_ok; eauto with kernel). rewrite leave_enter by done.
  unfold ret, U. f_equal; [by rewrite Hc5|]. unfold child_of. by rewrite Hc5, Hcwd.
Qed.

(** A process [cur], in the slot [me], that can call [fork]; [L] are the free pages. *)
Record fork_ready (s : kernel) (L : list Z) (me : nat) (cur : proc) (cwd : nat) : Prop := mkForkReady {
  fk_kok : kok s;
  fk_run : running s me cur;
  fk_state : p_state cur = RUNNING;
  fk_ptable : unlocked LPtable s;
  fk_ftable : unlocked LFtable s;
  fk_icache : unlocked LIcache s;
  fk_kmem : kmem_ready s;
  fk_free : kmem_inv s L;
  fk_data : data_ok (k_data s);
  fk_space : uvm s (p_pgdir cur) L;
  fk_sz : 0 ≤ p_sz cur < KERNBASE;
  fk_mapped : mapped_upto (k_mem s) (p_pgdir cur) (npages (p_sz cur));
  fk_nofile : length (p_ofile cur) = NOFILE;
  fk_files : files_ok (k_ftable s) (p_ofile cur) (Z.of_nat NOFILE);
  fk_cwd : p_cwd cur = Some cwd;
  fk_unused : ∀ i p, k_ptable s !! i = Some p → p_state p = UNUSED → p_ofile p = replicate NOFILE None;
}.

Section fork.
Context (im : image) (s : kernel) (L : list Z) (me cwd : nat) (cur : proc).
Context (HR : fork_ready s L me cur cwd).
Context (n : nat) (c0 : proc) (Hn : k_ptable s !! n = Some c0) (Hc0 : p_state c0 = UNUSED).

Lemma slot_ne : me ≠ n.
Proof.
  intros ->. destruct (fk_run _ _ _ _ _ HR) as [_ H]. pose proof (fk_state _ _ _ _ _ HR). congruence.
Qed.

(** The state in which [copyuvm] is called. *)
Context (k : Z) (L1 : list Z) (HL : L = k :: L1).
Let s1 := with_stack im n k s.
Let c1 := embryo im (k_nextpid s) k (trapframe_at (k_mem s) (k + KSTACKSIZE - TF_SIZE)) c0.

Lemma stack_put : s1 = put n c1 (with_k_nextpid (s32 (k_nextpid s + 1))
      (with_k_freelist (load32 (k_mem s) k) (with_k_mem (store32 (k_mem s) (k + 4 * 1004) (im_trapret im)) s))).
Proof. unfold s1, with_stack. by rewrite (upd_proc_put n c0). Qed.

Lemma stack_space :
  uvm s1 (p_pgdir cur) L1 ∧ mapped_upto (k_mem s1) (p_pgdir cur) (npages (p_sz cur)) ∧
  ∀ va, 0 ≤ va < 4096 * npages (p_sz cur) → ubyte (k_mem s1) (p_pgdir cur) va = ubyte (k_mem s) (p_pgdir cur) va.
Proof.
  pose proof (fk_space _ _ _ _ _ HR) as Hu. pose proof (fk_free _ _ _ _ _ HR) as (_ & _ & Hok). rewrite HL in Hok.
  apply Forall_cons in Hok as [(Kal & _) _]. unfold PGSIZE in Kal.
  assert (Hown : ∀ p, owns (k_mem s) (p_pgdir cur) p → p ≠ k ∧ (p ∉ L1)).
  { intros p Hp. destruct (owns_ok _ _ _ _ Hu Hp) as [_ H]. rewrite HL in H. by apply not_elem_of_cons in H. }
  destruct (uvm_other s s1 (p_pgdir cur) L L1) as (H1 & H2 & H3); [done|done| | |].
  { intros x Hx. rewrite stack_put. cbn [k_mem put with_k_ptable with_k_nextpid with_k_freelist with_k_mem]. rewrite store32_spec.
    destruct (Hown _ Hx) as [Hne _]. pose proof (pg_in_page k x Kal) as Hi. unfold in_page in Hi. case_bool; [lia|done]. }
  { intros p Hp. by apply Hown. }
  pose proof (fk_mapped _ _ _ _ _ HR) as Hm. split; [done|]. split.
  - intros v Hv. rewrite (same_entries_upte _ _ _ _ H2) by done. by apply Hm.
  - pose proof (fk_sz _ _ _ _ _ HR) as Hsz. intros va Hva. apply H3.
    + unfold npages, KERNBASE in *. zdiv.
    + rewrite Hm; [unfold npages in *; zdiv|]. unfold npages, NUSER, KERNBASE in *. zdiv.
Qed.

(** The rest of the table, and what the child has. *)
Record forked (d : Z) (s' : kernel) (L' : list Z) : Prop := mkForked {
  fd_ptable : k_ptable s' = <[n := child_of me cur (with_p_pgdir d c1)]> (k_ptable s);
  fd_ftable : k_ftable s' = foldl dup_file (k_ftable s) (p_ofile cur);
  fd_icache : k_icache s' = alter (λ ip, with_i_ref (s32 (i_ref ip + 1)) ip) cwd (k_icache s);
  fd_space : uvm s' d L';
  fd_parent : uvm s' (p_pgdir cur) L';
  fd_free : kmem_inv s' L';
  fd_mapped : mapped_upto (k_mem s') d (npages (p_sz cur));
  fd_bytes : ∀ va, 0 ≤ va < 4096 * npages (p_sz cur) →
    ubyte (k_mem s') d va = ubyte (k_mem s) (p_pgdir cur) va ∧
    ubyte (k_mem s') (p_pgdir cur) va = ubyte (k_mem s) (p_pgdir cur) va;
  fd_private : ∀ va va', 0 ≤ va < 4096 * npages (p_sz cur) → 0 ≤ va' < 4096 * npages (p_sz cur) →
    uaddr (k_mem s') d va ≠ uaddr (k_mem s') (p_pgdir cur) va';
}.

(** Nothing has happened, but that a pid is used up. *)
Record not_forked (s' : kernel) : Prop := mkNotForked {
  nf_others : ∀ i, i ≠ n → k_ptable s' !! i = k_ptable s !! i;
  nf_slot : ∃ c, k_ptable s' !! n = Some c ∧ p_state c = UNUSED;
  nf_pages : ∃ L', kmem_inv s' L' ∧ ∀ p, p ∈ L' ↔ p ∈ L;
  nf_mem : ∀ x, pg x ∉ L → k_mem s' x = k_mem s x;
}.

Lemma stack_slots :
  k_ptable s1 !! me = Some cur ∧ k_ptable s1 !! n = Some c1 ∧ kmem_inv s1 L1.
Proof.
  pose proof slot_ne as Hne. destruct (fk_run _ _ _ _ _ HR) as [_ Krun]. rewrite stack_put.
  split; [rewrite put_ne by done; exact Krun|]. split; [by eapply put_at|].
  rewrite <-stack_put. apply with_stack_inv. rewrite <-HL. apply (fk_free _ _ _ _ _ HR).
Qed.

(** The memory has been copied to [d]: the child is completed. *)
Lemma fork_copied d s2 L2 :
  copied s1 L1 (p_pgdir cur) (npages (p_sz cur)) d s2 L2 →
  ∃ s', fork_child (Some me) (Some n) (put n (with_p_pgdir d c1) s2) = Done (k_nextpid s) s' ∧ forked d s' L2.
Proof.
  intros C. pose proof slot_ne as Hne. pose proof HR as [K1 [_ Krun] _ K2 K3 K4 K5 K6 K7 K8 K9 K10 K11 K12 K13 K14].
  destruct stack_space as (Hu1 & Hm1 & Hb1), stack_slots as (Hme1 & Hn1 & _).
  pose proof (cd_copying _ _ _ _ _ _ _ C) as HC. pose proof (cp_state _ _ _ _ _ HC) as Es2.
  assert (Ept : k_ptable s2 = k_ptable s1) by (by rewrite Es2).
  assert (Eft : k_ftable s2 = k_ftable s) by (by rewrite Es2).
  assert (Eic : k_icache s2 = k_icache s) by (by rewrite Es2).
  assert (Ehart : k_hart s2 = k_hart s) by (by rewrite Es2).
  assert (Hn2 : k_ptable s2 !! n = Some c1) by (by rewrite Ept).
  rewrite (fork_child_ok me n cur (with_p_pgdir d c1) cwd);
    try (unfold kok, unlocked; cbn; rewrite ?Ehart, ?Eft; done).
  - eexists. split; [reflexivity|].
    destruct (copied_view s1 L1 (p_pgdir cur) (npages (p_sz cur)) d s2 L2) as [V1 V2]; [done|done| |done|].
    { unfold npages, NUSER, KERNBASE in *. zdiv. }
    constructor.
    + cbn. rewrite Ept, stack_put. cbn. by rewrite !list_insert_insert_eq.
    + cbn. by rewrite Eft.
    + cbn. by rewrite Eic.
    + eapply uvm_mem; [| |exact (cp_uvm _ _ _ _ _ HC)]; done.
    + eapply uvm_mem; [| |exact (proj1 (cd_parent _ _ _ _ _ _ _ C))]; done.
    + exact (cp_inv _ _ _ _ _ HC).
    + exact (cd_mapped _ _ _ _ _ _ _ C).
    + intros va Hva. destruct (V1 va Hva) as (H1 & H2 & _). rewrite <-(Hb1 va Hva). done.
    + exact V2.
  - rewrite put_ne by done. by rewrite Ept.
  - by eapply put_at.
  - cbn. by apply (K14 n).
Qed.

(** It has not: the slot and the kernel stack are given back. *)
Lemma fork_undone s2 L2 :
  unbuilt s1 L1 s2 L2 →
  ∃ s', (child <- proc_at (Some n) ;;
      kfree (p_kstack child) ;;;
      set_proc (Some n) (with_p_kstack 0) ;;;
      set_proc (Some n) (with_p_state UNUSED) ;;;
      ret (-1)) (put n (with_p_pgdir 0 c1) s2) = Done (-1) s' ∧ not_forked s'.
Proof.
  intros [U1 U2 U3 U4 U5]. destruct stack_slots as (Hme1 & Hn1 & _).
  assert (Ept : k_ptable s2 = k_ptable s1) by (by rewrite U2).
  assert (Hn2 : k_ptable s2 !! n = Some c1) by (by rewrite Ept).
  assert (Een : k_end s2 = k_end s) by (by rewrite U2).
  erewrite bind_done by (apply proc_at_ok; by eapply put_at).
  pose proof (fk_free _ _ _ _ _ HR) as (_ & Hnd & Hok). rewrite HL in Hnd, Hok.
  apply NoDup_cons in Hnd as [HkL _]. apply Forall_cons in Hok as [Hk _]. set (t := put n (with_p_pgdir 0 c1) s2).
  destruct (kfree_cons t k L2) as (s3 & E3 & Hk3 & Hs3 & Hoff).
  { pose proof (fk_kmem _ _ _ _ _ HR) as K5. unfold kmem_ready, t in *. rewrite U2. exact K5. }
  { done. }
  { apply (page_ok_end s); [exact Een|done]. }
  { by rewrite U4. }
  change (p_kstack (with_p_pgdir 0 c1)) with k. erewrite bind_done by exact E3.
  assert (Ht : k_ptable s3 !! n = Some (with_p_pgdir 0 c1)) by (rewrite Hs3; by apply (put_at n c1 _ s2)).
  erewrite bind_done by (by apply set_proc_put). erewrite bind_done by (apply set_proc_put; by eapply put_at).
  rewrite put_put. eexists. split; [reflexivity|]. constructor.
  - intros i Hi. rewrite put_ne by done. rewrite Hs3. unfold t. cbn [k_ptable with_k_freelist with_k_mem].
    rewrite put_ne by done. rewrite Ept, stack_put. by rewrite put_ne.
  - eexists. split; [by eapply put_at|done].
  - exists (k :: L2). split; [exact Hk3|]. intros p. rewrite HL, !elem_of_cons, U4. done.
  - intros x Hx. rewrite HL in Hx. apply not_elem_of_cons in Hx as [Hxk Hx]. cbn [k_mem put with_k_ptable].
    destruct Hk as (Kal & _). pose proof (pg_in_page k x Kal) as Hi. unfold in_page in Hi.
    rewrite Hoff by (unfold PGSIZE; lia). unfold t. cbn [k_mem put with_k_ptable]. rewrite U5 by done.
    rewrite stack_put. cbn [k_mem put with_k_ptable with_k_nextpid with_k_freelist with_k_mem]. rewrite store32_spec.
    case_bool; [lia|done].
Qed.

Lemma fork_with_stack :
  ∃ r s', (cur <- proc_at (Some me) ;;
      pgdir <- copyuvm (p_pgdir cur) (p_sz cur) ;;
      set_proc (Some n) (with_p_pgdir pgdir) ;;;
      if pgdir =? 0 then
        child <- proc_at (Some n) ;;
        kfree (p_kstack child) ;;;
        set_proc (Some n) (with_p_kstack 0) ;;;
        set_proc (Some n) (with_p_state UNUSED) ;;;
        ret (-1)
      else fork_child (Some me) (Some n)) s1 = Done r s' ∧
    ((∃ d L', r = k_nextpid s ∧ forked d s' L') ∨
     (r = -1 ∧ not_forked s' ∧ Z.of_nat (length L) ≤ 1026 + npages (p_sz cur))).
Proof.
  pose proof HR as [_ _ _ _ _ _ K5 _ K7 _ K9 _ _ _ _ _].
  destruct stack_space as (Hu1 & Hm1 & _), stack_slots as (Hme1 & Hn1 & Hk1). erewrite bind_done by (by apply proc_at_ok).
  destruct (copyuvm_ok s1 L1 (p_pgdir cur) (p_sz cur)) as (d & s2 & L2 & E2 & H2); try done. erewrite bind_done by exact E2.
  assert (Hn2 : k_ptable s2 !! n = Some c1).
  { destruct H2 as [[_ C]|(_ & U & _)]; [rewrite (cp_state _ _ _ _ _ (cd_copying _ _ _ _ _ _ _ C))|destruct U as [_ -> _ _ _]]; done. }
  erewrite bind_done by (by apply (set_proc_put n c1)). destruct H2 as [[Hd C]|(-> & U & Hfew)].
  - rewrite (proj2 (Z.eqb_neq d 0)) by done. destruct (fork_copied d s2 L2 C) as (s' & E & F). eexists _, s'. split; [exact E|].
    left. by exists d, L2.
  - cbn [Z.eqb]. destruct (fork_undone s2 L2 U) as (s' & E & F). exists (-1), s'. split; [exact E|]. right.
    split; [done|]. split; [done|]. rewrite HL. cbn [length]. unfold npages. lia.
Qed.
End fork.


(** * [wait] *)

(** A child of [me] that has ended. *)
Definition zombie_of (me : nat) (p : proc) : bool := bool_decide (p_parent p = Some me ∧ p_state p = ZOMBIE).
Definition child_of_me (me : nat) (p : proc) : bool := bool_decide (p_parent p = Some me).

Lemma wait_scan_skip me s : ∀ k i rest b,
  (i + k ≤ length (k_ptable s))%nat →
  (∀ j p, (i ≤ j < i + k)%nat → k_ptable s !! j = Some p → zombie_of me p = false) →
  ∃ b', wait_scan (Some me) (seq i k ++ rest) b s = wait_scan (Some me) rest b' s ∧
    b' = b || existsb (child_of_me me) (take k (drop i (k_ptable s))).
Proof.
  induction k as [|k IH]; intros i rest b Hlen Hz; [exists b; by rewrite take_0, orb_false_r|].
  destruct (lookup_lt_is_Some_2 (k_ptable s) i) as [p Hp]; [lia|].
  assert (Hd : drop i (k_ptable s) = p :: drop (S i) (k_ptable s)) by (by apply drop_S).
  specialize (Hz i p ltac:(lia) Hp) as Hzi. cbn [seq app wait_scan]. erewrite bind_done by (by apply proc_at_ok).
  rewrite Hd. cbn [take existsb]. unfold zombie_of in Hzi. apply bool_decide_eq_false in Hzi.
  unfold child_of_me at 1. destruct (decide (p_parent p = Some me)) as [Hpar|Hpar].
  - rewrite (decide_False (P := p_parent p ≠ Some me)) by tauto. rewrite decide_False by tauto.
    destruct (IH (S i) rest true) as (b' & E & ->); [lia|intros j q Hj; apply Hz; lia|].
    eexists. split; [exact E|]. rewrite bool_decide_true by done. by rewrite !orb_true_r.
  - rewrite (decide_True (P := p_parent p ≠ Some me)) by done.
    destruct (IH (S i) rest b) as (b' & E & ->); [lia|intros j q Hj; apply Hz; lia|].
    eexists. split; [exact E|]. by rewrite bool_decide_false.
Qed.

Lemma kmem_ready_enter s : kok s → unlocked LPtable s → kmem_ready s → kmem_ready (enter LPtable s).
Proof. intros Hok Hul Hr Hu. destruct (Hr Hu) as [_ Hk]. split; [by eauto with kernel|]. by apply unlocked_enter. Qed.

(** What the kernel keeps for a child: its stack, and its address space. *)
Definition child_pages (s : kernel) (L : list Z) (c : proc) : Prop :=
  page_ok s (p_kstack c) ∧ (p_kstack c ∉ L) ∧ uvm s (p_pgdir c) L ∧ ¬ owns (k_mem s) (p_pgdir c) (p_kstack c).

Lemma reap_ok me s L i c rest b :
  kok s → unlocked LPtable s → kmem_ready s → kmem_inv s L → k_ptable s !! i = Some c → zombie_of me c = true →
  child_pages s L c →
  ∃ s' L', wait_scan (Some me) (i :: rest) b (enter LPtable s) = Done (Some (p_pid c), true) s' ∧
    k_ptable s' = <[i := reaped (with_p_kstack 0 c)]> (k_ptable s) ∧ k_hart s' = k_hart s ∧
    kmem_inv s' L' ∧ (∀ p, p ∈ L' ↔ p ∈ L ∨ p = p_kstack c ∨ owns (k_mem s) (p_pgdir c) p).
Proof.
  intros Hok Hul Hr Hk Hi Hz (Hp & HpL & Hu & Hno). unfold zombie_of in Hz. apply bool_decide_eq_true in Hz as [Hz1 Hz2].
  cbn [wait_scan]. erewrite bind_done by (by apply proc_at_ok).
  rewrite (decide_False (P := p_parent c ≠ Some me)) by tauto. rewrite decide_True by done. cbn zeta.
  destruct (free_spare (p_pgdir c) (enter LPtable s) L (p_kstack c)) as (s1 & E1 & Hk1 & Hu1 & F1 & _ & Hse); try done.
  { eapply uvm_mem; [| |exact Hu]; done. }
  { by apply kmem_ready_enter. }
  erewrite bind_done by exact E1. pose proof (vf_state _ _ _ _ _ F1) as Es1.
  assert (Hi1 : k_ptable s1 !! i = Some c) by (rewrite Es1; exact Hi).
  erewrite bind_done by (by apply set_proc_put). set (s2 := put i (with_p_kstack 0 c) s1).
  destruct (freevm_ok (p_pgdir c) s2 (p_kstack c :: L)) as (s3 & L3 & E3 & [G1 G2 G3 G4 G5]).
  { eapply uvm_mem; [| |exact Hu1]; done. }
  { pose proof (kmem_ready_enter s Hok Hul Hr) as Hr'. unfold s2. rewrite Es1. exact Hr'. }
  { exact Hk1. }
  erewrite bind_done by exact E3.
  assert (Hi3 : k_ptable s3 !! i = Some (with_p_kstack 0 c)) by (rewrite G2; by apply (put_at i c _ s1)).
  erewrite bind_done by (by apply set_proc_put).
  assert (Eh : k_hart s3 = k_hart (enter LPtable s)) by (rewrite G2; unfold s2; cbn; by rewrite Es1).
  erewrite bind_done; cycle 1.
  { apply krelease_ok.
    - unfold kok. cbn. rewrite Eh. exact (kok_enter LPtable s Hok).
    - unfold owned. cbn. rewrite Eh. exact (owned_enter LPtable s Hok). }
  eexists _, L3. split; [reflexivity|]. split; [|split; [|split]].
  - cbn. rewrite G2. cbn. rewrite Es1. cbn. by rewrite list_insert_insert_eq.
  - cbn. rewrite Eh. pose proof (leave_enter LPtable s Hok Hul) as E. apply (f_equal k_hart) in E. exact E.
  - exact G1.
  - intros p. rewrite G4, elem_of_cons. unfold s2. cbn [k_mem put with_k_ptable].
    rewrite (same_entries_owns _ _ _ p Hse). cbn. tauto.
Qed.

Lemma seq_at n i : (i < n)%nat → seq 0 n = seq 0 i ++ i :: seq (S i) (n - S i).
Proof.
  intros H. replace n with (i + S (n - S i))%nat at 1 by lia. by rewrite seq_app.
Qed.

(** The program of [wait], up to the scan. *)
Lemma wait_starts me cur s :
  kok s → running s me cur → unlocked LPtable s →
  wait s = wait_for (S (k_wakes s)) (Some me) (enter LPtable s).
Proof.
  intros Hok [Hc _] Hul. unfold wait. erewrite bind_done by (by apply myproc_ok). rewrite Hc. run kacquire_ok.
  by unfold bind, gets.
Qed.

(** No child has ended. *)
Lemma wait_no_zombie me cur s b w :
  k_ptable s !! me = Some cur → p_killed cur = 0 →
  (∀ i c, k_ptable s !! i = Some c → zombie_of me c = false) → existsb (child_of_me me) (k_ptable s) = b →
  wait_for (S w) (Some me) (enter LPtable s) =
  (if negb b then release LPtable ;;; ret (-1)
   else i <- deref (Some me) ;; sleep (ChProc i) (Some LPtable) ;;; wait_for w (Some me)) (enter LPtable s).
Proof.
  intros Hpr Hkl Hf Hb. cbn [wait_for]. unfold bind at 1, gets at 1. cbn [obind].
  change (k_ptable (enter LPtable s)) with (k_ptable s).
  destruct (wait_scan_skip me (enter LPtable s) (length (k_ptable s)) 0 [] false) as (b' & E & Eb).
  { cbn. lia. }
  { intros j p Hj. apply Hf. }
  rewrite app_nil_r in E. erewrite bind_done by (rewrite E; done). cbn iota.
  change (k_ptable (enter LPtable s)) with (k_ptable s) in Eb. rewrite take_ge in Eb by (rewrite length_drop; lia).
  assert (b' = b) as -> by (rewrite Eb; exact Hb). erewrite bind_done by (apply proc_at_ok; exact Hpr).
  rewrite Hkl. cbn [Z.eqb negb]. by rewrite orb_false_r.
Qed.

Lemma sleep_ptable ch s p pr :
  kok s → Crit.ncli_of (k_hart s) = 0 → unlocked LPtable s → running s p pr →
  ∃ k, sleep ch (Some LPtable) (enter LPtable s) = Swtch (enter LPtable (asleep p ch s)) k.
Proof.
  intros Hok Hn Hul [Hp Hpr]. unfold sleep. erewrite bind_done by (apply myproc_ok; eauto with kernel).
  rewrite cproc_enter by done. rewrite Hp. rewrite decide_True by done. do 3 (erewrite bind_done by done).
  change (upd_proc p ?g (upd_proc p ?f (enter LPtable s))) with (enter LPtable (upd_proc p g (upd_proc p f s))).
  fold (asleep p ch s). unfold bind at 1.
  rewrite (sched_ok _ p (with_p_state SLEEPING (with_p_chan (Some ch) pr))).
  - by eexists.
  - eauto with kernel.
  - by apply owned_enter.
  - change (Crit.ncli_of (Crit.hacq LPtable (k_hart s)) = 1). rewrite Crit.ncli_of_hacq; [lia|done].
  - apply running_enter; [done|]. split; [done|]. simpl. rewrite !list_lookup_alter, !decide_True, Hpr by done. done.
  - done.
Qed.

(** C24: [wait] returns what a child leaves: with a zombie among the children it returns the
    pid of the first one, whose slot is unused again, and the free pages are then those that
    were free, the kernel stack of the child and the pages of its address space.  With no
    child it returns -1 and changes nothing; with children that all still run it sleeps
    until one of them ends. *)
Theorem wait_reaps me cur s L :
  kok s → running s me cur → unlocked LPtable s → Crit.ncli_of (k_hart s) = 0 →
  kmem_ready s → kmem_inv s L → p_killed cur = 0 →
  (∀ i c, k_ptable s !! i = Some c → zombie_of me c = true → child_pages s L c) →
  match find_index (zombie_of me) (k_ptable s) with
  | Some i => ∃ c s' L', k_ptable s !! i = Some c ∧ wait s = Done (p_pid c) s' ∧
      k_ptable s' = <[i := reaped (with_p_kstack 0 c)]> (k_ptable s) ∧ k_hart s' = k_hart s ∧
      kmem_inv s' L' ∧ (∀ p, p ∈ L' ↔ p ∈ L ∨ p = p_kstack c ∨ owns (k_mem s) (p_pgdir c) p)
  | None =>
      if existsb (child_of_me me) (k_ptable s)
      then ∃ k, wait s = Swtch (enter LPtable (asleep me (ChProc me) s)) k
      else wait s = Done (-1) s
  end.
Proof.
  intros Hok Hrun Hul Hn Hr Hk Hkl Hch. rewrite (wait_starts me cur) by done.
  destruct (find_index (zombie_of me) (k_ptable s)) as [i|] eqn:Hf.
  - pose proof (find_index_lt _ _ _ Hf) as Hlt. apply find_index_Some in Hf as [(c & Hi & Hz) Hbefore].
    destruct (wait_scan_skip me (enter LPtable s) i 0 (i :: seq (S i) (length (k_ptable s) - S i)) false) as (b & E & _).
    { cbn. lia. }
    { intros j p Hj. apply Hbefore. lia. }
    destruct (reap_ok me s L i c (seq (S i) (length (k_ptable s) - S i)) b) as (s' & L' & E' & H); try done; [by apply (Hch i)|].
    exists c, s', L'. split; [done|]. split; [|done]. cbn [wait_for]. unfold bind at 1, gets at 1. cbn [obind].
    change (k_ptable (enter LPtable s)) with (k_ptable s). rewrite (seq_at (length (k_ptable s)) i) by done.
    erewrite bind_done by (rewrite E; exact E'). done.
  - rewrite find_index_None in Hf. destruct (existsb (child_of_me me) (k_ptable s)) eqn:Ex.
    + rewrite (wait_no_zombie me cur s true) by (done || by apply Hrun). cbn [negb orb].
      destruct (sleep_ptable (ChProc me) s me cur) as (k & E); try done. unfold bind, deref, ret. cbn [obind].
      rewrite E. by eexists.
    + rewrite (wait_no_zombie me cur s false) by (done || by apply Hrun). cbn [negb orb].
      erewrite bind_done by (apply krelease_ok; eauto with kernel). by rewrite leave_enter.
Qed.

(** * [exit] *)

(** A child of [me] belongs to [ip]. *)
Definition adopt (me ip : nat) (p : proc) : proc :=
  if child_of_me me p then with_p_parent (Some ip) p else p.

Definition wake_if (b : bool) (ch : chan) (p : proc) : proc := if b then wake ch p else p.

(** The table [t] when the first [i] slots have been looked at, [b] being whether there
    was a zombie among the orphans. *)
Definition orphaned (me ip i : nat) (b : bool) (t : list proc) : list proc :=
  imap (λ j p, (if decide (j < i)%nat then adopt me ip p else p)) (wake_if b (ChProc ip) <$> t).

Lemma wake_fields ch p : p_parent (wake ch p) = p_parent p ∧ (p_state (wake ch p) = ZOMBIE ↔ p_state p = ZOMBIE).
Proof. unfold wake. case_decide as H; [|done]. split; [done|]. destruct H as [H _]. simpl. split; congruence. Qed.

Lemma wake_if_zombie b ch me p : zombie_of me (wake_if b ch p) = zombie_of me p.
Proof.
  destruct b; [|done]. unfold zombie_of. simpl. destruct (wake_fields ch p) as [-> H]. apply bool_decide_ext. by rewrite H.
Qed.

Lemma wake_wake ch b p : wake ch (wake_if b ch p) = wake ch p.
Proof. destruct b; [|done]. simpl. unfold wake at 2. case_decide as H; [|done]. unfold wake. rewrite decide_False by (by intros [? _]). by rewrite decide_True. Qed.

Lemma wake_adopt ch me ip p : wake ch (adopt me ip p) = adopt me ip (wake ch p).
Proof.
  unfold adopt, child_of_me. destruct (wake_fields ch p) as [-> _]. case_bool_decide; [|done].
  unfold wake. cbn. case_decide; done.
Qed.

Lemma orphaned_at me ip i b t j :
  orphaned me ip i b t !! j =
    (λ p, if decide (j < i)%nat then adopt me ip (wake_if b (ChProc ip) p) else wake_if b (ChProc ip) p) <$> t !! j.
Proof. unfold orphaned. rewrite list_lookup_imap, list_lookup_fmap. by destruct (t !! j). Qed.

Lemma orphaned_next me ip i b t p :
  t !! i = Some p → orphaned me ip (S i) b t = alter (adopt me ip) i (orphaned me ip i b t).
Proof.
  intros Hi. apply list_eq. intros j. rewrite list_lookup_alter, !orphaned_at. destruct (decide (i = j)) as [<-|Hne].
  - rewrite Hi. simpl. rewrite (decide_True (P := (i < S i)%nat)), decide_False by lia. done.
  - destruct (t !! j); [|done]. simpl. f_equal. destruct (decide (j < i)%nat).
    + by rewrite decide_True by lia.
    + by rewrite decide_False by lia.
Qed.

Lemma orphaned_wake me ip i b t : wake (ChProc ip) <$> orphaned me ip i b t = orphaned me ip i true t.
Proof.
  apply list_eq. intros j. rewrite list_lookup_fmap, !orphaned_at. destruct (t !! j); [|done]. simpl. f_equal.
  case_decide; [by rewrite wake_adopt, wake_wake|by rewrite wake_wake].
Qed.

Lemma orphan_step me ip i b t s p :
  k_initproc s = Some ip → t !! i = Some p →
  orphan (Some me) i (with_k_ptable (orphaned me ip i b t) s) =
    Done tt (with_k_ptable (orphaned me ip (S i) (b || zombie_of me p) t) s).
Proof.
  intros Hip Hi. unfold orphan. set (q := wake_if b (ChProc ip) p).
  assert (Hat : orphaned me ip i b t !! i = Some q).
  { rewrite orphaned_at, Hi. simpl. by rewrite decide_False by lia. }
  erewrite bind_done by (by apply proc_at_ok). pose proof (wake_if_zombie b (ChProc ip) me p) as Hz. fold q in Hz.
  rewrite <-Hz. destruct (decide (p_parent q = Some me)) as [Hpar|Hpar].
  - unfold bind at 1, gets. cbn [obind]. change (k_initproc (with_k_ptable _ s)) with (k_initproc s). rewrite Hip.
    erewrite bind_done by (by apply set_proc_put).
    assert (Et : put i (with_p_parent (Some ip) q) (with_k_ptable (orphaned me ip i b t) s) =
      with_k_ptable (orphaned me ip (S i) b t) s).
    { unfold put. cbn [k_ptable with_k_ptable]. rewrite (orphaned_next me ip i b t p Hi).
      pose proof (upd_proc_put i q (adopt me ip) (with_k_ptable (orphaned me ip i b t) s) Hat) as E.
      unfold upd_proc, put in E. cbn [k_ptable with_k_ptable] in E.
      assert (Ea : adopt me ip q = with_p_parent (Some ip) q) by (unfold adopt, child_of_me; by rewrite bool_decide_true).
      rewrite Ea in E. symmetry. exact E. }
    rewrite Et. erewrite bind_done by (apply proc_at_ok; rewrite <-Et; by eapply put_at).
    unfold zombie_of. cbn [p_state with_p_parent]. destruct (decide (p_state q = ZOMBIE)) as [Hst|Hst].
    + rewrite bool_decide_true by done. rewrite orb_true_r. unfold wake_proc, wakeup1, modify. cbn [k_ptable with_k_ptable].
      by rewrite orphaned_wake.
    + rewrite bool_decide_false by tauto. by rewrite orb_false_r.
  - unfold zombie_of. rewrite bool_decide_false by tauto. rewrite orb_false_r. unfold ret. f_equal. f_equal.
    rewrite (orphaned_next me ip i b t p Hi). symmetry.
    transitivity (alter id i (orphaned me ip i b t)); [|apply list_alter_id; done].
    apply list_alter_ext; [|done]. intros x Hx. rewrite Hat in Hx. injection Hx as <-.
    unfold adopt, child_of_me. by rewrite bool_decide_false.
Qed.

Lemma orphans me ip t s : k_initproc s = Some ip → ∀ k i b, (i + k = length t)%nat →
  for_each (seq i k) (orphan (Some me)) (with_k_ptable (orphaned me ip i b t) s) =
    Done tt (with_k_ptable (orphaned me ip (length t) (b || existsb (zombie_of me) (drop i t)) t) s).
Proof.
  intros Hip. induction k as [|k IH]; intros i b Hlen.
  - cbn [seq for_each]. rewrite drop_ge by lia. cbn [existsb]. rewrite orb_false_r.
    replace i with (length t) by lia. done.
  - destruct (lookup_lt_is_Some_2 t i) as [p Hp]; [lia|]. cbn [seq for_each].
    erewrite bind_done by (by apply orphan_step). rewrite IH by lia. rewrite (drop_S t p i) by done.
    cbn [existsb]. by rewrite orb_assoc.
Qed.

Lemma orphaned_0 me ip t : orphaned me ip 0 false t = t.
Proof. apply list_eq. intros j. rewrite orphaned_at. by destruct (t !! j). Qed.

(** What becomes of the process [p] of slot [i] when [me] ends: [b] is whether one of the
    children of [me] is a zombie. *)
Definition after_exit (me par ip : nat) (b : bool) (i : nat) (p : proc) : proc :=
  let q := adopt me ip (wake_if b (ChProc ip) (wake (ChProc par) p)) in
  if decide (i = me) then with_p_state ZOMBIE q else q.

Lemma zombies_woken me ch t : existsb (zombie_of me) (wake ch <$> t) = existsb (zombie_of me) t.
Proof.
  induction t as [|p t IH]; [done|]. cbn [fmap list_fmap existsb]. rewrite <-IH. f_equal. apply (wake_if_zombie true).
Qed.

Lemma after_exit_table me par ip t :
  alter (with_p_state ZOMBIE) me
    (orphaned me ip (length t) (existsb (zombie_of me) t) (wake (ChProc par) <$> t)) =
  imap (after_exit me par ip (existsb (zombie_of me) t)) t.
Proof.
  apply list_eq. intros j. rewrite list_lookup_alter, list_lookup_imap, !orphaned_at, !list_lookup_fmap.
  unfold after_exit. destruct (decide (me = j)) as [<-|Hne]; destruct (t !! _) as [p|] eqn:Hj; try done;
    apply lookup_lt_Some in Hj; cbn [fmap option_fmap option_map]; rewrite decide_True by done.
  - by rewrite decide_True.
  - by rewrite decide_False.
Qed.

Lemma exit_zombie_ok me cur par ip s :
  kok s → Crit.ncli_of (k_hart s) = 0 → unlocked LPtable s → running s me cur →
  p_parent cur = Some par → k_initproc s = Some ip →
  ∃ b, exit_zombie (Some me) s =
    Swtch (enter LPtable (with_k_ptable
        (imap (after_exit me par ip (existsb (zombie_of me) (k_ptable s))) (k_ptable s)) s))
      (λ t, (set_intena b ;;; panic "zombie exit") t).
Proof.
  intros Hok Hn Hul [Hp Hpr] Hpar Hip. unfold exit_zombie. erewrite bind_done by (apply kacquire_ok; done).
  erewrite bind_done by (by apply proc_at_ok). rewrite Hpar. cbn [wake_proc]. unfold wakeup1.
  erewrite bind_done by done. cbn beta. unfold bind at 1, gets. cbn [obind k_ptable with_k_ptable].
  change (with_k_ptable ?t (enter LPtable s)) with (enter LPtable (with_k_ptable t s)).
  change (k_ptable (enter LPtable s)) with (k_ptable s). rewrite length_fmap.
  set (t := wake (ChProc par) <$> k_ptable s).
  rewrite <-(orphaned_0 me ip t).
  change (enter LPtable (with_k_ptable ?t s)) with (with_k_ptable t (enter LPtable s)).
  erewrite bind_done.
  2:{ rewrite <-(length_fmap (wake (ChProc par)) (k_ptable s)). fold t. apply orphans; [done|lia]. }
  rewrite drop_0. cbn [orb]. unfold t. rewrite zombies_woken, length_fmap.
  erewrite bind_done by done. unfold upd_proc. cbn [k_ptable with_k_ptable]. rewrite after_exit_table.
  change (with_k_ptable ?t (with_k_ptable _ (enter LPtable s))) with (enter LPtable (with_k_ptable t s)).
  set (s1 := with_k_ptable _ s). unfold bind at 1.
  rewrite (sched_ok _ me (after_exit me par ip (existsb (zombie_of me) (k_ptable s)) me cur)).
  - by eexists.
  - by apply kok_enter.
  - by apply owned_enter.
  - change (Crit.ncli_of (Crit.hacq LPtable (k_hart s)) = 1). rewrite Crit.ncli_of_hacq; [lia|done].
  - apply running_enter; [done|]. split; [done|]. simpl. by rewrite list_lookup_imap, Hpr.
  - unfold after_exit. by rewrite decide_True.
Qed.

Lemma after_exit_fields me par ip b i p :
  let q := after_exit me par ip b i p in
  p_parent q = (if decide (p_parent p = Some me) then Some ip else p_parent p) ∧
  p_state q = (if decide (i = me) then ZOMBIE
    else if decide (p_state p = SLEEPING ∧ (p_chan p = Some (ChProc par) ∨ b = true ∧ p_chan p = Some (ChProc ip)))
    then RUNNABLE else p_state p).
Proof.
  intros q. unfold q, after_exit, adopt, child_of_me. destruct b; cbn [wake_if]; unfold wake;
    repeat case_decide || case_bool_decide; simpl in *; naive_solver.
Qed.

Lemma after_exit_rest me par ip b i p :
  let q := after_exit me par ip b i p in q = with_p_parent (p_parent q) (with_p_state (p_state q) p).
Proof.
  intros q. unfold q, after_exit, adopt. destruct p, b; cbn [wake_if]; unfold wake; repeat case_decide || case_match; done.
Qed.

(** C31: the end of [exit].  The process gives up the CPU as a zombie, holding the process
    table, and nothing it might still do returns; its children belong to [initproc]; its
    parent, if it sleeps in [wait], is woken, and so is [initproc] when it inherits a zombie.
    Nothing else changes in the table. *)
Theorem exit_leaves_zombie me cur par ip s :
  kok s → Crit.ncli_of (k_hart s) = 0 → unlocked LPtable s → running s me cur →
  p_parent cur = Some par → k_initproc s = Some ip →
  ∃ t k, exit_zombie (Some me) s = Swtch (enter LPtable (with_k_ptable t s)) k ∧
    (∀ s1 u s2, k s1 ≠ Done u s2) ∧ length t = length (k_ptable s) ∧
    ∀ i p, k_ptable s !! i = Some p → ∃ q, t !! i = Some q ∧
      q = with_p_parent (p_parent q) (with_p_state (p_state q) p) ∧
      p_parent q = (if decide (p_parent p = Some me) then Some ip else p_parent p) ∧
      p_state q = (if decide (i = me) then ZOMBIE
        else if decide (p_state p = SLEEPING ∧ (p_chan p = Some (ChProc par) ∨
                existsb (zombie_of me) (k_ptable s) = true ∧ p_chan p = Some (ChProc ip)))
        then RUNNABLE else p_state p).
Proof.
  intros Hok Hn Hul Hrun Hpar Hip. destruct (exit_zombie_ok me cur par ip s) as (b & E); try done.
  eexists _, _. split; [exact E|]. split.
  { intros s1 u s2. unfold bind. by destruct (set_intena b s1). }
  split; [apply length_imap|]. intros i p Hi. rewrite list_lookup_imap, Hi. eexists. split; [reflexivity|].
  split; [apply after_exit_rest|apply after_exit_fields].
Qed.

(** * [kill] *)

Definition has_pid (pid : Z) (p : proc) : bool := p_pid p =? pid.

(** A process that has been killed runs, to find out. *)
Definition killed (p : proc) : proc :=
  let q := with_p_killed 1 p in if decide (p_state q = SLEEPING) then with_p_state RUNNABLE q else q.

Lemma kill_ok pid s :
  kok s → unlocked LPtable s →
  kill pid s = match find_index (has_pid pid) (k_ptable s) with
    | Some i => Done 0 (upd_proc i killed s)
    | None => Done (-1) s
    end.
Proof.
  intros Hok Hul. unfold kill. run kacquire_ok. unfold bind at 1, gets. cbn [obind].
  change (k_ptable (enter LPtable s)) with (k_ptable s). change (λ p, p_pid p =? pid) with (has_pid pid).
  destruct (find_index (has_pid pid) (k_ptable s)) as [i|].
  - do 2 (erewrite bind_done by done). erewrite bind_done by (apply krelease_ok; unfold upd_proc; eauto with kernel).
    unfold upd_proc at 1 2. leave_out. unfold upd_proc. cbn [k_ptable with_k_ptable]. rewrite list_alter_alter_eq. done.
  - erewrite bind_done by (apply krelease_ok; eauto with kernel). by leave_out.
Qed.

Lemma fork_slot im s L me cur cwd n c0 :
  fork_ready s L me cur cwd → find_index unused (k_ptable s) = Some n → k_ptable s !! n = Some c0 →
  1026 + npages (p_sz cur) < Z.of_nat (length L) →
  ∃ s' child, fork im s = Done (k_nextpid s) s' ∧ k_ptable s' !! n = Some child ∧
    p_pid child = k_nextpid s ∧ p_state child = RUNNABLE ∧ p_killed child = p_killed c0.
Proof.
  intros HR Hf Hn Hlen. pose proof HR as [K1 [Kc Krun] _ K2 _ _ K5 K6 _ _ K9 _ _ _ K13 _]. unfold fork.
  erewrite bind_done by (by apply myproc_ok). rewrite Kc.
  pose proof Hf as Hf'. apply find_index_Some in Hf' as [(c & Hn' & Hc0) _].
  replace c with c0 in Hc0 by congruence. unfold unused in Hc0. apply bool_decide_eq_true in Hc0.
  destruct L as [|k L1]; [cbn [length] in Hlen; unfold npages in Hlen; zdiv|].
  erewrite bind_done by (by eapply allocproc_stack). cbn iota zeta.
  destruct (fork_with_stack im s (k :: L1) me cwd cur HR n c0 Hn Hc0 k L1 eq_refl) as (r & s' & E & [(d & L' & Er & F)|(_ & _ & Hfew)]); [|lia].
  rewrite E, Er. eexists s', _. split; [done|]. destruct F as [F1 _ _ _ _ _ _ _ _]. rewrite F1.
  split; [apply list_lookup_insert_eq; by apply lookup_lt_Some in Hn|done].
Qed.

(** [kill] on a slot that is not the one that runs leaves [fork] as able to run as before. *)
Lemma fork_ready_killed s L me cur cwd i :
  i ≠ me → fork_ready s L me cur cwd → fork_ready (upd_proc i killed s) L me cur cwd.
Proof.
  intros Hne [K1 [Kc Krun] K0 K2 K3 K4 K5 K6 K7 K8 K9 K10 K11 K12 K13 K14]. constructor; try done.
  - split; [done|]. cbn. by rewrite list_lookup_alter, decide_False.
  - by apply (uvm_mem s).
  - intros j p. cbn. rewrite list_lookup_alter. destruct (decide (i = j)) as [<-|]; [|apply K14].
    destruct (k_ptable s !! i) as [q|] eqn:Hq; [|done]. intros [= <-] Hst.
    assert (E : p_ofile (killed q) = p_ofile q) by (unfold killed; by case_decide).
    rewrite E. apply (K14 i); [done|]. revert Hst. unfold killed. by case_decide.
Qed.

(** [kill] looks at the pids of unused slots too, and these are 0: [kill(0)] succeeds,
    marks the slot that [fork] takes next, and [fork] does not clear the mark, so that the
    child is born killed. *)
Theorem kill_zero_dooms im s L me cur cwd n c0 :
  fork_ready s L me cur cwd →
  find_index unused (k_ptable s) = Some n → find_index (has_pid 0) (k_ptable s) = Some n →
  k_ptable s !! n = Some c0 → 1026 + npages (p_sz cur) < Z.of_nat (length L) →
  ∃ s1 s2 child, kill 0 s = Done 0 s1 ∧ fork im s1 = Done (k_nextpid s) s2 ∧
    k_ptable s2 !! n = Some child ∧ p_pid child = k_nextpid s ∧ p_state child = RUNNABLE ∧ p_killed child = 1.
Proof.
  intros HR Hu Hz Hn Hlen. pose proof HR as [K1 [Kc Krun] K0 K2 _ _ _ _ _ _ _ _ _ _ _ _].
  rewrite kill_ok by done. rewrite Hz.
  pose proof Hu as Hu'. apply find_index_Some in Hu' as [(c & Hn' & Hc0) Hbefore].
  replace c with c0 in * by congruence. unfold unused in Hc0. apply bool_decide_eq_true in Hc0.
  assert (Hst : p_state (killed c0) = UNUSED) by (unfold killed; cbn; rewrite Hc0; done).
  assert (Hat : k_ptable (upd_proc n killed s) !! n = Some (killed c0)).
  { cbn. by rewrite list_lookup_alter, decide_True, Hn. }
  destruct (fork_slot im (upd_proc n killed s) L me cur cwd n (killed c0)) as (s2 & child & E & H1 & H2 & H3 & H4).
  - apply fork_ready_killed; [|done]. intros ->. congruence.
  - apply find_index_Some. split.
    + exists (killed c0). split; [done|]. unfold unused. by rewrite Hst.
    + intros j p Hj. cbn. rewrite list_lookup_alter, decide_False by lia. apply Hbefore. lia.
  - done.
  - done.
  - eexists _, s2, child. split; [reflexivity|]. repeat (split; [done|]). rewrite H4.
    unfold killed. by case_decide.
Qed.

(** * Examples *)

(** The process of [demo_large] runs, [initproc] being slot 1; slot 2 is unused. *)
Definition demo_parent : proc :=
  mkProc 4096 demo_pgdir 0 RUNNING 2 (Some 1%nat) demo_tf (mkContext 0 0 0 0 0) None 0 (replicate NOFILE None) (Some 0%nat) [].
Definition demo_init : proc :=
  mkProc 0 0 0 SLEEPING 1 None demo_tf (mkContext 0 0 0 0 0) (Some (ChProc 1)) 0 (replicate NOFILE None) None [].
Definition demo_slot : proc :=
  mkProc 0 0 0 UNUSED 0 None demo_tf (mkContext 0 0 0 0 0) None 0 (replicate NOFILE None) None [].

Definition demo_procs (ps : list proc) (s : kernel) : kernel :=
  with_k_initproc (Some 1%nat) (with_k_ptable ps (with_k_hart demo_run_hart s)).
Definition demo_fork : kernel := demo_procs [demo_parent; demo_init; demo_slot] demo_large.
Definition demo_fork_image : image := mkImage 0x80103000 0x80105000 (λ _, 0) [].

Lemma demo_procs_kok ps s : kok (demo_procs ps s).
Proof. exact demo_run_kok. Qed.

Lemma demo_fork_ready : fork_ready demo_fork many_pages 0 demo_parent 0.
Proof.
  constructor.
  - apply demo_procs_kok.
  - split; reflexivity.
  - reflexivity.
  - reflexivity.
  - reflexivity.
  - reflexivity.
  - intros H. discriminate H.
  - exact demo_large_inv.
  - split; by vm_compute.
  - apply (uvm_mem demo_large); [reflexivity|reflexivity|exact (proj1 demo_large_space)].
  - cbn. unfold KERNBASE. lia.
  - intros v Hv. rewrite (same_entries_upte _ _ _ _ (proj2 demo_large_space)) by exact Hv. by apply demo_space_mapped.
  - reflexivity.
  - intros f Hf. by apply elem_of_replicate in Hf as [? _].
  - reflexivity.
  - intros i p Hi Hu. destruct i as [|[|[|i]]]; [..|discriminate Hi]; injection Hi as <-; try discriminate Hu. reflexivity.
Qed.


Lemma kill_zero_dooms_witness :
  ∃ s1 s2 child, kill 0 demo_fork = Done 0 s1 ∧ fork demo_fork_image s1 = Done (k_nextpid demo_fork) s2 ∧
    k_ptable s2 !! 2%nat = Some child ∧ p_killed child = 1.
Proof.
  destruct (kill_zero_dooms demo_fork_image demo_fork many_pages 0 demo_parent 0 2 demo_slot demo_fork_ready)
    as (s1 & s2 & child & E1 & E2 & H1 & _ & _ & H2).
  - reflexivity.
  - reflexivity.
  - reflexivity.
  - rewrite many_pages_length. change (npages (p_sz demo_parent)) with 1. lia.
  - exists s1, s2, child. split; [exact E1|]. split; [exact E2|]. split; [exact H1|exact H2].
Defined.

Lemma exit_leaves_zombie_witness :
  ∃ t k, exit_zombie (Some 0%nat) demo_fork = Swtch (enter LPtable (with_k_ptable t demo_fork)) k ∧
    p_state <$> t = [ZOMBIE; RUNNABLE; UNUSED].
Proof.
  destruct (exit_leaves_zombie 0 demo_parent 1 1 demo_fork) as (t & k & E & _ & Hlen & H).
  - apply demo_procs_kok.
  - reflexivity.
  - reflexivity.
  - split; reflexivity.
  - reflexivity.
  - reflexivity.
  - exists t, k. split; [exact E|].
    destruct (H 0%nat demo_parent) as (q0 & H0 & _ & _ & S0); [reflexivity|].
    destruct (H 1%nat demo_init) as (q1 & H1 & _ & _ & S1); [reflexivity|].
    destruct (H 2%nat demo_slot) as (q2 & H2 & _ & _ & S2); [reflexivity|].
    destruct t as [|a [|b [|c [|d t]]]]; try discriminate Hlen.
    injection H0 as ->. injection H1 as ->. injection H2 as ->. cbn [fmap list_fmap]. by rewrite S0, S1, S2.
Defined.

(** The process of [demo_space] has ended. *)
Definition demo_child : proc :=
  mkProc 4096 demo_pgdir (KERNBASE + 0x600000) ZOMBIE 7 (Some 0%nat) demo_tf (mkContext 0 0 0 0 0) None 0 (replicate NOFILE None) None [].
Definition demo_wait : kernel := demo_procs [with_p_pgdir 0 demo_parent; demo_child] demo_space.

Lemma demo_child_pages : child_pages demo_wait [KERNBASE + 0x500000] demo_child.
Proof.
  split; [|split; [|split]].
  - unfold page_ok. change (k_end demo_wait) with (KERNBASE + 0x200000). cbn [demo_child p_kstack].
    rewrite V2P_small by (unfold KERNBASE; lia). split; [reflexivity|]. unfold KERNBASE, PHYSTOP. lia.
  - intros H%list_elem_of_singleton. cbn in H. unfold KERNBASE in H. lia.
  - apply (uvm_mem demo_space); [done|done|exact demo_space_uvm].
  - change (k_mem demo_wait) with (k_mem demo_space). cbn [demo_child p_kstack p_pgdir].
    intros [[H|(i & Hi & Hp & H)]|Hp].
    + unfold demo_pgdir, KERNBASE in H. lia.
    + apply demo_vm_mapped_pde in Hp as ->; [|done].
      change (tab_of (k_mem demo_space) demo_pgdir 0) with (KERNBASE + 0x301000) in H. unfold KERNBASE in H. lia.
    + apply demo_space_user in Hp. unfold KERNBASE in Hp. lia.
Qed.

Lemma wait_reaps_witness : ∃ s' L', wait demo_wait = Done 7 s' ∧ kmem_inv s' L' ∧ KERNBASE + 0x600000 ∈ L'.
Proof.
  pose proof (wait_reaps 0 (with_p_pgdir 0 demo_parent) demo_wait [KERNBASE + 0x500000]) as H.
  change (find_index (zombie_of 0) (k_ptable demo_wait)) with (Some 1%nat) in H. cbn iota in H.
  destruct H as (c & s' & L' & Hc & E & _ & _ & H1 & H2).
  - apply demo_procs_kok.
  - split; reflexivity.
  - reflexivity.
  - reflexivity.
  - intros H. discriminate H.
  - exact demo_space_inv.
  - reflexivity.
  - intros i c Hi Hz. destruct i as [|[|i]]; [|injection Hi as <-; exact demo_child_pages|discriminate Hi].
    injection Hi as <-. discriminate Hz.
  - injection Hc as <-. exists s', L'. split; [exact E|]. split; [exact H1|]. apply H2. right. left. reflexivity.
Defined.
