(* ===== verification/Scheduler.v ===== *)
(** The scheduler: [scheduler] and [forkret] of proc.c.

    [swtch] out of the scheduler is the same outcome [Swtch] as [swtch] into it,
    seen from the other side: its state is what the chosen process starts
    from, and its continuation runs when that process gives the CPU back. *)

From S2P Require Import Prelude State Spinlock CString Cprintf Mmu Kalloc Vm Sched Bio Log Txn Inode Console Fs Dir Pipe File Proc.
Import KLock.

(** * The loop *)

Definition set_cproc (c : nat) (p : option nat) : K unit :=
  modify (λ s, with_k_hart (Cpu.upd_cpu c (with_c_proc p) (k_hart s)) s).

(** The body of the loop of [scheduler] over the table; [c] is this CPU. *)
Definition sched_body (L : image) (c p : nat) : K unit :=
  pr <- proc_at (Some p) ;;
  if decide (p_state pr ≠ RUNNABLE) then ret tt else
  set_cproc c (Some p) ;;;
  switchuvm (im_tsaddr L) (Some pr) ;;;
  set_proc (Some p) (with_p_state RUNNING) ;;;
  swtch ;;;
  switchkvm ;;;
  set_cproc c None.

(** One turn of [for(;;)]. *)
Definition scheduler_turn (L : image) (c : nat) : K unit :=
  sti ;;;
  acquire LPtable ;;;
  n <- gets (λ s, length (k_ptable s)) ;;
  for_each (seq 0 n) (sched_body L c) ;;;
  release LPtable.

(** [turns] turns of the loop that never ends. *)
Fixpoint scheduler_loop (turns : nat) (L : image) (c : nat) : K unit :=
  match turns with
  | O => diverge
  | S turns' => scheduler_turn L c ;;; scheduler_loop turns' L c
  end.

Definition scheduler (turns : nat) (L : image) : K unit :=
  c <- mycpu ;;
  set_cproc c None ;;;
  scheduler_loop turns L c.

Definition forkret : K unit :=
  release LPtable ;;;
  first <- gets k_first ;;
  if (first : bool) then
    modify (with_k_first false) ;;;
    iinit ROOTDEV ;;;
    initlog ROOTDEV
  else ret tt.

(** * Switching the address space *)

(** What [switchuvm] does to the CPU: the task segment, its register and the
    page table, and nothing else. *)
Definition seg_update (g : cpu → cpu) (cr3 tr : Z) (h : hart) : hart :=
  with_h_cr3 cr3 (with_h_tr tr (Cpu.upd_cpu (Crit.cur h) g h)).

Definition keeps (g : cpu → cpu) : Prop :=
  ∀ c, c_apicid (g c) = c_apicid c ∧ c_ncli (g c) = c_ncli c ∧ c_intena (g c) = c_intena c ∧
    ∀ n, g (with_c_ncli n c) = with_c_ncli n (g c).

Section seg_update.
Context (g : cpu → cpu) (cr3 tr : Z) (Hg : keeps g).

Lemma seg_cur h : Crit.cur (seg_update g cr3 tr h) = Crit.cur h.
Proof. unfold Crit.cur. f_equal. apply (Crit.cur_cpu_upd (Crit.cur h) g). intros c. apply Hg. Qed.

Lemma seg_cpu h : h_cpus (seg_update g cr3 tr h) !! Crit.cur h = g <$> h_cpus h !! Crit.cur h.
Proof. simpl. by rewrite list_lookup_alter, decide_True. Qed.

Lemma seg_ncli h : Crit.ncli_of (seg_update g cr3 tr h) = Crit.ncli_of h.
Proof.
  unfold Crit.ncli_of. rewrite seg_cur, seg_cpu. destruct (h_cpus h !! _) as [c|]; [|done]. apply (Hg c).
Qed.

Lemma seg_hart_ok h : Crit.hart_ok h → Crit.hart_ok (seg_update g cr3 tr h).
Proof.
  intros Hok. pose proof (Crit.hart_ok_cur _ Hok) as Hc. destruct Hok as (i & c & Hi & Hcpu & Hn & H0 & Hoff).
  assert (i = Crit.cur h) as -> by congruence. destruct (Hg c) as (Ha & Hnc & Hin & _).
  exists (Crit.cur h), (g c). split; [|rewrite seg_cpu, Hcpu].
  - rewrite <-Hc. apply (Crit.cur_cpu_upd (Crit.cur h) g). intros c'. apply (Hg c').
  - rewrite Hnc, Hin. done.
Qed.

Lemma seg_hpop h : Crit.hpop (seg_update g cr3 tr h) = seg_update g cr3 tr (Crit.hpop h).
Proof.
  unfold Crit.hpop. rewrite seg_ncli, seg_cur, seg_cpu.
  assert (E : default false (c_intena <$> (g <$> h_cpus h !! Crit.cur h)) = default false (c_intena <$> h_cpus h !! Crit.cur h)).
  { destruct (h_cpus h !! _) as [c|]; [|done]. apply (Hg c). }
  rewrite E. unfold seg_update. set (b := bool_decide _ && _).
  assert (Ec : Crit.cur (with_h_if b (Cpu.upd_cpu (Crit.cur h) (λ c, with_c_ncli (c_ncli c - 1) c) h)) = Crit.cur h).
  { exact (Crit.cur_hpop h). }
  rewrite Ec. unfold Cpu.upd_cpu. cbn [h_cpus with_h_cr3 with_h_tr with_h_cpus with_h_if].
  set (dec := λ c : cpu, with_c_ncli (c_ncli c - 1) c).
  assert (El : alter dec (Crit.cur h) (alter g (Crit.cur h) (h_cpus h)) =
               alter g (Crit.cur h) (alter dec (Crit.cur h) (h_cpus h))).
  { rewrite !list_alter_alter_eq. apply list_alter_ext; [|done].
    intros c _. unfold dec. cbn. destruct (Hg c) as (_ & Hn & _ & Hw). by rewrite Hw, Hn. }
  rewrite El. done.
Qed.
End seg_update.

(** One more update of the current CPU. *)
Lemma upd_my_cpu_ok f g h s :
  Crit.hart_ok h → h_if h = false → keeps g →
  upd_my_cpu f (with_k_hart (Cpu.upd_cpu (Crit.cur h) g h) s) =
    Done tt (with_k_hart (Cpu.upd_cpu (Crit.cur h) (λ c, f (g c)) h) s).
Proof.
  intros Hok Hif Hg. unfold upd_my_cpu. erewrite bind_done.
  2:{ apply kmycpu_ok; [exact (seg_hart_ok g (h_cr3 h) (h_tr h) Hg h Hok)|done]. }
  cbn [k_hart with_k_hart].
  assert (E : Crit.cur (Cpu.upd_cpu (Crit.cur h) g h) = Crit.cur h) by exact (seg_cur g (h_cr3 h) (h_tr h) Hg h).
  rewrite E. unfold modify. cbn [k_hart with_k_hart]. by rewrite Crit.upd_cpu_compose.
Qed.

(** The updates of the descriptor table and of the task state. *)
Definition seg_cpu_fun (tsaddr : Z) (pr : proc) (c : cpu) : cpu :=
  let gdt := alter (with_sd_s 0) SEG_TSS (<[SEG_TSS := SEG16 STS_T32A tsaddr 103 0]> (c_gdt c)) in
  with_c_ts (with_ts_iomb 0xFFFF (with_ts_esp0 (u32 (p_kstack pr + KSTACKSIZE))
    (with_ts_ss0 (Z.shiftl (Z.of_nat SEG_KDATA) 3) (c_ts c)))) (with_c_gdt gdt c).

Lemma seg_cpu_fun_keeps a pr : keeps (seg_cpu_fun a pr).
Proof. intros c. done. Qed.

Lemma upd_cpu_ident i h : Cpu.upd_cpu i (λ c, c) h = h.
Proof. unfold Cpu.upd_cpu. rewrite list_alter_id by done. by destruct h. Qed.

Lemma switchuvm_ok ts pr s :
  kok s → p_kstack pr ≠ 0 → p_pgdir pr ≠ 0 →
  switchuvm ts (Some pr) s = Done tt (with_k_hart
    (seg_update (seg_cpu_fun (ts (Crit.cur (k_hart s))) pr) (V2P (p_pgdir pr))
       (Z.shiftl (Z.of_nat SEG_TSS) 3) (k_hart s)) s).
Proof.
  intros Hok Hk Hd. unfold switchuvm. rewrite (proj2 (Z.eqb_neq _ _) Hk), (proj2 (Z.eqb_neq _ _) Hd).
  erewrite bind_done by (by apply kpushcli_ok). set (h := Crit.hpush (k_hart s)).
  assert (Hokh : Crit.hart_ok h) by (by apply Crit.hart_ok_hpush).
  assert (Hc : Crit.cur h = Crit.cur (k_hart s)) by apply Crit.cur_hpush.
  erewrite bind_done by (by apply kmycpu_ok). cbn [k_hart with_k_hart]. rewrite Hc.
  set (i := Crit.cur (k_hart s)).
  rewrite <-(upd_cpu_ident (Crit.cur h) h) at 1.
  do 5 (erewrite bind_done; [|apply upd_my_cpu_ok; [done|done|intros c; done]]).
  do 2 erewrite bind_done by done. cbn [k_hart with_k_hart].
  change (popcli (with_k_hart (seg_update (seg_cpu_fun (ts i) pr) (V2P (p_pgdir pr))
    (Z.shiftl (Z.of_nat SEG_TSS) 3) h) s) = Done tt (with_k_hart (seg_update (seg_cpu_fun (ts i) pr)
    (V2P (p_pgdir pr)) (Z.shiftl (Z.of_nat SEG_TSS) 3) (k_hart s)) s)).
  unfold popcli. erewrite zoom_done.
  2:{ apply Crit.popcli_ok; [apply seg_hart_ok; [apply seg_cpu_fun_keeps|done]|].
      cbn [k_hart with_k_hart]. rewrite seg_ncli by apply seg_cpu_fun_keeps.
      unfold h. rewrite Crit.ncli_of_hpush by done. pose proof (Crit.ncli_of_nonneg _ Hok). lia. }
  cbn [k_hart with_k_hart]. rewrite seg_hpop by apply seg_cpu_fun_keeps. unfold h. by rewrite Crit.hpop_hpush.
Qed.

Lemma seg_owned g cr3 tr lk s :
  keeps g → owned lk s → owned lk (with_k_hart (seg_update g cr3 tr (k_hart s)) s).
Proof.
  intros Hg [Hl Hn]. split; cbn [k_hart with_k_hart].
  - rewrite seg_cur by done. exact Hl.
  - by rewrite seg_ncli.
Qed.

(** ** Entering the loop *)

(** [pushcli] at depth 0 saves the flag it finds, whatever was saved before. *)
Lemma pushcli_depth0 b h :
  Crit.hart_ok h → Crit.ncli_of h = 0 → Cpu.pushcli (with_h_if b h) = Done tt (Crit.hpush (set_if b h)).
Proof.
  intros Hok Hn. pose proof (Crit.hart_ok_cur _ Hok) as Hcur. destruct Hok as (i & c & Hi & Hc & _).
  assert (i = Crit.cur h) as -> by congruence. clear Hi.
  pose proof (Crit.cpus_cur _ _ Hc) as E. rewrite Hn in E.
  set (h1 := with_h_if false h). set (h2 := Cpu.upd_cpu (Crit.cur h) (with_c_intena b) h1).
  assert (Hm : Cpu.mycpu h1 = Done (Crit.cur h) h1) by (by apply (Crit.mycpu_off h1)).
  assert (Hc2 : Cpu.cur_cpu h2 = Some (Crit.cur h)).
  { etransitivity; [by apply (Crit.cur_cpu_upd (Crit.cur h))|exact Hcur]. }
  assert (Hm2 : Cpu.mycpu h2 = Done (Crit.cur h) h2).
  { unfold Cpu.mycpu, bind, gets. simpl. by rewrite Hc2. }
  unfold Cpu.pushcli. erewrite bind_done by done. erewrite bind_done by done.
  change (with_h_if false (with_h_if b h)) with h1. erewrite bind_done by exact Hm.
  erewrite bind_done by (unfold Cpu.cpu_at, bind, get; simpl; rewrite Hc; reflexivity).
  rewrite <-E. cbn [Z.eqb]. erewrite bind_done by (by erewrite bind_done by exact Hm). fold h2.
  erewrite bind_done by exact Hm2. unfold modify, Crit.hpush.
  assert (Ec : Crit.cur (set_if b h) = Crit.cur h).
  { unfold Crit.cur, set_if. f_equal. by apply (Crit.cur_cpu_upd (Crit.cur h)). }
  by rewrite Ec.
Qed.

(** [sti(); acquire(&ptable.lock)], with interrupts on or off before. *)
Lemma scheduler_enter s :
  kok s → Crit.ncli_of (k_hart s) = 0 → unlocked LPtable s →
  (sti ;;; acquire LPtable) s = Done tt (enter LPtable (with_k_hart (set_if true (k_hart s)) s)).
Proof.
  intros Hok Hn Hf. erewrite bind_done by done. unfold acquire.
  rewrite (zoom_done k_hart with_k_hart _ _ tt (Crit.hacq LPtable (set_if true (k_hart s)))); [done|].
  rewrite <-(Crit.acquire_ok LPtable (set_if true (k_hart s))); [|by apply hart_ok_set_if|exact Hf].
  cbn [k_hart with_k_hart]. unfold Lock.acquire.
  erewrite bind_done by (by apply pushcli_depth0). symmetry.
  by erewrite bind_done by (apply Crit.pushcli_ok; by apply hart_ok_set_if).
Qed.

(** * Every runnable process runs *)

(** The states in which a run of the scheduler hands over the CPU; [env] is what
    the processes do until one of them gives it back. *)
Fixpoint handovers {A} (env : kernel → kernel) (o : outcome kernel A) : list kernel :=
  match o with
  | Swtch s k => s :: handovers env (k (env s))
  | _ => []
  end.

(** A process that has a kernel stack and a page table to run on. *)
Definition can_run (pr : proc) : Prop :=
  p_state pr = RUNNABLE ∨ p_state pr = RUNNING → p_kstack pr ≠ 0 ∧ p_pgdir pr ≠ 0.

(** What holds while CPU [c] is in the loop over the table of [n] slots and the
    process [p], which is [pr], waits for its turn. *)
Record sched_inv (c n p : nat) (pr : proc) (s : kernel) : Prop := mkSchedInv {
  si_kok : kok s;
  si_lock : owned LPtable s;
  si_cur : Crit.cur (k_hart s) = c;
  si_len : length (k_ptable s) = n;
  si_run : Forall can_run (k_ptable s);
  si_wait : k_ptable s !! p = Some pr;
}.

(** The process [p] has just been given the CPU: it is marked as running, its
    page table is loaded, and the process table is locked. *)
Record handed (p : nat) (pr : proc) (s : kernel) : Prop := mkHanded {
  hd_proc : cproc s = Some p;
  hd_state : k_ptable s !! p = Some (with_p_state RUNNING pr);
  hd_cr3 : h_cr3 (k_hart s) = V2P (p_pgdir pr);
  hd_lock : owned LPtable s;
}.

(** The CPU as it is handed over to [p]. *)
Definition hand_hart (L : image) (p : nat) (pr : proc) (h : hart) : hart :=
  seg_update (seg_cpu_fun (im_tsaddr L (Crit.cur h)) pr) (V2P (p_pgdir pr)) (Z.shiftl (Z.of_nat SEG_TSS) 3)
    (Cpu.upd_cpu (Crit.cur h) (with_c_proc (Some p)) h).

Definition hand_over (L : image) (p : nat) (pr : proc) (s : kernel) : kernel :=
  upd_proc p (with_p_state RUNNING) (with_k_hart (hand_hart L p pr (k_hart s)) s).

Lemma keeps_proc x : keeps (with_c_proc x).
Proof. intros c. done. Qed.

Lemma set_cproc_kok x s :
  kok s → kok (with_k_hart (Cpu.upd_cpu (Crit.cur (k_hart s)) (with_c_proc x) (k_hart s)) s).
Proof. exact (seg_hart_ok _ (h_cr3 (k_hart s)) (h_tr (k_hart s)) (keeps_proc x) (k_hart s)). Qed.

Lemma set_cproc_owned x s :
  owned LPtable s →
  owned LPtable (with_k_hart (Cpu.upd_cpu (Crit.cur (k_hart s)) (with_c_proc x) (k_hart s)) s).
Proof. exact (seg_owned _ (h_cr3 (k_hart s)) (h_tr (k_hart s)) LPtable s (keeps_proc x)). Qed.

Lemma cur_set_cproc x h : Crit.cur (Cpu.upd_cpu (Crit.cur h) (with_c_proc x) h) = Crit.cur h.
Proof. exact (seg_cur _ (h_cr3 h) (h_tr h) (keeps_proc x) h). Qed.

Lemma sched_body_runs L c n p pr s i pi :
  sched_inv c n p pr s → k_ptable s !! i = Some pi → p_state pi = RUNNABLE →
  sched_body L c i s = Swtch (hand_over L i pi s) (switchkvm ;;; set_cproc c None).
Proof.
  intros [Hok Hl Hc Hn Hr _] Hi Hst. unfold sched_body. erewrite bind_done by (by apply proc_at_ok).
  rewrite decide_False by naive_solver. erewrite bind_done by done. subst c.
  rewrite Forall_lookup in Hr. destruct (Hr _ _ Hi) as [Hks Hpg]; [by left|].
  erewrite bind_done by (apply switchuvm_ok; [by apply set_cproc_kok|done|done]).
  cbn [k_hart with_k_hart]. rewrite cur_set_cproc.
  erewrite bind_done by done. reflexivity.
Qed.

(** The state handed over keeps the invariant for the others. *)
Lemma hand_over_inv L c n p pr s i pi :
  sched_inv c n p pr s → k_ptable s !! i = Some pi → p_state pi = RUNNABLE → i ≠ p →
  sched_inv c n p pr (hand_over L i pi s).
Proof.
  intros [Hok Hl Hc Hn Hr Hp] Hi Hst Hne. unfold hand_over, hand_hart. constructor.
  - apply (seg_hart_ok _ _ _ (seg_cpu_fun_keeps _ _)). exact (set_cproc_kok (Some i) s Hok).
  - apply (seg_owned _ _ _ LPtable _ (seg_cpu_fun_keeps _ _)
      (set_cproc_owned (Some i) s Hl)).
  - cbn [k_hart with_k_hart upd_proc with_k_ptable]. rewrite seg_cur by apply seg_cpu_fun_keeps. by rewrite cur_set_cproc.
  - simpl. by rewrite length_alter.
  - simpl. apply Forall_lookup. intros j x. rewrite list_lookup_alter. rewrite Forall_lookup in Hr.
    case_decide as E; [|by apply Hr]. subst j. rewrite Hi. intros [= <-] _. apply (Hr _ _ Hi). by left.
  - simpl. rewrite list_lookup_alter, decide_False by done. exact Hp.
Qed.

Lemma hand_over_handed L c n p pr s :
  sched_inv c n p pr s → handed p pr (hand_over L p pr s).
Proof.
  intros [Hok Hl Hc Hn Hr Hp]. constructor.
  - unfold cproc, hand_over, hand_hart. cbn [k_hart with_k_hart upd_proc with_k_ptable].
    rewrite seg_cur by apply seg_cpu_fun_keeps.
    destruct (kok_cpu s Hok) as (cp & Hcp). rewrite seg_cpu, cur_set_cproc. simpl.
    by rewrite list_lookup_alter, decide_True, Hcp by done.
  - simpl. rewrite list_lookup_alter, decide_True by done. by rewrite Hp.
  - done.
  - apply (seg_owned _ _ _ LPtable _ (seg_cpu_fun_keeps _ _) (set_cproc_owned (Some p) s Hl)).
Qed.

(** Back in the scheduler: no process, the kernel's own page table. *)
Lemma sched_back c n p pr s :
  sched_inv c n p pr s →
  ∃ s', (switchkvm ;;; set_cproc c None) s = Done tt s' ∧ sched_inv c n p pr s'.
Proof.
  intros [Hok Hl Hc Hn Hr Hp]. eexists. split; [by erewrite bind_done by done|]. subst c.
  constructor; try done.
  - exact (set_cproc_kok None (with_k_hart (with_h_cr3 (V2P (k_kpgdir s)) (k_hart s)) s) Hok).
  - exact (set_cproc_owned None (with_k_hart (with_h_cr3 (V2P (k_kpgdir s)) (k_hart s)) s) Hl).
  - exact (cur_set_cproc None (with_h_cr3 (V2P (k_kpgdir s)) (k_hart s))).
Qed.

Section liveness.
Context (L : image) (env : kernel → kernel) (c n p : nat) (pr : proc).
Context (Hpr : p_state pr = RUNNABLE).
Context (Henv : ∀ s, sched_inv c n p pr s → cproc s ≠ Some p → sched_inv c n p pr (env s)).

Lemma turn_reaches (f : unit → K unit) : ∀ xs s,
  sched_inv c n p pr s → p ∈ xs → Forall (λ i, i < n)%nat xs →
  Exists (handed p pr) (handovers env (obind (for_each xs (sched_body L c) s) f)).
Proof.
  induction xs as [|i xs IH]; intros s Hinv Hin Hlt; [by apply not_elem_of_nil in Hin|].
  apply Forall_cons in Hlt as [Hi Hlt]. cbn [for_each]. unfold bind at 1.
  destruct (decide (i = p)) as [->|Hne].
  { rewrite (sched_body_runs L c n p pr s p pr Hinv) by (try apply Hinv; done).
    cbn [obind handovers]. left. by eapply hand_over_handed. }
  apply elem_of_cons in Hin as [->|Hin]; [done|].
  assert (is_Some (k_ptable s !! i)) as [pi Hpi] by (apply lookup_lt_is_Some; by rewrite (si_len _ _ _ _ _ Hinv)).
  destruct (decide (p_state pi = RUNNABLE)) as [Hst|Hst].
  - rewrite (sched_body_runs L c n p pr s i pi Hinv Hpi Hst). cbn [obind handovers]. right.
    pose proof (hand_over_inv L c n p pr s i pi Hinv Hpi Hst Hne) as Hinv1.
    assert (Hcp : cproc (hand_over L i pi s) = Some i).
    { destruct (hand_over_handed L c n i pi s) as [Hcp _ _ _]; [|done]. destruct Hinv. by constructor. }
    specialize (Henv _ Hinv1 ltac:(rewrite Hcp; congruence)).
    destruct (sched_back _ _ _ _ _ Henv) as (s' & E & Hinv'). rewrite E. by apply IH.
  - assert (E : sched_body L c i s = Done tt s).
    { unfold sched_body. erewrite bind_done by (by apply proc_at_ok). by rewrite decide_True. }
    rewrite E. by apply IH.
Qed.
End liveness.


(** ** Witness *)

(** Three processes; each that runs yields. *)
Definition demo_yield (pr : proc) : proc :=
  if decide (p_state pr = RUNNING) then with_p_state RUNNABLE pr else pr.
Definition demo_env (s : kernel) : kernel :=
  match cproc s with
  | Some q => upd_proc q demo_yield s
  | None => s
  end.

Definition demo_ready : proc := with_p_kstack 4096 (with_p_pgdir 8192 (with_p_state RUNNABLE demo_proc)).
Definition demo_three : kernel := with_k_ptable [demo_ready; demo_ready; demo_ready] demo_run.
Definition demo_image : image := mkImage 0 0 (λ _, 0) [].

Lemma demo_env_inv c n p pr s : sched_inv c n p pr s → cproc s ≠ Some p → sched_inv c n p pr (demo_env s).
Proof.
  intros [Hok Hl Hc Hn Hr Hp] Hne. unfold demo_env. destruct (cproc s) as [q|] eqn:Hq; [|by constructor].
  constructor; try done.
  - simpl. by rewrite length_alter.
  - simpl. apply Forall_lookup. intros j x. rewrite list_lookup_alter. rewrite Forall_lookup in Hr.
    case_decide as E; [|by apply Hr]. subst j. intros (y & Hy & ->)%fmap_Some. unfold demo_yield.
    case_decide as E; [|by apply (Hr q)]. intros _. apply (Hr q y Hy). by right.
  - simpl. rewrite list_lookup_alter, decide_False by congruence. exact Hp.
Qed.

