(* ===== verification/Args.v ===== *)
(** System call arguments: [fetchint], [fetchstr], [argint], [argptr] and
    [argstr] of syscall.c, and how the kernel reads and writes user memory.

    The kernel runs on the page table of the current process, so a user address
    goes through the page directory in [%cr3].  An access to a page that is not
    mapped traps in kernel mode, and [trap] panics with "trap". *)

From S2P Require Import Prelude State Spinlock CString Mmu Kalloc Vm Sched.
Import KLock.

(** * User memory *)

(** The kernel address of the byte at user address [va]. *)
Definition translate (s : kernel) (need va : Z) : option Z :=
  let e := pte_of (k_mem s) (P2V (h_cr3 (k_hart s))) va in
  if Z.land e need =? need then Some (P2V (PTE_ADDR e) + va mod PGSIZE) else None.

Definition rd_user (va : Z) : K Z :=
  s <- get ;;
  match translate s PTE_P va with
  | Some a => ret (k_mem s a)
  | None => panic "trap"
  end.

Definition wr_user (va v : Z) : K unit :=
  s <- get ;;
  match translate s (Z.lor PTE_P PTE_W) va with
  | Some a => modify (λ s, with_k_mem (store8 (k_mem s) a v) s)
  | None => panic "trap"
  end.

Fixpoint rd_user_bytes (va : Z) (n : nat) : K (list Z) :=
  match n with
  | O => ret []
  | S n' => c <- rd_user va ;; cs <- rd_user_bytes (u32 (va + 1)) n' ;; ret (c :: cs)
  end.

Fixpoint wr_user_bytes (va : Z) (bs : list Z) : K unit :=
  match bs with
  | [] => ret tt
  | b :: bs' => wr_user va b ;;; wr_user_bytes (u32 (va + 1)) bs'
  end.

(** * Arguments *)

(** [None] is the result -1; the value is what is stored at [ip]. *)
Definition fetchint (addr : Z) : K (option Z) :=
  me <- myproc ;;
  cur <- proc_at me ;;
  if (p_sz cur <=? addr) || (p_sz cur <? u32 (addr + 4)) then ret None else
  bs <- rd_user_bytes addr 4 ;;
  ret (Some (s32 (le_dec bs))).

(** The loop of [fetchstr]: [n] bytes are left before [ep]. *)
Fixpoint fetchstr_loop (n : nat) (a : Z) : K (option (list Z)) :=
  match n with
  | O => ret None
  | S n' =>
      c <- rd_user a ;;
      if c =? 0 then ret (Some []) else
      r <- fetchstr_loop n' (a + 1) ;;
      ret (cons c <$> r)
  end.

(** The string at [addr]; its length is the result of the C function. *)
Definition fetchstr (addr : Z) : K (option (list Z)) :=
  me <- myproc ;;
  cur <- proc_at me ;;
  if p_sz cur <=? addr then ret None else
  fetchstr_loop (Z.to_nat (p_sz cur - addr)) addr.

Definition argint (n : Z) : K (option Z) :=
  me <- myproc ;;
  cur <- proc_at me ;;
  fetchint (u32 (tf_esp (p_tf cur) + 4 + 4 * n)).

(** The address stored at [pp]. *)
Definition argptr (n size : Z) : K (option Z) :=
  me <- myproc ;;
  oi <- argint n ;;
  match oi with
  | None => ret None
  | Some i =>
      cur <- proc_at me ;;
      if (size <? 0) || (p_sz cur <=? u32 i) || (p_sz cur <? u32 (u32 i + size)) then ret None
      else ret (Some (u32 i))
  end.

Definition argstr (n : Z) : K (option (list Z)) :=
  oaddr <- argint n ;;
  match oaddr with
  | None => ret None
  | Some addr => fetchstr (u32 addr)
  end.
