(* ===== verification/Uargs.v ===== *)
(** The checks on system call arguments (Args): a bad pointer in a system call
    makes the call fail, and never makes the kernel fault.

    The running process has the pages of its size mapped, as Uvm describes it.
    The theorem gives the value of [argint], [argptr] and [argstr] for every
    stack pointer and every argument a program can have, in terms of the bytes of its memory. *)

From S2P Require Import Prelude State Spinlock CString Mmu Kalloc Vm Uvm Sched Args.
Import KLock.

(** The kernel runs for process [me], on its page table. *)
Record user_ready (s : kernel) (me : nat) (cur : proc) : Prop := mkUserReady {
  ur_ok : kok s;
  ur_run : running s me cur;
  ur_cr3 : P2V (h_cr3 (k_hart s)) = p_pgdir cur;
  ur_sz : 0 ≤ p_sz cur ≤ KERNBASE;
  ur_esp : is_u32 (tf_esp (p_tf cur));
  ur_mapped : mapped_upto (k_mem s) (p_pgdir cur) (npages (p_sz cur));
}.

Section args.
Context (s : kernel) (me : nat) (cur : proc) (Hu : user_ready s me cur).

(** The byte of the process at [va]. *)
Definition user_byte (va : Z) : Z := ubyte (k_mem s) (p_pgdir cur) va.

(** * What the process passes *)

(** The word at [addr], if it is in the memory of the process. *)
Definition user_int (addr : Z) : option Z :=
  if addr + 4 <=? p_sz cur then
    Some (s32 (le_dec [user_byte addr; user_byte (addr + 1); user_byte (addr + 2); user_byte (addr + 3)]))
  else None.

(** The string at [addr], if it ends within the memory of the process: [n]
    bytes are left. *)
Fixpoint user_str (n : nat) (addr : Z) : option (list Z) :=
  match n with
  | O => None
  | S n' => if user_byte addr =? 0 then Some [] else cons (user_byte addr) <$> user_str n' (addr + 1)
  end.

(** Argument [n] of the call. *)
Definition arg_addr (n : Z) : Z := u32 (tf_esp (p_tf cur) + 4 + 4 * n).

Lemma npages_bound va : 0 ≤ va < p_sz cur → va / 4096 < npages (p_sz cur) ∧ 0 ≤ va / 4096 < NUSER.
Proof. intros Hva. pose proof (ur_sz _ _ _ Hu). unfold npages, NUSER, KERNBASE in *. split; zdiv. Qed.

Lemma rd_user_ok va : 0 ≤ va < p_sz cur → rd_user va s = Done (user_byte va) s.
Proof.
  intros Hva. pose proof (ur_sz _ _ _ Hu) as Hsz. destruct (npages_bound va Hva) as [H1 H2].
  pose proof (ur_mapped _ _ _ Hu (va / 4096) H2) as Hp. replace (va / 4096 <? npages (p_sz cur)) with true in Hp by lia.
  unfold rd_user, bind, get. cbn [obind]. unfold translate. rewrite (ur_cr3 _ _ _ Hu).
  rewrite pte_of_page by (unfold is_u32, KERNBASE in *; lia). unfold present in Hp.
  assert (E : Z.land (upte (k_mem s) (p_pgdir cur) (va / 4096)) PTE_P = PTE_P).
  { unfold PTE_P in *. change 1 with (Z.ones 1) in *. rewrite Z.land_ones in * by lia. change (2 ^ 1) with 2 in *.
    pose proof (Z.mod_pos_bound (upte (k_mem s) (p_pgdir cur) (va / 4096)) 2 ltac:(lia)). change (Z.ones 1) with 1. lia. }
  rewrite E, Z.eqb_refl. done.
Qed.

Lemma rd_user_bytes_ok n : ∀ va, 0 ≤ va → va + Z.of_nat n ≤ p_sz cur →
  rd_user_bytes va n s = Done ((λ i, user_byte (va + Z.of_nat i)) <$> seq 0 n) s.
Proof.
  pose proof (ur_sz _ _ _ Hu) as Hsz. induction n as [|n IH]; intros va H0 H1; [done|]. cbn [rd_user_bytes].
  rewrite (bind_done _ _ s (user_byte va) s) by (apply rd_user_ok; lia).
  destruct n as [|n]; [cbn; by rewrite Z.add_0_r|].
  rewrite u32_small by (unfold is_u32, KERNBASE in *; lia). erewrite bind_done by (apply IH; lia).
  unfold ret. rewrite <-(cons_seq (S n) 0), fmap_cons, <-fmap_S_seq, <-list_fmap_compose, Z.add_0_r. do 2 f_equal.
  apply list_fmap_ext. intros i x _. unfold compose. f_equal. lia.
Qed.

Lemma myproc_cur : myproc s = Done (Some me) s.
Proof. rewrite myproc_ok by apply (ur_ok _ _ _ Hu). by rewrite (proj1 (ur_run _ _ _ Hu)). Qed.

Lemma proc_cur : proc_at (Some me) s = Done cur s.
Proof. apply proc_at_ok, (ur_run _ _ _ Hu). Qed.

Lemma fetchint_ok addr : is_u32 addr → fetchint addr s = Done (user_int addr) s.
Proof.
  intros Ha. pose proof (ur_sz _ _ _ Hu) as Hsz. unfold fetchint. unfold is_u32, KERNBASE in *.
  rewrite (bind_done _ _ _ _ _ myproc_cur), (bind_done _ _ _ _ _ proc_cur). unfold user_int.
  destruct (Z.leb_spec (p_sz cur) addr); [by replace (addr + 4 <=? p_sz cur) with false by lia|]. cbn [orb].
  rewrite u32_small by (unfold is_u32; lia). destruct (Z.ltb_spec (p_sz cur) (addr + 4)); [by replace (addr + 4 <=? p_sz cur) with false by lia|].
  replace (addr + 4 <=? p_sz cur) with true by lia. erewrite bind_done by (apply rd_user_bytes_ok; lia).
  cbn [seq fmap list_fmap]. by rewrite Z.add_0_r.
Qed.

Lemma fetchstr_loop_ok n : ∀ addr, 0 ≤ addr → addr + Z.of_nat n ≤ p_sz cur → fetchstr_loop n addr s = Done (user_str n addr) s.
Proof.
  induction n as [|n IH]; intros addr H0 H1; [done|]. cbn [fetchstr_loop user_str]. erewrite bind_done by (apply rd_user_ok; lia).
  destruct (user_byte addr =? 0); [done|]. by erewrite bind_done by (apply IH; lia).
Qed.

Lemma fetchstr_ok addr : is_u32 addr → fetchstr addr s = Done (user_str (Z.to_nat (p_sz cur - addr)) addr) s.
Proof.
  intros Ha. unfold is_u32 in Ha. unfold fetchstr. rewrite (bind_done _ _ _ _ _ myproc_cur), (bind_done _ _ _ _ _ proc_cur).
  destruct (Z.leb_spec (p_sz cur) addr).
  - by replace (Z.to_nat (p_sz cur - addr)) with 0%nat by lia.
  - apply fetchstr_loop_ok; lia.
Qed.

Lemma argint_ok n : argint n s = Done (user_int (arg_addr n)) s.
Proof.
  unfold argint. rewrite (bind_done _ _ _ _ _ myproc_cur), (bind_done _ _ _ _ _ proc_cur). apply fetchint_ok, u32_range.
Qed.

(** The pointer [i] with [size] bytes after it, if they are in the memory of
    the process. *)
Definition user_ptr (size : Z) (i : Z) : option Z :=
  if (0 <=? size) && (u32 i <? p_sz cur) && (u32 i + size <=? p_sz cur) then Some (u32 i) else None.

Lemma argptr_ok n size : -2147483648 ≤ size < 2147483648 → argptr n size s = Done (user_int (arg_addr n) ≫= user_ptr size) s.
Proof.
  intros Hs. pose proof (ur_sz _ _ _ Hu) as Hsz. unfold argptr. rewrite (bind_done _ _ _ _ _ myproc_cur).
  erewrite bind_done by apply argint_ok. destruct (user_int (arg_addr n)) as [i|]; [|done]. cbn [mbind option_bind].
  rewrite (bind_done _ _ _ _ _ proc_cur). unfold user_ptr. pose proof (u32_range i) as Hi. unfold is_u32, KERNBASE in *.
  destruct (Z.ltb_spec size 0); [by replace (0 <=? size) with false by lia|]. cbn [orb].
  destruct (Z.leb_spec (p_sz cur) (u32 i)); [by replace (u32 i <? p_sz cur) with false by lia; rewrite andb_false_r|]. cbn [orb].
  rewrite (u32_small (u32 i + size)) by (unfold is_u32; lia).
  replace (0 <=? size) with true by lia. replace (u32 i <? p_sz cur) with true by lia. cbn [andb].
  destruct (Z.ltb_spec (p_sz cur) (u32 i + size)); [by replace (u32 i + size <=? p_sz cur) with false by lia|by replace (u32 i + size <=? p_sz cur) with true by lia].
Qed.

Lemma argstr_ok n : argstr n s = Done (user_int (arg_addr n) ≫= λ a, user_str (Z.to_nat (p_sz cur - u32 a)) (u32 a)) s.
Proof.
  unfold argstr. erewrite bind_done by apply argint_ok. destruct (user_int (arg_addr n)) as [a|]; [|done]. apply fetchstr_ok, u32_range.
Qed.
End args.

(** C19: the arguments of a system call are checked.  For a process with any
    stack pointer and any arguments, [argint], [argptr] and [argstr] return
    without a fault and without changing anything.  They fail exactly when the word, the
    range or the string they ask for is not all in the memory of the process: in particular a pointer
    that [argptr] accepts has its [size] bytes below [p->sz], also
    when the sum would not fit in 32 bits. *)
Theorem args_checked s me cur : user_ready s me cur → ∀ n,
  argint n s = Done (user_int s cur (arg_addr cur n)) s ∧
  (∀ size, -2147483648 ≤ size < 2147483648 →
    argptr n size s = Done (user_int s cur (arg_addr cur n) ≫= user_ptr cur size) s ∧
    ∀ p, argptr n size s = Done (Some p) s → 0 ≤ p ∧ 0 ≤ size ∧ p + size ≤ p_sz cur) ∧
  argstr n s = Done (user_int s cur (arg_addr cur n) ≫= λ a, user_str s cur (Z.to_nat (p_sz cur - u32 a)) (u32 a)) s.
Proof.
  intros Hu n. split; [by eapply argint_ok|]. split; [|by eapply argstr_ok]. intros size Hs.
  rewrite (argptr_ok s me cur Hu n size Hs). split; [done|]. intros p [= E]. destruct (user_int s cur (arg_addr cur n)) as [i|]; [|done].
  cbn in E. unfold user_ptr in E. pose proof (u32_range i) as Hi. unfold is_u32 in Hi. case_match eqn:Ec; [|done]. injection E as <-. lia.
Qed.

(** A process of one page that passes 0 in its first argument. *)
Definition args_proc : proc :=
  with_p_tf (with_tf_esp 96 demo_tf) (with_p_pgdir demo_pgdir (with_p_sz 4096 demo_proc)).
Definition args_demo : kernel :=
  with_k_hart (with_h_cr3 (demo_pgdir - KERNBASE) demo_run_hart)
    (with_k_ptable [args_proc] (with_k_mem (k_mem demo_space) demo_run)).

Lemma args_demo_ready : user_ready args_demo 0 args_proc.
Proof.
  constructor.
  - exact demo_run_kok.
  - split; reflexivity.
  - vm_compute. reflexivity.
  - split; discriminate.
  - split; [discriminate|reflexivity].
  - exact demo_space_mapped.
Qed.

Lemma args_checked_witness :
  argptr 0 4097 args_demo = Done (user_int args_demo args_proc 100 ≫= user_ptr args_proc 4097) args_demo.
Proof. apply (args_checked args_demo 0 args_proc args_demo_ready 0). split; [discriminate|reflexivity]. Defined.
