(* ===== verification/Exec.v ===== *)
(** Running a program: [loaduvm] of vm.c and [exec] of exec.c.

    [exec] takes the path and the argument strings as bytes; [sys_exec] has
    fetched them from the memory of the process. *)

From S2P Require Import Prelude State Spinlock CString Cprintf Mmu Kalloc Vm Sched Bio Log Txn Inode Console Fs Dir Pipe File Proc.
Import KLock.

(** * The ELF format: elf.h *)

Definition ELF_MAGIC : Z := 0x464C457F.
Definition ELF_PROG_LOAD : Z := 1.

(** The fields of [struct elfhdr] the kernel reads. *)
Record elfhdr := mkElfhdr {
  eh_magic : Z;
  eh_entry : Z;
  eh_phoff : Z;
  eh_phnum : Z;
}.

Record proghdr := mkProghdr {
  ph_type : Z;
  ph_off : Z;
  ph_vaddr : Z;
  ph_paddr : Z;
  ph_filesz : Z;
  ph_memsz : Z;
  ph_flags : Z;
  ph_align : Z;
}.

Definition ELFHDR_SIZE : Z := 52.
Definition PROGHDR_SIZE : Z := 32.

Definition word_at (bs : list Z) (off : nat) : Z := le_dec (slice bs off 4).

Definition elfhdr_dec (bs : list Z) : elfhdr :=
  mkElfhdr (word_at bs 0) (word_at bs 24) (word_at bs 28) (le_dec (slice bs 44 2)).

Definition proghdr_dec (bs : list Z) : proghdr :=
  mkProghdr (word_at bs 0) (word_at bs 4) (word_at bs 8) (word_at bs 12)
    (word_at bs 16) (word_at bs 20) (word_at bs 24) (word_at bs 28).

(** * Loading *)

(** The loop of [loaduvm]; [i] grows by a page at each turn. *)
Fixpoint loaduvm_loop (fuel : nat) (pgdir addr : Z) (ip : nat) (offset sz i : Z) : K Z :=
  match fuel with
  | O => diverge
  | S fuel' =>
      if i <? sz then
        pte <- walkpgdir pgdir (u32 (addr + i)) false ;;
        if pte =? 0 then panic "loaduvm: address should exist" else
        e <- rd32 pte ;;
        let pa := PTE_ADDR e in
        let n := if sz - i <? PGSIZE then sz - i else PGSIZE in
        r <- readi ip (u32 (offset + i)) n ;;
        modify (λ s, with_k_mem (store_bytes (k_mem s) (P2V pa) (snd r)) s) ;;;
        if negb (fst r =? n) then ret (-1) else
        loaduvm_loop fuel' pgdir addr ip offset sz (u32 (i + PGSIZE))
      else ret 0
  end.

Definition loaduvm (pgdir addr : Z) (ip : nat) (offset sz : Z) : K Z :=
  if negb (addr mod PGSIZE =? 0) then panic "loaduvm: addr must be page aligned" else
  loaduvm_loop (S (Z.to_nat (sz / PGSIZE + 1))) pgdir addr ip offset sz 0.

(** One program header: the new size, or [None] to give up. *)
Definition load_segment (ip : nat) (pgdir sz off : Z) : K (option Z) :=
  r <- readi ip (u32 off) PROGHDR_SIZE ;;
  if negb (fst r =? PROGHDR_SIZE) then ret None else
  let ph := proghdr_dec (snd r) in
  if negb (ph_type ph =? ELF_PROG_LOAD) then ret (Some sz) else
  if ph_memsz ph <? ph_filesz ph then ret None else
  if u32 (ph_vaddr ph + ph_memsz ph) <? ph_vaddr ph then ret None else
  sz <- allocuvm pgdir sz (u32 (ph_vaddr ph + ph_memsz ph)) ;;
  if sz =? 0 then ret None else
  if negb (ph_vaddr ph mod PGSIZE =? 0) then ret None else
  r <- loaduvm pgdir (ph_vaddr ph) ip (ph_off ph) (ph_filesz ph) ;;
  if r <? 0 then ret None else ret (Some sz).

Fixpoint load_segments (n : nat) (ip : nat) (pgdir sz off : Z) : K (option Z) :=
  match n with
  | O => ret (Some sz)
  | S n' =>
      r <- load_segment ip pgdir sz off ;;
      match r with
      | None => ret None
      | Some sz => load_segments n' ip pgdir sz (s32 (off + PROGHDR_SIZE))
      end
  end.

(** * Arguments *)

(** [sp = (sp - (strlen(arg) + 1)) & ~3]. *)
Definition push_sp (sp : Z) (arg : list Z) : Z :=
  Z.land (u32 (sp - (Z.of_nat (length arg) + 1))) (Z.lnot 3).

(** The argument strings, copied below [sp]; the result is the new [sp] and the
    addresses, or [None] to give up. *)
Fixpoint push_args (pgdir sp : Z) (argc : Z) (argv : list (list Z)) (addrs : list Z) : K (option (Z * list Z)) :=
  match argv with
  | [] => ret (Some (sp, addrs))
  | arg :: argv' =>
      if MAXARG <=? argc then ret None else
      let sp := push_sp sp arg in
      r <- copyout pgdir sp (arg ++ [0]) ;;
      if r <? 0 then ret None else push_args pgdir sp (argc + 1) argv' (addrs ++ [sp])
  end.

(** [ustack]: the return address, [argc], [argv] and the array [argv]. *)
Definition ustack (sp : Z) (addrs : list Z) : list Z :=
  let argc := Z.of_nat (length addrs) in
  [0xffffffff; argc; u32 (sp - (argc + 1) * 4)] ++ addrs ++ [0].

Definition words (ws : list Z) : list Z := mjoin (le_enc 4 <$> ws).

(** The last element of the path. *)
Fixpoint last_elem (path last : list Z) : list Z :=
  match path with
  | [] => last
  | c :: path' => last_elem path' (if c =? SLASH then path' else last)
  end.

(** * exec *)

(** The label [bad]. *)
Definition exec_bad (pgdir : Z) (ip : option nat) : K Z :=
  (if negb (pgdir =? 0) then freevm pgdir else ret tt) ;;;
  match ip with
  | Some i => iunlockput i ;;; end_op
  | None => ret tt
  end ;;;
  ret (-1).

(** The name, and the switch to the new image. *)
Definition exec_switch (L : image) (me : option nat) (entry : Z) (path : list Z) (pgdir sz sp : Z) : K Z :=
  set_proc me (set_name (last_elem path path)) ;;;
  cur <- proc_at me ;;
  let oldpgdir := p_pgdir cur in
  set_proc me (with_p_pgdir pgdir) ;;;
  set_proc me (with_p_sz sz) ;;;
  set_proc me (λ p, with_p_tf (with_tf_eip entry (p_tf p)) p) ;;;
  set_proc me (λ p, with_p_tf (with_tf_esp sp (p_tf p)) p) ;;;
  cur <- proc_at me ;;
  switchuvm (im_tsaddr L) (Some cur) ;;;
  freevm oldpgdir ;;;
  ret 0.

(** The second half of [exec]: the image is loaded, [sz] bytes long. *)
Definition exec_commit (L : image) (me : option nat) (entry : Z) (path : list Z) (argv : list (list Z)) (pgdir sz : Z) : K Z :=
  let sz := PGROUNDUP sz in
  sz <- allocuvm pgdir sz (u32 (sz + 2 * PGSIZE)) ;;
  if sz =? 0 then exec_bad pgdir None else
  clearpteu pgdir (u32 (sz - 2 * PGSIZE)) ;;;
  r <- push_args pgdir sz 0 argv [] ;;
  match r with
  | None => exec_bad pgdir None
  | Some (sp, addrs) =>
      let us := ustack sp addrs in
      let sp := u32 (sp - Z.of_nat (length us) * 4) in
      r <- copyout pgdir sp (words us) ;;
      if r <? 0 then exec_bad pgdir None else exec_switch L me entry path pgdir sz sp
  end.

Definition exec (L : image) (path : list Z) (argv : list (list Z)) : K Z :=
  me <- myproc ;;
  begin_op ;;;
  oip <- namei path ;;
  match oip with
  | None =>
      end_op ;;;
      cprint "exec: fail
" [] ;;;
      ret (-1)
  | Some ip =>
      ilock (Some ip) ;;;
      r <- readi ip 0 ELFHDR_SIZE ;;
      if negb (fst r =? ELFHDR_SIZE) then exec_bad 0 (Some ip) else
      let elf := elfhdr_dec (snd r) in
      if negb (eh_magic elf =? ELF_MAGIC) then exec_bad 0 (Some ip) else
      pgdir <- setupkvm ;;
      if pgdir =? 0 then exec_bad pgdir (Some ip) else
      osz <- load_segments (Z.to_nat (eh_phnum elf)) ip pgdir 0 (s32 (eh_phoff elf)) ;;
      match osz with
      | None => exec_bad pgdir (Some ip)
      | Some sz =>
          iunlockput ip ;;;
          end_op ;;;
          exec_commit L me (eh_entry elf) path argv pgdir sz
      end
  end.
