(* ===== verification/Execstack.v ===== *)
(** The second half of [exec]: the stack of a new program.

    [copyout] writes to the memory of a process that is not running, through its
    page table, and stops at the first page that the process may not access.
    [exec] uses it to put the arguments in the topmost page of the new program,
    above a page it has made inaccessible: either [main] finds its arguments as
    the calling convention says, or [exec] fails and nothing has happened. *)

From S2P Require Import Prelude State Spinlock CString Cprintf Mmu Kalloc Vm Uvm Uvcopy Sched Inode Proc Fork Scheduler Exec.
Import KLock.

(** * Writing to user memory *)

(** The process may access the page. *)
Definition user_ok (e : Z) : bool := negb (Z.land e PTE_U =? 0).

(** Only user pages are written. *)
Definition utouched (pgdir : Z) (m m' : mem) : Prop :=
  same_entries pgdir m m' ∧ ∀ x, ¬ is_user m pgdir (pg x) → m' x = m x.

(** The user bytes from [va] on are [bs], the others are the same. *)
Definition uwritten (pgdir va : Z) (bs : list Z) (m m' : mem) : Prop :=
  ∀ a, 0 ≤ a < KERNBASE → present (upte m pgdir (a / 4096)) = true →
    ubyte m' pgdir a = if (va <=? a) && (a <? va + Z.of_nat (length bs)) then
      u8 (default 0 (bs !! Z.to_nat (a - va))) else ubyte m pgdir a.

Lemma user_page a : 0 ≤ a < KERNBASE → 0 ≤ a / 4096 < NUSER.
Proof. unfold NUSER, KERNBASE. intros. zdiv. Qed.

Lemma same_entries_trans pgdir m1 m2 m3 : same_entries pgdir m1 m2 → same_entries pgdir m2 m3 → same_entries pgdir m1 m3.
Proof. intros [H1 H2] [H3 H4]. split; intros; [by rewrite H3, H1|by rewrite H4, H2]. Qed.

Lemma utouched_refl pgdir m : utouched pgdir m m.
Proof. done. Qed.

Lemma utouched_trans pgdir m1 m2 m3 : utouched pgdir m1 m2 → utouched pgdir m2 m3 → utouched pgdir m1 m3.
Proof.
  intros [E1 H1] [E2 H2]. split; [by eapply same_entries_trans|]. intros x Hx.
  rewrite H2; [by apply H1|]. destruct E1 as [Ed Ep]. destruct (same_owns _ _ pgdir Ed Ep) as [_ Eu]. by rewrite Eu.
Qed.

Lemma uwritten_app pgdir va bs1 bs2 m1 m2 m3 :
  same_entries pgdir m1 m2 → 
  uwritten pgdir va bs1 m1 m2 → uwritten pgdir (va + Z.of_nat (length bs1)) bs2 m2 m3 →
  uwritten pgdir va (bs1 ++ bs2) m1 m3.
Proof.
  intros Hs H1 H2 a Ha Hp. rewrite H2; [|done|by rewrite (same_entries_upte _ _ _ _ Hs) by (by apply user_page)].
  rewrite H1 by done. rewrite length_app.
  destruct (Z.leb_spec va a), (Z.leb_spec (va + Z.of_nat (length bs1)) a),
    (Z.ltb_spec a (va + Z.of_nat (length bs1))), (Z.ltb_spec a (va + Z.of_nat (length bs1) + Z.of_nat (length bs2))),
    (Z.ltb_spec a (va + Z.of_nat (length bs1 + length bs2))); try lia; try done; simpl.
  - rewrite lookup_app_r by lia. repeat f_equal. lia.
  - rewrite lookup_app_l by lia. done.
Qed.

(** What every write to user memory keeps. *)
Lemma utouched_keeps pgdir s L m' :
  uvm s pgdir L → kmem_inv s L → utouched pgdir (k_mem s) m' →
  let s' := with_k_mem m' s in uvm s' pgdir L ∧ kmem_inv s' L ∧ vframe pgdir s L s' L.
Proof.
  intros Hu Hk [Hs Hx] s'. split; [|split].
  - eapply uvm_same; [done|done|done|]. intros p Hp. by eapply owns_ok.
  - destruct Hk as (Hrep & Hnd & Hok). split; [|done]. eapply free_rep_frame; [|exact Hrep].
    intros p Hp. rewrite Forall_forall in Hok. destruct (Hok p Hp) as (Hal & _). unfold PGSIZE in Hal.
    rewrite <-(Z.add_0_r p). change 0 with (4 * 0). apply load32_page; [done|lia|]. intros x Hpx. apply Hx.
    rewrite Hpx. intros Hus. by destruct (uv_page Hu p Hus) as (_ & ? & _).
  - constructor; [by destruct s|done| |].
    + intros x Hn _. apply Hx. intros Hus. apply Hn. by right.
    + intros p. cbn [k_mem with_k_mem s']. by rewrite (same_entries_owns _ _ _ p Hs).
Qed.

(** A store in one user page. *)
Lemma ustore_ok pgdir s L v off bs :
  uvm s pgdir L → 0 ≤ v < NUSER → present (upte (k_mem s) pgdir v) = true →
  0 ≤ off → off + Z.of_nat (length bs) ≤ 4096 →
  let m' := store_bytes (k_mem s) (upa (k_mem s) pgdir v + off) bs in
  utouched pgdir (k_mem s) m' ∧ uwritten pgdir (4096 * v + off) bs (k_mem s) m'.
Proof.
  intros Hu Hv Hp Ho Hlen m'. pose proof (user_aligned _ _ _ _ Hu Hv Hp) as Hal.
  destruct (uv_page Hu (upa (k_mem s) pgdir v)) as (_ & _ & Hnm); [by exists v|].
  set (q := upa (k_mem s) pgdir v) in *.
  assert (Hoff : ∀ x, pg x ≠ q → m' x = k_mem s x).
  { intros x Hx. unfold m'. rewrite store_bytes_spec. case_bool; [|done]. destruct Hx. unfold pg. zdiv. }
  assert (Hse : same_entries pgdir (k_mem s) m').
  { eapply meta_same; [apply (uv_pt Hu)|]. intros x Hx. apply Hoff. congruence. }
  split; [split; [done|]|].
  { intros x Hx. apply Hoff. intros E. apply Hx. rewrite E. by exists v. }
  intros a Ha Hpa. pose proof (user_page a Ha) as Hva. unfold ubyte, upa.
  rewrite (same_entries_upte _ _ _ _ Hse) by done. fold (upa (k_mem s) pgdir (a / 4096)).
  destruct (decide (a / 4096 = v)) as [Ev|Hne].
  - assert (Ea : q + a mod 4096 = a + (q - 4096 * v)) by zdiv. rewrite Ev. fold q. unfold m'.
    rewrite store_bytes_spec, Ea. clear -Ea.
    replace (a + (q - 4096 * v) - (q + off)) with (a - (4096 * v + off)) by lia.
    replace (q + off <=? a + (q - 4096 * v)) with (4096 * v + off <=? a) by lia.
    by replace (a + (q - 4096 * v) <? q + off + Z.of_nat (length bs)) with
      (a <? 4096 * v + off + Z.of_nat (length bs)) by lia.
  - rewrite Hoff; [case_bool; [zdiv|done]|]. rewrite pg_offset by (by eapply user_aligned).
    intros E. apply Hne. by apply (uv_inj Hu).
Qed.

(** * [uva2ka] and [copyout] *)

Lemma present_table m pgdir v :
  present (upte m pgdir v) = true → present (pde_of m pgdir (PDX (4096 * v))) = true.
Proof. unfold upte, pte_of. by destruct (present (pde_of _ _ _)). Qed.

Lemma uva2ka_ok pgdir v s :
  0 ≤ v < NUSER → present (upte (k_mem s) pgdir v) = true →
  tab_of (k_mem s) pgdir (PDX (4096 * v)) + 4 * PTX (4096 * v) ≠ 0 →
  uva2ka pgdir (4096 * v) s = Done (if user_ok (upte (k_mem s) pgdir v) then upa (k_mem s) pgdir v else 0) s.
Proof.
  intros Hv Hp Hne. pose proof (present_table _ _ _ Hp) as Ht. unfold uva2ka.
  erewrite bind_done by (by apply walk_present). rewrite (proj2 (Z.eqb_neq _ _) Hne).
  unfold rd32, gets, bind. cbn [obind].
  assert (Ee : load32 (k_mem s) (tab_of (k_mem s) pgdir (PDX (4096 * v)) + 4 * PTX (4096 * v)) = upte (k_mem s) pgdir v).
  { unfold upte, pte_of. by rewrite Ht. }
  rewrite Ee. unfold present in Hp. apply negb_true_iff in Hp. rewrite Hp. unfold user_ok.
  by destruct (Z.land (upte (k_mem s) pgdir v) PTE_U =? 0).
Qed.

(** The entry of a mapped page is not at address 0. *)
Lemma entry_nonzero s pgdir L v :
  uvm s pgdir L → 0 ≤ v < NUSER → present (upte (k_mem s) pgdir v) = true →
  tab_of (k_mem s) pgdir (PDX (4096 * v)) + 4 * PTX (4096 * v) ≠ 0.
Proof.
  intros Hu Hv Hp. pose proof (NUSER_lt v). assert (Hva : is_u32 (4096 * v)) by (apply is_u32_page; lia).
  destruct (pt_tab (uv_pt Hu) (PDX (4096 * v))) as ((_ & _ & Hr & _) & _); [by apply PDX_range|by apply present_table|].
  pose proof (PTX_range _ Hva). unfold KERNBASE in Hr. lia.
Qed.

(** Every page of a range may be accessed. *)
Definition range_ok (m : mem) (pgdir va len : Z) : Prop :=
  ∀ a, va ≤ a < va + len → user_ok (upte m pgdir (a / 4096)) = true.

(** [copyout] to mapped pages: all is written, or a page was not accessible. *)
Record copied_out (pgdir va : Z) (bs : list Z) (r : Z) (m m' : mem) : Prop := mkCopiedOut {
  co_touched : utouched pgdir m m';
  co_case : (r = 0 ∧ range_ok m pgdir va (Z.of_nat (length bs)) ∧ uwritten pgdir va bs m m') ∨
    (r = -1 ∧ ∃ a, va ≤ a < va + Z.of_nat (length bs) ∧ user_ok (upte m pgdir (a / 4096)) = false);
}.

Lemma copied_out_next pgdir va b1 b2 r m1 m2 m3 :
  utouched pgdir m1 m2 → uwritten pgdir va b1 m1 m2 → range_ok m1 pgdir va (Z.of_nat (length b1)) →
  0 ≤ va → va + Z.of_nat (length (b1 ++ b2)) ≤ KERNBASE →
  copied_out pgdir (va + Z.of_nat (length b1)) b2 r m2 m3 → copied_out pgdir va (b1 ++ b2) r m1 m3.
Proof.
  intros T W R Hva Hend [T' C]. constructor; [by eapply utouched_trans|].
  assert (Hsame : ∀ a, va ≤ a < KERNBASE → upte m2 pgdir (a / 4096) = upte m1 pgdir (a / 4096)).
  { intros a Ha. apply same_entries_upte; [apply T|apply user_page; lia]. }
  rewrite length_app in *. destruct C as [(-> & R' & W')|(-> & a & Ha & Hb)]; [left|right].
  - split; [done|]. split; [|by eapply uwritten_app; [apply T| |]].
    intros a Ha. destruct (decide (a < va + Z.of_nat (length b1))); [apply R; lia|].
    rewrite <-Hsame by lia. apply R'. lia.
  - split; [done|]. exists a. rewrite <-Hsame by lia. split; [lia|done].
Qed.

Lemma copied_out_nil pgdir va va' r m m' : copied_out pgdir va [] r m m' → copied_out pgdir va' [] r m m'.
Proof.
  intros [T [(-> & _ & W)|(_ & a & Ha & _)]]; [|cbn [length] in Ha; lia]. constructor; [done|]. left.
  split; [done|]. split; [intros a; cbn [length]; lia|]. intros a Ha Hp. rewrite W by done. cbn [length].
  case_bool; case_bool; lia || done.
Qed.

Lemma copyout_loop_ok pgdir L n : n ≤ NUSER → ∀ fuel va bs s,
  uvm s pgdir L → kmem_inv s L → mapped_upto (k_mem s) pgdir n → 0 ≤ va → va + Z.of_nat (length bs) ≤ 4096 * n →
  (length bs < fuel)%nat →
  ∃ r m', copyout_loop fuel pgdir va bs s = Done r (with_k_mem m' s) ∧ copied_out pgdir va bs r (k_mem s) m'.
Proof.
  intros Hn fuel. induction fuel as [|fuel IH]; intros va bs s Hu Hk Hm Hva Hend Hf; [lia|]. cbn [copyout_loop].
  assert (HnK : 4096 * n ≤ KERNBASE) by (unfold NUSER, KERNBASE in *; change (2147483648 / 4096) with 524288 in Hn; lia).
  destruct (Z.ltb_spec 0 (Z.of_nat (length bs))) as [Hlt|Hge].
  2: { exists 0, (k_mem s). split; [by destruct s|]. destruct bs; [|cbn [length] in Hge; lia].
       constructor; [done|]. left. split; [done|]. split; [intros a; cbn [length]; lia|].
       intros a Ha Hp. case_bool; [cbn [length] in *; lia|done]. }
  rewrite PGROUNDDOWN_spec. replace (va - va mod 4096) with (4096 * (va / 4096)) by zdiv.
  assert (Hv : 0 ≤ va / 4096 < NUSER) by (apply user_page; lia).
  assert (Hp : present (upte (k_mem s) pgdir (va / 4096)) = true) by (rewrite Hm by done; zdiv).
  erewrite bind_done by (apply uva2ka_ok; [done|done|by eapply entry_nonzero]).
  destruct (user_ok (upte (k_mem s) pgdir (va / 4096))) eqn:Hus.
  2: { exists (-1), (k_mem s). split; [by destruct s|]. constructor; [done|]. right. split; [done|].
       exists va. split; [lia|done]. }
  destruct (uv_page Hu (upa (k_mem s) pgdir (va / 4096))) as ((_ & _ & Hr & _) & _); [by exists (va / 4096)|].
  rewrite (proj2 (Z.eqb_neq _ 0)) by (unfold KERNBASE in Hr; lia).
  replace (va - 4096 * (va / 4096)) with (va mod 4096) by zdiv. unfold PGSIZE.
  set (k := Z.to_nat (Z.min (4096 - va mod 4096) (Z.of_nat (length bs)))).
  assert (Hmod : 0 ≤ va mod 4096 < 4096) by zdiv.
  assert (Hlt1 : length (take k bs) = k) by (rewrite length_take; lia).
  destruct (ustore_ok pgdir s L (va / 4096) (va mod 4096) (take k bs)) as [T W]; [done|done|done|lia|lia|].
  replace (4096 * (va / 4096) + va mod 4096) with va in W by zdiv.
  destruct (utouched_keeps _ _ _ _ Hu Hk T) as (Hu1 & Hk1 & _).
  erewrite bind_done by done. set (s1 := with_k_mem _ s) in *.
  rewrite u32_small by (unfold is_u32, KERNBASE in *; zdiv).
  destruct (IH (4096 * (va / 4096) + 4096) (drop k bs) s1) as (r & m' & E & C); [done|done| |lia| |rewrite length_drop; lia|].
  { intros v Hvv. cbn [k_mem with_k_mem s1]. rewrite (same_entries_upte _ _ _ _ (proj1 T)) by done. by apply Hm. }
  { rewrite length_drop. zdiv. }
  exists r, m'. split; [by rewrite E|]. rewrite <-(take_drop k bs) at 1.
  eapply copied_out_next; [exact T|exact W| |done|rewrite take_drop; lia|].
  { intros a Ha. by replace (a / 4096) with (va / 4096) by zdiv. }
  destruct (decide (k = length bs)) as [Hall|Hpart].
  - rewrite drop_ge in * by lia. eapply copied_out_nil, C.
  - by replace (va + Z.of_nat (length (take k bs))) with (4096 * (va / 4096) + 4096) by zdiv.
Qed.

Lemma copyout_ok pgdir L n va bs s :
  n ≤ NUSER → uvm s pgdir L → kmem_inv s L → mapped_upto (k_mem s) pgdir n →
  0 ≤ va → va + Z.of_nat (length bs) ≤ 4096 * n →
  ∃ r m', copyout pgdir va bs s = Done r (with_k_mem m' s) ∧ copied_out pgdir va bs r (k_mem s) m'.
Proof. intros. apply (copyout_loop_ok pgdir L n); try done. lia. Qed.

(** * The arguments *)

(** The user memory from [a] on holds the bytes [bs]. *)
Definition ubytes_at (m : mem) (pgdir a : Z) (bs : list Z) : Prop :=
  ∀ i b, bs !! i = Some b → ubyte m pgdir (a + Z.of_nat i) = b.

(** The top of a program of [n] pages: a page for the stack, below it one that
    the program may not access. *)
Record guarded (m : mem) (pgdir n : Z) : Prop := mkGuarded {
  gd_pages : 2 ≤ n ≤ NUSER;
  gd_mapped : mapped_upto m pgdir n;
  gd_stack : user_ok (upte m pgdir (n - 1)) = true;
  gd_guard : user_ok (upte m pgdir (n - 2)) = false;
}.

(** What the strings take on the stack. *)
Definition arg_len (arg : list Z) : Z := 4 * ((Z.of_nat (length arg) + 4) / 4).
Definition args_len (argv : list (list Z)) : Z := foldr (λ arg n, arg_len arg + n) 0 argv.

(** The strings [argv] are at [addrs], above [sp]. *)
Definition strings_at (m : mem) (pgdir n sp : Z) (addrs : list Z) (argv : list (list Z)) : Prop :=
  Forall2 (λ a arg, sp ≤ a ∧ a + Z.of_nat (length arg) < 4096 * n ∧ ubytes_at m pgdir a (arg ++ [0])) addrs argv.

Lemma guarded_same m m' pgdir n : same_entries pgdir m m' → guarded m pgdir n → guarded m' pgdir n.
Proof.
  intros T [H1 H2 H3 H4]. constructor; [done| | |].
  - intros v Hv. rewrite (same_entries_upte _ _ _ _ T) by done. by apply H2.
  - by rewrite (same_entries_upte _ _ _ _ T) by lia.
  - by rewrite (same_entries_upte _ _ _ _ T) by lia.
Qed.

Lemma arg_len_bound arg : Z.of_nat (length arg) + 1 ≤ arg_len arg ≤ Z.of_nat (length arg) + 4 ∧ arg_len arg mod 4 = 0.
Proof. unfold arg_len. zdiv. Qed.

Lemma args_len_pos argv : 0 ≤ args_len argv ∧ args_len argv mod 4 = 0.
Proof.
  induction argv as [|arg argv IH]; [done|]. cbn [args_len foldr]. fold (args_len argv).
  pose proof (arg_len_bound arg). zdiv.
Qed.

Lemma push_sp_ok sp arg : is_u32 sp → sp mod 4 = 0 → arg_len arg ≤ sp → push_sp sp arg = sp - arg_len arg.
Proof.
  intros Hsp Hal Hle. pose proof (arg_len_bound arg) as [Hb _]. unfold push_sp.
  rewrite u32_small by (unfold is_u32 in *; lia). unfold arg_len in *.
  change 3 with (Z.ones 2). rewrite <-Z.ldiff_land, Z.ldiff_ones_r by lia.
  rewrite Z.shiftl_mul_pow2, Z.shiftr_div_pow2 by lia. change (2 ^ 2) with 4. zdiv.
Qed.

(** Mapped addresses. *)
Lemma guarded_present m pgdir n a : guarded m pgdir n → 0 ≤ a < 4096 * n → present (upte m pgdir (a / 4096)) = true ∧ 0 ≤ a < KERNBASE.
Proof.
  intros [H1 H2 _ _] Ha. assert (Hk : a < KERNBASE) by (unfold NUSER, KERNBASE in *; change (2147483648 / 4096) with 524288 in H1; lia).
  split; [|lia]. rewrite H2 by (apply user_page; lia). zdiv.
Qed.

Lemma uwritten_here m m' pgdir n va bs :
  guarded m pgdir n → uwritten pgdir va bs m m' → Forall is_u8 bs →
  0 ≤ va → va + Z.of_nat (length bs) ≤ 4096 * n → ubytes_at m' pgdir va bs.
Proof.
  intros G W Hb Hva Hend i b Hi. pose proof (lookup_lt_Some _ _ _ Hi).
  destruct (guarded_present m pgdir n (va + Z.of_nat i) G) as [Hp Hr]; [lia|].
  rewrite W by done. replace (_ && _) with true by lia. replace (Z.to_nat (va + Z.of_nat i - va)) with i by lia.
  rewrite Hi. apply u8_small. rewrite Forall_lookup in Hb. eauto.
Qed.

(** Writing below the strings. *)
Lemma uwritten_strings m m' pgdir n va bs sp addrs argv :
  guarded m pgdir n → uwritten pgdir va bs m m' → 0 ≤ va → va + Z.of_nat (length bs) ≤ sp →
  strings_at m pgdir n sp addrs argv → strings_at m' pgdir n va addrs argv.
Proof.
  intros G W Hva Hend Hs. eapply Forall2_impl; [exact Hs|]. intros a arg (H1 & H2 & H3).
  split; [lia|]. split; [done|]. intros i b Hi. pose proof (lookup_lt_Some _ _ _ Hi) as Hl. rewrite length_app in Hl. cbn [length] in Hl.
  destruct (guarded_present m pgdir n (a + Z.of_nat i) G) as [Hp Hr]; [lia|].
  rewrite W by done. replace (_ && _) with false by lia. by apply H3.
Qed.

(** Pushing [bs] below [sp]: it fits above the guard page, or [copyout] fails. *)
Lemma push_fits pgdir L n s sp va bs :
  uvm s pgdir L → kmem_inv s L → guarded (k_mem s) pgdir n → 4096 * (n - 1) ≤ sp ≤ 4096 * n →
  sp mod 4 = 0 → va mod 4 = 0 → 0 ≤ va → sp - 4 < va + Z.of_nat (length bs) ≤ sp → va < sp →
  ∃ r m', copyout pgdir va bs s = Done r (with_k_mem m' s) ∧ utouched pgdir (k_mem s) m' ∧
    ((r = 0 ∧ 4096 * (n - 1) ≤ va ∧ uwritten pgdir va bs (k_mem s) m') ∨ (r = -1 ∧ va < 4096 * (n - 1))).
Proof.
  intros Hu Hk G Hsp Hs4 Hv4 Hva Hend Hlt. pose proof G as [G1 G2 G3 G4].
  destruct (copyout_ok pgdir L n va bs s) as (r & m' & E & [T C]); [lia|done|done|done|done|lia|].
  exists r, m'. split; [done|]. split; [done|]. destruct C as [(-> & R & W)|(-> & a & Ha & Hb)]; [left|right].
  - split; [done|]. split; [|done]. destruct (decide (4096 * (n - 1) ≤ va)); [done|].
    specialize (R (4096 * (n - 1) - 4)). replace ((4096 * (n - 1) - 4) / 4096) with (n - 2) in R by zdiv.
    rewrite G4 in R. assert (va ≤ 4096 * (n - 1) - 4) by zdiv. discriminate R. lia.
  - split; [done|]. destruct (decide (va < 4096 * (n - 1))); [done|].
    replace (a / 4096) with (n - 1) in Hb by zdiv. congruence.
Qed.

(** The bytes below the stack. *)
Definition below_kept (m m' : mem) (pgdir n : Z) : Prop :=
  ∀ a, 0 ≤ a < 4096 * (n - 1) → ubyte m' pgdir a = ubyte m pgdir a.

Lemma uwritten_below m m' pgdir n va bs :
  guarded m pgdir n → uwritten pgdir va bs m m' → 4096 * (n - 1) ≤ va → below_kept m m' pgdir n.
Proof.
  intros G W Hva a Ha. destruct (guarded_present m pgdir n a G) as [Hp Hr]; [lia|].
  rewrite W by done. by replace (_ && _) with false by lia.
Qed.

(** The strings are all pushed when there are not too many and they fit. *)
Definition args_fit (n sp argc : Z) (argv : list (list Z)) : Prop :=
  argc + Z.of_nat (length argv) ≤ MAXARG ∧ 4096 * (n - 1) ≤ sp - args_len argv.

Lemma push_args_ok pgdir L n : ∀ argv s sp argc addrs done,
  uvm s pgdir L → kmem_inv s L → guarded (k_mem s) pgdir n → 4096 * (n - 1) ≤ sp ≤ 4096 * n → sp mod 4 = 0 →
  0 ≤ argc ≤ MAXARG → args_len argv ≤ sp → Forall (Forall is_u8) argv → strings_at (k_mem s) pgdir n sp addrs done →
  ∃ o m', push_args pgdir sp argc argv addrs s = Done o (with_k_mem m' s) ∧ utouched pgdir (k_mem s) m' ∧
    ((args_fit n sp argc argv ∧ ∃ addrs', o = Some (sp - args_len argv, addrs ++ addrs') ∧
        strings_at m' pgdir n (sp - args_len argv) (addrs ++ addrs') (done ++ argv) ∧ below_kept (k_mem s) m' pgdir n) ∨
     (¬ args_fit n sp argc argv ∧ o = None)).
Proof.
  induction argv as [|arg argv IH]; intros s sp argc addrs dn Hu Hk G Hsp Hal Hc Hlen Hb Hs; cbn [push_args].
  { exists (Some (sp, addrs)), (k_mem s). split; [by destruct s|]. split; [done|]. left. unfold args_fit. cbn [args_len foldr length].
    split; [lia|]. exists []. rewrite !app_nil_r, Z.sub_0_r. done. }
  cbn [args_len foldr] in *. fold (args_len argv) in *. pose proof (args_len_pos argv) as [Hpos _].
  pose proof (arg_len_bound arg) as [Hab Hal4]. unfold args_fit. cbn [args_len foldr length]. fold (args_len argv).
  destruct (Z.leb_spec MAXARG argc) as [Hmax|Hmax].
  { exists None, (k_mem s). split; [by destruct s|]. split; [done|]. right. split; [lia|done]. }
  pose proof G as [G1 _ _ _]. assert (Hu32 : is_u32 sp).
  { unfold is_u32, NUSER, KERNBASE in *. change (2147483648 / 4096) with 524288 in G1. lia. }
  rewrite push_sp_ok by (done || lia). apply Forall_cons in Hb as [Hb1 Hb2].
  destruct (push_fits pgdir L n s sp (sp - arg_len arg) (arg ++ [0])) as (r & m1 & E & T & C);
    [done|done|done|lia|done|zdiv|lia|rewrite length_app; cbn [length]; lia|lia|].
  erewrite bind_done by exact E. destruct C as [(-> & Hin & W)|(-> & Hout)].
  2: { exists None, m1. split; [done|]. split; [done|]. right. split; [lia|done]. }
  cbn [Z.ltb Z.compare]. destruct (utouched_keeps _ _ _ _ Hu Hk T) as (Hu1 & Hk1 & _).
  set (s1 := with_k_mem m1 s) in *. set (sp1 := sp - arg_len arg) in *.
  assert (Hb' : Forall is_u8 (arg ++ [0])) by (apply Forall_app_2; [done|]; apply Forall_singleton; unfold is_u8; lia).
  destruct (IH s1 sp1 (argc + 1) (addrs ++ [sp1]) (dn ++ [arg])) as (o & m' & E' & T' & C');
    [done|done|by eapply guarded_same; [apply T|]|lia|unfold sp1; zdiv|lia|lia|done| |].
  { apply Forall2_app; [eapply uwritten_strings; [done|exact W|lia| |exact Hs]|].
    - rewrite length_app. cbn [length]. lia.
    - apply Forall2_cons. split; [|done]. split; [lia|]. split; [lia|].
      eapply uwritten_here; [exact G|exact W|done|lia|]. rewrite length_app. cbn [length]. lia. }
  exists o, m'. split; [done|]. split; [by eapply utouched_trans|].
  unfold args_fit in C'. replace (sp1 - args_len argv) with (sp - (arg_len arg + args_len argv)) in C' by lia.
  destruct C' as [((F1 & F2) & addrs' & -> & S' & B')|[F ->]]; [left|right; split; [lia|done]].
  split; [lia|]. exists (sp1 :: addrs'). rewrite <-!app_assoc in *. split; [done|]. split; [done|].
  intros a Ha. rewrite B' by done. eapply uwritten_below; [exact G|exact W|lia|done].
Qed.

(** ** What [main] finds *)

(** The 32-bit word at a user address. *)
Definition uword (m : mem) (pgdir a : Z) : Z := le_dec ((λ i, ubyte m pgdir (a + i)) <$> seqZ 0 4).

(** The stack at the entry of the program, between [sp] and [top]: a return address
    that is not one, [argc] and [argv], which is an array of [argc] pointers to the
    strings and a null pointer. *)
Record main_args (m : mem) (pgdir sp top : Z) (argv : list (list Z)) : Prop := mkMainArgs {
  ma_room : sp + 4 * (4 + Z.of_nat (length argv)) ≤ top;
  ma_return : uword m pgdir sp = 0xffffffff;
  ma_argc : uword m pgdir (sp + 4) = Z.of_nat (length argv);
  ma_argv : uword m pgdir (sp + 8) = sp + 12;
  ma_strings : ∀ k arg, argv !! k = Some arg →
    let a := uword m pgdir (sp + 12 + 4 * Z.of_nat k) in
    sp ≤ a ∧ a + Z.of_nat (length arg) < top ∧ ubytes_at m pgdir a (arg ++ [0]);
  ma_end : uword m pgdir (sp + 12 + 4 * Z.of_nat (length argv)) = 0;
}.

Lemma uword_ext m m' pgdir a :
  (∀ i, a ≤ i < a + 4 → ubyte m' pgdir i = ubyte m pgdir i) → uword m' pgdir a = uword m pgdir a.
Proof.
  intros H. unfold uword. f_equal. apply list_fmap_ext. intros i x Hx.
  apply list_elem_of_lookup_2, elem_of_seqZ in Hx. apply H. lia.
Qed.

Lemma main_args_ext m m' pgdir sp top argv :
  (∀ a, sp ≤ a < top → ubyte m' pgdir a = ubyte m pgdir a) → main_args m pgdir sp top argv → main_args m' pgdir sp top argv.
Proof.
  intros H [H1 H2 H3 H4 H5 H6]. assert (Hw : ∀ a, sp ≤ a → a + 4 ≤ top → uword m' pgdir a = uword m pgdir a).
  { intros a Ha Hb. apply uword_ext. intros i Hi. apply H. lia. }
  constructor; [done|rewrite Hw by lia; done|rewrite Hw by lia; done|rewrite Hw by lia; done| |rewrite Hw by lia; done].
  intros k arg Hk. pose proof (lookup_lt_Some _ _ _ Hk). destruct (H5 k arg Hk) as (A1 & A2 & A3).
  cbn zeta. rewrite Hw by lia. split; [done|]. split; [done|]. intros i b Hi. rewrite <-(A3 i b Hi). apply H.
  apply lookup_lt_Some in Hi. rewrite length_app in Hi. cbn [length] in Hi. lia.
Qed.

Definition stack_need (argv : list (list Z)) : Z := args_len argv + 4 * (4 + Z.of_nat (length argv)).

(** The arguments that [exec] accepts. *)
Definition args_ok (argv : list (list Z)) : Prop := Z.of_nat (length argv) ≤ MAXARG ∧ stack_need argv ≤ 4096.

Lemma words_enc ws : words ws = ws ≫= le_enc 4.
Proof. induction ws as [|w ws IH]; [done|]. by rewrite bind_cons, <-IH. Qed.

Lemma length_words ws : length (words ws) = (4 * length ws)%nat.
Proof. rewrite words_enc. apply length_enc4. Qed.

Lemma uword_bytes m pgdir a ws k w :
  ubytes_at m pgdir a (words ws) → ws !! k = Some w → uword m pgdir (a + 4 * Z.of_nat k) = u32 w.
Proof.
  intros H Hk. rewrite words_enc in H. unfold uword. rewrite <-le_dec_enc4. f_equal.
  rewrite <-(slice_enc4 ws k w Hk). apply list_eq_same_length with 4%nat;
    [rewrite (slice_enc4 ws k w Hk); apply length_le_enc|done|].
  intros i x y Hi Hx Hy. rewrite list_lookup_fmap, lookup_seqZ_lt in Hx by lia. injection Hx as <-.
  unfold slice in Hy. apply lookup_take_Some in Hy as [Hy _]. rewrite lookup_drop in Hy.
  rewrite <-(H _ _ Hy). f_equal. lia.
Qed.

Lemma ustack_at sp addrs :
  ustack sp addrs !! 0%nat = Some 0xffffffff ∧ ustack sp addrs !! 1%nat = Some (Z.of_nat (length addrs)) ∧
  ustack sp addrs !! 2%nat = Some (u32 (sp - (Z.of_nat (length addrs) + 1) * 4)) ∧
  (∀ k a, addrs !! k = Some a → ustack sp addrs !! (3 + k)%nat = Some a) ∧
  ustack sp addrs !! (3 + length addrs)%nat = Some 0 ∧ length (ustack sp addrs) = (4 + length addrs)%nat.
Proof.
  split; [done|]. split; [done|]. split; [done|]. unfold ustack. cbn [app]. split; [|split].
  - intros k a Ha. change ((addrs ++ [0]) !! k = Some a). by apply lookup_app_l_Some.
  - change ((addrs ++ [0]) !! length addrs = Some 0). rewrite lookup_app_r by lia. by rewrite Nat.sub_diag.
  - cbn [length]. rewrite length_app. cbn [length]. lia.
Qed.

(** The array of pointers and the three words below it. *)
Lemma main_args_ok m pgdir n sp sp0 addrs argv :
  n ≤ NUSER → 0 ≤ sp → sp = sp0 - 4 * (4 + Z.of_nat (length argv)) → sp0 ≤ 4096 * n →
  ubytes_at m pgdir sp (words (ustack sp0 addrs)) → strings_at m pgdir n sp addrs argv →
  Z.of_nat (length argv) ≤ MAXARG → main_args m pgdir sp (4096 * n) argv.
Proof.
  intros Hn Hsp Esp Htop Hw Hs Hmax. pose proof (Forall2_length _ _ _ Hs) as Hlen.
  assert (HK : 4096 * n ≤ 2147483648) by (unfold NUSER, KERNBASE in *; change (2147483648 / 4096) with 524288 in Hn; lia).
  unfold MAXARG in Hmax. destruct (ustack_at sp0 addrs) as (U0 & U1 & U2 & U3 & U4 & _). rewrite Hlen in *.
  assert (Hav : uword m pgdir (sp + 8) = sp + 12).
  { replace (sp + 8) with (sp + 4 * Z.of_nat 2) by lia. rewrite (uword_bytes _ _ _ _ 2 _ Hw U2). rewrite !u32_small; unfold is_u32; rewrite ?u32_small; unfold is_u32; lia. }
  constructor; [lia| | |done| |].
  - pose proof (uword_bytes _ _ _ _ 0 _ Hw U0) as E. by rewrite Z.add_0_r in E.
  - replace (sp + 4) with (sp + 4 * Z.of_nat 1) by lia. rewrite (uword_bytes _ _ _ _ 1 _ Hw U1). apply u32_small. unfold is_u32. lia.
  - intros k arg Hk. destruct (Forall2_lookup_r _ _ _ _ _ Hs Hk) as (a & Ha & R1 & R2 & Hb).
    replace (sp + 12 + 4 * Z.of_nat k) with (sp + 4 * Z.of_nat (3 + k)) by lia.
    rewrite (uword_bytes _ _ _ _ (3 + k) _ Hw (U3 k a Ha)). rewrite u32_small; [done|]. unfold is_u32. lia.
  - replace (sp + 12 + 4 * Z.of_nat (length argv)) with (sp + 4 * Z.of_nat (3 + length argv)) by lia.
    by rewrite (uword_bytes _ _ _ _ (3 + length argv) _ Hw U4).
Qed.

(** Pushing the strings and then [ustack], as [exec] does. *)
Definition stack_built (pgdir n : Z) (argv : list (list Z)) (s : kernel) (o : option (Z * list Z)) (m1 : mem) : Prop :=
  match o with
  | None => ¬ args_ok argv ∧ utouched pgdir (k_mem s) m1
  | Some (sp0, addrs) => ∃ r m2,
      let us := ustack sp0 addrs in
      let sp := u32 (sp0 - Z.of_nat (length us) * 4) in
      copyout pgdir sp (words us) (with_k_mem m1 s) = Done r (with_k_mem m2 s) ∧ utouched pgdir (k_mem s) m2 ∧
      ((r = 0 ∧ args_ok argv ∧ sp = 4096 * n - stack_need argv ∧ main_args m2 pgdir sp (4096 * n) argv ∧
          below_kept (k_mem s) m2 pgdir n) ∨
       (r = -1 ∧ ¬ args_ok argv))
  end.

Lemma stack_ok pgdir L n argv s :
  uvm s pgdir L → kmem_inv s L → guarded (k_mem s) pgdir n → Forall (Forall is_u8) argv → stack_need argv ≤ 4096 * n →
  ∃ o m1, push_args pgdir (4096 * n) 0 argv [] s = Done o (with_k_mem m1 s) ∧ stack_built pgdir n argv s o m1.
Proof.
  intros Hu Hk G Hb Hneed. pose proof G as [G1 _ _ _]. pose proof (args_len_pos argv) as [Hpos Hal]. unfold stack_need in Hneed.
  assert (HK : 4096 * n ≤ 2147483648) by (unfold NUSER, KERNBASE in *; change (2147483648 / 4096) with 524288 in G1; lia).
  destruct (push_args_ok pgdir L n argv s (4096 * n) 0 [] []) as (o & m1 & E & T & C);
    [done|done|done|lia|zdiv|unfold MAXARG; lia|lia|done|by apply Forall2_nil|].
  exists o, m1. split; [done|]. unfold stack_built, args_ok, stack_need, args_fit in *.
  destruct C as [((F1 & F2) & addrs & -> & S & B)|[F ->]]; [|split; [lia|done]]. cbn [app] in *.
  pose proof (Forall2_length _ _ _ S) as Hlen. destruct (ustack_at (4096 * n - args_len argv) addrs) as (_ & _ & _ & _ & _ & Hul).
  set (us := ustack _ addrs) in *. cbn zeta. rewrite Hul, Hlen.
  rewrite u32_small by (unfold is_u32; lia). set (sp := 4096 * n - args_len argv - _).
  destruct (utouched_keeps _ _ _ _ Hu Hk T) as (Hu1 & Hk1 & _).
  assert (G' : guarded m1 pgdir n) by (by eapply guarded_same; [apply T|]).
  destruct (push_fits pgdir L n (with_k_mem m1 s) (4096 * n - args_len argv) sp (words us)) as (r & m2 & E2 & T2 & C2);
    [done|done|done|lia|zdiv|unfold sp; zdiv|lia|rewrite length_words; lia|lia|].
  exists r, m2. split; [done|]. split; [by eapply utouched_trans|]. destruct C2 as [(-> & Hin & W)|(-> & Hout)]; [left|right; split; [done|lia]].
  split; [done|]. split; [lia|]. split; [lia|]. split.
  - eapply (main_args_ok _ _ n _ (4096 * n - args_len argv)); [lia|lia|lia|lia| | |done].
    + eapply uwritten_here; [exact G'|exact W|rewrite words_enc; apply enc4_bytes|lia|rewrite length_words; fold us; lia].
    + eapply uwritten_strings; [exact G'|exact W|lia| |exact S]. rewrite length_words. lia.
  - intros a Ha. rewrite (uwritten_below _ _ _ _ _ _ G' W) by lia. by apply B.
Qed.

(** * The guard page *)

Lemma u32_bit x i : 0 ≤ i → Z.testbit (u32 x) i = (i <? 32) && Z.testbit x i.
Proof.
  intros Hi. unfold u32. change 4294967296 with (2 ^ 32). destruct (Z.ltb_spec i 32).
  - by rewrite Z.mod_pow2_bits_low by lia.
  - by rewrite Z.mod_pow2_bits_high by lia.
Qed.

Lemma land_bit e k : 0 ≤ k → (Z.land e (2 ^ k) =? 0) = negb (Z.testbit e k).
Proof.
  intros Hk. destruct (Z.testbit e k) eqn:Eb; simpl.
  - apply Z.eqb_neq. intros E. assert (Hb : Z.testbit (Z.land e (2 ^ k)) k = true); [|by rewrite E, Z.bits_0 in Hb].
    by rewrite Z.land_spec, Eb, Z.pow2_bits_true.
  - apply Z.eqb_eq, Z.bits_inj'. intros i Hi. rewrite Z.land_spec, Z.bits_0, Z.pow2_bits_eqb by done.
    destruct (Z.eqb_spec k i) as [<-|]; [by rewrite Eb|apply andb_false_r].
Qed.

(** Clearing [PTE_U] changes neither the page nor whether it is present. *)
Lemma clear_user e :
  let e' := u32 (Z.land e (Z.lnot PTE_U)) in
  present e' = present e ∧ PTE_ADDR e' = PTE_ADDR e ∧ user_ok e' = false.
Proof.
  intros e'. assert (Hb : ∀ i, 0 ≤ i → Z.testbit e' i = (i <? 32) && (Z.testbit e i && negb (i =? 2))).
  { intros i Hi. unfold e'. rewrite u32_bit, Z.land_spec, Z.lnot_spec by done.
    change PTE_U with (2 ^ 2). rewrite Z.pow2_bits_eqb by done. by rewrite Z.eqb_sym. }
  unfold present, user_ok, PTE_ADDR. change PTE_P with (2 ^ 0). change PTE_U with (2 ^ 2).
  rewrite !land_bit, !negb_involutive, !Hb by lia. split; [|split].
  - simpl. apply andb_true_r.
  - apply Z.bits_inj'. intros i Hi. change 0xFFF with (Z.ones 12).
    rewrite !Z.land_spec, !u32_bit, Hb, Z.lnot_spec, Z.testbit_ones_nonneg by lia.
    destruct (Z.eqb_spec i 2) as [->|]; [by rewrite !andb_false_r|]. by destruct (i <? 32), (Z.testbit e i).
  - simpl. apply andb_false_r.
Qed.

(** An entry of a user page rewritten with one for the same page. *)
Lemma rewrite_entry pgdir s L v e :
  uvm s pgdir L → kmem_inv s L → 0 ≤ v < NUSER → present (upte (k_mem s) pgdir v) = true →
  present (u32 e) = true → PTE_ADDR (u32 e) = PTE_ADDR (upte (k_mem s) pgdir v) →
  let m' := store32 (k_mem s) (tab_of (k_mem s) pgdir (PDX (4096 * v)) + 4 * PTX (4096 * v)) e in
  uvm (with_k_mem m' s) pgdir L ∧ kmem_inv (with_k_mem m' s) L ∧ vframe pgdir s L (with_k_mem m' s) L ∧
  (∀ w, 0 ≤ w < NUSER → upte m' pgdir w = if w =? v then u32 e else upte (k_mem s) pgdir w) ∧
  ∀ x, ¬ is_meta (k_mem s) pgdir (pg x) → pg x ∉ L → m' x = k_mem s x.
Proof.
  intros Hu Hk Hv Hp He Ea m'. pose proof (NUSER_lt v). assert (Hva : is_u32 (4096 * v)) by (apply is_u32_page; lia).
  destruct (set_pte pgdir (4096 * v) e s L Hva (uv_pt Hu) Hk (present_table _ _ _ Hp)) as (Hpt & Hk' & G & Hent).
  fold m' in Hpt, Hk', G, Hent. set (s' := with_k_mem m' s) in *. cbn [k_mem with_k_mem s'] in Hent.
  assert (Hup : ∀ w, 0 ≤ w < NUSER → upte m' pgdir w = if w =? v then u32 e else upte (k_mem s) pgdir w).
  { intros w Hw. unfold upte at 1. pose proof (NUSER_lt w). rewrite Hent by (apply is_u32_page; lia).
    by replace (4096 * w / 4096 =? 4096 * v / 4096) with (w =? v) by zdiv. }
  assert (Hpr : ∀ w, 0 ≤ w < NUSER → present (upte m' pgdir w) = present (upte (k_mem s) pgdir w) ∧
    upa m' pgdir w = upa (k_mem s) pgdir w).
  { intros w Hw. unfold upa. rewrite Hup by done. destruct (Z.eqb_spec w v) as [->|]; [|done]. by rewrite He, Hp, Ea. }
  assert (Huser : ∀ p, is_user m' pgdir p ↔ is_user (k_mem s) pgdir p).
  { intros p. split; intros (w & Hw & H1 & H2); destruct (Hpr w Hw) as [E1 E2]; exists w; [rewrite E1, E2 in *|rewrite E1, E2]; done. }
  assert (Hmeta : ∀ p, is_meta m' pgdir p ↔ is_meta (k_mem s) pgdir p).
  { intros p. pose proof (grow_pages _ _ _ _ _ p G) as Hg. cbn [k_mem with_k_mem s'] in Hg.
    pose proof (λ H, proj2 (is_meta_ok _ _ _ p (uv_pt Hu) H)). pose proof (λ H, proj2 (is_meta_ok _ _ _ p Hpt H)). tauto. }
  assert (Hmem : ∀ x, ¬ is_meta (k_mem s) pgdir (pg x) → pg x ∉ L → m' x = k_mem s x).
  { intros x H1 H2. exact (grow_mem _ _ _ _ _ x G Hpt H1 H2). }
  split; [|split; [done|split; [|done]]].
  - constructor; [done| |].
    + intros p Hp'. apply Huser in Hp'. destruct (uv_page Hu p Hp') as (H1 & H2 & H3). split; [done|]. split; [done|].
      cbn [k_mem with_k_mem s']. by rewrite Hmeta.
    + intros w w' Hw Hw'. cbn [k_mem with_k_mem s']. destruct (Hpr w Hw) as [-> ->], (Hpr w' Hw') as [-> ->].
      by apply (uv_inj Hu).
  - constructor; [by destruct s|done| |].
    + intros x H1 H2. apply Hmem; [|done]. intros Hm. apply H1. by left.
    + intros p. cbn [k_mem with_k_mem s']. unfold owns. by rewrite Hmeta, Huser.
Qed.

(** The page [v] becomes inaccessible; no other entry and no user byte changes. *)
Record user_cleared (pgdir : Z) (s : kernel) (L : list Z) (v : Z) (m' : mem) : Prop := mkUserCleared {
  uc_uvm : uvm (with_k_mem m' s) pgdir L;
  uc_inv : kmem_inv (with_k_mem m' s) L;
  uc_frame : vframe pgdir s L (with_k_mem m' s) L;
  uc_page : user_ok (upte m' pgdir v) = false;
  uc_present : ∀ w, 0 ≤ w < NUSER → present (upte m' pgdir w) = present (upte (k_mem s) pgdir w);
  uc_other : ∀ w, 0 ≤ w < NUSER → w ≠ v → upte m' pgdir w = upte (k_mem s) pgdir w;
  uc_byte : ∀ a, 0 ≤ a < KERNBASE → present (upte (k_mem s) pgdir (a / 4096)) = true →
    ubyte m' pgdir a = ubyte (k_mem s) pgdir a;
}.

Lemma clearpteu_ok pgdir s L v :
  uvm s pgdir L → kmem_inv s L → 0 ≤ v < NUSER → present (upte (k_mem s) pgdir v) = true →
  ∃ m', clearpteu pgdir (4096 * v) s = Done tt (with_k_mem m' s) ∧ user_cleared pgdir s L v m'.
Proof.
  intros Hu Hk Hv Hp. pose proof (present_table _ _ _ Hp) as Ht. unfold clearpteu.
  erewrite bind_done by (by apply walk_present). rewrite (proj2 (Z.eqb_neq _ 0)) by (by eapply entry_nonzero).
  unfold rd32, gets, bind, wr32, modify. cbn [obind].
  assert (Ee : load32 (k_mem s) (tab_of (k_mem s) pgdir (PDX (4096 * v)) + 4 * PTX (4096 * v)) = upte (k_mem s) pgdir v).
  { unfold upte, pte_of. by rewrite Ht. }
  rewrite Ee. destruct (clear_user (upte (k_mem s) pgdir v)) as (C1 & C2 & C3).
  destruct (rewrite_entry pgdir s L v (Z.land (upte (k_mem s) pgdir v) (Z.lnot PTE_U))) as (R1 & R2 & R3 & R4 & R5);
    [done|done|done|done|by rewrite C1|done|].
  eexists. split; [done|]. constructor; [done|done|done| | | |].
  - rewrite R4, Z.eqb_refl by done. done.
  - intros w Hw. rewrite R4 by done. destruct (Z.eqb_spec w v) as [->|]; [by rewrite C1|done].
  - intros w Hw Hne. rewrite R4 by done. by rewrite (proj2 (Z.eqb_neq _ _)).
  - intros a Ha Hpa. pose proof (user_page a Ha) as Hav. unfold ubyte.
    assert (Eu : upa (store32 (k_mem s) (tab_of (k_mem s) pgdir (PDX (4096 * v)) + 4 * PTX (4096 * v))
      (Z.land (upte (k_mem s) pgdir v) (Z.lnot PTE_U))) pgdir (a / 4096) = upa (k_mem s) pgdir (a / 4096)).
    { unfold upa. rewrite R4 by done. destruct (Z.eqb_spec (a / 4096) v) as [->|]; [by rewrite C2|done]. }
    rewrite Eu. destruct (uv_page Hu (upa (k_mem s) pgdir (a / 4096))) as ((Hal & _) & HL & Hm); [by exists (a / 4096)|].
    apply R5; rewrite pg_offset by done; done.
Qed.

(** * The second half of [exec] *)

(** A process [cur], in the slot [me], has loaded a program of [sz] bytes in the
    space [d]; [L] are the free pages. *)
Record exec_ready (s : kernel) (L : list Z) (me : nat) (cur : proc) (d sz : Z) : Prop := mkExecReady {
  xr_kok : kok s;
  xr_proc : k_ptable s !! me = Some cur;
  xr_kstack : p_kstack cur ≠ 0;
  xr_kmem : kmem_ready s;
  xr_free : kmem_inv s L;
  xr_print : can_print s;
  xr_cons : cons_ready s;
  xr_new : uvm s d L;
  xr_mapped : mapped_upto (k_mem s) d (npages sz);
  xr_sz : 0 ≤ sz ∧ 4096 * (npages sz + 2) < KERNBASE;
  xr_old : uvm s (p_pgdir cur) L;
  xr_apart : apart_from (k_mem s) L d (p_pgdir cur);
}.

(** The process runs the new program: its memory is the program, the guard page and
    the stack; the pages of the old program are free. *)
Record exec_done (s : kernel) (L : list Z) (me : nat) (cur : proc) (d sz entry : Z) (path : list Z)
    (argv : list (list Z)) (s' : kernel) (L' : list Z) : Prop := mkExecDone {
  xd_proc : k_ptable s' = <[me := with_p_tf (with_tf_esp (4096 * (npages sz + 2) - stack_need argv)
      (with_tf_eip entry (p_tf cur))) (with_p_sz (4096 * (npages sz + 2)) (with_p_pgdir d
      (set_name (last_elem path path) cur)))]> (k_ptable s);
  xd_cr3 : h_cr3 (k_hart s') = V2P d;
  xd_free : kmem_inv s' L';
  xd_space : uvm s' d L';
  xd_guard : guarded (k_mem s') d (npages sz + 2);
  xd_args : main_args (k_mem s') d (4096 * (npages sz + 2) - stack_need argv) (4096 * (npages sz + 2)) argv;
  xd_program : ∀ a, 0 ≤ a < 4096 * npages sz → ubyte (k_mem s') d a = ubyte (k_mem s) d a;
  xd_pages : ∀ p, p ∈ L' ∨ owns (k_mem s') d p ↔ p ∈ L ∨ owns (k_mem s) d p ∨ owns (k_mem s) (p_pgdir cur) p;
}.

(** The process has not noticed: its memory is the same, and the pages of the program
    that was loaded are free. *)
Record exec_failed (s : kernel) (L : list Z) (cur : proc) (d : Z) (s' : kernel) (L' : list Z) : Prop := mkExecFailed {
  xf_state : s' = with_k_freelist (k_freelist s') (with_k_mem (k_mem s')
    (with_k_out (k_out s') (with_k_screen (k_screen s') s)));
  xf_free : kmem_inv s' L';
  xf_old : uvm s' (p_pgdir cur) L';
  xf_bytes : ∀ a, 0 ≤ a < KERNBASE → present (upte (k_mem s) (p_pgdir cur) (a / 4096)) = true →
    upte (k_mem s') (p_pgdir cur) (a / 4096) = upte (k_mem s) (p_pgdir cur) (a / 4096) ∧
    ubyte (k_mem s') (p_pgdir cur) a = ubyte (k_mem s) (p_pgdir cur) a;
  xf_pages : ∀ p, p ∈ L' ↔ p ∈ L ∨ owns (k_mem s) d p;
}.

Section exec.
Context (im : image) (s : kernel) (L : list Z) (me : nat) (cur : proc) (d sz : Z).
Context (HR : exec_ready s L me cur d sz).
Abbreviation old := (p_pgdir cur).
Abbreviation n := (npages sz + 2).

(** A state on the way: only the new space has changed. *)
Definition on_the_way (s1 : kernel) (L1 : list Z) : Prop :=
  vframe d s L s1 L1 ∧ uvm s1 d L1 ∧ kmem_inv s1 L1.

Lemma way_old s1 L1 : on_the_way s1 L1 →
  uvm s1 old L1 ∧ same_entries old (k_mem s) (k_mem s1) ∧ apart_from (k_mem s1) L1 d old ∧
  ∀ a, 0 ≤ a < KERNBASE → present (upte (k_mem s) old (a / 4096)) = true →
    ubyte (k_mem s1) old a = ubyte (k_mem s) old a.
Proof. intros (F & _ & _). apply (vframe_other d s L s1 L1 old F); [exact (xr_old _ _ _ _ _ _ HR)|exact (xr_apart _ _ _ _ _ _ HR)]. Qed.

Lemma way_touched s1 L1 m' : on_the_way s1 L1 → utouched d (k_mem s1) m' → on_the_way (with_k_mem m' s1) L1.
Proof.
  intros (F & Hu & Hk) T. destruct (utouched_keeps d s1 L1 m' Hu Hk T) as (Hu' & Hk' & F').
  split; [by eapply vframe_trans|done].
Qed.

Lemma new_nonzero : d ≠ 0.
Proof. pose proof (pt_dir (uv_pt (xr_new _ _ _ _ _ _ HR))) as (_ & _ & H & _). unfold KERNBASE in H. lia. Qed.

(** Giving up. *)
Lemma exec_gives_up s1 L1 : on_the_way s1 L1 →
  ∃ s' L', exec_bad d None s1 = Done (-1) s' ∧ exec_failed s L cur d s' L'.
Proof.
  intros W. pose proof W as (F & Hu & Hk). destruct (way_old s1 L1 W) as (Ho & Hse & Hap & Hby).
  destruct (freevm_ok d s1 L1 Hu) as (s' & L' & E & [F1 F2 F3 F4 F5]); [eapply vframe_ready; [done|apply HR]|done|].
  exists s', L'. split.
  { unfold exec_bad. rewrite (proj2 (Z.eqb_neq _ _) new_nonzero). cbn [negb]. erewrite bind_done by exact E. done. }
  destruct (uvm_other s1 s' old L1 L') as (O1 & O2 & O3); [done|by rewrite F2| | |].
  { intros x Hx. destruct (Hap _ Hx). by apply F5. }
  { intros p Hp. destruct (Hap p Hp). rewrite F4. tauto. }
  constructor; [|done|done| |].
  - rewrite F2, (vf_state _ _ _ _ _ F). done.
  - intros a Ha Hp. pose proof (user_page a Ha).
    rewrite (same_entries_upte _ _ _ _ O2), (same_entries_upte _ _ _ _ Hse) by done. split; [done|].
    rewrite O3; [by apply Hby|done|]. by rewrite (same_entries_upte _ _ _ _ Hse).
  - intros p. by rewrite F4, (vf_pages _ _ _ _ _ F).
Qed.

Lemma npages_aligned k : npages (4096 * k) = k.
Proof. unfold npages. zdiv. Qed.

Lemma flags_user e : PTE_FLAGS e = Z.lor (Z.lor PTE_P PTE_W) PTE_U → user_ok e = true.
Proof.
  intros H. unfold user_ok. change PTE_U with (2 ^ 2). rewrite land_bit, negb_involutive by lia.
  assert (Hb : Z.testbit (PTE_FLAGS e) 2 = true) by (by rewrite H).
  unfold PTE_FLAGS in Hb. rewrite Z.land_spec, u32_bit in Hb by lia. by destruct (Z.testbit e 2).
Qed.

(** The two pages above the program, the lower one made inaccessible. *)
Lemma stack_pages :
  ∃ r s1 L1, allocuvm d (4096 * npages sz) (4096 * n) s = Done r s1 ∧ on_the_way s1 L1 ∧
    ((r = 0 ∧ Z.of_nat (length L) ≤ 1025 + n) ∨
     (r = 4096 * n ∧ ∃ m2, clearpteu d (4096 * (n - 2)) s1 = Done tt (with_k_mem m2 s1) ∧
        on_the_way (with_k_mem m2 s1) L1 ∧ guarded m2 d n ∧
        ∀ a, 0 ≤ a < 4096 * npages sz → ubyte m2 d a = ubyte (k_mem s) d a)).
Proof.
  destruct HR as [Hok Hpr Hst Hr Hk Hc1 Hc2 Hu Hm [Hsz HszK] Ho Ha].
  assert (Hnp : 0 ≤ npages sz) by (unfold npages; zdiv).
  assert (Hn : n < NUSER) by (unfold NUSER, KERNBASE in *; change (2147483648 / 4096) with 524288; lia).
  destruct (allocuvm_ok d (4096 * npages sz) (4096 * n) s L) as (r & s1 & L1 & E & [G1 G2 G3 G4]); try done; try lia.
  { by rewrite <-(npages_aligned (npages sz)) in Hm. }
  fold (npages (4096 * npages sz)) (npages (4096 * n)) in G4. rewrite !npages_aligned in G4.
  assert (W1 : on_the_way s1 L1) by done.
  exists r, s1, L1. split; [done|]. split; [done|]. destruct G4 as [(-> & G4 & G5 & G6)|(-> & _ & _ & G7)]; [right|by left].
  split; [done|]. destruct (clearpteu_ok d s1 L1 (n - 2)) as (m2 & E2 & [C1 C2 C3 C4 C5 C6 C7]); [done|done|lia|rewrite G4 by lia; lia|].
  exists m2. split; [done|]. split; [split; [by eapply vframe_trans|done]|]. split.
  - constructor; [lia| | |done].
    + intros v Hv. by rewrite C5, G4.
    + rewrite C6 by lia. destruct (G6 (n - 1)) as [Hf _]; [lia|]. by apply flags_user.
  - assert (Hb : ∀ a, 0 ≤ a < 4096 * npages sz → ubyte (k_mem s1) d a = ubyte (k_mem s) d a).
    { eapply (ukeep_bytes s d L (npages sz)); [done|done|lia|exact G5|]. by left. }
    intros a Hra. rewrite <-Hb by done. assert (HaK : 0 ≤ a < KERNBASE) by lia.
    apply C7; [done|]. rewrite G4 by (by apply user_page). zdiv.
Qed.

(** The switch to the new program. *)
Lemma exec_switches entry path argv s1 L1 sp :
  on_the_way s1 L1 → guarded (k_mem s1) d n → sp = 4096 * n - stack_need argv → 0 ≤ sp →
  main_args (k_mem s1) d sp (4096 * n) argv → (∀ a, 0 ≤ a < 4096 * npages sz → ubyte (k_mem s1) d a = ubyte (k_mem s) d a) →
  ∃ s' L', exec_switch im (Some me) entry path d (4096 * n) sp s1 = Done 0 s' ∧
    exec_done s L me cur d sz entry path argv s' L'.
Proof.
  intros W Hg Hsp Hsp0 Hma Hpg. pose proof W as (F & Hu & Hk). destruct (way_old s1 L1 W) as (Ho & Hse & Hap & Hby).
  assert (Hp1 : k_ptable s1 !! me = Some cur) by (rewrite (vf_state _ _ _ _ _ F); apply HR).
  assert (Hok1 : kok s1) by (unfold kok; rewrite (vf_state _ _ _ _ _ F); apply HR).
  unfold exec_switch. erewrite bind_done by (by apply set_proc_put). erewrite bind_done by (apply proc_at_ok; by eapply put_at).
  cbn zeta. do 4 (erewrite bind_done by (apply set_proc_put; by eapply put_at); rewrite put_put).
  erewrite bind_done by (apply proc_at_ok; by eapply put_at).
  erewrite bind_done by (apply switchuvm_ok; [done|apply HR|exact new_nonzero]).
  set (cur' := with_p_tf _ _). set (s2 := with_k_hart _ _).
  assert (Hm2 : k_mem s2 = k_mem s1) by done.
  assert (Ho2 : uvm s2 old L1) by (by apply (uvm_mem s1)).
  assert (Hr2 : kmem_ready s2).
  { intros Hl. assert (Hlk : k_use_lock s = true) by (rewrite <-Hl; unfold s2; cbn; by rewrite (vf_state _ _ _ _ _ F)).
    destruct (xr_kmem _ _ _ _ _ _ HR Hlk) as [_ Hf]. split.
    - exact (seg_hart_ok _ _ _ (seg_cpu_fun_keeps _ _) _ Hok1).
    - change (unlocked LKmem s1). rewrite (vf_state _ _ _ _ _ F). exact Hf. }
  destruct (freevm_ok old s2 L1 Ho2 Hr2) as (s' & L' & E & [F1 F2 F3 F4 F5]); [done|].
  exists s', L'. split; [by erewrite bind_done by exact E|]. rewrite Hm2 in F4, F5.
  destruct (uvm_other s2 s' d L1 L') as (N1 & N2 & N3); [by apply (uvm_mem s1)|by rewrite F2| | |].
  { rewrite Hm2. intros x Hx. destruct (owns_ok _ _ _ _ Hu Hx). apply F5; [|done]. intros Hx'. by destruct (Hap _ Hx'). }
  { rewrite Hm2. intros p Hp. rewrite F4. destruct (owns_ok _ _ _ _ Hu Hp) as [_ HL]. intros [?|Hp']; [done|]. by destruct (Hap _ Hp'). }
  rewrite Hm2 in N2, N3. assert (Hub : ∀ a, 0 ≤ a < 4096 * n → ubyte (k_mem s') d a = ubyte (k_mem s1) d a).
  { intros a Ha. destruct (guarded_present _ _ _ _ Hg Ha). by apply N3. }
  constructor; [| |done|done| | | |].
  - rewrite F2. unfold s2, cur'. cbn. rewrite (vf_state _ _ _ _ _ F). by rewrite Hsp.
  - rewrite F2. done.
  - by apply (guarded_same (k_mem s1)).
  - subst sp. eapply main_args_ext; [|exact Hma]. intros a Ha. apply Hub. lia.
  - intros a Ha. rewrite Hub by lia. by apply Hpg.
  - intros p. rewrite F4, (same_entries_owns _ _ _ _ N2), <-(same_entries_owns _ _ _ p Hse).
    pose proof (vf_pages _ _ _ _ _ F p). tauto.
Qed.

Lemma exec_commit_ok entry path argv :
  Forall (Forall is_u8) argv → stack_need argv ≤ 4096 * n →
  ∃ r s' L', exec_commit im (Some me) entry path argv d sz s = Done r s' ∧
    ((r = 0 ∧ args_ok argv ∧ exec_done s L me cur d sz entry path argv s' L') ∨
     (r = -1 ∧ (¬ args_ok argv ∨ Z.of_nat (length L) ≤ 1025 + n) ∧ exec_failed s L cur d s' L')).
Proof.
  intros Hb Hneed. pose proof (xr_sz _ _ _ _ _ _ HR) as [Hsz HszK].
  assert (Hnp : 0 ≤ npages sz) by (unfold npages; zdiv). unfold KERNBASE in HszK. unfold exec_commit.
  assert (Eup : PGROUNDUP sz = 4096 * npages sz).
  { rewrite PGROUNDUP_spec by (unfold npages in *; zdiv). unfold npages. zdiv. }
  rewrite Eup. unfold PGSIZE. rewrite (u32_small (4096 * npages sz + _)) by (unfold is_u32; lia).
  replace (4096 * npages sz + 2 * 4096) with (4096 * n) by lia.
  destruct stack_pages as (r & s1 & L1 & E1 & W1 & C1). erewrite bind_done by exact E1. destruct C1 as [(-> & Hfew)|(-> & m2 & E2 & W2 & G2 & Hpg)].
  { destruct (exec_gives_up s1 L1 W1) as (s' & L' & E & X). exists (-1), s', L'. split; [exact E|]. right. tauto. }
  rewrite (proj2 (Z.eqb_neq _ 0)) by lia. rewrite u32_small by (unfold is_u32; lia).
  replace (4096 * n - 2 * 4096) with (4096 * (n - 2)) by lia. erewrite bind_done by exact E2.
  pose proof W2 as (_ & Hu2 & Hk2). destruct (stack_ok d L1 n argv _ Hu2 Hk2 G2 Hb Hneed) as (o & m3 & E3 & S3).
  erewrite bind_done by exact E3. destruct o as [[sp0 addrs]|].
  2: { destruct S3 as [Hno T3]. destruct (exec_gives_up _ L1 (way_touched _ _ _ W2 T3)) as (s' & L' & E & X).
       exists (-1), s', L'. split; [exact E|]. right. tauto. }
  destruct S3 as (r & m4 & E4 & T4 & C4). pose proof (way_touched _ _ _ W2 T4) as W4. cbn zeta in *.
  erewrite bind_done by exact E4. destruct C4 as [(-> & Hok & Esp & Hma & Hbel)|(-> & Hno)].
  - cbn [Z.ltb Z.compare]. rewrite Esp in *.
    destruct (exec_switches entry path argv _ L1 (4096 * n - stack_need argv) W4) as (s' & L' & E & X); [|done|lia|done| |].
    + eapply guarded_same; [apply T4|done].
    + intros a Ha. rewrite <-Hpg by done. apply Hbel. lia.
    + exists 0, s', L'. split; [exact E|]. by left.
  - destruct (exec_gives_up _ L1 W4) as (s' & L' & E & X). exists (-1), s', L'. split; [exact E|]. right. tauto.
Qed.
End exec.

(** An argument so long that [sp] wraps around to an address without a page table: the
    kernel reads through the null pointer that [uva2ka] does not test for. *)
Lemma long_argument_faults pgdir sp argc arg argv addrs s :
  argc < MAXARG → present (pde_of (k_mem s) pgdir (PDX (PGROUNDDOWN (push_sp sp arg)))) = false →
  push_args pgdir sp argc (arg :: argv) addrs s = Panicked "page fault".
Proof.
  intros Hc Hp. cbn [push_args]. rewrite (proj2 (Z.leb_gt _ _)) by done.
  assert (E : copyout pgdir (push_sp sp arg) (arg ++ [0]) s = Panicked "page fault").
  { unfold copyout. cbn [copyout_loop]. rewrite length_app. cbn [length]. rewrite (proj2 (Z.ltb_lt _ _)) by lia.
    unfold uva2ka, bind. by rewrite walk_absent. }
  unfold bind. by rewrite E.
Qed.

(** * Theorems *)


(** ** Witnesses *)

(** The process of [demo_space], about to run a program that has no segments: its
    directory is empty. *)
Definition demo_newdir : Z := KERNBASE + 0x310000.
Definition demo_execer : proc := with_p_kstack (KERNBASE + 0x320000) demo_parent.
Definition demo_exec : kernel := demo_procs [demo_execer] demo_large.

Lemma demo_newdir_zero x : pg x = demo_newdir → k_mem demo_exec x = 0.
Proof.
  intros Hx. assert (Hr : KERNBASE + 0x310000 ≤ x < KERNBASE + 0x311000) by (unfold pg, demo_newdir, KERNBASE in *; zdiv).
  change (k_mem demo_exec x) with (link (k_mem demo_space) many_pages x). rewrite link_other.
  - change (k_mem demo_space) with (k_mem demo_vm_mapped). unfold demo_vm_mapped. cbn [k_mem with_k_mem].
    rewrite !store32_spec. unfold demo_pgdir, KERNBASE in *. case_bool; [lia|]. case_bool; [lia|done].
  - intros p Hp. by apply many_pages_in.
  - rewrite Hx. intros [_ H]%many_pages_in. unfold demo_newdir, KERNBASE in H. lia.
Qed.

Lemma demo_newdir_absent i : 0 ≤ i < 1024 → pde_of (k_mem demo_exec) demo_newdir i = 0.
Proof.
  intros Hi. unfold pde_of. rewrite (load32_page (λ _, 0)); [done|by vm_compute|done|]. apply demo_newdir_zero.
Qed.

Lemma demo_newdir_owns p : owns (k_mem demo_exec) demo_newdir p → p = demo_newdir.
Proof.
  intros [[->|(i & Hi & Hp & _)]|(v & Hv & Hp & _)]; [done| |].
  - by rewrite demo_newdir_absent in Hp.
  - apply present_table in Hp. rewrite demo_newdir_absent in Hp; [done|]. apply PDX_range, is_u32_page.
    pose proof (NUSER_lt v). lia.
Qed.

Lemma demo_exec_ready : exec_ready demo_exec many_pages 0 demo_execer demo_newdir 0.
Proof.
  assert (Hm : mapped_upto (k_mem demo_exec) demo_newdir 0).
  { intros v Hv. destruct (present (upte (k_mem demo_exec) demo_newdir v)) eqn:Hp; [|lia].
    apply present_table in Hp. rewrite demo_newdir_absent in Hp; [done|]. apply PDX_range, is_u32_page.
    pose proof (NUSER_lt v). lia. }
  assert (Hd : demo_newdir ∉ many_pages).
  { intros [_ H]%many_pages_in. unfold demo_newdir, KERNBASE in H. lia. }
  constructor.
  - apply demo_procs_kok.
  - reflexivity.
  - intros H. discriminate H.
  - intros H. discriminate H.
  - exact demo_large_inv.
  - by vm_compute.
  - intros H. discriminate H.
  - apply uvm_empty; [|exact Hm]. constructor; [by vm_compute|exact Hd| |].
    + intros i Hi Hp. by rewrite demo_newdir_absent in Hp.
    + intros i j Hi Hj Hp. by rewrite demo_newdir_absent in Hp.
  - exact Hm.
  - split; [lia|]. by vm_compute.
  - apply (uvm_mem demo_large); [reflexivity|reflexivity|exact (proj1 demo_large_space)].
  - intros p Hp. change (p_pgdir demo_execer) with demo_pgdir in Hp.
    assert (Hu : uvm demo_exec demo_pgdir many_pages).
    { apply (uvm_mem demo_large); [reflexivity|reflexivity|exact (proj1 demo_large_space)]. }
    split; [by eapply owns_ok|]. intros ->%demo_newdir_owns.
    apply (same_entries_owns _ _ _ _ (proj2 demo_large_space)) in Hp.
    destruct Hp as [[E|(i & Hi & Hp & E)]|E]; [by vm_compute in E| |apply demo_space_user in E; by vm_compute in E].
    apply demo_vm_mapped_pde in Hp as ->; [by vm_compute in E|done].
Qed.

(** [ls -l] *)
Definition demo_args : list (list Z) := [[108; 115]; [45; 108]].


Lemma long_argument_demo :
  push_args demo_pgdir 8192 0 [replicate (Z.to_nat 0x3000000) 65] [] demo_space = Panicked "page fault".
Proof.
  apply long_argument_faults; [by vm_compute|].
  assert (E : push_sp 8192 (replicate (Z.to_nat 0x3000000) 65) = 0xFD001FFC).
  { unfold push_sp. rewrite length_replicate, Z2Nat.id by lia. by vm_compute. }
  rewrite E. by vm_compute.
Qed.
