(* ===== verification/Execload.v ===== *)
(** The first half of [exec]: loading a program.

    [elf_image] says which memory an executable file describes: for each loadable
    segment the bytes of the file, zero elsewhere.  The loop of [exec] over the program
    headers, with [allocuvm] and [loaduvm], builds that memory in the new address
    space, or gives up. *)

From S2P Require Import Prelude State Spinlock CString Cprintf Mmu Kalloc Vm Uvm Uvcopy Sched Bio Log Txn Inode Fs Dir Proc Fork Exec Execstack.
Import KLock.

(** * The image of an executable *)

Definition byte_at (C : list Z) (off : Z) : Z := default 0 (C !! Z.to_nat off).

(** The size of a program and its bytes. *)
Definition image_t : Type := Z * (Z → Z).

(** One program header, of a file with the bytes [C]. *)
Definition segment (C : list Z) (ph : proghdr) (st : image_t) : option image_t :=
  let fend := ph_vaddr ph + ph_memsz ph in
  let sz := Z.max (fst st) fend in
  if negb (ph_type ph =? ELF_PROG_LOAD) then Some st
  else if (ph_filesz ph <=? ph_memsz ph) && (fend <? KERNBASE) && (0 <? sz) && (ph_vaddr ph mod 4096 =? 0) &&
    ((ph_filesz ph =? 0) || (ph_off ph + ph_filesz ph <=? Z.of_nat (length C)))
  then Some (sz, λ a, if (ph_vaddr ph <=? a) && (a <? ph_vaddr ph + ph_filesz ph)
                      then byte_at C (ph_off ph + (a - ph_vaddr ph)) else snd st a)
  else None.

Fixpoint elf_image (C : list Z) (n : nat) (off : Z) (st : image_t) : option image_t :=
  match n with
  | O => Some st
  | S n' =>
      if u32 off + PROGHDR_SIZE <=? Z.of_nat (length C) then
        st ← segment C (proghdr_dec (slice C (Z.to_nat (u32 off)) 32)) st;
        elf_image C n' (off + PROGHDR_SIZE) st
      else None
  end.

(** * Frames *)

(** Memory changes in pages of the space and in free pages only, and none is lost. *)
Definition mframe (d : Z) (m : mem) (L : list Z) (m' : mem) (L' : list Z) : Prop :=
  (∀ x, ¬ owns m d (pg x) → pg x ∉ L → m' x = m x) ∧ ∀ p, p ∈ L' ∨ owns m' d p ↔ p ∈ L ∨ owns m d p.

Lemma mframe_refl d m L : mframe d m L m L.
Proof. done. Qed.

Lemma mframe_trans d m1 L1 m2 L2 m3 L3 : mframe d m1 L1 m2 L2 → mframe d m2 L2 m3 L3 → mframe d m1 L1 m3 L3.
Proof.
  intros [M1 P1] [M2 P2]. split; [|intros p; by rewrite P2, P1].
  intros x Ho Hx. specialize (P1 (pg x)). rewrite M2 by tauto. by apply M1.
Qed.

Lemma vframe_mframe d s L s' L' : vframe d s L s' L' → mframe d (k_mem s) L (k_mem s') L'.
Proof. by intros [_ _ M P]. Qed.

(** Seen from a state with the old memory. *)
Lemma mframe_vframe d m L s L' : mframe d m L (k_mem s) L' → vframe d (with_k_mem m s) L s L'.
Proof. intros [M P]. constructor; [by destruct s|done|done|done]. Qed.

Lemma utouched_mframe d s L m' : uvm s d L → kmem_inv s L → utouched d (k_mem s) m' → mframe d (k_mem s) L m' L.
Proof. intros Hu Hk T. destruct (utouched_keeps d s L m' Hu Hk T) as (_ & _ & F). apply (vframe_mframe _ _ _ _ _ F). Qed.

Lemma byte_u8 C x : Forall is_u8 C → is_u8 (default 0 (C !! x)).
Proof. intros H. destruct (C !! x) eqn:E; [by eapply Forall_lookup_1|unfold is_u8; simpl; lia]. Qed.

(** The fields of a program header. *)
Definition ph_ok (ph : proghdr) : Prop :=
  is_u32 (ph_off ph) ∧ is_u32 (ph_vaddr ph) ∧ is_u32 (ph_filesz ph) ∧ is_u32 (ph_memsz ph).

Lemma word_at_u32 bs o : Forall is_u8 bs → is_u32 (word_at bs o).
Proof.
  intros H. unfold word_at. assert (Hs : Forall is_u8 (slice bs o 4)) by (unfold slice; by apply Forall_take, Forall_drop).
  pose proof (le_dec_range _ Hs) as Hr. assert (Hl : (length (slice bs o 4) ≤ 4)%nat) by (unfold slice; rewrite length_take; lia).
  unfold is_u32. destruct (length (slice bs o 4)) as [|[|[|[|[|n]]]]]; [..|lia]; cbn in Hr; lia.
Qed.

Lemma proghdr_dec_ok bs : Forall is_u8 bs → ph_ok (proghdr_dec bs).
Proof. intros H. by repeat split; apply word_at_u32. Qed.

Section load.
Context {txn : kernel → gmap nat Z → (Z → list Z) → nat → Prop} {T : BlockTxn txn}.
Context (V : Z → list Z) (k : nat) (i : nat) (ip : inode) (d : Z).

(** The inode is that of a file on the disk, and [d] an address space. *)
Record loading (s : kernel) (L : list Z) : Prop := mkLoading {
  ld_txn : txn s ∅ V k;
  ld_geom : fs_geom s;
  ld_ip : k_icache s !! i = Some ip;
  ld_dev : i_dev ip = 1;
  ld_type : i_type ip ≠ T_DEV;
  ld_file : file_good s V ip;
  ld_kmem : kmem_ready s;
  ld_free : kmem_inv s L;
  ld_print : can_print s;
  ld_cons : cons_ready s;
  ld_space : uvm s d L;
}.

Lemma loading_tframe s s' L : loading s L → tframe s s' → txn s' ∅ V k → loading s' L ∧ k_mem s' = k_mem s.
Proof.
  intros [H1 H2 H3 H4 H5 H6 H7 H8 H9 H10 H11] F Ht. pose proof (same_disk_tframe _ _ F) as SD. pose proof F as (E & _).
  assert (Em : k_mem s' = k_mem s) by (by rewrite E). split; [|done].
  assert (Eh : k_hart s' = k_hart s) by (by apply tframe_hart). constructor; try done.
  - by apply (sd_geom SD).
  - by rewrite (tframe_icache _ _ F).
  - by apply (sd_good _ _ _ _ SD).
  - unfold kmem_ready, kok, unlocked in *. rewrite Eh, E. done.
  - unfold kmem_inv, page_ok in *. rewrite E. done.
  - unfold can_print in *. rewrite E. done.
  - unfold cons_ready, kok, unlocked in *. rewrite Eh, E. done.
  - apply (uvm_mem s); [by rewrite E|done|done].
Qed.

Lemma loading_vframe s L s' L' : loading s L → vframe d s L s' L' → uvm s' d L' → kmem_inv s' L' → loading s' L'.
Proof.
  intros [H1 H2 H3 H4 H5 H6 H7 H8 H9 H10 H11] F Hu Hk. pose proof F as [E _ _ _].
  assert (SD : same_disk s s') by (split; [by rewrite E|split; [by rewrite E|rewrite E; apply log_same_refl]]).
  destruct (vframe_print _ _ _ _ _ F H9 H10) as [P1 P2]. constructor; try done.
  - eapply txn_keep; [done|]. unfold tkeep. rewrite E. cbn. split; [done|]. split; [apply woken_refl|]. done.
  - by apply (sd_geom SD).
  - by rewrite E.
  - by apply (sd_good _ _ _ _ SD).
  - by eapply vframe_ready.
Qed.

Lemma loading_touched s L m' : loading s L → utouched d (k_mem s) m' → loading (with_k_mem m' s) L.
Proof.
  intros H Ht. destruct (utouched_keeps d s L m' (ld_space _ _ H) (ld_free _ _ H) Ht) as (Hu & Hk & F).
  by eapply loading_vframe.
Qed.

(** * Reading the file *)

(** All of [n] bytes, or another count. *)
Lemma readi_case s L off n :
  loading s L → is_u32 off → 0 < n < 2147483648 →
  ∃ r bs s', readi i off n s = Done (r, bs) s' ∧ loading s' L ∧ k_mem s' = k_mem s ∧ (length bs ≤ Z.to_nat n)%nat ∧
    (if decide (off + n ≤ Z.of_nat (length (contents V ip)))
     then r = n ∧ bs = slice (contents V ip) (Z.to_nat off) (Z.to_nat n) else r ≠ n).
Proof.
  intros H Hoff Hn. rewrite length_contents. pose proof (fg_size (ld_file _ _ H)) as Hsz. unfold is_u32 in Hoff.
  destruct (decide (off ≤ i_size ip)) as [Hle|Hgt].
  - pose proof H as [H1 H2 H3 H4 H5 H6 H7 H8 H9 H10 H11].
    destruct (readi_ok s V k i ip off n) as (s' & E & Ht & F); [done|done|done|done|done|done|lia|lia|lia|].
    destruct (loading_tframe s s' L H F Ht) as [H' Em]. eexists _, _, s'. split; [done|]. split; [done|]. split; [done|].
    split; [unfold slice; rewrite length_take; lia|]. case_decide; [split; [lia|done]|lia].
  - exists (-1), [], s. split; [|split; [done|split; [done|split; [cbn; lia|rewrite decide_False by lia; lia]]]].
    unfold readi. erewrite bind_done by (apply inode_at_ok, H). rewrite (proj2 (Z.eqb_neq _ _) (ld_type _ _ H)).
    by rewrite (proj2 (Z.ltb_lt (i_size ip) off)) by lia.
Qed.

(** * [loaduvm] *)

(** [sz] bytes of the file from [off] on are in memory at [va], or the file is too short. *)
Record segment_loaded (s : kernel) (L : list Z) (va off sz r : Z) (s' : kernel) : Prop := mkSegmentLoaded {
  sl_loading : loading s' L;
  sl_touched : utouched d (k_mem s) (k_mem s');
  sl_case : (r = 0 ∧ (sz ≤ 0 ∨ off + sz ≤ Z.of_nat (length (contents V ip))) ∧
      uwritten d va (slice (contents V ip) (Z.to_nat off) (Z.to_nat sz)) (k_mem s) (k_mem s')) ∨
    (r = -1 ∧ 0 < sz ∧ Z.of_nat (length (contents V ip)) < off + sz);
}.

Lemma uwritten_nil va m : uwritten d va [] m m.
Proof. intros a Ha Hp. case_bool; [cbn [length] in *; lia|done]. Qed.

Lemma length_slice_in (C : list Z) o n : (o + n ≤ length C)%nat → length (slice C o n) = n.
Proof. intros H. unfold slice. rewrite length_take, length_drop. lia. Qed.

Lemma segment_loaded_next s L s1 s2 va off n sz r m1 :
  0 < n < sz → 0 ≤ off → off + n ≤ Z.of_nat (length (contents V ip)) →
  utouched d (k_mem s) m1 → uwritten d va (slice (contents V ip) (Z.to_nat off) (Z.to_nat n)) (k_mem s) m1 →
  k_mem s1 = m1 → segment_loaded s1 L (va + n) (off + n) (sz - n) r s2 → segment_loaded s L va off sz r s2.
Proof.
  intros Hn Hoff Hin Ht Hw Em [G1 G2 G3]. rewrite Em in *. constructor; [done|by eapply utouched_trans|].
  destruct G3 as [(-> & G3 & G4)|(-> & G3 & G4)]; [left|right; split; [done|split; lia]].
  split; [done|]. split; [right; lia|].
  replace (Z.to_nat sz) with (Z.to_nat n + Z.to_nat (sz - n))%nat by lia. rewrite slice_add.
  eapply uwritten_app; [apply Ht|exact Hw|]. rewrite length_slice_in by lia. rewrite Z2Nat.id by lia.
  by replace (Z.to_nat off + Z.to_nat n)%nat with (Z.to_nat (off + n)) by lia.
Qed.

Lemma loaduvm_loop_ok n addr off sz : n ≤ NUSER → 0 ≤ addr → addr mod 4096 = 0 → addr + sz ≤ 4096 * n → is_u32 off →
  ∀ fuel j s L, loading s L → mapped_upto (k_mem s) d n → 0 ≤ j → sz - 4096 * j ≤ 4096 * (Z.of_nat fuel - 1) → (0 < fuel)%nat →
  j = 0 ∨ off + 4096 * j ≤ Z.of_nat (length (contents V ip)) →
  ∃ r s', loaduvm_loop fuel d addr i off sz (4096 * j) s = Done r s' ∧
    segment_loaded s L (addr + 4096 * j) (off + 4096 * j) (sz - 4096 * j) r s'.
Proof.
  intros Hn Haddr Hal Hend Hoff fuel. induction fuel as [|fuel IH]; intros j s L HL Hm Hj Hf Hpos Hok; [lia|].
  assert (HnK : 4096 * n ≤ 2147483648) by (unfold NUSER, KERNBASE in *; change (2147483648 / 4096) with 524288 in Hn; lia).
  cbn [loaduvm_loop]. destruct (Z.ltb_spec (4096 * j) sz) as [Hlt|Hge].
  2: { exists 0, s. split; [done|]. constructor; [done|done|]. left. split; [done|]. split; [left; lia|].
       replace (Z.to_nat (sz - 4096 * j)) with 0%nat by lia. unfold slice. rewrite take_0. apply uwritten_nil. }
  set (v := addr / 4096 + j). assert (Ev : addr + 4096 * j = 4096 * v) by (unfold v; zdiv).
  rewrite u32_small by (unfold is_u32; lia). rewrite Ev.
  assert (Hv : 0 ≤ v < NUSER ∧ v < n) by (unfold v; split; zdiv). destruct Hv as [Hv Hvn].
  assert (Hp : present (upte (k_mem s) d v) = true) by (rewrite Hm by done; lia).
  pose proof (present_table _ _ _ Hp) as Htab. erewrite bind_done by (by apply walk_present).
  rewrite (proj2 (Z.eqb_neq _ 0)) by (eapply entry_nonzero; [apply (ld_space _ _ HL)|done|done]).
  assert (Ee : load32 (k_mem s) (tab_of (k_mem s) d (PDX (4096 * v)) + 4 * PTX (4096 * v)) = upte (k_mem s) d v)
    by (unfold upte, pte_of; by rewrite Htab).
  erewrite bind_done by (unfold rd32, gets; by rewrite Ee). fold (upa (k_mem s) d v). unfold PGSIZE. cbn zeta.
  set (q := if sz - 4096 * j <? 4096 then _ else _).
  assert (Hq : q = Z.min (sz - 4096 * j) 4096) by (unfold q; destruct (Z.ltb_spec (sz - 4096 * j) 4096); lia). clearbody q.
  assert (Hoj : 0 ≤ off + 4096 * j < 4294967296).
  { pose proof (fg_size (ld_file _ _ HL)). rewrite length_contents in Hok. unfold is_u32 in Hoff. destruct Hok as [->|]; lia. }
  rewrite u32_small by done.
  destruct (readi_case s L (off + 4096 * j) q HL) as (r & bs & s1 & E1 & HL1 & Em1 & Hlen & C1); [done|lia|].
  erewrite bind_done by exact E1. cbn [fst snd].
  destruct (ustore_ok d s1 L v 0 bs (ld_space _ _ HL1) Hv) as [Ht Hw]; [by rewrite Em1|lia|lia|].
  rewrite !Z.add_0_r, Em1 in Ht, Hw. rewrite Z.add_0_r in Hw.
  erewrite bind_done by (unfold modify; by rewrite Em1). set (m1 := store_bytes _ _ bs) in *.
  pose proof (loading_touched s1 L m1 HL1 ltac:(by rewrite Em1)) as HL2. set (s2 := with_k_mem m1 s1) in *.
  case_decide as Hin.
  2: { rewrite (proj2 (Z.eqb_neq _ _) C1). exists (-1), s2. split; [done|]. constructor; [done|done|]. right. split; [done|]. lia. }
  destruct C1 as [-> ->]. rewrite Z.eqb_refl. cbn [negb]. rewrite u32_small by (unfold is_u32; lia).
  replace (4096 * j + 4096) with (4096 * (j + 1)) by lia.
  assert (Hm2 : mapped_upto (k_mem s2) d n).
  { intros w Hw'. cbn [k_mem with_k_mem s2]. rewrite (same_entries_upte _ _ _ _ (proj1 Ht)) by done. by apply Hm. }
  destruct (decide (sz - 4096 * j ≤ 4096)) as [Hlast|Hmore].
  - exists 0, s2. split.
    + destruct fuel as [|fuel]; [lia|]. cbn [loaduvm_loop]. by rewrite (proj2 (Z.ltb_ge _ _)) by lia.
    + assert (q = sz - 4096 * j) as -> by lia. constructor; [done|done|]. left. split; [done|]. split; [by right|done].
  - destruct (IH (j + 1) s2 L) as (r & s' & E & G); [done|done|lia|lia|lia|right; lia|].
    exists r, s'. split; [done|]. assert (q = 4096) as -> by lia.
    eapply (segment_loaded_next s L s2); [| | |exact Ht|exact Hw|done|]; [lia|lia|lia|].
    replace (4096 * v + 4096) with (addr + 4096 * (j + 1)) by lia.
    replace (off + 4096 * j + 4096) with (off + 4096 * (j + 1)) by lia.
    by replace (sz - 4096 * j - 4096) with (sz - 4096 * (j + 1)) by lia.
Qed.

Lemma loaduvm_ok n addr off sz s L :
  n ≤ NUSER → 0 ≤ addr → addr mod 4096 = 0 → 0 ≤ sz → addr + sz ≤ 4096 * n → is_u32 off → loading s L → mapped_upto (k_mem s) d n →
  ∃ r s', loaduvm d addr i off sz s = Done r s' ∧ segment_loaded s L addr off sz r s'.
Proof.
  intros Hn Haddr Hal Hsz Hend Hoff HL Hm. unfold loaduvm, PGSIZE. rewrite Hal, Z.eqb_refl. cbn [negb].
  destruct (loaduvm_loop_ok n addr off sz Hn Haddr Hal Hend Hoff (S (Z.to_nat (sz / 4096 + 1))) 0 s L)
    as (r & s' & E & G); [done|done|lia|zdiv|lia|by left|].
  rewrite Z.mul_0_r, !Z.add_0_r, Z.sub_0_r in *. by exists r, s'.
Qed.

(** * The program headers *)

Section image.
Context (m0 : mem) (L0 : list Z) (HL0 : NoDup L0).

(** The space holds the image [st] of a program. *)
Record image_built (s : kernel) (L : list Z) (st : image_t) : Prop := mkImageBuilt {
  ib_loading : loading s L;
  ib_frame : mframe d m0 L0 (k_mem s) L;
  ib_size : 0 ≤ fst st < KERNBASE;
  ib_mapped : mapped_upto (k_mem s) d (npages (fst st));
  ib_bytes : ∀ a, 0 ≤ a < 4096 * npages (fst st) → ubyte (k_mem s) d a = snd st a;
  ib_zero : ∀ a, 4096 * npages (fst st) ≤ a → snd st a = 0;
}.

Lemma npages_user sz : 0 ≤ sz < KERNBASE → 0 ≤ npages sz ≤ NUSER ∧ sz ≤ 4096 * npages sz.
Proof. unfold npages, NUSER, KERNBASE. intros. zdiv. Qed.

Lemma npages_mono a b : a ≤ b → npages a ≤ npages b.
Proof. unfold npages. intros. zdiv. Qed.

(** [allocuvm] up to the end of a segment. *)
Lemma grow_image s L st fend :
  image_built s L st → 0 ≤ fend < KERNBASE →
  ∃ r s' L', allocuvm d (fst st) fend s = Done r s' ∧
    ((r = Z.max (fst st) fend ∧ image_built s' L' (Z.max (fst st) fend, snd st)) ∨
     (r = 0 ∧ loading s' L' ∧ mframe d m0 L0 (k_mem s') L' ∧ Z.of_nat (length L0) ≤ 1025 + npages (Z.max (fst st) fend))).
Proof.
  intros [B1 B2 B3 B4 B5 B6] Hf. destruct (decide (fend < fst st)) as [Hlt|Hge].
  { exists (fst st), s, L. split; [unfold allocuvm; rewrite (proj2 (Z.leb_gt _ _)), (proj2 (Z.ltb_lt _ _)) by lia; done|].
    left. rewrite Z.max_l by lia. done. }
  rewrite Z.max_r by lia. pose proof B1 as [_ _ _ _ _ _ Hr Hk Hc1 Hc2 Hu].
  destruct (allocuvm_from d (fst st) fend (with_k_mem m0 s) L0 s L) as (r & s' & L' & E & [G1 G2 G3 G4]); try done; try lia.
  { by apply mframe_vframe. }
  exists r, s', L'. split; [done|]. fold (npages (fst st)) (npages fend) in *.
  assert (HL' : loading s' L') by (by eapply loading_vframe).
  assert (Hfr : mframe d m0 L0 (k_mem s') L') by (eapply mframe_trans; [done|by apply (vframe_mframe _ _ _ _ _ G3)]).
  destruct G4 as [(-> & G5 & G6 & G7)|(-> & _ & _ & G7)]; [left|by right]. split; [done|].
  destruct (npages_user (fst st) B3) as [N1 _]. destruct (npages_user fend Hf) as [N2 _].
  constructor; cbn [fst snd]; [done|done|done|done| |].
  - intros a Ha. destruct (decide (a < 4096 * npages (fst st))) as [Hold|Hnew].
    + rewrite <-B5 by lia. eapply (ukeep_bytes s d L (npages (fst st))); [done|done|lia|exact G6|by left|lia].
    + rewrite B6 by lia. destruct (G7 (a / 4096)) as [_ F2]; [zdiv|]. unfold ubyte. apply F2, pg_offset.
      assert (Hv : 0 ≤ a / 4096 < NUSER) by zdiv. eapply user_aligned; [done|done|]. rewrite G5 by done. zdiv.
  - intros a Ha. apply B6. pose proof (npages_mono (fst st) fend). lia.
Qed.

(** [loaduvm] of the bytes of a segment. *)
Lemma fill_image s L st va off fsz :
  image_built s L st → 0 ≤ va → va mod 4096 = 0 → 0 ≤ fsz → va + fsz ≤ fst st → is_u32 off →
  ∃ r s', loaduvm d va i off fsz s = Done r s' ∧ loading s' L ∧ mframe d m0 L0 (k_mem s') L ∧
    ((r = 0 ∧ (fsz = 0 ∨ off + fsz ≤ Z.of_nat (length (contents V ip))) ∧
      image_built s' L (fst st, λ a, if (va <=? a) && (a <? va + fsz) then byte_at (contents V ip) (off + (a - va)) else snd st a)) ∨
     (r = -1 ∧ 0 < fsz ∧ Z.of_nat (length (contents V ip)) < off + fsz)).
Proof.
  intros [B1 B2 B3 B4 B5 B6] Hva Hal Hfsz Hend Hoff. destruct (npages_user (fst st) B3) as [N1 N2].
  destruct (loaduvm_ok (npages (fst st)) va off fsz s L) as (r & s' & E & [G1 G2 G3]); try done; try lia.
  assert (Hfr : mframe d m0 L0 (k_mem s') L).
  { eapply mframe_trans; [done|]. eapply utouched_mframe; [apply (ld_space _ _ B1)|apply (ld_free _ _ B1)|done]. }
  exists r, s'. split; [done|]. split; [done|]. split; [done|]. destruct G3 as [(-> & G3 & G4)|G3]; [left|by right].
  split; [done|]. split; [lia|]. constructor; cbn [fst snd]; [done|done|done| | |].
  - intros v Hv. rewrite (same_entries_upte _ _ _ _ (proj1 G2)) by done. by apply B4.
  - intros a Ha. assert (HaK : 0 ≤ a < KERNBASE) by (unfold NUSER, KERNBASE in *; zdiv).
    rewrite G4; [|done|rewrite B4 by (by apply user_page); zdiv].
    assert (Hlen : Z.of_nat (length (slice (contents V ip) (Z.to_nat off) (Z.to_nat fsz))) = fsz).
    { unfold is_u32 in Hoff. destruct G3; [|rewrite length_slice_in; lia].
      replace (Z.to_nat fsz) with 0%nat by lia. unfold slice. rewrite take_0. cbn. lia. }
    rewrite Hlen. case_bool; [|by apply B5]. unfold byte_at. rewrite lookup_slice, decide_True by lia.
    replace (Z.to_nat off + Z.to_nat (a - va))%nat with (Z.to_nat (off + (a - va))) by (unfold is_u32 in Hoff; lia).
    apply u8_small, byte_u8. by eapply contents_bytes; [apply (ld_txn _ _ B1)|apply (ld_file _ _ B1)].
  - intros a Ha. replace (_ && _) with false by lia. by apply B6.
Qed.

(** The image after one header at [off], or why there is none. *)
Definition header_image (C : list Z) (off : Z) (st : image_t) : option image_t :=
  if u32 off + PROGHDR_SIZE <=? Z.of_nat (length C)
  then segment C (proghdr_dec (slice C (Z.to_nat (u32 off)) 32)) st else None.

Record header_loaded (ost : option image_t) (o : option Z) (s' : kernel) (L' : list Z) : Prop := mkHeaderLoaded {
  hl_loading : loading s' L';
  hl_frame : mframe d m0 L0 (k_mem s') L';
  hl_case : match ost with
    | Some st' => (o = Some (fst st') ∧ image_built s' L' st') ∨
        (o = None ∧ Z.of_nat (length L0) ≤ 1025 + npages (fst st'))
    | None => o = None
    end;
}.

Lemma image_built_mem s L s1 st : image_built s L st → loading s1 L → k_mem s1 = k_mem s → image_built s1 L st.
Proof. intros [B1 B2 B3 B4 B5 B6] H E. constructor; rewrite ?E; done. Qed.

Lemma header_fails s L st o ost :
  image_built s L st → o = None → ost = None → header_loaded ost o s L.
Proof. intros [B1 B2 _ _ _ _] -> ->. by constructor. Qed.

(** A loadable segment, with the fields of its header in range. *)
Definition load_ph (ph : proghdr) (sz : Z) : K (option Z) :=
  if ph_memsz ph <? ph_filesz ph then ret None else
  if u32 (ph_vaddr ph + ph_memsz ph) <? ph_vaddr ph then ret None else
  sz <- allocuvm d sz (u32 (ph_vaddr ph + ph_memsz ph)) ;;
  if sz =? 0 then ret None else
  if negb (ph_vaddr ph mod PGSIZE =? 0) then ret None else
  r <- loaduvm d (ph_vaddr ph) i (ph_off ph) (ph_filesz ph) ;;
  if r <? 0 then ret None else ret (Some sz).

Lemma load_header_ok s L st ph :
  image_built s L st → ph_ok ph → ph_type ph = ELF_PROG_LOAD →
  ∃ o s' L', load_ph ph (fst st) s = Done o s' ∧ header_loaded (segment (contents V ip) ph st) o s' L'.
Proof.
  intros B (Ho & Hv & Hf & Hm) Hty. unfold is_u32 in Hv, Hf, Hm. unfold load_ph, segment. rewrite Hty, Z.eqb_refl. cbn [negb].
  destruct (Z.ltb_spec (ph_memsz ph) (ph_filesz ph)) as [H1|H1].
  { exists None, s, L. split; [done|]. eapply header_fails; [done|done|]. by replace (ph_filesz ph <=? ph_memsz ph) with false by lia. }
  replace (ph_filesz ph <=? ph_memsz ph) with true by lia. set (fend := ph_vaddr ph + ph_memsz ph).
  destruct (decide (fend < 4294967296)) as [H2|H2].
  2: { replace (u32 fend) with (fend - 4294967296) by (unfold u32; zdiv). rewrite (proj2 (Z.ltb_lt _ _)) by lia.
       exists None, s, L. split; [done|]. eapply header_fails; [done|done|]. unfold KERNBASE. by replace (fend <? _) with false by lia. }
  rewrite u32_small by (unfold is_u32; lia). rewrite (proj2 (Z.ltb_ge fend _)) by lia.
  destruct (decide (fend < KERNBASE)) as [H3|H3].
  2: { exists None, s, L. split; [unfold allocuvm, bind; rewrite (proj2 (Z.leb_le _ _)) by lia; done|].
       eapply header_fails; [done|done|]. by replace (fend <? KERNBASE) with false by lia. }
  replace (fend <? KERNBASE) with true by lia. cbn [andb].
  destruct (grow_image s L st fend B) as (r & s1 & L1 & E1 & C1); [lia|]. erewrite bind_done by exact E1.
  set (sz := Z.max (fst st) fend) in *. destruct C1 as [(-> & B1)|(-> & HL1 & F1 & Hfew)].
  2: { exists None, s1, L1. split; [done|]. constructor; [done|done|]. by destruct (_ && _); [right|]. }
  pose proof (ib_size _ _ _ B1) as Hsz. cbn [fst] in Hsz. destruct (Z.eqb_spec sz 0) as [H4|H4].
  { exists None, s1, L1. split; [done|]. eapply header_fails; [done|done|]. by replace (0 <? sz) with false by lia. }
  replace (0 <? sz) with true by lia. unfold PGSIZE. cbn [andb]. destruct (Z.eqb_spec (ph_vaddr ph mod 4096) 0) as [H5|H5].
  2: { exists None, s1, L1. split; [done|]. by eapply header_fails. }
  cbn [negb andb]. destruct (fill_image s1 L1 (sz, snd st) (ph_vaddr ph) (ph_off ph) (ph_filesz ph) B1)
    as (r & s2 & E2 & HL2 & F2 & C2); [lia|done|lia|cbn [fst]; lia|done|].
  erewrite bind_done by exact E2. destruct C2 as [(-> & H6 & B2)|(-> & H6 & H7)].
  - exists (Some sz), s2, L1. split; [done|]. constructor; [done|done|]. replace (_ || _) with true by lia. left. done.
  - exists None, s2, L1. split; [done|]. constructor; [done|done|]. by replace (_ || _) with false by lia.
Qed.

Lemma load_segment_ok s L st off :
  image_built s L st →
  ∃ o s' L', load_segment i d (fst st) off s = Done o s' ∧
    header_loaded (header_image (contents V ip) off st) o s' L'.
Proof.
  intros B. pose proof B as [B1 B2 B3 _ _ _]. unfold load_segment, header_image.
  destruct (readi_case s L (u32 off) PROGHDR_SIZE B1) as (r & bs & s1 & E1 & HL1 & Em1 & _ & C1); [apply u32_range|by unfold PROGHDR_SIZE|].
  erewrite bind_done by exact E1. cbn [fst snd]. case_decide as Hin.
  2: { rewrite (proj2 (Z.eqb_neq _ _) C1). rewrite (proj2 (Z.leb_gt _ _)) by lia. exists None, s1, L. split; [done|].
       by constructor; [|rewrite Em1|]. }
  destruct C1 as [-> ->]. rewrite Z.eqb_refl, (proj2 (Z.leb_le _ _)) by lia. cbn [negb].
  change (Z.to_nat PROGHDR_SIZE) with 32%nat. set (ph := proghdr_dec _).
  assert (B' : image_built s1 L st) by (by eapply image_built_mem).
  destruct (Z.eqb_spec (ph_type ph) ELF_PROG_LOAD) as [Hty|Hty]; cbn [negb].
  - destruct (load_header_ok s1 L st ph B') as (o & s' & L' & E & G); [|done|by exists o, s', L'].
    apply proghdr_dec_ok, Forall_take, Forall_drop. by eapply contents_bytes; [apply (ld_txn _ _ B1)|apply (ld_file _ _ B1)].
  - exists (Some (fst st)), s1, L. split; [done|]. unfold segment. rewrite (proj2 (Z.eqb_neq _ _) Hty). cbn [negb].
    constructor; [done|by rewrite Em1|]. by left.
Qed.

Lemma u32_s32 x : u32 (s32 x) = u32 x.
Proof. unfold s32, u32. zdiv. Qed.

Lemma elf_image_mod C n : ∀ off off' st, u32 off = u32 off' → elf_image C n off st = elf_image C n off' st.
Proof.
  induction n as [|n IH]; intros off off' st E; [done|]. cbn [elf_image]. rewrite E. case_match; [|done].
  destruct (segment _ _ _) as [st'|]; [|done]. cbn. apply IH. rewrite <-u32_add_l, E. by rewrite u32_add_l.
Qed.

Lemma segment_grows C ph st st' : segment C ph st = Some st' → fst st ≤ fst st'.
Proof.
  unfold segment. destruct (negb _); [intros [= <-]; lia|]. destruct (_ && _); [|done]. intros [= <-]. cbn [fst]. lia.
Qed.

Lemma elf_image_grows C n : ∀ off st st', elf_image C n off st = Some st' → fst st ≤ fst st'.
Proof.
  induction n as [|n IH]; intros off st st'; cbn [elf_image]; [by intros [= <-]|]. case_match; [|done].
  destruct (segment _ _ st) as [st1|] eqn:E; [|done]. cbn. intros H1%IH. apply segment_grows in E. lia.
Qed.

Lemma load_segments_ok n : ∀ s L st off,
  image_built s L st →
  ∃ o s' L', load_segments n i d (fst st) off s = Done o s' ∧ loading s' L' ∧ mframe d m0 L0 (k_mem s') L' ∧
    match elf_image (contents V ip) n off st with
    | Some st' => (o = Some (fst st') ∧ image_built s' L' st') ∨
        (o = None ∧ Z.of_nat (length L0) ≤ 1025 + npages (fst st'))
    | None => o = None
    end.
Proof.
  induction n as [|n IH]; intros s L st off B; cbn [load_segments elf_image].
  { exists (Some (fst st)), s, L. pose proof B as [B1 B2 _ _ _ _]. split; [done|]. split; [done|]. split; [done|]. by left. }
  destruct (load_segment_ok s L st off B) as (o & s1 & L1 & E1 & [G1 G2 G3]). erewrite bind_done by exact E1.
  unfold header_image in G3. destruct (u32 off + PROGHDR_SIZE <=? _).
  2: { subst o. by exists None, s1, L1. }
  destruct (segment _ _ st) as [st1|] eqn:Eseg; cbn [mbind option_bind].
  2: { subst o. by exists None, s1, L1. }
  destruct G3 as [(-> & B1)|(-> & Hfew)].
  - destruct (IH s1 L1 st1 (s32 (off + PROGHDR_SIZE)) B1) as (o & s' & L' & E & G4 & G5 & G6).
    exists o, s', L'. split; [done|]. split; [done|]. split; [done|].
    by rewrite (elf_image_mod _ _ _ (s32 (off + PROGHDR_SIZE))) by (by rewrite u32_s32).
  - exists None, s1, L1. split; [done|]. split; [done|]. split; [done|].
    destruct (elf_image _ n _ st1) as [st2|] eqn:Eimg; [|done]. right. split; [done|].
    apply elf_image_grows in Eimg. pose proof (npages_mono _ _ Eimg). lia.
Qed.
End image.

(** * Theorems *)

(** C16: The loop of [exec] over the program headers of a file, in a new address space,
    returns and loads the program the file describes.  When every header of type
    PT_LOAD is sound and the bytes it names are in the file, it returns the end of the
    highest segment; exactly the pages below it are mapped, and they hold the bytes of
    the segments and zero elsewhere, unless fewer pages were free than it may need.  When a header is
    unsound or missing it gives up.  In every case only pages of the new space and free
    pages are written and none is lost, so that the caller can free them. *)
Theorem exec_loads_image n s L off :
  loading s L → mapped_upto (k_mem s) d 0 →
  ∃ o s' L', load_segments n i d 0 off s = Done o s' ∧ loading s' L' ∧ mframe d (k_mem s) L (k_mem s') L' ∧
    match elf_image (contents V ip) n off (0, λ _, 0) with
    | Some (sz, img) =>
        (o = Some sz ∧ mapped_upto (k_mem s') d (npages sz) ∧
           ∀ a, 0 ≤ a < 4096 * npages sz → ubyte (k_mem s') d a = img a) ∨
        (o = None ∧ Z.of_nat (length L) ≤ 1025 + npages sz)
    | None => o = None
    end.
Proof.
  intros HL Hm. assert (B : image_built (k_mem s) L s L (0, λ _, 0)).
  { constructor; cbn [fst snd]; [done|done|unfold KERNBASE; lia|done| |done]. intros a Ha. change (npages 0) with 0 in Ha. lia. }
  assert (Hnd : NoDup L) by (apply (ld_free _ _ HL)).
  destruct (load_segments_ok (k_mem s) L Hnd n s L _ off B) as (o & s' & L' & E & H1 & H2 & H3).
  exists o, s', L'. split; [exact E|]. split; [done|]. split; [done|].
  destruct (elf_image _ n off _) as [[sz img]|]; [|done]. destruct H3 as [(-> & [_ _ _ B4 B5 _])|H3]; [left|by right]. done.
Qed.
End load.

(** ** Witness *)

(** A file of one program header, for 4 bytes at offset 32 that go to address 0 of a
    segment of 8 bytes. *)
Definition demo_elf : list Z :=
  [1; 0; 0; 0; 32; 0; 0; 0; 0; 0; 0; 0; 0; 0; 0; 0; 4; 0; 0; 0; 8; 0; 0; 0; 0; 0; 0; 0; 0; 0; 0; 0; 144; 144; 235; 254].
Definition demo_prog : inode := mkInode 1 1 1 1 T_FILE 0 0 1 36 (35 :: replicate 12 0).
Definition demo_block : list Z := splice zero_block 0 demo_elf.

(** The memory of [demo_exec] in a state of the file system. *)
Definition with_memory (s : kernel) : kernel :=
  with_k_icache [demo_prog] (with_k_mem (k_mem demo_exec) (with_k_freelist (k_freelist demo_exec)
    (with_k_end (k_end demo_exec) (with_k_use_lock false (with_k_locking false (with_k_panicked false
      (with_k_screen (k_screen demo_exec) s))))))).

Lemma demo_prog_written :
  ∃ s, txn_rep s ∅ (<[35 := demo_block]> demo_view) 28 ∧ tframe demo_mounted s.
Proof.
  destruct (txn_bread demo_mounted ∅ demo_view 29 35 demo_mounted_txn) as (j & s1 & _ & _ & T1 & F1);
    [rewrite map_size_empty; lia| |by intros j; rewrite lookup_empty|].
  { eapply data_home; [exact demo_mounted_geom|exact demo_mounted_35]. }
  destruct (txn_write s1 _ demo_view 28 j 35 demo_block T1) as (s2 & _ & T2 & F2); [by rewrite lookup_insert_eq| | |].
  { eapply tframe_home; [exact F1|]. eapply data_home; [exact demo_mounted_geom|exact demo_mounted_35]. }
  { split; [by vm_compute|]. apply Forall_splice; [apply zero_block_ok|]. repeat constructor; unfold is_u8; lia. }
  destruct (txn_brelse s2 _ _ 28 j 35 T2) as (s3 & _ & T3 & F3); [by rewrite lookup_insert_eq|].
  rewrite delete_insert_eq, delete_empty in T3.
  exists s3. split; [exact T3|]. eapply tframe_trans; [exact F1|]. by eapply tframe_trans.
Qed.

Definition demo_view' : Z → list Z := <[35 := demo_block]> demo_view.

Lemma demo_view'_35 : data_block demo_mounted demo_view' 35.
Proof.
  destruct demo_mounted_35 as [H1 H2]. split; [exact H1|]. unfold in_use, bfree_in in *. destruct H2 as [H2 H3]. split; [exact H2|].
  unfold demo_view'. rewrite fn_lookup_insert_ne; [exact H3|]. rewrite demo_mounted_sb. by vm_compute.
Qed.

Lemma demo_prog_good : file_good demo_mounted demo_view' demo_prog.
Proof.
  assert (Hz : ∀ bn, (bn < 140)%nat → block_of demo_view' (i_addrs demo_prog) bn = if decide (bn = 0)%nat then 35 else 0).
  { intros bn Hbn. unfold block_of. change (ind_of (i_addrs demo_prog)) with 0. cbn [Z.eqb].
    destruct (Nat.ltb_spec bn 12); [|by rewrite decide_False by lia].
    destruct bn as [|bn]; [done|]. cbn [i_addrs demo_prog nth]. rewrite decide_False by lia.
    rewrite nth_lookup. destruct (replicate 12 0 !! bn) as [x|] eqn:E; [|done].
    by apply lookup_replicate in E as [-> _]. }
  constructor; [constructor| |].
  - done.
  - repeat constructor; unfold is_u32; lia.
  - done.
  - intros bn Hbn. rewrite Hz by done. case_decide; [|done]. intros _. split; [apply demo_view'_35|done].
  - intros bn bn' H1 H2. rewrite !Hz by done. repeat case_decide; try done. by subst.
  - simpl. lia.
  - intros bn Hbn. cbn in Hbn. assert (bn = 0)%nat as -> by lia. by vm_compute.
Qed.

Lemma demo_loading s :
  txn_rep s ∅ demo_view' 28 → tframe demo_mounted s →
  loading (txn := txn_rep) demo_view' 28 0 demo_prog demo_newdir (with_memory s) many_pages.
Proof.
  intros Ht F. pose proof demo_exec_ready as [_ _ _ _ Hk _ _ Hu _ _ _ _].
  assert (SD : same_disk demo_mounted (with_memory s)) by exact (same_disk_tframe _ _ F). constructor.
  - eapply txn_keep; [exact Ht|]. split; [done|]. split; [apply woken_refl|done].
  - apply (sd_geom SD), demo_mounted_geom.
  - reflexivity.
  - reflexivity.
  - discriminate.
  - apply (sd_good _ _ _ _ SD), demo_prog_good.
  - intros H. discriminate H.
  - exact Hk.
  - by vm_compute.
  - intros H. discriminate H.
  - by apply (uvm_mem demo_exec).
Qed.

Lemma demo_elf_contents : contents demo_view' demo_prog = demo_elf.
Proof. by vm_compute. Qed.

Lemma exec_loads_image_witness :
  ∃ s s' : kernel, load_segments 1 0 demo_newdir 0 0 s = Done (Some 8) s' ∧
    mapped_upto (k_mem s') demo_newdir 1 ∧
    (λ a, ubyte (k_mem s') demo_newdir a) <$> seqZ 0 8 = [144; 144; 235; 254; 0; 0; 0; 0].
Proof.
  destruct demo_prog_written as (s & Ht & F). exists (with_memory s).
  destruct (exec_loads_image (txn := txn_rep) demo_view' 28 0 demo_prog demo_newdir 1 (with_memory s) many_pages 0)
    as (o & s' & L' & E & _ & _ & H).
  - exact (demo_loading s Ht F).
  - exact (xr_mapped _ _ _ _ _ _ demo_exec_ready).
  - exists s'. rewrite demo_elf_contents in H.
    destruct (elf_image demo_elf 1 0 (0, λ _, 0)) as [[sz img]|] eqn:Ei; [|by vm_compute in Ei].
    assert (Esz : sz = 8) by (apply (f_equal (option_map fst)) in Ei; vm_compute in Ei; by injection Ei as <-). subst sz.
    assert (Eimg : img <$> seqZ 0 8 = [144; 144; 235; 254; 0; 0; 0; 0]).
    { apply (f_equal (λ o, from_option (λ st, snd st <$> seqZ 0 8) [] o)) in Ei. vm_compute in Ei. vm_compute. exact (eq_sym Ei). }
    destruct H as [(-> & Hm & Hb)|(_ & H)].
    + split; [exact E|]. split; [exact Hm|]. rewrite <-Eimg. apply list_fmap_ext. intros i a Ha.
      apply Hb. apply list_elem_of_lookup_2, elem_of_seqZ in Ha. change (npages 8) with 1. lia.
    + exfalso. rewrite many_pages_length in H. vm_compute in H. by apply H.
Defined.
