(* ===== verification/Bootmain.v ===== *)
(** The boot loader: bootmain.c.

    The loader's state is the physical memory and its conversation with the
    disk controller, which is that of Ide: the values the status register will
    give, and what has been sent to the ports.  The kernel's image is in the
    sectors of drive 0 from the second on.

    The theorem says that after [bootmain] every segment of the kernel is in
    memory as its program header asks. *)

From S2P Require Import Prelude State CString Ide Exec.

Definition SECTSIZE : Z := 512.

Record boot := mkBoot {
  bt_mem : mem;
  bt_status : list Z;
  bt_out : list io;
}.

Section loader.
(** The sectors of the drives. *)
Variable disk : disks.

(** The values of the status register that follow the one that ends the loop
    of [waitdisk]. *)
Fixpoint ready (l : list Z) : option (list Z) :=
  match l with
  | [] => None
  | r :: l' => if Z.land r 0xC0 =? 0x40 then Some l' else ready l'
  end.

Definition waitdisk : prog boot unit :=
  s <- get ;;
  match ready (bt_status s) with
  | None => diverge
  | Some l => modify (λ s, mkBoot (bt_mem s) l (bt_out s))
  end.

Definition outb (port data : Z) : prog boot unit :=
  modify (λ s, mkBoot (bt_mem s) (bt_status s) (bt_out s ++ [Outb port (u8 data)])).

(** [insl(0x1F0, dst, SECTSIZE/4)]: what the controller has ready. *)
Definition insl (dst : Z) : prog boot unit :=
  s <- get ;;
  match snd (ata_run (ata_of (bt_out s)) disk) with
  | [] => diverge
  | d :: _ => modify (λ s, mkBoot (store_bytes (bt_mem s) dst d) (bt_status s) (bt_out s))
  end.

Definition readsect (dst offset : Z) : prog boot unit :=
  waitdisk ;;;
  outb 0x1F2 1 ;;;
  outb 0x1F3 offset ;;;
  outb 0x1F4 (Z.shiftr offset 8) ;;;
  outb 0x1F5 (Z.shiftr offset 16) ;;;
  outb 0x1F6 (Z.lor (Z.shiftr offset 24) 0xE0) ;;;
  outb 0x1F7 0x20 ;;;
  waitdisk ;;;
  insl dst.

Fixpoint readseg_loop (fuel : nat) (pa epa offset : Z) : prog boot unit :=
  match fuel with
  | O => diverge
  | S fuel' =>
      if pa <? epa then
        readsect pa offset ;;;
        readseg_loop fuel' (u32 (pa + SECTSIZE)) epa (u32 (offset + 1))
      else ret tt
  end.

(** A turn reads a sector, and the first may begin before [pa]. *)
Definition readseg (pa count offset : Z) : prog boot unit :=
  let epa := u32 (pa + count) in
  let pa := u32 (pa - offset mod SECTSIZE) in
  let offset := u32 (offset / SECTSIZE + 1) in
  readseg_loop (Z.to_nat (count / SECTSIZE) + 3) pa epa offset.

(** The bytes of a structure in memory. *)
Definition bytes_at (m : mem) (a : Z) (n : nat) : list Z := (λ i, m (a + Z.of_nat i)) <$> seq 0 n.

Definition elf_at (m : mem) (a : Z) : elfhdr := elfhdr_dec (bytes_at m a 52).
Definition ph_at (m : mem) (a : Z) : proghdr := proghdr_dec (bytes_at m a 32).

(** Load a segment. *)
Definition load_ph (p : proghdr) : prog boot unit :=
  let pa := ph_paddr p in
  readseg pa (ph_filesz p) (ph_off p) ;;;
  if ph_filesz p <? ph_memsz p then
    modify (λ s, mkBoot (stosb (bt_mem s) (u32 (pa + ph_filesz p)) 0 (Z.to_nat (ph_memsz p - ph_filesz p)))
      (bt_status s) (bt_out s))
  else ret tt.

Fixpoint load_loop (fuel : nat) (ph eph : Z) : prog boot unit :=
  match fuel with
  | O => diverge
  | S fuel' =>
      if ph <? eph then
        p <- gets (λ s, ph_at (bt_mem s) ph) ;;
        load_ph p ;;;
        load_loop fuel' (u32 (ph + PROGHDR_SIZE)) eph
      else ret tt
  end.

(** The entry point that is called, or nothing when [bootmain] returns. *)
Definition bootmain : prog boot (option Z) :=
  let elf := 0x10000 in
  readseg elf 4096 0 ;;;
  h <- gets (λ s, elf_at (bt_mem s) elf) ;;
  if negb (eh_magic h =? ELF_MAGIC) then ret None else
  let ph := u32 (elf + eh_phoff h) in
  let eph := u32 (ph + PROGHDR_SIZE * eh_phnum h) in
  load_loop (S (Z.to_nat (eh_phnum h))) ph eph ;;;
  h <- gets (λ s, elf_at (bt_mem s) elf) ;;
  ret (Some (eh_entry h)).

(** * The sectors *)

(** The byte [i] of the kernel's image. *)
Definition img (i : Z) : Z := default 0 (disk (0, i / SECTSIZE + 1) !! Z.to_nat (i mod SECTSIZE)).

(** The status register lets [waitdisk] end [n] times. *)
Fixpoint answers (n : nat) (l : list Z) : Prop :=
  match n with
  | O => True
  | S n' => ∃ l', ready l = Some l' ∧ answers n' l'
  end.

Lemma answers_le n m l : (m ≤ n)%nat → answers n l → answers m l.
Proof.
  revert m l. induction n as [|n IH]; intros [|m] l H Ha; try done; [lia|].
  destruct Ha as (l' & E & Ha). exists l'. split; [done|]. apply IH; [lia|done].
Qed.

Context (Hdisk : ∀ k, length (disk k) = 512%nat ∧ Forall is_u8 (disk k)).

(** The drive and the high bits of the sector in the device register. *)
Lemma device_register x : 0 ≤ x < 16 →
  Z.land (Z.shiftr (u8 (Z.lor x 0xE0)) 4) 1 = 0 ∧ Z.land (u8 (Z.lor x 0xE0)) 15 = x.
Proof.
  intros Hx. assert (H : Forall (λ x, Z.land (Z.shiftr (u8 (Z.lor x 0xE0)) 4) 1 = 0 ∧ Z.land (u8 (Z.lor x 0xE0)) 15 = x) (seqZ 0 16)).
  { cbv [seqZ fmap list_fmap seq Z.to_nat Pos.to_nat Pos.iter_op Nat.add]. repeat constructor. }
  rewrite Forall_forall in H. apply H, elem_of_seqZ. lia.
Qed.

(** The registers of the controller name the sector. *)
Lemma sector_registers out offset : 0 ≤ offset < 2 ^ 28 →
  let a := ata_of (out ++ [Outb 0x1F2 (u8 1); Outb 0x1F3 (u8 offset); Outb 0x1F4 (u8 (Z.shiftr offset 8));
    Outb 0x1F5 (u8 (Z.shiftr offset 16)); Outb 0x1F6 (u8 (Z.lor (Z.shiftr offset 24) 0xE0)); Outb 0x1F7 (u8 0x20)]) in
  snd (ata_run a disk) = [disk (0, offset)].
Proof.
  intros Ho a. unfold a, ata_of. rewrite foldl_app. generalize (foldl ata_step ata0 out). intros a0.
  cbn [foldl ata_step Z.eqb Pos.eqb]. unfold ata_run. cbn [a_cmd]. change (u8 0x20 =? IDE_CMD_WRITE) with false. cbn [snd].
  unfold a_drive, a_lba; cbn [a_lo a_mid a_hi a_dev].
  destruct (device_register (Z.shiftr offset 24)) as [-> ->]. { rewrite Z.shiftr_div_pow2 by lia. change (2 ^ 28) with 268435456 in Ho. change (2 ^ 24) with 16777216. zdiv. }
  do 3 f_equal. rewrite !Z.shiftr_div_pow2 by lia. unfold u8. change (2 ^ 8) with 256. change (2 ^ 16) with 65536. change (2 ^ 24) with 16777216. zdiv.
Qed.

(** The state after what is sent, and the memory and the status it does not touch. *)
Lemma readsect_ok dst offset n s : 0 ≤ offset < 2 ^ 28 → answers (S (S n)) (bt_status s) →
  ∃ s', readsect dst offset s = Done tt s' ∧ bt_mem s' = store_bytes (bt_mem s) dst (disk (0, offset)) ∧ answers n (bt_status s').
Proof.
  intros Ho (l1 & E1 & l2 & E2 & Ha). destruct s as [m l out]. cbn in E1. unfold readsect.
  rewrite (bind_done waitdisk _ _ tt (mkBoot m l1 out)) by (unfold waitdisk; unfold bind at 1, get; cbn; by rewrite E1).
  do 6 (erewrite bind_done by reflexivity). cbn [bt_mem bt_status bt_out].
  rewrite (bind_done waitdisk _ _ tt (mkBoot m l2 ((((((out ++ [Outb 498 (u8 1)]) ++ [Outb 499 (u8 offset)]) ++ [Outb 500 (u8 (Z.shiftr offset 8))]) ++
     [Outb 501 (u8 (Z.shiftr offset 16))]) ++ [Outb 502 (u8 (Z.lor (Z.shiftr offset 24) 224))]) ++ [Outb 503 (u8 32)])))
    by (unfold waitdisk; unfold bind at 1, get; cbn; by rewrite E2).
  unfold insl. unfold bind at 1, get. cbn [obind bt_out]. rewrite <-!app_assoc. cbn [app]. rewrite (sector_registers out offset Ho).
  unfold modify. eexists. split; [reflexivity|]. done.
Qed.

(** How many sectors [readseg] reads to reach [epa] from [pa]. *)
Definition nsect (pa epa : Z) : Z := Z.max 0 ((epa - pa + 511) / 512).

(** The memory with the [512 * n] bytes of the image from [512 * (off - 1)] at [pa]. *)
Definition placed (m : mem) (pa n off : Z) : mem :=
  λ x, if (pa <=? x) && (x <? pa + 512 * n) then img (512 * (off - 1) + (x - pa)) else m x.

Lemma sector_img off x : 0 ≤ x < 512 → u8 (default 0 (disk (0, off) !! Z.to_nat x)) = img (512 * (off - 1) + x).
Proof.
  intros Hx. unfold img, SECTSIZE. replace ((512 * (off - 1) + x) / 512 + 1) with off by zdiv.
  replace ((512 * (off - 1) + x) mod 512) with x by zdiv. destruct (Hdisk (0, off)) as [Hl Hb]. apply u8_small.
  destruct (lookup_lt_is_Some_2 (disk (0, off)) (Z.to_nat x)) as [v Hv]; [lia|]. rewrite Hv. cbn.
  by eapply (Forall_lookup_1 is_u8).
Qed.

Lemma readseg_loop_ok fuel : ∀ pa epa off k s, 0 ≤ pa → epa + 512 ≤ 4294967296 → 1 ≤ off → off + nsect pa epa ≤ 2 ^ 28 →
  (Z.to_nat (nsect pa epa) < fuel)%nat → answers (2 * Z.to_nat (nsect pa epa) + k) (bt_status s) →
  ∃ s', readseg_loop fuel pa epa off s = Done tt s' ∧ answers k (bt_status s') ∧
    ∀ x, bt_mem s' x = placed (bt_mem s) pa (nsect pa epa) off x.
Proof.
  change (2 ^ 28) with 268435456. induction fuel as [|fuel IH]; intros pa epa off k s Hpa Hepa Hoff Hmax Hf Ha; [lia|]. cbn [readseg_loop].
  destruct (Z.ltb_spec pa epa) as [Hlt|Hge].
  - assert (Hn : nsect pa epa = nsect (pa + 512) epa + 1) by (unfold nsect; zdiv).
    assert (H0 : 0 ≤ nsect (pa + 512) epa) by (unfold nsect; lia).
    destruct (readsect_ok pa off (2 * Z.to_nat (nsect (pa + 512) epa) + k) s) as (s1 & E1 & M1 & A1).
    { change (2 ^ 28) with 268435456. lia. }
    { eapply answers_le; [|exact Ha]. lia. }
    erewrite bind_done by exact E1. unfold SECTSIZE. rewrite !u32_small by (unfold is_u32; lia).
    destruct (IH (pa + 512) epa (off + 1) k s1) as (s2 & E2 & A2 & M2); try lia; [done|].
    exists s2. split; [done|]. split; [done|]. intros x. rewrite M2, Hn. unfold placed. rewrite M1, store_bytes_spec.
    destruct (Hdisk (0, off)) as [Hl _]. rewrite Hl.
    destruct (decide (pa ≤ x < pa + 512)) as [Hx|Hx].
    + replace ((pa + 512 <=? x) && _) with false by lia. replace ((pa <=? x) && (x <? pa + Z.of_nat 512)) with true by lia.
      replace ((pa <=? x) && (x <? pa + 512 * (nsect (pa + 512) epa + 1))) with true by lia. apply sector_img. lia.
    + replace ((pa <=? x) && (x <? pa + Z.of_nat 512)) with false by lia.
      replace ((pa <=? x) && (x <? pa + 512 * (nsect (pa + 512) epa + 1))) with ((pa + 512 <=? x) && (x <? pa + 512 + 512 * nsect (pa + 512) epa)) by lia.
      case_match; [|done]. f_equal. lia.
  - assert (Hn : nsect pa epa = 0) by (unfold nsect; zdiv). rewrite Hn in *. exists s. split; [done|]. split; [done|].
    intros x. unfold placed. by replace ((pa <=? x) && _) with false by lia.
Qed.

(** [readseg] puts the bytes of the image from [offset] at [pa], and what is
    around them in their sectors around it. *)
Definition first_byte (pa offset : Z) : Z := pa - offset mod 512.
Definition after_read (pa count offset : Z) : Z := first_byte pa offset + 512 * nsect (first_byte pa offset) (pa + count).

(** What must hold for the addresses and sectors of a read to be in range. *)
Definition readable (pa count offset : Z) : Prop :=
  0 ≤ first_byte pa offset ∧ 0 ≤ count ∧ pa + count + 512 ≤ 4294967296 ∧ 0 ≤ offset ∧ offset + count + 1024 ≤ 2 ^ 28.

Lemma readseg_ok pa count offset k s : readable pa count offset →
  answers (2 * Z.to_nat (nsect (first_byte pa offset) (pa + count)) + k) (bt_status s) →
  ∃ s', readseg pa count offset s = Done tt s' ∧ answers k (bt_status s') ∧
    ∀ x, bt_mem s' x = if (first_byte pa offset <=? x) && (x <? after_read pa count offset) then img (offset + (x - pa)) else bt_mem s x.
Proof.
  unfold readable. change (2 ^ 28) with 268435456. intros (H1 & H2 & H3 & H4 & H5) Ha. unfold readseg, SECTSIZE.
  unfold first_byte in *. pose proof (Z.mod_pos_bound offset 512 ltac:(lia)) as Hm.
  assert (Hd : 0 ≤ offset / 512 ≤ offset) by zdiv.
  rewrite (u32_small (pa + count)), (u32_small (pa - _)), (u32_small (offset / 512 + 1)) by (unfold is_u32; lia).
  assert (Hns : nsect (pa - offset mod 512) (pa + count) ≤ count / 512 + 2) by (unfold nsect; zdiv).
  assert (Hc : 0 ≤ count / 512 ≤ count) by zdiv.
  destruct (readseg_loop_ok (Z.to_nat (count / 512) + 3) (pa - offset mod 512) (pa + count) (offset / 512 + 1) k s) as (s' & E & A & M);
    try done; try lia.
  exists s'. split; [exact E|]. split; [done|]. intros x. rewrite M. unfold placed, after_read, first_byte. case_match; [|done].
  f_equal. zdiv.
Qed.

(** * Segments *)

(** The memory a segment may touch. *)
Definition seg_start (p : proghdr) : Z := first_byte (ph_paddr p) (ph_off p).
Definition seg_end (p : proghdr) : Z :=
  Z.max (after_read (ph_paddr p) (ph_filesz p) (ph_off p)) (ph_paddr p + ph_memsz p).

Definition seg_fits (p : proghdr) : Prop :=
  readable (ph_paddr p) (ph_filesz p) (ph_off p) ∧ 0 ≤ ph_memsz p ∧ ph_paddr p + ph_memsz p < 4294967296.

(** The segment is in memory: the bytes of the image, then zeros. *)
Definition loaded (m : mem) (p : proghdr) : Prop :=
  ∀ i, 0 ≤ i < Z.max (ph_filesz p) (ph_memsz p) →
    m (ph_paddr p + i) = if i <? ph_filesz p then img (ph_off p + i) else 0.

Definition seg_wait (p : proghdr) : nat := 2 * Z.to_nat (nsect (first_byte (ph_paddr p) (ph_off p)) (ph_paddr p + ph_filesz p)).

Lemma seg_within p : seg_fits p → seg_start p ≤ ph_paddr p ∧ ph_paddr p + Z.max (ph_filesz p) (ph_memsz p) ≤ seg_end p.
Proof.
  intros ((H1 & H2 & H3 & H4 & H5) & H6 & H7). unfold seg_start, seg_end, after_read, first_byte, nsect in *. zdiv.
Qed.

Lemma load_ph_ok p k s : seg_fits p → answers (seg_wait p + k) (bt_status s) →
  ∃ s', load_ph p s = Done tt s' ∧ answers k (bt_status s') ∧ loaded (bt_mem s') p ∧
    ∀ x, x < seg_start p ∨ seg_end p ≤ x → bt_mem s' x = bt_mem s x.
Proof.
  intros Hfit Ha. pose proof Hfit as (Hr & Hm & Hmax). destruct (readseg_ok _ _ _ k s Hr Ha) as (s1 & E1 & A1 & M1).
  pose proof (seg_within p Hfit) as Hw. pose proof Hr as (R1 & R2 & R3 & R4 & R5).
  assert (Hend : ph_paddr p + ph_filesz p ≤ after_read (ph_paddr p) (ph_filesz p) (ph_off p)).
  { unfold after_read, first_byte, nsect in *. zdiv. }
  unfold load_ph. erewrite bind_done by exact E1. unfold seg_start, seg_end in *. destruct (Z.ltb_spec (ph_filesz p) (ph_memsz p)).
  - unfold modify. eexists. split; [reflexivity|]. cbn [bt_mem bt_status]. split; [done|].
    rewrite u32_small by (unfold is_u32; unfold first_byte in *; pose proof (Z.mod_pos_bound (ph_off p) 512 ltac:(lia)); lia).
    split; [intros i Hi|intros x Hx]; rewrite stosb_spec; unfold mset; rewrite Z2Nat.id by lia.
    + destruct (Z.ltb_spec i (ph_filesz p)).
      * replace ((ph_paddr p + ph_filesz p <=? ph_paddr p + i) && _) with false by lia. rewrite M1.
        replace (_ && _) with true by lia. f_equal. lia.
      * replace (_ && _) with true by lia. done.
    + replace (_ && _) with false by lia. rewrite M1. by replace (_ && _) with false by lia.
  - exists s1. split; [done|]. split; [done|]. split; [intros i Hi|intros x Hx]; rewrite M1.
    + replace (_ && _) with true by lia. replace (i <? ph_filesz p) with true by lia. f_equal. lia.
    + by replace (_ && _) with false by lia.
Qed.

(** Two segments do not touch the same memory; nor does one the scratch space. *)
Definition seg_apart (p q : proghdr) : Prop := seg_end p ≤ seg_start q ∨ seg_end q ≤ seg_start p.
Definition off_scratch (p : proghdr) : Prop := seg_end p ≤ 0x10000 ∨ 0x11000 ≤ seg_start p.

Fixpoint apart (l : list proghdr) : Prop :=
  match l with
  | [] => True
  | p :: l' => Forall (seg_apart p) l' ∧ apart l'
  end.

(** The first page of the image is in the scratch space. *)
Definition scratch (m : mem) : Prop := ∀ i, 0 ≤ i < 4096 → m (0x10000 + i) = img i.

Lemma scratch_bytes m o n : scratch m → 0 ≤ o → o + Z.of_nat n ≤ 4096 → bytes_at m (0x10000 + o) n = bytes_at img o n.
Proof.
  intros Hs Ho Hn. unfold bytes_at. apply list_fmap_ext. intros i x Hx. apply lookup_seq in Hx as [-> Hlt].
  rewrite <-Z.add_assoc. apply Hs. lia.
Qed.

Lemma loaded_frame m m' p : seg_fits p → loaded m p → (∀ x, seg_start p ≤ x < seg_end p → m' x = m x) → loaded m' p.
Proof. intros Hf Hl Hm i Hi. rewrite Hm; [by apply Hl|]. pose proof (seg_within p Hf). lia. Qed.

Definition total_wait (l : list proghdr) : nat := foldr (λ p, Nat.add (seg_wait p)) 0%nat l.

Lemma load_loop_ok l : ∀ a fuel k s,
  (∀ j p, l !! j = Some p → ph_at img (a + 32 * Z.of_nat j) = p) → 0 ≤ a → a + 32 * Z.of_nat (length l) ≤ 4096 →
  (length l < fuel)%nat → Forall seg_fits l → Forall off_scratch l → apart l → scratch (bt_mem s) →
  answers (total_wait l + k) (bt_status s) →
  ∃ s', load_loop fuel (0x10000 + a) (0x10000 + a + 32 * Z.of_nat (length l)) s = Done tt s' ∧ scratch (bt_mem s') ∧
    Forall (loaded (bt_mem s')) l ∧ ∀ x, Forall (λ p, x < seg_start p ∨ seg_end p ≤ x) l → bt_mem s' x = bt_mem s x.
Proof.
  induction l as [|p l IH]; intros a fuel k s Hl Ha Hmax Hf Hfit Hoff Hap Hs Hans; (destruct fuel as [|fuel]; [lia|]); cbn [load_loop length total_wait foldr] in *.
  - replace (_ <? _) with false by lia. exists s. by repeat split.
  - replace (0x10000 + a <? _) with true by lia. unfold bind at 1, gets. cbn [obind].
    apply Forall_cons in Hfit as [Hp Hfit]. apply Forall_cons in Hoff as [Ho Hoff]. destruct Hap as [Hp2 Hap].
    assert (Eph : ph_at (bt_mem s) (0x10000 + a) = p).
    { pose proof (Hl 0%nat p eq_refl) as E. rewrite Z.mul_0_r, Z.add_0_r in E. rewrite <-E. unfold ph_at. f_equal. apply scratch_bytes; [done|lia|lia]. }
    rewrite Eph. destruct (load_ph_ok p (total_wait l + k) s Hp) as (s1 & E1 & A1 & L1 & M1); [by rewrite Nat.add_assoc|].
    erewrite bind_done by exact E1. unfold PROGHDR_SIZE. rewrite u32_small by (unfold is_u32; lia).
    assert (Hs1 : scratch (bt_mem s1)).
    { intros i Hi. rewrite M1; [by apply Hs|]. unfold off_scratch in Ho. lia. }
    destruct (IH (a + 32) fuel k s1) as (s2 & E2 & S2 & L2 & M2); try done; try lia.
    { intros j q Hq. rewrite <-(Hl (S j) q Hq). f_equal. lia. }
    replace (0x10000 + a + 32) with (0x10000 + (a + 32)) by lia.
    replace (0x10000 + a + 32 * Z.of_nat (S (length l))) with (0x10000 + (a + 32) + 32 * Z.of_nat (length l)) by lia.
    exists s2. split; [exact E2|]. split; [done|]. split.
    + constructor; [|done]. eapply loaded_frame; [done|exact L1|]. intros x Hx. apply M2.
      eapply Forall_impl; [exact Hp2|]. intros q Hq. unfold seg_apart in Hq. lia.
    + intros x Hx. apply Forall_cons in Hx as [Hx1 Hx2]. rewrite M2 by done. by apply M1.
Qed.

(** The program headers of the image. *)
Definition headers : list proghdr :=
  let h := elf_at img 0 in
  (λ k, ph_at img (eh_phoff h + 32 * Z.of_nat k)) <$> seq 0 (Z.to_nat (eh_phnum h)).

Lemma img_byte i : is_u8 (img i).
Proof.
  unfold img. destruct (Hdisk (0, i / SECTSIZE + 1)) as [_ H]. destruct (_ !! _) as [v|] eqn:E; cbn; [|unfold is_u8; lia].
  by eapply (Forall_lookup_1 is_u8).
Qed.

Lemma header_nonneg : 0 ≤ eh_phoff (elf_at img 0) ∧ 0 ≤ eh_phnum (elf_at img 0).
Proof.
  assert (H : ∀ a b n, 0 ≤ le_dec (slice (bytes_at img 0 n) a b)); [|split; apply H].
  intros a b n. apply le_dec_range, Forall_slice. unfold bytes_at. apply Forall_fmap, Forall_true. intros x. apply img_byte.
Qed.

(** The first page of the image reaches the scratch space. *)
Lemma read_header k s : answers (16 + k) (bt_status s) →
  ∃ s', readseg 0x10000 4096 0 s = Done tt s' ∧ answers k (bt_status s') ∧ scratch (bt_mem s').
Proof.
  intros Ha. destruct (readseg_ok 0x10000 4096 0 k s) as (s1 & E1 & A1 & M1).
  { unfold readable. change (first_byte 0x10000 0) with 0x10000. change (2 ^ 28) with 268435456. lia. }
  { exact Ha. }
  exists s1. split; [done|]. split; [done|]. intros i Hi. rewrite M1. change (first_byte 0x10000 0) with 0x10000.
  change (after_read 0x10000 4096 0) with 0x11000. replace (_ && _) with true by lia. f_equal. lia.
Qed.

(** C20: the boot loader loads the kernel.  Let the image of the kernel begin in
    the second sector of the disk, be an ELF file whose program headers are in
    its first page, and ask for segments that are in the range of the disk
    and of the memory and that, rounded to sectors, overlap neither each
    other nor the scratch space of the loader.  Then [bootmain] ends its loops and
    calls the entry point of the image, with each segment at its physical
    address: the bytes of the file, and zeros up to the size in memory. *)
Theorem bootmain_loads s :
  let h := elf_at img 0 in
  eh_magic h = ELF_MAGIC → eh_phoff h + 32 * eh_phnum h ≤ 4096 →
  Forall seg_fits headers → Forall off_scratch headers → apart headers →
  answers (16 + total_wait headers) (bt_status s) →
  ∃ s', bootmain s = Done (Some (eh_entry h)) s' ∧ Forall (loaded (bt_mem s')) headers.
Proof.
  intros h Hmagic Hph Hfit Hoff Hap Hans. destruct header_nonneg as [N1 N2]. fold h in N1, N2.
  destruct (read_header (total_wait headers) s Hans) as (s1 & E1 & A1 & S1).
  assert (Eh : ∀ m, scratch m → elf_at m 0x10000 = h).
  { intros m Hm. unfold h, elf_at. f_equal. apply (scratch_bytes m 0 52 Hm); lia. }
  assert (Hlen : Z.of_nat (length headers) = eh_phnum h) by (unfold headers; fold h; rewrite length_fmap, length_seq; lia).
  destruct (load_loop_ok headers (eh_phoff h) (S (Z.to_nat (eh_phnum h))) 0 s1) as (s2 & E2 & S2 & L2 & _); try done; try lia.
  { intros j p Hp. unfold headers in Hp. fold h in Hp. apply list_lookup_fmap_Some in Hp as (k & -> & Hk). by apply lookup_seq in Hk as [-> _]. }
  { by rewrite Nat.add_0_r. }
  exists s2. split; [|done]. unfold bootmain. erewrite bind_done by exact E1. unfold bind at 1, gets. cbn [obind]. rewrite (Eh _ S1), Hmagic.
  change (negb (ELF_MAGIC =? ELF_MAGIC)) with false. cbn iota. rewrite Hlen in E2. unfold PROGHDR_SIZE.
  rewrite (u32_small (0x10000 + eh_phoff h)), (u32_small (0x10000 + eh_phoff h + 32 * eh_phnum h)) by (unfold is_u32; lia).
  erewrite bind_done by exact E2. unfold bind, gets. cbn [obind]. by rewrite (Eh _ S2).
Qed.
End loader.

(** ** A small kernel *)

(** An ELF header with one program header: 700 bytes of the file from 4096 at 1 MB, 1000 in memory. *)
Definition demo_sector (n : Z) : list Z :=
  if n =? 1 then
    le_enc 4 ELF_MAGIC ++ replicate 20 0 ++ le_enc 4 0x10000c ++ le_enc 4 52 ++ replicate 12 0 ++ le_enc 2 1 ++ replicate 6 0 ++
    le_enc 4 1 ++ le_enc 4 4096 ++ le_enc 4 0x80100000 ++ le_enc 4 0x100000 ++ le_enc 4 700 ++ le_enc 4 1000 ++ le_enc 4 7 ++ le_enc 4 4096 ++
    replicate 428 0
  else replicate 512 (u8 n).

Definition demo_disk : disks := λ k, demo_sector (snd k).

Lemma demo_disk_ok k : length (demo_disk k) = 512%nat ∧ Forall is_u8 (demo_disk k).
Proof.
  unfold demo_disk, demo_sector. case_match.
  - split; [reflexivity|]. repeat (apply Forall_app; split); try apply le_enc_bytes; apply Forall_replicate; unfold is_u8; lia.
  - split; [apply length_replicate|]. apply Forall_replicate, u8_range.
Qed.

Lemma demo_headers : headers demo_disk = [mkProghdr 1 4096 0x80100000 0x100000 700 1000 7 4096].
Proof. vm_compute. reflexivity. Qed.

Lemma bootmain_loads_witness : ∃ s', bootmain demo_disk (mkBoot (λ _, 0) (replicate 20 0x40) []) = Done (Some 0x10000c) s' ∧
  bt_mem s' 0x100000 = 9 ∧ bt_mem s' (0x100000 + 999) = 0.
Proof.
  destruct (bootmain_loads demo_disk demo_disk_ok (mkBoot (λ _, 0) (replicate 20 0x40) [])) as (s' & E & L).
  - vm_compute. reflexivity.
  - vm_compute. discriminate.
  - rewrite demo_headers. apply Forall_singleton. unfold seg_fits, readable. vm_compute. repeat split; discriminate.
  - rewrite demo_headers. apply Forall_singleton. right. vm_compute. discriminate.
  - rewrite demo_headers. split; [apply Forall_nil_2|exact Logic.I].
  - rewrite demo_headers. vm_compute. do 20 (eexists; split; [reflexivity|]). exact Logic.I.
  - exists s'. split; [exact E|]. rewrite demo_headers in L. apply Forall_cons in L as [L _]. split.
    + transitivity (img demo_disk 4096); [|vm_compute; reflexivity]. apply (L 0). vm_compute. split; [discriminate|reflexivity].
    + apply (L 999). vm_compute. split; [discriminate|reflexivity].
Defined.
