(* ===== verification/Sysfile.v ===== *)
(** The system calls on files: sysfile.c.

    A call fetches its arguments from the user stack and returns the value that
    goes to [%eax].  What [fileread] and [filestat] return is stored in user
    memory after the call, what [filewrite] takes is read before it. *)

From S2P Require Import Prelude State Spinlock CString Cprintf Mmu Kalloc Vm Sched Bio Log Txn Inode Console Fs Dir Pipe File Proc Args Exec.
Import KLock.

(** * Descriptors *)

(** The descriptor and the file, or [None] for -1. *)
Definition argfd (n : Z) : K (option (nat * nat)) :=
  ofd <- argint n ;;
  match ofd with
  | None => ret None
  | Some fd =>
      if (fd <? 0) || (Z.of_nat NOFILE <=? fd) then ret None else
      me <- myproc ;;
      cur <- proc_at me ;;
      match p_ofile cur !! Z.to_nat fd with
      | Some (Some f) => ret (Some (Z.to_nat fd, f))
      | _ => ret None
      end
  end.

Definition set_fd (me : option nat) (fd : nat) (f : option nat) : K unit :=
  set_proc me (λ p, with_p_ofile (<[fd := f]> (p_ofile p)) p).

(** The descriptor, or [None] for -1. *)
Definition fdalloc (f : nat) : K (option nat) :=
  me <- myproc ;;
  cur <- proc_at me ;;
  match find_index (λ o, bool_decide (o = None)) (p_ofile cur) with
  | Some fd =>
      set_fd me fd (Some f) ;;;
      ret (Some fd)
  | None => ret None
  end.

Definition sys_dup : K Z :=
  a <- argfd 0 ;;
  match a with
  | None => ret (-1)
  | Some (_, f) =>
      ofd <- fdalloc f ;;
      match ofd with
      | None => ret (-1)
      | Some fd => filedup f ;;; ret (Z.of_nat fd)
      end
  end.

(** The arguments of [read] and [write]: the file, the address and the size. *)
Definition arg_rw : K (option (nat * Z * Z)) :=
  a <- argfd 0 ;;
  match a with
  | None => ret None
  | Some (_, f) =>
      on <- argint 2 ;;
      match on with
      | None => ret None
      | Some n =>
          op <- argptr 1 n ;;
          ret ((λ p, (f, p, n)) <$> op)
      end
  end.

Definition sys_read : K Z :=
  a <- arg_rw ;;
  match a with
  | None => ret (-1)
  | Some (f, p, n) =>
      r <- fileread f n ;;
      wr_user_bytes p (snd r) ;;;
      ret (fst r)
  end.

Definition sys_write : K Z :=
  a <- arg_rw ;;
  match a with
  | None => ret (-1)
  | Some (f, p, n) =>
      src <- rd_user_bytes p (Z.to_nat n) ;;
      filewrite f src
  end.

Definition sys_close : K Z :=
  a <- argfd 0 ;;
  match a with
  | None => ret (-1)
  | Some (fd, f) =>
      me <- myproc ;;
      set_fd me fd None ;;;
      fileclose f ;;;
      ret 0
  end.

(** The layout of [struct stat]: 20 bytes, two of them padding, which
    [filestat] leaves as they are. *)
Definition STAT_SIZE : Z := 20.

Definition sys_fstat : K Z :=
  a <- argfd 0 ;;
  match a with
  | None => ret (-1)
  | Some (_, f) =>
      ost <- argptr 1 STAT_SIZE ;;
      match ost with
      | None => ret (-1)
      | Some st =>
          r <- filestat f ;;
          match r with
          | None => ret (-1)
          | Some x =>
              wr_user_bytes st (le_enc 2 (st_type x)) ;;;
              wr_user_bytes (u32 (st + 4)) (le_enc 4 (st_dev x)) ;;;
              wr_user_bytes (u32 (st + 8)) (le_enc 4 (st_ino x)) ;;;
              wr_user_bytes (u32 (st + 12)) (le_enc 2 (st_nlink x)) ;;;
              wr_user_bytes (u32 (st + 16)) (le_enc 4 (st_size x)) ;;;
              ret 0
          end
      end
  end.

(** * Links *)

Definition set_nlink (i : nat) (d : Z) : K unit :=
  set_inode i (λ ip, with_i_nlink (s16 (i_nlink ip + d)) ip).

(** The label [bad] of [sys_link]. *)
Definition link_bad (ip : nat) : K Z :=
  ilock (Some ip) ;;;
  set_nlink ip (-1) ;;;
  iupdate ip ;;;
  iunlockput ip ;;;
  end_op ;;;
  ret (-1).

Definition sys_link : K Z :=
  oold <- argstr 0 ;;
  match oold with
  | None => ret (-1)
  | Some old =>
      onew <- argstr 1 ;;
      match onew with
      | None => ret (-1)
      | Some new =>
          begin_op ;;;
          oip <- namei old ;;
          match oip with
          | None => end_op ;;; ret (-1)
          | Some ip =>
              ilock (Some ip) ;;;
              i <- inode_at ip ;;
              if i_type i =? T_DIR then
                iunlockput ip ;;;
                end_op ;;;
                ret (-1)
              else
                set_nlink ip 1 ;;;
                iupdate ip ;;;
                iunlock (Some ip) ;;;
                r <- nameiparent new ;;
                match r with
                | (None, _) => link_bad ip
                | (Some dp, name) =>
                    ilock (Some dp) ;;;
                    d <- inode_at dp ;;
                    i <- inode_at ip ;;
                    ok <- (if negb (i_dev d =? i_dev i) then ret false
                           else r <- dirlink dp name (i_inum i) ;; ret (negb (r <? 0))) ;;
                    if negb ok then
                      iunlockput dp ;;;
                      link_bad ip
                    else
                      iunlockput dp ;;;
                      iput ip ;;;
                      end_op ;;;
                      ret 0
                end
          end
      end
  end.

(** One entry of [isdirempty]; [Some false] is its [return 0]. *)
Definition isdirempty_body (dp : nat) (j : nat) : K (option bool) :=
  r <- readi dp (16 * Z.of_nat j) 16 ;;
  if negb (fst r =? 16) then panic "isdirempty: readi" else
  if negb (de_inum (dirent_dec (snd r)) =? 0) then ret (Some false) else ret None.

Definition isdirempty (dp : nat) : K bool :=
  d <- inode_at dp ;;
  r <- for_return (seq 2 (dirents (i_size d) - 2)) (isdirempty_body dp) ;;
  ret (default true r).

(** The label [bad] of [sys_unlink]. *)
Definition unlink_bad (dp : nat) : K Z :=
  iunlockput dp ;;;
  end_op ;;;
  ret (-1).

Definition sys_unlink : K Z :=
  opath <- argstr 0 ;;
  match opath with
  | None => ret (-1)
  | Some path =>
      begin_op ;;;
      r <- nameiparent path ;;
      match r with
      | (None, _) => end_op ;;; ret (-1)
      | (Some dp, name) =>
          ilock (Some dp) ;;;
          if (namecmp name (bytes ".") =? 0) || (namecmp name (bytes "..") =? 0) then unlink_bad dp else
          r <- dirlookup dp name ;;
          match r with
          | None => unlink_bad dp
          | Some (ip, off) =>
              ilock (Some ip) ;;;
              i <- inode_at ip ;;
              if i_nlink i <? 1 then panic "unlink: nlink < 1" else
              keep <- (if i_type i =? T_DIR then e <- isdirempty ip ;; ret (negb e) else ret false) ;;
              if (keep : bool) then
                iunlockput ip ;;;
                unlink_bad dp
              else
                r <- writei dp (replicate 16 0) off ;;
                if negb (r =? 16) then panic "unlink: writei" else
                i <- inode_at ip ;;
                (if i_type i =? T_DIR then
                   set_nlink dp (-1) ;;;
                   iupdate dp
                 else ret tt) ;;;
                iunlockput dp ;;;
                set_nlink ip (-1) ;;;
                iupdate ip ;;;
                iunlockput ip ;;;
                end_op ;;;
                ret 0
          end
      end
  end.

(** * Creating and opening *)

Definition create (path : list Z) (type major minor : Z) : K (option nat) :=
  r <- nameiparent path ;;
  match r with
  | (None, _) => ret None
  | (Some dp, name) =>
      ilock (Some dp) ;;;
      r <- dirlookup dp name ;;
      match r with
      | Some (ip, _) =>
          iunlockput dp ;;;
          ilock (Some ip) ;;;
          i <- inode_at ip ;;
          if (type =? T_FILE) && (i_type i =? T_FILE) then ret (Some ip) else
          iunlockput ip ;;;
          ret None
      | None =>
          d <- inode_at dp ;;
          ip <- ialloc (i_dev d) type ;;
          ilock (Some ip) ;;;
          set_inode ip (with_i_major major) ;;;
          set_inode ip (with_i_minor minor) ;;;
          set_inode ip (with_i_nlink 1) ;;;
          iupdate ip ;;;
          (if type =? T_DIR then
             set_nlink dp 1 ;;;
             iupdate dp ;;;
             i <- inode_at ip ;;
             r <- dirlink ip (bytes ".") (i_inum i) ;;
             if r <? 0 then panic "create dots" else
             d <- inode_at dp ;;
             r <- dirlink ip (bytes "..") (i_inum d) ;;
             if r <? 0 then panic "create dots" else ret tt
           else ret tt) ;;;
          i <- inode_at ip ;;
          r <- dirlink dp name (i_inum i) ;;
          if r <? 0 then panic "create: dirlink" else
          iunlockput dp ;;;
          ret (Some ip)
      end
  end.

(** fcntl.h. *)
Definition O_RDONLY : Z := 0x000.
Definition O_WRONLY : Z := 0x001.
Definition O_RDWR : Z := 0x002.
Definition O_CREATE : Z := 0x200.

Definition has_flag (omode f : Z) : bool := negb (Z.land omode f =? 0).

(** The inode to open, locked, or [None] after [end_op]. *)
Definition open_inode (path : list Z) (omode : Z) : K (option nat) :=
  if has_flag omode O_CREATE then
    oip <- create path T_FILE 0 0 ;;
    match oip with
    | None => end_op ;;; ret None
    | Some ip => ret (Some ip)
    end
  else
    oip <- namei path ;;
    match oip with
    | None => end_op ;;; ret None
    | Some ip =>
        ilock (Some ip) ;;;
        i <- inode_at ip ;;
        if (i_type i =? T_DIR) && negb (omode =? O_RDONLY) then
          iunlockput ip ;;;
          end_op ;;;
          ret None
        else ret (Some ip)
    end.

(** The exit of [sys_open] without a file or without a descriptor. *)
Definition open_bad (f : option nat) (ip : nat) : K Z :=
  close_opt f ;;;
  iunlockput ip ;;;
  end_op ;;;
  ret (-1).

Definition sys_open : K Z :=
  opath <- argstr 0 ;;
  match opath with
  | None => ret (-1)
  | Some path =>
      oomode <- argint 1 ;;
      match oomode with
      | None => ret (-1)
      | Some omode =>
          begin_op ;;;
          oip <- open_inode path omode ;;
          match oip with
          | None => ret (-1)
          | Some ip =>
              ofl <- filealloc ;;
              match ofl with
              | None => open_bad None ip
              | Some f =>
                  ofd <- fdalloc f ;;
                  match ofd with
                  | None => open_bad (Some f) ip
                  | Some fd =>
                      iunlock (Some ip) ;;;
                      end_op ;;;
                      set_file f (with_f_type FD_INODE) ;;;
                      set_file f (with_f_ip (Some ip)) ;;;
                      set_file f (with_f_off 0) ;;;
                      set_file f (with_f_readable (negb (has_flag omode O_WRONLY))) ;;;
                      set_file f (with_f_writable (has_flag omode O_WRONLY || has_flag omode O_RDWR)) ;;;
                      ret (Z.of_nat fd)
                  end
              end
          end
      end
  end.

(** The end of [sys_mkdir] and [sys_mknod]. *)
Definition created (oip : option nat) : K Z :=
  match oip with
  | None => end_op ;;; ret (-1)
  | Some ip =>
      iunlockput ip ;;;
      end_op ;;;
      ret 0
  end.

Definition sys_mkdir : K Z :=
  begin_op ;;;
  opath <- argstr 0 ;;
  oip <- match opath with
         | None => ret None
         | Some path => create path T_DIR 0 0
         end ;;
  created oip.

Definition sys_mknod : K Z :=
  begin_op ;;;
  opath <- argstr 0 ;;
  oip <- match opath with
         | None => ret None
         | Some path =>
             omajor <- argint 1 ;;
             match omajor with
             | None => ret None
             | Some major =>
                 ominor <- argint 2 ;;
                 match ominor with
                 | None => ret None
                 | Some minor => create path T_DEV (s16 major) (s16 minor)
                 end
             end
         end ;;
  created oip.

Definition sys_chdir : K Z :=
  me <- myproc ;;
  begin_op ;;;
  opath <- argstr 0 ;;
  oip <- match opath with
         | None => ret None
         | Some path => namei path
         end ;;
  match oip with
  | None => end_op ;;; ret (-1)
  | Some ip =>
      ilock (Some ip) ;;;
      i <- inode_at ip ;;
      if negb (i_type i =? T_DIR) then
        iunlockput ip ;;;
        end_op ;;;
        ret (-1)
      else
        iunlock (Some ip) ;;;
        cur <- proc_at me ;;
        cwd <- deref (p_cwd cur) ;;
        iput cwd ;;;
        end_op ;;;
        set_proc me (with_p_cwd (Some ip)) ;;;
        ret 0
  end.

(** * Programs and pipes *)

(** The loop of [sys_exec] from argument [i] on; [n] more fit in [argv]. *)
Fixpoint exec_argv (n : nat) (uargv : Z) (acc : list (list Z)) : K (option (list (list Z))) :=
  match n with
  | O => ret None
  | S n' =>
      ouarg <- fetchint (u32 (uargv + 4 * Z.of_nat (length acc))) ;;
      match ouarg with
      | None => ret None
      | Some uarg =>
          if uarg =? 0 then ret (Some acc) else
          oarg <- fetchstr (u32 uarg) ;;
          match oarg with
          | None => ret None
          | Some arg => exec_argv n' uargv (acc ++ [arg])
          end
      end
  end.

Definition sys_exec (L : image) : K Z :=
  opath <- argstr 0 ;;
  match opath with
  | None => ret (-1)
  | Some path =>
      ouargv <- argint 1 ;;
      match ouargv with
      | None => ret (-1)
      | Some uargv =>
          oargv <- exec_argv (Z.to_nat MAXARG) (u32 uargv) [] ;;
          match oargv with
          | None => ret (-1)
          | Some argv => exec L path argv
          end
      end
  end.

Definition sys_pipe : K Z :=
  ofd <- argptr 0 8 ;;
  match ofd with
  | None => ret (-1)
  | Some fd =>
      r <- pipealloc ;;
      match r with
      | None => ret (-1)
      | Some (rf, wf) =>
          me <- myproc ;;
          ofd0 <- fdalloc rf ;;
          match ofd0 with
          | None => fileclose rf ;;; fileclose wf ;;; ret (-1)
          | Some fd0 =>
              ofd1 <- fdalloc wf ;;
              match ofd1 with
              | None =>
                  set_fd me fd0 None ;;;
                  fileclose rf ;;;
                  fileclose wf ;;;
                  ret (-1)
              | Some fd1 =>
                  wr_user_bytes fd (le_enc 4 (Z.of_nat fd0)) ;;;
                  wr_user_bytes (u32 (fd + 4)) (le_enc 4 (Z.of_nat fd1)) ;;;
                  ret 0
              end
          end
      end
  end.
