(* ===== verification/Descr.v ===== *)
(** Descriptors: what [sys_dup], [sys_close] and [fork] do to the open files.

    The table of open files counts, for each file, the descriptors of all processes that
    refer to it; a file is reused when its count is 0, so that the system is right
    only as long as the counts are.  [fds_ok] says that they are; the calls keep it. *)

From S2P Require Import Prelude State Spinlock CString Mmu Kalloc Vm Uvm Uvcopy Sched Bio Log Txn Inode Fs Pipe File Proc Fork Args Uargs Sysfile.
Import KLock.

(** * Counting *)

Definition ind (f : nat) (o : option nat) : Z := if decide (o = Some f) then 1 else 0.

(** The descriptors of one process that refer to the file [f], and those of all. *)
Definition cnt (f : nat) (l : list (option nat)) : Z := foldr (λ o n, ind f o + n) 0 l.
Definition refs (f : nat) (os : list (list (option nat))) : Z := foldr (λ l n, cnt f l + n) 0 os.

Lemma ind_range f o : 0 ≤ ind f o ≤ 1.
Proof. unfold ind. case_decide; lia. Qed.

Lemma cnt_range f l : 0 ≤ cnt f l ≤ Z.of_nat (length l).
Proof.
  induction l as [|o l IH]; [done|]. cbn [cnt foldr length]. fold (cnt f l). pose proof (ind_range f o). lia.
Qed.

Lemma refs_range f os n : Forall (λ l, length l = n) os → 0 ≤ refs f os ≤ Z.of_nat n * Z.of_nat (length os).
Proof.
  induction 1 as [|l os Hl _ IH]; [cbn; lia|]. cbn [refs foldr length]. fold (refs f os).
  pose proof (cnt_range f l). lia.
Qed.

Lemma cnt_insert f l i o o' : l !! i = Some o → cnt f (<[i := o']> l) = cnt f l - ind f o + ind f o'.
Proof.
  revert i. induction l as [|x l IH]; intros [|i] Hi; [done|done| |].
  - injection Hi as ->. cbn. lia.
  - change (cnt f (<[S i := o']> (x :: l))) with (ind f x + cnt f (<[i := o']> l)).
    change (cnt f (x :: l)) with (ind f x + cnt f l). rewrite IH by done. lia.
Qed.

Lemma refs_insert f os i l l' : os !! i = Some l → refs f (<[i := l']> os) = refs f os - cnt f l + cnt f l'.
Proof.
  revert i. induction os as [|x os IH]; intros [|i] Hi; [done|done| |].
  - injection Hi as ->. cbn. lia.
  - change (refs f (<[S i := l']> (x :: os))) with (cnt f x + refs f (<[i := l']> os)).
    change (refs f (x :: os)) with (cnt f x + refs f os). rewrite IH by done. lia.
Qed.

Lemma cnt_in f l : Some f ∈ l → 1 ≤ cnt f l.
Proof.
  intros [i Hi]%list_elem_of_lookup. revert i Hi. induction l as [|x l IH]; intros [|i] Hi; [done|done| |].
  - injection Hi as ->. cbn. fold (cnt f l). pose proof (cnt_range f l). unfold ind. rewrite decide_True by done. lia.
  - cbn. fold (cnt f l). pose proof (ind_range f x). specialize (IH i Hi). lia.
Qed.

Lemma refs_in f os i l : os !! i = Some l → Some f ∈ l → 1 ≤ refs f os.
Proof.
  revert i. induction os as [|x os IH]; intros [|i] Hi Hf; [done|done| |].
  - injection Hi as ->. cbn. fold (refs f os). pose proof (cnt_in f l Hf).
    assert (0 ≤ refs f os); [|lia]. clear. induction os as [|y os IH]; [done|]. cbn. fold (refs f os).
    pose proof (cnt_range f y). lia.
  - cbn. fold (refs f os). pose proof (cnt_range f x). specialize (IH i Hi Hf). lia.
Qed.

(** * The invariant *)

(** The descriptors of every process, and the table of files. *)
Definition ofiles (t : list proc) : list (list (option nat)) := p_ofile <$> t.

Record fds_ok (os : list (list (option nat))) (ft : list file) : Prop := mkFdsOk {
  fd_procs : (length os ≤ NPROC)%nat;
  fd_len : Forall (λ l, length l = NOFILE) os;
  fd_open : ∀ i l f, os !! i = Some l → Some f ∈ l → is_Some (ft !! f);
  fd_ref : ∀ f fl, ft !! f = Some fl → f_ref fl = refs f os;
}.

Lemma fds_bound os ft f fl : fds_ok os ft → ft !! f = Some fl → 0 ≤ f_ref fl ≤ 1024.
Proof.
  intros [H1 H2 _ H4] Hf. rewrite (H4 f fl Hf). pose proof (refs_range f os NOFILE H2). unfold NPROC, NOFILE in *. lia.
Qed.

(** One descriptor changes, and the counts with it. *)
Lemma fds_change os ft ft' me l fd o o' :
  fds_ok os ft → os !! me = Some l → l !! fd = Some o →
  (∀ g, o' = Some g → is_Some (ft !! g)) → (∀ g, is_Some (ft !! g) → is_Some (ft' !! g)) →
  (∀ g fl', ft' !! g = Some fl' → ∃ fl, ft !! g = Some fl ∧ f_ref fl' = f_ref fl - ind g o + ind g o') →
  fds_ok (<[me := <[fd := o']> l]> os) ft'.
Proof.
  intros [H1 H2 H3 H4] Hme Hfd Ho' Hkeep Href. constructor.
  - by rewrite length_insert.
  - apply Forall_insert; [done|]. rewrite length_insert. by eapply Forall_lookup_1 in H2.
  - intros i l' f Hi Hf. apply Hkeep. rewrite list_lookup_insert in Hi. case_decide as E; [|by eapply H3].
    destruct E as [-> _]. injection Hi as <-. apply list_elem_of_lookup in Hf as [j Hj].
    rewrite list_lookup_insert in Hj. case_decide as E; [destruct E as [-> _]; injection Hj as ->; by apply Ho'|].
    eapply H3; [done|]. by eapply list_elem_of_lookup_2.
  - intros g fl' Hg. destruct (Href g fl' Hg) as (fl & Hfl & ->). rewrite (refs_insert g os me l) by done.
    rewrite (cnt_insert g l fd o o' Hfd), (H4 g fl Hfl). lia.
Qed.

Lemma ofiles_insert t i p : ofiles (<[i := p]> t) = <[i := p_ofile p]> (ofiles t).
Proof. apply list_fmap_insert. Qed.

Lemma ofiles_wake ch t : ofiles (wake ch <$> t) = ofiles t.
Proof.
  unfold ofiles. rewrite <-list_fmap_compose. apply list_fmap_ext. intros i p _. unfold wake. cbn. by repeat case_match.
Qed.

(** * Duplicating and closing *)

(** The first descriptor of a process that is free. *)
Definition free_fd (p : proc) : option nat := find_index (λ o, bool_decide (o = None)) (p_ofile p).

Lemma free_fd_none p fd : free_fd p = Some fd → p_ofile p !! fd = Some None.
Proof. intros [(o & Ho & Hd) _]%find_index_Some. apply bool_decide_eq_true in Hd. by subst. Qed.

(** What the last [fileclose] of a file does with the file it has taken out of the table. *)
Definition last_close (ff : file) : K unit :=
  match f_type ff with
  | FD_PIPE => pipeclose (f_pipe ff) (f_writable ff)
  | FD_INODE => begin_op ;;; ip <- deref (f_ip ff) ;; iput ip ;;; end_op
  | FD_NONE => ret tt
  end.

Lemma fileclose_ok s f fl :
  ftable_ready s → k_ftable s !! f = Some fl → 1 ≤ f_ref fl < 2147483648 →
  fileclose f s =
    if f_ref fl =? 1 then last_close fl (upd_file f (λ fl, with_f_type FD_NONE (with_f_ref 0 fl)) s)
    else Done tt (upd_file f (with_f_ref (f_ref fl - 1)) s).
Proof.
  intros [Hok Hl] Hf Hr. unfold fileclose. run kacquire_ok.
  erewrite bind_done by (by apply file_at_ok). rewrite (proj2 (Z.ltb_ge _ _)) by lia.
  erewrite bind_done by done.
  erewrite bind_done by (apply file_at_ok; cbn; rewrite list_lookup_alter, decide_True by done; by rewrite Hf).
  cbn [f_ref with_f_ref f_type f_pipe f_writable f_ip]. rewrite s32_small by lia. destruct (Z.eqb_spec (f_ref fl) 1) as [E|E].
  - replace (0 <? f_ref fl - 1) with false by lia. do 2 erewrite bind_done by done.
    erewrite bind_done by (apply krelease_ok; unfold upd_file; cbn; eauto with kernel). unfold upd_file. cbn. leave_out.
    unfold last_close. rewrite !list_alter_alter_eq. by destruct (f_type fl).
  - replace (0 <? f_ref fl - 1) with true by lia.
    rewrite krelease_ok by (unfold upd_file; cbn; eauto with kernel). unfold upd_file. cbn. leave_out.
    do 2 f_equal. apply list_alter_ext; [|done]. intros x Hx. rewrite Hf in Hx. injection Hx as <-. by rewrite s32_small by lia.
Qed.

Section calls.
Context (s : kernel) (me : nat) (cur : proc) (Hu : user_ready s me cur).

(** The descriptor that argument [n] names and its file, if it is open. *)
Definition fd_arg (n : Z) : option (nat * nat) :=
  fd ← user_int s cur (arg_addr cur n);
  if (0 <=? fd) && (fd <? Z.of_nat NOFILE) then
    o ← p_ofile cur !! Z.to_nat fd; f ← o; Some (Z.to_nat fd, f)
  else None.

Lemma argfd_ok n : argfd n s = Done (fd_arg n) s.
Proof.
  unfold argfd, fd_arg. erewrite bind_done by (by eapply argint_ok).
  destruct (user_int s cur (arg_addr cur n)) as [fd|]; [|done]. cbn [mbind option_bind].
  destruct (Z.leb_spec 0 fd), (Z.ltb_spec fd (Z.of_nat NOFILE)); cbn [andb].
  2-4: by replace ((fd <? 0) || (Z.of_nat NOFILE <=? fd)) with true by lia.
  replace ((fd <? 0) || (Z.of_nat NOFILE <=? fd)) with false by lia.
  rewrite (bind_done _ _ _ _ _ (myproc_cur s me cur Hu)), (bind_done _ _ _ _ _ (proc_cur s me cur Hu)).
  by destruct (p_ofile cur !! Z.to_nat fd) as [[f|]|].
Qed.

Lemma fd_arg_open n fd f : fd_arg n = Some (fd, f) → p_ofile cur !! fd = Some (Some f).
Proof.
  unfold fd_arg. destruct (user_int s cur (arg_addr cur n)) as [z|]; [|done]. cbn [mbind option_bind].
  case_match; [|done]. destruct (p_ofile cur !! Z.to_nat z) as [[g|]|] eqn:E; cbn; [|done..]. by intros [= <- <-].
Qed.

(** The process with [o] as its descriptor [fd]. *)
Definition with_fd (fd : nat) (o : option nat) : proc := with_p_ofile (<[fd := o]> (p_ofile cur)) cur.

Lemma fdalloc_ok f :
  fdalloc f s = match free_fd cur with
                | Some fd => Done (Some fd) (put me (with_fd fd (Some f)) s)
                | None => Done None s
                end.
Proof.
  unfold fdalloc. rewrite (bind_done _ _ _ _ _ (myproc_cur s me cur Hu)), (bind_done _ _ _ _ _ (proc_cur s me cur Hu)).
  fold (free_fd cur). destruct (free_fd cur) as [fd|]; [|done].
  by erewrite bind_done by (apply set_proc_put, (ur_run _ _ _ Hu)).
Qed.

(** * The calls keep the counts *)

Context (Hft : ftable_ready s) (Hfd : fds_ok (ofiles (k_ptable s)) (k_ftable s)).

Lemma my_ofiles : ofiles (k_ptable s) !! me = Some (p_ofile cur).
Proof. unfold ofiles. rewrite list_lookup_fmap. by rewrite (proj2 (ur_run _ _ _ Hu)). Qed.

Lemma open_file fd f : p_ofile cur !! fd = Some (Some f) → ∃ fl, k_ftable s !! f = Some fl ∧ 1 ≤ f_ref fl ≤ 1024.
Proof.
  intros H. assert (Hin : Some f ∈ p_ofile cur) by (by eapply list_elem_of_lookup_2).
  destruct (fd_open _ _ Hfd me _ f my_ofiles Hin) as [fl Hf]. exists fl. split; [done|].
  pose proof (fds_bound _ _ _ _ Hfd Hf). rewrite (fd_ref _ _ Hfd f fl Hf) in *. pose proof (refs_in f _ me _ my_ofiles Hin). lia.
Qed.

(** A descriptor that changes together with the count of one file. *)
Lemma fds_call fd o o' f fl n :
  p_ofile cur !! fd = Some o → (o, o') = (None, Some f) ∨ (o, o') = (Some f, None) →
  k_ftable s !! f = Some fl → f_ref n = f_ref fl - ind f o + ind f o' →
  fds_ok (ofiles (<[me := with_fd fd o']> (k_ptable s))) (<[f := n]> (k_ftable s)).
Proof.
  intros Ho Hoo Hf Hn. rewrite ofiles_insert. eapply fds_change; [exact Hfd|exact my_ofiles|exact Ho|..].
  - intros g ->. destruct Hoo as [[= _ <-]|[=]]. by exists fl.
  - intros g [x Hx]. rewrite list_lookup_insert. case_decide; [by eexists|by exists x].
  - intros g x Hx. rewrite list_lookup_insert in Hx. case_decide as E.
    + destruct E as [<- _]. injection Hx as <-. by exists fl.
    + exists x. split; [done|]. assert (g ≠ f) by (intros ->; apply E; split; [done|by eapply lookup_lt_Some]).
      unfold ind. destruct Hoo as [[= -> ->]|[= -> ->]]; rewrite ?decide_False by congruence; rewrite ?decide_False by done; lia.
Qed.

Lemma upd_file_at f fl g t : k_ftable t !! f = Some fl → k_ftable (upd_file f g t) = <[f := g fl]> (k_ftable t).
Proof.
  intros H. cbn. apply list_eq. intros i. rewrite list_lookup_alter, list_lookup_insert.
  pose proof (lookup_lt_Some _ _ _ H). destruct (decide (f = i)) as [->|].
  - rewrite decide_True by done. by rewrite H.
  - by rewrite decide_False by naive_solver.
Qed.

Lemma sys_dup_ok :
  match fd_arg 0, free_fd cur with
  | Some (_, f), Some fd => ∃ s', sys_dup s = Done (Z.of_nat fd) s' ∧
      k_ptable s' = <[me := with_fd fd (Some f)]> (k_ptable s) ∧ fds_ok (ofiles (k_ptable s')) (k_ftable s')
  | _, _ => sys_dup s = Done (-1) s
  end.
Proof.
  unfold sys_dup. rewrite (bind_done _ _ _ _ _ (argfd_ok 0)). destruct (fd_arg 0) as [[g f]|] eqn:Ea; [|done].
  destruct (open_file g f (fd_arg_open _ _ _ Ea)) as (fl & Hf & Hr). destruct (free_fd cur) as [fd|] eqn:Efd.
  2: by erewrite bind_done by (rewrite fdalloc_ok, Efd; done).
  erewrite bind_done by (rewrite fdalloc_ok, Efd; done). cbn iota.
  erewrite bind_done by (apply filedup_ok; [exact Hft|exact Hf|lia]).
  eexists. split; [reflexivity|]. split; [reflexivity|]. rewrite (upd_file_at f fl) by exact Hf. cbn.
  eapply fds_call; [by apply free_fd_none|by left|exact Hf|]. unfold ind. rewrite decide_False, decide_True by done. cbn. lia.
Qed.

Lemma sys_close_ok :
  match fd_arg 0 with
  | Some (fd, f) => ∃ s' fl, k_ftable s !! f = Some fl ∧
      sys_close s = ((if refs f (ofiles (k_ptable s')) =? 0 then last_close fl else ret tt) ;;; ret 0) s' ∧
      k_ptable s' = <[me := with_fd fd None]> (k_ptable s) ∧ fds_ok (ofiles (k_ptable s')) (k_ftable s')
  | None => sys_close s = Done (-1) s
  end.
Proof.
  unfold sys_close. rewrite (bind_done _ _ _ _ _ (argfd_ok 0)). destruct (fd_arg 0) as [[fd f]|] eqn:Ea; [|done].
  pose proof (fd_arg_open _ _ _ Ea) as Hfd0. destruct (open_file fd f Hfd0) as (fl & Hf & Hr).
  rewrite (bind_done _ _ _ _ _ (myproc_cur s me cur Hu)).
  erewrite bind_done by (apply set_proc_put, (ur_run _ _ _ Hu)).
  set (nfl := if f_ref fl =? 1 then with_f_type FD_NONE (with_f_ref 0 fl) else with_f_ref (f_ref fl - 1) fl).
  assert (Hok : fds_ok (ofiles (<[me := with_fd fd None]> (k_ptable s))) (<[f := nfl]> (k_ftable s))).
  { eapply fds_call; [exact Hfd0|by right|exact Hf|]. unfold ind, nfl. rewrite decide_True, decide_False by done.
    destruct (Z.eqb_spec (f_ref fl) 1); cbn; lia. }
  assert (Href : refs f (ofiles (<[me := with_fd fd None]> (k_ptable s))) = f_ref fl - 1).
  { erewrite <-(fd_ref _ _ Hok f nfl) by (by apply list_lookup_insert_eq, (lookup_lt_Some _ _ fl)).
    unfold nfl. destruct (Z.eqb_spec (f_ref fl) 1); cbn; lia. }
  unfold bind at 1. rewrite (fileclose_ok _ f fl) by (first [exact Hft|exact Hf|lia]).
  set (t := put me (with_fd fd None) s). destruct (Z.eqb_spec (f_ref fl) 1) as [E|E].
  - exists (upd_file f (λ fl, with_f_type FD_NONE (with_f_ref 0 fl)) t), fl. split; [done|].
    split; [|split; [done|rewrite (upd_file_at f fl) by exact Hf; exact Hok]].
    change (k_ptable (upd_file _ _ t)) with (<[me := with_fd fd None]> (k_ptable s)). by rewrite Href, E.
  - exists (upd_file f (with_f_ref (f_ref fl - 1)) t), fl. split; [done|].
    split; [|split; [done|rewrite (upd_file_at f fl) by exact Hf; exact Hok]].
    change (k_ptable (upd_file _ _ t)) with (<[me := with_fd fd None]> (k_ptable s)). rewrite Href.
    by replace (f_ref fl - 1 =? 0) with false by lia.
Qed.
End calls.

(** * [fork] keeps the counts *)

(** [fork] has what it needs of the table of files. *)
Lemma fds_files_ok os ft i l : fds_ok os ft → os !! i = Some l → files_ok ft l (Z.of_nat NOFILE).
Proof.
  intros H Hi f Hf. destruct (fd_open _ _ H i l f Hi Hf) as [fl Hfl]. exists fl. split; [done|].
  pose proof (fds_bound _ _ _ _ H Hfl). rewrite (fd_ref _ _ H f fl Hfl) in *. pose proof (refs_in f os i l Hi Hf).
  unfold NOFILE. lia.
Qed.

Lemma dup_file_lookup ft o g : dup_file ft o !! g = (λ fl, with_f_ref (f_ref fl + ind g o) fl) <$> ft !! g.
Proof.
  assert (Hid : ∀ fl : file, fl = with_f_ref (f_ref fl + 0) fl) by (intros []; unfold with_f_ref; cbn; f_equal; lia).
  unfold ind. destruct o as [f|]; cbn [dup_file].
  - rewrite list_lookup_alter. destruct (decide (f = g)) as [->|]; [by rewrite decide_True|].
    rewrite decide_False by congruence. destruct (ft !! g); [cbn; by rewrite <-Hid|done].
  - rewrite decide_False by done. destruct (ft !! g); [cbn; by rewrite <-Hid|done].
Qed.

Lemma dup_files_lookup l : ∀ ft g fl', foldl dup_file ft l !! g = Some fl' →
  ∃ fl, ft !! g = Some fl ∧ f_ref fl' = f_ref fl + cnt g l.
Proof.
  induction l as [|o l IH]; intros ft g fl' H; cbn in H.
  - exists fl'. split; [done|]. cbn. lia.
  - destruct (IH _ _ _ H) as (x & Hx & E). rewrite dup_file_lookup in Hx. apply fmap_Some in Hx as (fl & Hfl & ->).
    exists fl. split; [done|]. rewrite E. cbn. fold (cnt g l). lia.
Qed.

Lemma dup_files_some l : ∀ ft g, is_Some (ft !! g) → is_Some (foldl dup_file ft l !! g).
Proof.
  induction l as [|o l IH]; intros ft g H; [done|]. cbn. apply IH. rewrite dup_file_lookup. by apply fmap_is_Some.
Qed.

Lemma cnt_none g n : cnt g (replicate n None) = 0.
Proof. induction n as [|n IH]; [done|]. cbn. fold (cnt g (replicate n None)). by rewrite IH. Qed.

(** The child has the descriptors of its parent, and the files have their references. *)
Theorem fork_counts im s L me cwd cur n c0 k d s' L' :
  fork_ready s L me cur cwd → k_ptable s !! n = Some c0 → p_state c0 = UNUSED →
  fds_ok (ofiles (k_ptable s)) (k_ftable s) → forked im s me cwd cur n c0 k d s' L' →
  fds_ok (ofiles (k_ptable s')) (k_ftable s').
Proof.
  intros HR Hn Hc0 Hok F. pose proof Hok as [H1 H2 H3 H4]. rewrite (fd_ptable _ _ _ _ _ _ _ _ _ _ _ F), (fd_ftable _ _ _ _ _ _ _ _ _ _ _ F), ofiles_insert.
  assert (Hme : ofiles (k_ptable s) !! me = Some (p_ofile cur)).
  { unfold ofiles. rewrite list_lookup_fmap. by rewrite (proj2 (fk_run _ _ _ _ _ HR)). }
  assert (Hno : ofiles (k_ptable s) !! n = Some (replicate NOFILE None)).
  { unfold ofiles. rewrite list_lookup_fmap, Hn. cbn. f_equal. by eapply (fk_unused _ _ _ _ _ HR). }
  change (p_ofile (child_of _ _ _)) with (p_ofile cur). constructor.
  - by rewrite length_insert.
  - apply Forall_insert; [done|apply (fk_nofile _ _ _ _ _ HR)].
  - intros i l f Hi Hf. apply dup_files_some. rewrite list_lookup_insert in Hi. case_decide as E; [|by eapply H3].
    injection Hi as <-. by apply (H3 me (p_ofile cur)).
  - intros g fl' Hg. destruct (dup_files_lookup _ _ _ _ Hg) as (fl & Hfl & ->).
    rewrite (refs_insert g _ n _ _ Hno), (H4 g fl Hfl), cnt_none. lia.
Qed.

(** * The property *)

(** C21: open files are counted.  In a state where the reference count of every file is the
    number of descriptors of all processes that refer to it, [dup] of an open descriptor returns the lowest
    descriptor that is free and makes it refer to the same file; it fails, and changes nothing, when its
    argument is not an open descriptor or none is free.  [close] frees the descriptor, and
    releases the pipe or the inode behind it exactly when no descriptor of any process refers to
    the file any more.  The counts are right again after both. *)
Theorem descriptors_counted s me cur :
  user_ready s me cur → ftable_ready s → fds_ok (ofiles (k_ptable s)) (k_ftable s) →
  match fd_arg s cur 0, free_fd cur with
  | Some (_, f), Some fd => ∃ s', sys_dup s = Done (Z.of_nat fd) s' ∧
      k_ptable s' = <[me := with_fd cur fd (Some f)]> (k_ptable s) ∧ fds_ok (ofiles (k_ptable s')) (k_ftable s')
  | _, _ => sys_dup s = Done (-1) s
  end ∧
  match fd_arg s cur 0 with
  | Some (fd, f) => ∃ s' fl, k_ftable s !! f = Some fl ∧
      sys_close s = ((if refs f (ofiles (k_ptable s')) =? 0 then last_close fl else ret tt) ;;; ret 0) s' ∧
      k_ptable s' = <[me := with_fd cur fd None]> (k_ptable s) ∧ fds_ok (ofiles (k_ptable s')) (k_ftable s')
  | None => sys_close s = Done (-1) s
  end.
Proof. intros Hu Hft Hfd. split; [by eapply sys_dup_ok|by eapply sys_close_ok]. Qed.

(** ** Witness *)

(** The process of Uargs with descriptors 0 and 2 open on the same file; its argument is 0. *)
Definition descr_proc : proc :=
  with_p_ofile (Some 0%nat :: None :: Some 0%nat :: replicate 13 None) args_proc.
Definition descr_demo : kernel :=
  with_k_ftable [mkFile FD_PIPE 2 true false 4096 None 0; mkFile FD_NONE 0 false false 0 None 0]
    (with_k_ptable [descr_proc] args_demo).

Lemma descr_demo_ready : user_ready descr_demo 0 descr_proc.
Proof. destruct args_demo_ready as [H1 H2 H3 H4 H5 H6]. constructor; [exact H1|split; reflexivity|exact H3|exact H4|exact H5|exact H6]. Qed.

Lemma descr_demo_ok : fds_ok (ofiles (k_ptable descr_demo)) (k_ftable descr_demo).
Proof.
  constructor.
  - unfold NPROC. cbn. lia.
  - by repeat constructor.
  - intros [|i] l f Hi Hf; [|done]. injection Hi as <-. apply list_elem_of_lookup in Hf as [j Hj].
    do 16 (destruct j as [|j]; [first [injection Hj as <-; by eexists|discriminate Hj]|]). discriminate Hj.
  - intros [|[|f]] fl Hf; [injection Hf as <-; reflexivity|injection Hf as <-; reflexivity|done].
Qed.

Lemma descriptors_counted_witness :
  (∃ s', sys_dup descr_demo = Done 1 s' ∧ fds_ok (ofiles (k_ptable s')) (k_ftable s')) ∧
  ∃ s', sys_close descr_demo = Done 0 s' ∧ fds_ok (ofiles (k_ptable s')) (k_ftable s').
Proof.
  destruct (descriptors_counted descr_demo 0 descr_proc descr_demo_ready) as [H1 H2].
  - split; [exact demo_run_kok|reflexivity].
  - exact descr_demo_ok.
  - assert (Ea : fd_arg descr_demo descr_proc 0 = Some (0%nat, 0%nat)) by (vm_compute; reflexivity).
    rewrite Ea in H1, H2. split.
    + change (free_fd descr_proc) with (Some 1%nat) in H1. destruct H1 as (s' & E & _ & H).
      exists s'. split; [exact E|exact H].
    + destruct H2 as (s' & fl & _ & E & Ht & H). exists s'. split; [|exact H]. rewrite E.
      replace (refs 0 (ofiles (k_ptable s')) =? 0) with false by (rewrite Ht; reflexivity). reflexivity.
Defined.
