(* ===== verification/Syscall.v ===== *)
(** The system calls on processes (sysproc.c), their dispatch ([syscall] of
    syscall.c) and the trap handler (trap.c). *)

From S2P Require Import Prelude State Spinlock CString Cprintf Mmu Kalloc Vm Sched Bio Log Txn Inode Console Fs Dir Pipe File Proc Args Exec Sysfile.
Import KLock.

(** * sysproc.c *)

Definition sys_fork (L : image) : K Z := fork L.

Definition sys_exit : K Z := exit ;;; ret 0.

Definition sys_wait : K Z := wait.

Definition sys_kill : K Z :=
  opid <- argint 0 ;;
  match opid with
  | None => ret (-1)
  | Some pid => kill pid
  end.

Definition sys_getpid : K Z :=
  me <- myproc ;;
  cur <- proc_at me ;;
  ret (p_pid cur).

Definition sys_sbrk (L : image) : K Z :=
  on <- argint 0 ;;
  match on with
  | None => ret (-1)
  | Some n =>
      me <- myproc ;;
      cur <- proc_at me ;;
      let addr := s32 (p_sz cur) in
      r <- growproc L n ;;
      if r <? 0 then ret (-1) else ret addr
  end.

(** [while(ticks - ticks0 < n)]: the comparison is unsigned.  [false] if killed. *)
Fixpoint sleep_ticks (fuel : nat) (ticks0 n : Z) : K bool :=
  match fuel with
  | O => diverge
  | S fuel' =>
      ticks <- gets k_ticks ;;
      if u32 (ticks - ticks0) <? u32 n then
        me <- myproc ;;
        cur <- proc_at me ;;
        if negb (p_killed cur =? 0) then ret false else
        sleep ChTicks (Some LTicks) ;;;
        sleep_ticks fuel' ticks0 n
      else ret true
  end.

Definition sys_sleep : K Z :=
  on <- argint 0 ;;
  match on with
  | None => ret (-1)
  | Some n =>
      acquire LTicks ;;;
      ticks0 <- gets k_ticks ;;
      w <- gets k_wakes ;;
      ok <- sleep_ticks (S w) ticks0 n ;;
      release LTicks ;;;
      ret (if (ok : bool) then 0 else -1)
  end.

Definition sys_uptime : K Z :=
  acquire LTicks ;;;
  xticks <- gets k_ticks ;;
  release LTicks ;;;
  ret (s32 xticks).

Definition sys_trace : K Z :=
  ot <- argint 0 ;;
  match ot with
  | None => ret (-1)
  | Some t => modify (with_k_trace t) ;;; ret 0
  end.

Definition sys_answer : K Z := ret 42.

Definition sys_getppid : K Z :=
  me <- myproc ;;
  cur <- proc_at me ;;
  parent <- proc_at (p_parent cur) ;;
  ret (p_pid parent).

(** * Dispatch *)

(** The tables [syscalls] and [syscalls_names]; their entries are 1 to 25. *)
Definition syscalls (L : image) : list (string * K Z) :=
  [("sys_fork", sys_fork L);
   ("sys_exit", sys_exit);
   ("sys_wait", sys_wait);
   ("sys_pipe", sys_pipe);
   ("sys_read", sys_read);
   ("sys_kill", sys_kill);
   ("sys_exec", sys_exec L);
   ("sys_fstat", sys_fstat);
   ("sys_chdir", sys_chdir);
   ("sys_dup", sys_dup);
   ("sys_getpid", sys_getpid);
   ("sys_sbrk", sys_sbrk L);
   ("sys_sleep", sys_sleep);
   ("sys_uptime", sys_uptime);
   ("sys_open", sys_open);
   ("sys_write", sys_write);
   ("sys_mknod", sys_mknod);
   ("sys_unlink", sys_unlink);
   ("sys_link", sys_link);
   ("sys_mkdir", sys_mkdir);
   ("sys_close", sys_close);
   ("sys_trace", sys_trace);
   ("sys_answer", sys_answer);
   ("sys_getppid", sys_getppid);
   ("sys_pscnt", sys_pscnt)].

Definition set_eax (me : option nat) (v : Z) : K unit :=
  set_proc me (λ p, with_p_tf (with_tf_eax (u32 v) (p_tf p)) p).

Definition syscall (L : image) : K unit :=
  me <- myproc ;;
  cur <- proc_at me ;;
  let num := s32 (tf_eax (p_tf cur)) in
  match (if 0 <? num then syscalls L !! Z.to_nat (num - 1) else None) with
  | Some (name, call) =>
      r <- call ;;
      set_eax me r ;;;
      tr <- gets k_trace ;;
      if 0 <? tr then
        cprint "[%d] %s: %d
" [CInt num; CStr (Some (bytes name)); CInt (u32 r)]
      else ret tt
  | None =>
      cprint "%d %s: unknown sys call %d
" [CInt (p_pid cur); CStr (Some (Console.cstr (p_name cur))); CInt num] ;;;
      set_eax me (-1)
  end.

(** * Traps: trap.c, traps.h *)

Definition T_SYSCALL : Z := 64.
Definition T_IRQ0 : Z := 32.
Definition IRQ_TIMER : Z := 0.
Definition IRQ_KBD : Z := 1.
Definition IRQ_COM1 : Z := 4.
Definition IRQ_IDE : Z := 14.
Definition IRQ_SPURIOUS : Z := 31.

(** [struct gatedesc] and the macro [SETGATE] of mmu.h. *)
Record gatedesc := mkGatedesc {
  gd_off_15_0 : Z;
  gd_cs : Z;
  gd_args : Z;
  gd_rsv1 : Z;
  gd_type : Z;
  gd_s : Z;
  gd_dpl : Z;
  gd_p : Z;
  gd_off_31_16 : Z;
}.

Definition STS_IG32 : Z := 0xE.
Definition STS_TG32 : Z := 0xF.

Definition SETGATE (istrap : bool) (sel off d : Z) : gatedesc :=
  mkGatedesc (Z.land (u32 off) 0xffff) sel 0 0 (if istrap then STS_TG32 else STS_IG32) 0 d 1
    (Z.shiftr (u32 off) 16).

(** The table [idt] that [tvinit] fills, given the entry points [vectors] of
    the assembly code. *)
Definition idt (vectors : list Z) : list gatedesc :=
  let kcode := Z.shiftl (Z.of_nat SEG_KCODE) 3 in
  <[Z.to_nat T_SYSCALL := SETGATE true kcode (nth (Z.to_nat T_SYSCALL) vectors 0) DPL_USER]>
    ((λ i, SETGATE false kcode (nth i vectors 0) 0) <$> seq 0 256).

Definition tvinit (vectors : list Z) : K (list gatedesc) :=
  initlock LTicks "time" ;;;
  ret (idt vectors).

(** The process of this CPU, if it has been killed. *)
Definition killed : K bool :=
  me <- myproc ;;
  match me with
  | None => ret false
  | Some _ => cur <- proc_at me ;; ret (negb (p_killed cur =? 0))
  end.

Definition kcpuid : K Z := i <- zoom k_hart with_k_hart Cpu.cpuid ;; ret (Z.of_nat i).

Definition clock_tick : K unit :=
  c <- kcpuid ;;
  if c =? 0 then
    acquire LTicks ;;;
    modify (λ s, with_k_ticks (u32 (k_ticks s + 1)) s) ;;;
    wakeup ChTicks ;;;
    release LTicks
  else ret tt.

(** The [default] case of [trap]; [cr2] is the faulting address. *)
Definition trap_default (tf : trapframe) (cr2 : Z) : K unit :=
  me <- myproc ;;
  if bool_decide (me = None) || (Z.land (tf_cs tf) 3 =? 0) then
    c <- kcpuid ;;
    cprint "unexpected trap %d from cpu %d eip %x (cr2=0x%x)
" [CInt (tf_trapno tf); CInt c; CInt (tf_eip tf); CInt cr2] ;;;
    panic "trap"
  else
    cur <- proc_at me ;;
    c <- kcpuid ;;
    cprint "pid %d %s: trap %d err %d on cpu %d eip 0x%x addr 0x%x--kill proc
" [CInt (p_pid cur); CStr (Some (Console.cstr (p_name cur))); CInt (tf_trapno tf); CInt (tf_err tf);
   CInt c; CInt (tf_eip tf); CInt cr2] ;;;
    set_proc me (with_p_killed 1).

(** [if(myproc() && myproc()->killed && (tf->cs&3) == DPL_USER) exit();] *)
Definition exit_if_killed (tf : trapframe) : K unit :=
  k <- killed ;;
  if k && (Z.land (tf_cs tf) 3 =? DPL_USER) then exit else ret tt.

(** The device interrupts: the disk in memory raises none to handle, and the
    keyboard and the serial line deliver the characters [chars] to the console.
    The acknowledgement [lapiceoi] is a register of the interrupt controller. *)
Definition trap (L : image) (tf : trapframe) (cr2 : Z) (chars : list Z) : K unit :=
  if tf_trapno tf =? T_SYSCALL then
    me <- myproc ;;
    cur <- proc_at me ;;
    (if negb (p_killed cur =? 0) then exit else ret tt) ;;;
    set_proc me (with_p_tf tf) ;;;
    syscall L ;;;
    me <- myproc ;;
    cur <- proc_at me ;;
    if negb (p_killed cur =? 0) then exit else ret tt
  else
    let no := tf_trapno tf - T_IRQ0 in
    (if no =? IRQ_TIMER then clock_tick
     else if no =? IRQ_IDE then ret tt
     else if no =? IRQ_IDE + 1 then ret tt
     else if no =? IRQ_KBD then consoleintr chars
     else if no =? IRQ_COM1 then consoleintr chars
     else if (no =? 7) || (no =? IRQ_SPURIOUS) then
       c <- kcpuid ;;
       cprint "cpu%d: spurious interrupt at %x:%x
" [CInt c; CInt (tf_cs tf); CInt (tf_eip tf)]
     else trap_default tf cr2) ;;;
    exit_if_killed tf ;;;
    me <- myproc ;;
    (match me with
     | None => ret tt
     | Some _ =>
         cur <- proc_at me ;;
         if bool_decide (p_state cur = RUNNING) && (no =? IRQ_TIMER) then yield else ret tt
     end) ;;;
    exit_if_killed tf.
