(* ===== verification/Apic.v ===== *)
(** The interrupt controllers and the serial port: lapic.c, ioapic.c, picirq.c
    and the device half of uart.c.

    The devices are known through the accesses to them.  A [board] carries the log of all
    accesses, newest first, and what a read returns is an arbitrary function
    of the log (the class [hardware]), so that the theorems hold for every device.  What
    a device holds is computed from the log: [ioapic_reg] from the writes through the pair
    of registers of the I/O APIC, [uart_sent] from the writes to the serial port, [ipis] from the writes
    to the command register of the local APIC. *)

From S2P Require Import Prelude State Spinlock CString Cprintf Mmu Kalloc Vm Uvm Console Syscall.
Import KLock.

(** * Accesses to devices *)

(** A port or an address that is mapped to a device. *)
Inductive query := QPort (p : Z) | QMem (a : Z).
Inductive access := Rd (q : query) (v : Z) | Wr (q : query) (v : Z).

#[export] Instance query_eq_dec : EqDecision query.
Proof. solve_decision. Defined.

(** The log, the kernel, and the variables [lapic], [ioapic] and [ioapicid]; a null
    pointer is 0. *)
Record board := mkBoard {
  b_log : list access;
  b_k : kernel;
  b_lapic : Z;
  b_ioapic : Z;
  b_ioapicid : Z;
}.

Definition with_b_log (v : list access) (b : board) : board := mkBoard v (b_k b) (b_lapic b) (b_ioapic b) (b_ioapicid b).
Definition with_b_k (v : kernel) (b : board) : board := mkBoard (b_log b) v (b_lapic b) (b_ioapic b) (b_ioapicid b).
Definition with_b_ioapic (v : Z) (b : board) : board := mkBoard (b_log b) (b_k b) (b_lapic b) v (b_ioapicid b).

Abbreviation B := (prog board).

(** A call of the rest of the kernel. *)
Definition bkern {A} (m : K A) : B A := zoom b_k with_b_k m.

(** What a device answers, after the accesses of the log. *)
Class hardware := answer : list access → query → Z.

Section devices.
Context {HW : hardware}.

Definition logged (x : access) : B unit := modify (λ b, with_b_log (x :: b_log b) b).

(** x86.h: a port is a byte wide; a register in memory is a [uint]. *)
Definition outb (port data : Z) : B unit := logged (Wr (QPort port) (u8 data)).
Definition inb (port : Z) : B Z :=
  b <- get ;;
  let v := u8 (answer (b_log b) (QPort port)) in
  logged (Rd (QPort port) v) ;;;
  ret v.
Definition st (addr v : Z) : B unit := logged (Wr (QMem addr) (u32 v)).
Definition ld (addr : Z) : B Z :=
  b <- get ;;
  let v := u32 (answer (b_log b) (QMem addr)) in
  logged (Rd (QMem addr) v) ;;;
  ret v.

(** * lapic.c *)

Definition ID : Z := 0x20 / 4.
Definition VER : Z := 0x30 / 4.
Definition TPR : Z := 0x80 / 4.
Definition EOI : Z := 0xB0 / 4.
Definition SVR : Z := 0xF0 / 4.
Definition ENABLE : Z := 0x100.
Definition ESR : Z := 0x280 / 4.
Definition ICRLO : Z := 0x300 / 4.
Definition INIT : Z := 0x500.
Definition STARTUP : Z := 0x600.
Definition DELIVS : Z := 0x1000.
Definition ASSERT : Z := 0x4000.
Definition LEVEL : Z := 0x8000.
Definition BCAST : Z := 0x80000.
Definition ICRHI : Z := 0x310 / 4.
Definition TIMER : Z := 0x320 / 4.
Definition X1 : Z := 0xB.
Definition PERIODIC : Z := 0x20000.
Definition PCINT : Z := 0x340 / 4.
Definition LINT0 : Z := 0x350 / 4.
Definition LINT1 : Z := 0x360 / 4.
Definition ERROR : Z := 0x370 / 4.
Definition MASKED : Z := 0x10000.
Definition TICR : Z := 0x380 / 4.
Definition TDCR : Z := 0x3E0 / 4.
Definition IRQ_ERROR : Z := 19.

(** [lapic[index]]. *)
Definition lapic_at (index : Z) (b : board) : Z := b_lapic b + 4 * index.

Definition lapicw (index value : Z) : B unit :=
  a <- gets (lapic_at index) ;;
  st a value ;;;
  i <- gets (lapic_at ID) ;;
  ld i ;;;
  ret tt.

Definition lapicr (index : Z) : B Z :=
  a <- gets (lapic_at index) ;;
  ld a.

(** [while(lapic[ICRLO] & DELIVS)], at most [turns] turns. *)
Fixpoint wait_delivered (turns : nat) : B unit :=
  match turns with
  | O => diverge
  | S turns' =>
      v <- lapicr ICRLO ;;
      if negb (Z.land v DELIVS =? 0) then wait_delivered turns' else ret tt
  end.

Definition lapicinit (turns : nat) : B unit :=
  l <- gets b_lapic ;;
  if l =? 0 then ret tt else
  lapicw SVR (Z.lor ENABLE (T_IRQ0 + IRQ_SPURIOUS)) ;;;
  lapicw TDCR X1 ;;;
  lapicw TIMER (Z.lor PERIODIC (T_IRQ0 + IRQ_TIMER)) ;;;
  lapicw TICR 10000000 ;;;
  lapicw LINT0 MASKED ;;;
  lapicw LINT1 MASKED ;;;
  ver <- lapicr VER ;;
  (if 4 <=? Z.land (Z.shiftr ver 16) 0xFF then lapicw PCINT MASKED else ret tt) ;;;
  lapicw ERROR (T_IRQ0 + IRQ_ERROR) ;;;
  lapicw ESR 0 ;;;
  lapicw ESR 0 ;;;
  lapicw EOI 0 ;;;
  lapicw ICRHI 0 ;;;
  lapicw ICRLO (Z.lor (Z.lor BCAST INIT) LEVEL) ;;;
  wait_delivered turns ;;;
  lapicw TPR 0.

Definition lapicid : B Z :=
  l <- gets b_lapic ;;
  if l =? 0 then ret 0 else
  v <- lapicr ID ;;
  ret (s32 (Z.shiftr v 24)).

Definition lapiceoi : B unit :=
  l <- gets b_lapic ;;
  if negb (l =? 0) then lapicw EOI 0 else ret tt.

Definition microdelay (us : Z) : B unit := ret tt.

Definition CMOS_PORT : Z := 0x70.
Definition CMOS_RETURN : Z := 0x71.

(** [wrv[i] = v] for the [ushort] array [wrv]. *)
Definition set_wrv (i v : Z) : B unit :=
  let wrv := P2V (Z.lor (Z.shiftl 0x40 4) 0x67) in
  bkern (modify (λ s, with_k_mem (store_bytes (k_mem s) (wrv + 2 * i) (le_enc 2 v)) s)).

(** The body of the last loop. *)
Definition send_startup (apicid addr : Z) : B unit :=
  lapicw ICRHI (Z.shiftl apicid 24) ;;;
  lapicw ICRLO (Z.lor STARTUP (Z.shiftr addr 12)) ;;;
  microdelay 200.

Definition lapicstartap (apicid addr : Z) : B unit :=
  outb CMOS_PORT 0xF ;;;
  outb (CMOS_PORT + 1) 0x0A ;;;
  set_wrv 0 0 ;;;
  set_wrv 1 (Z.shiftr addr 4) ;;;
  lapicw ICRHI (Z.shiftl apicid 24) ;;;
  lapicw ICRLO (Z.lor (Z.lor INIT LEVEL) ASSERT) ;;;
  microdelay 200 ;;;
  lapicw ICRLO (Z.lor INIT LEVEL) ;;;
  microdelay 100 ;;;
  for_each (seq 0 2) (λ _, send_startup apicid addr).

(** * ioapic.c *)

Definition IOAPIC : Z := 0xFEC00000.
Definition REG_ID : Z := 0.
Definition REG_VER : Z := 1.
Definition REG_TABLE : Z := 0x10.
Definition INT_DISABLED : Z := 0x10000.

Definition ioapicread (reg : Z) : B Z :=
  p <- gets b_ioapic ;;
  st p reg ;;;
  ld (p + 16).

Definition ioapicwrite (reg data : Z) : B unit :=
  p <- gets b_ioapic ;;
  st p reg ;;;
  st (p + 16) data.

(** One turn of the loop of [ioapicinit]. *)
Definition mask_irq (i : Z) : B unit :=
  ioapicwrite (REG_TABLE + 2 * i) (Z.lor INT_DISABLED (T_IRQ0 + i)) ;;;
  ioapicwrite (REG_TABLE + 2 * i + 1) 0.

Definition ioapicinit : B unit :=
  modify (with_b_ioapic IOAPIC) ;;;
  ver <- ioapicread REG_VER ;;
  let maxintr := Z.land (Z.shiftr ver 16) 0xFF in
  w <- ioapicread REG_ID ;;
  let id := Z.shiftr w 24 in
  ioapicid <- gets b_ioapicid ;;
  (if negb (id =? ioapicid) then
     bkern (cprint "ioapicinit: id isn't equal to ioapicid; not a MP
" [])
   else ret tt) ;;;
  for_each (Z.of_nat <$> seq 0 (S (Z.to_nat maxintr))) mask_irq.

Definition ioapicenable (irq cpunum : Z) : B unit :=
  ioapicwrite (REG_TABLE + 2 * irq) (T_IRQ0 + irq) ;;;
  ioapicwrite (REG_TABLE + 2 * irq + 1) (Z.shiftl cpunum 24).

(** * picirq.c *)

Definition IO_PIC1 : Z := 0x20.
Definition IO_PIC2 : Z := 0xA0.

Definition picinit : B unit :=
  outb (IO_PIC1 + 1) 0xFF ;;;
  outb (IO_PIC2 + 1) 0xFF.

(** * uart.c *)

Definition COM1 : Z := 0x3f8.

(** [for(i = 0; i < 128 && !(inb(COM1+5) & 0x20); i++) microdelay(10);] *)
Fixpoint uart_wait (n : nat) : B unit :=
  match n with
  | O => ret tt
  | S n' =>
      v <- inb (COM1 + 5) ;;
      if Z.land v 0x20 =? 0 then microdelay 10 ;;; uart_wait n' else ret tt
  end.

Definition uartputc (c : Z) : B unit :=
  u <- gets (λ b, k_uart (b_k b)) ;;
  if negb u then ret tt else
  uart_wait 128 ;;;
  outb (COM1 + 0) c.

Definition uartgetc : B Z :=
  u <- gets (λ b, k_uart (b_k b)) ;;
  if negb u then ret (-1) else
  v <- inb (COM1 + 5) ;;
  if Z.land v 0x01 =? 0 then ret (-1) else inb (COM1 + 0).

Definition uartinit : B unit :=
  outb (COM1 + 2) 0 ;;;
  outb (COM1 + 3) 0x80 ;;;
  outb (COM1 + 0) (115200 / 9600) ;;;
  outb (COM1 + 1) 0 ;;;
  outb (COM1 + 3) 0x03 ;;;
  outb (COM1 + 4) 0 ;;;
  outb (COM1 + 1) 0x01 ;;;
  v <- inb (COM1 + 5) ;;
  if v =? 0xFF then ret tt else
  bkern (modify (with_k_uart true)) ;;;
  inb (COM1 + 2) ;;;
  inb (COM1 + 0) ;;;
  ioapicenable IRQ_COM1 0 ;;;
  for_each (bytes "xv6...
") uartputc.
End devices.

(** * What the devices hold *)

(** The last value written to [q]. *)
Fixpoint last_wr (q : query) (log : list access) : option Z :=
  match log with
  | [] => None
  | Wr q' v :: log' => if decide (q' = q) then Some v else last_wr q log'
  | Rd _ _ :: log' => last_wr q log'
  end.

(** Register [r] of the I/O APIC: a write to its first word selects a register, a write to
    the word at 16 goes to the register that is selected. *)
Fixpoint ioapic_reg (log : list access) (r : Z) : option Z :=
  match log with
  | [] => None
  | Wr q v :: log' =>
      if decide (q = QMem (IOAPIC + 16)) then
        if decide (last_wr (QMem IOAPIC) log' = Some r) then Some v else ioapic_reg log' r
      else ioapic_reg log' r
  | Rd _ _ :: log' => ioapic_reg log' r
  end.

(** Bit 7 of the line control register makes the first two ports those of the divisor. *)
Definition dlab (log : list access) : bool := Z.testbit (default 0 (last_wr (QPort (COM1 + 3)) log)) 7.

(** The bytes sent on the serial line, in order. *)
Fixpoint uart_sent (log : list access) : list Z :=
  match log with
  | [] => []
  | Wr q v :: log' =>
      if decide (q = QPort COM1) then
        if dlab log' then uart_sent log' else uart_sent log' ++ [v]
      else uart_sent log'
  | Rd _ _ :: log' => uart_sent log'
  end.

(** The low byte of the divisor of the clock of the line, 115200 baud. *)
Fixpoint uart_divisor (log : list access) : option Z :=
  match log with
  | [] => None
  | Wr q v :: log' =>
      if decide (q = QPort COM1 ∧ dlab log' = true) then Some v else uart_divisor log'
  | Rd _ _ :: log' => uart_divisor log'
  end.

(** The interrupts sent to other processors by the local APIC at [l], in order: a write to the low
    word of the command register sends it to the processor in the high word. *)
Fixpoint ipis (l : Z) (log : list access) : list (Z * Z) :=
  match log with
  | [] => []
  | Wr q v :: log' =>
      if decide (q = QMem (l + 4 * ICRLO)) then
        ipis l log' ++ [(Z.shiftr (default 0 (last_wr (QMem (l + 4 * ICRHI)) log')) 24, v)]
      else ipis l log'
  | Rd _ _ :: log' => ipis l log'
  end.

(** Accesses to ports, accesses to memory, and reads of ports. *)
Definition is_port (x : access) : Prop :=
  match x with Rd (QPort _) _ | Wr (QPort _) _ => True | _ => False end.
Definition is_mem (x : access) : Prop :=
  match x with Rd (QMem _) _ | Wr (QMem _) _ => True | _ => False end.
Definition is_in (x : access) : Prop := match x with Rd (QPort _) _ => True | _ => False end.

Lemma ioapic_reg_ports l log r : Forall is_port l → ioapic_reg (l ++ log) r = ioapic_reg log r.
Proof. induction 1 as [|[[p|a] v|[p|a] v] l H _ IH]; done. Qed.

Lemma last_wr_mem p l log : Forall is_mem l → last_wr (QPort p) (l ++ log) = last_wr (QPort p) log.
Proof. induction 1 as [|[[x|a] v|[x|a] v] l H _ IH]; done. Qed.

Lemma last_wr_in q l log : Forall is_in l → last_wr q (l ++ log) = last_wr q log.
Proof. induction 1 as [|[[x|a] v|[x|a] v] l H _ IH]; done. Qed.

(** The serial line after the log: the bytes sent, the divisor and the mode. *)
Definition uart_line (log : list access) : list Z * option Z * bool := (uart_sent log, uart_divisor log, dlab log).

Lemma uart_line_inv log x y z : uart_line log = (x, y, z) → uart_sent log = x ∧ uart_divisor log = y ∧ dlab log = z.
Proof. by intros [= <- <- <-]. Qed.

Lemma uart_line_mem l log : Forall is_mem l → uart_line (l ++ log) = uart_line log.
Proof.
  induction 1 as [|x l Hx Hl IH]; [done|]. rewrite <-IH. unfold uart_line, dlab.
  destruct x as [[p|a] v|[p|a] v]; done.
Qed.

Lemma uart_line_in l log : Forall is_in l → uart_line (l ++ log) = uart_line log.
Proof. induction 1 as [|x l Hx Hl IH]; [done|]. rewrite <-IH. by destruct x as [[p|a] v|[p|a] v]. Qed.

Section effects.
Context {HW : hardware}.

(** [b'] is [b] after accesses [l], newest first. *)
Definition after (l : list access) (b : board) : board := with_b_log (l ++ b_log b) b.

Lemma after_after l l' b : after l' (after l b) = after (l' ++ l) b.
Proof. unfold after, with_b_log. cbn. by rewrite app_assoc. Qed.

Lemma outb_ok port v b : outb port v b = Done tt (after [Wr (QPort port) (u8 v)] b).
Proof. done. Qed.

Lemma inb_ok port b : ∃ v, is_u8 v ∧ inb port b = Done v (after [Rd (QPort port) v] b).
Proof. exists (u8 (answer (b_log b) (QPort port))). split; [apply u8_range|done]. Qed.

(** What the I/O APIC answers when register [r] is read. *)
Definition ioapic_answer (r : Z) (b : board) : Z := u32 (answer (Wr (QMem IOAPIC) r :: b_log b) (QMem (IOAPIC + 16))).

Lemma ioapicread_ok r b : is_u32 r → b_ioapic b = IOAPIC →
  ioapicread r b = Done (ioapic_answer r b) (after [Rd (QMem (IOAPIC + 16)) (ioapic_answer r b); Wr (QMem IOAPIC) r] b).
Proof.
  intros Hr Hp. unfold ioapicread, bind, gets, st, ld, logged, modify, get, ret. cbn. by rewrite Hp, (u32_small r) by done.
Qed.

Lemma ioapicwrite_ok r d b : is_u32 r → b_ioapic b = IOAPIC →
  ioapicwrite r d b = Done tt (after [Wr (QMem (IOAPIC + 16)) (u32 d); Wr (QMem IOAPIC) r] b).
Proof. intros Hr Hp. unfold ioapicwrite, bind, gets, st, logged, modify. cbn. by rewrite Hp, (u32_small r) by done. Qed.

Lemma ioapic_reg_write r d log r' :
  ioapic_reg (Wr (QMem (IOAPIC + 16)) d :: Wr (QMem IOAPIC) r :: log) r' = if decide (r' = r) then Some d else ioapic_reg log r'.
Proof.
  cbn [ioapic_reg last_wr]. rewrite (decide_True (P := QMem (IOAPIC + 16) = _)), (decide_True (P := QMem IOAPIC = QMem IOAPIC)) by done.
  rewrite (decide_False (P := QMem IOAPIC = _)) by done.
  destruct (decide (r' = r)) as [->|Hne]; [by rewrite decide_True|by rewrite decide_False by congruence].
Qed.

(** The entry of an interrupt line is two registers; [entry] and [dest] are them. *)
Definition entry (log : list access) (i : Z) : option Z := ioapic_reg log (REG_TABLE + 2 * i).
Definition dest (log : list access) (i : Z) : option Z := ioapic_reg log (REG_TABLE + 2 * i + 1).

(** [b'] has the entry of line [i] set to [lo] and [hi]; nothing else is changed but the log. *)
Definition routed (i lo hi : Z) (b b' : board) : Prop :=
  (∃ l, b' = after l b ∧ Forall is_mem l) ∧
  ∀ j, (entry (b_log b') j = if decide (j = i) then Some lo else entry (b_log b) j) ∧
       (dest (b_log b') j = if decide (j = i) then Some hi else dest (b_log b) j).

Lemma write_entry i lo hi b :
  0 ≤ i < 256 → b_ioapic b = IOAPIC → ∃ b',
  (ioapicwrite (REG_TABLE + 2 * i) lo ;;; ioapicwrite (REG_TABLE + 2 * i + 1) hi) b = Done tt b' ∧ routed i (u32 lo) (u32 hi) b b'.
Proof.
  intros Hi Hp. unfold REG_TABLE.
  erewrite bind_done by (apply ioapicwrite_ok; [unfold is_u32; lia|done]).
  rewrite ioapicwrite_ok by (first [done|unfold is_u32; lia]). rewrite after_after.
  eexists. split; [reflexivity|]. split; [eexists; split; [done|by repeat constructor]|]. intros j. unfold entry, dest. cbn [b_log after with_b_log app].
  rewrite !ioapic_reg_write. unfold REG_TABLE. split.
  - rewrite decide_False by lia. destruct (decide (j = i)) as [->|]; [by rewrite decide_True|by rewrite decide_False by lia].
  - destruct (decide (j = i)) as [->|]; [by rewrite decide_True|]. by rewrite !decide_False by lia.
Qed.

Lemma mask_irq_ok i b : 0 ≤ i < 256 → b_ioapic b = IOAPIC →
  ∃ b', mask_irq i b = Done tt b' ∧ routed i (Z.lor INT_DISABLED (T_IRQ0 + i)) 0 b b'.
Proof.
  intros Hi Hp. destruct (write_entry i (Z.lor INT_DISABLED (T_IRQ0 + i)) 0 b Hi Hp) as (b' & E & H). exists b'. split; [exact E|].
  rewrite u32_small, (u32_small 0) in H; [exact H|done|]. unfold INT_DISABLED, T_IRQ0.
  rewrite lor_add_low by (first [done|lia]). unfold is_u32. lia.
Qed.

Lemma ioapicenable_ok irq cpunum b : 0 ≤ irq < 256 → 0 ≤ cpunum < 256 → b_ioapic b = IOAPIC →
  ∃ b', ioapicenable irq cpunum b = Done tt b' ∧ routed irq (T_IRQ0 + irq) (Z.shiftl cpunum 24) b b'.
Proof.
  intros Hi Hc Hp. destruct (write_entry irq (T_IRQ0 + irq) (Z.shiftl cpunum 24) b Hi Hp) as (b' & E & H). exists b'. split; [exact E|].
  rewrite !u32_small in H; [exact H|..].
  - rewrite Z.shiftl_mul_pow2 by lia. unfold is_u32. lia.
  - unfold is_u32, T_IRQ0. lia.
Qed.

(** The lines from [i] on, [n] of them, are masked. *)
Lemma mask_irqs_ok n : ∀ i b, Z.of_nat i + Z.of_nat n ≤ 256 → b_ioapic b = IOAPIC →
  ∃ l b', for_each (Z.of_nat <$> seq i n) mask_irq b = Done tt b' ∧ b' = after l b ∧ Forall is_mem l ∧
    ∀ j, let new := (Z.of_nat i <=? j) && (j <? Z.of_nat i + Z.of_nat n) in
      entry (b_log b') j = (if new then Some (Z.lor INT_DISABLED (T_IRQ0 + j)) else entry (b_log b) j) ∧
      dest (b_log b') j = if new then Some 0 else dest (b_log b) j.
Proof.
  induction n as [|n IH]; intros i b Hn Hp.
  - exists [], b. split; [done|]. split; [by destruct b|]. split; [done|]. intros j. cbv zeta.
    replace (_ && _) with false by lia. done.
  - cbn [seq fmap list_fmap for_each]. destruct (mask_irq_ok (Z.of_nat i) b) as (b1 & E1 & (l1 & -> & M1) & H1); [lia|done|].
    erewrite bind_done by exact E1. destruct (IH (S i) (after l1 b)) as (l2 & b2 & E2 & -> & M2 & H2); [lia|done|].
    exists (l2 ++ l1), (after l2 (after l1 b)). split; [exact E2|]. split; [apply after_after|].
    split; [by apply Forall_app|]. intros j. cbv zeta. destruct (H2 j) as [-> ->], (H1 j) as [-> ->].
    destruct (decide (j = Z.of_nat i)) as [->|].
    + replace (_ && _) with false by lia. by replace (_ && _) with true by lia.
    + by replace ((Z.of_nat (S i) <=? j) && (j <? Z.of_nat (S i) + Z.of_nat n)) with
        ((Z.of_nat i <=? j) && (j <? Z.of_nat i + Z.of_nat (S n))) by lia.
Qed.

(** The number of the last line, as the I/O APIC reports it. *)
Definition maxintr (b : board) : Z :=
  Z.land (Z.shiftr (ioapic_answer REG_VER b) 16) 0xFF.

Lemma maxintr_range b : 0 ≤ maxintr b < 256.
Proof. unfold maxintr. change 0xFF with (Z.ones 8). rewrite Z.land_ones by lia. apply Z.mod_pos_bound. lia. Qed.

Lemma warning_ok (c : bool) b : can_print (b_k b) → cons_ready (b_k b) → ∃ k',
  (if c then bkern (cprint "ioapicinit: id isn't equal to ioapicid; not a MP
" []) else ret tt) b = Done tt (with_b_k k' b) ∧ outframe (b_k b) k'.
Proof.
  intros Hc Hr. destruct c; [|exists (b_k b); split; [by destruct b|apply outframe_refl]].
  destruct (cprint_ok "ioapicinit: id isn't equal to ioapicid; not a MP
" [] (b_k b) Hc Hr) as (k' & E & F); [done|]. exists k'. split; [by apply (zoom_done b_k)|done].
Qed.

(** Every line is masked and sent to no processor; output may have been printed. *)
Lemma ioapicinit_ok b :
  can_print (b_k b) → cons_ready (b_k b) →
  ∃ b', ioapicinit b = Done tt b' ∧ b_ioapic b' = IOAPIC ∧ outframe (b_k b) (b_k b') ∧
    uart_line (b_log b') = uart_line (b_log b) ∧ b_lapic b' = b_lapic b ∧
    ∀ j, 0 ≤ j ≤ maxintr b → entry (b_log b') j = Some (Z.lor INT_DISABLED (T_IRQ0 + j)) ∧ dest (b_log b') j = Some 0.
Proof.
  intros Hc Hr. unfold ioapicinit. erewrite bind_done by done. set (b0 := with_b_ioapic IOAPIC b).
  erewrite bind_done by (by apply ioapicread_ok). cbn zeta.
  change (Z.land (Z.shiftr (ioapic_answer REG_VER b0) 16) 255) with (maxintr b).
  erewrite bind_done by (by apply ioapicread_ok). rewrite after_after. erewrite bind_done by done.
  match goal with |- context [(_ ;;; _) (after ?l b0)] => set (l1 := l) end. pose proof (maxintr_range b) as Hm.
  match goal with |- context [if ?c then bkern _ else _] => destruct (warning_ok c (after l1 b0)) as (k' & E1 & F); [done..|] end.
  erewrite bind_done by exact E1.
  destruct (mask_irqs_ok (S (Z.to_nat (maxintr b))) 0 (with_b_k k' (after l1 b0))) as (l2 & b2 & E2 & -> & M2 & H2); [lia|done|].
  eexists. split; [exact E2|]. do 2 (split; [done|]). split; [|split; [done|]].
  - cbn [b_log after with_b_log with_b_k]. rewrite uart_line_mem by done. by apply (uart_line_mem l1); repeat constructor.
  - intros j Hj. destruct (H2 j) as [-> ->]. by replace (_ && _) with true by lia.
Qed.

(** ** The serial port *)

Lemma uart_wait_ok n : ∀ b, ∃ l, uart_wait n b = Done tt (after l b) ∧ Forall is_in l.
Proof.
  induction n as [|n IH]; intros b; [by exists []; destruct b|]. cbn [uart_wait].
  destruct (inb_ok (COM1 + 5) b) as (v & _ & E). erewrite bind_done by exact E. case_bool.
  - erewrite bind_done by done. destruct (IH (after [Rd (QPort (COM1 + 5)) v] b)) as (l & El & Hl).
    exists (l ++ [Rd (QPort (COM1 + 5)) v]). rewrite El, after_after. split; [done|].
    apply Forall_app. split; [done|by repeat constructor].
  - eexists. split; [reflexivity|by repeat constructor].
Qed.

(** One byte goes out, and no register of an interrupt controller is touched. *)
Lemma uartputc_ok c b : k_uart (b_k b) = true → dlab (b_log b) = false →
  ∃ l, uartputc c b = Done tt (after l b) ∧ Forall is_port l ∧
    uart_line (l ++ b_log b) = (uart_sent (b_log b) ++ [u8 c], uart_divisor (b_log b), false).
Proof.
  intros Hu Hd. unfold uartputc, bind at 1, gets. cbn [obind]. rewrite Hu. cbn [negb].
  destruct (uart_wait_ok 128 b) as (l & E & Hl). erewrite bind_done by exact E. rewrite outb_ok, after_after.
  pose proof (uart_line_in l (b_log b) Hl) as El. unfold uart_line in El. rewrite Hd in El. injection El as E1 E2 E3.
  eexists. split; [reflexivity|]. split.
  - apply Forall_app. split; [by repeat constructor|]. eapply Forall_impl; [exact Hl|]. by intros [[]|[]].
  - cbn [app]. unfold uart_line. cbn [uart_sent uart_divisor]. unfold dlab in E3 |- *. cbn [last_wr].
    unfold dlab. rewrite E3. rewrite (decide_True (P := QPort (COM1 + 0) = _)) by done.
    rewrite (decide_False (P := QPort (COM1 + 0) = QPort (COM1 + 3))) by done.
    rewrite decide_False by (by intros []). by rewrite E1, E2, E3.
Qed.

Lemma uartputs_ok cs : ∀ b, k_uart (b_k b) = true → dlab (b_log b) = false →
  ∃ l, for_each cs uartputc b = Done tt (after l b) ∧ Forall is_port l ∧
    uart_line (l ++ b_log b) = (uart_sent (b_log b) ++ (u8 <$> cs), uart_divisor (b_log b), false).
Proof.
  induction cs as [|c cs IH]; intros b Hu Hd.
  - exists []. split; [by destruct b|]. split; [done|]. unfold uart_line. cbn [app fmap list_fmap]. by rewrite Hd, app_nil_r.
  - cbn [for_each]. destruct (uartputc_ok c b Hu Hd) as (l1 & E1 & P1 & U1). erewrite bind_done by exact E1.
    apply uart_line_inv in U1 as (S1 & D1 & M1).
    destruct (IH (after l1 b)) as (l2 & E2 & P2 & U2); [done|done|]. exists (l2 ++ l1). rewrite E2, after_after.
    split; [done|]. split; [by apply Forall_app|]. cbn [b_log after with_b_log] in U2.
    rewrite <-app_assoc, U2, S1, D1, <-app_assoc. done.
Qed.

(** [uartputc] sends what the model of Cprintf adds to [k_out], and nothing else. *)
Theorem uartputc_refines c b :
  dlab (b_log b) = false → k_out (b_k b) = uart_sent (b_log b) →
  ∃ l k', uartputc c b = Done tt (after l b) ∧ Cprintf.uartputc c (b_k b) = Done tt k' ∧
    k_out k' = uart_sent (l ++ b_log b) ∧ dlab (l ++ b_log b) = false.
Proof.
  intros Hd Ho. destruct (k_uart (b_k b)) eqn:Hu.
  - destruct (uartputc_ok c b Hu Hd) as (l & E & _ & U). apply uart_line_inv in U as (U1 & _ & U3).
    exists l, (with_k_out (k_out (b_k b) ++ [u8 c]) (b_k b)). split; [exact E|]. split; [|by rewrite U1, <-Ho].
    unfold Cprintf.uartputc, bind, gets. cbn. by rewrite Hu.
  - exists [], (b_k b). unfold uartputc, Cprintf.uartputc, bind, gets. cbn. rewrite Hu. by destruct b.
Qed.

(** [uartinit] sets 9600 baud.  If there is a port it announces the system and routes the interrupt of the
    port; if there is none, no interrupt is routed. *)
Lemma uartinit_ok b : b_ioapic b = IOAPIC → k_uart (b_k b) = false →
  ∃ b', uartinit b = Done tt b' ∧ b_k b' = with_k_uart (k_uart (b_k b')) (b_k b) ∧ b_ioapic b' = IOAPIC ∧ b_lapic b' = b_lapic b ∧
    uart_line (b_log b') = (uart_sent (b_log b) ++ (if k_uart (b_k b') then bytes "xv6...
" else []), Some 12, false) ∧
    ∀ j, let on := k_uart (b_k b') && (j =? IRQ_COM1) in
      entry (b_log b') j = (if on then Some (T_IRQ0 + j) else entry (b_log b) j) ∧
      dest (b_log b') j = if on then Some 0 else dest (b_log b) j.
Proof.
  intros Hp Hu. unfold uartinit. do 7 (erewrite bind_done by apply outb_ok; rewrite ?after_after).
  match goal with |- context [after ?l b] => set (l1 := l) end.
  assert (P1 : Forall is_port l1) by (by repeat constructor).
  assert (U1 : uart_line (l1 ++ b_log b) = (uart_sent (b_log b), Some 12, false)) by done.
  destruct (inb_ok (COM1 + 5) (after l1 b)) as (v & _ & E). erewrite bind_done by exact E. rewrite after_after. clear E.
  match goal with |- context [after ?l b] => set (l2 := l) end.
  assert (P2 : Forall is_port l2) by (by repeat constructor).
  assert (U2 : uart_line (l2 ++ b_log b) = (uart_sent (b_log b), Some 12, false)) by done.
  destruct (v =? 0xFF).
  { exists (after l2 b). cbn [b_k after with_b_log b_log]. rewrite Hu. split; [done|]. split; [by rewrite <-Hu; destruct (b_k b)|].
    do 2 (split; [done|]). split; [by rewrite U2, app_nil_r|]. intros j. unfold entry, dest. by rewrite !ioapic_reg_ports. }
  erewrite bind_done by reflexivity.
  set (b2 := with_b_k (with_k_uart true (b_k b)) (after l2 b)).
  destruct (inb_ok (COM1 + 2) b2) as (v3 & _ & E3). erewrite bind_done by exact E3.
  destruct (inb_ok (COM1 + 0) (after [Rd (QPort (COM1 + 2)) v3] b2)) as (v4 & _ & E4). erewrite bind_done by exact E4. rewrite after_after.
  match goal with |- context [after ?l b2] => set (l4 := l) end.
  destruct (ioapicenable_ok IRQ_COM1 0 (after l4 b2)) as (b5 & E5 & (l5 & -> & M5) & H5); [done..|].
  erewrite bind_done by exact E5.
  assert (U5 : uart_line (l5 ++ l4 ++ l2 ++ b_log b) = (uart_sent (b_log b), Some 12, false)).
  { rewrite uart_line_mem by done. rewrite uart_line_in by (by repeat constructor). exact U2. }
  destruct (uartputs_ok (bytes "xv6...
") (after l5 (after l4 b2))) as (l6 & E6 & P6 & U6); [done| |].
  { apply (uart_line_inv _ _ _ _ U5). }
  eexists. split; [exact E6|]. cbn [b_k after with_b_log b2 with_b_k with_k_uart k_uart b_log b_ioapic b_lapic] in *.
  do 3 (split; [done|]). split.
  - rewrite U6. by destruct (uart_line_inv _ _ _ _ U5) as (-> & -> & _).
  - intros j. cbv zeta. destruct (H5 j) as [H6 H7]. unfold entry, dest in *. cbn [andb].
    rewrite !(ioapic_reg_ports l6) by done. cbn [b_log after with_b_log b2 with_b_k] in H6, H7. split.
    + rewrite H6, !(ioapic_reg_ports l4), !(ioapic_reg_ports l2) by (first [done|by repeat constructor]).
      destruct (Z.eqb_spec j IRQ_COM1) as [->|]; [by rewrite decide_True|by rewrite decide_False].
    + rewrite H7, !(ioapic_reg_ports l4), !(ioapic_reg_ports l2) by (first [done|by repeat constructor]).
      destruct (Z.eqb_spec j IRQ_COM1) as [->|]; [by rewrite decide_True|by rewrite decide_False].
Qed.

(** ** The local APIC *)

(** The last value written to register [i] of the local APIC at [l]. *)
Definition lreg (l i : Z) (log : list access) : option Z := last_wr (QMem (l + 4 * i)) log.

Lemma lreg_write l i j x q v log :
  lreg l i (Rd q v :: Wr (QMem (l + 4 * j)) x :: log) = if i =? j then Some x else lreg l i log.
Proof.
  unfold lreg. cbn [last_wr]. destruct (Z.eqb_spec i j) as [->|]; [by rewrite decide_True|].
  rewrite decide_False; [done|]. intros [= H]. lia.
Qed.

Lemma ipis_write l j x q v log :
  ipis l (Rd q v :: Wr (QMem (l + 4 * j)) x :: log) =
    ipis l log ++ (if j =? ICRLO then [(Z.shiftr (default 0 (lreg l ICRHI log)) 24, x)] else []).
Proof.
  cbn [ipis]. destruct (Z.eqb_spec j ICRLO) as [->|]; [by rewrite decide_True|].
  rewrite decide_False, app_nil_r; [done|]. intros [= H]. lia.
Qed.

(** The accesses of [lapicw], the read returning [v]. *)
Definition lw (l j x v : Z) : list access := [Rd (QMem (l + 4 * ID)) v; Wr (QMem (l + 4 * j)) (u32 x)].

Lemma lapicw_ok j x b : ∃ v, lapicw j x b = Done tt (after (lw (b_lapic b) j x v) b).
Proof. by exists (u32 (answer (Wr (QMem (lapic_at j b)) (u32 x) :: b_log b) (QMem (lapic_at ID b)))). Qed.

(** [lapic_write]: take the next [lapicw] of a program. *)
Ltac lapic_write :=
  match goal with
  | |- context [bind (lapicw ?j ?x) _ ?t] => let E := fresh in destruct (lapicw_ok j x t) as [? E]; erewrite bind_done by exact E; clear E
  end.

(** [lreg_step R]: read a register past one write; [R] tells what is past a write that may not be there. *)
Ltac lreg_step R :=
  first
    [ rewrite lreg_write;
      match goal with |- context [if ?a =? ?b then _ else _] => let r := eval vm_compute in (a =? b) in change (a =? b) with r end;
      cbn iota
    | rewrite R by done
    | match goal with |- context [lreg ?l ?i (Rd ?q ?v :: ?log)] => change (lreg l i (Rd q v :: log)) with (lreg l i log) end ].

(** What the local APIC at [l] answers when register [j] is read. *)
Definition lval (l j : Z) (log : list access) : Z := u32 (answer log (QMem (l + 4 * j))).

Lemma lapicr_ok j b :
  lapicr j b = Done (lval (b_lapic b) j (b_log b)) (after [Rd (QMem (b_lapic b + 4 * j)) (lval (b_lapic b) j (b_log b))] b).
Proof. done. Qed.

(** Within [n] reads the command register reports that the command is delivered. *)
Fixpoint delivered (n : nat) (l : Z) (log : list access) : bool :=
  match n with
  | O => false
  | S n' =>
      let v := lval l ICRLO log in
      (Z.land v DELIVS =? 0) || delivered n' l (Rd (QMem (l + 4 * ICRLO)) v :: log)
  end.

(** A read of memory. *)
Definition is_ld (x : access) : Prop := match x with Rd (QMem _) _ => True | _ => False end.

Lemma lreg_ld l i r log : Forall is_ld r → lreg l i (r ++ log) = lreg l i log.
Proof. induction 1 as [|[[p|a] v|[p|a] v] r H _ IH]; done. Qed.

Lemma ipis_ld l r log : Forall is_ld r → ipis l (r ++ log) = ipis l log.
Proof. induction 1 as [|[[p|a] v|[p|a] v] r H _ IH]; done. Qed.

Lemma wait_delivered_ok n : ∀ b, delivered n (b_lapic b) (b_log b) = true →
  ∃ r, wait_delivered n b = Done tt (after r b) ∧ Forall is_ld r.
Proof.
  induction n as [|n IH]; intros b H; [done|]. cbn [wait_delivered delivered] in *. erewrite bind_done by apply lapicr_ok.
  set (x := Rd _ _) in *. destruct (Z.land _ DELIVS =? 0).
  - exists [x]. split; [done|by repeat constructor].
  - cbn [negb orb] in *. destruct (IH (after [x] b) H) as (r & Er & Hr). exists (r ++ [x]). rewrite Er, after_after. split; [done|].
    apply Forall_app. split; [done|by repeat constructor].
Qed.

(** The registers [lapicinit] sets, but for the last. *)
Definition lapic_config : list (Z * Z) :=
  [(SVR, Z.lor ENABLE (T_IRQ0 + IRQ_SPURIOUS)); (TDCR, X1); (TIMER, Z.lor PERIODIC (T_IRQ0 + IRQ_TIMER)); (TICR, 10000000);
   (LINT0, MASKED); (LINT1, MASKED); (ERROR, T_IRQ0 + IRQ_ERROR); (ESR, 0); (EOI, 0)].

Lemma mask_pcint (c : bool) t : ∃ r, (if c then lapicw PCINT MASKED else ret tt) t = Done tt (after r t) ∧
  (∀ i log, i ≠ PCINT → lreg (b_lapic t) i (r ++ log) = lreg (b_lapic t) i log) ∧
  ∀ log, ipis (b_lapic t) (r ++ log) = ipis (b_lapic t) log.
Proof.
  destruct c; [|exists []; by destruct t]. destruct (lapicw_ok PCINT MASKED t) as [v E].
  exists (lw (b_lapic t) PCINT MASKED v). split; [done|]. split.
  - intros i log Hi. cbn [lw app]. rewrite lreg_write. by rewrite (proj2 (Z.eqb_neq _ _) Hi).
  - intros log. cbn [lw app]. rewrite ipis_write. by rewrite app_nil_r.
Qed.

(** The timer, the error interrupt and the masks are set, and a reset is sent to all processors, before
    the last write, which lets interrupts in. *)
Lemma lapicinit_ok n b :
  b_lapic b ≠ 0 → (∀ log, delivered n (b_lapic b) log = true) →
  ∃ v r, lapicinit n b = Done tt (after (lw (b_lapic b) TPR 0 v ++ r) b) ∧
    Forall (λ iv, lreg (b_lapic b) (fst iv) (r ++ b_log b) = Some (snd iv)) lapic_config ∧
    ipis (b_lapic b) (r ++ b_log b) = ipis (b_lapic b) (b_log b) ++ [(0, Z.lor (Z.lor BCAST INIT) LEVEL)].
Proof.
  intros Hl Hd. unfold lapicinit, bind at 1, gets. cbn [obind]. rewrite (proj2 (Z.eqb_neq _ _) Hl).
  set (l := b_lapic b) in *.
  do 6 (lapic_write; change (b_lapic (after _ b)) with l; rewrite ?after_after).
  fold l. erewrite bind_done by apply lapicr_ok. change (b_lapic (after _ b)) with l. rewrite after_after.
  match goal with |- context [bind (if ?c then _ else _) _ (after ?r b)] => set (r0 := r);
    destruct (mask_pcint c (after r0 b)) as (r1 & E1 & R1 & I1) end.
  erewrite bind_done by exact E1. rewrite after_after. clear E1. change (b_lapic (after _ b)) with l in R1, I1.
  do 6 (lapic_write; change (b_lapic (after _ b)) with l; rewrite ?after_after).
  match goal with |- context [bind (wait_delivered n) _ (after ?r b)] => set (r2 := r);
    destruct (wait_delivered_ok n (after r2 b)) as (r3 & E3 & R3); [apply Hd|] end.
  erewrite bind_done by exact E3. rewrite after_after.
  destruct (lapicw_ok TPR 0 (after (r3 ++ r2) b)) as [v E]. exists v, (r3 ++ r2). rewrite E, after_after.
  split; [done|]. subst r2 r0. rewrite <-app_assoc. cbn [lw app]. rewrite <-app_assoc. cbn [lw app]. split.
  - repeat (apply Forall_cons; split; [rewrite lreg_ld by done; cbn [fst snd]; repeat lreg_step R1; done|]). done.
  - rewrite ipis_ld by done. rewrite !ipis_write, I1.
    match goal with |- context [ipis l (Rd ?q ?v :: ?log)] => change (ipis l (Rd q v :: log)) with (ipis l log) end.
    rewrite !ipis_write. repeat lreg_step R1. cbn. by rewrite !app_nil_r.
Qed.

(** The interrupts that start the processor [apicid] at [addr]: a reset, its end, and two start-ups. *)
Definition start_ipis (apicid addr : Z) : list (Z * Z) :=
  [(apicid, Z.lor (Z.lor INIT LEVEL) ASSERT); (apicid, Z.lor INIT LEVEL);
   (apicid, Z.lor STARTUP (Z.shiftr addr 12)); (apicid, Z.lor STARTUP (Z.shiftr addr 12))].

(** The memory with the warm reset vector, a real-mode far pointer, at 40:67. *)
Definition wrv_mem (m : mem) (addr : Z) : mem :=
  store_bytes (store_bytes m (P2V 0x467) [0; 0]) (P2V 0x469) (le_enc 2 (Z.shiftr addr 4)).

Lemma apicid_shift apicid : is_u8 apicid → Z.shiftr (u32 (Z.shiftl apicid 24)) 24 = apicid.
Proof.
  intros H. unfold is_u8 in H. rewrite Z.shiftl_mul_pow2 by lia. rewrite u32_small by (unfold is_u32; lia).
  rewrite Z.shiftr_div_pow2 by lia. apply Z.div_mul. lia.
Qed.

(** [icr_eval]: decide which writes go to the command register. *)
Ltac icr_eval :=
  change (ICRLO =? ICRLO) with true; change (ICRHI =? ICRLO) with false; change (ICRHI =? ICRHI) with true; cbn iota; cbn [default from_option id].

Lemma startup_small addr : 0 ≤ addr < 0x100000 → u32 (Z.lor STARTUP (Z.shiftr addr 12)) = Z.lor STARTUP (Z.shiftr addr 12).
Proof.
  intros Ha. apply u32_small. unfold is_u32. change 4294967296 with (2 ^ 32). apply lor_bound; [lia|done|].
  rewrite Z.shiftr_div_pow2 by lia. zdiv.
Qed.

Lemma send_startup_ok apicid addr t :
  is_u8 apicid → 0 ≤ addr < 0x100000 →
  ∃ r, send_startup apicid addr t = Done tt (after r t) ∧
    ∀ log, ipis (b_lapic t) (r ++ log) = ipis (b_lapic t) log ++ [(apicid, Z.lor STARTUP (Z.shiftr addr 12))].
Proof.
  intros Hid Ha. unfold send_startup. set (l := b_lapic t).
  do 2 (lapic_write; change (b_lapic (after _ t)) with l; rewrite ?after_after). fold l.
  eexists. split; [reflexivity|]. intros log. cbn [lw app]. rewrite !ipis_write. repeat lreg_step Hid. icr_eval.
  by rewrite app_nil_r, apicid_shift, startup_small.
Qed.

Lemma lapicstartap_ok apicid addr b :
  is_u8 apicid → 0 ≤ addr < 0x100000 →
  ∃ r, lapicstartap apicid addr b = Done tt (after r (with_b_k (with_k_mem (wrv_mem (k_mem (b_k b)) addr) (b_k b)) b)) ∧
    ipis (b_lapic b) (r ++ b_log b) = ipis (b_lapic b) (b_log b) ++ start_ipis apicid addr.
Proof.
  intros Hid Ha. unfold lapicstartap. do 2 (erewrite bind_done by apply outb_ok). rewrite after_after.
  match goal with |- context [after ?r b] => set (r0 := r) end. do 2 (erewrite bind_done by reflexivity).
  match goal with |- context [bind (lapicw _ _) _ ?t] => change t with
    (after r0 (with_b_k (with_k_mem (wrv_mem (k_mem (b_k b)) addr) (b_k b)) b)) end.
  set (b1 := with_b_k _ b). set (l := b_lapic b).
  do 2 (lapic_write; change (b_lapic (after _ b1)) with l; rewrite ?after_after). erewrite bind_done by reflexivity.
  lapic_write; change (b_lapic (after _ b1)) with l; rewrite ?after_after. erewrite bind_done by reflexivity.
  cbn [seq for_each]. fold l. match goal with |- context [after ?r b1] => set (r1 := r) end.
  destruct (send_startup_ok apicid addr (after r1 b1) Hid Ha) as (r2 & E2 & I2). erewrite bind_done by exact E2. rewrite after_after.
  destruct (send_startup_ok apicid addr (after (r2 ++ r1) b1) Hid Ha) as (r3 & E3 & I3). erewrite bind_done by exact E3. rewrite after_after.
  eexists. split; [reflexivity|]. change (b_lapic (after _ b1)) with l in I2, I3.
  rewrite <-app_assoc, I3, <-app_assoc, I2. subst r1 r0. cbn [lw app]. rewrite !ipis_write.
  unfold start_ipis. repeat lreg_step I2. icr_eval. by rewrite apicid_shift, !app_nil_r, <-!app_assoc.
Qed.
End effects.
