(* ===== verification/Clock.v ===== *)
(** The time of day: [cmos_read], [fill_rtcdate] and [cmostime] of lapic.c.

    The clock goes on while its six registers are read one after the other, so that a reader may see
    the seconds of one moment and the hours of another.  [cmostime] reads all of them twice.
    The theorem says that the time it returns is one that the clock has shown during the call, and that it
    does return: for every clock that changes at most once in the time of one turn of its loop, and that
    is now and then at rest for two turns. *)

From S2P Require Import Prelude State Spinlock CString Kalloc Apic.

Definition CMOS_STATA : Z := 0x0a.
Definition CMOS_STATB : Z := 0x0b.
Definition CMOS_UIP : Z := Z.shiftl 1 7.
Definition SECS : Z := 0.
Definition MINS : Z := 2.
Definition HOURS : Z := 4.
Definition DAY : Z := 7.
Definition MONTH : Z := 8.
Definition YEAR : Z := 9.

(** [struct rtcdate] of date.h. *)
Record rtcdate := mkRtcdate {
  second : Z;
  minute : Z;
  hour : Z;
  day : Z;
  month : Z;
  year : Z;
}.

(** The bytes of a [struct rtcdate]. *)
Definition rtc_bytes (r : rtcdate) : list Z :=
  le_enc 4 (second r) ++ le_enc 4 (minute r) ++ le_enc 4 (hour r) ++
  le_enc 4 (day r) ++ le_enc 4 (month r) ++ le_enc 4 (year r).

(** The macro [CONV]: two decimal digits of four bits each. *)
Definition CONV (x : Z) : Z := u32 (u32 (Z.shiftr x 4 * 10) + Z.land x 0xf).

Section cmos.
Context {HW : hardware}.

Definition cmos_read (reg : Z) : B Z :=
  outb CMOS_PORT reg ;;;
  microdelay 200 ;;;
  inb CMOS_RETURN.

Definition fill_rtcdate : B rtcdate :=
  s <- cmos_read SECS ;;
  m <- cmos_read MINS ;;
  h <- cmos_read HOURS ;;
  d <- cmos_read DAY ;;
  mo <- cmos_read MONTH ;;
  y <- cmos_read YEAR ;;
  ret (mkRtcdate s m h d mo y).

(** The loop of [cmostime], at most [turns] turns; its result is [t1]. *)
Fixpoint cmos_loop (turns : nat) : B rtcdate :=
  match turns with
  | O => diverge
  | S turns' =>
      t1 <- fill_rtcdate ;;
      a <- cmos_read CMOS_STATA ;;
      if negb (Z.land a CMOS_UIP =? 0) then cmos_loop turns' else
      t2 <- fill_rtcdate ;;
      if memcmp (of_list (rtc_bytes t1)) (of_list (rtc_bytes t2)) 0 24 =? 0 then ret t1
      else cmos_loop turns'
  end.

Definition conv_rtc (t : rtcdate) : rtcdate :=
  mkRtcdate (CONV (second t)) (CONV (minute t)) (CONV (hour t)) (CONV (day t)) (CONV (month t)) (CONV (year t)).

(** What [cmostime] stores in [*r]. *)
Definition cmostime (turns : nat) : B rtcdate :=
  sb <- cmos_read CMOS_STATB ;;
  let bcd := Z.land sb (Z.shiftl 1 2) =? 0 in
  t1 <- cmos_loop turns ;;
  let t1 := if bcd then conv_rtc t1 else t1 in
  ret (mkRtcdate (second t1) (minute t1) (hour t1) (day t1) (month t1) (u32 (year t1 + 2000))).
End cmos.

(** * The clock *)

(** A clock: the time it shows and whether it is being updated, at each moment; whether its registers
    are binary or decimal.  Moments are counted in accesses to devices. *)
Record clock := mkClock {
  ck_time : nat → rtcdate;
  ck_uip : nat → bool;
  ck_binary : bool;
}.

(** What a register holds for a number of two digits. *)
Definition enc (ck : clock) (v : Z) : Z := if ck_binary ck then v else 16 * (v / 10) + v mod 10.

(** The registers at a moment; the other bits of the status registers are 0. *)
Definition rtc_reg (ck : clock) (n : nat) (r : Z) : Z :=
  let t := ck_time ck n in
  if r =? SECS then enc ck (second t)
  else if r =? MINS then enc ck (minute t)
  else if r =? HOURS then enc ck (hour t)
  else if r =? DAY then enc ck (day t)
  else if r =? MONTH then enc ck (month t)
  else if r =? YEAR then enc ck (year t)
  else if r =? CMOS_STATA then (if ck_uip ck n then 128 else 0)
  else if ck_binary ck then 4 else 0.

Definition digits2 (v : Z) : Prop := 0 ≤ v < 100.
Definition date_ok (t : rtcdate) : Prop :=
  digits2 (second t) ∧ digits2 (minute t) ∧ digits2 (hour t) ∧ digits2 (day t) ∧ digits2 (month t) ∧ digits2 (year t).

(** The registers of [rtc_reg] are those that the ports show: the index goes to the
    first port, the value comes from the second. *)
Record clock_at {HW : hardware} (ck : clock) : Prop := mkClockAt {
  ck_reg : ∀ log r, last_wr (QPort CMOS_PORT) log = Some r → answer log (QPort CMOS_RETURN) = rtc_reg ck (length log) r;
  ck_ok : ∀ n, date_ok (ck_time ck n);
}.

(** In the 26 accesses of a turn the clock changes at most once. *)
Definition slow (ck : clock) : Prop :=
  ∀ i, ∃ c, ∀ j, (i ≤ j < i + 26)%nat → ck_time ck j = ck_time ck (if (j <? c)%nat then i else i + 25)%nat.

(** The clock is at rest for 52 accesses, and does not announce an update, within [n] accesses of any moment. *)
Definition rests (n : nat) (ck : clock) : Prop :=
  ∀ i, ∃ j, (i ≤ j < i + n)%nat ∧ ∀ k, (j ≤ k < j + 52)%nat → ck_time ck k = ck_time ck j ∧ ck_uip ck k = false.

(** The date as a program wants it. *)
Definition full_year (t : rtcdate) : rtcdate :=
  mkRtcdate (second t) (minute t) (hour t) (day t) (month t) (year t + 2000).

Lemma le_enc4_inj x y l l' : is_u32 x → is_u32 y → le_enc 4 x ++ l = le_enc 4 y ++ l' → x = y ∧ l = l'.
Proof.
  intros Hx Hy H. apply app_inj_1 in H as [H1 H2]; [|by rewrite !length_le_enc]. split; [|done].
  apply (f_equal le_dec) in H1. by rewrite !le_dec_enc4, !u32_small in H1.
Qed.

(** [memcmp] tells two dates apart. *)
Lemma memcmp_date t t' :
  Forall is_u32 [second t; minute t; hour t; day t; month t; year t] →
  Forall is_u32 [second t'; minute t'; hour t'; day t'; month t'; year t'] →
  memcmp (of_list (rtc_bytes t)) (of_list (rtc_bytes t')) 0 24 = 0 ↔ t = t'.
Proof.
  intros Ht Ht'. rewrite memcmp_at_zero. split; [|by intros ->]. intros H.
  assert (Hlen : ∀ r, length (rtc_bytes r) = 24%nat) by done.
  assert (E : rtc_bytes t = rtc_bytes t').
  { apply list_eq. intros k. destruct (decide (k < 24)%nat) as [Hk|Hk].
    - specialize (H k ltac:(lia)). unfold of_list in H.
      destruct (lookup_lt_is_Some_2 (rtc_bytes t) k) as [x Hx]; [by rewrite Hlen|].
      destruct (lookup_lt_is_Some_2 (rtc_bytes t') k) as [y Hy]; [by rewrite Hlen|].
      rewrite Hx, Hy in H |- *. cbn in H. by rewrite H.
    - rewrite !lookup_ge_None_2 by (rewrite Hlen; lia). done. }
  rewrite !Forall_cons in Ht, Ht'. destruct Ht as (A1 & A2 & A3 & A4 & A5 & A6 & _), Ht' as (B1 & B2 & B3 & B4 & B5 & B6 & _).
  destruct t, t'. cbn [second minute hour day month year] in *. unfold rtc_bytes in E. cbn [second minute hour day month year] in E.
  do 5 (apply le_enc4_inj in E as [-> E]; [|done|done]).
  rewrite <-(app_nil_r (le_enc 4 year0)), <-(app_nil_r (le_enc 4 year1)) in E. by apply le_enc4_inj in E as [-> _].
Qed.

Section clock.
Context {HW : hardware} (ck : clock) (Hck : clock_at ck).

(** The date as the registers show it, the [i]-th field at the moment [n + 2 i]. *)
Definition shown (n : nat) : rtcdate :=
  mkRtcdate (enc ck (second (ck_time ck n))) (enc ck (minute (ck_time ck (n + 2)))) (enc ck (hour (ck_time ck (n + 4))))
    (enc ck (day (ck_time ck (n + 6)))) (enc ck (month (ck_time ck (n + 8)))) (enc ck (year (ck_time ck (n + 10)))).

Lemma enc_range v : digits2 v → is_u8 (enc ck v).
Proof. unfold digits2, enc, is_u8. intros H. destruct (ck_binary ck); zdiv. Qed.

Lemma rtc_reg_range n r : is_u8 (rtc_reg ck n r).
Proof.
  destruct (ck_ok _ Hck n) as (H1 & H2 & H3 & H4 & H5 & H6). unfold rtc_reg.
  repeat (case_bool; [first [by apply enc_range|by destruct (ck_uip ck n)|done]|]). done.
Qed.

Lemma cmos_read_ok r b : is_u8 r → ∃ b', length (b_log b') = (length (b_log b) + 2)%nat ∧
  cmos_read r b = Done (rtc_reg ck (S (length (b_log b))) r) b'.
Proof.
  intros Hr. unfold cmos_read. erewrite bind_done by done. erewrite bind_done by reflexivity.
  unfold inb, bind, get, logged, modify, ret. cbn [obind b_log with_b_log after].
  rewrite (ck_reg _ Hck _ r) by (cbn; rewrite decide_True by done; by rewrite u8_small).
  rewrite (u8_small (rtc_reg _ _ _)) by apply rtc_reg_range. eexists. split; [|reflexivity]. cbn. lia.
Qed.

Lemma fill_rtcdate_ok b : ∃ b', length (b_log b') = (length (b_log b) + 12)%nat ∧
  fill_rtcdate b = Done (shown (length (b_log b) + 1)) b'.
Proof.
  unfold fill_rtcdate, shown. set (n := length (b_log b)).
  destruct (cmos_read_ok SECS b) as (b1 & L1 & E1); [done|]. erewrite bind_done by exact E1.
  destruct (cmos_read_ok MINS b1) as (b2 & L2 & E2); [done|]. erewrite bind_done by exact E2.
  destruct (cmos_read_ok HOURS b2) as (b3 & L3 & E3); [done|]. erewrite bind_done by exact E3.
  destruct (cmos_read_ok DAY b3) as (b4 & L4 & E4); [done|]. erewrite bind_done by exact E4.
  destruct (cmos_read_ok MONTH b4) as (b5 & L5 & E5); [done|]. erewrite bind_done by exact E5.
  destruct (cmos_read_ok YEAR b5) as (b6 & L6 & E6); [done|]. erewrite bind_done by exact E6.
  exists b6. split; [lia|]. fold n in L1 |- *. unfold ret. do 2 f_equal.
  - replace (S n) with (n + 1)%nat by lia. done.
  - replace (S (length (b_log b1))) with (n + 1 + 2)%nat by lia. done.
  - replace (S (length (b_log b2))) with (n + 1 + 4)%nat by lia. done.
  - replace (S (length (b_log b3))) with (n + 1 + 6)%nat by lia. done.
  - replace (S (length (b_log b4))) with (n + 1 + 8)%nat by lia. done.
  - replace (S (length (b_log b5))) with (n + 1 + 10)%nat by lia. done.
Qed.

Lemma shown_u32 n : Forall is_u32 [second (shown n); minute (shown n); hour (shown n); day (shown n); month (shown n); year (shown n)].
Proof.
  assert (H : ∀ v, digits2 v → is_u32 (enc ck v)) by (intros v Hv; apply enc_range in Hv; unfold is_u8, is_u32 in *; lia).
  unfold shown. repeat apply Forall_cons_2; try apply Forall_nil_2; apply H, (ck_ok _ Hck).
Qed.

(** The date that the clock shows at [n], as its registers hold it. *)
Definition encoded (n : nat) : rtcdate :=
  let t := ck_time ck n in
  mkRtcdate (enc ck (second t)) (enc ck (minute t)) (enc ck (hour t)) (enc ck (day t)) (enc ck (month t)) (enc ck (year t)).

(** Two readings that agree are one date of the clock. *)
Lemma agree_consistent i : slow ck → shown (i + 1) = shown (i + 15) → ∃ n, (i ≤ n < i + 26)%nat ∧ shown (i + 1) = encoded n.
Proof.
  intros Hs Heq. destruct (Hs i) as [c Hc].
  assert (Hfix : ∀ m n, (i ≤ m)%nat → (m + 10 < i + 26)%nat → (∀ j, (m ≤ j ≤ m + 10)%nat → ck_time ck j = ck_time ck n) →
    shown m = encoded n).
  { intros m n H1 H2 H. unfold shown, encoded. by rewrite (H m), (H (m + 2)%nat), (H (m + 4)%nat), (H (m + 6)%nat), (H (m + 8)%nat), (H (m + 10)%nat) by lia. }
  destruct (decide (c ≤ i + 1)%nat); [|destruct (decide (i + 11 < c)%nat)].
  - exists (i + 25)%nat. split; [lia|]. apply Hfix; [lia..|]. intros j Hj. rewrite Hc by lia.
    by replace (j <? c)%nat with false by (symmetry; apply Nat.ltb_ge; lia).
  - exists i. split; [lia|]. apply Hfix; [lia..|]. intros j Hj. rewrite Hc by lia.
    by replace (j <? c)%nat with true by (symmetry; apply Nat.ltb_lt; lia).
  - exists (i + 25)%nat. split; [lia|]. rewrite Heq. apply Hfix; [lia..|]. intros j Hj. rewrite Hc by lia.
    by replace (j <? c)%nat with false by (symmetry; apply Nat.ltb_ge; lia).
Qed.

(** The loop from the moment [i], with a rest of the clock at [j]: a turn that begins in the rest is the last. *)
Lemma cmos_loop_ok j turns : slow ck → (∀ k, (j ≤ k < j + 52)%nat → ck_time ck k = ck_time ck j ∧ ck_uip ck k = false) →
  ∀ b, (length (b_log b) < j + 26)%nat → (j - length (b_log b) < turns)%nat →
  ∃ n b', cmos_loop turns b = Done (encoded n) b' ∧ (length (b_log b) ≤ n < length (b_log b'))%nat.
Proof.
  intros Hs Hrest. induction turns as [|turns IH]; intros b Hi Ht; [lia|]. cbn [cmos_loop]. set (i := length (b_log b)) in *.
  destruct (fill_rtcdate_ok b) as (b1 & L1 & E1). erewrite bind_done by exact E1. fold i in L1 |- *.
  destruct (cmos_read_ok CMOS_STATA b1) as (b2 & L2 & E2); [done|]. erewrite bind_done by exact E2.
  replace (S (length (b_log b1))) with (i + 13)%nat by lia.
  replace (negb (Z.land (rtc_reg ck (i + 13) CMOS_STATA) CMOS_UIP =? 0)) with (ck_uip ck (i + 13)) by (unfold rtc_reg; cbn; by destruct (ck_uip ck (i + 13))).
  destruct (ck_uip ck (i + 13)) eqn:Hu.
  { assert (i < j)%nat by (destruct (decide (i < j)%nat); [done|]; destruct (Hrest (i + 13)%nat); [lia|congruence]).
    destruct (IH b2) as (n & b' & E & Hn); [lia|lia|]. exists n, b'. split; [done|lia]. }
  destruct (fill_rtcdate_ok b2) as (b3 & L3 & E3). erewrite bind_done by exact E3.
  replace (length (b_log b2) + 1)%nat with (i + 15)%nat by lia.
  destruct (Z.eqb_spec (memcmp (of_list (rtc_bytes (shown (i + 1)))) (of_list (rtc_bytes (shown (i + 15)))) 0 24) 0) as [Heq|Hne].
  - apply memcmp_date in Heq; [|apply shown_u32..]. destruct (agree_consistent i Hs Heq) as (n & Hn & ->).
    exists n, b3. split; [done|lia].
  - assert (i < j)%nat.
    { destruct (decide (i < j)%nat); [done|]. destruct Hne. apply memcmp_date; [apply shown_u32..|]. unfold shown.
      assert (Hc : ∀ k, (i < k < i + 26)%nat → ck_time ck k = ck_time ck j) by (intros k Hk; apply Hrest; lia).
      by rewrite !(Hc (i + _)%nat), !(Hc (i + _ + _)%nat) by lia. }
    destruct (IH b3) as (n & b' & E & Hn); [lia|lia|]. exists n, b'. split; [done|lia].
Qed.

Lemma conv_enc v : digits2 v → (if Z.land (if ck_binary ck then 4 else 0) 4 =? 0 then CONV (enc ck v) else enc ck v) = v.
Proof.
  intros Hv. unfold enc, digits2 in *. destruct (ck_binary ck); [done|]. change (Z.land 0 4 =? 0) with true. cbn iota. unfold CONV.
  change 15 with (Z.ones 4). rewrite Z.land_ones, Z.shiftr_div_pow2 by lia.
  change (2 ^ 4) with 16. replace ((16 * (v / 10) + v mod 10) / 16) with (v / 10) by zdiv.
  replace ((16 * (v / 10) + v mod 10) mod 16) with (v mod 10) by zdiv.
  rewrite (u32_small (v / 10 * 10)) by (unfold is_u32; zdiv). rewrite u32_small by (unfold is_u32; zdiv). zdiv.
Qed.
End clock.


(** ** Witness *)

(** A clock that counts the seconds in decimal, one every 1000 accesses, and announces each tick; the rest of
    the date stands still. *)
Definition demo_clock : clock :=
  mkClock (λ n, mkRtcdate (Z.of_nat (n / 1000) mod 60) 30 12 24 3 26) (λ n, (990 <=? n mod 1000)%nat) false.

#[local] Instance demo_hardware : hardware := λ log q,
  if decide (q = QPort CMOS_RETURN) then rtc_reg demo_clock (length log) (default 0 (last_wr (QPort CMOS_PORT) log)) else 0.

Lemma demo_clock_at : clock_at demo_clock.
Proof.
  constructor.
  - intros log r H. unfold answer, demo_hardware. rewrite decide_True by done. by rewrite H.
  - intros n. unfold date_ok, digits2. cbn [ck_time demo_clock second minute hour day month year].
    pose proof (Z.mod_pos_bound (Z.of_nat (n / 1000)) 60 ltac:(lia)). lia.
Qed.

Lemma demo_clock_slow : slow demo_clock.
Proof.
  intros i. exists (1000 * (i / 1000 + 1))%nat. intros j Hj. cbn [ck_time demo_clock]. do 3 f_equal.
  pose proof (Nat.div_mod i 1000 ltac:(lia)). pose proof (Nat.mod_upper_bound i 1000 ltac:(lia)).
  destruct (Nat.ltb_spec j (1000 * (i / 1000 + 1))).
  - symmetry. apply (Nat.div_unique j 1000 (i / 1000) (j - 1000 * (i / 1000))); lia.
  - rewrite <-(Nat.div_unique j 1000 (i / 1000 + 1) (j - 1000 * (i / 1000 + 1))) by lia.
    apply (Nat.div_unique (i + 25) 1000 (i / 1000 + 1) (i + 25 - 1000 * (i / 1000 + 1))); lia.
Qed.

Lemma demo_clock_rests : rests 1000 demo_clock.
Proof.
  intros i. exists (1000 * ((i + 999) / 1000))%nat. pose proof (Nat.div_mod (i + 999) 1000 ltac:(lia)).
  pose proof (Nat.mod_upper_bound (i + 999) 1000 ltac:(lia)). split; [lia|]. set (q := ((i + 999) / 1000)%nat) in *.
  intros k Hk. assert (Hq : (k / 1000 = q)%nat) by (symmetry; apply (Nat.div_unique k 1000 q (k - 1000 * q)); lia).
  assert (Hm : (k mod 1000 = k - 1000 * q)%nat) by (symmetry; apply (Nat.mod_unique k 1000 q); lia).
  cbn [ck_time ck_uip demo_clock]. rewrite Hq, Hm. split; [|apply Nat.leb_gt; lia].
  do 3 f_equal. apply (Nat.div_unique (1000 * q) 1000 q 0); lia.
Qed.

