(* ===== verification/Boot.v ===== *)
(** The start of the machine: main.c, with the parts of console.c and ide.c that reach the
    interrupt controllers.

    [init_devices] is the part of [main] from [picinit] to [ideinit]; the theorem about it says which
    interrupts the processors then get.  [startothers] wakes the other processors; what they do meanwhile is a parameter. *)

From S2P Require Import Prelude State Spinlock CString Cprintf Mmu Kalloc Vm Uvm Sched Bio Ide Console File Proc Syscall Apic.
Import KLock.

Section boot.
Context {HW : hardware}.

(** * Devices *)

Definition consoleinit : B unit :=
  bkern Console.consoleinit ;;;
  ioapicenable IRQ_KBD 0.

(** [idewait(0)], at most [turns] turns. *)
Fixpoint idewait (turns : nat) : B unit :=
  match turns with
  | O => diverge
  | S turns' =>
      r <- inb 0x1f7 ;;
      if negb (Z.land r (Z.lor IDE_BSY IDE_DRDY) =? IDE_DRDY) then idewait turns' else ret tt
  end.

(** The loop of [ideinit] that looks for disk 1. *)
Fixpoint probe (n : nat) : B bool :=
  match n with
  | O => ret false
  | S n' => r <- inb 0x1f7 ;; if negb (r =? 0) then ret true else probe n'
  end.

(** The result is [havedisk1]. *)
Definition ideinit (turns : nat) : B bool :=
  bkern (initlock LIde "ide") ;;;
  ncpu <- gets (λ b, h_ncpu (k_hart (b_k b))) ;;
  ioapicenable IRQ_IDE (ncpu - 1) ;;;
  idewait turns ;;;
  outb 0x1f6 (Z.lor 0xe0 (Z.shiftl 1 4)) ;;;
  havedisk1 <- probe 1000 ;;
  outb 0x1f6 (Z.lor 0xe0 (Z.shiftl 0 4)) ;;;
  ret havedisk1.

(** [main] from [picinit] to [ideinit]; [vectors] are the entry points of the assembly code. *)
Definition init_devices (turns : nat) (vectors : list Z) : B (list gatedesc * bool) :=
  picinit ;;;
  ioapicinit ;;;
  consoleinit ;;;
  uartinit ;;;
  bkern pinit ;;;
  gates <- bkern (tvinit vectors) ;;
  bkern binit ;;;
  bkern fileinit ;;;
  disk <- ideinit turns ;;
  ret (gates, disk).

(** ** What they do *)

(** Within [n] reads the disk is ready. *)
Fixpoint disk_ready (n : nat) (log : list access) : bool :=
  match n with
  | O => false
  | S n' =>
      let r := u8 (answer log (QPort 0x1f7)) in
      (Z.land r (Z.lor IDE_BSY IDE_DRDY) =? IDE_DRDY) || disk_ready n' (Rd (QPort 0x1f7) r :: log)
  end.

Lemma idewait_ok n : ∀ b, disk_ready n (b_log b) = true → ∃ l, idewait n b = Done tt (after l b) ∧ Forall is_in l.
Proof.
  induction n as [|n IH]; intros b H; [done|]. cbn [idewait disk_ready] in *. set (v := u8 (answer (b_log b) (QPort 0x1f7))) in *.
  rewrite (bind_done _ _ b v (after [Rd (QPort 0x1f7) v] b)) by done.
  destruct (Z.land v (Z.lor IDE_BSY IDE_DRDY) =? IDE_DRDY); cbn [negb orb] in *.
  - eexists. split; [reflexivity|by repeat constructor].
  - destruct (IH (after [Rd (QPort 0x1f7) v] b) H) as (l & E & Hl). exists (l ++ [Rd (QPort 0x1f7) v]). rewrite E, after_after.
    split; [done|]. apply Forall_app. split; [done|by repeat constructor].
Qed.

Lemma probe_ok n : ∀ b, ∃ d l, probe n b = Done d (after l b) ∧ Forall is_in l.
Proof.
  induction n as [|n IH]; intros b; [by exists false, []; destruct b|]. cbn [probe].
  destruct (inb_ok 0x1f7 b) as (v & _ & E). erewrite bind_done by exact E. destruct (v =? 0); cbn [negb].
  - destruct (IH (after [Rd (QPort 0x1f7) v] b)) as (d & l & El & Hl). exists d, (l ++ [Rd (QPort 0x1f7) v]). rewrite El, after_after.
    split; [done|]. apply Forall_app. split; [done|by repeat constructor].
  - eexists _, _. split; [reflexivity|by repeat constructor].
Qed.

(** The interrupt lines up to [max]: [on] are enabled, and line [j] is sent to processor [to j]. *)
Definition lines (max : Z) (on : Z → bool) (to : Z → Z) (log : list access) : Prop :=
  ∀ j, 0 ≤ j ≤ max →
    entry log j = Some (if on j then T_IRQ0 + j else Z.lor INT_DISABLED (T_IRQ0 + j)) ∧ dest log j = Some (Z.shiftl (to j) 24).

Lemma lines_enable max on to irq cpu b b' :
  lines max on to (b_log b) → routed irq (T_IRQ0 + irq) (Z.shiftl cpu 24) b b' →
  lines max (λ j, (j =? irq) || on j) (λ j, if j =? irq then cpu else to j) (b_log b').
Proof.
  intros H [_ R] j Hj. destruct (R j) as [-> ->], (H j Hj) as [-> ->]. cbv beta.
  destruct (Z.eqb_spec j irq) as [->|]; [by rewrite !decide_True|by rewrite !decide_False].
Qed.

Lemma lines_ports max on to l log : Forall is_port l → lines max on to log → lines max on to (l ++ log).
Proof. intros Hl H j Hj. unfold entry, dest. rewrite !ioapic_reg_ports by done. by apply H. Qed.

Lemma lines_in max on to l log : Forall is_in l → lines max on to log → lines max on to (l ++ log).
Proof. intros Hl. apply lines_ports. eapply Forall_impl; [exact Hl|]. by intros [[]|[]]. Qed.

Lemma bkern_done {A} (m : K A) b a k' : m (b_k b) = Done a k' → bkern m b = Done a (with_b_k k' b).
Proof. apply (zoom_done b_k). Qed.

Lemma consoleinit_ok b max on to :
  b_ioapic b = IOAPIC → lines max on to (b_log b) →
  ∃ l k', consoleinit b = Done tt (after l (with_b_k k' b)) ∧ Forall is_mem l ∧
    k' = with_k_locking true (with_k_devsw (k_devsw k') (with_k_hart (k_hart k') (b_k b))) ∧ h_ncpu (k_hart k') = h_ncpu (k_hart (b_k b)) ∧
    lines max (λ j, (j =? IRQ_KBD) || on j) (λ j, if j =? IRQ_KBD then 0 else to j) (l ++ b_log b).
Proof.
  intros Hp Hl. unfold consoleinit. erewrite bind_done by (by apply bkern_done). set (k' := with_k_locking true _).
  destruct (ioapicenable_ok IRQ_KBD 0 (with_b_k k' b)) as (b' & E & R); [done..|]. pose proof R as [(l & -> & M) _].
  exists l, k'. split; [done|]. split; [done|]. do 2 (split; [done|]).
  exact (lines_enable max on to IRQ_KBD 0 (with_b_k k' b) _ Hl R).
Qed.

Lemma ideinit_ok turns b max on to :
  b_ioapic b = IOAPIC → 0 < h_ncpu (k_hart (b_k b)) ≤ 256 → (∀ log, disk_ready turns log = true) → lines max on to (b_log b) →
  ∃ d l k', ideinit turns b = Done d (after l (with_b_k k' b)) ∧ k' = with_k_hart (k_hart k') (b_k b) ∧
    uart_line (l ++ b_log b) = uart_line (b_log b) ∧
    lines max (λ j, (j =? IRQ_IDE) || on j) (λ j, if j =? IRQ_IDE then h_ncpu (k_hart (b_k b)) - 1 else to j) (l ++ b_log b).
Proof.
  intros Hp Hn Hd Hl. unfold ideinit. erewrite bind_done by (apply bkern_done; apply initlock_eq). set (k' := with_k_hart _ _).
  erewrite bind_done by done. set (cpu := h_ncpu (k_hart (b_k b)) - 1).
  destruct (ioapicenable_ok IRQ_IDE cpu (with_b_k k' b)) as (b' & E & R); [done|unfold cpu; lia|done|].
  erewrite bind_done by exact E. pose proof (lines_enable max on to IRQ_IDE cpu (with_b_k k' b) _ Hl R) as L1. pose proof R as [(l1 & -> & M1) _].
  destruct (idewait_ok turns (after l1 (with_b_k k' b))) as (l2 & E2 & M2); [apply Hd|]. erewrite bind_done by exact E2. rewrite after_after.
  erewrite bind_done by apply outb_ok. rewrite after_after.
  match goal with |- context [after ?l (with_b_k k' b)] => set (l3 := l) end.
  destruct (probe_ok 1000 (after l3 (with_b_k k' b))) as (d & l4 & E4 & M4). erewrite bind_done by exact E4. rewrite after_after.
  erewrite bind_done by apply outb_ok. rewrite after_after. eexists d, _, k'. split; [reflexivity|]. split; [done|].
  subst l3. cbn [app]. rewrite <-!app_assoc. cbn [app]. split.
  - change (uart_line (Wr ?q ?v :: ?l)) with (uart_line l). rewrite uart_line_in by done.
    change (uart_line (Wr ?q ?v :: ?l)) with (uart_line l). rewrite <-app_assoc, uart_line_in by done. by rewrite uart_line_mem.
  - apply (lines_ports _ _ _ [_]); [by repeat constructor|]. apply lines_in; [done|].
    apply (lines_ports _ _ _ [_]); [by repeat constructor|]. rewrite <-app_assoc. apply lines_in; [done|]. exact L1.
Qed.
End boot.

Section routed.
Context {HW : hardware}.

(** [uartinit] enables its line if it finds a port. *)
Lemma uartinit_lines b max on to :
  b_ioapic b = IOAPIC → k_uart (b_k b) = false → lines max on to (b_log b) → to IRQ_COM1 = 0 →
  ∃ b', uartinit b = Done tt b' ∧ b_k b' = with_k_uart (k_uart (b_k b')) (b_k b) ∧ b_ioapic b' = IOAPIC ∧
    uart_line (b_log b') = (uart_sent (b_log b) ++ (if k_uart (b_k b') then bytes "xv6...
" else []), Some 12, false) ∧
    lines max (λ j, (k_uart (b_k b') && (j =? IRQ_COM1)) || on j) to (b_log b').
Proof.
  intros Hp Hu Hl Ht. destruct (uartinit_ok b Hp Hu) as (b' & E & K & P & _ & U & H). exists b'. do 4 (split; [done|]).
  intros j Hj. destruct (H j) as [-> ->], (Hl j Hj) as [-> ->]. destruct (k_uart (b_k b')); [|done]. cbn [andb].
  destruct (Z.eqb_spec j IRQ_COM1) as [->|]; [|done]. by rewrite Ht.
Qed.

(** [main] from [pinit] to [fileinit] makes no access to a device. *)
Lemma init_tables_ok {A} vectors (k : list gatedesc → B A) b :
  length (k_bufs (b_k b)) = S NBUF →
  ∃ k', (bkern pinit ;;; gates <- bkern (tvinit vectors) ;; bkern binit ;;; bkern fileinit ;;; k gates) b = k (idt vectors) (with_b_k k' b) ∧
    k_uart k' = k_uart (b_k b) ∧ h_ncpu (k_hart k') = h_ncpu (k_hart (b_k b)).
Proof.
  intros Hb. erewrite bind_done by (apply bkern_done, initlock_eq). set (k1 := with_k_hart _ (b_k b)).
  erewrite bind_done by (by apply bkern_done).
  match goal with |- context [with_b_k ?x (with_b_k k1 b)] => set (k2 := x) end.
  destruct (binit_runs k2) as (k3 & E3 & Hk3 & _); [|done|].
  { apply (unlocked_initlock_ne LPtable LTicks "time" k1); [done|]. apply (unlocked_initlock LPtable "ptable" (b_k b)). }
  erewrite bind_done by (apply bkern_done; exact E3). erewrite bind_done by (apply bkern_done, initlock_eq).
  eexists. split; [reflexivity|]. cbn. by rewrite Hk3.
Qed.
End routed.

(** C25: after [main] has initialised the devices, the interrupts that reach a processor are
    those of the keyboard, of the serial port if there is one, and of the disk; all other lines of the I/O APIC are
    masked.  Line [j] raises the vector [T_IRQ0 + j] that [trap] expects; the disk interrupts go to the last
    processor and the others to the first.  The serial port runs at 115200/12 baud and has announced the system.
    All this holds whatever the devices answer, as long as the disk gets ready. *)
Theorem interrupts_routed {HW : hardware} turns vectors b :
  can_print (b_k b) → cons_ready (b_k b) → k_uart (b_k b) = false → length (k_bufs (b_k b)) = S NBUF →
  0 < h_ncpu (k_hart (b_k b)) ≤ 256 → (∀ log, disk_ready turns log = true) →
  let b0 := after [Wr (QPort 0xA1) 0xFF; Wr (QPort 0x21) 0xFF] b in
  ∃ disk b', init_devices turns vectors b = Done (idt vectors, disk) b' ∧
    let uart := k_uart (b_k b') in
    (∀ j, 0 ≤ j ≤ maxintr b0 →
      let on := (j =? IRQ_KBD) || (uart && (j =? IRQ_COM1)) || (j =? IRQ_IDE) in
      entry (b_log b') j = Some (if on then T_IRQ0 + j else Z.lor INT_DISABLED (T_IRQ0 + j)) ∧
      dest (b_log b') j = Some (if j =? IRQ_IDE then Z.shiftl (h_ncpu (k_hart (b_k b)) - 1) 24 else 0)) ∧
    uart_divisor (b_log b') = Some 12 ∧
    uart_sent (b_log b') = uart_sent (b_log b) ++ (if uart then bytes "xv6...
" else []).
Proof.
  intros Hc Hr Hu Hb Hn Hd b0. unfold init_devices. erewrite bind_done by reflexivity. fold b0.
  change (with_b_log _ _) with b0.
  destruct (ioapicinit_ok b0 Hc Hr) as (b1 & E1 & P1 & [F1 _] & U1 & _ & H1). erewrite bind_done by exact E1.
  assert (L1 : lines (maxintr b0) (λ _, false) (λ _, 0) (b_log b1)) by exact H1.
  destruct (consoleinit_ok b1 _ _ _ P1 L1) as (l2 & k2 & E2 & M2 & K2 & N2 & L2). erewrite bind_done by exact E2.
  set (b2 := after l2 (with_b_k k2 b1)) in *.
  assert (Hu2 : k_uart (b_k b2) = false) by (cbn; by rewrite K2, F1).
  destruct (uartinit_lines b2 _ _ _ P1 Hu2 L2 eq_refl) as (b3 & E3 & K3 & P3 & U3 & L3).
  erewrite bind_done by exact E3.
  assert (Hsame : k_bufs (b_k b3) = k_bufs (b_k b) ∧ h_ncpu (k_hart (b_k b3)) = h_ncpu (k_hart (b_k b))).
  { rewrite K3. cbn. rewrite N2, K2, F1. done. }
  destruct Hsame as [Hb3 Hn3].
  destruct (init_tables_ok vectors (λ gates, disk <- ideinit turns ;; ret (gates, disk)) b3) as (k4 & E4 & K4 & N4); [by rewrite Hb3|]. rewrite E4. clear E4.
  destruct (ideinit_ok turns (with_b_k k4 b3) _ _ _ P3 ltac:(cbn; lia) Hd L3) as (d & l5 & k5 & E5 & K5 & U5 & L5).
  erewrite bind_done by exact E5. eexists d, _. split; [reflexivity|]. cbn [b_k after with_b_log with_b_k b_log] in *.
  assert (Hk5 : k_uart k5 = k_uart (b_k b3)) by (rewrite K5; exact K4).
  cbv zeta. rewrite Hk5. split.
  - intros j Hj. destruct (L5 j Hj) as [-> ->]. rewrite N4, Hn3. split.
    + do 2 f_equal. destruct (j =? IRQ_IDE), (j =? IRQ_KBD), (k_uart (b_k b3)), (j =? IRQ_COM1); done.
    + destruct (j =? Ide.IRQ_IDE) eqn:Ej; change Ide.IRQ_IDE with IRQ_IDE in Ej; rewrite Ej; [done|]. by destruct (j =? IRQ_KBD).
  - rewrite U3 in U5. destruct (uart_line_inv _ _ _ _ U5) as (-> & -> & _). split; [done|]. f_equal.
    assert (U2 : uart_line (b_log b2) = uart_line (b_log b)) by (cbn; rewrite uart_line_mem by done; exact U1).
    by injection U2.
Qed.

(** * The other processors *)

(** What the linker and the assembly code fix: the code of entryother.S, and the addresses of [mpenter] and
    [entrypgdir]. *)
Record bootimage := mkBootimage {
  bi_entryother : list Z;
  bi_mpenter : Z;
  bi_entrypgdir : Z;
}.

Section startothers.
Context {HW : hardware}.

(** What the other processors have made of [cpus] between two reads of a flag [started]. *)
Context (aps : board → list cpu).

Definition cpus_of (b : board) : list cpu := h_cpus (k_hart (b_k b)).
Definition run_aps (b : board) : board :=
  with_b_k (with_k_hart (with_h_cpus (aps b) (k_hart (b_k b))) (b_k b)) b.

(** [while(c->started == 0)], at most [turns] turns. *)
Fixpoint wait_started (turns i : nat) : B unit :=
  match turns with
  | O => diverge
  | S turns' =>
      c <- gets (λ b, cpus_of b !! i) ;;
      c <- deref c ;;
      if c_started c =? 0 then modify run_aps ;;; wait_started turns' i else ret tt
  end.

(** [*(uint* )a = v] in the memory of the kernel. *)
Definition poke (a v : Z) : B unit := bkern (modify (λ s, with_k_mem (store32 (k_mem s) a v) s)).

(** The body of the loop of [startothers] for [c = &cpus[i]]. *)
Definition start_cpu (turns : nat) (L : bootimage) (code : Z) (i : nat) : B unit :=
  me <- bkern mycpu ;;
  if (i =? me)%nat then ret tt else
  stack <- bkern kalloc ;;
  poke (code - 4) (u32 (stack + KSTACKSIZE)) ;;;
  poke (code - 8) (bi_mpenter L) ;;;
  poke (code - 12) (V2P (bi_entrypgdir L)) ;;;
  c <- gets (λ b, cpus_of b !! i) ;;
  c <- deref c ;;
  lapicstartap (c_apicid c) (V2P code) ;;;
  wait_started turns i.

Definition startothers (turns : nat) (L : bootimage) : B unit :=
  let code := P2V 0x7000 in
  bkern (modify (λ s, with_k_mem (store_bytes (k_mem s) code (bi_entryother L)) s)) ;;;
  ncpu <- gets (λ b, h_ncpu (k_hart (b_k b))) ;;
  for_each (seq 0 (Z.to_nat ncpu)) (start_cpu turns L code).

(** ** What it does *)

Definition started (i : nat) (b : board) : Prop := ∃ c, cpus_of b !! i = Some c ∧ c_started c ≠ 0.

(** The other processors leave the ids and this processor alone, and do not take a flag back. *)
Record aps_frame (b b' : board) : Prop := mkApsFrame {
  af_same : b' = with_b_k (with_k_hart (with_h_cpus (cpus_of b') (k_hart (b_k b))) (b_k b)) b;
  af_ids : c_apicid <$> cpus_of b' = c_apicid <$> cpus_of b;
  af_me : cpus_of b' !! Crit.cur (k_hart (b_k b)) = cpus_of b !! Crit.cur (k_hart (b_k b));
  af_started : ∀ i, started i b → started i b';
}.

(** The words below the code: a stack, where to enter, and the page table. *)
Definition handed (L : bootimage) (stack : Z) (b : board) : Prop :=
  load32 (k_mem (b_k b)) (P2V 0x7000 - 4) = u32 (stack + KSTACKSIZE) ∧
  load32 (k_mem (b_k b)) (P2V 0x7000 - 8) = u32 (bi_mpenter L) ∧
  load32 (k_mem (b_k b)) (P2V 0x7000 - 12) = V2P (bi_entrypgdir L).

(** A processor that has been sent its start-up interrupts, with a page for its stack, sets its flag within
    [turns] reads. *)
Definition aps_ok (turns : nat) (L : bootimage) : Prop :=
  (∀ b, aps_frame b (run_aps b)) ∧
  ∀ b i c stack pre, i ≠ Crit.cur (k_hart (b_k b)) → cpus_of b !! i = Some c → handed L stack b → page_ok (b_k b) stack →
    ipis (b_lapic b) (b_log b) = pre ++ start_ipis (c_apicid c) 0x7000 →
    ∃ k, (k < turns)%nat ∧ started i (Nat.iter k run_aps b).

Lemma aps_frame_refl b : aps_frame b b.
Proof. constructor; [|done..]. by destruct b as [? [] ? ? ?], k_hart. Qed.

Lemma wait_started_ok k : ∀ turns i b, (∀ b, aps_frame b (run_aps b)) → (i < length (cpus_of b))%nat → (k < turns)%nat → started i (Nat.iter k run_aps b) →
  ∃ b', wait_started turns i b = Done tt b' ∧ started i b' ∧ ∃ j, b' = Nat.iter j run_aps b.
Proof.
  induction k as [|k IH]; intros [|turns] i b Hf Hi Hk Hs; [lia| |lia|].
  - destruct Hs as (c & Hc & Hs). cbn [Nat.iter nat_rect] in Hc. exists b. split; [|split; [by exists c|by exists 0%nat]].
    cbn [wait_started]. erewrite bind_done by done. rewrite Hc. erewrite bind_done by done. by rewrite (proj2 (Z.eqb_neq _ _)).
  - cbn [wait_started]. erewrite bind_done by done. destruct (lookup_lt_is_Some_2 _ _ Hi) as [c Hc]. rewrite Hc. erewrite bind_done by done.
    destruct (Z.eqb_spec (c_started c) 0) as [E|E]; [|exists b; split; [done|split; [by exists c|by exists 0%nat]]].
    erewrite bind_done by done. rewrite Nat.iter_succ_r in Hs.
    destruct (IH turns i (run_aps b)) as (b' & E' & Hs' & j & ->); [done| |lia|done|].
    { rewrite <-(length_fmap c_apicid), (af_ids _ _ (Hf b)), length_fmap. done. }
    exists (Nat.iter j run_aps (run_aps b)). split; [done|]. split; [done|]. exists (S j). by rewrite Nat.iter_succ_r.
Qed.
Lemma find_index_fmap {A C} (f : C → bool) (g : A → C) l : find_index f (g <$> l) = find_index (λ x, f (g x)) l.
Proof. induction l as [|x l IH]; [done|]. cbn. by rewrite IH. Qed.

Lemma cur_frame b b' : aps_frame b b' → Cpu.cur_cpu (k_hart (b_k b')) = Cpu.cur_cpu (k_hart (b_k b)).
Proof.
  intros [E Hid _ _]. unfold Cpu.cur_cpu.
  assert (H : ∀ id n l l', c_apicid <$> l' = c_apicid <$> l →
    find_index (λ c, c_apicid c =? id) (take n l') = find_index (λ c, c_apicid c =? id) (take n l)).
  { intros id n l l' H. by rewrite <-!(find_index_fmap (λ a, a =? id) c_apicid), !fmap_take, H. }
  rewrite E. cbn. by apply H.
Qed.

Lemma aps_frame_trans b b1 b2 : aps_frame b b1 → aps_frame b1 b2 → aps_frame b b2.
Proof.
  intros F1 F2. pose proof (cur_frame _ _ F1) as Hcur. destruct F1 as [E1 I1 M1 S1], F2 as [E2 I2 M2 S2].
  unfold Crit.cur in *. rewrite Hcur in M2. constructor; [|by rewrite I2, I1|unfold Crit.cur; by rewrite M2, M1|auto]. rewrite E2, E1. done.
Qed.

Lemma aps_frame_iter b j : (∀ b, aps_frame b (run_aps b)) → aps_frame b (Nat.iter j run_aps b).
Proof.
  intros H. induction j as [|j IH]; [apply aps_frame_refl|]. cbn. eapply aps_frame_trans; [exact IH|apply H].
Qed.

(** The state between two turns of the loop, on processor [me]; [F] are the free pages. *)
Record booting (me : nat) (F : list Z) (b : board) : Prop := mkBooting {
  bo_ok : kok (b_k b);
  bo_me : Cpu.cur_cpu (k_hart (b_k b)) = Some me;
  bo_if : h_if (k_hart (b_k b)) = false;
  bo_kmem : kmem_ready (b_k b);
  bo_free : kmem_inv (b_k b) F;
  bo_end : KERNLINK ≤ k_end (b_k b);
}.

Lemma booting_frame me F b b' : aps_frame b b' → booting me F b → booting me F b'.
Proof.
  intros Hf [H1 H2 H3 H4 H5 H6]. pose proof (cur_frame _ _ Hf) as Hcur. pose proof Hf as [E I M S].
  assert (Hok : kok (b_k b')).
  { destruct H1 as (i & c & Hi & Hc & R). exists i, c. rewrite Hcur. split; [done|].
    unfold Crit.cur in M. rewrite Hi in M. cbn in M. unfold cpus_of in M. rewrite M. split; [done|]. rewrite E. exact R. }
  constructor; [done|by rewrite Hcur|by rewrite E| |by rewrite E|by rewrite E].
  intros Hu. split; [done|]. rewrite E in Hu |- *. by apply H4.
Qed.

(** Changes of memory below the kernel. *)
Lemma booting_mem me F b m : (∀ x, KERNLINK ≤ x → m x = k_mem (b_k b) x) →
  booting me F b → booting me F (with_b_k (with_k_mem m (b_k b)) b).
Proof.
  intros Hm [H1 H2 H3 H4 (Hrep & Hnd & Hok) H6]. constructor; try done. split; [|done].
  eapply free_rep_frame; [|exact Hrep]. intros p Hp. rewrite Forall_forall in Hok. destruct (Hok p Hp) as (_ & He & _).
  unfold load32. cbn. by rewrite !Hm by lia.
Qed.
Lemma start_cpu_me turns L code me F b : booting me F b → start_cpu turns L code me b = Done tt b.
Proof.
  intros Hb. unfold start_cpu.
  erewrite bind_done by (apply bkern_done, kmycpu_ok; [apply (bo_ok _ _ _ Hb)|apply (bo_if _ _ _ Hb)]).
  unfold Crit.cur. rewrite (bo_me _ _ _ Hb). cbn [default]. rewrite Nat.eqb_refl. by destruct b.
Qed.

(** The memory in which the processor is started. *)
Definition hand_mem (L : bootimage) (stack : Z) (m : mem) : mem :=
  let code := P2V 0x7000 in
  store32 (store32 (store32 m (code - 4) (u32 (stack + KSTACKSIZE))) (code - 8) (bi_mpenter L)) (code - 12) (V2P (bi_entrypgdir L)).

Lemma poke_ok a v b : poke a v b = Done tt (with_b_k (with_k_mem (store32 (k_mem (b_k b)) a v) (b_k b)) b).
Proof. done. Qed.

Lemma hand_ok {A} L stack (f : B A) b :
  (poke (P2V 0x7000 - 4) (u32 (stack + KSTACKSIZE)) ;;; poke (P2V 0x7000 - 8) (bi_mpenter L) ;;;
   poke (P2V 0x7000 - 12) (V2P (bi_entrypgdir L)) ;;; f) b = f (with_b_k (with_k_mem (hand_mem L stack (k_mem (b_k b))) (b_k b)) b).
Proof. rewrite (bind_done _ _ _ _ _ (poke_ok _ _ _)), (bind_done _ _ _ _ _ (poke_ok _ _ _)), (bind_done _ _ _ _ _ (poke_ok _ _ _)). done. Qed.

Lemma hand_mem_handed L stack b :
  handed L stack (with_b_k (with_k_mem (wrv_mem (hand_mem L stack (k_mem (b_k b))) 0x7000) (b_k b)) b).
Proof.
  assert (Hw : ∀ m a, P2V 0x469 + 2 ≤ a → load32 (wrv_mem m 0x7000) a = load32 m a).
  { intros m a Ha. change (P2V 0x469 + 2) with 2147484779 in Ha. unfold load32, wrv_mem. change (P2V 0x467) with 2147484775. change (P2V 0x469) with 2147484777.
    rewrite !store_bytes_spec, !length_le_enc. cbn [length]. by solve_ifs. }
  unfold handed, hand_mem. cbn [b_k with_b_k k_mem with_k_mem]. rewrite !Hw by (vm_compute; discriminate).
  change (P2V 0x7000) with 2147512320. split; [|split].
  - rewrite !load_store32_ne, load_store32_same by lia. apply u32_u32.
  - rewrite load_store32_ne, load_store32_same by lia. done.
  - rewrite load_store32_same. apply u32_u32.
Qed.

Lemma hand_mem_low L stack m x : KERNLINK ≤ x → wrv_mem (hand_mem L stack m) 0x7000 x = m x.
Proof.
  unfold KERNLINK, KERNBASE, EXTMEM. intros Hx. unfold wrv_mem, hand_mem. change (P2V 0x467) with 2147484775. change (P2V 0x469) with 2147484777.
  change (P2V 0x7000) with 2147512320. rewrite !store_bytes_spec, !store32_spec, !length_le_enc. cbn [length]. by solve_ifs.
Qed.

Lemma start_cpu_ok turns L me F p b i c :
  aps_ok turns L → booting me (p :: F) b → i ≠ me → cpus_of b !! i = Some c → is_u8 (c_apicid c) →
  ∃ b', start_cpu turns L (P2V 0x7000) i b = Done tt b' ∧ booting me F b' ∧
    c_apicid <$> cpus_of b' = c_apicid <$> cpus_of b ∧ b_lapic b' = b_lapic b ∧ started i b' ∧ (∀ j, started j b → started j b') ∧
    ipis (b_lapic b) (b_log b') = ipis (b_lapic b) (b_log b) ++ start_ipis (c_apicid c) 0x7000.
Proof.
  intros [Hfr Hgo] Hb Hi Hc Hid. unfold start_cpu.
  erewrite bind_done by (apply bkern_done, kmycpu_ok; [apply (bo_ok _ _ _ Hb)|apply (bo_if _ _ _ Hb)]).
  unfold Crit.cur. rewrite (bo_me _ _ _ Hb). change (default 0%nat (Some me)) with me. rewrite (proj2 (Nat.eqb_neq _ _) Hi).
  replace (with_b_k (b_k b) b) with b by (by destruct b).
  destruct (kalloc_cons (b_k b) p F (bo_kmem _ _ _ Hb) (bo_free _ _ _ Hb)) as (k1 & E1 & I1 & K1).
  erewrite bind_done by (apply bkern_done; exact E1). rewrite hand_ok.
  set (b1 := with_b_k k1 b). set (b2 := with_b_k _ b1). assert (Hcpus : cpus_of b2 = cpus_of b) by (unfold cpus_of; cbn; by rewrite K1).
  assert (Hb1 : booting me F b1).
  { destruct Hb as [H1 H2 H3 H4 _ H6]. constructor; cbn [b1 b_k with_b_k]; [..|exact I1|]; rewrite K1; assumption. }
  erewrite bind_done by done. rewrite Hcpus, Hc. erewrite bind_done by done.
  destruct (lapicstartap_ok (c_apicid c) 0x7000 b2 Hid) as (r & E3 & I3); [lia|].
  change (V2P (P2V 0x7000)) with 0x7000. erewrite bind_done by exact E3.
  match goal with |- context [wait_started turns i ?t] => set (b3 := t) end.
  assert (Hb3 : booting me F b3) by (destruct (booting_mem me F b1 _ (hand_mem_low L p _) Hb1); by constructor).
  destruct (Hgo b3 i c p (ipis (b_lapic b) (b_log b))) as (k & Hk & Hs);
    [unfold Crit.cur; by rewrite (bo_me _ _ _ Hb3)|by rewrite <-Hc, <-Hcpus|apply (hand_mem_handed L p b1)| |exact I3|].
  { destruct (bo_free _ _ _ Hb) as (_ & _ & Hpg). apply Forall_cons in Hpg as [Hpg _]. unfold page_ok in *. cbn. by rewrite K1. }
  destruct (wait_started_ok k turns i b3 Hfr) as (b4 & E4 & S4 & j & Hj); [by eapply lookup_lt_Some; rewrite <-Hc, <-Hcpus|done|done|].
  pose proof (aps_frame_iter b3 j Hfr) as Hf. rewrite <-Hj in Hf. exists b4. split; [exact E4|]. split; [by eapply booting_frame|].
  destruct Hf as [Q1 Q2 _ Q4].
  split; [rewrite Q2, <-Hcpus; done|]. split; [by rewrite Q1|]. split; [done|]. split.
  - intros x Hx. apply Q4. destruct Hx as (y & Hy & Hy'). exists y. split; [by rewrite <-Hy, <-Hcpus|done].
  - rewrite Q1. exact I3.
Qed.
(** The interrupts that start the processors [js] other than [me]. *)
Definition all_starts (me : nat) (ids : list Z) (js : list nat) : list (Z * Z) :=
  js ≫= λ j, if (j =? me)%nat then [] else start_ipis (default 0 (ids !! j)) 0x7000.

Lemma start_cpus_ok turns L me n : aps_ok turns L → ∀ i F b,
  booting me F b → (i + n ≤ length (cpus_of b))%nat → (n ≤ length F)%nat → Forall is_u8 (c_apicid <$> cpus_of b) →
  ∃ b' S F', for_each (seq i n) (start_cpu turns L (P2V 0x7000)) b = Done tt b' ∧ F = S ++ F' ∧ booting me F' b' ∧
    (∀ j, started j b → started j b') ∧ (∀ j, (i ≤ j < i + n)%nat → j ≠ me → started j b') ∧
    ipis (b_lapic b) (b_log b') = ipis (b_lapic b) (b_log b) ++ all_starts me (c_apicid <$> cpus_of b) (seq i n).
Proof.
  intros Hap. induction n as [|n IH]; intros i F b Hb Hi Hn Hids.
  { exists b, [], F. do 3 (split; [done|]). split; [done|]. split; [lia|]. by rewrite app_nil_r. }
  cbn [seq for_each]. unfold all_starts. cbn [mbind list_bind]. fold (all_starts me (c_apicid <$> cpus_of b) (seq (S i) n)).
  destruct (Nat.eqb_spec i me) as [->|Hne].
  - rewrite (bind_done _ _ _ _ _ (start_cpu_me turns L (P2V 0x7000) me F b Hb)).
    destruct (IH (S me) F b) as (b' & S & F' & E & EF & Hb' & Hmono & Hst & Hip); [done|lia|lia|done|].
    exists b', S, F'. do 4 (split; [done|]). split; [|exact Hip]. intros j Hj Hm. apply Hst; [lia|done].
  - destruct F as [|p F]; [cbn in Hn; lia|]. destruct (lookup_lt_is_Some_2 (cpus_of b) i) as [c Hc]; [lia|].
    assert (Hid : (c_apicid <$> cpus_of b) !! i = Some (c_apicid c)) by (by rewrite list_lookup_fmap, Hc).
    destruct (start_cpu_ok turns L me F p b i c Hap Hb Hne Hc) as (b1 & E1 & Hb1 & Ids & Hl & S1 & M1 & I1); [by eapply Forall_lookup_1 in Hids|].
    rewrite (bind_done _ _ _ _ _ E1). rewrite <-Ids in Hids. assert (Hlen : length (cpus_of b1) = length (cpus_of b)).
    { by rewrite <-(length_fmap c_apicid), Ids, length_fmap. }
    destruct (IH (S i) F b1) as (b' & S & F' & E & EF & Hb' & Hmono & Hst & Hip); [done|lia|cbn in Hn; lia|done|].
    exists b', (p :: S), F'. split; [done|]. split; [by rewrite EF|]. split; [done|]. split; [auto|]. split.
    + intros j Hj Hm. destruct (decide (j = i)) as [->|]; [by apply Hmono|]. apply Hst; [lia|done].
    + rewrite Hl in Hip. rewrite Hip, I1, Ids, Hid, <-app_assoc. done.
Qed.

End startothers.

(** * The page table of the start *)

Definition PTE_PS : Z := 0x80.

Definition entrypgdir : list Z :=
  let e := Z.lor (Z.lor (Z.lor 0 PTE_P) PTE_W) PTE_PS in
  <[Z.to_nat (Z.shiftr KERNBASE PDXSHIFT) := e]> (<[0%nat := e]> (replicate NPDENTRIES 0)).

(** Where the processor finds [va] with the page directory [dir] of 4 MB pages. *)
Definition big_page (dir : list Z) (va : Z) : option Z :=
  e ← dir !! Z.to_nat (PDX va);
  if Z.land e (Z.lor PTE_P PTE_PS) =? Z.lor PTE_P PTE_PS then Some (Z.lor (Z.land e 0xFFC00000) (Z.land va 0x3FFFFF)) else None.

(** The first 4 MB of memory, at 0 and at [KERNBASE], and nothing else. *)
Lemma entrypgdir_maps va : is_u32 va →
  big_page entrypgdir va =
    if va <? 0x400000 then Some va
    else if (KERNBASE <=? va) && (va <? KERNBASE + 0x400000) then Some (va - KERNBASE) else None.
Proof.
  intros Hva. unfold is_u32 in Hva. unfold big_page.
  assert (Hp : PDX va = va / 4194304).
  { unfold PDX, PDXSHIFT. rewrite u32_small by done. rewrite Z.shiftr_div_pow2 by lia. change 0x3FF with (Z.ones 10).
    rewrite Z.land_ones by lia. apply Z.mod_small. change (2 ^ 22) with 4194304. change (2 ^ 10) with 1024. zdiv. }
  assert (Hlow : Z.land va 0x3FFFFF = va mod 4194304) by (change 0x3FFFFF with (Z.ones 22); by rewrite Z.land_ones).
  assert (Hget : entrypgdir !! Z.to_nat (PDX va) = Some (if (PDX va =? 0) || (PDX va =? 512) then 131 else 0)).
  { unfold entrypgdir. change (Z.to_nat (Z.shiftr KERNBASE PDXSHIFT)) with 512%nat. rewrite !list_lookup_insert, length_insert, length_replicate.
    unfold NPDENTRIES. destruct (Z.eqb_spec (PDX va) 0) as [E|E]; [|destruct (Z.eqb_spec (PDX va) 512) as [E'|E']].
    - rewrite E. done.
    - rewrite E'. done.
    - assert (0 ≤ PDX va < 1024) by (rewrite Hp; zdiv). rewrite decide_False by lia. rewrite decide_False by lia.
      apply lookup_replicate. split; [done|lia]. }
  rewrite Hget. cbn [mbind option_bind]. rewrite Hlow, Hp. unfold KERNBASE.
  destruct (Z.ltb_spec va 0x400000).
  - replace (va / 4194304 =? 0) with true by (symmetry; apply Z.eqb_eq; zdiv). cbn. f_equal. apply Z.mod_small. lia.
  - replace (va / 4194304 =? 0) with false by (symmetry; apply Z.eqb_neq; zdiv). cbn [orb].
    destruct (Z.leb_spec 0x80000000 va), (Z.ltb_spec va (0x80000000 + 0x400000)); cbn [andb].
    + replace (va / 4194304 =? 512) with true by (symmetry; apply Z.eqb_eq; zdiv). by replace (va mod 4194304) with (va - 2147483648) by zdiv.
    + by replace (va / 4194304 =? 512) with false by (symmetry; apply Z.eqb_neq; zdiv).
    + by replace (va / 4194304 =? 512) with false by (symmetry; apply Z.eqb_neq; zdiv).
    + lia.
Qed.

(** ** Witness *)

(** An I/O APIC with 24 lines, a disk that is ready and a serial port. *)
#[local] Instance demo_devices : hardware := λ log q,
  match q with
  | QMem a => if (a =? IOAPIC + 16) && bool_decide (last_wr (QMem IOAPIC) log = Some REG_VER) then 0x170011 else 0
  | QPort p => if p =? 0x1f7 then 0x40 else if p =? COM1 + 5 then 0x60 else 0
  end.

Definition demo_board : board := mkBoard [] (with_k_uart false (with_k_locking false demo_boot)) 0xFEE00000 0 0.

Lemma interrupts_routed_witness :
  ∃ disk b', init_devices 1 [] demo_board = Done (idt [], disk) b' ∧
    entry (b_log b') IRQ_KBD = Some (T_IRQ0 + IRQ_KBD) ∧ entry (b_log b') 23 = Some (Z.lor INT_DISABLED (T_IRQ0 + 23)).
Proof.
  destruct (interrupts_routed 1 [] demo_board) as (disk & b' & E & H & _).
  - split; [reflexivity|]. split; [discriminate|reflexivity].
  - intros H. discriminate H.
  - reflexivity.
  - reflexivity.
  - split; [reflexivity|discriminate].
  - intros log. reflexivity.
  - exists disk, b'. split; [exact E|].
    assert (Hm : maxintr (after [Wr (QPort 0xA1) 0xFF; Wr (QPort 0x21) 0xFF] demo_board) = 23) by (vm_compute; reflexivity).
    destruct (H IRQ_KBD) as [H1 _]; [rewrite Hm; split; discriminate|].
    destruct (H 23) as [H2 _]; [rewrite Hm; split; discriminate|]. clear -H1 H2. split; [exact H1|].
    rewrite H2. destruct (k_uart (b_k b')); reflexivity.
Defined.

(** ** A machine with three processors *)

(** Each processor but this one sets its flag at once. *)
Definition demo_aps (b : board) : list cpu :=
  imap (λ i c, if (i =? Crit.cur (k_hart (b_k b)))%nat then c else with_c_started 1 c) (cpus_of b).

Lemma demo_aps_frame b : aps_frame b (run_aps demo_aps b).
Proof.
  constructor; [done|..].
  - apply list_eq. intros i. cbn. unfold demo_aps. rewrite !list_lookup_fmap, list_lookup_imap.
    destruct (cpus_of b !! i); [|done]. cbn. by case_match.
  - cbn. unfold demo_aps. rewrite list_lookup_imap, Nat.eqb_refl. by destruct (cpus_of b !! _).
  - intros i (c & Hc & Hs). exists (if (i =? Crit.cur (k_hart (b_k b)))%nat then c else with_c_started 1 c). split; [|by case_match].
    cbn. unfold demo_aps. by rewrite list_lookup_imap, Hc.
Qed.

Definition demo_bootimage : bootimage := mkBootimage [250] 0x80103000 0x80109000.

(** The pages that are free, and memory with their list. *)
Definition demo_free : list Z := [KERNBASE + 0x300000; KERNBASE + 0x301000; KERNBASE + 0x302000].
Definition demo_free_mem : mem :=
  store32 (store32 (λ _, 0) (KERNBASE + 0x300000) (KERNBASE + 0x301000)) (KERNBASE + 0x301000) (KERNBASE + 0x302000).

Definition smp_cpu (id started : Z) : cpu := mkCpu id (mkTaskstate 0 0 0) [] started 0 false None.
Definition demo_smp : board :=
  mkBoard [] (with_k_hart (mkHart false 0 0 7 [smp_cpu 3 0; smp_cpu 7 1; smp_cpu 5 0] 3 ∅)
    (with_k_freelist (KERNBASE + 0x300000) (with_k_mem demo_free_mem demo_kernel))) 0xFEE00000 0 0.

Lemma demo_smp_booting : booting 1 demo_free demo_smp.
Proof.
  constructor.
  - exists 1%nat, (smp_cpu 7 1). repeat split; cbn; lia.
  - reflexivity.
  - reflexivity.
  - intros H. discriminate H.
  - split; [by vm_compute|]. split; [by repeat (apply NoDup_cons; split; [set_solver|]); apply NoDup_nil|].
    repeat (apply Forall_cons; split; [by vm_compute|]). done.
  - by vm_compute.
Qed.

Lemma demo_aps_ok : aps_ok demo_aps 2 demo_bootimage.
Proof.
  split; [exact demo_aps_frame|]. intros b i c stack pre Hi Hc _ _ _. exists 1%nat. split; [lia|].
  exists (with_c_started 1 c). split; [|done]. cbn. unfold demo_aps. rewrite list_lookup_imap, Hc. cbn.
  by rewrite (proj2 (Nat.eqb_neq _ _) Hi).
Qed.

