(* ===== verification/Ulib.v ===== *)
(** The library of the user programs: ulib.c and printf.c.

    A pointer to characters is the list of the bytes from it to the end of the
    object it points into; a routine that would run off that end gives [None].
    The system calls that [stat] makes and the input that [gets] reads are
    arguments, and what [printf] writes to its file is a list of bytes. *)

From S2P Require Import Prelude State CString Cprintf.

(** * [ulib.c] *)

(** What the object [s] points into holds after [strcpy(s, t)]. *)
Fixpoint strcpy (s t : list Z) : option (list Z) :=
  match s, t with
  | _ :: s', c :: t' => if c =? 0 then Some (c :: s') else cons c <$> strcpy s' t'
  | _, _ => None
  end.

Fixpoint strcmp (p q : list Z) : option Z :=
  match p, q with
  | c :: p', d :: q' => if negb (c =? 0) && (c =? d) then strcmp p' q' else Some (u8 c - u8 d)
  | _, _ => None
  end.

Fixpoint strlen (s : list Z) : option nat :=
  match s with
  | [] => None
  | c :: s' => if c =? 0 then Some 0%nat else S <$> strlen s'
  end.

(** The offset of the character found. *)
Fixpoint strchr (s : list Z) (c : Z) : option nat :=
  match s with
  | [] => None
  | x :: s' => if x =? 0 then None else if x =? c then Some 0%nat else S <$> strchr s' c
  end.

(** [stosb] of x86.h. *)
Definition memset (dst : list Z) (c : Z) (n : nat) : option (list Z) :=
  if decide (n ≤ length dst)%nat then Some (replicate n (u8 c) ++ drop n dst) else None.

(** The loop of [gets] when [i] characters are stored; [input] is what is left to read
    of file 0. *)
Fixpoint gets_loop (n : nat) (buf : list Z) (i : nat) (input : list Z) : list Z * nat * list Z :=
  match n, input with
  | S n', c :: input' =>
      let buf := <[i := c]> buf in
      if (c =? 10) || (c =? 13) then (buf, S i, input') else gets_loop n' buf (S i) input'
  | _, _ => (buf, i, input)
  end.

(** [i + 1 < max] holds [max - 1] times. *)
Definition gets (buf : list Z) (max : nat) (input : list Z) : list Z * list Z :=
  let '(buf, i, input) := gets_loop (max - 1) buf 0 input in (<[i := 0]> buf, input).

Fixpoint atoi_loop (n : Z) (s : list Z) : option Z :=
  match s with
  | [] => None
  | c :: s' => if (48 <=? c) && (c <=? 57) then atoi_loop (s32 (n * 10 + c - 48)) s' else Some n
  end.
Definition atoi (s : list Z) : option Z := atoi_loop 0 s.

(** [while(n-- > 0) *dst++ = *src++]: [memmove] of ulib.c copies upwards only. *)
Definition memmove (m : mem) (dst src n : Z) : mem := move_up m dst src (Z.to_nat n).

Section stat.
Context {W St : Type}.
Context (open : list Z → Z → W → Z * W) (fstat : Z → W → option St * Z * W) (close : Z → W → W).

Definition stat (n : list Z) (w : W) : option St * Z * W :=
  let '(fd, w) := open n 0 w in
  if fd <? 0 then (None, -1, w) else
  let '(st, r, w) := fstat fd w in
  (st, r, close fd w).
End stat.

(** * [printf.c] *)

(** [digits[d]] of ["0123456789ABCDEF"]. *)
Definition udigit (d : Z) : Z := if d <? 10 then 48 + d else 65 + (d - 10).

(** The [do ... while] of [printint], least significant digit first; 32 turns
    are enough for a [uint] in any base. *)
Fixpoint udigits (fuel : nat) (x base : Z) : list Z :=
  match fuel with
  | O => []
  | S fuel' => udigit (x mod base) :: (if x / base =? 0 then [] else udigits fuel' (x / base) base)
  end.

Definition printint (xx base : Z) (sgn : bool) : list Z :=
  let neg := sgn && (xx <? 0) in
  let x := u32 (if neg then - xx else xx) in
  reverse (udigits 32 x base ++ (if neg then [MINUS] else [])).

(** The loop of [printf]: [percent] is [state == '%']. *)
Fixpoint printf_loop (fmt : list Z) (percent : bool) (ap : list carg) : option (list Z) :=
  match fmt with
  | [] => Some []
  | c :: fmt' =>
      if negb percent then
        if c =? PERCENT then printf_loop fmt' true ap
        else cons c <$> printf_loop fmt' false ap
      else if c =? 100 then
        match ap with
        | CInt z :: ap' => app (printint (s32 z) 10 true) <$> printf_loop fmt' false ap'
        | _ => None
        end
      else if (c =? 120) || (c =? 112) then
        match ap with
        | CInt z :: ap' => app (printint (s32 z) 16 false) <$> printf_loop fmt' false ap'
        | _ => None
        end
      else if c =? 115 then
        match ap with
        | CStr s :: ap' => app (default (bytes "(null)") s) <$> printf_loop fmt' false ap'
        | _ => None
        end
      else if c =? 99 then
        match ap with
        | CInt z :: ap' => cons (u8 z) <$> printf_loop fmt' false ap'
        | _ => None
        end
      else if c =? PERCENT then cons c <$> printf_loop fmt' false ap
      else app [PERCENT; c] <$> printf_loop fmt' false ap
  end.

Definition printf (fmt : list Z) (ap : list carg) : option (list Z) := printf_loop fmt false ap.

(** * What they compute *)

(** The characters of [w] do not end a string. *)
Definition plain (w : list Z) : Prop := Forall (λ c, c ≠ 0) w.

Lemma ustrlen_spec w r : plain w → strlen (w ++ 0 :: r) = Some (length w).
Proof. induction 1 as [|c w Hc _ IH]; [done|]. simpl. rewrite (proj2 (Z.eqb_neq _ _)) by done. by rewrite IH. Qed.

Lemma strchr_spec w r c : plain w → strchr (w ++ 0 :: r) c = find_index (λ x, x =? c) w.
Proof.
  induction 1 as [|x w Hx _ IH]; [done|]. simpl. rewrite (proj2 (Z.eqb_neq _ _)) by done. rewrite IH. by destruct (x =? c).
Qed.

Lemma strcpy_spec s w r : plain w → (length w < length s)%nat →
  strcpy s (w ++ 0 :: r) = Some (w ++ 0 :: drop (S (length w)) s).
Proof.
  intros Hw. revert s. induction Hw as [|c w Hc _ IH]; intros [|x s] Hlen; simpl in Hlen; try lia; [done|].
  simpl. rewrite (proj2 (Z.eqb_neq _ _)) by done. by rewrite IH by lia.
Qed.

Lemma strcmp_spec v w r r' :
  plain v → plain w → Forall is_u8 v → Forall is_u8 w →
  ∃ d, strcmp (v ++ 0 :: r) (w ++ 0 :: r') = Some d ∧ (d = 0 ↔ v = w).
Proof.
  intros Hv Hw Hv8 Hw8. revert w Hw Hw8. induction Hv as [|c v Hc _ IH]; intros w Hw Hw8.
  - destruct Hw as [|d w Hd _]; simpl; eexists; split; try done.
    rewrite (u8_small d) by (by apply Forall_cons in Hw8 as [? _]). change (u8 0) with 0. split; [lia|done].
  - apply Forall_cons in Hv8 as [Hc8 Hv8]. simpl. rewrite (proj2 (Z.eqb_neq c 0)) by done. simpl.
    destruct Hw as [|d w Hd Hw]; simpl.
    + rewrite (proj2 (Z.eqb_neq c 0)) by done. eexists. split; [done|].
      rewrite (u8_small c) by done. change (u8 0) with 0. split; [lia|done].
    + apply Forall_cons in Hw8 as [Hd8 Hw8]. destruct (Z.eqb_spec c d) as [->|Hne].
      * destruct (IH Hv8 w Hw Hw8) as (x & -> & Hx). exists x. split; [done|]. rewrite Hx. split; [by intros ->|by intros [= ->]].
      * eexists. split; [done|]. rewrite !u8_small by done. split; [lia|by intros [= ? _]].
Qed.

(** ** [gets] *)

Definition is_eol (c : Z) : bool := (c =? 10) || (c =? 13).

(** The line [gets] takes from its input: up to the end of the line, or [n] characters. *)
Fixpoint first_line (n : nat) (input : list Z) : list Z :=
  match n, input with
  | S n', c :: input' => c :: (if is_eol c then [] else first_line n' input')
  | _, _ => []
  end.

Lemma first_line_prefix n input : input = first_line n input ++ drop (length (first_line n input)) input.
Proof.
  revert input. induction n as [|n IH]; intros [|c input]; try done. simpl. destruct (is_eol c); [done|]. simpl. by rewrite <-IH.
Qed.

Lemma first_line_length n input : (length (first_line n input) ≤ n)%nat.
Proof.
  revert input. induction n as [|n IH]; intros [|c input]; simpl; try lia. destruct (is_eol c); simpl; [lia|].
  specialize (IH input). lia.
Qed.

Lemma insert_middle {A} (l1 l2 : list A) x y : <[length l1 := y]> (l1 ++ x :: l2) = l1 ++ y :: l2.
Proof. induction l1 as [|z l1 IH]; [done|]. simpl. by f_equal. Qed.

Lemma gets_loop_spec n pre rest input :
  (n ≤ length rest)%nat →
  gets_loop n (pre ++ rest) (length pre) input =
    (pre ++ first_line n input ++ drop (length (first_line n input)) rest,
     (length pre + length (first_line n input))%nat, drop (length (first_line n input)) input).
Proof.
  revert pre rest input. induction n as [|n IH]; intros pre rest input Hn.
  { simpl. by rewrite Nat.add_0_r. }
  destruct input as [|c input]; [simpl; by rewrite Nat.add_0_r|]. destruct rest as [|x rest]; [simpl in Hn; lia|].
  cbn [gets_loop first_line]. change ((c =? 10) || (c =? 13)) with (is_eol c).
  rewrite insert_middle. destruct (is_eol c).
  - cbn [length app drop]. do 2 f_equal. lia.
  - rewrite cons_middle, app_assoc. replace (S (length pre)) with (length (pre ++ [c])) by (rewrite length_app; simpl; lia).
    rewrite IH by (simpl in Hn; lia). cbn [length drop]. rewrite <-app_assoc, length_app. cbn [length]. do 2 f_equal. lia.
Qed.

Lemma gets_spec buf max input :
  (0 < max ≤ length buf)%nat →
  let line := first_line (max - 1) input in
  gets buf max input = (line ++ 0 :: drop (S (length line)) buf, drop (length line) input).
Proof.
  intros Hm line. unfold gets. pose proof (gets_loop_spec (max - 1) [] buf input) as E. cbn [app length plus] in E. fold line in E.
  rewrite E by lia.
  pose proof (first_line_length (max - 1) input) as Hl. fold line in Hl.
  destruct (drop (length line) buf) as [|x r] eqn:Hd.
  { exfalso. apply (f_equal length) in Hd. rewrite length_drop in Hd. simpl in Hd. lia. }
  rewrite insert_middle. do 3 f_equal. replace (S (length line)) with (length line + 1)%nat by lia.
  by rewrite <-drop_drop, Hd.
Qed.

(** ** Numbers *)

Definition is_digit (c : Z) : bool := (48 <=? c) && (c <=? 57).

Lemma udigit_digits fuel x base : 2 ≤ base ≤ 10 → udigits fuel x base = digits_of fuel x base.
Proof.
  intros Hb. revert x. induction fuel as [|fuel IH]; intros x; [done|]. cbn [udigits digits_of]. f_equal.
  - unfold udigit, digit. pose proof (Z.mod_pos_bound x base). by rewrite !(proj2 (Z.ltb_lt _ _)) by lia.
  - destruct (_ =? _); [done|apply IH].
Qed.

Lemma digits_10 fuel x : Forall (λ c, is_digit c = true) (digits_of fuel x 10).
Proof.
  revert x. induction fuel as [|fuel IH]; intros x; cbn [digits_of]; constructor.
  - pose proof (Z.mod_pos_bound x 10). unfold digit, is_digit. rewrite (proj2 (Z.ltb_lt _ _)) by lia. lia.
  - destruct (_ =? _); [constructor|apply IH].
Qed.

(** The value of a list of digits that follow the number [n]. *)
Definition value (n : Z) (ds : list Z) : Z := foldl (λ a c, a * 10 + undigit c) n ds.

Lemma undigit_is_digit c : is_digit c = true → undigit c = c - 48 ∧ 0 ≤ undigit c < 10.
Proof. unfold is_digit, undigit. intros H. rewrite (proj2 (Z.ltb_lt _ _)) by lia. lia. Qed.

Lemma value_ge n ds : 0 ≤ n → Forall (λ c, is_digit c = true) ds → n ≤ value n ds.
Proof.
  intros Hn Hds. revert n Hn. induction Hds as [|d ds Hd _ IH]; intros n Hn; [done|]. cbn [value foldl].
  destruct (undigit_is_digit d Hd). specialize (IH (n * 10 + undigit d)). unfold value in *. lia.
Qed.

Lemma atoi_loop_spec n ds c r :
  0 ≤ n → Forall (λ c, is_digit c = true) ds → is_digit c = false → value n ds < 2147483648 →
  atoi_loop n (ds ++ c :: r) = Some (value n ds).
Proof.
  intros Hn Hds Hc. revert n Hn. induction Hds as [|d ds Hd Hds IH]; intros n Hn Hlt.
  - cbn. unfold is_digit in Hc. by rewrite Hc.
  - cbn [app atoi_loop]. fold (is_digit d). rewrite Hd. destruct (undigit_is_digit d Hd) as [E1 E2].
    change (value n (d :: ds)) with (value (n * 10 + undigit d) ds) in *.
    pose proof (value_ge (n * 10 + undigit d) ds ltac:(lia) Hds).
    rewrite s32_small by lia. replace (n * 10 + d - 48) with (n * 10 + undigit d) by lia. apply IH; lia.
Qed.

(** [printf] and [atoi] agree: [atoi] gives back a number that is not negative from the text
    [printf] makes of it with [%d], whatever follows in the format, if not a digit. *)
Theorem atoi_printf n c r out :
  0 ≤ n < 2147483648 → is_digit c = false → printf (bytes "%d" ++ c :: r) [CInt n] = Some out →
  c ≠ PERCENT → atoi out = Some n.
Proof.
  intros Hn Hc Hout HP.
  change (app (printint (s32 n) 10 true) <$> printf_loop (c :: r) false [] = Some out) in Hout.
  rewrite (s32_small n) in Hout by lia. cbn [printf_loop negb] in Hout. rewrite (proj2 (Z.eqb_neq c PERCENT)) in Hout by done.
  apply fmap_Some in Hout as (t & Ht & ->). apply fmap_Some in Ht as (t' & _ & ->).
  unfold printint. rewrite (proj2 (Z.ltb_ge n 0)) by lia. cbn [andb]. rewrite app_nil_r, u32_small by (unfold is_u32; lia).
  rewrite udigit_digits by lia. unfold atoi. rewrite atoi_loop_spec.
  - f_equal. change (numeral 10 (reverse (digits_of 32 n 10)) = n). apply digits_of_value; [lia| |lia].
    change (2 ^ Z.of_nat 32) with 4294967296. lia.
  - lia.
  - apply Forall_reverse, digits_10.
  - done.
  - change (numeral 10 (reverse (digits_of 32 n 10)) < 2147483648). rewrite digits_of_value; [lia|lia| |lia].
    change (2 ^ Z.of_nat 32) with 4294967296. lia.
Qed.

Lemma atoi_printf_witness : ∃ out, printf (bytes "%d; ") [CInt 120] = Some out ∧ atoi out = Some 120.
Proof.
  eexists. split; [reflexivity|]. apply (atoi_printf 120 59 [32] _); [lia|reflexivity|reflexivity|discriminate].
Defined.

(** ** [memmove] *)

Lemma memmove_disjoint m dst src n a :
  mem_ok m → dst ≤ src ∨ src + Z.max 0 n ≤ dst → memmove m dst src n a = mcopy m dst src n a.
Proof.
  intros Hm H. unfold memmove. rewrite move_up_spec by (done || lia). unfold mcopy.
  destruct (Z.leb_spec 0 n); [by rewrite Z2Nat.id|]. by solve_ifs.
Qed.

(** the [memmove] of ulib.c is not one where the ranges overlap the wrong way: to move a
    range one byte up fills it with its first byte. *)
Theorem memmove_smears m src n a :
  mem_ok m → memmove m (src + 1) src n a = mset m (src + 1) (m src) n a.
Proof.
  intros Hm. unfold memmove. destruct (Z.leb_spec 0 n) as [Hn|Hn].
  2: { replace (Z.to_nat n) with 0%nat by lia. cbn [move_up]. unfold mset. case_bool; [lia|done]. }
  rewrite <-(Z2Nat.id n) at 2 by done. generalize (Z.to_nat n). clear n Hn. intros n. revert m src Hm.
  induction n as [|n IH]; intros m src Hm; cbn [move_up].
  - unfold mset. by solve_ifs.
  - rewrite IH by (by apply mem_ok_store8). unfold mset, store8. rewrite Z.eqb_refl.
    rewrite !(u8_small (m src)) by apply Hm. solve_ifs; try done.
Qed.

Lemma memmove_smears_witness :
  let m := λ a, if (0 <=? a) && (a <? 3) then a + 1 else 0 in
  map (memmove m 1 0 2) [0; 1; 2] = [1; 1; 1].
Proof.
  intros m. assert (Hm : mem_ok m) by (intros a; unfold m, is_u8; solve_ifs; lia).
  cbn [map]. rewrite !(memmove_smears m 0 2 _ Hm). reflexivity.
Defined.
