(* ===== verification/Sh.v ===== *)
(** The shell of xv6: sh.c.

    The commands are cells of a heap, as the C structures are: a pointer to one is
    its index, a pointer to a character is an offset in the buffer that holds the
    line.  [sh_room] is the number of calls of [malloc] that succeed; the code does
    not test the result, and what follows a null pointer has no meaning.  The
    messages of [panic], which ends the process, are those of [Panicked].

    A reference lexer and a grammar say what a line means, and the theorems say that
    the parser returns, that it accepts the lines of the grammar and builds their
    trees, with each word terminated by a NUL in the buffer. *)

From S2P Require Import Prelude State CString Cprintf Ulib Sysfile.

(** * Data *)

Definition MAXARGS : nat := 10.

(** [struct execcmd], [redircmd], [pipecmd], [listcmd] and [backcmd]; the field [type]
    is the constructor. *)
Inductive cmd :=
| Execcmd (argv eargv : list (option nat))
| Redircmd (cmd : option nat) (file efile : nat) (mode fd : Z)
| Pipecmd (left right : option nat)
| Listcmd (left right : option nat)
| Backcmd (cmd : option nat).

Record shell := mkShell { sh_buf : list Z; sh_heap : list cmd; sh_room : nat }.

Abbreviation P := (@prog shell).
Abbreviation asks := Prelude.gets.

(** [malloc] of a structure, cleared by [memset] and then filled. *)
Definition new_cmd (c : cmd) : P (option nat) := λ st,
  match sh_room st with
  | O => deref None st
  | S r => Done (Some (length (sh_heap st))) (mkShell (sh_buf st) (sh_heap st ++ [c]) r)
  end.

Definition execcmd : P (option nat) := new_cmd (Execcmd (replicate MAXARGS None) (replicate MAXARGS None)).
Definition redircmd (subcmd : option nat) (file efile : nat) (mode fd : Z) : P (option nat) :=
  new_cmd (Redircmd subcmd file efile mode fd).
Definition pipecmd (left right : option nat) : P (option nat) := new_cmd (Pipecmd left right).
Definition listcmd (left right : option nat) : P (option nat) := new_cmd (Listcmd left right).
Definition backcmd (subcmd : option nat) : P (option nat) := new_cmd (Backcmd subcmd).

(** * Tokens *)

(** The characters of ["<|>&;()"], NUL-terminated as the arrays of the code. *)
Definition LT : Z := 60.
Definition BAR : Z := 124.
Definition GT : Z := 62.
Definition AMP : Z := 38.
Definition SEMI : Z := 59.
Definition LPAR : Z := 40.
Definition RPAR : Z := 41.
Definition whitespace : list Z := [32; 9; 13; 10; 11; 0].
Definition symbols : list Z := [LT; BAR; GT; AMP; SEMI; LPAR; RPAR; 0].

Definition found (s : list Z) (c : Z) : bool := bool_decide (is_Some (strchr s c)).

(** The character at [*s]. *)
Definition chr (buf : list Z) (s : nat) : Z := default 0 (buf !! s).

(** [while(s < es && test( *s)) s++], [n] being [es - s]. *)
Fixpoint skip (test : Z → bool) (buf : list Z) (n s : nat) : nat :=
  match n with
  | O => s
  | S n' => if test (chr buf s) then skip test buf n' (S s) else s
  end.

Definition skip_space (buf : list Z) (s es : nat) : nat := skip (found whitespace) buf (es - s) s.
Definition skip_word (buf : list Z) (s es : nat) : nat :=
  skip (λ c, negb (found whitespace c) && negb (found symbols c)) buf (es - s) s.

(** The [switch] of [gettoken]: the kind of the token and its end. *)
Definition scan (buf : list Z) (s es : nat) : Z * nat :=
  let c := chr buf s in
  if c =? 0 then (c, s)
  else if (c =? BAR) || (c =? LPAR) || (c =? RPAR) || (c =? SEMI) || (c =? AMP) || (c =? LT) then (c, S s)
  else if c =? GT then
    if chr buf (S s) =? GT then (43, S (S s)) else (c, S s)
  else (97, skip_word buf s es).

(** The kind of the token, [*q], [*eq] and the new [*ps]. *)
Definition gettoken (buf : list Z) (ps es : nat) : Z * nat * nat * nat :=
  let q := skip_space buf ps es in
  let '(ret, eq) := scan buf q es in
  (ret, q, eq, skip_space buf eq es).

(** The result, and the new [*ps]. *)
Definition peek (buf : list Z) (ps es : nat) (toks : list Z) : bool * nat :=
  let s := skip_space buf ps es in
  (negb (chr buf s =? 0) && found toks (chr buf s), s).

(** * The parser *)

(** Each function returns the command and the new [*ps].  A turn of a loop takes a token,
    so [es - ps + 1] turns are enough. *)
Fixpoint parseredirs_loop (n : nat) (cmd : option nat) (ps es : nat) : P (option nat * nat) :=
  match n with
  | O => diverge
  | S n' =>
      buf <- asks sh_buf ;;
      let '(b, ps) := peek buf ps es [LT; GT; 0] in
      if negb b then ret (cmd, ps) else
      let '(tok, _, _, ps) := gettoken buf ps es in
      let '(kind, q, eq, ps) := gettoken buf ps es in
      if negb (kind =? 97) then panic "missing file for redirection" else
      cmd <- (if tok =? LT then redircmd cmd q eq O_RDONLY 0
              else if tok =? GT then redircmd cmd q eq (Z.lor O_WRONLY O_CREATE) 1
              else if tok =? 43 then redircmd cmd q eq (Z.lor O_WRONLY O_CREATE) 1
              else ret cmd) ;;
      parseredirs_loop n' cmd ps es
  end.
Definition parseredirs (cmd : option nat) (ps es : nat) : P (option nat * nat) :=
  parseredirs_loop (S (es - ps)) cmd ps es.

(** [cmd->argv[argc] = q; cmd->eargv[argc] = eq] *)
Definition set_arg (cmd : option nat) (argc : nat) (q eq : option nat) : P unit :=
  i <- deref cmd ;;
  modify (λ st, mkShell (sh_buf st)
    (alter (λ c, match c with
                 | Execcmd argv eargv => Execcmd (<[argc := q]> argv) (<[argc := eq]> eargv)
                 | c => c
                 end) i (sh_heap st)) (sh_room st)).

Fixpoint parseexec_loop (n : nat) (cmd : option nat) (argc : nat) (result : option nat) (ps es : nat) :
    P (option nat * nat) :=
  match n with
  | O => diverge
  | S n' =>
      buf <- asks sh_buf ;;
      let '(b, ps) := peek buf ps es [BAR; RPAR; AMP; SEMI; 0] in
      if (b : bool) then set_arg cmd argc None None ;;; ret (result, ps) else
      let '(tok, q, eq, ps) := gettoken buf ps es in
      if tok =? 0 then set_arg cmd argc None None ;;; ret (result, ps) else
      if negb (tok =? 97) then panic "syntax" else
      set_arg cmd argc (Some q) (Some eq) ;;;
      let argc := S argc in
      if decide (MAXARGS ≤ argc)%nat then panic "too many args" else
      r <- parseredirs result ps es ;;
      parseexec_loop n' cmd argc (fst r) (snd r) es
  end.

(** [while(peek(ps, es, AMP))] of [parseline]. *)
Fixpoint parseback_loop (n : nat) (cmd : option nat) (ps es : nat) : P (option nat * nat) :=
  match n with
  | O => diverge
  | S n' =>
      buf <- asks sh_buf ;;
      let '(b, ps) := peek buf ps es [AMP; 0] in
      if negb b then ret (cmd, ps) else
      let '(_, _, _, ps) := gettoken buf ps es in
      cmd <- backcmd cmd ;;
      parseback_loop n' cmd ps es
  end.

(** The functions call each other; [fuel] bounds the depth of the calls. *)
Fixpoint parseline (fuel ps es : nat) : P (option nat * nat) :=
  match fuel with
  | O => diverge
  | S fuel =>
      r <- parsepipe fuel ps es ;;
      r <- parseback_loop (S (es - snd r)) (fst r) (snd r) es ;;
      buf <- asks sh_buf ;;
      let '(b, ps) := peek buf (snd r) es [SEMI; 0] in
      if (b : bool) then
        let '(_, _, _, ps) := gettoken buf ps es in
        r2 <- parseline fuel ps es ;;
        cmd <- listcmd (fst r) (fst r2) ;;
        ret (cmd, snd r2)
      else ret (fst r, ps)
  end
with parsepipe (fuel ps es : nat) : P (option nat * nat) :=
  match fuel with
  | O => diverge
  | S fuel =>
      r <- parseexec fuel ps es ;;
      buf <- asks sh_buf ;;
      let '(b, ps) := peek buf (snd r) es [BAR; 0] in
      if (b : bool) then
        let '(_, _, _, ps) := gettoken buf ps es in
        r2 <- parsepipe fuel ps es ;;
        cmd <- pipecmd (fst r) (fst r2) ;;
        ret (cmd, snd r2)
      else ret (fst r, ps)
  end
with parseexec (fuel ps es : nat) : P (option nat * nat) :=
  match fuel with
  | O => diverge
  | S fuel =>
      buf <- asks sh_buf ;;
      let '(b, ps) := peek buf ps es [LPAR; 0] in
      if (b : bool) then parseblock fuel ps es else
      cmd <- execcmd ;;
      r <- parseredirs cmd ps es ;;
      parseexec_loop (S (es - snd r)) cmd 0 (fst r) (snd r) es
  end
with parseblock (fuel ps es : nat) : P (option nat * nat) :=
  match fuel with
  | O => diverge
  | S fuel =>
      buf <- asks sh_buf ;;
      let '(b, ps) := peek buf ps es [LPAR; 0] in
      if negb b then panic "parseblock" else
      let '(_, _, _, ps) := gettoken buf ps es in
      r <- parseline fuel ps es ;;
      let '(b, ps) := peek buf (snd r) es [RPAR; 0] in
      if negb b then panic "syntax - missing )" else
      let '(_, _, _, ps) := gettoken buf ps es in
      parseredirs (fst r) ps es
  end.

(** [*p = 0] *)
Definition set_nul (p : nat) : P unit :=
  modify (λ st, mkShell (<[p := 0]> (sh_buf st)) (sh_heap st) (sh_room st)).

(** [for(i=0; ecmd->argv[i]; i++) *ecmd->eargv[i] = 0]; an array without a null pointer
    would be left. *)
Fixpoint nul_args (argv eargv : list (option nat)) : P unit :=
  match argv, eargv with
  | Some _ :: argv', e :: eargv' => p <- deref e ;; set_nul p ;;; nul_args argv' eargv'
  | None :: _, _ => ret tt
  | _, _ => deref None
  end.

Definition cmd_at (p : nat) : P cmd := c <- asks (λ st, sh_heap st !! p) ;; deref c.

(** A command is allocated after the commands it points to, so the fuel of a pointer is
    more than its index. *)
Fixpoint nulterminate (fuel : nat) (cmd : option nat) : P unit :=
  match fuel, cmd with
  | O, _ => diverge
  | S fuel, None => ret tt
  | S fuel, Some p =>
      c <- cmd_at p ;;
      match c with
      | Execcmd argv eargv => nul_args argv eargv
      | Redircmd cmd _ efile _ _ => nulterminate fuel cmd ;;; set_nul efile
      | Pipecmd l r | Listcmd l r => nulterminate fuel l ;;; nulterminate fuel r
      | Backcmd cmd => nulterminate fuel cmd
      end
  end.

Definition parsecmd : P (option nat) :=
  buf <- asks sh_buf ;;
  es <- deref (strlen buf) ;;
  r <- parseline (4 * es + 4) 0 es ;;
  let '(_, s) := peek buf (snd r) es [0] in
  if decide (s ≠ es) then panic "syntax" else
  n <- asks (λ st, length (sh_heap st)) ;;
  nulterminate (S n) (fst r) ;;;
  ret (fst r).

(** * Running a command *)

(** The system calls of a child of the shell; the last one is [exit], or an [exec] that
    succeeds.  A message is printed with the end of its line. *)
Inductive act :=
| AExec (path : list Z) (argv : list (list Z))
| AClose (fd : Z)
| AOpen (file : list Z) (mode : Z)
| APrint (msg : string)
| AExit.

(** The string at [p]. *)
Fixpoint take_str (b : list Z) : list Z :=
  match b with
  | [] => []
  | c :: b' => if c =? 0 then [] else c :: take_str b'
  end.
Definition str_at (b : list Z) (p : nat) : list Z := take_str (drop p b).

(** The strings of an array that ends with a null pointer. *)
Fixpoint arg_strs (b : list Z) (argv : list (option nat)) : list (list Z) :=
  match argv with
  | Some p :: argv' => str_at b p :: arg_strs b argv'
  | _ => []
  end.

Section run.
(** Whether [exec] finds the program. *)
Context (exec_ok : list Z → list (list Z) → bool).

Fixpoint runcmd (fuel : nat) (cmd : option nat) : P (list act) :=
  match fuel, cmd with
  | O, _ => diverge
  | S fuel, None => ret [AExit]
  | S fuel, Some p =>
      c <- cmd_at p ;;
      buf <- asks sh_buf ;;
      match c with
      | Execcmd argv _ =>
          a0 <- deref (head argv) ;;
          match a0 with
          | None => ret [AExit]
          | Some q =>
              let path := str_at buf q in
              let argv := arg_strs buf argv in
              ret (AExec path argv ::
                if exec_ok path argv then [] else [APrint "no existe el ejecutable"; AExit])
          end
      | Redircmd cmd file _ mode fd =>
          r <- runcmd fuel cmd ;; ret (AClose fd :: AOpen (str_at buf file) mode :: r)
      | Listcmd lc _ => r <- runcmd fuel lc ;; ret (APrint "list not implemented" :: r)
      | Pipecmd lc _ => r <- runcmd fuel lc ;; ret (APrint "pipe not implemented" :: r)
      | Backcmd cmd => r <- runcmd fuel cmd ;; ret (APrint "background not implemented" :: r)
      end
  end.

(** * The loop of the shell *)

(** The result, the buffer and what is left of the input. *)
Definition getcmd (buf : list Z) (nbuf : nat) (input : list Z) : Z * list Z * list Z :=
  let buf := default buf (memset buf 0 nbuf) in
  let '(buf, input) := gets buf nbuf input in
  (if chr buf 0 =? 0 then -1 else 0, buf, input).

(** What the shell does with a line: [chdir], or a child that runs a command, or stops with a
    message; or [fork] fails and the shell stops. *)
Inductive turn := TCd (path : list Z) | TRun (child : list act + string) | TFork.

(** [runcmd(parsecmd(buf))], with [room] commands of memory. *)
Definition child (room : nat) (buf : list Z) : list act + string :=
  match (c <- parsecmd ;; n <- asks (λ st, length (sh_heap st)) ;; runcmd (S n) c) (mkShell buf [] room) with
  | Done r _ => inl r
  | Panicked m => inr m
  | _ => inr "does not end"
  end.

(** The loop of [main], for [n] lines; [fork_ok] is whether [fork] succeeds. *)
Fixpoint main_loop (n : nat) (fork_ok : nat → bool) (room : nat) (buf input : list Z) : list turn :=
  match n with
  | O => []
  | S n' =>
      let '(r, buf, input) := getcmd buf (length buf) input in
      if r <? 0 then [] else
      if (chr buf 0 =? 99) && (chr buf 1 =? 100) && (chr buf 2 =? 32) then
        let buf := match strlen buf with Some k => <[(k - 1)%nat := 0]> buf | None => buf end in
        TCd (str_at buf 3) :: main_loop n' fork_ok room buf input
      else if fork_ok n' then TRun (child room buf) :: main_loop n' fork_ok room buf input
      else [TFork]
  end.
End run.

(** * What a line means *)

Definition is_space (c : Z) : bool := found whitespace c.
Definition is_sym (c : Z) : bool := found symbols c.
Definition is_wordc (c : Z) : bool := negb (is_space c) && negb (is_sym c).

Inductive tok := Sym (c : Z) | Append | Word (w : list Z).

#[export] Instance tok_eq_dec : EqDecision tok.
Proof. solve_decision. Defined.

Definition starts_word (l : list Z) : bool := match l with c :: _ => is_wordc c | [] => false end.

(** The tokens of a line. *)
Fixpoint lex (l : list Z) : list tok :=
  match l with
  | [] => []
  | c :: l' =>
      if is_space c then lex l'
      else if is_sym c then
        match l' with
        | d :: l'' => if (c =? GT) && (d =? GT) then Append :: lex l'' else Sym c :: lex l'
        | [] => [Sym c]
        end
      else
        match lex l' with
        | Word w :: ts => if starts_word l' then Word (c :: w) :: ts else Word [c] :: Word w :: ts
        | ts => Word [c] :: ts
        end
  end.

(** What [gettoken] returns for a token. *)
Definition kind (t : tok) : Z := match t with Sym c => c | Append => 43 | Word _ => 97 end.

(** Commands as trees. *)
Inductive tree :=
| TExec (argv : list (list Z))
| TRedir (t : tree) (file : list Z) (mode fd : Z)
| TPipe (l r : tree)
| TList (l r : tree)
| TBack (t : tree).

(** The mode and the descriptor of a redirection. *)
Definition redir_kind (t : tok) : option (Z * Z) :=
  match t with
  | Sym c => if c =? LT then Some (O_RDONLY, 0) else if c =? GT then Some (Z.lor O_WRONLY O_CREATE, 1) else None
  | Append => Some (Z.lor O_WRONLY O_CREATE, 1)
  | Word _ => None
  end.

Inductive res := Ok (t : tree) (rest : list tok) | Err (msg : string) | Out.

(** A redirection: the file, the mode and the descriptor. *)
Definition redir : Type := list Z * Z * Z.
Definition wrap (t : tree) (r : redir) : tree := TRedir t (fst (fst r)) (snd (fst r)) (snd r).

(** Redirections; [None] if a file is missing. *)
Fixpoint rredirs (rs : list redir) (ts : list tok) : option (list redir * list tok) :=
  match ts with
  | [] => Some (rs, [])
  | k :: ts' =>
      match redir_kind k with
      | Some (mode, fd) =>
          match ts' with
          | Word w :: ts'' => rredirs (rs ++ [(w, mode, fd)]) ts''
          | _ => None
          end
      | None => Some (rs, ts)
      end
  end.

(** A simple command: words and redirections in any order. *)
Fixpoint rsimple (ws : list (list Z)) (rs : list redir) (ts : list tok) : res :=
  match ts with
  | [] => Ok (foldl wrap (TExec ws) rs) []
  | k :: ts' =>
      match redir_kind k, k, ts' with
      | Some (mode, fd), _, Word w :: ts'' => rsimple ws (rs ++ [(w, mode, fd)]) ts''
      | Some _, _, _ => Err "missing file for redirection"
      | None, Word w, _ =>
          if decide (MAXARGS ≤ S (length ws))%nat then Err "too many args" else rsimple (ws ++ [w]) rs ts'
      | None, _, _ =>
          if decide (k ∈ [Sym BAR; Sym RPAR; Sym AMP; Sym SEMI]) then Ok (foldl wrap (TExec ws) rs) ts
          else Err "syntax"
      end
  end.

Fixpoint rback (t : tree) (ts : list tok) : tree * list tok :=
  match ts with
  | Sym c :: ts' => if c =? AMP then rback (TBack t) ts' else (t, ts)
  | _ => (t, ts)
  end.

(** The first token, if it is the symbol [c], and the rest. *)
Definition after (c : Z) (ts : list tok) : option (list tok) :=
  match ts with
  | Sym d :: ts' => if d =? c then Some ts' else None
  | _ => None
  end.

Definition rbind (r : res) (f : tree → list tok → res) : res :=
  match r with Ok t ts => f t ts | r => r end.

Fixpoint rline (fuel : nat) (ts : list tok) : res :=
  match fuel with
  | O => Out
  | S fuel =>
      rbind (rpipe fuel ts) (λ t ts,
        let '(t, ts) := rback t ts in
        match after SEMI ts with
        | Some ts => rbind (rline fuel ts) (λ t2, Ok (TList t t2))
        | None => Ok t ts
        end)
  end
with rpipe (fuel : nat) (ts : list tok) : res :=
  match fuel with
  | O => Out
  | S fuel =>
      rbind (rexec fuel ts) (λ t ts,
        match after BAR ts with
        | Some ts => rbind (rpipe fuel ts) (λ t2, Ok (TPipe t t2))
        | None => Ok t ts
        end)
  end
with rexec (fuel : nat) (ts : list tok) : res :=
  match fuel with
  | O => Out
  | S fuel =>
      match after LPAR ts with
      | Some _ => rblock fuel ts
      | None => rsimple [] [] ts
      end
  end
with rblock (fuel : nat) (ts : list tok) : res :=
  match fuel with
  | O => Out
  | S fuel =>
      match after LPAR ts with
      | None => Err "parseblock"
      | Some ts =>
          rbind (rline fuel ts) (λ t ts,
            match after RPAR ts with
            | None => Err "syntax - missing )"
            | Some ts =>
                match rredirs [] ts with
                | Some (rs, ts) => Ok (foldl wrap t rs) ts
                | None => Err "missing file for redirection"
                end
            end)
      end
  end.

(** The meaning of a line: its tree, or the message of the error. *)
Definition rparse (ts : list tok) : tree + string :=
  match rline (4 * length ts + 4) ts with
  | Ok t [] => inl t
  | Ok _ _ => inr "syntax"
  | Err m => inr m
  | Out => inr "out of fuel"
  end.

(** * The lexer *)

Lemma found_list w c : plain w → found (w ++ [0]) c = bool_decide (c ∈ w).
Proof.
  intros Hw. unfold found. rewrite strchr_spec by done. apply bool_decide_ext. split.
  - intros [i [(x & Hx & E) _]%find_index_Some]. apply Z.eqb_eq in E as ->. by eapply list_elem_of_lookup_2.
  - intros [i Hi]%list_elem_of_lookup. destruct (find_index _ w) as [j|] eqn:E; [done|].
    rewrite find_index_None in E. specialize (E i c Hi). lia.
Qed.

Lemma sym_elem c : is_sym c = bool_decide (c ∈ [LT; BAR; GT; AMP; SEMI; LPAR; RPAR]).
Proof. apply (found_list [LT; BAR; GT; AMP; SEMI; LPAR; RPAR]). by repeat constructor. Qed.

Lemma lex_spaces p l : Forall (λ c, is_space c = true) p → lex (p ++ l) = lex l.
Proof. induction 1 as [|c p Hc _ IH]; [done|]. simpl. by rewrite Hc. Qed.

Lemma wordc_chars c : is_wordc c = true → is_space c = false ∧ is_sym c = false.
Proof. unfold is_wordc. destruct (is_space c), (is_sym c); done. Qed.

Lemma lex_word c w l :
  Forall (λ c, is_wordc c = true) (c :: w) → starts_word l = false → lex (c :: w ++ l) = Word (c :: w) :: lex l.
Proof.
  intros H Hl. apply Forall_cons in H as [Hc Hw]. revert c Hc.
  induction Hw as [|d w Hd Hw IH]; intros c Hc; destruct (wordc_chars c Hc) as [H1 H2].
  - simpl. rewrite H1, H2, Hl. by destruct (lex l) as [|[]].
  - change (lex (c :: (d :: w) ++ l)) with (if is_space c then lex ((d :: w) ++ l) else
      if is_sym c then match (d :: w) ++ l with
        | d :: l'' => if (c =? GT) && (d =? GT) then Append :: lex l'' else Sym c :: lex ((d :: w) ++ l)
        | [] => [Sym c] end
      else match lex (d :: w ++ l) with
        | Word w :: ts => if starts_word (d :: w) then Word (c :: w) :: ts else Word [c] :: Word w :: ts
        | ts => Word [c] :: ts end).
    rewrite H1, H2. rewrite IH by done. simpl. by rewrite Hd.
Qed.

Lemma lex_syms l : Forall (λ t, match t with Sym c => is_sym c = true | _ => True end) (lex l).
Proof.
  induction l as [l IH] using (induction_ltof1 _ length); unfold ltof in IH. destruct l as [|c l]; [done|]. simpl.
  assert (H1 : Forall (λ t, match t with Sym c => is_sym c = true | _ => True end) (lex l)) by (apply IH; simpl; lia).
  destruct (is_space c); [done|]. destruct (is_sym c) eqn:Hc.
  - destruct l as [|d l]; [by repeat constructor|]. case_bool; constructor; try done. apply IH. simpl. lia.
  - destruct (lex l) as [|[]]; [by repeat constructor|by constructor..|]. apply Forall_cons in H1 as [_ H1].
    by destruct (starts_word l); repeat constructor.
Qed.

Section line.
Context (L junk : list Z) (HL : plain L).
Let buf := L ++ 0 :: junk.
Let es := length L.

Lemma chr_at s c r : drop s L = c :: r → chr buf s = c ∧ (s < es)%nat ∧ drop (S s) L = r ∧ c ≠ 0.
Proof.
  intros H. assert (Hs : L !! s = Some c) by (by rewrite <-(Nat.add_0_r s), <-lookup_drop, H).
  pose proof (lookup_lt_Some _ _ _ Hs) as Hlt. split; [|split; [done|split]].
  - unfold chr, buf. by rewrite lookup_app_l, Hs by done.
  - replace (S s) with (s + 1)%nat by lia. by rewrite <-drop_drop, H.
  - unfold plain in HL. rewrite Forall_lookup in HL. by apply (HL s).
Qed.

Lemma chr_end s : drop s L = [] → (s ≤ es)%nat → s = es ∧ chr buf s = 0.
Proof.
  intros H Hs. assert (s = es) as ->.
  { apply (f_equal length) in H. rewrite length_drop in H. simpl in H. unfold es in *. lia. }
  split; [done|]. unfold chr, buf. by rewrite lookup_app_r, Nat.sub_diag by (unfold es; lia).
Qed.

Lemma skip_spec test s : (s ≤ es)%nat →
  ∃ p s', skip test buf (es - s) s = s' ∧ drop s L = p ++ drop s' L ∧ Forall (λ c, test c = true) p ∧
    s' = (s + length p)%nat ∧ (s' ≤ es)%nat ∧ match drop s' L with c :: _ => test c = false | [] => True end.
Proof.
  intros Hs. remember (es - s)%nat as n eqn:Hn. revert s Hs Hn. induction n as [|n IH]; intros s Hs Hn.
  - exists [], s. repeat (split; [done || lia|]). by rewrite drop_ge by (unfold es in *; lia).
  - destruct (drop s L) as [|c r] eqn:Hd; [apply chr_end in Hd as [-> _]; lia|].
    destruct (chr_at s c r Hd) as (E & Hlt & Hr & _). cbn [skip]. rewrite E. destruct (test c) eqn:Ht.
    + destruct (IH (S s)) as (p & s' & E' & H1 & H2 & H3 & H4 & H5); [lia|lia|].
      exists (c :: p), s'. split; [done|]. split; [simpl; by rewrite <-H1, Hr|]. split; [by constructor|].
      split; [simpl; lia|]. done.
    + exists [], s. split; [done|]. rewrite Hd. repeat (split; [done || lia|]). done.
Qed.

(** The word [w] is at [q], and the characters around it are not in words. *)
Definition word_pos (w : list Z) (q eq : nat) : Prop :=
  drop q L = w ++ drop eq L ∧ eq = (q + length w)%nat ∧ (eq ≤ es)%nat ∧
  Forall (λ c, is_wordc c = true) w ∧ starts_word (drop eq L) = false.

Definition tok_pos (t : tok) (q eq : nat) : Prop := match t with Word w => word_pos w q eq | _ => True end.

(** Space before a token is not seen. *)
Lemma skip_space_spec s : (s ≤ es)%nat →
  let s' := skip_space buf s es in
  (s ≤ s' ≤ es)%nat ∧ lex (drop s' L) = lex (drop s L) ∧
  match drop s' L with c :: _ => is_space c = false | [] => True end.
Proof.
  intros Hs. unfold skip_space. destruct (skip_spec (found whitespace) s Hs) as (p & s' & -> & H1 & H2 & H3 & H4 & H5).
  simpl. split; [lia|]. split; [|done]. rewrite H1. by rewrite lex_spaces.
Qed.

Lemma peek_spec s toks : (s ≤ es)%nat →
  (∀ c, found toks c = true → is_sym c = true) →
  ∃ s', peek buf s es toks = (match lex (drop s L) with
      | Sym c :: _ => found toks c
      | Append :: _ => found toks GT
      | _ => false
      end, s') ∧ (s ≤ s' ≤ es)%nat ∧ lex (drop s' L) = lex (drop s L).
Proof.
  intros Hs Hsym. unfold peek. destruct (skip_space_spec s Hs) as (H1 & H2 & H3). set (s' := skip_space buf s es) in *.
  exists s'. split; [|done]. f_equal. rewrite <-H2. destruct (drop s' L) as [|c r] eqn:Hd.
  - destruct (chr_end s' Hd) as [_ ->]; [lia|]. done.
  - destruct (chr_at s' c r Hd) as (-> & _ & _ & Hc). rewrite (proj2 (Z.eqb_neq c 0)) by done. cbn [negb andb lex]. rewrite H3.
    destruct (is_sym c) eqn:Ec.
    + destruct r as [|d r]; [done|]. case_bool; [|done]. f_equal. lia.
    + assert (E : found toks c = false) by (destruct (found toks c) eqn:E; [by rewrite Hsym in Ec|done]).
      rewrite E. destruct (lex r) as [|[]]; try done. by destruct (starts_word r).
Qed.

Lemma scan_sym q c r :
  drop q L = c :: r → is_sym c = true →
  scan buf q es = match r with
    | d :: _ => if (c =? GT) && (d =? GT) then (43, S (S q)) else (c, S q)
    | [] => (c, S q)
    end.
Proof.
  intros Hd Hc. destruct (chr_at q c r Hd) as (E & Hlt & Hr & Hc0). unfold scan. rewrite E.
  rewrite (proj2 (Z.eqb_neq c 0)) by done.
  assert (E1 : chr buf (S q) = match r with d :: _ => d | [] => 0 end).
  { destruct r as [|d r]; [by apply chr_end in Hr as [_ ?]; [|lia]|by apply chr_at in Hr as (? & _)]. }
  rewrite sym_elem in Hc. apply bool_decide_eq_true in Hc. destruct (Z.eqb_spec c GT) as [->|Hne].
  - cbn. rewrite E1. by destruct r.
  - assert (Hor : (c =? BAR) || (c =? LPAR) || (c =? RPAR) || (c =? SEMI) || (c =? AMP) || (c =? LT) = true).
    { rewrite !elem_of_cons in Hc. unfold LT, BAR, GT, AMP, SEMI, LPAR, RPAR in *. 
      repeat destruct Hc as [->|Hc]; try done. by apply elem_of_nil in Hc. }
    rewrite Hor. by destruct r.
Qed.

Lemma scan_word q c r :
  drop q L = c :: r → is_wordc c = true →
  ∃ w eq, scan buf q es = (97, eq) ∧ word_pos (c :: w) q eq.
Proof.
  intros Hd Hc. destruct (chr_at q c r Hd) as (E & Hlt & Hr & Hc0). unfold scan. rewrite E.
  rewrite (proj2 (Z.eqb_neq c 0)) by done. destruct (wordc_chars c Hc) as [_ Hs].
  rewrite sym_elem in Hs. apply bool_decide_eq_false in Hs. rewrite !not_elem_of_cons in Hs.
  destruct Hs as (H1 & H2 & H3 & H4 & H5 & H6 & H7 & _). rewrite !(proj2 (Z.eqb_neq c _)) by done. cbn [orb].
  unfold skip_word. destruct (skip_spec is_wordc q) as (p & eq & E' & P1 & P2 & P3 & P4 & P5); [lia|].
  exists (tail p), eq. split; [f_equal; exact E'|].
  destruct p as [|c' p].
  { simpl in P1. rewrite <-P1, Hd in P5. congruence. }
  simpl in P1. rewrite Hd in P1. injection P1 as <- P1. simpl. split; [by rewrite Hd, P1|]. split; [done|]. split; [done|].
  split; [done|]. by destruct (drop eq L).
Qed.

Lemma word_pos_lex w q eq : w ≠ [] → word_pos w q eq → lex (drop q L) = Word w :: lex (drop eq L).
Proof. intros Hw (H1 & _ & _ & H2 & H3). destruct w as [|c w]; [done|]. rewrite H1. by apply lex_word. Qed.

Lemma gettoken_spec s : (s ≤ es)%nat →
  match lex (drop s L) with
  | [] => ∃ q eq, gettoken buf s es = (0, q, eq, es)
  | t :: ts => ∃ q eq s', gettoken buf s es = (kind t, q, eq, s') ∧ (s < s' ≤ es)%nat ∧
      lex (drop s' L) = ts ∧ tok_pos t q eq
  end.
Proof.
  intros Hs. unfold gettoken. destruct (skip_space_spec s Hs) as (H1 & H2 & H3). set (q := skip_space buf s es) in *.
  rewrite <-H2. destruct (drop q L) as [|c r] eqn:Hd.
  - destruct (chr_end q Hd) as [E1 E2]; [lia|]. exists q, q. unfold scan. rewrite E2. cbn.
    unfold skip_space. by rewrite E1, Nat.sub_diag.
  - destruct (chr_at q c r Hd) as (_ & Hlt & Hr & _). cbn [lex]. rewrite H3. destruct (is_sym c) eqn:Hc.
    + rewrite (scan_sym q c r) by done. destruct r as [|d r]; [|case_bool].
      * destruct (skip_space_spec (S q)) as (S1 & S2 & _); [lia|]. eexists q, (S q), _. split; [done|].
        split; [lia|]. split; [by rewrite S2, Hr|done].
      * destruct (chr_at _ _ _ Hr) as (_ & Hlt' & Hr' & _). destruct (skip_space_spec (S (S q))) as (S1 & S2 & _); [lia|].
        eexists q, (S (S q)), _. split; [done|]. split; [lia|]. split; [by rewrite S2, Hr'|done].
      * destruct (skip_space_spec (S q)) as (S1 & S2 & _); [lia|]. eexists q, (S q), _. split; [done|].
        split; [lia|]. split; [by rewrite S2, Hr|done].
    + assert (Hw : is_wordc c = true) by (unfold is_wordc; by rewrite H3, Hc).
      destruct (scan_word q c r Hd Hw) as (w & eq & E & Hpos). rewrite E.
      pose proof (word_pos_lex (c :: w) q eq ltac:(done) Hpos) as Hlex. rewrite Hd in Hlex. cbn [lex] in Hlex. rewrite H3, Hc in Hlex.
      rewrite Hlex. pose proof Hpos as (_ & P2 & P3 & _). simpl in P2.
      destruct (skip_space_spec eq) as (S1 & S2 & _); [lia|]. eexists q, eq, _. split; [done|]. split; [lia|]. done.
Qed.

End line.

(** * The heap *)

(** What is allocated is added at the end. *)
Definition grow (st : shell) (new : list cmd) : shell :=
  mkShell (sh_buf st) (sh_heap st ++ new) (sh_room st - length new).

Lemma grow_nil st : grow st [] = st.
Proof. unfold grow. rewrite app_nil_r, Nat.sub_0_r. by destruct st. Qed.

Lemma grow_grow st a b : grow (grow st a) b = grow st (a ++ b).
Proof. unfold grow. cbn. rewrite length_app, app_assoc. f_equal. lia. Qed.

Lemma new_cmd_ok c st : (0 < sh_room st)%nat → new_cmd c st = Done (Some (length (sh_heap st))) (grow st [c]).
Proof. intros H. unfold new_cmd, grow. destruct (sh_room st) as [|r]; [lia|]. cbn. by rewrite Nat.sub_0_r. Qed.

(** A command points to older ones. *)
Definition older (p : option nat) (i : nat) : Prop := match p with Some j => (j < i)%nat | None => False end.

(** The words [ws], which [W] puts at places of the buffer, are the arguments. *)
Definition args (W : list Z → nat → nat → Prop) (ws : list (list Z)) (argv eargv : list (option nat)) : Prop :=
  ∃ qs eqs, argv = (Some <$> qs) ++ replicate (MAXARGS - length ws) None ∧
    eargv = (Some <$> eqs) ++ replicate (MAXARGS - length ws) None ∧
    Forall3 W ws qs eqs ∧ (length ws < MAXARGS)%nat.

(** The pointer [p] is to the command [t]. *)
Fixpoint rep (W : list Z → nat → nat → Prop) (h : list cmd) (t : tree) (p : option nat) : Prop :=
  match t with
  | TExec ws => ∃ i argv eargv, p = Some i ∧ h !! i = Some (Execcmd argv eargv) ∧ args W ws argv eargv
  | TRedir t f mode fd => ∃ i c q eq, p = Some i ∧ h !! i = Some (Redircmd c q eq mode fd) ∧ older c i ∧
      rep W h t c ∧ W f q eq
  | TPipe l r => ∃ i c d, p = Some i ∧ h !! i = Some (Pipecmd c d) ∧ older c i ∧ older d i ∧ rep W h l c ∧ rep W h r d
  | TList l r => ∃ i c d, p = Some i ∧ h !! i = Some (Listcmd c d) ∧ older c i ∧ older d i ∧ rep W h l c ∧ rep W h r d
  | TBack t => ∃ i c, p = Some i ∧ h !! i = Some (Backcmd c) ∧ older c i ∧ rep W h t c
  end.

(** The pointer [p] is to redirections [rs] of the command [base]. *)
Inductive wraps (W : list Z → nat → nat → Prop) (h : list cmd) (base : option nat) : list redir → option nat → Prop :=
| wraps_nil : wraps W h base [] base
| wraps_snoc rs c f mode fd i q eq :
    wraps W h base rs c → h !! i = Some (Redircmd c q eq mode fd) → older c i → W f q eq →
    wraps W h base (rs ++ [(f, mode, fd)]) (Some i).

Section heap.
Context (W : list Z → nat → nat → Prop).

Lemma rep_mono W' h h' t p :
  (∀ w q eq, W w q eq → W' w q eq) → (∀ i c, h !! i = Some c → h' !! i = Some c) → rep W h t p → rep W' h' t p.
Proof.
  intros HW Hh. revert p. induction t as [ws|t IH f m d|l IHl r IHr|l IHl r IHr|t IH]; intros p; simpl.
  - intros (i & argv & eargv & -> & Hi & qs & eqs & -> & -> & HF & Hl). eexists i, _, _. split; [done|]. split; [by apply Hh|].
    exists qs, eqs. repeat (split; [done|]). split; [|done]. clear -HW HF. induction HF; constructor; eauto.
  - intros (i & c & q & eq & -> & Hi & Ho & Hr & Hw). eexists i, c, q, eq. eauto 10.
  - intros (i & c & d & -> & Hi & H1 & H2 & H3 & H4). exists i, c, d. eauto 10.
  - intros (i & c & d & -> & Hi & H1 & H2 & H3 & H4). exists i, c, d. eauto 10.
  - intros (i & c & -> & Hi & Ho & Hr). exists i, c. eauto 10.
Qed.

Lemma rep_app h new t p : rep W h t p → rep W (h ++ new) t p.
Proof. apply rep_mono; [done|]. intros i c. apply lookup_app_l_Some. Qed.

Lemma rep_older h t p : rep W h t p → older p (length h).
Proof.
  destruct t as [ws|t f m fd|l r|l r|t]; simpl.
  - intros (i & argv & eargv & -> & Hi & _). by apply lookup_lt_Some in Hi.
  - intros (i & c & q & eq & -> & Hi & _). by apply lookup_lt_Some in Hi.
  - intros (i & c & d & -> & Hi & _). by apply lookup_lt_Some in Hi.
  - intros (i & c & d & -> & Hi & _). by apply lookup_lt_Some in Hi.
  - intros (i & c & -> & Hi & _). by apply lookup_lt_Some in Hi.
Qed.

Lemma wraps_mono h h' base rs p :
  (∀ i c q eq m d, h !! i = Some (Redircmd c q eq m d) → h' !! i = Some (Redircmd c q eq m d)) →
  wraps W h base rs p → wraps W h' base rs p.
Proof. intros Hh. induction 1; econstructor; eauto. Qed.

Lemma wraps_rep h t base rs p : rep W h t base → wraps W h base rs p → rep W h (foldl wrap t rs) p.
Proof.
  intros Hr. induction 1 as [|rs c f m d i q eq Hw IH Hi Ho HW]; [done|]. rewrite foldl_app. simpl. eauto 10.
Qed.

Lemma args_nil : args W [] (replicate MAXARGS None) (replicate MAXARGS None).
Proof. exists [], []. repeat (split; [done|]). split; [constructor|]. unfold MAXARGS. simpl. lia. Qed.

Lemma arg_insert (qs : list nat) n q :
  length qs = n → (n < MAXARGS)%nat →
  <[n := Some q]> ((Some <$> qs) ++ replicate (MAXARGS - n) None) =
    (Some <$> (qs ++ [q])) ++ replicate (MAXARGS - S n) None.
Proof.
  intros <- Hn. replace (MAXARGS - length qs)%nat with (S (MAXARGS - S (length qs))) by lia. cbn [replicate].
  rewrite <-(length_fmap Some qs) at 1. rewrite insert_middle, fmap_app, <-app_assoc. done.
Qed.

Lemma args_snoc ws argv eargv w q eq :
  args W ws argv eargv → (S (length ws) < MAXARGS)%nat → W w q eq →
  args W (ws ++ [w]) (<[length ws := Some q]> argv) (<[length ws := Some eq]> eargv).
Proof.
  intros (qs & eqs & -> & -> & HF & _) Hl Hw. pose proof (Forall3_length_lm _ _ _ _ HF) as H1. pose proof (Forall3_length_lr _ _ _ _ HF) as H2.
  exists (qs ++ [q]), (eqs ++ [eq]). rewrite length_app, Nat.add_1_r. split; [apply arg_insert; [done|lia]|].
  split; [apply arg_insert; [done|lia]|]. split; [|done]. apply Forall3_app; [done|]. by repeat constructor.
Qed.

Lemma args_end ws argv eargv :
  args W ws argv eargv → <[length ws := None]> argv = argv ∧ <[length ws := None]> eargv = eargv.
Proof.
  intros (qs & eqs & -> & -> & HF & Hl). pose proof (Forall3_length_lm _ _ _ _ HF) as H1. pose proof (Forall3_length_lr _ _ _ _ HF) as H2.
  assert (E : replicate (MAXARGS - length ws) (@None nat) = None :: replicate (MAXARGS - S (length ws)) None).
  { by replace (MAXARGS - length ws)%nat with (S (MAXARGS - S (length ws))) by lia. }
  rewrite E. split.
  - rewrite H1, <-(length_fmap Some qs) at 1. apply insert_middle.
  - rewrite H2, <-(length_fmap Some eqs) at 1. apply insert_middle.
Qed.
End heap.

(** * The parser builds the tree *)

Section parser.
Context (L junk : list Z) (HL : plain L).
Let buf := L ++ 0 :: junk.
Let es := length L.
Let W := word_pos L.
Abbreviation toks s := (lex (drop s L)).

Lemma redir_cases t :
  (∃ mode fd, redir_kind t = Some (mode, fd) ∧
     match t with Sym c => found [LT; GT; 0] c | Append => found [LT; GT; 0] GT | _ => false end = true ∧
     ∀ cmd q eq, (if kind t =? LT then redircmd cmd q eq O_RDONLY 0
       else if kind t =? GT then redircmd cmd q eq (Z.lor O_WRONLY O_CREATE) 1
       else if kind t =? 43 then redircmd cmd q eq (Z.lor O_WRONLY O_CREATE) 1
       else ret cmd) = redircmd cmd q eq mode fd) ∨
  (redir_kind t = None ∧
     match t with Sym c => found [LT; GT; 0] c | Append => found [LT; GT; 0] GT | _ => false end = false).
Proof.
  destruct t as [c| |w].
  - rewrite (found_list [LT; GT]) by (by repeat constructor). simpl.
    destruct (Z.eqb_spec c LT) as [->|H1]; [by left; eexists _, _|].
    destruct (Z.eqb_spec c GT) as [->|H2]; [by left; eexists _, _|]. right. split; [done|].
    apply bool_decide_eq_false. set_solver.
  - by left; eexists _, _.
  - by right.
Qed.

Lemma redir_toks c : found [LT; GT; 0] c = true → is_sym c = true.
Proof. rewrite (found_list [LT; GT]), sym_elem, !bool_decide_eq_true by (by repeat constructor). set_solver. Qed.

(** The kind of a token tells whether it is a word. *)
Lemma kind_word l t ts : lex l = t :: ts → (kind t =? 97) = match t with Word _ => true | _ => false end.
Proof.
  intros Hl. pose proof (lex_syms l) as H. rewrite Hl in H. apply Forall_cons in H as [H _].
  destruct t as [c| |w]; try done. apply Z.eqb_neq. intros E. simpl in H, E. by rewrite E in H.
Qed.

Lemma kind_zero l t ts : lex l = t :: ts → (kind t =? 0) = false.
Proof.
  intros Hl. pose proof (lex_syms l) as H. rewrite Hl in H. apply Forall_cons in H as [H _].
  destruct t as [c| |w]; try done. apply Z.eqb_neq. intros E. simpl in H, E. by rewrite E in H.
Qed.

Lemma parseredirs_sim n st cmd s rs :
  sh_buf st = buf → (s ≤ es)%nat → (es - s ≤ sh_room st)%nat → (es - s < n)%nat → older cmd (length (sh_heap st)) →
  match rredirs rs (toks s) with
  | Some (rs', ts) => ∃ p s' new, parseredirs_loop n cmd s es st = Done (p, s') (grow st new) ∧
      (s ≤ s' ≤ es)%nat ∧ toks s' = ts ∧ (length new ≤ s' - s)%nat ∧ older p (length (sh_heap st ++ new)) ∧
      ∀ base, wraps W (sh_heap st) base rs cmd → wraps W (sh_heap st ++ new) base rs' p
  | None => parseredirs_loop n cmd s es st = Panicked "missing file for redirection"
  end.
Proof.
  revert st cmd s rs. induction n as [|n IH]; intros st cmd s rs Hb Hs Hroom Hn Ho; [lia|].
  remember (parseredirs_loop (S n) cmd s es st) as o eqn:Eo. cbn [parseredirs_loop] in Eo.
  unfold bind at 1, asks in Eo. cbn [obind] in Eo. rewrite Hb in Eo.
  destruct (peek_spec L junk HL s [LT; GT; 0] Hs redir_toks) as (s1 & E1 & Hs1 & Ht1). fold buf es in E1. rewrite E1 in Eo.
  destruct (toks s) as [|t ts] eqn:Ht.
  { exists cmd, s1, []. rewrite grow_nil, app_nil_r. cbn. split; [done|]. repeat (split; [done || lia|]). done. }
  destruct (redir_cases t) as [(mode & fd & Hk & Hpk & Hcmd)|[Hk Hpk]]; rewrite Hpk in Eo; cbn [rredirs negb] in *; rewrite Hk.
  2: { exists cmd, s1, []. rewrite grow_nil, app_nil_r. cbn [length]. split; [done|]. repeat (split; [done || lia|]). done. }
  pose proof (gettoken_spec L junk HL s1 ltac:(lia)) as G1. rewrite Ht1 in G1.
  destruct G1 as (q1 & eq1 & s2 & E2 & Hs2 & Ht2 & _). fold buf es in E2. rewrite E2 in Eo. cbn iota in Eo.
  pose proof (gettoken_spec L junk HL s2 ltac:(lia)) as G2. rewrite Ht2 in G2. destruct ts as [|t2 ts].
  { destruct G2 as (q2 & eq2 & E3). fold buf es in E3. by rewrite E3 in Eo. }
  destruct G2 as (q2 & eq2 & s3 & E3 & Hs3 & Ht3 & Hpos). fold buf es in E3. rewrite E3 in Eo. cbn iota in Eo.
  rewrite (kind_word _ _ _ Ht2) in Eo. destruct t2 as [c| |w]; [done|done|]. cbn [negb] in Eo.
  fold es in Hs1, Hs2, Hs3. rewrite Hcmd in Eo. unfold redircmd in Eo. assert (0 < sh_room st)%nat by lia. erewrite bind_done in Eo by (by apply new_cmd_ok). subst o.
  set (c := Redircmd cmd q2 eq2 mode fd). set (p1 := length (sh_heap st)).
  assert (Hp1 : (sh_heap st ++ [c]) !! p1 = Some c) by (unfold p1; by rewrite lookup_app_r, Nat.sub_diag).
  specialize (IH (grow st [c]) (Some p1) s3 (rs ++ [(w, mode, fd)])). rewrite Ht3 in IH.
  assert (Hold : older (Some p1) (length (sh_heap (grow st [c])))) by (cbn; rewrite length_app; simpl; lia).
  destruct (rredirs (rs ++ [(w, mode, fd)]) ts) as [[rs' ts']|].
  - destruct IH as (p & s' & new & E & Hs' & Ht' & Hnew & Hop & Hwr); [done|lia|cbn; lia|lia|done|].
    exists p, s', (c :: new). rewrite E, grow_grow. split; [done|]. split; [lia|]. split; [done|]. split; [simpl; lia|].
    cbn [grow sh_heap] in Hop, Hwr. rewrite <-app_assoc in Hop, Hwr. split; [done|]. intros base Hbase.
    apply Hwr. apply (wraps_snoc _ _ _ _ cmd _ _ _ _ q2 eq2); [|done|done|done].
    eapply wraps_mono; [|exact Hbase]. intros i c' q eq m d. apply lookup_app_l_Some.
  - apply IH; [done|lia|cbn; lia|lia|done].
Qed.

Lemma rredirs_done rs ts rs' ts' : rredirs rs ts = Some (rs', ts') → match ts' with t :: _ => redir_kind t = None | [] => True end.
Proof.
  revert rs. induction ts as [ts IH] using (induction_ltof1 _ length); unfold ltof in IH; intros rs.
  destruct ts as [|t ts]; simpl; [by intros [= <- <-]|]. destruct (redir_kind t) as [[m d]|] eqn:E; [|by intros [= <- <-]].
  destruct ts as [|[] ts]; try done. apply IH. simpl. lia.
Qed.

Lemma rsimple_redirs ws rs ts :
  rsimple ws rs ts = match rredirs rs ts with
    | Some (rs', ts') => rsimple ws rs' ts'
    | None => Err "missing file for redirection"
    end.
Proof.
  revert rs. induction ts as [ts IH] using (induction_ltof1 _ length); unfold ltof in IH; intros rs.
  destruct ts as [|t ts]; [done|]. cbn [rsimple rredirs]. destruct (redir_kind t) as [[m d]|] eqn:E.
  - destruct ts as [|[] ts]; try done. apply IH. simpl. lia.
  - cbn [rsimple]. by rewrite E.
Qed.

Lemma alter_middle {A} f (l1 l2 : list A) x : alter f (length l1) (l1 ++ x :: l2) = l1 ++ f x :: l2.
Proof. induction l1 as [|y l1 IH]; [done|]. simpl. by f_equal. Qed.

Lemma set_arg_ok st h argv eargv tl argc q eq :
  sh_heap st = h ++ Execcmd argv eargv :: tl →
  set_arg (Some (length h)) argc q eq st =
    Done tt (mkShell (sh_buf st) (h ++ Execcmd (<[argc := q]> argv) (<[argc := eq]> eargv) :: tl) (sh_room st)).
Proof. intros Hh. unfold set_arg, bind, deref, ret, modify. cbn [obind]. by rewrite Hh, alter_middle. Qed.

Lemma stop_toks c : found [BAR; RPAR; AMP; SEMI; 0] c = true → is_sym c = true.
Proof. rewrite (found_list [BAR; RPAR; AMP; SEMI]), sym_elem, !bool_decide_eq_true by (by repeat constructor). set_solver. Qed.

(** The end of a simple command. *)
Lemma stop_spec t :
  redir_kind t = None → match t with Word _ => False | _ => True end →
  match t with Sym c => found [BAR; RPAR; AMP; SEMI; 0] c | Append => found [BAR; RPAR; AMP; SEMI; 0] GT | _ => false end =
    bool_decide (t ∈ [Sym BAR; Sym RPAR; Sym AMP; Sym SEMI]).
Proof.
  destruct t as [c| |w]; [|done|done]. intros _ _. rewrite (found_list [BAR; RPAR; AMP; SEMI]) by (by repeat constructor).
  apply bool_decide_ext. rewrite !elem_of_cons, !elem_of_nil. naive_solver.
Qed.

Lemma parseexec_done st h argv eargv tl ws rs result (s : nat) :
  sh_heap st = h ++ Execcmd argv eargv :: tl → args W ws argv eargv →
  wraps W (sh_heap st) (Some (length h)) rs result →
  (set_arg (Some (length h)) (length ws) None None ;;; ret (result, s)) st = Done (result, s) st ∧
  rep W (sh_heap st) (foldl wrap (TExec ws) rs) result.
Proof.
  intros Hh Ha Hw. destruct (args_end _ _ _ _ Ha) as [E1 E2]. erewrite bind_done by (by apply set_arg_ok). rewrite E1, E2, <-Hh.
  split; [by destruct st|]. eapply wraps_rep; [|exact Hw]. eexists _, _, _. split; [done|]. split; [|exact Ha].
  by rewrite Hh, lookup_app_r, Nat.sub_diag.
Qed.

Lemma parseexec_sim n st h argv eargv tl ws rs result s :
  sh_buf st = buf → sh_heap st = h ++ Execcmd argv eargv :: tl → args W ws argv eargv →
  wraps W (sh_heap st) (Some (length h)) rs result → older result (length (sh_heap st)) →
  (s ≤ es)%nat → (es - s ≤ sh_room st)%nat → (es - s < n)%nat →
  match toks s with t :: _ => redir_kind t = None | [] => True end →
  match rsimple ws rs (toks s) with
  | Ok t ts => ∃ p s' tl', parseexec_loop n (Some (length h)) (length ws) result s es st =
        Done (p, s') (mkShell buf (h ++ tl') (sh_room st - (length tl' - S (length tl)))) ∧
      (s ≤ s' ≤ es)%nat ∧ toks s' = ts ∧ rep W (h ++ tl') t p ∧ (S (length tl) ≤ length tl' ≤ S (length tl) + (s' - s))%nat
  | Err m => parseexec_loop n (Some (length h)) (length ws) result s es st = Panicked m
  | Out => False
  end.
Proof.
  revert st argv eargv tl ws rs result s.
  induction n as [|n IH]; intros st argv eargv tl ws rs result s Hb Hh Ha Hw Ho Hs Hroom Hn Hhd; [lia|].
  remember (parseexec_loop (S n) (Some (length h)) (length ws) result s es st) as o eqn:Eo. cbn [parseexec_loop] in Eo.
  unfold bind at 1, asks in Eo. cbn [obind] in Eo. rewrite Hb in Eo.
  destruct (peek_spec L junk HL s [BAR; RPAR; AMP; SEMI; 0] Hs stop_toks) as (s1 & E1 & Hs1 & Ht1).
  fold buf es in E1. rewrite E1 in Eo. fold es in Hs1.
  pose proof (λ s, parseexec_done st h argv eargv tl ws rs result s Hh Ha Hw) as Ed.
  assert (Hfin : ∀ s2, (s ≤ s2 ≤ es)%nat → o = Done (result, s2) st →
    ∃ p s' tl', o = Done (p, s') (mkShell buf (h ++ tl') (sh_room st - (length tl' - S (length tl)))) ∧
      (s ≤ s' ≤ es)%nat ∧ toks s' = toks s2 ∧ rep W (h ++ tl') (foldl wrap (TExec ws) rs) p ∧
      (S (length tl) ≤ length tl' ≤ S (length tl) + (s' - s))%nat).
  { intros s2 Hs2 ->. exists result, s2, (Execcmd argv eargv :: tl). destruct (Ed s2) as [_ Hrep]. rewrite <-Hh, <-Hb. cbn [length].
    rewrite Nat.sub_diag, Nat.sub_0_r. split; [by destruct st|]. repeat (split; [done || lia|]). lia. }
  pose proof (gettoken_spec L junk HL s1 ltac:(unfold es in *; lia)) as G. rewrite Ht1 in G.
  destruct (toks s) as [|t ts] eqn:Ht.
  { destruct G as (q & eq & E2). fold buf es in E2. rewrite E2 in Eo. cbn iota in Eo. cbn [Z.eqb] in Eo. rewrite (proj1 (Ed es)) in Eo.
    cbn [rsimple]. destruct (Hfin es) as (p & s' & tl' & R1 & R2 & R3 & R4); [lia|done|].
    exists p, s', tl'. split; [done|]. split; [done|]. split; [|done]. rewrite R3. by rewrite drop_ge. }
  destruct G as (q & eq & s2 & E2 & Hs2 & Ht2 & Hpos). fold buf es in E2. rewrite E2 in Eo. cbn iota in Eo. fold es in Hs2.
  rewrite (kind_zero _ _ _ Ht), (kind_word _ _ _ Ht) in Eo. cbn [rsimple]. rewrite Hhd.
  assert (Hsym : match t with Word _ => False | _ => True end →
    match (if decide (t ∈ [Sym BAR; Sym RPAR; Sym AMP; Sym SEMI]) then Ok (foldl wrap (TExec ws) rs) (t :: ts) else Err "syntax") with
    | Ok t' ts' => ∃ p s' tl', o = Done (p, s') (mkShell buf (h ++ tl') (sh_room st - (length tl' - S (length tl)))) ∧
        (s ≤ s' ≤ es)%nat ∧ toks s' = ts' ∧ rep W (h ++ tl') t' p ∧ (S (length tl) ≤ length tl' ≤ S (length tl) + (s' - s))%nat
    | Err m => o = Panicked m
    | Out => False
    end).
  { intros Hw'. rewrite (stop_spec t Hhd Hw') in Eo. destruct (decide (t ∈ _)) as [Hin|Hin].
    - rewrite (bool_decide_true _ Hin) in Eo. rewrite (proj1 (Ed s1)) in Eo. rewrite <-Ht1. by apply Hfin.
    - rewrite (bool_decide_false _ Hin) in Eo. destruct t; done. }
  destruct t as [c| |w]; [by apply Hsym|by apply Hsym|]. clear Hsym Hfin Ed. cbn [negb] in Eo.
  erewrite bind_done in Eo by (by apply set_arg_ok).
  destruct (decide (MAXARGS ≤ S (length ws))%nat) as [Hmax|Hmax]; [done|].
  set (c := Execcmd _ _) in Eo. set (st1 := mkShell _ _ _) in Eo.
  assert (Hwr : wraps W (sh_heap st1) (Some (length h)) rs result).
  { eapply wraps_mono; [|exact Hw]. intros i c' q' eq' m d. cbn. rewrite Hh. rewrite !lookup_app. destruct (h !! i); [done|].
    destruct (i - length h)%nat; done. }
  assert (Ho1 : older result (length (sh_heap st1))) by (cbn; rewrite Hh, length_app in Ho; rewrite length_app; exact Ho).
  pose proof (parseredirs_sim (S (es - s2)) st1 result s2 rs Hb ltac:(lia) ltac:(cbn; lia) ltac:(lia) Ho1) as R.
  rewrite Ht2 in R. rewrite (rsimple_redirs (ws ++ [w]) rs ts). destruct (rredirs rs ts) as [[rs' ts']|] eqn:Er.
  2: { unfold bind, parseredirs in Eo. by rewrite R in Eo. }
  destruct R as (p & s3 & new & E3 & Hs3 & Ht3 & Hnew & Hop & Hwr').
  erewrite bind_done in Eo by exact E3. cbn [fst snd] in Eo.
  assert (Hh1 : sh_heap (grow st1 new) = h ++ c :: (tl ++ new)) by (cbn; by rewrite <-app_assoc).
  specialize (IH (grow st1 new) _ _ (tl ++ new) (ws ++ [w]) rs' p s3 Hb Hh1).
  rewrite length_app, Nat.add_1_r, Ht3 in IH. subst o. cbn [grow st1 sh_room sh_heap] in IH.
  assert (Hargs : args W (ws ++ [w]) (<[length ws := Some q]> argv) (<[length ws := Some eq]> eargv)).
  { apply args_snoc; [done|lia|exact Hpos]. }
  specialize (IH Hargs (Hwr' _ Hwr) Hop ltac:(lia) ltac:(lia) ltac:(lia) (rredirs_done _ _ _ _ Er)).
  destruct (rsimple (ws ++ [w]) rs' ts') as [t ts2|m|]; [|exact IH|exact IH].
  destruct IH as (p' & s' & tl' & E & Hs' & Ht' & Hr' & Hl'). rewrite length_app in E, Hl'.
  exists p', s', tl'. split; [|split; [lia|split; [done|split; [done|lia]]]].
  rewrite E. do 2 f_equal. lia.
Qed.

Lemma single_sym c : c ∈ [BAR; SEMI; AMP; LPAR; RPAR] → c ≠ 0 ∧ c ≠ GT.
Proof.
  rewrite !elem_of_cons, elem_of_nil. unfold BAR, SEMI, AMP, LPAR, RPAR, GT. lia.
Qed.

(** To look for a symbol, and to take it. *)
Lemma peek_after c s :
  (s ≤ es)%nat → c ∈ [BAR; SEMI; AMP; LPAR; RPAR] →
  ∃ s', (s ≤ s' ≤ es)%nat ∧ toks s' = toks s ∧
    match after c (toks s) with
    | Some ts => peek buf s es [c; 0] = (true, s') ∧
        ∃ k q eq s2, gettoken buf s' es = (k, q, eq, s2) ∧ (s' < s2 ≤ es)%nat ∧ toks s2 = ts
    | None => peek buf s es [c; 0] = (false, s')
    end.
Proof.
  intros Hs Hc. destruct (single_sym c Hc) as [Hc0 HcG]. assert (Hp : plain [c]) by (by repeat constructor).
  destruct (peek_spec L junk HL s [c; 0] Hs) as (s' & E & Hs' & Ht).
  { intros d. rewrite (found_list [c]), sym_elem, !bool_decide_eq_true by done. clear -Hc. set_solver. }
  fold buf es in E. fold es in Hs'. exists s'. split; [done|]. split; [done|]. rewrite E.
  pose proof (gettoken_spec L junk HL s' ltac:(unfold es in *; lia)) as G. rewrite Ht in G. destruct (toks s) as [|[d| |w] ts]; try done.
  - rewrite (found_list [c]) by done. cbn [after]. destruct (Z.eqb_spec d c) as [->|Hne].
    + split; [by rewrite bool_decide_true by set_solver|]. destruct G as (q & eq & s2 & E2 & Hs2 & Ht2 & _). by eexists _, q, eq, s2.
    + by rewrite bool_decide_false by set_solver.
  - cbn [after]. rewrite (found_list [c]) by done. rewrite bool_decide_false; [done|]. intros E'%list_elem_of_singleton. congruence.
Qed.

Lemma parseback_sim n st cmd t s :
  sh_buf st = buf → (s ≤ es)%nat → (es - s ≤ sh_room st)%nat → (es - s < n)%nat → rep W (sh_heap st) t cmd →
  let '(t', ts) := rback t (toks s) in
  ∃ p s' new, parseback_loop n cmd s es st = Done (p, s') (grow st new) ∧ (s ≤ s' ≤ es)%nat ∧ toks s' = ts ∧
    rep W (sh_heap st ++ new) t' p ∧ (length new ≤ s' - s)%nat.
Proof.
  revert st cmd t s. induction n as [|n IH]; intros st cmd t s Hb Hs Hroom Hn Hrep; [lia|].
  remember (parseback_loop (S n) cmd s es st) as o eqn:Eo. cbn [parseback_loop] in Eo.
  unfold bind at 1, asks in Eo. cbn [obind] in Eo. rewrite Hb in Eo.
  destruct (peek_after AMP s Hs) as (s1 & Hs1 & Ht1 & Hpk); [set_solver|]. destruct (after AMP (toks s)) as [ts|] eqn:Ha.
  - destruct Hpk as [E1 (k & q & eq & s2 & E2 & Hs2 & Ht2)]. rewrite E1 in Eo. cbn [negb] in Eo. rewrite E2 in Eo. cbn iota in Eo.
    destruct (toks s) as [|[c| |w] ts0]; try done. cbn [after rback] in *. destruct (c =? AMP); [|done]. injection Ha as ->.
    assert (0 < sh_room st)%nat by lia. erewrite bind_done in Eo by (by apply new_cmd_ok). subst o.
    specialize (IH (grow st [Backcmd cmd]) (Some (length (sh_heap st))) (TBack t) s2). rewrite Ht2 in IH.
    destruct (rback (TBack t) ts) as [t' ts'].
    destruct IH as (p & s' & new & E & Hs' & Ht' & Hr' & Hl'); [done|lia|cbn; lia|lia| |].
    { simpl. eexists _, cmd. split; [done|]. split; [by rewrite lookup_app_r, Nat.sub_diag|]. split; [by eapply rep_older|by apply rep_app]. }
    exists p, s', (Backcmd cmd :: new). rewrite E, grow_grow. split; [done|]. split; [lia|]. split; [done|].
    cbn [grow sh_heap] in Hr'. rewrite <-app_assoc in Hr'. split; [done|]. simpl. lia.
  - rewrite Hpk in Eo. cbn [negb] in Eo. assert (Er : rback t (toks s) = (t, toks s)).
    { destruct (toks s) as [|[c| |w] ts0]; try done. cbn [after rback] in *. by destruct (c =? AMP). }
    rewrite Er. exists cmd, s1, []. rewrite grow_nil, app_nil_r. cbn [length]. split; [done|]. repeat (split; [done || lia|]). lia.
Qed.

(** The outcome of a function of the parser at [s] is that of the reference. *)
Definition sim (s : nat) (st : shell) (o : outcome shell (option nat * nat)) (r : res) : Prop :=
  match r with
  | Ok t ts => ∃ p s' new, o = Done (p, s') (grow st new) ∧ (s ≤ s' ≤ es)%nat ∧ toks s' = ts ∧
      rep W (sh_heap st ++ new) t p ∧ (length new ≤ 2 * (s' - s) + 1)%nat
  | Err m => o = Panicked m
  | Out => o = Diverged
  end.

Lemma sim_bind s s0 st (m : P (option nat * nat)) f r g :
  sim s0 st (m st) r →
  (∀ p s' new t, (s0 ≤ s' ≤ es)%nat → rep W (sh_heap st ++ new) t p → (length new ≤ 2 * (s' - s0) + 1)%nat →
     sim s st (f (p, s') (grow st new)) (g t (toks s'))) →
  sim s st (bind m f st) (rbind r g).
Proof.
  intros Hm Hf. unfold bind. destruct r as [t ts|msg|]; cbn [sim rbind] in *.
  - destruct Hm as (p & s' & new & E & Hs' & <- & Hr & Hl). rewrite E. cbn [obind]. by eapply Hf.
  - by rewrite Hm.
  - by rewrite Hm.
Qed.

Lemma sim_weaken s s1 st o r : (s ≤ s1)%nat → sim s1 st o r → sim s st o r.
Proof.
  intros Hs. destruct r as [t ts|m|]; cbn [sim]; [|done|done]. intros (p & s' & new & E & Hs' & H).
  exists p, s', new. split; [done|]. split; [lia|]. destruct H as (H1 & H2 & H3). repeat (split; [done|]). lia.
Qed.

(** What a function of the parser is called with. *)
Definition ready (s : nat) (st : shell) : Prop := sh_buf st = buf ∧ (s ≤ es)%nat ∧ (2 * (es - s) + 1 ≤ sh_room st)%nat.

Definition sims (f : nat → nat → P (option nat * nat)) (g : list tok → res) : Prop :=
  ∀ s st, ready s st → sim s st (f s es st) (g (toks s)).

Lemma parse_simple_sim s st : ready s st →
  sim s st ((cmd <- execcmd ;;
    r <- parseredirs cmd s es ;;
    parseexec_loop (S (es - snd r)) cmd 0 (fst r) (snd r) es) st) (rsimple [] [] (toks s)).
Proof.
  intros (Hb & Hs & Hroom). unfold execcmd. erewrite bind_done by (apply new_cmd_ok; lia).
  set (c := Execcmd _ _). set (st1 := grow st [c]).
  assert (Hold : older (Some (length (sh_heap st))) (length (sh_heap st1))) by (cbn; rewrite length_app; simpl; lia).
  pose proof (parseredirs_sim (S (es - s)) st1 (Some (length (sh_heap st))) s [] Hb Hs ltac:(cbn; lia) ltac:(lia) Hold) as R.
  rewrite (rsimple_redirs [] []). destruct (rredirs [] (toks s)) as [[rs ts]|] eqn:Er.
  2: { unfold bind, parseredirs. by rewrite R. }
  destruct R as (p & s1 & new & E & Hs1 & Ht1 & Hnew & Hop & Hwr). erewrite bind_done by exact E. cbn [fst snd].
  assert (Hh : sh_heap (grow st1 new) = sh_heap st ++ c :: new) by (cbn; by rewrite <-app_assoc).
  pose proof (parseexec_sim (S (es - s1)) (grow st1 new) (sh_heap st) _ _ new [] rs p s1 Hb Hh (args_nil W)) as X.
  rewrite Ht1 in X. cbn [grow st1 sh_heap sh_room length] in X.
  specialize (X (Hwr _ (wraps_nil _ _ _)) Hop ltac:(lia) ltac:(lia) ltac:(lia) (rredirs_done _ _ _ _ Er)).
  destruct (rsimple [] rs ts) as [t ts'|m|]; [|exact X|done].
  destruct X as (p' & s' & tl & E' & Hs' & Ht' & Hr' & Hl'). exists p', s', tl.
  split; [|split; [lia|split; [done|split; [done|lia]]]]. rewrite <-Hb in E'. rewrite E'. unfold grow. do 2 f_equal. lia.
Qed.

Lemma parseexec_sims fuel :
  sims (parseblock fuel) (rblock fuel) → sims (parseexec (S fuel)) (rexec (S fuel)).
Proof.
  intros HB s st Hr. pose proof Hr as (Hb & Hs & Hroom). cbn [parseexec rexec]. unfold bind at 1, asks. cbn [obind]. rewrite Hb.
  destruct (peek_after LPAR s Hs) as (s1 & Hs1 & Ht1 & Hpk); [set_solver|].
  assert (Hr1 : ready s1 st) by (unfold ready; repeat split; [done|lia..]).
  apply (sim_weaken s s1); [lia|]. rewrite <-Ht1 in *. destruct (after LPAR (toks s1)) as [ts|] eqn:Ha.
  - destruct Hpk as [E1 _]. rewrite E1. cbn iota. by apply HB.
  - rewrite Hpk. by apply parse_simple_sim.
Qed.

Lemma parseblock_sims fuel :
  sims (parseline fuel) (rline fuel) → sims (parseblock (S fuel)) (rblock (S fuel)).
Proof.
  intros HB s st Hr. pose proof Hr as (Hb & Hs & Hroom). cbn [parseblock rblock]. unfold bind at 1, asks. cbn [obind]. rewrite Hb.
  destruct (peek_after LPAR s Hs) as (s1 & Hs1 & Ht1 & Hpk); [set_solver|].
  destruct (after LPAR (toks s)) as [ts|] eqn:Ha.
  2: { by rewrite Hpk. }
  destruct Hpk as [E1 (k & q & eq & s2 & E2 & Hs2 & Ht2)]. rewrite E1. cbn [negb]. rewrite E2. cbn iota. rewrite <-Ht2.
  apply (sim_bind s s2).
  { apply HB. unfold ready. repeat split; [done|lia..]. }
  intros p s3 new t Hs3 Hrep Hnew. cbn [fst snd].
  destruct (peek_after RPAR s3) as (s4 & Hs4 & Ht4 & Hpk4); [lia|set_solver|].
  destruct (after RPAR (toks s3)) as [ts'|] eqn:Ha'.
  2: { by rewrite Hpk4. }
  destruct Hpk4 as [E4 (k' & q' & eq' & s5 & E5 & Hs5 & Ht5)]. rewrite E4. cbn [negb]. rewrite E5. cbn iota.
  pose proof (parseredirs_sim (S (es - s5)) (grow st new) p s5 []) as R. rewrite Ht5 in R.
  specialize (R Hb ltac:(lia) ltac:(cbn; lia) ltac:(lia) (rep_older _ _ _ _ Hrep)).
  destruct (rredirs [] ts') as [[rs ts2]|]; [|exact R].
  destruct R as (p' & s' & new' & E & Hs' & Ht' & Hl' & _ & Hwr).
  exists p', s', (new ++ new'). unfold parseredirs. rewrite E, grow_grow. split; [done|]. split; [lia|]. split; [done|].
  cbn [grow sh_heap] in Hwr. rewrite <-app_assoc in Hwr. rewrite app_assoc, length_app. split; [|lia].
  eapply wraps_rep; [by apply rep_app|]. rewrite <-app_assoc. apply Hwr. constructor.
Qed.

(** [pipecmd] and [listcmd] of a command and of one that is still to be parsed. *)
Lemma pair_sim s s3 st new (m : P (option nat * nat)) con tcon p t r :
  (∀ h i c d l r, h !! i = Some (con c d) → older c i → older d i → rep W h l c → rep W h r d → rep W h (tcon l r) (Some i)) →
  (s < s3 ≤ es)%nat → (length new < 2 * (s3 - s))%nat → (2 * (es - s) + 1 ≤ sh_room st)%nat →
  rep W (sh_heap st ++ new) t p →
  sim s3 (grow st new) (m (grow st new)) r →
  sim s st ((r2 <- m ;; cmd <- new_cmd (con p (fst r2)) ;; ret (cmd, snd r2)) (grow st new)) (rbind r (λ t2, Ok (tcon t t2))).
Proof.
  intros Hcon Hs3 Hnew Hroom Hrep Hsim. unfold bind at 1. destruct r as [t2 ts|msg|]; cbn [sim rbind] in *; try (by rewrite Hsim).
  destruct Hsim as (p2 & s' & new2 & E & Hs' & Ht' & Hr2 & Hl2). rewrite E. cbn [obind fst snd]. rewrite grow_grow.
  erewrite bind_done by (apply new_cmd_ok; cbn; rewrite length_app; lia).
  exists (Some (length (sh_heap st ++ new ++ new2))), s', (new ++ new2 ++ [con p p2]).
  split; [unfold ret; by rewrite grow_grow, <-app_assoc|]. split; [lia|]. split; [done|].
  rewrite !length_app. split; [|simpl; lia]. cbn [grow sh_heap] in Hr2. rewrite <-app_assoc in Hr2.
  assert (Eh : sh_heap st ++ new ++ new2 ++ [con p p2] = (sh_heap st ++ new ++ new2) ++ [con p p2]) by (by rewrite <-!app_assoc).
  rewrite Eh. apply (Hcon _ _ p p2).
  - by rewrite lookup_app_r, !length_app, Nat.sub_diag by (rewrite !length_app; lia).
  - apply rep_older in Hrep. rewrite length_app in Hrep. destruct p; [|done]. cbn [older] in *. lia.
  - apply rep_older in Hr2. by rewrite !length_app in Hr2.
  - apply rep_app. rewrite app_assoc. by apply rep_app.
  - by apply rep_app.
Qed.

Lemma parsepipe_sims fuel :
  sims (parseexec fuel) (rexec fuel) → sims (parsepipe fuel) (rpipe fuel) → sims (parsepipe (S fuel)) (rpipe (S fuel)).
Proof.
  intros HE HP s st Hr. pose proof Hr as (Hb & Hs & Hroom). cbn [parsepipe rpipe]. apply (sim_bind s s); [by apply HE|].
  intros p s1 new t Hs1 Hrep Hnew. unfold bind at 1, asks. cbn [obind fst snd]. change (sh_buf (grow st new)) with (sh_buf st). rewrite Hb.
  destruct (peek_after BAR s1) as (s2 & Hs2 & Ht2 & Hpk); [lia|set_solver|]. destruct (after BAR (toks s1)) as [ts|] eqn:Ha.
  - destruct Hpk as [E1 (k & q & eq & s3 & E2 & Hs3 & Ht3)]. rewrite E1. cbn iota. rewrite E2. cbn iota. rewrite <-Ht3.
    apply (pair_sim s s3 st new _ Pipecmd TPipe); [|lia..|done|].
    + intros h i c d l r H1 H2 H3 H4 H5. simpl. eauto 10.
    + apply HP. unfold ready. cbn. repeat split; [done|lia..].
  - rewrite Hpk. exists p, s2, new. repeat (split; [done || lia|]). lia.
Qed.

Lemma parseline_sims fuel :
  sims (parsepipe fuel) (rpipe fuel) → sims (parseline fuel) (rline fuel) → sims (parseline (S fuel)) (rline (S fuel)).
Proof.
  intros HP HB s st Hr. pose proof Hr as (Hb & Hs & Hroom). cbn [parseline rline]. apply (sim_bind s s); [by apply HP|].
  intros p s1 new t Hs1 Hrep Hnew. cbn [fst snd].
  pose proof (parseback_sim (S (es - s1)) (grow st new) p t s1 Hb ltac:(lia) ltac:(cbn; lia) ltac:(lia) Hrep) as R.
  destruct (rback t (toks s1)) as [t' ts]. destruct R as (p' & s2 & new2 & E & Hs2 & <- & Hr' & Hl').
  erewrite bind_done by exact E. rewrite grow_grow. unfold bind at 1, asks. cbn [obind fst snd].
  change (sh_buf (grow st _)) with (sh_buf st). rewrite Hb. cbn [grow sh_heap] in Hr'. rewrite <-app_assoc in Hr'.
  destruct (peek_after SEMI s2) as (s3 & Hs3 & Ht3 & Hpk); [lia|set_solver|]. destruct (after SEMI (toks s2)) as [ts|] eqn:Ha.
  - destruct Hpk as [E1 (k & q & eq & s4 & E2 & Hs4 & Ht4)]. rewrite E1. cbn iota. rewrite E2. cbn iota. rewrite <-Ht4.
    apply (pair_sim s s4 st (new ++ new2) _ Listcmd TList); [|rewrite ?length_app; lia..|done|].
    + intros h i c d l r H1 H2 H3 H4 H5. simpl. eauto 10.
    + apply HB. unfold ready. cbn. rewrite length_app. repeat split; [done|lia..].
  - rewrite Hpk. exists p', s3, (new ++ new2). rewrite length_app. repeat (split; [done || lia|]). lia.
Qed.

Lemma parse_sims fuel :
  sims (parseline fuel) (rline fuel) ∧ sims (parsepipe fuel) (rpipe fuel) ∧
  sims (parseexec fuel) (rexec fuel) ∧ sims (parseblock fuel) (rblock fuel).
Proof.
  induction fuel as [|fuel (H1 & H2 & H3 & H4)]; [done|].
  split; [by apply parseline_sims|]. split; [by apply parsepipe_sims|]. split; [by apply parseexec_sims|by apply parseblock_sims].
Qed.

(** ** [nulterminate] *)

(** Only characters that are not in words become NUL. *)
Definition cut (b b' : list Z) : Prop :=
  length b' = length b ∧
  ∀ i, b' !! i = b !! i ∨ (b' !! i = Some 0 ∧ (i ≤ es)%nat ∧ starts_word (drop i L) = false).

(** A word and the NUL after it. *)
Definition ended (b : list Z) (w : list Z) (q eq : nat) : Prop := W w q eq ∧ b !! eq = Some 0.

Lemma cut_refl b : cut b b.
Proof. split; [done|]. by left. Qed.

Lemma cut_trans b b1 b2 : cut b b1 → cut b1 b2 → cut b b2.
Proof.
  intros [H1 H2] [H3 H4]. split; [congruence|]. intros i. destruct (H4 i) as [E|E]; [|by right]. rewrite E. apply H2.
Qed.

Lemma cut_ended b b' w q eq : cut b b' → ended b w q eq → ended b' w q eq.
Proof. intros [_ H] [Hw Hq]. split; [done|]. destruct (H eq) as [E|[E _]]; congruence. Qed.

Lemma cut_rep b b' h t p : cut b b' → rep (ended b) h t p → rep (ended b') h t p.
Proof. intros Hc. apply rep_mono; [|done]. intros w q eq. by apply cut_ended. Qed.

Definition with_buf (b : list Z) (st : shell) : shell := mkShell b (sh_heap st) (sh_room st).

Lemma set_nul_ok w q eq st :
  W w q eq → (es < length (sh_buf st))%nat →
  ∃ b, set_nul eq st = Done tt (with_buf b st) ∧ cut (sh_buf st) b ∧ ended b w q eq.
Proof.
  intros Hw Hlen. pose proof Hw as (_ & _ & He & _ & Hst). fold es in He. exists (<[eq := 0]> (sh_buf st)). split; [done|]. split.
  - split; [apply length_insert|]. intros i. rewrite list_lookup_insert. case_decide as Hi; [|by left].
    right. destruct Hi as [<- _]. done.
  - split; [done|]. rewrite list_lookup_insert. by rewrite decide_True by (split; [done|lia]).
Qed.

Lemma nul_args_ok ws qs eqs st n :
  Forall3 W ws qs eqs → (es < length (sh_buf st))%nat → (0 < n)%nat →
  ∃ b, nul_args ((Some <$> qs) ++ replicate n None) ((Some <$> eqs) ++ replicate n None) st = Done tt (with_buf b st) ∧
    cut (sh_buf st) b ∧ Forall3 (ended b) ws qs eqs.
Proof.
  intros HF Hlen Hn. revert st Hlen. induction HF as [|w q eq ws qs eqs Hw HF IH]; intros st Hlen.
  - exists (sh_buf st). destruct n as [|n]; [lia|]. cbn. split; [by destruct st|]. split; [apply cut_refl|constructor].
  - destruct (set_nul_ok w q eq st Hw Hlen) as (b1 & E1 & C1 & N1). cbn [fmap list_fmap app nul_args].
    unfold bind at 1, deref, ret. cbn [obind]. erewrite bind_done by exact E1.
    destruct (IH (with_buf b1 st)) as (b & E & C & N); [cbn; destruct C1; lia|]. exists b. split; [exact E|].
    split; [by eapply cut_trans|]. constructor; [by eapply cut_ended|done].
Qed.

Lemma nulterminate_ok fuel t p st :
  rep W (sh_heap st) t p → older p fuel → (es < length (sh_buf st))%nat →
  ∃ b, nulterminate fuel p st = Done tt (with_buf b st) ∧ cut (sh_buf st) b ∧ rep (ended b) (sh_heap st) t p.
Proof.
  revert t p st. induction fuel as [|fuel IH]; intros t p st Hr Ho Hlen; [by destruct p as [i|]; [simpl in Ho; lia|]|].
  assert (Hold : ∀ c i, older c i → p = Some i → older c fuel).
  { intros c i Hc ->. destruct c; [|done]. cbn [older] in *. lia. }
  assert (Htwo : ∀ l r c d i, p = Some i → older c i → older d i → rep W (sh_heap st) l c → rep W (sh_heap st) r d →
    ∃ b, (nulterminate fuel c ;;; nulterminate fuel d) st = Done tt (with_buf b st) ∧ cut (sh_buf st) b ∧
      rep (ended b) (sh_heap st) l c ∧ rep (ended b) (sh_heap st) r d).
  { intros l r c d i Hp Hc Hd Hl Hr'. destruct (IH l c st) as (b1 & E1 & C1 & R1); [done|by eapply Hold|done|].
    erewrite bind_done by exact E1.
    destruct (IH r d (with_buf b1 st)) as (b & E & C & R); [done|by eapply Hold|cbn; destruct C1; lia|].
    exists b. split; [exact E|]. split; [by eapply cut_trans|]. split; [by eapply cut_rep|done]. }
  destruct t as [ws|t f m d|l r|l r|t]; simpl in Hr.
  - destruct Hr as (i & argv & eargv & -> & Hi & qs & eqs & -> & -> & HF & Hw).
    destruct (nul_args_ok ws qs eqs st (MAXARGS - length ws) HF Hlen) as (b & E & C & N); [lia|].
    exists b. cbn [nulterminate]. unfold cmd_at, bind, asks, deref. cbn [obind]. rewrite Hi. cbn.
    split; [exact E|]. split; [done|]. eexists _, _, _. split; [done|]. split; [done|]. by exists qs, eqs.
  - destruct Hr as (i & c & q & eq & -> & Hi & Hc & Hr & Hw). destruct (IH t c st) as (b1 & E1 & C1 & R1); [done|by eapply Hold|done|].
    destruct (set_nul_ok f q eq (with_buf b1 st) Hw) as (b & E & C & N); [cbn; destruct C1; lia|].
    exists b. cbn [nulterminate]. unfold cmd_at, bind at 1 2, asks, deref. cbn [obind]. rewrite Hi. cbn [obind ret].
    erewrite bind_done by exact E1. split; [exact E|]. split; [by eapply cut_trans|].
    exists i, c, q, eq. repeat (split; [done|]). split; [by eapply cut_rep|done].
  - destruct Hr as (i & c & d & -> & Hi & Hc & Hd & Hl & Hr). destruct (Htwo l r c d i) as (b & E & C & R1 & R2); try done.
    exists b. cbn [nulterminate]. unfold cmd_at, bind at 1 2, asks, deref. cbn [obind]. rewrite Hi. cbn [obind ret].
    split; [exact E|]. split; [done|]. exists i, c, d. done.
  - destruct Hr as (i & c & d & -> & Hi & Hc & Hd & Hl & Hr). destruct (Htwo l r c d i) as (b & E & C & R1 & R2); try done.
    exists b. cbn [nulterminate]. unfold cmd_at, bind at 1 2, asks, deref. cbn [obind]. rewrite Hi. cbn [obind ret].
    split; [exact E|]. split; [done|]. exists i, c, d. done.
  - destruct Hr as (i & c & -> & Hi & Hc & Hr). destruct (IH t c st) as (b & E & C & R); [done|by eapply Hold|done|].
    exists b. cbn [nulterminate]. unfold cmd_at, bind at 1 2, asks, deref. cbn [obind]. rewrite Hi. cbn [obind ret].
    split; [exact E|]. split; [done|]. by exists i, c.
Qed.

(** The words of the line are strings of the buffer in the end. *)
Definition string_at (b : list Z) (q : nat) (w : list Z) : Prop := plain w ∧ ∃ r, drop q b = w ++ 0 :: r.

Lemma wordc_at w q eq i :
  W w q eq → (q ≤ i < eq)%nat → ∃ c, L !! i = Some c ∧ w !! (i - q)%nat = Some c ∧ starts_word (drop i L) = true.
Proof.
  intros (Hd & -> & He & Hw & _) Hi. destruct (lookup_lt_is_Some_2 w (i - q)) as [c Hc]; [lia|].
  assert (Hl : L !! i = Some c).
  { replace i with (q + (i - q))%nat by lia. rewrite <-lookup_drop, Hd. by rewrite lookup_app_l by lia. }
  exists c. split; [done|]. split; [done|]. rewrite (drop_S L c i Hl). simpl. rewrite Forall_lookup in Hw. by eapply Hw.
Qed.

Lemma ended_string b w q eq : cut buf b → ended b w q eq → string_at b q w.
Proof.
  intros [Hl Hc] [Hw Hz]. split.
  - pose proof Hw as (Hd & _). pose proof (Forall_drop _ q _ HL) as HF. rewrite Hd in HF. by apply Forall_app in HF as [? _].
  - exists (drop (S eq) b). pose proof Hw as (Hd & He & _). apply list_eq. intros i. rewrite lookup_drop.
    destruct (decide (i < length w)%nat) as [Hi|Hi].
    + destruct (wordc_at w q eq (q + i) Hw) as (c & H1 & H2 & H3); [lia|]. replace (q + i - q)%nat with i in H2 by lia.
      rewrite lookup_app_l by done. destruct (Hc (q + i)%nat) as [E|(_ & _ & E)]; [|congruence].
      rewrite E, H2. unfold buf. by apply lookup_app_l_Some.
    + rewrite lookup_app_r by lia. destruct (i - length w)%nat as [|k] eqn:Ek.
      * cbn. rewrite <-Hz. f_equal. lia.
      * change ((0 :: drop (S eq) b) !! S k) with (drop (S eq) b !! k). rewrite lookup_drop. f_equal. lia.
Qed.
End parser.

(** ** The fuel of the reference *)

Lemma rredirs_len rs ts rs' ts' : rredirs rs ts = Some (rs', ts') → (length ts' ≤ length ts)%nat.
Proof.
  revert rs. induction ts as [ts IH] using (induction_ltof1 _ length); unfold ltof in IH; intros rs.
  destruct ts as [|t ts]; simpl; [by intros [= <- <-]|]. destruct (redir_kind t) as [[m d]|] eqn:E; [|by intros [= <- <-]].
  destruct ts as [|[] ts]; try done. intros H. apply IH in H; simpl; lia.
Qed.

Lemma rsimple_len ws rs ts t ts' : rsimple ws rs ts = Ok t ts' → (length ts' ≤ length ts)%nat.
Proof.
  revert ws rs. induction ts as [ts IH] using (induction_ltof1 _ length); unfold ltof in IH; intros ws rs.
  destruct ts as [|k ts]; cbn [rsimple]; [by intros [= <- <-]|].
  destruct (redir_kind k) as [[m d]|]; [destruct ts as [|[] ts]; try done; intros H; apply IH in H; simpl; lia|].
  destruct k as [c| |w].
  - case_decide; [by intros [= <- <-]|done].
  - case_decide; [by intros [= <- <-]|done].
  - case_decide; [done|]. intros H0. apply IH in H0; simpl; lia.
Qed.

Lemma rsimple_out ws rs ts : rsimple ws rs ts ≠ Out.
Proof.
  revert ws rs. induction ts as [ts IH] using (induction_ltof1 _ length); unfold ltof in IH; intros ws rs.
  destruct ts as [|k ts]; cbn [rsimple]; [done|].
  destruct (redir_kind k) as [[m d]|]; [destruct ts as [|[] ts]; try done; apply IH; simpl; lia|].
  destruct k; case_decide; try done. apply IH. simpl. lia.
Qed.

Lemma rback_len t ts : (length (snd (rback t ts)) ≤ length ts)%nat.
Proof.
  revert t. induction ts as [|[c| |w] ts IH]; intros t; simpl; try lia. destruct (c =? AMP); [|done]. specialize (IH (TBack t)). lia.
Qed.

Lemma after_len c ts ts' : after c ts = Some ts' → length ts = S (length ts').
Proof. destruct ts as [|[d| |w] ts]; simpl; try done. destruct (d =? c); [|done]. by intros [= ->]. Qed.

(** [r] has a tree, with at most [n] tokens left, or an error. *)
Definition settled (n : nat) (r : res) : Prop :=
  match r with Ok _ ts => (length ts ≤ n)%nat | Err _ => True | Out => False end.

Lemma settled_le n n' r : (n ≤ n')%nat → settled n r → settled n' r.
Proof. destruct r; simpl; lia. Qed.

Lemma settled_bind n n' r g :
  settled n r → (∀ t ts, (length ts ≤ n)%nat → settled n' (g t ts)) → settled n' (rbind r g).
Proof. destruct r; simpl; auto. Qed.

Lemma reference_total fuel ts :
  ((4 * length ts + 4 ≤ fuel)%nat → settled (length ts) (rline fuel ts)) ∧
  ((4 * length ts + 3 ≤ fuel)%nat → settled (length ts) (rpipe fuel ts)) ∧
  ((4 * length ts + 2 ≤ fuel)%nat → settled (length ts) (rexec fuel ts)) ∧
  ((4 * length ts + 1 ≤ fuel)%nat → settled (length ts) (rblock fuel ts)).
Proof.
  revert ts. induction fuel as [|fuel IH]; intros ts; [repeat split; lia|].
  split; [|split; [|split]]; intros Hf.
  - cbn [rline]. eapply settled_bind; [apply IH; lia|]. intros t ts1 Hl1. pose proof (rback_len t ts1) as Hb.
    destruct (rback t ts1) as [t2 ts2]. simpl in Hb. destruct (after SEMI ts2) as [ts3|] eqn:Ha; [|simpl; lia].
    apply after_len in Ha. eapply settled_bind; [apply IH; lia|]. intros t3 ts4 Hl4. simpl. lia.
  - cbn [rpipe]. eapply settled_bind; [apply IH; lia|]. intros t ts1 Hl1.
    destruct (after BAR ts1) as [ts3|] eqn:Ha; [|simpl; lia].
    apply after_len in Ha. eapply settled_bind; [apply IH; lia|]. intros t3 ts4 Hl4. simpl. lia.
  - cbn [rexec]. destruct (after LPAR ts) as [ts1|] eqn:Ha; [apply IH; lia|].
    pose proof (rsimple_out [] [] ts) as Ho. pose proof (rsimple_len [] [] ts) as Hlen. destruct (rsimple [] [] ts); simpl; eauto.
  - cbn [rblock]. destruct (after LPAR ts) as [ts1|] eqn:Ha; [|done]. apply after_len in Ha.
    eapply settled_bind; [apply IH; lia|]. intros t ts2 Hl2. destruct (after RPAR ts2) as [ts3|] eqn:Ha'; [|done]. apply after_len in Ha'.
    destruct (rredirs [] ts3) as [[rs ts4]|] eqn:Er; [|done]. apply rredirs_len in Er. simpl. lia.
Qed.

(** More fuel changes nothing. *)
Lemma rbind_mono r r' g g' :
  (r ≠ Out → r' = r) → (∀ t ts, g t ts ≠ Out → g' t ts = g t ts) → rbind r g ≠ Out → rbind r' g' = rbind r g.
Proof. intros H1 H2 H. destruct r; simpl in *; [rewrite H1 by done; simpl; eauto|by rewrite H1|done]. Qed.

Lemma reference_mono fuel fuel' ts : (fuel ≤ fuel')%nat →
  (rline fuel ts ≠ Out → rline fuel' ts = rline fuel ts) ∧ (rpipe fuel ts ≠ Out → rpipe fuel' ts = rpipe fuel ts) ∧
  (rexec fuel ts ≠ Out → rexec fuel' ts = rexec fuel ts) ∧ (rblock fuel ts ≠ Out → rblock fuel' ts = rblock fuel ts).
Proof.
  revert fuel' ts. induction fuel as [|fuel IH]; intros [|fuel'] ts Hf; try lia; try done.
  assert (IHl : ∀ ts, rline fuel ts ≠ Out → rline fuel' ts = rline fuel ts) by (intros ts'; apply IH; lia).
  assert (IHp : ∀ ts, rpipe fuel ts ≠ Out → rpipe fuel' ts = rpipe fuel ts) by (intros ts'; apply IH; lia).
  split; [|split; [|split]]; cbn [rline rpipe rexec rblock].
  - apply rbind_mono; [apply IHp|]. intros t ts1. destruct (rback t ts1) as [t2 ts2]. destruct (after SEMI ts2); [|done].
    apply rbind_mono; [apply IHl|done].
  - apply rbind_mono; [apply IH; lia|]. intros t ts1. destruct (after BAR ts1); [|done]. apply rbind_mono; [apply IHp|done].
  - destruct (after LPAR ts); [apply IH; lia|done].
  - destruct (after LPAR ts); [|done]. apply rbind_mono; [apply IHl|done].
Qed.

Lemma rparse_enough fuel ts :
  (4 * length ts + 4 ≤ fuel)%nat → ∃ r, rline fuel ts = r ∧ settled (length ts) r ∧
    rparse ts = match r with Ok t [] => inl t | Ok _ _ => inr "syntax" | Err m => inr m | Out => inr "out of fuel" end.
Proof.
  intros Hf. destruct (reference_total (4 * length ts + 4) ts) as [Ht _]. specialize (Ht ltac:(lia)).
  exists (rline (4 * length ts + 4) ts). split; [|done]. apply reference_mono; [done|]. by destruct (rline _ ts).
Qed.

Lemma lex_length l : (length (lex l) ≤ length l)%nat.
Proof.
  induction l as [l IH] using (induction_ltof1 _ length); unfold ltof in IH. destruct l as [|c l]; [done|]. simpl.
  assert (H1 : (length (lex l) ≤ length l)%nat) by (apply IH; simpl; lia).
  destruct (is_space c); [lia|]. destruct (is_sym c).
  - destruct l as [|d l]; [simpl; lia|]. case_bool; simpl in *; [|lia]. specialize (IH l). lia.
  - destruct (lex l) as [|[]]; simpl in *; try lia. destruct (starts_word l); simpl; lia.
Qed.

Lemma lex_nonempty c l : is_space c = false → lex (c :: l) ≠ [].
Proof.
  intros Hc. cbn [lex]. rewrite Hc. destruct (is_sym c).
  - destruct l; [done|]. by case_bool.
  - destruct (lex l) as [|[]]; try done. by destruct (starts_word l).
Qed.

(** ** The theorem *)

(** The command of a pointer, its words being strings of the buffer. *)
Definition holds (st : shell) (t : tree) (p : option nat) : Prop :=
  rep (λ w q _, string_at (sh_buf st) q w) (sh_heap st) t p.

Lemma parsecmd_ok L junk h room :
  plain L → (2 * length L + 1 ≤ room)%nat →
  match rparse (lex L) with
  | inl t => ∃ p st', parsecmd (mkShell (L ++ 0 :: junk) h room) = Done p st' ∧ holds st' t p
  | inr m => parsecmd (mkShell (L ++ 0 :: junk) h room) = Panicked m
  end.
Proof.
  intros HL Hroom. set (st := mkShell _ _ _). set (es := length L). pose proof (lex_length L) as Hlen.
  destruct (rparse_enough (4 * es + 4) (lex L)) as (r & Er & Hset & Hrp); [unfold es; lia|].
  pose proof (proj1 (parse_sims L junk HL (4 * es + 4)) 0%nat st) as Hsim. rewrite drop_0, Er in Hsim.
  assert (Hr : ready L junk 0 st) by (unfold ready; cbn; repeat split; [|lia]; lia). specialize (Hsim Hr).
  remember (parsecmd st) as o eqn:Eo. unfold parsecmd in Eo. unfold bind at 1, asks in Eo. cbn [obind] in Eo.
  change (sh_buf st) with (L ++ 0 :: junk) in Eo. rewrite ustrlen_spec in Eo by done.
  unfold bind at 1, deref, ret in Eo. cbn [obind] in Eo. fold es in Hsim, Eo. rewrite Hrp.
  destruct r as [t ts|m|]; cbn [sim] in Hsim; [|unfold bind in Eo; by rewrite Hsim in Eo|done].
  destruct Hsim as (p & s & new & E & Hs & <- & Hrep & _).
  erewrite bind_done in Eo by exact E. cbn [fst snd] in Eo. unfold peek in Eo.
  destruct (skip_space_spec L junk HL s ltac:(lia)) as (Hs' & Ht' & Hhd). fold es in Hs', Hhd, Ht'.
  set (s' := skip_space (L ++ 0 :: junk) s es) in *. rewrite <-Ht'. destruct (drop s' L) as [|c l] eqn:Hd.
  - rewrite decide_False in Eo.
    2: { intros H. apply H. apply (f_equal length) in Hd. rewrite length_drop in Hd. cbn in Hd. lia. }
    cbn [lex]. unfold bind at 1, asks in Eo. cbn [obind] in Eo.
    destruct (nulterminate_ok L (S (length (sh_heap (grow st new)))) t p (grow st new)) as (b & E' & C & R).
    + exact Hrep.
    + apply rep_older in Hrep. destruct p; [|done]. cbn in *. lia.
    + cbn. rewrite length_app. cbn. lia.
    + erewrite bind_done in Eo by exact E'. eexists p, _. split; [exact Eo|]. eapply rep_mono; [|done|exact R].
      intros w q eq. by apply (ended_string L junk HL b).
  - rewrite decide_True in Eo.
    2: { intros H. rewrite drop_ge in Hd by lia. done. }
    pose proof (lex_nonempty c l Hhd) as Hne. by destruct (lex (c :: l)).
Qed.

(** * The grammar *)

(** A command line: pipelines, each with its [&], between [;]; a pipeline of commands
    between [|]; a command of words and redirections, or a line between parentheses. *)
Inductive item := IWord (w : list Z) | IRedir (k : tok) (w : list Z).
Inductive line :=
| LEnd (p : pipe) (backs : nat)
| LSeq (p : pipe) (backs : nat) (l : line)
with pipe :=
| PEnd (e : exec)
| PBar (e : exec) (p : pipe)
with exec :=
| ESimple (items : list item)
| EBlock (l : line) (rs : list (tok * list Z)).

Scheme line_mind := Induction for line Sort Prop
with pipe_mind := Induction for pipe Sort Prop
with exec_mind := Induction for exec Sort Prop.
Combined Scheme line_mutind from line_mind, pipe_mind, exec_mind.

Definition item_toks (i : item) : list tok := match i with IWord w => [Word w] | IRedir k w => [k; Word w] end.
Definition redir_toks_of (r : tok * list Z) : list tok := [fst r; Word (snd r)].

Fixpoint line_toks (l : line) : list tok :=
  match l with
  | LEnd p n => pipe_toks p ++ replicate n (Sym AMP)
  | LSeq p n l => pipe_toks p ++ replicate n (Sym AMP) ++ Sym SEMI :: line_toks l
  end
with pipe_toks (p : pipe) : list tok :=
  match p with
  | PEnd e => exec_toks e
  | PBar e p => exec_toks e ++ Sym BAR :: pipe_toks p
  end
with exec_toks (e : exec) : list tok :=
  match e with
  | ESimple items => items ≫= item_toks
  | EBlock l rs => Sym LPAR :: line_toks l ++ Sym RPAR :: (rs ≫= redir_toks_of)
  end.

(** The redirection that a token and a word make. *)
Definition redir_of (r : tok * list Z) : option redir :=
  '(mode, fd) ← redir_kind (fst r); Some (snd r, mode, fd).
Definition item_words (i : item) : list (list Z) := match i with IWord w => [w] | _ => [] end.
Definition item_redirs (i : item) : list redir := match i with IRedir k w => option_list (redir_of (k, w)) | _ => [] end.
Definition redirs_of (rs : list (tok * list Z)) : list redir := rs ≫= λ r, option_list (redir_of r).

(** The command a line denotes. *)
Fixpoint line_tree (l : line) : tree :=
  match l with
  | LEnd p n => Nat.iter n TBack (pipe_tree p)
  | LSeq p n l => TList (Nat.iter n TBack (pipe_tree p)) (line_tree l)
  end
with pipe_tree (p : pipe) : tree :=
  match p with
  | PEnd e => exec_tree e
  | PBar e p => TPipe (exec_tree e) (pipe_tree p)
  end
with exec_tree (e : exec) : tree :=
  match e with
  | ESimple items => foldl wrap (TExec (items ≫= item_words)) (items ≫= item_redirs)
  | EBlock l rs => foldl wrap (line_tree l) (redirs_of rs)
  end.

(** Words are not empty and made of the right characters, a command has less than
    [MAXARGS] of them, and redirections are redirections. *)
Definition word_ok (w : list Z) : Prop := w ≠ [] ∧ Forall (λ c, is_wordc c = true ∧ c ≠ 0) w.
Definition redir_ok (k : tok) (w : list Z) : Prop := is_Some (redir_kind k) ∧ word_ok w.
Definition item_ok (i : item) : Prop := match i with IWord w => word_ok w | IRedir k w => redir_ok k w end.

Fixpoint line_ok (l : line) : Prop :=
  match l with LEnd p _ => pipe_ok p | LSeq p _ l => pipe_ok p ∧ line_ok l end
with pipe_ok (p : pipe) : Prop :=
  match p with PEnd e => exec_ok e | PBar e p => exec_ok e ∧ pipe_ok p end
with exec_ok (e : exec) : Prop :=
  match e with
  | ESimple items => Forall item_ok items ∧ (length (items ≫= item_words) < MAXARGS)%nat
  | EBlock l rs => line_ok l ∧ Forall (λ r, redir_ok (fst r) (snd r)) rs
  end.

(** What may come after. *)
Definition follow (cs : list Z) (ts : list tok) : Prop := match ts with [] => True | t :: _ => t ∈ Sym <$> cs end.

Lemma rsimple_items ws rs items rest :
  Forall item_ok items → (length ws + length (items ≫= item_words) < MAXARGS)%nat → follow [BAR; RPAR; AMP; SEMI] rest →
  rsimple ws rs ((items ≫= item_toks) ++ rest) =
    Ok (foldl wrap (TExec (ws ++ (items ≫= item_words))) (rs ++ (items ≫= item_redirs))) rest.
Proof.
  intros HF. revert ws rs. induction HF as [|i items Hi HF IH]; intros ws rs Hlen Hrest.
  - cbn. rewrite !app_nil_r. destruct rest as [|t rest]; [done|]. cbn [rsimple follow] in *.
    apply list_elem_of_fmap in Hrest as (c & -> & Hc). 
    assert (E : redir_kind (Sym c) = None) by (rewrite !elem_of_cons, elem_of_nil in Hc; destruct_or! Hc; by subst).
    rewrite E. rewrite decide_True; [done|]. by apply (list_elem_of_fmap_2 Sym [BAR; RPAR; AMP; SEMI]).
  - cbn [mbind list_bind] in *. destruct i as [w|k w]; cbn [item_toks item_words item_redirs app] in *.
    + cbn [rsimple redir_kind]. rewrite decide_False by (simpl in Hlen; lia). cbn [length] in Hlen.
      rewrite IH; [|rewrite length_app; simpl; lia|done]. by rewrite <-app_assoc.
    + destruct Hi as [[[m d] Hk] Hw]. cbn [rsimple]. rewrite Hk. unfold redir_of. cbn [fst snd]. rewrite Hk.
      rewrite IH by done. cbn. by rewrite <-app_assoc.
Qed.

Lemma rredirs_items rs0 rs rest :
  Forall (λ r, redir_ok (fst r) (snd r)) rs → follow [BAR; RPAR; AMP; SEMI] rest →
  rredirs rs0 ((rs ≫= redir_toks_of) ++ rest) = Some (rs0 ++ redirs_of rs, rest).
Proof.
  intros HF Hrest. revert rs0. induction HF as [|[k w] rs [[[m d] Hk] _] HF IH]; intros rs0.
  - cbn. rewrite app_nil_r. destruct rest as [|t rest]; [done|]. cbn [rredirs follow] in *.
    apply list_elem_of_fmap in Hrest as (c & -> & Hc).
    assert (E : redir_kind (Sym c) = None) by (rewrite !elem_of_cons, elem_of_nil in Hc; destruct_or! Hc; by subst).
    by rewrite E.
  - cbn in Hk. cbn. rewrite Hk, IH. unfold redirs_of. cbn. unfold redir_of at 2. cbn. by rewrite Hk, <-app_assoc.
Qed.

Lemma rback_items t n rest : after AMP rest = None → rback t (replicate n (Sym AMP) ++ rest) = (Nat.iter n TBack t, rest).
Proof.
  intros Hr. revert t. induction n as [|n IH]; intros t.
  - simpl. destruct rest as [|[c| |w] rest]; try done. simpl in *. by destruct (c =? AMP).
  - cbn [replicate app rback]. change (AMP =? AMP) with true. cbn iota. rewrite IH, Nat.iter_succ_r. done.
Qed.

Lemma follow_sub cs cs' ts : cs ⊆ cs' → follow cs ts → follow cs' ts.
Proof. intros Hs. destruct ts; [done|]. cbn. rewrite !list_elem_of_fmap. intros (c & -> & Hc). eauto. Qed.

Lemma follow_after c cs ts : c ∉ cs → follow cs ts → after c ts = None.
Proof.
  intros Hc. destruct ts as [|[d| |w] ts]; try done. cbn. intros H. destruct (Z.eqb_spec d c) as [->|]; [|done].
  apply list_elem_of_fmap in H as (e & [= <-] & He). done.
Qed.

(** Membership in a list of characters. *)
Ltac chars := apply (bool_decide_unpack _); by vm_compute.

Lemma follow_amps n ts : follow [RPAR; AMP; SEMI] ts → follow [RPAR; AMP; SEMI] (replicate n (Sym AMP) ++ ts).
Proof. destruct n; [done|]. intros _. cbn. set_solver. Qed.

(** A command does not start like a block, unless it is one. *)
Lemma simple_no_block items rest :
  Forall item_ok items → follow [BAR; RPAR; AMP; SEMI] rest → after LPAR ((items ≫= item_toks) ++ rest) = None.
Proof.
  intros HF Hr. destruct HF as [|[w|k w] items Hi HF]; [apply (follow_after _ [BAR; RPAR; AMP; SEMI]); [chars|done]|done|].
  cbn. destruct Hi as [[x Hk] _]. destruct k as [c| |w']; try done. destruct (Z.eqb_spec c LPAR) as [->|]; done.
Qed.

(** The reference parser finds the tree of a line of the grammar. *)
Lemma reference_complete :
  (∀ l rest fuel, line_ok l → follow [RPAR] rest → (4 * length (line_toks l ++ rest) + 4 ≤ fuel)%nat →
     rline fuel (line_toks l ++ rest) = Ok (line_tree l) rest) ∧
  (∀ p rest fuel, pipe_ok p → follow [RPAR; AMP; SEMI] rest → (4 * length (pipe_toks p ++ rest) + 3 ≤ fuel)%nat →
     rpipe fuel (pipe_toks p ++ rest) = Ok (pipe_tree p) rest) ∧
  (∀ e rest fuel, exec_ok e → follow [BAR; RPAR; AMP; SEMI] rest → (4 * length (exec_toks e ++ rest) + 2 ≤ fuel)%nat →
     rexec fuel (exec_toks e ++ rest) = Ok (exec_tree e) rest).
Proof.
  apply line_mutind.
  - intros p IH n rest [|fuel] Hok Hr Hf; [lia|]. cbn [line_ok line_toks line_tree] in *. rewrite <-app_assoc in *.
    cbn [rline]. rewrite IH; [|done|apply follow_amps; eapply follow_sub; [|exact Hr]; set_solver|lia].
    cbn [rbind]. rewrite rback_items by (apply (follow_after _ [RPAR]); [chars|done]).
    by rewrite (follow_after SEMI [RPAR]) by (chars || done).
  - intros p IH n l IHl rest [|fuel] [Hp Hl] Hr Hf; [lia|]. cbn [line_toks line_tree] in *. rewrite <-!app_assoc in *.
    cbn [rline]. rewrite IH; [|done|apply follow_amps; cbn; set_solver|lia].
    cbn [rbind]. rewrite rback_items by done. cbn [after app]. change (SEMI =? SEMI) with true. cbn iota.
    rewrite IHl; [done|done|done|]. rewrite ?length_app in *. cbn [length app] in Hf. rewrite ?length_app in Hf. lia.
  - intros e IH rest [|fuel] Hok Hr Hf; [lia|]. cbn [pipe_ok pipe_toks pipe_tree rpipe] in *.
    rewrite IH; [|done|eapply follow_sub; [|exact Hr]; set_solver|lia]. cbn [rbind].
    by rewrite (follow_after BAR [RPAR; AMP; SEMI]) by (chars || done).
  - intros e IH p IHp rest [|fuel] [He Hp] Hr Hf; [lia|]. cbn [pipe_toks pipe_tree rpipe] in *. rewrite <-!app_assoc in *.
    rewrite IH; [|done|cbn; set_solver|lia]. cbn [rbind after app]. change (BAR =? BAR) with true. cbn iota.
    rewrite IHp; [done|done|done|]. rewrite ?length_app in *. cbn [length app] in Hf. rewrite ?length_app in Hf. lia.
  - intros items rest [|fuel] [Hi Hw] Hr Hf; [lia|]. cbn [exec_toks exec_tree rexec] in *.
    rewrite simple_no_block by done. by rewrite (rsimple_items [] []).
  - intros l IH rs rest [|[|fuel]] [Hl Hrs] Hr Hf; [lia|lia|]. cbn [exec_toks exec_tree rexec app after] in *.
    change (LPAR =? LPAR) with true. cbn iota. cbn [rblock after]. change (LPAR =? LPAR) with true. cbn iota.
    rewrite <-app_assoc in *. cbn [app length] in *.
    rewrite IH; [|done|cbn; set_solver|lia]. cbn [rbind after]. change (RPAR =? RPAR) with true. cbn iota.
    by rewrite (rredirs_items []).
Qed.

(** ** Printing *)

Definition show_tok (t : tok) : list Z :=
  match t with Sym c => [c; 32] | Append => [GT; GT; 32] | Word w => w ++ [32] end.
Definition show (ts : list tok) : list Z := ts ≫= show_tok.

(** A token that the lexer can find. *)
Definition tok_ok (t : tok) : Prop :=
  match t with Sym c => is_sym c = true ∧ is_space c = false ∧ c ≠ 0 | Append => True | Word w => word_ok w end.

Lemma lex_show ts : Forall tok_ok ts → lex (show ts) = ts ∧ plain (show ts).
Proof.
  induction 1 as [|t ts Ht HF [IH1 IH2]]; [split; [done|constructor]|]. change (show (t :: ts)) with (show_tok t ++ show ts). split.
  - destruct t as [c| |w]; cbn [show_tok app].
    + destruct Ht as (H1 & H2 & _). cbn [lex]. rewrite H1, H2. change (is_space 32) with true. rewrite andb_false_r. by rewrite IH1.
    + cbn. by rewrite IH1.
    + destruct Ht as [Hne Hw]. destruct w as [|c w]; [done|]. rewrite <-app_assoc. cbn [app]. rewrite lex_word; [|by eapply Forall_impl; [exact Hw|]; intros ? []|done].
      cbn. by rewrite IH1.
  - apply Forall_app. split; [|done]. destruct t as [c| |w]; cbn [show_tok].
    + destruct Ht as (_ & _ & H). by repeat constructor.
    + by repeat constructor.
    + destruct Ht as [_ Hw]. apply Forall_app. split; [|by repeat constructor]. eapply Forall_impl; [exact Hw|]. by intros ? [].
Qed.

Lemma redir_tok_ok k w : redir_ok k w → tok_ok k ∧ tok_ok (Word w).
Proof.
  intros [[x Hk] Hw]. split; [|done]. destruct k as [c| |w']; [|done|done]. cbn in Hk.
  destruct (Z.eqb_spec c LT) as [->|]; [done|]. destruct (Z.eqb_spec c GT) as [->|]; done.
Qed.

Lemma grammar_toks_ok :
  (∀ l, line_ok l → Forall tok_ok (line_toks l)) ∧ (∀ p, pipe_ok p → Forall tok_ok (pipe_toks p)) ∧
  (∀ e, exec_ok e → Forall tok_ok (exec_toks e)).
Proof.
  apply line_mutind.
  - intros p IH n Hp. apply Forall_app. split; [by apply IH|]. by apply Forall_replicate.
  - intros p IH n l IHl [Hp Hl]. apply Forall_app. split; [by apply IH|]. apply Forall_app. split; [by apply Forall_replicate|].
    constructor; [done|by apply IHl].
  - intros e IH. apply IH.
  - intros e IH p IHp [He Hp]. apply Forall_app. split; [by apply IH|]. constructor; [done|by apply IHp].
  - intros items [Hi _]. cbn. induction Hi as [|i items Hi _ IH]; [done|]. cbn. apply Forall_app. split; [|done].
    destruct i as [w|k w]; [constructor; [done|constructor]|]. destruct (redir_tok_ok k w Hi) as [Hk Hw].
    constructor; [done|constructor; [done|constructor]].
  - intros l IH rs [Hl Hr]. cbn. constructor; [done|]. apply Forall_app. split; [by apply IH|]. constructor; [done|].
    induction Hr as [|[k w] rs Hi _ IHr]; [done|]. cbn. destruct (redir_tok_ok k w Hi) as [Hk Hw].
    constructor; [done|constructor; [done|exact IHr]].
Qed.

(** C32: the parser of the shell always ends, and does what the reference parser says with the
    tokens of the line: it returns the command, each of its words being a string of the
    buffer, or stops with the message of the first error.  The memory for the commands
    never has to hold more than two for each character. *)
Theorem parsecmd_parses L junk h room :
  plain L → (2 * length L + 1 ≤ room)%nat →
  match rparse (lex L) with
  | inl t => ∃ p st', parsecmd (mkShell (L ++ 0 :: junk) h room) = Done p st' ∧ holds st' t p
  | inr m => parsecmd (mkShell (L ++ 0 :: junk) h room) = Panicked m
  end.
Proof. apply parsecmd_ok. Qed.

(** a line that is printed from a command of the grammar is parsed to the tree of that
    command: [|] binds more than [&], which binds more than [;], both group to the right, and
    redirections apply from the left. *)
Theorem parse_show l junk h room :
  line_ok l → (2 * length (show (line_toks l)) + 1 ≤ room)%nat →
  ∃ p st', parsecmd (mkShell (show (line_toks l) ++ 0 :: junk) h room) = Done p st' ∧ holds st' (line_tree l) p.
Proof.
  intros Hok Hroom. destruct (lex_show (line_toks l)) as [Hlex Hpl]; [by apply grammar_toks_ok|].
  pose proof (parsecmd_ok (show (line_toks l)) junk h room Hpl Hroom) as H. rewrite Hlex in H.
  pose proof (proj1 reference_complete l [] (4 * length (line_toks l) + 4)%nat) as HC. rewrite app_nil_r in HC.
  unfold rparse in H. rewrite HC in H; done.
Qed.

(** * What the shell does *)

Section runs.
Context (exec_ok : list Z → list (list Z) → bool).

(** The system calls of a command. *)
Fixpoint run (t : tree) : list act :=
  match t with
  | TExec [] => [AExit]
  | TExec (w :: ws) => AExec w (w :: ws) ::
      if exec_ok w (w :: ws) then [] else [APrint "no existe el ejecutable"; AExit]
  | TRedir t f mode fd => AClose fd :: AOpen f mode :: run t
  | TPipe l _ => APrint "pipe not implemented" :: run l
  | TList l _ => APrint "list not implemented" :: run l
  | TBack t => APrint "background not implemented" :: run t
  end.

Lemma str_at_ok b q w : string_at b q w → str_at b q = w.
Proof.
  intros [Hw [r Hr]]. unfold str_at. rewrite Hr. clear Hr. induction Hw as [|c w Hc _ IH]; [done|]. cbn.
  rewrite (proj2 (Z.eqb_neq c 0)) by done. by rewrite IH.
Qed.

Lemma arg_strs_ok b ws qs eqs n :
  Forall3 (λ w q (_ : nat), string_at b q w) ws qs eqs → arg_strs b ((Some <$> qs) ++ replicate n None) = ws.
Proof.
  intros HF. induction HF as [|w q eq ws qs eqs Hw HF IH]; [by destruct n|]. cbn. by rewrite (str_at_ok b q w), IH.
Qed.

Lemma runcmd_ok fuel t p st : holds st t p → older p fuel → runcmd exec_ok fuel p st = Done (run t) st.
Proof.
  revert t p. induction fuel as [|fuel IH]; intros t p Hr Ho; [by destruct p as [i|]; [simpl in Ho; lia|]|].
  assert (Hold : ∀ c i, older c i → p = Some i → older c fuel).
  { intros c i Hc ->. destruct c; [|done]. cbn [older] in *. lia. }
  unfold holds in *. destruct t as [ws|t f m d|l r|l r|t]; simpl in Hr.
  - destruct Hr as (i & argv & eargv & -> & Hi & qs & eqs & -> & -> & HF & Hw).
    cbn [runcmd]. unfold cmd_at, bind, asks, deref, ret. cbn [obind]. rewrite Hi. cbn [obind].
    rewrite (arg_strs_ok _ _ _ _ _ HF). destruct HF as [|w q eq ws qs eqs Hq HF]; [done|].
    cbn. by rewrite (str_at_ok _ _ _ Hq).
  - destruct Hr as (i & c & q & eq & -> & Hi & Hc & Hr & Hw).
    cbn [runcmd]. unfold cmd_at, bind at 1 2 3, asks, deref, ret. cbn [obind]. rewrite Hi. cbn [obind].
    erewrite bind_done by (eapply IH; [done|by eapply Hold]). by rewrite (str_at_ok _ _ _ Hw).
  - destruct Hr as (i & c & d & -> & Hi & Hc & _ & Hl & _).
    cbn [runcmd]. unfold cmd_at, bind at 1 2 3, asks, deref, ret. cbn [obind]. rewrite Hi. cbn [obind].
    by erewrite bind_done by (eapply IH; [done|by eapply Hold]).
  - destruct Hr as (i & c & d & -> & Hi & Hc & _ & Hl & _).
    cbn [runcmd]. unfold cmd_at, bind at 1 2 3, asks, deref, ret. cbn [obind]. rewrite Hi. cbn [obind].
    by erewrite bind_done by (eapply IH; [done|by eapply Hold]).
  - destruct Hr as (i & c & -> & Hi & Hc & Hr).
    cbn [runcmd]. unfold cmd_at, bind at 1 2 3, asks, deref, ret. cbn [obind]. rewrite Hi. cbn [obind].
    by erewrite bind_done by (eapply IH; [done|by eapply Hold]).
Qed.

Lemma child_ok room L junk :
  plain L → (2 * length L + 1 ≤ room)%nat →
  child exec_ok room (L ++ 0 :: junk) = match rparse (lex L) with inl t => inl (run t) | inr m => inr m end.
Proof.
  intros HL Hroom. unfold child. pose proof (parsecmd_ok L junk [] room HL Hroom) as H.
  destruct (rparse (lex L)) as [t|m]; [|unfold bind; by rewrite H]. destruct H as (p & st & E & Hh).
  erewrite bind_done by exact E. unfold bind at 1, asks. cbn [obind]. erewrite runcmd_ok; [done|exact Hh|].
  apply rep_older in Hh. destruct p; [|done]. cbn in *. lia.
Qed.

(** ** The lines of the input *)

(** A line that [gets] can read whole. *)
Definition input_line (l : list Z) : Prop :=
  ∃ t, l = t ++ [10] ∧ Forall (λ c, c ≠ 0 ∧ is_eol c = false) t ∧ (length l < 100)%nat.

(** What the shell should do with it. *)
Definition meaning (l : list Z) : turn :=
  if bool_decide (take 3 l = bytes "cd ") then TCd (drop 3 (removelast l))
  else TRun (match rparse (lex l) with inl t => inl (run t) | inr m => inr m end).

Lemma input_line_plain l : input_line l → plain l.
Proof.
  intros (t & -> & Ht & _). apply Forall_app. split; [|by repeat constructor]. eapply Forall_impl; [exact Ht|]. by intros c [? _].
Qed.

Lemma first_line_input l rest n : input_line l → (length l ≤ n)%nat → first_line n (l ++ rest) = l.
Proof.
  intros (t & -> & Ht & _). revert n. induction Ht as [|c t [_ Hc] _ IH]; intros [|n] Hn; cbn in *; try lia; [done|].
  rewrite Hc. f_equal. apply IH. lia.
Qed.

Lemma cleared buf : memset buf 0 (length buf) = Some (replicate (length buf) 0).
Proof. unfold memset. rewrite decide_True by lia. by rewrite drop_ge, app_nil_r by lia. Qed.

Lemma getcmd_line buf l rest :
  length buf = 100%nat → input_line l →
  getcmd buf 100 (l ++ rest) = (0, l ++ 0 :: replicate (99 - length l) 0, rest).
Proof.
  intros Hb Hl. unfold getcmd. rewrite <-Hb, cleared, Hb. cbn [default from_option id].
  pose proof Hl as (t & El & Ht & Hlen). rewrite gets_spec by (rewrite length_replicate; lia).
  rewrite first_line_input by (done || lia). rewrite drop_app_length, drop_replicate.
  assert (Hhd : chr (l ++ 0 :: replicate (100 - S (length l)) 0) 0 ≠ 0).
  { rewrite El. destruct Ht as [|c t [Hc _] _]; done. }
  rewrite (proj2 (Z.eqb_neq _ _)) by done. done.
Qed.

Lemma cd_test l junk :
  (chr (l ++ 0 :: junk) 0 =? 99) && (chr (l ++ 0 :: junk) 1 =? 100) && (chr (l ++ 0 :: junk) 2 =? 32) =
    bool_decide (take 3 l = bytes "cd ").
Proof.
  change (bytes "cd ") with [99; 100; 32]. destruct l as [|a [|b [|c l]]]; cbn; rewrite ?andb_false_r, ?take_0; try (symmetry; by apply bool_decide_eq_false).
  destruct (Z.eqb_spec a 99) as [->|], (Z.eqb_spec b 100) as [->|], (Z.eqb_spec c 32) as [->|]; cbn; symmetry;
    (apply bool_decide_eq_true; done) || (apply bool_decide_eq_false; congruence).
Qed.

Lemma cd_path t z :
  plain t → (3 ≤ length t)%nat → str_at (<[(length (t ++ [10%Z]) - 1)%nat := 0]> ((t ++ [10]) ++ z)) 3 = drop 3 t.
Proof.
  intros Ht Hlen. rewrite length_app. cbn [length]. replace (length t + 1 - 1)%nat with (length t) by lia.
  rewrite <-app_assoc. cbn [app]. rewrite insert_middle. apply str_at_ok. split; [by apply Forall_drop|].
  exists z. by rewrite drop_app_le by lia.
Qed.

Lemma main_lines n fork_ok room buf lines :
  length buf = 100%nat → Forall input_line lines → (length lines < n)%nat → (∀ i, fork_ok i = true) → (200 ≤ room)%nat →
  main_loop exec_ok n fork_ok room buf (concat lines) = meaning <$> lines.
Proof.
  intros Hb HF. revert n buf Hb. induction HF as [|l lines Hl HF IH]; intros n buf Hb Hn Hfork Hroom.
  - destruct n as [|n]; [cbn in Hn; lia|]. cbn [main_loop concat]. unfold getcmd. rewrite cleared, Hb.
    cbn [default from_option id]. rewrite gets_spec by (rewrite length_replicate; lia). done.
  - cbn [length] in Hn. destruct n as [|n]; [lia|]. cbn [main_loop concat]. rewrite Hb, getcmd_line by done. cbn [Z.ltb Z.compare].
    rewrite cd_test. rewrite fmap_cons. unfold meaning at 1. pose proof (input_line_plain l Hl) as Hpl. pose proof Hl as (t & El & Ht & Hlen).
    case_bool_decide as Hcd.
    + rewrite ustrlen_spec by done. set (z := 0 :: replicate (99 - length l) 0).
      assert (H3 : (3 ≤ length t)%nat).
      { apply (f_equal (λ x, x !! 2%nat)) in Hcd. rewrite lookup_take in Hcd by lia. cbn in Hcd. 
        rewrite El in Hcd. destruct t as [|? [|? [|? t]]]; cbn in *; try done; lia. }
      f_equal.
      * f_equal. rewrite El. rewrite removelast_last. apply cd_path; [|done]. eapply Forall_impl; [exact Ht|]. by intros c [? _].
      * apply IH; [|lia|done|done]. rewrite length_insert, length_app. cbn. rewrite length_replicate. lia.
    + rewrite Hfork. f_equal.
      * f_equal. apply child_ok; [done|lia].
      * apply IH; [|lia|done|done]. rewrite length_app. cbn. rewrite length_replicate. lia.
Qed.

(** ** Redirections *)

(** The open files of the child, by descriptor: [open] takes the lowest that is free. *)
Definition fd_act (a : act) (t : list (option (list Z))) : list (option (list Z)) :=
  match a with
  | AClose fd => <[Z.to_nat fd := None]> t
  | AOpen f _ => match find_index (λ o, negb (bool_decide (is_Some o))) t with Some i => <[i := Some f]> t | None => t end
  | _ => t
  end.
Definition fds_after (acts : list act) (t : list (option (list Z))) : list (option (list Z)) := foldl (λ t a, fd_act a t) t acts.

(** The file of the first redirection of [fd]. *)
Fixpoint first_file (fd : Z) (rs : list redir) : option (list Z) :=
  match rs with
  | [] => None
  | (f, _, d) :: rs' => if d =? fd then Some f else first_file fd rs'
  end.

Lemma first_file_snoc fd rs f m d :
  first_file fd (rs ++ [(f, m, d)]) = match first_file fd rs with Some g => Some g | None => if d =? fd then Some f else None end.
Proof. induction rs as [|[[g n] e] rs IH]; [done|]. cbn. by destruct (e =? fd). Qed.

Lemma run_simple_fds ws t : fds_after (run (TExec ws)) t = t.
Proof. destruct ws as [|w ws]; [done|]. cbn. by destruct (exec_ok _ _). Qed.

Lemma redirs_fds ws rs a b tl :
  Forall (λ r : redir, r.2 = 0 ∨ r.2 = 1) rs →
  fds_after (run (foldl wrap (TExec ws) rs)) (Some a :: Some b :: tl) =
    Some (default a (first_file 0 rs)) :: Some (default b (first_file 1 rs)) :: tl.
Proof.
  revert a b. induction rs as [|[[f m] d] rs IH] using rev_ind; intros a b HF; [apply run_simple_fds|].
  apply Forall_app in HF as [HF Hd]. apply Forall_cons in Hd as [Hd _]. cbn in Hd.
  rewrite foldl_app, !first_file_snoc. cbn [foldl wrap fst snd run fds_after]. destruct Hd as [->| ->].
  - change (fds_after (run (foldl wrap (TExec ws) rs)) (Some f :: Some b :: tl) =
      Some (default a (match first_file 0 rs with Some g => Some g | None => Some f end)) ::
      Some (default b (match first_file 1 rs with Some g => Some g | None => None end)) :: tl).
    rewrite IH by done. by destruct (first_file 0 rs), (first_file 1 rs).
  - change (fds_after (run (foldl wrap (TExec ws) rs)) (Some a :: Some f :: tl) =
      Some (default a (match first_file 0 rs with Some g => Some g | None => None end)) ::
      Some (default b (match first_file 1 rs with Some g => Some g | None => Some f end)) :: tl).
    rewrite IH by done. by destruct (first_file 0 rs), (first_file 1 rs).
Qed.
End runs.

(** C33: the shell does with each line of its input, in order, what the line means: it changes
    the directory, or makes a child that runs the command of the line or stops with the
    message of the error.  It stops at the end of the input.  Of [;], [|] and [&] only the left
    side is run, after a message. *)
Theorem shell_runs_lines exec_ok n fork_ok room buf lines :
  length buf = 100%nat → Forall input_line lines → (length lines < n)%nat → (∀ i, fork_ok i = true) → (200 ≤ room)%nat →
  main_loop exec_ok n fork_ok room buf (concat lines) = meaning exec_ok <$> lines.
Proof. apply main_lines. Qed.

(** when a line redirects a descriptor more than once, the first redirection is the one
    the program runs with, since the parser puts the last one outermost and [runcmd]
    works inwards. *)
Theorem first_redirection_wins exec_ok ws rs a b tl :
  Forall (λ r : redir, r.2 = 0 ∨ r.2 = 1) rs →
  fds_after (run exec_ok (foldl wrap (TExec ws) rs)) (Some a :: Some b :: tl) =
    Some (default a (first_file 0 rs)) :: Some (default b (first_file 1 rs)) :: tl.
Proof. apply redirs_fds. Qed.

(** * Examples *)

Lemma parsecmd_parses_witness :
  ∃ p st', parsecmd (mkShell (bytes "cat <in >>out|(wc -l;ls)&" ++ [0]) [] 60) = Done p st' ∧
    holds st' (TBack (TPipe (TRedir (TRedir (TExec [bytes "cat"]) (bytes "in") 0 0) (bytes "out") 513 1)
      (TList (TExec [bytes "wc"; bytes "-l"]) (TExec [bytes "ls"])))) p.
Proof.
  pose proof (parsecmd_parses (bytes "cat <in >>out|(wc -l;ls)&") [] [] 60) as H.
  apply H; [by repeat constructor|cbn; lia].
Defined.

Lemma parse_show_witness :
  let l := LEnd (PBar (ESimple [IWord (bytes "ls")]) (PEnd (EBlock (LEnd (PEnd (ESimple [IWord (bytes "wc")])) 1) []))) 0 in
  ∃ p st', parsecmd (mkShell (show (line_toks l) ++ [0]) [] 60) = Done p st' ∧ holds st' (line_tree l) p.
Proof.
  intros l. apply (parse_show l [] [] 60); [|cbn; lia]. cbn. repeat split; try done; repeat constructor; done.
Defined.

Lemma shell_runs_lines_witness :
  main_loop (λ _ _, true) 4 (λ _, true) 200 (replicate 100 0) (bytes "ls -l >x" ++ [10] ++ bytes "cd /tmp" ++ [10] ++ bytes "a & b" ++ [10]) =
    [TRun (inl [AClose 1; AOpen (bytes "x") 513; AExec (bytes "ls") [bytes "ls"; bytes "-l"]]);
     TCd (bytes "/tmp"); TRun (inr "syntax")].
Proof.
  apply (shell_runs_lines (λ _ _, true) 4 (λ _, true) 200 (replicate 100 0)
    [bytes "ls -l >x" ++ [10]; bytes "cd /tmp" ++ [10]; bytes "a & b" ++ [10]]).
  - reflexivity.
  - repeat constructor; eexists; (split; [reflexivity|]); (split; [|cbn; lia]); repeat constructor; discriminate.
  - cbn. lia.
  - reflexivity.
  - lia.
Defined.

Lemma first_redirection_wins_witness :
  fds_after (run (λ _ _, true) (foldl wrap (TExec [bytes "a"]) [(bytes "x", 513, 1); (bytes "y", 513, 1)]))
    [Some (bytes "console"); Some (bytes "console"); Some (bytes "console")] =
  [Some (bytes "console"); Some (bytes "x"); Some (bytes "console")].
Proof.
  apply (first_redirection_wins (λ _ _, true) [bytes "a"] [(bytes "x", 513, 1); (bytes "y", 513, 1)]
    (bytes "console") (bytes "console") [Some (bytes "console")]).
  constructor; [right; reflexivity|]. constructor; [right; reflexivity|constructor].
Defined.
