(* ===== verification/Uthread.v ===== *)
(** User-level threads: uthreadlib.c and uthread_switch.S.

    The stacks are memory; the saved stack pointer and the state of each thread are
    lists, and the registers of the processor are a record.  The theorems say that a
    thread that is switched away goes on where it was, that a new one starts at its
    function, that every runnable thread gets its turn, and what happens to a thread
    that yields when no other can run. *)

From S2P Require Import Prelude State CString.

(** * Data *)

Definition FREE : Z := 0.
Definition RUNNING : Z := 1.
Definition RUNNABLE : Z := 2.
Definition STACK_SIZE : Z := 8192.
Definition MAX_THREAD : nat := 8.

(** The registers that [pusha] saves, and the program counter. *)
Record regs := mkRegs { r_eax : Z; r_ecx : Z; r_edx : Z; r_ebx : Z; r_esp : Z; r_ebp : Z; r_esi : Z; r_edi : Z; r_eip : Z }.

(** [th_stack] is the address of the array [stack]. *)
Record thread := mkThread { th_sp : Z; th_stack : Z; th_state : Z }.

Record ut := mkUt {
  all_thread : list thread;
  current_thread : option nat;
  next_thread : option nat;
  ultimo_indice : nat;
  ut_mem : mem;
  ut_regs : regs;
}.

Abbreviation U := (@prog ut).

Definition with_threads (l : list thread) (s : ut) : ut :=
  mkUt l (current_thread s) (next_thread s) (ultimo_indice s) (ut_mem s) (ut_regs s).
Definition with_current (c : option nat) (s : ut) : ut :=
  mkUt (all_thread s) c (next_thread s) (ultimo_indice s) (ut_mem s) (ut_regs s).
Definition with_next (n : option nat) (s : ut) : ut :=
  mkUt (all_thread s) (current_thread s) n (ultimo_indice s) (ut_mem s) (ut_regs s).
Definition with_ultimo (n : nat) (s : ut) : ut :=
  mkUt (all_thread s) (current_thread s) (next_thread s) n (ut_mem s) (ut_regs s).
Definition with_cpu (m : mem) (r : regs) (s : ut) : ut :=
  mkUt (all_thread s) (current_thread s) (next_thread s) (ultimo_indice s) m r.

Definition set_state (v : Z) (t : thread) : thread := mkThread (th_sp t) (th_stack t) v.
Definition set_sp (v : Z) (t : thread) : thread := mkThread v (th_stack t) (th_state t).

(** A thread of the array, and a change of one. *)
Definition thread_at (t : option nat) : U thread :=
  i <- deref t ;; x <- gets (λ s, all_thread s !! i) ;; deref x.
Definition upd_thread (t : option nat) (f : thread → thread) : U unit :=
  i <- deref t ;; x <- gets (λ s, all_thread s !! i) ;; x <- deref x ;;
  modify (λ s, with_threads (<[i := f x]> (all_thread s)) s).

(** * [thread_switch] *)

(** [pusha]: the registers from [%edi] on, at the new top of the stack. *)
Definition pusha (m : mem) (r : regs) : mem :=
  let p := r_esp r in
  store32 (store32 (store32 (store32 (store32 (store32 (store32 (store32 m
    (p - 4) (r_eax r)) (p - 8) (r_ecx r)) (p - 12) (r_edx r)) (p - 16) (r_ebx r))
    (p - 20) p) (p - 24) (r_ebp r)) (p - 28) (r_esi r)) (p - 32) (r_edi r).

(** [popa] and [ret] from the stack pointer [p]. *)
Definition popa_ret (m : mem) (p : Z) : regs :=
  mkRegs (load32 m (p + 28)) (load32 m (p + 24)) (load32 m (p + 20)) (load32 m (p + 16)) (p + 36)
    (load32 m (p + 8)) (load32 m (p + 4)) (load32 m p) (load32 m (p + 32)).

Definition thread_switch : U unit :=
  r <- gets ut_regs ;;
  m <- gets ut_mem ;;
  let m := pusha m r in
  cur <- gets current_thread ;;
  upd_thread cur (set_sp (r_esp r - 32)) ;;;
  next <- gets next_thread ;;
  n <- thread_at next ;;
  modify (with_current next) ;;;
  modify (with_next None) ;;;
  modify (with_cpu m (popa_ret m (th_sp n))).

(** * The library *)

Definition thread_init : U unit :=
  modify (with_current (Some 0%nat)) ;;;
  upd_thread (Some 0%nat) (set_state RUNNING).

(** The loop of [thread_schedule], from [i] on: the index found. *)
Fixpoint pick (states : list thread) (ultimo : nat) (cur : option nat) (i n : nat) : option nat :=
  match n with
  | O => None
  | S n' =>
      let j := ((ultimo + i) mod MAX_THREAD)%nat in
      match states !! j with
      | Some t =>
          if (th_state t =? RUNNABLE) && negb (bool_decide (Some j = cur)) then Some j
          else pick states ultimo cur (S i) n'
      | None => None
      end
  end.

Definition thread_schedule : U unit :=
  modify (with_next None) ;;;
  ts <- gets all_thread ;;
  ultimo <- gets ultimo_indice ;;
  cur <- gets current_thread ;;
  match pick ts ultimo cur 1 (MAX_THREAD - 1) with
  | Some j => modify (with_next (Some j)) ;;; modify (with_ultimo j)
  | None =>
      modify (with_next (Some 0%nat)) ;;;
      t <- thread_at (Some 0%nat) ;;
      if negb (th_state t =? RUNNING) then upd_thread (Some 0%nat) (set_state RUNNING) else ret tt
  end ;;;
  next <- gets next_thread ;;
  if negb (bool_decide (cur = next)) then
    upd_thread next (set_state RUNNING) ;;;
    thread_switch
  else modify (with_next None).

(** The search of [thread_create]; past the last thread the pointer is out of the array. *)
Definition thread_create (func : Z) : U unit :=
  ts <- gets all_thread ;;
  i <- deref (find_index (λ t, th_state t =? FREE) ts) ;;
  t <- thread_at (Some i) ;;
  let sp := th_stack t + STACK_SIZE - 4 in
  modify (λ s, with_cpu (store32 (ut_mem s) sp func) (ut_regs s) s) ;;;
  upd_thread (Some i) (set_sp (sp - 32)) ;;;
  upd_thread (Some i) (set_state RUNNABLE).

Definition thread_yield : U unit :=
  cur <- gets current_thread ;;
  upd_thread cur (set_state RUNNABLE) ;;;
  thread_schedule.

Definition thread_exit : U unit :=
  cur <- gets current_thread ;;
  upd_thread cur (set_state FREE) ;;;
  thread_schedule.

(** [(int)current_thread], the index standing for the address. *)
Definition thread_id : U nat := cur <- gets current_thread ;; deref cur.

(** * Switching *)

(** The effect of [thread_switch] from [a] to [b]. *)
Definition switched (a b : nat) (ta tb : thread) (s : ut) : ut :=
  let r := ut_regs s in
  let m := pusha (ut_mem s) r in
  mkUt (<[a := set_sp (r_esp r - 32) ta]> (all_thread s)) (Some b) None (ultimo_indice s) m (popa_ret m (th_sp tb)).

Lemma upd_thread_ok i t f s :
  all_thread s !! i = Some t → upd_thread (Some i) f s = Done tt (with_threads (<[i := f t]> (all_thread s)) s).
Proof. intros H. unfold upd_thread, bind, gets, deref, ret. cbn [obind]. by rewrite H. Qed.

Lemma thread_at_ok i t s : all_thread s !! i = Some t → thread_at (Some i) s = Done t s.
Proof. intros H. unfold thread_at, bind, gets, deref, ret. cbn [obind]. by rewrite H. Qed.

Lemma thread_switch_ok a b ta tb s :
  current_thread s = Some a → next_thread s = Some b → a ≠ b → all_thread s !! a = Some ta → all_thread s !! b = Some tb →
  thread_switch s = Done tt (switched a b ta tb s).
Proof.
  intros Hc Hn Hne Ha Hb. unfold thread_switch. unfold bind at 1 2 3, gets. cbn [obind]. rewrite Hc.
  erewrite bind_done by (by apply upd_thread_ok). unfold bind at 1. cbn [obind next_thread with_threads]. rewrite Hn.
  erewrite bind_done by (apply thread_at_ok; cbn; by rewrite list_lookup_insert_ne). by unfold switched.
Qed.

(** The words that [pusha] leaves. *)
Lemma pusha_other m r x :
  x + 4 ≤ r_esp r - 32 ∨ r_esp r ≤ x → load32 (pusha m r) x = load32 m x.
Proof. intros H. unfold pusha. by rewrite !load_store32_ne by lia. Qed.

Definition regs_ok (r : regs) : Prop :=
  is_u32 (r_eax r) ∧ is_u32 (r_ecx r) ∧ is_u32 (r_edx r) ∧ is_u32 (r_ebx r) ∧ is_u32 (r_ebp r) ∧ is_u32 (r_esi r) ∧ is_u32 (r_edi r).

Ltac saved := rewrite ?load_store32_ne by lia; rewrite load_store32_same; by apply u32_small.

Lemma pusha_popa m r :
  regs_ok r → popa_ret (pusha m r) (r_esp r - 32) =
    mkRegs (r_eax r) (r_ecx r) (r_edx r) (r_ebx r) (r_esp r + 4) (r_ebp r) (r_esi r) (r_edi r) (load32 m (r_esp r)).
Proof.
  intros (H1 & H2 & H3 & H4 & H5 & H6 & H7). unfold popa_ret. set (p := r_esp r).
  replace (p - 32 + 28) with (p - 4) by lia. replace (p - 32 + 24) with (p - 8) by lia. replace (p - 32 + 20) with (p - 12) by lia.
  replace (p - 32 + 16) with (p - 16) by lia. replace (p - 32 + 8) with (p - 24) by lia. replace (p - 32 + 4) with (p - 28) by lia.
  replace (p - 32 + 32) with p by lia. replace (p - 32 + 36) with (p + 4) by lia.
  f_equal; unfold pusha; fold p; [saved..|]. by rewrite !load_store32_ne by lia.
Qed.

(** Memory that agrees on the words from [p] on. *)
Lemma popa_agree m m' p : (∀ x, p ≤ x < p + 36 → m' x = m x) → popa_ret m' p = popa_ret m p.
Proof. intros H. unfold popa_ret, load32. by rewrite !H by lia. Qed.


(** * Creation *)

(** a thread that is created starts at its function, with the whole of its stack, when it is
    first switched to. *)
Theorem create_starts func a i ta t s :
  find_index (λ t, th_state t =? FREE) (all_thread s) = Some i → all_thread s !! i = Some t →
  current_thread s = Some a → a ≠ i → all_thread s !! a = Some ta → is_u32 func →
  r_esp (ut_regs s) ≤ th_stack t ∨ th_stack t + STACK_SIZE ≤ r_esp (ut_regs s) - 32 →
  ∃ s1, thread_create func s = Done tt s1 ∧
    all_thread s1 = <[i := mkThread (th_stack t + STACK_SIZE - 36) (th_stack t) RUNNABLE]> (all_thread s) ∧
    ∃ s2, thread_switch (with_next (Some i) s1) = Done tt s2 ∧ current_thread s2 = Some i ∧
      r_eip (ut_regs s2) = func ∧ r_esp (ut_regs s2) = th_stack t + STACK_SIZE.
Proof.
  intros Hf Ht Hc Hne Ha Hu Hd. pose proof (lookup_lt_Some _ _ _ Ht) as Hlt. set (sp := th_stack t + STACK_SIZE - 4).
  set (tf := mkThread (th_stack t + STACK_SIZE - 36) (th_stack t) RUNNABLE).
  set (s1 := with_threads (<[i := tf]> (all_thread s)) (with_cpu (store32 (ut_mem s) sp func) (ut_regs s) s)).
  assert (E : thread_create func s = Done tt s1).
  { unfold thread_create. unfold bind at 1 2, gets. cbn [obind]. rewrite Hf. cbn [deref ret obind].
    erewrite bind_done by (by apply thread_at_ok). erewrite bind_done by done.
    erewrite bind_done by (by apply upd_thread_ok).
    rewrite (upd_thread_ok i (set_sp (th_stack t + STACK_SIZE - 4 - 32) t)) by (by apply list_lookup_insert_eq).
    unfold s1, with_threads. cbn. rewrite list_insert_insert_eq. unfold tf.
    by replace (th_stack t + STACK_SIZE - 36) with (th_stack t + STACK_SIZE - 4 - 32) by lia. }
  exists s1. split; [done|]. split; [done|].
  eexists. split; [apply (thread_switch_ok a i ta tf); try done; cbn|].
  - by rewrite list_lookup_insert_ne.
  - by apply list_lookup_insert_eq.
  - split; [done|]. cbn. split; [|lia]. replace (th_stack t + STACK_SIZE - 36 + 32) with sp by lia.
    rewrite pusha_other by (unfold sp; cbn; unfold STACK_SIZE in *; lia). rewrite load_store32_same. by apply u32_small.
Qed.

(** * Scheduling *)

(** The first runnable thread other than the current one, after [ultimo] in the order of the
    table. *)
Lemma pick_first ts u cur n i d t :
  (i ≤ d < i + n)%nat → (∀ k, is_Some (ts !! ((u + k) mod MAX_THREAD)%nat)) →
  ts !! ((u + d) mod MAX_THREAD)%nat = Some t → th_state t = RUNNABLE → cur ≠ Some ((u + d) mod MAX_THREAD)%nat →
  ∃ k tk, (i ≤ k ≤ d)%nat ∧ pick ts u cur i n = Some ((u + k) mod MAX_THREAD)%nat ∧
    ts !! ((u + k) mod MAX_THREAD)%nat = Some tk ∧ th_state tk = RUNNABLE ∧ cur ≠ Some ((u + k) mod MAX_THREAD)%nat.
Proof.
  intros Hd Hts Ht Hs Hcur. revert i Hd. induction n as [|n IH]; intros i Hd; [lia|]. cbn [pick].
  destruct (Hts i) as [ti Hi]. rewrite Hi. destruct ((th_state ti =? RUNNABLE) && negb (bool_decide (Some ((u + i) mod MAX_THREAD)%nat = cur))) eqn:E.
  - apply andb_true_iff in E as [E1 E2]. rewrite negb_true_iff, bool_decide_eq_false in E2. exists i, ti. split; [lia|].
    repeat (split; [done || lia|]). congruence.
  - assert (i ≠ d).
    { intros ->. rewrite Ht in Hi. injection Hi as <-. rewrite Hs in E. cbn in E. rewrite bool_decide_false in E by (intros E'; by apply Hcur). done. }
    destruct (IH (S i)) as (k & tk & Hk & Hr); [lia|]. exists k, tk. split; [lia|done].
Qed.

Lemma mod_wrap x : (8 ≤ x < 16)%nat → (x mod 8 = x - 8)%nat.
Proof. intros H. replace x with (x - 8 + 1 * 8)%nat at 1 by lia. rewrite Nat.Div0.mod_add, Nat.mod_small; lia. Qed.

(** The current thread is the last one that was chosen, and the table is whole. *)
Definition in_turn (s : ut) (c : nat) : Prop :=
  current_thread s = Some c ∧ ultimo_indice s = c ∧ (c < 8)%nat ∧ length (all_thread s) = 8%nat.

Lemma schedule_picks s c u k tk tc :
  current_thread s = Some c → all_thread s !! c = Some tc → all_thread s !! k = Some tk → k ≠ c →
  pick (all_thread s) (ultimo_indice s) (Some c) 1 7 = Some k → u = ultimo_indice s →
  ∃ s', thread_schedule s = Done tt s' ∧ current_thread s' = Some k ∧ ultimo_indice s' = k ∧
    all_thread s' = <[c := set_sp (r_esp (ut_regs s) - 32) tc]> (<[k := set_state RUNNING tk]> (all_thread s)).
Proof.
  intros Hc Htc Htk Hne Hp _. unfold thread_schedule. erewrite bind_done by done. unfold bind at 1 2 3, gets. cbn [obind].
  cbn [all_thread ultimo_indice current_thread with_next]. rewrite Hc. change (MAX_THREAD - 1)%nat with 7%nat. rewrite Hp.
  erewrite bind_done by done. unfold bind at 1. cbn [obind]. cbn [next_thread with_ultimo with_next].
  rewrite bool_decide_false by congruence. cbn [negb]. erewrite bind_done by (by apply upd_thread_ok).
  rewrite (thread_switch_ok c k tc (set_state RUNNING tk)); try done; cbn.
  - eexists. split; [reflexivity|]. done.
  - by rewrite list_lookup_insert_ne.
  - apply list_lookup_insert_eq. by apply lookup_lt_Some in Htk.
Qed.

Lemma yield_step s c j t :
  in_turn s c → all_thread s !! j = Some t → th_state t = RUNNABLE → j ≠ c →
  ∃ k s', (1 ≤ k ≤ (8 + j - c) mod 8)%nat ∧ thread_yield s = Done tt s' ∧ in_turn s' ((c + k) mod 8)%nat ∧
    (j ≠ (c + k) mod 8 → ∃ t', all_thread s' !! j = Some t' ∧ th_state t' = RUNNABLE)%nat.
Proof.
  intros (Hc & Hu & Hlt & Hlen) Hj Hs Hne. destruct (lookup_lt_is_Some_2 (all_thread s) c) as [tc Htc]; [lia|].
  pose proof (lookup_lt_Some _ _ _ Hj) as Hj8. unfold thread_yield, bind at 1, gets. cbn [obind]. rewrite Hc.
  erewrite bind_done by (by apply upd_thread_ok). set (s1 := with_threads _ s).
  set (d := ((8 + j - c) mod 8)%nat). assert (Hd : (1 ≤ d ≤ 7)%nat ∧ ((c + d) mod 8 = j)%nat).
  { unfold d. clear -Hlt Hj8 Hlen Hne. rewrite Hlen in Hj8. destruct (decide (j < c)%nat).
    - rewrite (Nat.mod_small (8 + j - c)) by lia. split; [lia|]. rewrite mod_wrap; lia.
    - rewrite (mod_wrap (8 + j - c)) by lia. split; [lia|]. rewrite Nat.mod_small; lia. }
  destruct Hd as [Hd Ej].
  destruct (pick_first (all_thread s1) c (Some c) 7 1 d t) as (k & tk & Hk & Ep & Htk & Hst & Hkc).
  - lia.
  - intros i. apply lookup_lt_is_Some. cbn [s1 all_thread with_threads]. rewrite length_insert, Hlen. by apply Nat.mod_upper_bound.
  - change MAX_THREAD with 8%nat. rewrite Ej. cbn [s1 all_thread with_threads]. by rewrite list_lookup_insert_ne.
  - done.
  - change MAX_THREAD with 8%nat. rewrite Ej. congruence.
  - change MAX_THREAD with 8%nat in *. set (k' := ((c + k) mod 8)%nat) in *. assert (Hk'c : k' ≠ c) by congruence.
    destruct (schedule_picks s1 c c k' tk (set_state RUNNABLE tc)) as (s' & E & H1 & H2 & H3); try done.
    { cbn. apply list_lookup_insert_eq. lia. }
    { cbn [s1 ultimo_indice with_threads]. by rewrite Hu. }
    exists k, s'. split; [done|]. split; [exact E|]. split.
    + split; [done|]. split; [done|]. split; [by apply Nat.mod_upper_bound|]. rewrite H3. cbn [s1 all_thread with_threads]. by rewrite !length_insert.
    + intros Hjk. exists t. split; [|done]. rewrite H3. cbn [s1 all_thread with_threads]. by rewrite !list_lookup_insert_ne.
Qed.

(** [n] calls of [thread_yield], one after another. *)
Fixpoint yields (n : nat) : U unit := match n with O => ret tt | S n' => thread_yield ;;; yields n' end.

Lemma turn_comes n s c j t :
  in_turn s c → all_thread s !! j = Some t → th_state t = RUNNABLE → j ≠ c → ((8 + j - c) mod 8 ≤ n)%nat →
  ∃ m s', (1 ≤ m ≤ n)%nat ∧ yields m s = Done tt s' ∧ current_thread s' = Some j.
Proof.
  revert s c t. induction n as [n IH] using lt_wf_ind. intros s c t Hin Hj Hs Hne Hn. pose proof Hin as (_ & _ & Hlt & Hlen).
  pose proof (lookup_lt_Some _ _ _ Hj) as Hj8. rewrite Hlen in Hj8.
  destruct (yield_step s c j t Hin Hj Hs Hne) as (k & s1 & Hk & E & Hin1 & Hrest).
  destruct (decide (j = (c + k) mod 8)%nat) as [->|Hjk].
  - exists 1%nat, s1. split; [lia|]. split; [cbn [yields]; by erewrite bind_done by exact E|apply Hin1].
  - destruct (Hrest Hjk) as (t' & Hj' & Hs').
    assert (Hdist : ((8 + j - (c + k) mod 8) mod 8 = (8 + j - c) mod 8 - k)%nat).
    { clear -Hk Hlt Hj8 Hjk. destruct (decide (j < c)%nat).
      - rewrite (Nat.mod_small (8 + j - c)) in * by lia. destruct (decide (c + k < 8)%nat).
        + rewrite (Nat.mod_small (c + k)) by lia. rewrite Nat.mod_small by lia. lia.
        + rewrite (mod_wrap (c + k)) in * by lia. rewrite mod_wrap by lia. lia.
      - rewrite (mod_wrap (8 + j - c)) in * by lia. rewrite (Nat.mod_small (c + k)) by lia. rewrite mod_wrap by lia. lia. }
    destruct (IH (n - k)%nat ltac:(lia) s1 ((c + k) mod 8)%nat t' Hin1 Hj' Hs' Hjk ltac:(lia)) as (m & s' & Hm & Em & Hcur).
    exists (S m), s'. split; [lia|]. split; [cbn [yields]; by erewrite bind_done by exact E|done].
Qed.

(** no thread waits for ever: when the threads give up the processor with [thread_yield], a
    thread that can run does so after at most seven calls. *)
Theorem yield_fair s c j t :
  in_turn s c → all_thread s !! j = Some t → th_state t = RUNNABLE → j ≠ c →
  ∃ m s', (1 ≤ m ≤ 7)%nat ∧ yields m s = Done tt s' ∧ current_thread s' = Some j.
Proof.
  intros Hin Hj Hs Hne. eapply turn_comes; [done..|]. pose proof (Nat.mod_upper_bound (8 + j - c) 8). lia.
Qed.

Lemma pick_none ts u cur n i :
  (∀ k t, (i ≤ k < i + n)%nat → ts !! ((u + k) mod MAX_THREAD)%nat = Some t →
     th_state t ≠ RUNNABLE ∨ cur = Some ((u + k) mod MAX_THREAD)%nat) → pick ts u cur i n = None.
Proof.
  revert i. induction n as [|n IH]; intros i H; [done|]. cbn [pick]. destruct (ts !! _) as [t|] eqn:Ht; [|done].
  rewrite IH.
  2: { intros k t' Hk. apply H. lia. }
  destruct (H i t) as [Hs|Hc]; [lia|done| |].
  - by rewrite (proj2 (Z.eqb_neq _ _)).
  - rewrite bool_decide_true by done. by rewrite andb_false_r.
Qed.

(** No thread is found: [main] goes on. *)
Lemma schedule_main s c t0 :
  current_thread s = Some c → pick (all_thread s) (ultimo_indice s) (Some c) 1 7 = None →
  all_thread s !! 0%nat = Some t0 → th_state t0 = RUNNING → is_Some (all_thread s !! c) →
  ∃ s', thread_schedule s = Done tt s' ∧ current_thread s' = Some 0%nat ∧ ultimo_indice s' = ultimo_indice s ∧
    (c = 0%nat → all_thread s' = all_thread s) ∧
    ∀ i t, all_thread s !! i = Some t → ∃ sp, all_thread s' !! i = Some (set_sp sp t).
Proof.
  intros Hc Hp H0 Hs [tc Htc]. unfold thread_schedule. erewrite bind_done by done. unfold bind at 1 2 3, gets. cbn [obind].
  cbn [all_thread ultimo_indice current_thread with_next]. rewrite Hc. change (MAX_THREAD - 1)%nat with 7%nat. rewrite Hp.
  erewrite bind_done.
  2: { erewrite bind_done by done. erewrite bind_done by (by apply thread_at_ok). rewrite Hs. reflexivity. }
  unfold bind at 1. cbn [obind next_thread with_next]. destruct (decide (c = 0%nat)) as [->|Hne].
  - rewrite bool_decide_true by done. cbn [negb]. eexists. split; [reflexivity|]. repeat (split; [done|]).
    intros i t Ht. exists (th_sp t). cbn. rewrite Ht. by destruct t.
  - rewrite bool_decide_false by congruence. cbn [negb]. erewrite bind_done by (by apply upd_thread_ok).
    assert (E0 : set_state RUNNING t0 = t0) by (destruct t0; cbn in *; by rewrite Hs). rewrite E0.
    change (all_thread (with_next (Some 0%nat) (with_next None s))) with (all_thread s). rewrite list_insert_id by done.
    rewrite (thread_switch_ok c 0 tc t0) by done. eexists. split; [reflexivity|]. repeat (split; [done|]).
    intros i t Ht. cbn. destruct (decide (c = i)) as [<-|].
    + rewrite Htc in Ht. injection Ht as <-. eexists. apply list_lookup_insert_eq. by apply lookup_lt_Some in Htc.
    + exists (th_sp t). rewrite list_lookup_insert_ne by done. rewrite Ht. by destruct t.
Qed.

Lemma other_slot c k : (c < 8)%nat → (1 ≤ k < 8)%nat → ((c + k) mod 8 ≠ c)%nat.
Proof.
  intros Hc Hk. destruct (decide (c + k < 8)%nat); [rewrite Nat.mod_small; lia|]. rewrite mod_wrap; lia.
Qed.

(** a thread that yields when no other thread can run does not go on: [main] does, as if the
    thread had ended, and the thread, although it can run, is not chosen again when [main]
    calls [thread_schedule]. *)
Theorem lone_yield_abandoned s c t0 tc :
  in_turn s c → c ≠ 0%nat → all_thread s !! 0%nat = Some t0 → all_thread s !! c = Some tc → th_state t0 = RUNNING →
  (∀ i t, i ≠ c → all_thread s !! i = Some t → th_state t ≠ RUNNABLE) →
  ∃ s1, thread_yield s = Done tt s1 ∧ current_thread s1 = Some 0%nat ∧
    (∃ t, all_thread s1 !! c = Some t ∧ th_state t = RUNNABLE) ∧
    ∃ s2, thread_schedule s1 = Done tt s2 ∧ current_thread s2 = Some 0%nat ∧ all_thread s2 = all_thread s1.
Proof.
  intros (Hc & Hu & Hlt & Hlen) Hc0 H0 Htc Hs0 Hoth. unfold thread_yield, bind at 1, gets. cbn [obind]. rewrite Hc.
  erewrite bind_done by (by apply upd_thread_ok). set (sa := with_threads _ s).
  assert (Hca : all_thread sa !! c = Some (set_state RUNNABLE tc)) by (apply list_lookup_insert_eq; by apply lookup_lt_Some in Htc).
  destruct (schedule_main sa c t0) as (s1 & E1 & Hc1 & Hu1 & _ & Hall1); try done.
  { apply pick_none. intros k t Hk. cbn [sa all_thread ultimo_indice with_threads]. rewrite Hu. change MAX_THREAD with 8%nat.
    pose proof (other_slot c k Hlt ltac:(lia)) as Hne. rewrite list_lookup_insert_ne by done. intros Ht. left. by apply (Hoth _ t Hne). }
  { cbn. by rewrite list_lookup_insert_ne. }
  exists s1. split; [exact E1|]. split; [done|]. destruct (Hall1 c _ Hca) as [sp Hsc]. split; [by eexists|].
  destruct (Hall1 0%nat t0) as [sp0 Hs1]; [cbn; by rewrite list_lookup_insert_ne|].
  destruct (schedule_main s1 0 (set_sp sp0 t0)) as (s2 & E2 & Hc2 & _ & Hsame & _); try done.
  - apply pick_none. intros k t Hk. rewrite Hu1. cbn [sa ultimo_indice with_threads]. rewrite Hu. change MAX_THREAD with 8%nat.
    pose proof (other_slot c k Hlt ltac:(lia)) as Hne. set (i := ((c + k) mod 8)%nat) in *. intros Ht. left.
    destruct (lookup_lt_is_Some_2 (all_thread s) i) as [ti Hti]; [rewrite Hlen; by apply Nat.mod_upper_bound|].
    destruct (Hall1 i ti) as [spi Hsi]; [cbn [sa all_thread with_threads]; by rewrite list_lookup_insert_ne|].
    rewrite Ht in Hsi. injection Hsi as ->. cbn. by apply (Hoth i).
  - exists s2. split; [exact E2|]. split; [done|by apply Hsame].
Qed.

(** * Examples *)

Definition demo_regs (esp : Z) : regs := mkRegs 1 2 3 4 esp 6 7 8 0x1000.
Definition demo_threads (states : list Z) : list thread :=
  imap (λ i v, mkThread (0x10000 * (Z.of_nat i + 1) + 4096) (0x10000 * (Z.of_nat i + 1)) v) states.
Definition demo_ut (states : list Z) (cur next : option nat) (u : nat) (esp : Z) : ut :=
  mkUt (demo_threads states) cur next u (λ _, 0) (demo_regs esp).


Lemma create_starts_witness :
  ∃ s1, thread_create 0x500 (demo_ut [1; 0; 0; 0; 0; 0; 0; 0] (Some 0%nat) None 0 0x11000) = Done tt s1.
Proof.
  destruct (create_starts 0x500 0 1 (mkThread 0x11000 0x10000 1) (mkThread 0x21000 0x20000 0)
    (demo_ut [1; 0; 0; 0; 0; 0; 0; 0] (Some 0%nat) None 0 0x11000)) as (s1 & E & _).
  - reflexivity.
  - reflexivity.
  - reflexivity.
  - discriminate.
  - reflexivity.
  - split; lia.
  - left. cbn. lia.
  - exists s1. exact E.
Defined.

Lemma yield_fair_witness :
  ∃ m s', (1 ≤ m ≤ 7)%nat ∧ yields m (demo_ut [1; 1; 2; 2; 0; 0; 0; 0] (Some 1%nat) None 1 0x21000) = Done tt s' ∧
    current_thread s' = Some 3%nat.
Proof.
  apply (yield_fair (demo_ut [1; 1; 2; 2; 0; 0; 0; 0] (Some 1%nat) None 1 0x21000) 1 3 (mkThread 0x41000 0x40000 2)).
  - repeat split; lia.
  - reflexivity.
  - reflexivity.
  - discriminate.
Defined.

Lemma lone_yield_abandoned_witness :
  ∃ s1, thread_yield (demo_ut [1; 1; 0; 0; 0; 0; 0; 0] (Some 1%nat) None 1 0x21000) = Done tt s1 ∧ current_thread s1 = Some 0%nat.
Proof.
  destruct (lone_yield_abandoned (demo_ut [1; 1; 0; 0; 0; 0; 0; 0] (Some 1%nat) None 1 0x21000) 1 (mkThread 0x11000 0x10000 1)
    (mkThread 0x21000 0x20000 1)) as (s1 & E & H & _).
  - repeat split; lia.
  - discriminate.
  - reflexivity.
  - reflexivity.
  - reflexivity.
  - intros i t Hi Ht. do 8 (destruct i as [|i]; [injection Ht as <-; discriminate|]). discriminate Ht.
  - exists s1. split; [exact E|exact H].
Defined.
