(* ===== verification/Sim.v ===== *)
(** The paging simulator of laboratory 7: lab-07/sim.c.

    The arrays of the program are lists, and an index outside of them has no meaning.
    The theorems say that the page tables and the frames always agree, that the two
    replacement algorithms of the program are the same one, and that a slot of the
    secondary storage is never used again. *)

From S2P Require Import Prelude State.

(** * Data *)

Definition VIRTUAL_MEMORY_SIZE : Z := 65536.
Definition PHYSICAL_MEMORY_SIZE : Z := 32768.
Definition PAGE_SIZE : Z := 4096.
Definition NUM_PAGES : Z := VIRTUAL_MEMORY_SIZE / PAGE_SIZE.
Definition NUM_FRAMES : Z := PHYSICAL_MEMORY_SIZE / PAGE_SIZE.
Definition SECONDARY_STORAGE_SIZE : Z := 65536.
Definition NUM_STORAGE_PAGES : Z := SECONDARY_STORAGE_SIZE / PAGE_SIZE.
Definition MAX_PROCESSES : Z := 256.

Record PageTableEntry := mkPTE { frame_number : Z; in_memory : Z; in_storage : Z }.
Abbreviation Process := (list PageTableEntry).
Record Frame := mkFrame { pid : Z; page_number : Z }.

Record sim := mkSim {
  processes : list Process;
  physical_memory : list Frame;
  secondary_storage : list Frame;
  fifo_queue : list Z;
  fifo_front : Z;
  fifo_rear : Z;
  lru_stack : list Z;
  lru_top : Z;
}.

Abbreviation M := (@prog sim).

(** [l[i]] and [l[i] = x]. *)
Definition ix (n : nat) (i : Z) : M nat :=
  if (0 <=? i) && (i <? Z.of_nat n) then ret (Z.to_nat i) else deref None.
Definition at_ {A} (l : sim → list A) (i : Z) : M A :=
  xs <- gets l ;; k <- ix (length xs) i ;; deref (xs !! k).

Definition set_physical (i : Z) (f : Frame) : M unit :=
  xs <- gets physical_memory ;; k <- ix (length xs) i ;;
  modify (λ s, mkSim (processes s) (<[k := f]> xs) (secondary_storage s) (fifo_queue s) (fifo_front s) (fifo_rear s)
    (lru_stack s) (lru_top s)).
Definition set_storage (i : Z) (f : Frame) : M unit :=
  xs <- gets secondary_storage ;; k <- ix (length xs) i ;;
  modify (λ s, mkSim (processes s) (physical_memory s) (<[k := f]> xs) (fifo_queue s) (fifo_front s) (fifo_rear s)
    (lru_stack s) (lru_top s)).
Definition set_fifo (i v : Z) : M unit :=
  xs <- gets fifo_queue ;; k <- ix (length xs) i ;;
  modify (λ s, mkSim (processes s) (physical_memory s) (secondary_storage s) (<[k := v]> xs) (fifo_front s) (fifo_rear s)
    (lru_stack s) (lru_top s)).
Definition set_front (v : Z) : M unit :=
  modify (λ s, mkSim (processes s) (physical_memory s) (secondary_storage s) (fifo_queue s) v (fifo_rear s)
    (lru_stack s) (lru_top s)).
Definition set_rear (v : Z) : M unit :=
  modify (λ s, mkSim (processes s) (physical_memory s) (secondary_storage s) (fifo_queue s) (fifo_front s) v
    (lru_stack s) (lru_top s)).
Definition set_lru (i v : Z) : M unit :=
  xs <- gets lru_stack ;; k <- ix (length xs) i ;;
  modify (λ s, mkSim (processes s) (physical_memory s) (secondary_storage s) (fifo_queue s) (fifo_front s) (fifo_rear s)
    (<[k := v]> xs) (lru_top s)).
Definition set_top (v : Z) : M unit :=
  modify (λ s, mkSim (processes s) (physical_memory s) (secondary_storage s) (fifo_queue s) (fifo_front s) (fifo_rear s)
    (lru_stack s) v).
(** [processes[pid].page_table[page] = e] *)
Definition set_entry (p page : Z) (e : PageTableEntry) : M unit :=
  xs <- gets processes ;; k <- ix (length xs) p ;; tab <- deref (xs !! k) ;; j <- ix (length tab) page ;;
  modify (λ s, mkSim (<[k := <[j := e]> tab]> xs) (physical_memory s) (secondary_storage s) (fifo_queue s) (fifo_front s)
    (fifo_rear s) (lru_stack s) (lru_top s)).
Definition entry_at (p page : Z) : M PageTableEntry :=
  tab <- at_ processes p ;; j <- ix (length tab) page ;; deref (tab !! j).

(** * The program *)

Definition no_frame : Frame := mkFrame (-1) (-1).
Definition no_entry : PageTableEntry := mkPTE (-1) 0 (-1).

Definition initialize : sim :=
  mkSim (replicate (Z.to_nat MAX_PROCESSES) (replicate (Z.to_nat NUM_PAGES) no_entry))
    (replicate (Z.to_nat NUM_FRAMES) no_frame) (replicate (Z.to_nat NUM_STORAGE_PAGES) no_frame)
    (replicate (Z.to_nat NUM_FRAMES) (-1)) 0 0 (replicate (Z.to_nat NUM_FRAMES) (-1)) (-1).

Definition is_free (f : Frame) : bool := pid f =? -1.
Definition find_free_frame : M Z :=
  xs <- gets physical_memory ;;
  ret (match find_index is_free xs with Some i => Z.of_nat i | None => -1 end).
Definition find_free_storage : M Z :=
  xs <- gets secondary_storage ;;
  ret (match find_index is_free xs with Some i => Z.of_nat i | None => -1 end).

(** The part the two algorithms share, from the search for a slot in the storage on. *)
Definition swap (frame_to_replace p page : Z) : M unit :=
  storage_index <- find_free_storage ;;
  if storage_index =? -1 then panic "Error: No space in secondary storage" else
  old <- at_ physical_memory frame_to_replace ;;
  set_storage storage_index (mkFrame (pid old) (page_number old)) ;;;
  set_entry (pid old) (page_number old) (mkPTE (-1) 0 storage_index) ;;;
  set_physical frame_to_replace (mkFrame p page) ;;;
  set_entry p page (mkPTE frame_to_replace 1 (-1)).

Definition fifo_replace (p page : Z) : M unit :=
  front <- gets fifo_front ;;
  frame_to_replace <- at_ fifo_queue front ;;
  set_front ((front + 1) mod NUM_FRAMES) ;;;
  swap frame_to_replace p page ;;;
  rear <- gets fifo_rear ;;
  set_fifo rear frame_to_replace ;;;
  set_rear ((rear + 1) mod NUM_FRAMES).

(** [for(i = 1; i <= lru_top; i++) lru_stack[i - 1] = lru_stack[i]] *)
Definition lru_shift : M unit :=
  top <- gets lru_top ;;
  for_each (seqZ 1 top) (λ i, x <- at_ lru_stack i ;; set_lru (i - 1) x).

Definition lru_replace (p page : Z) : M unit :=
  frame_to_replace <- at_ lru_stack 0 ;;
  lru_shift ;;;
  top <- gets lru_top ;;
  set_top (top - 1) ;;;
  swap frame_to_replace p page ;;;
  top <- gets lru_top ;;
  set_top (top + 1) ;;;
  set_lru (top + 1) frame_to_replace.

Inductive algorithm := Fifo | Lru.

Definition allocate_page (a : algorithm) (p page : Z) : M unit :=
  e <- entry_at p page ;;
  if negb (in_memory e =? 0) then ret tt else
  free_frame <- find_free_frame ;;
  if negb (free_frame =? -1) then
    set_physical free_frame (mkFrame p page) ;;;
    set_entry p page (mkPTE free_frame 1 (-1)) ;;;
    match a with
    | Fifo =>
        rear <- gets fifo_rear ;;
        set_fifo rear free_frame ;;;
        set_rear ((rear + 1) mod NUM_FRAMES)
    | Lru =>
        top <- gets lru_top ;;
        set_top (top + 1) ;;;
        set_lru (top + 1) free_frame
    end
  else
    match a with
    | Fifo => fifo_replace p page
    | Lru => lru_replace p page
    end.

(** The loop of [main] over the pairs of its input. *)
Definition main_loop (a : algorithm) (reqs : list (Z * Z)) : M unit :=
  for_each reqs (λ r, allocate_page a (fst r) (snd r)).

(** * First in, first out *)

(** The page tables, the frames and the storage, and the frames in use, oldest first. *)
Record core := mkCore { c_procs : list Process; c_phys : list Frame; c_stor : list Frame; c_queue : list nat }.

Definition entry (ps : list Process) (p page : nat) : option PageTableEntry := tab ← ps !! p; tab !! page.
Definition upd_entry (ps : list Process) (p page : nat) (e : PageTableEntry) : list Process := alter (λ tab, <[page := e]> tab) p ps.
Definition loaded (f : nat) : PageTableEntry := mkPTE (Z.of_nat f) 1 (-1).
Definition swapped (k : nat) : PageTableEntry := mkPTE (-1) 0 (Z.of_nat k).

(** Page [page] of process [p] is asked for; [None] when the storage is full. *)
Definition fifo_step (c : core) (p page : nat) : option core :=
  e ← entry (c_procs c) p page;
  if negb (in_memory e =? 0) then Some c else
  match find_index is_free (c_phys c) with
  | Some f => Some (mkCore (upd_entry (c_procs c) p page (loaded f)) (<[f := mkFrame (Z.of_nat p) (Z.of_nat page)]> (c_phys c))
      (c_stor c) (c_queue c ++ [f]))
  | None =>
      k ← find_index is_free (c_stor c);
      f ← head (c_queue c);
      old ← c_phys c !! f;
      Some (mkCore
        (upd_entry (upd_entry (c_procs c) (Z.to_nat (pid old)) (Z.to_nat (page_number old)) (swapped k)) p page (loaded f))
        (<[f := mkFrame (Z.of_nat p) (Z.of_nat page)]> (c_phys c)) (<[k := old]> (c_stor c)) (tail (c_queue c) ++ [f]))
  end.

(** The page tables and the frames agree. *)
Record good (c : core) : Prop := mkGood {
  g_procs : length (c_procs c) = 256%nat;
  g_pages : Forall (λ tab : Process, length tab = 16%nat) (c_procs c);
  g_phys : length (c_phys c) = 8%nat;
  g_stor : length (c_stor c) = 16%nat;
  g_nodup : NoDup (c_queue c);
  g_queue : ∀ f, f ∈ c_queue c ↔ ∃ fr, c_phys c !! f = Some fr ∧ pid fr ≠ -1;
  g_frames : ∀ f fr, c_phys c !! f = Some fr → pid fr ≠ -1 →
    ∃ p page, fr = mkFrame (Z.of_nat p) (Z.of_nat page) ∧ entry (c_procs c) p page = Some (loaded f);
  g_entries : ∀ p page e, entry (c_procs c) p page = Some e → in_memory e ≠ 0 →
    ∃ f, e = loaded f ∧ c_phys c !! f = Some (mkFrame (Z.of_nat p) (Z.of_nat page));
}.

Lemma entry_upd ps p page e q pg :
  entry (upd_entry ps p page e) q pg =
    if decide (p = q ∧ page = pg) then (λ _, e) <$> entry ps q pg else entry ps q pg.
Proof.
  unfold entry, upd_entry. rewrite list_lookup_alter. destruct (decide (p = q)) as [<-|Hp].
  - destruct (ps !! p) as [tab|]; [|by destruct (decide _)].
    cbn [mbind option_bind fmap option_fmap option_map]. rewrite list_lookup_insert.
    destruct (decide (page = pg ∧ _)) as [[<- Hlt]|Hn].
    + rewrite decide_True by done. apply lookup_lt_is_Some in Hlt as [x ->]. done.
    + destruct (decide (p = p ∧ page = pg)) as [[_ <-]|]; [|done]. rewrite lookup_ge_None_2; [done|]. 
      destruct (decide (page < length tab)%nat); [tauto|lia].
  - rewrite decide_False by tauto. done.
Qed.

Lemma upd_entry_lengths ps p page e n :
  length (upd_entry ps p page e) = length ps ∧
  (Forall (λ tab : Process, length tab = n) ps → Forall (λ tab : Process, length tab = n) (upd_entry ps p page e)).
Proof.
  split; [apply length_alter|]. intros HF. apply Forall_alter; [done|]. intros tab _ Ht. by rewrite length_insert.
Qed.

(** An entry changes to or from memory with its frame. *)
Lemma queue_full c : good c → find_index is_free (c_phys c) = None → ∃ f q, c_queue c = f :: q ∧ length q = 7%nat.
Proof.
  intros G Hf. rewrite find_index_None in Hf.
  assert (Hall : ∀ f, (f < 8)%nat → f ∈ c_queue c).
  { intros f Hlt. rewrite <-(g_phys _ G) in Hlt. apply lookup_lt_is_Some in Hlt as [fr Hfr]. apply (g_queue _ G). exists fr.
    split; [done|]. specialize (Hf f fr Hfr). unfold is_free in Hf. lia. }
  assert (Hlen : length (c_queue c) = 8%nat).
  { assert (Hp : c_queue c ≡ₚ seq 0 8).
    { apply NoDup_Permutation; [apply G|apply NoDup_seq|]. intros f. rewrite elem_of_seq. split.
      - intros (fr & Hfr & _)%(g_queue _ G). apply lookup_lt_Some in Hfr. rewrite (g_phys _ G) in Hfr. lia.
      - intros H. apply Hall. lia. }
    by rewrite Hp. }
  destruct (c_queue c) as [|f q]; [done|]. exists f, q. split; [done|]. cbn in Hlen. lia.
Qed.

Lemma entry_valid c p page :
  good c → (p < 256)%nat → (page < 16)%nat → is_Some (entry (c_procs c) p page).
Proof.
  intros G Hp Hpg. unfold entry. rewrite <-(g_procs _ G) in Hp. apply lookup_lt_is_Some in Hp as [tab Ht]. rewrite Ht. cbn.
  pose proof (g_pages _ G) as HF. rewrite Forall_lookup in HF. specialize (HF p tab Ht). apply lookup_lt_is_Some. lia.
Qed.

(** A page that is not in memory is loaded into a frame that no page uses. *)
Lemma good_load ps phys stor q p page f e fr0 :
  length ps = 256%nat → Forall (λ tab : Process, length tab = 16%nat) ps → length phys = 8%nat → length stor = 16%nat →
  NoDup q → (∀ g, g ∈ q ↔ g ≠ f ∧ ∃ fr, phys !! g = Some fr ∧ pid fr ≠ -1) → phys !! f = Some fr0 →
  (∀ g fr, g ≠ f → phys !! g = Some fr → pid fr ≠ -1 →
     ∃ p page, fr = mkFrame (Z.of_nat p) (Z.of_nat page) ∧ entry ps p page = Some (loaded g)) →
  (∀ p page e, entry ps p page = Some e → in_memory e ≠ 0 →
     ∃ g, g ≠ f ∧ e = loaded g ∧ phys !! g = Some (mkFrame (Z.of_nat p) (Z.of_nat page))) →
  entry ps p page = Some e → in_memory e = 0 →
  good (mkCore (upd_entry ps p page (loaded f)) (<[f := mkFrame (Z.of_nat p) (Z.of_nat page)]> phys) stor (q ++ [f])).
Proof.
  intros H1 H2 H3 H4 Hnd Hq Hf Hfr Hen He Hm. assert (Hlt : (f < length phys)%nat) by (by apply lookup_lt_Some in Hf).
  assert (Hfq : f ∉ q) by (intros H; apply Hq in H as [H _]; done).
  destruct (upd_entry_lengths ps p page (loaded f) 16) as [L1 L2]. constructor; cbn.
  - by rewrite L1.
  - by apply L2.
  - by rewrite length_insert.
  - done.
  - apply NoDup_app. split; [done|]. split; [|apply NoDup_singleton]. intros g Hg ->%list_elem_of_singleton. done.
  - intros g. rewrite elem_of_app, list_elem_of_singleton, Hq, list_lookup_insert.
    destruct (decide (f = g ∧ _)) as [[<- _]|Hn].
    + split; [intros _; eexists; split; [done|cbn; lia]|by right].
    + assert (Hg : f ≠ g) by naive_solver. split; [intros [[_ H]| ->]; [done|done]|]. intros H. left. split; [done|exact H].
  - intros g fr. rewrite list_lookup_insert. destruct (decide (f = g ∧ _)) as [[<- _]|Hn].
    + intros [= <-] _. exists p, page. split; [done|]. rewrite entry_upd, decide_True by done. by rewrite He.
    + assert (Hg : g ≠ f) by naive_solver. intros Hgr Hpid. destruct (Hfr g fr Hg Hgr Hpid) as (p' & pg' & -> & He').
      exists p', pg'. split; [done|]. rewrite entry_upd, decide_False; [done|]. intros [<- <-]. rewrite He in He'. injection He' as ->. done.
  - intros p' pg' e'. rewrite entry_upd. destruct (decide (p = p' ∧ page = pg')) as [[<- <-]|Hn].
    + rewrite He. cbn. intros [= <-] _. exists f. split; [done|]. by apply list_lookup_insert_eq.
    + intros He' Hm'. destruct (Hen p' pg' e' He' Hm') as (g & Hg & -> & Hgr). exists g. split; [done|].
      by rewrite list_lookup_insert_ne.
Qed.

Lemma fifo_step_good c p page c' :
  good c → (p < 256)%nat → (page < 16)%nat → fifo_step c p page = Some c' → good c'.
Proof.
  intros G Hp Hpg. unfold fifo_step. destruct (entry_valid c p page G Hp Hpg) as [e He]. rewrite He. cbn [mbind option_bind].
  destruct (Z.eqb_spec (in_memory e) 0) as [Hm|Hm]; cbn [negb]; [|by intros [= <-]].
  destruct (find_index is_free (c_phys c)) as [f|] eqn:Hff.
  - intros [= <-]. apply find_index_Some in Hff as [(fr & Hfr & Hfree) _]. unfold is_free in Hfree.
    eapply good_load; try apply G; try done.
    + intros g. rewrite (g_queue _ G). split; [|by intros [_ ?]]. intros (fr' & Hfr' & Hpid). split; [|by exists fr'].
      intros ->. rewrite Hfr in Hfr'. injection Hfr' as <-. lia.
    + intros g fr' _. apply (g_frames _ G).
    + intros p' pg' e' He' Hm'. destruct (g_entries _ G _ _ _ He' Hm') as (g & -> & Hg). exists g. split; [|done].
      intros ->. rewrite Hfr in Hg. injection Hg as ->. cbn in Hfree. lia.
  - destruct (queue_full c G Hff) as (f & q & Hq & Hlen). rewrite Hq. cbn [head tail].
    destruct (find_index is_free (c_stor c)) as [k|] eqn:Hk; [|done]. cbn [mbind option_bind].
    assert (Hfq : f ∈ c_queue c) by (rewrite Hq; by left).
    apply (g_queue _ G) in Hfq as (old & Hold & Hpid). rewrite Hold. cbn. intros [= <-].
    destruct (g_frames _ G f old Hold Hpid) as (po & pgo & -> & Heo). cbn. rewrite !Nat2Z.id.
    pose proof (g_nodup _ G) as Hnd. rewrite Hq in Hnd. apply NoDup_cons in Hnd as [Hnf Hnd].
    destruct (upd_entry_lengths (c_procs c) po pgo (swapped k) 16) as [L1 L2].
    assert (Hne : ¬ (po = p ∧ pgo = page)) by (intros [<- <-]; rewrite Heo in He; injection He as <-; done).
    eapply good_load; try apply G; try done.
    + rewrite L1. apply G.
    + apply L2, G.
    + by rewrite length_insert, (g_stor _ G).
    + intros g. split.
      * intros Hg. split; [by intros ->|]. apply (g_queue _ G). rewrite Hq. by right.
      * intros [Hg H]. apply (g_queue _ G) in H. rewrite Hq in H. by apply elem_of_cons in H as [->|H].
    + intros g fr Hg Hfr Hp'. destruct (g_frames _ G g fr Hfr Hp') as (p' & pg' & -> & He'). exists p', pg'. split; [done|].
      rewrite entry_upd, decide_False; [done|]. intros [<- <-]. rewrite Heo in He'. injection He' as E. lia.
    + intros p' pg' e'. rewrite entry_upd. destruct (decide (po = p' ∧ pgo = pg')) as [[<- <-]|Hn].
      * rewrite Heo. cbn. by intros [= <-].
      * intros He' Hm'. destruct (g_entries _ G _ _ _ He' Hm') as (g & -> & Hg). exists g. split; [|done].
        intros ->. rewrite Hold in Hg. injection Hg as E1 E2. apply Hn. lia.
    + by rewrite entry_upd, decide_False.
Qed.

(** * The program is first in, first out *)

(** How the algorithms hold the queue: as a ring from [fifo_front] to [fifo_rear], or as the
    bottom of the stack. *)
Definition queue_in (a : algorithm) (s : sim) (q : list nat) : Prop :=
  match a with
  | Fifo => length (fifo_queue s) = 8%nat ∧ ∃ front, (front < 8)%nat ∧ fifo_front s = Z.of_nat front ∧
      fifo_rear s = Z.of_nat ((front + length q) mod 8) ∧
      ∀ i f, q !! i = Some f → fifo_queue s !! ((front + i) mod 8)%nat = Some (Z.of_nat f)
  | Lru => length (lru_stack s) = 8%nat ∧ lru_top s = Z.of_nat (length q) - 1 ∧
      take (length q) (lru_stack s) = Z.of_nat <$> q
  end.

Definition rep (a : algorithm) (s : sim) (c : core) : Prop :=
  processes s = c_procs c ∧ physical_memory s = c_phys c ∧ secondary_storage s = c_stor c ∧ queue_in a s (c_queue c).

Lemma ix_ok n k s : (k < n)%nat → ix n (Z.of_nat k) s = Done k s.
Proof. intros H. unfold ix. rewrite (proj2 (andb_true_iff _ _)) by lia. by rewrite Nat2Z.id. Qed.

Lemma at_ok {A} (l : sim → list A) k x s : l s !! k = Some x → at_ l (Z.of_nat k) s = Done x s.
Proof.
  intros H. unfold at_, bind at 1, gets. cbn [obind]. erewrite bind_done by (apply ix_ok; by apply lookup_lt_Some in H). by rewrite H.
Qed.

Definition with_core (ps : list Process) (ph st : list Frame) (s : sim) : sim :=
  mkSim ps ph st (fifo_queue s) (fifo_front s) (fifo_rear s) (lru_stack s) (lru_top s).

Lemma set_physical_ok k x f s :
  physical_memory s !! k = Some x →
  set_physical (Z.of_nat k) f s = Done tt (with_core (processes s) (<[k := f]> (physical_memory s)) (secondary_storage s) s).
Proof.
  intros H. unfold set_physical, bind at 1, gets. cbn [obind]. by erewrite bind_done by (apply ix_ok; by apply lookup_lt_Some in H).
Qed.

Lemma set_storage_ok k x f s :
  secondary_storage s !! k = Some x →
  set_storage (Z.of_nat k) f s = Done tt (with_core (processes s) (physical_memory s) (<[k := f]> (secondary_storage s)) s).
Proof.
  intros H. unfold set_storage, bind at 1, gets. cbn [obind]. by erewrite bind_done by (apply ix_ok; by apply lookup_lt_Some in H).
Qed.

Lemma entry_at_ok p page e s : entry (processes s) p page = Some e → entry_at (Z.of_nat p) (Z.of_nat page) s = Done e s.
Proof.
  unfold entry. intros (tab & Ht & He)%bind_Some. unfold entry_at. erewrite bind_done by (by apply at_ok).
  erewrite bind_done by (apply ix_ok; by apply lookup_lt_Some in He). by rewrite He.
Qed.

Lemma set_entry_ok p page e e' s :
  entry (processes s) p page = Some e →
  set_entry (Z.of_nat p) (Z.of_nat page) e' s =
    Done tt (with_core (upd_entry (processes s) p page e') (physical_memory s) (secondary_storage s) s).
Proof.
  unfold entry. intros (tab & Ht & He)%bind_Some. unfold set_entry, bind at 1, gets. cbn [obind].
  erewrite bind_done by (apply ix_ok; by apply lookup_lt_Some in Ht). unfold bind at 1. rewrite Ht. cbn [deref ret obind].
  erewrite bind_done by (apply ix_ok; by apply lookup_lt_Some in He). unfold modify, with_core, upd_entry. do 2 f_equal.
  apply list_eq. intros i. rewrite list_lookup_alter, list_lookup_insert. destruct (decide (p = i)) as [<-|].
  - rewrite decide_True by (split; [done|by apply lookup_lt_Some in Ht]). by rewrite Ht.
  - by rewrite decide_False by tauto.
Qed.

(** [swap] does what a step of the queue does to the tables. *)
Lemma swap_ok c f q k po pgo p page e s :
  good c → processes s = c_procs c → physical_memory s = c_phys c → secondary_storage s = c_stor c →
  c_queue c = f :: q → c_phys c !! f = Some (mkFrame (Z.of_nat po) (Z.of_nat pgo)) → entry (c_procs c) po pgo = Some (loaded f) →
  entry (c_procs c) p page = Some e → in_memory e = 0 → find_index is_free (c_stor c) = Some k →
  swap (Z.of_nat f) (Z.of_nat p) (Z.of_nat page) s =
    Done tt (with_core (upd_entry (upd_entry (c_procs c) po pgo (swapped k)) p page (loaded f))
      (<[f := mkFrame (Z.of_nat p) (Z.of_nat page)]> (c_phys c)) (<[k := mkFrame (Z.of_nat po) (Z.of_nat pgo)]> (c_stor c)) s).
Proof.
  intros G E1 E2 E3 Hq Hf Heo He Hm Hk. unfold swap, find_free_storage. unfold bind at 1 2, gets. cbn [obind ret]. rewrite E3, Hk. cbn [obind].
  rewrite (proj2 (Z.eqb_neq _ _)) by lia. erewrite bind_done by (apply at_ok; by rewrite E2).
  apply find_index_Some in Hk as [(fr & Hfr & _) _].
  erewrite bind_done by (eapply set_storage_ok; by rewrite E3). cbn [pid page_number].
  erewrite bind_done by (eapply set_entry_ok; cbn; by rewrite E1).
  erewrite bind_done by (eapply set_physical_ok; cbn; by rewrite E2).
  rewrite (set_entry_ok p page e); cbn.
  - by rewrite E1, E2, E3.
  - rewrite E1, entry_upd, decide_False; [done|]. intros [<- <-]. rewrite Heo in He. by injection He as <-.
Qed.

(** The tables of two states are the same. *)
Definition same_core (s s' : sim) : Prop :=
  processes s' = processes s ∧ physical_memory s' = physical_memory s ∧ secondary_storage s' = secondary_storage s.

(** To add a frame at the end of the queue. *)
Definition push (a : algorithm) (f : Z) : M unit :=
  match a with
  | Fifo => rear <- gets fifo_rear ;; set_fifo rear f ;;; set_rear ((rear + 1) mod NUM_FRAMES)
  | Lru => top <- gets lru_top ;; set_top (top + 1) ;;; set_lru (top + 1) f
  end.

(** To take the first. *)
Definition pop (a : algorithm) : M Z :=
  match a with
  | Fifo => front <- gets fifo_front ;; f <- at_ fifo_queue front ;; set_front ((front + 1) mod NUM_FRAMES) ;;; ret f
  | Lru => f <- at_ lru_stack 0 ;; lru_shift ;;; top <- gets lru_top ;; set_top (top - 1) ;;; ret f
  end.

Lemma fifo_push_ok s q f :
  queue_in Fifo s q → (length q < 8)%nat →
  ∃ s', push Fifo (Z.of_nat f) s = Done tt s' ∧ same_core s s' ∧ queue_in Fifo s' (q ++ [f]).
Proof.
  intros (Hl & front & Hf & Ef & Er & Hq) Hlen. set (r := ((front + length q) mod 8)%nat) in *.
  assert (Hr : (r < 8)%nat) by (by apply Nat.mod_upper_bound).
  unfold push, bind at 1, gets. cbn [obind]. unfold set_fifo. rewrite Er. unfold bind at 1 2, gets. cbn [obind].
  unfold bind at 1. rewrite ix_ok by lia. cbn [obind modify]. eexists. split; [reflexivity|]. split; [done|].
  split; [cbn; by rewrite length_insert|]. exists front. split; [done|]. split; [done|]. split.
  - cbn [fifo_rear]. change NUM_FRAMES with 8. rewrite length_app. cbn [length]. unfold r.
    rewrite Nat2Z.inj_mod, Nat2Z.inj_mod. clear. zdiv.
  - cbn [fifo_queue]. intros i g Hi. rewrite lookup_app in Hi. rewrite list_lookup_insert.
    destruct (q !! i) as [g'|] eqn:Hqi.
    + injection Hi as ->. pose proof (lookup_lt_Some _ _ _ Hqi). rewrite decide_False; [by apply Hq|]. intros [E _].
      unfold r in E. apply (f_equal Z.of_nat) in E. rewrite !Nat2Z.inj_mod in E. clear -E H Hlen Hf. zdiv.
    + apply lookup_ge_None in Hqi. destruct (i - length q)%nat as [|j] eqn:Ei; [|done]. cbn in Hi. injection Hi as <-.
      rewrite decide_True; [done|]. unfold r. replace i with (length q) by lia. split; [done|]. unfold r in Hr. lia.
Qed.

Lemma fifo_pop_ok s q f :
  queue_in Fifo s (f :: q) →
  ∃ s', pop Fifo s = Done (Z.of_nat f) s' ∧ same_core s s' ∧ queue_in Fifo s' q.
Proof.
  intros (Hl & front & Hf & Ef & Er & Hq). unfold pop, bind at 1, gets. cbn [obind]. rewrite Ef.
  pose proof (Hq 0%nat f eq_refl) as H0. rewrite Nat.add_0_r, Nat.mod_small in H0 by done.
  erewrite bind_done by (by apply at_ok). eexists. split; [reflexivity|]. split; [done|]. split; [done|].
  exists (S front mod 8)%nat. split; [by apply Nat.mod_upper_bound|]. split; [|split].
  - cbn [set_front modify fifo_front]. change NUM_FRAMES with 8. rewrite Nat2Z.inj_mod. f_equal. lia.
  - cbn [fifo_rear]. rewrite Er. cbn [length]. clear. f_equal. rewrite Nat.Div0.add_mod_idemp_l. f_equal. lia.
  - cbn [fifo_queue]. intros i g Hi. rewrite Nat.Div0.add_mod_idemp_l. replace (S front + i)%nat with (front + S i)%nat by lia. by apply Hq.
Qed.

Lemma lru_push_ok s q f :
  queue_in Lru s q → (length q < 8)%nat →
  ∃ s', push Lru (Z.of_nat f) s = Done tt s' ∧ same_core s s' ∧ queue_in Lru s' (q ++ [f]).
Proof.
  intros (Hl & Et & Hq) Hlen. unfold push, bind at 1, gets. cbn [obind]. erewrite bind_done by done.
  unfold set_lru, bind at 1, gets. cbn [obind lru_stack]. rewrite Et.
  replace (Z.of_nat (length q) - 1 + 1) with (Z.of_nat (length q)) by lia.
  erewrite bind_done by (apply ix_ok; lia). eexists. split; [reflexivity|]. split; [done|].
  split; [cbn; by rewrite length_insert|]. cbn. rewrite length_app. split; [cbn; lia|].
  rewrite Nat.add_1_r, fmap_app, <-Hq. cbn. erewrite take_S_r; [|apply list_lookup_insert_eq; lia].
  by rewrite take_insert_ge by lia.
Qed.

(** [n] turns of the loop from [i] on. *)
Lemma lru_shift_ok n i s :
  length (lru_stack s) = 8%nat → (0 < i)%nat → (i + n ≤ 8)%nat →
  ∃ l, for_each (seqZ (Z.of_nat i) (Z.of_nat n)) (λ i, x <- at_ lru_stack i ;; set_lru (i - 1) x) s =
      Done tt (mkSim (processes s) (physical_memory s) (secondary_storage s) (fifo_queue s) (fifo_front s) (fifo_rear s) l (lru_top s)) ∧
    length l = 8%nat ∧ ∀ k, l !! k = if decide (i - 1 ≤ k < i - 1 + n)%nat then lru_stack s !! S k else lru_stack s !! k.
Proof.
  revert i s. induction n as [|n IH]; intros i s Hl Hi Hn.
  - exists (lru_stack s). split; [cbn; by destruct s|]. split; [done|]. intros k. by rewrite decide_False by lia.
  - rewrite seqZ_cons by lia. cbn [for_each].
    destruct (lookup_lt_is_Some_2 (lru_stack s) i) as [x Hx]; [lia|].
    erewrite bind_done.
    2: { erewrite bind_done by (by apply at_ok). unfold set_lru, bind at 1, gets. cbn [obind].
         replace (Z.of_nat i - 1) with (Z.of_nat (i - 1)) by lia. erewrite bind_done by (apply ix_ok; lia). reflexivity. }
    replace (Z.succ (Z.of_nat i)) with (Z.of_nat (S i)) by lia. replace (Z.pred (Z.of_nat (S n))) with (Z.of_nat n) by lia.
    set (s1 := mkSim _ _ _ _ _ _ _ _).
    destruct (IH (S i) s1) as (l & E & Hll & Hk); [cbn; by rewrite length_insert|lia|lia|]. exists l. split; [exact E|]. split; [done|].
    intros k. rewrite Hk. cbn [lru_stack s1]. rewrite !list_lookup_insert.
    destruct (decide (i - 1 = k)%nat) as [<-|].
    + rewrite decide_False by lia. rewrite decide_True by lia. rewrite decide_True by lia. replace (S (i - 1)) with i by lia. done.
    + destruct (decide (S i - 1 ≤ k < S i - 1 + n)%nat).
      * rewrite !decide_False by lia. rewrite decide_True by lia. done.
      * rewrite !decide_False by lia. done.
Qed.

Lemma lru_pop_ok s q f :
  queue_in Lru s (f :: q) → (length q < 8)%nat →
  ∃ s', pop Lru s = Done (Z.of_nat f) s' ∧ same_core s s' ∧ queue_in Lru s' q.
Proof.
  intros (Hl & Et & Hq) Hlen. cbn [length] in *.
  assert (H0 : lru_stack s !! 0%nat = Some (Z.of_nat f)).
  { rewrite <-(lookup_take_lt _ (S (length q)) 0) by lia. by rewrite Hq. }
  unfold pop. erewrite bind_done by (by apply (at_ok lru_stack 0)).
  unfold lru_shift. unfold bind at 1 2, gets. cbn [obind]. rewrite Et.
  replace (Z.of_nat (S (length q)) - 1) with (Z.of_nat (length q)) by lia.
  destruct (lru_shift_ok (length q) 1 s) as (l & E & Hll & Hk); [done|lia| |].
  { assert (length (take (S (length q)) (lru_stack s)) = S (length q)) as H by (by rewrite Hq, length_fmap).
    rewrite length_take in H. lia. }
  change (Z.of_nat 1) with 1 in E. rewrite E. cbn [obind]. eexists. split; [reflexivity|]. split; [done|]. cbn. split; [done|]. split; [lia|].
  apply list_eq. intros k. destruct (decide (k < length q)%nat) as [Hkq|Hkq].
  - rewrite lookup_take_lt by done. rewrite Hk, decide_True by lia. rewrite <-(lookup_take_lt _ (S (length q)) (S k)) by lia. rewrite Hq. done.
  - rewrite lookup_take_ge by lia. rewrite lookup_ge_None_2; [done|]. rewrite length_fmap. lia.
Qed.

(** The replacements take a frame from the queue and put it back at its end. *)
Lemma replace_ok a p page s f s1 s2 s3 :
  pop a s = Done f s1 → swap f p page s1 = Done tt s2 → push a f s2 = Done tt s3 →
  match a with Fifo => fifo_replace p page | Lru => lru_replace p page end s = Done tt s3.
Proof.
  intros E1 E2 E3. destruct a; cbn [pop push] in *.
  - unfold bind at 1, gets in E1. cbn [obind] in E1. unfold fifo_replace. unfold bind at 1, gets. cbn [obind].
    unfold bind at 1 in E1. unfold bind at 1. destruct (at_ fifo_queue (fifo_front s) s) as [g s'|m|s' k|]; try done. cbn [obind] in *.
    injection E1 as -> <-. erewrite bind_done by done. erewrite bind_done by exact E2. exact E3.
  - unfold lru_replace. unfold bind at 1 in E1. unfold bind at 1.
    destruct (at_ lru_stack 0 s) as [g s'|m|s' k|]; try done. cbn [obind] in *.
    unfold bind at 1 in E1. unfold bind at 1. destruct (lru_shift s') as [[] s4|m|s4 k|]; try done. cbn [obind] in *.
    injection E1 as -> <-. unfold bind at 1, gets. cbn [obind]. erewrite bind_done by done. erewrite bind_done by exact E2. exact E3.
Qed.

Lemma replace_full a p page s f s1 m :
  pop a s = Done f s1 → swap f p page s1 = Panicked m →
  match a with Fifo => fifo_replace p page | Lru => lru_replace p page end s = Panicked m.
Proof.
  intros E1 E2. destruct a; cbn [pop] in *.
  - unfold bind at 1, gets in E1. cbn [obind] in E1. unfold fifo_replace. unfold bind at 1, gets. cbn [obind].
    unfold bind at 1 in E1. unfold bind at 1. destruct (at_ fifo_queue (fifo_front s) s) as [g s'|m'|s' k|]; try done. cbn [obind] in *.
    injection E1 as -> <-. erewrite bind_done by done. unfold bind. by rewrite E2.
  - unfold lru_replace. unfold bind at 1 in E1. unfold bind at 1.
    destruct (at_ lru_stack 0 s) as [g s'|m'|s' k|]; try done. cbn [obind] in *.
    unfold bind at 1 in E1. unfold bind at 1. destruct (lru_shift s') as [[] s4|m'|s4 k|]; try done. cbn [obind] in *.
    injection E1 as -> <-. unfold bind at 1, gets. cbn [obind]. erewrite bind_done by done. unfold bind. by rewrite E2.
Qed.

Lemma push_ok a s q f :
  queue_in a s q → (length q < 8)%nat → ∃ s', push a (Z.of_nat f) s = Done tt s' ∧ same_core s s' ∧ queue_in a s' (q ++ [f]).
Proof. destruct a; [apply fifo_push_ok|apply lru_push_ok]. Qed.

Lemma pop_ok a s q f :
  queue_in a s (f :: q) → (length q < 8)%nat → ∃ s', pop a s = Done (Z.of_nat f) s' ∧ same_core s s' ∧ queue_in a s' q.
Proof. destruct a; [intros H _; by apply fifo_pop_ok|apply lru_pop_ok]. Qed.

Lemma queue_in_core a s q ps ph st : queue_in a s q → queue_in a (with_core ps ph st s) q.
Proof. by destruct a. Qed.

Lemma queue_short c f fr : good c → c_phys c !! f = Some fr → pid fr = -1 → (length (c_queue c) < 8)%nat.
Proof.
  intros G Hfr Hpid. assert (Hnd : NoDup (f :: c_queue c)).
  { apply NoDup_cons. split; [|apply G]. intros (fr' & Hfr' & Hp)%(g_queue _ G). rewrite Hfr in Hfr'. injection Hfr' as <-. done. }
  assert (Hsub : f :: c_queue c ⊆+ seq 0 8).
  { apply NoDup_submseteq; [done|]. intros g Hg. apply elem_of_seq. rewrite <-(g_phys _ G).
    apply elem_of_cons in Hg as [->|(fr' & Hfr' & _)%(g_queue _ G)].
    - apply lookup_lt_Some in Hfr. lia.
    - apply lookup_lt_Some in Hfr'. lia. }
  apply submseteq_length in Hsub. cbn in Hsub. lia.
Qed.

(** Both algorithms make the step of a queue. *)
Lemma allocate_page_ok a s c p page :
  good c → rep a s c → (p < 256)%nat → (page < 16)%nat →
  match fifo_step c p page with
  | Some c' => ∃ s', allocate_page a (Z.of_nat p) (Z.of_nat page) s = Done tt s' ∧ rep a s' c'
  | None => allocate_page a (Z.of_nat p) (Z.of_nat page) s = Panicked "Error: No space in secondary storage"
  end.
Proof.
  intros G (E1 & E2 & E3 & HQ) Hp Hpg. destruct (entry_valid c p page G Hp Hpg) as [e He].
  remember (allocate_page a (Z.of_nat p) (Z.of_nat page) s) as o eqn:Eo. unfold allocate_page in Eo.
  erewrite bind_done in Eo by (apply entry_at_ok; rewrite E1; exact He).
  unfold fifo_step. rewrite He. cbn [mbind option_bind].
  destruct (Z.eqb_spec (in_memory e) 0) as [Hm|Hm]; cbn [negb] in *; [|by exists s].
  unfold bind at 1, find_free_frame, bind at 1, gets in Eo. cbn [obind ret] in Eo. rewrite E2 in Eo.
  destruct (find_index is_free (c_phys c)) as [f|] eqn:Hff; cbn [obind] in Eo.
  - rewrite (proj2 (Z.eqb_neq (Z.of_nat f) (-1))) in Eo by lia. cbn [negb] in Eo.
    pose proof Hff as Hff'. apply find_index_Some in Hff' as [(fr & Hfr & Hfree) _].
    erewrite bind_done in Eo by (eapply set_physical_ok; by rewrite E2).
    erewrite bind_done in Eo by (eapply set_entry_ok; cbn; rewrite E1; exact He).
    rewrite E2, E3 in Eo. cbn [processes physical_memory secondary_storage with_core] in Eo. rewrite E1 in Eo.
    set (s1 := with_core _ _ _ (with_core _ _ _ s)) in Eo.
    destruct (push_ok a s1 (c_queue c) f) as (s' & E & (S1 & S2 & S3) & HQ').
    { by apply queue_in_core, queue_in_core. }
    { eapply queue_short; [done..|]. unfold is_free in Hfree. lia. }
    exists s'. split; [rewrite Eo; destruct a; exact E|]. split; [by rewrite S1|]. split; [by rewrite S2|]. split; [by rewrite S3|done].
  - destruct (queue_full c G Hff) as (f & q & Hq & Hlen). rewrite Hq in *. cbn [head tail].
    destruct (pop_ok a s q f HQ ltac:(lia)) as (s1 & Ep & (S1 & S2 & S3) & HQ1).
    assert (Hfq : f ∈ c_queue c) by (rewrite Hq; by left).
    apply (g_queue _ G) in Hfq as (old & Hold & Hpid). destruct (g_frames _ G f old Hold Hpid) as (po & pgo & -> & Heo).
    destruct (find_index is_free (c_stor c)) as [k|] eqn:Hk; cbn [mbind option_bind].
    + rewrite Hold. cbn [mbind option_bind pid page_number]. rewrite !Nat2Z.id.
      pose proof (swap_ok c f q k po pgo p page e s1 G) as Hsw. rewrite S1, S2, S3 in Hsw. specialize (Hsw E1 E2 E3 Hq Hold Heo He Hm Hk).
      set (s2 := with_core _ _ _ s1) in Hsw.
      destruct (push_ok a s2 q f) as (s' & E & (T1 & T2 & T3) & HQ'); [by apply queue_in_core|lia|].
      exists s'. split; [rewrite Eo; by eapply (replace_ok a _ _ s)|]. split; [by rewrite T1|]. split; [by rewrite T2|]. split; [by rewrite T3|done].
    + rewrite Eo. eapply replace_full; [exact Ep|]. unfold swap, find_free_storage, bind at 1 2, gets. cbn [obind ret].
      rewrite S3, E3, Hk. done.
Qed.

(** The whole input. *)
Fixpoint fifo_run (c : core) (reqs : list (nat * nat)) : option core :=
  match reqs with
  | [] => Some c
  | (p, page) :: reqs' => c' ← fifo_step c p page; fifo_run c' reqs'
  end.

Definition as_input (reqs : list (nat * nat)) : list (Z * Z) := (λ r, (Z.of_nat (fst r), Z.of_nat (snd r))) <$> reqs.
Definition in_range (reqs : list (nat * nat)) : Prop := Forall (λ r, (fst r < 256)%nat ∧ (snd r < 16)%nat) reqs.

Lemma main_loop_ok a s c reqs :
  good c → rep a s c → in_range reqs →
  match fifo_run c reqs with
  | Some c' => ∃ s', main_loop a (as_input reqs) s = Done tt s' ∧ rep a s' c' ∧ good c'
  | None => main_loop a (as_input reqs) s = Panicked "Error: No space in secondary storage"
  end.
Proof.
  intros G HR HF. revert s c G HR. induction HF as [|[p page] reqs [Hp Hpg] HF IH]; intros s c G HR.
  - by exists s.
  - cbn [fifo_run as_input fmap list_fmap]. unfold main_loop. cbn [for_each fst snd].
    pose proof (allocate_page_ok a s c p page G HR Hp Hpg) as H. pose proof (fifo_step_good c p page) as HG.
    destruct (fifo_step c p page) as [c'|]; cbn [mbind option_bind].
    + destruct H as (s' & E & HR'). specialize (IH s' c' (HG c' G Hp Hpg eq_refl) HR').
      destruct (fifo_run c' reqs) as [c2|].
      * destruct IH as (s2 & E2 & H2). exists s2. split; [|done]. erewrite bind_done by exact E. exact E2.
      * erewrite bind_done by exact E. exact IH.
    + unfold bind. by rewrite H.
Qed.

Definition start : core := mkCore (processes initialize) (physical_memory initialize) (secondary_storage initialize) [].

Lemma start_free f fr : c_phys start !! f = Some fr → pid fr = -1.
Proof. intros H. apply lookup_replicate in H as [-> _]. done. Qed.

Lemma start_good : good start.
Proof.
  constructor; try done.
  - by apply Forall_replicate.
  - constructor.
  - intros f. split; [by intros H%elem_of_nil|]. intros (fr & Hfr & Hp). by apply start_free in Hfr.
  - intros f fr Hfr Hp. by apply start_free in Hfr.
  - intros p page e He Hm. apply bind_Some in He as (tab & Ht & He). apply lookup_replicate in Ht as [-> _].
    by apply lookup_replicate in He as [-> _].
Qed.

Lemma start_rep a : rep a initialize start.
Proof.
  repeat (split; [done|]). destruct a; cbn.
  - split; [done|]. exists 0%nat. split; [lia|]. done.
  - done.
Qed.


(** [-l] and [-f] are the same algorithm: on the same input the tables, the frames and the
    storage are the same in the end, or both stop.  A page that is in memory when it is asked
    for is not moved in [lru_stack]. *)
Theorem lru_is_fifo reqs :
  in_range reqs →
  match main_loop Lru (as_input reqs) initialize, main_loop Fifo (as_input reqs) initialize with
  | Done _ s, Done _ s' => same_core s s'
  | Panicked m, Panicked m' => m = m'
  | _, _ => False
  end.
Proof.
  intros H. pose proof (main_loop_ok Lru initialize start reqs start_good (start_rep Lru) H) as H1.
  pose proof (main_loop_ok Fifo initialize start reqs start_good (start_rep Fifo) H) as H2.
  destruct (fifo_run start reqs) as [c|]; [|by rewrite H1, H2].
  destruct H1 as (s1 & E1 & (A1 & A2 & A3 & _) & _), H2 as (s2 & E2 & (B1 & B2 & B3 & _) & _). rewrite E1, E2.
  unfold same_core. by rewrite A1, A2, A3.
Qed.

(** * The storage *)

(** The slots in use. *)
Definition used (c : core) : nat := length (filter (λ f, is_free f = false) (c_stor c)).

(** A request for a page that is not in memory. *)
Definition fault (c : core) (p page : nat) : bool :=
  match entry (c_procs c) p page with Some e => in_memory e =? 0 | None => false end.

Fixpoint faults (c : core) (reqs : list (nat * nat)) : nat :=
  match reqs with
  | [] => 0
  | (p, page) :: reqs' =>
      ((if fault c p page then 1 else 0) + match fifo_step c p page with Some c' => faults c' reqs' | None => 0 end)%nat
  end.

Lemma used_insert (l : list Frame) k fr old :
  l !! k = Some fr → is_free fr = true → is_free old = false →
  length (filter (λ f, is_free f = false) (<[k := old]> l)) = S (length (filter (λ f, is_free f = false) l)).
Proof.
  revert k. induction l as [|f l IH]; intros [|k] Hk Hf Ho; try done.
  - injection Hk as ->. change (<[0%nat := old]> (fr :: l)) with (old :: l). rewrite !filter_cons. rewrite decide_True by done. by rewrite decide_False by congruence.
  - change (<[S k := old]> (f :: l)) with (f :: <[k := old]> l). rewrite !filter_cons. specialize (IH k Hk Hf Ho).
    case_decide; cbn; by rewrite IH.
Qed.

Lemma fifo_step_count c p page c' :
  good c → (p < 256)%nat → (page < 16)%nat → fifo_step c p page = Some c' →
  (length (c_queue c') + used c' = length (c_queue c) + used c + if fault c p page then 1 else 0)%nat.
Proof.
  intros G Hp Hpg. unfold fifo_step, fault. destruct (entry_valid c p page G Hp Hpg) as [e He]. rewrite He. cbn [mbind option_bind].
  destruct (in_memory e =? 0); cbn [negb]; [|intros [= <-]; lia].
  destruct (find_index is_free (c_phys c)) as [f|] eqn:Hff.
  - intros [= <-]. unfold used. cbn. rewrite length_app. cbn. lia.
  - destruct (queue_full c G Hff) as (f & q & Hq & Hlen). rewrite Hq. cbn [head tail].
    destruct (find_index is_free (c_stor c)) as [k|] eqn:Hk; [|done]. cbn [mbind option_bind].
    assert (Hfq : f ∈ c_queue c) by (rewrite Hq; by left).
    apply (g_queue _ G) in Hfq as (old & Hold & Hpid). rewrite Hold. cbn [mbind option_bind]. intros [= <-].
    apply find_index_Some in Hk as [(fr & Hfr & Hfree) _].
    unfold used. cbn [c_queue c_stor]. rewrite (used_insert _ k fr); [|done|done|unfold is_free; lia]. rewrite length_app. cbn. lia.
Qed.

(** a page that comes back from the storage leaves its slot in use, so that the simulator
    can serve 24 faults and no more, however few the pages are. *)
Theorem faults_bounded reqs c :
  in_range reqs → fifo_run start reqs = Some c → (faults start reqs ≤ 24)%nat.
Proof.
  assert (Hgen : ∀ reqs c0, in_range reqs → good c0 → fifo_run c0 reqs = Some c →
    (length (c_queue c0) + used c0 + faults c0 reqs = length (c_queue c) + used c)%nat ∧ good c).
  { clear reqs. intros reqs c0 HF. revert c0. induction HF as [|[p page] reqs [Hp Hpg] HF IH]; intros c0 G H.
    - injection H as <-. cbn. split; [lia|done].
    - cbn [fifo_run faults] in *. apply bind_Some in H as (c1 & E1 & H). rewrite E1. cbn [fst snd] in *.
      pose proof (fifo_step_count c0 p page c1 G Hp Hpg E1) as Hc. destruct (IH c1 (fifo_step_good _ _ _ _ G Hp Hpg E1) H) as [Hi Hg].
      split; [lia|done]. }
  intros HF H. destruct (Hgen reqs start HF start_good H) as [Hc G]. change (length (c_queue start) + used start)%nat with 0%nat in Hc.
  assert (Hu : (used c ≤ 16)%nat) by (rewrite <-(g_stor _ G); apply length_filter).
  assert (Hq : (length (c_queue c) ≤ 8)%nat).
  { assert (Hsub : c_queue c ⊆+ seq 0 8).
    { apply NoDup_submseteq; [apply G|]. intros f (fr & Hfr & _)%(g_queue _ G). apply elem_of_seq. rewrite <-(g_phys _ G).
      apply lookup_lt_Some in Hfr. lia. }
    apply submseteq_length in Hsub. exact Hsub. }
  lia.
Qed.

(** * Examples *)

(** Nine pages, in turn. *)
Definition nine (n : nat) : list (nat * nat) := (λ i, (0, i mod 9)%nat) <$> seq 0 n.


Lemma lru_is_fifo_witness :
  match main_loop Lru (as_input (nine 20)) initialize, main_loop Fifo (as_input (nine 20)) initialize with
  | Done _ s, Done _ s' => same_core s s'
  | _, _ => False
  end.
Proof.
  pose proof (lru_is_fifo (nine 20)) as H. vm_compute in H |- *. apply H. repeat constructor.
Defined.

Lemma faults_bounded_witness : (faults start (nine 24) ≤ 24)%nat ∧ fifo_run start (nine 25) = None.
Proof.
  split; [|reflexivity]. destruct (fifo_run start (nine 24)) as [c|] eqn:E; [|vm_compute in E; discriminate E].
  apply (faults_bounded (nine 24) c); [|exact E]. repeat constructor.
Defined.
