(* ===== verification/Grep.v ===== *)
(** The program grep: grep.c.

    The matcher works on the bytes of the pattern and of a line, without the
    final zero.  A pattern denotes a regular language ([lang] of [items]);
    [match_finds] says that the matcher decides whether some part of the line
    is in it.  [grep] reads through a system call that is a parameter. *)

From S2P Require Import Prelude.

Definition CARET : Z := 94.
Definition DOLLAR : Z := 36.
Definition DOT : Z := 46.
Definition STAR : Z := 42.
Definition NL : Z := 10.

(** * The matcher *)

(** [matchstar], for the continuation [here] = [matchhere re]. *)
Fixpoint matchstar (here : list Z → bool) (c : Z) (text : list Z) : bool :=
  here text ||
  match text with
  | [] => false
  | t :: text' => if (t =? c) || (c =? DOT) then matchstar here c text' else false
  end.

Fixpoint matchhere (re : list Z) (text : list Z) : bool :=
  match re with
  | [] => true
  | c :: re1 =>
      let plain :=
        match text with
        | [] => false
        | t :: text' => if (c =? DOT) || (c =? t) then matchhere re1 text' else false
        end in
      match re1 with
      | d :: re2 => if d =? STAR then matchstar (matchhere re2) c text else plain
      | [] => if c =? DOLLAR then match text with [] => true | _ => false end else plain
      end
  end.

(** The [do] loop of [match]. *)
Fixpoint match_from (re text : list Z) : bool :=
  matchhere re text ||
  match text with
  | [] => false
  | _ :: text' => match_from re text'
  end.

Definition match_ (re text : list Z) : bool :=
  match re with
  | c :: re' => if c =? CARET then matchhere re' text else match_from re text
  | [] => match_from re text
  end.

(** * Files *)

(** [strchr(p, '\n')]: the line and what follows it. *)
Fixpoint line_end (p : list Z) : option (list Z * list Z) :=
  match p with
  | [] => None
  | c :: p' => if c =? NL then Some ([], p') else prod_map (cons c) id <$> line_end p'
  end.

(** The inner loop of [grep] on the bytes of the buffer: the lines written, and
    what is left from [p] on.  Each turn takes a byte. *)
Fixpoint grep_scan (fuel : nat) (re p : list Z) : list (list Z) * list Z :=
  match fuel with
  | O => ([], p)
  | S fuel' =>
      match line_end p with
      | None => ([], p)
      | Some (line, rest) =>
          let (out, left) := grep_scan fuel' re rest in
          (if match_ re line then (line ++ [NL]) :: out else out, left)
      end
  end.

(** The size of [buf]. *)
Definition BUFSIZE : nat := 1024.

Section grep.
Context {R : Type} (read : nat → R → list Z * R).

(** The outer loop; [buf] holds the [m] bytes kept from the last turn.  The
    result is what is written to descriptor 1, or [None] if [fuel] reads are
    not enough. *)
Fixpoint grep (fuel : nat) (re buf : list Z) (r : R) : option (list (list Z)) :=
  match fuel with
  | O => None
  | S fuel' =>
      let (chunk, r) := read (BUFSIZE - length buf - 1) r in
      match chunk with
      | [] => Some []
      | _ =>
          let b := buf ++ chunk in
          let (out, p) := grep_scan (S (length b)) re b in
          let buf := if (length p =? length b)%nat then [] else p in
          app out <$> grep fuel' re buf r
      end
  end.
End grep.

(** * What a pattern means *)

(** A character class, and the pieces of a pattern. *)
Inductive atom := Chr (c : Z) | Any.
Inductive item := One (a : atom) | Many (a : atom).

Definition atom_of (c : Z) : atom := if c =? DOT then Any else Chr c.
Definition sat (a : atom) (x : Z) : Prop := match a with Chr c => x = c | Any => True end.

(** The words a sequence of pieces describes. *)
Fixpoint lang (its : list item) (w : list Z) : Prop :=
  match its with
  | [] => w = []
  | One a :: its' => ∃ x w', w = x :: w' ∧ sat a x ∧ lang its' w'
  | Many a :: its' => ∃ u v, w = u ++ v ∧ Forall (sat a) u ∧ lang its' v
  end.

(** The pieces of a pattern, and whether it ends with an anchor. *)
Fixpoint items (re : list Z) : list item * bool :=
  match re with
  | [] => ([], false)
  | c :: re1 =>
      match re1 with
      | d :: re2 =>
          if d =? STAR then let (i, b) := items re2 in (Many (atom_of c) :: i, b)
          else let (i, b) := items re1 in (One (atom_of c) :: i, b)
      | [] => if c =? DOLLAR then ([], true) else ([One (atom_of c)], false)
      end
  end.

(** A part of [text] from its start on is described by [its]. *)
Definition prefix_in (its : list item) (anchored : bool) (text : list Z) : Prop :=
  ∃ mid post, text = mid ++ post ∧ lang its mid ∧ (anchored = true → post = []).

Lemma sat_atom c t : ((t =? c) || (c =? DOT)) = true ↔ sat (atom_of c) t.
Proof.
  unfold atom_of. destruct (Z.eqb_spec c DOT) as [->|H]; simpl.
  - rewrite orb_true_r. done.
  - rewrite orb_false_r. lia.
Qed.

(** ** One step of each kind *)

Lemma prefix_nil text : prefix_in [] false text.
Proof. by exists [], text. Qed.

Lemma prefix_end text : prefix_in [] true text ↔ text = [].
Proof.
  split.
  - intros (mid & post & -> & Hm & Hp). simpl in Hm. subst mid. by apply Hp.
  - intros ->. by exists [], [].
Qed.

Lemma prefix_one a its b t text :
  prefix_in (One a :: its) b (t :: text) ↔ sat a t ∧ prefix_in its b text.
Proof.
  split.
  - intros (mid & post & E & (x & w & -> & Hs & Hl) & Hp). injection E as -> ->.
    split; [done|]. by exists w, post.
  - intros [Hs (mid & post & -> & Hl & Hp)]. exists (t :: mid), post. split; [done|].
    split; [|done]. by exists t, mid.
Qed.

Lemma prefix_one_nil a its b : ¬ prefix_in (One a :: its) b [].
Proof. intros (mid & post & E & (x & w & -> & _) & _). discriminate. Qed.

Lemma prefix_many_nil a its b : prefix_in (Many a :: its) b [] ↔ prefix_in its b [].
Proof.
  split.
  - intros (mid & post & E & (u & v & -> & _ & Hl) & Hp). symmetry in E.
    apply app_nil in E as [E ->]. apply app_nil in E as [-> ->]. by exists [], [].
  - intros (mid & post & E & Hl & Hp). exists mid, post. split; [done|]. split; [|done]. by exists [], mid.
Qed.

Lemma prefix_many a its b t text :
  prefix_in (Many a :: its) b (t :: text) ↔
    prefix_in its b (t :: text) ∨ sat a t ∧ prefix_in (Many a :: its) b text.
Proof.
  split.
  - intros (mid & post & E & (u & v & -> & Hu & Hl) & Hp). destruct u as [|x u].
    + left. by exists v, post.
    + right. injection E as -> ->. apply Forall_cons in Hu as [Hx Hu]. split; [done|].
      exists (u ++ v), post. split; [done|]. split; [|done]. by exists u, v.
  - intros [(mid & post & E & Hl & Hp)|[Hs (mid & post & -> & (u & v & -> & Hu & Hl) & Hp)]].
    + exists mid, post. split; [done|]. split; [|done]. by exists [], mid.
    + exists (t :: u ++ v), post. split; [done|]. split; [|done]. exists (t :: u), v. split; [done|]. split; [by constructor|done].
Qed.

Lemma matchstar_spec (here : list Z → bool) its b c :
  (∀ text, here text = true ↔ prefix_in its b text) →
  ∀ text, matchstar here c text = true ↔ prefix_in (Many (atom_of c) :: its) b text.
Proof.
  intros Hh text. induction text as [|t text IH]; simpl; rewrite orb_true_iff, Hh.
  - rewrite prefix_many_nil. naive_solver.
  - rewrite prefix_many, <-sat_atom, <-IH. destruct ((t =? c) || (c =? DOT)); naive_solver.
Qed.

(** A plain character, when the rest of the pattern is understood. *)
Lemma plain_spec re its b c text :
  (∀ text, matchhere re text = true ↔ prefix_in its b text) →
  match text with
  | [] => false
  | t :: text' => if (c =? DOT) || (c =? t) then matchhere re text' else false
  end = true ↔ prefix_in (One (atom_of c) :: its) b text.
Proof.
  intros H. destruct text as [|t text].
  - split; [done|]. by intros ?%prefix_one_nil.
  - rewrite prefix_one, <-sat_atom, <-H, (orb_comm (c =? DOT)), (Z.eqb_sym c t).
    destruct ((t =? c) || (c =? DOT)); naive_solver.
Qed.

Lemma matchhere_spec n : ∀ re text, (length re ≤ n)%nat →
  matchhere re text = true ↔ prefix_in (fst (items re)) (snd (items re)) text.
Proof.
  induction n as [|n IH]; intros re text Hlen.
  { destruct re; [|simpl in Hlen; lia]. simpl. pose proof (prefix_nil text). naive_solver. }
  destruct re as [|c [|d re2]].
  - simpl. pose proof (prefix_nil text). naive_solver.
  - cbn [matchhere items]. destruct (c =? DOLLAR); cbn [fst snd].
    + rewrite prefix_end. by destruct text.
    + apply (plain_spec [] [] false). intros t. simpl. pose proof (prefix_nil t). naive_solver.
  - cbn [matchhere items]. simpl in Hlen. destruct (d =? STAR).
    + destruct (items re2) as [i b] eqn:E. cbn [fst snd]. apply matchstar_spec.
      intros t. rewrite (IH re2) by lia. by rewrite E.
    + change (match re2 with
              | [] => if d =? DOLLAR then ([], true) else ([One (atom_of d)], false)
              | d0 :: re3 =>
                  if d0 =? STAR then let (i, b) := items re3 in (Many (atom_of d) :: i, b)
                  else let (i, b) := items re2 in (One (atom_of d) :: i, b)
              end) with (items (d :: re2)).
      destruct (items (d :: re2)) as [i b] eqn:E. cbn [fst snd]. apply (plain_spec (d :: re2) i b c text).
      intros t. rewrite (IH (d :: re2)) by (simpl; lia). by rewrite E.
Qed.

(** Some part of [text] is described by the pattern [re]. *)
Definition found (re text : list Z) : Prop :=
  let start := match re with c :: _ => c =? CARET | [] => false end in
  let body := if start then drop 1 re else re in
  ∃ pre mid post, text = pre ++ mid ++ post ∧ lang (fst (items body)) mid ∧
    (start = true → pre = []) ∧ (snd (items body) = true → post = []).

Lemma match_from_spec re text :
  match_from re text = true ↔ ∃ pre rest, text = pre ++ rest ∧ matchhere re rest = true.
Proof.
  induction text as [|t text IH]; simpl; rewrite orb_true_iff.
  - split.
    + intros [H|H]; [|done]. by exists [], [].
    + intros (pre & rest & E & H). symmetry in E. apply app_nil in E as [-> ->]. by left.
  - rewrite IH. split.
    + intros [H|(pre & rest & -> & H)]; [by exists [], (t :: text)|by exists (t :: pre), rest].
    + intros ([|x pre] & rest & E & H); simpl in E; [left; by subst|]. injection E as -> ->.
      right. by exists pre, rest.
Qed.

(** C34: The matcher is correct: [match] answers yes exactly when some part of
    the line (from its start on if the pattern begins with a caret, up to its
    end if it ends with a dollar) is a word of the language the pattern
    describes, in which a dot is any character and a star any number of the
    character before it. *)
Theorem match_finds re text : match_ re text = true ↔ found re text.
Proof.
  assert (Hstart : ∀ body, matchhere body text = true ↔ ∃ pre mid post, text = pre ++ mid ++ post ∧
    lang (fst (items body)) mid ∧ (true = true → pre = []) ∧ (snd (items body) = true → post = [])).
  { intros body. rewrite (matchhere_spec (length body)) by lia. split.
    - intros (mid & post & -> & Hl & Hp). by exists [], mid, post.
    - intros (pre & mid & post & -> & Hl & Hpre & Hp). rewrite (Hpre eq_refl). by exists mid, post. }
  assert (Hany : ∀ body, match_from body text = true ↔ ∃ pre mid post, text = pre ++ mid ++ post ∧
    lang (fst (items body)) mid ∧ (false = true → pre = []) ∧ (snd (items body) = true → post = [])).
  { intros body. rewrite match_from_spec. split.
    - intros (pre & rest & -> & H). rewrite (matchhere_spec (length body)) in H by lia.
      destruct H as (mid & post & -> & Hl & Hp). by exists pre, mid, post.
    - intros (pre & mid & post & -> & Hl & _ & Hp). exists pre, (mid ++ post). split; [done|].
      rewrite (matchhere_spec (length body)) by lia. by exists mid, post. }
  unfold match_, found. destruct re as [|c re]; [apply Hany|].
  destruct (c =? CARET); [apply Hstart|apply Hany].
Qed.

(** * Whole files *)

(** A regular file as the system call reads it. *)
Definition read_file (n : nat) (data : list Z) : list Z * list Z := (take n data, drop n data).

(** Lines of text, each with its newline. *)
Definition is_line (l : list Z) : Prop := NL ∉ l.
#[global] Instance is_line_dec l : Decision (is_line l).
Proof. unfold is_line. apply _. Defined.
Definition text_of (ls : list (list Z)) : list Z := mjoin ((λ l, l ++ [NL]) <$> ls).

Lemma line_end_line l rest : is_line l → line_end (l ++ NL :: rest) = Some (l, rest).
Proof.
  induction l as [|c l IH]; intros H; simpl.
  - done.
  - apply not_elem_of_cons in H as [Hc H]. rewrite (proj2 (Z.eqb_neq c NL)) by congruence.
    by rewrite IH.
Qed.

Lemma line_end_none l : is_line l → line_end l = None.
Proof.
  induction l as [|c l IH]; intros H; simpl; [done|]. apply not_elem_of_cons in H as [Hc H].
  rewrite (proj2 (Z.eqb_neq c NL)) by congruence. by rewrite IH.
Qed.

(** The lines of a buffer, the last one incomplete. *)
Lemma grep_scan_spec re ls tail : ∀ fuel,
  Forall is_line ls → is_line tail → (length ls < fuel)%nat →
  grep_scan fuel re (text_of ls ++ tail) =
    ((λ l, l ++ [NL]) <$> filter (λ l, match_ re l = true) ls, tail).
Proof.
  induction ls as [|l ls IH]; intros fuel Hls Ht Hf; (destruct fuel as [|fuel]; [simpl in Hf; lia|]).
  - cbn [grep_scan]. change (text_of [] ++ tail) with tail. by rewrite line_end_none.
  - apply Forall_cons in Hls as [Hl Hls]. cbn [grep_scan].
    replace (text_of (l :: ls) ++ tail) with (l ++ NL :: text_of ls ++ tail)
      by (unfold text_of; rewrite fmap_cons; simpl; by rewrite <-!app_assoc).
    rewrite line_end_line by done. rewrite IH by (try done; simpl in Hf; lia).
    rewrite filter_cons. destruct (match_ re l) eqn:E; by rewrite ?decide_True, ?decide_False by done.
Qed.

Lemma length_text_of ls : (length ls ≤ length (text_of ls))%nat.
Proof.
  induction ls as [|l ls IH]; [done|]. unfold text_of in *. rewrite fmap_cons. simpl.
  rewrite !length_app. simpl. lia.
Qed.

(** Any bytes are complete lines and an incomplete one. *)
Lemma split_lines b : ∃ ls tail, b = text_of ls ++ tail ∧ Forall is_line ls ∧ is_line tail.
Proof.
  induction b as [|c b (ls & tail & -> & Hls & Ht)].
  - exists [], []. split; [done|]. split; [done|apply not_elem_of_nil].
  - destruct (decide (c = NL)) as [->|Hc].
    + exists ([] :: ls), tail. split; [done|]. split; [|done]. constructor; [apply not_elem_of_nil|done].
    + destruct ls as [|l ls].
      * exists [], (c :: tail). split; [done|]. split; [done|]. by apply not_elem_of_cons.
      * apply Forall_cons in Hls as [Hl Hls]. exists ((c :: l) :: ls), tail. split; [done|].
        split; [|done]. constructor; [|done]. by apply not_elem_of_cons.
Qed.

Lemma text_of_app ls ls' : text_of (ls ++ ls') = text_of ls ++ text_of ls'.
Proof. unfold text_of. by rewrite fmap_app, join_app. Qed.

Lemma text_of_cons l ls : text_of (l :: ls) = l ++ NL :: text_of ls.
Proof. unfold text_of. rewrite fmap_cons. simpl. by rewrite <-app_assoc. Qed.

(** Where the first newline is, the first line ends. *)
Lemma line_unique l l' r r' : is_line l → is_line l' → l ++ NL :: r = l' ++ NL :: r' → l = l' ∧ r = r'.
Proof.
  intros Hl Hl' E. pose proof (line_end_line l r Hl) as E1. rewrite E, line_end_line in E1 by done.
  by injection E1 as -> ->.
Qed.

(** The complete lines of a first part are the first lines of the whole. *)
Lemma split_prefix ls1 : ∀ tail1 rest ls tail,
  Forall is_line ls1 → is_line tail1 → Forall is_line ls → is_line tail →
  text_of ls1 ++ tail1 ++ rest = text_of ls ++ tail →
  ∃ ls2, ls = ls1 ++ ls2 ∧ tail1 ++ rest = text_of ls2 ++ tail.
Proof.
  induction ls1 as [|l ls1 IH]; intros tail1 rest ls tail Hls1 Ht1 Hls Ht E.
  { by exists ls. }
  apply Forall_cons in Hls1 as [Hl Hls1]. rewrite text_of_cons, <-app_assoc in E. simpl in E.
  destruct ls as [|l' ls].
  - exfalso. simpl in E. apply Ht. rewrite <-E. set_solver.
  - apply Forall_cons in Hls as [Hl' Hls]. rewrite text_of_cons, <-app_assoc in E. simpl in E.
    apply line_unique in E as [<- E]; [|done|done].
    destruct (IH tail1 rest ls tail) as (ls2 & -> & E2); try done. by exists ls2.
Qed.

(** Without a newline in the buffer there is no complete line to come. *)
Lemma no_lines tail1 rest ls tail :
  is_line tail1 → is_line tail → Forall (λ l, is_line l ∧ length l < 1023)%nat ls → (length tail < 1023)%nat →
  tail1 ++ rest = text_of ls ++ tail → length tail1 = 1023%nat ∨ rest = [] → ls = [].
Proof.
  intros Ht1 Ht Hls Hlt E Hcase. destruct ls as [|l ls]; [done|].
  apply Forall_cons in Hls as [[Hl Hll] _]. rewrite text_of_cons, <-app_assoc in E. simpl in E.
  exfalso. destruct Hcase as [Hfull| ->].
  - assert (Hn : tail1 !! length l = Some NL).
    { rewrite <-(lookup_app_l tail1 rest) by lia. rewrite E. rewrite lookup_app_r, Nat.sub_diag by lia. done. }
    apply Ht1. by eapply list_elem_of_lookup_2.
  - rewrite app_nil_r in E. apply Ht1. rewrite E. set_solver.
Qed.

(** After a read, the buffer is full or the file at its end. *)
Lemma full_or_end (buf data : list Z) :
  (length buf < 1023)%nat →
  length (buf ++ take (BUFSIZE - length buf - 1) data) = 1023%nat ∨ drop (BUFSIZE - length buf - 1) data = [].
Proof.
  intros H. destruct (drop (BUFSIZE - length buf - 1) data) as [|x r] eqn:E; [by right|left].
  apply (f_equal length) in E. rewrite length_drop in E. simpl in E.
  rewrite length_app, length_take. unfold BUFSIZE in *. lia.
Qed.

Lemma grep_file_ok re : ∀ fuel buf data ls tail,
  (length data + 1 < fuel)%nat → is_line buf → (length buf < 1023)%nat → is_line tail → (length tail < 1023)%nat →
  Forall (λ l, is_line l ∧ length l < 1023)%nat ls → buf ++ data = text_of ls ++ tail →
  grep read_file fuel re buf data = Some ((λ l, l ++ [NL]) <$> filter (λ l, match_ re l = true) ls).
Proof.
  induction fuel as [|fuel IH]; intros buf data ls tail Hf Hb Hbl Ht Htl Hls E; [lia|].
  assert (Hls' : Forall is_line ls) by (eapply Forall_impl; [exact Hls|]; naive_solver).
  cbn [grep]. unfold read_file at 1. set (n := (BUFSIZE - length buf - 1)%nat).
  assert (Hn : (1 ≤ n)%nat) by (unfold n, BUFSIZE; lia).
  destruct data as [|d data].
  { rewrite take_nil. assert (ls = []) as ->; [|done].
    apply (no_lines buf [] ls tail); try done. by right. }
  destruct (take n (d :: data)) as [|c chunk] eqn:Ec.
  { destruct n; [lia|done]. }
  set (b := buf ++ c :: chunk). assert (Eb : b ++ drop n (d :: data) = text_of ls ++ tail).
  { unfold b. rewrite <-Ec, <-app_assoc, take_drop. exact E. }
  assert (Hlb : (length b ≤ 1023)%nat).
  { unfold b. rewrite <-Ec, length_app, length_take. unfold n, BUFSIZE. lia. }
  assert (Hdrop : (length (drop n (d :: data)) < length (d :: data))%nat) by (rewrite length_drop; simpl; lia).
  destruct (split_lines b) as (ls1 & tail1 & Eb1 & Hls1 & Ht1).
  rewrite Eb1 in Eb. rewrite <-app_assoc in Eb.
  destruct (split_prefix ls1 tail1 (drop n (d :: data)) ls tail) as (ls2 & -> & E2); try done.
  apply Forall_app in Hls as [Hls_1 Hls_2].
  rewrite Eb1. rewrite grep_scan_spec; [|done|done|rewrite length_app; pose proof (length_text_of ls1); lia].
  rewrite filter_app, fmap_app. destruct ls1 as [|l1 ls1].
  - change (text_of [] ++ tail1) with tail1 in *. rewrite Nat.eqb_refl.
    assert (Hend : length tail1 = 1023%nat ∨ drop n (d :: data) = []).
    { rewrite <-Eb1. unfold b. rewrite <-Ec. by apply full_or_end. }
    assert (ls2 = []) as -> by (by apply (no_lines tail1 (drop n (d :: data)) ls2 tail)).
    destruct Hend as [Hfull| ->].
    + apply (f_equal length) in E2. simpl in E2. rewrite length_app in E2. lia.
    + rewrite (IH [] [] [] []); [done|simpl in *; lia|apply not_elem_of_nil|simpl; lia|apply not_elem_of_nil|simpl; lia|constructor|done].
  - assert (Hlt : (length tail1 < length b)%nat).
    { rewrite Eb1, text_of_cons, !length_app. simpl. lia. }
    rewrite <-Eb1. rewrite (proj2 (Nat.eqb_neq _ _)) by lia.
    rewrite (IH tail1 _ ls2 tail); try done; lia.
Qed.

(** On a regular file whose lines are shorter than the buffer, grep writes
    the lines that match, each complete and in order, and no others: the lines
    cut in two by the end of the buffer are put together again.  What follows
    the last newline is not searched. *)
Theorem grep_lines re ls tail :
  Forall (λ l, is_line l ∧ length l < 1023)%nat ls → is_line tail → (length tail < 1023)%nat →
  grep read_file (length (text_of ls ++ tail) + 2) re [] (text_of ls ++ tail) =
    Some ((λ l, l ++ [NL]) <$> filter (λ l, match_ re l = true) ls).
Proof.
  intros Hls Ht Htl. eapply grep_file_ok; eauto; [lia|apply not_elem_of_nil|simpl; lia].
Qed.

Lemma grep_lines_witness :
  grep read_file 10 [97; 46] [] [97; 98; 10; 98; 10; 97; 99; 10] = Some [[97; 98; 10]; [97; 99; 10]].
Proof.
  pose proof (grep_lines [97; 46] [[97; 98]; [98]; [97; 99]] []) as E.
  apply E.
  - apply (bool_decide_unpack _). vm_compute. exact I.
  - apply not_elem_of_nil.
  - simpl. lia.
Defined.

(** A descriptor that returns the chunks it is given, as a pipe or a terminal does. *)
Definition read_chunks (n : nat) (cs : list (list Z)) : list Z * list (list Z) :=
  match cs with
  | [] => ([], [])
  | c :: cs' => (take n c, match drop n c with [] => cs' | c' => c' :: cs' end)
  end.

(** A line that arrives in two reads is lost: when a read brings no newline,
    grep drops what it has read, so the second half is searched alone. *)
Theorem grep_drops_partial re a b :
  is_line a → is_line b → a ≠ [] → (length a < 1023)%nat → (length b < 1022)%nat →
  grep read_chunks 3 re [] [a; b ++ [NL]] = Some (if match_ re b then [b ++ [NL]] else []).
Proof.
  intros Ha Hb Hne Hla Hlb. cbn [grep]. unfold read_chunks at 1. cbn [length].
  change (BUFSIZE - 0 - 1)%nat with (1024 - 1)%nat. rewrite take_ge, drop_ge by lia.
  destruct a as [|x a]; [done|]. cbn [app].
  rewrite (grep_scan_spec re [] (x :: a)) by (try done; simpl; lia).
  rewrite Nat.eqb_refl. cbn [grep]. unfold read_chunks at 1. cbn [length].
  change (BUFSIZE - 0 - 1)%nat with (1024 - 1)%nat.
  rewrite take_ge, drop_ge by (rewrite length_app; simpl; lia).
  destruct (b ++ [NL]) as [|y l] eqn:E; [by apply app_nil in E as [_ ?]|]. rewrite <-E. cbn [app].
  replace (b ++ [NL]) with (text_of [b] ++ []) by (by rewrite text_of_cons, app_nil_r).
  rewrite grep_scan_spec; [|by apply Forall_singleton|apply not_elem_of_nil|rewrite length_app; pose proof (length_text_of [b]); lia].
  rewrite (proj2 (Nat.eqb_neq _ _)).
  2:{ rewrite text_of_cons, !length_app. simpl. lia. }
  cbn [grep]. unfold read_chunks. rewrite filter_cons, filter_nil.
  replace (text_of [b] ++ []) with (b ++ [NL]) by (by rewrite text_of_cons, app_nil_r).
  destruct (match_ re b); case_decide; done.
Qed.

Lemma grep_drops_partial_witness :
  match_ [94; 97; 98; 36] [97; 98] = true ∧
  grep read_chunks 3 [94; 97; 98; 36] [] [[97]; [98; 10]] = Some [].
Proof.
  split; [vm_compute; reflexivity|].
  apply (grep_drops_partial [94; 97; 98; 36] [97] [98]).
  - apply (bool_decide_unpack _). vm_compute. exact I.
  - apply (bool_decide_unpack _). vm_compute. exact I.
  - discriminate.
  - simpl. lia.
  - simpl. lia.
Defined.
