(* ===== verification/Umalloc.v ===== *)
(** The allocator of user programs: umalloc.c.

    The free blocks form a ring in address order through their headers; the
    static header [base], of size 0, is in it and lies below the heap.  A header
    is 8 bytes; sizes count headers.  [sbrk] is a system call, a parameter here:
    it returns the old end of the heap, or -1.

    [rep] relates the ring to the sorted list of free blocks, and the theorems
    say that [malloc] and [free] act on the set of free units as they should: a
    block that is handed out was free, or is new, and is free no longer. *)

From stdpp Require Import sorting.
From S2P Require Import Prelude.

(** * The allocator *)

(** [Header]: the pointer and the size. *)
Record header := mkHeader { h_ptr : Z; h_size : Z }.

Definition HSIZE : Z := 8.

Section umalloc.
Context {B : Type} (sbrk : Z → B → Z * B) (base : Z).

(** Headers in memory, [freep] (0 at first) and the state of [sbrk]. *)
Record ustate := mkUstate {
  u_mem : Z → header;
  u_freep : Z;
  u_brk : B;
}.

(** [p + n] on a [Header *]. *)
Definition hadd (p n : Z) : Z := u32 (p + HSIZE * n).

Definition set_ptr (a v : Z) (m : Z → header) : Z → header := <[a := mkHeader v (h_size (m a))]> m.
Definition set_size (a v : Z) (m : Z → header) : Z → header := <[a := mkHeader (h_ptr (m a)) v]> m.

(** The search of [free] for the place of [bp]. *)
Fixpoint free_find (fuel : nat) (m : Z → header) (bp p : Z) : option Z :=
  match fuel with
  | O => None
  | S fuel' =>
      let q := h_ptr (m p) in
      if (p <? bp) && (bp <? q) then Some p
      else if (q <=? p) && ((p <? bp) || (bp <? q)) then Some p
      else free_find fuel' m bp q
  end.

(** The block [bp] is joined with the block [q] above it, if they touch. *)
Definition join_up (bp q : Z) (m : Z → header) : Z → header :=
  if hadd bp (h_size (m bp)) =? q then
    let m := set_size bp (u32 (h_size (m bp) + h_size (m q))) m in
    set_ptr bp (h_ptr (m q)) m
  else set_ptr bp q m.

(** The block [p] below is joined with [bp], if they touch. *)
Definition join_down (p bp : Z) (m : Z → header) : Z → header :=
  if hadd p (h_size (m p)) =? bp then
    let m := set_size p (u32 (h_size (m p) + h_size (m bp))) m in
    set_ptr p (h_ptr (m bp)) m
  else set_ptr p bp m.

(** [fuel] bounds the length of the ring. *)
Definition free (fuel : nat) (ap : Z) (s : ustate) : option ustate :=
  let bp := ap - HSIZE in
  match free_find fuel (u_mem s) bp (u_freep s) with
  | None => None
  | Some p => Some (mkUstate (join_down p bp (join_up bp (h_ptr (u_mem s p)) (u_mem s))) p (u_brk s))
  end.

(** The pointer is [None] when it is null. *)
Definition morecore (fuel : nat) (nu : Z) (s : ustate) : option (option Z * ustate) :=
  let nu := if nu <? 4096 then 4096 else nu in
  let (p, brk) := sbrk (s32 (nu * HSIZE)) (u_brk s) in
  if p =? -1 then Some (None, mkUstate (u_mem s) (u_freep s) brk) else
  let s := mkUstate (set_size p nu (u_mem s)) (u_freep s) brk in
  s ← free fuel (p + HSIZE) s; Some (Some (u_freep s), s).

Definition nunits (nbytes : Z) : Z := u32 (u32 (nbytes + HSIZE - 1) / HSIZE + 1).

(** Take [n] units from the block [p], which follows [prevp]. *)
Definition take_block (n prevp p : Z) (s : ustate) : Z * ustate :=
  let m := u_mem s in
  if h_size (m p) =? n then
    (p + HSIZE, mkUstate (set_ptr prevp (h_ptr (m p)) m) prevp (u_brk s))
  else
    let m := set_size p (h_size (m p) - n) m in
    let p := hadd p (h_size (m p)) in
    (p + HSIZE, mkUstate (set_size p n m) prevp (u_brk s)).

(** The loop of [malloc]; the result 0 is the null pointer. *)
Fixpoint malloc_loop (fuel ring : nat) (n prevp p : Z) (s : ustate) : option (Z * ustate) :=
  match fuel with
  | O => None
  | S fuel' =>
      if n <=? h_size (u_mem s p) then Some (take_block n prevp p s)
      else if p =? u_freep s then
        match morecore ring n s with
        | None => None
        | Some (None, s) => Some (0, s)
        | Some (Some p, s) => malloc_loop fuel' ring n p (h_ptr (u_mem s p)) s
        end
      else malloc_loop fuel' ring n p (h_ptr (u_mem s p)) s
  end.

Definition malloc (fuel ring : nat) (nbytes : Z) (s : ustate) : option (Z * ustate) :=
  let n := nunits nbytes in
  let s := if u_freep s =? 0 then mkUstate (<[base := mkHeader base 0]> (u_mem s)) base (u_brk s) else s in
  malloc_loop fuel ring n (u_freep s) (h_ptr (u_mem s (u_freep s))) s.

(** * The ring *)

(** A block: its address and its size. *)
Abbreviation block := (Z * Z)%type.

(** The headers of the blocks [l], the last of which points to [e]. *)
Fixpoint seg (m : Z → header) (l : list block) (e : Z) : Prop :=
  match l with
  | [] => True
  | (a, n) :: l' => m a = mkHeader (match l' with (a', _) :: _ => a' | [] => e end) n ∧ seg m l' e
  end.

(** Blocks in address order, not touching each other, from [lo] on. *)
Fixpoint sorted (lo : Z) (l : list block) : Prop :=
  match l with
  | [] => True
  | (a, n) :: l' => lo < a ∧ 1 ≤ n ∧ a + HSIZE * n ≤ 2147483648 ∧ sorted (a + HSIZE * n) l'
  end.

(** The free blocks are [l]. *)
Record rep (s : ustate) (l : list block) : Prop := mkRep {
  rep_base : 0 < base;
  rep_seg : seg (u_mem s) ((base, 0) :: l) base;
  rep_sorted : sorted base l;
  rep_freep : u_freep s = base ∨ ∃ n, (u_freep s, n) ∈ l;
}.

(** The address of the first block, and of the last one. *)
Definition hd (l : list block) (e : Z) : Z := match l with (a, _) :: _ => a | [] => e end.
Definition lst (l : list block) (d : Z) : Z := default d (fst <$> last l).

(** Where the last block ends. *)
Definition fin (lo : Z) (l : list block) : Z := default lo ((λ b, fst b + HSIZE * snd b) <$> last l).

Lemma lst_snoc l a n d : lst (l ++ [(a, n)]) d = a.
Proof. unfold lst. by rewrite last_snoc. Qed.

Lemma lst_cons a n l d : lst ((a, n) :: l) d = lst l a.
Proof.
  unfold lst. destruct l; [done|]. rewrite last_cons_cons. by destruct (last _) eqn:E; [|apply last_None in E].
Qed.

Lemma seg_cons m a n l e : seg m ((a, n) :: l) e ↔ m a = mkHeader (hd l e) n ∧ seg m l e.
Proof. done. Qed.

Lemma seg_app m l1 l2 e : seg m (l1 ++ l2) e ↔ seg m l1 (hd l2 e) ∧ seg m l2 e.
Proof.
  induction l1 as [|[a n] l1 IH]; simpl; [naive_solver|]. rewrite IH.
  destruct l1 as [|[a' n'] l1]; simpl; naive_solver.
Qed.

Lemma seg_frame m a h l e : a ∉ l.*1 → seg m l e → seg (<[a := h]> m) l e.
Proof.
  induction l as [|[b n] l IH]; simpl; [done|]. intros [Hne Hin]%not_elem_of_cons [H1 H2].
  rewrite fn_lookup_insert_ne by done. auto.
Qed.

Lemma fin_app lo l1 l2 : fin lo (l1 ++ l2) = fin (fin lo l1) l2.
Proof.
  unfold fin. destruct l2 as [|b l2 _] using rev_ind; [by rewrite app_nil_r|].
  by rewrite app_assoc, !last_snoc.
Qed.

Lemma fin_cons lo a n l : fin lo ((a, n) :: l) = fin (a + HSIZE * n) l.
Proof. apply (fin_app lo [(a, n)] l). Qed.

Lemma sorted_app lo l1 l2 : sorted lo (l1 ++ l2) ↔ sorted lo l1 ∧ sorted (fin lo l1) l2.
Proof.
  revert lo. induction l1 as [|[a n] l1 IH]; intros lo; simpl; [naive_solver|].
  rewrite IH, fin_cons. naive_solver.
Qed.

Lemma sorted_fin lo l : sorted lo l → lo ≤ fin lo l.
Proof.
  revert lo. induction l as [|[a n] l IH]; intros lo; simpl; [done|].
  intros (H1 & H2 & _ & H3). rewrite fin_cons. apply IH in H3. unfold HSIZE in *. lia.
Qed.

Lemma sorted_gt lo l a n : sorted lo l → (a, n) ∈ l → lo < a ∧ 1 ≤ n ∧ a + HSIZE * n ≤ 2147483648 ∧ a + HSIZE * n ≤ fin lo l.
Proof.
  revert lo. induction l as [|[b k] l IH]; intros lo; [by intros _ ?%not_elem_of_nil|].
  simpl. intros (H1 & H2 & H3 & H4) [E|Hin]%elem_of_cons; rewrite fin_cons.
  - injection E as -> ->. pose proof (sorted_fin _ _ H4). auto.
  - destruct (IH _ H4 Hin) as (? & ? & ? & ?). unfold HSIZE in *. repeat split; lia.
Qed.

Lemma sorted_lower lo lo' l : lo' ≤ lo → sorted lo l → sorted lo' l.
Proof. destruct l as [|[a n] l]; simpl; [done|]. intros H (H1 & H2). split; [lia|done]. Qed.

Lemma sorted_addr lo l a : sorted lo l → a ∈ l.*1 → lo < a ∧ a < fin lo l.
Proof.
  intros H ([b n] & -> & Hin)%list_elem_of_fmap. destruct (sorted_gt _ _ _ _ H Hin) as (? & ? & ? & ?).
  unfold HSIZE in *. simpl. lia.
Qed.

Lemma fin_snoc lo l a n : fin lo (l ++ [(a, n)]) = a + HSIZE * n.
Proof. by rewrite fin_app. Qed.

(** Addresses in increasing order. *)
Abbreviation increasing l := (StronglySorted Z.lt (l.*1)).

Lemma sorted_increasing lo l : sorted lo l → StronglySorted Z.lt (lo :: l.*1).
Proof.
  revert lo. induction l as [|[a n] l IH]; intros lo H; [repeat constructor|].
  destruct H as (H1 & H2 & _ & H3). rewrite fmap_cons. simpl.
  assert (Hi : StronglySorted Z.lt (a :: l.*1)).
  { apply IH. eapply sorted_lower; [|exact H3]. unfold HSIZE. lia. }
  constructor; [done|]. apply StronglySorted_inv in Hi as [_ Hi]. constructor; [done|].
  eapply Forall_impl; [exact Hi|]. simpl. lia.
Qed.

(** ** The search of [free] *)

Section search.
Context (m : Z → header) (bp : Z).

(** From a block below [bp]: the last one below it. *)
Lemma find_below l2 K : ∀ fuel,
  K ≠ [] → (length K ≤ fuel)%nat → seg m (K ++ l2) base → increasing K →
  Forall (λ a, base ≤ a < bp) (K.*1) → Forall (λ a, bp < a) (l2.*1) →
  free_find fuel m bp (hd K base) = Some (lst K base).
Proof.
  induction K as [|[a n] K IH]; intros fuel Hne Hf Hseg Hinc Hlt Hgt; [done|].
  destruct fuel as [|fuel]; [simpl in Hf; lia|]. cbn [app] in Hseg. apply seg_cons in Hseg as [Ha Hseg].
  rewrite fmap_cons in *. apply StronglySorted_inv in Hinc as [Hinc Hall].
  apply Forall_cons in Hlt as [Hb Hlt]. simpl in Hb, Hall. cbn [free_find hd]. rewrite Ha. cbn [h_ptr].
  destruct K as [|[b k] K].
  - cbn [app]. unfold lst. cbn. destruct l2 as [|[c k] l2]; cbn [hd].
    + rewrite (proj2 (Z.ltb_lt a bp)), (proj2 (Z.ltb_ge bp base)), (proj2 (Z.leb_le base a)) by lia. done.
    + rewrite fmap_cons in Hgt. apply Forall_cons in Hgt as [Hc _]. simpl in Hc.
      rewrite (proj2 (Z.ltb_lt a bp)), (proj2 (Z.ltb_lt bp c)) by lia. done.
  - cbn [app hd]. rewrite fmap_cons in *. apply Forall_cons in Hall as [Hab _]. pose proof Hlt as Hlt'.
    apply Forall_cons in Hlt' as [Hbb _]. simpl in Hab, Hbb.
    rewrite (proj2 (Z.ltb_ge bp b)), (proj2 (Z.leb_gt b a)) by lia. rewrite andb_false_r. cbn [andb].
    change b with (hd ((b, k) :: K) base).
    rewrite IH; [|done|simpl in *; lia|done|done|done|done].
    unfold lst. by rewrite last_cons_cons.
Qed.

(** From a block above [bp]: around the end of the ring to [base]. *)
Lemma find_above K : ∀ fuel,
  seg m K base → increasing K → Forall (λ a, bp < a) (K.*1) → base ≤ bp →
  free_find (length K + fuel) m bp (hd K base) = free_find fuel m bp base.
Proof.
  induction K as [|[a n] K IH]; intros fuel Hseg Hinc Hgt Hb; [done|].
  apply seg_cons in Hseg as [Ha Hseg]. rewrite fmap_cons in *. apply Forall_cons in Hgt as [Hga Hgt].
  apply StronglySorted_inv in Hinc as [Hinc Hall]. simpl in Hga, Hall.
  cbn [length Nat.add free_find hd]. rewrite Ha. cbn [h_ptr].
  rewrite (proj2 (Z.ltb_ge a bp)) by lia. cbn [andb orb].
  rewrite <-(IH fuel) by done. destruct K as [|[b k] K]; cbn [hd].
  - rewrite (proj2 (Z.ltb_ge bp base)) by lia. by rewrite andb_false_r.
  - rewrite fmap_cons in Hall. apply Forall_cons in Hall as [Hab _]. simpl in Hab.
    by rewrite (proj2 (Z.leb_gt b a)) by lia.
Qed.

Lemma free_find_ok l1 l2 fuel f :
  seg m ((base, 0) :: l1 ++ l2) base → sorted base (l1 ++ l2) →
  Forall (λ a, a < bp) (l1.*1) → Forall (λ a, bp < a) (l2.*1) → base < bp →
  f = base ∨ f ∈ (l1 ++ l2).*1 → (2 + length l1 + length l2 ≤ fuel)%nat →
  free_find fuel m bp f = Some (lst l1 base).
Proof.
  intros Hseg Hs Hlt Hgt Hb Hf Hfuel. pose proof (sorted_increasing _ _ Hs) as Hinc.
  assert (Hall : ∀ K1 K2 fuel, (base, 0) :: l1 = K1 ++ K2 → K2 ≠ [] → (length K2 ≤ fuel)%nat →
    free_find fuel m bp (hd K2 base) = Some (lst l1 base)).
  { intros K1 K2 fuel' E Hne Hk. change ((base, 0) :: l1 ++ l2) with (((base, 0) :: l1) ++ l2) in Hseg.
    rewrite E, <-app_assoc, seg_app in Hseg. destruct Hseg as [_ Hseg].
    change (base :: (l1 ++ l2).*1) with ((((base, 0) :: l1) ++ l2).*1) in Hinc.
    rewrite E, !fmap_app, <-app_assoc in Hinc.
    apply StronglySorted_app in Hinc as (_ & _ & Hinc). apply StronglySorted_app in Hinc as (_ & Hinc & _).
    assert (Hin : Forall (λ a, base ≤ a < bp) (K2.*1)).
    { assert (Forall (λ a, base ≤ a < bp) ((K1 ++ K2).*1)) as HK.
      { rewrite <-E, fmap_cons. constructor; [simpl; lia|]. apply Forall_forall. intros a Ha.
        rewrite Forall_forall in Hlt. split; [|by apply Hlt]. rewrite sorted_app in Hs.
        destruct Hs as [Hs _]. destruct (sorted_addr _ _ _ Hs Ha). lia. }
      rewrite fmap_app in HK. by apply Forall_app in HK as [_ HK]. }
    rewrite (find_below l2 K2); try done. f_equal. unfold lst.
    assert (El : last ((base, 0) :: l1) = last K2).
    { rewrite E. destruct K2 as [|b K2 _] using rev_ind; [done|]. by rewrite app_assoc, !last_snoc. }
    rewrite <-El. destruct l1 as [|b l1]; [done|]. by rewrite last_cons_cons. }
  assert (Hbase : ∀ fuel, (1 + length l1 ≤ fuel)%nat → free_find fuel m bp base = Some (lst l1 base)).
  { intros fuel' Hk. by apply (Hall [] ((base, 0) :: l1)). }
  destruct Hf as [->|Hf]; [apply Hbase; lia|].
  rewrite fmap_app, elem_of_app in Hf. destruct Hf as [Hf|Hf].
  - apply list_elem_of_fmap in Hf as ([a n] & -> & Hin). apply list_elem_of_split in Hin as (x & y & ->).
    apply (Hall ((base, 0) :: x) ((a, n) :: y) fuel); [done|done|]. rewrite length_app in Hfuel. simpl in *. lia.
  - apply list_elem_of_fmap in Hf as ([a n] & -> & Hin). apply list_elem_of_split in Hin as (x & y & ->).
    change (fst (a, n)) with (hd ((a, n) :: y) base).
    replace fuel with (length ((a, n) :: y) + (fuel - length ((a, n) :: y)))%nat
      by (rewrite length_app in Hfuel; simpl in *; lia).
    rewrite find_above; [apply Hbase; rewrite length_app in Hfuel; simpl in *; lia| | | |lia].
    + apply seg_cons in Hseg as [_ Hseg]. rewrite !seg_app in Hseg. by destruct Hseg as (_ & _ & ?).
    + apply StronglySorted_inv in Hinc as [Hinc _]. rewrite !fmap_app in Hinc.
      apply StronglySorted_app in Hinc as (_ & _ & Hinc). by apply StronglySorted_app in Hinc as (_ & _ & ?).
    + rewrite fmap_app in Hgt. by apply Forall_app in Hgt as [_ ?].
Qed.
End search.

(** ** Joining *)

(** The bytes of the blocks [l], and of one block. *)
Definition within (b : block) (x : Z) : Prop := fst b ≤ x < fst b + HSIZE * snd b.
Definition covers (l : list block) (x : Z) : Prop := Exists (λ b, within b x) l.

Lemma covers_app l1 l2 x : covers (l1 ++ l2) x ↔ covers l1 x ∨ covers l2 x.
Proof. apply Exists_app. Qed.

Lemma covers_cons b l x : covers (b :: l) x ↔ within b x ∨ covers l x.
Proof. apply Exists_cons. Qed.

Lemma seg_ext m m' l e : (∀ a, a ∈ l.*1 → m' a = m a) → seg m l e → seg m' l e.
Proof.
  induction l as [|[b n] l IH]; simpl; [done|]. intros H [H1 H2]. split.
  - rewrite H by set_solver. done.
  - apply IH; [set_solver|done].
Qed.

(** [bp], of [N] units, joined with the blocks above it. *)
Definition glue (bp N : Z) (l2 : list block) : Z * list block :=
  match l2 with
  | (a, k) :: l2' => if bp + HSIZE * N =? a then (N + k, l2') else (N, l2)
  | [] => (N, [])
  end.

(** The free blocks once [bp] is among them; it lies between [l1] and [l2]. *)
Definition put_block (l1 : list block) (bp N : Z) (l2 : list block) : list block :=
  let (N, l2) := glue bp N l2 in
  match last l1 with
  | Some (p, n) => if p + HSIZE * n =? bp then removelast l1 ++ (p, n + N) :: l2 else l1 ++ (bp, N) :: l2
  | None => (bp, N) :: l2
  end.

Lemma hadd_small p n : 0 ≤ p → 0 ≤ n → p + HSIZE * n ≤ 2147483648 → hadd p n = p + HSIZE * n.
Proof. intros. unfold hadd. apply u32_small. unfold is_u32, HSIZE in *. lia. Qed.

Section free.
Context (m : Z → header) (l1 l2 : list block) (bp N : Z).
Context (Hbase : 0 < base).
Context (Hseg : seg m ((base, 0) :: l1 ++ l2) base) (Hs : sorted base (l1 ++ l2)).
Context (HN : 1 ≤ N) (Hmb : h_size (m bp) = N) (Hend : bp + HSIZE * N ≤ 2147483648).
Context (Hlo : fin base l1 ≤ bp) (Hbb : base < bp) (Hhi : Forall (λ b, bp + HSIZE * N ≤ fst b) l2).

Lemma join_up_ok :
  let m1 := join_up bp (hd l2 base) m in let (N', l2') := glue bp N l2 in
  m1 bp = mkHeader (hd l2' base) N' ∧ (∀ a, a ≠ bp → m1 a = m a) ∧
  1 ≤ N' ∧ bp + HSIZE * N' ≤ 2147483648 ∧ sorted (bp + HSIZE * N') l2' ∧ seg m l2' base ∧
  (∀ x, within (bp, N') x ∨ covers l2' x ↔ within (bp, N) x ∨ covers l2 x) ∧ N ≤ N'.
Proof.
  intros m1. apply seg_cons in Hseg as [_ Hsg]. apply seg_app in Hsg as [_ Hsg2].
  rewrite sorted_app in Hs. destruct Hs as [_ Hs2]. unfold m1, join_up.
  rewrite Hmb, hadd_small by lia. unfold glue. destruct l2 as [|[a k] l2']; cbn [hd].
  - rewrite (proj2 (Z.eqb_neq _ _)) by (unfold HSIZE; lia). unfold set_ptr.
    split; [by rewrite fn_lookup_insert, Hmb|]. split; [intros; by apply fn_lookup_insert_ne|].
    split; [done|]. split; [done|]. split; [done|]. split; [done|]. split; [done|lia].
  - cbn [sorted] in Hs2. destruct Hs2 as (Ha & Hk & Hke & Hs3). apply seg_cons in Hsg2 as [Hma Hsg3].
    apply Forall_cons in Hhi as [Hba _]. simpl in Hba.
    destruct (Z.eqb_spec (bp + HSIZE * N) a) as [E|E].
    + assert (Hab : a ≠ bp) by (unfold HSIZE in *; lia). unfold set_ptr, set_size.
      rewrite fn_lookup_insert, fn_lookup_insert_ne, Hma by done. cbn [h_size h_ptr].
      split; [|split; [|split; [|split; [|split; [|split; [|split]]]]]].
      * rewrite fn_lookup_insert. f_equal. apply u32_small. unfold is_u32, HSIZE in *. lia.
      * intros b Hb. by rewrite !fn_lookup_insert_ne.
      * lia.
      * unfold HSIZE in *. lia.
      * replace (bp + HSIZE * (N + k)) with (a + HSIZE * k) by (unfold HSIZE in *; lia). done.
      * done.
      * intros x. rewrite covers_cons. unfold within. cbn [fst snd]. unfold HSIZE in *.
        assert (bp ≤ x < bp + 8 * (N + k) ↔ bp ≤ x < bp + 8 * N ∨ a ≤ x < a + 8 * k) by lia. naive_solver.
      * lia.
    + unfold set_ptr. split; [by rewrite fn_lookup_insert, Hmb|]. split; [intros; by apply fn_lookup_insert_ne|].
      split; [done|]. split; [done|]. split.
      * split; [lia|done].
      * split; [done|]. split; [done|lia].
Qed.

End free.

(** The free blocks are [l'] once the block [bp] of [N] units is put between [l1]
    and [l2]. *)
Record placed (l1 l2 : list block) (bp N : Z) (m' : Z → header) (l' : list block) : Prop := mkPlaced {
  pl_seg : seg m' ((base, 0) :: l') base;
  pl_sorted : sorted base l';
  pl_covers : ∀ x, covers l' x ↔ covers (l1 ++ l2) x ∨ within (bp, N) x;
  pl_freep : lst l1 base = base ∨ ∃ n, (lst l1 base, n) ∈ l';
  pl_big : ∃ a k, (a, k) ∈ l' ∧ N ≤ k;
  pl_len : (length l' ≤ S (length (l1 ++ l2)))%nat;
}.

(** The block after [join_up]: [N'] units, followed by the free blocks [l2']. *)
Section placing.
Context (m m1 : Z → header) (l2 l2' : list block) (bp N N' : Z).
Context (Hbase : 0 < base) (Hbb : base < bp) (HN' : 1 ≤ N') (HNN : N ≤ N') (He' : bp + HSIZE * N' ≤ 2147483648).
Context (Hb1 : m1 bp = mkHeader (hd l2' base) N') (Hm1 : ∀ a, a ≠ bp → m1 a = m a).
Context (Hs2' : sorted (bp + HSIZE * N') l2') (Hsg2' : seg m l2' base) (Hglen : (length l2' ≤ length l2)%nat).
Context (Hcov : ∀ x, within (bp, N') x ∨ covers l2' x ↔ within (bp, N) x ∨ covers l2 x).

Lemma after_bp a : a ∈ l2'.*1 → bp < a.
Proof. intros Ha. destruct (sorted_addr _ _ _ Hs2' Ha). unfold HSIZE in *. lia. Qed.

(** Nothing is free below it. *)
Lemma placed_first :
  m base = mkHeader (hd l2 base) 0 → placed [] l2 bp N (join_down base bp m1) ((bp, N') :: l2').
Proof.
  intros Hmbase. unfold join_down. rewrite Hm1 by lia. rewrite Hmbase. cbn [h_size].
  rewrite hadd_small by (unfold HSIZE in *; lia). rewrite (proj2 (Z.eqb_neq _ _)) by (unfold HSIZE; lia).
  constructor.
  - apply seg_cons. unfold set_ptr. split; [by rewrite fn_lookup_insert, Hm1, Hmbase by lia|].
    apply seg_cons. rewrite fn_lookup_insert_ne by lia. split; [done|].
    apply (seg_ext m); [|done]. intros a Ha. apply after_bp in Ha. by rewrite fn_lookup_insert_ne, Hm1 by lia.
  - split; [lia|done].
  - intros x. rewrite covers_cons, Hcov. cbn [app]. tauto.
  - by left.
  - exists bp, N'. split; [left|done].
  - simpl. lia.
Qed.

(** The last free block below it is [p], of [n] units. *)
Context (l1 : list block) (p n : Z).
Context (Hmbase : m base = mkHeader (hd (l1 ++ [(p, n)] ++ l2) base) 0) (Hsg1 : seg m l1 p) (Hmp : h_size (m p) = n).
Context (Hs1 : sorted base l1) (Hp1 : fin base l1 < p) (Hp2 : 1 ≤ n) (Hp3 : p + HSIZE * n ≤ 2147483648) (Hpb : p + HSIZE * n ≤ bp).

Lemma below_p a : a ∈ l1.*1 → a < p.
Proof. intros Ha. destruct (sorted_addr _ _ _ Hs1 Ha). lia. Qed.

Lemma base_p : base < p ∧ p < bp.
Proof. pose proof (sorted_fin _ _ Hs1). unfold HSIZE in *. lia. Qed.

(** They are joined. *)
Lemma placed_merged :
  p + HSIZE * n = bp →
  placed (l1 ++ [(p, n)]) l2 bp N (join_down p bp m1) (l1 ++ (p, n + N') :: l2').
Proof.
  intros E. pose proof base_p. unfold join_down. rewrite Hm1, Hmp, hadd_small by lia. rewrite E, Z.eqb_refl.
  unfold set_ptr, set_size. constructor.
  - apply seg_cons. split.
    { rewrite !fn_lookup_insert_ne, Hm1, Hmbase by lia. f_equal. by destruct l1 as [|[? ?] ?]. }
    apply seg_app. split.
    { apply (seg_ext m); [|by destruct l2']. intros a Ha. apply below_p in Ha. by rewrite !fn_lookup_insert_ne, Hm1 by lia. }
    apply seg_cons. split.
    { rewrite fn_lookup_insert, fn_lookup_insert, fn_lookup_insert_ne, Hb1 by lia. cbn [h_ptr h_size].
      f_equal. apply u32_small. unfold is_u32, HSIZE in *. lia. }
    apply (seg_ext m); [|done]. intros a Ha. apply after_bp in Ha. by rewrite !fn_lookup_insert_ne, Hm1 by lia.
  - apply sorted_app. split; [done|]. split; [lia|]. split; [lia|]. split; [unfold HSIZE in *; lia|].
    by replace (p + HSIZE * (n + N')) with (bp + HSIZE * N') by (unfold HSIZE in *; lia).
  - intros x. rewrite covers_app, covers_cons, !covers_app, covers_cons.
    assert (within (p, n + N') x ↔ within (p, n) x ∨ within (bp, N') x) as ->
      by (unfold within, HSIZE in *; simpl; lia).
    specialize (Hcov x). assert (¬ covers [] x) by (by intros ?%Exists_nil). tauto.
  - right. exists (n + N'). rewrite lst_snoc. apply elem_of_app. right. left.
  - exists p, (n + N'). split; [apply elem_of_app; right; left|lia].
  - rewrite !length_app. simpl. lia.
Qed.

(** They are apart. *)
Lemma placed_after :
  p + HSIZE * n ≠ bp →
  placed (l1 ++ [(p, n)]) l2 bp N (join_down p bp m1) ((l1 ++ [(p, n)]) ++ (bp, N') :: l2').
Proof.
  intros E. pose proof base_p. unfold join_down. rewrite Hm1, Hmp, hadd_small by lia. rewrite (proj2 (Z.eqb_neq _ _)) by done.
  unfold set_ptr. constructor.
  - apply seg_cons. split.
    { rewrite fn_lookup_insert_ne, Hm1, Hmbase by lia. f_equal. by destruct l1 as [|[? ?] ?]. }
    rewrite <-app_assoc. apply seg_app. split.
    { apply (seg_ext m); [|done]. intros a Ha. apply below_p in Ha. by rewrite !fn_lookup_insert_ne, Hm1 by lia. }
    apply seg_cons. split; [rewrite fn_lookup_insert, Hm1 by lia; by rewrite Hmp|].
    apply seg_cons. split; [by rewrite fn_lookup_insert_ne by lia|].
    apply (seg_ext m); [|done]. intros a Ha. apply after_bp in Ha. by rewrite !fn_lookup_insert_ne, Hm1 by lia.
  - rewrite <-app_assoc. apply sorted_app. split; [done|]. cbn [app sorted].
    split; [lia|]. split; [lia|]. split; [unfold HSIZE in *; lia|]. split; [lia|]. split; [lia|]. done.
  - intros x. rewrite covers_app, covers_cons, Hcov, !covers_app. tauto.
  - right. exists n. rewrite lst_snoc, <-app_assoc. apply elem_of_app. right. left.
  - exists bp, N'. split; [apply elem_of_app; right; left|done].
  - rewrite !length_app. simpl. lia.
Qed.
End placing.

Lemma join_placed m l1 l2 bp N :
  0 < base → seg m ((base, 0) :: l1 ++ l2) base → sorted base (l1 ++ l2) →
  1 ≤ N → h_size (m bp) = N → bp + HSIZE * N ≤ 2147483648 →
  fin base l1 ≤ bp → base < bp → Forall (λ b, bp + HSIZE * N ≤ fst b) l2 →
  placed l1 l2 bp N (join_down (lst l1 base) bp (join_up bp (hd l2 base) m)) (put_block l1 bp N l2).
Proof.
  intros Hbase Hseg Hs HN Hmb Hend Hlo Hbb Hhi.
  pose proof (join_up_ok m l1 l2 bp N Hbase Hseg Hs HN Hmb Hend Hbb Hhi) as Hup.
  cbn zeta in Hup. unfold put_block.
  assert (Hglen : (length (snd (glue bp N l2)) ≤ length l2)%nat).
  { unfold glue. destruct l2 as [|[a k] l2']; [done|]. case_bool; simpl; lia. }
  destruct (glue bp N l2) as [N' l2']. destruct Hup as (Hb1 & Hm1 & HN' & He' & Hs2' & Hsg2' & Hcov & HNN).
  set (m1 := join_up bp (hd l2 base) m) in *. simpl in Hglen.
  apply seg_cons in Hseg as [Hmbase Hsg]. apply seg_app in Hsg as [Hsg1 _].
  rewrite sorted_app in Hs. destruct Hs as [Hs1 _].
  destruct l1 as [|[p n] l1' _] using rev_ind; [by apply (placed_first m)|].
  rewrite last_snoc, lst_snoc. rewrite <-app_assoc in Hmbase.
  apply seg_app in Hsg1 as [Hsg1 Hp]. apply seg_cons in Hp as [Hmp _].
  rewrite sorted_app in Hs1. destruct Hs1 as [Hs1 (Hp1 & Hp2 & Hp3 & _)]. rewrite fin_snoc in Hlo.
  destruct (Z.eqb_spec (p + HSIZE * n) bp) as [E|E].
  - rewrite removelast_last. apply (placed_merged m); try done; lia || by rewrite Hmp.
  - apply (placed_after m); try done; lia || by rewrite Hmp.
Qed.

Lemma join_frame p bp q m a : a ≠ bp → a ≠ p → join_down p bp (join_up bp q m) a = m a.
Proof.
  intros. unfold join_down, join_up, set_ptr, set_size. repeat case_match; by rewrite !fn_lookup_insert_ne by done.
Qed.

Lemma lst_in l : lst l base = base ∨ ∃ n, (lst l base, n) ∈ l.
Proof.
  destruct l as [|[p n] l _] using rev_ind; [by left|right]. rewrite lst_snoc. exists n.
  apply elem_of_app. right. left.
Qed.

Lemma covers_addr lo l a n : sorted lo l → (a, n) ∈ l → covers l a.
Proof.
  intros Hs Hin. apply Exists_exists. exists (a, n). split; [done|].
  destruct (sorted_gt _ _ _ _ Hs Hin) as (_ & ? & _). unfold within, HSIZE. simpl. lia.
Qed.

Lemma lst_covered l1 l2 : sorted base (l1 ++ l2) → lst l1 base = base ∨ covers (l1 ++ l2) (lst l1 base).
Proof.
  intros Hs. destruct (lst_in l1) as [|(n & Hin)]; [by left|right].
  eapply covers_addr; [done|]. apply elem_of_app. by left.
Qed.

(** The place of a block that is not free. *)
Lemma split_at bp N l : ∀ lo,
  sorted lo l → lo ≤ bp → 1 ≤ N → (∀ x, within (bp, N) x → ¬ covers l x) →
  ∃ l1 l2, l = l1 ++ l2 ∧ fin lo l1 ≤ bp ∧ Forall (λ b, bp + HSIZE * N ≤ fst b) l2.
Proof.
  induction l as [|[a n] l IH]; intros lo Hs Hlo HN Hd; [by exists [], []|].
  destruct Hs as (Ha & Hn & He & Hs).
  assert (Hda : ∀ x, within (bp, N) x → ¬ within (a, n) x).
  { intros x Hx Hw. apply (Hd x Hx), covers_cons. by left. }
  destruct (decide (a < bp)) as [Hlt|Hge].
  - destruct (IH (a + HSIZE * n)) as (l1 & l2 & -> & Hf & Hall); [done| |done| |].
    + specialize (Hda bp). unfold within in Hda. simpl in Hda. unfold HSIZE in *. lia.
    + intros x Hx Hc. apply (Hd x Hx), covers_cons. by right.
    + exists ((a, n) :: l1), l2. split; [done|]. split; [by rewrite fin_cons|done].
  - assert (Hba : bp + HSIZE * N ≤ a).
    { specialize (Hda a). unfold within in Hda. simpl in Hda. unfold HSIZE in *. lia. }
    exists [], ((a, n) :: l). split; [done|]. split; [done|]. constructor; [done|].
    apply Forall_forall. intros [b k] Hb. destruct (sorted_gt _ _ _ _ Hs Hb) as (? & _). simpl. unfold HSIZE in *. lia.
Qed.

Lemma free_ok fuel s l bp N :
  rep s l → base < bp → 1 ≤ N → h_size (u_mem s bp) = N → bp + HSIZE * N ≤ 2147483648 →
  (∀ x, within (bp, N) x → ¬ covers l x) → (2 + length l ≤ fuel)%nat →
  ∃ s' l', free fuel (bp + HSIZE) s = Some s' ∧ rep s' l' ∧ u_brk s' = u_brk s ∧
    (∀ x, covers l' x ↔ covers l x ∨ within (bp, N) x) ∧
    (∃ a k, (a, k) ∈ l' ∧ N ≤ k) ∧ (length l' ≤ S (length l))%nat ∧
    (∀ a, a ≠ base → ¬ covers l a → a ≠ bp → u_mem s' a = u_mem s a).
Proof.
  intros [Hb Hseg Hs Hf] Hbb HN Hm He Hd Hfuel.
  destruct (split_at bp N l base) as (l1 & l2 & -> & Hlo & Hhi); [done|lia|done|done|].
  unfold free. replace (bp + HSIZE - HSIZE) with bp by lia.
  rewrite (free_find_ok (u_mem s) bp l1 l2); try done.
  - assert (Hq : h_ptr (u_mem s (lst l1 base)) = hd l2 base).
    { apply seg_cons in Hseg as [Hm0 Hsg]. apply seg_app in Hsg as [Hsg _].
      destruct l1 as [|[p n] l1' _] using rev_ind; [change (lst [] base) with base; by rewrite Hm0|].
      rewrite lst_snoc. apply seg_app in Hsg as [_ [-> _]]. done. }
    rewrite Hq. destruct (join_placed (u_mem s) l1 l2 bp N) as [P1 P2 P3 P4 P5 P6]; try done.
    eexists _, _. split; [reflexivity|]. split; [by constructor|]. split; [done|]. split; [exact P3|].
    split; [done|]. split; [done|]. cbn [u_mem]. intros a Ha Hc Hab.
    destruct (lst_covered l1 l2 Hs) as [El|Hl]; apply join_frame; congruence.
  - apply Forall_forall. intros a Ha. rewrite sorted_app in Hs. destruct Hs as [Hs1 _].
    destruct (sorted_addr _ _ _ Hs1 Ha). lia.
  - apply Forall_fmap. eapply Forall_impl; [exact Hhi|]. intros b Hx. simpl in *. unfold HSIZE in *. lia.
  - destruct Hf as [->|(n & Hin)]; [by left|right]. apply list_elem_of_fmap. by exists (u_freep s, n).
  - rewrite length_app in Hfuel. lia.
Qed.

(** ** The walk of [malloc] *)

(** The blocks met from the one after [prev] on. *)
Fixpoint chain (m : Z → header) (prev : Z) (W : list block) : Prop :=
  match W with
  | [] => True
  | (a, k) :: W' => h_ptr (m prev) = a ∧ h_size (m a) = k ∧ chain m a W'
  end.

Lemma chain_split m prev W1 W2 : chain m prev (W1 ++ W2) ↔ chain m prev W1 ∧ chain m (lst W1 prev) W2.
Proof.
  revert prev. induction W1 as [|[a k] W1 IH]; intros prev; [simpl; tauto|].
  cbn [app chain]. rewrite IH, lst_cons. tauto.
Qed.

Lemma seg_chain m prev W e : h_ptr (m prev) = hd W e → seg m W e → chain m prev W ∧ h_ptr (m (lst W prev)) = e.
Proof.
  revert prev. induction W as [|[a k] W IH]; intros prev Hp Hs; [done|].
  apply seg_cons in Hs as [Ha Hs]. destruct (IH a) as [H1 H2]; [by rewrite Ha|done|].
  rewrite lst_cons. split; [|done]. cbn [chain]. by rewrite Ha.
Qed.

(** The order in which the blocks are met from the one after [freep] on. *)
Lemma ring_walk s l :
  rep s l → ∃ W f, chain (u_mem s) (u_freep s) (W ++ [(u_freep s, f)]) ∧
    (∀ a k, (a, k) ∈ W → a ≠ u_freep s) ∧ (∀ b, b ∈ W ++ [(u_freep s, f)] ↔ b ∈ (base, 0) :: l) ∧
    length W = length l.
Proof.
  intros [Hb Hseg Hs Hf]. set (fp := u_freep s) in *. set (m := u_mem s) in *.
  pose proof (sorted_increasing _ _ Hs) as Hinc. change (base :: l.*1) with (((base, 0) :: l).*1) in Hinc.
  assert (Hin : ∃ n, (fp, n) ∈ (base, 0) :: l).
  { destruct Hf as [->|(n & Hn)]; [exists 0; left|exists n; by right]. }
  destruct Hin as (n & Hin). apply list_elem_of_split in Hin as (X & Y & E). rewrite E in Hseg, Hinc.
  apply seg_app in Hseg as [Hx Hy]. apply seg_cons in Hy as [Hp Hy].
  destruct (seg_chain m fp Y base) as [CY EY]; [by rewrite Hp|done|].
  assert (Hhd : hd X fp = base).
  { destruct X as [|[a k] X]; simpl in E; [by injection E|]. by injection E. }
  exists (Y ++ X), n. split; [|split; [|split]].
  - rewrite <-app_assoc. apply chain_split. split; [done|]. apply chain_split.
    destruct (seg_chain m (lst Y fp) X fp) as [CX EX]; [by rewrite EY, Hhd|done|].
    split; [done|]. cbn [chain]. rewrite EX, Hp. done.
  - intros a k Ha. rewrite fmap_app, fmap_cons in Hinc. apply StronglySorted_app in Hinc as (H1 & H2 & H3).
    apply StronglySorted_inv in H3 as [_ H3]. simpl in H3. rewrite Forall_forall in H3.
    apply elem_of_app in Ha as [Ha|Ha].
    + assert (fp < a) by (apply H3, list_elem_of_fmap; by exists (a, k)). lia.
    + assert (a < fp) by (apply H1; [apply list_elem_of_fmap; by exists (a, k)|left]). lia.
  - intros b. rewrite E, !elem_of_app, !elem_of_cons, elem_of_nil. tauto.
  - apply (f_equal length) in E. rewrite length_app in *. simpl in E. lia.
Qed.

(** The walk stops at the first block that is large enough, or goes past them all. *)
Lemma walk_ok ring n s W : ∀ fuel prev,
  chain (u_mem s) prev W → (∀ a k, (a, k) ∈ W → a ≠ u_freep s) →
  (∃ W1 p k W2, W = W1 ++ (p, k) :: W2 ∧ n ≤ k ∧
     malloc_loop (length W + fuel) ring n prev (h_ptr (u_mem s prev)) s =
       Some (take_block n (lst W1 prev) p s)) ∨
  (Forall (λ b, snd b < n) W ∧
   malloc_loop (length W + fuel) ring n prev (h_ptr (u_mem s prev)) s =
   malloc_loop fuel ring n (lst W prev) (h_ptr (u_mem s (lst W prev))) s).
Proof.
  induction W as [|[a k] W IH]; intros fuel prev HC Hne; [by right|].
  destruct HC as (Hp & Hk & HC). rewrite Hp.
  destruct (decide (n ≤ k)) as [Hle|Hgt].
  - left. exists [], a, k, W. split; [done|]. split; [done|]. cbn [length Nat.add malloc_loop].
    rewrite Hk, (proj2 (Z.leb_le _ _)) by done. done.
  - assert (Ha : a ≠ u_freep s) by (apply (Hne a k); left).
    destruct (IH fuel a HC) as [(W1 & p & k' & W2 & -> & Hk' & E)|[Hall E]].
    { intros b k' Hb. apply (Hne b k'). by right. }
    + left. exists ((a, k) :: W1), p, k', W2. split; [done|]. split; [done|].
      cbn [length Nat.add]. cbn [malloc_loop]. rewrite Hk, (proj2 (Z.leb_gt _ _)), (proj2 (Z.eqb_neq _ _)) by (done || lia).
      rewrite lst_cons. exact E.
    + right. split; [constructor; [simpl; lia|done]|]. cbn [length Nat.add]. cbn [malloc_loop].
      rewrite Hk, (proj2 (Z.leb_gt _ _)), (proj2 (Z.eqb_neq _ _)) by (done || lia). rewrite lst_cons. exact E.
Qed.

(** ** Taking a block *)

Lemma adjacent s l prev j p k :
  rep s l → (prev, j) ∈ (base, 0) :: l → h_ptr (u_mem s prev) = p → (p, k) ∈ l →
  ∃ l1 l2, l = l1 ++ (p, k) :: l2 ∧ prev = lst l1 base.
Proof.
  intros [Hb Hseg Hs _] Hin Hp Hk. apply list_elem_of_split in Hin as (X & Y & E). rewrite E in Hseg.
  apply seg_app in Hseg as [_ Hseg]. apply seg_cons in Hseg as [Hm Hseg]. rewrite Hm in Hp. cbn [h_ptr] in Hp.
  assert (Hpb : base < p) by (by destruct (sorted_gt _ _ _ _ Hs Hk)).
  destruct Y as [|[p' k'] Y]; cbn [hd] in Hp; [lia|]. subst p'.
  assert (k' = k) as ->.
  { pose proof (sorted_increasing _ _ Hs) as Hinc. apply StronglySorted_inv in Hinc as [Hinc _].
    assert (Hk' : (p, k') ∈ l).
    { assert ((p, k') ∈ (base, 0) :: l) as [H|H]%elem_of_cons; [|injection H; lia|done].
      rewrite E. apply elem_of_app. right. right. left. }
    apply list_elem_of_split in Hk as (A & C & ->). rewrite fmap_app, fmap_cons in Hinc.
    apply StronglySorted_app in Hinc as (H1 & _ & H3). apply StronglySorted_inv in H3 as [_ H3].
    rewrite Forall_forall in H3. simpl in H1, H3.
    apply elem_of_app in Hk' as [Hk'|[Hk'|Hk']%elem_of_cons].
    - specialize (H1 p p ltac:(apply list_elem_of_fmap; by exists (p, k')) ltac:(left)). lia.
    - by injection Hk'.
    - specialize (H3 p ltac:(apply list_elem_of_fmap; by exists (p, k'))). lia. }
  destruct X as [|b X]; simpl in E.
  - injection E as <- _ ->. by exists [], Y.
  - injection E as _ ->. exists (X ++ [(prev, j)]), Y. by rewrite <-app_assoc, lst_snoc.
Qed.

Record taken (s : ustate) (l : list block) (n : Z) (r : Z * ustate) (l' : list block) : Prop := mkTaken {
  tk_rep : rep (snd r) l';
  tk_brk : u_brk (snd r) = u_brk s;
  tk_was : ∀ x, within (fst r - HSIZE, n) x → covers l x;
  tk_now : ∀ x, covers l' x ↔ covers l x ∧ ¬ within (fst r - HSIZE, n) x;
  tk_header : h_size (u_mem (snd r) (fst r - HSIZE)) = n;
  tk_frame : ∀ a, a ≠ base → ¬ covers l a → u_mem (snd r) a = u_mem s a;
}.

(** The bytes of a block are in no other block. *)
Lemma sorted_apart lo l1 p k l2 x :
  sorted lo (l1 ++ (p, k) :: l2) → within (p, k) x → ¬ covers (l1 ++ l2) x.
Proof.
  rewrite sorted_app. intros [H1 (Hp & Hk & _ & H2)] Hx. rewrite covers_app. unfold covers. rewrite !Exists_exists.
  unfold within in *. simpl in Hx. intros [([a n] & Ha & Hw)|([a n] & Ha & Hw)]; simpl in Hw.
  - destruct (sorted_gt _ _ _ _ H1 Ha) as (_ & _ & _ & ?). lia.
  - destruct (sorted_gt _ _ _ _ H2 Ha) as (? & _). lia.
Qed.

(** The ring with the blocks after [l1] replaced, and with a block resized. *)
Lemma seg_relink m l1 R R' :
  seg m ((base, 0) :: l1 ++ R) base → sorted base l1 → seg m R' base →
  (∀ a, a ∈ R'.*1 → lst l1 base < a) →
  seg (set_ptr (lst l1 base) (hd R' base) m) ((base, 0) :: l1 ++ R') base.
Proof.
  intros Hseg Hs HR Hlt. unfold set_ptr.
  assert (HR' : ∀ h, seg (<[lst l1 base := h]> m) R' base).
  { intros h. apply seg_frame; [|done]. intros Hin. specialize (Hlt _ Hin). lia. }
  destruct l1 as [|[p n] l1 _] using rev_ind.
  - apply seg_cons in Hseg as [Hb _]. apply seg_cons. change (lst [] base) with base in *. cbn [app].
    split; [by rewrite fn_lookup_insert, Hb|apply HR'].
  - rewrite lst_snoc in *. rewrite sorted_app in Hs. destruct Hs as [Hs1 (Hp & _)].
    pose proof (sorted_fin _ _ Hs1). rewrite <-app_assoc in *. cbn [app] in *.
    change ((base, 0) :: l1 ++ (p, n) :: R) with (((base, 0) :: l1) ++ (p, n) :: R) in Hseg.
    change ((base, 0) :: l1 ++ (p, n) :: R') with (((base, 0) :: l1) ++ (p, n) :: R').
    apply seg_app in Hseg as [H1 H2]. apply seg_cons in H2 as [H2 _]. apply seg_app. split.
    + apply seg_frame; [|done]. rewrite fmap_cons. apply not_elem_of_cons. split; [simpl; lia|].
      intros Hin. destruct (sorted_addr _ _ _ Hs1 Hin). lia.
    + apply seg_cons. split; [by rewrite fn_lookup_insert, H2|apply HR'].
Qed.

Lemma seg_resize m X p k k' l2 e :
  seg m (X ++ (p, k) :: l2) e → p ∉ X.*1 → p ∉ l2.*1 → seg (set_size p k' m) (X ++ (p, k') :: l2) e.
Proof.
  rewrite !seg_app, !seg_cons. intros (H1 & H2 & H3) Hx Hl. unfold set_size.
  split; [by apply seg_frame|]. split; [by rewrite fn_lookup_insert, H2|by apply seg_frame].
Qed.

Lemma lst_le_fin l : sorted base l → lst l base ≤ fin base l.
Proof.
  intros Hs. destruct (lst_in l) as [->|(n & Hin)]; [by apply sorted_fin|].
  destruct (sorted_gt _ _ _ _ Hs Hin) as (? & ? & ? & ?). unfold HSIZE in *. lia.
Qed.

Lemma take_block_ok s l1 p k l2 n :
  rep s (l1 ++ (p, k) :: l2) → 1 ≤ n ≤ k →
  ∃ l', taken s (l1 ++ (p, k) :: l2) n (take_block n (lst l1 base) p s) l'.
Proof.
  intros [Hb Hseg Hs _] Hn. pose proof (λ x, sorted_apart _ _ _ _ _ x Hs) as Hapart.
  pose proof Hs as Hs'. rewrite sorted_app in Hs'. destruct Hs' as [Hs1 (Hp & Hk & He & Hs2)].
  pose proof (lst_le_fin _ Hs1) as Hlst. pose proof (sorted_fin _ _ Hs1) as Hfin.
  assert (Hmp : u_mem s p = mkHeader (hd l2 base) k ∧ seg (u_mem s) l2 base).
  { apply seg_cons in Hseg as [_ H]. apply seg_app in H as [_ H]. by apply seg_cons in H. }
  destruct Hmp as [Hmp Hsg2]. unfold take_block. rewrite Hmp. cbn [h_size h_ptr].
  assert (Hl2 : ∀ a, a ∈ l2.*1 → p + HSIZE * k < a) by (intros a Ha; by destruct (sorted_addr _ _ _ Hs2 Ha)).
  destruct (Z.eqb_spec k n) as [->|Hne].
  - exists (l1 ++ l2). assert (E : p + HSIZE - HSIZE = p) by lia.
    split; cbn [fst snd u_mem u_brk u_freep]; rewrite ?E.
    + constructor; cbn [u_mem u_freep]; [done| | |].
      * eapply seg_relink; [done|done|done|]. intros a Ha. specialize (Hl2 a Ha). unfold HSIZE in *. lia.
      * apply sorted_app. split; [done|]. eapply sorted_lower; [|done]. unfold HSIZE in *. lia.
      * destruct (lst_in l1) as [H|(j & H)]; [by left|right; exists j; apply elem_of_app; by left].
    + done.
    + intros x Hx. rewrite covers_app, covers_cons. tauto.
    + intros x. specialize (Hapart x). rewrite !covers_app, covers_cons in *. tauto.
    + unfold set_ptr. rewrite fn_lookup_insert_ne, Hmp by lia. done.
    + intros a Ha Hc. unfold set_ptr. rewrite fn_lookup_insert_ne; [done|].
      destruct (lst_covered _ _ Hs); congruence.
  - exists (l1 ++ (p, k - n) :: l2).
    assert (Hsz : h_size (set_size p (k - n) (u_mem s) p) = k - n) by (unfold set_size; by rewrite fn_lookup_insert).
    cbn zeta. rewrite Hsz.
    rewrite hadd_small by (unfold HSIZE in *; lia). set (q := p + HSIZE * (k - n)).
    assert (E : q + HSIZE - HSIZE = q) by lia. assert (Hq : p < q < p + HSIZE * k) by (unfold q, HSIZE in *; lia).
    split; cbn [fst snd u_mem u_brk u_freep]; rewrite ?E.
    + constructor; cbn [u_mem u_freep]; [done| | |].
      * apply seg_frame.
        { change ((base, 0) :: l1 ++ (p, k - n) :: l2) with (((base, 0) :: l1) ++ (p, k - n) :: l2).
          rewrite fmap_app, !fmap_cons, not_elem_of_app, !not_elem_of_cons. cbn [fst]. repeat split; try lia.
          - intros Hin. destruct (sorted_addr _ _ _ Hs1 Hin). lia.
          - intros Hin. specialize (Hl2 q Hin). lia. }
        apply (seg_resize _ ((base, 0) :: l1) p k); [done| |].
        { rewrite fmap_cons, not_elem_of_cons. cbn [fst]. split; [lia|]. intros Hin.
          destruct (sorted_addr _ _ _ Hs1 Hin). lia. }
        intros Hin. specialize (Hl2 p Hin). unfold HSIZE in *. lia.
      * apply sorted_app. split; [done|]. cbn [sorted]. unfold HSIZE in *. split; [done|]. split; [lia|]. split; [lia|].
        eapply sorted_lower; [|done]. lia.
      * destruct (lst_in l1) as [H|(j & H)]; [by left|right; exists j; apply elem_of_app; by left].
    + done.
    + intros x Hx. rewrite covers_app, covers_cons. right. left. unfold within, q, HSIZE in *. simpl in *. lia.
    + intros x. specialize (Hapart x). rewrite !covers_app, !covers_cons in *.
      assert (within (p, k) x ↔ within (p, k - n) x ∨ within (q, n) x) by (unfold within, q, HSIZE in *; simpl; lia).
      assert (within (p, k - n) x → ¬ within (q, n) x) by (unfold within, q, HSIZE in *; simpl; lia). tauto.
    + unfold set_size. by rewrite fn_lookup_insert.
    + intros a Ha Hc. rewrite covers_app, covers_cons in Hc. unfold set_size.
      rewrite !fn_lookup_insert_ne; [done| |]; intros Ea; apply Hc; right; left;
        unfold within, q, HSIZE in *; simpl; lia.
Qed.

(** ** Allocation *)

Lemma found_block s l n prev p j k :
  rep s l → 1 ≤ n ≤ k → (prev, j) ∈ (base, 0) :: l → h_ptr (u_mem s prev) = p → (p, k) ∈ (base, 0) :: l →
  ∃ l', taken s l n (take_block n prev p s) l'.
Proof.
  intros Hr Hn Hprev Hp Hk. apply elem_of_cons in Hk as [E|Hk]; [injection E; lia|].
  destruct (adjacent s l prev j p k) as (l1 & l2 & -> & ->); try done. by apply take_block_ok.
Qed.

(** The search when a block is large enough, and when none is. *)
Lemma search_ok ring n s l fuel :
  rep s l → 1 ≤ n → Exists (λ b, n ≤ snd b) l → (2 + length l ≤ fuel)%nat →
  ∃ r l', malloc_loop fuel ring n (u_freep s) (h_ptr (u_mem s (u_freep s))) s = Some r ∧ taken s l n r l'.
Proof.
  intros Hr Hn Hex Hf. destruct (ring_walk s l Hr) as (W & f & HC & Hne & Hall & Hlen).
  apply chain_split in HC as [HC HC'].
  assert (Hprev : ∀ W1 W2, W = W1 ++ W2 → ∃ j, (lst W1 (u_freep s), j) ∈ (base, 0) :: l).
  { intros W1 W2 ->. destruct W1 as [|[a j] W1 _] using rev_ind.
    - exists f. apply Hall. apply elem_of_app. right. left.
    - exists j. apply Hall. rewrite lst_snoc, !elem_of_app. left. left. right. left. }
  replace fuel with (length W + (fuel - length W))%nat by lia.
  destruct (walk_ok ring n s W (fuel - length W) (u_freep s) HC Hne) as [(W1 & p & k & W2 & -> & Hk & ->)|[Hsm ->]].
  - destruct (Hprev W1 ((p, k) :: W2)) as [j Hj]; [done|]. apply chain_split in HC as [_ (Hp & _ & _)].
    destruct (found_block s l n (lst W1 (u_freep s)) p j k) as (l' & Ht); try done.
    { apply Hall. rewrite !elem_of_app. left. right. left. }
    by eexists _, l'.
  - destruct (Hprev W []) as [j Hj]; [by rewrite app_nil_r|]. destruct HC' as (Hp & Hk & _). rewrite Hp.
    assert (Hfn : n ≤ f).
    { apply Exists_exists in Hex as ([a k] & Ha & Hak). simpl in Hak.
      assert ((a, k) ∈ W ++ [(u_freep s, f)]) as [Hw|Hw]%elem_of_app by (apply Hall; by right).
      - rewrite Forall_forall in Hsm. specialize (Hsm _ Hw). simpl in Hsm. lia.
      - apply list_elem_of_singleton in Hw. by injection Hw as -> ->. }
    destruct (fuel - length W)%nat as [|g] eqn:Eg; [lia|]. cbn [malloc_loop].
    rewrite Hk, (proj2 (Z.leb_le _ _)) by done.
    destruct (found_block s l n (lst W (u_freep s)) (u_freep s) j f) as (l' & Ht); try done.
    { apply Hall. apply elem_of_app. right. left. }
    by eexists _, l'.
Qed.

Lemma search_fails ring n s l fuel :
  rep s l → 1 ≤ n → ¬ Exists (λ b, n ≤ snd b) l →
  malloc_loop (length l + S fuel) ring n (u_freep s) (h_ptr (u_mem s (u_freep s))) s =
    match morecore ring n s with
    | None => None
    | Some (None, s) => Some (0, s)
    | Some (Some p, s) => malloc_loop fuel ring n p (h_ptr (u_mem s p)) s
    end.
Proof.
  intros Hr Hn Hex. destruct (ring_walk s l Hr) as (W & f & HC & Hne & Hall & Hlen).
  apply chain_split in HC as [HC HC'].
  assert (Hsmall : ∀ a k, (a, k) ∈ (base, 0) :: l → k < n).
  { intros a k [E|Ha]%elem_of_cons; [injection E; lia|]. apply Z.nle_gt. intros Hle. apply Hex, Exists_exists.
    by exists (a, k). }
  rewrite <-Hlen.
  destruct (walk_ok ring n s W (S fuel) (u_freep s) HC Hne) as [(W1 & p & k & W2 & -> & Hk & _)|[_ ->]].
  - exfalso. assert (k < n); [|lia]. apply (Hsmall p), Hall. rewrite !elem_of_app. left. right. left.
  - destruct HC' as (Hp & Hk & _). rewrite Hp. cbn [malloc_loop].
    assert (f < n) by (apply (Hsmall (u_freep s)), Hall, elem_of_app; right; left).
    by rewrite Hk, (proj2 (Z.leb_gt _ _)), Z.eqb_refl by done.
Qed.

Lemma covers_gt lo l x : sorted lo l → covers l x → lo < x.
Proof.
  intros Hs ([a n] & Hin & Hw)%Exists_exists. destruct (sorted_gt _ _ _ _ Hs Hin) as (? & _).
  unfold within in Hw. simpl in Hw. lia.
Qed.

(** ** The heap *)

Section heap.
(** [brk b] is the end of the heap.  [sbrk] returns it and moves it up, or fails. *)
Context (brk : B → Z) (Hbase : 0 < base).
Context (Hsbrk : ∀ n b, 0 ≤ n →
  let (p, b') := sbrk n b in
  (p = -1 ∧ brk b' = brk b) ∨ (p = brk b ∧ brk b' = brk b + n ∧ brk b + n ≤ 2147483648)).

(** The free blocks are [l], all below the end of the heap. *)
Record free_list (s : ustate) (l : list block) : Prop := mkFreeList {
  fl_rep : rep s l;
  fl_brk : base < brk (u_brk s) ≤ 2147483648;
  fl_below : ∀ x, covers l x → x < brk (u_brk s);
}.

(** The free bytes are now those of [l']: those of [l] and new ones. *)
Record grown (s : ustate) (l : list block) (s' : ustate) (l' : list block) : Prop := mkGrown {
  gr_free : free_list s' l';
  gr_brk : brk (u_brk s) ≤ brk (u_brk s');
  gr_covers : ∀ x, covers l' x ↔ covers l x ∨ brk (u_brk s) ≤ x < brk (u_brk s');
  gr_frame : ∀ a, a ≠ base → ¬ covers l a → a < brk (u_brk s) → u_mem s' a = u_mem s a;
}.

(** [sbrk] failed. *)
Definition refused (s : ustate) : Prop := ∃ n b', sbrk n (u_brk s) = (-1, b').

Lemma morecore_ok ring n s l :
  free_list s l → 1 ≤ n → HSIZE * n < 2147483648 → (2 + length l ≤ ring)%nat →
  (∃ s', morecore ring n s = Some (None, s') ∧ free_list s' l ∧
     brk (u_brk s') = brk (u_brk s) ∧ u_mem s' = u_mem s ∧ refused s) ∨
  (∃ s' l', morecore ring n s = Some (Some (u_freep s'), s') ∧ grown s l s' l' ∧
     Exists (λ b, n ≤ snd b) l' ∧ (length l' ≤ S (length l))%nat).
Proof.
  intros [Hr Hb Hlt] Hn H8 Hring. unfold morecore.
  set (nu := if n <? 4096 then 4096 else n).
  assert (Hnu : n ≤ nu ∧ 1 ≤ nu ∧ 0 ≤ HSIZE * nu < 2147483648).
  { unfold nu, HSIZE in *. destruct (Z.ltb_spec n 4096); lia. }
  replace (s32 (nu * HSIZE)) with (HSIZE * nu) by (rewrite Z.mul_comm; symmetry; apply s32_small; lia).
  specialize (Hsbrk (HSIZE * nu) (u_brk s) ltac:(lia)).
  destruct (sbrk (HSIZE * nu) (u_brk s)) as [p b'] eqn:Esb. destruct Hsbrk as [[-> Eb]|(-> & Eb & Hend)].
  - left. rewrite Z.eqb_refl. eexists. split; [done|]. cbn [u_brk u_mem].
    destruct Hr. split; [|split; [done|split; [done|by eexists _, _]]].
    split; cbn [u_brk]; rewrite ?Eb; [by constructor|done|done].
  - right. rewrite (proj2 (Z.eqb_neq _ _)) by lia.
    set (s1 := mkUstate (set_size (brk (u_brk s)) nu (u_mem s)) (u_freep s) b').
    assert (Hbr : ∀ a, a ∈ l.*1 → a < brk (u_brk s)).
    { intros a ([a' k] & -> & Hin)%list_elem_of_fmap. apply Hlt. eapply covers_addr; [apply Hr|done]. }
    assert (Hr1 : rep s1 l).
    { destruct Hr as [R1 R2 R3 R4]. constructor; [done| |done|done]. apply seg_frame; [|done].
      rewrite fmap_cons, not_elem_of_cons. cbn [fst]. split; [lia|]. intros Hin. specialize (Hbr _ Hin). lia. }
    destruct (free_ok ring s1 l (brk (u_brk s)) nu) as (s' & l' & -> & Hr' & Eb' & Hcov & (a & k & Ha & Hk) & Hlen & Hfr);
      try done; try lia.
    { unfold s1, set_size. cbn [u_mem]. by rewrite fn_lookup_insert. }
    { intros x Hx Hc. specialize (Hlt x Hc). unfold within in Hx. simpl in Hx. lia. }
    exists s', l'. split; [done|]. change (u_brk s1) with b' in Eb'. rewrite <-Eb' in Eb.
    assert (Hc' : ∀ x, covers l' x ↔ covers l x ∨ brk (u_brk s) ≤ x < brk (u_brk s')).
    { intros x. rewrite Hcov, Eb. done. }
    split; [|split; [apply Exists_exists; exists (a, k); split; [done|simpl; lia]|done]].
    split; [|lia|done|].
    + split; [done|lia|]. intros x Hx. apply Hc' in Hx as [Hx|Hx]; [specialize (Hlt x Hx)|]; lia.
    + intros a' Hne Hnc Hl. rewrite Hfr by (done || lia). unfold s1, set_size. cbn [u_mem].
      by rewrite fn_lookup_insert_ne by lia.
Qed.

(** What [malloc] gives: a null pointer, when there is no memory left, or a block
    of [n] units that was free or is new. *)
Definition given (s : ustate) (l : list block) (n : Z) (r : Z * ustate) : Prop :=
  (fst r = 0 ∧ free_list (snd r) l ∧ brk (u_brk (snd r)) = brk (u_brk s) ∧ u_mem (snd r) = u_mem s ∧
   refused s) ∨
  (base < fst r - HSIZE ∧
   ∃ s1 l1 l', grown s l s1 l1 ∧ taken s1 l1 n r l').

Lemma malloc_loop_ok ring n s l fuel :
  free_list s l → 1 ≤ n → HSIZE * n < 2147483648 → (2 + length l ≤ ring)%nat → (4 + 2 * length l ≤ fuel)%nat →
  ∃ r, malloc_loop fuel ring n (u_freep s) (h_ptr (u_mem s (u_freep s))) s = Some r ∧ given s l n r.
Proof.
  intros Hfl Hn H8 Hring Hfuel.
  assert (Hsel : ∀ s1 l1 fuel, grown s l s1 l1 → Exists (λ b, n ≤ snd b) l1 → (2 + length l1 ≤ fuel)%nat →
    ∃ r, malloc_loop fuel ring n (u_freep s1) (h_ptr (u_mem s1 (u_freep s1))) s1 = Some r ∧ given s l n r).
  { intros s1 l1 fuel1 Hg Hex Hf1. pose proof (fl_rep _ _ (gr_free _ _ _ _ Hg)) as Hr1.
    destruct (search_ok ring n s1 l1 fuel1) as (r & l' & -> & Ht); try done.
    exists r. split; [done|]. right. split; [|by eexists _, _, _].
    eapply covers_gt; [apply Hr1|]. apply (tk_was _ _ _ _ _ Ht). unfold within, HSIZE. simpl. lia. }
  destruct (decide (Exists (λ b, n ≤ snd b) l)) as [Hex|Hex].
  - apply (Hsel s l); [|done|lia]. split; [done|lia| |done]. intros x. split; [by left|intros [|]; [done|lia]].
  - replace fuel with (length l + S (fuel - S (length l)))%nat by lia.
    rewrite search_fails; [|apply Hfl|done|done].
    destruct (morecore_ok ring n s l) as [(s' & -> & Hf' & Eb & Em & Hno)|(s' & l' & -> & Hg & Hex' & Hlen)]; try done.
    + exists (0, s'). split; [done|]. by left.
    + apply (Hsel s' l'); [done|done|lia].
Qed.

(** *** What a program does with the heap *)

(** The state and the blocks that are in use. *)
Record heap := mkHeap { hp_state : ustate; hp_used : list block }.

Definition size_ok (nbytes : Z) : Prop := 0 ≤ nbytes < 2147483632.

(** The program allocates, frees a block it holds, or writes in one. *)
Inductive heap_step : heap → heap → Prop :=
| step_malloc s A fuel ring nbytes p s' :
    size_ok nbytes → malloc fuel ring nbytes s = Some (p, s') → p ≠ 0 →
    heap_step (mkHeap s A) (mkHeap s' ((p - HSIZE, nunits nbytes) :: A))
| step_null s A fuel ring nbytes s' :
    size_ok nbytes → malloc fuel ring nbytes s = Some (0, s') →
    heap_step (mkHeap s A) (mkHeap s' A)
| step_free s A1 b A2 fuel s' :
    free fuel (fst b + HSIZE) s = Some s' →
    heap_step (mkHeap s (A1 ++ b :: A2)) (mkHeap s' (A1 ++ A2))
| step_write s A b m' :
    b ∈ A → (∀ a, ¬ fst b < a < fst b + HSIZE * snd b → m' a = u_mem s a) →
    heap_step (mkHeap s A) (mkHeap (mkUstate m' (u_freep s) (u_brk s)) A).

Definition apart (b c : block) : Prop := ∀ x, within b x → ¬ within c x.

(** A block in use. *)
Record used_ok (s : ustate) (l : list block) (b : block) : Prop := mkUsed {
  us_addr : base < fst b;
  us_size : 1 ≤ snd b;
  us_end : fst b + HSIZE * snd b ≤ brk (u_brk s);
  us_header : h_size (u_mem s (fst b)) = snd b;
  us_apart : ∀ x, within b x → ¬ covers l x;
}.

(** The heap before the first call of [malloc], and after it. *)
Definition fresh (s : ustate) : Prop := u_freep s = 0 ∧ base < brk (u_brk s) ≤ 2147483648.

Definition heap_inv (h : heap) : Prop :=
  (fresh (hp_state h) ∧ hp_used h = []) ∨
  ∃ l, free_list (hp_state h) l ∧ Forall (used_ok (hp_state h) l) (hp_used h) ∧ StronglySorted apart (hp_used h).

Lemma nunits_ok nbytes : size_ok nbytes → 1 ≤ nunits nbytes ∧ HSIZE * nunits nbytes < 2147483648 ∧
  nbytes ≤ HSIZE * (nunits nbytes - 1).
Proof.
  intros H. unfold nunits, size_ok, HSIZE in *. rewrite (u32_small (nbytes + 8 - 1)) by (unfold is_u32; lia).
  pose proof (Z.div_mod (nbytes + 8 - 1) 8 ltac:(lia)). pose proof (Z.mod_pos_bound (nbytes + 8 - 1) 8 ltac:(lia)).
  rewrite u32_small by (unfold is_u32; lia). lia.
Qed.

Lemma used_grown s l s' l' b : grown s l s' l' → used_ok s l b → used_ok s' l' b.
Proof.
  intros Hg [U1 U2 U3 U4 U5]. assert (Hw : within b (fst b)) by (unfold within, HSIZE in *; lia).
  split; [done|done|pose proof (gr_brk _ _ _ _ Hg); lia| |].
  - rewrite (gr_frame _ _ _ _ Hg); [done|lia|by apply U5|unfold HSIZE in *; lia].
  - intros x Hx. rewrite (gr_covers _ _ _ _ Hg). intros [Hc|Hc]; [by apply (U5 x)|].
    unfold within in Hx. lia.
Qed.

Lemma used_taken s l n r l' b : taken s l n r l' → used_ok s l b → used_ok (snd r) l' b.
Proof.
  intros Ht [U1 U2 U3 U4 U5]. assert (Hw : within b (fst b)) by (unfold within, HSIZE in *; lia).
  split; [done|done|by rewrite (tk_brk _ _ _ _ _ Ht)| |].
  - rewrite (tk_frame _ _ _ _ _ Ht); [done|lia|by apply U5].
  - intros x Hx. rewrite (tk_now _ _ _ _ _ Ht). intros [Hc _]. by apply (U5 x).
Qed.

Lemma taken_free_list s l n r l' : free_list s l → taken s l n r l' → free_list (snd r) l'.
Proof.
  intros [_ F2 F3] Ht. split; rewrite ?(tk_brk _ _ _ _ _ Ht); [apply Ht|done|].
  intros x Hx. apply F3. by apply (tk_now _ _ _ _ _ Ht) in Hx as [].
Qed.

Lemma taken_used s l n r l' :
  free_list s l → 1 ≤ n → base < fst r - HSIZE → taken s l n r l' → used_ok (snd r) l' (fst r - HSIZE, n).
Proof.
  intros [_ _ F3] Hn Hb Ht. split; cbn [fst snd]; [done|done| |by apply Ht|].
  - rewrite (tk_brk _ _ _ _ _ Ht). set (x := fst r - HSIZE + HSIZE * n - 1).
    assert (Hx : x < brk (u_brk s)).
    { apply F3, (tk_was _ _ _ _ _ Ht). unfold within, x, HSIZE. simpl. lia. }
    unfold x in Hx. lia.
  - intros x Hx. rewrite (tk_now _ _ _ _ _ Ht). tauto.
Qed.

(** The call of [malloc]. *)
Definition malloc_goes (h : heap) (nbytes : Z) (r : Z * ustate) : Prop :=
  if decide (fst r = 0) then heap_inv (mkHeap (snd r) (hp_used h)) ∧ refused (hp_state h)
  else heap_inv (mkHeap (snd r) ((fst r - HSIZE, nunits nbytes) :: hp_used h)).

Lemma given_goes s l A nbytes r :
  free_list s l → Forall (used_ok s l) A → StronglySorted apart A → size_ok nbytes →
  given s l (nunits nbytes) r → malloc_goes (mkHeap s A) nbytes r.
Proof.
  intros Hf HA Hs Hsz Hg. destruct (nunits_ok _ Hsz) as (Hn & _ & _). unfold malloc_goes. cbn [hp_used].
  destruct Hg as [(Hz & Hf' & Eb & Em & Hno)|(Hb & s1 & l1 & l' & Hg & Ht)].
  - rewrite decide_True by done. split; [|done]. right. exists l. split; [done|]. split; [|done].
    eapply Forall_impl; [exact HA|]. intros b [U1 U2 U3 U4 U5]. by split; cbn [hp_state]; rewrite ?Eb, ?Em.
  - rewrite decide_False by (unfold HSIZE in *; lia). right. exists l'. cbn [hp_state hp_used].
    pose proof (gr_free _ _ _ _ Hg) as Hf1. pose proof (taken_used _ _ _ _ _ Hf1 Hn Hb Ht) as Hu.
    assert (HA1 : Forall (used_ok s1 l1) A) by (eapply Forall_impl; [exact HA|intros b; by apply used_grown]).
    split; [by eapply taken_free_list|]. split; constructor; [done| |done|].
    + eapply Forall_impl; [exact HA1|]. intros b. by eapply used_taken.
    + eapply Forall_impl; [exact HA1|]. intros b Hb1 x Hx Hx'.
      apply (us_apart _ _ _ Hb1 x Hx'). by apply (tk_was _ _ _ _ _ Ht).
Qed.

Lemma inv_malloc h nbytes :
  heap_inv h → size_ok nbytes → ∃ k, ∀ fuel ring, (k ≤ fuel)%nat → (k ≤ ring)%nat →
    ∃ r, malloc fuel ring nbytes (hp_state h) = Some r ∧ malloc_goes h nbytes r.
Proof.
  destruct h as [s A]. cbn [hp_state]. intros Hi Hsz. destruct (nunits_ok _ Hsz) as (Hn & H8 & _).
  assert (Hgo : ∀ s l, free_list s l → Forall (used_ok s l) A → StronglySorted apart A →
    ∃ k, ∀ fuel ring, (k ≤ fuel)%nat → (k ≤ ring)%nat →
    ∃ r, malloc_loop fuel ring (nunits nbytes) (u_freep s) (h_ptr (u_mem s (u_freep s))) s = Some r ∧
         malloc_goes (mkHeap s A) nbytes r).
  { intros s1 l Hf HA Hs. exists (4 + 2 * length l)%nat. intros fuel ring Hk1 Hk2.
    destruct (malloc_loop_ok ring (nunits nbytes) s1 l fuel) as (r & -> & Hg); [done|done|done|lia|lia|].
    exists r. split; [done|]. by eapply given_goes. }
  destruct Hi as [[[Hz Hb] Hnil]|(l & Hf & HA & Hs)]; cbn [hp_state hp_used] in *.
  - subst A. unfold malloc. rewrite Hz, Z.eqb_refl. cbn zeta.
    apply (Hgo (mkUstate (<[base := mkHeader base 0]> (u_mem s)) base (u_brk s)) []); [|constructor..].
    split; [|done|by intros x ?%Exists_nil]. constructor; [done| |done|by left]. cbn [u_mem seg].
    split; [by rewrite fn_lookup_insert|done].
  - unfold malloc. rewrite (proj2 (Z.eqb_neq _ _)); [by apply (Hgo s l)|].
    destruct (rep_freep _ _ (fl_rep _ _ Hf)) as [->|(n & Hin)]; [lia|].
    destruct (sorted_gt _ _ _ _ (rep_sorted _ _ (fl_rep _ _ Hf)) Hin). lia.
Qed.

Lemma inv_free s A1 b A2 :
  heap_inv (mkHeap s (A1 ++ b :: A2)) → ∃ k, ∀ fuel, (k ≤ fuel)%nat →
    ∃ s', free fuel (fst b + HSIZE) s = Some s' ∧ heap_inv (mkHeap s' (A1 ++ A2)).
Proof.
  intros [[_ Hnil]|(l & [Hr Hb Hlt] & HA & Hs)]; cbn [hp_state hp_used] in *; [by destruct A1|].
  exists (2 + length l)%nat. intros fuel Hk. destruct b as [bp N]. cbn [fst].
  apply Forall_app in HA as [HA1 HA2]. apply Forall_cons in HA2 as [[U1 U2 U3 U4 U5] HA2]. cbn [fst snd] in *.
  destruct (free_ok fuel s l bp N) as (s' & l' & -> & Hr' & Eb & Hcov & _ & _ & Hfr); try done; [lia|].
  exists s'. split; [done|]. right. exists l'. cbn [hp_state hp_used].
  apply StronglySorted_app in Hs as (S1 & S2 & S3). apply StronglySorted_inv in S3 as [S3 S4].
  assert (Hap : Forall (λ c, apart c (bp, N)) (A1 ++ A2)).
  { apply Forall_app. split; [apply Forall_forall; intros c Hc; apply S1; [done|left]|].
    eapply Forall_impl; [exact S4|]. intros c Hc x Hx Hx'. by apply (Hc x). }
  split; [|split].
  - split; rewrite ?Eb; [done|done|]. intros x Hx. apply Hcov in Hx as [Hx|Hx]; [by apply Hlt|].
    unfold within in Hx. simpl in Hx. lia.
  - assert (HA : Forall (used_ok s l) (A1 ++ A2)) by (by apply Forall_app).
    apply Forall_forall. intros c Hc. rewrite Forall_forall in HA, Hap.
    destruct (HA c Hc) as [V1 V2 V3 V4 V5]. specialize (Hap c Hc).
    assert (Hw : within c (fst c)) by (unfold within, HSIZE in *; lia).
    split; rewrite ?Eb; [done|done|done| |].
    + rewrite Hfr; [done|lia|by apply V5|]. intros E. apply (Hap (fst c) Hw). unfold within, HSIZE in *. simpl. lia.
    + intros x Hx. rewrite Hcov. intros [Hc'|Hc']; [by apply (V5 x)|by apply (Hap x)].
  - apply StronglySorted_app. split; [|done]. intros c d Hc Hd. apply S1; [done|by right].
Qed.

Lemma inv_write s A b m' :
  heap_inv (mkHeap s A) → b ∈ A → (∀ a, ¬ fst b < a < fst b + HSIZE * snd b → m' a = u_mem s a) →
  heap_inv (mkHeap (mkUstate m' (u_freep s) (u_brk s)) A).
Proof.
  intros [[_ Hnil]|(l & [Hr Hb Hlt] & HA & Hs)] Hin Hm; cbn [hp_state hp_used] in *; [subst A; by apply not_elem_of_nil in Hin|].
  right. exists l. cbn [hp_state hp_used]. pose proof HA as HA'. rewrite Forall_forall in HA.
  pose proof (HA b Hin) as [U1 U2 U3 U4 U5].
  assert (Hout : ∀ a, a = base ∨ covers l a → m' a = u_mem s a).
  { intros a Ha. apply Hm. intros Hi. destruct Ha as [->|Ha]; [lia|]. apply (U5 a); [|done]. unfold within. lia. }
  split; [|split; [|done]].
  - destruct Hr as [R1 R2 R3 R4]. split; [constructor; [done| |done|done]|done|done].
    eapply seg_ext; [|exact R2]. intros a Ha. apply Hout. rewrite fmap_cons in Ha.
    apply elem_of_cons in Ha as [->|([a' k] & -> & Ha)%list_elem_of_fmap]; [by left|right]. by eapply covers_addr.
  - apply Forall_forall. intros c Hc. destruct (HA c Hc) as [V1 V2 V3 V4 V5]. split; cbn [u_brk u_mem]; try done.
    rewrite <-V4. f_equal. apply Hm. intros Hi.
    assert (Hbc : b = c ∨ apart b c ∨ apart c b).
    { apply list_elem_of_split in Hin as (X & Y & ->). apply StronglySorted_app in Hs as (S1 & _ & S3).
      apply StronglySorted_inv in S3 as [_ S4]. rewrite Forall_forall in S4.
      apply elem_of_app in Hc as [Hc|[->|Hc]%elem_of_cons]; [right; right|by left|right; left; by apply S4].
      apply S1; [done|left]. }
    assert (within b (fst c)) by (unfold within; lia).
    assert (within c (fst c)) by (unfold within, HSIZE in *; lia).
    destruct Hbc as [->|[H1|H1]]; [lia|by apply (H1 (fst c))|by apply (H1 (fst c))].
Qed.

(** More fuel gives the same result. *)
Lemma free_find_mono m bp : ∀ fuel fuel' p q, (fuel ≤ fuel')%nat →
  free_find fuel m bp p = Some q → free_find fuel' m bp p = Some q.
Proof.
  induction fuel as [|fuel IH]; intros [|fuel'] p q Hle H; [done|done|lia|]. cbn [free_find] in *.
  repeat case_match; try done. by apply IH; [lia|].
Qed.

Lemma free_mono fuel fuel' ap s s' : (fuel ≤ fuel')%nat → free fuel ap s = Some s' → free fuel' ap s = Some s'.
Proof.
  intros Hle. unfold free. destruct (free_find fuel _ _ _) eqn:E; [|done]. by rewrite (free_find_mono _ _ _ fuel' _ _ Hle E).
Qed.

Lemma morecore_mono fuel fuel' n s r : (fuel ≤ fuel')%nat → morecore fuel n s = Some r → morecore fuel' n s = Some r.
Proof.
  intros Hle. unfold morecore. destruct (sbrk _ _) as [p b]. case_match; [done|].
  destruct (free fuel _ _) eqn:E; [|done]. by rewrite (free_mono _ fuel' _ _ _ Hle E).
Qed.

Lemma malloc_loop_mono ring ring' n : (ring ≤ ring')%nat → ∀ fuel fuel' prevp p s r, (fuel ≤ fuel')%nat →
  malloc_loop fuel ring n prevp p s = Some r → malloc_loop fuel' ring' n prevp p s = Some r.
Proof.
  intros Hring. induction fuel as [|fuel IH]; intros [|fuel'] prevp p s r Hle H; [done|done|lia|]. cbn [malloc_loop] in *.
  case_match; [done|]. case_match; [|by apply IH; [lia|]].
  destruct (morecore ring n s) as [o|] eqn:E; [|done]. rewrite (morecore_mono _ ring' _ _ _ Hring E).
  destruct o as [[q|] s1]; [|done]. by apply IH; [lia|].
Qed.

Lemma malloc_mono fuel fuel' ring ring' nbytes s r : (fuel ≤ fuel')%nat → (ring ≤ ring')%nat →
  malloc fuel ring nbytes s = Some r → malloc fuel' ring' nbytes s = Some r.
Proof. intros. by eapply malloc_loop_mono. Qed.

Lemma inv_step h h' : heap_inv h → heap_step h h' → heap_inv h'.
Proof.
  intros Hi Hst. destruct Hst as [s A fuel ring nbytes p s' Hsz E Hp|s A fuel ring nbytes s' Hsz E|s A1 b A2 fuel s' E|s A b m' Hb Hm].
  - destruct (inv_malloc _ nbytes Hi Hsz) as (k & Hk).
    destruct (Hk (k + fuel)%nat (k + ring)%nat) as (r & E' & Hg); [lia|lia|].
    cbn [hp_state] in E'. apply (malloc_mono _ (k + fuel) _ (k + ring)) in E; [|lia|lia]. rewrite E in E'.
    injection E' as <-. unfold malloc_goes in Hg. by rewrite decide_False in Hg.
  - destruct (inv_malloc _ nbytes Hi Hsz) as (k & Hk).
    destruct (Hk (k + fuel)%nat (k + ring)%nat) as (r & E' & Hg); [lia|lia|].
    cbn [hp_state] in E'. apply (malloc_mono _ (k + fuel) _ (k + ring)) in E; [|lia|lia]. rewrite E in E'.
    injection E' as <-. unfold malloc_goes in Hg. rewrite decide_True in Hg by done. apply Hg.
  - destruct (inv_free _ _ _ _ Hi) as (k & Hk). destruct (Hk (k + fuel)%nat) as (s1 & E' & Hg); [lia|].
    apply (free_mono _ (k + fuel)) in E; [|lia]. rewrite E in E'. by injection E' as <-.
  - by eapply inv_write.
Qed.

Lemma reachable_inv s h : fresh s → rtc heap_step (mkHeap s []) h → heap_inv h.
Proof.
  intros Hf Hst. assert (Hi : heap_inv (mkHeap s [])) by (by left).
  induction Hst as [|x y z Hxy _ IH]; [done|]. apply IH. by eapply inv_step.
Qed.

Lemma used_apart h : heap_inv h → StronglySorted apart (hp_used h).
Proof. intros [[_ ->]|(l & _ & _ & H)]; [constructor|done]. Qed.


(** Memory that was given back is used again: after [free] of a block in use, a [malloc]
    that fits in it does not ask [sbrk] for more and does not fail. *)
Theorem free_then_malloc s t A1 b A2 nbytes :
  fresh s → rtc heap_step (mkHeap s []) (mkHeap t (A1 ++ b :: A2)) → size_ok nbytes → nunits nbytes ≤ snd b →
  ∃ k t' p t'', ∀ fuel ring, (k ≤ fuel)%nat →
    free fuel (fst b + HSIZE) t = Some t' ∧ malloc fuel ring nbytes t' = Some (p, t'') ∧
    p ≠ 0 ∧ u_brk t'' = u_brk t.
Proof.
  intros Hf Hst Hsz Hle. apply (reachable_inv s) in Hst as [[_ Hnil]|(l & [Hr Hb Hlt] & HA & _)]; [by destruct A1| |done].
  cbn [hp_state hp_used] in *. destruct b as [bp N]. apply Forall_app in HA as [_ HA].
  apply Forall_cons in HA as [[U1 U2 U3 U4 U5] _]. cbn [fst snd] in *.
  destruct (free_ok (2 + length l) t l bp N) as (t' & l' & E & Hr' & Eb & _ & (a & n & Hin & HN) & Hlen & _); try done; [lia|].
  destruct (nunits_ok _ Hsz) as (Hn & _).
  assert (Hex : Exists (λ b, nunits nbytes ≤ snd b) l') by (apply Exists_exists; exists (a, n); split; [done|simpl; lia]).
  destruct (search_ok 0 (nunits nbytes) t' l' (2 + length l')) as ([p t''] & l'' & E' & Ht); [done|done|done|lia|].
  exists (2 + length l + length l')%nat, t', p, t''. intros fuel ring Hk.
  split; [eapply free_mono; [|exact E]; lia|]. split; [|split].
  - unfold malloc. rewrite (proj2 (Z.eqb_neq _ _)).
    { eapply malloc_loop_mono; [| |exact E']; lia. }
    destruct (rep_freep _ _ Hr') as [->|(j & Hj)]; [lia|].
    destruct (sorted_gt _ _ _ _ (rep_sorted _ _ Hr') Hj). lia.
  - assert (base < p - HSIZE); [|unfold HSIZE in *; lia].
    eapply covers_gt; [apply Hr'|]. apply (tk_was _ _ _ _ _ Ht). unfold within, HSIZE. simpl. lia.
  - pose proof (tk_brk _ _ _ _ _ Ht) as E2. cbn [snd] in E2. congruence.
Qed.
End heap.

(** The rounding of the size wraps around: [malloc] of almost 4 GB is [malloc] of 0 bytes,
    and so gives a block that holds nothing. *)
Theorem malloc_wraps fuel ring nbytes s :
  4294967289 ≤ nbytes ≤ 4294967295 → malloc fuel ring nbytes s = malloc fuel ring 0 s ∧ nunits nbytes = 1.
Proof.
  intros H. assert (E : nunits nbytes = 1).
  { unfold nunits, HSIZE. replace (u32 (nbytes + 8 - 1)) with (nbytes + 8 - 1 - 4294967296).
    - rewrite Z.div_small by lia. done.
    - unfold u32. symmetry. rewrite <-(Z.mod_add _ (-1)) by lia. rewrite Z.mod_small; lia. }
  split; [|done]. unfold malloc. by rewrite E.
Qed.
End umalloc.

(** * Examples *)

(** A heap that may grow up to 1 MB. *)
Definition demo_sbrk (n b : Z) : Z * Z := if b + n <=? 1048576 then (b, b + n) else (-1, b).

Definition demo_heap : ustate (B := Z) := mkUstate (λ _, mkHeader 0 0) 0 8192.

Lemma demo_sbrk_ok n b : 0 ≤ n →
  let (p, b') := demo_sbrk n b in (p = -1 ∧ b' = b) ∨ (p = b ∧ b' = b + n ∧ b + n ≤ 2147483648).
Proof. intros H. unfold demo_sbrk. destruct (Z.leb_spec (b + n) 1048576); [right; lia|by left]. Qed.

Lemma demo_fresh : fresh 4096 id demo_heap.
Proof. split; [done|]. unfold demo_heap. cbn. lia. Qed.

Lemma default_Some {A} (d : A) (x : option A) : match x with Some _ => true | None => false end = true → x = Some (default d x).
Proof. by destruct x. Qed.

(** After [malloc(100)], then after [malloc(50)]. *)
Definition demo_100 : Z * ustate := default (0, demo_heap) (malloc demo_sbrk 4096 9 9 100 demo_heap).
Definition demo_50 : Z * ustate := default (0, demo_heap) (malloc demo_sbrk 4096 9 9 50 (snd demo_100)).

Definition demo_used : list (Z * Z) := [(fst demo_50 - HSIZE, nunits 50); (fst demo_100 - HSIZE, nunits 100)].

Lemma demo_reachable :
  rtc (heap_step demo_sbrk 4096) (mkHeap demo_heap []) (mkHeap (snd demo_50) demo_used).
Proof.
  apply (rtc_l _ _ (mkHeap (snd demo_100) [(fst demo_100 - HSIZE, nunits 100)])).
  - apply (step_malloc _ _ _ _ 9 9 100); [unfold size_ok; lia| |by vm_compute].
    rewrite <-surjective_pairing. apply default_Some. by vm_compute.
  - apply rtc_once. apply (step_malloc _ _ _ _ 9 9 50); [unfold size_ok; lia| |by vm_compute].
    rewrite <-surjective_pairing. apply default_Some. by vm_compute.
Qed.


Lemma free_then_malloc_witness :
  ∃ k t' p t'', ∀ fuel ring, (k ≤ fuel)%nat →
    free fuel (fst demo_100) (snd demo_50) = Some t' ∧ malloc demo_sbrk 4096 fuel ring 100 t' = Some (p, t'') ∧
    p ≠ 0 ∧ u_brk t'' = u_brk (snd demo_50).
Proof.
  replace (fst demo_100) with (fst (fst demo_100 - HSIZE, nunits 100) + HSIZE) by (cbn [fst]; lia).
  apply (free_then_malloc demo_sbrk 4096 id ltac:(lia) demo_sbrk_ok demo_heap (snd demo_50)
    [(fst demo_50 - HSIZE, nunits 50)] (fst demo_100 - HSIZE, nunits 100) [] 100).
  - exact demo_fresh.
  - exact demo_reachable.
  - unfold size_ok. lia.
  - done.
Defined.

Lemma malloc_wraps_witness :
  malloc demo_sbrk 4096 9 9 4294967295 demo_heap = malloc demo_sbrk 4096 9 9 0 demo_heap ∧ nunits 4294967295 = 1.
Proof. apply (malloc_wraps demo_sbrk 4096 9 9 4294967295 demo_heap). lia. Defined.
