(* ===== verification/LabSh.v ===== *)
(** The shell of lab-02/sh.c.

    A line is the list of its bytes; a position in it is what is left of it.
    The parser builds commands with copies of the words ([mkcopy]), so that a
    command holds its words.  [runcmd] is followed up to [execvp]: the
    descriptors of the process and the arguments with which it becomes another
    program.  What the system calls answer is an argument.

    The theorems say that a line written from a command is parsed to that
    command, and what its program finds in its descriptors: of
    several redirections of one descriptor the first one counts. *)

From S2P Require Import Prelude.

Definition MAXARGS : nat := 10.

Definition O_RDONLY : Z := 0.
Definition O_WRONLY : Z := 1.
Definition O_CREAT : Z := 64.
Definition O_TRUNC : Z := 512.

Abbreviation bytes := (list Z).

Inductive cmd :=
| EXEC (argv : list bytes)
| REDIR (cmd : cmd) (file : bytes) (mode fd : Z)
| PIPE (left right : cmd).

(** The code of a character. *)
Definition LT : Z := 60.
Definition GT : Z := 62.
Definition BAR : Z := 124.

Definition execcmd : cmd := EXEC [].

Definition redircmd (subcmd : cmd) (file : bytes) (type : Z) : cmd :=
  REDIR subcmd file (if type =? LT then O_RDONLY else Z.lor (Z.lor O_WRONLY O_CREAT) O_TRUNC) (if type =? LT then 0 else 1).

Definition pipecmd (left right : cmd) : cmd := PIPE left right.

(** * The parser *)

Definition whitespace (c : Z) : bool := existsb (Z.eqb c) [32; 9; 13; 10; 11].
Definition symbols (c : Z) : bool := existsb (Z.eqb c) [LT; BAR; GT].
#[global] Arguments whitespace : simpl never.
#[global] Arguments symbols : simpl never.

Fixpoint skip_space (s : bytes) : bytes :=
  match s with
  | [] => []
  | c :: s' => if whitespace c then skip_space s' else s
  end.

Fixpoint skip_word (s : bytes) : bytes * bytes :=
  match s with
  | [] => ([], [])
  | c :: s' =>
      if negb (whitespace c) && negb (symbols c)
      then let '(w, r) := skip_word s' in (c :: w, r) else ([], s)
  end.

(** The kind of the next token (0 at the end, 97 for a word), the copy of it
    and what follows it. *)
Definition gettoken (ps : bytes) : Z * bytes * bytes :=
  match skip_space ps with
  | [] => (0, [], [])
  | c :: s =>
      if (c =? BAR) || (c =? LT) || (c =? GT) then (c, [c], skip_space s)
      else let '(w, r) := skip_word (c :: s) in (97, w, skip_space r)
  end.

Definition peek (ps : bytes) (toks : bytes) : bool * bytes :=
  let s := skip_space ps in
  (match s with c :: _ => existsb (Z.eqb c) toks | [] => false end, s).

(** An error exit carries its message. *)
Abbreviation parsed := (string + cmd * bytes)%type.

Fixpoint parseredirs (fuel : nat) (c : cmd) (ps : bytes) : parsed :=
  let '(b, ps) := peek ps [LT; GT] in
  if b then
    match fuel with
    | O => inl "fuel"
    | S fuel' =>
        let '(tok, _, ps) := gettoken ps in
        let '(tok2, w, ps) := gettoken ps in
        if negb (tok2 =? 97) then inl "missing file for redirection" else
        parseredirs fuel' (if tok =? LT then redircmd c w LT else if tok =? GT then redircmd c w GT else c) ps
    end
  else inr (c, ps).

(** [cmd->argv[argc] = w] for the command at the bottom of the redirections
    [ret]: [cmd] points into it. *)
Fixpoint set_arg (ret : cmd) (w : bytes) : cmd :=
  match ret with
  | EXEC argv => EXEC (argv ++ [w])
  | REDIR c f m d => REDIR (set_arg c w) f m d
  | PIPE l r => PIPE l r
  end.

Fixpoint parseexec_loop (fuel : nat) (ret : cmd) (argc : nat) (ps : bytes) : parsed :=
  let '(b, ps) := peek ps [BAR] in
  if b then inr (ret, ps) else
  match fuel with
  | O => inl "fuel"
  | S fuel' =>
      let '(tok, w, ps) := gettoken ps in
      if tok =? 0 then inr (ret, ps) else
      if negb (tok =? 97) then inl "syntax error" else
      let ret := set_arg ret w in
      let argc := S argc in
      if (MAXARGS <=? argc)%nat then inl "too many args" else
      match parseredirs fuel' ret ps with
      | inl e => inl e
      | inr (ret, ps) => parseexec_loop fuel' ret argc ps
      end
  end.

Definition parseexec (fuel : nat) (ps : bytes) : parsed :=
  match parseredirs fuel execcmd ps with
  | inl e => inl e
  | inr (ret, ps) => parseexec_loop fuel ret 0 ps
  end.

Fixpoint parsepipe (fuel : nat) (ps : bytes) : parsed :=
  match fuel with
  | O => inl "fuel"
  | S fuel' =>
      match parseexec fuel ps with
      | inl e => inl e
      | inr (c, ps) =>
          let '(b, ps) := peek ps [BAR] in
          if b then
            let '(_, _, ps) := gettoken ps in
            match parsepipe fuel' ps with
            | inl e => inl e
            | inr (r, ps) => inr (pipecmd c r, ps)
            end
          else inr (c, ps)
      end
  end.

Definition parseline := parsepipe.

(** Every turn of a loop takes a byte at least, so that as much fuel as the
    line has bytes is enough. *)
Definition parsecmd (s : bytes) : string + cmd :=
  match parseline (S (length s)) s with
  | inl e => inl e
  | inr (c, ps) =>
      let '(_, ps) := peek ps [] in
      match ps with [] => inr c | _ => inl "leftovers" end
  end.

(** * Execution *)

(** What a descriptor refers to: what the shell was started with, or a file. *)
Inductive fdesc := Inherited (n : nat) | File (name : bytes) (mode : Z).

Abbreviation fds := (list (option fdesc)).

(** [close]. *)
Definition close (fd : Z) (t : fds) : fds := <[Z.to_nat fd := None]> t.

(** The lowest free descriptor. *)
Fixpoint lowest (t : fds) : nat :=
  match t with
  | None :: _ => 0
  | Some _ :: t' => S (lowest t')
  | [] => 0
  end.

Section run.
(** Whether a file can be opened, and a program run. *)
Variable openable : bytes → Z → bool.
Variable runnable : list bytes → bool.

(** [open]: the lowest free descriptor, or nothing. *)
Definition open (file : bytes) (mode : Z) (t : fds) : fds :=
  if openable file mode then
    let n := lowest t in
    if (n <? length t)%nat then <[n := Some (File file mode)]> t else t ++ [Some (File file mode)]
  else t.

(** How the process goes on: as the program [argv] with the descriptors [t],
    or it exits. *)
Inductive image :=
| Program (argv : list bytes) (t : fds)
| Exits (code : Z).

Fixpoint runcmd (c : cmd) (t : fds) : image :=
  match c with
  | EXEC [] => Exits 0
  | EXEC argv => if runnable argv then Program argv t else Exits 0
  | REDIR sub file mode fd => runcmd sub (open file mode (close fd t))
  | PIPE l _ => runcmd l t
  end.

(** [fgets(buf, 100, stdin)]: up to 99 bytes, to the end of the line. *)
Fixpoint fgets (n : nat) (input : bytes) : bytes * bytes :=
  match n, input with
  | O, _ | _, [] => ([], input)
  | S n', c :: input' => if c =? 10 then ([c], input') else let '(l, r) := fgets n' input' in (c :: l, r)
  end.

(** The string in a buffer ends at the first zero. *)
Fixpoint cut0 (l : bytes) : bytes :=
  match l with
  | [] => []
  | c :: l' => if c =? 0 then [] else c :: cut0 l'
  end.

(** [getcmd]: the line, or nothing at the end. *)
Definition getcmd (input : bytes) : option bytes * bytes :=
  let '(l, rest) := fgets 99 input in
  match cut0 l with
  | [] => (None, rest)
  | buf => (Some buf, rest)
  end.

(** What [main] does: change its directory, or run a child. *)
Inductive action := Chdir (dir : bytes) | Child (result : string + image) | NoChild.

(** [forks n] tells whether the [n]-th [fork] works. *)
Variable forks : nat → bool.

Definition do_line (n : nat) (buf : bytes) (t : fds) : action :=
  match buf with
  | 99 :: 100 :: 32 :: _ => Chdir (drop 3 (take (length buf - 1) buf))
  | _ =>
      if forks n then
        Child (match parsecmd buf with inl e => inl e | inr c => inr (runcmd c t) end)
      else NoChild
  end.

Fixpoint main_loop (fuel n : nat) (input : bytes) (t : fds) : list action :=
  match fuel with
  | O => []
  | S fuel' =>
      match getcmd input with
      | (None, _) => []
      | (Some buf, rest) => do_line n buf t :: main_loop fuel' (S n) rest t
      end
  end.

Definition main (input : bytes) (t : fds) : list action := main_loop (S (length input)) 0 input t.
End run.

(** * Lines written from commands *)

Inductive token := W (w : bytes) | In | Out | Bar.

Definition kind (t : token) : Z := match t with W _ => 97 | In => LT | Out => GT | Bar => BAR end.
Definition text (t : token) : bytes := match t with W w => w | In => [LT] | Out => [GT] | Bar => [BAR] end.

(** The tokens with a space after each, and the end of the line. *)
Fixpoint print (ts : list token) : bytes :=
  match ts with
  | [] => [10]
  | t :: ts' => text t ++ 32 :: print ts'
  end.

Definition word_char (c : Z) : bool := negb (whitespace c) && negb (symbols c).
Definition word_ok (w : bytes) : Prop := w ≠ [] ∧ Forall (λ c, word_char c = true) w.
Definition token_ok (t : token) : Prop := match t with W w => word_ok w | _ => True end.

(** What is left of the line is the tokens [ts]. *)
Definition at_tokens (ps : bytes) (ts : list token) : Prop := skip_space ps = skip_space (print ts).

Lemma skip_space_twice s : skip_space (skip_space s) = skip_space s.
Proof. induction s as [|c s IH]; [done|]. cbn [skip_space]. destruct (whitespace c) eqn:E; [done|]. cbn [skip_space]. by rewrite E. Qed.

Lemma text_head t : token_ok t → ∃ c r, text t = c :: r ∧ whitespace c = false ∧
  match t with W _ => symbols c = false | _ => r = [] ∧ c = kind t end.
Proof.
  destruct t as [w| | |]; cbn [text token_ok kind]; [|by eexists _, _..]. intros [Hne Hw]. destruct w as [|c w]; [done|].
  apply Forall_cons in Hw as [Hc _]. apply andb_prop in Hc as [H1 H2].
  exists c, w. split; [done|]. by split; apply negb_true_iff.
Qed.

Lemma skip_word_app w s c : Forall (λ c, word_char c = true) w → word_char c = false → skip_word (w ++ c :: s) = (w, c :: s).
Proof.
  intros Hw Hc. unfold word_char in *. induction Hw as [|x w Hx _ IH]; cbn.
  - by rewrite Hc.
  - rewrite Hx. by rewrite IH.
Qed.

Lemma symbols_not c : symbols c = false → ((c =? BAR) || (c =? LT) || (c =? GT)) = false.
Proof. unfold symbols, LT, BAR, GT. cbn. lia. Qed.

Lemma gettoken_at ps t ts : at_tokens ps (t :: ts) → token_ok t →
  ∃ ps', gettoken ps = (kind t, text t, ps') ∧ at_tokens ps' ts.
Proof.
  intros H Ht. unfold gettoken. rewrite H. cbn [print]. destruct (text_head t Ht) as (c & r & E & Hs & Hc).
  exists (skip_space (print ts)). split; [|apply skip_space_twice].
  rewrite E. cbn [app skip_space]. rewrite Hs. destruct t as [w| | |].
  - rewrite symbols_not by done. cbn in E. subst w. destruct Ht as [_ Hw].
    change (c :: r ++ 32 :: print ts) with ((c :: r) ++ 32 :: print ts). by rewrite skip_word_app.
  - by destruct Hc as [-> ->].
  - by destruct Hc as [-> ->].
  - by destruct Hc as [-> ->].
Qed.

Lemma gettoken_end ps : at_tokens ps [] → gettoken ps = (0, [], []).
Proof. intros H. unfold gettoken. by rewrite H. Qed.

Lemma peek_at ps ts toks : at_tokens ps ts → Forall token_ok ts → Forall (λ c, symbols c = true) toks →
  peek ps toks = (match ts with t :: _ => existsb (Z.eqb (kind t)) toks | [] => false end, skip_space ps) ∧ at_tokens (skip_space ps) ts.
Proof.
  intros H Hts Htoks. unfold peek, at_tokens. rewrite skip_space_twice. split; [|done]. f_equal. rewrite H.
  destruct ts as [|t ts]; [done|]. apply Forall_cons in Hts as [Ht _]. destruct (text_head t Ht) as (c & r & E & Hs & Hc).
  cbn [print]. rewrite E. cbn [app skip_space]. rewrite Hs. destruct t as [w| | |]; [|by destruct Hc as [_ ->]..].
  assert (Hn : ∀ x, symbols x = false → existsb (Z.eqb x) toks = false).
  { intros x Hx. apply not_true_is_false. intros (y & Hy & Exy)%existsb_exists. apply Z.eqb_eq in Exy as <-.
    rewrite Forall_forall in Htoks. apply list_elem_of_In, Htoks in Hy. congruence. }
  rewrite !Hn; done.
Qed.

(** A redirection: whether it is of the output, and its file. *)
Abbreviation redir := (bool * bytes)%type.

Definition redir_tokens (r : redir) : list token := [if fst r then Out else In; W (snd r)].

(** A command within redirections, the first of which is the innermost. *)
Definition wrap (c : cmd) (rs : list redir) : cmd :=
  foldl (λ c (r : redir), redircmd c (snd r) (if fst r then GT else LT)) c rs.

(** A command of the grammar: its arguments and redirections, and the command
    it is piped into. *)
Inductive simple := Simple (argv : list bytes) (rs : list redir).
Inductive line := Last (s : simple) | Piped (s : simple) (l : line).

Definition simple_cmd (s : simple) : cmd := let '(Simple argv rs) := s in wrap (EXEC argv) rs.
Fixpoint line_cmd (l : line) : cmd :=
  match l with
  | Last s => simple_cmd s
  | Piped s l' => pipecmd (simple_cmd s) (line_cmd l')
  end.

Definition simple_tokens (s : simple) : list token := let '(Simple argv rs) := s in (W <$> argv) ++ (rs ≫= redir_tokens).
Fixpoint line_tokens (l : line) : list token :=
  match l with
  | Last s => simple_tokens s
  | Piped s l' => simple_tokens s ++ Bar :: line_tokens l'
  end.

Definition simple_ok (s : simple) : Prop :=
  let '(Simple argv rs) := s in Forall word_ok argv ∧ (length argv < MAXARGS)%nat ∧ Forall (λ r, word_ok (snd r)) rs.
Fixpoint line_ok (l : line) : Prop :=
  match l with
  | Last s => simple_ok s
  | Piped s l' => simple_ok s ∧ line_ok l'
  end.

Lemma redirs_ok_tokens rs : Forall (λ r : redir, word_ok (snd r)) rs → Forall token_ok (rs ≫= redir_tokens).
Proof.
  induction 1 as [|[o f] rs Hf _ IH]; [done|]. cbn. constructor; [by destruct o|]. by constructor.
Qed.

Lemma simple_ok_tokens s : simple_ok s → Forall token_ok (simple_tokens s).
Proof.
  destruct s as [argv rs]. intros (Ha & _ & Hr). apply Forall_app. split; [|by apply redirs_ok_tokens].
  apply Forall_fmap. exact Ha.
Qed.

Lemma line_ok_tokens l : line_ok l → Forall token_ok (line_tokens l).
Proof.
  induction l as [s|s l IH]; cbn; [apply simple_ok_tokens|]. intros [Hs Hl]. apply Forall_app.
  split; [by apply simple_ok_tokens|]. constructor; [done|by apply IH].
Qed.

(** The tokens [ts] do not begin with a redirection. *)
Definition no_redir (ts : list token) : Prop := match ts with (In | Out) :: _ => False | _ => True end.
(** They are over, or a pipe follows. *)
Definition stops (ts : list token) : Prop := match ts with [] | Bar :: _ => True | _ => False end.

Lemma parseredirs_at rs ts : Forall (λ r : redir, word_ok (snd r)) rs → Forall token_ok ts → no_redir ts →
  ∀ fuel c ps, (length rs ≤ fuel)%nat → at_tokens ps ((rs ≫= redir_tokens) ++ ts) →
  ∃ ps', parseredirs fuel c ps = inr (wrap c rs, ps') ∧ at_tokens ps' ts.
Proof.
  intros Hrs Hts Hno. induction Hrs as [|[o f] rs Hf Hrs IH]; intros fuel c ps Hfuel Hat.
  - cbn in Hat. destruct (peek_at ps ts [LT; GT] Hat Hts) as [E1 E2]; [by repeat constructor|].
    exists (skip_space ps). split; [|done]. destruct fuel; cbn [parseredirs]; rewrite E1;
      (replace (match ts with t :: _ => existsb (Z.eqb (kind t)) [LT; GT] | [] => false end) with false; [done|]);
      by destruct ts as [|[] ?].
  - cbn in Hat, Hfuel. destruct fuel as [|fuel]; [lia|]. set (t := if o then Out else In) in *.
    assert (Ht : token_ok t) by (by destruct o). set (ts1 := (rs ≫= redir_tokens) ++ ts) in *.
    assert (Hts1 : Forall token_ok (t :: W f :: ts1)).
    { do 2 (constructor; [done|]). apply Forall_app. split; [by apply redirs_ok_tokens|done]. }
    destruct (peek_at ps _ [LT; GT] Hat Hts1) as [E1 E2]; [by repeat constructor|].
    destruct (gettoken_at _ _ _ E2 Ht) as (p1 & G1 & A1). destruct (gettoken_at p1 (W f) ts1 A1 Hf) as (p2 & G2 & A2).
    cbn [parseredirs]. rewrite E1. replace (existsb _ _) with true by (by destruct o). rewrite G1, G2. cbn [kind text].
    destruct (IH fuel (redircmd c f (if o then GT else LT)) p2) as (p3 & E3 & A3); [lia|done|].
    exists p3. split; [|done]. cbn [wrap foldl fst snd]. by destruct o.
Qed.

Lemma parseexec_stops ts fuel c argc ps : Forall token_ok ts → stops ts → at_tokens ps ts → 
  ∃ ps', parseexec_loop (S fuel) c argc ps = inr (c, ps') ∧ at_tokens ps' ts.
Proof.
  intros Hts Hs Hat. destruct (peek_at ps ts [BAR] Hat Hts) as [E1 E2]; [by repeat constructor|].
  cbn [parseexec_loop]. rewrite E1. destruct ts as [|[] ts]; try done.
  - rewrite gettoken_end by done. by exists [].
  - by exists (skip_space ps).
Qed.

(** A turn of the loop of [parseexec]. *)
Lemma parseexec_turn w ts fuel argv ps : Forall token_ok (W w :: ts) → (S (length argv) < MAXARGS)%nat → at_tokens ps (W w :: ts) →
  ∃ p1, at_tokens p1 ts ∧ parseexec_loop (S fuel) (EXEC argv) (length argv) ps =
    match parseredirs fuel (EXEC (argv ++ [w])) p1 with
    | inl e => inl e
    | inr (ret, ps) => parseexec_loop fuel ret (S (length argv)) ps
    end.
Proof.
  intros Hts Hlen Hat. destruct (peek_at ps _ [BAR] Hat Hts) as [E1 E2]; [by repeat constructor|].
  apply Forall_cons in Hts as [Hw _]. destruct (gettoken_at _ _ _ E2 Hw) as (p1 & G1 & A1).
  exists p1. split; [done|]. cbn [parseexec_loop]. rewrite E1. change (existsb _ _) with false. cbn iota.
  rewrite G1. cbn [kind text]. change (97 =? 0) with false. change (negb (97 =? 97)) with false. cbn iota.
  cbn [set_arg]. by rewrite (proj2 (Nat.leb_gt MAXARGS (S (length argv)))) by done.
Qed.

Lemma parseexec_words rs ts : Forall (λ r : redir, word_ok (snd r)) rs → Forall token_ok ts → stops ts →
  ∀ ws w fuel argv ps, Forall word_ok (w :: ws) → (length argv + length (w :: ws) < MAXARGS)%nat →
  (length (w :: ws) + length rs < fuel)%nat → at_tokens ps ((W <$> w :: ws) ++ (rs ≫= redir_tokens) ++ ts) →
  ∃ ps', parseexec_loop fuel (EXEC argv) (length argv) ps = inr (wrap (EXEC (argv ++ w :: ws)) rs, ps') ∧ at_tokens ps' ts.
Proof.
  intros Hrs Hts Hs. assert (Hno : no_redir ts) by (by destruct ts as [|[] ?]).
  assert (Hrest : Forall token_ok ((rs ≫= redir_tokens) ++ ts)) by (apply Forall_app; split; [by apply redirs_ok_tokens|done]).
  induction ws as [|w2 ws IH]; intros w fuel argv ps Hok Hargs Hfuel Hat; cbn [length] in *;
    (destruct fuel as [|fuel]; [lia|]); apply Forall_cons in Hok as [Hw Hok].
  - destruct (parseexec_turn w ((rs ≫= redir_tokens) ++ ts) fuel argv ps) as (p1 & A1 & ->); [by constructor|lia|done|].
    destruct (parseredirs_at rs ts Hrs Hts Hno fuel (EXEC (argv ++ [w])) p1) as (p2 & -> & A2); [lia|done|].
    destruct fuel as [|fuel]; [lia|]. by apply parseexec_stops.
  - destruct (parseexec_turn w ((W <$> w2 :: ws) ++ (rs ≫= redir_tokens) ++ ts) fuel argv ps) as (p1 & A1 & ->); [|lia|done|].
    { constructor; [done|]. apply Forall_app. split; [|done]. by apply Forall_fmap. }
    destruct (parseredirs_at [] ((W <$> w2 :: ws) ++ (rs ≫= redir_tokens) ++ ts)) with (fuel := fuel) (c := EXEC (argv ++ [w])) (ps := p1) as (p2 & -> & A2).
    { done. } { apply Forall_app. split; [|done]. by apply Forall_fmap. } { done. } { cbn. lia. } { done. }
    cbn [wrap foldl]. replace (S (length argv)) with (length (argv ++ [w])) by (rewrite length_app; cbn; lia).
    destruct (IH w2 fuel (argv ++ [w]) p2 Hok) as (p3 & E3 & A3); [rewrite length_app; cbn; lia|lia|done|].
    exists p3. split; [|done]. rewrite E3, <-app_assoc. done.
Qed.

Lemma parseexec_at s ts fuel ps : simple_ok s → Forall token_ok ts → stops ts →
  (length (simple_tokens s) + 1 < fuel)%nat → at_tokens ps (simple_tokens s ++ ts) →
  ∃ ps', parseexec fuel ps = inr (simple_cmd s, ps') ∧ at_tokens ps' ts.
Proof.
  destruct s as [argv rs]. intros (Ha & Hl & Hr) Hts Hs Hfuel Hat. cbn [simple_tokens simple_cmd] in *.
  rewrite length_app, length_fmap in Hfuel. rewrite <-app_assoc in Hat.
  assert (Hrl : (length rs ≤ length (rs ≫= redir_tokens))%nat) by (clear; induction rs; cbn in *; lia).
  assert (Hrt : Forall token_ok (rs ≫= redir_tokens)) by (by apply redirs_ok_tokens). unfold parseexec.
  destruct argv as [|w ws].
  - destruct (parseredirs_at rs ts Hr Hts) with (fuel := fuel) (c := execcmd) (ps := ps) as (p1 & -> & A1); [by destruct ts as [|[] ?]|lia|done|].
    destruct fuel as [|fuel]; [lia|]. by apply parseexec_stops.
  - destruct (parseredirs_at [] ((W <$> w :: ws) ++ (rs ≫= redir_tokens) ++ ts)) with (fuel := fuel) (c := execcmd) (ps := ps) as (p1 & -> & A1).
    { done. } { apply Forall_app. split; [by apply Forall_fmap|]. apply Forall_app. by split. } { done. } { cbn. lia. } { done. }
    by apply (parseexec_words rs ts Hr Hts Hs ws w fuel [] p1 Ha); [cbn in *; lia|cbn in *; lia|].
Qed.

Lemma parsepipe_at l : ∀ fuel ps, line_ok l → (length (line_tokens l) + 1 < fuel)%nat → at_tokens ps (line_tokens l) →
  ∃ ps', parsepipe fuel ps = inr (line_cmd l, ps') ∧ skip_space ps' = [].
Proof.
  induction l as [s|s l IH]; intros fuel ps Hok Hfuel Hat; (destruct fuel as [|fuel]; [lia|]); cbn [line_tokens line_cmd] in *.
  - destruct (parseexec_at s [] (S fuel) ps) as (p1 & E1 & A1); [done|done|done|lia|by rewrite app_nil_r|].
    destruct (peek_at p1 [] [BAR] A1) as [E2 E3]; [done|by repeat constructor|].
    cbn [parsepipe]. rewrite E1, E2. exists (skip_space p1). split; [done|]. exact E3.
  - destruct Hok as [Hs Hl]. rewrite length_app in Hfuel. cbn [length] in Hfuel.
    assert (Hts : Forall token_ok (Bar :: line_tokens l)) by (constructor; [done|by apply line_ok_tokens]).
    destruct (parseexec_at s (Bar :: line_tokens l) (S fuel) ps) as (p1 & E1 & A1); [done|done|done|lia|done|].
    destruct (peek_at p1 _ [BAR] A1 Hts) as [E2 E3]; [by repeat constructor|].
    destruct (gettoken_at _ Bar _ E3) as (p2 & E4 & A2); [done|].
    destruct (IH fuel p2 Hl) as (p3 & E5 & A3); [lia|done|].
    cbn [parsepipe]. rewrite E1, E2. change (existsb _ _) with true. cbn iota. rewrite E4, E5. by exists p3.
Qed.

(** The line has at least as many bytes as tokens. *)
Lemma print_length ts : (length ts < length (print ts))%nat.
Proof. induction ts as [|t ts IH]; cbn; [lia|]. rewrite length_app. cbn. lia. Qed.

(** ** The parser always ends *)

Lemma skip_space_length s : (length (skip_space s) ≤ length s)%nat.
Proof. induction s as [|c s IH]; cbn [skip_space]; [done|]. destruct (whitespace c); cbn; lia. Qed.

Lemma skip_word_length s : (length (snd (skip_word s)) ≤ length s)%nat.
Proof.
  induction s as [|c s IH]; cbn [skip_word]; [done|]. destruct (_ && _); [|done]. destruct (skip_word s). cbn in *. lia.
Qed.

Lemma skip_space_head ps c s : skip_space ps = c :: s → whitespace c = false.
Proof.
  induction ps as [|x ps IH]; cbn [skip_space]; [done|]. destruct (whitespace x) eqn:E; [done|]. by intros [= <- _].
Qed.

Lemma not_symbols c : ((c =? BAR) || (c =? LT) || (c =? GT)) = false → symbols c = false.
Proof. unfold symbols, LT, BAR, GT. cbn. lia. Qed.

(** A token takes a byte at least, unless the line is over. *)
Lemma gettoken_length ps : (length (snd (gettoken ps)) ≤ length ps)%nat ∧
  (skip_space ps ≠ [] → length (snd (gettoken ps)) < length ps)%nat.
Proof.
  unfold gettoken. pose proof (skip_space_length ps) as H0. destruct (skip_space ps) as [|c s] eqn:E; cbn [length] in *.
  - by split; [cbn; lia|].
  - assert (Hlt : (length (snd (if (c =? BAR) || (c =? LT) || (c =? GT) then (c, [c], skip_space s)
      else let '(w, r) := skip_word (c :: s) in (97, w, skip_space r))%Z) < S (length s))%nat); [|lia].
    destruct ((c =? BAR) || (c =? LT) || (c =? GT)) eqn:Es.
    + pose proof (skip_space_length s). cbn. lia.
    + cbn [skip_word]. rewrite (skip_space_head ps c s E), (not_symbols c Es). cbn [negb andb].
      pose proof (skip_word_length s). destruct (skip_word s) as [w r]. cbn in *. pose proof (skip_space_length r). lia.
Qed.

(** The outcome of a parser that had enough fuel, and what it left. *)
Definition fine (n : nat) (r : parsed) : Prop :=
  match r with inl e => e ≠ "fuel" | inr (_, ps) => (length ps ≤ n)%nat end.

Lemma parseredirs_fine fuel : ∀ c ps, (length ps ≤ fuel)%nat → fine (length ps) (parseredirs fuel c ps).
Proof.
  induction fuel as [|fuel IH]; intros c ps Hf; cbn [parseredirs]; unfold peek; pose proof (skip_space_length ps) as H0;
    destruct (skip_space ps) as [|x s] eqn:E; cbn [length] in *; try (cbn; lia).
  destruct (existsb _ _); [|cbn; lia].
  assert (E2 : skip_space (x :: s) = x :: s) by (rewrite <-E; apply skip_space_twice).
  destruct (gettoken_length (x :: s)) as [_ L1]. rewrite E2 in L1. specialize (L1 ltac:(done)).
  destruct (gettoken (x :: s)) as [[tok w0] p1]. destruct (gettoken_length p1) as [L2 _]. destruct (gettoken p1) as [[tok2 w] p2].
  cbn [snd length] in *. destruct (negb (tok2 =? 97)); [done|].
  specialize (IH (if tok =? LT then redircmd c w LT else if tok =? GT then redircmd c w GT else c) p2 ltac:(lia)).
  destruct (parseredirs _ _ _) as [e|[c' p3]]; cbn in *; [done|lia].
Qed.

Lemma parseexec_loop_fine fuel : ∀ ret argc ps, (length ps < fuel)%nat → fine (length ps) (parseexec_loop fuel ret argc ps).
Proof.
  induction fuel as [|fuel IH]; intros ret argc ps Hf; [lia|]. cbn [parseexec_loop]; unfold peek; pose proof (skip_space_length ps) as H0.
  set (s := skip_space ps) in *. destruct (match s with c :: _ => existsb (Z.eqb c) [BAR] | [] => false end); [exact H0|].
  destruct (gettoken_length s) as [L1 L2]. assert (E2 : skip_space s = s) by apply skip_space_twice. rewrite E2 in L2.
  assert (E0 : s = [] → gettoken s = (0, [], [])) by (intros ->; done).
  destruct (gettoken s) as [[tok w] p1]. cbn [snd] in *. destruct (tok =? 0) eqn:Et; [cbn; lia|].
  assert (Hne : s ≠ []) by (intros Hs; apply E0 in Hs; injection Hs as -> _ _; done). specialize (L2 Hne).
  destruct (negb (tok =? 97)); [done|]. destruct (MAXARGS <=? S argc)%nat; [done|].
  pose proof (parseredirs_fine fuel (set_arg ret w) p1 ltac:(lia)) as H1. destruct (parseredirs _ _ _) as [e|[c p2]]; cbn in H1; [done|].
  specialize (IH c (S argc) p2 ltac:(lia)). destruct (parseexec_loop _ _ _ _) as [e|[c' p3]]; cbn in *; [done|lia].
Qed.

Lemma parseexec_fine fuel ps : (length ps < fuel)%nat → fine (length ps) (parseexec fuel ps).
Proof.
  intros Hf. unfold parseexec. pose proof (parseredirs_fine fuel execcmd ps ltac:(lia)) as H1.
  destruct (parseredirs _ _ _) as [e|[c p1]]; cbn in H1; [done|]. pose proof (parseexec_loop_fine fuel c 0 p1 ltac:(lia)) as H2.
  destruct (parseexec_loop _ _ _ _) as [e|[c' p2]]; cbn in *; [done|lia].
Qed.

Lemma parsepipe_fine fuel : ∀ ps, (length ps < fuel)%nat → fine (length ps) (parsepipe fuel ps).
Proof.
  induction fuel as [|fuel IH]; intros ps Hf; [lia|]. cbn [parsepipe]. pose proof (parseexec_fine (S fuel) ps Hf) as H1.
  destruct (parseexec _ _) as [e|[c p1]]; cbn in H1; [done|]. unfold peek. pose proof (skip_space_length p1) as H2.
  assert (E2 : skip_space (skip_space p1) = skip_space p1) by apply skip_space_twice.
  destruct (skip_space p1) as [|x s] eqn:E; [cbn; lia|]. destruct (existsb _ _); [|cbn in *; lia].
  destruct (gettoken_length (x :: s)) as [_ L1]. rewrite E2 in L1. specialize (L1 ltac:(done)).
  destruct (gettoken (x :: s)) as [[tok w] p2]. cbn [snd length] in *. specialize (IH p2 ltac:(lia)).
  destruct (parsepipe _ _) as [e|[r p3]]; cbn in *; [done|lia].
Qed.

(** The parser ends on every line: with a command, or with an error of its own. *)
Lemma parsecmd_ends s : parsecmd s ≠ inl "fuel".
Proof.
  unfold parsecmd, parseline. pose proof (parsepipe_fine (S (length s)) s ltac:(lia)) as H.
  destruct (parsepipe _ _) as [e|[c p1]]; cbn in H; [congruence|]. unfold peek. by destruct (skip_space p1).
Qed.

(** ** Every command parsed is of the grammar *)

Lemma skip_word_chars s : Forall (λ c, word_char c = true) (fst (skip_word s)).
Proof.
  induction s as [|c s IH]; cbn [skip_word]; [constructor|]. destruct (negb (whitespace c) && negb (symbols c)) eqn:E; [|constructor].
  destruct (skip_word s) as [w r]. cbn in *. constructor; [exact E|done].
Qed.

(** A word is a word. *)
Lemma gettoken_word ps w ps' : gettoken ps = (97, w, ps') → word_ok w.
Proof.
  unfold gettoken. destruct (skip_space ps) as [|c s] eqn:E; [done|].
  destruct ((c =? BAR) || (c =? LT) || (c =? GT)) eqn:Es; [intros [= -> _ _]; done|].
  pose proof (skip_word_chars (c :: s)) as H. cbn [skip_word] in *. rewrite (skip_space_head ps c s E), (not_symbols c Es) in *. cbn [negb andb] in *.
  destruct (skip_word s) as [v r]. intros [= <- _]. split; [done|exact H].
Qed.

Definition redirs_ok (rs : list redir) : Prop := Forall (λ r, word_ok (snd r)) rs.

Lemma wrap_app c rs1 rs2 : wrap c (rs1 ++ rs2) = wrap (wrap c rs1) rs2.
Proof. apply foldl_app. Qed.

Lemma parseredirs_typed fuel : ∀ c ps c' ps', parseredirs fuel c ps = inr (c', ps') → ∃ rs, redirs_ok rs ∧ c' = wrap c rs.
Proof.
  induction fuel as [|fuel IH]; intros c ps c' ps' H; cbn [parseredirs] in H; destruct (peek ps [LT; GT]) as [b p1];
    (destruct b; [|injection H as <- _; exists []; by split; [constructor|]]); [done|].
  destruct (gettoken p1) as [[tok w1] p2]. destruct (gettoken p2) as [[tok2 w] p3] eqn:E2.
  destruct (Z.eqb_spec tok2 97) as [->|]; [|done]. cbn [negb] in H. apply gettoken_word in E2.
  apply IH in H as (rs & Hrs & ->). destruct (tok =? LT); [|destruct (tok =? GT)].
  - exists ((false, w) :: rs). split; [by constructor|done].
  - exists ((true, w) :: rs). split; [by constructor|done].
  - by exists rs.
Qed.

Lemma set_arg_wrap argv w rs : set_arg (wrap (EXEC argv) rs) w = wrap (EXEC (argv ++ [w])) rs.
Proof.
  induction rs as [|r rs IH] using rev_ind; [done|]. rewrite !wrap_app. unfold wrap at 1 3. cbn [foldl].
  unfold redircmd at 1. cbn [set_arg]. by rewrite IH.
Qed.

Lemma parseexec_loop_typed fuel : ∀ argv rs ps c' ps', Forall word_ok argv → (length argv < MAXARGS)%nat → redirs_ok rs →
  parseexec_loop fuel (wrap (EXEC argv) rs) (length argv) ps = inr (c', ps') → ∃ s, simple_ok s ∧ c' = simple_cmd s.
Proof.
  induction fuel as [|fuel IH]; intros argv rs ps c' ps' Ha Hl Hr H; cbn [parseexec_loop] in H; destruct (peek ps [BAR]) as [b p1];
    (destruct b; [injection H as <- _; by exists (Simple argv rs)|]); [done|].
  destruct (gettoken p1) as [[tok w] p2] eqn:E1. destruct (tok =? 0); [injection H as <- _; by exists (Simple argv rs)|].
  destruct (Z.eqb_spec tok 97) as [->|]; [|done]. cbn [negb] in H. apply gettoken_word in E1. rewrite set_arg_wrap in H.
  destruct (Nat.leb_spec MAXARGS (S (length argv))); [done|].
  destruct (parseredirs _ _ _) as [e|[c p3]] eqn:E2; [done|]. apply parseredirs_typed in E2 as (rs2 & Hrs2 & ->).
  rewrite <-wrap_app in H. replace (S (length argv)) with (length (argv ++ [w])) in H by (rewrite length_app; cbn; lia).
  eapply IH; [| | |exact H].
  - apply Forall_app. split; [done|by constructor].
  - rewrite length_app. cbn. lia.
  - by apply Forall_app.
Qed.

Lemma parsepipe_typed fuel : ∀ ps c ps', parsepipe fuel ps = inr (c, ps') → ∃ l, line_ok l ∧ c = line_cmd l.
Proof.
  induction fuel as [|fuel IH]; intros ps c ps' H; [done|]. cbn [parsepipe] in H. unfold parseexec in H.
  destruct (parseredirs _ _ _) as [e|[c1 p1]] eqn:E1; [done|]. apply parseredirs_typed in E1 as (rs & Hrs & ->).
  destruct (parseexec_loop _ _ _ _) as [e|[c2 p2]] eqn:E2; [done|].
  apply (parseexec_loop_typed _ [] rs) in E2 as (s & Hs & ->); [|done|unfold MAXARGS; cbn; lia|done].
  destruct (peek p2 [BAR]) as [b p3]. destruct b; [|injection H as <- _; by exists (Last s)].
  destruct (gettoken p3) as [[tok w] p4]. destruct (parsepipe fuel p4) as [e|[r p5]] eqn:E3; [done|].
  apply IH in E3 as (l & Hl & ->). injection H as <- _. by exists (Piped s l).
Qed.

(** ** What the shell runs *)

Lemma parsecmd_print l : line_ok l → parsecmd (print (line_tokens l)) = inr (line_cmd l).
Proof.
  intros Hok. unfold parsecmd, parseline. pose proof (print_length (line_tokens l)) as Hlen.
  destruct (parsepipe_at l (S (length (print (line_tokens l)))) (print (line_tokens l)) Hok) as (p1 & -> & E); [lia|done|].
  unfold peek. by rewrite E.
Qed.

(** the commands the parser gives are those of the grammar, and all of
    them.  On every line [parsecmd] ends, and the command it gives, if it gives one,
    is a chain of pipes of simple commands: at most nine arguments,
    each a word without blanks or symbols, within redirections of the two
    kinds with the modes and descriptors that go with them.  And each such
    command is what some line is parsed to. *)
Theorem labsh_parser_typed :
  (∀ s, parsecmd s ≠ inl "fuel") ∧
  (∀ s c, parsecmd s = inr c → ∃ l, line_ok l ∧ c = line_cmd l) ∧
  (∀ l, line_ok l → parsecmd (print (line_tokens l)) = inr (line_cmd l)).
Proof.
  split; [apply parsecmd_ends|]. split; [|apply parsecmd_print]. intros s c H. unfold parsecmd, parseline in H.
  destruct (parsepipe _ _) as [e|[c' p1]] eqn:E; [done|]. unfold peek in H. destruct (skip_space p1); [|done].
  injection H as <-. by eapply parsepipe_typed.
Qed.

(** A line of the input: no end of line or zero in it, and it fits in the buffer. *)
Definition input_line (l : bytes) : Prop := Forall (λ c, c ≠ 10 ∧ c ≠ 0) l ∧ (length l < 99)%nat.

Lemma fgets_line l rest : ∀ n, Forall (λ c, c ≠ 10 ∧ c ≠ 0) l → (length l < n)%nat → fgets n (l ++ 10 :: rest) = (l ++ [10], rest).
Proof.
  induction l as [|c l IH]; intros [|n] Hl Hn; cbn [length] in Hn; try lia; [done|].
  apply Forall_cons in Hl as [[Hc _] Hl]. cbn [app fgets]. replace (c =? 10) with false by lia. by rewrite IH by (done || lia).
Qed.

Lemma labsh_getcmd l rest : input_line l → getcmd (l ++ 10 :: rest) = (Some (l ++ [10]), rest).
Proof.
  intros [Hl Hn]. unfold getcmd. rewrite fgets_line by done.
  assert (E : cut0 (l ++ [10]) = l ++ [10]).
  { clear Hn. induction Hl as [|c l [_ Hc] _ IH]; [done|]. cbn [app cut0]. replace (c =? 0) with false by lia. by rewrite IH. }
  rewrite E. by destruct l.
Qed.

(** [main] does each line of its input, in order, until it is over. *)
Lemma labsh_main_lines openable runnable forks ls t : Forall input_line ls →
  main openable runnable forks (mjoin ((λ l, l ++ [10]) <$> ls)) t = imap (λ n l, do_line openable runnable forks n (l ++ [10]) t) ls.
Proof.
  intros Hls. unfold main. set (fuel := length _).
  assert (Hf : (length ls ≤ fuel)%nat).
  { unfold fuel. clear. induction ls as [|l ls IH]; [done|]. change (mjoin _) with ((l ++ [10]) ++ mjoin ((λ l : bytes, l ++ [10]) <$> ls)). rewrite !length_app. cbn [length]. lia. }
  clearbody fuel. change (imap (λ n l, do_line openable runnable forks n (l ++ [10]) t) ls) with
    (imap (λ n l, do_line openable runnable forks (0 + n) (l ++ [10]) t) ls).
  generalize 0%nat. revert fuel Hf. induction Hls as [|l ls Hl _ IH]; intros fuel Hf k; cbn [length] in *.
  - by destruct fuel.
  - destruct fuel as [|fuel]; [lia|]. change (mjoin _) with ((l ++ [10]) ++ mjoin ((λ l : bytes, l ++ [10]) <$> ls)). rewrite <-app_assoc. remember (S fuel) as f eqn:Ef. cbn [main_loop]. cbn [app]. rewrite labsh_getcmd by done.
    cbn [imap]. rewrite Nat.add_0_r. f_equal. rewrite Ef, (IH fuel ltac:(lia)). apply imap_ext. intros i x _. cbn. by rewrite Nat.add_succ_r.
Qed.

Section runs.
Variable openable : bytes → Z → bool.
Variable runnable : list bytes → bool.
Variable forks : nat → bool.

(** The descriptor and the mode of a redirection. *)
Definition redir_fd (r : redir) : nat := if fst r then 1 else 0.
Definition redir_mode (r : redir) : Z := if fst r then Z.lor (Z.lor O_WRONLY O_CREAT) O_TRUNC else O_RDONLY.

(** What a redirection is meant to do. *)
Definition redirect (r : redir) (t : fds) : fds := <[redir_fd r := Some (File (snd r) (redir_mode r))]> t.

(** The standard descriptors are in use. *)
Definition std_open (t : fds) : Prop := ∃ a b t', t = Some a :: Some b :: t'.

Lemma std_redirect r t : std_open t → std_open (redirect r t).
Proof. intros (a & b & t' & ->). unfold redirect, redir_fd, std_open. destruct (fst r); cbn; eauto. Qed.

(** [close] and [open] together put the file in the descriptor that was closed. *)
Lemma close_open r t : std_open t → openable (snd r) (redir_mode r) = true →
  open openable (snd r) (redir_mode r) (close (Z.of_nat (redir_fd r)) t) = redirect r t.
Proof.
  intros (a & b & t' & ->) Ho. unfold open, close. rewrite Ho, Nat2Z.id. unfold redirect, redir_fd. by destruct (fst r).
Qed.

Lemma runcmd_wrap rs : ∀ c t, std_open t → Forall (λ r : redir, openable (snd r) (redir_mode r) = true) rs →
  runcmd openable runnable (wrap c rs) t = runcmd openable runnable c (foldr redirect t rs) ∧ std_open (foldr redirect t rs).
Proof.
  induction rs as [|r rs IH] using rev_ind; intros c t Ht Hrs; [done|].
  apply Forall_app in Hrs as [Hrs Hr]. apply Forall_cons in Hr as [Hr _]. unfold wrap in *. rewrite foldl_app, foldr_app. cbn [foldl foldr].
  rewrite <-(close_open r t) by done.
  destruct (IH c (redirect r t) (std_redirect r t Ht) Hrs) as [E1 E2]. rewrite (close_open r t) by done. split; [|done].
  rewrite <-E1, <-(close_open r t) by done. unfold redircmd, redir_mode, redir_fd. by destruct (fst r).
Qed.

(** The file of the first redirection of a descriptor. *)
Fixpoint first_redir (fd : nat) (rs : list redir) : option fdesc :=
  match rs with
  | [] => None
  | r :: rs' => if decide (redir_fd r = fd) then Some (File (snd r) (redir_mode r)) else first_redir fd rs'
  end.

Lemma foldr_redirect rs t fd : std_open t →
  foldr redirect t rs !! fd = match first_redir fd rs with Some f => Some (Some f) | None => t !! fd end.
Proof.
  intros Ht. induction rs as [|r rs IH]; [done|]. cbn [foldr first_redir].
  assert (Hs : std_open (foldr redirect t rs)) by (clear IH; induction rs; [done|by apply std_redirect]).
  unfold redirect at 1. case_decide as E.
  - subst fd. apply list_lookup_insert_eq. destruct Hs as (a & b & t' & ->). unfold redir_fd. destruct (fst r); cbn; lia.
  - rewrite list_lookup_insert_ne by done. exact IH.
Qed.

(** A line that is not a change of directory is run by a child. *)
Lemma do_line_runs n w ts t : w ≠ [99; 100] → Forall (λ c, word_char c = true) w → forks n = true →
  do_line openable runnable forks n (print (W w :: ts)) t =
    Child (match parsecmd (print (W w :: ts)) with inl e => inl e | inr c => inr (runcmd openable runnable c t) end).
Proof.
  intros Hw Hc Hf. set (p := parsecmd _). assert (Hcd : ∀ A (a b : A), match print (W w :: ts) with 99 :: 100 :: 32 :: _ => a | _ => b end = b).
  { intros A a b. cbn [print text]. destruct w as [|c1 [|c2 [|c3 w]]]; cbn [app].
    - done.
    - by repeat case_match.
    - repeat case_match; done || (subst; done).
    - apply Forall_cons in Hc as [_ Hc]. apply Forall_cons in Hc as [_ Hc]. apply Forall_cons in Hc as [Hc _].
      repeat case_match; done || (subst; done). }
  unfold do_line. rewrite Hcd, Hf. done.
Qed.

End runs.


(** The result of [open] is not looked at.  In [cmd > out < missing] the
    input is redirected first and fails; [out] is then opened as
    descriptor 0, and the program has no standard output. *)
Lemma redirection_misplaced openable runnable argv a b out missing t :
  argv ≠ [] → runnable argv = true → openable missing O_RDONLY = false → openable out 577 = true →
  runcmd openable runnable (wrap (EXEC argv) [(true, out); (false, missing)]) (Some a :: Some b :: t) =
    Program argv (Some (File out 577) :: None :: t).
Proof.
  intros Ha Hr Hm Ho. cbn. unfold open, close. change (Z.lor (Z.lor O_WRONLY O_CREAT) O_TRUNC) with 577 in *. rewrite Hm, Ho. cbn.
  destruct argv; [done|]. by rewrite Hr.
Qed.

(** The end of the line is taken to be there: the last byte of a [cd] on a line without one is lost. *)
Lemma chdir_chops openable runnable forks n t : do_line openable runnable forks n (99 :: 100 :: 32 :: [97; 98]) t = Chdir [97].
Proof. done. Qed.
