(* ===== verification/Threads.v ===== *)
(** The threads of the labs: the bounded buffer of lab-05/buf.c and the
    shared counter of lab-04/glob.c.

    A program of threads is a step function for each thread over the shared
    memory and the local variables, one step per statement, and its executions
    are all the interleavings of the steps.  A thread that waits for a
    semaphore or a mutex is [Blocked]; undefined behaviour (an index out of
    range, an overflow, an unlock by another thread, a remainder by zero) is a [Fault].

    For the bounded buffer the theorem is total correctness under every
    interleaving: nothing faults, some thread can always go on, the number of
    steps is bounded, and the consumer prints the numbers in order.  For the
    counter it is the exact set of the values the program can print. *)

From S2P Require Import Prelude.

(** * Interleavings *)

Inductive result (S : Type) :=
| Step (s : S)
| Blocked
| Fault.
Arguments Step {_} _.
Arguments Blocked {_}.
Arguments Fault {_}.

Section runs.
Context {T S : Type} (step : T → S → result S).

(** [runs n s s']: [n] steps of some threads lead from [s] to [s']. *)
Inductive runs : nat → S → S → Prop :=
| runs_0 s : runs 0 s s
| runs_S n t s1 s2 s3 : runs n s1 s2 → step t s2 = Step s3 → runs (Datatypes.S n) s1 s3.

Lemma runs_add n m s1 s2 s3 : runs n s1 s2 → runs m s2 s3 → runs (n + m) s1 s3.
Proof.
  intros H1 H2. induction H2 as [|m t s2 s3 s4 _ IH Hs]; [by rewrite Nat.add_0_r|].
  rewrite Nat.add_succ_r. econstructor; [by apply IH|done].
Qed.

Lemma runs_1 t s1 s2 : step t s1 = Step s2 → runs 1 s1 s2.
Proof. intros H. econstructor; [constructor|done]. Qed.

(** The execution in which the threads take their steps in the order of [l]. *)
Fixpoint follow (l : list T) (s : S) : option S :=
  match l with
  | [] => Some s
  | t :: l' => match step t s with Step s' => follow l' s' | _ => None end
  end.

Lemma follow_runs l : ∀ s s', follow l s = Some s' → runs (length l) s s'.
Proof.
  induction l as [|t l IH]; intros s s' H; cbn in H; [injection H as <-; constructor|].
  destruct (step t s) as [s1| |] eqn:E; [|done..]. apply IH in H. apply (runs_add 1 (length l) s s1 s'); [|done].
  by eapply runs_1.
Qed.

(** What every step preserves holds after every execution. *)
Lemma runs_inv (P : S → Prop) n s s' :
  (∀ t s1 s2, P s1 → step t s1 = Step s2 → P s2) → P s → runs n s s' → P s'.
Proof. intros HP H0 H. induction H; eauto. Qed.

(** A measure that every step decreases bounds the executions. *)
Lemma runs_bounded (P : S → Prop) (f : S → Z) n s s' :
  (∀ t s1 s2, P s1 → step t s1 = Step s2 → P s2 ∧ f s2 < f s1) → (∀ s, P s → 0 ≤ f s) →
  P s → runs n s s' → Z.of_nat n ≤ f s - f s'.
Proof.
  intros HP Hf H0 H. assert (HI : P s' ∧ Z.of_nat n ≤ f s - f s'); [|by destruct HI].
  induction H as [s|n t s1 s2 s3 _ IH Hs]; [split; [done|lia]|]. destruct (IH H0) as [IH1 IH2].
  destruct (HP _ _ _ IH1 Hs). split; [done|lia].
Qed.
End runs.

(** * lab-05/buf.c *)

Module Buf.

Inductive tid := Prod | Cons.

#[global] Instance tid_eq_dec : EqDecision tid.
Proof. solve_decision. Defined.

(** [struct buffer]; the mutex has the thread that holds it. *)
Record buffer := mkBuffer {
  size : Z;
  buf : list Z;
  empty : Z;
  full : Z;
  mutex : option tid;
}.

(** [struct params]. *)
Record params := mkParams {
  wait_prod : Z;
  wait_cons : Z;
  items : Z;
}.

(** Where a thread is in the body of its loop. *)
Inductive pc := Top | Lock | Access | Unlock | Post | Pause | Exit.

Record thread := mkThread {
  t_pc : pc;
  t_i : Z;
}.

Record state := mkState {
  shared : buffer;
  prod : thread;
  cons : thread;
  reader_results : list Z;
  printed : list Z;
}.

(** [a[i] = v]. *)
Definition store {A} (l : list Z) (i v : Z) (k : list Z → result A) : result A :=
  if (0 <=? i) && (i <? Z.of_nat (length l)) then k (<[Z.to_nat i := v]> l) else Fault.

(** [a[i]]. *)
Definition load {A} (l : list Z) (i : Z) (k : Z → result A) : result A :=
  if 0 <=? i then match l !! Z.to_nat i with Some v => k v | None => Fault end else Fault.

(** One step of [producer], which [b] and its own variables determine. *)
Definition producer (p : params) (b : buffer) (t : thread) : result (buffer * thread) :=
  let i := t_i t in
  match t_pc t with
  | Top =>
      if i <? items p then
        if 0 <? empty b
        then Step (mkBuffer (size b) (buf b) (empty b - 1) (full b) (mutex b), mkThread Lock i)
        else Blocked
      else Step (b, mkThread Exit i)
  | Lock =>
      match mutex b with
      | None => Step (mkBuffer (size b) (buf b) (empty b) (full b) (Some Prod), mkThread Access i)
      | Some _ => Blocked
      end
  | Access =>
      store (buf b) (Z.rem i (size b)) i (λ l,
        Step (mkBuffer (size b) l (empty b) (full b) (mutex b), mkThread Unlock i))
  | Unlock =>
      if decide (mutex b = Some Prod)
      then Step (mkBuffer (size b) (buf b) (empty b) (full b) None, mkThread Post i) else Fault
  | Post => Step (mkBuffer (size b) (buf b) (empty b) (full b + 1) (mutex b), mkThread Pause i)
  | Pause => if wait_prod p =? 0 then Fault else Step (b, mkThread Top (i + 1))
  | Exit => Blocked
  end.

(** One step of [consumer]; its last one prints what it has read. *)
Definition consumer (p : params) (b : buffer) (t : thread) (r out : list Z) :
    result (buffer * thread * list Z * list Z) :=
  let i := t_i t in
  match t_pc t with
  | Top =>
      if i <? items p then
        if 0 <? full b
        then Step (mkBuffer (size b) (buf b) (empty b) (full b - 1) (mutex b), mkThread Lock i, r, out)
        else Blocked
      else Step (b, mkThread Exit i, r, out ++ take (Z.to_nat (items p)) r)
  | Lock =>
      match mutex b with
      | None => Step (mkBuffer (size b) (buf b) (empty b) (full b) (Some Cons), mkThread Access i, r, out)
      | Some _ => Blocked
      end
  | Access =>
      load (buf b) (Z.rem i (size b)) (λ v, store r i v (λ r', Step (b, mkThread Unlock i, r', out)))
  | Unlock =>
      if decide (mutex b = Some Cons)
      then Step (mkBuffer (size b) (buf b) (empty b) (full b) None, mkThread Post i, r, out) else Fault
  | Post => Step (mkBuffer (size b) (buf b) (empty b + 1) (full b) (mutex b), mkThread Pause i, r, out)
  | Pause => if wait_cons p =? 0 then Fault else Step (b, mkThread Top (i + 1), r, out)
  | Exit => Blocked
  end.

Definition step (p : params) (t : tid) (s : state) : result state :=
  match t with
  | Prod =>
      match producer p (shared s) (prod s) with
      | Step (b, th) => Step (mkState b th (cons s) (reader_results s) (printed s))
      | Blocked => Blocked
      | Fault => Fault
      end
  | Cons =>
      match consumer p (shared s) (cons s) (reader_results s) (printed s) with
      | Step (b, th, r, out) => Step (mkState b (prod s) th r out)
      | Blocked => Blocked
      | Fault => Fault
      end
  end.

(** The end of [main]: what it frees, and then uses. *)
Record heap := mkHeap {
  live_params : bool;
  live_array : bool;
  live_buf : bool;
}.

(** [sem_destroy] or [pthread_mutex_destroy] of a member of [buf]. *)
Definition destroy (h : heap) : result heap := if live_buf h then Step h else Fault.

Definition cleanup (h : heap) : result heap :=
  let h := mkHeap false (live_array h) (live_buf h) in
  let h := mkHeap (live_params h) false (live_buf h) in
  let h := mkHeap (live_params h) (live_array h) false in
  match destroy h with
  | Step h => match destroy h with Step h => destroy h | r => r end
  | r => r
  end.

(** What [main] does with its arguments, as [atoi] gives them: a message for
    the first that is wrong, or the state in which the threads start.
    [garbage] is the content of fresh memory. *)
Definition main (size items wait_prod wait_cons : Z) (garbage : nat → list Z) : string + params * state :=
  if size <=? 0 then inl "bufsize tiene que ser mayor que cero." else
  if items <=? 0 then inl "counter tiene que ser mayor que cero." else
  if wait_prod <=? 0 then inl "wait-prod tiene que ser mayor que cero." else
  if wait_cons <=? 0 then inl "cons-wait tiene que ser mayor que cero." else
  inr (mkParams wait_prod wait_cons items,
       mkState (mkBuffer size (garbage (Z.to_nat size)) size 0 None) (mkThread Top 0) (mkThread Top 0)
         (garbage (Z.to_nat items)) []).

(** ** The invariant *)

(** How many times a thread has waited, touched the buffer and posted. *)
Definition waited (t : thread) : Z :=
  t_i t + match t_pc t with Top | Exit => 0 | _ => 1 end.
Definition touched (t : thread) : Z :=
  t_i t + match t_pc t with Unlock | Post | Pause => 1 | _ => 0 end.
Definition posted (t : thread) : Z :=
  t_i t + match t_pc t with Pause => 1 | _ => 0 end.

Definition inside (t : thread) : bool := match t_pc t with Access | Unlock => true | _ => false end.

Definition thread_ok (p : params) (t : thread) : Prop :=
  0 ≤ t_i t ≤ items p ∧ match t_pc t with Top => True | Exit => t_i t = items p | _ => t_i t < items p end.

Record inv (p : params) (s : state) : Prop := mkInv {
  iv_size : 0 < size (shared s);
  iv_len : Z.of_nat (length (buf (shared s))) = size (shared s);
  iv_rlen : Z.of_nat (length (reader_results s)) = items p;
  iv_prod : thread_ok p (prod s);
  iv_cons : thread_ok p (cons s);
  iv_empty : empty (shared s) = size (shared s) - waited (prod s) + posted (cons s);
  iv_full : full (shared s) = posted (prod s) - waited (cons s);
  iv_empty0 : 0 ≤ empty (shared s);
  iv_full0 : 0 ≤ full (shared s);
  iv_mutex : ∀ t, mutex (shared s) = Some t ↔ inside (match t with Prod => prod s | Cons => cons s end) = true;
  iv_buf : ∀ k, touched (cons s) ≤ k < touched (prod s) → buf (shared s) !! Z.to_nat (k mod size (shared s)) = Some k;
  iv_read : ∀ k, 0 ≤ k < touched (cons s) → reader_results s !! Z.to_nat k = Some k;
  iv_out : printed s = match t_pc (cons s) with Exit => seqZ 0 (items p) | _ => [] end;
}.

(** Two numbers less than [size] apart have different slots. *)
Lemma slots_differ sz i k : 0 < sz → 0 ≤ k < i → i < k + sz → i mod sz ≠ k mod sz.
Proof.
  intros Hs Hk Hi E. assert (Hd : (i - k) mod sz = 0).
  { rewrite Zminus_mod, E, Z.sub_diag. apply Z.mod_0_l. lia. }
  rewrite Z.mod_small in Hd by lia. lia.
Qed.

Lemma slot_mod sz i : 0 < sz → 0 ≤ i → Z.rem i sz = i mod sz ∧ 0 ≤ i mod sz < sz.
Proof. intros Hs Hi. split; [by apply Z.rem_mod_nonneg|by apply Z.mod_pos_bound]. Qed.

(** Case analysis of a step of a thread, up to the parts of the invariant that
    the step changes. *)
Ltac open_inv :=
  repeat match goal with
  | H : inv _ ?s |- _ => is_var s; destruct s as [[sz bf em fl mx] [ppc pi] [cpc ci] rr out]; destruct H as [I1 I2 I3 I4 I5 I6 I7 I8 I9 I10 I11 I12 I13]
  end;
  unfold thread_ok, waited, touched, posted in *;
  cbn [shared prod cons reader_results printed size buf empty full mutex t_pc t_i] in *.

Ltac close_inv :=
  constructor; unfold thread_ok, waited, touched, posted in *;
  cbn [shared prod cons reader_results printed size buf empty full mutex t_pc t_i] in *; try done; try lia;
  try by (intros; match goal with H : ∀ k, _ → _ |- _ => apply H; lia end).

Section proof.
Context (p : params) (Hwp : 0 < wait_prod p) (Hwc : 0 < wait_cons p).

Lemma prod_access sz bf em fl mx pi c rr out :
  inv p (mkState (mkBuffer sz bf em fl mx) (mkThread Access pi) c rr out) →
  inv p (mkState (mkBuffer sz (<[Z.to_nat (pi mod sz) := pi]> bf) em fl mx) (mkThread Unlock pi) c rr out).
Proof.
  intros [I1 I2 I3 I4 I5 I6 I7 I8 I9 I10 I11 I12 I13]. destruct c as [cpc ci]. close_inv.
  - by rewrite length_insert.
  - intros []; [exact (I10 Prod)|exact (I10 Cons)].
  - intros k Hk. destruct (slot_mod sz pi) as [_ Hr]; [done|lia|].
    destruct (decide (k = pi)) as [->|Hne]; [apply list_lookup_insert_eq; lia|].
    rewrite list_lookup_insert_ne; [apply I11; lia|].
    destruct (slot_mod sz k) as [_ Hr']; [done|destruct cpc; lia|].
    pose proof (slots_differ sz pi k I1). destruct cpc; lia.
Qed.

Lemma prod_step s : inv p s →
  step p Prod s ≠ Fault ∧ ∀ s', step p Prod s = Step s' → inv p s'.
Proof.
  intros I. pose proof I as I'. open_inv. unfold step, producer. cbn [shared prod cons t_pc t_i size buf empty full mutex]. destruct ppc.
  - destruct (Z.ltb_spec pi (items p)).
    + destruct (Z.ltb_spec 0 em); [|by split]. split; [done|]. intros s' [= <-]. close_inv. intros []; [exact (I10 Prod)|exact (I10 Cons)].
    + split; [done|]. intros s' [= <-]. close_inv. intros []; [exact (I10 Prod)|exact (I10 Cons)].
  - destruct mx as [t|] eqn:Em; [by split|]. split; [done|]. intros s' [= <-]. close_inv.
    intros []; [done|]. cbn. split; [done|]. intros Hc. by apply (I10 Cons) in Hc.
  - destruct (slot_mod sz pi) as [-> Hr]; [done|lia|]. unfold store.
    replace ((0 <=? pi mod sz) && (pi mod sz <? Z.of_nat (length bf))) with true by lia.
    split; [done|]. intros s' [= <-]. by apply prod_access.
  - pose proof (proj2 (I10 Prod) eq_refl) as Em. rewrite decide_True by done. split; [done|]. intros s' [= <-]. close_inv.
    intros []; [done|]. cbn. split; [done|]. intros Hc. apply (I10 Cons) in Hc. congruence.
  - split; [done|]. intros s' [= <-]. close_inv. intros []; [exact (I10 Prod)|exact (I10 Cons)].
  - replace (wait_prod p =? 0) with false by lia. split; [done|]. intros s' [= <-]. close_inv. intros []; [exact (I10 Prod)|exact (I10 Cons)].
  - by split.
Qed.

Lemma cons_access sz bf em fl mx pr ci rr out :
  inv p (mkState (mkBuffer sz bf em fl mx) pr (mkThread Access ci) rr out) →
  bf !! Z.to_nat (ci mod sz) = Some ci ∧
  inv p (mkState (mkBuffer sz bf em fl mx) pr (mkThread Unlock ci) (<[Z.to_nat ci := ci]> rr) out).
Proof.
  intros [I1 I2 I3 I4 I5 I6 I7 I8 I9 I10 I11 I12 I13]. destruct pr as [ppc pi].
  split; [apply I11; unfold touched, waited, posted in *; cbn in *; destruct ppc; lia|]. close_inv.
  - by rewrite length_insert.
  - intros []; [exact (I10 Prod)|exact (I10 Cons)].
  - intros k Hk. destruct (decide (k = ci)) as [->|Hne]; [apply list_lookup_insert_eq; lia|].
    rewrite list_lookup_insert_ne by lia. apply I12. lia.
Qed.

(** The list the consumer prints is the list of all items. *)
Lemma read_all n (r : list Z) : 0 ≤ n → Z.of_nat (length r) = n → (∀ k, 0 ≤ k < n → r !! Z.to_nat k = Some k) →
  take (Z.to_nat n) r = seqZ 0 n.
Proof.
  intros Hn Hl Hr. rewrite take_ge by lia. apply list_eq. intros j. destruct (decide (Z.of_nat j < n)).
  - rewrite lookup_seqZ_lt by done. rewrite <-(Nat2Z.id j) at 1. by rewrite Hr by lia.
  - rewrite lookup_seqZ_ge by lia. apply lookup_ge_None. lia.
Qed.

Lemma cons_step s : inv p s →
  step p Cons s ≠ Fault ∧ ∀ s', step p Cons s = Step s' → inv p s'.
Proof.
  intros I. pose proof I as I'. open_inv. unfold step, consumer. cbn [shared prod cons reader_results printed t_pc t_i size buf empty full mutex]. destruct cpc.
  - destruct (Z.ltb_spec ci (items p)).
    + destruct (Z.ltb_spec 0 fl); [|by split]. split; [done|]. intros s' [= <-]. close_inv. intros []; [exact (I10 Prod)|exact (I10 Cons)].
    + split; [done|]. intros s' [= <-]. close_inv; [intros []; [exact (I10 Prod)|exact (I10 Cons)]|].
      rewrite I13. apply read_all; [lia|done|]. intros k Hk. apply I12. lia.
  - destruct mx as [t|] eqn:Em; [by split|]. split; [done|]. intros s' [= <-]. close_inv.
    intros []; [|done]. cbn. split; [done|]. intros Hc. by apply (I10 Prod) in Hc.
  - destruct (slot_mod sz ci) as [-> Hr]; [done|lia|]. destruct (cons_access _ _ _ _ _ _ _ _ _ I) as [E1 E2].
    unfold load, store. replace (0 <=? ci mod sz) with true by lia. rewrite E1.
    replace ((0 <=? ci) && (ci <? Z.of_nat (length rr))) with true by lia.
    split; [done|]. by intros s' [= <-].
  - pose proof (proj2 (I10 Cons) eq_refl) as Em. rewrite decide_True by done. split; [done|]. intros s' [= <-]. close_inv.
    intros []; [|done]. cbn. split; [done|]. intros Hc. apply (I10 Prod) in Hc. congruence.
  - split; [done|]. intros s' [= <-]. close_inv. intros []; [exact (I10 Prod)|exact (I10 Cons)].
  - replace (wait_cons p =? 0) with false by lia. split; [done|]. intros s' [= <-]. close_inv. intros []; [exact (I10 Prod)|exact (I10 Cons)].
  - by split.
Qed.

(** ** Progress and termination *)

Definition ended (s : state) : bool :=
  match t_pc (prod s), t_pc (cons s) with Exit, Exit => true | _, _ => false end.

(** A thread inside its critical section can go on. *)
Lemma inside_goes t s : inv p s → inside (match t with Prod => prod s | Cons => cons s end) = true → step p t s ≠ Blocked.
Proof.
  intros I. open_inv. destruct t; unfold step; cbn [shared prod cons reader_results printed].
  - unfold producer; cbn; destruct ppc; try done; intros _; unfold store; repeat case_match; congruence.
  - unfold consumer; cbn; destruct cpc; try done; intros _; unfold load, store; repeat case_match; congruence.
Qed.

Lemma progress s : inv p s → ended s = false → ∃ t, step p t s ≠ Blocked.
Proof.
  intros I He. destruct (mutex (shared s)) as [t|] eqn:Em.
  { exists t. apply inside_goes; [done|]. by apply (iv_mutex _ _ I). }
  assert (Hn : ∀ t, inside (match t with Prod => prod s | Cons => cons s end) = false).
  { intros t. apply not_true_is_false. intros H. apply (iv_mutex _ _ I) in H. congruence. }
  pose proof (Hn Prod) as Hp. pose proof (Hn Cons) as Hc. clear Hn. open_inv. subst mx. unfold ended in He. cbn in He, Hp, Hc.
  destruct ppc; try done.
  - destruct (Z.ltb_spec pi (items p)) as [Hlt|]; [|exists Prod; unfold step, producer; cbn; by replace (pi <? items p) with false by lia].
    destruct (Z.ltb_spec 0 em); [exists Prod; unfold step, producer; cbn; by replace (pi <? items p) with true by lia; replace (0 <? em) with true by lia|].
    exists Cons. unfold step, consumer. cbn. destruct cpc; try done; [|by destruct (wait_cons p =? 0)|lia].
    replace (ci <? items p) with true by lia. by replace (0 <? fl) with true by lia.
  - by exists Prod.
  - by exists Prod.
  - exists Prod. unfold step, producer. cbn. by destruct (wait_prod p =? 0).
  - exists Cons. unfold step, consumer. cbn. destruct cpc; try done; [|by destruct (wait_cons p =? 0)].
    destruct (Z.ltb_spec ci (items p)); [|done]. by replace (0 <? fl) with true by lia.
Qed.

(** The steps that a thread has left. *)
Definition left (t : thread) : Z :=
  match t_pc t with
  | Top => 6 * (items p - t_i t) + 1
  | Lock => 6 * (items p - t_i t)
  | Access => 6 * (items p - t_i t) - 1
  | Unlock => 6 * (items p - t_i t) - 2
  | Post => 6 * (items p - t_i t) - 3
  | Pause => 6 * (items p - t_i t) - 4
  | Exit => 0
  end.

Definition steps_left (s : state) : Z := left (prod s) + left (cons s).

Lemma producer_left b t b' t' : producer p b t = Step (b', t') → thread_ok p t → left t' < left t.
Proof.
  destruct t as [c i]. intros H [H1 _]. unfold producer, store in H. unfold left. cbn in *.
  destruct c; repeat case_match; simplify_eq/=; lia.
Qed.

Lemma consumer_left b t r out b' t' r' out' :
  consumer p b t r out = Step (b', t', r', out') → thread_ok p t → left t' < left t.
Proof.
  destruct t as [c i]. intros H [H1 _]. unfold consumer, load, store in H. unfold left. cbn in *.
  destruct c; repeat case_match; simplify_eq/=; lia.
Qed.

Lemma step_left t s s' : step p t s = Step s' → inv p s → steps_left s' < steps_left s.
Proof.
  intros Hs I. unfold steps_left. destruct t; cbn in Hs.
  - destruct (producer _ _ _) as [[b th]| |] eqn:E; [|done..]. injection Hs as <-. cbn.
    pose proof (producer_left _ _ _ _ E (iv_prod _ _ I)). lia.
  - destruct (consumer _ _ _ _ _) as [[[[b th] r] out]| |] eqn:E; [|done..]. injection Hs as <-. cbn.
    pose proof (consumer_left _ _ _ _ _ _ _ _ E (iv_cons _ _ I)). lia.
Qed.

Lemma steps_left_pos s : inv p s → 0 ≤ steps_left s.
Proof.
  intros I. destruct (iv_prod _ _ I) as [P1 P2], (iv_cons _ _ I) as [C1 C2]. unfold steps_left, left.
  destruct (t_pc (prod s)), (t_pc (cons s)); lia.
Qed.
End proof.

(** The state in which [main] starts the threads. *)
Lemma buf_start_inv sz it wp wc garbage p s :
  (∀ n, length (garbage n) = n) → main sz it wp wc garbage = inr (p, s) →
  inv p s ∧ items p = it ∧ 0 < wait_prod p ∧ 0 < wait_cons p ∧ steps_left p s = 12 * it + 2.
Proof.
  intros Hg E. unfold main in E. repeat (case_match; [done|]). simplify_eq/=.
  split; [|unfold steps_left, left; cbn; lia]. close_inv; rewrite ?Hg; cbn [items]; try (intros; lia). by intros [].
Qed.

(** C22: the bounded buffer works under every interleaving.  Whatever the
    order in which the producer and the consumer take their steps, none of them does
    anything undefined; unless both have ended, one of them can go on, so that
    there is no deadlock; an execution has at most [12 * items + 2] steps; and
    when both have ended the consumer has printed [0 1 ... items-1]. *)
Theorem buffer_correct sz it wp wc garbage p s0 n s :
  (∀ n, length (garbage n) = n) → main sz it wp wc garbage = inr (p, s0) → runs (step p) n s0 s →
  (∀ t, step p t s ≠ Fault) ∧
  (if ended s then printed s = seqZ 0 it else ∃ t s', step p t s = Step s') ∧
  Z.of_nat n ≤ 12 * it + 2.
Proof.
  intros Hg Hm Hr. destruct (buf_start_inv _ _ _ _ _ _ _ Hg Hm) as (I0 & Hit & Hwp & Hwc & H0).
  assert (Hstep : ∀ t s1 s2, inv p s1 → step p t s1 = Step s2 → inv p s2 ∧ steps_left p s2 < steps_left p s1).
  { intros t s1 s2 I1 E. split; [|by eapply step_left]. destruct t; [eapply prod_step|eapply cons_step]; eauto. }
  assert (I : inv p s) by (eapply runs_inv; [|done|done]; intros; by eapply Hstep).
  assert (Hf : ∀ t, step p t s ≠ Fault) by (intros []; [by apply prod_step|by apply cons_step]).
  split; [done|]. split.
  - destruct (ended s) eqn:He.
    + rewrite (iv_out _ _ I). unfold ended in He. destruct (t_pc (prod s)), (t_pc (cons s)); try done. by rewrite Hit.
    + destruct (progress p s I He) as [t Ht]. exists t. destruct (step p t s) as [s'| |] eqn:E; [by exists s'|done|by destruct (Hf t)].
  - pose proof (runs_bounded _ _ (steps_left p) _ _ _ Hstep ltac:(by apply steps_left_pos) I0 Hr) as Hb.
    pose proof (steps_left_pos p s I). lia.
Qed.

(** [main] frees the buffer and then destroys the semaphores in it. *)
Lemma cleanup_faults h : cleanup h = Fault.
Proof. done. Qed.

(** A buffer of two slots and three items. *)
Definition demo_params : params := mkParams 1 1 3.
Definition demo_state : state :=
  mkState (mkBuffer 2 [7; 7] 2 0 None) (mkThread Top 0) (mkThread Top 0) [7; 7; 7] [].
Definition demo_end : state :=
  mkState (mkBuffer 2 [2; 1] 2 0 None) (mkThread Exit 3) (mkThread Exit 3) [0; 1; 2] [0; 1; 2].
Definition demo_order : list tid :=
  mjoin (replicate 3 (replicate 6 Prod ++ replicate 6 Cons)) ++ [Prod; Cons].

Lemma buffer_correct_witness :
  runs (step demo_params) 38 demo_state demo_end ∧ ended demo_end = true ∧ printed demo_end = seqZ 0 3.
Proof.
  assert (R : runs (step demo_params) 38 demo_state demo_end) by (apply (follow_runs (step demo_params) demo_order); reflexivity).
  split; [exact R|]. split; [reflexivity|].
  destruct (buffer_correct 2 3 1 1 (λ n, replicate n 7) demo_params demo_state 38 demo_end) as (_ & G & _).
  - intros n. apply length_replicate.
  - reflexivity.
  - exact R.
  - exact G.
Defined.

End Buf.

(** * lab-04/glob.c *)

Module Glob.

Definition INT_MAX : Z := 2147483647.

(** Where a thread is in the body of its loop, with the value of [loc]. *)
Inductive pc := Load | Inc (loc : Z) | Store (loc : Z).

Record thread := mkThread {
  t_pc : pc;
  t_j : Z;
}.

(** [glob], and the two threads. *)
Record state := mkState {
  glob : Z;
  thread1 : thread;
  thread2 : thread;
}.

(** One step of [increment_glob]: the new value of [glob] and of the thread.
    [loc] is an [int]: a value of [glob] is cut to it. *)
Definition increment_glob (num_loops g : Z) (t : thread) : result (Z * thread) :=
  if t_j t <? num_loops then
    match t_pc t with
    | Load => Step (g, mkThread (Inc (s32 g)) (t_j t))
    | Inc loc => if loc =? INT_MAX then Fault else Step (g, mkThread (Store (loc + 1)) (t_j t))
    | Store loc => Step (loc, mkThread Load (t_j t + 1))
    end
  else Blocked.

(** [false] is the first thread, [true] the second. *)
Definition step (n : Z) (t : bool) (s : state) : result state :=
  match increment_glob n (glob s) (if t then thread2 s else thread1 s) with
  | Step (g, th) => Step (if t then mkState g (thread1 s) th else mkState g th (thread2 s))
  | Blocked => Blocked
  | Fault => Fault
  end.

Definition start : state := mkState 0 (mkThread Load 0) (mkThread Load 0).

(** [main]: a message when its argument is wrong, and otherwise the values it
    may print. *)
Definition main (loops : Z) (out : string + Z) : Prop :=
  if loops <? 1 then out = inl "Error: ciclos debe ser mayor a cero."
  else ∃ k s, runs (step loops) k start s ∧ (∀ t, step loops t s = Blocked) ∧ out = inr (glob s).

Section proof.
Context (n : Z) (Hn : 2 ≤ n) (Hmax : 2 * n ≤ INT_MAX).

(** What a thread knows: [k] bounds the increments made so far. *)
Definition thread_ok (k : Z) (t : thread) : Prop :=
  0 ≤ t_j t ≤ n ∧
  match t_pc t with
  | Load => True
  | Inc loc => t_j t < n ∧ 0 ≤ loc ≤ k ∧ (t_j t ≠ 0 → 1 ≤ loc)
  | Store loc => t_j t < n ∧ 1 ≤ loc ≤ k + 1 ∧ (t_j t ≠ 0 → 2 ≤ loc)
  end.

Definition total (s : state) : Z := t_j (thread1 s) + t_j (thread2 s).

Record inv (s : state) : Prop := mkInv {
  iv_1 : thread_ok (total s) (thread1 s);
  iv_2 : thread_ok (total s) (thread2 s);
  iv_max : 0 ≤ glob s ≤ total s;
  iv_min : total s ≠ 0 → 1 ≤ glob s;
  iv_end : total s = 2 * n → 2 ≤ glob s;
}.

Lemma glob_step_inv t s : inv s → step n t s ≠ Fault ∧ ∀ s', step n t s = Step s' → inv s'.
Proof.
  intros [[A1 A2] [B1 B2] C D E]. destruct s as [g [p1 j1] [p2 j2]]. unfold total, INT_MAX in *. cbn in *.
  destruct t; unfold step, increment_glob; cbn.
  - destruct (Z.ltb_spec j2 n); [|by split]. destruct p2 as [|loc|loc].
    + split; [done|]. intros s' [= <-]. rewrite s32_small by lia.
      constructor; unfold thread_ok, total; cbn; destruct p1; lia.
    + replace (loc =? INT_MAX) with false by (unfold INT_MAX; lia). split; [done|]. intros s' [= <-].
      constructor; unfold thread_ok, total; cbn; destruct p1; lia.
    + split; [done|]. intros s' [= <-].
      constructor; unfold thread_ok, total; cbn; destruct p1; lia.
  - destruct (Z.ltb_spec j1 n); [|by split]. destruct p1 as [|loc|loc].
    + split; [done|]. intros s' [= <-]. rewrite s32_small by lia.
      constructor; unfold thread_ok, total; cbn; destruct p2; lia.
    + replace (loc =? INT_MAX) with false by (unfold INT_MAX; lia). split; [done|]. intros s' [= <-].
      constructor; unfold thread_ok, total; cbn; destruct p2; lia.
    + split; [done|]. intros s' [= <-].
      constructor; unfold thread_ok, total; cbn; destruct p2; lia.
Qed.

Lemma glob_start_inv : inv start.
Proof. constructor; unfold thread_ok, total; cbn; lia. Qed.

(** A thread has ended when it cannot go on. *)
Lemma blocked_ends t s : inv s → step n t s = Blocked → t_j (if t then thread2 s else thread1 s) = n.
Proof.
  intros I H. unfold step, increment_glob in H.
  assert (thread_ok (total s) (if t then thread2 s else thread1 s)) as [Hj _] by (destruct t; apply I).
  set (th := if t then thread2 s else thread1 s) in *. destruct (Z.ltb_spec (t_j th) n); [|lia].
  destruct (t_pc th); [done| |done]. by destruct (_ =? _).
Qed.

(** ** Executions that reach a value *)

(** The state in which thread [t] is [th] and the other one [o]. *)
Definition mk (t : bool) (g : Z) (th o : thread) : state := if t then mkState g o th else mkState g th o.

Lemma step_mk t g th o : step n t (mk t g th o) =
  match increment_glob n g th with
  | Step (g', th') => Step (mk t g' th' o)
  | Blocked => Blocked
  | Fault => Fault
  end.
Proof. by destruct t. Qed.

Lemma mk_other t g th o : mk t g th o = mk (negb t) g o th.
Proof. by destruct t. Qed.

(** One step of a thread, as an execution. *)
Lemma run_step t g th o g' th' : increment_glob n g th = Step (g', th') → ∃ k, runs (step n) k (mk t g th o) (mk t g' th' o).
Proof. intros E. exists 1%nat. apply (runs_1 _ t). by rewrite step_mk, E. Qed.

Lemma run_trans s1 s2 s3 : (∃ k, runs (step n) k s1 s2) → (∃ k, runs (step n) k s2 s3) → ∃ k, runs (step n) k s1 s3.
Proof. intros [k1 R1] [k2 R2]. exists (k1 + k2)%nat. by eapply runs_add. Qed.

(** The three statements of the loop. *)
Lemma load_step g j : 0 ≤ g ≤ INT_MAX → j < n → increment_glob n g (mkThread Load j) = Step (g, mkThread (Inc g) j).
Proof. intros Hg Hj. unfold increment_glob, INT_MAX in *. cbn. rewrite s32_small by lia. by replace (j <? n) with true by lia. Qed.

Lemma inc_step g j l : l < INT_MAX → j < n → increment_glob n g (mkThread (Inc l) j) = Step (g, mkThread (Store (l + 1)) j).
Proof. intros Hl Hj. unfold increment_glob. cbn. replace (j <? n) with true by lia. by replace (l =? INT_MAX) with false by lia. Qed.

Lemma store_step g j l : j < n → increment_glob n g (mkThread (Store l) j) = Step (l, mkThread Load (j + 1)).
Proof. intros Hj. unfold increment_glob. cbn. by replace (j <? n) with true by lia. Qed.

(** One thread runs [m] turns of its loop while the other waits. *)
Lemma run_turns t (m : nat) o : ∀ g j, 0 ≤ g → g + Z.of_nat m ≤ INT_MAX → j + Z.of_nat m ≤ n →
  ∃ k, runs (step n) k (mk t g (mkThread Load j) o) (mk t (g + Z.of_nat m) (mkThread Load (j + Z.of_nat m)) o).
Proof.
  induction m as [|m IH]; intros g j Hg Hb Hj.
  - exists 0%nat. rewrite !Z.add_0_r. constructor.
  - replace (g + Z.of_nat (S m)) with (g + 1 + Z.of_nat m) by lia. replace (j + Z.of_nat (S m)) with (j + 1 + Z.of_nat m) by lia.
    eapply run_trans; [apply run_step, load_step; lia|]. eapply run_trans; [apply run_step, inc_step; lia|].
    eapply run_trans; [apply run_step, store_step; lia|]. apply IH; lia.
Qed.

(** One thread begins a turn, the other runs [m] turns, and the first ends its own:
    all [m] turns are lost. *)
Lemma run_lost t (m : nat) g j j' : 0 ≤ g → g + Z.of_nat m < INT_MAX → j < n → j' + Z.of_nat m ≤ n →
  ∃ k, runs (step n) k (mk t g (mkThread Load j) (mkThread Load j'))
    (mk t (g + 1) (mkThread Load (j + 1)) (mkThread Load (j' + Z.of_nat m))).
Proof.
  intros Hg Hb Hj Hj'. eapply run_trans; [apply run_step, load_step; lia|].
  rewrite mk_other. eapply run_trans; [apply (run_turns _ m); lia|]. rewrite mk_other, negb_involutive.
  eapply run_trans; [apply run_step, inc_step; lia|]. apply run_step, store_step. lia.
Qed.

(** The execution that prints [2 * n - a - b]. *)
Lemma run_reaches (a b : nat) : Z.of_nat a < n → Z.of_nat b < n →
  ∃ k, runs (step n) k start (mkState (2 * n - Z.of_nat a - Z.of_nat b) (mkThread Load n) (mkThread Load n)).
Proof.
  intros Ha Hb. unfold INT_MAX in *. change start with (mk false 0 (mkThread Load 0) (mkThread Load 0)).
  eapply run_trans; [apply (run_lost false a); unfold INT_MAX; lia|]. rewrite (mk_other false).
  eapply run_trans; [apply (run_lost true b); unfold INT_MAX; lia|].
  eapply run_trans; [apply (run_turns true (Z.to_nat (n - 1 - Z.of_nat a))); unfold INT_MAX; lia|]. rewrite mk_other.
  eapply run_trans; [apply (run_turns false (Z.to_nat (n - 1 - Z.of_nat b))); unfold INT_MAX; lia|].
  exists 0%nat. unfold mk. rewrite !Z2Nat.id by lia.
  match goal with |- runs _ _ (mkState ?x (mkThread _ ?y) (mkThread _ ?z)) _ =>
    replace x with (2 * n - Z.of_nat a - Z.of_nat b) by lia; replace y with n by lia; replace z with n by lia end.
  constructor.
Qed.
End proof.

(** C39: what a data race does, exactly.  With at least two turns for each thread, and
    few enough for [loc], the program prints a number between 2 and
    [2 * loops], and each of these numbers is printed by some interleaving:
    up to [2 * loops - 2] increments can be lost, never more. *)
Theorem glob_values loops v :
  2 ≤ loops → 2 * loops ≤ INT_MAX → main loops (inr v) ↔ 2 ≤ v ≤ 2 * loops.
Proof.
  intros Hn Hmax. unfold main. replace (loops <? 1) with false by lia. split.
  - intros (k & s & R & Hb & [= ->]).
    assert (I : inv loops s).
    { eapply runs_inv; [|by apply glob_start_inv|exact R]. intros t s1 s2 I1 E. by eapply glob_step_inv. }
    pose proof (blocked_ends loops false s I (Hb false)) as E1. pose proof (blocked_ends loops true s I (Hb true)) as E2. cbn in E1, E2.
    destruct I as [_ _ I3 _ I5]. unfold total in *. rewrite E1, E2 in *. lia.
  - intros Hv. set (l := 2 * loops - v). set (a := Z.to_nat (Z.min l (loops - 1))). set (b := Z.to_nat (l - Z.of_nat a)).
    destruct (run_reaches loops Hn Hmax a b) as [k R]; [lia..|]. exists k. eexists. split; [exact R|]. split.
    + intros []; unfold step, increment_glob; cbn; by rewrite Z.ltb_irrefl.
    + cbn. f_equal. lia.
Qed.

(** [glob] is a [long] but [loc] an [int]: with more than 2^30 turns the
    increment of [loc] can overflow. *)
Lemma loc_overflows loops : INT_MAX < 2 * loops → loops ≤ INT_MAX →
  ∃ k s, runs (step loops) k start s ∧ step loops true s = Fault.
Proof.
  intros H1 H2. unfold INT_MAX in *.
  assert (∃ k, runs (step loops) k start (mk true INT_MAX (mkThread (Inc INT_MAX) (INT_MAX - loops)) (mkThread Load loops))) as [k R].
  { change start with (mk false 0 (mkThread Load 0) (mkThread Load 0)).
    eapply run_trans; [apply (run_turns loops false (Z.to_nat loops)); unfold INT_MAX; lia|]. rewrite mk_other. cbn [negb].
    eapply run_trans; [apply (run_turns loops true (Z.to_nat (INT_MAX - loops))); unfold INT_MAX; lia|].
    rewrite !Z2Nat.id by (unfold INT_MAX; lia). replace (0 + loops + (INT_MAX - loops)) with INT_MAX by lia.
    rewrite !Z.add_0_l. apply run_step, load_step; unfold INT_MAX; lia. }
  exists k. eexists. split; [exact R|]. rewrite step_mk. unfold increment_glob, INT_MAX. cbn [t_j t_pc].
  by replace (2147483647 - loops <? loops) with true by lia.
Qed.

Lemma glob_values_witness : main 10 (inr 2) ∧ main 10 (inr 20) ∧ ¬ main 10 (inr 21).
Proof.
  split; [|split].
  - apply (glob_values 10 2); [lia|unfold INT_MAX; lia|lia].
  - apply (glob_values 10 20); [lia|unfold INT_MAX; lia|lia].
  - intros H. apply (glob_values 10 21) in H; [lia|lia|unfold INT_MAX; lia].
Defined.

End Glob.
