(* ===== verification/Wordheap.v ===== *)
(** The word heap of lab-05/wordheap.c: processes that share a circular array
    of words in a shared memory object, with a mutex and two semaphores.

    The commands [-w], [-r] and [-p] are processes that take steps in any
    order; [-c], [-d] and the command line are functions on the objects.

    The theorems say that under every interleaving the object is a
    first-in-first-out queue of at most [ITEMS] words, and that a process that
    waits for a semaphore, which it does with the mutex held, is
    never woken again. *)

From S2P Require Import Prelude Threads.

Definition ITEMS : Z := 15.
Definition MAX_WORD : Z := 50.

(** [struct wordstack].  The mutex has the process that holds it; [heap] is
    the array of the [ITEMS] rows of [MAX_WORD] bytes. *)
Record wordstack := mkWordstack {
  free : Z;
  items : Z;
  mutex : option nat;
  full : Z;
  empty : Z;
  heap : list Z;
}.

Definition with_free v r := mkWordstack v (items r) (mutex r) (full r) (empty r) (heap r).
Definition with_items v r := mkWordstack (free r) v (mutex r) (full r) (empty r) (heap r).
Definition with_mutex v r := mkWordstack (free r) (items r) v (full r) (empty r) (heap r).
Definition with_full v r := mkWordstack (free r) (items r) (mutex r) v (empty r) (heap r).
Definition with_empty v r := mkWordstack (free r) (items r) (mutex r) (full r) v (heap r).
Definition with_heap v r := mkWordstack (free r) (items r) (mutex r) (full r) (empty r) v.

(** * The processes *)

(** A run of the program: what it was asked to do. *)
Inductive op :=
| Agregar (palabra : list Z)
| Recuperar
| Imprimir.

Inductive pc := Lock | Wait | Body | Unlock | Post | End.

Record proc := mkProc {
  p_op : op;
  p_pc : pc;
}.

(** What a process does to the words of the heap, when it does it. *)
Inductive event :=
| Put (palabra : list Z)
| Got (palabra : list Z)
| Shown (palabras : list (list Z)).

(** [strcpy(heap[k], s)]. *)
Definition strcpy (h : list Z) (k : Z) (s : list Z) : option (list Z) :=
  let off := Z.to_nat (k * MAX_WORD) in
  if (0 <=? k) && (off + length s <? length h)%nat then Some (splice h off (s ++ [0])) else None.

(** The string at [heap[k]], as [printf] reads it. *)
Fixpoint cstring (l : list Z) : option (list Z) :=
  match l with
  | [] => None
  | c :: l' => if c =? 0 then Some [] else cons c <$> cstring l'
  end.

Definition word (h : list Z) (k : Z) : option (list Z) :=
  if 0 <=? k then cstring (drop (Z.to_nat (k * MAX_WORD)) h) else None.

(** The row of the [i]-th word from the oldest. *)
Definition row (m : wordstack) (i : Z) : Z := Z.rem (free m + ITEMS - items m + i) ITEMS.

(** The critical section of each command; [None] is an access out of the heap. *)
Definition body (o : op) (m : wordstack) : option (wordstack * event) :=
  match o with
  | Agregar w =>
      h ← strcpy (heap m) (free m) w;
      let m := with_heap h m in
      let m := with_free (Z.rem (free m + 1) ITEMS) m in
      Some (with_items (items m + 1) m, Put w)
  | Recuperar =>
      w ← word (heap m) (row m 0);
      Some (with_items (items m - 1) m, Got w)
  | Imprimir =>
      ws ← mapM (λ i, word (heap m) (row m i)) (seqZ 0 (items m));
      Some (m, Shown ws)
  end.

(** A step of process [me]: the object, the process and what it did. *)
Definition step_of (me : nat) (p : proc) (m : wordstack) : result (wordstack * proc * option event) :=
  let go m c := Step (m, mkProc (p_op p) c, None) in
  match p_pc p with
  | Lock =>
      match mutex m with
      | Some _ => Blocked
      | None => go (with_mutex (Some me) m) (match p_op p with Imprimir => Body | _ => Wait end)
      end
  | Wait =>
      match p_op p with
      | Agregar _ => if 0 <? full m then go (with_full (full m - 1) m) Body else Blocked
      | Recuperar => if 0 <? empty m then go (with_empty (empty m - 1) m) Body else Blocked
      | Imprimir => go m Body
      end
  | Body =>
      match body (p_op p) m with
      | Some (m', e) => Step (m', mkProc (p_op p) Unlock, Some e)
      | None => Fault
      end
  | Unlock =>
      if decide (mutex m = Some me)
      then go (with_mutex None m) (match p_op p with Imprimir => End | _ => Post end) else Fault
  | Post =>
      match p_op p with
      | Agregar _ => go (with_empty (empty m + 1) m) End
      | Recuperar => go (with_full (full m + 1) m) End
      | Imprimir => go m End
      end
  | End => Blocked
  end.

(** The processes that use an object, and what has been done to it, in order. *)
Record machine := mkMachine {
  obj : wordstack;
  procs : list proc;
  trace : list event;
}.

Definition step (i : nat) (s : machine) : result machine :=
  match procs s !! i with
  | None => Blocked
  | Some p =>
      match step_of i p (obj s) with
      | Step (m, p', e) => Step (mkMachine m (<[i := p']> (procs s)) (trace s ++ option_list e))
      | Blocked => Blocked
      | Fault => Fault
      end
  end.

(** * The other commands *)

(** The shared memory objects, by name. *)
Abbreviation shms := (gmap string wordstack).

(** A new object is zeroed by [ftruncate]. *)
Definition fresh : wordstack := mkWordstack 0 0 None 0 0 (replicate 750 0).

Definition crear_pila (pila : string) (s : shms) : shms :=
  let m := default fresh (s !! pila) in
  <[pila := mkWordstack (free m) (items m) None ITEMS 0 (heap m)]> s.

Definition eliminar_pila (pila : string) (s : shms) : shms := delete pila s.

(** What [main] decides from its arguments ([argv] without the name of the
    program). *)
Inductive request :=
| Use (pila : string) (o : op)
| Crear (pila : string)
| Eliminar (pila : string)
| Usage
| Failure (message : string).

Definition bytes_of (s : string) : list Z := (λ c, Z.of_nat (Ascii.nat_of_ascii c)) <$> String.list_ascii_of_string s.

(** The code of a character. *)
Definition ch (s : string) : Z := default 0 (head (bytes_of s)).

Definition main (argv : list string) : request :=
  match argv with
  | [] => Failure "Uso"
  | o :: args =>
      if negb (default 0 (bytes_of o !! 0%nat) =? ch "-") then Failure "Uso" else
      let option := default 0 (bytes_of o !! 1%nat) in
      if option =? ch "w" then
        match args with [pila; palabra] => Use pila (Agregar (bytes_of palabra)) | _ => Failure "Uso incorrecto" end
      else if option =? ch "r" then
        match args with [pila] => Use pila Recuperar | _ => Failure "Uso incorrecto" end
      else if option =? ch "p" then
        match args with [pila] => Use pila Imprimir | _ => Failure "Uso incorrecto" end
      else if option =? ch "c" then
        match args with [pila] => Crear pila | _ => Failure "Uso incorrecto" end
      else if option =? ch "d" then
        match args with [pila] => Eliminar pila | _ => Failure "Uso incorrecto" end
      else if option =? ch "h" then Usage
      else Failure "opción desconocida."
  end.

(** A process that uses an object starts only if there is one. *)
Definition open_pila (pila : string) (s : shms) : option wordstack := s !! pila.

(** * The heap as a queue *)

(** What the events say if the words are a first-in-first-out queue: the
    words that are left. *)
Fixpoint fifo (q : list (list Z)) (l : list event) : option (list (list Z)) :=
  match l with
  | [] => Some q
  | Put w :: l' => fifo (q ++ [w]) l'
  | Got w :: l' => match q with w' :: q' => if decide (w = w') then fifo q' l' else None | [] => None end
  | Shown ws :: l' => if decide (ws = q) then fifo q l' else None
  end.

Lemma fifo_app q l1 l2 : fifo q (l1 ++ l2) = fifo q l1 ≫= λ q', fifo q' l2.
Proof.
  revert q. induction l1 as [|e l1 IH]; intros q; [done|]. destruct e as [w|w|ws]; cbn.
  - apply IH.
  - destruct q as [|w' q]; [done|]. by destruct (decide _).
  - by destruct (decide _).
Qed.

(** ** Words in their rows *)

Definition wok (w : list Z) : Prop := Forall (λ c, c ≠ 0) w ∧ Z.of_nat (length w) < MAX_WORD.

Definition stored (h : list Z) (k : Z) (w : list Z) : Prop := slice h (Z.to_nat (k * MAX_WORD)) (S (length w)) = w ++ [0].

Lemma cstring_app w l : Forall (λ c, c ≠ 0) w → cstring (w ++ 0 :: l) = Some w.
Proof.
  induction 1 as [|c w Hc _ IH]; [done|]. cbn. replace (c =? 0) with false by lia. by rewrite IH.
Qed.

Lemma stored_word h k w : 0 ≤ k → stored h k w → wok w → word h k = Some w.
Proof.
  intros Hk H [Hw _]. unfold word, stored, slice in *. replace (0 <=? k) with true by lia.
  set (l := drop _ h) in *. rewrite <-(take_drop (S (length w)) l), H, <-app_assoc. by apply cstring_app.
Qed.

Lemma strcpy_stores h k w : length h = 750%nat → 0 ≤ k < ITEMS → wok w →
  ∃ h', strcpy h k w = Some h' ∧ length h' = 750%nat ∧ stored h' k w ∧
    ∀ k' w', 0 ≤ k' < ITEMS → k' ≠ k → wok w' → stored h k' w' → stored h' k' w'.
Proof.
  intros Hl Hk [_ Hw]. unfold strcpy, stored, ITEMS, MAX_WORD in *. rewrite Hl.
  replace ((0 <=? k) && (Z.to_nat (k * 50) + length w <? 750)%nat) with true.
  2:{ symmetry. apply andb_true_intro. split; [lia|]. apply Nat.ltb_lt. lia. }
  eexists. split; [reflexivity|]. split; [|split].
  - rewrite length_splice; [done|]. rewrite length_app, Hl. cbn [length]. lia.
  - replace (S (length w)) with (length (w ++ [0])) by (rewrite length_app; cbn; lia).
    apply slice_splice_same. rewrite length_app, Hl. cbn [length]. lia.
  - intros k' w' Hk' Hne [_ Hw'] Hs. unfold MAX_WORD in Hw'. rewrite slice_splice_disjoint; [done|..]; rewrite ?length_app, ?Hl; cbn [length]; lia.
Qed.

(** ** The invariant *)

Definition inside (p : proc) : bool := match p_pc p with Wait | Body | Unlock => true | _ => false end.

(** The processes that hold a place and have no word there yet, and those that
    have freed one and have not told. *)
Definition putting (p : proc) : Z := match p_op p, p_pc p with Agregar _, Body => 1 | _, _ => 0 end.
Definition put (p : proc) : Z := match p_op p, p_pc p with Agregar _, (Unlock | Post) => 1 | _, _ => 0 end.
Definition getting (p : proc) : Z := match p_op p, p_pc p with Recuperar, Body => 1 | _, _ => 0 end.
Definition got (p : proc) : Z := match p_op p, p_pc p with Recuperar, (Unlock | Post) => 1 | _, _ => 0 end.

Fixpoint sum (f : proc → Z) (l : list proc) : Z :=
  match l with
  | [] => 0
  | p :: l' => f p + sum f l'
  end.

Lemma sum_insert f l i p p' : l !! i = Some p → sum f (<[i := p']> l) = sum f l - f p + f p'.
Proof.
  revert i. induction l as [|x l IH]; intros i H; [done|]. destruct i as [|i]; cbn in *.
  - injection H as ->. lia.
  - rewrite IH by done. lia.
Qed.

Lemma sum_bound f l i p : (∀ p, 0 ≤ f p) → l !! i = Some p → f p ≤ sum f l.
Proof.
  intros Hf. revert i. induction l as [|x l IH]; intros i H; [done|]. destruct i as [|i]; cbn in *.
  - injection H as ->. assert (0 ≤ sum f l); [|lia]. clear IH. induction l as [|x l IH]; cbn; [lia|]. pose proof (Hf x). lia.
  - apply IH in H. pose proof (Hf x). lia.
Qed.

Definition op_ok (o : op) : Prop := match o with Agregar w => wok w | _ => True end.

(** The object holds the words [q], from the oldest. *)
Record rep (m : wordstack) (q : list (list Z)) : Prop := mkRep {
  rp_len : length (heap m) = 750%nat;
  rp_free : 0 ≤ free m < ITEMS;
  rp_items : items m = Z.of_nat (length q) ∧ items m ≤ ITEMS;
  rp_words : ∀ i w, q !! i = Some w → wok w ∧ stored (heap m) (row m (Z.of_nat i)) w;
}.

Record inv (s : machine) (q : list (list Z)) : Prop := mkInv {
  iv_rep : rep (obj s) q;
  iv_full : full (obj s) = ITEMS - items (obj s) - sum putting (procs s) - sum got (procs s);
  iv_empty : empty (obj s) = items (obj s) - sum getting (procs s) - sum put (procs s);
  iv_full0 : 0 ≤ full (obj s);
  iv_empty0 : 0 ≤ empty (obj s);
  iv_mutex : ∀ i p, procs s !! i = Some p → (mutex (obj s) = Some i ↔ inside p = true);
  iv_ops : ∀ i p, procs s !! i = Some p → op_ok (p_op p);
  iv_trace : fifo [] (trace s) = Some q;
}.

Lemma row_range m q i : rep m q → 0 ≤ i → row m i = (free m + ITEMS - items m + i) mod ITEMS ∧ 0 ≤ row m i < ITEMS.
Proof.
  intros [R1 R2 R3 R4] Hi. unfold row, ITEMS in *. rewrite Z.rem_mod_nonneg by lia.
  split; [done|]. apply Z.mod_pos_bound. lia.
Qed.

(** [-w] in its critical section appends its word. *)
Lemma body_put m q w : rep m q → items m < ITEMS → wok w → ∃ m', body (Agregar w) m = Some (m', Put w) ∧ rep m' (q ++ [w]) ∧
  items m' = items m + 1 ∧ mutex m' = mutex m ∧ full m' = full m ∧ empty m' = empty m.
Proof.
  intros R Hi Hw. pose proof R as [R1 R2 [R3 R3'] R4]. cbn.
  destruct (strcpy_stores (heap m) (free m) w R1 R2 Hw) as (h & -> & L & S1 & S2). cbn.
  set (m' := with_items _ _). exists m'. split; [done|]. split; [|done].
  assert (Er : ∀ i, 0 ≤ i → row m' i = row m i).
  { intros i H. unfold row, m'. cbn [free items with_items with_free with_heap]. unfold ITEMS in *.
    rewrite (Z.rem_mod_nonneg (free m + 1)) by lia. pose proof (Z.mod_pos_bound (free m + 1) 15 ltac:(lia)).
    rewrite !Z.rem_mod_nonneg by lia. zdiv. }
  constructor; cbn [heap m' with_items with_free with_heap].
  - done.
  - cbn. unfold ITEMS in *. rewrite Z.rem_mod_nonneg by lia. apply Z.mod_pos_bound. lia.
  - cbn. rewrite length_app. cbn. lia.
  - intros i v Hv. rewrite Er by lia. apply lookup_app_Some in Hv as [Hv|[Hge Hv]].
    + destruct (R4 _ _ Hv) as [W1 W2]. split; [done|]. apply lookup_lt_Some in Hv. destruct (row_range m q (Z.of_nat i) R ltac:(lia)) as [E1 E2].
      apply S2; [done| |done|done]. rewrite E1. unfold ITEMS in *. zdiv.
    + apply list_lookup_singleton_Some in Hv as [H0 <-]. split; [done|].
      destruct (row_range m q (Z.of_nat i) R ltac:(lia)) as [E1 E2].
      replace (row m (Z.of_nat i)) with (free m); [done|]. rewrite E1. unfold ITEMS in *. zdiv.
Qed.

(** [-r] takes the oldest word. *)
Lemma body_got m w q : rep m (w :: q) → ∃ m', body Recuperar m = Some (m', Got w) ∧ rep m' q ∧
  items m' = items m - 1 ∧ mutex m' = mutex m ∧ full m' = full m ∧ empty m' = empty m.
Proof.
  intros R. pose proof R as [R1 R2 [R3 R3'] R4]. cbn. destruct (row_range m _ 0 R ltac:(lia)) as [_ E2].
  destruct (R4 0%nat w eq_refl) as [W1 W2]. rewrite (stored_word _ _ w) by (done || lia). cbn.
  eexists. split; [done|]. split; [|done]. constructor; cbn [heap with_items free items].
  - done.
  - done.
  - cbn in R3. lia.
  - intros i v Hv. destruct (R4 (S i) v Hv) as [V1 V2]. split; [done|]. unfold row in *. cbn [free items with_items].
    by replace (free m + ITEMS - (items m - 1) + Z.of_nat i) with (free m + ITEMS - items m + Z.of_nat (S i)) by lia.
Qed.

(** [-p] shows all words. *)
Lemma body_shown m q : rep m q → body Imprimir m = Some (m, Shown q).
Proof.
  intros R. pose proof R as [R1 R2 [R3 R3'] R4]. cbn. replace (mapM _ _) with (Some q); [done|]. symmetry.
  apply mapM_Some. apply Forall2_same_length_lookup_2; [rewrite length_seqZ; lia|].
  intros i k w Hk Hw. apply lookup_seqZ in Hk as [-> Hi]. destruct (R4 _ _ Hw) as [W1 W2].
  destruct (row_range m q (Z.of_nat i) R ltac:(lia)) as [_ E2].
  rewrite Z.add_0_l. apply stored_word; [lia|done|done].
Qed.

(** Replacing the process that takes a step keeps the mutex. *)
Lemma mutex_insert s i p p' m : procs s !! i = Some p →
  (∀ j x, procs s !! j = Some x → (mutex (obj s) = Some j ↔ inside x = true)) →
  (mutex m = Some i ↔ inside p' = true) →
  (∀ j, j ≠ i → mutex m = Some j ↔ mutex (obj s) = Some j) →
  ∀ j x, <[i := p']> (procs s) !! j = Some x → (mutex m = Some j ↔ inside x = true).
Proof.
  intros Hp H Hi Hj j x Hx. apply list_lookup_insert_Some in Hx as [(<- & <- & _)|[Hne Hx]]; [done|].
  rewrite Hj by done. by apply H.
Qed.

Lemma ops_insert s i p c : procs s !! i = Some p → (∀ j x, procs s !! j = Some x → op_ok (p_op x)) →
  ∀ j x, <[i := mkProc (p_op p) c]> (procs s) !! j = Some x → op_ok (p_op x).
Proof.
  intros Hp H j x Hx. apply list_lookup_insert_Some in Hx as [(_ & <- & _)|[_ Hx]]; [exact (H _ _ Hp)|by eapply H].
Qed.

Lemma rep_frame m m' q : rep m q → free m' = free m → items m' = items m → heap m' = heap m → rep m' q.
Proof.
  intros [R1 R2 R3 R4] E1 E2 E3. constructor; rewrite ?E1, ?E2, ?E3; try done.
  intros i w Hw. unfold row. rewrite E1, E2. by apply R4.
Qed.

Lemma got_nonneg p : 0 ≤ got p.
Proof. unfold got. repeat case_match; lia. Qed.
Lemma put_nonneg p : 0 ≤ put p.
Proof. unfold put. repeat case_match; lia. Qed.
Lemma putting_nonneg p : 0 ≤ putting p.
Proof. unfold putting. repeat case_match; lia. Qed.
Lemma getting_nonneg p : 0 ≤ getting p.
Proof. unfold getting. repeat case_match; lia. Qed.

Lemma sum_nonneg f l : (∀ p, 0 ≤ f p) → 0 ≤ sum f l.
Proof. intros Hf. induction l as [|x l IH]; cbn; [lia|]. pose proof (Hf x). lia. Qed.

(** A step that leaves the words alone. *)
Lemma quiet_step s q i p c m : inv s q → procs s !! i = Some p →
  free m = free (obj s) → items m = items (obj s) → heap m = heap (obj s) →
  let p' := mkProc (p_op p) c in
  full m = full (obj s) + putting p - putting p' + got p - got p' → 0 ≤ full m →
  empty m = empty (obj s) + getting p - getting p' + put p - put p' → 0 ≤ empty m →
  (mutex m = Some i ↔ inside p' = true) → (∀ j, j ≠ i → mutex m = Some j ↔ mutex (obj s) = Some j) →
  inv (mkMachine m (<[i := p']> (procs s)) (trace s ++ [])) q.
Proof.
  intros [I1 I2 I3 I4 I5 I6 I7 I8] Hp E1 E2 E3 p' E4 E5 E6 E7 E8 E9. rewrite app_nil_r. constructor; cbn.
  - by eapply rep_frame.
  - rewrite !(sum_insert _ _ _ p) by done. lia.
  - rewrite !(sum_insert _ _ _ p) by done. lia.
  - done.
  - done.
  - by eapply mutex_insert.
  - by eapply ops_insert.
  - done.
Qed.

(** A step that changes the words. *)
Lemma event_step s q i p m e q' : inv s q → procs s !! i = Some p → p_pc p = Body → rep m q' →
  fifo q [e] = Some q' → full m = full (obj s) → empty m = empty (obj s) → mutex m = mutex (obj s) →
  (match p_op p with Agregar _ => items m = items (obj s) + 1 | Recuperar => items m = items (obj s) - 1 | Imprimir => items m = items (obj s) end) →
  inv (mkMachine m (<[i := mkProc (p_op p) Unlock]> (procs s)) (trace s ++ [e])) q'.
Proof.
  intros [I1 I2 I3 I4 I5 I6 I7 I8] Hp Hc R Hq E1 E2 E3 E4. constructor; cbn.
  - done.
  - rewrite !(sum_insert _ _ _ p) by done. unfold putting at 2 3, got at 2 3. rewrite Hc. cbn. destruct (p_op p); lia.
  - rewrite !(sum_insert _ _ _ p) by done. unfold getting at 2 3, put at 2 3. rewrite Hc. cbn. destruct (p_op p); lia.
  - lia.
  - lia.
  - eapply mutex_insert; [done..| |by intros; rewrite E3]. rewrite E3. rewrite (I6 _ _ Hp). unfold inside. by rewrite Hc.
  - by eapply ops_insert.
  - rewrite fifo_app, I8. exact Hq.
Qed.

(** What a process does in its critical section. *)
Lemma body_step s q i p : inv s q → procs s !! i = Some p → p_pc p = Body →
  ∃ m e q', body (p_op p) (obj s) = Some (m, e) ∧
    inv (mkMachine m (<[i := mkProc (p_op p) Unlock]> (procs s)) (trace s ++ [e])) q'.
Proof.
  intros I Hp Hc. pose proof I as [I1 I2 I3 I4 I5 I6 I7 I8].
  pose proof (sum_nonneg got (procs s) got_nonneg). pose proof (sum_nonneg put (procs s) put_nonneg).
  pose proof (sum_bound putting _ _ _ putting_nonneg Hp) as Hb1. pose proof (sum_bound getting _ _ _ getting_nonneg Hp) as Hb2.
  unfold putting at 1 in Hb1. unfold getting at 1 in Hb2. rewrite Hc in Hb1, Hb2.
  pose proof (I7 _ _ Hp) as Ho. destruct (p_op p) as [w| |] eqn:Eo; cbn in Ho.
  - destruct (body_put (obj s) q w I1 ltac:(lia) Ho) as (m & Em & R & X1 & X2 & X3 & X4).
    exists m, (Put w), (q ++ [w]). split; [done|]. rewrite <-Eo. eapply event_step; try done. by rewrite Eo.
  - destruct q as [|w q]. { destruct (rp_items _ _ I1) as [H1 _]. cbn in H1. lia. }
    destruct (body_got (obj s) w q I1) as (m & Em & R & X1 & X2 & X3 & X4).
    exists m, (Got w), q. split; [done|]. rewrite <-Eo. eapply event_step; try done.
    + cbn. by rewrite decide_True.
    + by rewrite Eo.
  - rewrite (body_shown (obj s) q I1). exists (obj s), (Shown q), q. split; [done|]. rewrite <-Eo. eapply event_step; try done.
    + cbn. by rewrite decide_True.
    + by rewrite Eo.
Qed.

Ltac quiet p q Hc :=
  exists q; apply quiet_step with (p := p); try done; unfold putting, getting, put, got, inside; rewrite ?Hc; cbn; try done;
  destruct (p_op p); cbn; try done; try lia.

Ltac quiet_op p q Hc Eo :=
  exists q; apply quiet_step with (p := p); try done; unfold putting, getting, put, got, inside; rewrite ?Hc, ?Eo; cbn; done || lia.

Lemma heap_step_inv i s q : inv s q → step i s ≠ Fault ∧ ∀ s', step i s = Step s' → ∃ q', inv s' q'.
Proof.
  intros I. unfold step. destruct (procs s !! i) as [p|] eqn:Hp; [|by split].
  pose proof (iv_mutex _ _ I _ _ Hp) as Hm. pose proof (iv_full0 _ _ I). pose proof (iv_empty0 _ _ I).
  unfold inside in Hm. unfold step_of. destruct (p_pc p) eqn:Hc.
  - destruct (mutex (obj s)) as [j|] eqn:Em; [by split|]. split; [done|]. intros s' [= <-].
    quiet p q Hc; intros j Hj; rewrite Em; split; intros [=]; congruence.
  - assert (Em : mutex (obj s) = Some i) by (by apply Hm).
    destruct (p_op p) as [w| |] eqn:Eo.
    + destruct (Z.ltb_spec 0 (full (obj s))); [|by split]. split; [done|]. intros s' [= <-]. rewrite <-Eo. quiet_op p q Hc Eo.
    + destruct (Z.ltb_spec 0 (empty (obj s))); [|by split]. split; [done|]. intros s' [= <-]. rewrite <-Eo. quiet_op p q Hc Eo.
    + split; [done|]. intros s' [= <-]. rewrite <-Eo. quiet_op p q Hc Eo.
  - destruct (body_step s q i p I Hp Hc) as (m & e & q' & -> & I'). split; [done|]. intros s' [= <-]. by exists q'.
  - assert (Em : mutex (obj s) = Some i) by (by apply Hm). rewrite decide_True by done. split; [done|]. intros s' [= <-].
    quiet p q Hc; intros j Hj; rewrite Em; split; intros [=]; congruence.
  - destruct (p_op p) as [w| |] eqn:Eo; (split; [done|]); intros s' [= <-]; rewrite <-Eo; quiet_op p q Hc Eo.
  - by split.
Qed.

(** ** The theorems *)

(** The processes [ops] start on an object. *)
Definition launch (m : wordstack) (ops : list op) : machine := mkMachine m ((λ o, mkProc o Lock) <$> ops) [].

Lemma sum_launch f m ops : (∀ o, f (mkProc o Lock) = 0) → sum f (procs (launch m ops)) = 0.
Proof. intros Hf. unfold launch. cbn. induction ops as [|o ops IH]; cbn; [done|]. by rewrite Hf, IH. Qed.

Lemma crear_fresh pila s : s !! pila = None →
  open_pila pila (crear_pila pila s) = Some (mkWordstack 0 0 None ITEMS 0 (replicate 750 0)).
Proof. intros H. unfold open_pila, crear_pila. rewrite lookup_insert_eq, H. done. Qed.

Lemma launch_inv ops : Forall op_ok ops → inv (launch (mkWordstack 0 0 None ITEMS 0 (replicate 750 0)) ops) [].
Proof.
  intros Hok. constructor; rewrite ?sum_launch by (by intros []); cbn [obj launch full empty items mutex trace procs]; try done.
  - intros i p Hp. apply list_lookup_fmap_Some in Hp as (o & -> & Ho). cbn. done.
  - intros i p Hp. apply list_lookup_fmap_Some in Hp as (o & -> & Ho). cbn. by eapply Forall_lookup_1.
Qed.


(** Process [i] waits for a semaphore that is zero, with the mutex held, and no
    process is about to post it. *)
Definition wedged (i : nat) (s : machine) : Prop :=
  mutex (obj s) = Some i ∧ (∀ j p, procs s !! j = Some p → inside p = true → j = i) ∧
  ((procs s !! i = Some (mkProc Recuperar Wait) ∧ empty (obj s) = 0 ∧
      ∀ j w, procs s !! j ≠ Some (mkProc (Agregar w) Post)) ∨
   (∃ w, procs s !! i = Some (mkProc (Agregar w) Wait) ∧ full (obj s) = 0 ∧
      ∀ j, procs s !! j ≠ Some (mkProc Recuperar Post))).

(** The only step in a wedged heap is that of a process that has unlocked the
    mutex before, and posts the other semaphore. *)
Lemma wedged_only i j s s' : wedged i s → step j s = Step s' →
  ∃ o, j ≠ i ∧ procs s !! j = Some (mkProc o Post) ∧ procs s' = <[j := mkProc o End]> (procs s) ∧ trace s' = trace s ∧
    obj s' = match o with
             | Agregar _ => with_empty (empty (obj s) + 1) (obj s)
             | Recuperar => with_full (full (obj s) + 1) (obj s)
             | Imprimir => obj s
             end.
Proof.
  intros (Hm & Hin & Hw) E. unfold step in E. destruct (procs s !! j) as [[o c]|] eqn:Hj; [|done].
  assert (Hi : j = i → c = Wait) by (intros ->; destruct Hw as [(H & _)|(w & H & _)]; congruence).
  pose proof (Hin _ _ Hj) as Hij. unfold step_of in E. cbn in E. rewrite Hm in E. destruct c; try done.
  - specialize (Hij eq_refl) as ->. exfalso. destruct Hw as [(H & H0 & _)|(w & H & H0 & _)]; rewrite Hj in H; injection H as ->; by rewrite H0 in E.
  - by specialize (Hi (Hij eq_refl)).
  - by specialize (Hi (Hij eq_refl)).
  - exists o. split; [intros H; by specialize (Hi H)|]. destruct o; injection E as <-; cbn; by rewrite app_nil_r.
Qed.

Lemma wedged_step i j s s' : wedged i s → step j s = Step s' →
  wedged i s' ∧ trace s' = trace s ∧ procs s' !! i = procs s !! i.
Proof.
  intros Hw E. destruct (wedged_only _ _ _ _ Hw E) as (o & Hne & Hj & Ep & Et & Eo). destruct Hw as (Hm & Hin & Hw).
  assert (Hkeep : procs s' !! i = procs s !! i) by (rewrite Ep; by apply list_lookup_insert_ne).
  assert (Hother : ∀ j' p, procs s' !! j' = Some p → p_pc p ≠ End → procs s !! j' = Some p).
  { intros j' p H Hp. rewrite Ep in H. by apply list_lookup_insert_Some in H as [(_ & <- & _)|[_ H]]. }
  split; [|done]. unfold wedged. rewrite Hkeep. split; [rewrite Eo; by destruct o|]. split.
  - intros j' p H Hp. apply (Hin j' p); [|done]. apply Hother; [done|]. intros Hc. unfold inside in Hp. by rewrite Hc in Hp.
  - destruct Hw as [(H1 & H2 & H3)|(w & H1 & H2 & H3)]; [left|right; exists w]; (split; [done|]); rewrite Eo.
    + split; [destruct o as [w| |]; [by destruct (H3 j w)|done|done]|]. intros j' w H. by apply (H3 j' w), Hother.
    + split; [destruct o; [done|by destruct (H3 j)|done]|]. intros j' H. by apply (H3 j'), Hother.
Qed.

(** the word heap deadlocks.  The mutex is locked before the semaphore is
    waited for, so that a [-r] that finds the heap empty (or a [-w] that finds it
    full) keeps everybody out: from then on, whatever steps the processes
    take, it waits for ever, and no word is added, recovered or printed. *)
Theorem wordheap_deadlock i n s s' :
  wedged i s → runs step n s s' → trace s' = trace s ∧ procs s' !! i = procs s !! i ∧ step i s' = Blocked.
Proof.
  intros Hw R. assert (H : wedged i s' ∧ trace s' = trace s ∧ procs s' !! i = procs s !! i).
  { eapply (runs_inv _ (λ s', wedged i s' ∧ trace s' = trace s ∧ procs s' !! i = procs s !! i)); [|done|exact R].
    intros j s1 s2 (W1 & T1 & P1) E. destruct (wedged_step _ _ _ _ W1 E) as (W2 & T2 & P2). by rewrite T2, P2. }
  destruct H as ((_ & _ & W') & T' & P'). do 2 (split; [done|]). unfold step.
  destruct W' as [(E & E0 & _)|(w & E & E0 & _)]; rewrite E; unfold step_of; cbn; by rewrite E0.
Qed.

(** ** Examples *)

Definition uno : list Z := bytes_of "uno".
Definition dos : list Z := bytes_of "dos".
Definition pila0 : wordstack := mkWordstack 0 0 None ITEMS 0 (replicate 750 0).


(** [-r] has locked the mutex of an empty heap. *)
Definition stuck : machine :=
  mkMachine (with_mutex (Some 0%nat) pila0) [mkProc Recuperar Wait; mkProc (Agregar uno) Lock] [].

Lemma wordheap_deadlock_witness : step 0 (launch pila0 [Recuperar; Agregar uno]) = Step stuck ∧
  ∀ n s', runs step n stuck s' → trace s' = [] ∧ step 0 s' = Blocked.
Proof.
  split; [reflexivity|]. intros n s' R. destruct (wordheap_deadlock 0 n stuck s') as (T & _ & B); [|exact R|].
  - split; [reflexivity|]. split.
    + intros [|[|j]] p Hp Hi; [reflexivity|injection Hp as <-; discriminate Hi|discriminate Hp].
    + left. split; [reflexivity|]. split; [reflexivity|]. intros [|[|j]] w; discriminate.
  - split; [exact T|exact B].
Defined.

(** [strcpy] does not look at the length of its word: one of more than
    [MAX_WORD] bytes overwrites the row that follows. *)
Lemma long_word_spills :
  ∃ h, strcpy (splice (replicate 750 0) 50 (uno ++ [0])) 0 (replicate 52 97) = Some h ∧
    word (splice (replicate 750 0) 50 (uno ++ [0])) 1 = Some uno ∧ word h 1 = Some [97; 97].
Proof. eexists. split; [reflexivity|]. split; vm_compute; reflexivity. Qed.

(** [crear_pila] of an object that exists sets the semaphores again, but not
    [items]: words are then added to a heap that is full. *)
Lemma crear_again pila m objs : objs !! pila = Some m → items m = ITEMS →
  ∃ m', open_pila pila (crear_pila pila objs) = Some m' ∧ items m' = ITEMS ∧ 0 < full m'.
Proof.
  intros H Hi. unfold open_pila, crear_pila. rewrite lookup_insert_eq, H. eexists. split; [reflexivity|]. split; [done|]. done.
Qed.
