(* ===== verification/Canvas.v ===== *)
(** The shared canvas of lab-05/canvas.c: a board of 25 by 25 characters in a
    shared memory object.

    An object is the list of its cells, and the objects are a map from their
    names; a command gives the objects after it and what it prints, or the
    message it fails with, or an access out of the board.  [canvas_draws]
    says which cells a message changes. *)

From S2P Require Import Prelude.

Definition HEIGHT : Z := 25.
Definition WIDTH : Z := 25.

Abbreviation shms := (gmap string (list Z)).

(** How a command ends. *)
Inductive outcome (A : Type) :=
| Ok (a : A)
| Failure (message : string)
| OutOfRange.
Arguments Ok {_} _.
Arguments Failure {_} _.
Arguments OutOfRange {_}.

Definition create_canvas (name : string) (s : shms) : outcome shms :=
  match s !! name with
  | Some _ => Failure "shm_open"
  | None => Ok (<[name := replicate (Z.to_nat (HEIGHT * WIDTH)) 32]> s)
  end.

Definition delete_canvas (name : string) (s : shms) : outcome shms :=
  match s !! name with
  | None => Failure "shm_unlink"
  | Some _ => Ok (delete name s)
  end.

(** The rows of the board, each with an end of line. *)
Definition board (cells : list Z) : list Z :=
  mjoin ((λ i, slice cells (Z.to_nat (i * WIDTH)) (Z.to_nat WIDTH) ++ [10]) <$> seqZ 0 HEIGHT).

Definition print_canvas (name : string) (s : shms) : outcome (list Z) :=
  match s !! name with
  | None => Failure "shm_open"
  | Some cells => Ok (board cells)
  end.

(** The loops of [write_canvas] from index [i] on: [go i] is their second
    condition and [at_ i] the cell of the byte [i]. *)
Fixpoint write_loop (cells message : list Z) (i : Z) (go : Z → bool) (at_ : Z → Z) : outcome (list Z) :=
  match message with
  | [] => Ok cells
  | c :: message' =>
      if go i then
        if (0 <=? at_ i) && (at_ i <? Z.of_nat (length cells))
        then write_loop (<[Z.to_nat (at_ i) := c]> cells) message' (i + 1) go at_
        else OutOfRange
      else Ok cells
  end.

(** [h] is 104 and [v] is 118. *)
Definition write_canvas (name : string) (message : list Z) (x y direction : Z) (s : shms) : outcome shms :=
  match s !! name with
  | None => Failure "shm_open"
  | Some cells =>
      let r :=
        if direction =? 104 then write_loop cells message 0 (λ i, x + i <? WIDTH) (λ i, y * WIDTH + (x + i))
        else if direction =? 118 then write_loop cells message 0 (λ i, y + i <? HEIGHT) (λ i, (y + i) * WIDTH + x)
        else Failure "Dirección desconocida" in
      match r with
      | Ok cells' => Ok (<[name := cells']> s)
      | Failure m => Failure m
      | OutOfRange => OutOfRange
      end
  end.

(** * The command line *)

(** [atoi] of the C library, for a number that fits: blanks, a sign, digits. *)
Fixpoint number (l : list Z) (n : Z) : Z :=
  match l with
  | c :: l' => if (48 <=? c) && (c <=? 57) then number l' (n * 10 + (c - 48)) else n
  | [] => n
  end.

Fixpoint atoi (l : list Z) : Z :=
  match l with
  | c :: l' =>
      if (c =? 32) || ((9 <=? c) && (c <=? 13)) then atoi l'
      else if c =? 45 then - number l' 0
      else if c =? 43 then number l' 0
      else number l 0
  | [] => 0
  end.

Definition bytes_of (s : string) : list Z := (λ c, Z.of_nat (Ascii.nat_of_ascii c)) <$> String.list_ascii_of_string s.

(** [s[i]], of a string that ends with 0. *)
Definition char_at (s : string) (i : nat) : Z := default 0 (bytes_of s !! i).

(** [argv] is without the name of the program; the result is the objects and what is printed, where
    [usage] prints to the other stream.  The letters are [-], [w], [p], [c], [d] and [h]. *)
Definition main (argv : list string) (s : shms) : outcome (shms * list Z) :=
  let silent r := match r with Ok s' => Ok (s', []) | Failure m => Failure m | OutOfRange => OutOfRange end in
  match argv with
  | [] => Failure "Uso"
  | o :: args =>
      if negb (char_at o 0 =? 45) then Failure "Uso" else
      let option := char_at o 1 in
      if option =? 119 then
        match args with
        | [name; message; x; y; direction] =>
            silent (write_canvas name (bytes_of message) (atoi (bytes_of x)) (atoi (bytes_of y)) (char_at direction 0) s)
        | _ => Failure "Uso"
        end
      else if option =? 112 then
        match args with
        | [name] => match print_canvas name s with Ok out => Ok (s, out) | Failure m => Failure m | OutOfRange => OutOfRange end
        | _ => Failure "Uso"
        end
      else if option =? 99 then
        match args with [name] => silent (create_canvas name s) | _ => Failure "Uso" end
      else if option =? 100 then
        match args with [name] => silent (delete_canvas name s) | _ => Failure "Uso" end
      else if option =? 104 then Ok (s, [])
      else Failure "Comando desconocido"
  end.

(** * What is drawn *)

(** The cell in row [r] and column [c]. *)
Definition cell (cells : list Z) (r c : Z) : option Z := cells !! Z.to_nat (r * WIDTH + c).

(** The byte of the message in that cell, if any. *)
Definition drawn (message : list Z) (x y direction r c : Z) : option Z :=
  if direction =? 104 then (if (r =? y) && (x <=? c) then message !! Z.to_nat (c - x) else None)
  else (if (c =? x) && (y <=? r) then message !! Z.to_nat (r - y) else None).

(** The starting point is on the board in the direction that the code does not check. *)
Definition in_board (x y direction : Z) : Prop :=
  0 ≤ x ∧ 0 ≤ y ∧ if direction =? 104 then y < HEIGHT else direction = 118 ∧ x < WIDTH.

Lemma write_h message : ∀ cells x y i, length cells = 625%nat → 0 ≤ x → 0 ≤ y < 25 → 0 ≤ i →
  ∃ cells', write_loop cells message i (λ i, x + i <? WIDTH) (λ i, y * WIDTH + (x + i)) = Ok cells' ∧ length cells' = 625%nat ∧
    ∀ r c, 0 ≤ r < 25 → 0 ≤ c < 25 →
      cell cells' r c = match drawn message (x + i) y 104 r c with Some b => Some b | None => cell cells r c end.
Proof.
  induction message as [|b message IH]; intros cells x y i Hl Hx Hy Hi; cbn [write_loop].
  - exists cells. split; [done|]. split; [done|]. intros r c _ _. unfold drawn. cbn [Z.eqb Pos.eqb]. rewrite lookup_nil. by destruct (_ && _).
  - unfold WIDTH. destruct (Z.ltb_spec (x + i) 25) as [Hlt|Hge].
    + rewrite Hl. replace (_ && _) with true by lia. set (cells1 := <[_ := b]> cells).
      assert (Hl1 : length cells1 = 625%nat) by (unfold cells1; by rewrite length_insert).
      destruct (IH cells1 x y (i + 1) Hl1 Hx Hy ltac:(lia)) as (cells2 & E & Hl2 & H2). unfold WIDTH in E.
      exists cells2. split; [exact E|]. split; [done|]. intros r c Hr Hc. rewrite H2 by done. unfold drawn, cell, cells1, WIDTH. cbn [Z.eqb Pos.eqb].
      destruct (Z.eqb_spec r y) as [->|Hne]; cbn [andb].
      * destruct (decide (c = x + i)) as [->|Hci].
        -- replace (x + (i + 1) <=? x + i) with false by lia. rewrite list_lookup_insert_eq by lia.
           replace (x + i <=? x + i) with true by lia. by rewrite Z.sub_diag.
        -- rewrite list_lookup_insert_ne by lia. destruct (Z.leb_spec (x + (i + 1)) c).
           ++ replace (x + i <=? c) with true by lia. by replace (Z.to_nat (c - (x + i))) with (S (Z.to_nat (c - (x + (i + 1))))) by lia.
           ++ by replace (x + i <=? c) with false by lia.
      * rewrite list_lookup_insert_ne; [done|]. lia.
    + exists cells. split; [done|]. split; [done|]. intros r c Hr Hc. unfold drawn. cbn [Z.eqb Pos.eqb].
      by replace ((r =? y) && (x + i <=? c)) with false by lia.
Qed.

Lemma write_v message : ∀ cells x y i, length cells = 625%nat → 0 ≤ x < 25 → 0 ≤ y → 0 ≤ i →
  ∃ cells', write_loop cells message i (λ i, y + i <? HEIGHT) (λ i, (y + i) * WIDTH + x) = Ok cells' ∧ length cells' = 625%nat ∧
    ∀ r c, 0 ≤ r < 25 → 0 ≤ c < 25 →
      cell cells' r c = match drawn message x (y + i) 118 r c with Some b => Some b | None => cell cells r c end.
Proof.
  induction message as [|b message IH]; intros cells x y i Hl Hx Hy Hi; cbn [write_loop].
  - exists cells. split; [done|]. split; [done|]. intros r c _ _. unfold drawn. cbn [Z.eqb Pos.eqb]. rewrite lookup_nil. by destruct (_ && _).
  - unfold WIDTH, HEIGHT. destruct (Z.ltb_spec (y + i) 25) as [Hlt|Hge].
    + rewrite Hl. replace (_ && _) with true by lia. set (cells1 := <[_ := b]> cells).
      assert (Hl1 : length cells1 = 625%nat) by (unfold cells1; by rewrite length_insert).
      destruct (IH cells1 x y (i + 1) Hl1 Hx Hy ltac:(lia)) as (cells2 & E & Hl2 & H2). unfold WIDTH, HEIGHT in E.
      exists cells2. split; [exact E|]. split; [done|]. intros r c Hr Hc. rewrite H2 by done. unfold drawn, cell, cells1, WIDTH. cbn [Z.eqb Pos.eqb].
      destruct (Z.eqb_spec c x) as [->|Hne]; cbn [andb].
      * destruct (decide (r = y + i)) as [->|Hri].
        -- replace (y + (i + 1) <=? y + i) with false by lia. rewrite list_lookup_insert_eq by lia.
           replace (y + i <=? y + i) with true by lia. by rewrite Z.sub_diag.
        -- rewrite list_lookup_insert_ne by lia. destruct (Z.leb_spec (y + (i + 1)) r).
           ++ replace (y + i <=? r) with true by lia. by replace (Z.to_nat (r - (y + i))) with (S (Z.to_nat (r - (y + (i + 1))))) by lia.
           ++ by replace (y + i <=? r) with false by lia.
      * rewrite list_lookup_insert_ne; [done|]. lia.
    + exists cells. split; [done|]. split; [done|]. intros r c Hr Hc. unfold drawn. cbn [Z.eqb Pos.eqb].
      by replace ((c =? x) && (y + i <=? r)) with false by lia.
Qed.

(** A message is drawn from its starting point on, as far as the board goes, and nothing else changes. *)
Lemma canvas_draws name message x y direction s cells : s !! name = Some cells → length cells = 625%nat → in_board x y direction →
  ∃ cells', write_canvas name message x y direction s = Ok (<[name := cells']> s) ∧ length cells' = 625%nat ∧
    ∀ r c, 0 ≤ r < HEIGHT → 0 ≤ c < WIDTH →
      cell cells' r c = match drawn message x y direction r c with Some b => Some b | None => cell cells r c end.
Proof.
  intros Hs Hl (Hx & Hy & Hd). unfold write_canvas. rewrite Hs. unfold HEIGHT, WIDTH in *. destruct (Z.eqb_spec direction 104) as [->|Hne].
  - destruct (write_h message cells x y 0 Hl Hx ltac:(lia) ltac:(lia)) as (cells' & E & Hl' & H). unfold WIDTH in E. rewrite E.
    exists cells'. split; [done|]. split; [done|]. by rewrite Z.add_0_r in H.
  - destruct Hd as [-> Hd]. destruct (write_v message cells x y 0 Hl ltac:(lia) Hy ltac:(lia)) as (cells' & E & Hl' & H). unfold WIDTH, HEIGHT in E.
    rewrite E. exists cells'. split; [done|]. split; [done|]. by rewrite Z.add_0_r in H.
Qed.

(** The row of a horizontal message is not checked, nor the column of a
    vertical one: row 25 is past the end of the board. *)
Lemma row_unchecked name b message x s cells : s !! name = Some cells → length cells = 625%nat → 0 ≤ x < 25 →
  write_canvas name (b :: message) x 25 104 s = OutOfRange.
Proof.
  intros Hs Hl Hx. unfold write_canvas. rewrite Hs. cbn [Z.eqb Pos.eqb write_loop]. unfold WIDTH.
  replace (x + 0 <? 25) with true by lia. rewrite Hl. by replace (_ && _) with false by lia.
Qed.

(** Every object is a whole board. *)
Definition boards (s : shms) : Prop := map_Forall (λ _ cells, length cells = 625%nat) s.

Lemma write_loop_length message : ∀ cells i go at_ cells', write_loop cells message i go at_ = Ok cells' → length cells' = length cells.
Proof.
  induction message as [|b message IH]; intros cells i go at_ cells' E; cbn [write_loop] in E; [by simplify_eq|].
  destruct (go i); [|by simplify_eq]. destruct (_ && _); [|done]. apply IH in E. by rewrite length_insert in E.
Qed.

Lemma write_canvas_boards name message x y direction s s' : boards s → write_canvas name message x y direction s = Ok s' → boards s'.
Proof.
  intros Hs. unfold write_canvas. destruct (s !! name) as [cells|] eqn:Hn; [|done].
  destruct (if direction =? 104 then _ else _) as [cells'| |] eqn:E; [|done..]. intros [= <-].
  apply map_Forall_insert_2; [|done]. rewrite <-(Hs _ _ Hn).
  destruct (direction =? 104); [by eapply write_loop_length|]. destruct (direction =? 118); [by eapply write_loop_length|done].
Qed.

(** Every run of the program leaves whole boards, and changes none but the one its arguments name. *)
Lemma main_boards argv s s' out : boards s → main argv s = Ok (s', out) →
  boards s' ∧ ∀ name, argv !! 1%nat ≠ Some name → s' !! name = s !! name.
Proof.
  intros Hs. unfold main. destruct argv as [|o args]; [done|]. destruct (negb _); [done|].
  destruct (char_at o 1 =? 119).
  { destruct args as [|name [|message [|x [|y [|d [|??]]]]]]; try done. destruct (write_canvas _ _ _ _ _ _) as [s1| |] eqn:E; [|done..].
    intros [= <- <-]. split; [by eapply write_canvas_boards|]. intros n Hn. unfold write_canvas in E.
    destruct (s !! name); [|done]. destruct (if _ =? 104 then _ else _); simplify_eq. rewrite lookup_insert_ne; [done|]. intros ->. by apply Hn. }
  destruct (char_at o 1 =? 112).
  { destruct args as [|name [|??]]; try done. destruct (print_canvas name s); [|done..]. by intros [= <- <-]. }
  destruct (char_at o 1 =? 99).
  { destruct args as [|name [|??]]; try done. unfold create_canvas. destruct (s !! name); [done|]. intros [= <- <-].
    split; [by apply map_Forall_insert_2|]. intros n Hn. rewrite lookup_insert_ne; [done|]. intros ->. by apply Hn. }
  destruct (char_at o 1 =? 100).
  { destruct args as [|name [|??]]; try done. unfold delete_canvas. destruct (s !! name); [|done]. intros [= <- <-].
    split; [by apply map_Forall_delete|]. intros n Hn. rewrite lookup_delete_ne; [done|]. intros ->. by apply Hn. }
  destruct (char_at o 1 =? 104); [|done]. by intros [= <- <-].
Qed.
