(* ===== verification/Tools.v ===== *)
(** Small programs: wc and cat of xv6, and the text programs of lab-01
    (palabras, histograma).

    What [read] or [getchar] gives is an argument; what is written is a list of
    bytes or of numbers.  The theorems say what each program computes of its whole
    input, however [read] cuts it. *)

From S2P Require Import Prelude.

(** * xv6/wc.c *)

Module Wc.

(** The counters of [wc]: lines, words, characters, and whether it is in a word. *)
Record counts := mkCounts {
  l : Z;
  w : Z;
  c : Z;
  inword : bool;
}.

Definition blank (b : Z) : bool := existsb (Z.eqb b) [32; 13; 9; 10; 11].

(** The body of the loop on a buffer. *)
Definition count (s : counts) (b : Z) : counts :=
  let s := mkCounts (l s) (w s) (s32 (c s + 1)) (inword s) in
  let s := if b =? 10 then mkCounts (s32 (l s + 1)) (w s) (c s) (inword s) else s in
  if blank b then mkCounts (l s) (w s) (c s) false
  else if negb (inword s) then mkCounts (l s) (s32 (w s + 1)) (c s) true
  else s.

(** What a call of [read] returns: bytes, the end of the file, or an error. *)
Inductive readres := Bytes (bs : list Z) | Eof | Error.

(** [wc]: what it prints (lines, words, characters), or the read error. *)
Fixpoint wc_loop (s : counts) (reads : list readres) : option (Z * Z * Z) :=
  match reads with
  | Bytes bs :: reads' => wc_loop (foldl count s bs) reads'
  | Error :: _ => None
  | Eof :: _ | [] => Some (l s, w s, c s)
  end.

Definition wc (reads : list readres) : option (Z * Z * Z) := wc_loop (mkCounts 0 0 0 false) reads.

(** The words of a text: the maximal runs of bytes that are not blank.  [prev]
    tells whether a byte that is not blank comes before. *)
Fixpoint words (prev : bool) (bs : list Z) : Z :=
  match bs with
  | [] => 0
  | b :: bs' => (if negb (blank b) && negb prev then 1 else 0) + words (negb (blank b)) bs'
  end.

Definition lines (bs : list Z) : Z := Z.of_nat (length (filter (λ b, b = 10) bs)).

Lemma words_bound prev bs : 0 ≤ words prev bs ≤ Z.of_nat (length bs).
Proof. revert prev. induction bs as [|b bs IH]; intros prev; cbn [words length]; [lia|]. specialize (IH (negb (blank b))). case_match; lia. Qed.

Lemma lines_cons b bs : lines (b :: bs) = (if b =? 10 then 1 else 0) + lines bs.
Proof. unfold lines. rewrite filter_cons. case_decide; cbn [length]; case_match; lia. Qed.

Lemma lines_bound bs : 0 ≤ lines bs ≤ Z.of_nat (length bs).
Proof. induction bs as [|b bs IH]; [done|]. rewrite lines_cons. cbn [length]. case_match; lia. Qed.

Lemma count_spec s b : 0 ≤ l s < 2147483647 → 0 ≤ w s < 2147483647 → 0 ≤ c s < 2147483647 →
  count s b = mkCounts (l s + (if b =? 10 then 1 else 0)) (w s + (if negb (blank b) && negb (inword s) then 1 else 0)) (c s + 1) (negb (blank b)).
Proof.
  intros Hl Hw Hc. destruct s as [l0 w0 c0 i0]. unfold count. cbn [l w c inword] in *. rewrite (s32_small (c0 + 1)), (s32_small (l0 + 1)) by lia.
  destruct (b =? 10), (blank b), i0; cbn [l w c inword negb andb]; rewrite ?(s32_small (w0 + 1)), ?Z.add_0_r by lia; done.
Qed.

Lemma count_all bs : ∀ s, 0 ≤ l s ≤ c s → 0 ≤ w s ≤ c s → c s + Z.of_nat (length bs) < 2147483648 →
  ∃ i, foldl count s bs = mkCounts (l s + lines bs) (w s + words (inword s) bs) (c s + Z.of_nat (length bs)) i.
Proof.
  induction bs as [|b bs IH]; intros s Hl Hw Hmax; cbn [foldl length words] in *.
  - exists (inword s). destruct s. cbn. by rewrite !Z.add_0_r.
  - rewrite count_spec by lia. rewrite lines_cons.
    destruct (IH (mkCounts (l s + (if b =? 10 then 1 else 0)) (w s + (if negb (blank b) && negb (inword s) then 1 else 0)) (c s + 1) (negb (blank b)))) as [i E];
      cbn [l w c inword] in *; [case_match; lia|case_match; lia|lia|].
    exists i. rewrite E. f_equal; lia.
Qed.

Lemma wc_loop_chunks chunks : ∀ s, wc_loop s ((Bytes <$> chunks) ++ [Eof]) =
  Some (l (foldl count s (mjoin chunks)), w (foldl count s (mjoin chunks)), c (foldl count s (mjoin chunks))).
Proof.
  induction chunks as [|bs chunks IH]; intros s; [done|]. cbn [fmap list_fmap app wc_loop].
  change (mjoin (bs :: chunks)) with (bs ++ mjoin chunks). rewrite foldl_app. apply IH.
Qed.

(** [wc] counts lines, words and characters of the whole file, however
    [read] cuts it: a word or a line that is read in pieces is counted once. *)
Theorem wc_counts chunks : Z.of_nat (length (mjoin chunks)) < 2147483648 →
  wc ((Bytes <$> chunks) ++ [Eof]) = Some (lines (mjoin chunks), words false (mjoin chunks), Z.of_nat (length (mjoin chunks))).
Proof.
  intros Hlen. unfold wc. rewrite wc_loop_chunks.
  destruct (count_all (mjoin chunks) (mkCounts 0 0 0 false)) as [i E]; cbn [l w c inword] in *; [lia..|]. by rewrite E.
Qed.

(** "ab c\nd" in two reads. *)
Lemma wc_counts_witness : wc ((Bytes <$> [[97]; [98; 32; 99; 10; 100]]) ++ [Eof]) = Some (1, 3, 6).
Proof. rewrite (wc_counts [[97]; [98; 32; 99; 10; 100]]); reflexivity. Defined.
End Wc.

(** * xv6/cat.c *)

Module Cat.

(** What [write] accepted of each buffer is compared with what was read: [wr]
    gives the number of bytes it accepts of a buffer. *)
Fixpoint cat (wr : list Z → nat) (reads : list Wc.readres) (out : list Z) : string + list Z :=
  match reads with
  | Wc.Bytes bs :: reads' =>
      if negb (wr bs =? length bs)%nat then inl "cat: write error" else cat wr reads' (out ++ bs)
  | Wc.Error :: _ => inl "cat: read error"
  | Wc.Eof :: _ | [] => inr out
  end.

Lemma cat_copies chunks : ∀ out, cat length ((Wc.Bytes <$> chunks) ++ [Wc.Eof]) out = inr (out ++ mjoin chunks).
Proof.
  induction chunks as [|bs chunks IH]; intros out; [cbn; by rewrite app_nil_r|].
  cbn [fmap list_fmap app cat]. rewrite Nat.eqb_refl. cbn [negb]. rewrite IH, <-app_assoc. done.
Qed.
End Cat.

(** * lab-01/palabras.c *)

Module Palabras.

(** [c = getchar()] for a [char] that is signed: the byte, or -1 at the end. *)
Definition to_char (b : option Z) : Z :=
  match b with
  | None => -1
  | Some b => if b <? 128 then b else b - 256
  end.

(** The loop of [main]: what it prints. *)
Fixpoint main (input : list Z) : list Z :=
  let c := to_char (head input) in
  if c =? -1 then [] else
  match input with
  | [] => []
  | b :: input' => (if (c =? 9) || (c =? 32) || (c =? 10) then 10 else b) :: main input'
  end.

(** One word per line: the blanks of the text become ends of line. *)
Lemma palabras_splits input : Forall (λ b, 0 ≤ b < 255) input →
  main input = (λ b, if (b =? 9) || (b =? 32) || (b =? 10) then 10 else b) <$> input.
Proof.
  induction 1 as [|b input Hb _ IH]; [done|]. cbn [main head]. unfold to_char.
  assert (E : ((if b <? 128 then b else b - 256) =? -1) = false) by (case_match; lia). rewrite E, IH, fmap_cons. f_equal.
  destruct (Z.ltb_spec b 128); [done|]. by rewrite !(proj2 (Z.eqb_neq _ _)) by lia.
Qed.

(** [c] is a [char], which does not tell the byte 255 from [EOF]: the text is cut there. *)
Lemma palabras_stops a rest : Forall (λ b, 0 ≤ b < 255) a → main (a ++ 255 :: rest) = main a.
Proof.
  induction 1 as [|b a Hb _ IH]; [done|]. cbn [app main head]. by rewrite IH.
Qed.
End Palabras.

(** * lab-01/histograma.c *)

Module Histograma.

Definition MAX_WORD_LENGTH : nat := 20.

Definition isalpha (c : Z) : bool := ((65 <=? c) && (c <=? 90)) || ((97 <=? c) && (c <=? 122)).

(** The loop of [main]: the histogram and the length of the current word. *)
Fixpoint scan (input : list Z) (word_lengths : list Z) (longitud_actual : nat) : list Z :=
  match input with
  | [] => word_lengths
  | c :: input' =>
      if isalpha c then scan input' word_lengths (S longitud_actual)
      else if (0 <? longitud_actual)%nat then
        scan input'
          (if (longitud_actual <=? MAX_WORD_LENGTH)%nat
           then alter (λ n, n + 1) longitud_actual word_lengths else word_lengths) 0
      else scan input' word_lengths 0
  end.

Definition main (input : list Z) : list Z := scan input (replicate (S MAX_WORD_LENGTH) 0) 0.

(** The words of a text that are followed by something, by length; [n] letters come before. *)
Fixpoint ended (input : list Z) (n : nat) : list nat :=
  match input with
  | [] => []
  | c :: input' => if isalpha c then ended input' (S n) else (if (0 <? n)%nat then [n] else []) ++ ended input' 0
  end.

Lemma scan_counts input : ∀ h n k, length h = S MAX_WORD_LENGTH → (1 ≤ k ≤ MAX_WORD_LENGTH)%nat →
  scan input h n !! k = (λ x, x + Z.of_nat (length (filter (λ m, m = k) (ended input n)))) <$> h !! k.
Proof.
  induction input as [|c input IH]; intros h n k Hh Hk; cbn [scan ended].
  - destruct (lookup_lt_is_Some_2 h k) as [x ->]; [lia|]. cbn. by rewrite Z.add_0_r.
  - destruct (isalpha c); [by apply IH|]. destruct (Nat.ltb_spec 0 n); [|by apply IH].
    rewrite IH; [|case_match; [by rewrite length_alter|done]|done]. cbn [app]. rewrite filter_cons.
    destruct (lookup_lt_is_Some_2 h k) as [x Hx]; [lia|]. rewrite Hx. case_decide as E.
    + subst n. rewrite (proj2 (Nat.leb_le k MAX_WORD_LENGTH)) by lia. rewrite list_lookup_alter_eq, Hx. cbn. f_equal. lia.
    + case_match; [rewrite list_lookup_alter_ne by done|]; by rewrite Hx.
Qed.

(** Entry [k] of the histogram is the number of words of [k] letters that are followed by another byte. *)
Lemma histogram k input : (1 ≤ k ≤ MAX_WORD_LENGTH)%nat →
  main input !! k = Some (Z.of_nat (length (filter (λ m, m = k) (ended input 0)))).
Proof.
  intros Hk. unfold main. rewrite scan_counts; [|apply length_replicate|done].
  assert (E : replicate (S MAX_WORD_LENGTH) 0 !! k = Some 0) by (apply lookup_replicate; split; [done|lia]).
  by rewrite E.
Qed.

(** A word at the very end of the text is not counted. *)
Lemma last_word_lost word : forallb isalpha word = true → main word = main [].
Proof.
  intros H. unfold main. generalize (replicate (S MAX_WORD_LENGTH) 0). generalize 0%nat.
  induction word as [|c word IH]; intros n h; [done|]. cbn in H. apply andb_prop in H as [H1 H2]. cbn [scan]. rewrite H1. by rewrite IH.
Qed.
End Histograma.
