(* ===== verification/Ls.v ===== *)
(** The program ls: ls.c of xv6.

    What [open], [fstat], [stat] and [read] return is an argument ([world]), and closing the
    descriptor is left out; what is printed is a list of lines with their descriptors.
    [ls_lists] says which lines a directory gives. *)

From S2P Require Import Prelude State Spinlock Cprintf Console Ulib.

Definition SLASH : Z := 47.
Definition BLANK : Z := 32.

(** [for(p=path+strlen(path); p >= path && *p != '/'; p--)], then [p++]: the index of the first
    character after the last slash; [k] is that of [p] plus one. *)
Fixpoint after_slash (path : list Z) (k : nat) : nat :=
  match k with
  | O => O
  | S i => if default 0 (path !! i) =? SLASH then S i else after_slash path i
  end.

(** The string it returns; [buf] is written up to its last byte, which is 0. *)
Definition fmtname (path : list Z) : list Z :=
  let p := drop (after_slash path (S (length path))) path in
  if (DIRSIZ <=? length p)%nat then p else p ++ replicate (DIRSIZ - length p) BLANK.

(** The fields of [struct stat] that ls prints. *)
Record lstat := mkLstat {
  ls_type : Z;
  ls_ino : Z;
  ls_size : Z;
}.

(** The system calls: which paths open, what [fstat] and [stat] give, and the entries of a directory
    (the number and the 14 bytes of the name) that [read] gives. *)
Record world := mkWorld {
  w_open : list Z → bool;
  w_fstat : list Z → option lstat;
  w_stat : list Z → option lstat;
  w_entries : list Z → list (Z * list Z);
}.

(** [printf(fd, fmt, ...)]. *)
Definition say (fd : Z) (fmt : string) (args : list carg) : list (Z * list Z) :=
  match printf (bytes fmt) args with Some bs => [(fd, bs)] | None => [] end.

Definition line (name : list Z) (st : lstat) : list (Z * list Z) :=
  say 1 "%s %d %d %d
" [CStr (Some name); CInt (ls_type st); CInt (ls_ino st); CInt (ls_size st)].

(** The name of an entry as [memmove(p, de.name, DIRSIZ); p[DIRSIZ] = 0] leaves it. *)
Definition de_name (de : Z * list Z) : list Z := cstr (take DIRSIZ (snd de)).

(** The body of the loop over the entries; [buf] holds the path, a slash and the name. *)
Definition ls_entry (w : world) (path : list Z) (de : Z * list Z) : list (Z * list Z) :=
  if fst de =? 0 then [] else
  let buf := path ++ SLASH :: de_name de in
  match w_stat w buf with
  | None => say 1 "ls: cannot stat %s
" [CStr (Some buf)]
  | Some st => line (fmtname buf) st
  end.

Definition ls (w : world) (path : list Z) : list (Z * list Z) :=
  if negb (w_open w path) then say 2 "ls: cannot open %s
" [CStr (Some path)] else
  match w_fstat w path with
  | None => say 2 "ls: cannot stat %s
" [CStr (Some path)]
  | Some st =>
      if ls_type st =? T_FILE then line (fmtname path) st
      else if ls_type st =? T_DIR then
        if (512 <? length path + 1 + DIRSIZ + 1)%nat then say 1 "ls: path too long
" [] else w_entries w path ≫= ls_entry w path
      else []
  end.

(** [args] are the arguments after the name of the program. *)
Definition main (w : world) (args : list (list Z)) : list (Z * list Z) :=
  match args with
  | [] => ls w (bytes ".")
  | _ => args ≫= ls w
  end.

(** * What it prints *)

(** A name filled up to 14 columns. *)
Definition padded (name : list Z) : list Z := name ++ replicate (DIRSIZ - length name) BLANK.

(** The text of a line. *)
Definition text (name : list Z) (st : lstat) : list Z :=
  let dec z := BLANK :: printint (s32 z) 10 true in
  name ++ dec (ls_type st) ++ dec (ls_ino st) ++ dec (ls_size st) ++ [10].

Lemma line_text name st : line name st = [(1, text name st)].
Proof. done. Qed.

Lemma after_slash_none path k : (∀ i, (i < k)%nat → path !! i ≠ Some SLASH) → after_slash path k = 0%nat.
Proof.
  induction k as [|k IH]; intros H; [done|]. cbn. destruct (Z.eqb_spec (default 0 (path !! k)) SLASH) as [E|E].
  - exfalso. apply (H k); [lia|]. destruct (path !! k); [by rewrite <-E|done].
  - apply IH. intros i Hi. apply H. lia.
Qed.

Lemma after_slash_found dir name k : (SLASH ∉ name) → (length dir < k ≤ S (length (dir ++ SLASH :: name)))%nat →
  after_slash (dir ++ SLASH :: name) k = S (length dir).
Proof.
  intros Hn. induction k as [|k IH]; intros Hk; [lia|]. cbn [after_slash]. destruct (decide (k = length dir)) as [->|Hne].
  - rewrite lookup_app_r, Nat.sub_diag by lia. done.
  - rewrite lookup_app_r by lia. destruct (k - length dir)%nat as [|i] eqn:E; [lia|].
    change ((SLASH :: name) !! S i) with (name !! i).
    destruct (Z.eqb_spec (default 0 (name !! i)) SLASH) as [Es|Es]; [|apply IH; lia].
    exfalso. destruct (name !! i) as [c|] eqn:Ei; [|done]. cbn in Es. subst c. by apply list_elem_of_lookup_2 in Ei.
Qed.

(** The last component of a path, in columns. *)
Lemma fmtname_last dir name : (SLASH ∉ name) → fmtname (dir ++ SLASH :: name) = padded name.
Proof.
  intros Hn. unfold fmtname. rewrite after_slash_found by (try done; rewrite length_app; cbn; lia).
  assert (Ed : drop (S (length dir)) (dir ++ SLASH :: name) = name).
  { rewrite drop_app_ge by lia. by replace (S (length dir) - length dir)%nat with 1%nat by lia. }
  rewrite Ed. unfold padded. destruct (Nat.leb_spec DIRSIZ (length name)); [|done].
  replace (DIRSIZ - length name)%nat with 0%nat by lia. by rewrite app_nil_r.
Qed.

Lemma fmtname_plain name : (SLASH ∉ name) → fmtname name = padded name.
Proof.
  intros Hn. unfold fmtname. rewrite after_slash_none; [|intros i Hi E; by apply list_elem_of_lookup_2 in E].
  rewrite drop_0. unfold padded. destruct (Nat.leb_spec DIRSIZ (length name)); [|done].
  replace (DIRSIZ - length name)%nat with 0%nat by lia. by rewrite app_nil_r.
Qed.

(** A directory gives a line for each entry in use, in order, with the name of the entry in columns and what
    [stat] says of the file. *)
Theorem ls_lists w path st stats :
  w_open w path = true → w_fstat w path = Some st → ls_type st = T_DIR → (length path ≤ 496)%nat →
  (∀ de, de ∈ w_entries w path → fst de ≠ 0 →
    (SLASH ∉ de_name de) ∧ w_stat w (path ++ SLASH :: de_name de) = Some (stats (de_name de))) →
  ls w path = filter (λ de, fst de ≠ 0) (w_entries w path) ≫=
    λ de, [(1, text (padded (de_name de)) (stats (de_name de)))].
Proof.
  intros Ho Hs Ht Hl He. unfold ls. rewrite Ho, Hs, Ht. cbn [negb]. replace (T_DIR =? T_FILE) with false by done. rewrite Z.eqb_refl.
  replace (512 <? length path + 1 + DIRSIZ + 1)%nat with false by (symmetry; apply Nat.ltb_ge; unfold DIRSIZ; lia).
  induction (w_entries w path) as [|de l IH]; [done|]. cbn [mbind list_bind]. rewrite filter_cons. unfold ls_entry at 1.
  destruct (Z.eqb_spec (fst de) 0) as [E|E].
  - rewrite decide_False by naive_solver. apply IH. intros x Hx. apply He. by right.
  - rewrite decide_True by done. destruct (He de ltac:(left) E) as [H1 ->]. cbn [mbind list_bind].
    rewrite fmtname_last, line_text by done. f_equal. apply IH. intros x Hx. apply He. by right.
Qed.
