(* ===== verification/Msgbox.v ===== *)
(** The mailbox of lab-05/msgbox.c, over the message queues of POSIX.

    The queues belong to the host: they are operations on an unknown state ([queues]) with the laws of
    mq_overview(7) as hypotheses ([queues_ok]), and a map of lists meets them.  What the program adds is the
    layout of a message in a struct on the stack, which is not cleared: the bytes it held
    are an argument of [send_message]. *)

From S2P Require Import Prelude State Spinlock Cprintf.

(** * The queues of the host *)

(** What a queue is made of: [struct mq_attr], and the messages, the oldest first. *)
Record mqueue := mkMqueue {
  mq_maxmsg : Z;
  mq_msgsize : Z;
  mq_msgs : list (list Z);
}.

Definition with_mq_msgs (l : list (list Z)) (q : mqueue) : mqueue := mkMqueue (mq_maxmsg q) (mq_msgsize q) l.

(** What a call gives: a result, a failure (-1), or it has to wait. *)
Inductive answer (A : Type) := Got (a : A) | Fails | Waits.
Arguments Got {_} _.
Arguments Fails {_}.
Arguments Waits {_}.

(** The calls, by the name of the queue; [mq_receive] is given the size of the buffer, and [Waits] is what
    a queue opened with [O_NONBLOCK] reports as -1. *)
Class queues (σ : Type) := Queues {
  mq_view : σ → list Z → option mqueue;
  mq_create : list Z → Z → Z → σ → answer σ;
  mq_unlink : list Z → σ → answer σ;
  mq_send : list Z → list Z → σ → answer σ;
  mq_receive : list Z → Z → σ → answer (list Z * σ);
}.

(** [s'] is [s] but for the queue [n], which is [q]. *)
Definition changed `{queues σ} (n : list Z) (q : option mqueue) (s s' : σ) : Prop :=
  mq_view s' n = q ∧ ∀ n', n' ≠ n → mq_view s' n' = mq_view s n'.

Class queues_ok (σ : Type) `{queues σ} : Prop := QueuesOk {
  create_new s n m k : mq_view s n = None → 0 < m → 0 < k →
    ∃ s', mq_create n m k s = Got s' ∧ changed n (Some (mkMqueue m k [])) s s';
  create_old s n m k q : mq_view s n = Some q → mq_create n m k s = Fails;
  unlink_some s n q : mq_view s n = Some q → ∃ s', mq_unlink n s = Got s' ∧ changed n None s s';
  unlink_none s n : mq_view s n = None → mq_unlink n s = Fails;
  send_room s n q msg : mq_view s n = Some q → Z.of_nat (length msg) ≤ mq_msgsize q → Z.of_nat (length (mq_msgs q)) < mq_maxmsg q →
    ∃ s', mq_send n msg s = Got s' ∧ changed n (Some (with_mq_msgs (mq_msgs q ++ [msg]) q)) s s';
  send_full s n q msg : mq_view s n = Some q → Z.of_nat (length msg) ≤ mq_msgsize q → Z.of_nat (length (mq_msgs q)) = mq_maxmsg q →
    mq_send n msg s = Waits;
  receive_some s n q k msg l : mq_view s n = Some q → mq_msgsize q ≤ k → mq_msgs q = msg :: l →
    ∃ s', mq_receive n k s = Got (msg, s') ∧ changed n (Some (with_mq_msgs l q)) s s';
  receive_none s n q k : mq_view s n = Some q → mq_msgsize q ≤ k → mq_msgs q = [] → mq_receive n k s = Waits;
}.

(** * The program *)

Definition MAX_MSG_SIZE : nat := 100.
Definition MAX_MSGS : Z := 10.
Definition USERNAME_MAXSIZE : nat := 15.

(** [sizeof(msg_t)]: [sender], then [text]. *)
Definition MSG_SIZE : nat := USERNAME_MAXSIZE + MAX_MSG_SIZE.

(** [strncpy(dst + off, src, n)] in the bytes of a struct: [n] bytes, with zeros after a short [src]. *)
Definition strncpy (dst : list Z) (off : nat) (src : list Z) (n : nat) : list Z :=
  splice dst off (take n (src ++ replicate n 0)).

(** The string at the start of [l]; without an end, what follows the struct is read. *)
Fixpoint cstring (l : list Z) : option (list Z) :=
  match l with
  | [] => None
  | c :: l' => if c =? 0 then Some [] else cons c <$> cstring l'
  end.

Section msgbox.
Context {σ : Type} {HQ : queues σ}.

(** The queues, and what the program has printed. *)
Abbreviation M := (prog (σ * list Z)).

Definition printf (s : list Z) : M unit := modify (λ w, (fst w, snd w ++ s)).
Definition set_queues (s : σ) : M unit := modify (λ w, (s, snd w)).

(** [mq_open(queue_name, ...)] of a queue that should exist; a null name is none. *)
Definition open_queue (queue_name : option (list Z)) : M (list Z) :=
  n <- deref queue_name ;;
  w <- get ;;
  match mq_view (fst w) n with
  | None => panic "mq_open"
  | Some _ => ret n
  end.

(** [mq_send] of a queue that blocks: when it goes on there is room. *)
Definition blocking_send (n msg : list Z) : M unit := λ w,
  match mq_send n msg (fst w) with
  | Got s => Done tt (s, snd w)
  | Fails => Panicked "mq_send"
  | Waits => Swtch w (λ w', match mq_send n msg (fst w') with
                           | Got s => Done tt (s, snd w')
                           | Fails => Panicked "mq_send"
                           | Waits => Diverged
                           end)
  end.

(** The message that is sent; [stack] are the bytes the struct held. *)
Definition new_message (stack login message : list Z) : list Z :=
  strncpy (strncpy stack 0 login (USERNAME_MAXSIZE - 1)) USERNAME_MAXSIZE message (MAX_MSG_SIZE - 1).

(** [login]: what [getlogin()] returns. *)
Definition send_message (stack : list Z) (login : option (list Z)) (queue_name : option (list Z)) (message : list Z) : M unit :=
  n <- open_queue queue_name ;;
  l <- deref login ;;
  blocking_send n (new_message stack l message).

(** The two [printf]s of a message. *)
Definition print_message (msg : list Z) : M unit :=
  sender <- deref (cstring msg) ;;
  printf (bytes "Remitente: " ++ sender ++ [NEWLINE]) ;;;
  text <- deref (cstring (drop USERNAME_MAXSIZE msg)) ;;
  printf (bytes "Mensaje: " ++ text ++ [NEWLINE]).

Definition receive_message (queue_name : option (list Z)) : M unit :=
  n <- open_queue queue_name ;;
  w <- get ;;
  match mq_receive n (Z.of_nat MSG_SIZE) (fst w) with
  | Got (msg, s) =>
      set_queues s ;;;
      printf (bytes "Mensaje recibido:" ++ [NEWLINE]) ;;;
      print_message msg
  | _ => panic "mq_receive: no hay mensajes en la cola"
  end.

(** [while (mq_receive(...) != -1)]; each turn takes a message. *)
Fixpoint receive_loop (fuel : nat) (n : list Z) : M unit :=
  match fuel with
  | O => diverge
  | S fuel' =>
      w <- get ;;
      match mq_receive n (Z.of_nat MSG_SIZE) (fst w) with
      | Got (msg, s) => set_queues s ;;; print_message msg ;;; receive_loop fuel' n
      | _ => ret tt
      end
  end.

Definition messages (n : list Z) (s : σ) : list (list Z) := default [] (mq_msgs <$> mq_view s n).

Definition receive_all_messages (queue_name : option (list Z)) : M unit :=
  n <- open_queue queue_name ;;
  printf (bytes "Mensajes en la cola " ++ n ++ bytes ":" ++ [NEWLINE]) ;;;
  w <- get ;;
  receive_loop (S (length (messages n (fst w)))) n.

(** [turns] turns of the loop that never ends: a turn waits for a message. *)
Fixpoint listen_loop (turns : nat) (n : list Z) : M unit :=
  match turns with
  | O => diverge
  | S turns' =>
      λ w, match mq_receive n (Z.of_nat MSG_SIZE) (fst w) with
           | Got (msg, s) => (set_queues s ;;; print_message msg ;;; listen_loop turns' n) w
           | Fails => listen_loop turns' n w
           | Waits => Swtch w (listen_loop turns' n)
           end
  end.

Definition listen_messages (turns : nat) (queue_name : option (list Z)) : M unit :=
  n <- open_queue queue_name ;;
  printf (bytes "Escuchando mensajes en la cola " ++ n ++ bytes "..." ++ [NEWLINE]) ;;;
  listen_loop turns n.

Definition create_queue (queue_name : option (list Z)) : M unit :=
  n <- deref queue_name ;;
  w <- get ;;
  match mq_create n MAX_MSGS (Z.of_nat MSG_SIZE) (fst w) with
  | Got s => set_queues s ;;; printf (bytes "Cola de mensajes " ++ n ++ bytes " creada" ++ [NEWLINE])
  | _ => panic "mq_open"
  end.

Definition delete_queue (queue_name : option (list Z)) : M unit :=
  n <- deref queue_name ;;
  w <- get ;;
  match mq_unlink n (fst w) with
  | Got s => set_queues s ;;; printf (bytes "Cola de mensajes " ++ n ++ bytes " eliminada" ++ [NEWLINE])
  | _ => panic "mq_unlink"
  end.

(** The numbers that [queue_info] prints: the most messages, their size, how many there are. *)
Definition queue_info (queue_name : option (list Z)) : M (Z * Z * Z) :=
  n <- open_queue queue_name ;;
  w <- get ;;
  q <- deref (mq_view (fst w) n) ;;
  ret (mq_maxmsg q, mq_msgsize q, Z.of_nat (length (mq_msgs q))).

(** [argv] is the command line; [exit] with a failure is [panic]. *)
Definition main (turns : nat) (stack : list Z) (login : option (list Z)) (argv : list (list Z)) : M unit :=
  match argv with
  | _ :: o :: args =>
      option <- deref ((o ++ [0]) !! 1%nat) ;;
      let queue_name := head args in
      if option =? 115 then
        match args with
        | _ :: message :: _ => send_message stack login queue_name message
        | _ => panic "Uso"
        end
      else if option =? 114 then receive_message queue_name
      else if option =? 97 then receive_all_messages queue_name
      else if option =? 108 then listen_messages turns queue_name
      else if option =? 99 then create_queue queue_name
      else if option =? 100 then delete_queue queue_name
      else if option =? 105 then queue_info queue_name ;;; ret tt
      else if option =? 104 then ret tt
      else panic "Comando desconocido"
  | _ => panic "Uso"
  end.
End msgbox.

(** * Messages *)

(** Strings that [strncpy] of [n] bytes ends. *)
Definition fits (n : nat) (s : list Z) : Prop := Forall (λ c, c ≠ 0) s ∧ (length s < n)%nat.

Lemma cstring_end s l : Forall (λ c, c ≠ 0) s → cstring (s ++ 0 :: l) = Some s.
Proof.
  induction 1 as [|c s Hc _ IH]; [done|]. cbn. by rewrite (proj2 (Z.eqb_neq _ _) Hc), IH.
Qed.

Lemma cstring_unended s : Forall (λ c, c ≠ 0) s → cstring s = None.
Proof. induction 1 as [|c s Hc _ IH]; [done|]. cbn. by rewrite (proj2 (Z.eqb_neq _ _) Hc), IH. Qed.

(** What [strncpy] copies. *)
Definition copied (n : nat) (s : list Z) : list Z := take n (s ++ replicate n 0).

Lemma length_copied n s : length (copied n s) = n.
Proof. unfold copied. rewrite length_take, length_app, length_replicate. lia. Qed.

Lemma copied_fits n s : fits n s → ∃ l, copied n s = s ++ 0 :: l.
Proof.
  intros [_ Hl]. unfold copied. rewrite take_app, take_ge by lia. exists (replicate (n - length s - 1) 0). f_equal.
  rewrite take_replicate. replace (n - length s `min` n)%nat with (n - length s)%nat by lia.
  replace ((n - length s) `min` n)%nat with (S (n - length s - 1)) by lia. done.
Qed.

(** The message: the name, a byte that was on the stack, the text, another such byte. *)
Lemma new_message_bytes stack login message : length stack = MSG_SIZE →
  new_message stack login message =
    copied 14 login ++ [default 0 (stack !! 14%nat)] ++ copied 99 message ++ [default 0 (stack !! 114%nat)].
Proof.
  intros Hl. unfold new_message, strncpy, USERNAME_MAXSIZE, MAX_MSG_SIZE. cbn [Nat.sub].
  fold (copied 14 login) (copied 99 message). unfold MSG_SIZE, USERNAME_MAXSIZE, MAX_MSG_SIZE in Hl.
  destruct (lookup_lt_is_Some_2 stack 14) as [x Hx]; [lia|]. destruct (lookup_lt_is_Some_2 stack 114) as [y Hy]; [lia|].
  rewrite Hx, Hy. cbn [default]. unfold splice. rewrite !length_copied, !take_0, !app_nil_l, !Nat.add_0_l.
  rewrite take_app, drop_app, !length_copied, (take_ge (copied 14 login)), (drop_ge (copied 14 login)) by (rewrite length_copied; lia).
  rewrite drop_drop. change (14 + (15 + 99 - 14))%nat with 114%nat. rewrite (drop_S _ _ _ Hx), (drop_S _ _ _ Hy), (drop_ge stack 115) by lia.
  cbn [take Nat.sub app]. by rewrite <-app_assoc.
Qed.

Lemma message_read stack login message : length stack = MSG_SIZE → fits 14 login → fits 99 message →
  cstring (new_message stack login message) = Some login ∧
  cstring (drop USERNAME_MAXSIZE (new_message stack login message)) = Some message ∧
  length (new_message stack login message) = MSG_SIZE.
Proof.
  intros Hs Hl Hm. rewrite new_message_bytes by done. destruct (copied_fits _ _ Hl) as [l1 E1], (copied_fits _ _ Hm) as [l2 E2].
  split; [|split].
  - rewrite E1, <-app_assoc. cbn. apply cstring_end, Hl.
  - unfold USERNAME_MAXSIZE. rewrite drop_app_ge, length_copied by (rewrite length_copied; lia). cbn [Nat.sub app drop].
    rewrite E2, <-app_assoc. apply cstring_end, Hm.
  - rewrite !length_app, !length_copied. done.
Qed.

Section fifo.
Context {σ : Type} {HQ : queues σ} {Hok : queues_ok σ}.

Lemma print_message_ok stack login message (w : σ * list Z) : length stack = MSG_SIZE → fits 14 login → fits 99 message →
  print_message (new_message stack login message) w =
    Done tt (fst w, snd w ++ bytes "Remitente: " ++ login ++ [NEWLINE] ++ bytes "Mensaje: " ++ message ++ [NEWLINE]).
Proof.
  intros Hs Hl Hm. destruct (message_read stack login message Hs Hl Hm) as (E1 & E2 & _). unfold print_message.
  rewrite E1, E2. cbn [deref]. erewrite bind_done by done. erewrite bind_done by done. erewrite bind_done by done.
  unfold printf, modify. cbn [fst snd]. by rewrite <-!app_assoc.
Qed.

(** A message as the program is given it, and as it prints it. *)
Record mail := mkMail {
  ml_stack : list Z;
  ml_login : list Z;
  ml_text : list Z;
}.

Definition mail_ok (m : mail) : Prop := length (ml_stack m) = MSG_SIZE ∧ fits 14 (ml_login m) ∧ fits 99 (ml_text m).
Definition encoded (m : mail) : list Z := new_message (ml_stack m) (ml_login m) (ml_text m).
Definition shown (m : mail) : list Z :=
  bytes "Remitente: " ++ ml_login m ++ [NEWLINE] ++ bytes "Mensaje: " ++ ml_text m ++ [NEWLINE].

(** The queue [n] is one of [create_queue] and holds [ms]. *)
Definition holds (n : list Z) (ms : list mail) (s : σ) : Prop :=
  mq_view s n = Some (mkMqueue MAX_MSGS (Z.of_nat MSG_SIZE) (encoded <$> ms)).

Lemma send_message_ok n ms m s out : holds n ms s → Z.of_nat (length ms) < MAX_MSGS → mail_ok m →
  ∃ s', send_message (ml_stack m) (Some (ml_login m)) (Some n) (ml_text m) (s, out) = Done tt (s', out) ∧
    changed n (Some (mkMqueue MAX_MSGS (Z.of_nat MSG_SIZE) (encoded <$> ms ++ [m]))) s s'.
Proof.
  intros Hh Hlt (H1 & H2 & H3). unfold send_message, open_queue.
  erewrite bind_done; [|erewrite bind_done by done; erewrite bind_done by done; cbn [fst]; rewrite Hh; reflexivity].
  erewrite bind_done by done. unfold blocking_send. fold (encoded m). destruct (message_read _ _ _ H1 H2 H3) as (_ & _ & Hlen). fold (encoded m) in Hlen.
  destruct (send_room s n _ (encoded m) Hh) as (s' & E & C); [cbn [mq_msgsize]; by rewrite Hlen|cbn [mq_msgs mq_maxmsg]; by rewrite length_fmap|].
  cbn [fst snd]. rewrite E. exists s'. split; [done|]. rewrite fmap_app. exact C.
Qed.

Lemma receive_loop_ok n ms : ∀ fuel s out, holds n ms s → Forall mail_ok ms → (length ms < fuel)%nat →
  ∃ s', receive_loop fuel n (s, out) = Done tt (s', out ++ mjoin (shown <$> ms)) ∧ holds n [] s' ∧ ∀ n', n' ≠ n → mq_view s' n' = mq_view s n'.
Proof.
  induction ms as [|m ms IH]; intros [|fuel] s out Hh Hms Hf; [cbn in Hf; lia| |cbn in Hf; lia|]; cbn [receive_loop].
  - erewrite bind_done by done. cbn [fst]. rewrite (receive_none s n _ _ Hh) by done. exists s. split; [cbn; by rewrite app_nil_r|done].
  - apply Forall_cons in Hms as [(H1 & H2 & H3) Hms]. erewrite bind_done by done. cbn [fst].
    destruct (receive_some s n _ (Z.of_nat MSG_SIZE) (encoded m) (encoded <$> ms) Hh) as (s1 & E & C1 & C2); [done|done|].
    rewrite E. erewrite bind_done by done. unfold encoded. erewrite bind_done by (by apply print_message_ok).
    cbn [fst snd]. fold (shown m). destruct (IH fuel s1 (out ++ shown m)) as (s2 & E2 & Hs2 & F2); [done|done|cbn in Hf; lia|].
    exists s2. rewrite E2. split; [rewrite fmap_cons; change (mjoin (shown m :: ?l)) with (shown m ++ mjoin l); by rewrite app_assoc|]. split; [done|]. intros n' Hn. by rewrite F2, C2.
Qed.

Lemma send_all_ok n new : ∀ ms s out, holds n ms s → Z.of_nat (length ms + length new) ≤ MAX_MSGS → Forall mail_ok new →
  ∃ s', for_each new (λ m, send_message (ml_stack m) (Some (ml_login m)) (Some n) (ml_text m)) (s, out) = Done tt (s', out) ∧
    holds n (ms ++ new) s' ∧ ∀ n', n' ≠ n → mq_view s' n' = mq_view s n'.
Proof.
  induction new as [|m new IH]; intros ms s out Hh Hl Hn.
  - exists s. rewrite app_nil_r. done.
  - apply Forall_cons in Hn as [Hm Hn]. cbn [for_each length] in *.
    destruct (send_message_ok n ms m s out Hh) as (s1 & E1 & C1 & C2); [lia|done|]. erewrite bind_done by exact E1.
    destruct (IH (ms ++ [m]) s1 out C1) as (s2 & E2 & Hh2 & F2); [rewrite length_app; cbn; lia|done|].
    exists s2. split; [done|]. rewrite <-app_assoc in Hh2. split; [done|]. intros n' Hn'. by rewrite F2, C2.
Qed.
End fifo.

(** C28: the mailbox delivers.  After [create_queue] of a new name, up to ten messages that are sent are
    printed by [receive_all_messages] in the order in which they were sent, each with the name of its sender,
    byte for byte, whatever the stack held; the queue is empty afterwards, and other queues are as
    they were.  Names are shorter than 14 bytes and texts shorter than 99. *)
Theorem mailbox_delivers {σ} `{queues_ok σ} n (ms : list mail) (s : σ) out :
  mq_view s n = None → Z.of_nat (length ms) ≤ MAX_MSGS → Forall mail_ok ms →
  ∃ s', (create_queue (Some n) ;;;
         for_each ms (λ m, send_message (ml_stack m) (Some (ml_login m)) (Some n) (ml_text m)) ;;;
         receive_all_messages (Some n)) (s, out) =
      Done tt (s', out ++ (bytes "Cola de mensajes " ++ n ++ bytes " creada" ++ [NEWLINE]) ++
                   (bytes "Mensajes en la cola " ++ n ++ bytes ":" ++ [NEWLINE]) ++ mjoin (shown <$> ms)) ∧
    messages n s' = [] ∧ ∀ n', n' ≠ n → mq_view s' n' = mq_view s n'.
Proof.
  intros Hn Hl Hms. unfold create_queue. destruct (create_new s n MAX_MSGS (Z.of_nat MSG_SIZE) Hn) as (s1 & E1 & C1 & F1); [done|done|].
  erewrite bind_done; [|erewrite bind_done by done; erewrite bind_done by done; cbn [fst]; rewrite E1; erewrite bind_done by done; reflexivity].
  cbn [fst snd]. destruct (send_all_ok n ms [] s1 (out ++ bytes "Cola de mensajes " ++ n ++ bytes " creada" ++ [NEWLINE]) C1) as (s2 & E2 & Hh2 & F2); [done|done|].
  erewrite bind_done by exact E2. unfold receive_all_messages, open_queue.
  erewrite bind_done; [|erewrite bind_done by done; erewrite bind_done by done; cbn [fst]; rewrite Hh2; reflexivity].
  erewrite bind_done by done. erewrite bind_done by done. cbn [fst snd].
  destruct (receive_loop_ok n ms (S (length (messages n s2))) s2 ((out ++ bytes "Cola de mensajes " ++ n ++ bytes " creada" ++ [NEWLINE]) ++
    bytes "Mensajes en la cola " ++ n ++ bytes ":" ++ [NEWLINE]) Hh2 Hms) as (s3 & E3 & Hh3 & F3).
  { unfold messages. rewrite Hh2. cbn. rewrite length_fmap. lia. }
  exists s3. split; [rewrite E3; do 2 f_equal; by rewrite <-!app_assoc|]. split.
  - unfold messages. by rewrite Hh3.
  - intros n' Hn'. by rewrite F3, F2, F1.
Qed.

(** A text of 99 bytes or more is sent without its end: if the byte of the stack that follows is not zero,
    the program that prints it reads past the message. *)
Theorem long_text_unended {σ} `{queues σ} stack login text (w : σ * list Z) :
  length stack = MSG_SIZE → fits 14 login → Forall (λ c, c ≠ 0) text → (99 ≤ length text)%nat → stack !! 114%nat ≠ Some 0 →
  cstring (drop USERNAME_MAXSIZE (new_message stack login text)) = None ∧
  print_message (new_message stack login text) w = Panicked "page fault".
Proof.
  intros Hs Hl Ht Hlen Hy. destruct (copied_fits _ _ Hl) as [l1 E1].
  assert (Hd : cstring (drop USERNAME_MAXSIZE (new_message stack login text)) = None).
  { rewrite new_message_bytes by done. unfold USERNAME_MAXSIZE. rewrite drop_app_ge, length_copied by (rewrite length_copied; lia).
    cbn [Nat.sub app drop]. apply cstring_unended. apply Forall_app. split.
    - unfold copied. rewrite take_app_le by lia. by apply Forall_take.
    - apply Forall_singleton. destruct (lookup_lt_is_Some_2 stack 114) as [y E]; [rewrite Hs; unfold MSG_SIZE, USERNAME_MAXSIZE, MAX_MSG_SIZE; lia|].
      rewrite E in *. cbn. congruence. }
  split; [done|]. unfold print_message. rewrite Hd.
  assert (Hc : cstring (new_message stack login text) = Some login).
  { rewrite new_message_bytes by done. rewrite E1, <-app_assoc. apply cstring_end, Hl. }
  rewrite Hc. by do 2 (erewrite bind_done by done).
Qed.

(** ** Queues as a map *)

#[export] Instance map_queues : queues (gmap (list Z) mqueue) := {
  mq_view s n := s !! n;
  mq_create n m k s :=
    match s !! n with
    | None => if (0 <? m) && (0 <? k) then Got (<[n := mkMqueue m k []]> s) else Fails
    | Some _ => Fails
    end;
  mq_unlink n s := match s !! n with Some _ => Got (delete n s) | None => Fails end;
  mq_send n msg s :=
    match s !! n with
    | Some q =>
        if Z.of_nat (length msg) <=? mq_msgsize q then
          if Z.of_nat (length (mq_msgs q)) <? mq_maxmsg q then Got (<[n := with_mq_msgs (mq_msgs q ++ [msg]) q]> s) else Waits
        else Fails
    | None => Fails
    end;
  mq_receive n k s :=
    match s !! n with
    | Some q =>
        if mq_msgsize q <=? k then
          match mq_msgs q with msg :: l => Got (msg, <[n := with_mq_msgs l q]> s) | [] => Waits end
        else Fails
    | None => Fails
    end;
}.

#[export] Instance map_queues_ok : queues_ok (gmap (list Z) mqueue).
Proof.
  assert (Hins : ∀ (s : gmap (list Z) mqueue) n q, changed n (Some q) s (<[n := q]> s)).
  { intros s n q. split; [apply lookup_insert_eq|]. intros n' Hn. by apply lookup_insert_ne. }
  constructor; cbn.
  - intros s n m k -> Hm Hk. replace (_ && _) with true by lia. eexists. split; [reflexivity|apply Hins].
  - by intros s n m k q ->.
  - intros s n q ->. eexists. split; [reflexivity|]. split; [apply lookup_delete_eq|]. intros n' Hn. by apply lookup_delete_ne.
  - by intros s n ->.
  - intros s n q msg -> H1 H2. replace (_ <=? _) with true by lia. replace (_ <? _) with true by lia.
    eexists. split; [reflexivity|apply Hins].
  - intros s n q msg -> H1 H2. replace (_ <=? _) with true by lia. by replace (_ <? _) with false by lia.
  - intros s n q k msg l -> H1 ->. replace (_ <=? _) with true by lia. eexists. split; [reflexivity|apply Hins].
  - intros s n q k -> H1 ->. by replace (_ <=? _) with true by lia.
Qed.

Definition demo_mail : list mail :=
  [mkMail (replicate 115 7) (bytes "ana") (bytes "hola"); mkMail (replicate 115 7) (bytes "luis") (bytes "chau")].

Lemma mailbox_delivers_witness :
  ∃ s', (create_queue (Some (bytes "/q")) ;;;
         for_each demo_mail (λ m, send_message (ml_stack m) (Some (ml_login m)) (Some (bytes "/q")) (ml_text m)) ;;;
         receive_all_messages (Some (bytes "/q"))) (∅ : gmap (list Z) mqueue, []) =
      Done tt (s', bytes "Cola de mensajes /q creada
Mensajes en la cola /q:
Remitente: ana
Mensaje: hola
Remitente: luis
Mensaje: chau
").
Proof.
  destruct (mailbox_delivers (σ := gmap (list Z) mqueue) (bytes "/q") demo_mail ∅ []) as (s' & E & _).
  - reflexivity.
  - discriminate.
  - repeat (apply Forall_cons; split; [split; [reflexivity|split; (split; [by repeat constructor|cbn; lia])]|]). apply Forall_nil. exact Logic.I.
  - exists s'. exact E.
Defined.
