(* ===== verification/Race.v ===== *)
(** The threads of lab-04/sched-threads.c, which share a buffer and a position without a lock, and
    [test_thread] of lab-04/benchmark.c.

    As in Threads, a thread is a step function, one step per access to a shared variable, and the executions
    are all interleavings.  The theorem: although increments of [pos] may be lost, no thread
    ever writes outside the buffer, and the program ends after a number of steps that does not depend on
    the schedule; under a schedule that runs one thread after the other, as [SCHED_FIFO] does on one
    CPU, the buffer shows the threads in order. *)

From S2P Require Import Prelude Threads.

(** Where a thread is in its loops: before the test of the inner loop, between reading [pos] and writing
    [buf[pos]], after the inner loop, and between reading [pos] and writing it. *)
Inductive pc := Test (j : Z) | Write (j p : Z) | Read | Store (p : Z).

Record thread := mkThread {
  t_i : Z;
  t_pc : pc;
}.

Record state := mkState {
  pos : Z;
  buf : list Z;
  thr : list thread;
}.

(** The turns of the inner loop. *)
Definition TURNS : Z := 0xFFFFFF.

(** One step of [write_buffer] of thread [id]: the new [pos], [buf] and thread. *)
Definition write_buffer (turns items id p : Z) (b : list Z) (t : thread) : result (Z * list Z * thread) :=
  if t_i t <? items then
    match t_pc t with
    | Test j => Step (p, b, mkThread (t_i t) (if j <? turns then Write j p else Read))
    | Write j q =>
        if (0 <=? q) && (q <? Z.of_nat (length b)) then Step (p, <[Z.to_nat q := id]> b, mkThread (t_i t) (Test (j + 1)))
        else Fault
    | Read => Step (p, b, mkThread (t_i t) (Store p))
    | Store q => Step (q + 1, b, mkThread (t_i t + 1) (Test 0))
    end
  else Blocked.

Definition step (turns items : Z) (id : nat) (s : state) : result state :=
  match thr s !! id with
  | None => Blocked
  | Some t =>
      match write_buffer turns items (Z.of_nat id) (pos s) (buf s) t with
      | Step (p, b, t') => Step (mkState p b (<[id := t']> (thr s)))
      | Blocked => Blocked
      | Fault => Fault
      end
  end.

(** The threads that [main] creates, and the buffer it clears. *)
Definition start (count items : Z) : state :=
  mkState 0 (replicate (Z.to_nat (count * items)) 0) (replicate (Z.to_nat count) (mkThread 0 (Test 0))).

(** [main]: a message when its arguments are wrong, and otherwise the buffers it may print when all threads
    have ended; [R] is 82 and [F] is 70. *)
Definition main (policy count items : Z) (out : string + list Z) : Prop :=
  if count <=? 0 then out = inl "Error: el numero de hilos debe ser mayor que cero."
  else if items <=? 0 then out = inl "Error: el numero de items debe ser mayor que cero."
  else if negb (policy =? 82) && negb (policy =? 70) then out = inl "Error: opción invalida"
  else ∃ k s, runs (step TURNS items) k (start count items) s ∧ (∀ id, step TURNS items id s = Blocked) ∧ out = inr (buf s).

(** * What the threads do *)

Definition sumz {A} (f : A → Z) (l : list A) : Z := foldr (λ x n, f x + n) 0 l.

Lemma sumz_insert {A} (f : A → Z) l i x y : l !! i = Some x → sumz f (<[i := y]> l) = sumz f l - f x + f y.
Proof.
  revert i. induction l as [|z l IH]; intros [|i] Hi; [done|done| |].
  - injection Hi as ->. cbn. lia.
  - change (sumz f (<[S i := y]> (z :: l))) with (f z + sumz f (<[i := y]> l)). change (sumz f (z :: l)) with (f z + sumz f l).
    rewrite IH by done. lia.
Qed.

Lemma sumz_replicate {A} (f : A → Z) n x : sumz f (replicate n x) = Z.of_nat n * f x.
Proof. induction n as [|n IH]; [done|]. change (sumz f (replicate (S n) x)) with (f x + sumz f (replicate n x)). rewrite IH. lia. Qed.

Lemma sumz_bound {A} (f : A → Z) l m : Forall (λ x, 0 ≤ f x ≤ m) l → 0 ≤ sumz f l ≤ Z.of_nat (length l) * m.
Proof. induction 1 as [|x l Hx _ IH]; [done|]. change (sumz f (x :: l)) with (f x + sumz f l). cbn [length]. lia. Qed.

Lemma sumz_below {A} (f : A → Z) l m i x : Forall (λ x, 0 ≤ f x ≤ m) l → l !! i = Some x → f x < m → sumz f l < Z.of_nat (length l) * m.
Proof.
  intros H. revert i. induction H as [|y l Hy H IH]; intros [|i] Hi Hx; [done|done| |].
  - injection Hi as ->. change (sumz f (x :: l)) with (f x + sumz f l). cbn [length]. pose proof (sumz_bound f l m H). lia.
  - change (sumz f (y :: l)) with (f y + sumz f l). cbn [length]. specialize (IH i Hi Hx). lia.
Qed.

Section race.
Context (turns count items : Z) (Ht : 0 ≤ turns) (Hc : 0 < count) (Hi : 0 < items).

(** The items that have been written, by all threads. *)
Definition total (s : state) : Z := sumz t_i (thr s).

(** What a thread knows of [pos] is no more than the items written. *)
Definition thread_ok (k : Z) (t : thread) : Prop :=
  0 ≤ t_i t ≤ items ∧
  match t_pc t with
  | Test j => 0 ≤ j ≤ turns ∧ (t_i t = items → j = 0)
  | Write j p => 0 ≤ j < turns ∧ 0 ≤ p ≤ k ∧ t_i t < items
  | Read => t_i t < items
  | Store p => 0 ≤ p ≤ k ∧ t_i t < items
  end.

Record inv (s : state) : Prop := mkInv {
  iv_pos : 0 ≤ pos s ≤ total s;
  iv_min : total s ≠ 0 → 1 ≤ pos s;
  iv_buf : Z.of_nat (length (buf s)) = count * items;
  iv_ids : Forall (λ v, 0 ≤ v < count) (buf s);
  iv_count : Z.of_nat (length (thr s)) = count;
  iv_thr : Forall (thread_ok (total s)) (thr s);
}.

(** The steps a thread has ahead. *)
Definition ahead (t : thread) : Z :=
  (items - t_i t) * (2 * turns + 3) -
  match t_pc t with Test j => 2 * j | Write j _ => 2 * j + 1 | Read => 2 * turns + 1 | Store _ => 2 * turns + 2 end.

Definition steps_left (s : state) : Z := sumz ahead (thr s).

Lemma start_inv : inv (start count items).
Proof.
  constructor; unfold start, total; cbn [pos buf thr]; rewrite ?sumz_replicate, ?length_replicate; cbn; try lia.
  - apply Forall_replicate. lia.
  - apply Forall_replicate. unfold thread_ok. cbn. lia.
Qed.

Lemma thread_ok_mono k k' t : k ≤ k' → thread_ok k t → thread_ok k' t.
Proof. unfold thread_ok. intros Hk [H1 H2]. split; [done|]. destruct (t_pc t); lia. Qed.

(** The thread [id] becomes [t']; [k] is the number of items then. *)
Lemma thr_update id s t t' k :
  inv s → thr s !! id = Some t → total s ≤ k → k = total s - t_i t + t_i t' → thread_ok k t' →
  total (mkState (pos s) (buf s) (<[id := t']> (thr s))) = k ∧ Forall (thread_ok k) (<[id := t']> (thr s)).
Proof.
  intros HI Hid Hle -> Hok. split; [unfold total; cbn [thr]; by rewrite (sumz_insert t_i _ _ t)|].
  apply Forall_insert; [|done]. eapply Forall_impl; [apply (iv_thr _ HI)|]. intros x. by apply thread_ok_mono.
Qed.

Lemma step_ok id s : inv s →
  step turns items id s ≠ Fault ∧ ∀ s', step turns items id s = Step s' → inv s' ∧ steps_left s' = steps_left s - 1.
Proof.
  intros HI. unfold step. destruct (thr s !! id) as [t|] eqn:Hid; [|done]. unfold write_buffer.
  destruct (Z.ltb_spec (t_i t) items) as [Hlt|]; [|done].
  pose proof (Forall_lookup_1 _ _ _ _ (iv_thr _ HI) Hid) as Hok. pose proof HI as [I1 I2 I3 I4 I5 I6].
  assert (Hb : Forall (λ t, 0 ≤ t_i t ≤ items) (thr s)) by (eapply Forall_impl; [exact I6|]; by intros x [? _]).
  pose proof (sumz_below t_i (thr s) items id t Hb Hid Hlt) as Htot. fold (total s) in Htot. rewrite I5 in Htot.
  assert (Hnext : ∀ t' p b, (p = pos s ∧ b = buf s ∧ t_i t' = t_i t ∨ p = pos s ∧ t_i t' = t_i t ∧ length b = length (buf s) ∧ Forall (λ v, 0 ≤ v < count) b ∨
      1 ≤ p ≤ total s + 1 ∧ b = buf s ∧ t_i t' = t_i t + 1) →
    thread_ok (total s - t_i t + t_i t') t' → ahead t' = ahead t - 1 →
    inv (mkState p b (<[id := t']> (thr s))) ∧ steps_left (mkState p b (<[id := t']> (thr s))) = steps_left s - 1).
  { intros t' p b Hc1 Hok' Ha. split.
    - destruct (thr_update id s t t' (total s - t_i t + t_i t') HI Hid) as [E1 E2]; [lia|done|done|].
      change (total (mkState (pos s) (buf s) (<[id := t']> (thr s)))) with (total (mkState p b (<[id := t']> (thr s)))) in E1.
      constructor; cbn [pos buf thr]; rewrite ?E1, ?length_insert; try done; destruct Hc1 as [(-> & -> & ?)|[(-> & ? & Hl & Hf)|(? & -> & ?)]]; try lia; try done.
    - unfold steps_left. cbn [thr]. rewrite (sumz_insert ahead _ _ t) by done. lia. }
  destruct Hok as [H1 H2]. destruct t as [i q]. cbn [t_i t_pc] in *. destruct q as [j|j p| |p]; cbn [t_pc] in H2.
  - split; [done|]. intros s' [= <-]. apply Hnext; [by left| |].
    + split; [done|]. cbn. destruct (Z.ltb_spec j turns); cbn; lia.
    + unfold ahead. cbn [t_i t_pc]. destruct (Z.ltb_spec j turns); cbn [t_i t_pc]; lia.
  - replace (_ && _) with true by lia. split; [done|]. intros s' [= <-]. apply Hnext.
    + right. left. rewrite length_insert. split; [done|]. split; [done|]. split; [done|]. apply Forall_insert; [done|].
      apply lookup_lt_Some in Hid. lia.
    + split; [done|]. cbn. lia.
    + unfold ahead. cbn [t_i t_pc]. lia.
  - split; [done|]. intros s' [= <-]. apply Hnext; [by left| |].
    + split; [done|]. cbn. lia.
    + unfold ahead. cbn [t_i t_pc]. lia.
  - split; [done|]. intros s' [= <-]. apply Hnext; [right; right; cbn; split; [lia|done]| |].
    + split; cbn; lia.
    + unfold ahead. cbn [t_i t_pc]. lia.
Qed.

Lemma ended_left s : inv s → (∀ id, step turns items id s = Blocked) → steps_left s = 0 ∧ total s = count * items.
Proof.
  intros HI Hend. assert (Hall : Forall (λ t, t_i t = items ∧ ahead t = 0) (thr s)).
  { apply Forall_lookup_2. intros id t Hid. specialize (Hend id). unfold step in Hend. rewrite Hid in Hend. unfold write_buffer in Hend.
    pose proof (Forall_lookup_1 _ _ _ _ (iv_thr _ HI) Hid) as [H1 H2]. destruct (Z.ltb_spec (t_i t) items) as [Hlt|Hge].
    - destruct (t_pc t); try done. by destruct (_ && _).
    - assert (t_i t = items) as E by lia. split; [done|]. unfold ahead. destruct (t_pc t); lia. }
  assert (Hsum : ∀ l, Forall (λ t, t_i t = items ∧ ahead t = 0) l → sumz ahead l = 0 ∧ sumz t_i l = Z.of_nat (length l) * items).
  { induction 1 as [|t l [E1 E2] _ [IH1 IH2]]; [done|]. cbn [length].
    change (sumz ahead (t :: l)) with (ahead t + sumz ahead l). change (sumz t_i (t :: l)) with (t_i t + sumz t_i l). lia. }
  destruct (Hsum _ Hall) as [E0 E]. split; [done|]. unfold total. rewrite E, (iv_count _ HI). done.
Qed.

Lemma runs_exact k s : runs (step turns items) k (start count items) s →
  inv s ∧ steps_left s = count * items * (2 * turns + 3) - Z.of_nat k.
Proof.
  intros H. remember (start count items) as s0 eqn:E0. induction H as [s|k id s1 s2 s3 _ IH Hs]; subst.
  - split; [apply start_inv|]. unfold steps_left, start. cbn [thr]. rewrite sumz_replicate. unfold ahead. cbn [t_i t_pc]. rewrite Z2Nat.id by lia. lia.
  - destruct (IH eq_refl) as [HI HL]. destruct (step_ok id s2 HI) as [_ Hn]. destruct (Hn s3 Hs) as [HI3 ->]. split; [done|]. lia.
Qed.

(** ** One thread after the other *)

(** The thread [id] writes its item at [p], wherever it is in the inner loop. *)
Lemma inner_loop id : ∀ n j i p b l, (0 ≤ i < items) → 0 ≤ j ≤ turns → turns - j = Z.of_nat n → l !! id = Some (mkThread i (Test j)) →
  0 ≤ p < Z.of_nat (length b) →
  runs (step turns items) (2 * n) (mkState p b l)
    (mkState p (if (n =? 0)%nat then b else <[Z.to_nat p := Z.of_nat id]> b) (<[id := mkThread i (Test turns)]> l)).
Proof.
  induction n as [|n IH]; intros j i p b l Hii Hj Hn Hl Hp.
  - assert (j = turns) as -> by lia. cbn. rewrite list_insert_id by done. constructor.
  - replace (2 * S n)%nat with (1 + (1 + 2 * n))%nat by lia. pose proof (lookup_lt_Some _ _ _ Hl) as Hlt.
    eapply runs_add; [eapply runs_1; unfold step, write_buffer; cbn [thr pos buf]; rewrite Hl; cbn [t_i t_pc];
      replace (i <? items) with true by lia; replace (j <? turns) with true by lia; reflexivity|].
    eapply runs_add.
    { eapply runs_1. unfold step, write_buffer. cbn [thr pos buf]. rewrite list_lookup_insert_eq by done. cbn [t_i t_pc].
      replace (i <? items) with true by lia. replace (_ && _) with true by lia. rewrite list_insert_insert_eq. reflexivity. }
    specialize (IH (j + 1) i p (<[Z.to_nat p := Z.of_nat id]> b) (<[id := mkThread i (Test (j + 1))]> l) Hii ltac:(lia) ltac:(lia)
      ltac:(by apply list_lookup_insert_eq) ltac:(rewrite length_insert; lia)).
    cbn [Nat.eqb]. destruct n; cbn [Nat.eqb] in IH; by rewrite !list_insert_insert_eq in IH.
Qed.

(** One item: the first free place of the buffer gets [id]. *)
Lemma one_item id i out n l : 0 < turns → 0 ≤ i < items → l !! id = Some (mkThread i (Test 0)) →
  ∃ k, runs (step turns items) k (mkState (Z.of_nat (length out)) (out ++ replicate (S n) 0) l)
    (mkState (Z.of_nat (length out) + 1) (out ++ Z.of_nat id :: replicate n 0) (<[id := mkThread (i + 1) (Test 0)]> l)).
Proof.
  intros Htp Hii Hl. pose proof (lookup_lt_Some _ _ _ Hl) as Hlt. set (p := Z.of_nat (length out)).
  pose proof (inner_loop id (Z.to_nat turns) 0 i p (out ++ replicate (S n) 0) l Hii ltac:(lia) ltac:(lia) Hl
    ltac:(rewrite length_app, length_replicate; lia)) as H1.
  replace (Z.to_nat turns =? 0)%nat with false in H1 by (symmetry; apply Nat.eqb_neq; lia).
  assert (Hins : <[Z.to_nat p := Z.of_nat id]> (out ++ replicate (S n) 0) = out ++ Z.of_nat id :: replicate n 0).
  { unfold p. rewrite Nat2Z.id, insert_app_r_alt, Nat.sub_diag by done. done. }
  rewrite Hins in H1.
  eexists. eapply runs_add; [exact H1|]. eapply runs_add.
  { eapply runs_1. unfold step, write_buffer. cbn [thr pos buf]. rewrite list_lookup_insert_eq by done. cbn [t_i t_pc].
    replace (i <? items) with true by lia. replace (turns <? turns) with false by lia. rewrite list_insert_insert_eq. reflexivity. }
  eapply runs_add.
  { eapply runs_1. unfold step, write_buffer. cbn [thr pos buf]. rewrite list_lookup_insert_eq by done. cbn [t_i t_pc].
    replace (i <? items) with true by lia. rewrite list_insert_insert_eq. reflexivity. }
  eapply runs_1. unfold step, write_buffer. cbn [thr pos buf]. rewrite list_lookup_insert_eq by done. cbn [t_i t_pc].
  replace (i <? items) with true by lia. rewrite list_insert_insert_eq. reflexivity.
Qed.

Lemma one_thread id m : ∀ i out n l, 0 < turns → 0 ≤ i → i + Z.of_nat m = items → l !! id = Some (mkThread i (Test 0)) →
  ∃ k, runs (step turns items) k (mkState (Z.of_nat (length out)) (out ++ replicate (m + n) 0) l)
    (mkState (Z.of_nat (length out + m)) (out ++ replicate m (Z.of_nat id) ++ replicate n 0) (<[id := mkThread items (Test 0)]> l)).
Proof.
  induction m as [|m IH]; intros i out n l Htp Hii Hm Hl.
  - exists 0%nat. assert (i = items) as -> by lia. rewrite list_insert_id, Nat.add_0_r by done. constructor.
  - pose proof (lookup_lt_Some _ _ _ Hl) as Hlt. destruct (one_item id i out (m + n) l Htp ltac:(lia) Hl) as [k1 H1].
    destruct (IH (i + 1) (out ++ [Z.of_nat id]) n (<[id := mkThread (i + 1) (Test 0)]> l)) as [k2 H2]; [done|lia|lia|by apply list_lookup_insert_eq|].
    exists (k1 + k2)%nat. eapply runs_add; [exact H1|]. rewrite list_insert_insert_eq, <-!app_assoc in H2. cbn [app] in H2.
    rewrite length_app in H2. cbn [length] in H2. replace (Z.of_nat (length out + 1)) with (Z.of_nat (length out) + 1) in H2 by lia.
    replace (length out + S m)%nat with (length out + 1 + m)%nat by lia. exact H2.
Qed.

(** The threads run one after the other: [d] have ended, [r] have not started. *)
Lemma all_threads r : ∀ d out, 0 < turns →
  let m := Z.to_nat items in
  ∃ k, runs (step turns items) k
    (mkState (Z.of_nat (length out)) (out ++ replicate (r * m) 0) (replicate d (mkThread items (Test 0)) ++ replicate r (mkThread 0 (Test 0))))
    (mkState (Z.of_nat (length out + r * m)) (out ++ mjoin ((λ id, replicate m (Z.of_nat id)) <$> seq d r)) (replicate (d + r) (mkThread items (Test 0)))).
Proof.
  intros d out Htp m. revert d out. induction r as [|r IH]; intros d out.
  - exists 0%nat. cbn [seq fmap list_fmap replicate Nat.mul]. rewrite !Nat.add_0_r, !app_nil_r. constructor.
  - set (l := replicate d (mkThread items (Test 0)) ++ replicate (S r) (mkThread 0 (Test 0))).
    assert (Hl : l !! d = Some (mkThread 0 (Test 0))).
    { unfold l. rewrite lookup_app_r, length_replicate, Nat.sub_diag by (rewrite length_replicate; lia). done. }
    destruct (one_thread d m 0 out (r * m) l Htp ltac:(lia) ltac:(lia) Hl) as [k1 H1].
    destruct (IH (S d) (out ++ replicate m (Z.of_nat d))) as [k2 H2]. exists (k1 + k2)%nat.
    assert (Hn : <[d := mkThread items (Test 0)]> l = replicate (S d) (mkThread items (Test 0)) ++ replicate r (mkThread 0 (Test 0))).
    { unfold l. rewrite insert_app_r_alt, length_replicate, Nat.sub_diag by (rewrite length_replicate; lia).
      rewrite (replicate_S_end d), <-app_assoc. done. }
    rewrite Hn in H1. rewrite length_app, length_replicate, <-!app_assoc in H2. change (S r * m)%nat with (m + r * m)%nat.
    eapply runs_add; [exact H1|]. replace (d + S r)%nat with (S d + r)%nat by lia.
    replace (length out + (m + r * m))%nat with (length out + m + r * m)%nat by lia. exact H2.
Qed.

Lemma left_nonneg s : inv s → 0 ≤ steps_left s.
Proof.
  intros HI. assert (H : Forall (λ t, 0 ≤ ahead t) (thr s)).
  { eapply Forall_impl; [apply (iv_thr _ HI)|]. intros t [H1 H2]. unfold ahead. destruct (t_pc t) as [j| | |]; [destruct (decide (t_i t = items))| | |]; nia. }
  unfold steps_left. induction H as [|t l Hx _ IH]; [done|]. change (sumz ahead (t :: l)) with (ahead t + sumz ahead l). lia.
Qed.

(** The program has ended when the steps are used up. *)
Lemma ended_iff k s : runs (step turns items) k (start count items) s →
  (∀ id, step turns items id s = Blocked) ↔ Z.of_nat k = count * items * (2 * turns + 3).
Proof.
  intros H. destruct (runs_exact k s H) as [HI HL]. split.
  - intros Hend. destruct (ended_left s HI Hend) as [E _]. lia.
  - intros Hk id. destruct (step turns items id s) as [s'| |] eqn:E; [|done|].
    + destruct (step_ok id s HI) as [_ Hn]. destruct (Hn s' E) as [HI' HL']. pose proof (left_nonneg s' HI'). lia.
    + by destruct (step_ok id s HI).
Qed.
End race.



(** Two threads that read [pos] before either writes it lose an increment. *)
Lemma increment_lost : ∃ k s, runs (step 1 1) k (start 2 1) s ∧ (∀ id, step 1 1 id s = Blocked) ∧ pos s = 1.
Proof.
  eexists _, _. split; [apply (follow_runs (step 1 1) [0; 0; 0; 0; 1; 1; 1; 1; 0; 1]%nat); vm_compute; reflexivity|].
  split; [|reflexivity]. by intros [|[|id]].
Qed.

(** * [test_thread] of lab-04/benchmark.c *)

Module Benchmark.

(** The first loop, from [t] on with [n] turns left: [t] after it, or the first error.  [rc t] is what [pthread_create]
    returns for element [t]. *)
Fixpoint create_all (rc : nat → Z) (t n : nat) : string + nat :=
  match n with
  | O => inr t
  | S n' => if rc t =? 0 then create_all rc (S t) n' else inl "ERROR; código de retorno de pthread_create()"
  end.

(** The second loop, from [k] on: the elements of [threads] that are joined, and the error it ends with, if any.  It
    counts with [k] but joins [threads[t]], where [t] is what the first loop has left; [rc k] is what [pthread_join] returns. *)
Fixpoint join_all (rc : nat → Z) (t k n : nat) : list nat * option string :=
  match n with
  | O => ([], None)
  | S n' =>
      if rc k =? 0 then let '(js, e) := join_all rc t (S k) n' in (t :: js, e)
      else ([t], Some "ERROR; código de retorno de pthread_join()"%string)
  end.

Definition test_thread (count : nat) (create join : nat → Z) : string + list nat * option string :=
  match create_all create 0 count with
  | inl e => inl e
  | inr t => inr (join_all join t 0 count)
  end.

Lemma create_all_end rc n : ∀ t t', create_all rc t n = inr t' → t' = (t + n)%nat.
Proof.
  induction n as [|n IH]; intros t t' E; cbn in E; [injection E as <-; lia|]. destruct (rc t =? 0); [|done].
  apply IH in E. lia.
Qed.

Lemma join_all_same rc t n : ∀ k, Forall (λ j, j = t) (fst (join_all rc t k n)).
Proof.
  induction n as [|n IH]; intros k; cbn [join_all]; [done|]. destruct (rc k =? 0); [|by repeat constructor].
  specialize (IH (S k)). destruct (join_all rc t (S k) n). by constructor.
Qed.

(** No thread is joined: every join reads the element after the last, and there is at least one. *)
Lemma joins_nothing count create join js e : (0 < count)%nat → test_thread count create join = inr (js, e) →
  js ≠ [] ∧ Forall (λ j, j = count) js.
Proof.
  unfold test_thread. intros Hc. destruct (create_all create 0 count) as [x|t] eqn:E; [done|].
  apply create_all_end in E as ->. intros [= Ej]. pose proof (join_all_same join count count 0) as H. rewrite Ej in H.
  split; [|exact H]. destruct count as [|n]; [lia|]. cbn [join_all] in Ej.
  destruct (join 0%nat =? 0); [destruct (join_all _ _ _ _)|]; by injection Ej as <- _.
Qed.
End Benchmark.
